(* ===== verification/_CoqProject ===== *)
-Q . S2P
Prelude.v
Crates.v
Frame.v
Ept.v
PageTable.v
KvmHal.v
KernelPaging.v
KernelMemory.v
Gpm.v
Apic.v
VmcsFields.v
Vmcs.v
Vcpu.v
VmExit.v
BlockCache.v
Vfs.v
Task.v
Syscall.v
UserLib.v
DevInodes.v
Devices.v
FatIo.v
FatTable.v
FatTime.v
FatEntry.v
FatBoot.v
FatName.v
FatFs.v
FatVolume.v
FatFile.v
FatDir.v
Fat32.v
ExtBlocks.v
Ext2Disk.v
Ext2Alloc.v
Ext2File.v
Ext2Write.v
Ext2Dir.v
Ext2Create.v
