(* ===== verification/Prelude.v ===== *)
(** * A verification library for the VMXKERNEL-OS kernel

    The program is a Rust operating system kernel for x86-64 with a small hypervisor, its file
    system crates, and a library for user programs. This library models its core as Rocq
    functions and proves what makes it correct. File and function names below are those of the
    repository.

    ** The program

    - Physical memory: a bitmap allocator of 4 KiB frames ([kernel/src/memory/frame.rs]),
      filled from the boot loader's memory map. Everything else takes frames from it.
    - Virtual memory: the kernel's page tables, copied for each process and freed with it, the
      memory manager that maps ranges, the heap, stacks, and the loading of programs.
    - The hypervisor crate [kernel/crates/rvm]: nested page tables, the VMCS of Intel VMX,
      virtual CPUs with a queue of pending events, a virtual APIC timer.
    - The kernel's use of it ([kernel/src/virt/kvm]): the host interface [RvmHalImpl], the
      guest's physical memory, the virtual APIC registers, emulated ports and the handlers
      of VM exits.
    - Storage ([kernel/src/fs]): block drivers, a sector cache, disks and partitions as
      inodes, streams through which the FAT and ext2 crates read them, a graph of inodes
      with path lookup and mounting, and file descriptors per process.
    - The FAT crate [kernel/crates/good-fatfs]: boot sector, allocation tables, directory
      entries with long names, files and directories, formatting.
    - The ext2 crate [kernel/crates/efs]: devices, superblock, group descriptors, inodes,
      bitmaps, the block structure of files, reading and writing them, directories and
      symbolic links.
    - Tasks ([kernel/src/task]): contexts, threads, processes and a round-robin scheduler
      over several processors.
    - System calls ([kernel/src/syscall]) and the library of user programs ([vstd]) that
      makes them, down to the instruction SYSCALL.
    - Devices: keyboard, terminal, frame buffer, mouse, real-time clock; the shell reads its
      lines from the terminal.

    ** Files

    The base:
    - [Prelude]: outcomes of Rust code, machine integers, slices, loops, bits, tactics.
    - [Crates]: third-party code the kernel computes with ([bit_field], [bitflags],
      [x86_64] addresses) as classes with laws, and reference instances.

    Memory:
    - [Frame]: [memory/frame.rs]. The bitmap, allocation of one or several frames,
      freeing, construction from the memory map.
    - [KernelPaging]: [memory/page_table.rs]. Deep copy and release of page tables in a word
      memory.
    - [KernelMemory]: [memory/manager.rs], [memory/kernel_heap.rs], [task/stack.rs] and the
      loading of [task/process.rs], over the mapper of the [x86_64] crate (a class with laws).

    The hypervisor:
    - [Ept]: [rvm/.../vmx/ept.rs]. Page table entries and their flags.
    - [PageTable]: [rvm/.../mm/page_table.rs]. A four-level table in a word memory, over
      the class [RvmHal] of what the host provides and its laws.
    - [KvmHal]: [virt/kvm/mod.rs], the instance of that class by the frame allocator and
      the linear map; its laws are proved, not assumed.
    - [Gpm]: [virt/kvm/gpm.rs] and [setup_gpm]. Regions of guest memory.
    - [Apic]: [rvm/.../lapic.rs] and [virt/kvm/lapic.rs]. The timer and its registers.
    - [VmcsFields], [Vmcs]: [rvm/.../vmx/vmcs.rs], [structs.rs], [definitions.rs],
      [msr.rs]. VMREAD, VMWRITE, RDMSR and the like are the class [VmxHw] with the laws
      of the processor's manual.
    - [Vcpu]: [rvm/.../vmx/vcpu.rs], [vmx/mod.rs], [lib.rs]. A virtual CPU's construction,
      its VMCS, its events, turning VMX on and off.
    - [VmExit]: the exit handlers and [device_emu].

    The kernel:
    - [BlockCache]: [fs/vfs/cache.rs], [vfs/dev/block.rs], [partition.rs], the partitions
      of [gpt_parser.rs] and the stream adapters of [fat32.rs] and [ext2.rs].
    - [Vfs]: [vfs/inode.rs], [vfs/root.rs], the directory inodes of [fat32.rs] and
      [ext2.rs], and [operation.rs].
    - [Task]: [task/*.rs] with the system calls exec, exit and kill.
    - [Syscall]: the entry, the dispatch and every operation of [kernel/src/syscall].
    - [UserLib]: [vstd/src], each wrapper against the kernel of [Syscall].
    - [DevInodes]: keyboard, terminal, frame buffer and hypervisor inodes, the shell's line.
    - [Devices]: [device/mouse.rs], [device/rtc.rs].

    The FAT crate:
    - [FatIo]: [io.rs], [error.rs], [DiskSlice]. The class [Storage] is the trait of a
      storage, [FlatStorage] its laws; the kernel's streams are shown to satisfy them.
    - [FatTable]: [table.rs], entries of 12, 16 and 32 bits, chains.
    - [FatTime], [FatEntry], [FatBoot], [FatName]: [time.rs], [dir_entry.rs],
      [boot_sector.rs] and the names of [dir.rs].
    - [FatFs], [FatVolume]: [fs.rs], mounting, unmounting, formatting, the allocation on a
      mounted volume.
    - [FatFile], [FatDir]: [file.rs], the streams and directories of [dir.rs].
    - [Fat32]: the kernel's inodes over the crate, [kernel/src/fs/fat32.rs].

    The ext2 crate:
    - [ExtBlocks]: [structures/indirection.rs], direct and indirect blocks.
    - [Ext2Disk]: [dev/mod.rs], [superblock.rs], [block_group.rs], [inode.rs]; [Shows]
      relates a volume and its caches to an abstract one ([Vol]).
    - [Ext2Alloc]: [structures/bitmap.rs] and the allocator of [ext2/mod.rs].
    - [Ext2File], [Ext2Write]: [block.rs], the data of [inode.rs], the files of [file.rs]
      and the kernel's file inode of [kernel/src/fs/ext2.rs].
    - [Ext2Dir], [Ext2Create]: [directory.rs], the directories and symbolic links of
      [file.rs], [Ext2Fs::file] and [root], and the kernel's directory inodes over them.

    ** How code is modelled

    A computation that can panic has type [out A]; a Rust [Result] is [result E A] and an
    [Option] is [option A]. Unsigned integers are elements of [Z] in their range, and
    [add_u 64] and its like do what the build profile says on overflow: the class
    [Profile] is the setting, [dev] panics and [release] wraps, and a theorem that does
    not name a profile holds in both. State is passed explicitly; where the code shares
    an object (inodes, file tables, threads) the model has the shared store and
    references into it. Code outside the repository, processor instructions and devices
    are parameters: classes with laws that state their documented behaviour, each with a
    concrete instance on which the theorems are applied. Locks are not modelled: an
    operation that runs under a lock is one step. Undefined behaviour ([unwrap_unchecked] on
    a failure) is a panic, so that a theorem about a result excludes it.

    ** What is proved

    - Refinements: the nested page table is a finite map from pages to entries; guest
      memory is a list of disjoint regions, and the page table translates exactly them and the
      pieces that a region keeps when the host runs out of memory part-way; a
      disk behind the sector cache is a flat array of bytes that is on the disk itself after every write; a partition is a window of it and a stream a cursor over it; an open
      FAT file is an array of bytes with a position; sixteen calls of the user library are the
      operations of the kernel they name.
    - Invariants and safety: pending events reach the guest in order, once each, as the
      processor finds them in its VM-entry field;
      descriptors are never reused and calls touch only the caller's files; mounting
      keeps every directory's name; the scheduler never loses or duplicates a thread, under
      any interleaving of interrupts and calls on any processors, and a timer interrupt
      panics only on a processor without a thread, which takes a program that kills process 0; the
      virtual APIC panics on one register only; copying and freeing page tables keeps
      exactly the frames that are not theirs; allocation on a FAT volume keeps all copies
      of the table alike and the counts true, and on an ext2 volume the bitmaps, the counts
      of the groups and of the superblock, and the caches; creating a file in an ext2
      directory keeps every other name, file and block.
    - Round trips: FAT entries of all widths, long names, dates, boot sectors; a range of
      memory mapped and unmapped; directory listings through the system calls; an ext2
      inode created and read; bytes written to an ext2 file and read back, with nothing else on the volume changed; short symbolic
      links.
    - Equivalences: the scans of the FAT widths, block lookup and search for free blocks in
      ext2 with lookup in and prefixes of plain lists.
    - Liveness and termination: a preempted thread runs again within a bound, with its
      context and FS base; the virtual timer fires when its count has elapsed; freeing a
      chain ends even on a cyclic table; a short name is found or the error reported.
    - Functional behaviour of each operation, errors included: frame allocation, VMCS
      controls and guest state, every VM exit, CPUID leaves, file calls, program loading,
      the virtual names of an ext2 volume and those on its disk, the mouse, the clock, the line
      typed into the shell.
    - Conditions: where the code fails under some condition, the theorem excludes it by a
      hypothesis that its comment names: ext2 reads inside a block into a shorter buffer, ext2
      directories without spare space, files behind the double indirection, programs whose
      segments share a page.
    - Where the code does something it should not, a theorem says exactly what: an
      allocator that hands out a frame again past its end, a guest set-up that cannot
      succeed with overflow checks, a thread that loses the FS base it set, a cluster size that
      formatting accepts and panics on, files created under reversed names, ext2 writes that
      leak blocks, an ext2 directory unusable after a directory was made in it, and others.

    ** Bounds and fuel

    Recursion is structural or over explicit ranges where the code's loops are bounded by
    their data (page-table levels, lists of blocks, bitmaps, buffers). Otherwise:
    - [Vfs.node_open] carries a [depth], the kernel's stack, behind which it panics, since
      each directory looks up its own path first; the theorems hold for every depth.
    - [read_exact], [write_all] of the crates take the length of the buffer as fuel: a turn
      moves at least a byte or ends.
    - Chains of clusters take the number of clusters plus two, directories the entries that
      many clusters hold, and the search for a short name the 65,537 numbers it can try; the
      theorems show that these are enough, or that the code reports an error before.
    - A block of an ext2 directory takes its size in bytes, enough unless an entry has the
      length 0, where the code does not return; [Ext2Dir.remove_entry] carries a [depth] of
      nested directories.
    - A read from the terminal takes twice the buffer plus one, a line of the shell one turn
      per key. [Devices.wait_loop] counts the 10,000 polls of the code.
    Sizes of disks are below [2^62] bytes, which keeps signed positions from overflowing.

    ** What is not modelled

    Assembly other than the context macros; the disk, USB and PCI drivers, which are DMA
    structures and device registers; interrupt controllers and start-up of processors; output
    to the console and the log; the sequence of mounts at boot; paths of several components in
    the ext2 crate, which the kernel does not use; the C library, a port of another project;
    the commands of the shell and the host program that builds the disk image. *)

From stdpp Require Export base numbers list gmap fin_maps strings sorting.
From Stdlib Require Export ZArith Lia.

#[export] Set Default Goal Selector "!".
Open Scope Z_scope.

(** ** Outcomes

    [out A] is what a Rust computation of type [A] can do: return, or panic
    (failed [assert!], [unwrap] on [None], index out of bounds, division by
    zero, and arithmetic overflow when overflow checks are on). *)

Inductive out (A : Type) : Type :=
  | Ret (a : A)
  | Panic.
Arguments Ret {A} a.
Arguments Panic {A}.

#[export] Instance out_mret : MRet out := λ A a, Ret a.
#[export] Instance out_mbind : MBind out := λ A B f m,
  match m with Ret a => f a | Panic => Panic end.
#[export] Instance out_fmap : FMap out := λ A B f m,
  match m with Ret a => Ret (f a) | Panic => Panic end.

(** Rust's [Result]. *)
Inductive result (E A : Type) : Type :=
  | Ok (a : A)
  | Err (e : E).
Arguments Ok {E A} a.
Arguments Err {E A} e.

(** A fallible operation on a state [S] returns [out (result E A * S)]: the
    state survives an [Err], nothing survives a panic. [let?] is the [?]
    operator. *)
Definition bind_result {E A B S : Type}
    (m : out (result E A * S)) (k : A → S → out (result E B * S)) :
    out (result E B * S) :=
  match m with
  | Ret (Ok a, s) => k a s
  | Ret (Err e, s) => Ret (Err e, s)
  | Panic => Panic
  end.

Declare Scope rust_scope.
Delimit Scope rust_scope with rust.
Open Scope rust_scope.

Notation "'let?' ( x , s ) := m 'in' k" :=
  (bind_result m (λ x s, k))
  (at level 10, x binder, s binder, m at level 100, k at level 200) : rust_scope.

(** [o.unwrap()] and [assert!(b)]. *)
Definition unwrap {A} (o : option A) : out A :=
  match o with Some a => Ret a | None => Panic end.

Definition assert (b : bool) : out unit :=
  if b then Ret tt else Panic.

(** ** Machine integers

    A [w]-bit unsigned integer is a [Z] in [0 .. 2^w). [overflow_checks] is the
    profile's setting: [true] in the dev profile (an overflow panics), [false]
    in the release profile (it wraps). *)

Class Profile := overflow_checks : bool.
Definition dev : Profile := true.
Definition release : Profile := false.

Definition in_range (w x : Z) : bool := (0 <=? x) && (x <? 2 ^ w).

Definition norm {P : Profile} (w x : Z) : out Z :=
  if in_range w x then Ret x
  else if overflow_checks then Panic else Ret (x mod 2 ^ w).

Definition add_u {P : Profile} (w a b : Z) : out Z := norm w (a + b).
Definition sub_u {P : Profile} (w a b : Z) : out Z := norm w (a - b).
Definition mul_u {P : Profile} (w a b : Z) : out Z := norm w (a * b).

(** [as uN] casts and the [wrapping_*] methods. *)
Definition wrap (w x : Z) : Z := x mod 2 ^ w.

(** Signed integers: [x as iN] of an unsigned [x], and their addition. *)
Definition to_signed (w x : Z) : Z := if x <? 2 ^ (w - 1) then x else x - 2 ^ w.
Definition add_i {P : Profile} (w a b : Z) : out Z :=
  if (- 2 ^ (w - 1) <=? a + b) && (a + b <? 2 ^ (w - 1)) then Ret (a + b)
  else if overflow_checks then Panic else Ret (to_signed w (wrap w (a + b))).

(** [debug_assert!]: the profiles turn debug assertions on and off together with the
    overflow checks. *)
Definition debug_assert {P : Profile} (b : bool) : out unit :=
  if overflow_checks then assert b else Ret tt.

(** Shifts by [s] of a [w]-bit integer: a shift by [w] or more panics when
    overflow checks are on and is taken modulo [w] otherwise. *)
Definition shift_amount {P : Profile} (w s : Z) : out Z :=
  if s <? w then Ret s else if overflow_checks then Panic else Ret (s mod w).
Definition shl_u {P : Profile} (w a s : Z) : out Z :=
  s ← shift_amount w s; Ret (wrap w (Z.shiftl a s)).
Definition shr_u {P : Profile} (w a s : Z) : out Z :=
  s ← shift_amount w s; Ret (Z.shiftr a s).

(** [a / b] and [a % b] panic when [b] is 0, in every profile. *)
Definition div_u (a b : Z) : out Z := if b =? 0 then Panic else Ret (a / b).
Definition rem_u (a b : Z) : out Z := if b =? 0 then Panic else Ret (a mod b).

Definition u64_max : Z := 2 ^ 64 - 1.
Definition usize_max : Z := u64_max.

(** [!x] on a [w]-bit integer. *)
Definition not_u (w x : Z) : Z := Z.lxor x (Z.ones w).

(** [(a + b - 1) / b], Rust's [div_ceil]. *)
Definition div_ceil (a b : Z) : Z :=
  if a mod b =? 0 then a / b else a / b + 1.

(** ** Slices

    [slice[i]] panics out of bounds; [&slice[a..b]] panics unless
    [a <= b <= len]. *)

Definition zlen {A} (l : list A) : Z := Z.of_nat (length l).

Definition index {A} (l : list A) (i : Z) : out A :=
  if 0 <=? i then unwrap (l !! Z.to_nat i) else Panic.

Definition store {A} (l : list A) (i : Z) (x : A) : out (list A) :=
  if (0 <=? i) && (i <? zlen l) then Ret (<[Z.to_nat i := x]> l) else Panic.

Definition subslice {A} (l : list A) (a b : Z) : list A :=
  take (Z.to_nat (b - a)) (drop (Z.to_nat a) l).

Definition slice {A} (l : list A) (a b : Z) : out (list A) :=
  if (0 <=? a) && (a <=? b) && (b <=? zlen l) then Ret (subslice l a b) else Panic.

(** Overwriting the part of [l] that starts at [a] with [d]. *)
Definition splice {A} (l : list A) (a : Z) (d : list A) : list A :=
  take (Z.to_nat a) l ++ d ++ drop (Z.to_nat a + length d) l.

(** The half-open range [a..b]. *)
Definition range (a b : Z) : list Z := seqZ a (b - a).

(** ** Automation *)

Create HintDb rust.

(** Case analysis on the outcome of every computation in a hypothesis. *)
Ltac out_inv H :=
  repeat match type of H with
  | (match ?m with Ret _ => _ | Panic => _ end) = _ =>
      let E := fresh "E" in destruct m eqn:E; [| discriminate H]
  | Ret _ = Ret _ => injection H as H
  | _ => progress cbn in H
  end.

(** Advance a computation whose first step is known to return. *)
Ltac run := cbn [mbind out_mbind mret out_mret unwrap assert bind_result].

(** Turn boolean comparisons into propositions and use arithmetic. *)
Ltac breflect :=
  repeat match goal with
  | H : (_ && _) = true |- _ => apply andb_true_iff in H as [? ?]
  | H : (_ || _) = false |- _ => apply orb_false_iff in H as [? ?]
  | H : negb _ = true |- _ => apply negb_true_iff in H
  | H : negb _ = false |- _ => apply negb_false_iff in H
  | H : (_ <? _) = true |- _ => apply Z.ltb_lt in H
  | H : (_ <? _) = false |- _ => apply Z.ltb_ge in H
  | H : (_ <=? _) = true |- _ => apply Z.leb_le in H
  | H : (_ <=? _) = false |- _ => apply Z.leb_gt in H
  | H : (_ =? _) = true |- _ => apply Z.eqb_eq in H
  | H : (_ =? _) = false |- _ => apply Z.eqb_neq in H
  end.

(** [case_bool] splits on the comparison a goal's [if] tests. *)
Ltac case_bool :=
  match goal with
  | |- context [if ?b then _ else _] => let E := fresh "E" in destruct b eqn:E
  | |- context [match ?b with true => _ | false => _ end] =>
      let E := fresh "E" in destruct b eqn:E
  end; breflect.

(** Closes a goal whose boolean hypotheses are contradictory. *)
Ltac bsolve :=
  repeat match goal with
  | H : (_ && _) = false |- _ => apply andb_false_iff in H as [H|H]
  | H : (_ || _) = true |- _ => apply orb_true_iff in H as [H|H]
  end; breflect; exfalso; lia.

Lemma unwrap_Some {A} (o : option A) (a : A) : unwrap o = Ret a ↔ o = Some a.
Proof. destruct o; cbn; split; congruence. Qed.

(** ** Integers *)

Lemma in_range_true w x : in_range w x = true ↔ 0 ≤ x < 2 ^ w.
Proof. unfold in_range. rewrite andb_true_iff, Z.leb_le, Z.ltb_lt. tauto. Qed.

Lemma norm_ok {P : Profile} w x : 0 ≤ x < 2 ^ w → norm w x = Ret x.
Proof. intros H. unfold norm. by rewrite (proj2 (in_range_true w x) H). Qed.

Lemma add_u_ok {P : Profile} w a b :
  0 ≤ a + b < 2 ^ w → add_u w a b = Ret (a + b).
Proof. apply norm_ok. Qed.

Lemma sub_u_ok {P : Profile} w a b :
  0 ≤ a - b < 2 ^ w → sub_u w a b = Ret (a - b).
Proof. apply norm_ok. Qed.

Lemma mul_u_ok {P : Profile} w a b :
  0 ≤ a * b < 2 ^ w → mul_u w a b = Ret (a * b).
Proof. apply norm_ok. Qed.

Lemma shl_u_ok {P : Profile} w a s : s < w → shl_u w a s = Ret (wrap w (Z.shiftl a s)).
Proof. intros Hs. unfold shl_u, shift_amount. by rewrite (proj2 (Z.ltb_lt s w) Hs). Qed.

Lemma shr_u_ok {P : Profile} w a s : s < w → shr_u w a s = Ret (Z.shiftr a s).
Proof. intros Hs. unfold shr_u, shift_amount. by rewrite (proj2 (Z.ltb_lt s w) Hs). Qed.

Lemma norm_range {P : Profile} w x y : 0 ≤ w → norm w x = Ret y → 0 ≤ y < 2 ^ w.
Proof.
  intros Hw. unfold norm. destruct (in_range w x) eqn:E.
  - intros [= <-]. by apply in_range_true.
  - destruct overflow_checks; [done|]. intros [= <-].
    apply Z.mod_pos_bound. by apply Z.pow_pos_nonneg.
Qed.

Lemma wrap_small w x : 0 ≤ x < 2 ^ w → wrap w x = x.
Proof. intros. by apply Z.mod_small. Qed.

Lemma wrap_range w x : 0 ≤ w → 0 ≤ wrap w x < 2 ^ w.
Proof. intros. apply Z.mod_pos_bound, Z.pow_pos_nonneg; lia. Qed.

Lemma div_ceil_spec a b : 0 < b → 0 ≤ a →
  div_ceil a b * b - b < a ≤ div_ceil a b * b.
Proof.
  intros Hb Ha. unfold div_ceil.
  pose proof (Z.div_mod a b ltac:(lia)). pose proof (Z.mod_pos_bound a b Hb).
  case_bool; nia.
Qed.

(** ** Slices *)

Lemma zlen_nonneg {A} (l : list A) : 0 ≤ zlen l.
Proof. unfold zlen. lia. Qed.

Lemma index_Ret {A} (l : list A) i x :
  index l i = Ret x ↔ 0 ≤ i ∧ l !! Z.to_nat i = Some x.
Proof.
  unfold index. case_bool; rewrite ?unwrap_Some; split; try tauto; try done.
  intros [? _]. lia.
Qed.

Lemma index_ok {A} (l : list A) i :
  0 ≤ i < zlen l → ∃ x, index l i = Ret x.
Proof.
  intros Hi. destruct (lookup_lt_is_Some_2 l (Z.to_nat i)) as [x Hx].
  { unfold zlen in Hi. lia. }
  exists x. apply index_Ret. split; [lia|done].
Qed.

Lemma index_bounds {A} (l : list A) i x : index l i = Ret x → 0 ≤ i < zlen l.
Proof.
  rewrite index_Ret. intros [? Hl%lookup_lt_Some]. unfold zlen. lia.
Qed.

Lemma store_Ret {A} (l l' : list A) i x :
  store l i x = Ret l' ↔ 0 ≤ i < zlen l ∧ l' = <[Z.to_nat i := x]> l.
Proof.
  unfold store. case_bool.
  - split; [intros [= <-]; auto|intros [_ ->]; auto].
  - split; [done|]. intros [? _]. apply andb_false_iff in E as [?|?]; breflect; lia.
Qed.

Lemma store_ok {A} (l : list A) i x :
  0 ≤ i < zlen l → store l i x = Ret (<[Z.to_nat i := x]> l).
Proof. intros Hi. by apply store_Ret. Qed.

Lemma store_zlen {A} (l l' : list A) i x : store l i x = Ret l' → zlen l' = zlen l.
Proof. intros [_ ->]%store_Ret. unfold zlen. by rewrite length_insert. Qed.

Lemma index_store_eq {A} (l l' : list A) i x :
  store l i x = Ret l' → index l' i = Ret x.
Proof.
  intros [Hi ->]%store_Ret. apply index_Ret. split; [lia|].
  apply list_lookup_insert_eq. unfold zlen in Hi. lia.
Qed.

Lemma index_store_ne {A} (l l' : list A) i j x :
  store l i x = Ret l' → i ≠ j → 0 ≤ j → index l' j = index l j.
Proof.
  intros [Hi ->]%store_Ret Hne Hj. unfold index. case_bool; [|done].
  rewrite list_lookup_insert_ne by lia. done.
Qed.

(** Slices, position by position. *)
Lemma slice_ok {A} (l : list A) a b : 0 ≤ a ≤ b → b ≤ zlen l → slice l a b = Ret (subslice l a b).
Proof. intros Hab Hb. unfold slice. case_bool; [done|bsolve]. Qed.

Lemma zlen_subslice {A} (l : list A) a b : 0 ≤ a ≤ b → b ≤ zlen l → zlen (subslice l a b) = b - a.
Proof. unfold zlen, subslice. intros Hab Hb. rewrite length_take, length_drop. lia. Qed.

Lemma subslice_lookup {A} (l : list A) a b i : 0 ≤ a → 0 ≤ i < b - a →
  subslice l a b !! Z.to_nat i = l !! Z.to_nat (a + i).
Proof.
  intros Ha Hi. unfold subslice. rewrite lookup_take_lt by lia. rewrite lookup_drop. f_equal. lia.
Qed.

Lemma zlen_splice {A} (l : list A) a d : 0 ≤ a → a + zlen d ≤ zlen l → zlen (splice l a d) = zlen l.
Proof. unfold zlen, splice. intros Ha Hd. rewrite !length_app, length_take, length_drop. lia. Qed.

Lemma splice_lookup {A} (l : list A) a d i : 0 ≤ a → a + zlen d ≤ zlen l → 0 ≤ i →
  splice l a d !! Z.to_nat i =
    if (a <=? i) && (i <? a + zlen d) then d !! Z.to_nat (i - a) else l !! Z.to_nat i.
Proof.
  unfold zlen, splice. intros Ha Hd Hi.
  assert (length (take (Z.to_nat a) l) = Z.to_nat a) as Hl by (rewrite length_take; lia).
  case_bool.
  - rewrite lookup_app_r by lia. rewrite Hl, lookup_app_l by lia. f_equal. lia.
  - destruct (decide (i < a)).
    + rewrite lookup_app_l by lia. rewrite lookup_take_lt by lia. done.
    + rewrite lookup_app_r by lia. rewrite Hl, lookup_app_r by (apply andb_false_iff in E as [?|?]; breflect; lia).
      rewrite lookup_drop. f_equal. apply andb_false_iff in E as [?|?]; breflect; lia.
Qed.

(** Storing into a subslice is storing into the slice. *)
Lemma splice_insert {A} (l : list A) a b k x : 0 ≤ a → b ≤ zlen l → 0 ≤ k < b - a →
  splice l a (<[Z.to_nat k := x]> (subslice l a b)) = <[Z.to_nat (a + k) := x]> l.
Proof.
  intros Ha Hb Hk. apply list_eq. intros j.
  assert (zlen (<[Z.to_nat k := x]> (subslice l a b)) = b - a) as Hz.
  { unfold zlen. rewrite length_insert. apply zlen_subslice; lia. }
  rewrite <- (Nat2Z.id j), splice_lookup by lia. rewrite Hz. case_bool.
  - destruct (decide (Z.of_nat j = a + k)) as [->|Hne].
    + replace (a + k - a) with k by lia.
      rewrite !list_lookup_insert_eq; [done|unfold zlen in Hb; lia|].
      pose proof (zlen_subslice l a b). unfold zlen in *. lia.
    + rewrite !list_lookup_insert_ne by lia. rewrite subslice_lookup by lia. f_equal. lia.
  - rewrite list_lookup_insert_ne; [done|]. intros E'. bsolve.
Qed.

Lemma filter_ext_in {A} (P1 P2 : A → Prop) `{!∀ x, Decision (P1 x), !∀ x, Decision (P2 x)} (l : list A) :
  (∀ x, x ∈ l → P1 x ↔ P2 x) → base.filter P1 l = base.filter P2 l.
Proof.
  induction l as [|x l IH]; intros HP; [done|]. rewrite !filter_cons.
  rewrite IH by (intros y Hy; apply HP; by right).
  pose proof (HP x (list_elem_of_here x l)). by repeat case_decide; try tauto.
Qed.

Lemma elem_of_range a b x : x ∈ range a b ↔ a ≤ x < b.
Proof. unfold range. rewrite elem_of_seqZ. lia. Qed.

Lemma range_cons a b : a < b → range a b = a :: range (a + 1) b.
Proof.
  intros. unfold range. rewrite (seqZ_cons a) by lia.
  f_equal. f_equal; lia.
Qed.

Lemma range_nil a b : b ≤ a → range a b = [].
Proof. intros. unfold range. by rewrite seqZ_nil by lia. Qed.

Lemma range_app a b c : a ≤ b ≤ c → range a c = range a b ++ range b c.
Proof.
  intros H. unfold range. replace (c - a) with ((b - a) + (c - b)) by lia.
  rewrite seqZ_app by lia. do 2 f_equal; lia.
Qed.

Lemma range_snoc a b : a ≤ b → range a (b + 1) = range a b ++ [b].
Proof. intros H. rewrite (range_app a b) by lia. by rewrite (range_cons b), (range_nil (b + 1)) by lia. Qed.

(** ** Loops

    [foldM f a l] is [for x in l { a = f(a, x) }], [findM p l] is
    [l.find(|x| p(x))], both stopping at the first panic. *)

Fixpoint foldM {A B} (f : A → B → out A) (a : A) (l : list B) : out A :=
  match l with
  | [] => Ret a
  | x :: l => a' ← f a x; foldM f a' l
  end.

Fixpoint findM {A} (p : A → out bool) (l : list A) : out (option A) :=
  match l with
  | [] => Ret None
  | x :: l => b ← p x; if (b : bool) then Ret (Some x) else findM p l
  end.

Lemma foldM_cons {A B} (f : A → B → out A) a x l :
  foldM f a (x :: l) = (a' ← f a x; foldM f a' l).
Proof. done. Qed.

(** Induction over a counting loop: an invariant that every pass keeps. *)
Lemma foldM_range {A} (f : A → Z → out A) (I : Z → A → Prop) a b x :
  a ≤ b → I a x →
  (∀ i y, a ≤ i < b → I i y → ∃ y', f y i = Ret y' ∧ I (i + 1) y') →
  ∃ x', foldM f x (range a b) = Ret x' ∧ I b x'.
Proof.
  intros Hab. remember (Z.to_nat (b - a)) as n eqn:Hn.
  revert a x Hab Hn. induction n as [|n IH]; intros a x Hab Hn HI Hstep.
  - rewrite range_nil by lia. replace b with a by lia. by exists x.
  - rewrite range_cons by lia. destruct (Hstep a x) as (y & Hy & HI'); [lia|done|].
    cbn. rewrite Hy. cbn. apply IH; [lia|lia|done|].
    intros i z Hi. apply Hstep. lia.
Qed.

Lemma findM_range (p : Z → out bool) (q : Z → bool) a b :
  (∀ i, a ≤ i < b → p i = Ret (q i)) →
  ∃ r, findM p (range a b) = Ret r ∧
    match r with
    | Some i => a ≤ i < b ∧ q i = true ∧ ∀ j, a ≤ j < i → q j = false
    | None => ∀ j, a ≤ j < b → q j = false
    end.
Proof.
  remember (Z.to_nat (b - a)) as n eqn:Hn. revert a Hn.
  induction n as [|n IH]; intros a Hn Hp.
  - rewrite range_nil by lia. exists None. split; [done|]. intros; lia.
  - rewrite range_cons by lia. cbn. rewrite Hp by lia. cbn.
    destruct (q a) eqn:Hq.
    + exists (Some a). repeat split; [lia|lia|done|]. intros; lia.
    + destruct (IH (a + 1)) as (r & Hr & HP); [lia|intros; apply Hp; lia|].
      exists r. split; [done|]. destruct r as [i|].
      * destruct HP as (? & ? & HP). repeat split; [lia|lia|done|].
        intros j Hj. destruct (decide (j = a)) as [->|]; [done|apply HP; lia].
      * intros j Hj. destruct (decide (j = a)) as [->|]; [done|apply HP; lia].
Qed.

(** ** Bits *)

Lemma testbit_high x n i : 0 ≤ x < 2 ^ n → 0 ≤ n ≤ i → Z.testbit x i = false.
Proof.
  intros Hx Hi. rewrite <- (Z.mod_small x (2 ^ n)) by done.
  apply Z.mod_pow2_bits_high. lia.
Qed.

Lemma testbit_range x n : 0 ≤ n → 0 ≤ x → (∀ i, n ≤ i → Z.testbit x i = false) → 0 ≤ x < 2 ^ n.
Proof.
  intros Hn Hx Hb. rewrite <- (proj1 (Z.bits_inj_iff' (x mod 2 ^ n) x)); [by apply Z.mod_pos_bound, Z.pow_pos_nonneg|].
  intros i Hi. destruct (decide (i < n)).
  - by apply Z.mod_pow2_bits_low.
  - rewrite Z.mod_pow2_bits_high by lia. symmetry. apply Hb. lia.
Qed.

Lemma lor_range a b n : 0 ≤ n → 0 ≤ a < 2 ^ n → 0 ≤ b < 2 ^ n → 0 ≤ Z.lor a b < 2 ^ n.
Proof.
  intros Hn Ha Hb. apply testbit_range; [done|apply Z.lor_nonneg; lia|]. intros i Hi.
  by rewrite Z.lor_spec, (testbit_high a n), (testbit_high b n).
Qed.

Lemma land_range a b n : 0 ≤ n → 0 ≤ b < 2 ^ n → 0 ≤ Z.land a b < 2 ^ n.
Proof.
  intros Hn Hb. apply testbit_range; [done|apply Z.land_nonneg; lia|]. intros i Hi.
  by rewrite Z.land_spec, (testbit_high b n), andb_false_r.
Qed.

Lemma testbit_aligned x n i : 0 ≤ i < n → x mod 2 ^ n = 0 → Z.testbit x i = false.
Proof.
  intros Hi Hx. rewrite <- (Z.mod_pow2_bits_low x n i) by lia. rewrite Hx.
  apply Z.testbit_0_l.
Qed.

(** The mask of the bits [lo..hi]. *)
Definition mask (lo hi : Z) : Z := Z.shiftl (Z.ones (hi - lo)) lo.

Lemma testbit_mask lo hi i : 0 ≤ lo ≤ hi → 0 ≤ i →
  Z.testbit (mask lo hi) i = (lo <=? i) && (i <? hi).
Proof.
  intros Hlo Hi. unfold mask. rewrite Z.shiftl_spec by done.
  destruct (lo <=? i) eqn:E; breflect; cbn.
  - destruct (i <? hi) eqn:E2; breflect.
    + apply Z.ones_spec_low. lia.
    + apply Z.ones_spec_high. lia.
  - apply Z.testbit_neg_r. lia.
Qed.

(** Splitting a word in an aligned upper part and small flags. *)
Lemma land_mask_lor fl p lo hi : 0 ≤ lo ≤ hi → 0 ≤ fl < 2 ^ lo → 0 ≤ p < 2 ^ hi →
  p mod 2 ^ lo = 0 → Z.land (Z.lor fl p) (mask lo hi) = p.
Proof.
  intros Hl Hf Hp Ha. apply Z.bits_inj'. intros i Hi.
  rewrite Z.land_spec, Z.lor_spec, testbit_mask by done.
  destruct (lo <=? i) eqn:E1; breflect; cbn.
  - destruct (i <? hi) eqn:E2; breflect; cbn.
    + rewrite (testbit_high fl lo) by lia. apply andb_true_r.
    + rewrite (testbit_high p hi) by lia. by rewrite andb_false_r.
  - rewrite (testbit_aligned p lo) by lia. by rewrite andb_false_r.
Qed.

Lemma land_low_lor fl p lo n : 0 ≤ n ≤ lo → p mod 2 ^ lo = 0 →
  Z.land (Z.lor fl p) (Z.ones n) = Z.land fl (Z.ones n).
Proof.
  intros Hl Ha. apply Z.bits_inj'. intros i Hi. rewrite !Z.land_spec, Z.lor_spec.
  destruct (decide (i < n)).
  - rewrite (testbit_aligned p lo) by lia. by rewrite orb_false_r.
  - rewrite Z.ones_spec_high by lia. by rewrite !andb_false_r.
Qed.

Lemma lor_aligned fl p lo : 0 ≤ lo → 0 ≤ fl < 2 ^ lo → p mod 2 ^ lo = 0 →
  Z.lor fl p = fl + p.
Proof.
  intros Hl Hf Ha. symmetry. rewrite <- Z.lxor_lor; [apply Z.add_nocarry_lxor|];
  (apply Z.bits_inj'; intros i Hi; rewrite Z.land_spec, Z.testbit_0_l;
    destruct (decide (i < lo));
    [rewrite (testbit_aligned p lo) by lia; apply andb_false_r
    |rewrite (testbit_high fl lo) by lia; done]).
Qed.

Lemma land_ones_small x n : 0 ≤ n → 0 ≤ x < 2 ^ n → Z.land x (Z.ones n) = x.
Proof. intros. rewrite Z.land_ones by done. by apply Z.mod_small. Qed.

Lemma foldM_app {A B} (f : A → B → out A) l1 l2 a : foldM f a (l1 ++ l2) = (y ← foldM f a l1; foldM f y l2).
Proof. revert a. induction l1 as [|b l IH]; intros a; cbn; [done|]. destruct (f a b); [apply IH|done]. Qed.

Lemma foldM_snoc {A B} (f : A → B → out A) l a x : foldM f a (l ++ [x]) = (y ← foldM f a l; f y x).
Proof. rewrite foldM_app. destruct (foldM f a l) as [y|]; run; [|done]. cbn. by destruct (f y x). Qed.

(** ** Bytes *)

Lemma zlen_cons {A} (x : A) l : zlen (x :: l) = 1 + zlen l.
Proof. unfold zlen. cbn. lia. Qed.

Lemma zlen_app {A} (l1 l2 : list A) : zlen (l1 ++ l2) = zlen l1 + zlen l2.
Proof. unfold zlen. rewrite length_app. lia. Qed.

(** Little-endian bytes of an integer. *)
Fixpoint to_le (n : nat) (x : Z) : list Z :=
  match n with O => [] | S n => x mod 256 :: to_le n (x / 256) end.

Fixpoint from_le (l : list Z) : Z :=
  match l with [] => 0 | b :: l => b + 256 * from_le l end.

Definition is_byte (x : Z) : Prop := 0 ≤ x < 256.

Lemma bytes_forallb l : forallb (in_range 8) l = true → Forall is_byte l.
Proof. rewrite forallb_forall, Forall_forall. intros H x Hx%list_elem_of_In. by apply (in_range_true 8), H. Qed.

Lemma length_to_le n x : length (to_le n x) = n.
Proof. revert x. induction n as [|n IH]; intros x; cbn; [done|by rewrite IH]. Qed.

Lemma zlen_to_le n x : zlen (to_le n x) = Z.of_nat n.
Proof. unfold zlen. by rewrite length_to_le. Qed.

Lemma to_le_bytes n x : Forall is_byte (to_le n x).
Proof.
  revert x. induction n as [|n IH]; intros x; cbn; constructor; [|apply IH].
  apply Z.mod_pos_bound. lia.
Qed.

(** [from_le_bytes] inverts [to_le_bytes] on integers of the width. *)
Lemma from_to_le n x : 0 ≤ x < 256 ^ Z.of_nat n → from_le (to_le n x) = x.
Proof.
  revert x. induction n as [|n IH]; intros x Hx; cbn [to_le from_le].
  - cbn in Hx. lia.
  - rewrite Nat2Z.inj_succ, Z.pow_succ_r in Hx by lia. rewrite IH.
    + pose proof (Z.div_mod x 256). lia.
    + split; [apply Z.div_pos; lia|]. apply Z.div_lt_upper_bound; lia.
Qed.

Lemma from_le_range l : Forall is_byte l → 0 ≤ from_le l < 256 ^ zlen l.
Proof.
  induction 1 as [|b l Hb Hl IH]; cbn [from_le]; [done|].
  unfold zlen in *. cbn [length]. rewrite Nat2Z.inj_succ, Z.pow_succ_r by lia. unfold is_byte in Hb. lia.
Qed.

Lemma to_from_le l : Forall is_byte l → to_le (length l) (from_le l) = l.
Proof.
  induction 1 as [|b l Hb Hl IH]; cbn [from_le to_le length]; [done|]. unfold is_byte in Hb. f_equal.
  - rewrite Z.mul_comm, Z.mod_add by lia. apply Z.mod_small. lia.
  - rewrite Z.mul_comm, Z.div_add, Z.div_small by lia. by rewrite Z.add_0_l.
Qed.
