(* ===== verification/Crates.v ===== *)
(** * Third-party crates the kernel calls

    The sources of these crates are not part of the repository: each is a class
    whose fields are the functions the kernel calls and the laws their
    documentation states. Every development file is parametric in them; the
    instances at the end are the concrete functions the examples run with. *)

From S2P Require Import Prelude.

(** ** [bit_field::BitField]

    Bit 0 is the least significant bit; ranges are half open. The functions
    panic outside the width of the integer, so the laws are for indices in
    range. *)

Class BitField := {
  get_bit : Z → Z → bool;
  set_bit : Z → Z → bool → Z;
  get_bits : Z → Z → Z → Z;
  set_bits : Z → Z → Z → Z → Z;
  get_bit_spec x i : 0 ≤ i < 64 → get_bit x i = Z.testbit x i;
  set_bit_spec x i b j : 0 ≤ x → 0 ≤ i < 64 → 0 ≤ j →
    Z.testbit (set_bit x i b) j = if j =? i then b else Z.testbit x j;
  set_bit_nonneg x i b : 0 ≤ x → 0 ≤ i < 64 → 0 ≤ set_bit x i b;
  get_bits_spec x lo hi : 0 ≤ lo < hi → hi ≤ 64 →
    get_bits x lo hi = Z.land (Z.shiftr x lo) (Z.ones (hi - lo));
  set_bits_spec x lo hi v : 0 ≤ lo < hi → hi ≤ 64 → 0 ≤ v < 2 ^ (hi - lo) →
    set_bits x lo hi v =
      Z.lor (Z.ldiff x (Z.shiftl (Z.ones (hi - lo)) lo)) (Z.shiftl v lo);
}.

(** ** [bitflags::bitflags!]

    A flags type is its bits. [fl_contains a b] holds when every flag of [b] is
    in [a]; [fl_union] and [fl_intersect] are the operators [|] and [&];
    [fl_truncate all x] is [from_bits_truncate] for a type whose
    declared flags are [all]. *)

Class Bitflags := {
  fl_contains : Z → Z → bool;
  fl_union : Z → Z → Z;
  fl_intersect : Z → Z → Z;
  fl_truncate : Z → Z → Z;
  fl_contains_spec a b : fl_contains a b = (Z.land a b =? b);
  fl_union_spec a b : fl_union a b = Z.lor a b;
  fl_intersect_spec a b : fl_intersect a b = Z.land a b;
  fl_truncate_spec all x : fl_truncate all x = Z.land all x;
}.

(** ** [x86_64]: addresses and frames

    [PhysAddr::new] panics when a bit of 52..64 is set, [VirtAddr::new] when
    bits 47..64 are not all equal; a frame is its start address. *)

Class X86Addr := {
  PhysAddr_new : Z → out Z;
  VirtAddr_new : Z → out Z;
  PhysFrame_containing_address : Z → Z;
  PhysAddr_new_ok a : 0 ≤ a < 2 ^ 52 → PhysAddr_new a = Ret a;
  PhysAddr_new_inv a b : PhysAddr_new a = Ret b → b = a ∧ 0 ≤ a < 2 ^ 52;
  VirtAddr_new_ok a : 0 ≤ a < 2 ^ 47 ∨ 2 ^ 64 - 2 ^ 47 ≤ a < 2 ^ 64 →
    VirtAddr_new a = Ret a;
  VirtAddr_new_inv a b : VirtAddr_new a = Ret b → b = a;
  PhysFrame_containing_address_spec a : 0 ≤ a →
    PhysFrame_containing_address a = a / 4096 * 4096;
}.

(** ** [x86_64]: page tables

    An entry is 64 bits, of which bits 12 to 51 are the address and the others the flags;
    [set_addr] takes the address of a frame. An entry is unused when it is 0. [frame]
    fails on an entry that is not present or maps a huge page. *)

Definition PTF_PRESENT : Z := 0x1.
Definition PTF_WRITABLE : Z := 0x2.
Definition PTF_USER_ACCESSIBLE : Z := 0x4.
Definition PTF_HUGE_PAGE : Z := 0x80.
Definition PTF_NO_EXECUTE : Z := 0x8000_0000_0000_0000.

Inductive FrameError := FrameNotPresent | HugeFrame.

Definition ADDR_BITS : Z := 0x000f_ffff_ffff_f000.
Definition FLAG_BITS : Z := 0xfff0_0000_0000_0fff.

Class X86Paging := {
  pte_addr : Z → Z;
  pte_flags : Z → Z;
  pte_is_unused : Z → bool;
  pte_set_addr : Z → Z → out Z;
  pte_frame : Z → result FrameError Z;
  pte_addr_spec e : pte_addr e = Z.land e ADDR_BITS;
  pte_flags_spec e : pte_flags e = Z.land e FLAG_BITS;
  pte_is_unused_spec e : pte_is_unused e = (e =? 0);
  pte_set_addr_ok a f : 0 ≤ a < 2 ^ 52 → a mod 4096 = 0 → pte_set_addr a f = Ret (Z.lor a f);
  pte_frame_spec e : pte_frame e =
    if negb (Z.land (pte_flags e) PTF_PRESENT =? PTF_PRESENT) then Err FrameNotPresent
    else if Z.land (pte_flags e) PTF_HUGE_PAGE =? PTF_HUGE_PAGE then Err HugeFrame
    else Ok (pte_addr e);
}.

(** ** Concrete functions with these laws *)

Module Reference.

#[export] Program Instance bit_field : BitField := {|
  get_bit x i := Z.testbit x i;
  set_bit x i b := if b then Z.setbit x i else Z.clearbit x i;
  get_bits x lo hi := Z.land (Z.shiftr x lo) (Z.ones (hi - lo));
  set_bits x lo hi v :=
    Z.lor (Z.ldiff x (Z.shiftl (Z.ones (hi - lo)) lo)) (Z.shiftl v lo);
|}.
Next Obligation. done. Qed.
Next Obligation.
  intros x i b j Hx Hi Hj. cbn. destruct b, (j =? i) eqn:E; breflect; subst.
  - apply Z.setbit_eq; lia.
  - apply Z.setbit_neq; lia.
  - apply Z.clearbit_eq.
  - apply Z.clearbit_neq; lia.
Qed.
Next Obligation.
  intros x i b Hx Hi. cbn. destruct b.
  - rewrite Z.setbit_spec'. apply Z.lor_nonneg. split; [done|].
    apply Z.pow_nonneg; lia.
  - rewrite Z.clearbit_spec'. apply Z.ldiff_nonneg. tauto.
Qed.
Next Obligation. done. Qed.
Next Obligation. done. Qed.

#[export] Program Instance bitflags : Bitflags := {|
  fl_contains a b := Z.land a b =? b;
  fl_union := Z.lor;
  fl_intersect := Z.land;
  fl_truncate := Z.land;
|}.
Solve Obligations with done.

#[export] Program Instance x86_addr : X86Addr := {|
  PhysAddr_new a := if in_range 52 a then Ret a else Panic;
  VirtAddr_new a :=
    if in_range 47 a || in_range 47 (a - (2 ^ 64 - 2 ^ 47)) then Ret a else Panic;
  PhysFrame_containing_address a := a / 4096 * 4096;
|}.
Next Obligation. intros a H. cbn -[Z.pow]. by rewrite (proj2 (in_range_true 52 a) H). Qed.
Next Obligation.
  intros a b. cbn. destruct (in_range 52 a) eqn:E; [|done]. intros [= <-].
  by apply in_range_true in E.
Qed.
Next Obligation.
  intros a H. cbn -[Z.pow]. case_bool; [done|]. exfalso. unfold in_range in *.
  destruct H; repeat match goal with
    H : (_ && _) = false |- _ => apply andb_false_iff in H as [?|?] end; breflect; lia.
Qed.
Next Obligation. intros a b. cbn -[Z.pow]. case_bool; congruence. Qed.
Next Obligation. done. Qed.

#[export] Program Instance x86_paging : X86Paging := {|
  pte_addr e := Z.land e ADDR_BITS;
  pte_flags e := Z.land e FLAG_BITS;
  pte_is_unused e := e =? 0;
  pte_set_addr a f := if in_range 52 a && (a mod 4096 =? 0) then Ret (Z.lor a f) else Panic;
  pte_frame e :=
    if negb (Z.land (Z.land e FLAG_BITS) PTF_PRESENT =? PTF_PRESENT) then Err FrameNotPresent
    else if Z.land (Z.land e FLAG_BITS) PTF_HUGE_PAGE =? PTF_HUGE_PAGE then Err HugeFrame
    else Ok (Z.land e ADDR_BITS);
|}.
Next Obligation. done. Qed.
Next Obligation. done. Qed.
Next Obligation. done. Qed.
Next Obligation. intros a f Ha Hm. cbn -[Z.pow Z.modulo]. by rewrite (proj2 (in_range_true 52 a) Ha), Hm. Qed.
Next Obligation. done. Qed.

End Reference.
