(* ===== verification/Frame.v ===== *)
(** * The physical frame allocator

    [kernel/src/memory/frame.rs]: a bitmap with one bit per 4 KiB frame (set =
    free), a counter of usable frames and a cursor. *)

From S2P Require Import Prelude Crates.

(** ** [Bitmap] *)

Section Bitmap.
Context {BF : BitField}.

Definition Bitmap_new (inner : list Z) : list Z := replicate (length inner) 0.

Definition Bitmap_len (inner : list Z) : Z := zlen inner.

Definition Bitmap_get (inner : list Z) (i : Z) : out bool :=
  byte ← index inner (i / 8);
  Ret (get_bit byte (i mod 8)).

Definition Bitmap_set (inner : list Z) (i : Z) (value : bool) : out (list Z) :=
  byte ← index inner (i / 8);
  store inner (i / 8) (set_bit byte (i mod 8) value).

End Bitmap.

(** ** [BitmapFrameAllocator] *)

Record BitmapFrameAllocator := mkAlloc {
  bitmap : list Z;
  usable_frames : Z;
  next_frame : Z;
}.

(** An entry of the boot loader's memory map; [entry_usable] is
    [entry_type == EntryType::USABLE]. *)
Record Entry := mkEntry {
  entry_base : Z;
  entry_length : Z;
  entry_usable : bool;
}.

Section Allocator.
Context {P : Profile} {BF : BitField} {XA : X86Addr}.

(** [for i in a..b { bitmap.set(i, v) }] *)
Definition set_range (bm : list Z) (a b : Z) (v : bool) : out (list Z) :=
  foldM (λ bm i, Bitmap_set bm i v) bm (range a b).

(** [raw_slice p n] is the [n] bytes found at the virtual address [p], and
    [offset] the start of the linear map of physical memory. *)
Definition init_region (st : list Z * Z * Z) (region : Entry) : out (list Z * Z * Z) :=
  let '(bm, usable, next) := st in
  let start_page_index := entry_base region / 4096 in
  let frame_count := entry_length region / 4096 in
  usable' ← add_u 64 usable frame_count;
  let next' := Z.min next start_page_index in
  stop ← add_u 64 start_page_index frame_count;
  bm' ← set_range bm start_page_index stop true;
  Ret (bm', usable', next').

Definition init (raw_slice : Z → Z → list Z) (offset : Z) (entries : list Entry) :
    out BitmapFrameAllocator :=
  last_entry ← unwrap (last entries);
  memory_size ← add_u 64 (entry_base last_entry) (entry_length last_entry);
  let bitmap_size := div_ceil (memory_size / 4096) 8 in
  let usable_regions := base.filter (λ r, entry_usable r = true) entries in
  region ← unwrap (List.find (λ r, bitmap_size <=? entry_length r) usable_regions);
  let bitmap_address := entry_base region in
  physical_address ← PhysAddr_new bitmap_address;
  virtual ← add_u 64 physical_address offset;
  virtual_address ← VirtAddr_new virtual;
  let bm := Bitmap_new (raw_slice virtual_address bitmap_size) in
  '(bm, usable, next) ← foldM init_region (bm, 0, usize_max) usable_regions;
  let bitmap_frame_start := bitmap_address / 4096 in
  let bitmap_frame_count := div_ceil bitmap_size 4096 in
  bitmap_frame_end ← add_u 64 bitmap_frame_start bitmap_frame_count;
  _ ← assert (next <=? bitmap_frame_start);
  next' ← (if next =? bitmap_frame_start then add_u 64 bitmap_frame_end 1 else Ret next);
  usable' ← sub_u 64 usable bitmap_frame_count;
  bm' ← set_range bm bitmap_frame_start bitmap_frame_end false;
  Ret (mkAlloc bm' usable' next').

(** [while next < len && bitmap.get(next) { next += 1; frame_cnt += 1;
    if frame_cnt == cnt { found = true; break } }]; the fuel
    [len - next] is the number of passes left. *)
Fixpoint count_run (fuel : nat) (bm : list Z) (cnt next frame_cnt : Z) : out (bool * Z) :=
  match fuel with
  | O => Ret (false, next)
  | S fuel =>
      if next <? Bitmap_len bm then
        free ← Bitmap_get bm next;
        if (free : bool) then
          next' ← add_u 64 next 1;
          frame_cnt' ← add_u 64 frame_cnt 1;
          if frame_cnt' =? cnt then Ret (true, next')
          else count_run fuel bm cnt next' frame_cnt'
        else Ret (false, next)
      else Ret (false, next)
  end.

(** [while next < len && !bitmap.get(next) { next += 1 }] *)
Fixpoint skip_used (fuel : nat) (bm : list Z) (next : Z) : out Z :=
  match fuel with
  | O => Ret next
  | S fuel =>
      if next <? Bitmap_len bm then
        free ← Bitmap_get bm next;
        if (free : bool) then Ret next
        else next' ← add_u 64 next 1; skip_used fuel bm next'
      else Ret next
  end.

Definition passes (bm : list Z) (next : Z) : nat := Z.to_nat (Bitmap_len bm - next).

(** The [loop] of [allocate_frames]: the end of the first run of [cnt] free
    frames, or [None]. Running out of fuel is an error, so that a result is a
    proof of termination. *)
Fixpoint search (fuel : nat) (bm : list Z) (cnt next : Z) : out (option Z) :=
  match fuel with
  | O => Panic
  | S fuel =>
      if Bitmap_len bm <=? next then Ret None
      else
        next1 ← skip_used (passes bm next) bm next;
        '(found, next2) ← count_run (passes bm next1) bm cnt next1 0;
        if (found : bool) then Ret (Some next2) else search fuel bm cnt next2
  end.

(** Marking the [cnt] frames that end at [next] as used. *)
Definition take_run (bm : list Z) (cnt next : Z) : out (Z * list Z) :=
  first ← sub_u 64 next cnt;
  addr ← mul_u 64 first 4096;
  bm' ← set_range bm first next false;
  Ret (addr, bm').

Definition allocate_frames (self : BitmapFrameAllocator) (cnt : Z) :
    out (option Z * BitmapFrameAllocator) :=
  if usable_frames self <? cnt then Ret (None, self)
  else
    usable ← sub_u 64 (usable_frames self) cnt;
    let bm := bitmap self in
    '(found, next) ← count_run (passes bm (next_frame self)) bm cnt (next_frame self) 0;
    if (found : bool) then
      '(addr, bm') ← take_run bm cnt next;
      Ret (Some addr, mkAlloc bm' usable next)
    else
      r ← search (S (passes bm next)) bm cnt next;
      match r with
      | None =>
          usable' ← add_u 64 usable cnt;
          Ret (None, mkAlloc bm usable' (next_frame self))
      | Some next =>
          '(addr, bm') ← take_run bm cnt next;
          Ret (Some addr, mkAlloc bm' usable (next_frame self))
      end.

(** [frame] is the frame's start address. *)
Definition deallocate_frames (self : BitmapFrameAllocator) (frame cnt : Z) :
    out BitmapFrameAllocator :=
  usable ← add_u 64 (usable_frames self) cnt;
  let start_cnt := frame / 4096 in
  stop ← add_u 64 start_cnt cnt;
  bm ← set_range (bitmap self) start_cnt (stop + 1) true;
  Ret (mkAlloc bm usable (next_frame self)).

Definition allocate_frame (self : BitmapFrameAllocator) :
    out (option Z * BitmapFrameAllocator) :=
  if usable_frames self =? 0 then Ret (None, self)
  else
    usable ← sub_u 64 (usable_frames self) 1;
    bm ← Bitmap_set (bitmap self) (next_frame self) false;
    address ← mul_u 64 (next_frame self) 4096;
    from ← add_u 64 (next_frame self) 1;
    found ← findM (Bitmap_get bm) (range from (Bitmap_len bm));
    let next := default (Bitmap_len bm) found in
    address ← PhysAddr_new address;
    Ret (Some (PhysFrame_containing_address address), mkAlloc bm usable next).

Definition deallocate_frame (self : BitmapFrameAllocator) (frame : Z) :
    out BitmapFrameAllocator :=
  bm ← Bitmap_set (bitmap self) (frame / 4096) true;
  usable ← add_u 64 (usable_frames self) 1;
  Ret (mkAlloc bm usable (next_frame self)).

End Allocator.

(** ** The bits of a bitmap *)

(** [bit bm i]: frame [i] is free. *)
Definition bit (bm : list Z) (i : Z) : bool :=
  match bm !! Z.to_nat (i / 8) with
  | Some byte => Z.testbit byte (i mod 8)
  | None => false
  end.

Definition bytes_ok (bm : list Z) : Prop := Forall (λ b, 0 ≤ b) bm.

(** [bm'] is [bm] with the bits of [a..b] set to [v]. *)
Definition bits_updated (bm bm' : list Z) (a b : Z) (v : bool) : Prop :=
  zlen bm' = zlen bm ∧ bytes_ok bm' ∧
  ∀ j, 0 ≤ j → bit bm' j = if (a <=? j) && (j <? b) then v else bit bm j.

Section BitmapFacts.
Context {P : Profile} {BF : BitField}.

Lemma byte_index (i : Z) (bm : list Z) :
  0 ≤ i < 8 * zlen bm → 0 ≤ i / 8 < zlen bm ∧ 0 ≤ i mod 8 < 8.
Proof.
  intros. pose proof (Z.div_mod i 8). pose proof (Z.mod_pos_bound i 8). lia.
Qed.

Lemma Bitmap_get_ok bm i : 0 ≤ i < 8 * zlen bm → Bitmap_get bm i = Ret (bit bm i).
Proof.
  intros Hi. destruct (byte_index i bm Hi) as [Hq Hr].
  destruct (index_ok bm (i / 8) Hq) as [x Hx]. unfold Bitmap_get, bit. rewrite Hx. cbn.
  apply index_Ret in Hx as [_ ->]. by rewrite get_bit_spec by lia.
Qed.

Lemma Bitmap_set_ok bm i v : bytes_ok bm → 0 ≤ i < 8 * zlen bm →
  ∃ bm', Bitmap_set bm i v = Ret bm' ∧ bits_updated bm bm' i (i + 1) v.
Proof.
  intros Hok Hi. destruct (byte_index i bm Hi) as [Hq Hr].
  destruct (index_ok bm (i / 8) Hq) as [x Hx]. unfold Bitmap_set. rewrite Hx. cbn.
  apply index_Ret in Hx as [_ Hx].
  assert (0 ≤ x) as Hx0 by exact (Forall_lookup_1 _ _ _ _ Hok Hx).
  eexists. split; [by apply store_Ret|]. unfold bits_updated, zlen in *. split; [by rewrite length_insert|].
  split; [apply Forall_insert; [done|by apply set_bit_nonneg; lia]|].
  intros j Hj. unfold bit.
  destruct (decide (j / 8 = i / 8)) as [E|E].
  - rewrite E, list_lookup_insert_eq, Hx by lia.
    pose proof (Z.mod_pos_bound j 8).
    rewrite set_bit_spec by lia.
    pose proof (Z.div_mod i 8). pose proof (Z.div_mod j 8).
    destruct (j mod 8 =? i mod 8) eqn:E1, ((i <=? j) && (j <? i + 1)) eqn:E2; try done.
    + apply andb_false_iff in E2 as [?|?]; breflect; lia.
    + breflect. lia.
  - pose proof (Z.div_pos j 8). rewrite list_lookup_insert_ne by lia.
    destruct ((i <=? j) && (j <? i + 1)) eqn:E2; [|done].
    breflect. assert (j = i) by lia. by subst.
Qed.

Lemma bits_updated_trans bm bm1 bm2 a b c v :
  a ≤ b ≤ c → bits_updated bm bm1 a b v → bits_updated bm1 bm2 b c v →
  bits_updated bm bm2 a c v.
Proof.
  intros Hab (L1 & _ & B1) (L2 & W2 & B2). split; [congruence|]. split; [done|].
  intros j Hj. rewrite B2, B1 by done.
  destruct ((b <=? j) && (j <? c)) eqn:E1, ((a <=? j) && (j <? b)) eqn:E2,
    ((a <=? j) && (j <? c)) eqn:E3; try done;
    repeat match goal with H : (_ && _) = false |- _ => apply andb_false_iff in H as [?|?] end;
    breflect; lia.
Qed.

Lemma bits_updated_refl bm a v : bytes_ok bm → bits_updated bm bm a a v.
Proof.
  intros. repeat split; [done|]. intros j Hj. case_bool; [lia|done].
Qed.

Lemma set_range_ok bm a b v : bytes_ok bm → 0 ≤ a ≤ b → b ≤ 8 * zlen bm →
  ∃ bm', set_range bm a b v = Ret bm' ∧ bits_updated bm bm' a b v.
Proof.
  intros Hok Ha Hb. apply (foldM_range _ (λ i y, bits_updated bm y a i v)); [lia|..].
  - by apply bits_updated_refl.
  - intros i y Hi Hy. pose proof Hy as (Hl & Hw & _).
    destruct (Bitmap_set_ok y i v) as (y' & Hy' & HU); [done|lia|].
    exists y'. split; [done|]. eapply bits_updated_trans; [|done|done]. lia.
Qed.

(** A run of [cnt] free frames that starts at [k] and ends before [len]. *)
Definition free_run (bm : list Z) (cnt k : Z) : Prop :=
  k + cnt ≤ zlen bm ∧ ∀ i, k ≤ i < k + cnt → bit bm i = true.

Definition no_run (bm : list Z) (cnt a b : Z) : Prop :=
  ∀ k, a ≤ k < b → ¬ free_run bm cnt k.

Lemma count_run_ok bm cnt : zlen bm ≤ 2 ^ 37 → 1 ≤ cnt → ∀ fuel next c,
  0 ≤ c < cnt → c ≤ next ≤ zlen bm → (zlen bm - next ≤ Z.of_nat fuel) →
  (∀ i, next - c ≤ i < next → bit bm i = true) →
  ∃ found n, count_run fuel bm cnt next c = Ret (found, n) ∧ next ≤ n ≤ zlen bm ∧
    (next < n ∨ n = zlen bm ∨ bit bm n = false) ∧
    if (found : bool) then n = next - c + cnt ∧ free_run bm cnt (next - c)
    else no_run bm cnt (next - c) (n + 1).
Proof.
  intros Hlen Hcnt. induction fuel as [|fuel IH]; intros next c Hc Hn Hf Hrun.
  - exists false, next. repeat split; [lia|lia|lia|].
    intros k Hk [Hend _]. lia.
  - cbn -[Z.pow]. unfold Bitmap_len. case_bool.
    2: { exists false, next. repeat split; [lia|lia|lia|]. intros k Hk [Hend _]. lia. }
    rewrite Bitmap_get_ok by lia. cbn -[Z.pow]. destruct (bit bm next) eqn:Hb.
    2: { exists false, next. repeat split; [lia|lia|auto|]. intros k Hk [Hend Hset].
         rewrite Hset in Hb by lia. done. }
    rewrite !add_u_ok by lia. cbn -[Z.pow].
    assert (∀ i, next + 1 - (c + 1) ≤ i < next + 1 → bit bm i = true) as Hrun'.
    { intros i Hi. destruct (decide (i = next)) as [->|]; [done|apply Hrun; lia]. }
    case_bool.
    + exists true, (next + 1). repeat split; [lia|lia|lia|lia|lia|].
      intros i Hi. apply Hrun'. lia.
    + destruct (IH (next + 1) (c + 1)) as (found & n & -> & ? & ? & HP); [lia|lia|lia|done|].
      exists found, n. repeat split; [lia|lia|lia|].
      replace (next - c) with (next + 1 - (c + 1)) by lia.
      destruct found; [|done]. destruct HP. split; [lia|done].
Qed.

Lemma skip_used_ok bm : zlen bm ≤ 2 ^ 37 → ∀ fuel next,
  0 ≤ next ≤ zlen bm → (zlen bm - next ≤ Z.of_nat fuel) →
  ∃ n, skip_used fuel bm next = Ret n ∧ next ≤ n ≤ zlen bm ∧
    (n = zlen bm ∨ bit bm n = true) ∧ ∀ i, next ≤ i < n → bit bm i = false.
Proof.
  intros Hlen. induction fuel as [|fuel IH]; intros next Hn Hf.
  - exists next. repeat split; [lia|lia|lia|]. intros; lia.
  - cbn -[Z.pow]. unfold Bitmap_len. case_bool.
    2: { exists next. repeat split; [lia|lia|lia|]. intros; lia. }
    rewrite Bitmap_get_ok by lia. cbn -[Z.pow]. destruct (bit bm next) eqn:Hb.
    1: { exists next. repeat split; [lia|lia|auto|]. intros; lia. }
    rewrite add_u_ok by lia. cbn -[Z.pow].
    destruct (IH (next + 1)) as (n & -> & ? & ? & HP); [lia|lia|].
    exists n. repeat split; [lia|lia|done|].
    intros i Hi. destruct (decide (i = next)) as [->|]; [done|apply HP; lia].
Qed.

Lemma search_ok bm cnt start : zlen bm ≤ 2 ^ 37 → 1 ≤ cnt → ∀ fuel next,
  0 ≤ start ≤ next → next ≤ zlen bm → zlen bm - next < Z.of_nat fuel →
  no_run bm cnt start next →
  ∃ r, search fuel bm cnt next = Ret r ∧
    match r with
    | None => no_run bm cnt start (zlen bm)
    | Some n => cnt ≤ n ∧ start ≤ n - cnt ∧ free_run bm cnt (n - cnt) ∧
                no_run bm cnt start (n - cnt)
    end.
Proof.
  intros Hlen Hcnt. induction fuel as [|fuel IH]; intros next Hs Hn Hf Hno; [lia|].
  cbn -[Z.pow passes]. unfold Bitmap_len. case_bool.
  { exists None. split; [done|]. by replace (zlen bm) with next by lia. }
  unfold passes, Bitmap_len.
  destruct (skip_used_ok bm Hlen (Z.to_nat (zlen bm - next)) next)
    as (n1 & -> & ? & Hn1 & Hused); [lia|lia|]. cbn -[Z.pow].
  assert (no_run bm cnt start n1) as Hno1.
  { intros k Hk [Hend Hset]. destruct (decide (k < next)); [by apply (Hno k); [lia|]|].
    specialize (Hused k ltac:(lia)). rewrite Hset in Hused by lia. done. }
  destruct (count_run_ok bm cnt Hlen Hcnt (Z.to_nat (zlen bm - n1)) n1 0)
    as (found & n2 & -> & ? & Hadv & HP); [lia|lia|lia|intros; lia|].
  cbn -[Z.pow]. replace (n1 - 0) with n1 in HP by lia. destruct found.
  - destruct HP as [-> Hrun]. exists (Some (n1 + cnt)). split; [done|].
    replace (n1 + cnt - cnt) with n1 by lia. repeat split; try lia; try apply Hrun. done.
  - apply IH; [lia|lia| |].
    + destruct Hn1 as [->|Hb1]; [lia|]. destruct Hadv as [?|[->|Hb2]]; [lia|lia|].
      destruct (decide (n2 = n1)) as [->|]; [congruence|lia].
    + intros k Hk. destruct (decide (k < n1)); [apply Hno1; lia|apply HP; lia].
Qed.

Lemma take_run_ok bm cnt n : zlen bm ≤ 2 ^ 37 → bytes_ok bm → 0 ≤ cnt ≤ n → n ≤ zlen bm →
  ∃ bm', take_run bm cnt n = Ret (4096 * (n - cnt), bm') ∧
    bits_updated bm bm' (n - cnt) n false.
Proof.
  intros Hlen Hok Hc Hn. unfold take_run. rewrite sub_u_ok by lia. cbn -[Z.pow].
  rewrite mul_u_ok by lia. cbn -[Z.pow].
  destruct (set_range_ok bm (n - cnt) n false) as (bm' & -> & HU); [done|lia|lia|].
  exists bm'. cbn -[Z.pow Z.mul]. split; [|done]. do 2 f_equal. lia.
Qed.

End BitmapFacts.

(** ** The allocator *)

(** The ranges of the fields: 52-bit physical addresses need at most 2^37 bitmap
    bytes, the counter and the cursor are [usize]. *)
Definition alloc_ok (s : BitmapFrameAllocator) : Prop :=
  bytes_ok (bitmap s) ∧ zlen (bitmap s) ≤ 2 ^ 37 ∧
  0 ≤ usable_frames s < 2 ^ 64 ∧ 0 ≤ next_frame s ≤ zlen (bitmap s).

(** The frame [i] is free in [s]. *)
Definition frame_free (s : BitmapFrameAllocator) (i : Z) : Prop := bit (bitmap s) i = true.

(** The cursor stands on a free frame. *)
Definition cursor_free (s : BitmapFrameAllocator) : Prop :=
  next_frame s < zlen (bitmap s) ∧ frame_free s (next_frame s).

(** [s'] has the bits of [s] but for [a..b], which are set to [v]. *)
Definition frames_updated (s s' : BitmapFrameAllocator) (a b : Z) (v : bool) : Prop :=
  bits_updated (bitmap s) (bitmap s') a b v.

(** What [allocate_frames(cnt)] promises: the first run of [cnt] free frames at
(** What [allocate_frames(cnt)] promises: the first run of [cnt] free frames at
    or after the cursor, marked used and off the count, no other frame touched, and the
    cursor moved behind the run when it stood at its start; or no change when the
    count is too low or there is no such run below [bitmap.len()]. *)
    there is none. *)
Definition allocate_frames_post (s : BitmapFrameAllocator) (cnt : Z)
    (res : option Z) (s' : BitmapFrameAllocator) : Prop :=
  match res with
  | Some addr => ∃ k, addr = 4096 * k ∧ next_frame s ≤ k ∧
      free_run (bitmap s) cnt k ∧ no_run (bitmap s) cnt (next_frame s) k ∧
      frames_updated s s' k (k + cnt) false ∧
      usable_frames s' = usable_frames s - cnt ∧
      next_frame s' = (if k =? next_frame s then k + cnt else next_frame s)
  | None => s' = s ∧
      (usable_frames s < cnt ∨ no_run (bitmap s) cnt (next_frame s) (zlen (bitmap s)))
  end.

Section AllocatorFacts.
Context {P : Profile} {BF : BitField} {XA : X86Addr}.

Lemma allocate_frame_ok s : alloc_ok s → 0 < usable_frames s →
  next_frame s < 8 * zlen (bitmap s) →
  ∃ s', allocate_frame s = Ret (Some (4096 * next_frame s), s') ∧ alloc_ok s' ∧
    frames_updated s s' (next_frame s) (next_frame s + 1) false ∧
    usable_frames s' = usable_frames s - 1 ∧
    (∀ i, next_frame s < i < next_frame s' → ¬ frame_free s i) ∧
    (next_frame s' = zlen (bitmap s) ∨ next_frame s < next_frame s' ∧ cursor_free s').
Proof.
  intros (Hb & Hl & Hu & Hn) Hpos Hn8. unfold allocate_frame.
  destruct (usable_frames s =? 0) eqn:E; breflect; [lia|].
  rewrite sub_u_ok by lia. cbn -[Z.pow].
  destruct (Bitmap_set_ok (bitmap s) (next_frame s) false) as (bm & -> & HU); [done|lia|].
  pose proof HU as (HUl & HUb & HUj).
  cbn -[Z.pow]. rewrite mul_u_ok, add_u_ok by lia. cbn -[Z.pow]. unfold Bitmap_len.
  destruct (findM_range (Bitmap_get bm) (bit bm) (next_frame s + 1) (zlen bm))
    as (r & -> & Hr). { intros i Hi. apply Bitmap_get_ok. lia. }
  cbn -[Z.pow]. rewrite PhysAddr_new_ok by lia. cbn -[Z.pow Z.mul].
  rewrite PhysFrame_containing_address_spec, Z.div_mul by lia. rewrite (Z.mul_comm _ 4096).
  eexists. split; [done|]. unfold alloc_ok, cursor_free, frame_free, frames_updated. cbn -[Z.pow].
  assert (∀ i, next_frame s < i → bit bm i = bit (bitmap s) i) as Hsame.
  { intros i Hi. rewrite HUj by lia. case_bool; [lia|done]. }
  destruct r as [i|]; cbn -[Z.pow].
  - destruct Hr as (Hi & Hbi & Hno). repeat split; try lia; try done.
    + intros j Hj. rewrite <- Hsame, Hno by lia. done.
    + right. split; [lia|]. split; [lia|done].
  - repeat split; try lia; try done. intros j Hj. rewrite <- Hsame, Hr by lia. done.
Qed.

Lemma take_run_post s cnt k : alloc_ok s → 1 ≤ cnt ≤ usable_frames s → next_frame s ≤ k →
  free_run (bitmap s) cnt k → no_run (bitmap s) cnt (next_frame s) k →
  ∃ bm', take_run (bitmap s) cnt (k + cnt) = Ret (4096 * k, bm') ∧
    allocate_frames_post s cnt (Some (4096 * k))
      (mkAlloc bm' (usable_frames s - cnt) (if k =? next_frame s then k + cnt else next_frame s)).
Proof.
  intros (Hb & Hl & Hu & Hn) Hc Hk [Hend Hset] Hno.
  destruct (take_run_ok (bitmap s) cnt (k + cnt)) as (bm' & Htr & HU); [done|done|lia|lia|].
  replace (k + cnt - cnt) with k in * by lia.
  exists bm'. split; [done|]. exists k. repeat split; try done; apply HU; done.
Qed.

End AllocatorFacts.

(** A call of [allocate_frame] on an allocator whose cursor stands on a free
    frame hands out that frame: it was free, it is used afterwards, no other
    frame changes, the counter drops by one, no panic happens, and the cursor
    moves to the next free frame below [bitmap.len()] (or to [bitmap.len()]). *)
Theorem allocate_frame_spec {P : Profile} {BF : BitField} {XA : X86Addr}
    (s : BitmapFrameAllocator)
    (Hok : alloc_ok s) (Hcur : cursor_free s) (Husable : 0 < usable_frames s) :
  ∃ s', allocate_frame s = Ret (Some (4096 * next_frame s), s') ∧ alloc_ok s' ∧
    frame_free s (next_frame s) ∧ ¬ frame_free s' (next_frame s) ∧
    frames_updated s s' (next_frame s) (next_frame s + 1) false ∧
    usable_frames s' = usable_frames s - 1 ∧
    (∀ i, next_frame s < i < next_frame s' → ¬ frame_free s i) ∧
    (next_frame s' = zlen (bitmap s) ∨ next_frame s < next_frame s' ∧ cursor_free s').
Proof.
  pose proof Hok as (_ & _ & _ & Hn). destruct Hcur as [Hlt Hfree].
  destruct (allocate_frame_ok s) as (s' & H1 & H2 & H3 & H4); [done|done|lia|].
  exists s'. repeat split; try tauto; try apply H2; try apply H3.
  unfold frame_free. destruct H3 as (_ & _ & ->); [|lia]. case_bool; [done|lia].
Qed.

(** [C22] [allocate_frames] always returns (every loop ends, no index is out of
    bounds, no arithmetic overflows), and for [cnt] of at least 1 its result is first fit: [Some addr] is
    the start of the first run of [cnt] free frames at or after the cursor, which
    it marks used without touching any other frame, the count is lowered by [cnt], and
    the cursor moves behind the run when it stood at its start and stays otherwise;
    [None] leaves the allocator as it was and means that fewer than [cnt] frames are
    counted usable or that no such run exists below [bitmap.len()], the number of bytes
    of the bitmap. *)
Theorem allocate_frames_first_fit {P : Profile} {BF : BitField}
    (s : BitmapFrameAllocator) (cnt : Z)
    (Hok : alloc_ok s) (Hcnt : 1 ≤ cnt) :
  ∃ res s', allocate_frames s cnt = Ret (res, s') ∧ allocate_frames_post s cnt res s'.
Proof.
  pose proof Hok as (Hb & Hl & Hu & Hn). unfold allocate_frames. case_bool.
  { exists None, s. cbn. auto. }
  rewrite sub_u_ok by lia. cbn -[Z.pow search]. unfold passes, Bitmap_len.
  destruct (count_run_ok (bitmap s) cnt Hl Hcnt (Z.to_nat (zlen (bitmap s) - next_frame s))
    (next_frame s) 0) as (found & n & -> & Hn2 & _ & HP); [lia|lia|lia|intros; lia|].
  cbn -[Z.pow search]. replace (next_frame s - 0) with (next_frame s) in HP by lia.
  destruct found; cbn -[Z.pow search].
  { destruct HP as [-> Hrun].
    destruct (take_run_post s cnt (next_frame s)) as (bm' & -> & Hpost); [done|lia|lia|done|intros k; lia|].
    rewrite Z.eqb_refl in Hpost. cbn. eauto. }
  destruct (search_ok (bitmap s) cnt (next_frame s) Hl Hcnt (S (Z.to_nat (zlen (bitmap s) - n))) n)
    as (r & -> & Hr); [lia|lia|lia|intros k Hk; apply HP; lia|].
  cbn -[Z.pow]. destruct r as [m|].
  - destruct Hr as (? & ? & Hrun & Hno).
    destruct (take_run_post s cnt (m - cnt)) as (bm' & Htr & Hpost); [done|lia|lia|done|done|].
    replace (m - cnt + cnt) with m in Htr by lia. rewrite Htr.
    rewrite (proj2 (Z.eqb_neq (m - cnt) _)) in Hpost by (intros Em; revert Hrun; rewrite Em; apply HP; lia). cbn. eauto.
  - rewrite add_u_ok by lia. cbn -[Z.pow]. eexists _, _. split; [done|].
    split; [|by right]. destruct s; cbn. f_equal. lia.
Qed.

(** When the cursor has reached [bitmap.len()] (the number of bytes of the
    bitmap, not of its bits) while frames are still counted usable,
    [allocate_frame] hands out one and the same frame on every call. *)
Theorem allocate_frame_past_end_repeats {P : Profile} {BF : BitField} {XA : X86Addr}
    (s : BitmapFrameAllocator)
    (Hok : alloc_ok s) (Hlen : 0 < zlen (bitmap s))
    (Hend : next_frame s = zlen (bitmap s)) (Husable : 2 ≤ usable_frames s) :
  ∃ s1 s2, allocate_frame s = Ret (Some (4096 * zlen (bitmap s)), s1) ∧
    allocate_frame s1 = Ret (Some (4096 * zlen (bitmap s)), s2).
Proof.
  destruct (allocate_frame_ok s) as (s1 & E1 & Hok1 & HU & Hu1 & _ & Hn1); [done|lia|lia|].
  rewrite Hend in E1. destruct HU as (Hl1 & _ & _).
  assert (next_frame s1 = zlen (bitmap s)) as Hn.
  { destruct Hn1 as [?|[? [? _]]]; lia. }
  destruct (allocate_frame_ok s1) as (s2 & E2 & _); [done|lia|lia|].
  rewrite Hn in E2. by exists s1, s2.
Qed.

(** [deallocate_frames(frame, cnt)] frees [cnt + 1] frames while it counts
    [cnt]: the inclusive range also marks the frame after the released run as
    free. *)
Theorem deallocate_frames_frees_one_more {P : Profile} {BF : BitField}
    (s : BitmapFrameAllocator) (k cnt : Z)
    (Hok : alloc_ok s) (Hk : 0 ≤ k) (Hcnt : 0 ≤ cnt)
    (Hin : k + cnt < 8 * zlen (bitmap s)) (Hsum : usable_frames s + cnt < 2 ^ 64) :
  ∃ s', deallocate_frames s (4096 * k) cnt = Ret s' ∧
    frames_updated s s' k (k + cnt + 1) true ∧ frame_free s' (k + cnt) ∧
    usable_frames s' = usable_frames s + cnt.
Proof.
  destruct Hok as (Hb & Hl & Hu & Hn). unfold deallocate_frames.
  rewrite (Z.mul_comm 4096 k), Z.div_mul by lia.
  rewrite !add_u_ok by lia. cbn -[Z.pow].
  destruct (set_range_ok (bitmap s) k (k + cnt + 1) true) as (bm & -> & HU); [done|lia|lia|].
  eexists. split; [done|]. split; [done|]. split; [|done].
  unfold frame_free. cbn. destruct HU as (_ & _ & ->); [|lia]. case_bool; [done|lia].
Qed.

(** ** Initialisation *)

(** The frames of a memory region, and of a list of regions. *)
Definition region_covers (i : Z) (r : Entry) : bool :=
  (entry_base r / 4096 <=? i) && (i <? entry_base r / 4096 + entry_length r / 4096).

Fixpoint region_frames (rs : list Entry) : Z :=
  match rs with [] => 0 | r :: rs => entry_length r / 4096 + region_frames rs end.

(** The documented guarantees on usable entries: page aligned, and below the
    end [mem] of the map. *)
Definition region_ok (mem : Z) (r : Entry) : Prop :=
  0 ≤ entry_base r ∧ 0 ≤ entry_length r ∧ entry_base r + entry_length r ≤ mem ∧
  entry_base r mod 4096 = 0 ∧ entry_length r mod 4096 = 0.

Section InitFacts.
Context {P : Profile} {BF : BitField}.

Lemma region_frames_nonneg mem rs : Forall (region_ok mem) rs → 0 ≤ region_frames rs.
Proof.
  induction 1 as [|r rs (? & ? & _) _ IH]; cbn [region_frames]; [done|].
  pose proof (Z.div_pos (entry_length r) 4096). lia.
Qed.

Lemma covered_iff i (rs : list Entry) a b :
  (if (a <=? i) && (i <? b) then false else existsb (region_covers i) rs) = true ↔
  (∃ r, r ∈ rs ∧ region_covers i r = true) ∧ ¬ (a ≤ i < b).
Proof.
  destruct ((a <=? i) && (i <? b)) eqn:E; breflect.
  - split; [done|]. intros [_ Hn]. lia.
  - rewrite existsb_exists. setoid_rewrite <- list_elem_of_In. split; [|tauto].
    intros Hr. split; [done|]. apply andb_false_iff in E as [?|?]; breflect; lia.
Qed.

Lemma region_in_map mem r : region_ok mem r →
  0 ≤ entry_base r / 4096 ∧ 0 ≤ entry_length r / 4096 ∧
  entry_base r / 4096 + entry_length r / 4096 ≤ mem / 4096.
Proof.
  intros (? & ? & Hle & Hb & Hl).
  pose proof (Z.div_mod (entry_base r) 4096). pose proof (Z.div_mod (entry_length r) 4096).
  pose proof (Z.div_mod mem 4096). pose proof (Z.mod_pos_bound mem 4096). lia.
Qed.

Lemma region_frames_elem mem rs r : Forall (region_ok mem) rs → r ∈ rs →
  entry_length r / 4096 ≤ region_frames rs.
Proof.
  induction 1 as [|r' rs Hr Hrs IH]; intros Hin; [by apply not_elem_of_nil in Hin|].
  cbn [region_frames]. pose proof (region_in_map _ _ Hr).
  pose proof (region_frames_nonneg _ _ Hrs).
  apply elem_of_cons in Hin as [->|Hin]; [lia|]. specialize (IH Hin). lia.
Qed.

Lemma bit_zeros n i : bit (replicate n 0) i = false.
Proof.
  unfold bit. destruct (replicate n 0 !! _) as [b|] eqn:E; [|done].
  apply lookup_replicate in E as [-> _]. apply Z.testbit_0_l.
Qed.

Lemma init_region_ok mem bm u n r : mem < 2 ^ 52 → region_ok mem r → bytes_ok bm →
  mem / 4096 ≤ 8 * zlen bm → 0 ≤ u + entry_length r / 4096 < 2 ^ 64 →
  ∃ bm', init_region (bm, u, n) r =
      Ret (bm', u + entry_length r / 4096, Z.min n (entry_base r / 4096)) ∧
    bits_updated bm bm' (entry_base r / 4096) (entry_base r / 4096 + entry_length r / 4096) true.
Proof.
  intros Hmem Hr Hb Hl Hu. pose proof (region_in_map mem r Hr).
  assert (mem / 4096 < 2 ^ 52) by (apply Z.div_lt_upper_bound; lia).
  unfold init_region. rewrite add_u_ok by lia. cbn -[Z.pow foldM].
  rewrite add_u_ok by lia. cbn -[Z.pow foldM].
  destruct (set_range_ok bm (entry_base r / 4096)
    (entry_base r / 4096 + entry_length r / 4096) true) as (bm1 & -> & HU); [done|lia|lia|].
  by exists bm1.
Qed.

Lemma init_regions_ok mem : mem < 2 ^ 52 → ∀ rs bm u n,
  Forall (region_ok mem) rs → bytes_ok bm → mem / 4096 ≤ 8 * zlen bm →
  0 ≤ u → u + region_frames rs < 2 ^ 64 →
  ∃ bm', foldM init_region (bm, u, n) rs =
      Ret (bm', u + region_frames rs, foldl (λ n r, Z.min n (entry_base r / 4096)) n rs) ∧
    zlen bm' = zlen bm ∧ bytes_ok bm' ∧
    ∀ j, 0 ≤ j → bit bm' j = bit bm j || existsb (region_covers j) rs.
Proof.
  intros Hmem. induction rs as [|r rs IH]; intros bm u n Hrs Hb Hl Hu Hsum.
  - exists bm. cbn. rewrite Z.add_0_r. repeat split; try done.
    intros. by rewrite orb_false_r.
  - apply Forall_cons in Hrs as [Hr Hrs]. pose proof (region_in_map mem r Hr).
    pose proof (region_frames_nonneg mem rs Hrs).
    assert (mem / 4096 < 2 ^ 52) by (apply Z.div_lt_upper_bound; lia).
    cbn [region_frames] in *. rewrite foldM_cons.
    destruct (init_region_ok mem bm u n r) as (bm1 & -> & Hl1 & Hb1 & Hj1); [lia|done|done|lia|lia|].
    cbn -[Z.pow foldM].
    destruct (IH bm1 (u + entry_length r / 4096) (Z.min n (entry_base r / 4096)))
      as (bm' & -> & Hl' & Hb' & Hj'); [done|done|lia|lia|lia|].
    exists bm'. repeat split; [|lia|done|].
    + do 3 f_equal. lia.
    + intros j Hj. rewrite Hj', Hj1 by done. cbn.
      fold (region_covers j r). destruct (region_covers j r), (bit bm j); done.
Qed.

Lemma cursor_min rs n : let m := foldl (λ n r, Z.min n (entry_base r / 4096)) n rs in
  m ≤ n ∧ ∀ r, r ∈ rs → m ≤ entry_base r / 4096.
Proof.
  revert n. induction rs as [|r rs IH]; intros n; cbn.
  - split; [lia|]. by intros r ?%not_elem_of_nil.
  - destruct (IH (Z.min n (entry_base r / 4096))) as [IH1 IH2]. split; [lia|].
    intros r' [->|H]%elem_of_cons; [lia|]. by apply IH2.
Qed.

End InitFacts.

(** Booting on a memory map whose usable entries are page aligned and below
    its end: [init] returns an allocator in which a frame is free exactly when a
    usable region covers it and the bitmap itself does not occupy it, and whose
    counter is the number of usable frames less the bitmap's frames. *)
Theorem init_free_frames {P : Profile} {BF : BitField} {XA : X86Addr}
    (raw_slice : Z → Z → list Z) (offset : Z) (entries : list Entry) (lastr region : Entry)
    (Hraw : ∀ a n, 0 ≤ n → zlen (raw_slice a n) = n)
    (Hlast : last entries = Some lastr)
    (Hmem : 0 ≤ entry_base lastr ∧ 0 ≤ entry_length lastr ∧
            entry_base lastr + entry_length lastr < 2 ^ 47)
    (Hoff : 2 ^ 64 - 2 ^ 47 ≤ offset ∧ offset + 2 ^ 47 ≤ 2 ^ 64)
    (Hregions : Forall (region_ok (entry_base lastr + entry_length lastr))
                  (base.filter (λ r, entry_usable r = true) entries))
    (Hframes : region_frames (base.filter (λ r, entry_usable r = true) entries) < 2 ^ 64)
    (Hfind : let size := div_ceil ((entry_base lastr + entry_length lastr) / 4096) 8 in
             List.find (λ r, size <=? entry_length r)
               (base.filter (λ r, entry_usable r = true) entries) = Some region) :
  let usable := base.filter (λ r, entry_usable r = true) entries in
  let size := div_ceil ((entry_base lastr + entry_length lastr) / 4096) 8 in
  let first := entry_base region / 4096 in
  let stop := first + div_ceil size 4096 in
  ∃ s, init raw_slice offset entries = Ret s ∧ zlen (bitmap s) = size ∧
    usable_frames s = region_frames usable - div_ceil size 4096 ∧
    ∀ i, 0 ≤ i → (frame_free s i ↔
      (∃ r, r ∈ usable ∧ region_covers i r = true) ∧ ¬ (first ≤ i < stop)).
Proof.
  intros usable size first stop. subst usable. set (usable := base.filter _ entries) in *.
  cbv zeta in Hfind. fold size in Hfind. set (mem := entry_base lastr + entry_length lastr) in *.
  pose proof (List.find_some _ _ Hfind) as [Hin Hsz]. breflect.
  apply list_elem_of_In in Hin.
  pose proof (proj1 (Forall_forall _ _) Hregions region Hin) as Hreg.
  pose proof (region_in_map mem region Hreg) as Hmap. destruct Hreg as (? & ? & ? & Hb4 & Hl4).
  assert (0 ≤ mem / 4096 < 2 ^ 47) as Hm4.
  { split; [apply Z.div_pos; lia|apply Z.div_lt_upper_bound; lia]. }
  pose proof (div_ceil_spec (mem / 4096) 8) as Hc8. fold size in Hc8.
  pose proof (div_ceil_spec size 4096) as Hc4.
  assert (div_ceil size 4096 ≤ entry_length region / 4096) as Hfit.
  { pose proof (Z.div_mod (entry_length region) 4096). lia. }
  unfold init. rewrite Hlast. run. rewrite add_u_ok by lia.
  run. fold mem size usable. rewrite Hfind. run.
  rewrite PhysAddr_new_ok by lia. run. rewrite (add_u_ok 64 (entry_base region)) by lia.
  run. rewrite VirtAddr_new_ok by lia. run.
  set (bm := Bitmap_new _).
  assert (zlen bm = size) as Hbm.
  { unfold bm, Bitmap_new, zlen. rewrite length_replicate. apply Hraw. lia. }
  assert (bytes_ok bm) as Hbok by (apply Forall_replicate; lia).
  destruct (init_regions_ok mem ltac:(lia) usable bm 0 usize_max)
    as (bm1 & -> & Hl1 & Hb1 & Hj1); [done|done|lia|lia|lia|].
  run. set (nx := foldl _ usize_max _).
  destruct (cursor_min usable usize_max) as [_ Hmin].
  specialize (Hmin region Hin). fold nx in Hmin.
  fold first in Hmin, Hmap |- *. rewrite (add_u_ok 64 first) by lia. run.
  rewrite (proj2 (Z.leb_le nx first)) by lia. run.
  assert (∃ nx', (if nx =? first then add_u 64 (first + div_ceil size 4096) 1 else Ret nx) = Ret nx')
    as [nx' ->]. { case_bool; [|by eexists]. rewrite add_u_ok by lia. by eexists. }
  run. destruct (set_range_ok bm1 first (first + div_ceil size 4096) false)
    as (bm2 & Hset & Hl2 & Hb2 & Hj2); [done|lia|lia|].
  pose proof (region_frames_elem mem usable region Hregions Hin). rewrite sub_u_ok by lia. run. rewrite Hset. run.
  eexists. split; [done|]. split; [cbn; lia|]. split; [cbn; lia|].
  intros i Hi. unfold frame_free. cbn [bitmap]. rewrite Hj2, Hj1 by done.
  unfold bm, Bitmap_new. rewrite bit_zeros, orb_false_l. fold stop. apply covered_iff.
Qed.

(** ** Examples *)

Ltac alloc_ok_tac :=
  unfold alloc_ok; split; [|vm_compute; repeat split; congruence];
  repeat (apply Forall_cons_2; [lia|]); apply Forall_nil_2.

(** One byte: frames 1 to 5 are free. *)
Definition small_alloc : BitmapFrameAllocator := mkAlloc [62; 0; 0] 5 1.

Lemma small_alloc_ok : alloc_ok small_alloc.
Proof. alloc_ok_tac. Qed.

Lemma allocate_frame_spec_witness :
  ∃ s', @allocate_frame dev Reference.bit_field Reference.x86_addr small_alloc =
    Ret (Some 4096, s') ∧ usable_frames s' = 4.
Proof.
  destruct (@allocate_frame_spec dev Reference.bit_field Reference.x86_addr small_alloc)
    as (s' & H1 & _ & _ & _ & _ & H2 & _).
  - apply small_alloc_ok.
  - split; [vm_compute; congruence|reflexivity].
  - vm_compute. repeat split; congruence.
  - exists s'. split; [exact H1|exact H2].
Defined.

Lemma allocate_frames_first_fit_witness :
  ∃ res s', @allocate_frames dev Reference.bit_field (mkAlloc [44; 0; 0; 0; 0; 0; 0; 0] 3 2) 1 =
    Ret (res, s') ∧
    allocate_frames_post (mkAlloc [44; 0; 0; 0; 0; 0; 0; 0] 3 2) 1 res s' ∧ res = Some 8192.
Proof.
  destruct (@allocate_frames_first_fit dev Reference.bit_field
    (mkAlloc [44; 0; 0; 0; 0; 0; 0; 0] 3 2) 1) as (res & s' & H1 & H2).
  - alloc_ok_tac.
  - lia.
  - exists res, s'. split; [exact H1|]. split; [exact H2|].
    vm_compute in H1. injection H1 as <- _. reflexivity.
Defined.

(** After the run 2..4 is taken the cursor stands on frame 4, which was never
    free: the next single allocation hands it out. *)
Example cursor_left_on_used_frame :
  let s := mkAlloc [44; 0; 0; 0; 0; 0; 0; 0] 3 2 in
  bit (bitmap s) 4 = false ∧
  ('(r1, s1) ← @allocate_frames dev Reference.bit_field s 2;
   '(r2, _) ← @allocate_frame dev Reference.bit_field Reference.x86_addr s1;
   Ret (r1, r2)) = Ret (Some 8192, Some 16384).
Proof. vm_compute. split; reflexivity. Qed.

Lemma allocate_frame_past_end_repeats_witness :
  ∃ s1 s2, @allocate_frame dev Reference.bit_field Reference.x86_addr (mkAlloc [254] 7 1) =
      Ret (Some 4096, s1) ∧
    @allocate_frame dev Reference.bit_field Reference.x86_addr s1 = Ret (Some 4096, s2).
Proof.
  apply (@allocate_frame_past_end_repeats dev Reference.bit_field Reference.x86_addr
    (mkAlloc [254] 7 1)).
  - alloc_ok_tac.
  - vm_compute. repeat split; congruence.
  - reflexivity.
  - vm_compute. repeat split; congruence.
Defined.

Lemma deallocate_frames_frees_one_more_witness :
  ∃ s', @deallocate_frames dev Reference.bit_field (mkAlloc [0; 0] 0 2) 8192 1 = Ret s' ∧
    frames_updated (mkAlloc [0; 0] 0 2) s' 2 4 true ∧ frame_free s' 3 ∧ usable_frames s' = 1.
Proof.
  apply (@deallocate_frames_frees_one_more dev Reference.bit_field (mkAlloc [0; 0] 0 2) 2 1).
  - alloc_ok_tac.
  - lia.
  - lia.
  - vm_compute. repeat split; congruence.
  - vm_compute. repeat split; congruence.
Defined.

(** 64 usable frames, then a reserved megabyte. *)
Definition small_map : list Entry := [mkEntry 0 262144 true; mkEntry 262144 1048576 false].

Lemma init_free_frames_witness :
  ∃ s, @init dev Reference.bit_field Reference.x86_addr (λ _ n, replicate (Z.to_nat n) 170)
      18446603336221196288 small_map = Ret s ∧
    zlen (bitmap s) = 40 ∧ usable_frames s = 63 ∧ frame_free s 1.
Proof.
  destruct (@init_free_frames dev Reference.bit_field Reference.x86_addr
    (λ _ n, replicate (Z.to_nat n) 170) 18446603336221196288 small_map
    (mkEntry 262144 1048576 false) (mkEntry 0 262144 true)) as (s & H1 & H2 & H3 & H4).
  - intros a n Hn. unfold zlen. rewrite length_replicate. lia.
  - reflexivity.
  - vm_compute. repeat split; congruence.
  - vm_compute. repeat split; congruence.
  - apply Forall_cons_2; [|apply Forall_nil_2]. vm_compute. repeat split; congruence.
  - vm_compute. reflexivity.
  - reflexivity.
  - exists s. split; [exact H1|]. split; [exact H2|]. split; [exact H3|].
    apply H4; [lia|]. split; [|vm_compute; intros [? ?]; congruence].
    exists (mkEntry 0 262144 true). split; [left|reflexivity].
Defined.
