(* ===== verification/Ept.v ===== *)
(** * Nested paging: entries

    The [GenericPTE] trait of [rvm/src/mm/page_table.rs] with the laws the page
    table code relies on, and the extended page table entries of
    [rvm/src/arch/x86_64/vmx/ept.rs] that implement it. *)

From S2P Require Import Prelude Crates.

(** [rvm/src/error.rs] *)
Inductive RvmError :=
  | AlreadyExists
  | BadState
  | InvalidParam
  | OutOfMemory
  | ResourceBusy
  | Unsupported.

#[export] Instance RvmError_eq_dec : EqDecision RvmError.
Proof. solve_decision. Defined.

Definition PAGE_SIZE : Z := 0x1000.

(** ** [MemFlags] *)

Definition MemFlags_READ : Z := Z.shiftl 1 0.
Definition MemFlags_WRITE : Z := Z.shiftl 1 1.
Definition MemFlags_EXECUTE : Z := Z.shiftl 1 2.
Definition MemFlags_DEVICE : Z := Z.shiftl 1 3.

(** A non-empty set of flags of the type. *)
Definition memflags_ok (f : Z) : Prop := 0 < f < 16.

(** A page-aligned physical address of at most 52 bits. *)
Definition paddr_ok (p : Z) : Prop := 0 ≤ p < 2 ^ 52 ∧ p mod 4096 = 0.

(** ** [GenericPTE]

    An entry is its 64-bit representation, the word 0 when cleared. *)

Class GenericPTE := {
  new_page : Z → Z → bool → Z;
  new_table : Z → Z;
  paddr : Z → Z;
  flags : Z → Z;
  is_unused : Z → bool;
  is_present : Z → bool;
  is_huge : Z → bool;
  clear : Z;
}.

(** What the page table code relies on. *)
Class GenericPTELaws (PTE : GenericPTE) : Prop := {
  zero_unused : is_unused 0 = true;
  clear_unused : is_unused clear = true;
  unused_absent e : is_unused e = true → is_present e = false;
  new_table_used p : is_unused (new_table p) = false;
  new_table_present p : is_present (new_table p) = true;
  new_table_huge p : is_huge (new_table p) = false;
  new_table_paddr p : paddr_ok p → paddr (new_table p) = p;
  paddr_range e : 0 ≤ paddr e < 2 ^ 52;
  new_page_paddr p f : paddr_ok p → 0 ≤ f < 16 → paddr (new_page p f false) = p;
  new_page_flags p f : paddr_ok p → memflags_ok f → flags (new_page p f false) = f;
}.

(** ** [EPTFlags] *)

Module EPTFlags.
Definition READ : Z := Z.shiftl 1 0.
Definition WRITE : Z := Z.shiftl 1 1.
Definition EXECUTE : Z := Z.shiftl 1 2.
Definition MEM_TYPE_MASK : Z := Z.shiftl 7 3.
Definition IGNORE_PAT : Z := Z.shiftl 1 6.
Definition HUGE_PAGE : Z := Z.shiftl 1 7.
Definition ACCESSED : Z := Z.shiftl 1 8.
Definition DIRTY : Z := Z.shiftl 1 9.
Definition EXECUTE_FOR_USER : Z := Z.shiftl 1 10.
End EPTFlags.

(** Every declared flag. *)
Definition EPTFlags_all : Z :=
  foldr Z.lor 0 [EPTFlags.READ; EPTFlags.WRITE; EPTFlags.EXECUTE; EPTFlags.MEM_TYPE_MASK;
    EPTFlags.IGNORE_PAT; EPTFlags.HUGE_PAGE; EPTFlags.ACCESSED; EPTFlags.DIRTY;
    EPTFlags.EXECUTE_FOR_USER].

Inductive EPTMemType :=
  | Uncached
  | WriteCombining
  | WriteThrough
  | WriteProtected
  | WriteBack.

Definition EPTMemType_bits (t : EPTMemType) : Z :=
  match t with
  | Uncached => 0
  | WriteCombining => 1
  | WriteThrough => 4
  | WriteProtected => 5
  | WriteBack => 6
  end.

Definition EPTMemType_try_from (x : Z) : result Z EPTMemType :=
  if x =? 0 then Ok Uncached
  else if x =? 1 then Ok WriteCombining
  else if x =? 4 then Ok WriteThrough
  else if x =? 5 then Ok WriteProtected
  else if x =? 6 then Ok WriteBack
  else Err x.

Section Flags.
Context {BF : BitField} {FL : Bitflags}.

Definition set_mem_type (self : Z) (mem_type : EPTMemType) : Z :=
  fl_truncate EPTFlags_all (set_bits self 3 6 (EPTMemType_bits mem_type)).

Definition mem_type (self : Z) : result Z EPTMemType :=
  EPTMemType_try_from (get_bits self 3 6).

(** [impl From<MemFlags> for EPTFlags] *)
Definition EPTFlags_from (f : Z) : Z :=
  if f =? 0 then 0
  else
    let ret := 0 in
    let ret := if fl_contains f MemFlags_READ then fl_union ret EPTFlags.READ else ret in
    let ret := if fl_contains f MemFlags_WRITE then fl_union ret EPTFlags.WRITE else ret in
    let ret := if fl_contains f MemFlags_EXECUTE then fl_union ret EPTFlags.EXECUTE else ret in
    if negb (fl_contains f MemFlags_DEVICE) then set_mem_type ret WriteBack else ret.

(** [impl From<EPTFlags> for MemFlags] *)
Definition MemFlags_from (f : Z) : Z :=
  let ret := 0 in
  let ret := if fl_contains f EPTFlags.READ then fl_union ret MemFlags_READ else ret in
  let ret := if fl_contains f EPTFlags.WRITE then fl_union ret MemFlags_WRITE else ret in
  let ret := if fl_contains f EPTFlags.EXECUTE then fl_union ret MemFlags_EXECUTE else ret in
  match mem_type f with
  | Ok Uncached => fl_union ret MemFlags_DEVICE
  | _ => ret
  end.

(** ** [EPTEntry] *)

Definition PHYS_ADDR_MASK : Z := 0x000f_ffff_ffff_f000.

#[export] Instance EPTEntry : GenericPTE := {|
  new_page p f huge :=
    let fl := EPTFlags_from f in
    let fl := if huge : bool then fl_union fl EPTFlags.HUGE_PAGE else fl in
    Z.lor fl (Z.land p PHYS_ADDR_MASK);
  new_table p :=
    let fl := fl_union (fl_union EPTFlags.READ EPTFlags.WRITE) EPTFlags.EXECUTE in
    Z.lor fl (Z.land p PHYS_ADDR_MASK);
  paddr e := Z.land e PHYS_ADDR_MASK;
  flags e := MemFlags_from (fl_truncate EPTFlags_all e);
  is_unused e := e =? 0;
  is_present e := negb (Z.land e 0x7 =? 0);
  is_huge e := fl_contains (fl_truncate EPTFlags_all e) EPTFlags.HUGE_PAGE;
  clear := 0;
|}.

(** ** The conversions, computed *)

(** The sixteen values of [MemFlags], for a proof by cases. *)
Lemma memflags_cases (Q : Z → Prop) :
  (∀ f, In f [0;1;2;3;4;5;6;7;8;9;10;11;12;13;14;15] → Q f) → ∀ f, 0 ≤ f < 16 → Q f.
Proof.
  intros H f Hf. apply H. cbn. lia.
Qed.

(** [EPTFlags_from] without the crates' functions. *)
Definition ept_bits (f : Z) : Z :=
  if f =? 0 then 0
  else Z.lor (Z.land f 7) (if Z.testbit f 3 then 0 else 0x30).

Lemma EPTFlags_from_bits f : 0 ≤ f < 16 → EPTFlags_from f = ept_bits f.
Proof.
  apply (memflags_cases (λ f, EPTFlags_from f = ept_bits f)). clear f. intros f Hf.
  unfold EPTFlags_from, set_mem_type. rewrite !fl_contains_spec, !fl_union_spec.
  rewrite fl_truncate_spec, set_bits_spec by (cbn; lia).
  cbn in Hf. repeat destruct Hf as [<-|Hf]; done.
Qed.

Lemma ept_bits_range f : 0 ≤ f < 16 → 0 ≤ ept_bits f < 2 ^ 6.
Proof.
  apply (memflags_cases (λ f, 0 ≤ ept_bits f < 2 ^ 6)). clear f. intros f Hf.
  cbn in Hf. repeat destruct Hf as [<-|Hf]; done.
Qed.

Lemma MemFlags_from_bits f : memflags_ok f → MemFlags_from (ept_bits f) = f.
Proof.
  intros Hf. assert (0 ≤ f < 16) as Hf' by (unfold memflags_ok in Hf; lia). revert f Hf' Hf.
  apply (memflags_cases (λ f, memflags_ok f → MemFlags_from (ept_bits f) = f)).
  intros f Hf H0. unfold memflags_ok in H0.
  unfold MemFlags_from, mem_type. rewrite !fl_contains_spec, !fl_union_spec, get_bits_spec by lia.
  cbn in Hf. repeat destruct Hf as [<-|Hf]; first [lia|done].
Qed.

(** The conversion back also reads through the huge-page flag. *)
Lemma MemFlags_from_huge_bits f : memflags_ok f →
  MemFlags_from (Z.lor (ept_bits f) EPTFlags.HUGE_PAGE) = f.
Proof.
  intros Hf. assert (0 ≤ f < 16) as Hf' by (unfold memflags_ok in Hf; lia). revert f Hf' Hf.
  apply (memflags_cases (λ f, memflags_ok f →
    MemFlags_from (Z.lor (ept_bits f) EPTFlags.HUGE_PAGE) = f)).
  intros f Hf H0. unfold memflags_ok in H0.
  unfold MemFlags_from, mem_type. rewrite !fl_contains_spec, !fl_union_spec, get_bits_spec by lia.
  cbn in Hf. repeat destruct Hf as [<-|Hf]; first [lia|done].
Qed.

Lemma huge_bit fl p b : 0 ≤ fl < 2 ^ 6 → paddr_ok p →
  is_huge (Z.lor (if (b : bool) then Z.lor fl EPTFlags.HUGE_PAGE else fl) p) = b.
Proof.
  intros Hf [_ Ha]. cbn -[Z.lor Z.land EPTFlags.HUGE_PAGE EPTFlags_all].
  rewrite fl_contains_spec, fl_truncate_spec.
  assert (∀ x, (Z.land x EPTFlags.HUGE_PAGE =? EPTFlags.HUGE_PAGE) = Z.testbit x 7) as Ht.
  { intros x. change EPTFlags.HUGE_PAGE with (2 ^ 7). destruct (Z.testbit x 7) eqn:E.
    - apply Z.eqb_eq, Z.bits_inj'. intros i Hi. rewrite Z.land_spec, Z.pow2_bits_eqb by lia.
      destruct (7 =? i) eqn:E7; breflect; subst; by rewrite ?E, ?andb_false_r.
    - apply Z.eqb_neq. intros H. apply (f_equal (λ y, Z.testbit y 7)) in H.
      rewrite Z.land_spec, E in H. done. }
  rewrite Ht, Z.land_spec, Z.lor_spec, (testbit_aligned p 12) by (done || lia).
  rewrite orb_false_r. destruct b; rewrite ?Z.lor_spec, (testbit_high fl 6) by lia; done.
Qed.

Lemma phys_mask : PHYS_ADDR_MASK = mask 12 52.
Proof. done. Qed.

Lemma land_phys p : paddr_ok p → Z.land p PHYS_ADDR_MASK = p.
Proof.
  intros [Hp Ha]. rewrite phys_mask. rewrite <- (Z.lor_0_l p) at 1.
  by apply land_mask_lor.
Qed.

Lemma land_phys_range e : 0 ≤ Z.land e PHYS_ADDR_MASK < 2 ^ 52.
Proof.
  change PHYS_ADDR_MASK with (Z.land PHYS_ADDR_MASK (Z.ones 52)).
  rewrite Z.land_assoc, Z.land_ones by done. by apply Z.mod_pos_bound.
Qed.

Lemma ept_all : EPTFlags_all = Z.ones 11.
Proof. done. Qed.

(** The flags part of an entry built from [fl] and an address. *)
Lemma entry_flags fl p : 0 ≤ fl < 2 ^ 11 → paddr_ok p →
  Z.land EPTFlags_all (Z.lor fl p) = fl.
Proof.
  intros Hf [_ Ha]. rewrite ept_all, Z.land_comm, (land_low_lor fl p 12) by (done || lia).
  by apply land_ones_small.
Qed.

#[export] Instance EPTEntry_laws : GenericPTELaws EPTEntry.
Proof.
  split; cbn -[Z.lor Z.land Z.pow ept_bits EPTFlags_all PHYS_ADDR_MASK].
  - done.
  - done.
  - intros e He. breflect. by subst.
  - intros p. rewrite !fl_union_spec. apply Z.eqb_neq. intros H%Z.lor_eq_0_l. done.
  - intros p. rewrite !fl_union_spec. apply negb_true_iff, Z.eqb_neq.
    rewrite Z.land_lor_distr_l. intros H%Z.lor_eq_0_l. done.
  - intros p. rewrite fl_contains_spec, fl_truncate_spec, !fl_union_spec. apply Z.eqb_neq.
    intros H. apply (f_equal (λ x, Z.testbit x 7)) in H. revert H.
    rewrite !Z.land_spec, Z.lor_spec, Z.land_spec. cbn. rewrite !andb_false_r. done.
  - intros p Hp. rewrite !fl_union_spec, (land_phys p) by done. destruct Hp as [? ?].
    rewrite phys_mask. by apply land_mask_lor.
  - apply land_phys_range.
  - intros p f Hp Hf. rewrite EPTFlags_from_bits, (land_phys p) by done.
    pose proof (ept_bits_range f Hf). destruct Hp as [? ?].
    rewrite phys_mask. apply land_mask_lor; [done|lia|done|done].
  - intros p f Hp Hf. assert (0 ≤ f < 16) by (unfold memflags_ok in Hf; lia).
    rewrite EPTFlags_from_bits, (land_phys p), fl_truncate_spec by done.
    pose proof (ept_bits_range f). rewrite entry_flags by (done || lia).
    by apply MemFlags_from_bits.
Qed.

(** An entry that grants some access is never mistaken for a free one. *)
Lemma ept_entry_used p f : 0 ≤ f < 16 → Z.land f 7 ≠ 0 → is_unused (new_page p f false) = false.
Proof.
  intros Hf Hacc. cbn -[Z.lor Z.land]. rewrite EPTFlags_from_bits by done. apply Z.eqb_neq.
  unfold ept_bits. intros Hz%Z.lor_eq_0_l. revert Hz. case_bool; [by subst|].
  intros Hz%Z.lor_eq_0_l. done.
Qed.

End Flags.

(** An extended page table entry keeps what it was built from: the page's
    physical address, its access flags and memory type, and whether it maps a
    huge page, for every 52-bit page address and non-empty set of flags. *)
Theorem ept_entry_roundtrip {BF : BitField} {FL : Bitflags} (p f : Z) (huge : bool)
    (Hp : paddr_ok p) (Hf : memflags_ok f) :
  let e := new_page p f huge in paddr e = p ∧ flags e = f ∧ is_huge e = huge.
Proof.
  cbv zeta. assert (0 ≤ f < 16) as Hf16 by (unfold memflags_ok in Hf; lia).
  pose proof (ept_bits_range f Hf16) as Hr.
  cbn [new_page EPTEntry]. rewrite EPTFlags_from_bits, (land_phys p) by done.
  rewrite fl_union_spec.
  set (fl := if huge then Z.lor (ept_bits f) EPTFlags.HUGE_PAGE else ept_bits f).
  assert (0 ≤ fl < 2 ^ 11) as Hfl.
  { subst fl. destruct huge; [|lia].
    change EPTFlags.HUGE_PAGE with (2 ^ 7). rewrite (lor_aligned _ (2 ^ 7) 7) by (done || lia). lia. }
  split; [|split].
  - cbn [paddr EPTEntry]. rewrite phys_mask. destruct Hp. apply land_mask_lor; [done|lia|done|done].
  - cbn [flags EPTEntry]. rewrite fl_truncate_spec, entry_flags by done. subst fl.
    destruct huge; [by apply MemFlags_from_huge_bits|by apply MemFlags_from_bits].
  - by apply huge_bit.
Qed.

(** ** Examples *)

#[local] Existing Instances Reference.bit_field Reference.bitflags.

Lemma ept_entry_roundtrip_witness :
  let e := new_page 0x12345000 11 true in
  paddr e = 0x12345000 ∧ flags e = 11 ∧ is_huge e = true.
Proof.
  apply (ept_entry_roundtrip 0x12345000 11 true).
  - split; vm_compute; [split; congruence|reflexivity].
  - split; reflexivity.
Defined.

(** The empty set of flags does not come back: it reads as device memory. *)
Example empty_memflags_read_as_device : MemFlags_from (EPTFlags_from 0) = MemFlags_DEVICE.
Proof. reflexivity. Qed.
