(* ===== verification/PageTable.v ===== *)
(** * Nested paging: the four-level table

    [rvm/src/hal.rs] (the interface to the host kernel), [PhysFrame] of
    [rvm/src/mm/mod.rs] and [Level4PageTable] of [rvm/src/mm/page_table.rs]. The
    tables live in host memory; the theorems say that the four-level structure
    implements a finite map from guest pages to host pages. *)

From S2P Require Import Prelude Crates Ept.

(** ** [RvmHal]

    [Host] is the state of the host kernel the hypervisor calls into. *)

Class RvmHal := {
  Host : Type;
  alloc_page : Host → out (option Z * Host);
  dealloc_page : Host → Z → out Host;
  phys_to_virt : Z → Z;
  current_time_nanos : Host → Z;
}.

(** The promises of the trait's documentation that the page table relies on.
    [hal_owns h s]: the host has handed out the pages [s] and not taken them
    back. *)
Class RvmHalLaws (H : RvmHal) := {
  hal_owns : Host → gset Z → Prop;
  hal_owns_mono h s s' : s' ⊆ s → hal_owns h s → hal_owns h s';
  alloc_page_returns h s : hal_owns h s → ∃ r, alloc_page h = Ret r;
  alloc_page_some h s p h' : hal_owns h s → alloc_page h = Ret (Some p, h') →
    (p ∉ s) ∧ p ≠ 0 ∧ paddr_ok p ∧ hal_owns h' ({[p]} ∪ s);
  alloc_page_none h s h' : hal_owns h s → alloc_page h = Ret (None, h') → hal_owns h' s;
  phys_to_virt_linear p d : phys_to_virt (p + d) = phys_to_virt p + d;
}.

(** ** Memory

    Host memory as 64-bit words, indexed by the virtual address of their first
    byte. *)

Definition memory : Type := Z → Z.

Definition write_word (m : memory) (a x : Z) : memory := λ b, if b =? a then x else m b.

(** [ptr::write_bytes(v, byte, PAGE_SIZE)] *)
Definition fill_page (m : memory) (v byte : Z) : memory :=
  λ b, if (v <=? b) && (b <? v + PAGE_SIZE) then byte * 0x0101010101010101 else m b.

Record PTState {H : RvmHal} := mkPT {
  mem : memory;
  host : Host;
  root_paddr : Z;
  intrm_tables : list Z;
}.
Arguments PTState H : clear implicits.
Arguments mkPT {H}.

Section PhysFrame.
Context {H : RvmHal}.

(** [PhysFrame::alloc] and [alloc_zero]; a frame is its start address. *)
Definition PhysFrame_alloc (h : Host) : out (result RvmError Z * Host) :=
  '(r, h') ← alloc_page h;
  match r with
  | None => Ret (Err OutOfMemory, h')
  | Some start_paddr =>
      _ ← assert (negb (start_paddr =? 0));
      Ret (Ok start_paddr, h')
  end.

Definition PhysFrame_alloc_zero (m : memory) (h : Host) :
    out (result RvmError Z * (memory * Host)) :=
  '(r, h') ← PhysFrame_alloc h;
  match r with
  | Err e => Ret (Err e, (m, h'))
  | Ok f => Ret (Ok f, (fill_page m (phys_to_virt f) 0, h'))
  end.

(** [Drop for PhysFrame] *)
Definition PhysFrame_drop (h : Host) (start_paddr : Z) : out Host :=
  if 0 <? start_paddr then dealloc_page h start_paddr else Ret h.

End PhysFrame.

(** ** [Level4PageTable] *)

Definition ENTRY_COUNT : Z := 512.

Definition p4_index (vaddr : Z) : Z := Z.land (Z.shiftr vaddr (12 + 27)) (ENTRY_COUNT - 1).
Definition p3_index (vaddr : Z) : Z := Z.land (Z.shiftr vaddr (12 + 18)) (ENTRY_COUNT - 1).
Definition p2_index (vaddr : Z) : Z := Z.land (Z.shiftr vaddr (12 + 9)) (ENTRY_COUNT - 1).
Definition p1_index (vaddr : Z) : Z := Z.land (Z.shiftr vaddr 12) (ENTRY_COUNT - 1).

Definition align_down (addr : Z) : Z := Z.land addr (not_u 64 (PAGE_SIZE - 1)).
Definition page_offset (addr : Z) : Z := Z.land addr (PAGE_SIZE - 1).

Section Level4PageTable.
Context {P : Profile} {PTE : GenericPTE} {H : RvmHal}.

(** The address of entry [i] of the table at [t], and its word. A [&mut [PTE]]
    of the code is here the physical address of the table, a [&mut PTE] the
    virtual address of the entry. *)
Definition entry_addr (t i : Z) : Z := phys_to_virt t + 8 * i.
Definition entry (st : PTState H) (t i : Z) : Z := mem st (entry_addr t i).

Definition set_mem (st : PTState H) (m : memory) : PTState H :=
  mkPT m (host st) (root_paddr st) (intrm_tables st).

Definition write_entry (st : PTState H) (a e : Z) : PTState H :=
  set_mem st (write_word (mem st) a e).

Definition PageTable_new (m : memory) (h : Host) :
    out (result RvmError (PTState H) * (memory * Host)) :=
  '(r, (m', h')) ← PhysFrame_alloc_zero m h;
  match r with
  | Err e => Ret (Err e, (m', h'))
  | Ok root => Ret (Ok (mkPT m' h' root [root]), (m', h'))
  end.

Definition next_table_mut (e : Z) : result RvmError Z :=
  if negb (is_present e) then Err BadState
  else if is_huge e then Err BadState
  else Ok (paddr e).

Definition alloc_intrm_table (st : PTState H) : out (result RvmError Z * PTState H) :=
  '(r, (m, h)) ← PhysFrame_alloc_zero (mem st) (host st);
  match r with
  | Err e => Ret (Err e, mkPT m h (root_paddr st) (intrm_tables st))
  | Ok frame => Ret (Ok frame, mkPT m h (root_paddr st) (intrm_tables st ++ [frame]))
  end.

Definition next_table_mut_or_create (st : PTState H) (a : Z) :
    out (result RvmError Z * PTState H) :=
  if is_unused (mem st a) then
    let? (p, st) := alloc_intrm_table st in
    Ret (Ok p, write_entry st a (new_table p))
  else Ret (next_table_mut (mem st a), st).

Definition get_entry_mut (st : PTState H) (vaddr : Z) : result RvmError Z :=
  let p4 := root_paddr st in
  match next_table_mut (entry st p4 (p4_index vaddr)) with
  | Err e => Err e
  | Ok p3 =>
      match next_table_mut (entry st p3 (p3_index vaddr)) with
      | Err e => Err e
      | Ok p2 =>
          match next_table_mut (entry st p2 (p2_index vaddr)) with
          | Err e => Err e
          | Ok p1 => Ok (entry_addr p1 (p1_index vaddr))
          end
      end
  end.

Definition get_entry_mut_or_create (st : PTState H) (vaddr : Z) :
    out (result RvmError Z * PTState H) :=
  let p4 := root_paddr st in
  let? (p3, st) := next_table_mut_or_create st (entry_addr p4 (p4_index vaddr)) in
  let? (p2, st) := next_table_mut_or_create st (entry_addr p3 (p3_index vaddr)) in
  let? (p1, st) := next_table_mut_or_create st (entry_addr p2 (p2_index vaddr)) in
  Ret (Ok (entry_addr p1 (p1_index vaddr)), st).

Definition map (st : PTState H) (vaddr pa fl : Z) : out (result RvmError unit * PTState H) :=
  let? (a, st) := get_entry_mut_or_create st vaddr in
  if negb (is_unused (mem st a)) then Ret (Err InvalidParam, st)
  else Ret (Ok tt, write_entry st a (new_page (align_down pa) fl false)).

Definition unmap (st : PTState H) (vaddr : Z) : result RvmError Z * PTState H :=
  match get_entry_mut st vaddr with
  | Err e => (Err e, st)
  | Ok a =>
      if is_unused (mem st a) then (Err InvalidParam, st)
      else (Ok (paddr (mem st a)), write_entry st a clear)
  end.

Definition query (st : PTState H) (vaddr : Z) : out (result RvmError (Z * Z)) :=
  match get_entry_mut st vaddr with
  | Err e => Ret (Err e)
  | Ok a =>
      if is_unused (mem st a) then Ret (Err InvalidParam)
      else
        let off := page_offset vaddr in
        sum ← add_u 64 (paddr (mem st a)) off;
        Ret (Ok (sum, flags (mem st a)))
  end.

Definition update (st : PTState H) (vaddr : Z) (pa fl : option Z) :
    result RvmError unit * PTState H :=
  match get_entry_mut st vaddr with
  | Err e => (Err e, st)
  | Ok a =>
      let e := mem st a in
      let p := align_down (default (paddr e) pa) in
      let f := default (flags e) fl in
      (Ok tt, write_entry st a (new_page p f (is_huge e)))
  end.

End Level4PageTable.

(** ** Indices *)

(** The index of [v] in a table of level [l] (3 for the root, 0 for a leaf). *)
Definition pidx (l : nat) (v : Z) : Z := v / 2 ^ (12 + 9 * Z.of_nat l) mod 512.

(** The number of the page of [v] in a 48-bit address space. *)
Definition page_of (v : Z) : Z := v / 4096 mod 2 ^ 36.

Lemma pidx_range l v : 0 ≤ pidx l v < 512.
Proof. apply Z.mod_pos_bound. done. Qed.

Lemma pidx_land v k : 0 ≤ k → Z.land (Z.shiftr v k) (ENTRY_COUNT - 1) = v / 2 ^ k mod 512.
Proof. intros. change (ENTRY_COUNT - 1) with (Z.ones 9). by rewrite Z.land_ones, Z.shiftr_div_pow2. Qed.

Lemma p4_index_pidx v : p4_index v = pidx 3 v.
Proof. by apply pidx_land. Qed.
Lemma p3_index_pidx v : p3_index v = pidx 2 v.
Proof. by apply pidx_land. Qed.
Lemma p2_index_pidx v : p2_index v = pidx 1 v.
Proof. by apply pidx_land. Qed.
Lemma p1_index_pidx v : p1_index v = pidx 0 v.
Proof. by apply pidx_land. Qed.

Lemma page_of_pidx v :
  page_of v = pidx 0 v + 512 * (pidx 1 v + 512 * (pidx 2 v + 512 * pidx 3 v)).
Proof.
  unfold page_of, pidx.
  replace (2 ^ (12 + 9 * Z.of_nat 0)) with 4096 by done.
  replace (2 ^ (12 + 9 * Z.of_nat 1)) with (4096 * 512) by done.
  replace (2 ^ (12 + 9 * Z.of_nat 2)) with (4096 * 512 * 512) by done.
  replace (2 ^ (12 + 9 * Z.of_nat 3)) with (4096 * 512 * 512 * 512) by done.
  rewrite <- !Z.div_div by lia.
  generalize (v / 4096). intros n. change (2 ^ 36) with (512 * (512 * (512 * 512))).
  rewrite (Z.rem_mul_r n) by lia. rewrite (Z.rem_mul_r (n / 512)) by lia.
  rewrite (Z.rem_mul_r (n / 512 / 512)) by lia. lia.
Qed.

(** Two addresses are on one page exactly when their indices agree. *)
Lemma page_of_eq v w : page_of v = page_of w ↔ ∀ l, (l ≤ 3)%nat → pidx l v = pidx l w.
Proof.
  rewrite !page_of_pidx. pose proof (pidx_range 0 v). pose proof (pidx_range 1 v).
  pose proof (pidx_range 2 v). pose proof (pidx_range 3 v). pose proof (pidx_range 0 w).
  pose proof (pidx_range 1 w). pose proof (pidx_range 2 w). pose proof (pidx_range 3 w).
  split.
  - intros E l Hl. destruct l as [|[|[|[|]]]]; lia.
  - intros E. rewrite (E 0%nat), (E 1%nat), (E 2%nat), (E 3%nat) by lia. done.
Qed.

Lemma align_down_eq p : 0 ≤ p < 2 ^ 64 → align_down p = p - p mod 4096.
Proof.
  intros Hp. unfold align_down. change (not_u 64 (PAGE_SIZE - 1)) with (mask 12 64).
  rewrite (Z.div_mod p 4096) at 1 by lia.
  replace (4096 * (p / 4096) + p mod 4096) with (Z.lor (p mod 4096) (4096 * (p / 4096))).
  - pose proof (Z.mod_pos_bound p 4096). pose proof (Z.div_mod p 4096).
    rewrite land_mask_lor; [lia|lia|lia|lia|]. rewrite Z.mul_comm. by apply Z.mod_mul.
  - rewrite (lor_aligned _ _ 12); [lia|lia|by apply Z.mod_pos_bound|].
    rewrite Z.mul_comm. by apply Z.mod_mul.
Qed.

Lemma align_down_ok p : 0 ≤ p < 2 ^ 52 → paddr_ok (align_down p).
Proof.
  intros Hp. rewrite align_down_eq by lia. pose proof (Z.mod_pos_bound p 4096).
  pose proof (Z.div_mod p 4096). split; [lia|].
  replace (p - p mod 4096) with (p / 4096 * 4096) by lia. by apply Z.mod_mul.
Qed.

Lemma page_offset_eq v : page_offset v = v mod 4096.
Proof. unfold page_offset. change (PAGE_SIZE - 1) with (Z.ones 12). by rewrite Z.land_ones. Qed.

(** ** The abstract map

    [walk st l t v] is the leaf table reached from the table [t] of level [l];
    [leaf] is the entry found there, unless it is unused. *)

Section Abstract.
Context {P : Profile} {PTE : GenericPTE} {H : RvmHal}.

Fixpoint walk (st : PTState H) (l : nat) (t v : Z) : option Z :=
  match l with
  | O => Some t
  | S l' =>
      let e := entry st t (pidx l v) in
      if is_unused e then None else walk st l' (paddr e) v
  end.

Definition leaf (st : PTState H) (l : nat) (t v : Z) : option Z :=
  u ← walk st l t v;
  let e := entry st u (pidx 0 v) in
  if is_unused e then None else Some e.

(** The entry that translates [v]. *)
Definition mapped (st : PTState H) (v : Z) : option Z := leaf st 3 (root_paddr st) v.

End Abstract.

(** ** The invariant *)

Section Invariant.
Context {PTE : GenericPTE} {H : RvmHal} {HL : RvmHalLaws H}.

(** [lv] gives every table its level. Entries of a table above the leaves are
    unused or point to a table one level below; no table has two parents; the
    host has handed out exactly these pages. *)
Record pt_inv (st : PTState H) (lv : gmap Z nat) : Prop := {
  inv_root : lv !! root_paddr st = Some 3%nat;
  inv_valid t l : lv !! t = Some l → paddr_ok t;
  inv_tables t : is_Some (lv !! t) ↔ t ∈ intrm_tables st;
  inv_entry t l i : lv !! t = Some (S l) → 0 ≤ i < 512 →
    is_unused (entry st t i) = true ∨
    ∃ p, entry st t i = new_table p ∧ lv !! p = Some l;
  inv_parent t1 l1 i1 t2 l2 i2 p :
    lv !! t1 = Some (S l1) → lv !! t2 = Some (S l2) → 0 ≤ i1 < 512 → 0 ≤ i2 < 512 →
    entry st t1 i1 = new_table p → entry st t2 i2 = new_table p → t1 = t2 ∧ i1 = i2;
  inv_host : hal_owns (host st) (dom lv);
}.

(** A page table the invariant holds of, for some assignment of levels. *)
Definition pt_ok (st : PTState H) : Prop := ∃ lv, pt_inv st lv.

End Invariant.

Section Proofs.
Context {P : Profile} {PTE : GenericPTE} {PL : GenericPTELaws PTE}.
Context {H : RvmHal} {HL : RvmHalLaws H}.
Implicit Types (st : PTState H) (lv : gmap Z nat).

(** *** Entries do not overlap *)

Lemma entry_addr_inj t i t' i' : paddr_ok t → paddr_ok t' → 0 ≤ i < 512 → 0 ≤ i' < 512 →
  entry_addr t i = entry_addr t' i' → t = t' ∧ i = i'.
Proof.
  intros [_ Ht] [_ Ht'] Hi Hi'. unfold entry_addr.
  replace t with (0 + t) at 1 by lia. replace t' with (0 + t') at 1 by lia.
  rewrite !phys_to_virt_linear. intros E.
  pose proof (Z.div_mod t 4096). pose proof (Z.div_mod t' 4096). lia.
Qed.

Lemma entry_write_eq st t i e : entry (write_entry st (entry_addr t i) e) t i = e.
Proof. unfold entry, write_entry, write_word. cbn. by rewrite Z.eqb_refl. Qed.

Lemma entry_write_ne st t i e t' i' :
  paddr_ok t → paddr_ok t' → 0 ≤ i < 512 → 0 ≤ i' < 512 → (t, i) ≠ (t', i') →
  entry (write_entry st (entry_addr t i) e) t' i' = entry st t' i'.
Proof.
  intros Ht Ht' Hi Hi' Hne. unfold entry, write_entry, write_word. cbn.
  destruct (_ =? _) eqn:E; [|done]. breflect. exfalso. apply Hne.
  destruct (entry_addr_inj t' i' t i) as [-> ->]; done.
Qed.

Lemma entry_fill_eq st p i : 0 ≤ i < 512 →
  fill_page (mem st) (phys_to_virt p) 0 (entry_addr p i) = 0.
Proof. intros Hi. unfold fill_page, entry_addr, PAGE_SIZE. case_bool; [lia|].
  apply andb_false_iff in E as [?|?]; breflect; lia. Qed.

Lemma entry_fill_ne st p t i : paddr_ok p → paddr_ok t → p ≠ t → 0 ≤ i < 512 →
  fill_page (mem st) (phys_to_virt p) 0 (entry_addr t i) = entry st t i.
Proof.
  intros [_ Hp] [_ Ht] Hne Hi. unfold fill_page, entry, entry_addr, PAGE_SIZE.
  replace p with (0 + p) at 1 2 by lia. replace t with (0 + t) at 1 2 by lia.
  rewrite !phys_to_virt_linear. case_bool; [|by rewrite ?phys_to_virt_linear].
  pose proof (Z.div_mod p 4096). pose proof (Z.div_mod t 4096). lia.
Qed.

(** *** Walks *)

Lemma next_table_new p : paddr_ok p → next_table_mut (new_table p) = Ok p.
Proof.
  intros Hp. unfold next_table_mut. by rewrite new_table_present, new_table_huge, new_table_paddr.
Qed.

Lemma next_table_unused e : is_unused e = true → next_table_mut e = Err BadState.
Proof. intros E. unfold next_table_mut. by rewrite unused_absent. Qed.

(** A walk in a well-formed table ends at a leaf table. *)
Lemma walk_level st lv l t v u :
  pt_inv st lv → lv !! t = Some l → walk st l t v = Some u → lv !! u = Some 0%nat.
Proof.
  intros Hinv. revert t. induction l as [|l IH]; intros t Ht; cbn.
  { by intros [= ->]. }
  pose proof (pidx_range (S l) v) as Hr.
  destruct (inv_entry st lv Hinv t l (pidx (S l) v) Ht Hr) as [->|(p & -> & Hp)]; [done|].
  rewrite new_table_used, new_table_paddr by (by eapply inv_valid). by apply IH.
Qed.

(** Two walks that end at one leaf table took the same way. *)
Lemma walk_inj st lv l t t' v w u :
  pt_inv st lv → lv !! t = Some l → lv !! t' = Some l →
  walk st l t v = Some u → walk st l t' w = Some u →
  t = t' ∧ ∀ k, (1 ≤ k ≤ l)%nat → pidx k v = pidx k w.
Proof.
  intros Hinv. revert t t'. induction l as [|l IH]; intros t t' Ht Ht'.
  { cbn. intros [= ->] [= ->]. split; [done|lia]. }
  pose proof (pidx_range (S l) v) as Hr. pose proof (pidx_range (S l) w) as Hr'.
  cbn [walk].
  destruct (inv_entry st lv Hinv t l _ Ht Hr) as [->|(p & Ep & Hp)]; [done|].
  destruct (inv_entry st lv Hinv t' l _ Ht' Hr') as [->|(p' & Ep' & Hp')]; [done|].
  rewrite Ep, Ep', !new_table_used, !new_table_paddr by (by eapply inv_valid).
  intros Hw Hw'. destruct (IH p p' Hp Hp' Hw Hw') as [-> Hk].
  destruct (inv_parent st lv Hinv t l _ t' l _ p' Ht Ht' Hr Hr' Ep Ep') as [-> Hi].
  split; [done|]. intros k Hkl. destruct (decide (k = S l)) as [->|]; [done|]. apply Hk. lia.
Qed.

Lemma get_entry_mut_walk st lv v : pt_inv st lv →
  get_entry_mut st v =
    match walk st 3 (root_paddr st) v with
    | Some u => Ok (entry_addr u (pidx 0 v))
    | None => Err BadState
    end.
Proof.
  intros Hinv. unfold get_entry_mut. cbn [walk].
  rewrite p4_index_pidx, p3_index_pidx, p2_index_pidx, p1_index_pidx.
  destruct (inv_entry st lv Hinv _ 2 (pidx 3 v) (inv_root st lv Hinv) (pidx_range 3 v))
    as [E3|(p3 & -> & H3)].
  { by rewrite (next_table_unused _ E3), E3. }
  rewrite next_table_new, new_table_used, new_table_paddr by (by eapply inv_valid).
  destruct (inv_entry st lv Hinv _ 1 (pidx 2 v) H3 (pidx_range 2 v)) as [E2|(p2 & -> & H2)].
  { by rewrite (next_table_unused _ E2), E2. }
  rewrite next_table_new, new_table_used, new_table_paddr by (by eapply inv_valid).
  destruct (inv_entry st lv Hinv _ 0 (pidx 1 v) H2 (pidx_range 1 v)) as [E1|(p1 & -> & H1)].
  { by rewrite (next_table_unused _ E1), E1. }
  by rewrite next_table_new, new_table_used, new_table_paddr by (by eapply inv_valid).
Qed.

(** *** Adding an empty table

    The state after entry [i] of [t], unused before, has been pointed at the
    fresh zeroed page [p]. *)
Definition grown (st : PTState H) (t i p : Z) (h : Host) : PTState H :=
  write_entry
    (mkPT (fill_page (mem st) (phys_to_virt p) 0) h (root_paddr st) (intrm_tables st ++ [p]))
    (entry_addr t i) (new_table p).

Section Grow.
Context (st : PTState H) (lv : gmap Z nat) (t i p : Z) (l : nat) (h' : Host).
Context (Hinv : pt_inv st lv) (Ht : lv !! t = Some (S l)) (Hi : 0 ≤ i < 512).
Context (Hun : is_unused (entry st t i) = true) (Hal : alloc_page (host st) = Ret (Some p, h')).

Lemma fresh_page : lv !! p = None ∧ paddr_ok p ∧ hal_owns h' ({[p]} ∪ dom lv).
Proof.
  destruct (alloc_page_some _ _ _ _ (inv_host st lv Hinv) Hal) as (Hp & _ & ? & ?).
  by rewrite not_elem_of_dom in Hp.
Qed.

Lemma grown_entry t' k i' : lv !! t' = Some k → 0 ≤ i' < 512 →
  entry (grown st t i p h') t' i' =
    if decide ((t, i) = (t', i')) then new_table p else entry st t' i'.
Proof.
  intros Ht' Hi'. destruct fresh_page as (Hp & Hpok & _).
  pose proof (inv_valid st lv Hinv _ _ Ht) as Htok. pose proof (inv_valid st lv Hinv _ _ Ht') as Htok'.
  unfold grown. destruct (decide ((t, i) = (t', i'))) as [[= -> ->]|Hne].
  - apply entry_write_eq.
  - rewrite entry_write_ne by done. unfold entry at 1. cbn. apply entry_fill_ne; try done.
    intros ->. congruence.
Qed.

Lemma grown_entry_new i' : 0 ≤ i' < 512 → entry (grown st t i p h') p i' = 0.
Proof.
  intros Hi'. destruct fresh_page as (Hp & Hpok & _).
  pose proof (inv_valid st lv Hinv _ _ Ht) as Htok.
  unfold grown. rewrite entry_write_ne; try done; [|intros [= -> ->]; congruence].
  unfold entry. cbn. by apply entry_fill_eq.
Qed.

Lemma zero_not_table q : new_table q ≠ 0.
Proof. intros E. pose proof (new_table_used q) as Hu. by rewrite E, zero_unused in Hu. Qed.

(** An entry of the old table never points at the fresh page. *)
Lemma old_entry_not_new t' k i' : lv !! t' = Some (S k) → 0 ≤ i' < 512 →
  entry st t' i' ≠ new_table p.
Proof.
  intros Ht' Hi' E. destruct fresh_page as (Hp & Hpok & _).
  destruct (inv_entry st lv Hinv t' k i' Ht' Hi') as [Hu|(q & Eq & Hq)].
  - by rewrite E, new_table_used in Hu.
  - apply (f_equal paddr) in E. rewrite Eq, !new_table_paddr in E by (done || by eapply inv_valid).
    congruence.
Qed.

Lemma grown_inv : pt_inv (grown st t i p h') (<[p := l]> lv).
Proof.
  pose proof fresh_page as (Hp & Hpok & Hown).
  assert (∀ s k, lv !! s = Some k → s ≠ p) as Hold by (intros s k Hs ->; congruence).
  split.
  - cbn. rewrite lookup_insert_ne; [apply (inv_root st lv Hinv)|].
    intros ->. rewrite (inv_root st lv Hinv) in Hp. done.
  - intros s k [[<- <-]|[_ Hs]]%lookup_insert_Some; [done|by eapply inv_valid].
  - intros s. cbn. rewrite elem_of_app, list_elem_of_singleton, <- (inv_tables st lv Hinv s).
    rewrite lookup_insert_is_Some. split; [intros [<-|[_ ?]]; auto|].
    intros [Hs| ->]; [|by left]. right. split; [|done]. destruct Hs as [k Hs].
    intros <-. by apply (Hold _ _ Hs).
  - intros s k j [[<- _]|[_ Hs]]%lookup_insert_Some Hj.
    { left. rewrite grown_entry_new by done. apply zero_unused. }
    rewrite (grown_entry s (S k) j Hs Hj). case_decide as Hd.
    + injection Hd as Hts _. right. exists p. split; [done|]. rewrite lookup_insert_eq. congruence.
    + destruct (inv_entry st lv Hinv s k j Hs Hj) as [?|(q & Eq & Hq)]; [by left|].
      right. exists q. split; [done|]. rewrite lookup_insert_ne; [done|].
      intros ->. congruence.
  - intros t1 l1 i1 t2 l2 i2 q H1 H2 Hi1 Hi2.
    apply lookup_insert_Some in H1 as [[<- _]|[_ H1]];
      [rewrite grown_entry_new by done; intros E; by destruct (zero_not_table q)|].
    apply lookup_insert_Some in H2 as [[<- _]|[_ H2]];
      [rewrite (grown_entry_new i2) by done; intros _ E; by destruct (zero_not_table q)|].
    rewrite (grown_entry t1 _ i1 H1 Hi1), (grown_entry t2 _ i2 H2 Hi2).
    case_decide as Hd1; case_decide as Hd2.
    + injection Hd1 as ? ?. injection Hd2 as ? ?. intros. split; congruence.
    + intros E1 E2. destruct (old_entry_not_new t2 l2 i2 H2 Hi2). congruence.
    + intros E1 E2. destruct (old_entry_not_new t1 l1 i1 H1 Hi1). congruence.
    + eapply inv_parent; done.
  - cbn. by rewrite dom_insert_L.
Qed.

(** No translation changes. *)
Lemma grown_leaf k s v : lv !! s = Some k →
  leaf (grown st t i p h') k s v = leaf st k s v.
Proof.
  pose proof fresh_page as (Hp & Hpok & _). unfold leaf. revert s.
  induction k as [|k IH]; intros s Hs; pose proof (pidx_range 0 v) as Hr0.
  - cbn [walk mbind option_bind]. rewrite (grown_entry s 0 _ Hs Hr0).
    case_decide as Hd; [|done]. injection Hd as Hts _. congruence.
  - pose proof (pidx_range (S k) v) as Hr. cbn [walk].
    rewrite (grown_entry s (S k) _ Hs Hr). case_decide as Hd.
    + injection Hd as Hts Hii. rewrite <- Hii, <- Hts, Hun, new_table_used, new_table_paddr by done.
      destruct k as [|k]; cbn [walk].
      * cbn [mbind option_bind]. by rewrite grown_entry_new, zero_unused by done.
      * by rewrite grown_entry_new, zero_unused by apply pidx_range.
    + destruct (inv_entry st lv Hinv s k _ Hs Hr) as [->|(q & -> & Hq)]; [done|].
      rewrite new_table_used, new_table_paddr by (by eapply inv_valid). by apply IH.
Qed.

End Grow.

(** *** Reaching the leaf entry, creating tables on the way *)

(** [st'] has the translations of [st] and at least its tables. *)
Record extends (st st' : PTState H) (lv lv' : gmap Z nat) : Prop := {
  ext_inv : pt_inv st' lv';
  ext_levels : lv ⊆ lv';
  ext_root : root_paddr st' = root_paddr st;
  ext_leaf k s v : lv !! s = Some k → leaf st' k s v = leaf st k s v;
  ext_entry s k j q : lv !! s = Some (S k) → 0 ≤ j < 512 →
    entry st s j = new_table q → entry st' s j = new_table q;
}.

(** Translations depend on the memory only. *)
Lemma leaf_mem st st' l t v : mem st' = mem st → leaf st' l t v = leaf st l t v.
Proof.
  intros E. unfold leaf. assert (∀ t i, entry st' t i = entry st t i) as He.
  { intros. unfold entry. by rewrite E. }
  assert (walk st' l t v = walk st l t v) as ->.
  { revert t. induction l as [|l IH]; intros t; cbn [walk]; [done|]. by rewrite He, IH. }
  destruct (walk st l t v); cbn [mbind option_bind]; [|done]. by rewrite He.
Qed.

Lemma extends_refl st lv : pt_inv st lv → extends st st lv lv.
Proof. by split. Qed.

Lemma extends_trans st1 st2 st3 lv1 lv2 lv3 :
  extends st1 st2 lv1 lv2 → extends st2 st3 lv2 lv3 → extends st1 st3 lv1 lv3.
Proof.
  intros [I1 L1 R1 F1 E1] [I2 L2 R2 F2 E2]. split; [done|by etrans|congruence|..].
  - intros k s v Hs. rewrite F2 by (by eapply lookup_weaken). by apply F1.
  - intros s k j q Hs Hj E. eapply E2; [by eapply lookup_weaken|done|]. by eapply E1.
Qed.

Lemma next_or_create_ok st lv t l i :
  pt_inv st lv → lv !! t = Some (S l) → 0 ≤ i < 512 →
  ∃ r st' lv', next_table_mut_or_create st (entry_addr t i) = Ret (r, st') ∧
    extends st st' lv lv' ∧
    match r with
    | Ok p => lv' !! p = Some l ∧ entry st' t i = new_table p
    | Err e => e = OutOfMemory
    end.
Proof.
  intros Hinv Ht Hi. unfold next_table_mut_or_create. fold (entry st t i).
  destruct (inv_entry st lv Hinv t l i Ht Hi) as [Hu|(q & E & Hq)].
  2: { exists (Ok q), st, lv. rewrite E, new_table_used, next_table_new by (by eapply inv_valid).
       split; [done|]. split; [by apply extends_refl|done]. }
  rewrite Hu. unfold alloc_intrm_table, PhysFrame_alloc_zero, PhysFrame_alloc.
  destruct (alloc_page_returns _ _ (inv_host st lv Hinv)) as [[[p|] h'] Hal]; rewrite Hal; run.
  - destruct (alloc_page_some _ _ _ _ (inv_host st lv Hinv) Hal) as (_ & Hp0 & _).
    rewrite (proj2 (Z.eqb_neq p 0) Hp0). run. cbn [negb mem host].
    exists (Ok p), (grown st t i p h'), (<[p := l]> lv). split; [done|].
    pose proof (fresh_page st lv p h' Hinv Hal) as (Hnone & _).
    split; [|split; [apply lookup_insert_eq|apply entry_write_eq]].
    split; [by apply grown_inv|by apply insert_subseteq|done|..].
    + intros k s v Hs. by eapply grown_leaf.
    + intros s k j q Hs Hj E. rewrite (grown_entry st lv t i p l h' Hinv Ht Hi Hu Hal s (S k) j) by done.
      case_decide as Hd; [|done]. injection Hd as -> ->. by rewrite E, new_table_used in Hu.
  - exists (Err OutOfMemory). do 2 eexists. split; [done|]. split; [|done].
    split; [|done|done|by intros; apply leaf_mem|done]. destruct Hinv. split; try done.
    by eapply alloc_page_none.
Qed.

Lemma walk_step st lv t l v p : pt_inv st lv → entry st t (pidx (S l) v) = new_table p →
  lv !! p = Some l → walk st (S l) t v = walk st l p v.
Proof.
  intros Hinv E Hp. cbn [walk]. by rewrite E, new_table_used, new_table_paddr by (by eapply inv_valid).
Qed.

Lemma get_or_create_ok st lv v : pt_inv st lv →
  ∃ r st' lv', get_entry_mut_or_create st v = Ret (r, st') ∧ extends st st' lv lv' ∧
    match r with
    | Ok a => ∃ u, walk st' 3 (root_paddr st') v = Some u ∧ a = entry_addr u (pidx 0 v)
    | Err e => e = OutOfMemory
    end.
Proof.
  intros Hinv. unfold get_entry_mut_or_create.
  rewrite p4_index_pidx, p3_index_pidx, p2_index_pidx, p1_index_pidx.
  destruct (next_or_create_ok st lv (root_paddr st) 2 (pidx 3 v) Hinv (inv_root st lv Hinv) (pidx_range 3 v))
    as ([p3|e] & st3 & lv3 & -> & X3 & HP3); run; [|by exists (Err e), st3, lv3].
  destruct HP3 as [L3 E3].
  destruct (next_or_create_ok st3 lv3 p3 1 (pidx 2 v) (ext_inv _ _ _ _ X3) L3 (pidx_range 2 v))
    as ([p2|e] & st2 & lv2 & -> & X2 & HP2); run;
    [|exists (Err e), st2, lv2; split; [done|]; split; [by eapply extends_trans|done]].
  destruct HP2 as [L2 E2].
  destruct (next_or_create_ok st2 lv2 p2 0 (pidx 1 v) (ext_inv _ _ _ _ X2) L2 (pidx_range 1 v))
    as ([p1|e] & st1 & lv1 & -> & X1 & HP1); run;
    [|exists (Err e), st1, lv1; split; [done|]; split;
        [eapply extends_trans; [done|by eapply extends_trans]|done]].
  destruct HP1 as [L1 E1]. eexists (Ok _), st1, lv1. split; [done|].
  split; [eapply extends_trans; [done|by eapply extends_trans]|]. exists p1. split; [|done].
  pose proof (ext_inv _ _ _ _ X1) as I1.
  pose proof (lookup_weaken _ _ _ _ L3 (ext_levels _ _ _ _ X2)) as L3'.
  pose proof (lookup_weaken _ _ _ _ L3' (ext_levels _ _ _ _ X1)) as L3''.
  pose proof (lookup_weaken _ _ _ _ L2 (ext_levels _ _ _ _ X1)) as L2'.
  rewrite (ext_root _ _ _ _ X1), (ext_root _ _ _ _ X2), (ext_root _ _ _ _ X3).
  pose proof (lookup_weaken _ _ _ _ (inv_root st lv Hinv) (ext_levels _ _ _ _ X3)) as R3.
  rewrite (walk_step st1 lv1 _ 2 v p3 I1);
    [|apply (ext_entry _ _ _ _ X1 _ 2%nat), (ext_entry _ _ _ _ X2 _ 2%nat);
      [eapply lookup_weaken; [done|apply (ext_levels _ _ _ _ X2)]|apply pidx_range|done|
       apply pidx_range|done]|done].
  rewrite (walk_step st1 lv1 _ 1 v p2 I1); [|eapply (ext_entry _ _ _ _ X1); [done|apply pidx_range|done]|done].
  by rewrite (walk_step st1 lv1 _ 0 v p1 I1).
Qed.

(** *** Writing a leaf entry *)

Section WriteLeaf.
Context (st : PTState H) (lv : gmap Z nat) (v u e : Z).
Context (Hinv : pt_inv st lv) (Hw : walk st 3 (root_paddr st) v = Some u).

Lemma leaf_table : lv !! u = Some 0%nat.
Proof. eapply walk_level; [done|apply (inv_root st lv Hinv)|done]. Qed.

Lemma write_upper t l i : lv !! t = Some (S l) → 0 ≤ i < 512 →
  entry (write_entry st (entry_addr u (pidx 0 v)) e) t i = entry st t i.
Proof.
  intros Ht Hi. pose proof leaf_table as Hu.
  apply entry_write_ne; [by eapply inv_valid|by eapply inv_valid|apply pidx_range|done|].
  intros [= -> _]. congruence.
Qed.

Lemma write_leaf_inv : pt_inv (write_entry st (entry_addr u (pidx 0 v)) e) lv.
Proof.
  split; [by destruct Hinv..| | |by destruct Hinv].
  - intros t l i Ht Hi. rewrite (write_upper t l i Ht Hi). by eapply inv_entry.
  - intros t1 l1 i1 t2 l2 i2 p H1 H2 Hi1 Hi2.
    rewrite (write_upper t1 l1 i1 H1 Hi1), (write_upper t2 l2 i2 H2 Hi2). by eapply inv_parent.
Qed.

Lemma write_leaf_walk k s w : lv !! s = Some k →
  walk (write_entry st (entry_addr u (pidx 0 v)) e) k s w = walk st k s w.
Proof.
  revert s. induction k as [|k IH]; intros s Hs; [done|].
  pose proof (pidx_range (S k) w) as Hr. cbn [walk]. rewrite (write_upper s k _ Hs Hr).
  destruct (inv_entry st lv Hinv s k _ Hs Hr) as [->|(q & -> & Hq)]; [done|].
  rewrite new_table_used, new_table_paddr by (by eapply inv_valid). by apply IH.
Qed.

Lemma write_leaf_mapped w :
  mapped (write_entry st (entry_addr u (pidx 0 v)) e) w =
    if page_of w =? page_of v then (if is_unused e then None else Some e) else mapped st w.
Proof.
  pose proof leaf_table as Hu. pose proof (inv_root st lv Hinv) as Hroot.
  unfold mapped, leaf. cbn [root_paddr write_entry set_mem].
  rewrite (write_leaf_walk 3 (root_paddr st) w Hroot).
  destruct (page_of w =? page_of v) eqn:E; breflect.
  - assert (walk st 3 (root_paddr st) w = Some u) as ->.
    { rewrite <- Hw. pose proof (proj1 (page_of_eq w v) E) as E'. cbn [walk]. by rewrite (E' 1%nat), (E' 2%nat), (E' 3%nat) by lia. }
    cbn [mbind option_bind]. rewrite (proj1 (page_of_eq w v) E 0%nat) by lia.
    by rewrite entry_write_eq.
  - destruct (walk st 3 (root_paddr st) w) as [u'|] eqn:Hw'; [|done]. cbn [mbind option_bind].
    rewrite entry_write_ne; [done|by eapply inv_valid|
      eapply inv_valid, walk_level; done|apply pidx_range|apply pidx_range|].
    intros [= <- Hp]. apply E, page_of_eq. intros l Hl. destruct l as [|l]; [done|].
    destruct (walk_inj st lv 3 _ _ w v u Hinv Hroot Hroot Hw' Hw) as [_ Hk]. apply Hk. lia.
Qed.

End WriteLeaf.

Lemma extends_mapped st st' lv lv' w : pt_inv st lv → extends st st' lv lv' →
  mapped st' w = mapped st w.
Proof.
  intros Hinv X. unfold mapped. rewrite (ext_root _ _ _ _ X).
  apply (ext_leaf _ _ _ _ X), (inv_root st lv Hinv).
Qed.

Lemma mapped_walk st v u : walk st 3 (root_paddr st) v = Some u →
  mapped st v = let e := entry st u (pidx 0 v) in if is_unused e then None else Some e.
Proof. intros Hw. unfold mapped, leaf. by rewrite Hw. Qed.

Lemma walk_none_mapped st v : walk st 3 (root_paddr st) v = None → mapped st v = None.
Proof. intros Hw. unfold mapped, leaf. by rewrite Hw. Qed.

(** ** The operations, as changes of the map *)

(** What an entry means: nothing, when it is unused. *)
Definition as_entry (e : Z) : option Z := if is_unused e then None else Some e.

(** The map of [st] changed at the page of [v] only. *)
Definition map_set (st : PTState H) (v : Z) (e : option Z) (w : Z) : option Z :=
  if page_of w =? page_of v then e else mapped st w.

(** A table just created: a zeroed root and nothing else. *)
Lemma new_table_inv m h s p h' : hal_owns h s → alloc_page h = Ret (Some p, h') →
  let st := mkPT (fill_page m (phys_to_virt p) 0) h' p [p] in
  pt_inv st {[p := 3%nat]} ∧ ∀ v, mapped st v = None.
Proof.
  intros Ho Hal. destruct (alloc_page_some _ _ _ _ Ho Hal) as (_ & Hp0 & Hpok & Hown).
  intros st. assert (∀ i, 0 ≤ i < 512 → entry st p i = 0) as Hz.
  { intros i Hi. apply (entry_fill_eq (mkPT m h' p [p]) p i Hi). }
  split.
  - split.
    + apply lookup_singleton_eq.
    + intros t l [<- _]%lookup_singleton_Some. done.
    + intros t. cbn. rewrite list_elem_of_singleton. split.
      * intros [l [<- _]%lookup_singleton_Some]. done.
      * intros ->. exists 3%nat. apply lookup_singleton_eq.
    + intros t l i [<- _]%lookup_singleton_Some Hi. left. rewrite Hz by done. apply zero_unused.
    + intros t1 l1 i1 t2 l2 i2 q [<- _]%lookup_singleton_Some _ Hi1 _ E _. rewrite Hz in E by done.
      by destruct (zero_not_table q).
    + cbn. rewrite dom_singleton_L. eapply hal_owns_mono; [|done]. set_solver.
  - intros v. unfold mapped, leaf. cbn [walk root_paddr st].
    by rewrite (Hz _ (pidx_range 3 v)), zero_unused.
Qed.

(** A fresh page table obtained from the host is well formed and maps
    nothing; the host's refusal is reported as [OutOfMemory]. *)
Theorem new_empty m h s : hal_owns h s →
  ∃ r m' h', PageTable_new m h = Ret (r, (m', h')) ∧
    match r with
    | Err e => e = OutOfMemory ∧ m' = m
    | Ok st => pt_ok st ∧ ∀ v, mapped st v = None
    end.
Proof.
  intros Ho. unfold PageTable_new, PhysFrame_alloc_zero, PhysFrame_alloc.
  destruct (alloc_page_returns h s Ho) as [[[p|] h'] Hal]; rewrite Hal; run;
    [|by exists (Err OutOfMemory), m, h'].
  destruct (alloc_page_some _ _ _ _ Ho Hal) as (_ & Hp0 & _).
  rewrite (proj2 (Z.eqb_neq p 0) Hp0). run. cbn [negb].
  do 3 eexists. split; [done|]. cbn beta iota.
  destruct (new_table_inv m h s p h' Ho Hal) as [Hinv Hm]. split; [by eexists|done].
Qed.

(** [map] always returns. On success the page was free and the entry for it is
    the only translation that changes; on failure no translation changes, and the
    reason is an exhausted host or a page already mapped. *)
Lemma map_ok st v pa fl : pt_ok st →
  ∃ r st', map st v pa fl = Ret (r, st') ∧ pt_ok st' ∧
    match r with
    | Ok _ => mapped st v = None ∧
        ∀ w, mapped st' w = map_set st v (as_entry (new_page (align_down pa) fl false)) w
    | Err e => (∀ w, mapped st' w = mapped st w) ∧
        (e = OutOfMemory ∨ e = InvalidParam ∧ mapped st v ≠ None)
    end.
Proof.
  intros [lv Hinv]. unfold map.
  destruct (get_or_create_ok st lv v Hinv) as ([a|e] & st1 & lv1 & -> & X & Hr); run.
  2: { exists (Err e), st1. split; [done|]. split; [by exists lv1; apply (ext_inv _ _ _ _ X)|].
       split; [|by left]. intros w. by eapply extends_mapped. }
  destruct Hr as (u & Hw & ->). pose proof (ext_inv _ _ _ _ X) as I1.
  pose proof (mapped_walk st1 v u Hw) as Hm. cbv zeta in Hm. fold (entry st1 u (pidx 0 v)).
  rewrite (extends_mapped st st1 lv lv1 v Hinv X) in Hm.
  destruct (is_unused (entry st1 u (pidx 0 v))) eqn:Hu; cbn [negb].
  - eexists (Ok tt), _. split; [done|]. split; [exists lv1; by apply write_leaf_inv|].
    split; [done|]. intros w. rewrite (write_leaf_mapped st1 lv1 v u _ I1 Hw w).
    unfold map_set. by rewrite (extends_mapped st st1 lv lv1 w Hinv X).
  - exists (Err InvalidParam), st1. split; [done|]. split; [by exists lv1|].
    split; [intros w; by eapply extends_mapped|]. right. by rewrite Hm.
Qed.

(** [query] reports the mapped entry: its physical page with the offset of the
    address, and its flags; it never overflows. *)
Lemma query_ok st v : pt_ok st →
  query st v = Ret
    match mapped st v with
    | Some e => Ok (paddr e + v mod 4096, flags e)
    | None => Err (if walk st 3 (root_paddr st) v is Some _ then InvalidParam else BadState)
    end.
Proof.
  intros [lv Hinv]. unfold query. rewrite (get_entry_mut_walk st lv v Hinv).
  destruct (walk st 3 (root_paddr st) v) as [u|] eqn:Hw.
  - rewrite (mapped_walk st v u Hw). cbv zeta. fold (entry st u (pidx 0 v)).
    destruct (is_unused _); [done|]. pose proof (paddr_range (entry st u (pidx 0 v))).
    rewrite page_offset_eq. pose proof (Z.mod_pos_bound v 4096).
    rewrite add_u_ok by lia. done.
  - by rewrite (walk_none_mapped st v Hw).
Qed.

(** [unmap] removes the translation of one page and returns the physical page it
    led to; where nothing is mapped it fails and changes nothing. *)
Lemma unmap_ok st v : pt_ok st →
  let '(r, st') := unmap st v in
  pt_ok st' ∧
    match mapped st v with
    | Some e => r = Ok (paddr e) ∧ ∀ w, mapped st' w = map_set st v None w
    | None => (r = Err BadState ∨ r = Err InvalidParam) ∧ st' = st
    end.
Proof.
  intros [lv Hinv]. unfold unmap. rewrite (get_entry_mut_walk st lv v Hinv).
  destruct (walk st 3 (root_paddr st) v) as [u|] eqn:Hw.
  - rewrite (mapped_walk st v u Hw). cbv zeta. fold (entry st u (pidx 0 v)).
    destruct (is_unused (entry st u (pidx 0 v))) eqn:Hu.
    { split; [by exists lv|]. auto. }
    split; [exists lv; by apply write_leaf_inv|]. split; [done|]. intros w.
    by rewrite (write_leaf_mapped st lv v u _ Hinv Hw w), clear_unused.
  - rewrite (walk_none_mapped st v Hw). split; [by exists lv|]. auto.
Qed.

(** The entry [update] leaves in place of [e]. *)
Definition updated (e : Z) (pa fl : option Z) : Z :=
  new_page (align_down (default (paddr e) pa)) (default (flags e) fl) (is_huge e).

(** [update] rewrites the leaf entry, whether it is in use or not. *)
Lemma update_ok st v pa fl : pt_ok st →
  let '(r, st') := update st v pa fl in
  pt_ok st' ∧
    ((r = Err BadState ∧ st' = st ∧ mapped st v = None) ∨
     ∃ e, r = Ok tt ∧ mapped st v = as_entry e ∧
       ∀ w, mapped st' w = map_set st v (as_entry (updated e pa fl)) w).
Proof.
  intros [lv Hinv]. unfold update. rewrite (get_entry_mut_walk st lv v Hinv).
  destruct (walk st 3 (root_paddr st) v) as [u|] eqn:Hw.
  2: { split; [by exists lv|]. left. by rewrite (walk_none_mapped st v Hw). }
  cbv zeta. fold (entry st u (pidx 0 v)). split; [exists lv; by apply write_leaf_inv|].
  right. exists (entry st u (pidx 0 v)). split; [done|]. split; [by apply mapped_walk|].
  intros w. apply (write_leaf_mapped st lv v u _ Hinv Hw w).
Qed.

(** After a successful [map], a query anywhere on the page returns the
    physical page it was mapped to with the offset of the address, and the flags. *)
Theorem map_then_query st v w pa fl st' :
  pt_ok st → 0 ≤ pa < 2 ^ 52 → memflags_ok fl →
  is_unused (new_page (align_down pa) fl false) = false →
  map st v pa fl = Ret (Ok tt, st') → page_of w = page_of v →
  query st' w = Ret (Ok (pa - pa mod 4096 + w mod 4096, fl)).
Proof.
  intros Hst Hpa Hfl Hu Hmap Hw. destruct (map_ok st v pa fl Hst) as (r & st1 & E & Hst1 & HP).
  rewrite Hmap in E. injection E as <- <-. destruct HP as [_ HP].
  rewrite (query_ok st' w Hst1), HP. unfold map_set, as_entry. rewrite Hw, Z.eqb_refl, Hu.
  rewrite new_page_paddr, new_page_flags; [|by apply align_down_ok|done|by apply align_down_ok|].
  - by rewrite align_down_eq by lia.
  - unfold memflags_ok in Hfl. lia.
Qed.

End Proofs.

(** ** The specification

    A page table is a finite map from page numbers to entries. [spec_step a op r
    a'] says which results an operation may give and what it does to the map; the
    host may run out of memory at any time. *)

Inductive PTOp :=
  | OpMap (vaddr paddr flags : Z)
  | OpUnmap (vaddr : Z)
  | OpQuery (vaddr : Z)
  | OpUpdate (vaddr : Z) (paddr flags : option Z).

Inductive PTResult :=
  | RUnit (r : result RvmError unit)
  | RAddr (r : result RvmError Z)
  | RQuery (r : result RvmError (Z * Z)).

Section Spec.
Context {PTE : GenericPTE}.

Definition set_page (a : gmap Z Z) (p : Z) (e : Z) : gmap Z Z :=
  if is_unused e then base.delete p a else <[p := e]> a.

Inductive spec_step (a : gmap Z Z) : PTOp → PTResult → gmap Z Z → Prop :=
  | spec_map v pa fl : a !! page_of v = None →
      spec_step a (OpMap v pa fl) (RUnit (Ok tt))
        (set_page a (page_of v) (new_page (align_down pa) fl false))
  | spec_map_exists v pa fl : a !! page_of v ≠ None →
      spec_step a (OpMap v pa fl) (RUnit (Err InvalidParam)) a
  | spec_map_oom v pa fl : spec_step a (OpMap v pa fl) (RUnit (Err OutOfMemory)) a
  | spec_unmap v e : a !! page_of v = Some e →
      spec_step a (OpUnmap v) (RAddr (Ok (paddr e))) (base.delete (page_of v) a)
  | spec_unmap_none v x : a !! page_of v = None → x = BadState ∨ x = InvalidParam →
      spec_step a (OpUnmap v) (RAddr (Err x)) a
  | spec_query v e : a !! page_of v = Some e →
      spec_step a (OpQuery v) (RQuery (Ok (paddr e + v mod 4096, flags e))) a
  | spec_query_none v x : a !! page_of v = None → x = BadState ∨ x = InvalidParam →
      spec_step a (OpQuery v) (RQuery (Err x)) a
  | spec_update v pa fl e : a !! page_of v = as_entry e →
      spec_step a (OpUpdate v pa fl) (RUnit (Ok tt)) (set_page a (page_of v) (updated e pa fl))
  | spec_update_none v pa fl : a !! page_of v = None →
      spec_step a (OpUpdate v pa fl) (RUnit (Err BadState)) a.

Inductive spec_run (a : gmap Z Z) : list PTOp → list PTResult → gmap Z Z → Prop :=
  | spec_nil : spec_run a [] [] a
  | spec_cons op r a' ops rs a'' : spec_step a op r a' → spec_run a' ops rs a'' →
      spec_run a (op :: ops) (r :: rs) a''.

End Spec.

Section Refinement.
Context {P : Profile} {PTE : GenericPTE} {PL : GenericPTELaws PTE}.
Context {H : RvmHal} {HL : RvmHalLaws H}.

Definition exec (st : PTState H) (op : PTOp) : out (PTResult * PTState H) :=
  match op with
  | OpMap v pa fl => '(r, st') ← map st v pa fl; Ret (RUnit r, st')
  | OpUnmap v => let '(r, st') := unmap st v in Ret (RAddr r, st')
  | OpQuery v => r ← query st v; Ret (RQuery r, st)
  | OpUpdate v pa fl => let '(r, st') := update st v pa fl in Ret (RUnit r, st')
  end.

Fixpoint run_ops (st : PTState H) (ops : list PTOp) : out (list PTResult * PTState H) :=
  match ops with
  | [] => Ret ([], st)
  | op :: ops =>
      '(r, st') ← exec st op;
      '(rs, st'') ← run_ops st' ops;
      Ret (r :: rs, st'')
  end.

(** The map [a] is what the table in memory stands for. *)
Definition represents (st : PTState H) (a : gmap Z Z) : Prop :=
  pt_ok st ∧ ∀ v, mapped st v = a !! page_of v.

Lemma represents_set st st' a v e : represents st a → pt_ok st' →
  (∀ w, mapped st' w = map_set st v (as_entry e) w) → represents st' (set_page a (page_of v) e).
Proof.
  intros [_ Ha] Hst' Hm. split; [done|]. intros w. rewrite Hm. unfold map_set, as_entry, set_page.
  case_bool; breflect.
  - rewrite E. case_bool; [by rewrite lookup_delete_eq|by rewrite lookup_insert_eq].
  - rewrite Ha. case_bool; [by rewrite lookup_delete_ne|by rewrite lookup_insert_ne].
Qed.

Lemma exec_refines st a op : represents st a →
  ∃ r st' a', exec st op = Ret (r, st') ∧ represents st' a' ∧ spec_step a op r a'.
Proof.
  intros Hrep. pose proof Hrep as [Hst Ha]. destruct op as [v pa fl|v|v|v pa fl]; cbn [exec].
  - destruct (map_ok st v pa fl Hst) as (r & st' & -> & Hst' & HP). run.
    destruct r as [[]|e]; destruct HP as [HP HP'].
    + rewrite Ha in HP. do 3 eexists. split; [done|].
      split; [by apply (represents_set st)|by constructor].
    + do 2 eexists. exists a. split; [done|]. split; [split; [done|]; intros w; by rewrite HP|].
      destruct HP' as [->|[-> HP']]; constructor. by rewrite <- Ha.
  - pose proof (unmap_ok st v Hst) as HP. destruct (unmap st v) as [r st']. destruct HP as [Hst' HP].
    rewrite Ha in HP. destruct (a !! page_of v) as [e|] eqn:E.
    + destruct HP as [-> HP]. do 3 eexists. split; [done|]. split; [|by constructor].
      split; [done|]. intros w. rewrite HP. unfold map_set. case_bool; breflect.
      * by rewrite E0, lookup_delete_eq.
      * by rewrite Ha, lookup_delete_ne.
    + destruct HP as [Hr ->]. do 2 eexists. exists a. split; [done|]. split; [done|].
      destruct Hr as [-> | ->]; constructor; auto.
  - rewrite (query_ok st v Hst), Ha. run. do 2 eexists. exists a. split; [done|]. split; [done|].
    destruct (a !! page_of v) eqn:E; constructor; [done|done|]. destruct (walk _ _ _ _); auto.
  - pose proof (update_ok st v pa fl Hst) as HP. destruct (update st v pa fl) as [r st'].
    destruct HP as [Hst' [(-> & -> & HP)|(e & -> & HP & HP')]]; rewrite Ha in HP.
    + do 2 eexists. exists a. split; [done|]. split; [done|]. by constructor.
    + do 3 eexists. split; [done|]. split; [by apply (represents_set st)|by constructor].
Qed.

(** [C1] Refinement: every sequence of [map], [unmap], [query] and [update] calls
    on a well-formed table returns without panicking, with results that the
    finite map of pages allows, and leaves a table that stands for the map's new
    value. *)
Theorem page_table_refines st a ops : represents st a →
  ∃ rs st' a', run_ops st ops = Ret (rs, st') ∧ represents st' a' ∧ spec_run a ops rs a'.
Proof.
  revert st a. induction ops as [|op ops IH]; intros st a Hrep.
  - exists [], st, a. split; [done|]. split; [done|constructor].
  - destruct (exec_refines st a op Hrep) as (r & st1 & a1 & E & Hrep1 & Hs).
    destruct (IH st1 a1 Hrep1) as (rs & st2 & a2 & E2 & Hrep2 & Hs2).
    exists (r :: rs), st2, a2. cbn [run_ops]. rewrite E. run. rewrite E2. run.
    split; [done|]. split; [done|]. by econstructor.
Qed.

End Refinement.
