(* ===== verification/KvmHal.v ===== *)
(** * The hypervisor's host: [RvmHalImpl]

    [kernel/src/virt/kvm/mod.rs] implements the [RvmHal] trait over the kernel's
    frame allocator; here the allocator is shown to keep the promises the page
    table relies on. *)

From S2P Require Import Prelude Crates Frame Ept PageTable.

(** ** [kernel/src/memory/mod.rs]: the linear map of physical memory *)

Section Convert.
Context {P : Profile} {XA : X86Addr}.

(** [offset] is [PHYSICAL_MEMORY_OFFSET], reported by the boot loader. *)
Definition convert_physical_to_virtual (offset physical_address : Z) : out Z :=
  a ← add_u 64 physical_address offset;
  VirtAddr_new a.

Definition convert_virtual_to_physical (offset virtual_address : Z) : out Z :=
  a ← sub_u 64 virtual_address offset;
  PhysAddr_new a.

(** An offset that leaves room for 2^46 bytes in the upper half. *)
Definition offset_ok (offset : Z) : Prop :=
  2 ^ 64 - 2 ^ 47 ≤ offset ≤ 2 ^ 64 - 2 ^ 46.

(** The two conversions are inverse on the 2^46 bytes of physical memory the
    linear map covers, and neither overflows nor rejects an address. *)
Theorem convert_roundtrip offset p : offset_ok offset → 0 ≤ p < 2 ^ 46 →
  convert_physical_to_virtual offset p = Ret (p + offset) ∧
  convert_virtual_to_physical offset (p + offset) = Ret p.
Proof.
  unfold offset_ok. intros Ho Hp. unfold convert_physical_to_virtual, convert_virtual_to_physical.
  rewrite add_u_ok, sub_u_ok by lia. run. rewrite VirtAddr_new_ok by lia.
  replace (p + offset - offset) with p by lia. by rewrite PhysAddr_new_ok by lia.
Qed.

End Convert.

(** ** [impl RvmHal for RvmHalImpl]: memory and time *)

Section Hal.
Context {P : Profile} {BF : BitField} {XA : X86Addr} (offset : Z).

Definition RvmHalImpl_alloc_page (fa : BitmapFrameAllocator) :
    out (option Z * BitmapFrameAllocator) :=
  '(frame, fa') ← allocate_frame fa;
  match frame with
  | Some start_address => Ret (Some start_address, fa')
  | None => Ret (None, fa')
  end.

Definition RvmHalImpl_dealloc_page (fa : BitmapFrameAllocator) (paddr : Z) :
    out BitmapFrameAllocator :=
  address ← PhysAddr_new paddr;
  deallocate_frame fa (PhysFrame_containing_address address).

Definition RvmHalImpl_phys_to_virt (paddr : Z) : out Z :=
  address ← PhysAddr_new paddr;
  convert_physical_to_virtual offset address.

Definition RvmHalImpl_virt_to_phys (vaddr : Z) : out Z :=
  address ← VirtAddr_new vaddr;
  convert_virtual_to_physical offset address.

(** The trait's instance. The address conversion of the class is total; where
    the code's returns, it returns this value. *)
#[local] Instance RvmHalImpl : RvmHal := {|
  Host := BitmapFrameAllocator;
  alloc_page := RvmHalImpl_alloc_page;
  dealloc_page := RvmHalImpl_dealloc_page;
  phys_to_virt paddr := paddr + offset;
  current_time_nanos _ := 0;
|}.

Lemma RvmHalImpl_phys_to_virt_total p v :
  RvmHalImpl_phys_to_virt p = Ret v → 0 ≤ offset → p + offset < 2 ^ 64 → v = phys_to_virt p.
Proof.
  unfold RvmHalImpl_phys_to_virt, convert_physical_to_virtual. intros Hr Ho Hs.
  destruct (PhysAddr_new p) as [q|] eqn:E; [|done]. run. cbn [mbind out_mbind] in Hr.
  apply PhysAddr_new_inv in E as [-> Hp]. rewrite add_u_ok in Hr by lia.
  cbn [mbind out_mbind] in Hr. by apply VirtAddr_new_inv in Hr.
Qed.

(** *** The frames the allocator can still hand out *)

Definition free_frames (s : BitmapFrameAllocator) (a : Z) : list Z :=
  base.filter (λ i, bit (bitmap s) i = true) (range a (zlen (bitmap s))).

(** No more frames are counted usable than are free between the cursor and
    [bitmap.len()], the cursor is on a free frame unless it has reached the end,
    and frame 0 is not under it. [bitmap.len()] is the number of bytes of the
    bitmap: an allocator with more usable frames below it than that is outside
    this predicate (it hands out one frame again and again, see the file [Frame]). *)
Definition hal_ready (s : BitmapFrameAllocator) : Prop :=
  alloc_ok s ∧ 1 ≤ next_frame s ∧
  (next_frame s = zlen (bitmap s) ∨ cursor_free s) ∧
  usable_frames s ≤ zlen (free_frames s (next_frame s)).

Definition hal_owned (s : BitmapFrameAllocator) (owned : gset Z) : Prop :=
  hal_ready s ∧ ∀ p, p ∈ owned → ∃ k, p = 4096 * k ∧ ¬ frame_free s k ∧ 0 ≤ k < zlen (bitmap s).

Lemma free_frames_skip s a b : a ≤ b → (∀ i, a ≤ i < b → ¬ frame_free s i) →
  b ≤ zlen (bitmap s) → free_frames s a = free_frames s b.
Proof.
  intros Hab. replace b with (a + Z.of_nat (Z.to_nat (b - a))) by lia.
  generalize (Z.to_nat (b - a)). clear Hab. intros n. revert a.
  induction n as [|n IH]; intros a Hno Hb; [by rewrite Z.add_0_r|].
  rewrite Nat2Z.inj_succ in *. unfold free_frames in *. rewrite range_cons by lia.
  rewrite filter_cons_False by (apply Hno; lia).
  replace (a + Z.succ (Z.of_nat n)) with (a + 1 + Z.of_nat n) by lia.
  apply IH; [|lia]. intros i Hi. apply Hno. lia.
Qed.

Lemma free_frames_same s s' a : zlen (bitmap s') = zlen (bitmap s) →
  (∀ i, a ≤ i < zlen (bitmap s) → bit (bitmap s') i = bit (bitmap s) i) →
  free_frames s' a = free_frames s a.
Proof.
  intros Hl Hb. unfold free_frames. rewrite Hl. apply filter_ext_in.
  intros i Hi. apply elem_of_range in Hi. by rewrite Hb.
Qed.

(** One allocation: the frame under the cursor, which stops being free. *)
Lemma hal_alloc s : hal_ready s → 0 < usable_frames s →
  ∃ s', allocate_frame s = Ret (Some (4096 * next_frame s), s') ∧ hal_ready s' ∧
    cursor_free s ∧ zlen (bitmap s') = zlen (bitmap s) ∧
    ∀ k, 0 ≤ k < zlen (bitmap s) → frame_free s' k ↔ frame_free s k ∧ k ≠ next_frame s.
Proof.
  intros (Hok & Hn1 & Hcur & Hcnt) Hpos. pose proof Hok as (_ & Hlen & _ & Hn).
  destruct Hcur as [Hend|Hcur].
  { exfalso. unfold free_frames in Hcnt. rewrite range_nil in Hcnt by lia.
    change (zlen _) with 0 in Hcnt. lia. }
  pose proof Hcur as [Hlt Hfree].
  destruct (allocate_frame_ok s) as (s' & E & Hok' & (HL & _ & HU) & Hu & Hskip & Hcur'); [done|lia|lia|].
  exists s'. split; [done|].
  assert (∀ i, next_frame s + 1 ≤ i < zlen (bitmap s) → bit (bitmap s') i = bit (bitmap s) i) as Hsame.
  { intros i Hi. rewrite HU by lia. case_bool; [lia|done]. }
  assert (next_frame s < next_frame s' ≤ zlen (bitmap s)) as Hadv.
  { destruct Hok' as (_ & _ & _ & ?). destruct Hcur' as [?|[? _]]; lia. }
  split; [|split; [done|split; [done|]]].
  - split; [done|]. split; [lia|]. split; [rewrite HL; tauto|].
    rewrite <- (free_frames_skip s' (next_frame s + 1)).
    + rewrite (free_frames_same s s') by done. unfold free_frames in *.
      rewrite range_cons, filter_cons_True in Hcnt by done. unfold zlen in *. cbn [length] in Hcnt. lia.
    + lia.
    + intros i Hi. unfold frame_free. rewrite Hsame by lia. apply Hskip. lia.
    + lia.
  - intros k Hk. unfold frame_free. rewrite HU by lia. case_bool.
    { split; [done|]. intros [_ ?]. lia. }
    split; [intros ?; split; [done|lia]|tauto].
Qed.

(** The allocator keeps the promises of the trait. *)
#[local] Program Instance RvmHalImpl_laws : RvmHalLaws RvmHalImpl := {|
  hal_owns := hal_owned;
|}.
Next Obligation. intros h s s' Hs [Hr Ho]. split; [done|]. intros p Hp. apply Ho. by apply Hs. Qed.
Next Obligation.
  intros h s [Hr Ho]. cbn. unfold RvmHalImpl_alloc_page.
  destruct (decide (usable_frames h = 0)) as [E|E].
  - unfold allocate_frame. rewrite (proj2 (Z.eqb_eq _ 0) E). run. eauto.
  - destruct (hal_alloc h Hr) as (s' & -> & _); [destruct Hr as ((_ & _ & ? & _) & _); lia|].
    run. eauto.
Qed.
Next Obligation.
  intros h s p h' [Hr Ho]. cbn. unfold RvmHalImpl_alloc_page.
  destruct (decide (usable_frames h = 0)) as [E|E].
  { unfold allocate_frame. rewrite (proj2 (Z.eqb_eq _ 0) E). run. done. }
  destruct (hal_alloc h Hr) as (s' & -> & Hr' & [Hlt Hc] & HL & HF);
    [destruct Hr as ((_ & _ & ? & _) & _); lia|]. run. intros [= <- <-].
  pose proof Hr as ((_ & Hlen & _ & Hn) & Hn1 & _).
  split; [|split; [lia|split; [split; [lia|rewrite Z.mul_comm; by apply Z.mod_mul]|]]].
  - intros (k & Ek & Hk & _)%Ho. apply Hk. by replace k with (next_frame h) by lia.
  - split; [done|]. intros q [->%elem_of_singleton|(k & -> & Hk & Hkr)%Ho]%elem_of_union.
    + exists (next_frame h). rewrite HL. split; [done|]. rewrite HF by lia. split; [tauto|lia].
    + exists k. rewrite HL, HF by done. split; [done|]. tauto.
Qed.
Next Obligation.
  intros h s h' [Hr Ho]. cbn. unfold RvmHalImpl_alloc_page.
  destruct (decide (usable_frames h = 0)) as [E|E].
  { unfold allocate_frame. rewrite (proj2 (Z.eqb_eq _ 0) E). run. by intros [= <-]. }
  destruct (hal_alloc h Hr) as (s' & -> & _); [destruct Hr as ((_ & _ & ? & _) & _); lia|]. done.
Qed.
Next Obligation. intros p d. cbn. lia. Qed.

End Hal.

(** ** A host with seven free frames *)

Section Examples.
#[local] Existing Instances dev Reference.bit_field Reference.bitflags Reference.x86_addr.
#[local] Instance small_hal : RvmHal := RvmHalImpl 0xffff_8000_0000_0000.
#[local] Instance small_hal_laws : RvmHalLaws small_hal := RvmHalImpl_laws _.

Lemma convert_roundtrip_witness :
  convert_physical_to_virtual 0xffff_8000_0000_0000 4096 = Ret (4096 + 0xffff_8000_0000_0000) ∧
  convert_virtual_to_physical 0xffff_8000_0000_0000 (4096 + 0xffff_8000_0000_0000) = Ret 4096.
Proof. apply (convert_roundtrip 0xffff_8000_0000_0000 4096); vm_compute; split; congruence. Defined.

(** Frames 1..7 are free, the bitmap has eight bytes. *)
Definition small_host : Host := mkAlloc [254; 0; 0; 0; 0; 0; 0; 0] 7 1.

Lemma small_host_owns : hal_owns small_host ∅.
Proof.
  split; [|set_solver]. split.
  - split; [repeat (apply Forall_cons_2; [lia|]); apply Forall_nil_2|].
    vm_compute. repeat split; congruence.
  - split; [cbn; lia|]. split; [right; split; vm_compute; reflexivity|].
    vm_compute. congruence.
Qed.

Definition no_memory : memory := λ _, 0.

Lemma new_empty_witness :
  ∃ r m' h', PageTable_new no_memory small_host = Ret (r, (m', h')) ∧
    match r with
    | Err e => e = OutOfMemory ∧ m' = no_memory
    | Ok st => pt_ok st ∧ ∀ v, mapped st v = None
    end.
Proof. apply (new_empty no_memory small_host ∅), small_host_owns. Defined.

(** A new table, and the table after one page has been mapped in it. *)
Definition small_pt : PTState small_hal :=
  mkPT (fill_page no_memory (phys_to_virt 4096) 0) (mkAlloc [252; 0; 0; 0; 0; 0; 0; 0] 6 2)
    4096 [4096].

Lemma small_pt_empty : pt_ok small_pt ∧ ∀ v, mapped small_pt v = None.
Proof.
  destruct (new_table_inv no_memory small_host ∅ 4096
    (mkAlloc [252; 0; 0; 0; 0; 0; 0; 0] 6 2) small_host_owns eq_refl) as [Hinv Hm].
  split; [by eexists|done].
Qed.

Definition small_mapped : PTState small_hal :=
  match map small_pt 0x7fff_e000_3123 0xabc000 3 with
  | Ret (_, st) => st
  | Panic => small_pt
  end.

Lemma small_mapped_eq : map small_pt 0x7fff_e000_3123 0xabc000 3 = Ret (Ok tt, small_mapped).
Proof. reflexivity. Qed.

Lemma map_then_query_witness : query small_mapped 0x7fff_e000_3fff = Ret (Ok (0xabcfff, 3)).
Proof.
  apply (map_then_query small_pt 0x7fff_e000_3123 0x7fff_e000_3fff 0xabc000 3 small_mapped).
  - apply small_pt_empty.
  - lia.
  - split; reflexivity.
  - reflexivity.
  - apply small_mapped_eq.
  - reflexivity.
Defined.

Lemma page_table_refines_witness :
  ∃ rs st' a', run_ops small_pt [OpMap 0x1000 0x5000 7; OpQuery 0x1010; OpUnmap 0x1000; OpQuery 0x1010]
      = Ret (rs, st') ∧ represents st' a' ∧
    spec_run ∅ [OpMap 0x1000 0x5000 7; OpQuery 0x1010; OpUnmap 0x1000; OpQuery 0x1010] rs a'.
Proof.
  apply (page_table_refines small_pt ∅). destruct small_pt_empty as [Hpt Hm].
  split; [done|]. intros v. rewrite lookup_empty. apply Hm.
Defined.

(** The same calls, evaluated. *)
Example page_table_run :
  ('(rs, _) ← run_ops small_pt
    [OpMap 0x1000 0x5000 7; OpQuery 0x1010; OpUnmap 0x1000; OpQuery 0x1010]; Ret rs) =
  Ret [RUnit (Ok tt); RQuery (Ok (0x5010, 7)); RAddr (Ok 0x5000); RQuery (Err InvalidParam)].
Proof. vm_compute. reflexivity. Qed.

(** [update] of an unmapped page whose leaf table exists maps it. *)
Example update_maps_unused_entry :
  ('(rs, _) ← run_ops small_mapped
    [OpQuery 0x7fff_e000_4000; OpUpdate 0x7fff_e000_4000 (Some 0x9000) (Some 1);
     OpQuery 0x7fff_e000_4000]; Ret rs) =
  Ret [RQuery (Err InvalidParam); RUnit (Ok tt); RQuery (Ok (0x9000, 1))].
Proof. vm_compute. reflexivity. Qed.

End Examples.
