(* ===== verification/KernelPaging.v ===== *)
(** * The kernel's page tables

    [kernel/src/memory/page_table.rs]: the copy of a page table for a new process and the
    release of a process's table. A table is found at its physical address in the linear
    map; memory is a function from the virtual address of a 64-bit word to the word. *)

From S2P Require Import Prelude Crates Frame PageTable KvmHal.

(** ** [MappingType] of [memory/manager.rs] *)

Inductive MappingType := UserCode | KernelData | UserData.

Section Flags.
Context {BL : Bitflags}.

Definition MappingType_flags (self : MappingType) : Z :=
  match self with
  | UserCode => fl_union (fl_union PTF_PRESENT PTF_WRITABLE) PTF_USER_ACCESSIBLE
  | KernelData => fl_union (fl_union PTF_PRESENT PTF_WRITABLE) PTF_NO_EXECUTE
  | UserData => fl_union (fl_union (fl_union PTF_PRESENT PTF_WRITABLE) PTF_USER_ACCESSIBLE) PTF_NO_EXECUTE
  end.

End Flags.

(** ** The operations *)

(** [OffsetPageTable]: the virtual address of the top table and the offset of the linear
    map. *)
Record OffsetPageTable := mkOffsetPT { level_4_table : Z; phys_offset : Z }.

Section Tables.
Context {P : Profile} {BF : BitField} {BL : Bitflags} {XA : X86Addr} {XP : X86Paging}.
(** [PHYSICAL_MEMORY_OFFSET] *)
Context (offset : Z).

Definition physical_address (self : OffsetPageTable) : out Z :=
  a ← sub_u 64 (level_4_table self) (phys_offset self);
  PhysAddr_new a.

Definition new_from_allocate (fa : BitmapFrameAllocator) : out (OffsetPageTable * BitmapFrameAllocator) :=
  '(frame, fa) ← allocate_frame fa;
  page_table_address ← unwrap frame;
  new_page_table ← convert_physical_to_virtual offset page_table_address;
  physical_memory_offset ← VirtAddr_new offset;
  Ret (mkOffsetPT new_page_table physical_memory_offset, fa).

(** [source] and [target] are the virtual addresses of the tables. The level counts down
    to 1; the code never calls the function with level 0. *)
Fixpoint new_from_recursion (level : nat) (st : memory * BitmapFrameAllocator) (source target : Z) :
    out (memory * BitmapFrameAllocator) :=
  match level with
  | O => Panic
  | S below =>
      foldM (λ '(m, fa) index,
        let entry := m (source + 8 * index) in
        if (below =? 0)%nat || pte_is_unused entry || fl_contains (pte_flags entry) PTF_HUGE_PAGE then
          e ← pte_set_addr (pte_addr entry) (pte_flags entry);
          Ret (write_word m (target + 8 * index) e, fa)
        else
          '(new_page_table, fa) ← new_from_allocate fa;
          p ← physical_address new_page_table;
          new_page_table_address ← PhysAddr_new p;
          e ← pte_set_addr new_page_table_address (pte_flags entry);
          source_next ← convert_physical_to_virtual offset (pte_addr entry);
          new_from_recursion below (write_word m (target + 8 * index) e, fa) source_next (level_4_table new_page_table))
        st (range 0 ENTRY_COUNT)
  end.

Definition deep_copy (self : OffsetPageTable) (st : memory * BitmapFrameAllocator) :
    out (OffsetPageTable * (memory * BitmapFrameAllocator)) :=
  let '(m, fa) := st in
  p ← physical_address self;
  source ← convert_physical_to_virtual offset p;
  '(new_page_table, fa) ← new_from_allocate fa;
  st ← new_from_recursion 4 (m, fa) source (level_4_table new_page_table);
  Ret (new_page_table, st).

(** [VirtAddr + u64] panics when the sum is not an address. *)
Definition VirtAddr_add (a b : Z) : out Z := if in_range 64 (a + b) then VirtAddr_new (a + b) else Panic.

Fixpoint free_pages_recursion (level : nat) (m : memory) (fa : BitmapFrameAllocator) (physical : Z) :
    out BitmapFrameAllocator :=
  match level with
  | O => deallocate_frame fa (PhysFrame_containing_address physical)
  | S below =>
      a ← VirtAddr_new offset;
      page_table ← VirtAddr_add a physical;
      fa ← foldM (λ fa index,
        let entry := m (page_table + 8 * index) in
        if pte_is_unused entry then Ret fa
        else if (below =? 0)%nat || fl_contains (pte_flags entry) PTF_HUGE_PAGE then
          if fl_contains (pte_flags entry) (MappingType_flags UserCode) then
            match pte_frame entry with
            | Ok frame => deallocate_frame fa frame
            | Err _ => Ret fa
            end
          else Ret fa
        else free_pages_recursion below m fa (pte_addr entry)) fa (range 0 ENTRY_COUNT);
      deallocate_frame fa (PhysFrame_containing_address physical)
  end.

Definition free_user_page_table (self : OffsetPageTable) (st : memory * BitmapFrameAllocator) :
    out (memory * BitmapFrameAllocator) :=
  let '(m, fa) := st in
  p ← physical_address self;
  fa ← free_pages_recursion 4 m fa p;
  Ret (m, fa).

End Tables.

(** ** What a table means

    [is_branch below e]: the entry [e] of a table with [below] levels below it points to
    another table. *)

Section Meaning.
Context (offset : Z).

Definition is_branch (below : nat) (e : Z) : bool :=
  negb ((below =? 0)%nat || (e =? 0) || (Z.land (Z.land e FLAG_BITS) PTF_HUGE_PAGE =? PTF_HUGE_PAGE)).

Definition next_table (e : Z) : Z := Z.land e ADDR_BITS.

(** The word of entry [i] of the table at the physical address [p]. *)
Definition entry_at (m : memory) (p i : Z) : Z := m (p + offset + 8 * i).

(** The entry of a table of the given level for the virtual address [va]. *)
Definition level_index (level : nat) (va : Z) : Z := va / 2 ^ (12 + 9 * (Z.of_nat level - 1)) mod ENTRY_COUNT.

(** What the processor finds for [va]: the level and the entry that maps it. *)
Fixpoint resolve (level : nat) (m : memory) (p va : Z) : option (nat * Z) :=
  match level with
  | O => None
  | S below =>
      let e := entry_at m p (level_index level va) in
      if e =? 0 then None
      else if is_branch below e then resolve below m (next_table e) va
      else Some (level, e)
  end.

(** The tables of a tree are pages in the linear map that satisfy [Q]. *)
Fixpoint tables_in (Q : Z → Prop) (level : nat) (m : memory) (p : Z) : Prop :=
  match level with
  | O => True
  | S below =>
      (Q p ∧ p mod 4096 = 0 ∧ 0 ≤ p < 2 ^ 46) ∧
      ∀ i, 0 ≤ i < ENTRY_COUNT → let e := entry_at m p i in
        0 ≤ e < 2 ^ 64 ∧ (is_branch below e = true → tables_in Q below m (next_table e))
  end.

Definition sum_to (f : Z → Z) (n : Z) : Z := foldr (λ i acc, f i + acc) 0 (range 0 n).

(** The number of tables below a table. *)
Fixpoint tables_below (level : nat) (m : memory) (p : Z) : Z :=
  match level with
  | O => 0
  | S below => sum_to (λ i, let e := entry_at m p i in
      if is_branch below e then 1 + tables_below below m (next_table e) else 0) ENTRY_COUNT
  end.

(** The physical addresses of the tables of a tree, in the order they are released. *)
Fixpoint table_list (level : nat) (m : memory) (p : Z) : list Z :=
  match level with
  | O => []
  | S below => ((range 0 ENTRY_COUNT) ≫= λ i, let e := entry_at m p i in
      if is_branch below e then table_list below m (next_table e) else []) ++ [p]
  end.

(** [user_leaf e]: a page of 4 KiB that is present, writable and open to user code. *)
Definition user_leaf (e : Z) : bool :=
  (Z.land (Z.land e FLAG_BITS) 7 =? 7) && negb (Z.land (Z.land e FLAG_BITS) PTF_HUGE_PAGE =? PTF_HUGE_PAGE).

Fixpoint user_pages (level : nat) (m : memory) (p : Z) : list Z :=
  match level with
  | O => []
  | S below => (range 0 ENTRY_COUNT) ≫= λ i, let e := entry_at m p i in
      if is_branch below e then user_pages below m (next_table e)
      else if (below =? 0)%nat && user_leaf e then [next_table e] else []
  end.

Lemma sum_to_succ f n : 0 ≤ n → sum_to f (n + 1) = sum_to f n + f n.
Proof.
  intros Hn. unfold sum_to. rewrite range_snoc, foldr_app by lia. cbn. generalize (range 0 n) as l. intros l.
  induction l as [|x l IH]; cbn; [lia|]. rewrite IH. lia.
Qed.

Lemma sum_to_0 f : sum_to f 0 = 0.
Proof. done. Qed.

Lemma sum_to_mono f a b : (∀ i, 0 ≤ f i) → 0 ≤ a ≤ b → sum_to f a ≤ sum_to f b.
Proof.
  intros Hf [Ha Hab]. revert b Hab. apply (Zlt_lower_bound_ind _ a). intros b IH Hb.
  destruct (decide (b = a)) as [->|]; [done|]. replace b with (b - 1 + 1) by lia. rewrite sum_to_succ by lia.
  specialize (IH (b - 1) ltac:(lia)). specialize (Hf (b - 1)). lia.
Qed.

Lemma sum_to_ext f g n : (∀ i, 0 ≤ i < n → f i = g i) → sum_to f n = sum_to g n.
Proof.
  intros H. unfold sum_to. assert (∀ i, i ∈ range 0 n → f i = g i) as H' by (intros i Hi%elem_of_range; by apply H).
  induction (range 0 n) as [|x l IH]; cbn; [done|]. rewrite H', IH; [done| |by left]. intros i Hi. apply H'. by right.
Qed.

Lemma tables_below_nonneg level m p : 0 ≤ tables_below level m p.
Proof.
  revert p. induction level as [|below IH]; intros p; cbn [tables_below]; [done|].
  rewrite <- (sum_to_0 (λ i, if is_branch below (entry_at m p i) then 1 + tables_below below m (next_table (entry_at m p i)) else 0)).
  apply sum_to_mono; [|unfold ENTRY_COUNT; lia]. intros i. case_bool; [specialize (IH (next_table (entry_at m p i))); lia|done].
Qed.

Lemma tables_in_mono (Q R : Z → Prop) level m : (∀ p, 0 ≤ p → p mod 4096 = 0 → Q p → R p) →
  ∀ p, tables_in Q level m p → tables_in R level m p.
Proof.
  intros HQR. induction level as [|below IH]; intros p; cbn [tables_in]; [done|]. intros [(HQ & Hm & Hr) He].
  split; [split; [apply HQR; [lia|done|done]|done]|]. intros i Hi. destruct (He i Hi) as [? Hb]. split; [done|]. intros Hbr. by apply IH, Hb.
Qed.

(** Two memories that have the same tables. *)
Definition agree_on (Q : Z → Prop) (m m' : memory) : Prop :=
  ∀ p i, Q p → 0 ≤ p → p mod 4096 = 0 → 0 ≤ i < ENTRY_COUNT → entry_at m' p i = entry_at m p i.

Lemma level_index_range level va : 0 ≤ level_index level va < ENTRY_COUNT.
Proof. apply Z.mod_pos_bound. done. Qed.

(** The trees at [p] in [m] and at [p'] in [m'] have the same shape, flags and leaves. *)
Fixpoint same_tree (level : nat) (m : memory) (p : Z) (m' : memory) (p' : Z) : Prop :=
  match level with
  | O => True
  | S below => ∀ i, 0 ≤ i < ENTRY_COUNT → let e := entry_at m p i in let e' := entry_at m' p' i in
      Z.land e' FLAG_BITS = Z.land e FLAG_BITS ∧
      if is_branch below e then is_branch below e' = true ∧ same_tree below m (next_table e) m' (next_table e') else e' = e
  end.

Lemma is_branch_unused below : is_branch below 0 = false.
Proof. unfold is_branch. by rewrite orb_true_r. Qed.

Lemma list_bind_ext_in {A B} (f g : A → list B) l : (∀ x, x ∈ l → f x = g x) → l ≫= f = l ≫= g.
Proof. induction l as [|x l IH]; intros H; cbn; [done|]. rewrite H, IH; [done| |by left]. intros y Hy. apply H. by right. Qed.

Lemma same_tree_facts level m m' : ∀ p p', same_tree level m p m' p' →
  (∀ va, resolve level m' p' va = resolve level m p va) ∧ tables_below level m' p' = tables_below level m p ∧
  user_pages level m' p' = user_pages level m p.
Proof.
  induction level as [|below IH]; intros p p' H; [done|].
  assert (∀ i, 0 ≤ i < ENTRY_COUNT → is_branch below (entry_at m' p' i) = is_branch below (entry_at m p i)) as Eb.
  { intros i Hi. destruct (H i Hi) as [_ Hb]. destruct (is_branch below (entry_at m p i)) eqn:E; [apply Hb|by rewrite Hb]. }
  split_and!.
  - intros va. cbn [resolve]. pose proof (level_index_range (S below) va) as Hi. destruct (H _ Hi) as [_ Hb]. rewrite Eb by done.
    destruct (is_branch below _) eqn:E; [|by rewrite Hb]. destruct Hb as [Hb1 Hb2]. rewrite (proj1 (IH _ _ Hb2)).
    repeat case_bool; try done; exfalso.
    + rewrite E0, is_branch_unused in Hb1. done.
    + rewrite E1, is_branch_unused in E. done.
  - cbn [tables_below]. apply sum_to_ext. intros i Hi. rewrite Eb by done. destruct (H i Hi) as [_ Hb].
    destruct (is_branch below _); [|done]. f_equal. apply IH, Hb.
  - cbn [user_pages]. apply list_bind_ext_in. intros i Hi%elem_of_range. rewrite Eb by done. destruct (H i Hi) as [_ Hb].
    destruct (is_branch below _); [|by rewrite Hb]. apply IH, Hb.
Qed.

Lemma same_tree_trans level m m1 m2 : ∀ p p1 p2, same_tree level m p m1 p1 → same_tree level m1 p1 m2 p2 → same_tree level m p m2 p2.
Proof.
  induction level as [|below IH]; intros p p1 p2 H1 H2; [done|]. intros i Hi.
  destruct (H1 i Hi) as [F1 B1], (H2 i Hi) as [F2 B2]. split; [congruence|]. destruct (is_branch below (entry_at m p i)) eqn:E.
  - destruct B1 as [E1 B1]. rewrite E1 in B2. split; [apply B2|]. eapply IH; [done|apply B2].
  - rewrite B1 in *. by rewrite E in B2.
Qed.

Lemma agree_tree (Q : Z → Prop) level m m' : agree_on Q m m' → ∀ p, tables_in Q level m p →
  same_tree level m p m' p ∧ tables_in Q level m' p ∧ table_list level m' p = table_list level m p.
Proof.
  intros Ha. induction level as [|below IH]; intros p; [done|]. intros [(HQ & Hp & Hr) He].
  assert (∀ i, 0 ≤ i < ENTRY_COUNT → entry_at m' p i = entry_at m p i) as E by (intros i Hi; apply Ha; [done|lia|done..]).
  split_and!.
  - intros i Hi. cbn. rewrite E by done. split; [done|]. destruct (is_branch below _) eqn:Eb; [|done].
    split; [done|]. apply IH. by apply He.
  - split; [done|]. intros i Hi. cbn. rewrite E by done. destruct (He i Hi) as [? Hb]. split; [done|]. intros Hbr. by apply IH, Hb.
  - cbn [table_list]. f_equal. apply list_bind_ext_in. intros i Hi%elem_of_range. rewrite E by done.
    destruct (is_branch below _) eqn:Eb; [|done]. apply IH. by apply He.
Qed.

Lemma table_list_in (Q : Z → Prop) level m : ∀ p, tables_in Q level m p → Forall (λ q, Q q ∧ q mod 4096 = 0 ∧ 0 ≤ q < 2 ^ 46) (table_list level m p).
Proof.
  induction level as [|below IH]; intros p H; cbn [table_list]; [constructor|]. destruct H as [Hp He].
  apply Forall_app_2; [|by apply Forall_singleton]. apply Forall_bind, Forall_forall. intros i Hi%elem_of_range.
  unfold compose. destruct (is_branch below (entry_at m p i)) eqn:Eb; [|constructor]. apply IH. by apply He.
Qed.

(** *** Entries *)

Lemma addr_flags_disjoint : Z.land ADDR_BITS FLAG_BITS = 0 ∧ Z.lor ADDR_BITS FLAG_BITS = Z.ones 64.
Proof. done. Qed.

Lemma entry_parts e : 0 ≤ e < 2 ^ 64 → Z.lor (Z.land e ADDR_BITS) (Z.land e FLAG_BITS) = e.
Proof. intros He. rewrite <- Z.land_lor_distr_r. destruct addr_flags_disjoint as [_ ->]. by apply land_ones_small. Qed.

Lemma next_table_ok e : 0 ≤ next_table e < 2 ^ 52 ∧ next_table e mod 4096 = 0.
Proof.
  split; [apply land_range; [lia|done]|]. change 4096 with (2 ^ 12). rewrite <- Z.land_ones by lia.
  unfold next_table. rewrite <- Z.land_assoc. change (Z.land ADDR_BITS (Z.ones 12)) with 0. apply Z.land_0_r.
Qed.

Lemma table_addr_bits q : 0 ≤ q < 2 ^ 52 → q mod 4096 = 0 → Z.land q ADDR_BITS = q.
Proof. intros Hq Hm. rewrite <- (Z.lor_0_l q) at 1. by apply (land_mask_lor 0 q 12 52). Qed.

Lemma link_parts q e : 0 ≤ q < 2 ^ 52 → q mod 4096 = 0 →
  next_table (Z.lor q (Z.land e FLAG_BITS)) = q ∧ Z.land (Z.lor q (Z.land e FLAG_BITS)) FLAG_BITS = Z.land e FLAG_BITS.
Proof.
  intros Hq Hm. pose proof (table_addr_bits q Hq Hm) as E. unfold next_table. rewrite !Z.land_lor_distr_l, <- !Z.land_assoc.
  destruct addr_flags_disjoint as [E0 _]. rewrite (Z.land_comm FLAG_BITS ADDR_BITS), E0, Z.land_0_r, Z.lor_0_r, Z.land_diag. split; [done|].
  rewrite <- E at 1. by rewrite <- Z.land_assoc, E0, Z.land_0_r, Z.lor_0_l.
Qed.

Lemma link_range q e : 0 ≤ q < 2 ^ 52 → 0 ≤ Z.lor q (Z.land e FLAG_BITS) < 2 ^ 64.
Proof. intros Hq. apply lor_range; [lia|lia|]. by apply land_range. Qed.

Lemma link_branch below q e : 0 < q < 2 ^ 52 → q mod 4096 = 0 → is_branch below e = true →
  is_branch below (Z.lor q (Z.land e FLAG_BITS)) = true.
Proof.
  intros Hq Hm. unfold is_branch. rewrite !negb_true_iff, !orb_false_iff. intros [[H1 _] H2].
  rewrite (proj2 (link_parts q e ltac:(lia) Hm)). split_and!; [done| |done]. apply Z.eqb_neq. intros [? _]%Z.lor_eq_0_iff. lia.
Qed.

End Meaning.

(** ** Copying a table *)

Section Copy.
Context {P : Profile} {BF : BitField} {BL : Bitflags} {XA : X86Addr} {XP : X86Paging}.
Context (offset : Z) (Hoff : offset_ok offset).

(** The page at the physical address [p] is not free; it was handed out between [fa] and
    [fa']. *)
Definition taken (fa : BitmapFrameAllocator) (p : Z) : Prop := ¬ frame_free fa (p / 4096).
Definition handed_out (fa fa' : BitmapFrameAllocator) (p : Z) : Prop := frame_free fa (p / 4096) ∧ taken fa' p.

Lemma leaf_test below e :
  (below =? 0)%nat || pte_is_unused e || fl_contains (pte_flags e) PTF_HUGE_PAGE = negb (is_branch below e).
Proof. unfold is_branch. by rewrite pte_is_unused_spec, fl_contains_spec, pte_flags_spec, negb_involutive. Qed.

Lemma copy_leaf e : 0 ≤ e < 2 ^ 64 → pte_set_addr (pte_addr e) (pte_flags e) = Ret e.
Proof.
  intros He. rewrite pte_addr_spec, pte_flags_spec. destruct (next_table_ok e). rewrite pte_set_addr_ok by done.
  by rewrite entry_parts.
Qed.

(** Allocation as the copy uses it. *)
Record Allotted (fa fa' : BitmapFrameAllocator) (n : Z) : Prop := {
  al_ready : hal_ready fa';
  al_len : zlen (bitmap fa') = zlen (bitmap fa);
  al_usable : usable_frames fa' = usable_frames fa - n;
  al_free k : 0 ≤ k → frame_free fa' k → frame_free fa k;
}.

Lemma Allotted_refl fa : hal_ready fa → Allotted fa fa 0.
Proof. intros H. split; try done. lia. Qed.

Lemma Allotted_trans fa fa1 fa2 a b : Allotted fa fa1 a → Allotted fa1 fa2 b → Allotted fa fa2 (a + b).
Proof. intros [] []. split; [done|congruence|lia|auto]. Qed.

Lemma handed_out_mono fa fa1 fa2 n p : 0 ≤ p → Allotted fa1 fa2 n → handed_out fa fa1 p → handed_out fa fa2 p.
Proof. intros Hp HA [H1 H2]. split; [done|]. intros H. apply H2. eapply al_free; [done| |done]. by apply Z.div_pos. Qed.

Lemma handed_out_later fa fa1 fa2 n p : 0 ≤ p → Allotted fa fa1 n → handed_out fa1 fa2 p → handed_out fa fa2 p.
Proof. intros Hp HA [H1 H2]. split; [|done]. eapply al_free; [done| |done]. by apply Z.div_pos. Qed.

Lemma take_frame fa : hal_ready fa → 0 < usable_frames fa → zlen (bitmap fa) ≤ 2 ^ 34 →
  ∃ q fa', allocate_frame fa = Ret (Some q, fa') ∧ Allotted fa fa' 1 ∧ handed_out fa fa' q ∧ (q mod 4096 = 0 ∧ 4096 ≤ q < 2 ^ 46) ∧
    ∀ p, 0 ≤ p → p mod 4096 = 0 → handed_out fa fa' p → p = q.
Proof.
  intros Hr Hu Hz. destruct (hal_alloc fa Hr Hu) as (fa' & E & Hr' & [Hlt Hf] & Hl & _). destruct Hr as (Hok & Hn1 & _).
  destruct (allocate_frame_ok fa Hok Hu) as (fa2 & E2 & _ & (_ & _ & HU) & Hu2 & _); [lia|]. rewrite E in E2. injection E2 as <-.
  exists (4096 * next_frame fa), fa'.
  assert (4096 * next_frame fa / 4096 = next_frame fa) as Eq by (rewrite Z.mul_comm; apply Z.div_mul; lia).
  split; [done|]. split; [|split; [split|split; [split; [rewrite Z.mul_comm; by apply Z.mod_mul|lia]|]]].
  - split; [done|done|done|]. intros k Hk. unfold frame_free. rewrite HU by lia. by case_bool.
  - by rewrite Eq.
  - unfold taken. rewrite Eq. unfold frame_free. rewrite HU by lia. case_bool; [done|bsolve].
  - intros p Hp Hm [H1 H2]. unfold taken, frame_free in *. rewrite HU in H2 by (apply Z.div_pos; lia).
    revert H2. case_bool; [|done]. intros _. Z.div_mod_to_equations. lia.
Qed.

Lemma new_from_allocate_ok fa : hal_ready fa → 0 < usable_frames fa → zlen (bitmap fa) ≤ 2 ^ 34 →
  ∃ q fa', new_from_allocate offset fa = Ret (mkOffsetPT (q + offset) offset, fa') ∧
    Allotted fa fa' 1 ∧ handed_out fa fa' q ∧ (q mod 4096 = 0 ∧ 4096 ≤ q < 2 ^ 46) ∧
    ∀ p, 0 ≤ p → p mod 4096 = 0 → handed_out fa fa' p → p = q.
Proof.
  intros Hr Hu Hz. unfold offset_ok in Hoff. destruct (take_frame fa Hr Hu Hz) as (q & fa' & E & HA & Hh & [Hm Hq] & Ho).
  exists q, fa'. unfold new_from_allocate. rewrite E. run. unfold convert_physical_to_virtual. rewrite add_u_ok by lia. run.
  by rewrite !VirtAddr_new_ok by lia.
Qed.

(** Two addresses in tables on different pages are different. *)
Lemma entry_at_write m p q i j x : p mod 4096 = 0 → q mod 4096 = 0 → 0 ≤ i < ENTRY_COUNT → 0 ≤ j < ENTRY_COUNT →
  entry_at offset (write_word m (q + offset + 8 * j) x) p i = if (p =? q) && (i =? j) then x else entry_at offset m p i.
Proof.
  unfold ENTRY_COUNT. intros Hp Hq Hi Hj. unfold entry_at, write_word. repeat case_bool; try done; [|lia].
  assert (p = q) by (Z.div_mod_to_equations; lia). bsolve.
Qed.

(** Words that a copy into the table [q] may change. *)
Definition outside (fa fa' : BitmapFrameAllocator) (q : Z) (m m' : memory) : Prop :=
  ∀ a, m' a = m a ∨ q + offset ≤ a < q + offset + 4096 ∨
    ∃ p, handed_out fa fa' p ∧ p mod 4096 = 0 ∧ 0 ≤ p ∧ p + offset ≤ a < p + offset + 4096.

Lemma outside_agree fa fa' q m m' (Q : Z → Prop) : q mod 4096 = 0 → outside fa fa' q m m' →
  (∀ p, 0 ≤ p → Q p → p ≠ q ∧ ¬ handed_out fa fa' p) → agree_on offset Q m m'.
Proof.
  intros Hq Ho HQ p i Hp Hp0 Hm Hi. unfold ENTRY_COUNT in Hi. destruct (HQ p Hp0 Hp) as [Hne Hh]. unfold entry_at.
  destruct (Ho (p + offset + 8 * i)) as [?|[?|(r & Hr & Hrm & _ & ?)]]; [done| |].
  - exfalso. apply Hne. Z.div_mod_to_equations. lia.
  - exfalso. apply Hh. replace p with r; [done|]. Z.div_mod_to_equations. lia.
Qed.

(** The copy of one entry. *)
Definition copied (below : nat) (m m' : memory) (fa fa' : BitmapFrameAllocator) (e e' : Z) : Prop :=
  0 ≤ e' < 2 ^ 64 ∧ Z.land e' FLAG_BITS = Z.land e FLAG_BITS ∧
  if is_branch below e then is_branch below e' = true ∧ tables_in offset (handed_out fa fa') below m' (next_table e') ∧
    same_tree offset below m (next_table e) m' (next_table e')
  else e' = e.

Definition cost (below : nat) (m : memory) (p i : Z) : Z :=
  let e := entry_at offset m p i in if is_branch below e then 1 + tables_below offset below m (next_table e) else 0.

(** The state after the first [i] entries. *)
Record CopyInv (below : nat) (m : memory) (fa : BitmapFrameAllocator) (source target i : Z) (st : memory * BitmapFrameAllocator) : Prop := {
  ci_alloc : Allotted fa st.2 (sum_to (cost below m source) i);
  ci_out : outside fa st.2 target m st.1;
  ci_copied j : 0 ≤ j < i → copied below m st.1 fa st.2 (entry_at offset m source j) (entry_at offset st.1 target j);
  ci_used p : 0 ≤ p → p mod 4096 = 0 → handed_out fa st.2 p → ∃ j, 0 ≤ j < i ∧
    is_branch below (entry_at offset m source j) = true ∧ p ∈ table_list offset below st.1 (next_table (entry_at offset st.1 target j));
}.

(** Writing outside the tables of a copied entry keeps it. *)
Lemma copied_agree below m m1 m2 fa fa1 fa2 n e e' : Allotted fa1 fa2 n → agree_on offset (handed_out fa fa1) m1 m2 →
  copied below m m1 fa fa1 e e' → copied below m m2 fa fa2 e e' ∧
    (is_branch below e = true → table_list offset below m2 (next_table e') = table_list offset below m1 (next_table e')).
Proof.
  intros HA Hag (Hr & Hf & Hb). unfold copied. destruct (is_branch below e); [|by split].
  destruct Hb as (Hb & Ht & Hs). destruct (agree_tree offset _ below m1 m2 Hag _ Ht) as (Hs' & Ht' & El).
  split; [|done]. split_and!; [apply Hr..|done|done| |by eapply same_tree_trans].
  eapply tables_in_mono; [|exact Ht']. intros p Hp _. by apply (handed_out_mono _ _ _ n).
Qed.

Lemma copy_advance below m fa source target i mi fai m' fa' : 0 ≤ i → CopyInv below m fa source target i (mi, fai) →
  Allotted fai fa' (cost below m source i) → agree_on offset (handed_out fa fai) mi m' →
  (∀ j, 0 ≤ j < i → entry_at offset m' target j = entry_at offset mi target j) → outside fa fa' target m m' →
  copied below m m' fa fa' (entry_at offset m source i) (entry_at offset m' target i) →
  (∀ p, 0 ≤ p → p mod 4096 = 0 → handed_out fa fa' p → handed_out fa fai p ∨ is_branch below (entry_at offset m source i) = true ∧
    p ∈ table_list offset below m' (next_table (entry_at offset m' target i))) →
  CopyInv below m fa source target (i + 1) (m', fa').
Proof.
  intros Hi [HA Ho Hc Hu] HA' Hag Hj Ho' Hci Hp. cbn [fst snd] in *. split; cbn [fst snd].
  - rewrite sum_to_succ by lia. by eapply Allotted_trans.
  - done.
  - intros j Hji. destruct (decide (j = i)) as [->|]; [done|]. rewrite Hj by lia.
    eapply copied_agree; [done|done|]. apply Hc. lia.
  - intros p Hp0 Hpm Hh. destruct (Hp p Hp0 Hpm Hh) as [Hold|Hnew]; [|by exists i; split; [lia|]].
    destruct (Hu p Hp0 Hpm Hold) as (j & Hji & Eb & Hin). exists j. split; [lia|]. split; [done|]. rewrite Hj by lia.
    by rewrite (proj2 (copied_agree below m mi m' fa fai fa' _ _ _ HA' Hag (Hc j Hji)) Eb).
Qed.

Record Copied (level : nat) (m : memory) (fa : BitmapFrameAllocator) (source target : Z) (m' : memory) (fa' : BitmapFrameAllocator) : Prop := {
  co_alloc : Allotted fa fa' (tables_below offset level m source);
  co_out : outside fa fa' target m m';
  co_tree : same_tree offset level m source m' target;
  co_tables : tables_in offset (λ q, q = target ∨ handed_out fa fa' q) level m' target;
  co_used p : 0 ≤ p → p mod 4096 = 0 → handed_out fa fa' p → p ∈ table_list offset level m' target;
}.

Record CopyPre (level : nat) (m : memory) (fa : BitmapFrameAllocator) (source target : Z) : Prop := {
  cp_ready : hal_ready fa;
  cp_len : zlen (bitmap fa) ≤ 2 ^ 34;
  cp_source : tables_in offset (λ q, taken fa q ∧ q ≠ target) level m source;
  cp_target : taken fa target ∧ target mod 4096 = 0 ∧ 0 ≤ target < 2 ^ 46;
  cp_enough : tables_below offset level m source ≤ usable_frames fa;
}.

Definition CopyOk (level : nat) : Prop := ∀ m fa source target, CopyPre level m fa source target →
  ∃ m' fa', new_from_recursion offset level (m, fa) (source + offset) (target + offset) = Ret (m', fa') ∧
    Copied level m fa source target m' fa'.

(** The tables of the source are not touched. *)
Lemma source_agree level m fa source target m' fa' : CopyPre level m fa source target → outside fa fa' target m m' →
  agree_on offset (λ q, taken fa q ∧ q ≠ target) m m'.
Proof.
  intros [_ _ _ (Ht & Hm & _) _] Ho. eapply outside_agree; [exact Hm|exact Ho|]. intros p _ [Hp Hne]. split; [done|]. by intros [? _].
Qed.

Lemma target_not_new fa fa' target p : taken fa target → handed_out fa fa' p → p ≠ target.
Proof. intros Ht [Hf _] ->. done. Qed.

Lemma write_agree fa fa' target m i x : taken fa target → target mod 4096 = 0 → 0 ≤ i < ENTRY_COUNT →
  agree_on offset (handed_out fa fa') m (write_word m (target + offset + 8 * i) x).
Proof.
  intros Ht Hm Hi p j Hp _ Hpm Hj. rewrite entry_at_write by done. pose proof (target_not_new _ _ _ _ Ht Hp). case_bool; [lia|done].
Qed.

Lemma write_outside fa fa' target m mi i x : 0 ≤ i < ENTRY_COUNT → outside fa fa' target m mi →
  outside fa fa' target m (write_word mi (target + offset + 8 * i) x).
Proof. unfold ENTRY_COUNT. intros Hi Ho a. unfold write_word. case_bool; [|apply Ho]. right. left. lia. Qed.

Lemma copy_leaf_step below m fa source target i mi fai : CopyPre (S below) m fa source target → 0 ≤ i < ENTRY_COUNT →
  CopyInv below m fa source target i (mi, fai) → is_branch below (entry_at offset m source i) = false →
  CopyInv below m fa source target (i + 1) (write_word mi (target + offset + 8 * i) (entry_at offset m source i), fai).
Proof.
  intros HP Hi HI Eb. pose proof HP as [_ _ [_ Hs] (Ht & Hm & Hr) _]. destruct (Hs i Hi) as [He _].
  pose proof HI as [HA Ho _ _]. cbn [fst snd] in HA, Ho.
  assert (∀ j, 0 ≤ j < ENTRY_COUNT → entry_at offset (write_word mi (target + offset + 8 * i) (entry_at offset m source i)) target j =
    if j =? i then entry_at offset m source i else entry_at offset mi target j) as Ew.
  { intros j Hj. rewrite entry_at_write by done. by rewrite Z.eqb_refl. }
  eapply copy_advance; [lia|exact HI| |by apply write_agree| | | |].
  - unfold cost. cbn zeta. rewrite Eb. apply Allotted_refl, HA.
  - intros j Hj. rewrite Ew by lia. case_bool; [lia|done].
  - by apply write_outside.
  - rewrite Ew, Z.eqb_refl by done. split; [done|]. split; [done|]. by rewrite Eb.
  - intros p _ _ Hp. by left.
Qed.

Lemma taken_later fa fa' n p : 0 ≤ p → Allotted fa fa' n → taken fa p → taken fa' p.
Proof. intros Hp HA Ht Hf. apply Ht. eapply al_free; [done| |done]. by apply Z.div_pos. Qed.

Lemma cost_left below m fa source target i fai : CopyPre (S below) m fa source target → 0 ≤ i < ENTRY_COUNT →
  Allotted fa fai (sum_to (cost below m source) i) → cost below m source i ≤ usable_frames fai.
Proof.
  intros [_ _ _ _ Hen] Hi HA. rewrite (al_usable _ _ _ HA). cbn [tables_below] in Hen. fold (cost below m source) in Hen.
  pose proof (sum_to_mono (cost below m source) (i + 1) ENTRY_COUNT) as Hmono. rewrite sum_to_succ in Hmono by lia.
  enough (∀ k, 0 ≤ cost below m source k) as Hn by (specialize (Hmono Hn ltac:(lia)); lia).
  intros k. unfold cost. cbn zeta. case_bool; [|done]. pose proof (tables_below_nonneg offset below m (next_table (entry_at offset m source k))). lia.
Qed.

Lemma cost_branch below m source i : is_branch below (entry_at offset m source i) = true →
  cost below m source i = 1 + tables_below offset below m (next_table (entry_at offset m source i)).
Proof. intros Eb. unfold cost. cbn zeta. by rewrite Eb. Qed.

(** What the recursive call is given. *)
Lemma copy_branch_pre below m fa source target i mi fai q fa1 x : CopyPre (S below) m fa source target → 0 ≤ i < ENTRY_COUNT →
  CopyInv below m fa source target i (mi, fai) → is_branch below (entry_at offset m source i) = true →
  Allotted fai fa1 1 → handed_out fai fa1 q → q mod 4096 = 0 → 4096 ≤ q < 2 ^ 46 →
  let m2 := write_word mi (target + offset + 8 * i) x in let s := next_table (entry_at offset m source i) in
  CopyPre below m2 fa1 s q ∧ same_tree offset below m s m2 s.
Proof.
  intros HP Hi HI Eb HA1 Hq Hqm Hqr m2 s. pose proof HP as [_ Hlen [_ Hs] (Ht & Hm & Hr) Hen]. destruct (Hs i Hi) as [_ Hsub].
  pose proof HI as [HA Ho _ _]. cbn [fst snd] in HA, Ho. specialize (Hsub Eb).
  destruct (agree_tree offset _ below m m2 (source_agree _ _ _ _ _ _ _ HP (write_outside _ _ _ _ _ i x Hi Ho)) _ Hsub) as (Hst & Ht2 & _).
  split; [|exact Hst]. pose proof (Allotted_trans _ _ _ _ _ HA HA1) as HA2. split.
  - apply HA1.
  - rewrite (al_len _ _ _ HA2). done.
  - eapply tables_in_mono; [|exact Ht2]. intros p Hp _ [Hp1 Hp2]. split; [by eapply taken_later|].
    intros ->. apply Hp1. eapply al_free; [exact HA|by apply Z.div_pos|apply Hq].
  - split; [apply Hq|]. split; [done|lia].
  - pose proof (proj1 (proj2 (same_tree_facts _ _ _ _ _ _ Hst))) as Et. fold s in Et. rewrite Et, (al_usable _ _ _ HA1).
    pose proof (cost_left _ _ _ _ _ _ _ HP Hi HA) as Hc. rewrite cost_branch in Hc by done. unfold s. lia.
Qed.

(** After the recursive call. *)
Lemma copy_branch_post below m fa source target i mi fai q fa1 m3 fa3 : CopyPre (S below) m fa source target → 0 ≤ i < ENTRY_COUNT →
  CopyInv below m fa source target i (mi, fai) → is_branch below (entry_at offset m source i) = true →
  Allotted fai fa1 1 → handed_out fai fa1 q → q mod 4096 = 0 → 4096 ≤ q < 2 ^ 46 →
  (∀ p, 0 ≤ p → p mod 4096 = 0 → handed_out fai fa1 p → p = q) →
  let e := entry_at offset m source i in let e' := Z.lor q (Z.land e FLAG_BITS) in let m2 := write_word mi (target + offset + 8 * i) e' in
  same_tree offset below m (next_table e) m2 (next_table e) → Copied below m2 fa1 (next_table e) q m3 fa3 →
  CopyInv below m fa source target (i + 1) (m3, fa3).
Proof.
  intros HP Hi HI Eb HA1 Hq Hqm Hqr Honly e e' m2 Hst [HA3 Ho3 Htr Htab Hus].
  pose proof HP as [_ _ _ (Ht & Hm & Hr) _]. pose proof HI as [HA Ho _ _]. cbn [fst snd] in HA, Ho.
  pose proof (Allotted_trans _ _ _ _ _ HA HA1) as HA01. pose proof (Allotted_trans _ _ _ _ _ HA1 HA3) as HA13.
  assert (taken fa1 target) as Ht1 by (eapply (taken_later fa fa1); [lia|exact HA01|done]).
  assert (target ≠ q) as Htq by (intros ->; apply Ht; eapply al_free; [exact HA|apply Z.div_pos; lia|apply Hq]).
  assert (handed_out fa fa3 q) as Hq3 by (eapply handed_out_mono; [lia|exact HA3|eapply handed_out_later; [lia|exact HA|exact Hq]]).
  assert (∀ j, 0 ≤ j < ENTRY_COUNT → entry_at offset m3 target j = if j =? i then e' else entry_at offset mi target j) as Ew.
  { intros j Hj. rewrite (outside_agree fa1 fa3 q m2 m3 (λ p, p = target) Hqm Ho3); [|intros p _ ->; split; [done|by intros [? _]]|done|lia|done|done].
    unfold m2. rewrite entry_at_write by done. by rewrite Z.eqb_refl. }
  destruct (link_parts q e ltac:(lia) Hqm) as [En Ef].
  eapply copy_advance; [lia|exact HI| | | | | |].
  - rewrite cost_branch by done. fold e. rewrite <- (proj1 (proj2 (same_tree_facts _ _ _ _ _ _ Hst))). exact HA13.
  - intros p j Hp Hp0 Hpm Hj. rewrite <- (write_agree fa fai target mi i e' Ht Hm Hi p j Hp Hp0 Hpm Hj).
    apply (outside_agree fa1 fa3 q m2 m3 (handed_out fa fai) Hqm Ho3); [|done..]. intros r Hr0 [Hr1 Hr2]. split; [by intros ->; apply Hr2, Hq|].
    intros [Hr3 _]. apply (taken_later _ _ _ r Hr0 HA1 Hr2), Hr3.
  - intros j Hj. rewrite Ew by lia. case_bool; [lia|done].
  - intros a. destruct (Ho3 a) as [E|[Hreg|(p & Hp & Hpm & Hp0 & Hreg)]].
    + rewrite E. destruct (write_outside _ _ _ _ _ i e' Hi Ho a) as [?|[?|(p & Hp & Hpm & Hp0 & Hreg)]]; [by left|by right; left|].
      right. right. exists p. split; [|done]. eapply handed_out_mono; [done|exact HA13|done].
    + right. right. exists q. split; [done|]. split; [done|lia].
    + right. right. exists p. split; [|done]. eapply handed_out_later; [done|exact HA01|done].
  - rewrite Ew, Z.eqb_refl by done. fold e. split; [apply link_range; lia|]. split; [done|]. fold e in Eb. rewrite Eb.
    split; [apply link_branch; [lia|done|done]|]. unfold e' at 1 2. rewrite En. split; [|by eapply same_tree_trans].
    eapply tables_in_mono; [|exact Htab]. intros p Hp0 Hpm [->|Hp]; [done|]. eapply handed_out_later; [done|exact HA01|done].
  - intros p Hp0 Hpm [Hp1 Hp2]. rewrite Ew, Z.eqb_refl by done. unfold e' at 1. rewrite En. fold e. fold e in Eb.
    destruct (decide (bit (bitmap fai) (p / 4096) = true)) as [Hf|Hf]; [right|by left]. split; [done|].
    destruct (decide (bit (bitmap fa1) (p / 4096) = true)) as [Hf1|Hf1]; [by apply Hus|].
    rewrite (Honly p Hp0 Hpm (conj Hf Hf1)). destruct below as [|b]; [done|]. cbn [table_list]. apply elem_of_app. right. by apply list_elem_of_singleton.
Qed.

Lemma copy_invariant_end below m fa source target m' fa' : CopyPre (S below) m fa source target →
  CopyInv below m fa source target ENTRY_COUNT (m', fa') → Copied (S below) m fa source target m' fa'.
Proof.
  intros [_ _ _ (Ht & Hm & Hr) _] [HA Ho Hc Hu]. cbn [fst snd] in *. split; [exact HA|done|..].
  - intros i Hi. destruct (Hc i Hi) as (_ & Hf & Hb). cbn zeta. split; [done|]. destruct (is_branch below _); [|done]. split; apply Hb.
  - split; [split; [by left|done]|]. intros i Hi. destruct (Hc i Hi) as (Hrg & _ & Hb). split; [done|]. intros E.
    destruct (is_branch below (entry_at offset m source i)) eqn:Es; [|by rewrite Hb, Es in E].
    eapply tables_in_mono; [|apply Hb]. intros p _ _ Hp. by right.
  - intros p Hp0 Hpm Hp. destruct (Hu p Hp0 Hpm Hp) as (j & Hj & Es & Hin). destruct (Hc j Hj) as (_ & _ & Hb). rewrite Es in Hb.
    cbn [table_list]. apply elem_of_app. left. apply list_elem_of_bind. exists j. cbn zeta. rewrite (proj1 Hb). split; [done|].
    by apply elem_of_range.
Qed.

Lemma copy_inv_start below m fa source target : hal_ready fa → CopyInv below m fa source target 0 (m, fa).
Proof.
  intros Hr. split; cbn [fst snd]; [by rewrite sum_to_0; apply Allotted_refl|by intros a; left|lia|]. intros p _ _ [H1 H2]. done.
Qed.

Lemma physical_address_ok q : 0 ≤ q < 2 ^ 46 → physical_address (mkOffsetPT (q + offset) offset) = Ret q.
Proof.
  intros Hq. unfold offset_ok in Hoff. unfold physical_address. cbn [level_4_table phys_offset]. rewrite sub_u_ok by lia. run.
  replace (q + offset - offset) with q by lia. apply PhysAddr_new_ok. lia.
Qed.

Lemma to_virtual q : 0 ≤ q < 2 ^ 46 → convert_physical_to_virtual offset q = Ret (q + offset).
Proof. intros Hq. by apply convert_roundtrip. Qed.

Lemma copy_level below : (below ≠ O → CopyOk below) → CopyOk (S below).
Proof.
  intros Hrec m fa source target HP. cbn [new_from_recursion].
  match goal with |- ∃ _ _, foldM ?f _ _ = _ ∧ _ =>
    destruct (foldM_range f (CopyInv below m fa source target) 0 ENTRY_COUNT (m, fa)) as ([m' fa'] & E & HI) end;
    [done|by apply copy_inv_start, (cp_ready _ _ _ _ _ HP)| |exists m', fa'; split; [exact E|by apply copy_invariant_end]].
  intros i [mi fai] Hi HI. fold (entry_at offset mi source i).
  pose proof HP as [_ Hlen [[HQ [Hsm Hsr]] Hs] (Ht & Hm & Hr) Hen]. pose proof HI as [HA Ho _ _]. cbn [fst snd] in HA, Ho.
  rewrite (source_agree _ _ _ _ _ _ _ HP Ho source i HQ) by lia. set (e := entry_at offset m source i).
  rewrite leaf_test. destruct (Hs i Hi) as [He Hsub]. fold e in He, Hsub. destruct (is_branch below e) eqn:Eb; cbn [negb].
  2: { rewrite copy_leaf by done. run. eexists. split; [done|]. by apply copy_leaf_step. }
  assert (0 < usable_frames fai) as Hu.
  { pose proof (cost_left _ _ _ _ _ _ _ HP Hi HA) as Hc. rewrite cost_branch in Hc by done.
    pose proof (tables_below_nonneg offset below m (next_table e)). fold e in Hc. lia. }
  destruct (new_from_allocate_ok fai) as (q & fa1 & -> & HA1 & Hq & [Hqm Hqr] & Honly); [apply HA|done|by rewrite (al_len _ _ _ HA)|]. run.
  rewrite physical_address_ok by lia. run. rewrite PhysAddr_new_ok by lia. run. rewrite pte_flags_spec, pte_set_addr_ok by lia. run.
  rewrite pte_addr_spec. fold (next_table e).
  destruct (copy_branch_pre below m fa source target i mi fai q fa1 (Z.lor q (Z.land e FLAG_BITS))) as [HP2 Hst]; [done..|].
  assert (below ≠ O) as Hb0 by (intros ->; done). destruct below as [|b]; [done|]. specialize (Hsub eq_refl) as [[_ [_ Hnr]] _].
  rewrite to_virtual by lia. run. cbn [level_4_table].
  destruct (Hrec Hb0 _ _ _ _ HP2) as (m3 & fa3 & E3 & HC). exists (m3, fa3). split; [exact E3|].
  eapply copy_branch_post; [done|done|exact HI|exact Eb|exact HA1|done..].
Qed.

Lemma copy_ok below : CopyOk (S below).
Proof. induction below as [|b IH]; apply copy_level; [done|]. by intros _. Qed.

(** ** Releasing a table *)

(** The frames of [l] became free, the others are as they were. *)
Record Released (fa fa' : BitmapFrameAllocator) (l : list Z) : Prop := {
  re_ok : alloc_ok fa';
  re_len : zlen (bitmap fa') = zlen (bitmap fa);
  re_usable : usable_frames fa' = usable_frames fa + zlen l;
  re_free k : 0 ≤ k → frame_free fa' k ↔ frame_free fa k ∨ k ∈ (λ p, p / 4096) <$> l;
}.

Lemma Released_refl fa : alloc_ok fa → Released fa fa [].
Proof. intros H. split; try done; [unfold zlen; cbn; lia|]. intros k _. cbn. rewrite elem_of_nil. tauto. Qed.

Lemma Released_trans fa fa1 fa2 l1 l2 : Released fa fa1 l1 → Released fa1 fa2 l2 → Released fa fa2 (l1 ++ l2).
Proof.
  intros [_ L1 U1 F1] [O2 L2 U2 F2]. split; [done|congruence|unfold zlen in *; rewrite length_app; lia|].
  intros k Hk. rewrite F2, F1, fmap_app, elem_of_app by done. tauto.
Qed.

Lemma deallocate_ok fa p : alloc_ok fa → usable_frames fa < 2 ^ 64 - 1 → 0 ≤ p < 4096 * (8 * zlen (bitmap fa)) →
  ∃ fa', deallocate_frame fa p = Ret fa' ∧ Released fa fa' [p].
Proof.
  intros (Hb & Hl & Hu & Hn) Hmax Hp. unfold deallocate_frame.
  destruct (Bitmap_set_ok (bitmap fa) (p / 4096) true) as (bm & -> & HL & HB & HU); [done|Z.div_mod_to_equations; lia|]. run.
  rewrite add_u_ok by lia. run. eexists. split; [done|]. split; cbn [bitmap usable_frames next_frame]; [|done|unfold zlen; cbn; lia|].
  - split; [done|]. cbn [bitmap usable_frames next_frame]. rewrite HL. lia.
  - intros k Hk. unfold frame_free. cbn [bitmap]. rewrite HU by lia. case_bool.
    + split; [|done]. intros _. right. apply list_elem_of_singleton. lia.
    + split; [by left|]. intros [?|Hk2%list_elem_of_singleton]; [done|bsolve].
Qed.

Lemma Released_perm fa fa' l l' : l ≡ₚ l' → Released fa fa' l → Released fa fa' l'.
Proof.
  intros Hp [O L U F]. split; [done|done|by unfold zlen in *; rewrite <- Hp|]. intros k Hk. rewrite F by done. by rewrite Hp.
Qed.

(** What is released for the first [n] entries. *)
Definition entry_tables (below : nat) (m : memory) (p i : Z) : list Z :=
  let e := entry_at offset m p i in if is_branch below e then table_list offset below m (next_table e) else [].
Definition entry_pages (below : nat) (m : memory) (p i : Z) : list Z :=
  let e := entry_at offset m p i in
  if is_branch below e then user_pages offset below m (next_table e)
  else if (below =? 0)%nat && user_leaf e then [next_table e] else [].

Definition managed (fa : BitmapFrameAllocator) (p : Z) : Prop := 0 ≤ p < 4096 * (8 * zlen (bitmap fa)).

Lemma bind_snoc {A} (f : Z → list A) i : 0 ≤ i → range 0 (i + 1) ≫= f = (range 0 i ≫= f) ++ f i.
Proof. intros Hi. rewrite range_snoc, bind_app by lia. cbn. by rewrite app_nil_r. Qed.

Lemma bind_length_le {A} (f : Z → list A) i n : 0 ≤ i ≤ n → zlen (range 0 i ≫= f) ≤ zlen (range 0 n ≫= f).
Proof. intros H. rewrite (range_app 0 i n), bind_app by lia. unfold zlen. rewrite length_app. lia. Qed.

(** A leaf, or an unused entry. *)
Lemma release_leaf below e fa : is_branch below e = false → alloc_ok fa → usable_frames fa < 2 ^ 64 - 1 →
  (((below =? 0)%nat && user_leaf e) = true → managed fa (next_table e)) →
  ∃ fa', (if pte_is_unused e then Ret fa
    else if (below =? 0)%nat || fl_contains (pte_flags e) PTF_HUGE_PAGE then
      if fl_contains (pte_flags e) (MappingType_flags UserCode) then
        match pte_frame e with Ok frame => deallocate_frame fa frame | Err _ => Ret fa end
      else Ret fa
    else Panic) = Ret fa' ∧ Released fa fa' (if (below =? 0)%nat && user_leaf e then [next_table e] else []).
Proof.
  intros Eb Hok Hu Hman. rewrite pte_is_unused_spec, !fl_contains_spec, pte_flags_spec, pte_frame_spec, pte_flags_spec, pte_addr_spec.
  unfold is_branch in Eb. apply negb_false_iff in Eb. unfold MappingType_flags. rewrite !fl_union_spec. change (Z.lor (Z.lor PTF_PRESENT PTF_WRITABLE) PTF_USER_ACCESSIBLE) with 7.
  destruct (e =? 0) eqn:E0; [apply Z.eqb_eq in E0 as ->; rewrite andb_false_r; exists fa; split; [done|by apply Released_refl]|].
  rewrite orb_false_r in Eb. rewrite Eb. unfold user_leaf in *. destruct (Z.land (Z.land e FLAG_BITS) 7 =? 7) eqn:E7.
  2: { cbn [andb]. rewrite andb_false_r. exists fa. split; [done|by apply Released_refl]. }
  assert ((Z.land (Z.land e FLAG_BITS) PTF_PRESENT =? PTF_PRESENT) = true) as ->.
  { apply Z.eqb_eq in E7. apply Z.eqb_eq. change PTF_PRESENT with (Z.land 7 1) at 1. by rewrite Z.land_assoc, E7. }
  cbn [negb andb] in *. destruct (Z.land (Z.land e FLAG_BITS) PTF_HUGE_PAGE =? PTF_HUGE_PAGE) eqn:Eh.
  { cbn [negb]. rewrite andb_false_r. exists fa. split; [done|by apply Released_refl]. }
  rewrite orb_false_r in Eb. rewrite Eb in *. cbn [negb andb] in *. apply deallocate_ok; [done|done|by apply Hman].
Qed.

Definition FreeOk (level : nat) : Prop := ∀ m fa p, alloc_ok fa → tables_in offset (managed fa) level m p →
  Forall (managed fa) (user_pages offset level m p) →
  usable_frames fa + zlen (table_list offset level m p ++ user_pages offset level m p) < 2 ^ 64 →
  ∃ fa', free_pages_recursion offset level m fa p = Ret fa' ∧
    Released fa fa' (table_list offset level m p ++ user_pages offset level m p).

Lemma Forall_bind_range {A} (Q : A → Prop) (f : Z → list A) n i : Forall Q (range 0 n ≫= f) → 0 ≤ i < n → Forall Q (f i).
Proof. intros H Hi. rewrite Forall_bind, Forall_forall in H. apply H. by apply elem_of_range. Qed.

Lemma free_entry below m fa p i : (below ≠ O → FreeOk below) → alloc_ok fa → tables_in offset (managed fa) (S below) m p → 0 ≤ i < ENTRY_COUNT →
  Forall (managed fa) (entry_pages below m p i) → usable_frames fa + zlen (entry_tables below m p i ++ entry_pages below m p i) < 2 ^ 64 - 1 →
  ∃ fa', (let entry := entry_at offset m p i in
    if pte_is_unused entry then Ret fa
    else if (below =? 0)%nat || fl_contains (pte_flags entry) PTF_HUGE_PAGE then
      if fl_contains (pte_flags entry) (MappingType_flags UserCode) then
        match pte_frame entry with Ok frame => deallocate_frame fa frame | Err _ => Ret fa end
      else Ret fa
    else free_pages_recursion offset below m fa (pte_addr entry)) = Ret fa' ∧
    Released fa fa' (entry_tables below m p i ++ entry_pages below m p i).
Proof.
  intros Hrec Hok [_ Ht] Hi Hpg Hu. destruct (Ht i Hi) as [_ Hsub]. cbn zeta. unfold entry_tables, entry_pages in *. cbn zeta in *.
  set (e := entry_at offset m p i) in *. pose proof (leaf_test below e) as El. destruct (is_branch below e) eqn:Eb.
  - apply orb_false_iff in El as [[E1 E2]%orb_false_iff E3]. rewrite E1, E2, E3. cbn [orb].
    rewrite pte_addr_spec. fold (next_table e). assert (below ≠ O) as Hb0 by (by intros ->).
    apply (Hrec Hb0 m fa (next_table e)); [done|by apply Hsub|done|lia].
  - cbn [negb app] in *. destruct (release_leaf below e fa) as (fa' & E & HR); [done|done|pose proof (zlen_nonneg (if (below =? 0)%nat && user_leaf e then [next_table e] else [])); lia| |].
    { intros Hl. rewrite Hl in Hpg. by rewrite Forall_singleton in Hpg. }
    exists fa'. split; [|done]. rewrite <- E. destruct (pte_is_unused e); [done|]. rewrite orb_false_r in El. by rewrite El.
Qed.

Lemma perm_middle {A} (a b c d : list A) : (a ++ b) ++ (c ++ d) ≡ₚ (a ++ c) ++ (b ++ d).
Proof. rewrite <- !app_assoc. f_equiv. rewrite !app_assoc. f_equiv. apply Permutation_app_comm. Qed.

Lemma managed_released fa fa' l p : Released fa fa' l → managed fa p → managed fa' p.
Proof. intros HR. unfold managed. by rewrite (re_len _ _ _ HR). Qed.

Lemma free_level below : (below ≠ O → FreeOk below) → FreeOk (S below).
Proof.
  intros Hrec m fa p Hok Ht Hup Hu. pose proof Ht as [(Hmp & Hpm & Hpr) _]. unfold offset_ok in Hoff. cbn [free_pages_recursion].
  rewrite VirtAddr_new_ok by lia. run. unfold VirtAddr_add. rewrite (proj2 (in_range_true 64 _)) by lia. rewrite VirtAddr_new_ok by lia. run.
  set (T n := range 0 n ≫= entry_tables below m p). set (U n := range 0 n ≫= entry_pages below m p).
  change (table_list offset (S below) m p) with (T ENTRY_COUNT ++ [p]) in *. change (user_pages offset (S below) m p) with (U ENTRY_COUNT) in *.
  match goal with |- ∃ _, (foldM ?f _ _ ≫= _) = _ ∧ _ =>
    destruct (foldM_range f (λ i fai, Released fa fai (T i ++ U i)) 0 ENTRY_COUNT fa) as (fa1 & E & HR) end.
  - done.
  - by apply Released_refl.
  - intros i fai Hi HR. unfold entry_at in *. replace (offset + p + 8 * i) with (p + offset + 8 * i) by lia.
    assert (zlen (T i ++ U i) + zlen (entry_tables below m p i ++ entry_pages below m p i) ≤ zlen (T ENTRY_COUNT ++ U ENTRY_COUNT)) as Hle.
    { pose proof (bind_length_le (entry_tables below m p) (i + 1) ENTRY_COUNT) as H1. pose proof (bind_length_le (entry_pages below m p) (i + 1) ENTRY_COUNT) as H2.
      rewrite bind_snoc in H1, H2 by lia. fold (T i) (T ENTRY_COUNT) in H1. fold (U i) (U ENTRY_COUNT) in H2. unfold zlen in *. rewrite !length_app in *. lia. }
    destruct (free_entry below m fai p i Hrec) as (fa' & E & HR'); [apply HR| |done| | |].
    + eapply tables_in_mono; [|exact Ht]. intros q _ _. by eapply managed_released.
    + eapply Forall_impl; [by eapply (Forall_bind_range _ _ ENTRY_COUNT i)|]. intros q. by eapply managed_released.
    + rewrite (re_usable _ _ _ HR). unfold zlen in *. rewrite !length_app in *. cbn in Hu. lia.
    + exists fa'. split; [exact E|]. eapply Released_perm; [|by eapply Released_trans]. unfold T, U. rewrite !bind_snoc by lia. apply perm_middle.
  - rewrite E. run. rewrite PhysFrame_containing_address_spec by lia.
    replace (p / 4096 * 4096) with p by (Z.div_mod_to_equations; lia).
    destruct (deallocate_ok fa1 p) as (fa2 & -> & HR2); [apply HR|rewrite (re_usable _ _ _ HR); unfold zlen in *; rewrite !length_app in *; cbn in Hu; lia|by eapply managed_released|].
    exists fa2. split; [done|]. eapply Released_perm; [|by eapply Released_trans].
    rewrite <- (app_nil_r (U ENTRY_COUNT)) at 2. rewrite <- (app_nil_r [p]) at 1. apply perm_middle.
Qed.

Lemma free_ok below : FreeOk (S below).
Proof. induction below as [|b IH]; apply free_level; [done|]. by intros _. Qed.

(** ** Theorems *)

Lemma zlen_bind {A} (f : Z → list A) n : zlen (range 0 n ≫= f) = sum_to (λ i, zlen (f i)) n.
Proof.
  unfold sum_to. induction (range 0 n) as [|i l IH]; [done|]. rewrite bind_cons. cbn [foldr]. rewrite <- IH. unfold zlen.
  rewrite length_app. lia.
Qed.

Lemma zlen_table_list below m : ∀ p, zlen (table_list offset (S below) m p) = 1 + tables_below offset (S below) m p.
Proof.
  assert (∀ n p, (∀ q, n ≠ O → zlen (table_list offset n m q) = 1 + tables_below offset n m q) →
    zlen (table_list offset (S n) m p) = 1 + tables_below offset (S n) m p) as Hstep.
  { intros n p Hn. change (table_list offset (S n) m p) with ((range 0 ENTRY_COUNT ≫= entry_tables n m p) ++ [p]).
    pose proof (zlen_bind (entry_tables n m p) ENTRY_COUNT) as E. unfold zlen in *. rewrite length_app, Nat2Z.inj_add, E. cbn [length tables_below].
    rewrite Z.add_comm. f_equal. apply sum_to_ext. intros i _. unfold entry_tables. cbn zeta. destruct (is_branch n _) eqn:Eb; [|done].
    apply Hn. by intros ->. }
  induction below as [|b IH]; intros p; apply Hstep; [done|]. intros q _. apply IH.
Qed.

Lemma resolve_user_page level m va e : ∀ p, resolve offset level m p va = Some (1%nat, e) → user_leaf e = true →
  next_table e ∈ user_pages offset level m p.
Proof.
  induction level as [|below IH]; intros p Hres Hu; [done|]. cbn [resolve] in Hres. cbn [user_pages].
  apply list_elem_of_bind. exists (level_index (S below) va). split; [|apply elem_of_range, level_index_range]. cbn zeta.
  destruct (_ =? 0) eqn:E0; [done|]. destruct (is_branch below _) eqn:Eb; [by apply IH|]. injection Hres as -> ->. rewrite Hu. by left.
Qed.

Lemma deep_copy_ok m fa p : hal_ready fa → zlen (bitmap fa) ≤ 2 ^ 34 → tables_in offset (taken fa) 4 m p →
  1 + tables_below offset 4 m p ≤ usable_frames fa →
  ∃ q m' fa', deep_copy offset (mkOffsetPT (p + offset) offset) (m, fa) = Ret (mkOffsetPT (q + offset) offset, (m', fa')) ∧
    Allotted fa fa' (1 + tables_below offset 4 m p) ∧ same_tree offset 4 m p m' q ∧ tables_in offset (handed_out fa fa') 4 m' q ∧
    agree_on offset (taken fa) m m' ∧ (∀ a, m' a = m a ∨ ∃ r, handed_out fa fa' r ∧ r mod 4096 = 0 ∧ r + offset ≤ a < r + offset + 4096) ∧
    (∀ r, 0 ≤ r → r mod 4096 = 0 → handed_out fa fa' r → r ∈ table_list offset 4 m' q).
Proof.
  intros Hr Hz Ht Hu. pose proof (tables_below_nonneg offset 4 m p) as Hb. pose proof Ht as [(_ & Hpm & Hpr) _].
  unfold deep_copy. rewrite physical_address_ok by lia. run. rewrite to_virtual by lia. run.
  destruct (new_from_allocate_ok fa Hr) as (q & fa1 & -> & HA & Hq & [Hqm Hqr] & Honly); [lia|done|]. run. cbn [level_4_table].
  destruct (copy_ok 3 m fa1 p q) as (m' & fa' & -> & [HA' Ho Hst Htab Hus]).
  { split; [apply HA|by rewrite (al_len _ _ _ HA)| |split; [apply Hq|]; split; [done|lia]|rewrite (al_usable _ _ _ HA); lia].
    eapply tables_in_mono; [|exact Ht]. intros r Hr0 _ Hrt. split; [by eapply taken_later|]. intros ->. apply Hrt, Hq. }
  run. exists q, m', fa'. pose proof (Allotted_trans _ _ _ _ _ HA HA') as HA2.
  assert (handed_out fa fa' q) as Hq2 by (eapply handed_out_mono; [lia|exact HA'|exact Hq]).
  split; [done|]. split; [exact HA2|]. split; [done|]. split_and!.
  - eapply tables_in_mono; [|exact Htab]. intros r Hr0 _ [->|Hrh]; [done|]. eapply handed_out_later; [done|exact HA|done].
  - eapply outside_agree; [exact Hqm|exact Ho|]. intros r Hr0 Hrt. split; [by intros ->; apply Hrt, Hq|].
    intros [Hf _]. by apply (taken_later _ _ _ r Hr0 HA Hrt).
  - intros a. destruct (Ho a) as [?|[?|(r & Hrh & Hrm & Hr0 & ?)]]; [by left|right; by exists q|].
    right. exists r. split; [eapply handed_out_later; [done|exact HA|done]|done].
  - intros r Hr0 Hrm [H1 H2]. destruct (decide (bit (bitmap fa1) (r / 4096) = true)) as [Hf|Hf]; [by apply Hus|].
    rewrite (Honly r Hr0 Hrm (conj H1 Hf)). cbn [table_list]. apply elem_of_app. right. by apply list_elem_of_singleton.
Qed.

(** [C9] [deep_copy] gives a table of its own with the same contents: every virtual address
    is mapped by the copy exactly as by the source, entry and level, all its tables are
    pages that were free, one for each table of the source, no other word of memory
    changes, so the source still maps what it mapped; it does not panic while there are
    that many frames. *)
Theorem deep_copy_spec (m : memory) (fa : BitmapFrameAllocator) (p : Z)
    (Hr : hal_ready fa) (Hz : zlen (bitmap fa) ≤ 2 ^ 34) (Ht : tables_in offset (taken fa) 4 m p)
    (Hu : 1 + tables_below offset 4 m p ≤ usable_frames fa) :
  ∃ q m' fa', deep_copy offset (mkOffsetPT (p + offset) offset) (m, fa) = Ret (mkOffsetPT (q + offset) offset, (m', fa')) ∧
    (∀ va, resolve offset 4 m' q va = resolve offset 4 m p va ∧ resolve offset 4 m' p va = resolve offset 4 m p va) ∧
    tables_in offset (handed_out fa fa') 4 m' q ∧ usable_frames fa' = usable_frames fa - (1 + tables_below offset 4 m p) ∧
    (∀ a, m' a = m a ∨ ∃ r, handed_out fa fa' r ∧ r mod 4096 = 0 ∧ r + offset ≤ a < r + offset + 4096).
Proof.
  destruct (deep_copy_ok m fa p) as (q & m' & fa' & E & HA & Hst & Htab & Hag & Ho & _); [done..|]. exists q, m', fa'.
  split; [done|]. split; [|split; [done|split; [apply HA|done]]]. intros va.
  split; [by apply (same_tree_facts offset)|]. by apply (same_tree_facts offset), (agree_tree offset (taken fa)).
Qed.

Lemma copy_then_free_ok (m : memory) (fa : BitmapFrameAllocator) (p : Z)
    (Hr : hal_ready fa) (Hz : zlen (bitmap fa) ≤ 2 ^ 34) (Ht : tables_in offset (taken fa) 4 m p)
    (Hu : 1 + tables_below offset 4 m p ≤ usable_frames fa)
    (Hm : Forall (managed fa) (user_pages offset 4 m p))
    (Hc : usable_frames fa + zlen (user_pages offset 4 m p) < 2 ^ 64) :
  ∃ new m' fa' fa'', deep_copy offset (mkOffsetPT (p + offset) offset) (m, fa) = Ret (new, (m', fa')) ∧
    free_user_page_table offset new (m', fa') = Ret (m', fa'') ∧
    (∀ k, 0 ≤ k → frame_free fa'' k ↔ frame_free fa k ∨ k ∈ (λ f, f / 4096) <$> user_pages offset 4 m p) ∧
    usable_frames fa'' = usable_frames fa + zlen (user_pages offset 4 m p).
Proof.
  destruct (deep_copy_ok m fa p) as (q & m' & fa' & -> & HA & Hst & Htab & Hag & Ho & Hus); [done..|].
  pose proof (proj2 (proj2 (same_tree_facts offset _ _ _ _ _ Hst))) as Eup. pose proof (proj1 (proj2 (same_tree_facts offset _ _ _ _ _ Hst))) as Etb.
  pose proof (zlen_table_list 3 m' q) as El. pose proof (al_usable _ _ _ HA) as Eu. pose proof (table_list_in offset _ _ _ _ Htab) as Htl.
  destruct (free_ok 3 m' fa' q) as (fa'' & E & [_ _ Hu2 Hf2]).
  - apply HA.
  - eapply tables_in_mono; [|exact Htab]. intros r Hr0 Hrm [Hf _]. unfold managed. rewrite (al_len _ _ _ HA).
    split; [done|]. destruct (decide (r / 4096 < 8 * zlen (bitmap fa))); [Z.div_mod_to_equations; lia|]. exfalso.
    unfold frame_free, bit in Hf. rewrite (proj2 (lookup_ge_None (bitmap fa) _)) in Hf; [done|]. unfold zlen in *. Z.div_mod_to_equations. lia.
  - rewrite Eup. eapply Forall_impl; [exact Hm|]. intros r. unfold managed. by rewrite (al_len _ _ _ HA).
  - rewrite Eup. unfold zlen in *. rewrite length_app. lia.
  - exists (mkOffsetPT (q + offset) offset), m', fa', fa''. split; [done|]. pose proof Htab as [(_ & _ & Hqr) _].
    unfold free_user_page_table. rewrite physical_address_ok by lia. run. rewrite E. run. split; [done|]. rewrite Eup in *. split.
    + intros k Hk. rewrite Hf2, fmap_app, elem_of_app by done. split.
      * intros [H|[(r & -> & Hin)%list_elem_of_fmap|H]]; [left; by eapply al_free|left|by right].
        rewrite Forall_forall in Htl. by apply Htl in Hin as [[? _] _].
      * intros [H|H]; [|tauto]. destruct (decide (bit (bitmap fa') k = true)) as [?|Hn]; [by left|]. right. left.
        apply list_elem_of_fmap. exists (k * 4096). rewrite Z.div_mul by lia. split; [done|].
        apply Hus; [lia|apply Z.mod_mul; lia|]. unfold handed_out, taken. by rewrite Z.div_mul by lia.
    + unfold zlen in *. rewrite length_app in *. lia.
Qed.

(** [C10] The table of a process that ends: releasing the copy made for it frees the pages of
    the copy and, besides them, exactly the 4 KiB pages that the source maps present,
    writable and open to user code; every other frame is free afterwards if and only if it was
    free before the process was made, and the counter of usable frames grows by the number
    of those pages. *)
Theorem copy_then_free (m : memory) (fa : BitmapFrameAllocator) (p : Z)
    (Hr : hal_ready fa) (Hz : zlen (bitmap fa) ≤ 2 ^ 34) (Ht : tables_in offset (taken fa) 4 m p)
    (Hu : 1 + tables_below offset 4 m p ≤ usable_frames fa)
    (Hm : Forall (managed fa) (user_pages offset 4 m p))
    (Hc : usable_frames fa + zlen (user_pages offset 4 m p) < 2 ^ 64) :
  ∃ new m' fa' fa'', deep_copy offset (mkOffsetPT (p + offset) offset) (m, fa) = Ret (new, (m', fa')) ∧
    free_user_page_table offset new (m', fa') = Ret (m', fa'') ∧
    (∀ k, 0 ≤ k → frame_free fa'' k ↔ frame_free fa k ∨ k ∈ (λ f, f / 4096) <$> user_pages offset 4 m p) ∧
    usable_frames fa'' = usable_frames fa + zlen (user_pages offset 4 m p).
Proof. by apply copy_then_free_ok. Qed.

Lemma user_data_leaf f : 0 ≤ f < 2 ^ 52 → f mod 4096 = 0 →
  user_leaf (Z.lor f (MappingType_flags UserData)) = true ∧ next_table (Z.lor f (MappingType_flags UserData)) = f.
Proof.
  intros Hf Hm. unfold MappingType_flags. rewrite !fl_union_spec.
  change (Z.lor (Z.lor (Z.lor PTF_PRESENT PTF_WRITABLE) PTF_USER_ACCESSIBLE) PTF_NO_EXECUTE) with (Z.land 0x8000_0000_0000_0007 FLAG_BITS).
  destruct (link_parts f 0x8000_0000_0000_0007 Hf Hm) as [-> E]. split; [|done]. unfold user_leaf. by rewrite E.
Qed.

(** A page that the kernel shares with its processes and maps with the flags of user data,
    as [init_heap] maps the kernel's heap, is given back to the frame allocator when a
    process ends, while the kernel's table, and every other process's, still maps it. *)
Theorem process_end_frees_heap (m : memory) (fa : BitmapFrameAllocator) (p va f : Z)
    (Hr : hal_ready fa) (Hz : zlen (bitmap fa) ≤ 2 ^ 34) (Ht : tables_in offset (taken fa) 4 m p)
    (Hu : 1 + tables_below offset 4 m p ≤ usable_frames fa)
    (Hm : Forall (managed fa) (user_pages offset 4 m p))
    (Hc : usable_frames fa + zlen (user_pages offset 4 m p) < 2 ^ 64)
    (Hf : 0 ≤ f < 2 ^ 52) (Hfm : f mod 4096 = 0)
    (Hmap : resolve offset 4 m p va = Some (1%nat, Z.lor f (MappingType_flags UserData))) :
  ∃ new m' fa' fa'', deep_copy offset (mkOffsetPT (p + offset) offset) (m, fa) = Ret (new, (m', fa')) ∧
    free_user_page_table offset new (m', fa') = Ret (m', fa'') ∧ frame_free fa'' (f / 4096) ∧
    resolve offset 4 m' p va = Some (1%nat, Z.lor f (MappingType_flags UserData)).
Proof.
  destruct (deep_copy_ok m fa p) as (q & m' & fa' & E & _ & _ & _ & Hag & _); [done..|].
  destruct (copy_then_free_ok m fa p) as (new & m1 & fa1 & fa'' & E1 & E2 & H & _); [done..|]. rewrite E in E1. injection E1 as <- <- <-.
  exists (mkOffsetPT (q + offset) offset), m', fa', fa''. split; [done|]. split; [done|]. split.
  - apply H; [by apply Z.div_pos; lia|]. right. apply list_elem_of_fmap. exists f. split; [done|].
    destruct (user_data_leaf f Hf Hfm) as [Hl En]. rewrite <- En. by apply (resolve_user_page 4 m va).
  - rewrite <- Hmap. by apply (same_tree_facts offset), (agree_tree offset (taken fa)).
Qed.

End Copy.

(** ** Examples: a table that maps one page of the heap *)

Section Examples.
#[local] Existing Instances dev Reference.bit_field Reference.bitflags Reference.x86_addr Reference.x86_paging.

Definition lin : Z := 0xffff_8000_0000_0000.

Lemma lin_ok : offset_ok lin.
Proof. vm_compute. split; discriminate. Qed.

(** Tables in the frames 1 to 4, the mapped page in frame 5; the first entry of each table
    is used. *)
Definition heap_memory : memory :=
  let link m p e := write_word m (p + lin) e in
  link (link (link (link (λ _, 0) 0x1000 0x2007) 0x2000 0x3007) 0x3000 0x4007) 0x4000 0x8000_0000_0000_5007.

(** Frames 6 to 15 are free. *)
Definition heap_frames : BitmapFrameAllocator := mkAlloc [0xC0; 0xFF; 0; 0; 0; 0; 0; 0; 0; 0; 0; 0; 0; 0; 0; 0] 10 6.

Lemma heap_frames_ready : hal_ready heap_frames ∧ zlen (bitmap heap_frames) ≤ 2 ^ 34.
Proof.
  split; [|vm_compute; discriminate]. split.
  - split; [repeat (apply Forall_cons_2; [lia|]); apply Forall_nil_2|]. vm_compute. repeat split; discriminate.
  - split; [cbn; lia|]. split; [right; split; vm_compute; reflexivity|]. vm_compute. discriminate.
Qed.

(** [tables_in] for the pages below 2^46 that are not free, as a test. *)
Fixpoint tables_check (fa : BitmapFrameAllocator) (level : nat) (m : memory) (p : Z) : bool :=
  match level with
  | O => true
  | S below => negb (bit (bitmap fa) (p / 4096)) && (p mod 4096 =? 0) && in_range 46 p &&
      forallb (λ i, let e := entry_at lin m p i in in_range 64 e && (if is_branch below e then tables_check fa below m (next_table e) else true)) (range 0 ENTRY_COUNT)
  end.

Lemma tables_check_ok fa level m : ∀ p, tables_check fa level m p = true → tables_in lin (taken fa) level m p.
Proof.
  induction level as [|below IH]; intros p; cbn [tables_check tables_in]; [done|]. rewrite !andb_true_iff, forallb_forall, in_range_true.
  intros [[[H1 H2] H3] H4]. split.
  - split; [|split; [by apply Z.eqb_eq|done]]. unfold taken, frame_free. by apply not_true_iff_false, negb_true_iff.
  - intros i Hi. specialize (H4 i (proj1 (list_elem_of_In _ _) (proj2 (elem_of_range _ _ _) Hi))). cbn zeta in H4.
    rewrite andb_true_iff, in_range_true in H4. destruct H4 as [He Hb]. split; [done|]. intros E. rewrite E in Hb. by apply IH.
Qed.

Lemma heap_tables : tables_in lin (taken heap_frames) 4 heap_memory 0x1000 ∧ tables_below lin 4 heap_memory 0x1000 = 3 ∧
  user_pages lin 4 heap_memory 0x1000 = [0x5000].
Proof. split; [apply tables_check_ok; vm_compute; reflexivity|]. vm_compute. split; reflexivity. Qed.

Lemma heap_managed : Forall (managed heap_frames) [0x5000] ∧ usable_frames heap_frames + zlen [0x5000] < 2 ^ 64.
Proof. split; [apply Forall_singleton; vm_compute; split; [discriminate|reflexivity]|vm_compute; reflexivity]. Qed.

Lemma deep_copy_spec_witness : ∃ q m' fa', deep_copy lin (mkOffsetPT (0x1000 + lin) lin) (heap_memory, heap_frames) = Ret (mkOffsetPT (q + lin) lin, (m', fa')) ∧
  resolve lin 4 m' q 0x123 = resolve lin 4 heap_memory 0x1000 0x123 ∧ usable_frames fa' = 6.
Proof.
  destruct heap_frames_ready as [H1 H2], heap_tables as (H3 & H4 & _).
  destruct (deep_copy_spec lin lin_ok heap_memory heap_frames 0x1000 H1 H2 H3) as (q & m' & fa' & E & Hr & _ & Hu & _); [rewrite H4; cbn; lia|].
  exists q, m', fa'. split; [done|]. split; [apply Hr|]. by rewrite Hu, H4.
Defined.

Lemma copy_then_free_witness : ∃ new m' fa' fa'', deep_copy lin (mkOffsetPT (0x1000 + lin) lin) (heap_memory, heap_frames) = Ret (new, (m', fa')) ∧
  free_user_page_table lin new (m', fa') = Ret (m', fa'') ∧ (∀ k, 0 ≤ k → frame_free fa'' k ↔ frame_free heap_frames k ∨ k = 5) ∧ usable_frames fa'' = 11.
Proof.
  destruct heap_frames_ready as [H1 H2], heap_tables as (H3 & H4 & H5).
  destruct (copy_then_free lin lin_ok heap_memory heap_frames 0x1000 H1 H2 H3) as (new & m' & fa' & fa'' & E1 & E2 & Hf & Hu);
    [rewrite H4; cbn; lia|rewrite H5; apply heap_managed|rewrite H5; apply heap_managed|].
  exists new, m', fa', fa''. split; [done|]. split; [done|]. rewrite H5 in Hf, Hu. split; [|done].
  intros k Hk. rewrite (Hf k Hk). cbn. by rewrite list_elem_of_singleton.
Defined.

Lemma process_end_frees_heap_witness : ∃ new m' fa' fa'', deep_copy lin (mkOffsetPT (0x1000 + lin) lin) (heap_memory, heap_frames) = Ret (new, (m', fa')) ∧
  free_user_page_table lin new (m', fa') = Ret (m', fa'') ∧ frame_free fa'' 5 ∧ resolve lin 4 m' 0x1000 0 = Some (1%nat, 0x8000_0000_0000_5007).
Proof.
  destruct heap_frames_ready as [H1 H2], heap_tables as (H3 & H4 & H5).
  destruct (process_end_frees_heap lin lin_ok heap_memory heap_frames 0x1000 0 0x5000 H1 H2 H3) as (new & m' & fa' & fa'' & E1 & E2 & Hf & Hmap);
    [rewrite H4; cbn; lia|rewrite H5; apply heap_managed|rewrite H5; apply heap_managed|lia|done|vm_compute; reflexivity|].
  exists new, m', fa', fa''. split; [exact E1|]. split; [exact E2|]. split; [exact Hf|exact Hmap].
Defined.

End Examples.
