(* ===== verification/KernelMemory.v ===== *)
(** * The kernel's memory manager

    [MemoryManager] of [kernel/src/memory/manager.rs], the heap and stacks it maps
    ([memory/kernel_heap.rs], [task/stack.rs]), writing through a page table
    ([memory/page_table.rs]) and loading a program ([ProcessBinary] of [task/process.rs]).
    The mapper of the [x86_64] crate is a class with the laws of its documentation. *)

From S2P Require Import Prelude Crates Frame PageTable KvmHal KernelPaging.

(** ** [x86_64]: the mapper

    What a page table maps a page of 4 KiB to: a frame, or a part of a huge page. [page]
    and [frame] are start addresses. *)

Inductive mapping :=
  | Small (frame flags : Z)
  | Huge (size base flags : Z).

Inductive MapToError := FrameAllocationFailed | ParentEntryHugePage | PageAlreadyMapped (frame : Z).
Inductive UnmapError := ParentHuge | PageNotMapped | InvalidFrameAddress.

Definition Size2MiB : Z := 2 ^ 21.
Definition Size1GiB : Z := 2 ^ 30.

(** [Page::<S>::containing_address] *)
Definition containing (size a : Z) : Z := a / size * size.

Class PageMapper := {
  PT : Type;
  view : PT → Z → option mapping;
  map_to : PT → BitmapFrameAllocator → Z → Z → Z → out (result MapToError unit * (PT * BitmapFrameAllocator));
  unmap : PT → Z → result UnmapError Z * PT;
  unmap_huge : PT → Z → Z → result UnmapError Z * PT;
  translate_addr : PT → Z → option Z;
}.

(** A new mapping takes at most three frames for the tables on its way, and fails without
    an effect on what is mapped. *)
Class PageMapperLaws (M : PageMapper) {P : Profile} {BF : BitField} {XA : X86Addr} := {
  map_to_spec pt fa page frame flags : hal_ready fa → zlen (bitmap fa) ≤ 2 ^ 34 → page mod 4096 = 0 →
    ∃ r pt' fa' n, map_to pt fa page frame flags = Ret (r, (pt', fa')) ∧ Allotted fa fa' n ∧ 0 ≤ n ≤ 3 ∧
      match r with
      | Ok _ => view pt page = None ∧ ∀ q, view pt' q = if q =? page then Some (Small frame flags) else view pt q
      | Err e => (∀ q, view pt' q = view pt q) ∧
          match e with
          | FrameAllocationFailed => view pt page = None ∧ usable_frames fa' = 0
          | PageAlreadyMapped f => ∃ fl, view pt page = Some (Small f fl)
          | ParentEntryHugePage => ∃ s b fl, view pt page = Some (Huge s b fl)
          end
      end;
  unmap_spec pt page : page mod 4096 = 0 →
    match view pt page with
    | Some (Small f _) => ∃ pt', unmap pt page = (Ok f, pt') ∧ ∀ q, view pt' q = if q =? page then None else view pt q
    | _ => ∃ e pt', unmap pt page = (Err e, pt') ∧ ∀ q, view pt' q = view pt q
    end;
  unmap_huge_spec pt size page : page mod size = 0 →
    match view pt page with
    | Some (Huge s b _) =>
        if s =? size then ∃ pt', unmap_huge pt size page = (Ok b, pt') ∧ ∀ q, view pt' q = if containing size q =? page then None else view pt q
        else ∃ e pt', unmap_huge pt size page = (Err e, pt') ∧ ∀ q, view pt' q = view pt q
    | _ => ∃ e pt', unmap_huge pt size page = (Err e, pt') ∧ ∀ q, view pt' q = view pt q
    end;
  (** A huge page is one page. *)
  huge_whole pt page s b fl q : view pt page = Some (Huge s b fl) → q mod 4096 = 0 → containing s q = containing s page →
    (s = Size2MiB ∨ s = Size1GiB) ∧ view pt q = Some (Huge s b fl);
  translate_spec pt a : translate_addr pt a =
    match view pt (containing 4096 a) with
    | Some (Small f _) => Some (f + a mod 4096)
    | Some (Huge s b _) => Some (b + a mod s)
    | None => None
    end;
}.

(** ** [MemoryManager]

    The pages are of 4 KiB, the default of its type parameter. A state is a page table
    and the frame allocator. *)

Section Manager.
Context {P : Profile} {BF : BitField} {BL : Bitflags} {XA : X86Addr} {M : PageMapper}.
Context (offset : Z).

Abbreviation state := (PT * BitmapFrameAllocator)%type.

(** [VirtAddr - u64] panics when the difference is not an address. *)
Definition VirtAddr_sub (a b : Z) : out Z := if b <=? a then VirtAddr_new (a - b) else Panic.

(** [Page::range_inclusive(start, end)] *)
Definition page_range (start_page end_page : Z) : list Z :=
  (λ i, 4096 * i) <$> range (start_page / 4096) (end_page / 4096 + 1).

(** The range of pages both functions compute. *)
Definition range_of (start_address length : Z) : out (list Z) :=
  let start_page := containing 4096 start_address in
  a ← VirtAddr_add start_address length;
  a ← VirtAddr_sub a 1;
  Ret (page_range start_page (containing 4096 a)).

Fixpoint alloc_pages (pages : list Z) (flags : Z) (st : state) : out (result MapToError unit * state) :=
  match pages with
  | [] => Ret (Ok tt, st)
  | page :: pages =>
      let '(pt, fa) := st in
      '(frame, fa) ← allocate_frame fa;
      match frame with
      | None => Ret (Err FrameAllocationFailed, (pt, fa))
      | Some frame =>
          let? (_, st) := map_to pt fa page frame flags in
          alloc_pages pages flags st
      end
  end.

Definition alloc_range (start_address length flags : Z) (st : state) : out (result MapToError unit * state) :=
  pages ← range_of start_address length;
  alloc_pages pages flags st.

(** The body of the loop of [dealloc_range]. *)
Definition dealloc_step (st : state) (page : Z) : out (PT * BitmapFrameAllocator) :=
  let '(pt, fa) := st in
  match unmap pt page with
  | (Err _, _) => Panic
  | (Ok frame, pt) => fa ← deallocate_frame fa frame; Ret (pt, fa)
  end.

Definition dealloc_range (start_address length : Z) (st : state) : out state :=
  pages ← range_of start_address length;
  foldM dealloc_step st pages.

Definition alloc_for_dma (cnt : Z) (fa : BitmapFrameAllocator) : out (Z * Z * BitmapFrameAllocator) :=
  '(phys, fa) ← allocate_frames fa cnt;
  phys ← unwrap phys;
  phys ← PhysAddr_new phys;
  virt ← convert_physical_to_virtual offset phys;
  Ret (phys, virt, fa).

Definition dealloc_for_dma (virt_addr cnt : Z) (fa : BitmapFrameAllocator) : out BitmapFrameAllocator :=
  phys ← convert_virtual_to_physical offset virt_addr;
  deallocate_frames fa (PhysFrame_containing_address phys) cnt.

(** [expect] on the result of a second [map_to]. *)
Definition map_again (st : state) (virt phys flags : Z) : out state :=
  v ← VirtAddr_new virt;
  p ← PhysAddr_new phys;
  '(r, st) ← map_to (fst st) (snd st) (containing 4096 v) (PhysFrame_containing_address p) flags;
  match r with Ok _ => Ret st | Err _ => Panic end.

Definition do_map_to (virt phys flags : Z) (st : state) : out state :=
  v ← VirtAddr_new virt;
  p ← PhysAddr_new phys;
  '(result, st) ← map_to (fst st) (snd st) (containing 4096 v) (PhysFrame_containing_address p) flags;
  match result with
  | Ok _ => Ret st
  | Err FrameAllocationFailed => Panic
  | Err (PageAlreadyMapped frame) =>
      a ← unwrap (translate_addr (fst st) v);
      if a =? p then Ret st
      else
        match unmap (fst st) (containing 4096 v) with
        | (Err _, _) => Panic
        | (Ok _, pt) => map_again (pt, snd st) virt phys flags
        end
  | Err ParentEntryHugePage =>
      pt ← match unmap_huge (fst st) Size2MiB (containing Size2MiB v) with
        | (Ok _, pt) => Ret pt
        | (Err _, pt) =>
            match unmap_huge pt Size1GiB (containing Size1GiB v) with
            | (Ok _, pt) => Ret pt
            | (Err _, _) => Panic
            end
        end;
      map_again (pt, snd st) virt phys flags
  end.

Definition do_map_phys (virt flags : Z) (st : state) : out state :=
  '(frame, fa) ← allocate_frame (snd st);
  phys ← unwrap frame;
  do_map_to virt phys flags (fst st, fa).

Definition map_virt_to_phys (virt phys size flags : Z) (st : state) : out state :=
  foldM (λ st i,
    d ← mul_u 64 i 4096;
    v ← add_u 64 virt d;
    p ← add_u 64 phys d;
    do_map_to v p flags st) st (range 0 (size / 4096)).

Definition map_phys (virt size flags : Z) (st : state) : out state :=
  foldM (λ st i,
    d ← mul_u 64 i 4096;
    v ← add_u 64 virt d;
    do_map_phys v flags st) st (range 0 (size / 4096)).

(** ** The heap and the user stack *)

Definition HEAP_START : Z := 0x114514000000.
Definition HEAP_SIZE : Z := 64 * 1024 * 1024.

(** The mapping of [init_heap]; the allocator that is then given the range is a crate. *)
Definition init_heap (st : state) : out state :=
  heap_start ← VirtAddr_new HEAP_START;
  '(r, st) ← alloc_range heap_start HEAP_SIZE (MappingType_flags UserData) st;
  match r with Ok _ => Ret st | Err _ => Panic end.

Definition USER_STACK_END : Z := 0x7ffffefff000.
Definition USER_STACK_SIZE : Z := 256 * 1024.

Definition UserStack_new (st : state) : out (Z * state) :=
  end_address ← VirtAddr_new USER_STACK_END;
  start ← VirtAddr_sub end_address USER_STACK_SIZE;
  '(r, st) ← alloc_range start USER_STACK_SIZE (MappingType_flags UserData) st;
  match r with Ok _ => Ret (end_address, st) | Err _ => Panic end.

(** ** Writing through a page table

    [ram] is the memory as bytes, by the virtual address in the linear map. *)

Definition write_to_mapped_address (pt : PT) (ram : Z → Z) (buffer : list Z) (address : Z) : out (Z → Z) :=
  foldM (λ ram '(i, byte),
    a ← VirtAddr_add address i;
    physical_address ← unwrap (translate_addr pt a);
    virtual_address ← convert_physical_to_virtual offset physical_address;
    Ret (λ x, if x =? virtual_address then byte else ram x)) ram (imap (λ i b, (Z.of_nat i, b)) buffer).

(** ** [ProcessBinary::map_segments]

    A segment of a parsed program, as the [object] crate gives it. *)

Record Segment := mkSegment { seg_address : Z; seg_size : Z; seg_data : option (list Z) }.

Definition map_segments (segments : list Segment) (st : state * (Z → Z)) : out (state * (Z → Z)) :=
  foldM (λ '(st, ram) segment,
    a ← VirtAddr_new (seg_address segment);
    '(r, st) ← alloc_range a (seg_size segment) (MappingType_flags UserCode) st;
    match r with
    | Err _ => Panic
    | Ok _ =>
        match seg_data segment with
        | None => Ret (st, ram)
        | Some data =>
            a ← VirtAddr_new (seg_address segment);
            ram ← write_to_mapped_address (fst st) ram data a;
            Ret (st, ram)
        end
    end) st segments.

End Manager.

(** ** Ranges of pages *)

Section Proofs.
Context {P : Profile} {BF : BitField} {BL : Bitflags} {XA : X86Addr} {M : PageMapper} {ML : PageMapperLaws M}.
Context (offset : Z) (Hoff : offset_ok offset).

(** A range in the lower half of the address space. *)
Definition in_lower (start length : Z) : Prop := 0 ≤ start ∧ 1 ≤ length ∧ start + length < 2 ^ 47.

Definition pages_of (start length : Z) : list Z := page_range (containing 4096 start) (containing 4096 (start + length - 1)).

Lemma range_of_ok start length : in_lower start length → range_of start length = Ret (pages_of start length).
Proof.
  intros (H1 & H2 & H3). unfold range_of, VirtAddr_add, VirtAddr_sub. rewrite (proj2 (in_range_true 64 _)) by lia.
  rewrite VirtAddr_new_ok by lia. run. case_bool; [|lia]. by rewrite VirtAddr_new_ok by lia.
Qed.

Lemma elem_of_pages start length q : in_lower start length →
  q ∈ pages_of start length ↔ q mod 4096 = 0 ∧ start / 4096 ≤ q / 4096 ≤ (start + length - 1) / 4096.
Proof.
  intros (H1 & H2 & H3). unfold pages_of, page_range, containing. rewrite !Z.div_mul by lia. rewrite list_elem_of_fmap. split.
  - intros (i & -> & Hi%elem_of_range). rewrite (Z.mul_comm 4096), Z.mod_mul, Z.div_mul by lia. lia.
  - intros [Hm Hq]. exists (q / 4096). rewrite elem_of_range. Z.div_mod_to_equations. lia.
Qed.

Lemma pages_NoDup start length : NoDup (pages_of start length).
Proof. apply NoDup_fmap_2; [intros x y; lia|apply NoDup_seqZ]. Qed.

Lemma pages_aligned start length : Forall (λ q, q mod 4096 = 0) (pages_of start length).
Proof. apply Forall_fmap, Forall_true. intros i. cbn. rewrite Z.mul_comm. by apply Z.mod_mul. Qed.

Lemma page_in start length i : in_lower start length → 0 ≤ i < length → containing 4096 (start + i) ∈ pages_of start length.
Proof.
  intros HL Hi. apply elem_of_pages; [done|]. destruct HL as (? & ? & ?). unfold containing. rewrite Z.mod_mul, Z.div_mul by lia.
  split; [done|]. split; apply Z.div_le_mono; lia.
Qed.

(** The frame that a list of new mappings gives a page. *)
Fixpoint frame_of (l : list (Z * Z)) (q : Z) : option Z :=
  match l with
  | [] => None
  | (page, f) :: l => if q =? page then Some f else frame_of l q
  end.

Definition with_pages (pt : PT) (l : list (Z * Z)) (flags q : Z) : option mapping :=
  match frame_of l q with Some f => Some (Small f flags) | None => view pt q end.

(** What the pages of a range were given: pages that were not mapped, frames that were
    free, each once. *)
Record Ranged (pt : PT) (fa : BitmapFrameAllocator) (l : list (Z * Z)) (flags : Z) (pt' : PT) (fa' : BitmapFrameAllocator) : Prop := {
  ra_view q : view pt' q = with_pages pt l flags q;
  ra_new q : q ∈ l.*1 → view pt q = None;
  ra_frames : NoDup l.*2;
  ra_taken : Forall (λ f, handed_out fa fa' f ∧ f mod 4096 = 0 ∧ 4096 ≤ f < 2 ^ 46) l.*2;
}.

Lemma frame_of_None l q : frame_of l q = None ↔ q ∉ l.*1.
Proof.
  induction l as [|[page f] l IH]; cbn; [split; [intros _; apply not_elem_of_nil|done]|]. rewrite elem_of_cons. case_bool; [subst; split; [done|tauto]|].
  rewrite IH. split; [tauto|]. intros H. tauto.
Qed.

Lemma frame_of_in l q f : frame_of l q = Some f → (q, f) ∈ l.
Proof.
  induction l as [|[page g] l IH]; cbn; [done|]. case_bool; [intros [= <-]; subst; by left|]. intros H. right. by apply IH.
Qed.

Lemma Ranged_nil pt fa flags : Ranged pt fa [] flags pt fa.
Proof. split; [done|by intros q ?%elem_of_nil|apply NoDup_nil_2|done]. Qed.

Lemma Ranged_cons pt fa fa1 fa2 n page f flags pt1 l pt' fa' : Allotted fa fa1 1 → handed_out fa fa1 f → f mod 4096 = 0 → 4096 ≤ f < 2 ^ 46 →
  Allotted fa1 fa2 n → view pt page = None → (∀ q, view pt1 q = if q =? page then Some (Small f flags) else view pt q) →
  ∀ k, Allotted fa2 fa' k → Ranged pt1 fa2 l flags pt' fa' → Ranged pt fa ((page, f) :: l) flags pt' fa'.
Proof.
  intros HA Hf Hfm Hfr HA2 Hv Hv1 k HA3 [Rv Rn Rf Rt]. pose proof (Allotted_trans _ _ _ _ _ HA HA2) as HA02. split.
  - intros q. rewrite Rv. unfold with_pages. cbn [frame_of]. rewrite Hv1. case_bool; [|done]. subst.
    destruct (frame_of l page) eqn:E; [|done]. exfalso. assert (page ∈ l.*1) as Hin.
    { apply list_elem_of_fmap. exists (page, z). split; [done|]. by apply frame_of_in. }
    apply Rn in Hin. rewrite Hv1, Z.eqb_refl in Hin. done.
  - intros q. cbn. rewrite elem_of_cons. intros [->|Hin]; [done|]. apply Rn in Hin. rewrite Hv1 in Hin. revert Hin. by case_bool.
  - cbn. apply NoDup_cons_2; [|done]. intros Hin. rewrite Forall_forall in Rt. apply Rt in Hin as [[Hfree _] _].
    apply (taken_later _ _ _ f ltac:(lia) HA2 (proj2 Hf)), Hfree.
  - cbn. apply Forall_cons_2.
    + split; [|done]. eapply handed_out_mono; [lia|exact HA3|]. eapply handed_out_mono; [lia|exact HA2|done].
    + eapply Forall_impl; [exact Rt|]. intros g (Hg & Hgm & Hgr). split; [|done]. eapply handed_out_later; [lia|exact HA02|done].
Qed.

(** Why a range was not mapped to its end. *)
Definition range_error (pt : PT) (fa : BitmapFrameAllocator) (pages : list Z) (k : nat) (e : MapToError) : Prop :=
  match e with
  | FrameAllocationFailed => usable_frames fa = 0
  | PageAlreadyMapped f => ∃ page fl, pages !! k = Some page ∧ view pt page = Some (Small f fl)
  | ParentEntryHugePage => ∃ page size b fl, pages !! k = Some page ∧ view pt page = Some (Huge size b fl)
  end.

(** The general behaviour: a part [l] of the range, from its start, is mapped. *)
Lemma alloc_pages_ok pages flags : Forall (λ q, q mod 4096 = 0) pages → ∀ pt fa, hal_ready fa → zlen (bitmap fa) ≤ 2 ^ 34 →
  ∃ r l pt' fa' n, alloc_pages pages flags (pt, fa) = Ret (r, (pt', fa')) ∧ Allotted fa fa' n ∧ zlen l ≤ n ≤ 4 * zlen pages ∧
    l.*1 = take (length l) pages ∧ Ranged pt fa l flags pt' fa' ∧
    match r with Ok _ => length l = length pages | Err e => range_error pt' fa' pages (length l) e end.
Proof.
  induction 1 as [|page pages Hm Hal IH]; intros pt fa Hr Hz; cbn [alloc_pages].
  { exists (Ok tt), [], pt, fa, 0. split; [done|]. split; [by apply Allotted_refl|]. split; [unfold zlen; cbn; lia|]. split; [done|].
    split; [apply Ranged_nil|done]. }
  assert (zlen (page :: pages) = 1 + zlen pages) as Hzl by (unfold zlen; cbn; lia). pose proof (zlen_nonneg pages) as Hz0.
  destruct (decide (usable_frames fa = 0)) as [E0|E0].
  { exists (Err FrameAllocationFailed), [], pt, fa, 0. unfold allocate_frame. rewrite E0. run. split; [done|]. split; [by apply Allotted_refl|].
    split; [unfold zlen in *; cbn [length] in *; lia|]. split; [done|]. by split; [apply Ranged_nil|]. }
  destruct (take_frame fa Hr) as (f & fa1 & -> & HA & Hf & [Hfm Hfr] & _); [destruct Hr as ((_ & _ & ? & _) & _); lia|done|]. run.
  destruct (map_to_spec pt fa1 page f flags) as (r & pt1 & fa2 & n & -> & HA2 & Hn & H); [apply HA|by rewrite (al_len _ _ _ HA)|done|].
  pose proof (Allotted_trans _ _ _ _ _ HA HA2) as HA02. destruct r as [[]|e]; run.
  - destruct H as [Hv Hv1]. destruct (IH pt1 fa2) as (r & l & pt' & fa' & k & E & HA3 & Hk & Hl & HR & Hrr); [apply HA02|by rewrite (al_len _ _ _ HA02)|].
    exists r, ((page, f) :: l), pt', fa', (1 + n + k). split; [exact E|]. split; [by eapply Allotted_trans|]. split; [unfold zlen in *; cbn [length] in *; lia|].
    split; [cbn; by f_equal|]. split; [by eapply Ranged_cons|]. destruct r as [[]|e]; [cbn; by rewrite Hrr|done].
  - destruct H as [Hv He]. exists (Err e), [], pt1, fa2, (1 + n). split; [done|]. split; [done|]. split; [unfold zlen in *; cbn [length] in *; lia|]. split; [done|]. split.
    + split; [intros q; apply Hv|by intros q ?%elem_of_nil|apply NoDup_nil_2|done].
    + destruct e; cbn; [apply He| |]; destruct He as (? & He); [destruct He as (? & ? & He)|]; repeat eexists; rewrite Hv; exact He.
Qed.

Lemma alloc_range_ok start length flags pt fa : in_lower start length → hal_ready fa → zlen (bitmap fa) ≤ 2 ^ 34 →
  (∀ q, q ∈ pages_of start length → view pt q = None) → 4 * zlen (pages_of start length) < usable_frames fa →
  ∃ l pt' fa' n, alloc_range start length flags (pt, fa) = Ret (Ok tt, (pt', fa')) ∧ Allotted fa fa' n ∧
    zlen (pages_of start length) ≤ n ≤ 4 * zlen (pages_of start length) ∧ l.*1 = pages_of start length ∧ Ranged pt fa l flags pt' fa'.
Proof.
  intros HL Hr Hz Hv Hu. unfold alloc_range. rewrite range_of_ok by done. run.
  destruct (alloc_pages_ok _ flags (pages_aligned start length) pt fa Hr Hz) as (r & l & pt' & fa' & n & E & HA & Hn & Hl & HR & Hrr).
  exists l, pt', fa', n. destruct r as [[]|e].
  - split; [done|]. split; [done|]. split; [unfold zlen in *; lia|]. split; [|done]. by rewrite Hl, Hrr, firstn_all.
  - exfalso. assert (∀ page, pages_of start length !! List.length l = Some page → view pt' page = None) as Hno.
    { intros page Hp. rewrite (ra_view _ _ _ _ _ _ HR). unfold with_pages. rewrite (proj2 (frame_of_None l page)).
      - apply Hv. by eapply list_elem_of_lookup_2.
      - rewrite Hl. pose proof (pages_NoDup start length) as Hnd. rewrite <- (take_drop_middle _ _ _ Hp) in Hnd.
        apply NoDup_app in Hnd as (_ & Hnd & _). intros Hin. apply (Hnd _ Hin). by left. }
    destruct e; cbn in Hrr.
    + rewrite (al_usable _ _ _ HA) in Hrr. lia.
    + destruct Hrr as (page & s & b & fl & Hp & Hvp). by rewrite Hno in Hvp.
    + destruct Hrr as (page & fl & Hp & Hvp). by rewrite Hno in Hvp.
Qed.

(** *** Unmapping *)

Lemma dealloc_pages_ok (l : list (Z * Z)) : Forall (λ q, q mod 4096 = 0) l.*1 → NoDup l.*1 → ∀ pt fa, alloc_ok fa →
  Forall (managed fa) l.*2 → usable_frames fa + zlen l < 2 ^ 64 → (∀ q f, (q, f) ∈ l → ∃ fl, view pt q = Some (Small f fl)) →
  ∃ pt' fa', foldM dealloc_step (pt, fa) l.*1 = Ret (pt', fa') ∧ Released fa fa' l.*2 ∧
    ∀ q, view pt' q = if decide (q ∈ l.*1) then None else view pt q.
Proof.
  induction l as [|[page f] l IH]; intros Hal Hnd pt fa Hok Hm Hu Hv; cbn [fmap list_fmap fst snd foldM] in *.
  { exists pt, fa. split; [done|]. split; [by apply Released_refl|]. intros q. rewrite decide_False; [done|apply not_elem_of_nil]. }
  apply Forall_cons in Hal as [Hpm Hal]. apply NoDup_cons in Hnd as [Hni Hnd]. apply Forall_cons in Hm as [Hfm Hm].
  assert (zlen ((page, f) :: l) = 1 + zlen l) as Hz by (unfold zlen; cbn; lia). pose proof (zlen_nonneg l).
  destruct (Hv page f) as [fl Hpv]; [by left|]. pose proof (unmap_spec pt page Hpm) as HU. rewrite Hpv in HU. destruct HU as (pt1 & E1 & Hv1).
  cbn [dealloc_step]. rewrite E1. destruct (deallocate_ok fa f) as (fa1 & -> & HR); [done|lia|done|]. run.
  destruct (IH Hal Hnd pt1 fa1) as (pt' & fa' & E & HR' & Hv'); [apply HR| | | |].
  - eapply Forall_impl; [exact Hm|]. intros g. by eapply managed_released.
  - rewrite (re_usable _ _ _ HR). unfold zlen in *. cbn [length]. lia.
  - intros q g Hin. rewrite Hv1. destruct (Hv q g) as [fl' Hq]; [by right|]. exists fl'. case_bool; [|done]. subst. exfalso. apply Hni.
    apply list_elem_of_fmap. by exists (page, g).
  - exists pt', fa'. split; [exact E|]. split; [exact (Released_trans _ _ _ [f] l.*2 HR HR')|]. intros q. rewrite Hv', Hv1.
    destruct (decide (q ∈ l.*1)) as [Hin|Hin]; [rewrite decide_True; [done|by right]|].
    case_bool; [subst; rewrite decide_True; [done|by left]|]. rewrite decide_False; [done|]. rewrite elem_of_cons. tauto.
Qed.

(** *** Bytes through the table *)

(** [t i] is the physical address of byte [i]. *)
Lemma write_ok pt ram buffer address (t : Z → Z) : 0 ≤ address → address + zlen buffer ≤ 2 ^ 47 →
  (∀ i, 0 ≤ i < zlen buffer → translate_addr pt (address + i) = Some (t i) ∧ 0 ≤ t i < 2 ^ 46) →
  (∀ i j, 0 ≤ i < zlen buffer → 0 ≤ j < zlen buffer → t i = t j → i = j) →
  ∃ ram', write_to_mapped_address offset pt ram buffer address = Ret ram' ∧
    (∀ i b, buffer !! Z.to_nat i = Some b → 0 ≤ i → ram' (t i + offset) = b) ∧
    (∀ x, (∀ i, 0 ≤ i < zlen buffer → x ≠ t i + offset) → ram' x = ram x).
Proof.
  intros Ha. induction buffer as [|b buffer IH] using rev_ind; intros Hlen Ht Hinj; [by exists ram|].
  assert (zlen (buffer ++ [b]) = zlen buffer + 1) as Hz by (unfold zlen; rewrite length_app; cbn; lia). pose proof (zlen_nonneg buffer).
  destruct IH as (ram1 & E & Hin & Hout); [lia|intros; apply Ht; lia|intros; apply Hinj; lia|].
  assert (imap (λ i (b : Z), (Z.of_nat i, b)) (buffer ++ [b]) = imap (λ i b, (Z.of_nat i, b)) buffer ++ [(zlen buffer, b)]) as Ei
    by (rewrite imap_app; f_equal; cbn; by rewrite Nat.add_0_r).
  unfold write_to_mapped_address in *. rewrite Ei, foldM_snoc, E. run.
  destruct (Ht (zlen buffer) ltac:(lia)) as [Et Hr]. unfold VirtAddr_add. rewrite (proj2 (in_range_true 64 _)) by lia.
  rewrite VirtAddr_new_ok by lia. run. rewrite Et. run. rewrite to_virtual by done. run. eexists. split; [done|]. split.
  - intros i x Hx Hi. apply lookup_app_Some in Hx as [Hx|[Hge Hx]].
    + pose proof (lookup_lt_Some _ _ _ Hx). case_bool; [|by apply Hin]. exfalso. assert (i = zlen buffer); [|unfold zlen in *; lia].
      apply Hinj; [unfold zlen in *; lia..|lia].
    + apply list_lookup_singleton_Some in Hx as [Hx ->]. assert (i = zlen buffer) as -> by (unfold zlen; lia). by rewrite Z.eqb_refl.
  - intros x Hx. case_bool; [exfalso; by eapply (Hx (zlen buffer)); [lia|]|]. apply Hout. intros i Hi. apply Hx. lia.
Qed.

(** *** Loading a program *)

Definition seg_pages (sg : Segment) : list Z := pages_of (seg_address sg) (seg_size sg).

Definition seg_ok (sg : Segment) : Prop :=
  in_lower (seg_address sg) (seg_size sg) ∧ ∀ data, seg_data sg = Some data → zlen data ≤ seg_size sg.

(** The byte [i] of a segment in the file. *)
Definition seg_byte (sg : Segment) (i : Z) : option Z := data ← seg_data sg; data !! Z.to_nat i.

Definition in_page (f x : Z) : Prop := f + offset ≤ x < f + offset + 4096.

Definition fresh (fa fa' : BitmapFrameAllocator) (f : Z) : Prop := handed_out fa fa' f ∧ f mod 4096 = 0 ∧ 4096 ≤ f < 2 ^ 46.

(** A segment is in memory: every byte is on a page of its own frame, open to user code,
    and has its value from the file, or what the frame held before. *)
Definition loaded (fa fa' : BitmapFrameAllocator) (ram : Z → Z) (pt : PT) (ram' : Z → Z) (sg : Segment) : Prop :=
  ∀ i, 0 ≤ i < seg_size sg → ∃ f, view pt (containing 4096 (seg_address sg + i)) = Some (Small f (MappingType_flags UserCode)) ∧
    fresh fa fa' f ∧ let x := f + (seg_address sg + i) mod 4096 + offset in ram' x = default (ram x) (seg_byte sg i).

Definition only_fresh (fa fa' : BitmapFrameAllocator) (ram ram' : Z → Z) : Prop :=
  ∀ x, ram' x = ram x ∨ ∃ f, fresh fa fa' f ∧ in_page f x.

(** Every page has a frame that was free, and no two pages have the same. *)
Definition own_frames (fa fa' : BitmapFrameAllocator) (pt : PT) (pages : list Z) : Prop :=
  (∀ q, q ∈ pages → ∃ f, view pt q = Some (Small f (MappingType_flags UserCode)) ∧ fresh fa fa' f) ∧
  ∀ p q f fl gl, p ∈ pages → q ∈ pages → view pt p = Some (Small f fl) → view pt q = Some (Small f gl) → p = q.

Lemma frame_of_inj l p q f : NoDup l.*2 → frame_of l p = Some f → frame_of l q = Some f → p = q.
Proof.
  intros Hnd Hp%frame_of_in Hq%frame_of_in. apply list_elem_of_lookup in Hp as [a Ha], Hq as [b Hb].
  assert (a = b) as ->.
  { eapply (NoDup_lookup l.*2); [done| |]; rewrite list_lookup_fmap; [by rewrite Ha|by rewrite Hb]. }
  congruence.
Qed.

Lemma frame_of_range l q : q ∈ l.*1 → ∃ f, frame_of l q = Some f ∧ f ∈ l.*2.
Proof.
  intros Hin. destruct (frame_of l q) as [f|] eqn:E; [|by apply frame_of_None in E]. exists f. split; [done|].
  apply list_elem_of_fmap. exists (q, f). split; [done|]. by apply frame_of_in.
Qed.

Lemma containing_offset a : containing 4096 a + a mod 4096 = a.
Proof. unfold containing. Z.div_mod_to_equations. lia. Qed.

Lemma segment_ok sg pt fa ram : seg_ok sg → hal_ready fa → zlen (bitmap fa) ≤ 2 ^ 34 →
  (∀ q, q ∈ seg_pages sg → view pt q = None) → 4 * zlen (seg_pages sg) < usable_frames fa →
  ∃ pt' fa' ram' n, map_segments offset [sg] ((pt, fa), ram) = Ret ((pt', fa'), ram') ∧ Allotted fa fa' n ∧ 0 ≤ n ≤ 4 * zlen (seg_pages sg) ∧
    (∀ q, q ∉ seg_pages sg → view pt' q = view pt q) ∧ only_fresh fa fa' ram ram' ∧ loaded fa fa' ram pt' ram' sg ∧
    own_frames fa fa' pt' (seg_pages sg).
Proof.
  intros [HL Hd] Hr Hz Hv Hu. pose proof HL as (Ha & Hs & Hlt).
  destruct (alloc_range_ok _ _ (MappingType_flags UserCode) pt fa HL Hr Hz Hv Hu) as (l & pt' & fa' & n & E & HA & Hn0 & Hl & [Rv Rn Rf Rt]).
  assert (0 ≤ n ≤ 4 * zlen (seg_pages sg)) as Hn by (pose proof (zlen_nonneg (seg_pages sg)); unfold seg_pages in *; lia).
  unfold map_segments. cbn [foldM]. rewrite VirtAddr_new_ok by lia. run. rewrite E. run. cbn [fst].
  assert (∀ i, 0 ≤ i < seg_size sg → ∃ f, frame_of l (containing 4096 (seg_address sg + i)) = Some f ∧ fresh fa fa' f ∧
    view pt' (containing 4096 (seg_address sg + i)) = Some (Small f (MappingType_flags UserCode))) as Hfr.
  { intros i Hi. destruct (frame_of_range l (containing 4096 (seg_address sg + i))) as (f & Ef & Hin); [rewrite Hl; by apply page_in|].
    exists f. rewrite Forall_forall in Rt. split; [done|]. split; [by apply Rt|]. rewrite Rv. unfold with_pages. by rewrite Ef. }
  assert (∀ q, q ∉ seg_pages sg → view pt' q = view pt q) as Hold.
  { intros q Hq. rewrite Rv. unfold with_pages. rewrite (proj2 (frame_of_None l q)); [done|]. by rewrite Hl. }
  assert (own_frames fa fa' pt' (seg_pages sg)) as Hown.
  { assert (∀ q, q ∈ seg_pages sg → ∃ f, frame_of l q = Some f ∧ fresh fa fa' f ∧ view pt' q = Some (Small f (MappingType_flags UserCode))) as Hq.
    { intros q Hin. destruct (frame_of_range l q) as (f & Ef & Hf); [by rewrite Hl|]. exists f. rewrite Forall_forall in Rt.
      split; [done|]. split; [by apply Rt|]. rewrite Rv. unfold with_pages. by rewrite Ef. }
    split; [intros q Hin; destruct (Hq q Hin) as (f & _ & ? & ?); by exists f|]. intros q1 q2 f fl gl H1 H2 V1 V2.
    destruct (Hq q1 H1) as (f1 & E1 & _ & W1), (Hq q2 H2) as (f2 & E2 & _ & W2). rewrite V1 in W1. rewrite V2 in W2.
    injection W1 as <- _. injection W2 as <- _. by eapply frame_of_inj. }
  set (t i := default 0 (frame_of l (containing 4096 (seg_address sg + i))) + (seg_address sg + i) mod 4096).
  assert (∀ i j, 0 ≤ i < seg_size sg → 0 ≤ j < seg_size sg → t i = t j → i = j) as Hinj.
  { intros i j Hi Hj. destruct (Hfr i ltac:(lia)) as (f & Ef & (_ & Hfm & _) & _), (Hfr j ltac:(lia)) as (g & Eg & (_ & Hgm & _) & _).
    unfold t. rewrite Ef, Eg. cbn. intros Et. assert (f = g) as <- by (Z.div_mod_to_equations; lia).
    pose proof (frame_of_inj _ _ _ _ Rf Ef Eg) as Ep. pose proof (containing_offset (seg_address sg + i)). pose proof (containing_offset (seg_address sg + j)). lia. }
  destruct (seg_data sg) as [data|] eqn:Ed.
  - specialize (Hd data eq_refl).
    destruct (write_ok pt' ram data (seg_address sg) t) as (ram' & -> & Hin & Hout); [lia|lia| | |].
    + intros i Hi. destruct (Hfr i ltac:(lia)) as (f & Ef & (_ & Hfm & Hfb) & Hvf). rewrite translate_spec, Hvf. unfold t. rewrite Ef. cbn.
      split; [done|]. pose proof (Z.mod_pos_bound (seg_address sg + i) 4096). Z.div_mod_to_equations. lia.
    + intros i j Hi Hj. apply Hinj; lia.
    + exists pt', fa', ram', n. split; [done|]. split; [done|]. split; [done|]. split; [done|]. split; [|split; [|exact Hown]].
      * intros x. destruct (decide (x ∈ (λ i, t i + offset) <$> range 0 (zlen data))) as [(i & -> & Hi%elem_of_range)%list_elem_of_fmap|Hno].
        { right. destruct (Hfr i ltac:(lia)) as (f & Ef & Hff & _). exists f. split; [done|]. unfold t, in_page. rewrite Ef. cbn.
          pose proof (Z.mod_pos_bound (seg_address sg + i) 4096). lia. }
        left. apply Hout. intros i Hi ->. apply Hno. apply list_elem_of_fmap. exists i. split; [done|]. by apply elem_of_range.
      * intros i Hi. destruct (Hfr i Hi) as (f & Ef & Hff & Hvf). exists f. split; [done|]. split; [done|]. unfold seg_byte. rewrite Ed.
        cbn [mbind option_bind]. replace (f + (seg_address sg + i) mod 4096) with (t i) by (unfold t; by rewrite Ef).
        destruct (data !! Z.to_nat i) as [b|] eqn:Eb; cbn; [apply Hin; [done|lia]|]. apply Hout. intros j Hj Et. apply lookup_ge_None in Eb.
        assert (i = j); [apply Hinj; lia|unfold zlen in *; lia].
  - exists pt', fa', ram, n. split; [done|]. split; [done|]. split; [done|]. split; [done|]. split; [by intros x; left|]. split; [|exact Hown].
    intros i Hi. destruct (Hfr i Hi) as (f & Ef & Hff & Hvf). exists f. split; [done|]. split; [done|]. unfold seg_byte. by rewrite Ed.
Qed.

Lemma fresh_later fa fa1 fa2 n f : Allotted fa fa1 n → fresh fa1 fa2 f → fresh fa fa2 f.
Proof. intros HA (H & Hm & Hr). split; [|done]. eapply handed_out_later; [lia|exact HA|done]. Qed.

Lemma fresh_mono fa fa1 fa2 n f : Allotted fa1 fa2 n → fresh fa fa1 f → fresh fa fa2 f.
Proof. intros HA (H & Hm & Hr). split; [|done]. eapply handed_out_mono; [lia|exact HA|done]. Qed.

(** Later segments leave an earlier one in place. *)
Lemma loaded_kept fa fa1 fa2 n m ram ram1 ram2 pt1 pt2 sg : Allotted fa fa1 n → Allotted fa1 fa2 m → seg_ok sg →
  (∀ q, q ∈ seg_pages sg → view pt2 q = view pt1 q) → only_fresh fa1 fa2 ram1 ram2 →
  loaded fa fa1 ram pt1 ram1 sg → loaded fa fa2 ram pt2 ram2 sg.
Proof.
  intros HA1 HA2 [HL _] Hv Ho Hld i Hi. destruct (Hld i Hi) as (f & Hvf & Hf & Hx). exists f. rewrite Hv by (by apply page_in).
  split; [done|]. split; [by eapply fresh_mono|]. cbn zeta in *. rewrite <- Hx. destruct (Ho (f + (seg_address sg + i) mod 4096 + offset)) as [?|(g & Hg & Hin)]; [done|].
  exfalso. assert (g = f) as ->.
  { destruct Hg as (_ & Hgm & _), Hf as (_ & Hfm & _). unfold in_page in Hin. pose proof (Z.mod_pos_bound (seg_address sg + i) 4096). Z.div_mod_to_equations. lia. }
  destruct Hg as [[Hg _] _], Hf as [[_ Hf] _]. done.
Qed.

Lemma loaded_from fa fa1 fa2 n ram ram1 pt ram2 sg : Allotted fa fa1 n → only_fresh fa fa1 ram ram1 →
  loaded fa1 fa2 ram1 pt ram2 sg → loaded fa fa2 ram pt ram2 sg.
Proof.
  intros HA Ho Hld i Hi. destruct (Hld i Hi) as (f & Hvf & Hf & Hx). exists f. split; [done|]. split; [by eapply fresh_later|]. cbn zeta in *.
  rewrite Hx. destruct (seg_byte sg i); [done|]. cbn. destruct (Ho (f + (seg_address sg + i) mod 4096 + offset)) as [?|(g & Hg & Hin)]; [done|].
  exfalso. assert (g = f) as ->.
  { destruct Hg as (_ & Hgm & _), Hf as (_ & Hfm & _). unfold in_page in Hin. pose proof (Z.mod_pos_bound (seg_address sg + i) 4096). Z.div_mod_to_equations. lia. }
  destruct Hg as [[_ Hg] _], Hf as [[Hf _] _]. done.
Qed.

Lemma map_segments_cons sg segs st : map_segments offset (sg :: segs) st = (st ← map_segments offset [sg] st; map_segments offset segs st).
Proof. unfold map_segments. exact (foldM_app _ [sg] segs st). Qed.

(** Frames taken first and frames taken later are not the same. *)
Lemma own_frames_app fa fa1 fa2 n m pt1 pt2 l1 l2 : Allotted fa fa1 n → Allotted fa1 fa2 m → own_frames fa fa1 pt1 l1 → own_frames fa1 fa2 pt2 l2 →
  (∀ q, q ∈ l1 → view pt2 q = view pt1 q) → own_frames fa fa2 pt2 (l1 ++ l2).
Proof.
  intros HA1 HA2 [F1 I1] [F2 I2] Hk. split.
  - intros q [Hq|Hq]%elem_of_app.
    + destruct (F1 q Hq) as (f & Hv & Hf). exists f. rewrite Hk by done. split; [done|by eapply fresh_mono].
    + destruct (F2 q Hq) as (f & Hv & Hf). exists f. split; [done|by eapply fresh_later].
  - assert (∀ p q f fl gl, p ∈ l1 → q ∈ l2 → view pt2 p = Some (Small f fl) → view pt2 q = Some (Small f gl) → False) as Hx.
    { intros p q f fl gl Hp Hq V1 V2. destruct (F1 p Hp) as (f1 & W1 & [[_ G1] _]), (F2 q Hq) as (f2 & W2 & [[G2 _] _]).
      rewrite Hk, W1 in V1 by done. rewrite W2 in V2. injection V1 as -> _. injection V2 as -> _. done. }
    intros p q f fl gl [Hp|Hp]%elem_of_app [Hq|Hq]%elem_of_app V1 V2; [| | |by eapply I2].
    + rewrite Hk in V1, V2 by done. by eapply I1.
    + by destruct (Hx p q f fl gl).
    + by destruct (Hx q p f gl fl).
Qed.

Lemma segments_ok segs : ∀ pt fa ram, Forall seg_ok segs → NoDup (segs ≫= seg_pages) → hal_ready fa → zlen (bitmap fa) ≤ 2 ^ 34 →
  (∀ q, q ∈ segs ≫= seg_pages → view pt q = None) → 4 * zlen (segs ≫= seg_pages) < usable_frames fa →
  ∃ pt' fa' ram' n, map_segments offset segs ((pt, fa), ram) = Ret ((pt', fa'), ram') ∧ Allotted fa fa' n ∧
    (∀ q, q ∉ segs ≫= seg_pages → view pt' q = view pt q) ∧ only_fresh fa fa' ram ram' ∧ Forall (loaded fa fa' ram pt' ram') segs ∧
    own_frames fa fa' pt' (segs ≫= seg_pages).
Proof.
  induction segs as [|sg segs IH]; intros pt fa ram Hok Hnd Hr Hz Hv Hu.
  { exists pt, fa, ram, 0. split; [done|]. split; [by apply Allotted_refl|]. split; [done|]. split; [by intros x; left|]. split; [constructor|].
    split; [by intros q ?%elem_of_nil|by intros q1 q2 f fl gl ?%elem_of_nil]. }
  apply Forall_cons in Hok as [Hsg Hok]. rewrite bind_cons in *. apply NoDup_app in Hnd as (_ & Hdis & Hnd).
  assert (zlen (seg_pages sg ++ (segs ≫= seg_pages)) = zlen (seg_pages sg) + zlen (segs ≫= seg_pages)) as Hzl by (unfold zlen; rewrite length_app; lia).
  pose proof (zlen_nonneg (seg_pages sg)). pose proof (zlen_nonneg (segs ≫= seg_pages)).
  destruct (segment_ok sg pt fa ram) as (pt1 & fa1 & ram1 & n & E1 & HA1 & Hn & Hv1 & Ho1 & Hl1 & Hw1); [done|done|done|intros q Hq; apply Hv, elem_of_app; by left|lia|].
  destruct (IH pt1 fa1 ram1) as (pt2 & fa2 & ram2 & k & E2 & HA2 & Hv2 & Ho2 & Hl2 & Hw2);
    [done|done|apply HA1|by rewrite (al_len _ _ _ HA1)| |rewrite (al_usable _ _ _ HA1); lia|].
  { intros q Hq. rewrite Hv1; [apply Hv, elem_of_app; by right|]. intros Hq2. by apply (Hdis q). }
  exists pt2, fa2, ram2, (n + k). rewrite map_segments_cons, E1. run. split; [done|]. split; [by eapply Allotted_trans|]. split_and!.
  - intros q Hq. rewrite elem_of_app in Hq. rewrite Hv2, Hv1 by tauto. done.
  - intros x. destruct (Ho2 x) as [->|(f & Hf & Hin)]; [|right; exists f; split; [by eapply fresh_later|done]].
    destruct (Ho1 x) as [?|(f & Hf & Hin)]; [by left|]. right. exists f. split; [by eapply fresh_mono|done].
  - apply Forall_cons_2.
    + eapply loaded_kept; [exact HA1|exact HA2|done| |exact Ho2|done]. intros q Hq. apply Hv2. by apply Hdis.
    + eapply Forall_impl; [exact Hl2|]. intros s. by eapply loaded_from.
  - eapply (own_frames_app fa fa1 fa2); [exact HA1|exact HA2|exact Hw1|exact Hw2|]. intros q Hq. apply Hv2. by apply Hdis.
Qed.

(** *** One page of the kernel's table *)

Lemma map_fails_not fa fa1 n : Allotted fa fa1 n → 0 ≤ n ≤ 3 → 4 ≤ usable_frames fa → usable_frames fa1 ≠ 0.
Proof. intros HA Hn Hu. rewrite (al_usable _ _ _ HA). lia. Qed.

Lemma map_again_ok pt fa virt phys flags : hal_ready fa → zlen (bitmap fa) ≤ 2 ^ 34 → 0 ≤ virt < 2 ^ 47 → 0 ≤ phys < 2 ^ 52 →
  4 ≤ usable_frames fa → view pt (containing 4096 virt) = None →
  ∃ pt' fa' n, map_again (pt, fa) virt phys flags = Ret (pt', fa') ∧ Allotted fa fa' n ∧
    ∀ q, view pt' q = if q =? containing 4096 virt then Some (Small (containing 4096 phys) flags) else view pt q.
Proof.
  intros Hr Hz Hv Hp Hu Hn. unfold map_again. rewrite VirtAddr_new_ok, PhysAddr_new_ok by lia. run. cbn [fst snd].
  rewrite PhysFrame_containing_address_spec by lia. fold (containing 4096 phys).
  destruct (map_to_spec pt fa (containing 4096 virt) (containing 4096 phys) flags) as (r & pt' & fa' & n & -> & HA & Hn3 & H); [done|done|unfold containing; apply Z.mod_mul; lia|].
  run. destruct r as [[]|e]; [exists pt', fa', n; split; [done|]; split; [done|apply H]|]. destruct H as [_ H].
  pose proof (map_fails_not _ _ _ HA Hn3 Hu). destruct e; [by destruct H| |]; [destruct H as (? & ? & ? & H)|destruct H as (? & H)]; congruence.
Qed.

(** The pages whose mapping [do_map_to] removes on its way: those of the huge page that
    was there. *)
Definition cleared (pt : PT) (page q : Z) : bool :=
  match view pt page with
  | Some (Huge size _ _) => containing size q =? containing size page
  | _ => false
  end.

Lemma containing_page size a : (size = Size2MiB ∨ size = Size1GiB) → containing size (containing 4096 a) = containing size a ∧
  containing size a mod 4096 = 0 ∧ containing size (containing size a) = containing size a ∧ containing size a mod size = 0.
Proof.
  unfold containing, Size2MiB, Size1GiB. intros [->| ->].
  - split; [|split; [|split; [rewrite Z.div_mul; lia|apply Z.mod_mul; lia]]]; Z.div_mod_to_equations; lia.
  - split; [|split; [|split; [rewrite Z.div_mul; lia|apply Z.mod_mul; lia]]]; Z.div_mod_to_equations; lia.
Qed.

(** The search for the size of a huge page. *)
Lemma unmap_huge_ok pt v s b fl : view pt (containing 4096 v) = Some (Huge s b fl) →
  ∃ pt', (match unmap_huge pt Size2MiB (containing Size2MiB v) with
    | (Ok _, pt) => Ret pt
    | (Err _, pt) => match unmap_huge pt Size1GiB (containing Size1GiB v) with (Ok _, pt) => Ret pt | (Err _, _) => Panic end
    end) = Ret pt' ∧ ∀ q, view pt' q = if containing s q =? containing s v then None else view pt q.
Proof.
  intros Hv. assert (s = Size2MiB ∨ s = Size1GiB) as Hs by (eapply (huge_whole pt _ s b fl (containing 4096 v)); [exact Hv|unfold containing; apply Z.mod_mul; lia|done]).
  assert (∀ t, t = Size2MiB ∨ t = Size1GiB → t ≤ s → view pt (containing t v) = Some (Huge s b fl)) as Hw.
  { intros t Ht Hts. destruct (containing_page t v Ht) as (_ & Hm & _). eapply (huge_whole pt _ s b fl); [exact Hv|done|].
    rewrite (proj1 (containing_page s v Hs)). destruct Hs as [->| ->], Ht as [->| ->]; unfold containing, Size2MiB, Size1GiB in *; Z.div_mod_to_equations; lia. }
  destruct (containing_page Size2MiB v (or_introl eq_refl)) as (_ & _ & _ & Hm2). destruct (containing_page Size1GiB v (or_intror eq_refl)) as (_ & _ & _ & Hm1).
  pose proof (unmap_huge_spec pt Size2MiB (containing Size2MiB v) Hm2) as H2. rewrite Hw in H2; [|by left|destruct Hs as [->| ->]; done].
  destruct Hs as [->| ->].
  - destruct (Size2MiB =? Size2MiB) eqn:E; [|done]. destruct H2 as (pt' & -> & H2). by exists pt'.
  - destruct (Size1GiB =? Size2MiB) eqn:E; [done|]. destruct H2 as (e & pt1 & -> & H2).
    pose proof (unmap_huge_spec pt1 Size1GiB (containing Size1GiB v) Hm1) as H1. rewrite H2, Hw in H1; [|by right|done].
    destruct (Size1GiB =? Size1GiB) eqn:E'; [|done]. destruct H1 as (pt' & -> & H1). exists pt'. split; [done|]. intros q. by rewrite H1, H2.
Qed.

Lemma do_map_to_ok virt phys flags pt fa : hal_ready fa → zlen (bitmap fa) ≤ 2 ^ 34 → 0 ≤ virt < 2 ^ 47 → 0 ≤ phys < 2 ^ 52 →
  8 ≤ usable_frames fa →
  ∃ pt' fa' n, do_map_to virt phys flags (pt, fa) = Ret (pt', fa') ∧ Allotted fa fa' n ∧
    (translate_addr pt virt = Some phys → (∃ f fl, view pt (containing 4096 virt) = Some (Small f fl)) → ∀ q, view pt' q = view pt q) ∧
    (¬ (translate_addr pt virt = Some phys ∧ ∃ f fl, view pt (containing 4096 virt) = Some (Small f fl)) →
      ∀ q, view pt' q = if q =? containing 4096 virt then Some (Small (containing 4096 phys) flags)
        else if cleared pt (containing 4096 virt) q then None else view pt q).
Proof.
  intros Hr Hz Hv Hp Hu. unfold do_map_to. rewrite VirtAddr_new_ok, PhysAddr_new_ok by lia. run. cbn [fst snd].
  rewrite PhysFrame_containing_address_spec by lia. fold (containing 4096 phys).
  assert (containing 4096 virt mod 4096 = 0) as Hpm by (unfold containing; apply Z.mod_mul; lia).
  destruct (map_to_spec pt fa (containing 4096 virt) (containing 4096 phys) flags) as (r & pt1 & fa1 & n & -> & HA & Hn & H); [done|done|done|].
  run. cbn [fst snd]. assert (4 ≤ usable_frames fa1) as Hu1 by (rewrite (al_usable _ _ _ HA); lia).
  destruct r as [[]|[| |f]].
  - destruct H as [Hn0 H]. exists pt1, fa1, n. split; [done|]. split; [done|]. unfold cleared. rewrite Hn0.
    split; [intros _ (? & ? & ?); congruence|]. intros _ q. apply H.
  - destruct H as (_ & _ & H). lia.
  - destruct H as (Heq & s & b & fl & Hh). destruct (unmap_huge_ok pt1 virt s b fl) as (pt2 & -> & H2); [by rewrite Heq|]. run.
    destruct (map_again_ok pt2 fa1 virt phys flags) as (pt3 & fa2 & k & -> & HA2 & H3);
      [apply HA|by rewrite (al_len _ _ _ HA)|done|done|lia| |].
    { rewrite H2. destruct (huge_whole pt _ s b fl _ Hh Hpm eq_refl) as [Hs _]. rewrite (proj1 (containing_page s virt Hs)), Z.eqb_refl. done. }
    exists pt3, fa2, (n + k). split; [done|]. split; [by eapply Allotted_trans|].
    split; [intros _ (? & ? & ?); congruence|]. intros _ q. rewrite H3. case_bool; [done|]. rewrite H2. unfold cleared. rewrite Hh.
    destruct (huge_whole pt _ s b fl _ Hh Hpm eq_refl) as [Hs _]. rewrite (proj1 (containing_page s virt Hs)), Heq. done.
  - destruct H as (Heq & fl & Hs). rewrite translate_spec, Heq, Hs. run. cbn [unwrap]. run.
    rewrite translate_spec, Hs. case_bool.
    + exists pt1, fa1, n. split; [done|]. split; [done|]. split; [intros _ _; exact Heq|]. intros Hnot. exfalso. apply Hnot. split; [by f_equal|]. by exists f, fl.
    + pose proof (unmap_spec pt1 (containing 4096 virt) Hpm) as HU. rewrite Heq, Hs in HU. destruct HU as (pt2 & -> & H2).
      destruct (map_again_ok pt2 fa1 virt phys flags) as (pt3 & fa2 & k & -> & HA2 & H3);
        [apply HA|by rewrite (al_len _ _ _ HA)|done|done|lia|by rewrite H2, Z.eqb_refl|].
      exists pt3, fa2, (n + k). split; [done|]. split; [by eapply Allotted_trans|]. split; [intros [= ?]; lia|]. intros _ q.
      rewrite H3. unfold cleared. rewrite Hs. case_bool; [done|]. rewrite H2. case_bool; [done|]. apply Heq.
Qed.

Lemma handed_managed fa fa' f n : Allotted fa fa' n → handed_out fa fa' f → f mod 4096 = 0 → 0 ≤ f → managed fa' f.
Proof.
  intros HA [Hf _] Hm H0. unfold managed. rewrite (al_len _ _ _ HA). unfold frame_free, bit in Hf.
  destruct (decide (0 ≤ f / 4096 < 8 * zlen (bitmap fa))) as [?|Hn]; [Z.div_mod_to_equations; lia|].
  exfalso. destruct (bitmap fa !! Z.to_nat (f / 4096 / 8)) as [b|] eqn:Eb; [|done]. apply lookup_lt_Some in Eb.
  assert (0 ≤ f / 4096) by (apply Z.div_pos; lia). unfold zlen in Hn. apply Hn. Z.div_mod_to_equations. lia.
Qed.

Lemma alloc_dealloc_ok start length flags pt fa : in_lower start length → hal_ready fa → zlen (bitmap fa) ≤ 2 ^ 34 →
  (∀ q, q ∈ pages_of start length → view pt q = None) → 4 * zlen (pages_of start length) < usable_frames fa →
  ∃ pt1 fa1 pt2 fa2 tables, alloc_range start length flags (pt, fa) = Ret (Ok tt, (pt1, fa1)) ∧
    (∀ q, q ∈ pages_of start length → ∃ f, view pt1 q = Some (Small f flags) ∧ handed_out fa fa1 f) ∧
    dealloc_range start length (pt1, fa1) = Ret (pt2, fa2) ∧ (∀ q, view pt2 q = view pt q) ∧
    (∀ k, 0 ≤ k → frame_free fa2 k → frame_free fa k) ∧
    (∀ q f fl, q ∈ pages_of start length → view pt1 q = Some (Small f fl) → frame_free fa2 (f / 4096)) ∧
    usable_frames fa2 = usable_frames fa - tables ∧ 0 ≤ tables ≤ 3 * zlen (pages_of start length).
Proof.
  intros HL Hr Hz Hv Hu. destruct (alloc_range_ok start length flags pt fa) as (l & pt1 & fa1 & n & E & HA & Hn & Hl & [Rv Rn Rf Rt]); [done..|].
  assert (∀ q f, (q, f) ∈ l → frame_of l q = Some f) as Hlk.
  { intros q f Hin. destruct (frame_of l q) as [g|] eqn:Eg.
    - apply frame_of_in in Eg. f_equal. apply list_elem_of_lookup in Hin as [a Ha], Eg as [b Hb].
      assert (a = b) as ->; [|congruence]. eapply (NoDup_lookup l.*1); [rewrite Hl; apply pages_NoDup| |]; rewrite list_lookup_fmap; [by rewrite Ha|by rewrite Hb].
    - apply frame_of_None in Eg. exfalso. apply Eg, list_elem_of_fmap. by exists (q, f). }
  assert (zlen l = zlen (pages_of start length)) as Hzl by (unfold zlen; by rewrite <- Hl, length_fmap).
  assert (∀ q f, (q, f) ∈ l → view pt1 q = Some (Small f flags)) as Hv1 by (intros q f Hin; rewrite Rv; unfold with_pages; by rewrite (Hlk _ _ Hin)).
  destruct (dealloc_pages_ok l) with (pt := pt1) (fa := fa1) as (pt2 & fa2 & E2 & HR & Hv2).
  { rewrite Hl. apply pages_aligned. } { rewrite Hl. apply pages_NoDup. } { apply HA. }
  { eapply Forall_impl; [exact Rt|]. intros f (Hf & Hm & Hb). eapply handed_managed; [exact HA|done|done|lia]. }
  { rewrite (al_usable _ _ _ HA). destruct Hr as ((_ & _ & ? & _) & _). lia. } { intros q f Hin. exists flags. by apply Hv1. }
  rewrite Hl in E2, Hv2. exists pt1, fa1, pt2, fa2, (n - zlen l). split; [done|]. split.
  { intros q Hq. destruct (frame_of_range l q) as (f & Ef & Hin); [by rewrite Hl|]. exists f. rewrite Rv. unfold with_pages. rewrite Ef. split; [done|].
    rewrite Forall_forall in Rt. by apply Rt. }
  split; [unfold dealloc_range; rewrite range_of_ok by done; run; exact E2|]. split.
  { intros q. rewrite Hv2, Rv. unfold with_pages. destruct (decide (q ∈ pages_of start length)) as [Hq|Hq]; [by rewrite Hv|].
    rewrite (proj2 (frame_of_None l q)); [done|]. by rewrite Hl. }
  split; [|split; [|rewrite (re_usable _ _ _ HR), (al_usable _ _ _ HA); unfold zlen in *; rewrite length_fmap; lia]].
  - intros k Hk [Hf|Hf]%(re_free _ _ _ HR); [by eapply al_free|apply list_elem_of_fmap in Hf as (f & -> & Hf)|done].
    rewrite Forall_forall in Rt. by apply Rt in Hf as [[? _] _].
  - intros q f fl Hq Hf. destruct (frame_of_range l q) as (g & Eg & Hin); [by rewrite Hl|]. rewrite Rv in Hf. unfold with_pages in Hf. rewrite Eg in Hf.
    injection Hf as <- _. rewrite Forall_forall in Rt. destruct (Rt g Hin) as (_ & _ & Hb). apply (re_free _ _ _ HR); [by apply Z.div_pos; lia|]. right.
    apply list_elem_of_fmap. by exists g.
Qed.

(** ** The theorems *)

(** [C11] Loading a program: with segments in the lower half of the address space, no two on a
    page (where the code panics), none on a mapped page, and frames enough, [map_segments] maps every page of every
    segment to a frame that was free and that no other page of the program has, open to user code; a byte that the file has
    is in place, the mapping of every other page is as before, and no memory is written but in
    frames the load took. A byte past the data of the file has what the frame held before. *)
Theorem map_segments_loads (segs : list Segment) (pt : PT) (fa : BitmapFrameAllocator) (ram : Z → Z)
    (Hok : Forall seg_ok segs) (Hnd : NoDup (segs ≫= seg_pages)) (Hr : hal_ready fa) (Hz : zlen (bitmap fa) ≤ 2 ^ 34)
    (Hv : ∀ q, q ∈ segs ≫= seg_pages → view pt q = None) (Hu : 4 * zlen (segs ≫= seg_pages) < usable_frames fa) :
  ∃ pt' fa' ram', map_segments offset segs ((pt, fa), ram) = Ret ((pt', fa'), ram') ∧
    (∀ q, q ∉ segs ≫= seg_pages → view pt' q = view pt q) ∧
    (∀ x, ram' x = ram x ∨ ∃ f, fresh fa fa' f ∧ in_page f x) ∧
    (∀ p q f fl gl, p ∈ segs ≫= seg_pages → q ∈ segs ≫= seg_pages →
      view pt' p = Some (Small f fl) → view pt' q = Some (Small f gl) → p = q) ∧
    ∀ sg i, sg ∈ segs → 0 ≤ i < seg_size sg → ∃ f, fresh fa fa' f ∧
      view pt' (containing 4096 (seg_address sg + i)) = Some (Small f (MappingType_flags UserCode)) ∧
      let x := f + (seg_address sg + i) mod 4096 + offset in ram' x = default (ram x) (seg_byte sg i).
Proof.
  destruct (segments_ok segs pt fa ram) as (pt' & fa' & ram' & n & E & _ & Hv' & Ho & Hl & _ & Hinj); [done..|].
  exists pt', fa', ram'. split; [done|]. split; [done|]. split; [exact Ho|]. split; [exact Hinj|]. intros sg i Hin Hi.
  rewrite Forall_forall in Hl. destruct (Hl sg Hin i Hi) as (f & Hvf & Hf & Hx). by exists f.
Qed.

(** [C32] [alloc_range] then [dealloc_range]: with more than four free frames a page, a range of
    the lower half that is not mapped is mapped to frames that were free; unmapping it gives the
    mapping of before and makes those frames free again, and none that were taken before. At most
    three frames a page stay taken, those of the tables on the way. *)
Theorem alloc_dealloc_roundtrip (start length flags : Z) (pt : PT) (fa : BitmapFrameAllocator)
    (HL : in_lower start length) (Hr : hal_ready fa) (Hz : zlen (bitmap fa) ≤ 2 ^ 34)
    (Hv : ∀ q, q ∈ pages_of start length → view pt q = None) (Hu : 4 * zlen (pages_of start length) < usable_frames fa) :
  ∃ pt1 fa1 pt2 fa2 tables, alloc_range start length flags (pt, fa) = Ret (Ok tt, (pt1, fa1)) ∧
    (∀ q, q ∈ pages_of start length → ∃ f, view pt1 q = Some (Small f flags) ∧ handed_out fa fa1 f) ∧
    dealloc_range start length (pt1, fa1) = Ret (pt2, fa2) ∧ (∀ q, view pt2 q = view pt q) ∧
    (∀ k, 0 ≤ k → frame_free fa2 k → frame_free fa k) ∧
    (∀ q f fl, q ∈ pages_of start length → view pt1 q = Some (Small f fl) → frame_free fa2 (f / 4096)) ∧
    usable_frames fa2 = usable_frames fa - tables ∧ 0 ≤ tables ≤ 3 * zlen (pages_of start length).
Proof. by apply alloc_dealloc_ok. Qed.

(** [do_map_to] on every branch: it returns, and the page of the address is mapped to the
    frame of the physical address, unless the address translated to exactly that physical
    address on a page of 4 KiB, where nothing changes, the flags included. Where a huge page
    was in the way, all of the huge page is unmapped and only the one page of 4 KiB mapped. *)
Theorem do_map_to_spec (virt phys flags : Z) (pt : PT) (fa : BitmapFrameAllocator)
    (Hr : hal_ready fa) (Hz : zlen (bitmap fa) ≤ 2 ^ 34) (Hv : 0 ≤ virt < 2 ^ 47) (Hp : 0 ≤ phys < 2 ^ 52) (Hu : 8 ≤ usable_frames fa) :
  ∃ pt' fa', do_map_to virt phys flags (pt, fa) = Ret (pt', fa') ∧
    (translate_addr pt virt = Some phys → (∃ f fl, view pt (containing 4096 virt) = Some (Small f fl)) → ∀ q, view pt' q = view pt q) ∧
    (¬ (translate_addr pt virt = Some phys ∧ ∃ f fl, view pt (containing 4096 virt) = Some (Small f fl)) →
      ∀ q, view pt' q = if q =? containing 4096 virt then Some (Small (containing 4096 phys) flags)
        else if cleared pt (containing 4096 virt) q then None else view pt q).
Proof. destruct (do_map_to_ok virt phys flags pt fa) as (pt' & fa' & n & E & _ & H); [done..|]. by exists pt', fa'. Qed.

(** A program with two segments on one page does not load: the kernel panics. *)
Theorem shared_page_panics (a b : Segment) (pt : PT) (fa : BitmapFrameAllocator) (ram : Z → Z)
    (Ha : seg_ok a) (Hb : in_lower (seg_address b) (seg_size b)) (Hr : hal_ready fa) (Hz : zlen (bitmap fa) ≤ 2 ^ 34)
    (Hv : ∀ q, q ∈ seg_pages a → view pt q = None) (Hu : 4 * zlen (seg_pages a) < usable_frames fa)
    (Hs : ∃ q, q ∈ seg_pages a ∧ q ∈ seg_pages b) :
  map_segments offset [a; b] ((pt, fa), ram) = Panic.
Proof.
  rewrite map_segments_cons. destruct (segment_ok a pt fa ram) as (pt1 & fa1 & ram1 & n & -> & HA & _ & _ & _ & Hl & _); [done..|]. run.
  unfold map_segments. cbn [foldM]. destruct Hb as (Hb1 & Hb2 & Hb3). rewrite VirtAddr_new_ok by lia. run. unfold alloc_range.
  rewrite range_of_ok by done. run.
  destruct (alloc_pages_ok _ (MappingType_flags UserCode) (pages_aligned (seg_address b) (seg_size b)) pt1 fa1) as
    (r & l & pt2 & fa2 & k & -> & _ & _ & Hl2 & HR & Hrr); [apply HA|by rewrite (al_len _ _ _ HA)|]. run.
  destruct r as [[]|e]; [exfalso|done]. destruct Hs as (q & Hqa & Hqb). rewrite Hrr, firstn_all in Hl2.
  assert (view pt1 q = None) as Hn by (apply (ra_new _ _ _ _ _ _ HR); by rewrite Hl2).
  destruct Ha as [HLa _]. apply elem_of_pages in Hqa as [Hm Hq]; [|done]. destruct HLa as (Ha1 & Ha2 & Ha3).
  destruct (Hl (Z.max 0 (q - seg_address a))) as (f & Hvf & _); [Z.div_mod_to_equations; lia|].
  assert (containing 4096 (seg_address a + Z.max 0 (q - seg_address a)) = q) as E; [|rewrite E in Hvf; congruence].
  unfold containing. Z.div_mod_to_equations; lia.
Qed.

(** A range whose first page is mapped: the error comes after a frame was taken for the
    page, and no one gives the frame back. *)
Theorem alloc_range_error_leaks (start length flags f fl : Z) (pt : PT) (fa : BitmapFrameAllocator)
    (HL : in_lower start length) (Hr : hal_ready fa) (Hz : zlen (bitmap fa) ≤ 2 ^ 34) (Hu : 0 < usable_frames fa)
    (Hv : view pt (containing 4096 start) = Some (Small f fl)) :
  ∃ pt' fa' g, alloc_range start length flags (pt, fa) = Ret (Err (PageAlreadyMapped f), (pt', fa')) ∧
    (∀ q, view pt' q = view pt q) ∧ handed_out fa fa' g ∧ usable_frames fa' < usable_frames fa.
Proof.
  unfold alloc_range. rewrite range_of_ok by done. run. destruct HL as (H1 & H2 & H3).
  assert (∃ l, pages_of start length = containing 4096 start :: l) as [l ->].
  { unfold pages_of, page_range, containing. rewrite !Z.div_mul by lia. rewrite (range_app (start / 4096) (start / 4096 + 1)) by (Z.div_mod_to_equations; lia).
    rewrite fmap_app. eexists. rewrite range_snoc by lia. rewrite range_nil by lia. cbn. rewrite Z.mul_comm. done. }
  cbn [alloc_pages]. destruct (take_frame fa Hr Hu Hz) as (g & fa1 & -> & HA & Hg & [Hgm Hgr] & _). run.
  destruct (map_to_spec pt fa1 (containing 4096 start) g flags) as (r & pt1 & fa2 & n & -> & HA2 & Hn & H);
    [apply HA|by rewrite (al_len _ _ _ HA)|unfold containing; apply Z.mod_mul; lia|].
  destruct r as [[]|e]; [destruct H; congruence|]. run. destruct H as [Hq H]. rewrite Hv in H. destruct e; [by destruct H|by destruct H as (? & ? & ? & ?)|].
  destruct H as [? [= <- _]]. exists pt1, fa2, g. split; [done|]. split; [done|]. split; [eapply handed_out_mono; [lia|exact HA2|done]|].
  rewrite (al_usable _ _ _ HA2), (al_usable _ _ _ HA). lia.
Qed.

End Proofs.

(** ** A mapper for the examples

    Small pages alone, in an association list; it takes no frames for tables. *)

Module SmallPages.

Definition table := list (Z * (Z * Z)).

Fixpoint find_page (t : table) (page : Z) : option (Z * Z) :=
  match t with
  | [] => None
  | (p, m) :: t => if page =? p then Some m else find_page t page
  end.

Fixpoint remove_page (t : table) (page : Z) : table :=
  match t with
  | [] => []
  | (p, m) :: t => if page =? p then remove_page t page else (p, m) :: remove_page t page
  end.

Definition look (t : table) (page : Z) : option mapping :=
  match find_page t page with Some (f, fl) => Some (Small f fl) | None => None end.

#[export] Instance mapper : PageMapper := {|
  PT := table;
  view := look;
  map_to t fa page frame flags := Ret
    match find_page t page with
    | Some (f, _) => (Err (PageAlreadyMapped f), (t, fa))
    | None => (Ok tt, ((page, (frame, flags)) :: t, fa))
    end;
  unmap t page :=
    match find_page t page with
    | Some (f, _) => (Ok f, remove_page t page)
    | None => (Err PageNotMapped, t)
    end;
  unmap_huge t _ _ := (Err PageNotMapped, t);
  translate_addr t a :=
    match find_page t (containing 4096 a) with
    | Some (f, _) => Some (f + a mod 4096)
    | None => None
    end;
|}.

Lemma find_page_removed t page q : find_page (remove_page t page) q = if q =? page then None else find_page t q.
Proof.
  induction t as [|[p m] t IH]; cbn; [by case_bool|]. destruct (page =? p) eqn:E; cbn; rewrite IH; breflect; subst; [by case_bool|].
  destruct (q =? p) eqn:E1, (q =? page) eqn:E2; breflect; subst; congruence.
Qed.

#[export] Instance mapper_laws {P : Profile} {BF : BitField} {XA : X86Addr} : PageMapperLaws mapper.
Proof.
  split.
  - intros t fa page frame flags Hr _ _. cbn. unfold look. destruct (find_page t page) as [[f fl]|] eqn:E.
    + do 3 eexists. exists 0. split; [done|]. split; [by apply Allotted_refl|]. split; [lia|]. split; [done|]. by exists fl.
    + do 3 eexists. exists 0. split; [done|]. split; [by apply Allotted_refl|]. split; [lia|]. split; [done|]. intros q. cbn. by case_bool.
  - intros t page _. cbn. unfold look. destruct (find_page t page) as [[f fl]|] eqn:E; eexists; [|eexists]; (split; [done|]); intros q; [|done].
    rewrite find_page_removed. by case_bool.
  - intros t size page _. cbn. unfold look. destruct (find_page t page) as [[f fl]|]; eexists _, _; by split.
  - intros t page s b fl q H. cbn in H. unfold look in H. by destruct (find_page t page) as [[??]|].
  - intros t a. cbn. unfold look. by destruct (find_page t _) as [[??]|].
Qed.

End SmallPages.

Section Examples.
#[local] Existing Instances dev Reference.bit_field Reference.bitflags Reference.x86_addr Reference.x86_paging SmallPages.mapper SmallPages.mapper_laws.

(** A program with a page of code and one of data, whose last two bytes are not in the
    file; the stack is mapped already. *)
Definition code : Segment := mkSegment 0x400ffe 2 (Some [0x90; 0xC3]).
Definition data : Segment := mkSegment 0x401010 4 (Some [7; 8]).
Definition stack_only : PT := [(0x7000, (0x5000, 7))].

Lemma program_ok : Forall seg_ok [code; data] ∧ [code; data] ≫= seg_pages = [0x400000; 0x401000].
Proof.
  split; [|vm_compute; reflexivity].
  repeat (apply Forall_cons_2; [split; [vm_compute; repeat split; discriminate|intros d [= <-]; vm_compute; discriminate]|]). apply Forall_nil_2.
Qed.

Lemma program_free q : q ∈ [0x400000; 0x401000] → view stack_only q = None.
Proof. rewrite !elem_of_cons, elem_of_nil. by intros [->|[->|[]]]. Qed.

Lemma map_segments_loads_witness : ∃ pt' fa' ram', map_segments lin [code; data] ((stack_only, heap_frames), (λ _, 0xAA)) = Ret ((pt', fa'), ram') ∧
  view pt' 0x7000 = Some (Small 0x5000 7) ∧ (∃ f, ram' (f + 0xfff + lin) = 0xC3) ∧ ∃ f, ram' (f + 0x13 + lin) = 0xAA.
Proof.
  destruct heap_frames_ready as [H1 H2], program_ok as [H3 H4].
  destruct (map_segments_loads lin lin_ok [code; data] stack_only heap_frames (λ _, 0xAA) H3) as (pt' & fa' & ram' & E & Hv & _ & _ & Hl);
    [rewrite H4; apply NoDup_cons_2; [rewrite list_elem_of_singleton; done|apply NoDup_singleton]|done|done|rewrite H4; exact program_free|rewrite H4; vm_compute; reflexivity|].
  exists pt', fa', ram'. split; [done|]. split; [apply Hv; rewrite H4, !elem_of_cons, elem_of_nil; lia|]. split.
  - destruct (Hl code 1) as (f & _ & _ & Hx); [by left|cbn; lia|]. exists f. exact Hx.
  - destruct (Hl data 3) as (f & _ & _ & Hx); [by right; left|cbn; lia|]. exists f. exact Hx.
Defined.

Lemma range_in : in_lower 0x400ffe 4 ∧ pages_of 0x400ffe 4 = [0x400000; 0x401000].
Proof. split; [vm_compute; repeat split; discriminate|vm_compute; reflexivity]. Qed.

Lemma alloc_dealloc_roundtrip_witness : ∃ pt1 fa1 pt2 fa2, alloc_range 0x400ffe 4 7 (stack_only, heap_frames) = Ret (Ok tt, (pt1, fa1)) ∧
  dealloc_range 0x400ffe 4 (pt1, fa1) = Ret (pt2, fa2) ∧ ∀ q, view pt2 q = view stack_only q.
Proof.
  destruct heap_frames_ready as [H1 H2], range_in as [H3 H4].
  destruct (alloc_dealloc_roundtrip 0x400ffe 4 7 stack_only heap_frames H3 H1 H2) as (pt1 & fa1 & pt2 & fa2 & n & E1 & _ & E2 & Hv & _);
    [rewrite H4; exact program_free|rewrite H4; vm_compute; reflexivity|].
  by exists pt1, fa1, pt2, fa2.
Defined.

Lemma do_map_to_spec_witness : ∃ pt' fa', do_map_to 0x7123 0xb8000 3 (stack_only, heap_frames) = Ret (pt', fa') ∧ view pt' 0x7000 = Some (Small 0xb8000 3).
Proof.
  destruct heap_frames_ready as [H1 H2].
  destruct (do_map_to_spec 0x7123 0xb8000 3 stack_only heap_frames H1 H2) as (pt' & fa' & E & _ & H); [lia|lia|cbn; lia|].
  exists pt', fa'. split; [done|]. rewrite H; [done|]. intros [Ht _]. vm_compute in Ht. discriminate.
Defined.

Lemma shared_page_panics_witness : map_segments lin [code; mkSegment 0x400000 1 None] ((stack_only, heap_frames), (λ _, 0)) = Panic.
Proof.
  destruct heap_frames_ready as [H1 H2], program_ok as [H3 _]. apply Forall_cons in H3 as [H3 _].
  assert (seg_pages code = [0x400000]) as Hp by (vm_compute; reflexivity).
  apply (shared_page_panics lin lin_ok); [exact H3|vm_compute; repeat split; discriminate|exact H1|exact H2| | |].
  - rewrite Hp. intros q ->%list_elem_of_singleton. done.
  - rewrite Hp. vm_compute. reflexivity.
  - exists 0x400000. rewrite Hp. split; [by left|]. vm_compute. by left.
Defined.

Lemma alloc_range_error_leaks_witness : ∃ pt' fa', alloc_range 0x7000 1 3 (stack_only, heap_frames) = Ret (Err (PageAlreadyMapped 0x5000), (pt', fa')) ∧
  usable_frames fa' < usable_frames heap_frames.
Proof.
  destruct heap_frames_ready as [H1 H2].
  destruct (alloc_range_error_leaks 0x7000 1 3 0x5000 7 stack_only heap_frames) as (pt' & fa' & g & E & _ & _ & Hu);
    [vm_compute; repeat split; discriminate|exact H1|exact H2|cbn; lia|reflexivity|].
  by exists pt', fa'.
Defined.

End Examples.
