(* ===== verification/Gpm.v ===== *)
(** * Guest physical memory

    [kernel/src/virt/kvm/gpm.rs]: the regions of a guest's physical memory and
    the nested page table that maps them, and [setup_gpm] of
    [kernel/src/virt/kvm/mod.rs]. *)

From S2P Require Import Prelude Crates Ept PageTable KvmHal.

(** ** [BTreeMap<usize, V>]: entries in increasing order of their keys *)

Abbreviation BTreeMap V := (list (Z * V)).

Section BTreeMap.
Context {V : Type}.

(** [map.range(..k).last()] and [map.range(k..).next()] *)
Definition range_to_last (m : BTreeMap V) (k : Z) : option (Z * V) :=
  last (base.filter (λ kv, kv.1 < k) m).
Definition range_from_next (m : BTreeMap V) (k : Z) : option (Z * V) :=
  head (base.filter (λ kv, k ≤ kv.1) m).

Fixpoint btree_insert (m : BTreeMap V) (k : Z) (v : V) : BTreeMap V :=
  match m with
  | [] => [(k, v)]
  | (k', v') :: m' =>
      if k <? k' then (k, v) :: m
      else if k =? k' then (k, v) :: m'
      else (k', v') :: btree_insert m' k v
  end.

End BTreeMap.

(** ** [MapRegion] *)

(** [Mapper::Offset] is the only mapper. *)
Inductive Mapper := Offset (off : Z).

Record GuestMemoryRegion := mkGuestRegion {
  gpa : Z;
  hpa : Z;
  gsize : Z;
  gflags : Z;
}.

Record MapRegion := mkRegion {
  start : Z;
  size : Z;
  rflags : Z;
  mapper : Mapper;
}.

Section Gpm.
Context {P : Profile} {PTE : GenericPTE} {H : RvmHal}.

Definition new_offset (start_gpa start_hpa size flags : Z) : out MapRegion :=
  offset ← sub_u 64 start_gpa start_hpa;
  Ret (mkRegion start_gpa size flags (Offset offset)).

(** [impl From<GuestMemoryRegion> for MapRegion] *)
Definition MapRegion_from (r : GuestMemoryRegion) : out MapRegion :=
  new_offset (gpa r) (hpa r) (gsize r) (gflags r).

Definition is_overlap_with (self other : MapRegion) : out bool :=
  let s0 := start self in
  e0 ← add_u 64 s0 (size self);
  let s1 := start other in
  e1 ← add_u 64 s1 (size other);
  Ret (negb ((e0 <=? s1) || (e1 <=? s0))).

Definition target (self : MapRegion) (gpa : Z) : Z :=
  match mapper self with
  | Offset off => wrap 64 (gpa - off)
  end.

(** The number of passes of [while start < end { ...; start += 0x1000 }]; a
    region whose last pass would step past the address space is left without
    enough of them. *)
Definition page_passes (a b : Z) : nat := S (Z.to_nat (div_ceil (b - a) 4096)).

Fixpoint map_pages (fuel : nat) (self : MapRegion) (npt : PTState H) (a b : Z) :
    out (result RvmError unit * PTState H) :=
  match fuel with
  | O => Panic
  | S fuel =>
      if a <? b then
        let target := target self a in
        let? (_, npt) := map npt a target (rflags self) in
        a' ← add_u 64 a 0x1000;
        map_pages fuel self npt a' b
      else Ret (Ok tt, npt)
  end.

Definition map_to (self : MapRegion) (npt : PTState H) : out (result RvmError unit * PTState H) :=
  let a := start self in
  b ← add_u 64 a (size self);
  map_pages (page_passes a b) self npt a b.

Fixpoint unmap_pages (fuel : nat) (npt : PTState H) (a b : Z) :
    out (result RvmError unit * PTState H) :=
  match fuel with
  | O => Panic
  | S fuel =>
      if a <? b then
        let? (_, npt) := Ret (unmap npt a) in
        a' ← add_u 64 a 0x1000;
        unmap_pages fuel npt a' b
      else Ret (Ok tt, npt)
  end.

Definition unmap_to (self : MapRegion) (npt : PTState H) : out (result RvmError unit * PTState H) :=
  let a := start self in
  b ← add_u 64 a (size self);
  unmap_pages (page_passes a b) npt a b.

(** ** [GuestPhysMemorySet] *)

Record GuestPhysMemorySet := mkGpm {
  regions : BTreeMap MapRegion;
  npt : PTState H;
}.

Definition Gpm_new (m : memory) (h : Host) :
    out (result RvmError GuestPhysMemorySet * (memory * Host)) :=
  '(r, mh) ← PageTable_new m h;
  match r with
  | Err e => Ret (Err e, mh)
  | Ok npt => Ret (Ok (mkGpm [] npt), mh)
  end.

Definition nest_page_table_root (self : GuestPhysMemorySet) : Z := root_paddr (npt self).

Definition test_free_area (self : GuestPhysMemorySet) (other : MapRegion) : out bool :=
  before_hit ← match range_to_last (regions self) (start other) with
    | Some (_, before) => is_overlap_with before other
    | None => Ret false
    end;
  if before_hit : bool then Ret false
  else
    after_hit ← match range_from_next (regions self) (start other) with
      | Some (_, after) => is_overlap_with after other
      | None => Ret false
      end;
    Ret (negb after_hit).

Definition map_region (self : GuestPhysMemorySet) (region : MapRegion) :
    out (result RvmError unit * GuestPhysMemorySet) :=
  if size region =? 0 then Ret (Ok tt, self)
  else
    free ← test_free_area self region;
    if negb free then Ret (Err InvalidParam, self)
    else
      '(r, npt') ← map_to region (npt self);
      match r with
      | Err e => Ret (Err e, mkGpm (regions self) npt')
      | Ok _ => Ret (Ok tt, mkGpm (btree_insert (regions self) (start region) region) npt')
      end.

(** [clear], also run when the set is dropped *)
Definition clear_regions (npt : PTState H) (regions : BTreeMap MapRegion) : out (PTState H) :=
  foldM (λ npt (kv : Z * MapRegion),
    '(r, npt') ← unmap_to kv.2 npt;
    match r with
    | Ok _ => Ret npt'
    | Err _ => Panic
    end) npt regions.

Definition Gpm_clear (self : GuestPhysMemorySet) : out GuestPhysMemorySet :=
  npt' ← clear_regions (npt self) (regions self);
  Ret (mkGpm [] npt').

End Gpm.
Arguments GuestPhysMemorySet H : clear implicits.
Arguments mkGpm {H}.

(** ** The regions of a set *)

(** A non-empty region inside the address space. *)
Definition region_bounds (r : MapRegion) : Prop :=
  0 ≤ start r ∧ 0 < size r ∧ start r + size r < 2 ^ 64.

Definition covers (r : MapRegion) (w : Z) : bool :=
  (start r <=? w) && (w <? start r + size r).

Definition disjoint_regions (r s : MapRegion) : Prop :=
  start r + size r ≤ start s ∨ start s + size s ≤ start r.

(** Every entry is filed under the start of its region, and the regions follow
    one another without overlap. *)
Definition regions_ok (m : BTreeMap MapRegion) : Prop :=
  StronglySorted (λ a b, start a.2 + size a.2 ≤ start b.2) m ∧
  Forall (λ kv, kv.1 = start kv.2 ∧ region_bounds kv.2) m.

Lemma regions_ok_cons kv m : regions_ok (kv :: m) ↔
  (kv.1 = start kv.2 ∧ region_bounds kv.2) ∧
  Forall (λ b, start kv.2 + size kv.2 ≤ start b.2) m ∧ regions_ok m.
Proof.
  unfold regions_ok. rewrite Forall_cons. split.
  - intros [Hs [? ?]]. inversion Hs; subst. tauto.
  - intros (? & ? & ? & ?). split; [by constructor|done].
Qed.

Lemma is_overlap_with_ok {P : Profile} r s : region_bounds r → region_bounds s →
  ∃ b, is_overlap_with r s = Ret b ∧ (b = true ↔ ¬ disjoint_regions r s).
Proof.
  intros (? & ? & ?) (? & ? & ?). unfold is_overlap_with, disjoint_regions.
  rewrite !add_u_ok by lia. run. eexists. split; [done|].
  destruct (start r + size r <=? start s) eqn:E1, (start s + size s <=? start r) eqn:E2;
    breflect; cbn; split; try done; lia.
Qed.

(** A probe region that starts at [k] meets no region below [k] if it does not
    meet the last of them. *)
Lemma range_to_last_spec m k : regions_ok m →
  match range_to_last m k with
  | Some (_, r) => region_bounds r ∧ start r < k ∧ (∃ k', (k', r) ∈ m) ∧
      ∀ kv, kv ∈ m → start kv.2 < k → kv.2 = r ∨ start kv.2 + size kv.2 ≤ start r
  | None => ∀ kv, kv ∈ m → k ≤ start kv.2
  end.
Proof.
  unfold range_to_last. induction m as [|kv m IH]; [intros _; cbn; set_solver|].
  rewrite regions_ok_cons. intros ([Hk Hb] & Hlt & Hm). specialize (IH Hm).
  rewrite Forall_forall in Hlt. rewrite filter_cons. case_decide as Hd.
  - destruct (base.filter (λ kv, kv.1 < k) m) as [|x l] eqn:El.
    + cbn in IH |- *. destruct kv as [k0 r]; cbn in *. split; [done|]. split; [lia|].
      split; [exists k0; left|]. intros y [->|Hy]%elem_of_cons ?; [by left|].
      specialize (IH y Hy). lia.
    + change (last (kv :: x :: l)) with (last (x :: l)).
      destruct (last (x :: l)) as [[k0 r]|] eqn:Ea; [|apply last_None in Ea; done].
      destruct IH as (Hbr & Hlk & [k' Hin] & Hall). split; [done|]. split; [done|].
      split; [exists k'; by right|]. intros y [->|Hy]%elem_of_cons ?; [|by apply Hall].
      right. by apply (Hlt (k', r)).
  - destruct (last _) as [[k0 r]|].
    + destruct IH as (? & ? & [k' ?] & Hall). split; [done|]. split; [done|].
      split; [exists k'; by right|]. intros y [->|Hy]%elem_of_cons ?; [lia|by apply Hall].
    + intros y [->|Hy]%elem_of_cons; [lia|by apply IH].
Qed.

Lemma range_from_next_spec m k : regions_ok m →
  match range_from_next m k with
  | Some (_, r) => region_bounds r ∧ k ≤ start r ∧ (∃ k', (k', r) ∈ m) ∧
      ∀ kv, kv ∈ m → k ≤ start kv.2 → kv.2 = r ∨ start r + size r ≤ start kv.2
  | None => ∀ kv, kv ∈ m → start kv.2 < k
  end.
Proof.
  unfold range_from_next. induction m as [|kv m IH]; [intros _; cbn; set_solver|].
  rewrite regions_ok_cons. intros ([Hk Hb] & Hlt & Hm). specialize (IH Hm).
  rewrite Forall_forall in Hlt. rewrite filter_cons. case_decide as Hd.
  - destruct kv as [k0 r]; cbn in *. split; [done|]. split; [lia|]. split; [exists k0; left|].
    intros y [->|Hy]%elem_of_cons ?; [by left|]. right. by apply Hlt.
  - destruct (head _) as [[k0 r]|].
    + destruct IH as (? & ? & [k' ?] & Hall). split; [done|]. split; [done|].
      split; [exists k'; by right|]. intros y [->|Hy]%elem_of_cons ?; [lia|by apply Hall].
    + intros y [->|Hy]%elem_of_cons; [lia|by apply IH].
Qed.

Lemma not_overlap b r s : (b = true ↔ ¬ disjoint_regions r s) → b = false ↔ disjoint_regions r s.
Proof.
  intros Hb. destruct (decide (start r + size r ≤ start s ∨ start s + size s ≤ start r)) as [Hd|Hd].
  - split; [done|]. destruct b; [|done]. by destruct (proj1 Hb eq_refl).
  - split; [|done]. intros ->. by apply Hb in Hd.
Qed.

(** The last region below the probe decides for all of them. *)
Lemma below_ok {P : Profile} m r : regions_ok m → region_bounds r →
  ∃ b, (match range_to_last m (start r) with
        | Some (_, before) => is_overlap_with before r
        | None => Ret false
        end) = Ret b ∧
    (b = false ↔ ∀ kv, kv ∈ m → start kv.2 < start r → disjoint_regions kv.2 r).
Proof.
  intros Hm Hr. pose proof (range_to_last_spec m (start r) Hm) as HB.
  destruct (range_to_last m (start r)) as [[k rb]|].
  - destruct HB as (Hbb & Hlb & [k' Hin] & Hall).
    destruct (is_overlap_with_ok rb r Hbb Hr) as (b & -> & Hob). exists b. split; [done|].
    rewrite (not_overlap _ _ _ Hob). split; [|intros HF; by apply (HF _ Hin)].
    intros Hd kv Hkv Hlt. destruct (Hall kv Hkv Hlt) as [->|?]; [done|].
    destruct Hbb as (? & ? & ?), Hr as (? & ? & ?). unfold disjoint_regions in *. lia.
  - exists false. split; [done|]. split; [|done]. intros _ kv Hkv ?. specialize (HB kv Hkv). lia.
Qed.

(** The first region at or above its start decides for the rest. *)
Lemma above_ok {P : Profile} m r : regions_ok m → region_bounds r →
  ∃ b, (match range_from_next m (start r) with
        | Some (_, after) => is_overlap_with after r
        | None => Ret false
        end) = Ret b ∧
    (b = false ↔ ∀ kv, kv ∈ m → start r ≤ start kv.2 → disjoint_regions kv.2 r).
Proof.
  intros Hm Hr. pose proof (range_from_next_spec m (start r) Hm) as HA.
  destruct (range_from_next m (start r)) as [[k ra]|].
  - destruct HA as (Hba & Hla & [k' Hin] & Hall).
    destruct (is_overlap_with_ok ra r Hba Hr) as (b & -> & Hob). exists b. split; [done|].
    rewrite (not_overlap _ _ _ Hob). split; [|intros HF; by apply (HF _ Hin)].
    intros Hd kv Hkv Hlt. destruct (Hall kv Hkv Hlt) as [->|?]; [done|].
    destruct Hba as (? & ? & ?), Hr as (? & ? & ?). unfold disjoint_regions in *. lia.
  - exists false. split; [done|]. split; [|done]. intros _ kv Hkv ?. specialize (HA kv Hkv). lia.
Qed.

(** The two neighbours decide: [test_free_area] is the test against all regions. *)
Lemma test_free_area_ok {P : Profile} {H : RvmHal} (self : GuestPhysMemorySet H) r :
  regions_ok (regions self) → region_bounds r →
  ∃ b, test_free_area self r = Ret b ∧
    (b = true ↔ ∀ kv, kv ∈ regions self → disjoint_regions kv.2 r).
Proof.
  intros Hm Hr. unfold test_free_area.
  destruct (below_ok (regions self) r Hm Hr) as (b1 & -> & H1). run. destruct b1.
  { exists false. split; [done|]. split; [done|]. intros HF. symmetry. apply H1. auto. }
  destruct (above_ok (regions self) r Hm Hr) as (b2 & -> & H2). run. eexists. split; [done|].
  rewrite negb_true_iff, H2. split; [|auto]. intros HA kv Hkv.
  destruct (decide (start kv.2 < start r)); [by apply H1|apply HA; [done|lia]].
Qed.

(** *** Insertion *)

Lemma elem_of_btree_insert m (r : MapRegion) x : regions_ok m → region_bounds r →
  (∀ kv, kv ∈ m → disjoint_regions kv.2 r) →
  x ∈ btree_insert m (start r) r ↔ x = (start r, r) ∨ x ∈ m.
Proof.
  intros Hm (? & ? & ?). induction m as [|[k' r'] m IH]; intros Hd; cbn.
  - rewrite list_elem_of_singleton. split; [auto|intros [?|?%elem_of_nil]; done].
  - apply regions_ok_cons in Hm as ([Hk (? & ? & ?)] & _ & Hm). cbn in *.
    assert (disjoint_regions r' r) as Hd' by (apply (Hd (k', r')); left).
    unfold disjoint_regions in Hd'.
    case_bool; [by rewrite elem_of_cons|]. case_bool; breflect; [lia|].
    rewrite !elem_of_cons, IH; [tauto|done|]. intros kv Hkv. apply Hd. by right.
Qed.

Lemma btree_insert_ok m (r : MapRegion) : regions_ok m → region_bounds r →
  (∀ kv, kv ∈ m → disjoint_regions kv.2 r) → regions_ok (btree_insert m (start r) r).
Proof.
  intros Hm Hr. pose proof Hr as (? & ? & ?). induction m as [|[k' r'] m IH]; intros Hd; cbn.
  - apply regions_ok_cons. split; [done|]. by split.
  - pose proof Hm as Hm0. apply regions_ok_cons in Hm as ([Hk (? & ? & ?)] & Hlt & Hm). cbn in *.
    assert (disjoint_regions r' r) as Hd' by (apply (Hd (k', r')); left).
    assert (∀ kv, kv ∈ m → disjoint_regions kv.2 r) as Hdm by (intros; apply Hd; by right).
    unfold disjoint_regions in Hd'. rewrite Forall_forall in Hlt.
    case_bool; breflect; [|case_bool; breflect; [lia|]].
    + apply regions_ok_cons. split; [done|]. split; [|done]. apply Forall_forall. cbn.
      intros x [->|Hx]%elem_of_cons; cbn; [lia|]. specialize (Hlt x Hx). lia.
    + apply regions_ok_cons. split; [done|]. split; [|by apply IH]. apply Forall_forall. cbn.
      intros x [->|Hx]%elem_of_btree_insert; [cbn; lia|by apply Hlt|done|done|done].
Qed.

(** ** What a set of regions translates *)

(** The page of [w]. *)
Definition page_base (w : Z) : Z := w - w mod 4096.

Section Translation.
Context {P : Profile} {PTE : GenericPTE}.

(** The entry a region gives the page of [w]. *)
Definition region_entry (r : MapRegion) (w : Z) : Z :=
  new_page (align_down (target r (page_base w))) (rflags r) false.

Definition translate (m : BTreeMap MapRegion) (w : Z) : option Z :=
  match List.find (λ kv, covers kv.2 w) m with
  | Some kv => Some (region_entry kv.2 w)
  | None => None
  end.

(** Whole pages, in the 48 bits the table translates, with a non-zero entry. *)
Definition region_mappable (r : MapRegion) : Prop :=
  start r mod 4096 = 0 ∧ size r mod 4096 = 0 ∧ start r + size r ≤ 2 ^ 48 ∧
  ∀ w, start r ≤ w < start r + size r → is_unused (region_entry r w) = false.

Lemma covers_true r w : covers r w = true ↔ start r ≤ w < start r + size r.
Proof. unfold covers. rewrite andb_true_iff, Z.leb_le, Z.ltb_lt. done. Qed.

Lemma translate_cons k r m w : translate ((k, r) :: m) w =
  if covers r w then Some (region_entry r w) else translate m w.
Proof. unfold translate. cbn. by destruct (covers r w). Qed.

Lemma translate_none m w : (∀ kv, kv ∈ m → covers kv.2 w = false) → translate m w = None.
Proof.
  induction m as [|[k r] m IH]; intros Hc; [done|]. rewrite translate_cons.
  assert (covers r w = false) as -> by (apply (Hc (k, r)); left). apply IH. intros kv Hkv. apply Hc. by right.
Qed.

Lemma translate_insert m r w : region_bounds r → (∀ kv, kv ∈ m → disjoint_regions kv.2 r) →
  regions_ok m → translate (btree_insert m (start r) r) w =
  if covers r w then Some (region_entry r w) else translate m w.
Proof.
  intros Hr. pose proof Hr as (? & ? & ?).
  induction m as [|[k' r'] m IH]; intros Hd Hm; cbn [btree_insert].
  - by rewrite translate_cons.
  - apply regions_ok_cons in Hm as ([Hk (? & ? & ?)] & _ & Hm). cbn in Hk.
    assert (disjoint_regions r' r) as Hd' by (apply (Hd (k', r')); left).
    unfold disjoint_regions in Hd'. cbn in *.
    case_bool; breflect; [by rewrite translate_cons|]. case_bool; breflect; [lia|].
    rewrite !translate_cons, IH by (done || intros; apply Hd; by right).
    destruct (covers r w) eqn:C1, (covers r' w) eqn:C2; try done.
    apply covers_true in C1, C2. lia.
Qed.

(** The offset of a region leads from its guest addresses to its host
    addresses, in both profiles. *)
Lemma new_offset_target g h s f r : new_offset g h s f = Ret r → 0 ≤ g < 2 ^ 64 →
  ∀ d, 0 ≤ h + d < 2 ^ 64 → target r (g + d) = h + d.
Proof.
  unfold new_offset. intros Hr Hg d Hd. destruct (sub_u 64 g h) as [off|] eqn:E; [|done].
  injection Hr as <-. unfold target. cbn [mapper].
  assert (∃ k, off = g - h + k * 2 ^ 64) as [k ->].
  { revert E. unfold sub_u, norm. case_bool; [intros [= <-]; exists 0; lia|]. case_bool; [done|].
    unfold wrap. intros [= <-]. exists (- ((g - h) / 2 ^ 64)). pose proof (Z.div_mod (g - h) (2 ^ 64)). lia. }
  unfold wrap. replace (g + d - (g - h + k * 2 ^ 64)) with (h + d + (- k) * 2 ^ 64) by lia.
  rewrite Z.mod_add by lia. apply Z.mod_small. lia.
Qed.

End Translation.

(** ** The page table follows the regions *)

Section Mapping.
Context {P : Profile} {PTE : GenericPTE} {PL : GenericPTELaws PTE}.
Context {H : RvmHal} {HL : RvmHalLaws H}.

Lemma page_of_aligned a w : 0 ≤ a < 2 ^ 48 → a mod 4096 = 0 → 0 ≤ w < 2 ^ 48 →
  (page_of w =? page_of a) = (a <=? w) && (w <? a + 4096).
Proof.
  intros Ha Hal Hw. unfold page_of.
  rewrite (Z.mod_small (w / 4096)), (Z.mod_small (a / 4096)).
  - destruct (_ && _) eqn:E; breflect.
    + apply Z.eqb_eq. pose proof (Z.div_mod a 4096). pose proof (Z.div_mod w 4096).
      pose proof (Z.mod_pos_bound w 4096). lia.
    + apply Z.eqb_neq. intros Hq. apply andb_false_iff in E as [E|E]; breflect;
        pose proof (Z.div_mod a 4096); pose proof (Z.div_mod w 4096);
        pose proof (Z.mod_pos_bound w 4096); lia.
  - split; [by apply Z.div_pos; lia|apply Z.div_lt_upper_bound; lia].
  - split; [by apply Z.div_pos; lia|apply Z.div_lt_upper_bound; lia].
Qed.

Lemma page_base_aligned a w : a mod 4096 = 0 → a ≤ w < a + 4096 → page_base w = a.
Proof.
  intros Ha Hw. unfold page_base. pose proof (Z.div_mod a 4096). pose proof (Z.div_mod w 4096).
  pose proof (Z.mod_pos_bound w 4096). lia.
Qed.

(** Adding the pages of [[a, b)] of [r] to what [f] translates. *)
Definition with_pages (f : Z → option Z) (r : MapRegion) (a b w : Z) : option Z :=
  if (a <=? w) && (w <? b) then Some (region_entry r w) else f w.

Definition agrees (st : PTState H) (f : Z → option Z) : Prop :=
  pt_ok st ∧ ∀ w, 0 ≤ w < 2 ^ 48 → mapped st w = f w.

Lemma map_page_agrees st r a f v : agrees st f → 0 ≤ a → a + 4096 ≤ 2 ^ 48 → a mod 4096 = 0 →
  is_unused (region_entry r a) = false → v = target r a →
  ∃ x st', map st a v (rflags r) = Ret (x, st') ∧
    match x with
    | Ok _ => f a = None ∧ agrees st' (with_pages f r a (a + 4096))
    | Err e => (e = OutOfMemory ∨ e = InvalidParam ∧ f a ≠ None) ∧ agrees st' f
    end.
Proof.
  intros [Hst Hf] Ha Hb Hal Hu ->.
  assert (page_base a = a) as Hpb by (apply page_base_aligned; lia).
  destruct (map_ok st a (target r a) (rflags r) Hst) as (x & st' & -> & Hst' & HP).
  exists x, st'. split; [done|]. destruct x as [[]|e].
  - rewrite Hf in HP by lia. destruct HP as [HN HP]. split; [done|]. split; [done|]. intros w Hw. rewrite HP.
    unfold map_set, with_pages, as_entry. rewrite page_of_aligned by lia.
    destruct (_ && _) eqn:E; [|by apply Hf]. apply andb_true_iff in E as [E1 E2]. breflect.
    unfold region_entry in *. rewrite (page_base_aligned a w) by lia. rewrite Hpb in Hu. by rewrite Hu.
  - rewrite (Hf a) in HP by lia. destruct HP as [HP HP']. split; [done|]. split; [done|].
    intros w Hw. rewrite HP. by apply Hf.
Qed.

Lemma with_pages_step f r a b w : a + 4096 ≤ b →
  with_pages (with_pages f r a (a + 4096)) r (a + 4096) b w = with_pages f r a b w.
Proof. intros. unfold with_pages. by repeat (case_bool; breflect); try lia. Qed.

(** [n] whole pages from [a] are free. *)
Definition pages_free (f : Z → option Z) (a : Z) (n : nat) : Prop :=
  ∀ k, 0 ≤ k < Z.of_nat n → f (a + 4096 * k) = None.

(** [while start < end { map; start += 0x1000 }] for [n] whole pages: they are mapped, or those before the
    first one that is mapped already or for which the host has no memory. *)
Lemma map_pages_ok r (n : nat) : ∀ st a f, agrees st f → 0 ≤ a → a mod 4096 = 0 →
  a + 4096 * Z.of_nat n ≤ 2 ^ 48 →
  (∀ w, a ≤ w < a + 4096 * Z.of_nat n → is_unused (region_entry r w) = false) →
  ∃ x st', map_pages (S n) r st a (a + 4096 * Z.of_nat n) = Ret (x, st') ∧
    match x with
    | Ok _ => pages_free f a n ∧ agrees st' (with_pages f r a (a + 4096 * Z.of_nat n))
    | Err e => ∃ k, (k < n)%nat ∧ pages_free f a k ∧
        (e = OutOfMemory ∨ e = InvalidParam ∧ f (a + 4096 * Z.of_nat k) ≠ None) ∧
        agrees st' (with_pages f r a (a + 4096 * Z.of_nat k))
    end.
Proof.
  induction n as [|n IH]; intros st a f Hag Ha Hal Hb Hused.
  { exists (Ok tt), st. cbn [map_pages]. replace (a + 4096 * Z.of_nat 0) with a by lia.
    rewrite (proj2 (Z.ltb_ge a a)) by lia. split; [done|]. destruct Hag as [? Hf].
    split; [intros k Hk; lia|]. split; [done|].
    intros w Hw. unfold with_pages. case_bool; [lia|by apply Hf]. }
  remember (S n) as fuel. cbn [map_pages].
  rewrite (proj2 (Z.ltb_lt a (a + 4096 * Z.of_nat fuel))) by lia. cbv zeta.
  destruct (map_page_agrees st r a f (target r a)) as (x & st1 & -> & HP); try done; [lia|apply Hused; lia|].
  destruct x as [[]|e]; run.
  2: { destruct HP as [He [? HP]]. exists (Err e), st1. split; [done|]. exists O.
       replace (a + 4096 * Z.of_nat 0) with a by lia. split; [lia|]. split; [intros k Hk; lia|]. split; [done|].
       split; [done|]. intros w Hw. unfold with_pages. case_bool; [lia|by apply HP]. }
  destruct HP as [Hfa HP]. rewrite add_u_ok by lia. run. subst fuel.
  destruct (IH st1 (a + 4096) _ HP) as (x & st2 & E & HP2); [lia| |lia| |].
  { rewrite <- (Z.mod_add a 1 4096), Z.mul_1_l in Hal by lia. done. }
  { intros w Hw. apply Hused. lia. }
  replace (a + 4096 + 4096 * Z.of_nat n) with (a + 4096 * Z.of_nat (S n)) in * by lia.
  assert (∀ k, 0 ≤ k → with_pages f r a (a + 4096) (a + 4096 + 4096 * k) = f (a + 4096 * (k + 1))) as Hshift.
  { intros k Hk. unfold with_pages. case_bool; [lia|]. f_equal. lia. }
  assert (∀ j, pages_free (with_pages f r a (a + 4096)) (a + 4096) j → pages_free f a (S j)) as Hfree.
  { intros j HF k Hk. destruct (Z.eq_dec k 0) as [->|]; [by replace (a + 4096 * 0) with a by lia|].
    replace k with (k - 1 + 1) by lia. rewrite <- Hshift by lia. apply HF. lia. }
  exists x, st2. split; [done|]. destruct x as [[]|e].
  - destruct HP2 as [HF [? HP2]]. split; [by apply Hfree|]. split; [done|]. intros w Hw. rewrite HP2 by done.
    apply with_pages_step. lia.
  - destruct HP2 as (k & Hk & HF & He & [? HP2]). exists (S k). split; [lia|]. split; [by apply Hfree|].
    rewrite Hshift in He by lia. replace (Z.of_nat k + 1) with (Z.of_nat (S k)) in He by lia. split; [done|].
    replace (a + 4096 + 4096 * Z.of_nat k) with (a + 4096 * Z.of_nat (S k)) in HP2 by lia.
    split; [done|]. intros w Hw. rewrite HP2 by done. apply with_pages_step. lia.
Qed.

Lemma page_passes_whole a n : page_passes a (a + 4096 * Z.of_nat n) = S n.
Proof.
  unfold page_passes. replace (a + 4096 * Z.of_nat n - a) with (4096 * Z.of_nat n) by lia.
  f_equal. destruct (div_ceil_spec (4096 * Z.of_nat n) 4096); lia.
Qed.

Lemma whole_pages x : 0 ≤ x → x mod 4096 = 0 → ∃ n, x = 4096 * Z.of_nat n.
Proof.
  intros Hx Hm. exists (Z.to_nat (x / 4096)). pose proof (Z.div_mod x 4096).
  pose proof (Z.div_pos x 4096). lia.
Qed.

(** *** Sets that are in step with their page table

    A region that could not be mapped to its end is not recorded, but its first pages stay mapped: [lost] are
    those pieces. *)

Definition piece (r : MapRegion) (n : nat) : MapRegion := mkRegion (start r) (4096 * Z.of_nat n) (rflags r) (mapper r).

(** No address in common. *)
Definition apart (r s : MapRegion) : Prop := ∀ w, covers r w = true → covers s w = false.

Definition aligned (r : MapRegion) : Prop := 0 ≤ start r ∧ start r mod 4096 = 0 ∧ 0 ≤ size r ∧ size r mod 4096 = 0.

Definition gpm_ok (self : GuestPhysMemorySet H) (lost : list MapRegion) : Prop :=
  regions_ok (regions self) ∧ (∀ kv, kv ∈ regions self → region_mappable kv.2) ∧
  Forall aligned lost ∧ (∀ kv s, kv ∈ regions self → s ∈ lost → apart kv.2 s) ∧
  agrees (npt self) (λ w, translate (regions self ++ (pair 0 <$> lost)) w).

Lemma translate_app m l w : translate (m ++ l) w = match translate m w with Some e => Some e | None => translate l w end.
Proof.
  induction m as [|[k r] m IH]; [done|]. cbn [app]. rewrite !translate_cons, IH. by destruct (covers r w).
Qed.

Lemma translate_some m w : translate m w ≠ None ↔ ∃ kv, kv ∈ m ∧ covers kv.2 w = true.
Proof.
  split.
  - intros Hn. destruct (List.existsb (λ kv : Z * MapRegion, covers kv.2 w) m) eqn:E.
    + apply existsb_exists in E as (kv & Hkv & Hc). exists kv. by rewrite list_elem_of_In.
    + destruct Hn. apply translate_none. intros kv Hkv. destruct (covers kv.2 w) eqn:C; [|done].
      rewrite <- E. symmetry. apply existsb_exists. exists kv. by rewrite <- list_elem_of_In.
  - intros (kv & Hkv & Hc) E. unfold translate in E. destruct (List.find _ m) eqn:F; [done|].
    apply list_elem_of_In, (List.find_none _ _ F) in Hkv. by rewrite Hc in Hkv.
Qed.

(** Aligned regions that share an address share the start of a page. *)
Lemma pages_free_apart m r n s : aligned (piece r n) → aligned s → s ∈ m.*2 → pages_free (translate m) (start r) n →
  apart s (piece r n).
Proof.
  intros (A1 & A2 & _ & _) (B1 & B2 & _ & B4) Hs HF w Hw. cbn [piece start size] in *.
  apply list_elem_of_fmap in Hs as (kv & -> & Hkv). set (s := kv.2) in *. destruct (covers (piece r n) w) eqn:C; [|done].
  apply covers_true in Hw, C. cbn [piece start size] in C.
  assert (∃ k, 0 ≤ k < Z.of_nat n ∧ covers s (start r + 4096 * k) = true) as (k & Hk & Hc).
  { pose proof (Z.div_mod (start r) 4096). pose proof (Z.div_mod (start s) 4096).
    pose proof (Z.div_mod (size s) 4096).
    exists (Z.max 0 (start s / 4096 - start r / 4096)). rewrite covers_true. lia. }
  specialize (HF k Hk). assert (translate m (start r + 4096 * k) ≠ None) as Hx by (apply translate_some; by exists kv). done.
Qed.

Lemma disjoint_apart r s : disjoint_regions r s → apart r s.
Proof. unfold disjoint_regions, apart, covers. intros H0 w. lia. Qed.

Definition all_disjoint (m : BTreeMap MapRegion) (r : MapRegion) : bool :=
  forallb (λ kv : Z * MapRegion,
    (start kv.2 + size kv.2 <=? start r) || (start r + size r <=? start kv.2)) m.

Lemma all_disjoint_true m r : all_disjoint m r = true ↔ ∀ kv, kv ∈ m → disjoint_regions kv.2 r.
Proof.
  unfold all_disjoint. rewrite forallb_forall.
  split; intros Hd kv Hkv; unfold disjoint_regions in *.
  - apply list_elem_of_In, Hd in Hkv. by rewrite orb_true_iff, !Z.leb_le in Hkv.
  - apply list_elem_of_In, Hd in Hkv. by rewrite orb_true_iff, !Z.leb_le.
Qed.

(** The region was mapped and is recorded. *)
Lemma map_done self lost r n st' : gpm_ok self lost → region_bounds r → region_mappable r → size r = 4096 * Z.of_nat n →
  (∀ kv, kv ∈ regions self → disjoint_regions kv.2 r) →
  pages_free (translate (regions self ++ (pair 0 <$> lost))) (start r) n →
  agrees st' (with_pages (translate (regions self ++ (pair 0 <$> lost))) r (start r) (start r + size r)) →
  (∀ s, s ∈ lost → apart s r) ∧ gpm_ok (mkGpm (btree_insert (regions self) (start r) r) st') lost.
Proof.
  intros (Hm & Hmap & Hl & Hdl & _) Hr Hrm Hn Hd HF [Hst HP]. pose proof Hr as (? & ? & ?). pose proof Hrm as (? & ? & _ & _).
  rewrite Forall_forall in Hl. assert (∀ s, s ∈ lost → apart s r) as Hds.
  { intros s Hs. unfold apart, covers. rewrite Hn. refine (pages_free_apart _ r n s _ (Hl s Hs) _ HF).
    - unfold aligned. cbn [piece start size]. rewrite <- Hn. split_and!; [done|done|lia|done].
    - rewrite fmap_app, elem_of_app. right. apply list_elem_of_fmap. exists (0, s). split; [done|]. by apply list_elem_of_fmap_2. }
  split; [done|]. split_and!; cbn [regions npt].
  - by apply btree_insert_ok.
  - intros kv [->|Hkv]%elem_of_btree_insert; [done|by apply Hmap|done..].
  - by apply Forall_forall.
  - intros kv s [->|Hkv]%elem_of_btree_insert Hs; [|by apply Hdl|done..]. specialize (Hds s Hs).
    intros w Hw. cbn [snd] in Hw. destruct (covers s w) eqn:C; [|done]. apply Hds in C. by rewrite Hw in C.
  - split; [done|]. intros w Hw. rewrite HP by done. rewrite !translate_app, translate_insert by done.
    unfold with_pages, covers. case_bool; [done|]. by rewrite translate_app.
Qed.

(** The region was mapped up to its page [n]. *)
Lemma map_stopped self lost r n st' : gpm_ok self lost → region_bounds r → region_mappable r → 4096 * Z.of_nat n < size r →
  (∀ kv, kv ∈ regions self → disjoint_regions kv.2 r) →
  pages_free (translate (regions self ++ (pair 0 <$> lost))) (start r) n →
  agrees st' (with_pages (translate (regions self ++ (pair 0 <$> lost))) r (start r) (start r + 4096 * Z.of_nat n)) →
  (∀ s, s ∈ lost → apart s (piece r n)) ∧ gpm_ok (mkGpm (regions self) st') (piece r n :: lost).
Proof.
  intros (Hm & Hmap & Hl & Hdl & _) Hr Hrm Hn Hd HF [Hst HP]. pose proof Hr as (? & ? & ?). pose proof Hrm as (? & ? & _ & _).
  assert (aligned (piece r n)) as Ha.
  { unfold aligned. cbn [piece start size]. rewrite (Z.mul_comm 4096), Z.mod_mul by lia. split_and!; [done|done|lia|done]. }
  assert (∀ kv, kv ∈ regions self → disjoint_regions kv.2 (piece r n)) as Hdp.
  { intros kv Hkv. specialize (Hd kv Hkv). unfold disjoint_regions in *. cbn [piece start size]. lia. }
  split.
  { intros s Hs. rewrite Forall_forall in Hl. refine (pages_free_apart _ r n s Ha (Hl s Hs) _ HF).
    rewrite fmap_app, elem_of_app. right. apply list_elem_of_fmap. exists (0, s). split; [done|]. by apply list_elem_of_fmap_2. }
  split_and!; cbn [regions npt]; [done|done|by constructor|..].
  - intros kv s Hkv [->|Hs]%elem_of_cons; [by apply disjoint_apart, Hdp|by apply Hdl].
  - split; [done|]. intros w Hw. rewrite HP by done. rewrite translate_app, fmap_cons, translate_cons.
    unfold with_pages. rewrite translate_app. change (region_entry (piece r n) w) with (region_entry r w).
    fold (covers (piece r n) w). change ((start r <=? w) && (w <? start r + 4096 * Z.of_nat n)) with (covers (piece r n) w).
    destruct (covers (piece r n) w) eqn:C; [|done]. rewrite (translate_none (regions self)); [done|].
    intros kv Hkv. specialize (Hdp kv Hkv). apply covers_true in C. unfold covers. unfold disjoint_regions in Hdp. lia.
Qed.

Lemma empty_gpm_ok (st : PTState H) : pt_ok st → (∀ v, mapped st v = None) → gpm_ok (mkGpm [] st) [].
Proof.
  intros Hst Hn. split_and!; cbn; [by split; constructor|by intros kv ?%elem_of_nil|constructor|by intros kv s ?%elem_of_nil|].
  split; [done|]. intros w _. apply Hn.
Qed.

(** [map_region] keeps the page table in step with the recorded regions and the lost pieces. *)
Lemma map_region_ok (self : GuestPhysMemorySet H) (lost : list MapRegion) (r : MapRegion) :
  gpm_ok self lost → region_bounds r → region_mappable r →
  ∃ x self', map_region self r = Ret (x, self') ∧
    if all_disjoint (regions self) r then
      match x with
      | Ok _ => (∀ s, s ∈ lost → apart s r) ∧ gpm_ok self' lost ∧
          regions self' = btree_insert (regions self) (start r) r
      | Err e => regions self' = regions self ∧ ∃ n, 4096 * Z.of_nat n < size r ∧ gpm_ok self' (piece r n :: lost) ∧
          (∀ s, s ∈ lost → apart s (piece r n)) ∧
          (e = OutOfMemory ∨ e = InvalidParam ∧ ∃ s, s ∈ lost ∧ covers s (start r + 4096 * Z.of_nat n) = true)
      end
    else x = Err InvalidParam ∧ self' = self.
Proof.
  intros Hok Hr Hrm. pose proof Hok as (Hm & _ & _ & _ & Hag). unfold map_region. pose proof Hr as (Hs0 & Hs1 & Hs2).
  destruct (size r =? 0) eqn:E0; breflect; [lia|].
  destruct (test_free_area_ok self r Hm Hr) as (b & -> & Hb). run. rewrite <- all_disjoint_true in Hb.
  destruct (all_disjoint (regions self) r) eqn:Ed.
  2: { destruct b; [discriminate (proj1 Hb eq_refl)|]. by exists (Err InvalidParam), self. }
  rewrite (proj2 Hb eq_refl). cbn [negb]. rewrite all_disjoint_true in Ed. pose proof Hrm as (Hra & Hrs & Hrb & Hru).
  destruct (whole_pages (size r)) as [n Hn]; [lia|done|].
  unfold map_to. rewrite add_u_ok by lia. run. rewrite Hn, page_passes_whole.
  destruct (map_pages_ok r n (npt self) (start r) _ Hag) as (x & st' & -> & HP); [done|done|lia|intros w Hw; apply Hru; lia|].
  run. destruct x as [[]|e].
  - destruct HP as [HF HP]. rewrite <- Hn in HP. destruct (map_done self lost r n st') as [HA HB]; [done..|].
    eexists (Ok tt), _. split; [done|]. by split.
  - destruct HP as (k & Hk & HF & He & HP). destruct (map_stopped self lost r k st') as [HA HB]; [done|done|done|lia|done|done|done|].
    eexists (Err e), _. split; [done|]. split; [done|]. exists k. split; [lia|]. split; [done|]. split; [done|].
    destruct He as [->|[-> Hf]]; [by left|right; split; [done|]]. apply translate_some in Hf as (kv & Hkv & Hc).
    rewrite elem_of_app in Hkv. destruct Hkv as [Hkv|Hkv].
    + specialize (Ed kv Hkv). apply covers_true in Hc. unfold disjoint_regions in Ed. lia.
    + apply list_elem_of_fmap in Hkv as (s & -> & Hs). by exists s.
Qed.

(** *** Unmapping *)

Definition without (f : Z → option Z) (a b w : Z) : option Z :=
  if (a <=? w) && (w <? b) then None else f w.

Lemma unmap_pages_ok (n : nat) : ∀ st a f, agrees st f → 0 ≤ a → a mod 4096 = 0 →
  a + 4096 * Z.of_nat n ≤ 2 ^ 48 →
  (∀ w, a ≤ w < a + 4096 * Z.of_nat n → f w ≠ None) →
  ∃ st', unmap_pages (S n) st a (a + 4096 * Z.of_nat n) = Ret (Ok tt, st') ∧
    agrees st' (without f a (a + 4096 * Z.of_nat n)).
Proof.
  induction n as [|n IH]; intros st a f [Hst Hf] Ha Hal Hb Hmap.
  { exists st. cbn [unmap_pages]. replace (a + 4096 * Z.of_nat 0) with a by lia.
    rewrite (proj2 (Z.ltb_ge a a)) by lia. split; [done|]. split; [done|].
    intros w Hw. unfold without. case_bool; [lia|by apply Hf]. }
  remember (S n) as fuel. cbn [unmap_pages].
  rewrite (proj2 (Z.ltb_lt a (a + 4096 * Z.of_nat fuel))) by lia.
  pose proof (unmap_ok st a Hst) as HP. destruct (unmap st a) as [x st1]. destruct HP as [Hst1 HP].
  rewrite Hf in HP by lia. destruct (f a) eqn:Efa; [|by destruct (Hmap a); [lia|]].
  destruct HP as [-> HP]. run. rewrite add_u_ok by lia. run. subst fuel.
  assert (agrees st1 (without f a (a + 4096))) as Hag.
  { split; [done|]. intros w Hw. rewrite HP. unfold map_set, without.
    rewrite page_of_aligned by lia. case_bool; [done|by apply Hf]. }
  destruct (IH st1 (a + 4096) _ Hag) as (st2 & E & [Hst2 HP2]); [lia| |lia| |].
  { rewrite <- (Z.mod_add a 1 4096), Z.mul_1_l in Hal by lia. done. }
  { intros w Hw. unfold without. case_bool; [lia|]. apply Hmap. lia. }
  replace (a + 4096 + 4096 * Z.of_nat n) with (a + 4096 * Z.of_nat (S n)) in * by lia.
  exists st2. split; [done|]. split; [done|]. intros w Hw. rewrite HP2 by done.
  unfold without. repeat case_bool; first [done|bsolve].
Qed.

Lemma clear_regions_ok m l : ∀ st, regions_ok m → (∀ kv, kv ∈ m → region_mappable kv.2) →
  (∀ kv s, kv ∈ m → s ∈ l → apart kv.2 s) →
  agrees st (translate (m ++ (pair 0 <$> l))) → ∃ st', clear_regions st m = Ret st' ∧ agrees st' (translate (pair 0 <$> l)).
Proof.
  induction m as [|[k r] m IH]; intros st Hm Hmap Hd Hag; [by exists st|].
  pose proof Hm as ([_ (? & ? & ?)] & Hlt & Hm')%regions_ok_cons. cbn [snd fst] in *.
  destruct (Hmap (k, r)) as (Hra & Hrs & Hrb & _); [left|]. cbn [snd] in *.
  destruct (whole_pages (size r)) as [n Hn]; [lia|done|].
  unfold clear_regions. rewrite foldM_cons. cbn [snd]. unfold unmap_to.
  rewrite add_u_ok by lia. run. rewrite Hn, page_passes_whole.
  destruct (unmap_pages_ok n st (start r) _ Hag) as (st1 & -> & Hst1 & HP); [done|done|lia| |].
  { intros w Hw. cbn [app]. rewrite translate_cons, (proj2 (covers_true r w)) by lia. discriminate. }
  run. apply IH; [done|intros; apply Hmap; by right|intros; apply Hd; [by right|done]|]. split; [done|]. intros w Hw.
  rewrite HP by done. unfold without. cbn [app]. rewrite translate_cons. unfold covers. rewrite Hn.
  destruct (_ && _) eqn:C; [|done]. symmetry. apply translate_none. intros kv Hkv. rewrite elem_of_app in Hkv.
  destruct Hkv as [Hkv|(s & -> & Hs)%list_elem_of_fmap].
  - rewrite Forall_forall in Hlt. specialize (Hlt kv Hkv). unfold covers. lia.
  - apply (Hd (k, r) s); [left|done|]. apply covers_true. cbn [snd]. lia.
Qed.

(** *** Sequences of calls *)

Inductive GpmOp := GMap (r : MapRegion) | GClear.

Fixpoint gpm_run (self : GuestPhysMemorySet H) (ops : list GpmOp) :
    out (list (result RvmError unit) * GuestPhysMemorySet H) :=
  match ops with
  | [] => Ret ([], self)
  | GMap r :: ops =>
      '(x, self') ← map_region self r;
      '(xs, self'') ← gpm_run self' ops;
      Ret (x :: xs, self'')
  | GClear :: ops =>
      self' ← Gpm_clear self;
      '(xs, self'') ← gpm_run self' ops;
      Ret (Ok tt :: xs, self'')
  end.

(** The specification: recorded regions and lost pieces. A region that meets no recorded one is recorded; or its
    pages are mapped up to one for which the host has no memory or which a lost piece has, and are lost too. *)
Inductive gpm_step : BTreeMap MapRegion * list MapRegion → GpmOp → result RvmError unit → BTreeMap MapRegion * list MapRegion → Prop :=
  | step_empty m l r : size r = 0 → gpm_step (m, l) (GMap r) (Ok tt) (m, l)
  | step_recorded m l r : size r ≠ 0 → all_disjoint m r = true → (∀ s, s ∈ l → apart s r) →
      gpm_step (m, l) (GMap r) (Ok tt) (btree_insert m (start r) r, l)
  | step_overlap m l r : size r ≠ 0 → all_disjoint m r = false → gpm_step (m, l) (GMap r) (Err InvalidParam) (m, l)
  | step_memory m l r n : all_disjoint m r = true → 4096 * Z.of_nat n < size r →
      (∀ s, s ∈ l → apart s (piece r n)) → gpm_step (m, l) (GMap r) (Err OutOfMemory) (m, piece r n :: l)
  | step_lost m l r n s : all_disjoint m r = true → 4096 * Z.of_nat n < size r →
      (∀ s, s ∈ l → apart s (piece r n)) → s ∈ l → covers s (start r + 4096 * Z.of_nat n) = true →
      gpm_step (m, l) (GMap r) (Err InvalidParam) (m, piece r n :: l)
  | step_clear m l : gpm_step (m, l) GClear (Ok tt) ([], l).

Inductive gpm_steps : BTreeMap MapRegion * list MapRegion → list GpmOp → list (result RvmError unit) → BTreeMap MapRegion * list MapRegion → Prop :=
  | steps_nil s : gpm_steps s [] [] s
  | steps_cons s op x s' ops xs s'' : gpm_step s op x s' → gpm_steps s' ops xs s'' → gpm_steps s (op :: ops) (x :: xs) s''.

(** The function it is as long as the host has memory. *)
Fixpoint gpm_spec (m : BTreeMap MapRegion) (ops : list GpmOp) :
    list (result RvmError unit) * BTreeMap MapRegion :=
  match ops with
  | [] => ([], m)
  | GMap r :: ops =>
      if size r =? 0 then let '(xs, m') := gpm_spec m ops in (Ok tt :: xs, m')
      else if all_disjoint m r then
        let '(xs, m') := gpm_spec (btree_insert m (start r) r) ops in (Ok tt :: xs, m')
      else let '(xs, m') := gpm_spec m ops in (Err InvalidParam :: xs, m')
  | GClear :: ops => let '(xs, m') := gpm_spec [] ops in (Ok tt :: xs, m')
  end.

Lemma gpm_steps_spec s ops xs s' : gpm_steps s ops xs s' → s.2 = [] → Err OutOfMemory ∉ xs →
  (xs, s'.1) = gpm_spec s.1 ops ∧ s'.2 = [].
Proof.
  induction 1 as [s|s op x s1 ops xs s2 Hs _ IH]; intros El Hx; [by destruct s; cbn in *; subst|].
  rewrite not_elem_of_cons in Hx. destruct Hx as [Hx1 Hx2].
  destruct Hs as [m l r E|m l r E Ed _|m l r E Ed|m l r n Ed _ _|m l r n s Ed _ _ Hs _|m l]; cbn [fst snd] in *; subst; cbn [gpm_spec].
  - rewrite E. cbn [Z.eqb]. destruct IH as [IH1 IH2]; [done..|]. by rewrite <- IH1.
  - rewrite (proj2 (Z.eqb_neq _ _)), Ed by done. destruct IH as [IH1 IH2]; [done..|]. by rewrite <- IH1.
  - rewrite (proj2 (Z.eqb_neq _ _)), Ed by done. destruct IH as [IH1 IH2]; [done..|]. by rewrite <- IH1.
  - done.
  - by apply elem_of_nil in Hs.
  - destruct IH as [IH1 IH2]; [done..|]. by rewrite <- IH1.
Qed.

(** Page-aligned, inside the 48 bits; it may be empty. *)
Definition op_mappable (op : GpmOp) : Prop :=
  match op with GMap r => size r = 0 ∨ region_bounds r ∧ region_mappable r | GClear => True end.

Lemma gpm_op_ok self lost op : gpm_ok self lost → op_mappable op → ∃ x self' lost',
  (∀ ops, gpm_run self (op :: ops) = '(xs, self'') ← gpm_run self' ops; Ret (x :: xs, self'')) ∧
  gpm_step (regions self, lost) op x (regions self', lost') ∧ gpm_ok self' lost'.
Proof.
  intros Hok Hop. destruct op as [r|]; cbn [gpm_run].
  - destruct (Z.eq_dec (size r) 0) as [E0|E0].
    { exists (Ok tt), self, lost. split; [|split; [by constructor|done]]. intros ops. unfold map_region. by rewrite E0. }
    destruct Hop as [|[Hr Hrm]]; [done|]. destruct (map_region_ok self lost r Hok Hr Hrm) as (x & self1 & E & HP).
    destruct (all_disjoint (regions self) r) eqn:Ed.
    + destruct x as [[]|e].
      * destruct HP as (Hd & Hok1 & Hreg). exists (Ok tt), self1, lost. split; [by intros; rewrite E|]. rewrite Hreg. split; [by constructor|done].
      * destruct HP as (Hreg & n & Hn & Hok1 & Hd & He). exists (Err e), self1, (piece r n :: lost). split; [by intros; rewrite E|].
        rewrite Hreg. split; [|done]. destruct He as [->|(-> & s & Hs & Hc)]; [by constructor|by eapply step_lost].
    + destruct HP as [-> ->]. exists (Err InvalidParam), self, lost. split; [by intros; rewrite E|]. split; [by constructor|done].
  - destruct Hok as (Hm & Hmap & Hl & Hdl & Hag). destruct (clear_regions_ok _ _ _ Hm Hmap Hdl Hag) as (st' & E & Hag').
    exists (Ok tt), (mkGpm [] st'), lost. split; [|split; [constructor|]].
    + intros ops. unfold Gpm_clear. by rewrite E.
    + split_and!; cbn; [by split; constructor|by intros kv ?%elem_of_nil|done|by intros kv s ?%elem_of_nil|done].
Qed.


End Mapping.

(** ** [setup_gpm] ([kernel/src/virt/kvm/mod.rs], [gconfig.rs]) *)

Definition GUEST_IMAGE_SIZE : Z := 0x10_0000.
Definition GUEST_PHYS_MEMORY_BASE : Z := 0.
Definition GUEST_ENTRY : Z := 0x20_0000.
Definition GUEST_PHYS_MEMORY_SIZE : Z := 0x100_0000.

Section Setup.
Context {P : Profile} {PTE : GenericPTE} {H : RvmHal} {XA : X86Addr}.

(** [addr] is the address of the static [GUEST_PHYS_MEMORY], whose bytes are
    [ram]; [raw_slice p n] is the [n] bytes at the address [p]; [offset] is
    [PHYSICAL_MEMORY_OFFSET]. *)
Context (addr offset : Z) (raw_slice : Z → Z → list Z).

Definition gpa_as_mut_ptr (guest_paddr : Z) : out Z := add_u 64 guest_paddr addr.

Definition load_guest_image (ram : list Z) (image_ptr load_gpa size : Z) : out (list Z) :=
  let image := raw_slice image_ptr size in
  _ ← gpa_as_mut_ptr load_gpa;
  Ret (splice ram load_gpa image).

Definition guest_memory_regions (ram_hpa : Z) : list GuestMemoryRegion :=
  [ mkGuestRegion GUEST_PHYS_MEMORY_BASE ram_hpa GUEST_PHYS_MEMORY_SIZE
      (Z.lor (Z.lor MemFlags_READ MemFlags_WRITE) MemFlags_EXECUTE);
    mkGuestRegion 0xfec0_0000 0xfec0_0000 0x1000
      (Z.lor (Z.lor MemFlags_READ MemFlags_WRITE) MemFlags_DEVICE);
    mkGuestRegion 0xfed0_0000 0xfed0_0000 0x1000
      (Z.lor (Z.lor MemFlags_READ MemFlags_WRITE) MemFlags_DEVICE);
    mkGuestRegion 0xfee0_0000 0xfee0_0000 0x1000
      (Z.lor (Z.lor MemFlags_READ MemFlags_WRITE) MemFlags_DEVICE) ].

(** [for r in guest_memory_regions { gpm.map_region(r.into())? }] *)
Fixpoint map_regions (gpm : GuestPhysMemorySet H) (rs : list GuestMemoryRegion) :
    out (result RvmError unit * GuestPhysMemorySet H) :=
  match rs with
  | [] => Ret (Ok tt, gpm)
  | r :: rs =>
      region ← MapRegion_from r;
      let? (_, gpm) := map_region gpm region in
      map_regions gpm rs
  end.

(** Dropping the set: [clear], then the frames of the page table. *)
Definition Gpm_drop (self : GuestPhysMemorySet H) : out (memory * Host) :=
  self ← Gpm_clear self;
  h ← foldM PhysFrame_drop (host (npt self)) (intrm_tables (npt self));
  Ret (mem (npt self), h).

Definition setup_gpm (ram : list Z) (m : memory) (h : Host) (entry_paddr : Z) :
    out (result RvmError (GuestPhysMemorySet H) * (list Z * (memory * Host))) :=
  ram ← load_guest_image ram entry_paddr GUEST_ENTRY GUEST_IMAGE_SIZE;
  '(r, mh) ← Gpm_new m h;
  match r with
  | Err e => Ret (Err e, (ram, mh))
  | Ok gpm =>
      ptr ← gpa_as_mut_ptr GUEST_PHYS_MEMORY_BASE;
      vaddr ← VirtAddr_new ptr;
      ram_hpa ← convert_virtual_to_physical offset vaddr;
      '(x, gpm) ← map_regions gpm (guest_memory_regions ram_hpa);
      match x with
      | Err e => mh ← Gpm_drop gpm; Ret (Err e, (ram, mh))
      | Ok _ => Ret (Ok gpm, (ram, (mem (npt gpm), host (npt gpm))))
      end
  end.

End Setup.

(** With overflow checks the guest's memory is never set up: the RAM region
    has guest address 0, and the offset [0 - hpa] of [MapRegion::new_offset]
    overflows for every host address but 0. *)
Theorem setup_gpm_dev_never_ok {PTE : GenericPTE} {H : RvmHal} {XA : X86Addr}
    (addr offset : Z) (raw_slice : Z → Z → list Z) ram m h entry gpm s :
  0 ≤ offset < addr → addr < 2 ^ 64 →
  @setup_gpm dev _ _ _ addr offset raw_slice ram m h entry ≠ Ret (Ok gpm, s).
Proof.
  intros Ho Ha. unfold setup_gpm.
  destruct (load_guest_image _ _ _ _ _ _) as [ram'|]; [|done]. run.
  destruct (Gpm_new m h) as [[[g|e] mh]|]; run; [|done|done].
  unfold gpa_as_mut_ptr, GUEST_PHYS_MEMORY_BASE. rewrite (add_u_ok 64 0 addr) by lia. run.
  destruct (VirtAddr_new (0 + addr)) as [v|] eqn:E; run; [|done]. apply VirtAddr_new_inv in E as ->.
  unfold convert_virtual_to_physical. rewrite sub_u_ok by lia. run.
  destruct (PhysAddr_new _) as [p|] eqn:E; run; [|done]. apply PhysAddr_new_inv in E as [-> _].
  cbn [map_regions guest_memory_regions]. unfold MapRegion_from, new_offset. cbn [gpa hpa].
  unfold sub_u, norm. destruct (in_range 64 (GUEST_PHYS_MEMORY_BASE - (0 + addr - offset))) eqn:E; [|done].
  apply in_range_true in E. unfold GUEST_PHYS_MEMORY_BASE in E. lia.
Qed.

Section SetupOk.
#[local] Existing Instance release.
Context {BF : BitField} {FL : Bitflags} {H : RvmHal} {HL : RvmHalLaws H}.

(** The region a description becomes when subtraction wraps. *)
Definition wrapped_region (g : GuestMemoryRegion) : MapRegion :=
  mkRegion (gpa g) (gsize g) (gflags g) (Offset (wrap 64 (gpa g - hpa g))).

Lemma MapRegion_from_wrapped g : MapRegion_from g = Ret (wrapped_region g).
Proof.
  unfold MapRegion_from, new_offset, sub_u, norm, wrapped_region. case_bool; [|done].
  apply in_range_true in E. by rewrite wrap_small.
Qed.

(** A page-aligned piece of guest memory with some access. *)
Definition guest_region_ok (g : GuestMemoryRegion) : Prop :=
  0 ≤ gpa g ∧ 0 < gsize g ∧ gpa g + gsize g ≤ 2 ^ 48 ∧ gpa g mod 4096 = 0 ∧
  gsize g mod 4096 = 0 ∧ 0 ≤ gflags g < 16 ∧ Z.land (gflags g) 7 ≠ 0.

Lemma wrapped_region_ok g : guest_region_ok g →
  region_bounds (wrapped_region g) ∧ region_mappable (wrapped_region g).
Proof.
  intros (? & ? & ? & ? & ? & ? & ?). split; [unfold region_bounds; cbn; lia|].
  split; [done|]. split; [done|]. split; [done|]. intros w Hw. by apply ept_entry_used.
Qed.

Definition add_region (m : BTreeMap MapRegion) (g : GuestMemoryRegion) : BTreeMap MapRegion :=
  btree_insert m (gpa g) (wrapped_region g).

(** No region of the list meets a recorded one or one before it. *)
Fixpoint fits (m : BTreeMap MapRegion) (rs : list GuestMemoryRegion) : bool :=
  match rs with
  | [] => true
  | g :: rs => all_disjoint m (wrapped_region g) && fits (add_region m g) rs
  end.

Lemma map_regions_ok rs : ∀ gpm, gpm_ok gpm [] → (∀ g, g ∈ rs → guest_region_ok g) →
  fits (regions gpm) rs = true →
  ∃ x gpm', map_regions gpm rs = Ret (x, gpm') ∧
    match x with
    | Err e => e = OutOfMemory
    | Ok _ => gpm_ok gpm' [] ∧ regions gpm' = foldl add_region (regions gpm) rs
    end.
Proof.
  induction rs as [|g rs IH]; intros gpm Hok Hg Hfit; [by exists (Ok tt), gpm|].
  cbn [map_regions fits foldl] in *. apply andb_true_iff in Hfit as [Hd Hfit].
  destruct (wrapped_region_ok g) as [Hb Hm]; [apply Hg; left|].
  rewrite MapRegion_from_wrapped. run.
  destruct (map_region_ok gpm _ _ Hok Hb Hm) as (x & gpm' & -> & HP). rewrite Hd in HP.
  destruct x as [[]|e]; run.
  - destruct HP as (_ & Hok' & HE). change (start (wrapped_region g)) with (gpa g) in HE.
    fold (add_region (regions gpm) g) in HE. rewrite <- HE in *.
    apply IH; [done| |done]. intros g' ?. apply Hg. by right.
  - exists (Err e), gpm'. split; [done|]. destruct HP as (_ & n & _ & _ & _ & [->|(_ & s & Hs & _)]); [done|].
    by apply elem_of_nil in Hs.
Qed.

(** What the set answers for an address of the region that covers it. *)
Lemma gpm_query gpm w g : gpm_ok gpm [] → 0 ≤ w < 2 ^ 48 → guest_region_ok g →
  List.find (λ kv, covers kv.2 w) (regions gpm) = Some (gpa g, wrapped_region g) →
  0 ≤ hpa g → hpa g mod 4096 = 0 → hpa g + gsize g ≤ 2 ^ 52 →
  query (npt gpm) w = Ret (Ok (hpa g + (w - gpa g), gflags g)).
Proof.
  intros (_ & _ & _ & _ & [Hpt Hag]) Hw Hg Hf Hh Hal Hhi. rewrite app_nil_r in Hag.
  pose proof Hg as (? & ? & ? & Hga & ? & ? & Hacc).
  pose proof (List.find_some _ _ Hf) as [_ Hc]. apply covers_true in Hc. cbn in Hc.
  rewrite query_ok by done. rewrite Hag by done. unfold translate. rewrite Hf. cbn [snd].
  unfold region_entry. cbn [rflags wrapped_region].
  set (d := page_base w - gpa g).
  assert (0 ≤ d ∧ d ≤ w - gpa g ∧ d mod 4096 = 0 ∧ w mod 4096 + d = w - gpa g) as (? & ? & Hd & Hwd).
  { subst d. unfold page_base. pose proof (Z.div_mod w 4096). pose proof (Z.mod_pos_bound w 4096).
    pose proof (Z.div_mod (gpa g) 4096).
    replace (w - w mod 4096 - gpa g) with ((w / 4096 - gpa g / 4096) * 4096) by lia.
    rewrite Z.mod_mul by lia. lia. }
  assert (target (wrapped_region g) (page_base w) = hpa g + d) as ->.
  { replace (page_base w) with (gpa g + d) by lia.
    apply (new_offset_target _ _ (gsize g) (gflags g)); [apply MapRegion_from_wrapped|lia|lia]. }
  assert ((hpa g + d) mod 4096 = 0) as Hmod by (rewrite Z.add_mod, Hal, Hd by lia; done).
  rewrite align_down_eq, Hmod, Z.sub_0_r by lia.
  assert (paddr_ok (hpa g + d)) by (split; [lia|done]).
  rewrite new_page_paddr, new_page_flags; [do 3 f_equal; lia|done| |done|done].
  split; [|lia]. assert (gflags g ≠ 0) by (intros E; by rewrite E in Hacc). lia.
Qed.

Lemma guest_memory_regions_ok ram_hpa g :
  g ∈ guest_memory_regions ram_hpa → guest_region_ok g.
Proof.
  unfold guest_memory_regions. rewrite !elem_of_cons, elem_of_nil.
  intros [->|[->|[->|[->|[]]]]]; vm_compute; repeat split; congruence.
Qed.

(** The region of the table that covers [w]. *)
Definition guest_region_at (ram_hpa w : Z) : option GuestMemoryRegion :=
  List.find (λ g, (gpa g <=? w) && (w <? gpa g + gsize g)) (guest_memory_regions ram_hpa).

Lemma find_guest_region ram_hpa w :
  List.find (λ kv, covers kv.2 w) (foldl add_region [] (guest_memory_regions ram_hpa)) =
  (λ g, (gpa g, wrapped_region g)) <$> guest_region_at ram_hpa w.
Proof.
  replace (foldl add_region [] (guest_memory_regions ram_hpa))
    with ((λ g, (gpa g, wrapped_region g)) <$> guest_memory_regions ram_hpa) by reflexivity.
  unfold guest_region_at. induction (guest_memory_regions ram_hpa) as [|g rs IH]; [done|].
  rewrite fmap_cons. cbn [List.find snd]. rewrite IH.
  change (covers (wrapped_region g) w) with ((gpa g <=? w) && (w <? gpa g + gsize g)).
  by case_bool.
Qed.

(** Without overflow checks [setup_gpm] gives the guest the memory its table
    describes, from an empty page table: RAM at guest address 0 backed by the
    16 MiB at [hpa], readable, writable and executable; the IO APIC, HPET and local
    APIC pages mapped to themselves as device memory; and nothing else. The only
    failure is a host out of memory. *)
Theorem setup_gpm_translates npt0 ram_hpa :
  pt_ok npt0 → (∀ v, mapped npt0 v = None) →
  0 ≤ ram_hpa → ram_hpa mod 4096 = 0 → ram_hpa + GUEST_PHYS_MEMORY_SIZE ≤ 2 ^ 52 →
  ∃ x gpm, map_regions (mkGpm [] npt0) (guest_memory_regions ram_hpa) = Ret (x, gpm) ∧
    match x with
    | Err e => e = OutOfMemory
    | Ok _ => ∀ w, 0 ≤ w < 2 ^ 48 →
        match guest_region_at ram_hpa w with
        | Some g => query (npt gpm) w = Ret (Ok (hpa g + (w - gpa g), gflags g))
        | None => ∃ e, query (npt gpm) w = Ret (Err e)
        end
    end.
Proof.
  intros Hpt Hnone Hh Hal Hhi.
  destruct (map_regions_ok (guest_memory_regions ram_hpa) (mkGpm [] npt0))
    as (x & gpm & -> & HP); [|apply guest_memory_regions_ok|done|].
  { by apply empty_gpm_ok. }
  exists x, gpm. split; [done|]. destruct x as [[]|e]; [|done]. destruct HP as [Hok HE].
  intros w Hw. pose proof (find_guest_region ram_hpa w) as Hfind. cbn [regions] in HE.
  rewrite <- HE in Hfind.
  destruct (guest_region_at ram_hpa w) as [g|] eqn:Eg; cbn in Hfind.
  - pose proof (List.find_some _ _ Eg) as [Hin Hc]. apply list_elem_of_In in Hin.
    pose proof (guest_memory_regions_ok _ _ Hin) as Hg.
    apply gpm_query; try done;
      unfold guest_memory_regions in Hin; rewrite !elem_of_cons, elem_of_nil in Hin;
      destruct Hin as [->|[->|[->|[->|[]]]]]; done.
  - destruct Hok as (_ & _ & _ & _ & [Hpt' Hag]). rewrite app_nil_r in Hag. rewrite query_ok, Hag by done.
    unfold translate. rewrite Hfind. by eexists.
Qed.

End SetupOk.

(** ** Examples *)

Section Examples.
#[local] Existing Instances Reference.bit_field Reference.bitflags Reference.x86_addr small_hal
  small_hal_laws.

Definition two_pages : MapRegion := mkRegion 0x4000 0x2000 7 (Offset 0x1000).
Definition third_page : MapRegion := mkRegion 0x5000 0x1000 7 (Offset 0).

Lemma two_pages_mappable : op_mappable (GMap two_pages) ∧ op_mappable (GMap third_page).
Proof.
  split; right; (split; [unfold region_bounds; cbn; lia|]); (do 3 (split; [done|])); intros w _;
    (apply ept_entry_used; [cbn; lia|done]).
Qed.


(** The second region overlaps the first. *)
Example gpm_run_example :
  ('(xs, g) ← gpm_run (P:=dev) (mkGpm [] small_pt) [GMap two_pages; GMap third_page];
   q ← query (P:=dev) (npt g) 0x5123; Ret (xs, q)) =
  Ret ([Ok tt; Err InvalidParam], Ok (0x4123, 7)).
Proof. vm_compute. reflexivity. Qed.

Lemma setup_gpm_dev_never_ok_witness :
  setup_gpm (P:=dev) 0xffff_8000_0100_0000 0xffff_8000_0000_0000 (λ _ n, replicate (Z.to_nat n) 0)
    [] no_memory small_host 0 ≠ Ret (Ok (mkGpm [] small_pt), ([], (no_memory, small_host))).
Proof.
  apply (setup_gpm_dev_never_ok 0xffff_8000_0100_0000 0xffff_8000_0000_0000).
  - split; [discriminate|reflexivity].
  - reflexivity.
Defined.

Lemma setup_gpm_translates_witness :
  ∃ x gpm, map_regions (P:=release) (mkGpm [] small_pt) (guest_memory_regions 0x100_0000) = Ret (x, gpm) ∧
    match x with
    | Err e => e = OutOfMemory
    | Ok _ => ∀ w, 0 ≤ w < 2 ^ 48 →
        match guest_region_at 0x100_0000 w with
        | Some g => query (P:=release) (npt gpm) w = Ret (Ok (hpa g + (w - gpa g), gflags g))
        | None => ∃ e, query (P:=release) (npt gpm) w = Ret (Err e)
        end
    end.
Proof.
  destruct small_pt_empty as [Hpt Hm].
  apply (setup_gpm_translates small_pt 0x100_0000); try done.
Defined.

End Examples.
