(* ===== verification/Apic.v ===== *)
(** * The virtual local APIC

    The timer of [rvm/src/arch/x86_64/lapic.rs] and the register interface of
    [kernel/src/virt/kvm/lapic.rs] through which a guest programs it. *)

From S2P Require Import Prelude Crates Frame Ept PageTable KvmHal.

Definition APIC_FREQ_MHZ : Z := 1000.
Definition APIC_CYCLE_NANOS : Z := 1000 / APIC_FREQ_MHZ.

Inductive TimerMode := OneShot | Periodic | TscDeadline.

Definition TimerMode_bits (m : TimerMode) : Z :=
  match m with OneShot => 0 | Periodic => 1 | TscDeadline => 2 end.

Record ApicTimer := mkTimer {
  lvt_timer_bits : Z;
  divide_shift : Z;
  initial_count : Z;
  last_start_ns : Z;
  deadline_ns : Z;
}.

Definition ApicTimer_new : ApicTimer := mkTimer 0x1_0000 0 0 0 0.

Section Timer.
Context {P : Profile} {BF : BitField}.

(** [now] is [H::current_time_nanos()] at the time of the call. *)
Context (now : Z).

Definition is_masked (self : ApicTimer) : bool :=
  negb (Z.land (lvt_timer_bits self) (Z.shiftl 1 16) =? 0).

Definition is_periodic (self : ApicTimer) : bool :=
  let timer_mode := Z.land (Z.shiftr (lvt_timer_bits self) 17) 3 in
  timer_mode =? TimerMode_bits Periodic.

Definition vector (self : ApicTimer) : Z := Z.land (lvt_timer_bits self) 0xff.

Definition lvt_timer (self : ApicTimer) : Z := lvt_timer_bits self.

Definition divide (self : ApicTimer) : Z :=
  let dcr := Z.land (wrap 8 (divide_shift self - 1)) 7 in
  Z.lor (Z.land dcr 3) (Z.shiftl (Z.land dcr 4) 1).

Definition interval_ns (self : ApicTimer) : out Z :=
  cycles ← mul_u 64 (initial_count self) APIC_CYCLE_NANOS;
  shl_u 64 cycles (divide_shift self).

Definition start_timer (self : ApicTimer) : out ApicTimer :=
  if negb (initial_count self =? 0) then
    interval ← interval_ns self;
    deadline ← add_u 64 now interval;
    Ret (mkTimer (lvt_timer_bits self) (divide_shift self) (initial_count self) now deadline)
  else
    Ret (mkTimer (lvt_timer_bits self) (divide_shift self) (initial_count self)
      (last_start_ns self) 0).

Definition set_deadline (self : ApicTimer) (d : Z) : ApicTimer :=
  mkTimer (lvt_timer_bits self) (divide_shift self) (initial_count self) (last_start_ns self) d.

Definition check_interrupt (self : ApicTimer) : out (bool * ApicTimer) :=
  if deadline_ns self =? 0 then Ret (false, self)
  else if deadline_ns self <=? now then
    self' ← (if is_periodic self then
        interval ← interval_ns self;
        deadline ← add_u 64 (deadline_ns self) interval;
        Ret (set_deadline self deadline)
      else Ret (set_deadline self 0));
    Ret (negb (is_masked self'), self')
  else Ret (false, self).

Definition current_counter (self : ApicTimer) : out Z :=
  elapsed_ns ← sub_u 64 now (last_start_ns self);
  elapsed_cycles ← shr_u 64 (elapsed_ns / APIC_CYCLE_NANOS) (divide_shift self);
  if is_periodic self then
    rest ← rem_u elapsed_cycles (initial_count self);
    sub_u 32 (initial_count self) (wrap 32 rest)
  else if elapsed_cycles <? initial_count self then
    sub_u 32 (initial_count self) (wrap 32 elapsed_cycles)
  else Ret 0.

Definition set_lvt_timer (self : ApicTimer) (bits : Z) : out (result RvmError unit * ApicTimer) :=
  let timer_mode := get_bits bits 17 19 in
  if timer_mode =? TimerMode_bits TscDeadline then Ret (Err Unsupported, self)
  else if timer_mode =? 3 then Ret (Err InvalidParam, self)
  else
    self ← start_timer (mkTimer bits (divide_shift self) (initial_count self)
      (last_start_ns self) (deadline_ns self));
    Ret (Ok tt, self).

Definition set_initial_count (self : ApicTimer) (initial : Z) :
    out (result RvmError unit * ApicTimer) :=
  self ← start_timer (mkTimer (lvt_timer_bits self) (divide_shift self) initial
    (last_start_ns self) (deadline_ns self));
  Ret (Ok tt, self).

Definition set_divide (self : ApicTimer) (dcr : Z) : out (result RvmError unit * ApicTimer) :=
  let shift := Z.lor (Z.land dcr 3) (Z.shiftr (Z.land dcr 8) 1) in
  shift' ← add_u 32 shift 1;
  self ← start_timer (mkTimer (lvt_timer_bits self) (Z.land (wrap 8 shift') 7)
    (initial_count self) (last_start_ns self) (deadline_ns self));
  Ret (Ok tt, self).

(** ** [VirtLocalApic]: the x2APIC registers *)

Definition EOI : Z := 0xB.
Definition SIVR : Z := 0xF.
Definition ICR : Z := 0x30.
Definition LVT_TIMER : Z := 0x32.
Definition LVT_THERMAL : Z := 0x33.
Definition LVT_PMI : Z := 0x34.
Definition LVT_LINT0 : Z := 0x35.
Definition LVT_LINT1 : Z := 0x36.
Definition LVT_ERR : Z := 0x37.
Definition INIT_COUNT : Z := 0x38.
Definition CUR_COUNT : Z := 0x39.
Definition DIV_CONF : Z := 0x3E.

Definition msr_range (msr : Z) : bool := (0x800 <=? msr) && (msr <? 0x840).

(** [matches!(offset, LVT_THERMAL | LVT_PMI | LVT_LINT0 | LVT_LINT1 | LVT_ERR)] *)
Definition masked_lvt (offset : Z) : bool :=
  existsb (Z.eqb offset) [LVT_THERMAL; LVT_PMI; LVT_LINT0; LVT_LINT1; LVT_ERR].

Definition apic_read (timer : ApicTimer) (offset : Z) : out (result RvmError Z) :=
  if offset =? SIVR then Ret (Ok 0x1ff)
  else if masked_lvt offset then Ret (Ok 0x1_0000)
  else if offset =? LVT_TIMER then Ret (Ok (lvt_timer timer))
  else if offset =? INIT_COUNT then Ret (Ok (initial_count timer))
  else if offset =? DIV_CONF then Ret (Ok (divide timer))
  else if offset =? CUR_COUNT then c ← current_counter timer; Ret (Ok c)
  else Ret (Err Unsupported).

Definition apic_write (timer : ApicTimer) (offset value : Z) :
    out (result RvmError unit * ApicTimer) :=
  if negb (offset =? ICR) && negb (Z.shiftr value 32 =? 0) then Ret (Err InvalidParam, timer)
  else if offset =? EOI then
    if negb (value =? 0) then Ret (Err InvalidParam, timer) else Ret (Ok tt, timer)
  else if (offset =? SIVR) || masked_lvt offset then Ret (Ok tt, timer)
  else if offset =? LVT_TIMER then set_lvt_timer timer (wrap 32 value)
  else if offset =? INIT_COUNT then set_initial_count timer (wrap 32 value)
  else if offset =? DIV_CONF then set_divide timer (wrap 32 value)
  else Ret (Err Unsupported, timer).

Definition rdmsr (timer : ApicTimer) (msr : Z) : out (result RvmError Z) :=
  offset ← sub_u 32 msr 0x800;
  apic_read timer offset.

Definition wrmsr (timer : ApicTimer) (msr value : Z) : out (result RvmError unit * ApicTimer) :=
  offset ← sub_u 32 msr 0x800;
  apic_write timer offset value.

End Timer.

(** ** Divide configuration *)

(** The bits of a divide configuration register that count, and the divisors
    they stand for (SDM Vol. 3A, Figure 10-10). *)
Definition divisor (dcr : Z) : Z :=
  match Z.land dcr 0xb with
  | 0 => 2 | 1 => 4 | 2 => 8 | 3 => 16 | 8 => 32 | 9 => 64 | 10 => 128 | _ => 1
  end.

(** The shift [set_divide] computes. *)
Definition dcr_shift (dcr : Z) : Z :=
  Z.land (wrap 8 (Z.lor (Z.land dcr 3) (Z.shiftr (Z.land dcr 8) 1) + 1)) 7.

Lemma dcr_parts dcr : Z.land dcr 3 = Z.land (Z.land dcr 0xb) 3 ∧ Z.land dcr 8 = Z.land (Z.land dcr 0xb) 8.
Proof. by rewrite <- !Z.land_assoc. Qed.

Lemma dcr_cases dcr :
  In (Z.land dcr 0xb) [0; 1; 2; 3; 8; 9; 10; 11].
Proof.
  assert (0 ≤ Z.land dcr 0xb < 16) as Hr.
  { change 0xb with (Z.land 0xb (Z.ones 4)). rewrite Z.land_assoc, Z.land_ones by done.
    by apply Z.mod_pos_bound. }
  assert (Z.testbit (Z.land dcr 0xb) 2 = false) as Hb by (rewrite Z.land_spec; apply andb_false_r).
  generalize dependent (Z.land dcr 0xb). intros x Hr Hb. cbn.
  assert (In x [0;1;2;3;4;5;6;7;8;9;10;11;12;13;14;15]) as Hx by (cbn; lia).
  cbn in Hx. repeat destruct Hx as [<-|Hx]; try tauto; done.
Qed.

Lemma dcr_shift_spec dcr :
  0 ≤ dcr_shift dcr ≤ 7 ∧ 2 ^ dcr_shift dcr = divisor dcr ∧
  (let c := Z.land (wrap 8 (dcr_shift dcr - 1)) 7 in
   Z.lor (Z.land c 3) (Z.shiftl (Z.land c 4) 1)) = Z.land dcr 0xb.
Proof.
  unfold dcr_shift, divisor. destruct (dcr_parts dcr) as [-> ->]. pose proof (dcr_cases dcr) as Hc.
  generalize dependent (Z.land dcr 0xb). intros x Hc. cbn in Hc.
  repeat destruct Hc as [<-|Hc]; try done.
Qed.

Lemma dcr_shift_small dcr :
  0 ≤ Z.lor (Z.land dcr 3) (Z.shiftr (Z.land dcr 8) 1) + 1 < 2 ^ 32.
Proof.
  destruct (dcr_parts dcr) as [-> ->]. pose proof (dcr_cases dcr) as Hc.
  generalize dependent (Z.land dcr 0xb). intros x Hc. cbn in Hc.
  repeat destruct Hc as [<-|Hc]; try done.
Qed.

(** ** The invariant of a timer

    [T] is the current time. Time stays below 2^63 ns (292 years), so that no
    deadline overflows. *)

Definition time_ok (T : Z) : Prop := 0 ≤ T < 2 ^ 63.

Definition timer_mode (t : ApicTimer) : Z := Z.land (Z.shiftr (lvt_timer_bits t) 17) 3.

Definition interval (t : ApicTimer) : Z := initial_count t * 2 ^ divide_shift t.

Record timer_ok (T : Z) (t : ApicTimer) : Prop := {
  ok_bits : 0 ≤ lvt_timer_bits t < 2 ^ 32;
  ok_mode : timer_mode t = 0 ∨ timer_mode t = 1;
  ok_shift : 0 ≤ divide_shift t ≤ 7;
  ok_count : 0 ≤ initial_count t < 2 ^ 32;
  ok_start : 0 ≤ last_start_ns t ≤ T;
  ok_armed : deadline_ns t = 0 ∨ 0 < initial_count t ∧ 0 < deadline_ns t ≤ T + interval t;
}.

Section Facts.
Context {P : Profile} {BF : BitField}.

Lemma interval_bounds t : 0 ≤ divide_shift t ≤ 7 → 0 ≤ initial_count t < 2 ^ 32 →
  0 ≤ interval t < 2 ^ 39 ∧ initial_count t ≤ interval t.
Proof.
  intros Hs Hc. unfold interval.
  assert (1 ≤ 2 ^ divide_shift t ≤ 128) as Hp.
  { split; [apply (Z.pow_le_mono_r 2 0); lia|apply (Z.pow_le_mono_r 2 _ 7); lia]. }
  nia.
Qed.

Lemma interval_ns_ok t : 0 ≤ divide_shift t ≤ 7 → 0 ≤ initial_count t < 2 ^ 32 →
  interval_ns t = Ret (interval t).
Proof.
  intros Hs Hc. destruct (interval_bounds t Hs Hc) as [? _]. unfold interval_ns.
  change APIC_CYCLE_NANOS with 1. rewrite mul_u_ok, Z.mul_1_r by lia. run.
  rewrite shl_u_ok by lia. rewrite Z.shiftl_mul_pow2 by lia. fold (interval t).
  by rewrite wrap_small by lia.
Qed.

(** Programming a register restarts the timer. *)
Lemma start_timer_ok T t : time_ok T → 0 ≤ lvt_timer_bits t < 2 ^ 32 →
  timer_mode t = 0 ∨ timer_mode t = 1 → 0 ≤ divide_shift t ≤ 7 →
  0 ≤ initial_count t < 2 ^ 32 → 0 ≤ last_start_ns t ≤ T →
  ∃ t', start_timer T t = Ret t' ∧ timer_ok T t' ∧
    lvt_timer_bits t' = lvt_timer_bits t ∧ divide_shift t' = divide_shift t ∧
    initial_count t' = initial_count t ∧
    deadline_ns t' = (if initial_count t =? 0 then 0 else T + interval t) ∧
    last_start_ns t' = (if initial_count t =? 0 then last_start_ns t else T).
Proof.
  intros HT Hl Hm Hs Hc Hst. unfold start_timer, time_ok in *.
  destruct (interval_bounds t Hs Hc) as [Hi Hge].
  destruct (initial_count t =? 0) eqn:E; cbn [negb]; breflect.
  - eexists. split; [done|]. cbn. split; [|done]. split; cbn; try done. by left.
  - rewrite interval_ns_ok by done. run. rewrite add_u_ok by lia. run. eexists. split; [done|].
    cbn. split; [|done]. split; cbn; try done; [lia|]. right.
    change (interval (mkTimer _ _ _ _ _)) with (interval t). lia.
Qed.

Lemma timer_ok_mono T T' t : T ≤ T' → timer_ok T t → timer_ok T' t.
Proof.
  intros HT Hok. destruct Hok as [? ? ? ? ? Ha]. split; try done; [lia|].
  destruct Ha as [?|?]; [by left|right]. lia.
Qed.

Lemma check_interrupt_ok T t : time_ok T → timer_ok T t →
  ∃ t', check_interrupt T t =
      Ret (negb (deadline_ns t =? 0) && (deadline_ns t <=? T) && negb (is_masked t), t') ∧
    timer_ok T t' ∧
    t' = set_deadline t
      (if negb (deadline_ns t =? 0) && (deadline_ns t <=? T)
       then if is_periodic t then deadline_ns t + interval t else 0
       else deadline_ns t).
Proof.
  intros HT Hok. pose proof Hok as [? ? Hs Hc ? Ha]. unfold check_interrupt, time_ok in *.
  destruct (interval_bounds t Hs Hc) as [Hi _].
  destruct (deadline_ns t =? 0) eqn:E0; cbn [negb andb]; breflect.
  { exists t. rewrite E0. destruct t; cbn in *. subst. done. }
  destruct (deadline_ns t <=? T) eqn:E1; cbn [andb]; breflect; [|exists t; by destruct t].
  destruct (is_periodic t) eqn:Ep.
  - rewrite interval_ns_ok by done. run. rewrite add_u_ok by lia. run.
    eexists. split; [done|]. split; [|done]. split; cbn; try done. right.
    change (interval (set_deadline t _)) with (interval t). lia.
  - run. eexists. split; [done|]. split; [|done]. split; cbn; try done. by left.
Qed.

Lemma get_mode bits : get_bits bits 17 19 = Z.land (Z.shiftr bits 17) 3.
Proof. rewrite get_bits_spec by lia. done. Qed.

Lemma mode_range bits : 0 ≤ Z.land (Z.shiftr bits 17) 3 < 4.
Proof. change 3 with (Z.ones 2). rewrite Z.land_ones by done. by apply Z.mod_pos_bound. Qed.

Lemma apic_write_ok T t offset v : time_ok T → timer_ok T t → 0 ≤ v < 2 ^ 64 →
  ∃ r t', apic_write T t offset v = Ret (r, t') ∧ timer_ok T t' ∧ (∀ e, r = Err e → t' = t).
Proof.
  intros HT Hok Hv. pose proof Hok as [Hl Hm Hs Hc Hst Ha]. unfold apic_write.
  pose proof (wrap_range 32 v) as Hw.
  case_bool; [by exists (Err InvalidParam), t|].
  case_bool; [case_bool; [by exists (Err InvalidParam), t|by exists (Ok tt), t]|].
  case_bool; [by exists (Ok tt), t|]. case_bool; [|case_bool; [|case_bool]].
  - unfold set_lvt_timer. rewrite get_mode. pose proof (mode_range (wrap 32 v)).
    case_bool; [by exists (Err Unsupported), t|]. case_bool; [by exists (Err InvalidParam), t|].
    destruct (start_timer_ok T (mkTimer (wrap 32 v) (divide_shift t) (initial_count t)
      (last_start_ns t) (deadline_ns t))) as (t' & -> & Hok' & _); try done.
    { apply Hw. lia. }
    { unfold timer_mode. cbn in *. lia. }
    by exists (Ok tt), t'.
  - unfold set_initial_count.
    destruct (start_timer_ok T (mkTimer (lvt_timer_bits t) (divide_shift t) (wrap 32 v)
      (last_start_ns t) (deadline_ns t))) as (t' & -> & Hok' & _); try done.
    { apply Hw. lia. }
    by exists (Ok tt), t'.
  - unfold set_divide. destruct (dcr_shift_spec (wrap 32 v)) as [Hd _].
    rewrite add_u_ok by apply dcr_shift_small. run.
    destruct (start_timer_ok T (mkTimer (lvt_timer_bits t) (dcr_shift (wrap 32 v)) (initial_count t)
      (last_start_ns t) (deadline_ns t))) as (t' & E' & Hok' & _); try done.
    unfold dcr_shift in E'. rewrite E'. by exists (Ok tt), t'.
  - by exists (Err Unsupported), t.
Qed.

End Facts.

(** ** A guest and its timer

    Time passes, the guest writes registers, the hypervisor polls the timer. *)

Inductive apic_step {P : Profile} {BF : BitField} : Z * ApicTimer → Z * ApicTimer → Prop :=
  | step_wait T T' t : T ≤ T' → time_ok T' → apic_step (T, t) (T', t)
  | step_write T t msr v r t' : msr_range msr = true → 0 ≤ v < 2 ^ 64 →
      wrmsr T t msr v = Ret (r, t') → apic_step (T, t) (T, t')
  | step_check T t b t' : check_interrupt T t = Ret (b, t') → apic_step (T, t) (T, t').

Definition apic_reachable {P : Profile} {BF : BitField} (T : Z) (t : ApicTimer) : Prop :=
  rtc apic_step (0, ApicTimer_new) (T, t).

Section Reachable.
Context {P : Profile} {BF : BitField}.

Lemma msr_offset msr : msr_range msr = true →
  sub_u 32 msr 0x800 = Ret (msr - 0x800) ∧ 0 ≤ msr - 0x800 < 0x40.
Proof.
  unfold msr_range. intros Hm. breflect. split; [apply sub_u_ok|]; lia.
Qed.

Lemma wrmsr_ok T t msr v : time_ok T → timer_ok T t → msr_range msr = true → 0 ≤ v < 2 ^ 64 →
  ∃ r t', wrmsr T t msr v = Ret (r, t') ∧ timer_ok T t' ∧ (∀ e, r = Err e → t' = t).
Proof.
  intros HT Hok Hm Hv. unfold wrmsr. destruct (msr_offset msr Hm) as [-> _]. run.
  by apply apic_write_ok.
Qed.

Lemma apic_step_ok s s' : apic_step s s' → time_ok s.1 → timer_ok s.1 s.2 →
  time_ok s'.1 ∧ timer_ok s'.1 s'.2.
Proof.
  intros Hs HT Hok. inversion Hs as [T T' t Hle HT' | T t msr v r t' Hm Hv E | T t b t' E]; subst; cbn in *.
  - split; [done|]. by eapply timer_ok_mono.
  - split; [done|]. destruct (wrmsr_ok T t msr v HT Hok Hm Hv) as (? & ? & E' & ? & _).
    rewrite E in E'. by injection E' as _ <-.
  - split; [done|]. destruct (check_interrupt_ok T t HT Hok) as (? & E' & ? & _).
    rewrite E in E'. by injection E' as _ <-.
Qed.

Lemma apic_reachable_ok T t : apic_reachable T t → time_ok T ∧ timer_ok T t.
Proof.
  intros Hr. apply (rtc_ind_r (λ s, time_ok s.1 ∧ timer_ok s.1 s.2) (0, ApicTimer_new)) in Hr; [done| |].
  - split; [by vm_compute|]. split; cbn; try lia; by left.
  - intros s s' _ Hs [HT Hok]. by apply (apic_step_ok s).
Qed.

(** The Current Count register, as the manual describes it. *)
Definition counter_spec (T : Z) (t : ApicTimer) : out Z :=
  let ticks := (T - last_start_ns t) / 2 ^ divide_shift t in
  if is_periodic t then
    if initial_count t =? 0 then Panic
    else Ret (initial_count t - ticks mod initial_count t)
  else Ret (Z.max 0 (initial_count t - ticks)).

Lemma current_counter_spec T t : time_ok T → timer_ok T t → current_counter T t = counter_spec T t.
Proof.
  intros HT [Hl Hm Hs Hc Hst Ha]. unfold current_counter, counter_spec, time_ok in *.
  rewrite sub_u_ok by lia. run. change APIC_CYCLE_NANOS with 1. rewrite Z.div_1_r.
  rewrite shr_u_ok by lia. run. rewrite Z.shiftr_div_pow2 by lia.
  set (ticks := _ / _). assert (0 ≤ ticks) as Ht.
  { apply Z.div_pos; [lia|]. apply Z.pow_pos_nonneg; lia. }
  case_bool.
  - unfold rem_u. case_bool; [done|]. run. pose proof (Z.mod_pos_bound ticks (initial_count t)).
    rewrite wrap_small, sub_u_ok by lia. done.
  - case_bool; [|f_equal; lia]. rewrite wrap_small, sub_u_ok by lia. f_equal. lia.
Qed.

Lemma apic_read_ok T t offset : time_ok T → timer_ok T t → offset ≠ CUR_COUNT →
  ∃ r, apic_read T t offset = Ret r.
Proof.
  intros HT Hok Hne. unfold apic_read. do 5 (case_bool; [by eexists|]).
  case_bool; [done|by eexists].
Qed.

End Reachable.

(** [C38] Whatever a guest writes to its timer registers and however time passes,
    register writes and the hypervisor's polling never panic, and the only register
    read that does is that of the Current Count in periodic mode with an initial
    count of 0, a division by zero in the hypervisor. *)
Theorem apic_only_panic {P : Profile} {BF : BitField} (T : Z) (t : ApicTimer) (msr v : Z) :
  apic_reachable T t → msr_range msr = true → 0 ≤ v < 2 ^ 64 →
  wrmsr T t msr v ≠ Panic ∧ check_interrupt T t ≠ Panic ∧
  (rdmsr T t msr = Panic ↔ msr = 0x800 + CUR_COUNT ∧ is_periodic t = true ∧ initial_count t = 0).
Proof.
  intros [HT Hok]%apic_reachable_ok Hm Hv.
  destruct (wrmsr_ok T t msr v HT Hok Hm Hv) as (r & t' & -> & _).
  destruct (check_interrupt_ok T t HT Hok) as (t'' & -> & _).
  split; [done|]. split; [done|]. unfold rdmsr. destruct (msr_offset msr Hm) as [-> Ho]. run.
  destruct (decide (msr - 0x800 = CUR_COUNT)) as [E|Hne].
  - rewrite E. change (apic_read T t CUR_COUNT) with (c ← current_counter T t; @Ret (result RvmError Z) (Ok c)).
    rewrite current_counter_spec by done. unfold counter_spec. cbv zeta. unfold CUR_COUNT in *.
    destruct (is_periodic t); [|split; [done|intros (_ & ? & _); done]].
    case_bool; cbn [mbind out_mbind]; split; try done.
    + intros _. split; [lia|done].
    + intros (_ & _ & ?). done.
  - destruct (apic_read_ok T t (msr - 0x800) HT Hok Hne) as [x ->]. split; [done|].
    intros (-> & _). destruct Hne. lia.
Qed.

(** The Current Count register counts down from the initial count at the
    divided rate: to 0 in one-shot mode, and around in periodic mode. *)
Theorem current_count_spec {P : Profile} {BF : BitField} (T : Z) (t : ApicTimer) :
  apic_reachable T t →
  rdmsr T t (0x800 + CUR_COUNT) = (c ← counter_spec T t; Ret (Ok c)).
Proof.
  intros [HT Hok]%apic_reachable_ok. unfold rdmsr.
  destruct (msr_offset (0x800 + CUR_COUNT) eq_refl) as [-> _]. run.
  rewrite <- (current_counter_spec T t) by done. done.
Qed.

(** [C39] Programming the initial count arms the timer: polled at a later time it
    reports an interrupt exactly when the count times the divisor has elapsed and
    the entry is not masked; a one-shot timer is then disarmed for good, a periodic
    one is due again one interval later. *)
Theorem timer_fires {P : Profile} {BF : BitField} (T T' : Z) (t t1 : ApicTimer) (c : Z) :
  apic_reachable T t → 0 < c < 2 ^ 32 → set_initial_count T t c = Ret (Ok tt, t1) →
  T ≤ T' → time_ok T' →
  let due := T + c * 2 ^ divide_shift t in
  ∃ t2, check_interrupt T' t1 = Ret ((due <=? T') && negb (is_masked t), t2) ∧
    deadline_ns t2 = (if due <=? T' then if is_periodic t then due + c * 2 ^ divide_shift t else 0
                      else due) ∧
    (due ≤ T' → is_periodic t = false → ∀ T'', check_interrupt T'' t2 = Ret (false, t2)).
Proof.
  intros [HT [Hl Hm Hs Hc Hst Ha]]%apic_reachable_ok Hc' Hset Hle HT' due. revert Hset.
  unfold set_initial_count.
  destruct (start_timer_ok T (mkTimer (lvt_timer_bits t) (divide_shift t) c (last_start_ns t)
    (deadline_ns t))) as (t' & -> & Hok' & Eb & Es & Ec & Ed & _); try done; [cbn; lia|].
  run. intros [= <-]. cbn in Eb, Es, Ec, Ed. rewrite (proj2 (Z.eqb_neq c 0)) in Ed by lia.
  unfold interval in Ed. cbn in Ed. fold due in Ed.
  assert (0 < due) as Hdue.
  { subst due. unfold time_ok in HT. pose proof (Z.pow_pos_nonneg 2 (divide_shift t)). nia. }
  destruct (check_interrupt_ok T' t' HT') as (t2 & -> & _ & ->); [by eapply timer_ok_mono|].
  unfold is_masked, is_periodic, interval in *. rewrite Eb, Ed, Es, Ec.
  rewrite (proj2 (Z.eqb_neq due 0)) by lia. cbn [negb andb].
  eexists. split; [done|]. split; [done|]. intros Hd Hp T''.
  rewrite (proj2 (Z.leb_le due T')) by done. rewrite Hp. done.
Qed.

(** The divide configuration register reads back the bits that were written
    to it, and divides by the divisor the manual gives for them. *)
Theorem divide_roundtrip {P : Profile} {BF : BitField} (T : Z) (t : ApicTimer) (dcr : Z) :
  apic_reachable T t →
  ∃ t', set_divide T t dcr = Ret (Ok tt, t') ∧ divide t' = Z.land dcr 0xb ∧
    interval t' = initial_count t * divisor dcr.
Proof.
  intros [HT [Hl Hm Hs Hc Hst Ha]]%apic_reachable_ok. unfold set_divide.
  destruct (dcr_shift_spec dcr) as (Hd & Hdiv & Hback).
  rewrite add_u_ok by apply dcr_shift_small. run. fold (dcr_shift dcr).
  destruct (start_timer_ok T (mkTimer (lvt_timer_bits t) (dcr_shift dcr) (initial_count t)
    (last_start_ns t) (deadline_ns t))) as (t' & -> & Hok' & Eb & Es & Ec & _); try done.
  cbn in Eb, Es, Ec. run. exists t'. split; [done|]. unfold divide, interval. rewrite Es, Ec, Hdiv.
  split; [exact Hback|done].
Qed.

(** The kernel's host interface reports the time 0 for ever, so the timer it
    drives never fires, whatever the guest programs. *)
Theorem kvm_timer_never_fires {P : Profile} {BF : BitField} {XA : X86Addr} (offset : Z)
    (h : BitmapFrameAllocator) (t : ApicTimer) :
  apic_reachable (@current_time_nanos (RvmHalImpl offset) h) t →
  check_interrupt (@current_time_nanos (RvmHalImpl offset) h) t = Ret (false, t).
Proof.
  cbn. intros Hr. apply apic_reachable_ok in Hr as [HT [? ? ? ? ? Ha]].
  unfold check_interrupt. case_bool; [done|]. case_bool; [|done]. destruct Ha as [?|[? ?]]; lia.
Qed.

(** ** Examples *)

Section Examples.
#[local] Existing Instances dev Reference.bit_field Reference.x86_addr.

(** A timer programmed at time 1000: count 500, divided by 4. *)
Definition one_shot : ApicTimer := mkTimer 0x30 2 500 1000 3000.

(** The guest selects periodic mode and no count. *)
Definition periodic_zero : ApicTimer := mkTimer 0x2_0030 0 0 0 0.

Lemma periodic_zero_reachable : apic_reachable 0 periodic_zero.
Proof.
  eapply rtc_l; [|apply rtc_refl]. eapply (step_write _ _ (0x800 + LVT_TIMER) 0x2_0030);
    [reflexivity|lia|reflexivity].
Qed.

Lemma one_shot_reachable : apic_reachable 1000 one_shot.
Proof.
  eapply rtc_l; [apply (step_wait _ 1000); [lia|by vm_compute]|].
  eapply rtc_l; [eapply (step_write _ _ (0x800 + LVT_TIMER) 0x30); [reflexivity|lia|reflexivity]|].
  eapply rtc_l; [eapply (step_write _ _ (0x800 + DIV_CONF) 1); [reflexivity|lia|reflexivity]|].
  eapply rtc_l; [eapply (step_write _ _ (0x800 + INIT_COUNT) 500); [reflexivity|lia|reflexivity]|].
  apply rtc_refl.
Qed.

(** The panic is reachable. *)
Lemma apic_only_panic_witness : rdmsr 0 periodic_zero (0x800 + CUR_COUNT) = Panic.
Proof.
  destruct (apic_only_panic 0 periodic_zero (0x800 + CUR_COUNT) 0 periodic_zero_reachable eq_refl)
    as (_ & _ & Hp); [lia|]. apply Hp. by repeat split.
Defined.

Lemma current_count_spec_witness : rdmsr 1000 one_shot (0x800 + CUR_COUNT) = Ret (Ok 500).
Proof. apply (current_count_spec 1000 one_shot one_shot_reachable). Defined.

Lemma timer_fires_witness :
  ∃ t2, check_interrupt 3000 one_shot = Ret (true, t2) ∧ deadline_ns t2 = 0 ∧
    (3000 ≤ 3000 → false = false → ∀ T'', check_interrupt T'' t2 = Ret (false, t2)).
Proof.
  apply (timer_fires 1000 3000 one_shot one_shot 500 one_shot_reachable);
    [lia|reflexivity|lia|by vm_compute].
Defined.

Lemma divide_roundtrip_witness :
  ∃ t', set_divide 1000 one_shot 0x1a = Ret (Ok tt, t') ∧ divide t' = 0xa ∧
    interval t' = 500 * 128.
Proof. apply (divide_roundtrip 1000 one_shot 0x1a one_shot_reachable). Defined.

Lemma kvm_timer_never_fires_witness : check_interrupt 0 periodic_zero = Ret (false, periodic_zero).
Proof. apply (kvm_timer_never_fires 0 small_host periodic_zero periodic_zero_reachable). Defined.

End Examples.
