(* ===== verification/VmcsFields.v ===== *)
(** * VMCS fields

    The fields of the virtual-machine control structure, as the enumerations of
    [rvm/src/arch/x86_64/vmx/vmcs.rs] declare them: a module for each, with the
    encoding the [VMREAD] and [VMWRITE] instructions take. *)

From S2P Require Import Prelude.

Module VmcsControl16.
Inductive VmcsControl16 :=
  | VPID
  | POSTED_INTERRUPT_NOTIFICATION_VECTOR
  | EPTP_INDEX.
Definition VmcsControl16_encoding (f : VmcsControl16) : Z :=
  match f with
  | VPID => 0x0
  | POSTED_INTERRUPT_NOTIFICATION_VECTOR => 0x2
  | EPTP_INDEX => 0x4
  end.
Definition VmcsControl16_all : list VmcsControl16 :=
  [VPID; POSTED_INTERRUPT_NOTIFICATION_VECTOR; EPTP_INDEX].
End VmcsControl16.

Module VmcsControl64.
Inductive VmcsControl64 :=
  | IO_BITMAP_A_ADDR
  | IO_BITMAP_B_ADDR
  | MSR_BITMAPS_ADDR
  | VMEXIT_MSR_STORE_ADDR
  | VMEXIT_MSR_LOAD_ADDR
  | VMENTRY_MSR_LOAD_ADDR
  | EXECUTIVE_VMCS_PTR
  | PML_ADDR
  | TSC_OFFSET
  | VIRT_APIC_ADDR
  | APIC_ACCESS_ADDR
  | POSTED_INTERRUPT_DESC_ADDR
  | VM_FUNCTION_CONTROLS
  | EPTP
  | EOI_EXIT0
  | EOI_EXIT1
  | EOI_EXIT2
  | EOI_EXIT3
  | EPTP_LIST_ADDR
  | VMREAD_BITMAP_ADDR
  | VMWRITE_BITMAP_ADDR
  | VIRT_EXCEPTION_INFO_ADDR
  | XSS_EXITING_BITMAP
  | ENCLS_EXITING_BITMAP
  | SUBPAGE_PERM_TABLE_PTR
  | TSC_MULTIPLIER.
Definition VmcsControl64_encoding (f : VmcsControl64) : Z :=
  match f with
  | IO_BITMAP_A_ADDR => 0x2000
  | IO_BITMAP_B_ADDR => 0x2002
  | MSR_BITMAPS_ADDR => 0x2004
  | VMEXIT_MSR_STORE_ADDR => 0x2006
  | VMEXIT_MSR_LOAD_ADDR => 0x2008
  | VMENTRY_MSR_LOAD_ADDR => 0x200A
  | EXECUTIVE_VMCS_PTR => 0x200C
  | PML_ADDR => 0x200E
  | TSC_OFFSET => 0x2010
  | VIRT_APIC_ADDR => 0x2012
  | APIC_ACCESS_ADDR => 0x2014
  | POSTED_INTERRUPT_DESC_ADDR => 0x2016
  | VM_FUNCTION_CONTROLS => 0x2018
  | EPTP => 0x201A
  | EOI_EXIT0 => 0x201C
  | EOI_EXIT1 => 0x201E
  | EOI_EXIT2 => 0x2020
  | EOI_EXIT3 => 0x2022
  | EPTP_LIST_ADDR => 0x2024
  | VMREAD_BITMAP_ADDR => 0x2026
  | VMWRITE_BITMAP_ADDR => 0x2028
  | VIRT_EXCEPTION_INFO_ADDR => 0x202A
  | XSS_EXITING_BITMAP => 0x202C
  | ENCLS_EXITING_BITMAP => 0x202E
  | SUBPAGE_PERM_TABLE_PTR => 0x2030
  | TSC_MULTIPLIER => 0x2032
  end.
Definition VmcsControl64_all : list VmcsControl64 :=
  [IO_BITMAP_A_ADDR; IO_BITMAP_B_ADDR; MSR_BITMAPS_ADDR; VMEXIT_MSR_STORE_ADDR;
   VMEXIT_MSR_LOAD_ADDR; VMENTRY_MSR_LOAD_ADDR; EXECUTIVE_VMCS_PTR; PML_ADDR; TSC_OFFSET;
   VIRT_APIC_ADDR; APIC_ACCESS_ADDR; POSTED_INTERRUPT_DESC_ADDR; VM_FUNCTION_CONTROLS; EPTP;
   EOI_EXIT0; EOI_EXIT1; EOI_EXIT2; EOI_EXIT3; EPTP_LIST_ADDR; VMREAD_BITMAP_ADDR;
   VMWRITE_BITMAP_ADDR; VIRT_EXCEPTION_INFO_ADDR; XSS_EXITING_BITMAP; ENCLS_EXITING_BITMAP;
   SUBPAGE_PERM_TABLE_PTR; TSC_MULTIPLIER].
End VmcsControl64.

Module VmcsControl32.
Inductive VmcsControl32 :=
  | PINBASED_EXEC_CONTROLS
  | PRIMARY_PROCBASED_EXEC_CONTROLS
  | EXCEPTION_BITMAP
  | PAGE_FAULT_ERR_CODE_MASK
  | PAGE_FAULT_ERR_CODE_MATCH
  | CR3_TARGET_COUNT
  | VMEXIT_CONTROLS
  | VMEXIT_MSR_STORE_COUNT
  | VMEXIT_MSR_LOAD_COUNT
  | VMENTRY_CONTROLS
  | VMENTRY_MSR_LOAD_COUNT
  | VMENTRY_INTERRUPTION_INFO_FIELD
  | VMENTRY_EXCEPTION_ERR_CODE
  | VMENTRY_INSTRUCTION_LEN
  | TPR_THRESHOLD
  | SECONDARY_PROCBASED_EXEC_CONTROLS
  | PLE_GAP
  | PLE_WINDOW.
Definition VmcsControl32_encoding (f : VmcsControl32) : Z :=
  match f with
  | PINBASED_EXEC_CONTROLS => 0x4000
  | PRIMARY_PROCBASED_EXEC_CONTROLS => 0x4002
  | EXCEPTION_BITMAP => 0x4004
  | PAGE_FAULT_ERR_CODE_MASK => 0x4006
  | PAGE_FAULT_ERR_CODE_MATCH => 0x4008
  | CR3_TARGET_COUNT => 0x400A
  | VMEXIT_CONTROLS => 0x400C
  | VMEXIT_MSR_STORE_COUNT => 0x400E
  | VMEXIT_MSR_LOAD_COUNT => 0x4010
  | VMENTRY_CONTROLS => 0x4012
  | VMENTRY_MSR_LOAD_COUNT => 0x4014
  | VMENTRY_INTERRUPTION_INFO_FIELD => 0x4016
  | VMENTRY_EXCEPTION_ERR_CODE => 0x4018
  | VMENTRY_INSTRUCTION_LEN => 0x401A
  | TPR_THRESHOLD => 0x401C
  | SECONDARY_PROCBASED_EXEC_CONTROLS => 0x401E
  | PLE_GAP => 0x4020
  | PLE_WINDOW => 0x4022
  end.
Definition VmcsControl32_all : list VmcsControl32 :=
  [PINBASED_EXEC_CONTROLS; PRIMARY_PROCBASED_EXEC_CONTROLS; EXCEPTION_BITMAP;
   PAGE_FAULT_ERR_CODE_MASK; PAGE_FAULT_ERR_CODE_MATCH; CR3_TARGET_COUNT; VMEXIT_CONTROLS;
   VMEXIT_MSR_STORE_COUNT; VMEXIT_MSR_LOAD_COUNT; VMENTRY_CONTROLS; VMENTRY_MSR_LOAD_COUNT;
   VMENTRY_INTERRUPTION_INFO_FIELD; VMENTRY_EXCEPTION_ERR_CODE; VMENTRY_INSTRUCTION_LEN;
   TPR_THRESHOLD; SECONDARY_PROCBASED_EXEC_CONTROLS; PLE_GAP; PLE_WINDOW].
End VmcsControl32.

Module VmcsControlNW.
Inductive VmcsControlNW :=
  | CR0_GUEST_HOST_MASK
  | CR4_GUEST_HOST_MASK
  | CR0_READ_SHADOW
  | CR4_READ_SHADOW
  | CR3_TARGET_VALUE0
  | CR3_TARGET_VALUE1
  | CR3_TARGET_VALUE2
  | CR3_TARGET_VALUE3.
Definition VmcsControlNW_encoding (f : VmcsControlNW) : Z :=
  match f with
  | CR0_GUEST_HOST_MASK => 0x6000
  | CR4_GUEST_HOST_MASK => 0x6002
  | CR0_READ_SHADOW => 0x6004
  | CR4_READ_SHADOW => 0x6006
  | CR3_TARGET_VALUE0 => 0x6008
  | CR3_TARGET_VALUE1 => 0x600A
  | CR3_TARGET_VALUE2 => 0x600C
  | CR3_TARGET_VALUE3 => 0x600E
  end.
Definition VmcsControlNW_all : list VmcsControlNW :=
  [CR0_GUEST_HOST_MASK; CR4_GUEST_HOST_MASK; CR0_READ_SHADOW; CR4_READ_SHADOW; CR3_TARGET_VALUE0;
   CR3_TARGET_VALUE1; CR3_TARGET_VALUE2; CR3_TARGET_VALUE3].
End VmcsControlNW.

Module VmcsGuest16.
Inductive VmcsGuest16 :=
  | ES_SELECTOR
  | CS_SELECTOR
  | SS_SELECTOR
  | DS_SELECTOR
  | FS_SELECTOR
  | GS_SELECTOR
  | LDTR_SELECTOR
  | TR_SELECTOR
  | INTERRUPT_STATUS
  | PML_INDEX.
Definition VmcsGuest16_encoding (f : VmcsGuest16) : Z :=
  match f with
  | ES_SELECTOR => 0x800
  | CS_SELECTOR => 0x802
  | SS_SELECTOR => 0x804
  | DS_SELECTOR => 0x806
  | FS_SELECTOR => 0x808
  | GS_SELECTOR => 0x80a
  | LDTR_SELECTOR => 0x80c
  | TR_SELECTOR => 0x80e
  | INTERRUPT_STATUS => 0x810
  | PML_INDEX => 0x812
  end.
Definition VmcsGuest16_all : list VmcsGuest16 :=
  [ES_SELECTOR; CS_SELECTOR; SS_SELECTOR; DS_SELECTOR; FS_SELECTOR; GS_SELECTOR; LDTR_SELECTOR;
   TR_SELECTOR; INTERRUPT_STATUS; PML_INDEX].
End VmcsGuest16.

Module VmcsGuest64.
Inductive VmcsGuest64 :=
  | LINK_PTR
  | IA32_DEBUGCTL
  | IA32_PAT
  | IA32_EFER
  | IA32_PERF_GLOBAL_CTRL
  | PDPTE0
  | PDPTE1
  | PDPTE2
  | PDPTE3
  | IA32_BNDCFGS
  | IA32_RTIT_CTL.
Definition VmcsGuest64_encoding (f : VmcsGuest64) : Z :=
  match f with
  | LINK_PTR => 0x2800
  | IA32_DEBUGCTL => 0x2802
  | IA32_PAT => 0x2804
  | IA32_EFER => 0x2806
  | IA32_PERF_GLOBAL_CTRL => 0x2808
  | PDPTE0 => 0x280A
  | PDPTE1 => 0x280C
  | PDPTE2 => 0x280E
  | PDPTE3 => 0x2810
  | IA32_BNDCFGS => 0x2812
  | IA32_RTIT_CTL => 0x2814
  end.
Definition VmcsGuest64_all : list VmcsGuest64 :=
  [LINK_PTR; IA32_DEBUGCTL; IA32_PAT; IA32_EFER; IA32_PERF_GLOBAL_CTRL; PDPTE0; PDPTE1; PDPTE2;
   PDPTE3; IA32_BNDCFGS; IA32_RTIT_CTL].
End VmcsGuest64.

Module VmcsGuest32.
Inductive VmcsGuest32 :=
  | ES_LIMIT
  | CS_LIMIT
  | SS_LIMIT
  | DS_LIMIT
  | FS_LIMIT
  | GS_LIMIT
  | LDTR_LIMIT
  | TR_LIMIT
  | GDTR_LIMIT
  | IDTR_LIMIT
  | ES_ACCESS_RIGHTS
  | CS_ACCESS_RIGHTS
  | SS_ACCESS_RIGHTS
  | DS_ACCESS_RIGHTS
  | FS_ACCESS_RIGHTS
  | GS_ACCESS_RIGHTS
  | LDTR_ACCESS_RIGHTS
  | TR_ACCESS_RIGHTS
  | INTERRUPTIBILITY_STATE
  | ACTIVITY_STATE
  | SMBASE
  | IA32_SYSENTER_CS
  | VMX_PREEMPTION_TIMER_VALUE.
Definition VmcsGuest32_encoding (f : VmcsGuest32) : Z :=
  match f with
  | ES_LIMIT => 0x4800
  | CS_LIMIT => 0x4802
  | SS_LIMIT => 0x4804
  | DS_LIMIT => 0x4806
  | FS_LIMIT => 0x4808
  | GS_LIMIT => 0x480A
  | LDTR_LIMIT => 0x480C
  | TR_LIMIT => 0x480E
  | GDTR_LIMIT => 0x4810
  | IDTR_LIMIT => 0x4812
  | ES_ACCESS_RIGHTS => 0x4814
  | CS_ACCESS_RIGHTS => 0x4816
  | SS_ACCESS_RIGHTS => 0x4818
  | DS_ACCESS_RIGHTS => 0x481A
  | FS_ACCESS_RIGHTS => 0x481C
  | GS_ACCESS_RIGHTS => 0x481E
  | LDTR_ACCESS_RIGHTS => 0x4820
  | TR_ACCESS_RIGHTS => 0x4822
  | INTERRUPTIBILITY_STATE => 0x4824
  | ACTIVITY_STATE => 0x4826
  | SMBASE => 0x4828
  | IA32_SYSENTER_CS => 0x482A
  | VMX_PREEMPTION_TIMER_VALUE => 0x482E
  end.
Definition VmcsGuest32_all : list VmcsGuest32 :=
  [ES_LIMIT; CS_LIMIT; SS_LIMIT; DS_LIMIT; FS_LIMIT; GS_LIMIT; LDTR_LIMIT; TR_LIMIT; GDTR_LIMIT;
   IDTR_LIMIT; ES_ACCESS_RIGHTS; CS_ACCESS_RIGHTS; SS_ACCESS_RIGHTS; DS_ACCESS_RIGHTS;
   FS_ACCESS_RIGHTS; GS_ACCESS_RIGHTS; LDTR_ACCESS_RIGHTS; TR_ACCESS_RIGHTS;
   INTERRUPTIBILITY_STATE; ACTIVITY_STATE; SMBASE; IA32_SYSENTER_CS; VMX_PREEMPTION_TIMER_VALUE].
End VmcsGuest32.

Module VmcsGuestNW.
Inductive VmcsGuestNW :=
  | CR0
  | CR3
  | CR4
  | ES_BASE
  | CS_BASE
  | SS_BASE
  | DS_BASE
  | FS_BASE
  | GS_BASE
  | LDTR_BASE
  | TR_BASE
  | GDTR_BASE
  | IDTR_BASE
  | DR7
  | RSP
  | RIP
  | RFLAGS
  | PENDING_DBG_EXCEPTIONS
  | IA32_SYSENTER_ESP
  | IA32_SYSENTER_EIP.
Definition VmcsGuestNW_encoding (f : VmcsGuestNW) : Z :=
  match f with
  | CR0 => 0x6800
  | CR3 => 0x6802
  | CR4 => 0x6804
  | ES_BASE => 0x6806
  | CS_BASE => 0x6808
  | SS_BASE => 0x680A
  | DS_BASE => 0x680C
  | FS_BASE => 0x680E
  | GS_BASE => 0x6810
  | LDTR_BASE => 0x6812
  | TR_BASE => 0x6814
  | GDTR_BASE => 0x6816
  | IDTR_BASE => 0x6818
  | DR7 => 0x681A
  | RSP => 0x681C
  | RIP => 0x681E
  | RFLAGS => 0x6820
  | PENDING_DBG_EXCEPTIONS => 0x6822
  | IA32_SYSENTER_ESP => 0x6824
  | IA32_SYSENTER_EIP => 0x6826
  end.
Definition VmcsGuestNW_all : list VmcsGuestNW :=
  [CR0; CR3; CR4; ES_BASE; CS_BASE; SS_BASE; DS_BASE; FS_BASE; GS_BASE; LDTR_BASE; TR_BASE;
   GDTR_BASE; IDTR_BASE; DR7; RSP; RIP; RFLAGS; PENDING_DBG_EXCEPTIONS; IA32_SYSENTER_ESP;
   IA32_SYSENTER_EIP].
End VmcsGuestNW.

Module VmcsHost16.
Inductive VmcsHost16 :=
  | ES_SELECTOR
  | CS_SELECTOR
  | SS_SELECTOR
  | DS_SELECTOR
  | FS_SELECTOR
  | GS_SELECTOR
  | TR_SELECTOR.
Definition VmcsHost16_encoding (f : VmcsHost16) : Z :=
  match f with
  | ES_SELECTOR => 0xC00
  | CS_SELECTOR => 0xC02
  | SS_SELECTOR => 0xC04
  | DS_SELECTOR => 0xC06
  | FS_SELECTOR => 0xC08
  | GS_SELECTOR => 0xC0A
  | TR_SELECTOR => 0xC0C
  end.
Definition VmcsHost16_all : list VmcsHost16 :=
  [ES_SELECTOR; CS_SELECTOR; SS_SELECTOR; DS_SELECTOR; FS_SELECTOR; GS_SELECTOR; TR_SELECTOR].
End VmcsHost16.

Module VmcsHost64.
Inductive VmcsHost64 :=
  | IA32_PAT
  | IA32_EFER
  | IA32_PERF_GLOBAL_CTRL.
Definition VmcsHost64_encoding (f : VmcsHost64) : Z :=
  match f with
  | IA32_PAT => 0x2C00
  | IA32_EFER => 0x2C02
  | IA32_PERF_GLOBAL_CTRL => 0x2C04
  end.
Definition VmcsHost64_all : list VmcsHost64 :=
  [IA32_PAT; IA32_EFER; IA32_PERF_GLOBAL_CTRL].
End VmcsHost64.

Module VmcsHost32.
Inductive VmcsHost32 :=
  | IA32_SYSENTER_CS.
Definition VmcsHost32_encoding (f : VmcsHost32) : Z :=
  match f with
  | IA32_SYSENTER_CS => 0x4C00
  end.
Definition VmcsHost32_all : list VmcsHost32 :=
  [IA32_SYSENTER_CS].
End VmcsHost32.

Module VmcsHostNW.
Inductive VmcsHostNW :=
  | CR0
  | CR3
  | CR4
  | FS_BASE
  | GS_BASE
  | TR_BASE
  | GDTR_BASE
  | IDTR_BASE
  | IA32_SYSENTER_ESP
  | IA32_SYSENTER_EIP
  | RSP
  | RIP.
Definition VmcsHostNW_encoding (f : VmcsHostNW) : Z :=
  match f with
  | CR0 => 0x6C00
  | CR3 => 0x6C02
  | CR4 => 0x6C04
  | FS_BASE => 0x6C06
  | GS_BASE => 0x6C08
  | TR_BASE => 0x6C0A
  | GDTR_BASE => 0x6C0C
  | IDTR_BASE => 0x6C0E
  | IA32_SYSENTER_ESP => 0x6C10
  | IA32_SYSENTER_EIP => 0x6C12
  | RSP => 0x6C14
  | RIP => 0x6C16
  end.
Definition VmcsHostNW_all : list VmcsHostNW :=
  [CR0; CR3; CR4; FS_BASE; GS_BASE; TR_BASE; GDTR_BASE; IDTR_BASE; IA32_SYSENTER_ESP;
   IA32_SYSENTER_EIP; RSP; RIP].
End VmcsHostNW.

Module VmcsReadOnly64.
Inductive VmcsReadOnly64 :=
  | GUEST_PHYSICAL_ADDR.
Definition VmcsReadOnly64_encoding (f : VmcsReadOnly64) : Z :=
  match f with
  | GUEST_PHYSICAL_ADDR => 0x2400
  end.
Definition VmcsReadOnly64_all : list VmcsReadOnly64 :=
  [GUEST_PHYSICAL_ADDR].
End VmcsReadOnly64.

Module VmcsReadOnly32.
Inductive VmcsReadOnly32 :=
  | VM_INSTRUCTION_ERROR
  | EXIT_REASON
  | VMEXIT_INTERRUPTION_INFO
  | VMEXIT_INTERRUPTION_ERR_CODE
  | IDT_VECTORING_INFO
  | IDT_VECTORING_ERR_CODE
  | VMEXIT_INSTRUCTION_LEN
  | VMEXIT_INSTRUCTION_INFO.
Definition VmcsReadOnly32_encoding (f : VmcsReadOnly32) : Z :=
  match f with
  | VM_INSTRUCTION_ERROR => 0x4400
  | EXIT_REASON => 0x4402
  | VMEXIT_INTERRUPTION_INFO => 0x4404
  | VMEXIT_INTERRUPTION_ERR_CODE => 0x4406
  | IDT_VECTORING_INFO => 0x4408
  | IDT_VECTORING_ERR_CODE => 0x440A
  | VMEXIT_INSTRUCTION_LEN => 0x440C
  | VMEXIT_INSTRUCTION_INFO => 0x440E
  end.
Definition VmcsReadOnly32_all : list VmcsReadOnly32 :=
  [VM_INSTRUCTION_ERROR; EXIT_REASON; VMEXIT_INTERRUPTION_INFO; VMEXIT_INTERRUPTION_ERR_CODE;
   IDT_VECTORING_INFO; IDT_VECTORING_ERR_CODE; VMEXIT_INSTRUCTION_LEN; VMEXIT_INSTRUCTION_INFO].
End VmcsReadOnly32.

Module VmcsReadOnlyNW.
Inductive VmcsReadOnlyNW :=
  | EXIT_QUALIFICATION
  | IO_RCX
  | IO_RSI
  | IO_RDI
  | IO_RIP
  | GUEST_LINEAR_ADDR.
Definition VmcsReadOnlyNW_encoding (f : VmcsReadOnlyNW) : Z :=
  match f with
  | EXIT_QUALIFICATION => 0x6400
  | IO_RCX => 0x6402
  | IO_RSI => 0x6404
  | IO_RDI => 0x6406
  | IO_RIP => 0x6408
  | GUEST_LINEAR_ADDR => 0x640A
  end.
Definition VmcsReadOnlyNW_all : list VmcsReadOnlyNW :=
  [EXIT_QUALIFICATION; IO_RCX; IO_RSI; IO_RDI; IO_RIP; GUEST_LINEAR_ADDR].
End VmcsReadOnlyNW.


(** ** Any field *)

Inductive VmcsField :=
  | Control16 (f : VmcsControl16.VmcsControl16)
  | Control64 (f : VmcsControl64.VmcsControl64)
  | Control32 (f : VmcsControl32.VmcsControl32)
  | ControlNW (f : VmcsControlNW.VmcsControlNW)
  | Guest16 (f : VmcsGuest16.VmcsGuest16)
  | Guest64 (f : VmcsGuest64.VmcsGuest64)
  | Guest32 (f : VmcsGuest32.VmcsGuest32)
  | GuestNW (f : VmcsGuestNW.VmcsGuestNW)
  | Host16 (f : VmcsHost16.VmcsHost16)
  | Host64 (f : VmcsHost64.VmcsHost64)
  | Host32 (f : VmcsHost32.VmcsHost32)
  | HostNW (f : VmcsHostNW.VmcsHostNW)
  | ReadOnly64 (f : VmcsReadOnly64.VmcsReadOnly64)
  | ReadOnly32 (f : VmcsReadOnly32.VmcsReadOnly32)
  | ReadOnlyNW (f : VmcsReadOnlyNW.VmcsReadOnlyNW).

Definition field_encoding (f : VmcsField) : Z :=
  match f with
  | Control16 f => VmcsControl16.VmcsControl16_encoding f
  | Control64 f => VmcsControl64.VmcsControl64_encoding f
  | Control32 f => VmcsControl32.VmcsControl32_encoding f
  | ControlNW f => VmcsControlNW.VmcsControlNW_encoding f
  | Guest16 f => VmcsGuest16.VmcsGuest16_encoding f
  | Guest64 f => VmcsGuest64.VmcsGuest64_encoding f
  | Guest32 f => VmcsGuest32.VmcsGuest32_encoding f
  | GuestNW f => VmcsGuestNW.VmcsGuestNW_encoding f
  | Host16 f => VmcsHost16.VmcsHost16_encoding f
  | Host64 f => VmcsHost64.VmcsHost64_encoding f
  | Host32 f => VmcsHost32.VmcsHost32_encoding f
  | HostNW f => VmcsHostNW.VmcsHostNW_encoding f
  | ReadOnly64 f => VmcsReadOnly64.VmcsReadOnly64_encoding f
  | ReadOnly32 f => VmcsReadOnly32.VmcsReadOnly32_encoding f
  | ReadOnlyNW f => VmcsReadOnlyNW.VmcsReadOnlyNW_encoding f
  end.

(** The width of the type the accessors of a field read and write
    ([vmcs_read!] and [vmcs_write!]); [usize] has 64 bits. *)
Definition field_width (f : VmcsField) : Z :=
  match f with
  | Control16 _ => 16
  | Control64 _ => 64
  | Control32 _ => 32
  | ControlNW _ => 64
  | Guest16 _ => 16
  | Guest64 _ => 64
  | Guest32 _ => 32
  | GuestNW _ => 64
  | Host16 _ => 16
  | Host64 _ => 64
  | Host32 _ => 32
  | HostNW _ => 64
  | ReadOnly64 _ => 64
  | ReadOnly32 _ => 32
  | ReadOnlyNW _ => 64
  end.

(** Whether the enumeration has a [write] accessor. *)
Definition field_writable (f : VmcsField) : bool :=
  match f with
  | ReadOnly64 _ | ReadOnly32 _ | ReadOnlyNW _ => false
  | _ => true
  end.

Definition all_fields : list VmcsField :=
  (Control16 <$> VmcsControl16.VmcsControl16_all) ++
  (Control64 <$> VmcsControl64.VmcsControl64_all) ++
  (Control32 <$> VmcsControl32.VmcsControl32_all) ++
  (ControlNW <$> VmcsControlNW.VmcsControlNW_all) ++
  (Guest16 <$> VmcsGuest16.VmcsGuest16_all) ++
  (Guest64 <$> VmcsGuest64.VmcsGuest64_all) ++
  (Guest32 <$> VmcsGuest32.VmcsGuest32_all) ++
  (GuestNW <$> VmcsGuestNW.VmcsGuestNW_all) ++
  (Host16 <$> VmcsHost16.VmcsHost16_all) ++
  (Host64 <$> VmcsHost64.VmcsHost64_all) ++
  (Host32 <$> VmcsHost32.VmcsHost32_all) ++
  (HostNW <$> VmcsHostNW.VmcsHostNW_all) ++
  (ReadOnly64 <$> VmcsReadOnly64.VmcsReadOnly64_all) ++
  (ReadOnly32 <$> VmcsReadOnly32.VmcsReadOnly32_all) ++
  (ReadOnlyNW <$> VmcsReadOnlyNW.VmcsReadOnlyNW_all).

Lemma elem_of_all_fields f : f ∈ all_fields.
Proof. unfold all_fields. rewrite !elem_of_app. destruct f as [f|f|f|f|f|f|f|f|f|f|f|f|f|f|f];
  rewrite !list_elem_of_fmap; destruct f; naive_solver (repeat constructor). Qed.

(** The width an encoding stands for (SDM Vol. 3C, Section 24.11.2: bits 14:13). *)
Definition encoding_width (e : Z) : Z :=
  match Z.land (Z.shiftr e 13) 3 with 0 => 16 | 1 => 64 | 2 => 32 | _ => 64 end.

(** Bits 11:10: control, read-only data, guest state, host state. *)
Definition encoding_type (e : Z) : Z := Z.land (Z.shiftr e 10) 3.

Lemma all_fields_check :
  bool_decide (NoDup (field_encoding <$> all_fields)) = true ∧
  forallb (λ f, let e := field_encoding f in
    (encoding_width e =? field_width f) && Bool.eqb (encoding_type e =? 1) (negb (field_writable f)) &&
    (e mod 2 =? 0) && in_range 15 e) all_fields = true.
Proof. split; vm_compute; reflexivity. Qed.

Lemma field_encoding_inj f g : field_encoding f = field_encoding g → f = g.
Proof.
  intros E. destruct all_fields_check as [Hn%bool_decide_eq_true _].
  destruct (list_elem_of_lookup_1 _ _ (elem_of_all_fields f)) as [i Hi].
  destruct (list_elem_of_lookup_1 _ _ (elem_of_all_fields g)) as [j Hj].
  assert (i = j) as ->.
  { eapply NoDup_lookup; [exact Hn|rewrite list_lookup_fmap, Hi; reflexivity|].
    rewrite list_lookup_fmap, Hj. cbn. by rewrite E. }
  congruence.
Qed.

#[export] Instance VmcsField_eq_dec : EqDecision VmcsField.
Proof.
  intros f g. destruct (decide (field_encoding f = field_encoding g)) as [E|E];
    [left; by apply field_encoding_inj|right; congruence].
Defined.

(** The field declarations are consistent with the processor's encoding: no
    two of the fields share an encoding, each is read and written at the width its
    encoding stands for, exactly the read-only data fields have no write accessor,
    and each encoding is a 15-bit full access. *)
Theorem vmcs_fields_consistent (f g : VmcsField) :
  (field_encoding f = field_encoding g ↔ f = g) ∧
  encoding_width (field_encoding f) = field_width f ∧
  (encoding_type (field_encoding f) = 1 ↔ field_writable f = false) ∧
  field_encoding f mod 2 = 0 ∧ 0 ≤ field_encoding f < 2 ^ 15.
Proof.
  split; [split; [apply field_encoding_inj|congruence]|].
  destruct all_fields_check as [_ Hall]. rewrite forallb_forall in Hall.
  specialize (Hall f). cbv zeta in Hall. rewrite !andb_true_iff in Hall.
  destruct Hall as [[[Hw Ht] He] Hr]; [apply list_elem_of_In, elem_of_all_fields|].
  apply Bool.eqb_prop in Ht. apply in_range_true in Hr. breflect.
  split; [done|]. split; [|done]. rewrite <- Z.eqb_eq, Ht. destruct (field_writable f); done.
Qed.
