(* ===== verification/Vmcs.v ===== *)
(** * The VMCS and the other VMX structures

    [rvm/src/arch/x86_64]: [msr.rs], [vmx/definitions.rs], [vmx/structs.rs],
    [vmx/instructions.rs] and the functions of [vmx/vmcs.rs]. *)

From S2P Require Import Prelude Crates Ept PageTable VmcsFields.

(** ** The processor

    The VMX instructions and the model-specific registers, as the [x86] crate
    gives access to them. *)

Inductive VmFail := VmFailValid | VmFailInvalid.

Class VmxHw := {
  Hw : Type;
  vmread : Hw → Z → result VmFail Z;
  vmwrite : Hw → Z → Z → result VmFail unit * Hw;
  invept : Hw → Z → Z → result VmFail unit * Hw;
  vmclear : Hw → Z → result VmFail unit * Hw;
  vmptrld : Hw → Z → result VmFail unit * Hw;
  rdmsr_hw : Hw → Z → Z;
  wrmsr_hw : Hw → Z → Z → Hw;
}.

(** What the manual promises of [VMREAD] and [VMWRITE] (SDM Vol. 3C, Section
    30.3): a failed write changes no field, a successful one changes its field to
    the written value and no other, and a value fits its field's width. *)
Class VmxHwLaws (V : VmxHw) : Prop := {
  vmwrite_ok h e v h' e' : vmwrite h e v = (Ok tt, h') → 0 ≤ v < 2 ^ encoding_width e →
    vmread h' e' = if e' =? e then Ok v else vmread h e';
  vmwrite_err h e v x h' e' : vmwrite h e v = (Err x, h') → vmread h' e' = vmread h e';
  vmread_range h e v : vmread h e = Ok v → 0 ≤ v < 2 ^ 64;
  invept_vmread h k p r h' e' : invept h k p = (r, h') → vmread h' e' = vmread h e';
  vmwrite_msr h e v r h' i : vmwrite h e v = (r, h') → rdmsr_hw h' i = rdmsr_hw h i;
}.

(** ** [msr.rs] *)

Module Msr.
Inductive Msr :=
  | IA32_FEATURE_CONTROL | IA32_PAT | IA32_VMX_BASIC | IA32_VMX_PINBASED_CTLS
  | IA32_VMX_PROCBASED_CTLS | IA32_VMX_EXIT_CTLS | IA32_VMX_ENTRY_CTLS | IA32_VMX_MISC
  | IA32_VMX_CR0_FIXED0 | IA32_VMX_CR0_FIXED1 | IA32_VMX_CR4_FIXED0 | IA32_VMX_CR4_FIXED1
  | IA32_VMX_PROCBASED_CTLS2 | IA32_VMX_EPT_VPID_CAP | IA32_VMX_TRUE_PINBASED_CTLS
  | IA32_VMX_TRUE_PROCBASED_CTLS | IA32_VMX_TRUE_EXIT_CTLS | IA32_VMX_TRUE_ENTRY_CTLS
  | IA32_EFER | IA32_STAR | IA32_LSTAR | IA32_CSTAR | IA32_FMASK
  | IA32_FS_BASE | IA32_GS_BASE | IA32_KERNEL_GSBASE.

Definition Msr_index (m : Msr) : Z :=
  match m with
  | IA32_FEATURE_CONTROL => 0x3a
  | IA32_PAT => 0x277
  | IA32_VMX_BASIC => 0x480
  | IA32_VMX_PINBASED_CTLS => 0x481
  | IA32_VMX_PROCBASED_CTLS => 0x482
  | IA32_VMX_EXIT_CTLS => 0x483
  | IA32_VMX_ENTRY_CTLS => 0x484
  | IA32_VMX_MISC => 0x485
  | IA32_VMX_CR0_FIXED0 => 0x486
  | IA32_VMX_CR0_FIXED1 => 0x487
  | IA32_VMX_CR4_FIXED0 => 0x488
  | IA32_VMX_CR4_FIXED1 => 0x489
  | IA32_VMX_PROCBASED_CTLS2 => 0x48b
  | IA32_VMX_EPT_VPID_CAP => 0x48c
  | IA32_VMX_TRUE_PINBASED_CTLS => 0x48d
  | IA32_VMX_TRUE_PROCBASED_CTLS => 0x48e
  | IA32_VMX_TRUE_EXIT_CTLS => 0x48f
  | IA32_VMX_TRUE_ENTRY_CTLS => 0x490
  | IA32_EFER => 0xc000_0080
  | IA32_STAR => 0xc000_0081
  | IA32_LSTAR => 0xc000_0082
  | IA32_CSTAR => 0xc000_0083
  | IA32_FMASK => 0xc000_0084
  | IA32_FS_BASE => 0xc000_0100
  | IA32_GS_BASE => 0xc000_0101
  | IA32_KERNEL_GSBASE => 0xc000_0102
  end.
End Msr.

Section MsrAccess.
Context {V : VmxHw}.

Definition Msr_read (h : Hw) (m : Msr.Msr) : Z := rdmsr_hw h (Msr.Msr_index m).
Definition Msr_write (h : Hw) (m : Msr.Msr) (value : Z) : Hw := wrmsr_hw h (Msr.Msr_index m) value.

End MsrAccess.

(** ** [definitions.rs] *)

Inductive VmxExitReason :=
  | EXCEPTION_NMI | EXTERNAL_INTERRUPT | TRIPLE_FAULT | INIT | SIPI | SMI | OTHER_SMI
  | INTERRUPT_WINDOW | NMI_WINDOW | TASK_SWITCH | CPUID | GETSEC | HLT | INVD | INVLPG
  | RDPMC | RDTSC | RSM | VMCALL | VMCLEAR | VMLAUNCH | VMPTRLD | VMPTRST | VMREAD
  | VMRESUME | VMWRITE | VMOFF | VMON | CR_ACCESS | DR_ACCESS | IO_INSTRUCTION | MSR_READ
  | MSR_WRITE | INVALID_GUEST_STATE | MSR_LOAD_FAIL | MWAIT_INSTRUCTION | MONITOR_TRAP_FLAG
  | MONITOR_INSTRUCTION | PAUSE_INSTRUCTION | MCE_DURING_VMENTRY | TPR_BELOW_THRESHOLD
  | APIC_ACCESS | VIRTUALIZED_EOI | GDTR_IDTR | LDTR_TR | EPT_VIOLATION | EPT_MISCONFIG
  | INVEPT | RDTSCP | PREEMPTION_TIMER | INVVPID | WBINVD | XSETBV | APIC_WRITE | RDRAND
  | INVPCID | VMFUNC | ENCLS | RDSEED | PML_FULL | XSAVES | XRSTORS | PCONFIG | SPP_EVENT
  | UMWAIT | TPAUSE | LOADIWKEY.

(** The declared values: consecutive from 0, without 35, 38 and 42. *)
Definition exit_reasons : list (Z * VmxExitReason) :=
  [(0, EXCEPTION_NMI); (1, EXTERNAL_INTERRUPT); (2, TRIPLE_FAULT); (3, INIT); (4, SIPI);
   (5, SMI); (6, OTHER_SMI); (7, INTERRUPT_WINDOW); (8, NMI_WINDOW); (9, TASK_SWITCH);
   (10, CPUID); (11, GETSEC); (12, HLT); (13, INVD); (14, INVLPG); (15, RDPMC); (16, RDTSC);
   (17, RSM); (18, VMCALL); (19, VMCLEAR); (20, VMLAUNCH); (21, VMPTRLD); (22, VMPTRST);
   (23, VMREAD); (24, VMRESUME); (25, VMWRITE); (26, VMOFF); (27, VMON); (28, CR_ACCESS);
   (29, DR_ACCESS); (30, IO_INSTRUCTION); (31, MSR_READ); (32, MSR_WRITE);
   (33, INVALID_GUEST_STATE); (34, MSR_LOAD_FAIL); (36, MWAIT_INSTRUCTION);
   (37, MONITOR_TRAP_FLAG); (39, MONITOR_INSTRUCTION); (40, PAUSE_INSTRUCTION);
   (41, MCE_DURING_VMENTRY); (43, TPR_BELOW_THRESHOLD); (44, APIC_ACCESS);
   (45, VIRTUALIZED_EOI); (46, GDTR_IDTR); (47, LDTR_TR); (48, EPT_VIOLATION);
   (49, EPT_MISCONFIG); (50, INVEPT); (51, RDTSCP); (52, PREEMPTION_TIMER); (53, INVVPID);
   (54, WBINVD); (55, XSETBV); (56, APIC_WRITE); (57, RDRAND); (58, INVPCID); (59, VMFUNC);
   (60, ENCLS); (61, RDSEED); (62, PML_FULL); (63, XSAVES); (64, XRSTORS); (65, PCONFIG);
   (66, SPP_EVENT); (67, UMWAIT); (68, TPAUSE); (69, LOADIWKEY)].

(** [VmxExitReason::try_from], generated by [numeric_enum!]. *)
Definition VmxExitReason_try_from (x : Z) : option VmxExitReason :=
  snd <$> List.find (λ p, x =? p.1) exit_reasons.

Inductive VmxInterruptionType :=
  | External
  | Reserved
  | NMI
  | HardException
  | SoftIntr
  | PrivSoftException
  | SoftException
  | Other.

Definition int_type_bits (t : VmxInterruptionType) : Z :=
  match t with
  | External => 0 | Reserved => 1 | NMI => 2 | HardException => 3
  | SoftIntr => 4 | PrivSoftException => 5 | SoftException => 6 | Other => 7
  end.

Definition VmxInterruptionType_try_from (x : Z) : option VmxInterruptionType :=
  match x with
  | 0 => Some External | 1 => Some Reserved | 2 => Some NMI | 3 => Some HardException
  | 4 => Some SoftIntr | 5 => Some PrivSoftException | 6 => Some SoftException | 7 => Some Other
  | _ => None
  end.

(** The exception vectors of [x86::irq] (SDM Vol. 3A, Table 6-1). *)
Definition DEBUG_VECTOR : Z := 1.
Definition NONMASKABLE_INTERRUPT_VECTOR : Z := 2.
Definition BREAKPOINT_VECTOR : Z := 3.
Definition OVERFLOW_VECTOR : Z := 4.
Definition DOUBLE_FAULT_VECTOR : Z := 8.
Definition INVALID_TSS_VECTOR : Z := 10.
Definition SEGMENT_NOT_PRESENT_VECTOR : Z := 11.
Definition STACK_SEGEMENT_FAULT_VECTOR : Z := 12.
Definition GENERAL_PROTECTION_FAULT_VECTOR : Z := 13.
Definition PAGE_FAULT_VECTOR : Z := 14.
Definition ALIGNMENT_CHECK_VECTOR : Z := 17.
Definition VIRTUALIZATION_VECTOR : Z := 20.

Definition vector_has_error_code (vector : Z) : bool :=
  existsb (Z.eqb vector)
    [DOUBLE_FAULT_VECTOR; INVALID_TSS_VECTOR; SEGMENT_NOT_PRESENT_VECTOR;
     STACK_SEGEMENT_FAULT_VECTOR; GENERAL_PROTECTION_FAULT_VECTOR; PAGE_FAULT_VECTOR;
     ALIGNMENT_CHECK_VECTOR].

Definition from_vector (vector : Z) : VmxInterruptionType :=
  if vector =? DEBUG_VECTOR then PrivSoftException
  else if vector =? NONMASKABLE_INTERRUPT_VECTOR then NMI
  else if (vector =? BREAKPOINT_VECTOR) || (vector =? OVERFLOW_VECTOR) then SoftException
  else if (0 <=? vector) && (vector <=? VIRTUALIZATION_VECTOR) then HardException
  else if (32 <=? vector) && (vector <=? 255) then External
  else Other.

Definition is_soft (t : VmxInterruptionType) : bool :=
  match t with
  | SoftIntr | SoftException | PrivSoftException => true
  | _ => false
  end.

(** ** Accessors

    A VMX failure becomes [RvmError::BadState] ([From<VmFail> for RvmError]); on
    [VmFailValid] the error number is read for the log message. *)

Section Access.
Context {P : Profile} {BF : BitField} {FL : Bitflags} {V : VmxHw}.

(** [read] and [write] of the macros [vmcs_read!] and [vmcs_write!] *)
Definition vmcs_read (h : Hw) (f : VmcsField) : result VmFail Z :=
  match vmread h (field_encoding f) with
  | Ok v => Ok (wrap (field_width f) v)
  | Err e => Err e
  end.

Definition vmcs_write (h : Hw) (f : VmcsField) (value : Z) : result VmFail unit * Hw :=
  vmwrite h (field_encoding f) value.

Definition instruction_error (h : Hw) : out Z :=
  match vmcs_read h (ReadOnly32 VmcsReadOnly32.VM_INSTRUCTION_ERROR) with
  | Ok v => Ret v
  | Err _ => Panic
  end.

Definition RvmError_from (h : Hw) (err : VmFail) : out RvmError :=
  match err with
  | VmFailValid => _ ← instruction_error h; Ret BadState
  | VmFailInvalid => Ret BadState
  end.

(** [x?] for a result of the [x86] crate *)
Definition vmx_try {A} (r : result VmFail A * Hw) : out (result RvmError A * Hw) :=
  match r with
  | (Ok a, h) => Ret (Ok a, h)
  | (Err e, h) => x ← RvmError_from h e; Ret (Err x, h)
  end.

Definition read_field (h : Hw) (f : VmcsField) : out (result RvmError Z * Hw) :=
  vmx_try (vmcs_read h f, h).

Definition write_field (h : Hw) (f : VmcsField) (v : Z) : out (result RvmError unit * Hw) :=
  vmx_try (vmcs_write h f v).

(** ** [vmcs.rs]: control fields *)

Definition set_control (h : Hw) (control : VmcsControl32.VmcsControl32) (capability_msr : Msr.Msr)
    (old_value set clear : Z) : out (result RvmError unit * Hw) :=
  let cap := Msr_read h capability_msr in
  let allowed0 := wrap 32 cap in
  let allowed1 := wrap 32 (Z.shiftr cap 32) in
  _ ← assert (Z.land allowed0 allowed1 =? allowed0);
  if negb (Z.land set clear =? 0) then Ret (Err InvalidParam, h)
  else if negb (Z.land allowed1 set =? set) then Ret (Err Unsupported, h)
  else if negb (Z.land allowed0 clear =? 0) then Ret (Err Unsupported, h)
  else
    let flexible := Z.land (not_u 32 allowed0) allowed1 in
    let unknown := Z.land flexible (not_u 32 (Z.lor set clear)) in
    let default := Z.land unknown old_value in
    let fixed1 := allowed0 in
    write_field h (Control32 control) (Z.lor (Z.lor fixed1 default) set).

(** [EPTPointer] *)
Definition EPTP_MEM_TYPE_WB : Z := Z.shiftl 6 0.
Definition EPTP_WALK_LENGTH_4 : Z := Z.shiftl 3 3.
Definition EPTP_ENABLE_ACCESSED_DIRTY : Z := Z.shiftl 1 6.

Definition EPTPointer_from_table_phys (pml4_paddr : Z) : Z :=
  let aligned_addr := Z.land pml4_paddr (not_u 64 (PAGE_SIZE - 1)) in
  fl_union (fl_union (fl_union aligned_addr EPTP_MEM_TYPE_WB) EPTP_WALK_LENGTH_4)
    EPTP_ENABLE_ACCESSED_DIRTY.

(** [InvEptType::SingleContext] *)
Definition SingleContext : Z := 1.

Definition set_ept_pointer (h : Hw) (pml4_paddr : Z) : out (result RvmError unit * Hw) :=
  let eptp := EPTPointer_from_table_phys pml4_paddr in
  let? (_, h) := write_field h (Control64 VmcsControl64.EPTP) eptp in
  let? (_, h) := vmx_try (invept h SingleContext eptp) in
  Ret (Ok tt, h).

(** ** [vmcs.rs]: exit information *)

Record VmxExitInfo := mkExitInfo {
  entry_failure : bool;
  exit_reason : VmxExitReason;
  exit_instruction_length : Z;
  guest_rip : Z;
}.

Record VmxInterruptInfo := mkIntInfo {
  int_vector : Z;
  int_type : VmxInterruptionType;
  err_code : option Z;
  valid : bool;
}.

Definition VmxInterruptInfo_from (vector : Z) (err_code : option Z) : VmxInterruptInfo :=
  mkIntInfo vector (from_vector vector) err_code true.

Definition VmxInterruptInfo_bits (self : VmxInterruptInfo) : Z :=
  let bits := int_vector self in
  let bits := Z.lor bits (Z.shiftl (int_type_bits (int_type self)) 8) in
  let bits := set_bit bits 11 (match err_code self with Some _ => true | None => false end) in
  set_bit bits 31 (valid self).

Record VmxIoExitInfo := mkIoInfo {
  access_size : Z;
  is_in : bool;
  is_string : bool;
  is_repeat : bool;
  port : Z;
}.

Record NestedPageFaultInfo := mkFaultInfo {
  access_flags : Z;
  fault_guest_paddr : Z;
}.

Definition exit_info (h : Hw) : out (result RvmError VmxExitInfo * Hw) :=
  let? (full_reason, h) := read_field h (ReadOnly32 VmcsReadOnly32.EXIT_REASON) in
  exit_reason ← unwrap (VmxExitReason_try_from (get_bits full_reason 0 16));
  let? (length, h) := read_field h (ReadOnly32 VmcsReadOnly32.VMEXIT_INSTRUCTION_LEN) in
  let? (rip, h) := read_field h (GuestNW VmcsGuestNW.RIP) in
  Ret (Ok (mkExitInfo (get_bit full_reason 31) exit_reason length rip), h).

Definition interrupt_exit_info (h : Hw) : out (result RvmError VmxInterruptInfo * Hw) :=
  let? (info, h) := read_field h (ReadOnly32 VmcsReadOnly32.VMEXIT_INTERRUPTION_INFO) in
  int_type ← unwrap (VmxInterruptionType_try_from (get_bits info 8 11));
  let? (err_code, h) := (if get_bit info 11 then
      let? (e, h) := read_field h (ReadOnly32 VmcsReadOnly32.VMEXIT_INTERRUPTION_ERR_CODE) in
      Ret (Ok (Some e), h)
    else Ret (Ok None, h)) in
  Ret (Ok (mkIntInfo (get_bits info 0 8) int_type err_code (get_bit info 31)), h).

(** [vmcs::inject_event] *)
Definition vmcs_inject_event (h : Hw) (vector : Z) (err_code0 : option Z) :
    out (result RvmError unit * Hw) :=
  err_code0 ← (if vector_has_error_code vector then
      match err_code0 with
      | Some e => Ret (Some e)
      | None =>
          match vmcs_read h (ReadOnly32 VmcsReadOnly32.VMEXIT_INTERRUPTION_ERR_CODE) with
          | Ok e => Ret (Some e)
          | Err _ => Panic
          end
      end
    else Ret None);
  let int_info := VmxInterruptInfo_from vector err_code0 in
  let? (_, h) := match err_code int_info with
    | Some e => write_field h (Control32 VmcsControl32.VMENTRY_EXCEPTION_ERR_CODE) e
    | None => Ret (Ok tt, h)
    end in
  let? (_, h) := (if is_soft (int_type int_info) then
      let? (len, h) := read_field h (ReadOnly32 VmcsReadOnly32.VMEXIT_INSTRUCTION_LEN) in
      write_field h (Control32 VmcsControl32.VMENTRY_INSTRUCTION_LEN) len
    else Ret (Ok tt, h)) in
  write_field h (Control32 VmcsControl32.VMENTRY_INTERRUPTION_INFO_FIELD)
    (VmxInterruptInfo_bits int_info).

Definition io_exit_info (h : Hw) : out (result RvmError VmxIoExitInfo * Hw) :=
  let? (qualification, h) := read_field h (ReadOnlyNW VmcsReadOnlyNW.EXIT_QUALIFICATION) in
  size ← add_u 8 (get_bits qualification 0 3) 1;
  Ret (Ok (mkIoInfo size (get_bit qualification 3) (get_bit qualification 4)
    (get_bit qualification 5) (get_bits qualification 16 32)), h).

Definition ept_violation_info (h : Hw) : out (result RvmError NestedPageFaultInfo * Hw) :=
  let? (qualification, h) := read_field h (ReadOnlyNW VmcsReadOnlyNW.EXIT_QUALIFICATION) in
  let? (fault, h) := read_field h (ReadOnly64 VmcsReadOnly64.GUEST_PHYSICAL_ADDR) in
  let access_flags := 0 in
  let access_flags :=
    if get_bit qualification 0 then fl_union access_flags MemFlags_READ else access_flags in
  let access_flags :=
    if get_bit qualification 1 then fl_union access_flags MemFlags_WRITE else access_flags in
  let access_flags :=
    if get_bit qualification 2 then fl_union access_flags MemFlags_EXECUTE else access_flags in
  Ret (Ok (mkFaultInfo access_flags fault), h).

End Access.

(** ** [structs.rs] *)

Section Structs.
Context {P : Profile} {BF : BitField} {FL : Bitflags} {V : VmxHw} {H : RvmHal}.

(** [VmxRegion::new]: a zeroed frame whose first 32-bit word holds the revision
    identifier; [m] is the memory of [PageTable], whose words have 64 bits. *)
Definition VmxRegion_new (m : memory) (h : Host) (revision_id : Z) (shadow_indicator : bool) :
    out (result RvmError Z * (memory * Host)) :=
  '(r, (m, h)) ← PhysFrame_alloc_zero m h;
  match r with
  | Err e => Ret (Err e, (m, h))
  | Ok frame =>
      let a := phys_to_virt frame in
      _ ← assert (in_range 31 revision_id);
      let word := set_bit (set_bits (wrap 32 (m a)) 0 31 revision_id) 31 shadow_indicator in
      Ret (Ok frame, (write_word m a (Z.lor (Z.land (m a) (not_u 64 (Z.ones 32))) word), h))
  end.

(** [MsrBitmap]: the 4096 bytes of its frame. *)
Definition MsrBitmap_passthrough_all : list Z := replicate 4096 0.
Definition MsrBitmap_intercept_all : list Z := replicate 4096 255.

Definition set_intercept (bitmap : list Z) (msr : Z) (is_write intercept : bool) : out (list Z) :=
  part ← (if msr <=? 0x1fff then Ret (if negb is_write then 0 else 2)
    else if (0xc000_0000 <=? msr) && (msr <=? 0xc000_1fff)
      then Ret (if negb is_write then 1 else 3)
    else Panic);
  let offset := part * 1024 in
  part_bytes ← slice bitmap offset (offset + 1024);
  let msr := Z.land msr 0x1fff in
  let byte := msr / 8 in
  let bits := msr mod 8 in
  old ← index part_bytes byte;
  let new := if intercept then Z.lor old (Z.shiftl 1 bits)
    else Z.land old (not_u 8 (Z.shiftl 1 bits)) in
  part_bytes ← store part_bytes byte new;
  Ret (splice bitmap offset part_bytes).

Definition set_read_intercept (bitmap : list Z) (msr : Z) (intercept : bool) : out (list Z) :=
  set_intercept bitmap msr false intercept.
Definition set_write_intercept (bitmap : list Z) (msr : Z) (intercept : bool) : out (list Z) :=
  set_intercept bitmap msr true intercept.

Record VmxBasic := mkBasic {
  revision_id : Z;
  region_size : Z;
  is_32bit_address : bool;
  basic_mem_type : Z;
  basic_io_exit_info : bool;
  vmx_flex_controls : bool;
}.

Definition VMX_MEMORY_TYPE_WRITE_BACK : Z := 6.

Definition VmxBasic_read (h : Hw) : VmxBasic :=
  let msr := Msr_read h Msr.IA32_VMX_BASIC in
  mkBasic (get_bits msr 0 31) (get_bits msr 32 45) (get_bit msr 48) (get_bits msr 50 54)
    (get_bit msr 54) (get_bit msr 55).

(** [FeatureControlFlags] *)
Definition FC_LOCKED : Z := Z.shiftl 1 0.
Definition FC_VMXON_ENABLED_INSIDE_SMX : Z := Z.shiftl 1 1.
Definition FC_VMXON_ENABLED_OUTSIDE_SMX : Z := Z.shiftl 1 2.
Definition FC_all : Z :=
  Z.lor (Z.lor FC_LOCKED FC_VMXON_ENABLED_INSIDE_SMX) FC_VMXON_ENABLED_OUTSIDE_SMX.

Definition FeatureControl_read (h : Hw) : Z :=
  fl_truncate FC_all (Msr_read h Msr.IA32_FEATURE_CONTROL).

Definition FeatureControl_write (h : Hw) (flags : Z) : Hw :=
  let old_value := Msr_read h Msr.IA32_FEATURE_CONTROL in
  let reserved := Z.land old_value (not_u 64 FC_all) in
  let new_value := Z.lor reserved flags in
  Msr_write h Msr.IA32_FEATURE_CONTROL new_value.

End Structs.

(** ** Control fields *)

Lemma land_eq_self a b : 0 ≤ b → Z.land a b = b ↔ ∀ i, 0 ≤ i → Z.testbit b i = true → Z.testbit a i = true.
Proof.
  intros Hb. split.
  - intros E i Hi Hbit. rewrite <- E, Z.land_spec, andb_true_iff in Hbit. tauto.
  - intros Hsub. apply Z.bits_inj'. intros i Hi. rewrite Z.land_spec.
    destruct (Z.testbit b i) eqn:E; [by rewrite (Hsub i Hi E)|apply andb_false_r].
Qed.

Lemma land_zero a b : Z.land a b = 0 ↔ ∀ i, 0 ≤ i → Z.testbit a i = true → Z.testbit b i = false.
Proof.
  split.
  - intros E i Hi Ha. apply (f_equal (λ x, Z.testbit x i)) in E.
    rewrite Z.land_spec, Ha, Z.bits_0 in E. done.
  - intros Hd. apply Z.bits_inj'. intros i Hi. rewrite Z.land_spec, Z.bits_0.
    destruct (Z.testbit a i) eqn:E; [by rewrite (Hd i Hi E)|done].
Qed.

Lemma testbit_not_u w x i : 0 ≤ i < w → Z.testbit (not_u w x) i = negb (Z.testbit x i).
Proof.
  intros Hi. unfold not_u. rewrite Z.lxor_spec, Z.ones_spec_low by lia. apply xorb_true_r.
Qed.

(** The value of a control bit after [set_control]: what the hypervisor asks for,
    else what the processor requires, else the old value. *)
Definition control_bit (a0 a1 old set clear : Z) (i : Z) : bool :=
  if Z.testbit set i then true
  else if Z.testbit clear i then false
  else if Z.testbit a0 i then true
  else if Z.testbit a1 i then Z.testbit old i
  else false.

(** What the processor can be asked for. *)
Definition controls_allowed (a0 a1 set clear : Z) : Prop :=
  ∀ i, 0 ≤ i → (Z.testbit set i = true → Z.testbit clear i = false ∧ Z.testbit a1 i = true) ∧
    (Z.testbit clear i = true → Z.testbit a0 i = false).

(** The three tests of [set_control], bit by bit. *)
Lemma controls_allowed_iff a0 a1 set clear : 0 ≤ set →
  controls_allowed a0 a1 set clear ↔
  Z.land set clear = 0 ∧ Z.land a1 set = set ∧ Z.land a0 clear = 0.
Proof.
  intros Hs. rewrite (Z.land_comm a0), !land_zero, land_eq_self by done. unfold controls_allowed. split.
  - intros Ha. split; [|split]; intros i Hi Hb; by apply (Ha i Hi).
  - intros (H1 & H2 & H3) i Hi. auto.
Qed.

(** A request the processor allows is written. *)
Lemma set_control_accepts {V : VmxHw} (h : Hw) (c : VmcsControl32.VmcsControl32) (m : Msr.Msr)
    (old set clear : Z) :
  let cap := Msr_read h m in
  let a0 := wrap 32 cap in
  let a1 := wrap 32 (Z.shiftr cap 32) in
  Z.land a0 a1 = a0 → 0 ≤ old < 2 ^ 32 → 0 ≤ set < 2 ^ 32 →
  controls_allowed a0 a1 set clear →
  ∃ v, set_control h c m old set clear = write_field h (Control32 c) v ∧ 0 ≤ v < 2 ^ 32 ∧
    ∀ i, 0 ≤ i < 32 → Z.testbit v i = control_bit a0 a1 old set clear i.
Proof.
  intros cap a0 a1 Hcap Hold Hset Ha. unfold set_control. fold cap. fold a0. fold a1.
  cbv zeta. rewrite (proj2 (Z.eqb_eq _ _) Hcap). run.
  destruct (proj1 (controls_allowed_iff a0 a1 set clear (proj1 Hset)) Ha) as (-> & E2 & ->).
  rewrite E2, !Z.eqb_refl. cbn [negb].
  eexists. split; [done|]. pose proof (wrap_range 32 cap) as Hr. fold a0 in Hr. split.
  - apply lor_range; [lia| |done]. apply lor_range; [lia|apply Hr; lia|].
    by apply land_range.
  - intros i Hi. rewrite !Z.lor_spec, !Z.land_spec, !testbit_not_u, Z.lor_spec by done.
    destruct (Ha i) as [Hs Hc]; [lia|]. unfold control_bit.
    destruct (Z.testbit set i); [by rewrite orb_true_r|].
    destruct (Z.testbit clear i); [by rewrite Hc, !andb_false_r|].
    destruct (Z.testbit a0 i); [done|]. by destruct (Z.testbit a1 i), (Z.testbit old i).
Qed.

(** [set_control] writes a control field exactly when no bit is both set and
    cleared and the processor allows every requested value; the written value has
    the requested bits, the bits the processor fixes, and keeps the old value of
    the rest. Otherwise it fails and writes nothing. *)
Theorem set_control_spec {V : VmxHw} (h : Hw) (c : VmcsControl32.VmcsControl32) (m : Msr.Msr)
    (old set clear : Z) :
  let cap := Msr_read h m in
  let a0 := wrap 32 cap in
  let a1 := wrap 32 (Z.shiftr cap 32) in
  Z.land a0 a1 = a0 → 0 ≤ old < 2 ^ 32 → 0 ≤ set < 2 ^ 32 →
  (controls_allowed a0 a1 set clear →
    ∃ v, set_control h c m old set clear = write_field h (Control32 c) v ∧ 0 ≤ v < 2 ^ 32 ∧
      ∀ i, 0 ≤ i < 32 → Z.testbit v i = control_bit a0 a1 old set clear i) ∧
  (¬ controls_allowed a0 a1 set clear →
    set_control h c m old set clear = Ret (Err InvalidParam, h) ∨
    set_control h c m old set clear = Ret (Err Unsupported, h)).
Proof.
  intros cap a0 a1 Hcap Hold Hset. split; [by apply set_control_accepts|].
  rewrite controls_allowed_iff by lia. intros Hn. unfold set_control. fold cap. fold a0. fold a1.
  cbv zeta. rewrite (proj2 (Z.eqb_eq _ _) Hcap). run.
  repeat (case_bool; [by auto|]). tauto.
Qed.

(** ** A processor whose VMX instructions succeed *)

Class VmxHealthy (V : VmxHw) : Prop := {
  vmread_succeeds h e : ∃ v, vmread h e = Ok v;
  vmwrite_succeeds h e v : ∃ h', vmwrite h e v = (Ok tt, h');
  invept_succeeds h k p : ∃ h', invept h k p = (Ok tt, h');
}.

Section Healthy.
Context {V : VmxHw} {VL : VmxHwLaws V} {VH : VmxHealthy V}.

(** The value of a field. *)
Definition field (h : Hw) (f : VmcsField) : Z :=
  match vmcs_read h f with Ok v => v | Err _ => 0 end.

Lemma field_range h f : 0 ≤ field h f < 2 ^ field_width f.
Proof.
  unfold field, vmcs_read. destruct (vmread h (field_encoding f)).
  - apply wrap_range. by destruct f.
  - by destruct f.
Qed.

Lemma read_field_ok h f : read_field h f = Ret (Ok (field h f), h).
Proof.
  unfold read_field, field, vmcs_read. by destruct (vmread_succeeds h (field_encoding f)) as [v ->].
Qed.

Lemma vmcs_read_ok h f : vmcs_read h f = Ok (field h f).
Proof. unfold field, vmcs_read. by destruct (vmread_succeeds h (field_encoding f)) as [v ->]. Qed.

Lemma encoding_width_field f : encoding_width (field_encoding f) = field_width f.
Proof.
  destruct all_fields_check as [_ Hall]. rewrite forallb_forall in Hall.
  specialize (Hall f). cbv zeta in Hall. rewrite !andb_true_iff in Hall.
  destruct Hall as [[[Hw _] _] _]; [apply list_elem_of_In, elem_of_all_fields|]. by breflect.
Qed.

(** A write changes one field. *)
Lemma write_field_ok h f v : 0 ≤ v < 2 ^ field_width f →
  ∃ h', write_field h f v = Ret (Ok tt, h') ∧ (∀ m, Msr_read h' m = Msr_read h m) ∧
    ∀ g, field h' g = if decide (g = f) then v else field h g.
Proof.
  intros Hv. unfold write_field, vmcs_write.
  destruct (vmwrite_succeeds h (field_encoding f) v) as [h' E]. rewrite E. cbn. exists h'.
  split; [done|]. split; [intros m; by eapply vmwrite_msr|]. intros g. unfold field, vmcs_read.
  rewrite (vmwrite_ok h _ v h' (field_encoding g) E) by (rewrite encoding_width_field; done).
  case_decide as Hg.
  - subst g. rewrite Z.eqb_refl. by apply wrap_small.
  - case_bool; [|done]. by destruct Hg; apply field_encoding_inj.
Qed.

End Healthy.

(** ** Events *)

Section IntInfo.
Context {BF : BitField}.

Lemma int_type_range t : 0 ≤ int_type_bits t < 2 ^ 3.
Proof. by destruct t. Qed.

Lemma int_info_testbit i v i_type b c : 0 ≤ v < 2 ^ 8 → 0 ≤ i →
  Z.testbit (set_bit (set_bit (Z.lor v (Z.shiftl (int_type_bits i_type) 8)) 11 b) 31 c) i =
    if i =? 31 then c else if i =? 11 then b
    else if i <? 8 then Z.testbit v i else Z.testbit (int_type_bits i_type) (i - 8).
Proof.
  intros Hv Hi. pose proof (int_type_range i_type) as Ht.
  assert (0 ≤ Z.lor v (Z.shiftl (int_type_bits i_type) 8)) as Hn.
  { apply Z.lor_nonneg. split; [lia|]. apply Z.shiftl_nonneg. lia. }
  rewrite set_bit_spec, set_bit_spec by first [lia|apply set_bit_nonneg; lia].
  case_bool; [done|]. case_bool; [done|]. rewrite Z.lor_spec, Z.shiftl_spec by lia.
  case_bool; breflect.
  - rewrite (Z.testbit_neg_r _ (i - 8)) by lia. by rewrite orb_false_r.
  - by rewrite (testbit_high v 8) by lia.
Qed.

Lemma VmxInterruptInfo_bits_range info : 0 ≤ int_vector info < 2 ^ 8 →
  0 ≤ VmxInterruptInfo_bits info < 2 ^ 32.
Proof.
  intros Hv. unfold VmxInterruptInfo_bits. pose proof (int_type_range (int_type info)) as Ht.
  apply testbit_range; [lia| |].
  - repeat (apply set_bit_nonneg; [|lia]). apply Z.lor_nonneg. split; [lia|].
    apply Z.shiftl_nonneg. lia.
  - intros i Hi. rewrite int_info_testbit by lia. repeat (case_bool; [lia|]).
    apply (testbit_high _ 3); lia.
Qed.

Lemma int_info_fields info : 0 ≤ int_vector info < 2 ^ 8 →
  let x := VmxInterruptInfo_bits info in
  get_bits x 0 8 = int_vector info ∧
  VmxInterruptionType_try_from (get_bits x 8 11) = Some (int_type info) ∧
  get_bit x 11 = (if err_code info is Some _ then true else false) ∧ get_bit x 31 = valid info.
Proof.
  intros Hv x. pose proof (int_type_range (int_type info)) as Ht.
  assert (get_bits x 8 11 = int_type_bits (int_type info)) as E8.
  { rewrite get_bits_spec by lia. apply Z.bits_inj'. intros i Hi.
    rewrite Z.land_spec, Z.shiftr_spec by lia. unfold x, VmxInterruptInfo_bits.
    rewrite int_info_testbit by lia. change (11 - 8) with 3. destruct (decide (i < 3)).
    - rewrite Z.ones_spec_low, andb_true_r by lia. repeat (case_bool; [lia|]). f_equal. lia.
    - rewrite Z.ones_spec_high, andb_false_r by lia. symmetry. apply (testbit_high _ 3); lia. }
  split; [|split; [rewrite E8; by destruct (int_type info)|split]].
  - rewrite get_bits_spec by lia. apply Z.bits_inj'. intros i Hi.
    rewrite Z.land_spec, Z.shiftr_spec by lia. unfold x, VmxInterruptInfo_bits.
    rewrite int_info_testbit by lia. change (8 - 0) with 8. destruct (decide (i < 8)).
    + rewrite Z.ones_spec_low, andb_true_r, Z.add_0_r by lia. by repeat (case_bool; breflect; try lia).
    + rewrite Z.ones_spec_high, andb_false_r by lia. symmetry. apply (testbit_high _ 8); lia.
  - rewrite get_bit_spec by lia. unfold x, VmxInterruptInfo_bits. rewrite int_info_testbit by lia.
    done.
  - rewrite get_bit_spec by lia. unfold x, VmxInterruptInfo_bits. by rewrite int_info_testbit by lia.
Qed.

End IntInfo.

(** The processor's interruption information is decoded to what it encodes:
    vector, type, validity, and an error code exactly when one was delivered. *)
Theorem interrupt_exit_info_decodes {BF : BitField} {V : VmxHw} {VL : VmxHwLaws V}
    {VH : VmxHealthy V} (h : Hw) (info : VmxInterruptInfo) :
  0 ≤ int_vector info < 2 ^ 8 →
  field h (ReadOnly32 VmcsReadOnly32.VMEXIT_INTERRUPTION_INFO) = VmxInterruptInfo_bits info →
  interrupt_exit_info h = Ret (Ok (mkIntInfo (int_vector info) (int_type info)
    (match err_code info with
     | Some _ => Some (field h (ReadOnly32 VmcsReadOnly32.VMEXIT_INTERRUPTION_ERR_CODE))
     | None => None
     end) (valid info)), h).
Proof.
  intros Hv E. unfold interrupt_exit_info. rewrite read_field_ok. run. rewrite E.
  destruct (int_info_fields info Hv) as (-> & -> & -> & ->). run.
  destruct (err_code info) as [e|]; [|done]. by rewrite read_field_ok.
Qed.

(** The VM-entry fields an injection writes. *)
Definition entry_info : VmcsField := Control32 VmcsControl32.VMENTRY_INTERRUPTION_INFO_FIELD.
Definition entry_err_code : VmcsField := Control32 VmcsControl32.VMENTRY_EXCEPTION_ERR_CODE.
Definition entry_length : VmcsField := Control32 VmcsControl32.VMENTRY_INSTRUCTION_LEN.

(** The error code an event is delivered with: the given one, or the one of the
    last exit. *)
Definition event_code {V : VmxHw} (h : Hw) (vector : Z) (code : option Z) : option Z :=
  if vector_has_error_code vector
  then Some (default (field h (ReadOnly32 VmcsReadOnly32.VMEXIT_INTERRUPTION_ERR_CODE)) code)
  else None.

Section Inject.
Context {BF : BitField} {V : VmxHw} {VL : VmxHwLaws V} {VH : VmxHealthy V}.

Lemma inject_event_ok (h : Hw) (vector : Z) (code : option Z) :
  0 ≤ vector < 2 ^ 8 → (∀ e, code = Some e → 0 ≤ e < 2 ^ 32) →
  let c := event_code h vector code in
  ∃ h', vmcs_inject_event h vector code = Ret (Ok tt, h') ∧
    ∀ g, field h' g =
      if decide (g = entry_info) then VmxInterruptInfo_bits (VmxInterruptInfo_from vector c)
      else if decide (g = entry_err_code) then default (field h g) c
      else if decide (g = entry_length) then
        if is_soft (from_vector vector)
        then field h (ReadOnly32 VmcsReadOnly32.VMEXIT_INSTRUCTION_LEN) else field h g
      else field h g.
Proof.
  intros Hv Hcode c. unfold vmcs_inject_event. 
  set (exit_err := ReadOnly32 VmcsReadOnly32.VMEXIT_INTERRUPTION_ERR_CODE).
  assert ((if vector_has_error_code vector then
      match code with
      | Some e => Ret (Some e)
      | None => match vmcs_read h exit_err with Ok e => Ret (Some e) | Err _ => Panic end
      end
    else Ret None) = Ret c) as ->.
  { unfold c, event_code. fold exit_err. destruct (vector_has_error_code vector); [|done].
    destruct code; [done|]. by rewrite vmcs_read_ok. }
  run. cbn [err_code int_type VmxInterruptInfo_from]. fold entry_err_code entry_length entry_info.
  assert (∃ h1, (match c with
      | Some e => write_field h entry_err_code e
      | None => Ret (Ok tt, h)
      end) = Ret (Ok tt, h1) ∧
    ∀ g, field h1 g = if decide (g = entry_err_code) then default (field h g) c else field h g)
    as (h1 & -> & F1).
  { unfold c, event_code. fold exit_err. destruct (vector_has_error_code vector).
    - destruct (write_field_ok h entry_err_code (default (field h exit_err) code)) as (h1 & -> & _ & F).
      { destruct code as [e|]; [by apply Hcode|apply (field_range h exit_err)]. }
      exists h1. split; [done|]. intros g. rewrite F. by case_decide.
    - exists h. split; [done|]. intros g. by case_decide. }
  run.
  assert (∃ h2, (if is_soft (from_vector vector) then
      let? (len, h) := read_field h1 (ReadOnly32 VmcsReadOnly32.VMEXIT_INSTRUCTION_LEN) in
      write_field h entry_length len
    else Ret (Ok tt, h1)) = Ret (Ok tt, h2) ∧
    ∀ g, field h2 g = if decide (g = entry_length) then
        if is_soft (from_vector vector)
        then field h1 (ReadOnly32 VmcsReadOnly32.VMEXIT_INSTRUCTION_LEN) else field h1 g
      else field h1 g) as (h2 & -> & F2).
  { destruct (is_soft _).
    - rewrite read_field_ok. run.
      destruct (write_field_ok h1 entry_length (field h1 (ReadOnly32 VmcsReadOnly32.VMEXIT_INSTRUCTION_LEN)))
        as (h2 & E2 & _ & F2); [apply (field_range h1 (ReadOnly32 _))|]. eauto.
    - exists h1. split; [done|]. intros g. by case_decide. }
  run.
  destruct (write_field_ok h2 entry_info (VmxInterruptInfo_bits (VmxInterruptInfo_from vector c)))
    as (h3 & -> & _ & F3); [by apply VmxInterruptInfo_bits_range|].
  exists h3. split; [done|]. intros g. rewrite F3. case_decide; [done|]. rewrite F2.
  case_decide as Hl; [|by rewrite F1].
  subst g. rewrite !F1. by repeat case_decide.
Qed.

End Inject.

(** ** The MSR bitmap *)

Definition valid_msr (msr : Z) : Prop :=
  0 ≤ msr ≤ 0x1fff ∨ 0xc000_0000 ≤ msr ≤ 0xc000_1fff.

(** The position of the bit that decides about reads or writes of [msr] (SDM Vol.
    3C, Section 24.6.9). *)
Definition msr_bit_pos (msr : Z) (is_write : bool) : Z :=
  (if msr <=? 0x1fff then 0 else 8192) + (if is_write then 16384 else 0) + msr mod 8192.

Definition byte_at (l : list Z) (i : Z) : Z := default 0 (l !! Z.to_nat i).

Definition intercepts (bm : list Z) (msr : Z) (is_write : bool) : bool :=
  let p := msr_bit_pos msr is_write in Z.testbit (byte_at bm (p / 8)) (p mod 8).

Definition bitmap_ok (bm : list Z) : Prop := zlen bm = 4096 ∧ Forall (λ b, 0 ≤ b < 2 ^ 8) bm.

Lemma msr_bit_pos_range msr w : 0 ≤ msr_bit_pos msr w < 32768.
Proof.
  unfold msr_bit_pos. pose proof (Z.mod_pos_bound msr 8192). case_bool; case_bool; lia.
Qed.

Lemma msr_bit_pos_inj msr w msr' w' : valid_msr msr → valid_msr msr' →
  msr_bit_pos msr w = msr_bit_pos msr' w' → msr = msr' ∧ w = w'.
Proof.
  unfold valid_msr, msr_bit_pos. intros Hv Hv' E.
  pose proof (Z.div_mod msr 8192). pose proof (Z.div_mod msr' 8192).
  pose proof (Z.mod_pos_bound msr 8192). pose proof (Z.mod_pos_bound msr' 8192).
  destruct (msr <=? 0x1fff) eqn:E1, (msr' <=? 0x1fff) eqn:E2; breflect;
    destruct w, w'; (split; [lia|first [done|lia]]).
Qed.

(** The new byte. *)
Definition intercept_byte (old k : Z) (intercept : bool) : Z :=
  if intercept then Z.lor old (Z.shiftl 1 k) else Z.land old (not_u 8 (Z.shiftl 1 k)).

Lemma intercept_byte_spec old k b j : 0 ≤ k < 8 → 0 ≤ j < 8 →
  Z.testbit (intercept_byte old k b) j = if j =? k then b else Z.testbit old j.
Proof.
  intros Hk Hj. unfold intercept_byte. destruct b.
  - rewrite Z.lor_spec, Z.shiftl_mul_pow2, Z.mul_1_l, Z.pow2_bits_eqb by lia.
    case_bool; [by rewrite E, Z.eqb_refl, orb_true_r|].
    rewrite (proj2 (Z.eqb_neq k j)) by lia. apply orb_false_r.
  - rewrite Z.land_spec, testbit_not_u, Z.shiftl_mul_pow2, Z.mul_1_l, Z.pow2_bits_eqb by lia.
    case_bool; [by rewrite E, Z.eqb_refl, andb_false_r|].
    rewrite (proj2 (Z.eqb_neq k j)) by lia. apply andb_true_r.
Qed.

Lemma intercept_byte_range old k b : 0 ≤ old < 2 ^ 8 → 0 ≤ k < 8 →
  0 ≤ intercept_byte old k b < 2 ^ 8.
Proof.
  intros Ho Hk. unfold intercept_byte. destruct b.
  - apply lor_range; [lia|done|]. rewrite Z.shiftl_mul_pow2, Z.mul_1_l by lia.
    split; [apply Z.pow_nonneg; lia|apply Z.pow_lt_mono_r; lia].
  - rewrite Z.land_comm. by apply land_range.
Qed.

Lemma set_intercept_eq bm msr w b : bitmap_ok bm → valid_msr msr →
  let p := msr_bit_pos msr w in
  set_intercept bm msr w b =
    Ret (<[Z.to_nat (p / 8) := intercept_byte (byte_at bm (p / 8)) (p mod 8) b]> bm).
Proof.
  intros [Hl Hb] Hv p. unfold set_intercept.
  set (part := if msr <=? 0x1fff then (if w then 2 else 0) else (if w then 3 else 1)).
  assert ((if msr <=? 0x1fff then Ret (if negb w then 0 else 2)
    else if (0xc000_0000 <=? msr) && (msr <=? 0xc000_1fff)
      then Ret (if negb w then 1 else 3) else Panic) = Ret part) as ->.
  { unfold valid_msr, part in *. repeat case_bool; try done; bsolve. }
  run. change 0x1fff with (Z.ones 13). rewrite Z.land_ones by done. change (2 ^ 13) with 8192.
  pose proof (Z.mod_pos_bound msr 8192) as Hm. set (r := msr mod 8192) in *.
  assert (p = part * 8192 + r ∧ 0 ≤ part ≤ 3) as [Hp Hpart].
  { unfold p, part, msr_bit_pos. fold r. repeat case_bool; lia. }
  assert (p / 8 = part * 1024 + r / 8 ∧ p mod 8 = r mod 8) as [Hq Hk].
  { rewrite Hp. replace (part * 8192 + r) with (r + (part * 1024) * 8) by lia.
    rewrite Z.div_add, Z.mod_add by lia. lia. }
  assert (0 ≤ r / 8 < 1024) as Hr8 by (split; [apply Z.div_pos; lia|apply Z.div_lt_upper_bound; lia]).
  rewrite slice_ok by lia. run.
  destruct (lookup_lt_is_Some_2 bm (Z.to_nat (p / 8))) as [old Hold]; [unfold zlen in Hl; lia|].
  assert (index (subslice bm (part * 1024) (part * 1024 + 1024)) (r / 8) = Ret old) as ->.
  { apply index_Ret. split; [lia|]. rewrite subslice_lookup by lia. by rewrite <- Hq. }
  run. unfold store. rewrite zlen_subslice by lia. case_bool; [|bsolve]. run. f_equal.
  rewrite splice_insert by lia. rewrite <- Hq. f_equal. unfold byte_at. rewrite Hold, Hk. done.
Qed.

(** [set_intercept] changes the decision for one register and one direction and
    for nothing else, without leaving the page. *)
Lemma set_intercept_ok (bm : list Z) (msr : Z) (w b : bool) :
  bitmap_ok bm → valid_msr msr →
  ∃ bm', set_intercept bm msr w b = Ret bm' ∧ bitmap_ok bm' ∧
    ∀ msr' w', valid_msr msr' → intercepts bm' msr' w' =
      if (msr' =? msr) && Bool.eqb w' w then b else intercepts bm msr' w'.
Proof.
  intros Hok Hv. eexists. split; [by apply set_intercept_eq|]. set (p := msr_bit_pos msr w).
  pose proof (msr_bit_pos_range msr w) as Hp. fold p in Hp. destruct Hok as [Hl Hb].
  pose proof (Z.mod_pos_bound p 8) as Hk.
  assert (0 ≤ p / 8 < 4096) as Hq by (split; [apply Z.div_pos; lia|apply Z.div_lt_upper_bound; lia]).
  destruct (lookup_lt_is_Some_2 bm (Z.to_nat (p / 8))) as [old Hold]; [unfold zlen in Hl; lia|].
  split.
  - split; [unfold zlen in *; by rewrite length_insert|]. apply Forall_insert; [done|].
    unfold byte_at. rewrite Hold. apply intercept_byte_range; [|lia]. exact (proj1 (Forall_lookup _ _) Hb _ _ Hold).
  - intros msr' w' Hv'. unfold intercepts. pose proof (msr_bit_pos_range msr' w') as Hp'.
    set (p' := msr_bit_pos msr' w') in *. pose proof (Z.mod_pos_bound p' 8) as Hk'.
    assert ((msr' =? msr) && Bool.eqb w' w = (p' =? p)) as ->.
    { destruct (p' =? p) eqn:E; breflect.
      - destruct (msr_bit_pos_inj msr' w' msr w Hv' Hv E) as [-> ->].
        by rewrite Z.eqb_refl, Bool.eqb_reflx.
      - apply not_true_is_false. intros [->%Z.eqb_eq ->%Bool.eqb_prop]%andb_true_iff. done. }
    unfold byte_at at 1. destruct (decide (p' / 8 = p / 8)) as [Eq|Ne].
    + rewrite Eq, list_lookup_insert_eq by (unfold zlen in Hl; lia). cbn [from_option id].
      rewrite intercept_byte_spec by lia. pose proof (Z.div_mod p 8). pose proof (Z.div_mod p' 8).
      case_bool; [by rewrite (proj2 (Z.eqb_eq p' p)) by lia|].
      by rewrite (proj2 (Z.eqb_neq p' p)) by lia.
    + rewrite list_lookup_insert_ne; [|pose proof (Z.div_pos p' 8); lia].
      case_bool; [by destruct Ne; congruence|done].
Qed.
