(* ===== verification/Vcpu.v ===== *)
(** * Virtual CPUs

    [rvm/src/arch/x86_64/vmx/vcpu.rs] and [vmx/mod.rs]: the set-up of a virtual
    CPU, its pending events, and turning VMX on and off. *)

From S2P Require Import Prelude Crates Frame Ept PageTable KvmHal Apic VmcsFields Vmcs.

(** ** Constants of the processor

    The flags of [x86_64::registers] and [x86::vmx::vmcs::control] the code
    names, with the bit positions of the manual. *)

Definition CR0_EXTENSION_TYPE : Z := Z.shiftl 1 4.
Definition CR0_NUMERIC_ERROR : Z := Z.shiftl 1 5.
Definition CR0_NOT_WRITE_THROUGH : Z := Z.shiftl 1 29.
Definition CR0_CACHE_DISABLE : Z := Z.shiftl 1 30.
Definition CR4_VIRTUAL_MACHINE_EXTENSIONS : Z := Z.shiftl 1 13.
Definition RFLAGS_INTERRUPT_FLAG : Z := Z.shiftl 1 9.

Definition PIN_EXTERNAL_INTERRUPT_EXITING : Z := Z.shiftl 1 0.
Definition PIN_NMI_EXITING : Z := Z.shiftl 1 3.
Definition CPU_INTERRUPT_WINDOW_EXITING : Z := Z.shiftl 1 2.
Definition CPU_CR3_LOAD_EXITING : Z := Z.shiftl 1 15.
Definition CPU_CR3_STORE_EXITING : Z := Z.shiftl 1 16.
Definition CPU_UNCOND_IO_EXITING : Z := Z.shiftl 1 24.
Definition CPU_USE_MSR_BITMAPS : Z := Z.shiftl 1 28.
Definition CPU_SECONDARY_CONTROLS : Z := Z.shiftl 1 31.
Definition CPU2_ENABLE_EPT : Z := Z.shiftl 1 1.
Definition CPU2_ENABLE_RDTSCP : Z := Z.shiftl 1 3.
Definition CPU2_UNRESTRICTED_GUEST : Z := Z.shiftl 1 7.
Definition CPU2_ENABLE_INVPCID : Z := Z.shiftl 1 12.
Definition EXIT_HOST_ADDRESS_SPACE_SIZE : Z := Z.shiftl 1 9.
Definition EXIT_ACK_INTERRUPT_ON_EXIT : Z := Z.shiftl 1 15.
Definition EXIT_SAVE_IA32_PAT : Z := Z.shiftl 1 18.
Definition EXIT_LOAD_IA32_PAT : Z := Z.shiftl 1 19.
Definition EXIT_SAVE_IA32_EFER : Z := Z.shiftl 1 20.
Definition EXIT_LOAD_IA32_EFER : Z := Z.shiftl 1 21.
Definition ENTRY_LOAD_IA32_PAT : Z := Z.shiftl 1 14.
Definition ENTRY_LOAD_IA32_EFER : Z := Z.shiftl 1 15.

Definition IA32_APIC_BASE : Z := 0x1b.

Inductive Segment := ES | CS | SS | DS | FS | GS | TR | LDTR.

(** The rest of the processor's state the code reads and writes. *)
Class HostCpu (V : VmxHw) := {
  cr0_read : Hw → Z;
  cr3_read_frame : Hw → Z;
  cr4_read : Hw → Z;
  cr4_write : Hw → Z → Hw;
  segment_selector : Hw → Segment → Z;
  gdt_limit : Hw → Z;
  gdt_base : Hw → Z;
  gdt_words : Hw → list Z;
  idt_base : Hw → Z;
  has_vmx : Hw → bool;
  vmxon : Hw → Z → result VmFail unit * Hw;
  vmxoff : Hw → result VmFail unit * Hw;
  vmx_exit_address : Z;
}.

(** ** [regs.rs] *)

Record GeneralRegisters := mkRegs {
  rax : Z; rcx : Z; rdx : Z; rbx : Z; unused_rsp : Z; rbp : Z; rsi : Z; rdi : Z;
  r8 : Z; r9 : Z; r10 : Z; r11 : Z; r12 : Z; r13 : Z; r14 : Z; r15 : Z;
}.

Definition GeneralRegisters_default : GeneralRegisters :=
  mkRegs 0 0 0 0 0 0 0 0 0 0 0 0 0 0 0 0.

(** ** [VmxVcpu] *)

(** [vmcs] and [msr_bitmap_frame] are the physical addresses of frames;
    [msr_bitmap] is the contents of the latter. *)
Record VmxVcpu := mkVcpu {
  guest_regs : GeneralRegisters;
  host_stack_top : Z;
  vmcs : Z;
  msr_bitmap_frame : Z;
  msr_bitmap : list Z;
  apic_timer : ApicTimer;
  pending_events : list (Z * option Z);
}.

Definition set_pending (v : VmxVcpu) (es : list (Z * option Z)) : VmxVcpu :=
  mkVcpu (guest_regs v) (host_stack_top v) (vmcs v) (msr_bitmap_frame v) (msr_bitmap v)
    (apic_timer v) es.
Definition set_timer (v : VmxVcpu) (t : ApicTimer) : VmxVcpu :=
  mkVcpu (guest_regs v) (host_stack_top v) (vmcs v) (msr_bitmap_frame v) (msr_bitmap v)
    t (pending_events v).
Definition set_regs (v : VmxVcpu) (r : GeneralRegisters) : VmxVcpu :=
  mkVcpu r (host_stack_top v) (vmcs v) (msr_bitmap_frame v) (msr_bitmap v)
    (apic_timer v) (pending_events v).
Definition set_msr_bitmap (v : VmxVcpu) (b : list Z) : VmxVcpu :=
  mkVcpu (guest_regs v) (host_stack_top v) (vmcs v) (msr_bitmap_frame v) b
    (apic_timer v) (pending_events v).

Section Vcpu.
Context {P : Profile} {BF : BitField} {FL : Bitflags} {V : VmxHw} {C : HostCpu V} {H : RvmHal}.

(** *** MSR bitmap *)

(** [for msr in 0x800..=0x83f], with both intercepts set *)
Definition setup_msr_bitmap (bm : list Z) : out (list Z) :=
  let msr := IA32_APIC_BASE in
  bm ← set_read_intercept bm msr true;
  bm ← set_write_intercept bm msr true;
  foldM (λ bm msr, bm ← set_read_intercept bm msr true; set_write_intercept bm msr true)
    bm (range 0x800 0x840).

(** *** VMCS *)

(** [f1.write(v1)?; f2.write(v2)?; ...] *)
Fixpoint write_all (h : Hw) (ws : list (VmcsField * Z)) : out (result RvmError unit * Hw) :=
  match ws with
  | [] => Ret (Ok tt, h)
  | (f, v) :: ws => let? (_, h) := write_field h f v in write_all h ws
  end.

Definition get_tr_base (h : Hw) (tr : Z) : out Z :=
  let idx := Z.shiftr tr 3 in
  limit1 ← add_u 64 (gdt_limit h) 1;
  let table_len := limit1 / 8 in
  let table := take (Z.to_nat table_len) (gdt_words h) in
  entry ← index table idx;
  if negb (Z.land entry (Z.shiftl 1 47) =? 0) then
    let base_low := Z.lor (get_bits entry 16 40) (Z.shiftl (get_bits entry 56 64) 24) in
    idx1 ← add_u 64 idx 1;
    next ← index table idx1;
    let base_high := Z.land next 0xffff_ffff in
    Ret (Z.lor base_low (wrap 64 (Z.shiftl base_high 32)))
  else Ret 0.

Definition setup_vmcs_host (h : Hw) : out (result RvmError unit * Hw) :=
  let? (_, h) := write_all h
    [ (Host64 VmcsHost64.IA32_PAT, Msr_read h Msr.IA32_PAT);
      (Host64 VmcsHost64.IA32_EFER, Msr_read h Msr.IA32_EFER);
      (HostNW VmcsHostNW.CR0, cr0_read h);
      (HostNW VmcsHostNW.CR3, cr3_read_frame h);
      (HostNW VmcsHostNW.CR4, cr4_read h);
      (Host16 VmcsHost16.ES_SELECTOR, segment_selector h ES);
      (Host16 VmcsHost16.CS_SELECTOR, segment_selector h CS);
      (Host16 VmcsHost16.SS_SELECTOR, segment_selector h SS);
      (Host16 VmcsHost16.DS_SELECTOR, segment_selector h DS);
      (Host16 VmcsHost16.FS_SELECTOR, segment_selector h FS);
      (Host16 VmcsHost16.GS_SELECTOR, segment_selector h GS);
      (HostNW VmcsHostNW.FS_BASE, Msr_read h Msr.IA32_FS_BASE);
      (HostNW VmcsHostNW.GS_BASE, Msr_read h Msr.IA32_GS_BASE) ] in
  let tr := segment_selector h TR in
  let? (_, h) := write_field h (Host16 VmcsHost16.TR_SELECTOR) tr in
  tr_base ← get_tr_base h tr;
  write_all h
    [ (HostNW VmcsHostNW.TR_BASE, tr_base);
      (HostNW VmcsHostNW.GDTR_BASE, gdt_base h);
      (HostNW VmcsHostNW.IDTR_BASE, idt_base h);
      (HostNW VmcsHostNW.RIP, vmx_exit_address);
      (HostNW VmcsHostNW.IA32_SYSENTER_ESP, 0);
      (HostNW VmcsHostNW.IA32_SYSENTER_EIP, 0);
      (Host32 VmcsHost32.IA32_SYSENTER_CS, 0) ].

(** [set_guest_segment!] *)
Definition guest_segment (s : Segment) (access_rights : Z) : list (VmcsField * Z) :=
  match s with
  | ES => [(Guest16 VmcsGuest16.ES_SELECTOR, 0); (GuestNW VmcsGuestNW.ES_BASE, 0);
      (Guest32 VmcsGuest32.ES_LIMIT, 0xffff); (Guest32 VmcsGuest32.ES_ACCESS_RIGHTS, access_rights)]
  | CS => [(Guest16 VmcsGuest16.CS_SELECTOR, 0); (GuestNW VmcsGuestNW.CS_BASE, 0);
      (Guest32 VmcsGuest32.CS_LIMIT, 0xffff); (Guest32 VmcsGuest32.CS_ACCESS_RIGHTS, access_rights)]
  | SS => [(Guest16 VmcsGuest16.SS_SELECTOR, 0); (GuestNW VmcsGuestNW.SS_BASE, 0);
      (Guest32 VmcsGuest32.SS_LIMIT, 0xffff); (Guest32 VmcsGuest32.SS_ACCESS_RIGHTS, access_rights)]
  | DS => [(Guest16 VmcsGuest16.DS_SELECTOR, 0); (GuestNW VmcsGuestNW.DS_BASE, 0);
      (Guest32 VmcsGuest32.DS_LIMIT, 0xffff); (Guest32 VmcsGuest32.DS_ACCESS_RIGHTS, access_rights)]
  | FS => [(Guest16 VmcsGuest16.FS_SELECTOR, 0); (GuestNW VmcsGuestNW.FS_BASE, 0);
      (Guest32 VmcsGuest32.FS_LIMIT, 0xffff); (Guest32 VmcsGuest32.FS_ACCESS_RIGHTS, access_rights)]
  | GS => [(Guest16 VmcsGuest16.GS_SELECTOR, 0); (GuestNW VmcsGuestNW.GS_BASE, 0);
      (Guest32 VmcsGuest32.GS_LIMIT, 0xffff); (Guest32 VmcsGuest32.GS_ACCESS_RIGHTS, access_rights)]
  | TR => [(Guest16 VmcsGuest16.TR_SELECTOR, 0); (GuestNW VmcsGuestNW.TR_BASE, 0);
      (Guest32 VmcsGuest32.TR_LIMIT, 0xffff); (Guest32 VmcsGuest32.TR_ACCESS_RIGHTS, access_rights)]
  | LDTR => [(Guest16 VmcsGuest16.LDTR_SELECTOR, 0); (GuestNW VmcsGuestNW.LDTR_BASE, 0);
      (Guest32 VmcsGuest32.LDTR_LIMIT, 0xffff);
      (Guest32 VmcsGuest32.LDTR_ACCESS_RIGHTS, access_rights)]
  end.

Definition guest_writes (entry pat : Z) : list (VmcsField * Z) :=
  let cr0_guest := Z.lor CR0_EXTENSION_TYPE CR0_NUMERIC_ERROR in
  let cr0_host_owned :=
    Z.lor (Z.lor CR0_NUMERIC_ERROR CR0_NOT_WRITE_THROUGH) CR0_CACHE_DISABLE in
  let cr0_read_shadow := CR0_NUMERIC_ERROR in
  let cr4_guest := CR4_VIRTUAL_MACHINE_EXTENSIONS in
  let cr4_host_owned := CR4_VIRTUAL_MACHINE_EXTENSIONS in
  let cr4_read_shadow := 0 in
  [ (GuestNW VmcsGuestNW.CR0, cr0_guest);
    (ControlNW VmcsControlNW.CR0_GUEST_HOST_MASK, cr0_host_owned);
    (ControlNW VmcsControlNW.CR0_READ_SHADOW, cr0_read_shadow);
    (GuestNW VmcsGuestNW.CR4, cr4_guest);
    (ControlNW VmcsControlNW.CR4_GUEST_HOST_MASK, cr4_host_owned);
    (ControlNW VmcsControlNW.CR4_READ_SHADOW, cr4_read_shadow) ] ++
  guest_segment ES 0x93 ++ guest_segment CS 0x9b ++ guest_segment SS 0x93 ++
  guest_segment DS 0x93 ++ guest_segment FS 0x93 ++ guest_segment GS 0x93 ++
  guest_segment TR 0x8b ++ guest_segment LDTR 0x82 ++
  [ (GuestNW VmcsGuestNW.GDTR_BASE, 0); (Guest32 VmcsGuest32.GDTR_LIMIT, 0xffff);
    (GuestNW VmcsGuestNW.IDTR_BASE, 0); (Guest32 VmcsGuest32.IDTR_LIMIT, 0xffff);
    (GuestNW VmcsGuestNW.CR3, 0); (GuestNW VmcsGuestNW.DR7, 0x400);
    (GuestNW VmcsGuestNW.RSP, 0); (GuestNW VmcsGuestNW.RIP, entry);
    (GuestNW VmcsGuestNW.RFLAGS, 2); (GuestNW VmcsGuestNW.PENDING_DBG_EXCEPTIONS, 0);
    (GuestNW VmcsGuestNW.IA32_SYSENTER_ESP, 0); (GuestNW VmcsGuestNW.IA32_SYSENTER_EIP, 0);
    (Guest32 VmcsGuest32.IA32_SYSENTER_CS, 0);
    (Guest32 VmcsGuest32.INTERRUPTIBILITY_STATE, 0); (Guest32 VmcsGuest32.ACTIVITY_STATE, 0);
    (Guest32 VmcsGuest32.VMX_PREEMPTION_TIMER_VALUE, 0);
    (Guest64 VmcsGuest64.LINK_PTR, u64_max); (Guest64 VmcsGuest64.IA32_DEBUGCTL, 0);
    (Guest64 VmcsGuest64.IA32_PAT, pat); (Guest64 VmcsGuest64.IA32_EFER, 0) ].

Definition setup_vmcs_guest (h : Hw) (entry : Z) : out (result RvmError unit * Hw) :=
  write_all h (guest_writes entry (Msr_read h Msr.IA32_PAT)).

(** The plain writes at the end of [setup_vmcs_control] *)
Definition control_writes (msr_bitmap_paddr : Z) : list (VmcsField * Z) :=
  [ (Control32 VmcsControl32.VMEXIT_MSR_STORE_COUNT, 0);
    (Control32 VmcsControl32.VMEXIT_MSR_LOAD_COUNT, 0);
    (Control32 VmcsControl32.VMENTRY_MSR_LOAD_COUNT, 0);
    (Control32 VmcsControl32.EXCEPTION_BITMAP, 0);
    (Control64 VmcsControl64.IO_BITMAP_A_ADDR, 0);
    (Control64 VmcsControl64.IO_BITMAP_B_ADDR, 0);
    (Control64 VmcsControl64.MSR_BITMAPS_ADDR, msr_bitmap_paddr) ].

Definition setup_vmcs_control (h : Hw) (msr_bitmap_paddr ept_root : Z) :
    out (result RvmError unit * Hw) :=
  let? (_, h) := set_control h VmcsControl32.PINBASED_EXEC_CONTROLS
    Msr.IA32_VMX_TRUE_PINBASED_CTLS (wrap 32 (Msr_read h Msr.IA32_VMX_PINBASED_CTLS))
    (Z.lor PIN_NMI_EXITING PIN_EXTERNAL_INTERRUPT_EXITING) 0 in
  let? (_, h) := set_control h VmcsControl32.PRIMARY_PROCBASED_EXEC_CONTROLS
    Msr.IA32_VMX_TRUE_PROCBASED_CTLS (wrap 32 (Msr_read h Msr.IA32_VMX_PROCBASED_CTLS))
    (Z.lor (Z.lor CPU_UNCOND_IO_EXITING CPU_USE_MSR_BITMAPS) CPU_SECONDARY_CONTROLS)
    (Z.lor CPU_CR3_LOAD_EXITING CPU_CR3_STORE_EXITING) in
  let? (_, h) := set_control h VmcsControl32.SECONDARY_PROCBASED_EXEC_CONTROLS
    Msr.IA32_VMX_PROCBASED_CTLS2 0
    (Z.lor (Z.lor (Z.lor CPU2_ENABLE_EPT CPU2_ENABLE_RDTSCP) CPU2_ENABLE_INVPCID)
      CPU2_UNRESTRICTED_GUEST) 0 in
  let? (_, h) := set_control h VmcsControl32.VMEXIT_CONTROLS
    Msr.IA32_VMX_TRUE_EXIT_CTLS (wrap 32 (Msr_read h Msr.IA32_VMX_EXIT_CTLS))
    (Z.lor (Z.lor (Z.lor (Z.lor (Z.lor EXIT_HOST_ADDRESS_SPACE_SIZE EXIT_ACK_INTERRUPT_ON_EXIT)
      EXIT_SAVE_IA32_PAT) EXIT_LOAD_IA32_PAT) EXIT_SAVE_IA32_EFER) EXIT_LOAD_IA32_EFER) 0 in
  let? (_, h) := set_control h VmcsControl32.VMENTRY_CONTROLS
    Msr.IA32_VMX_TRUE_ENTRY_CTLS (wrap 32 (Msr_read h Msr.IA32_VMX_ENTRY_CTLS))
    (Z.lor ENTRY_LOAD_IA32_PAT ENTRY_LOAD_IA32_EFER) 0 in
  let? (_, h) := set_ept_pointer h ept_root in
  write_all h (control_writes msr_bitmap_paddr).

Definition setup_vmcs (h : Hw) (vcpu : VmxVcpu) (entry ept_root : Z) :
    out (result RvmError unit * Hw) :=
  let paddr := vmcs vcpu in
  let? (_, h) := vmx_try (vmclear h paddr) in
  let? (_, h) := vmx_try (vmptrld h paddr) in
  let? (_, h) := setup_vmcs_host h in
  let? (_, h) := setup_vmcs_guest h entry in
  setup_vmcs_control h (msr_bitmap_frame vcpu) ept_root.

(** *** Construction and destruction

    The state of the machine: the host kernel's memory and allocator, and the
    processor. *)
Definition Machine : Type := memory * Host * Hw.

Definition dealloc_frame (s : Machine) (frame : Z) : out Machine :=
  let '(m, k, h) := s in
  k ← PhysFrame_drop k frame;
  Ret (m, k, h).

(** [Drop for VmxVcpu], then its frames *)
Definition VmxVcpu_drop (s : Machine) (self : VmxVcpu) : out Machine :=
  let '(m, k, h) := s in
  match vmclear h (vmcs self) with
  | (Err _, _) => Panic
  | (Ok _, h) =>
      s ← dealloc_frame (m, k, h) (vmcs self);
      dealloc_frame s (msr_bitmap_frame self)
  end.

Definition VmxVcpu_new (s : Machine) (vmcs_revision_id entry ept_root : Z) :
    out (result RvmError VmxVcpu * Machine) :=
  let '(m, k, h) := s in
  '(r, (m, k)) ← VmxRegion_new m k vmcs_revision_id false;
  match r with
  | Err e => Ret (Err e, (m, k, h))
  | Ok vmcs =>
      '(r, (m, k)) ← PhysFrame_alloc_zero m k;
      match r with
      | Err e => s ← dealloc_frame (m, k, h) vmcs; Ret (Err e, s)
      | Ok frame =>
          let vcpu := mkVcpu GeneralRegisters_default 0 vmcs frame MsrBitmap_passthrough_all
            ApicTimer_new [] in
          bm ← setup_msr_bitmap (msr_bitmap vcpu);
          let vcpu := set_msr_bitmap vcpu bm in
          '(r, h) ← setup_vmcs h vcpu entry ept_root;
          match r with
          | Err e => s ← VmxVcpu_drop (m, k, h) vcpu; Ret (Err e, s)
          | Ok _ => Ret (Ok vcpu, (m, k, h))
          end
      end
  end.

(** *** Accessors *)

Definition stack_pointer (h : Hw) : out Z :=
  match vmcs_read h (GuestNW VmcsGuestNW.RSP) with Ok v => Ret v | Err _ => Panic end.

Definition set_stack_pointer (h : Hw) (rsp : Z) : out Hw :=
  match vmcs_write h (GuestNW VmcsGuestNW.RSP) rsp with
  | (Ok _, h) => Ret h
  | (Err _, _) => Panic
  end.

Definition advance_rip (h : Hw) (instr_len : Z) : out (result RvmError unit * Hw) :=
  let? (rip, h) := read_field h (GuestNW VmcsGuestNW.RIP) in
  rip' ← add_u 64 rip instr_len;
  write_field h (GuestNW VmcsGuestNW.RIP) rip'.

(** [VmxVcpu::inject_event] *)
Definition inject_event (self : VmxVcpu) (vector : Z) (err_code : option Z) : VmxVcpu :=
  set_pending self (pending_events self ++ [(vector, err_code)]).

Definition primary_controls : VmcsField :=
  Control32 VmcsControl32.PRIMARY_PROCBASED_EXEC_CONTROLS.

Definition set_interrupt_window (h : Hw) (enable : bool) : out (result RvmError unit * Hw) :=
  let? (ctrl, h) := read_field h primary_controls in
  let bits := CPU_INTERRUPT_WINDOW_EXITING in
  let ctrl := if enable then Z.lor ctrl bits else Z.land ctrl (not_u 32 bits) in
  let? (_, h) := write_field h primary_controls ctrl in
  Ret (Ok tt, h).

(** *** Events *)

Definition allow_interrupt (h : Hw) : out bool :=
  match vmcs_read h (GuestNW VmcsGuestNW.RFLAGS),
    vmcs_read h (Guest32 VmcsGuest32.INTERRUPTIBILITY_STATE) with
  | Ok rflags, Ok block_state =>
      Ret (negb (Z.land rflags RFLAGS_INTERRUPT_FLAG =? 0) && (block_state =? 0))
  | _, _ => Panic
  end.

Definition check_pending_events (self : VmxVcpu) (h : Hw) :
    out (result RvmError unit * (VmxVcpu * Hw)) :=
  match pending_events self with
  | [] => Ret (Ok tt, (self, h))
  | (vector, err_code) :: rest =>
      direct ← (if vector <? 32 then Ret true else allow_interrupt h);
      if direct : bool then
        '(r, h) ← vmcs_inject_event h vector err_code;
        match r with
        | Err e => Ret (Err e, (self, h))
        | Ok _ => Ret (Ok tt, (set_pending self rest, h))
        end
      else
        '(r, h) ← set_interrupt_window h true;
        Ret (r, (self, h))
  end.

(** [VmxVcpu::vmexit_handler]; [handler] is [H::vmexit_handler], [now] the time
    at which the timer is polled. *)
Definition vcpu_vmexit_handler (handler : VmxVcpu → Hw → out (VmxVcpu * Hw)) (now : Z)
    (self : VmxVcpu) (h : Hw) : out (VmxVcpu * Hw) :=
  '(self, h) ← handler self h;
  '(fired, t) ← check_interrupt now (apic_timer self);
  let self := set_timer self t in
  let self := if fired : bool then inject_event self (vector (apic_timer self)) None else self in
  '(r, (self, h)) ← check_pending_events self h;
  match r with
  | Ok _ => Ret (self, h)
  | Err _ => Panic
  end.

(** ** [vmx/mod.rs]: [VmxPerCpuState] *)

Record VmxPerCpuState := mkPerCpu {
  vmcs_revision_id : Z;
  vmx_region : Z;
}.

(** A region of frame 0 is uninitialised. *)
Definition VmxPerCpuState_new : VmxPerCpuState := mkPerCpu 0 0.

Definition is_enabled (h : Hw) : bool :=
  fl_contains (cr4_read h) CR4_VIRTUAL_MACHINE_EXTENSIONS.

(** [crx_is_valid!] *)
Definition crx_is_valid (value fixed0 fixed1 : Z) : bool :=
  negb (Z.lor (not_u 64 fixed0) value =? 0) && negb (Z.lor fixed1 (not_u 64 value) =? 0).

(** The checks on the [IA32_VMX_BASIC] register. *)
Definition basic_supported (b : VmxBasic) : bool :=
  (region_size b =? PAGE_SIZE) && (basic_mem_type b =? VMX_MEMORY_TYPE_WRITE_BACK) &&
  negb (is_32bit_address b) && basic_io_exit_info b && vmx_flex_controls b.

Definition hardware_enable (s : Machine) (self : VmxPerCpuState) :
    out (result RvmError unit * (VmxPerCpuState * Machine)) :=
  let '(m, k, h) := s in
  if negb (has_vmx h) then Ret (Err Unsupported, (self, s))
  else if is_enabled h then Ret (Err ResourceBusy, (self, s))
  else
    let ctrl := FeatureControl_read h in
    let locked := fl_contains ctrl FC_LOCKED in
    let vmxon_outside := fl_contains ctrl FC_VMXON_ENABLED_OUTSIDE_SMX in
    if locked && negb vmxon_outside then Ret (Err Unsupported, (self, s))
    else
      let h := if locked then h
        else FeatureControl_write h
          (fl_union (fl_union ctrl FC_LOCKED) FC_VMXON_ENABLED_OUTSIDE_SMX) in
      if negb (crx_is_valid (cr0_read h) (Msr_read h Msr.IA32_VMX_CR0_FIXED0)
        (Msr_read h Msr.IA32_VMX_CR0_FIXED1)) then Ret (Err BadState, (self, (m, k, h)))
      else if negb (crx_is_valid (cr4_read h) (Msr_read h Msr.IA32_VMX_CR4_FIXED0)
        (Msr_read h Msr.IA32_VMX_CR4_FIXED1)) then Ret (Err BadState, (self, (m, k, h)))
      else
        let vmx_basic := VmxBasic_read h in
        if negb (basic_supported vmx_basic) then Ret (Err Unsupported, (self, (m, k, h)))
        else
          let self := mkPerCpu (revision_id vmx_basic) (vmx_region self) in
          '(r, (m, k)) ← VmxRegion_new m k (revision_id vmx_basic) false;
          match r with
          | Err e => Ret (Err e, (self, (m, k, h)))
          | Ok region =>
              '(m, k, h) ← dealloc_frame (m, k, h) (vmx_region self);
              let self := mkPerCpu (vmcs_revision_id self) region in
              let h := cr4_write h (fl_union (cr4_read h) CR4_VIRTUAL_MACHINE_EXTENSIONS) in
              '(r, h) ← vmx_try (vmxon h region);
              Ret (r, (self, (m, k, h)))
          end.

Definition hardware_disable (s : Machine) (self : VmxPerCpuState) :
    out (result RvmError unit * (VmxPerCpuState * Machine)) :=
  let '(m, k, h) := s in
  if negb (is_enabled h) then Ret (Err BadState, (self, s))
  else
    '(r, h) ← vmx_try (vmxoff h);
    match r with
    | Err e => Ret (Err e, (self, (m, k, h)))
    | Ok _ =>
        let h := cr4_write h (Z.land (cr4_read h) (not_u 64 CR4_VIRTUAL_MACHINE_EXTENSIONS)) in
        s ← dealloc_frame (m, k, h) (vmx_region self);
        Ret (Ok tt, (mkPerCpu (vmcs_revision_id self) 0, s))
    end.

(** ** [lib.rs]: [RvmPerCpu] *)

Definition create_vcpu (s : Machine) (self : VmxPerCpuState) (entry npt_root : Z) :
    out (result RvmError VmxVcpu * Machine) :=
  let '(m, k, h) := s in
  if negb (is_enabled h) then Ret (Err BadState, s)
  else VmxVcpu_new s (vmcs_revision_id self) entry npt_root.

(** [Drop for RvmPerCpu], then the region *)
Definition RvmPerCpu_drop (s : Machine) (self : VmxPerCpuState) : out Machine :=
  let '(m, k, h) := s in
  if is_enabled h then
    '(r, (self, s)) ← hardware_disable s self;
    match r with
    | Ok _ => dealloc_frame s (vmx_region self)
    | Err _ => Panic
    end
  else dealloc_frame s (vmx_region self).

End Vcpu.

(** ** Which registers exit *)

(** What the hypervisor emulates: the APIC base and the x2APIC registers. *)
Definition emulated_msr (msr : Z) : bool :=
  (msr =? IA32_APIC_BASE) || (0x800 <=? msr) && (msr <? 0x840).

Lemma intercept_both bm msr : bitmap_ok bm → valid_msr msr →
  ∃ bm', (bm ← set_read_intercept bm msr true; set_write_intercept bm msr true) = Ret bm' ∧
    bitmap_ok bm' ∧ ∀ m w, valid_msr m → intercepts bm' m w = (m =? msr) || intercepts bm m w.
Proof.
  intros Hok Hv. unfold set_read_intercept, set_write_intercept.
  destruct (set_intercept_ok bm msr false true Hok Hv) as (bm1 & -> & Hok1 & H1). run.
  destruct (set_intercept_ok bm1 msr true true Hok1 Hv) as (bm2 & -> & Hok2 & H2).
  exists bm2. split; [done|]. split; [done|]. intros m w Hm. rewrite H2, H1 by done.
  destruct (m =? msr), w; done.
Qed.

(** A virtual CPU starts with a bitmap in which exactly the registers the
    hypervisor emulates exit, for reads and for writes; every other register is
    passed through. *)
Theorem msr_bitmap_intercepts :
  ∃ bm, setup_msr_bitmap MsrBitmap_passthrough_all = Ret bm ∧
    ∀ msr w, valid_msr msr → intercepts bm msr w = emulated_msr msr.
Proof.
  assert (bitmap_ok MsrBitmap_passthrough_all) as Hok0.
  { split; [reflexivity|]. apply Forall_replicate. lia. }
  assert (∀ m w, intercepts MsrBitmap_passthrough_all m w = false) as H0.
  { intros m w. unfold intercepts, byte_at, MsrBitmap_passthrough_all.
    destruct (_ !! _) eqn:E; cbn [from_option id]; [|apply Z.bits_0].
    apply lookup_replicate in E as [-> _]. apply Z.bits_0. }
  unfold setup_msr_bitmap.
  destruct (intercept_both _ IA32_APIC_BASE Hok0) as (bm1 & E1 & Hok1 & H1); [by left|].
  destruct (set_read_intercept MsrBitmap_passthrough_all IA32_APIC_BASE true) as [bm0|]; [|done].
  cbn [mbind out_mbind] in E1 |- *. rewrite E1. run.
  destruct (foldM_range
    (λ bm msr, bm ← set_read_intercept bm msr true; set_write_intercept bm msr true)
    (λ k bm, bitmap_ok bm ∧ ∀ m w, valid_msr m →
      intercepts bm m w = (m =? IA32_APIC_BASE) || (0x800 <=? m) && (m <? k)) 0x800 0x840 bm1)
    as (bm & -> & _ & Hbm); [lia| | |by exists bm].
  - split; [done|]. intros m w Hm. rewrite H1, H0 by done.
    destruct (m =? IA32_APIC_BASE); [done|]. cbn. lia.
  - intros i b Hi [Hok Hb]. destruct (intercept_both b i Hok) as (b' & E & Hok' & H'); [left; lia|].
    exists b'. split; [done|]. split; [done|]. intros m w Hm. rewrite H', Hb by done.
    destruct (m =? IA32_APIC_BASE); [by rewrite orb_true_r|]. cbn. lia.
Qed.

(** ** The fields of a new virtual CPU *)

Section Setup.
Context {P : Profile} {BF : BitField} {FL : Bitflags}.
Context {V : VmxHw} {C : HostCpu V} {VL : VmxHwLaws V} {VH : VmxHealthy V}.

(** The value a list of writes gives a field. *)
Definition written (ws : list (VmcsField * Z)) (f : VmcsField) : option Z :=
  snd <$> List.find (λ w, bool_decide (w.1 = f)) ws.

Lemma written_cons f v ws g : written ((f, v) :: ws) g = if decide (f = g) then Some v else written ws g.
Proof.
  unfold written. cbn [List.find fst]. case_decide as E.
  - by rewrite bool_decide_true.
  - by rewrite bool_decide_false.
Qed.

Lemma written_in ws f v : written ws f = Some v → f ∈ ws.*1.
Proof.
  induction ws as [|[g x] ws IH]; [done|]. rewrite written_cons, fmap_cons. cbn [fst].
  case_decide; [by intros; subst; left|]. intros ?. right. by apply IH.
Qed.

Definition writes_ok (ws : list (VmcsField * Z)) : Prop :=
  NoDup ws.*1 ∧ Forall (λ w, 0 ≤ w.2 < 2 ^ field_width w.1) ws.

(** A sequence of writes to different fields leaves each at its value. *)
Lemma write_all_ok ws : ∀ h, writes_ok ws →
  ∃ h', write_all h ws = Ret (Ok tt, h') ∧ (∀ m, Msr_read h' m = Msr_read h m) ∧
    ∀ g, field h' g = default (field h g) (written ws g).
Proof.
  induction ws as [|[f v] ws IH]; intros h [Hd Hr]; [by exists h|]. cbn [write_all].
  rewrite fmap_cons in Hd. apply NoDup_cons in Hd as [Hf Hd]. apply Forall_cons in Hr as [Hv Hr].
  destruct (write_field_ok h f v Hv) as (h1 & -> & M1 & F1). run.
  destruct (IH h1) as (h2 & -> & M2 & F2); [by split|]. exists h2. split; [done|].
  split; [intros m; by rewrite M2|]. intros g. rewrite F2, F1, written_cons.
  destruct (decide (f = g)) as [->|Hne].
  - destruct (written ws g) eqn:E; [by apply written_in in E|]. cbn. by rewrite decide_True.
  - by rewrite decide_False.
Qed.

Lemma guest_writes_ok entry pat : 0 ≤ entry < 2 ^ 64 → 0 ≤ pat < 2 ^ 64 →
  writes_ok (guest_writes entry pat).
Proof.
  intros He Hp. split.
  - assert (bool_decide (NoDup (guest_writes 0 0).*1) = true) as Hn by (vm_compute; reflexivity).
    apply bool_decide_eq_true in Hn. exact Hn.
  - unfold guest_writes. repeat (apply Forall_app; split);
      repeat (apply Forall_cons; split; [cbn; first [done|lia]|]); apply Forall_nil_2.
Qed.

Lemma control_writes_ok bitmap : 0 ≤ bitmap < 2 ^ 64 → writes_ok (control_writes bitmap).
Proof.
  intros Hb. split.
  - assert (bool_decide (NoDup (control_writes 0).*1) = true) as Hn by (vm_compute; reflexivity).
    apply bool_decide_eq_true in Hn. exact Hn.
  - repeat (apply Forall_cons; split; [cbn; first [done|lia]|]). apply Forall_nil_2.
Qed.

(** A new guest starts in 16-bit real mode at its entry point: every field of
    the guest-state list holds the value written for it and no other field changes
    (the list writes no field twice). *)
Theorem setup_vmcs_guest_state (h : Hw) (entry : Z) :
  0 ≤ entry < 2 ^ 64 → 0 ≤ Msr_read h Msr.IA32_PAT < 2 ^ 64 →
  ∃ h', setup_vmcs_guest h entry = Ret (Ok tt, h') ∧
    (∀ f, field h' f = default (field h f) (written (guest_writes entry (Msr_read h Msr.IA32_PAT)) f)) ∧
    field h' (GuestNW VmcsGuestNW.RIP) = entry ∧
    Z.testbit (field h' (GuestNW VmcsGuestNW.CR0)) 0 = false ∧
    Z.testbit (field h' (GuestNW VmcsGuestNW.CR0)) 31 = false ∧
    field h' (Guest64 VmcsGuest64.IA32_EFER) = 0 ∧
    field h' (GuestNW VmcsGuestNW.CS_BASE) = 0.
Proof.
  intros He Hp. unfold setup_vmcs_guest.
  destruct (write_all_ok (guest_writes entry (Msr_read h Msr.IA32_PAT)) h) as (h' & -> & _ & F);
    [by apply guest_writes_ok|].
  exists h'. split; [done|]. split; [done|]. rewrite !F. done.
Qed.

Lemma set_ept_pointer_ok h root : 0 ≤ EPTPointer_from_table_phys root < 2 ^ 64 →
  ∃ h', set_ept_pointer h root = Ret (Ok tt, h') ∧
    ∀ g, field h' g = if decide (g = Control64 VmcsControl64.EPTP)
      then EPTPointer_from_table_phys root else field h g.
Proof.
  intros Hr. unfold set_ept_pointer.
  destruct (write_field_ok h (Control64 VmcsControl64.EPTP) _ Hr) as (h1 & -> & _ & F1). run.
  destruct (invept_succeeds h1 SingleContext (EPTPointer_from_table_phys root)) as [h2 E].
  rewrite E. cbn. exists h2. split; [done|]. intros g. rewrite <- F1. unfold field, vmcs_read.
  by rewrite (invept_vmread _ _ _ _ _ _ E).
Qed.

(** The page walk of the guest goes through [root], write-back, four levels, with
    accessed and dirty flags. *)
Lemma EPTPointer_eq root : paddr_ok root → EPTPointer_from_table_phys root = root + 0x5e.
Proof.
  intros [Hr Ha]. unfold EPTPointer_from_table_phys. rewrite !fl_union_spec.
  fold (align_down root). rewrite align_down_eq, Ha, Z.sub_0_r by lia.
  rewrite <- !Z.lor_assoc. change (Z.lor EPTP_MEM_TYPE_WB _) with 0x5e.
  rewrite Z.lor_comm, (lor_aligned 0x5e root 12) by (done || lia). lia.
Qed.

(** The processor can be asked for the bits [set] and [clear] of a control. *)
Definition can_control (h : Hw) (m : Msr.Msr) (set clear : Z) : Prop :=
  let a0 := wrap 32 (Msr_read h m) in
  let a1 := wrap 32 (Z.shiftr (Msr_read h m) 32) in
  Z.land a0 a1 = a0 ∧ controls_allowed a0 a1 set clear.

Definition has_bits (v set clear : Z) : Prop :=
  ∀ i, 0 ≤ i < 32 → (Z.testbit set i = true → Z.testbit v i = true) ∧
    (Z.testbit clear i = true → Z.testbit v i = false).

Lemma set_control_ok h c m old set clear : can_control h m set clear →
  0 ≤ old < 2 ^ 32 → 0 ≤ set < 2 ^ 32 →
  ∃ v h', set_control h c m old set clear = Ret (Ok tt, h') ∧
    (∀ m', Msr_read h' m' = Msr_read h m') ∧ has_bits v set clear ∧
    ∀ g, field h' g = if decide (g = Control32 c) then v else field h g.
Proof.
  intros [Hcap Ha] Hold Hset.
  destruct (set_control_accepts h c m old set clear Hcap Hold Hset Ha) as (v & -> & Hv & Hb).
  destruct (write_field_ok h (Control32 c) v Hv) as (h' & -> & M & F).
  exists v, h'. split; [done|]. split; [done|]. split; [|done].
  intros i Hi. rewrite Hb by done. unfold control_bit. split; [by intros ->|].
  intros Hc. rewrite Hc. destruct (Z.testbit set i) eqn:Es; [|done].
  destruct (Ha i) as [Hs _]; [lia|]. destruct (Hs Es). congruence.
Qed.

Lemma can_control_msr h h' m set clear : (∀ m', Msr_read h' m' = Msr_read h m') →
  can_control h m set clear → can_control h' m set clear.
Proof. intros M. unfold can_control. by rewrite M. Qed.

End Setup.

(** The requests of [setup_vmcs_control]. *)
Definition pin_set : Z := Z.lor PIN_NMI_EXITING PIN_EXTERNAL_INTERRUPT_EXITING.
Definition cpu_set : Z :=
  Z.lor (Z.lor CPU_UNCOND_IO_EXITING CPU_USE_MSR_BITMAPS) CPU_SECONDARY_CONTROLS.
Definition cpu_clear : Z := Z.lor CPU_CR3_LOAD_EXITING CPU_CR3_STORE_EXITING.
Definition cpu2_set : Z :=
  Z.lor (Z.lor (Z.lor CPU2_ENABLE_EPT CPU2_ENABLE_RDTSCP) CPU2_ENABLE_INVPCID) CPU2_UNRESTRICTED_GUEST.
Definition exit_set : Z :=
  Z.lor (Z.lor (Z.lor (Z.lor (Z.lor EXIT_HOST_ADDRESS_SPACE_SIZE EXIT_ACK_INTERRUPT_ON_EXIT)
    EXIT_SAVE_IA32_PAT) EXIT_LOAD_IA32_PAT) EXIT_SAVE_IA32_EFER) EXIT_LOAD_IA32_EFER.
Definition entry_set : Z := Z.lor ENTRY_LOAD_IA32_PAT ENTRY_LOAD_IA32_EFER.

(** A processor with the features the hypervisor needs. *)
Definition vmx_capable {V : VmxHw} (h : Hw) : Prop :=
  can_control h Msr.IA32_VMX_TRUE_PINBASED_CTLS pin_set 0 ∧
  can_control h Msr.IA32_VMX_TRUE_PROCBASED_CTLS cpu_set cpu_clear ∧
  can_control h Msr.IA32_VMX_PROCBASED_CTLS2 cpu2_set 0 ∧
  can_control h Msr.IA32_VMX_TRUE_EXIT_CTLS exit_set 0 ∧
  can_control h Msr.IA32_VMX_TRUE_ENTRY_CTLS entry_set 0.

(** On a capable processor the control fields of a new virtual CPU are as the
    hypervisor intends: external interrupts, NMIs and all I/O instructions exit, the
    MSR bitmap and the secondary controls are in use, CR3 accesses do not exit, the
    nested page table and unrestricted mode are on, the host resumes in 64-bit mode,
    and the EPT pointer and the MSR bitmap are the given ones. *)
Theorem setup_vmcs_control_state {FL : Bitflags} {V : VmxHw} {VL : VmxHwLaws V} {VH : VmxHealthy V}
    (h : Hw) (bitmap root : Z) :
  vmx_capable h → 0 ≤ bitmap < 2 ^ 64 → paddr_ok root →
  ∃ h', setup_vmcs_control h bitmap root = Ret (Ok tt, h') ∧
    has_bits (field h' (Control32 VmcsControl32.PINBASED_EXEC_CONTROLS)) pin_set 0 ∧
    has_bits (field h' (Control32 VmcsControl32.PRIMARY_PROCBASED_EXEC_CONTROLS)) cpu_set cpu_clear ∧
    has_bits (field h' (Control32 VmcsControl32.SECONDARY_PROCBASED_EXEC_CONTROLS)) cpu2_set 0 ∧
    has_bits (field h' (Control32 VmcsControl32.VMEXIT_CONTROLS)) exit_set 0 ∧
    has_bits (field h' (Control32 VmcsControl32.VMENTRY_CONTROLS)) entry_set 0 ∧
    field h' (Control64 VmcsControl64.EPTP) = root + 0x5e ∧
    field h' (Control64 VmcsControl64.MSR_BITMAPS_ADDR) = bitmap ∧
    field h' (Control32 VmcsControl32.EXCEPTION_BITMAP) = 0.
Proof.
  intros (K1 & K2 & K3 & K4 & K5) Hbm Hroot. unfold setup_vmcs_control.
  fold pin_set cpu_set cpu_clear cpu2_set exit_set entry_set.
  assert (∀ h m, 0 ≤ wrap 32 (Msr_read h m) < 2 ^ 32) as Hw by (intros; by apply wrap_range).
  destruct (set_control_ok h VmcsControl32.PINBASED_EXEC_CONTROLS _ _ _ _ K1 (Hw h Msr.IA32_VMX_PINBASED_CTLS) ltac:(done))
    as (v1 & h1 & -> & M1 & B1 & F1). run.
  destruct (set_control_ok h1 VmcsControl32.PRIMARY_PROCBASED_EXEC_CONTROLS _ _ _ _
    (can_control_msr _ _ _ _ _ M1 K2) (Hw h1 Msr.IA32_VMX_PROCBASED_CTLS) ltac:(done)) as (v2 & h2 & -> & M2 & B2 & F2). run.
  assert (∀ m, Msr_read h2 m = Msr_read h m) as M2' by (intros; by rewrite M2).
  destruct (set_control_ok h2 VmcsControl32.SECONDARY_PROCBASED_EXEC_CONTROLS _ 0 _ _
    (can_control_msr _ _ _ _ _ M2' K3) ltac:(done) ltac:(done)) as (v3 & h3 & -> & M3 & B3 & F3). run.
  assert (∀ m, Msr_read h3 m = Msr_read h m) as M3' by (intros; by rewrite M3).
  destruct (set_control_ok h3 VmcsControl32.VMEXIT_CONTROLS _ _ _ _
    (can_control_msr _ _ _ _ _ M3' K4) (Hw h3 Msr.IA32_VMX_EXIT_CTLS) ltac:(done)) as (v4 & h4 & -> & M4 & B4 & F4). run.
  assert (∀ m, Msr_read h4 m = Msr_read h m) as M4' by (intros; by rewrite M4).
  destruct (set_control_ok h4 VmcsControl32.VMENTRY_CONTROLS _ _ _ _
    (can_control_msr _ _ _ _ _ M4' K5) (Hw h4 Msr.IA32_VMX_ENTRY_CTLS) ltac:(done)) as (v5 & h5 & -> & M5 & B5 & F5). run.
  destruct (set_ept_pointer_ok h5 root) as (h6 & -> & F6).
  { rewrite EPTPointer_eq by done. destruct Hroot. lia. }
  run. destruct (write_all_ok (control_writes bitmap) h6) as (h7 & -> & _ & F7);
    [by apply control_writes_ok|].
  exists h7. split; [done|].
  rewrite !F7. cbn -[field decide Z.add Z.pow has_bits].
  rewrite !F6, EPTPointer_eq by done. rewrite !F5, !F4, !F3, !F2, !F1.
  repeat (rewrite decide_True by done). repeat (rewrite decide_False by done).
  tauto.
Qed.

(** ** Pending events *)

Section Events.
Context {BF : BitField} {V : VmxHw} {C : HostCpu V} {VL : VmxHwLaws V} {VH : VmxHealthy V}.

Definition event_ok (e : Z * option Z) : Prop :=
  0 ≤ e.1 < 2 ^ 8 ∧ ∀ c, e.2 = Some c → 0 ≤ c < 2 ^ 32.

(** The guest accepts interrupts: [RFLAGS.IF] is set and nothing blocks them. *)
Definition interruptible (h : Hw) : bool :=
  negb (Z.land (field h (GuestNW VmcsGuestNW.RFLAGS)) RFLAGS_INTERRUPT_FLAG =? 0) &&
  (field h (Guest32 VmcsGuest32.INTERRUPTIBILITY_STATE) =? 0).

Lemma allow_interrupt_ok h : allow_interrupt h = Ret (interruptible h).
Proof. unfold allow_interrupt. by rewrite !vmcs_read_ok. Qed.

(** Requesting or dropping the interrupt-window exit changes bit 2 of the primary
    controls and nothing else. *)
Lemma set_interrupt_window_ok h b :
  ∃ h', set_interrupt_window h b = Ret (Ok tt, h') ∧
    (∀ i, 0 ≤ i < 32 → Z.testbit (field h' primary_controls) i =
      if i =? 2 then b else Z.testbit (field h primary_controls) i) ∧
    ∀ g, g ≠ primary_controls → field h' g = field h g.
Proof.
  unfold set_interrupt_window. rewrite read_field_ok. run.
  pose proof (field_range h primary_controls) as Hr. change (field_width _) with 32 in Hr.
  set (v := if b then _ else _).
  assert (0 ≤ v < 2 ^ 32) as Hv.
  { subst v. destruct b; [by apply lor_range|]. rewrite Z.land_comm. by apply land_range. }
  destruct (write_field_ok h primary_controls v Hv) as (h' & -> & _ & F). run.
  exists h'. split; [done|]. split.
  - intros i Hi. rewrite F, decide_True by done. subst v.
    change CPU_INTERRUPT_WINDOW_EXITING with (2 ^ 2). destruct b.
    + rewrite Z.lor_spec, Z.pow2_bits_eqb, (Z.eqb_sym 2 i) by lia.
      by destruct (i =? 2); rewrite ?orb_true_r, ?orb_false_r.
    + rewrite Z.land_spec, testbit_not_u, Z.pow2_bits_eqb, (Z.eqb_sym 2 i) by lia.
      by destruct (i =? 2); rewrite ?andb_false_r, ?andb_true_r.
  - intros g Hg. by rewrite F, decide_False.
Qed.

(** One check: the oldest event is handed to the processor, unless it is an
    interrupt the guest blocks; then the guest is made to exit when it can take it. *)
Lemma check_pending_events_ok self h : Forall event_ok (pending_events self) →
  ∃ self' h', check_pending_events self h = Ret (Ok tt, (self', h')) ∧
    match pending_events self with
    | [] => self' = self ∧ h' = h
    | (v, c) :: rest =>
        if (v <? 32) || interruptible h
        then self' = set_pending self rest ∧
          field h' entry_info = VmxInterruptInfo_bits (VmxInterruptInfo_from v (event_code h v c))
        else self' = self ∧ Z.testbit (field h' primary_controls) 2 = true ∧
          field h' entry_info = field h entry_info
    end.
Proof.
  intros Hev. unfold check_pending_events. destruct (pending_events self) as [|[v c] rest].
  { by exists self, h. }
  apply Forall_cons in Hev as [[Hv Hc] _]. cbn in Hv, Hc. rewrite allow_interrupt_ok.
  assert ((if v <? 32 then Ret true else Ret (interruptible h)) = Ret ((v <? 32) || interruptible h))
    as -> by (by destruct (v <? 32)). run. case_bool.
  - destruct (inject_event_ok h v c Hv Hc) as (h' & -> & F). run. exists (set_pending self rest), h'.
    split; [done|]. split; [done|]. by rewrite F, decide_True.
  - destruct (set_interrupt_window_ok h true) as (h' & -> & Hb & Hf). run. exists self, h'.
    split; [done|]. split; [done|]. split; [by apply Hb|]. by apply Hf.
Qed.

(** What happens to a virtual CPU: an event is queued, or pending events are
    checked and the guest runs until its next exit; [exit] is what the run and the
    exit leave of the processor's state. *)
Inductive EventOp := Queue (e : Z * option Z) | Entry (exit : Hw → Hw).

(** The event the processor delivers at a VM entry with state [h] (SDM Vol. 3C,
    Section 24.8.3): bit 31 of the VM-entry interruption information says whether
    there is one, the low byte is its vector. *)
Definition delivered (h : Hw) : option Z :=
  let info := field h entry_info in
  if Z.testbit info 31 then Some (info mod 2 ^ 8) else None.

(** The guest may leave any state behind, its flags and what blocks interrupts
    included; a VM exit clears the valid bit of the VM-entry information. *)
Definition event_op_ok (op : EventOp) : Prop :=
  match op with
  | Queue e => event_ok e
  | Entry exit => ∀ h, delivered (exit h) = None
  end.

(** A VM entry: the events that waited before the check, the state the check
    found and the state the processor enters the guest with. *)
Record VmEntry := mkEntry { waiting : list (Z * option Z); found : Hw; entered : Hw }.

(** The VM entries of a sequence, with the virtual CPU after it. *)
Fixpoint run_events (self : VmxVcpu) (h : Hw) (ops : list EventOp) : out (list VmEntry * VmxVcpu) :=
  match ops with
  | [] => Ret ([], self)
  | Queue (v, c) :: ops => run_events (inject_event self v c) h ops
  | Entry exit :: ops =>
      '(r, (self', h')) ← check_pending_events self h;
      match r with
      | Err _ => Panic
      | Ok _ =>
          '(es, self'') ← run_events self' (exit h') ops;
          Ret (mkEntry (pending_events self) h h' :: es, self'')
      end
  end.

Definition queued (ops : list EventOp) : list (Z * option Z) :=
  omap (λ o, match o with Queue e => Some e | Entry _ => None end) ops.

Definition runs (ops : list EventOp) : list (Hw → Hw) :=
  omap (λ o, match o with Queue _ => None | Entry exit => Some exit end) ops.

(** At an entry the guest gets the oldest event that waits, unless that is an
    interrupt the guest blocks: then it gets none and exits once it can take it. *)
Definition entry_right (e : VmEntry) : Prop :=
  match waiting e with
  | [] => delivered (entered e) = None
  | (v, _) :: _ =>
      if (v <? 32) || interruptible (found e) then delivered (entered e) = Some v
      else delivered (entered e) = None ∧
        Z.testbit (field (entered e) primary_controls) 2 = true
  end.

Lemma delivered_injected h v c : 0 ≤ v < 2 ^ 8 →
  field h entry_info = VmxInterruptInfo_bits (VmxInterruptInfo_from v c) → delivered h = Some v.
Proof.
  intros Hv Hf. unfold delivered. rewrite Hf.
  destruct (int_info_fields (VmxInterruptInfo_from v c) Hv) as (E & _ & _ & Eb).
  rewrite get_bit_spec in Eb by lia. rewrite get_bits_spec in E by lia.
  rewrite Eb, <- Z.land_ones by lia. f_equal. by rewrite Z.shiftr_0_r in E.
Qed.

(** One entry, from a state without an event for the processor: what the guest
    gets has left the queue. *)
Lemma entry_ok self h : Forall event_ok (pending_events self) → delivered h = None →
  ∃ self' h', check_pending_events self h = Ret (Ok tt, (self', h')) ∧
    entry_right (mkEntry (pending_events self) h h') ∧ Forall event_ok (pending_events self') ∧
    (pending_events self).*1 = option_list (delivered h') ++ (pending_events self').*1.
Proof.
  intros Hp Hd. destruct (check_pending_events_ok self h Hp) as (self' & h' & E & HP).
  exists self', h'. split; [done|]. unfold entry_right. cbn [waiting found entered]. revert HP Hp.
  destruct (pending_events self) as [|[v c] rest] eqn:Eq; intros HP Hp.
  { destruct HP as [-> ->]. by rewrite Hd, Eq. }
  pose proof Hp as Hall. apply Forall_cons in Hp as [[Hv _] Hp].
  destruct ((v <? 32) || interruptible h).
  - destruct HP as [-> Hf]. rewrite (delivered_injected h' v _ Hv Hf). done.
  - destruct HP as (-> & Hb & Hf).
    assert (delivered h' = None) as -> by (unfold delivered in *; by rewrite Hf). by rewrite Eq.
Qed.

(** [C18] No event is lost, duplicated or reordered: over any sequence of queued
    events and VM entries between which the guest runs and may change its flags,
    what blocks interrupts and any other state, no step fails; the vectors of the
    valid VM-entry information the processor finds at the entries, followed by the
    vectors still pending, are the vectors queued, in the order in which they were
    queued; and every entry delivers the oldest event waiting, unless it is an
    interrupt the guest blocks, when an exit at the next interrupt window is
    requested. The processor clears the valid bit at every VM exit. *)
Theorem events_fifo (self : VmxVcpu) (h : Hw) (ops : list EventOp) :
  Forall event_ok (pending_events self) → delivered h = None → Forall event_op_ok ops →
  ∃ es self', run_events self h ops = Ret (es, self') ∧
    omap (λ e, delivered (entered e)) es ++ (pending_events self').*1 =
      (pending_events self ++ queued ops).*1 ∧
    Forall entry_right es ∧
    length es = length (runs ops).
Proof.
  revert self h. induction ops as [|op ops IH]; intros self h Hp Hd Hops.
  { exists [], self. cbn. by rewrite app_nil_r. }
  apply Forall_cons in Hops as [Hop Hops]. destruct op as [[v c]|exit]; cbn [run_events].
  - destruct (IH (inject_event self v c) h) as (es & self' & E & HE & HR & HL); [|done..|].
    { apply Forall_app. by split; [|apply Forall_singleton]. }
    exists es, self'. split; [done|]. split; [|done].
    rewrite HE. cbn. by rewrite <- app_assoc.
  - destruct (entry_ok self h Hp Hd) as (self1 & h1 & -> & HR1 & Hp1 & Hq). run.
    destruct (IH self1 (exit h1)) as (es & self' & -> & HE & HR & HL); [done|apply Hop|done|]. run.
    eexists _, _. split; [done|]. rewrite fmap_app, Hq, <- app_assoc. cbn [omap list_omap entered queued].
    rewrite fmap_app in HE. split; [|split; [by constructor|]].
    + destruct (delivered h1); cbn; by rewrite HE.
    + cbn. by rewrite HL.
Qed.

End Events.

(** ** The base of the task state segment *)

Section TrBase.
Context {P : Profile} {BF : BitField} {V : VmxHw} {C : HostCpu V}.

(** A present 64-bit TSS descriptor with base address [base] (SDM Vol. 3A, Figure
    7-4): bits 23:0 and 31:24 of the base in the low word, the rest in the high
    word. *)
Definition tss_descriptor (low high base : Z) : Prop :=
  0 ≤ low < 2 ^ 64 ∧ Z.testbit low 47 = true ∧
  low / 2 ^ 16 mod 2 ^ 24 = base mod 2 ^ 24 ∧ low / 2 ^ 56 = base / 2 ^ 24 mod 2 ^ 8 ∧
  high mod 2 ^ 32 = base / 2 ^ 32.

Lemma lor_parts x y n : 0 ≤ n → 0 ≤ x < 2 ^ n → Z.lor x (Z.shiftl y n) = x + y * 2 ^ n.
Proof.
  intros Hn Hx. pose proof (Z.pow_pos_nonneg 2 n). rewrite Z.shiftl_mul_pow2 by done.
  apply (lor_aligned x (y * 2 ^ n) n); [done|done|]. apply Z.mod_mul. lia.
Qed.

(** [get_tr_base] puts the base address of the task state segment together
    from the two descriptor words that the task register selects. *)
Theorem get_tr_base_spec (h : Hw) (k low high base : Z) :
  0 ≤ gdt_limit h < 2 ^ 16 → 0 ≤ k → k + 1 < (gdt_limit h + 1) / 8 → 0 ≤ base < 2 ^ 64 →
  gdt_words h !! Z.to_nat k = Some low → gdt_words h !! Z.to_nat (k + 1) = Some high →
  tss_descriptor low high base →
  get_tr_base h (8 * k) = Ret base.
Proof.
  intros Hl Hk Hk1 Hb Elow Ehigh (Hlow & Hp & H1 & H2 & H3). unfold get_tr_base.
  rewrite (add_u_ok 64 (gdt_limit h) 1) by lia. run. rewrite Z.shiftr_div_pow2 by lia. change (2 ^ 3) with 8.
  rewrite (Z.mul_comm 8 k), Z.div_mul by lia.
  assert (∀ i x, 0 ≤ i < (gdt_limit h + 1) / 8 → gdt_words h !! Z.to_nat i = Some x →
    index (take (Z.to_nat ((gdt_limit h + 1) / 8)) (gdt_words h)) i = Ret x) as Hidx.
  { intros i x Hi Hx. apply index_Ret. split; [lia|]. by rewrite lookup_take_lt by lia. }
  rewrite (Hidx k low) by (done || lia). run.
  destruct (Z.land low (Z.shiftl 1 47) =? 0) eqn:E; breflect; cbn [negb].
  { apply (f_equal (λ x, Z.testbit x 47)) in E. by rewrite Z.land_spec, Hp in E. }
  assert ((gdt_limit h + 1) / 8 < 2 ^ 16) by (apply Z.div_lt_upper_bound; lia).
  rewrite (add_u_ok 64 k 1) by lia. run.
  rewrite (Hidx (k + 1) high) by (done || lia). run. f_equal.
  rewrite !get_bits_spec by lia. change (40 - 16) with 24. change (64 - 56) with 8.
  change 0xffff_ffff with (Z.ones 32).
  rewrite !Z.land_ones, !Z.shiftr_div_pow2, H1, H2, H3 by lia.
  pose proof (Z.mod_pos_bound base (2 ^ 24)) as Hm1.
  pose proof (Z.mod_pos_bound (base / 2 ^ 24) (2 ^ 8)) as Hm2.
  rewrite (Z.mod_small (base / 2 ^ 24 mod 2 ^ 8)) by lia.
  assert (0 ≤ base / 2 ^ 32 < 2 ^ 32) as Hq.
  { split; [apply Z.div_pos; lia|apply Z.div_lt_upper_bound; lia]. }
  rewrite (lor_parts (base mod 2 ^ 24)) by lia.
  rewrite wrap_small by (rewrite Z.shiftl_mul_pow2 by lia; lia).
  rewrite lor_parts by lia.
  change (2 ^ 32) with (2 ^ 24 * 2 ^ 8). rewrite <- Z.div_div by lia.
  pose proof (Z.div_mod base (2 ^ 24)). pose proof (Z.div_mod (base / 2 ^ 24) (2 ^ 8)). lia.
Qed.

End TrBase.

(** ** Turning VMX on and off *)

(** The check of the control registers against the processor's requirements
    is void: it passes for every value, also one that lacks required bits, unless
    the processor requires all 64 bits or allows none. *)
Theorem crx_check_void (value fixed0 fixed1 : Z) :
  0 ≤ value < 2 ^ 64 → 0 ≤ fixed0 < u64_max → 0 < fixed1 < 2 ^ 64 →
  crx_is_valid value fixed0 fixed1 = true.
Proof.
  unfold u64_max. intros Hv H0 H1. unfold crx_is_valid. apply andb_true_iff.
  split; apply negb_true_iff, Z.eqb_neq.
  - intros E%Z.lor_eq_0_l. unfold not_u in E. apply Z.lxor_eq in E. change (Z.ones 64) with (2 ^ 64 - 1) in E. lia.
  - intros E%Z.lor_eq_0_l. lia.
Qed.

(** What the manual promises of the registers. *)
Class HostCpuLaws (V : VmxHw) (C : HostCpu V) : Prop := {
  cr4_write_read h v : cr4_read (cr4_write h v) = v;
  vmxon_cr4 h p r h' : vmxon h p = (r, h') → cr4_read h' = cr4_read h;
  vmxoff_cr4 h r h' : vmxoff h = (r, h') → cr4_read h' = cr4_read h;
}.

Section OnOff.
Context {P : Profile} {BF : BitField} {FL : Bitflags} {V : VmxHw} {C : HostCpu V}.
Context {CL : HostCpuLaws V C} {H : RvmHal} {HL : RvmHalLaws H}.

Lemma vmxe_bit x : fl_contains x CR4_VIRTUAL_MACHINE_EXTENSIONS = Z.testbit x 13.
Proof.
  rewrite fl_contains_spec. change CR4_VIRTUAL_MACHINE_EXTENSIONS with (2 ^ 13).
  destruct (Z.testbit x 13) eqn:E.
  - apply Z.eqb_eq, Z.bits_inj'. intros i Hi. rewrite Z.land_spec, Z.pow2_bits_eqb by lia.
    destruct (13 =? i) eqn:E13; breflect; subst; by rewrite ?E, ?andb_false_r.
  - apply Z.eqb_neq. intros Ht. apply (f_equal (λ y, Z.testbit y 13)) in Ht.
    by rewrite Z.land_spec, E in Ht.
Qed.

Lemma is_enabled_bit h : is_enabled h = Z.testbit (cr4_read h) 13.
Proof. apply vmxe_bit. Qed.

(** The region a successful [hardware_enable] hands to [VMXON] starts with the
    processor's revision identifier. *)
Lemma VmxRegion_new_ok m k s rev p k' : hal_owns k s → alloc_page k = Ret (Some p, k') →
  0 ≤ rev < 2 ^ 31 →
  ∃ m', VmxRegion_new m k rev false = Ret (Ok p, (m', k')) ∧ m' (phys_to_virt p) = rev.
Proof.
  intros Ho Hal Hr. destruct (alloc_page_some _ _ _ _ Ho Hal) as (_ & Hp0 & _).
  unfold VmxRegion_new, PhysFrame_alloc_zero, PhysFrame_alloc. rewrite Hal. run.
  rewrite (proj2 (Z.eqb_neq p 0) Hp0). run. cbn [negb].
  rewrite (proj2 (in_range_true 31 rev) Hr). run. eexists. split; [done|].
  unfold write_word. rewrite Z.eqb_refl. set (z := fill_page _ _ _ _).
  assert (z = 0) as ->.
  { subst z. unfold fill_page, PAGE_SIZE. case_bool; [done|bsolve]. }
  change (wrap 32 0) with 0. rewrite Z.land_0_l, Z.lor_0_l.
  rewrite (set_bits_spec 0 0 31) by (done || lia). change (Z.ldiff 0 _) with 0. rewrite Z.lor_0_l, Z.shiftl_0_r.
  apply Z.bits_inj'. intros i Hi. rewrite set_bit_spec by lia. case_bool; [|done].
  subst i. symmetry. apply (testbit_high rev 31); lia.
Qed.

(** The firmware has enabled VMX and locked the choice. *)
Definition vmx_unlocked_by_bios (h : Hw) : Prop :=
  fl_contains (FeatureControl_read h) FC_LOCKED = true ∧
  fl_contains (FeatureControl_read h) FC_VMXON_ENABLED_OUTSIDE_SMX = true.

(** On a supported processor whose firmware allows VMX, [hardware_enable]
    turns it on: a fresh region that starts with the revision identifier is handed
    to [VMXON] and VMX is then enabled; [hardware_disable] turns it off again and
    gives the region back. *)
Theorem vmx_on_off m k h s p k' h2 :
  hal_owns k s → alloc_page k = Ret (Some p, k') →
  has_vmx h = true → is_enabled h = false → vmx_unlocked_by_bios h →
  crx_is_valid (cr0_read h) (Msr_read h Msr.IA32_VMX_CR0_FIXED0)
    (Msr_read h Msr.IA32_VMX_CR0_FIXED1) = true →
  crx_is_valid (cr4_read h) (Msr_read h Msr.IA32_VMX_CR4_FIXED0)
    (Msr_read h Msr.IA32_VMX_CR4_FIXED1) = true →
  basic_supported (VmxBasic_read h) = true →
  vmxon (cr4_write h (fl_union (cr4_read h) CR4_VIRTUAL_MACHINE_EXTENSIONS)) p = (Ok tt, h2) →
  let rev := revision_id (VmxBasic_read h) in
  ∃ m', hardware_enable (m, k, h) VmxPerCpuState_new =
      Ret (Ok tt, (mkPerCpu rev p, (m', k', h2))) ∧
    m' (phys_to_virt p) = rev ∧ is_enabled h2 = true ∧
    ∀ h3 k'', vmxoff h2 = (Ok tt, h3) → dealloc_page k' p = Ret k'' → 0 < p →
      ∃ h4, hardware_disable (m', k', h2) (mkPerCpu rev p) =
          Ret (Ok tt, (mkPerCpu rev 0, (m', k'', h4))) ∧ is_enabled h4 = false.
Proof.
  intros Ho Hal Hv Hen [Hl Hout] Hc0 Hc4 Hb Hon rev.
  assert (0 ≤ rev < 2 ^ 31) as Hr.
  { unfold rev, VmxBasic_read. cbn [revision_id]. rewrite get_bits_spec by lia. by apply land_range. }
  destruct (VmxRegion_new_ok m k s rev p k' Ho Hal Hr) as (m' & Hreg & Hm').
  exists m'. unfold hardware_enable. rewrite Hv, Hen, Hl, Hout, Hc0, Hc4, Hb. cbn [negb andb].
  fold rev. rewrite Hreg. run. cbn [dealloc_frame vmx_region VmxPerCpuState_new PhysFrame_drop].
  unfold PhysFrame_drop. rewrite Z.ltb_irrefl. run. rewrite Hon. cbn [vmx_try mbind out_mbind].
  assert (is_enabled h2 = true) as Hen2.
  { rewrite is_enabled_bit, (vmxon_cr4 _ _ _ _ Hon), cr4_write_read, fl_union_spec, Z.lor_spec.
    apply orb_true_r. }
  split; [done|]. split; [done|]. split; [done|]. intros h3 k'' Hoff Hde Hp.
  unfold hardware_disable. rewrite Hen2, Hoff. cbn [negb vmx_try mbind out_mbind dealloc_frame vmx_region].
  unfold PhysFrame_drop. rewrite (proj2 (Z.ltb_lt 0 p) Hp), Hde. run. eexists. split; [done|].
  rewrite is_enabled_bit, cr4_write_read, Z.land_spec, testbit_not_u by lia. apply andb_false_r.
Qed.

End OnOff.

(** ** Examples: a processor as a table of fields and registers *)

Record TableHw := mkTable {
  table_fields : Z → Z;
  table_msrs : Z → Z;
  table_cr4 : Z;
}.

#[export] Instance table_hw : VmxHw := {|
  Hw := TableHw;
  vmread h e := Ok (wrap 64 (table_fields h e));
  vmwrite h e v :=
    (Ok tt, mkTable (λ e', if e' =? e then v else table_fields h e') (table_msrs h) (table_cr4 h));
  invept h _ _ := (Ok tt, h);
  vmclear h _ := (Ok tt, h);
  vmptrld h _ := (Ok tt, h);
  rdmsr_hw h i := table_msrs h i;
  wrmsr_hw h i v :=
    mkTable (table_fields h) (λ i', if i' =? i then v else table_msrs h i') (table_cr4 h);
|}.

#[export] Instance table_hw_laws : VmxHwLaws table_hw.
Proof.
  split; cbn.
  - intros h e v h' e' [= <-] Hv. cbn. case_bool; [|done]. f_equal. apply wrap_small.
    assert (encoding_width e ≤ 64) by (unfold encoding_width; repeat case_match; lia).
    pose proof (Z.pow_le_mono_r 2 (encoding_width e) 64). lia.
  - done.
  - intros h e v [= <-]. by apply wrap_range.
  - by intros h k p r h' e' [= <- <-].
  - by intros h e v r h' i [= <- <-].
Qed.

#[export] Instance table_hw_healthy : VmxHealthy table_hw.
Proof. split; intros; cbn; eauto. Qed.

#[export] Instance table_cpu : HostCpu table_hw := {|
  cr0_read _ := 0x8005_0033;
  cr3_read_frame _ := 0x1000;
  cr4_read h := table_cr4 h;
  cr4_write h v := mkTable (table_fields h) (table_msrs h) v;
  segment_selector _ s := match s with TR => 16 | _ => 8 end;
  gdt_limit _ := 0x27;
  gdt_base _ := 0x5000;
  gdt_words _ := [0; 0x00af_9b00_0000_ffff; 0x8000_8b12_3450_0067; 0xffff_8000; 0];
  idt_base _ := 0x6000;
  has_vmx _ := true;
  vmxon h _ := (Ok tt, h);
  vmxoff h := (Ok tt, h);
  vmx_exit_address := 0x7000;
|}.

#[export] Instance table_cpu_laws : HostCpuLaws table_hw table_cpu.
Proof. split; cbn; [done|by intros h p r h' [= <- <-]|by intros h r h' [= <- <-]]. Qed.

Section Examples.
#[local] Existing Instances dev Reference.bit_field Reference.bitflags Reference.x86_addr small_hal
  small_hal_laws.

(** All control bits may be set or cleared; firmware has enabled VMX. *)
Definition sample_hw : TableHw :=
  mkTable (λ _, 0) (λ i,
    if i =? 0x3a then 5
    else if i =? 0x480 then 0x00da_1000_0000_0004
    else if (i =? 0x486) || (i =? 0x488) then 0
    else 0xffff_ffff_0000_0000) 0x20.

Lemma sample_can_control m set clear : table_msrs sample_hw (Msr.Msr_index m) = 0xffff_ffff_0000_0000 →
  0 ≤ set < 2 ^ 32 → Z.land set clear = 0 → can_control (V:=table_hw) sample_hw m set clear.
Proof.
  intros Hm Hs Hd. unfold can_control, Msr_read. cbn [rdmsr_hw table_hw]. rewrite Hm.
  split; [done|]. apply controls_allowed_iff; [lia|]. split; [done|]. split; [|done].
  rewrite Z.land_comm. change (wrap 32 _) with (Z.ones 32). by apply land_ones_small.
Qed.

Example msr_bitmap_intercepts_sample :
  (bm ← setup_msr_bitmap MsrBitmap_passthrough_all;
   Ret (intercepts bm 0x1b false, intercepts bm 0x832 true, intercepts bm 0xc000_0080 true)) =
  Ret (true, true, false).
Proof. vm_compute. reflexivity. Qed.

Lemma set_control_spec_witness :
  (controls_allowed 0 0xffff_ffff 0x86 1 →
    ∃ v, set_control (V:=table_hw) sample_hw VmcsControl32.PRIMARY_PROCBASED_EXEC_CONTROLS
        Msr.IA32_VMX_TRUE_PROCBASED_CTLS 0x11 0x86 1 =
      write_field sample_hw (Control32 VmcsControl32.PRIMARY_PROCBASED_EXEC_CONTROLS) v ∧
      0 ≤ v < 2 ^ 32 ∧
      ∀ i, 0 ≤ i < 32 → Z.testbit v i = control_bit 0 0xffff_ffff 0x11 0x86 1 i) ∧
  (¬ controls_allowed 0 0xffff_ffff 0x86 1 →
    set_control (V:=table_hw) sample_hw VmcsControl32.PRIMARY_PROCBASED_EXEC_CONTROLS
      Msr.IA32_VMX_TRUE_PROCBASED_CTLS 0x11 0x86 1 = Ret (Err InvalidParam, sample_hw) ∨
    set_control (V:=table_hw) sample_hw VmcsControl32.PRIMARY_PROCBASED_EXEC_CONTROLS
      Msr.IA32_VMX_TRUE_PROCBASED_CTLS 0x11 0x86 1 = Ret (Err Unsupported, sample_hw)).
Proof.
  apply (set_control_spec (V:=table_hw) sample_hw VmcsControl32.PRIMARY_PROCBASED_EXEC_CONTROLS
    Msr.IA32_VMX_TRUE_PROCBASED_CTLS 0x11 0x86 1); [reflexivity|lia|lia].
Defined.

Lemma interrupt_exit_info_decodes_witness :
  let h := mkTable (λ _, 0x8000_0b0e) (λ _, 0) 0 in
  interrupt_exit_info (V:=table_hw) h =
    Ret (Ok (mkIntInfo 14 HardException (Some 0x8000_0b0e) true), h).
Proof.
  apply (interrupt_exit_info_decodes (V:=table_hw) (mkTable (λ _, 0x8000_0b0e) (λ _, 0) 0)
    (mkIntInfo 14 HardException (Some 0) true)); [cbn; lia|reflexivity].
Defined.

Lemma setup_vmcs_guest_state_witness :
  ∃ h', setup_vmcs_guest (V:=table_hw) sample_hw 0x20_0000 = Ret (Ok tt, h') ∧
    (∀ f, field h' f = default (field (V:=table_hw) sample_hw f)
      (written (guest_writes 0x20_0000 0xffff_ffff_0000_0000) f)) ∧
    field h' (GuestNW VmcsGuestNW.RIP) = 0x20_0000 ∧
    Z.testbit (field h' (GuestNW VmcsGuestNW.CR0)) 0 = false ∧
    Z.testbit (field h' (GuestNW VmcsGuestNW.CR0)) 31 = false ∧
    field h' (Guest64 VmcsGuest64.IA32_EFER) = 0 ∧
    field h' (GuestNW VmcsGuestNW.CS_BASE) = 0.
Proof.
  apply (setup_vmcs_guest_state (V:=table_hw) sample_hw 0x20_0000); [lia|].
  change (Msr_read (V:=table_hw) sample_hw Msr.IA32_PAT) with 0xffff_ffff_0000_0000. lia.
Defined.

Lemma setup_vmcs_control_state_witness :
  ∃ h', setup_vmcs_control (V:=table_hw) sample_hw 0x3000 0x4000 = Ret (Ok tt, h') ∧
    has_bits (field h' (Control32 VmcsControl32.PINBASED_EXEC_CONTROLS)) pin_set 0 ∧
    has_bits (field h' (Control32 VmcsControl32.PRIMARY_PROCBASED_EXEC_CONTROLS)) cpu_set cpu_clear ∧
    has_bits (field h' (Control32 VmcsControl32.SECONDARY_PROCBASED_EXEC_CONTROLS)) cpu2_set 0 ∧
    has_bits (field h' (Control32 VmcsControl32.VMEXIT_CONTROLS)) exit_set 0 ∧
    has_bits (field h' (Control32 VmcsControl32.VMENTRY_CONTROLS)) entry_set 0 ∧
    field h' (Control64 VmcsControl64.EPTP) = 0x4000 + 0x5e ∧
    field h' (Control64 VmcsControl64.MSR_BITMAPS_ADDR) = 0x3000 ∧
    field h' (Control32 VmcsControl32.EXCEPTION_BITMAP) = 0.
Proof.
  apply (setup_vmcs_control_state (V:=table_hw) sample_hw 0x3000 0x4000).
  - split; [|split; [|split; [|split]]]; apply sample_can_control; (reflexivity || done).
  - lia.
  - split; [lia|reflexivity].
Defined.

(** A run of the guest that switches interrupts on, and the exit behind it. *)
Definition enabling_run (h : TableHw) : TableHw :=
  mkTable (λ e, if e =? field_encoding entry_info then 0
    else if e =? field_encoding (GuestNW VmcsGuestNW.RFLAGS) then 0x202 else table_fields h e)
    (table_msrs h) (table_cr4 h).

(** An interrupt is queued for a guest with interrupts off and a page fault behind
    it: nothing is delivered while the guest blocks interrupts, then the interrupt,
    then the fault. *)
Definition sample_events : list (EventOp (V:=table_hw)) :=
  [Queue (32, None); Entry enabling_run; Queue (14, Some 2); Entry enabling_run; Entry enabling_run].

Definition fresh_vcpu : VmxVcpu := mkVcpu GeneralRegisters_default 0 0 0 [] ApicTimer_new [].

Example sample_events_delivered :
  match run_events fresh_vcpu sample_hw sample_events with
  | Ret (es, _) => (λ e, delivered (V:=table_hw) (entered e)) <$> es
  | Panic => []
  end = [None; Some 32; Some 14].
Proof. vm_compute. reflexivity. Qed.

Lemma events_fifo_witness :
  ∃ es self',
    run_events fresh_vcpu sample_hw sample_events = Ret (es, self') ∧
    omap (λ e, delivered (V:=table_hw) (entered e)) es ++ (pending_events self').*1 = [32; 14] ∧
    Forall (entry_right (V:=table_hw)) es ∧ length es = 3%nat.
Proof.
  apply (events_fifo (V:=table_hw) fresh_vcpu sample_hw sample_events).
  - apply Forall_nil_2.
  - reflexivity.
  - repeat (apply Forall_cons_2; [cbn; first [intros h; reflexivity|split; cbn; [lia|intros c [= <-]; lia || done]]|]).
    apply Forall_nil_2.
Defined.

Lemma get_tr_base_spec_witness : get_tr_base (V:=table_hw) sample_hw 16 = Ret 0xffff_8000_8012_3450.
Proof.
  apply (get_tr_base_spec (V:=table_hw) sample_hw 2 0x8000_8b12_3450_0067 0xffff_8000
    0xffff_8000_8012_3450); try reflexivity; try (vm_compute; split; congruence); try lia.
  vm_compute. repeat split; congruence.
Defined.

(** CR0 with paging and protection off passes the check of a processor that
    requires both. *)
Lemma crx_check_void_witness : crx_is_valid 0 0x8000_0021 0xffff_ffff = true.
Proof. apply (crx_check_void 0 0x8000_0021 0xffff_ffff); vm_compute; split; congruence. Defined.

Lemma vmx_on_off_witness :
  ∃ m', hardware_enable (V:=table_hw) (no_memory, small_host, sample_hw) VmxPerCpuState_new =
      Ret (Ok tt, (mkPerCpu 4 4096, (m', Frame.mkAlloc [252; 0; 0; 0; 0; 0; 0; 0] 6 2,
        mkTable (table_fields sample_hw) (table_msrs sample_hw) 0x2020))) ∧
    m' (phys_to_virt 4096) = 4.
Proof.
  destruct (vmx_on_off (V:=table_hw) no_memory small_host sample_hw ∅ 4096
    (Frame.mkAlloc [252; 0; 0; 0; 0; 0; 0; 0] 6 2)
    (mkTable (table_fields sample_hw) (table_msrs sample_hw) 0x2020) small_host_owns)
    as (m' & E & Hm & _); try reflexivity; [by split|]. by exists m'.
Defined.

End Examples.
