(* ===== verification/VmExit.v ===== *)
(** * VM exits

    [kernel/src/virt/kvm/mod.rs], the exit handlers of [RvmHalImpl], and the
    emulated port devices of [kernel/src/virt/kvm/device_emu]. *)

From S2P Require Import Prelude Crates Frame Ept PageTable KvmHal Apic VmcsFields Vmcs Vcpu.

(** ** Port devices *)

(** The devices of [all_virt_devices()]: their kinds and port bases. *)
Inductive PortIoDevice := Uart16550 (port_base : Z) | I8259Pic (port_base : Z).

Definition virt_devices : list PortIoDevice := [Uart16550 0x3f8; I8259Pic 0x20; I8259Pic 0xA0].

Section Devices.
Context {P : Profile}.

(** [port_range()] *)
Definition port_range (dev : PortIoDevice) : out (Z * Z) :=
  match dev with
  | Uart16550 base => e ← add_u 16 base 8; Ret (base, e)
  | I8259Pic base => e ← add_u 16 base 2; Ret (base, e)
  end.

Definition find_port_io_device (devs : list PortIoDevice) (port : Z) : out (option PortIoDevice) :=
  findM (λ dev, '(a, b) ← port_range dev; Ret ((a <=? port) && (port <? b))) devs.

Definition dev_read (dev : PortIoDevice) (port access_size : Z) : result RvmError Z :=
  match dev with
  | Uart16550 _ => Err Unsupported
  | I8259Pic _ => Err Unsupported
  end.

Definition DATA_REG : Z := 0.
Definition INT_EN_REG : Z := 1.
Definition FIFO_CTRL_REG : Z := 2.
Definition LINE_CTRL_REG : Z := 3.
Definition MODEM_CTRL_REG : Z := 4.
Definition LINE_STATUS_REG : Z := 5.
Definition SCRATCH_REG : Z := 7.

(** [write]; [serial] is the characters (code points) printed on the host's serial line. *)
Definition dev_write (dev : PortIoDevice) (serial : list Z) (port access_size value : Z) :
    out (result RvmError unit * list Z) :=
  match dev with
  | I8259Pic _ => Ret (Ok tt, serial)
  | Uart16550 port_base =>
      if negb (access_size =? 1) then Ret (Err InvalidParam, serial)
      else
        reg ← sub_u 16 port port_base;
        if reg =? DATA_REG then Ret (Ok tt, serial ++ [wrap 8 value])
        else if existsb (Z.eqb reg)
          [INT_EN_REG; FIFO_CTRL_REG; LINE_CTRL_REG; MODEM_CTRL_REG; SCRATCH_REG]
          then Ret (Ok tt, serial)
        else if reg =? LINE_STATUS_REG then Ret (Ok tt, serial)
        else Panic
  end.

End Devices.

(** ** Exit handlers *)

(** The four results of the [CPUID] instruction. *)
Record CpuIdResult := mkCpuId { eax : Z; ebx : Z; ecx : Z; edx : Z }.

Definition VM_EXIT_INSTR_LEN_CPUID : Z := 2.
Definition VM_EXIT_INSTR_LEN_RDMSR : Z := 2.
Definition VM_EXIT_INSTR_LEN_WRMSR : Z := 2.
Definition VM_EXIT_INSTR_LEN_VMCALL : Z := 3.

(** Registers, with the fields a handler changes. *)
Definition set_rax (r : GeneralRegisters) (v : Z) : GeneralRegisters :=
  mkRegs v (rcx r) (rdx r) (rbx r) (unused_rsp r) (rbp r) (rsi r) (rdi r)
    (r8 r) (r9 r) (r10 r) (r11 r) (r12 r) (r13 r) (r14 r) (r15 r).
Definition set_rdx (r : GeneralRegisters) (v : Z) : GeneralRegisters :=
  mkRegs (rax r) (rcx r) v (rbx r) (unused_rsp r) (rbp r) (rsi r) (rdi r)
    (r8 r) (r9 r) (r10 r) (r11 r) (r12 r) (r13 r) (r14 r) (r15 r).
Definition set_cpuid (r : GeneralRegisters) (c : CpuIdResult) : GeneralRegisters :=
  mkRegs (eax c) (ecx c) (edx c) (ebx c) (unused_rsp r) (rbp r) (rsi r) (rdi r)
    (r8 r) (r9 r) (r10 r) (r11 r) (r12 r) (r13 r) (r14 r) (r15 r).

Section Handlers.
Context {P : Profile} {BF : BitField} {FL : Bitflags} {V : VmxHw}.

(** [now] is the host's clock, [cpuid] the processor's [CPUID] instruction. *)
Context (now : Z) (cpuid : Z → Z → CpuIdResult).

(** A virtual CPU, the processor, and the serial output. *)
Definition VmState : Type := VmxVcpu * Hw * list Z.

Definition handle_external_interrupt (s : VmState) : out (result RvmError unit * VmState) :=
  let '(vcpu, h, serial) := s in
  '(r, h) ← interrupt_exit_info h;
  match r with
  | Err e => Ret (Err e, (vcpu, h, serial))
  | Ok int_info => _ ← assert (valid int_info); Ret (Ok tt, (vcpu, h, serial))
  end.

(** [vcpu.advance_rip(len)?; Ok(())] *)
Definition finish (s : VmState) (len : Z) : out (result RvmError unit * VmState) :=
  let '(vcpu, h, serial) := s in
  '(r, h) ← advance_rip h len;
  Ret (r, (vcpu, h, serial)).

Definition LEAF_FEATURE_INFO : Z := 0x1.
Definition LEAF_HYPERVISOR_INFO : Z := 0x4000_0000.
Definition LEAF_HYPERVISOR_FEATURE : Z := 0x4000_0001.
Definition FEATURE_VMX : Z := Z.shiftl 1 5.
Definition FEATURE_HYPERVISOR : Z := Z.shiftl 1 31.

Definition le_word (b0 b1 b2 b3 : Z) : Z := b0 + 2 ^ 8 * (b1 + 2 ^ 8 * (b2 + 2 ^ 8 * b3)).

(** The bytes of "RVMRVMRVMRVM", read as three words *)
Definition vendor_regs : list Z :=
  [le_word 82 86 77 82; le_word 86 77 82 86; le_word 77 82 86 77].

Definition cpuid_result (regs : GeneralRegisters) : CpuIdResult :=
  let function := wrap 32 (rax regs) in
  if function =? LEAF_FEATURE_INFO then
    let res := cpuid (wrap 32 (rax regs)) (wrap 32 (rcx regs)) in
    mkCpuId (eax res) (ebx res)
      (Z.lor (Z.land (ecx res) (not_u 32 FEATURE_VMX)) FEATURE_HYPERVISOR) (edx res)
  else if function =? LEAF_HYPERVISOR_INFO then
    mkCpuId LEAF_HYPERVISOR_FEATURE (nth 0 vendor_regs 0) (nth 1 vendor_regs 0)
      (nth 2 vendor_regs 0)
  else if function =? LEAF_HYPERVISOR_FEATURE then mkCpuId 0 0 0 0
  else cpuid (wrap 32 (rax regs)) (wrap 32 (rcx regs)).

Definition handle_cpuid (s : VmState) : out (result RvmError unit * VmState) :=
  let '(vcpu, h, serial) := s in
  let regs := guest_regs vcpu in
  let res := cpuid_result regs in
  finish (set_regs vcpu (set_cpuid regs res), h, serial) VM_EXIT_INSTR_LEN_CPUID.

Definition handle_hypercall (s : VmState) : out (result RvmError unit * VmState) :=
  finish s VM_EXIT_INSTR_LEN_VMCALL.

Definition handle_io_instruction (s : VmState) (exit_info : VmxExitInfo) :
    out (result RvmError unit * VmState) :=
  let '(vcpu, h, serial) := s in
  '(r, h) ← io_exit_info h;
  match r with
  | Err e => Ret (Err e, (vcpu, h, serial))
  | Ok io_info =>
      if is_string io_info then Ret (Err Unsupported, (vcpu, h, serial))
      else if is_repeat io_info then Ret (Err Unsupported, (vcpu, h, serial))
      else
        dev ← find_port_io_device virt_devices (port io_info);
        match dev with
        | None => Panic
        | Some dev =>
            let regs := guest_regs vcpu in
            '(r, vcpu, serial) ← (if is_in io_info then
                match dev_read dev (port io_info) (access_size io_info) with
                | Err e => Ret (Err e, vcpu, serial)
                | Ok value =>
                    rax' ← (if access_size io_info =? 1 then
                        Ret (Z.lor (Z.land (rax regs) (not_u 64 0xff)) (Z.land value 0xff))
                      else if access_size io_info =? 2 then
                        Ret (Z.lor (Z.land (rax regs) (not_u 64 0xffff)) (Z.land value 0xffff))
                      else if access_size io_info =? 4 then Ret value
                      else Panic);
                    Ret (Ok tt, set_regs vcpu (set_rax regs rax'), serial)
                end
              else
                value ← (if access_size io_info =? 1 then Ret (Z.land (rax regs) 0xff)
                  else if access_size io_info =? 2 then Ret (Z.land (rax regs) 0xffff)
                  else if access_size io_info =? 4 then Ret (rax regs)
                  else Panic);
                '(r, serial) ← dev_write dev serial (port io_info) (access_size io_info) (wrap 32 value);
                Ret (r, vcpu, serial));
            match r with
            | Err e => Ret (Err e, (vcpu, h, serial))
            | Ok _ => finish (vcpu, h, serial) (wrap 8 (exit_instruction_length exit_info))
            end
        end
  end.

Definition handle_msr_read (s : VmState) : out (result RvmError unit * VmState) :=
  let '(vcpu, h, serial) := s in
  let msr := wrap 32 (rcx (guest_regs vcpu)) in
  res ← (if msr =? IA32_APIC_BASE then
      let apic_base := rdmsr_hw h IA32_APIC_BASE in
      Ret (Ok (Z.lor apic_base (Z.lor (Z.shiftl 1 11) (Z.shiftl 1 10))))
    else if msr_range msr then rdmsr now (apic_timer vcpu) msr
    else Ret (Err Unsupported));
  match res with
  | Err _ => Panic
  | Ok value =>
      let regs := set_rax (guest_regs vcpu) (Z.land value 0xffff_ffff) in
      let regs := set_rdx regs (Z.shiftr value 32) in
      finish (set_regs vcpu regs, h, serial) VM_EXIT_INSTR_LEN_RDMSR
  end.

Definition handle_msr_write (s : VmState) : out (result RvmError unit * VmState) :=
  let '(vcpu, h, serial) := s in
  let regs := guest_regs vcpu in
  let msr := wrap 32 (rcx regs) in
  let value := Z.lor (Z.land (rax regs) 0xffff_ffff) (wrap 64 (Z.shiftl (rdx regs) 32)) in
  '(res, t) ← (if msr =? IA32_APIC_BASE then Ret (Ok tt, apic_timer vcpu)
    else if msr_range msr then wrmsr now (apic_timer vcpu) msr value
    else Ret (Err Unsupported, apic_timer vcpu));
  match res with
  | Err _ => Panic
  | Ok _ => finish (set_timer vcpu t, h, serial) VM_EXIT_INSTR_LEN_WRMSR
  end.

Definition handle_ept_violation (s : VmState) : out (result RvmError unit * VmState) :=
  let '(vcpu, h, serial) := s in
  '(r, h) ← ept_violation_info h;
  match r with
  | Err e => Ret (Err e, (vcpu, h, serial))
  | Ok _ => Panic
  end.

(** [RvmHalImpl::vmexit_handler] *)
Definition vmexit_handler (s : VmState) : out VmState :=
  let '(vcpu, h, serial) := s in
  '(r, h) ← exit_info h;
  match r with
  | Err _ => Panic
  | Ok info =>
      let s := (vcpu, h, serial) in
      if entry_failure info then Panic
      else
        '(res, s) ← match exit_reason info with
          | EXTERNAL_INTERRUPT => handle_external_interrupt s
          | INTERRUPT_WINDOW =>
              '(r, h) ← set_interrupt_window h false;
              Ret (r, (vcpu, h, serial))
          | CPUID => handle_cpuid s
          | VMCALL => handle_hypercall s
          | IO_INSTRUCTION => handle_io_instruction s info
          | MSR_READ => handle_msr_read s
          | MSR_WRITE => handle_msr_write s
          | EPT_VIOLATION => handle_ept_violation s
          | _ => Panic
          end;
        match res with
        | Ok _ => Ret s
        | Err _ => Panic
        end
  end.

End Handlers.

(** ** What an exit does

    The effect of an exit on the guest and on the fields of its VMCS, without the
    processor's instructions: [None] when the hypervisor panics. *)

Section Effect.
Context {P : Profile} {BF : BitField} {FL : Bitflags} {V : VmxHw}.
Context (now : Z) (cpuid : Z → Z → CpuIdResult).

Definition rip_field : VmcsField := GuestNW VmcsGuestNW.RIP.

Record Effect := mkEffect {
  eff_vcpu : VmxVcpu;
  eff_serial : list Z;
  eff_rip : Z;
  eff_controls : Z;
}.

(** The guest goes on after the instruction. *)
Definition resume (vcpu : VmxVcpu) (h : Hw) (serial : list Z) (len : Z) : option Effect :=
  match add_u 64 (field h rip_field) len with
  | Ret rip => Some (mkEffect vcpu serial rip (field h primary_controls))
  | Panic => None
  end.

(** A port write: which ports exist, and what they print. *)
Definition out_effect (port size value : Z) : option (list Z) :=
  if (0x3f8 <=? port) && (port <? 0x400) then
    if negb (size =? 1) then None
    else if port =? 0x3f8 then Some [wrap 8 value]
    else if port =? 0x3fe then None
    else Some []
  else if (0x20 <=? port) && (port <? 0x22) || (0xa0 <=? port) && (port <? 0xa2) then
    if (size =? 1) || (size =? 2) || (size =? 4) then Some [] else None
  else None.

Definition io_effect (vcpu : VmxVcpu) (h : Hw) (serial : list Z) : option Effect :=
  let q := field h (ReadOnlyNW VmcsReadOnlyNW.EXIT_QUALIFICATION) in
  if get_bit q 3 || get_bit q 4 || get_bit q 5 then None
  else
    let size := get_bits q 0 3 + 1 in
    p ← out_effect (get_bits q 16 32) size (rax (guest_regs vcpu));
    resume vcpu h (serial ++ p)
      (wrap 8 (field h (ReadOnly32 VmcsReadOnly32.VMEXIT_INSTRUCTION_LEN))).

Definition rdmsr_effect (vcpu : VmxVcpu) (h : Hw) (serial : list Z) : option Effect :=
  let regs := guest_regs vcpu in
  let msr := wrap 32 (rcx regs) in
  let value :=
    if msr =? IA32_APIC_BASE then Some (Z.lor (rdmsr_hw h IA32_APIC_BASE) 0xc00)
    else if msr_range msr then
      match rdmsr now (apic_timer vcpu) msr with Ret (Ok v) => Some v | _ => None end
    else None in
  v ← value;
  resume (set_regs vcpu (set_rdx (set_rax regs (Z.land v 0xffff_ffff)) (Z.shiftr v 32))) h serial 2.

Definition wrmsr_effect (vcpu : VmxVcpu) (h : Hw) (serial : list Z) : option Effect :=
  let regs := guest_regs vcpu in
  let msr := wrap 32 (rcx regs) in
  let value := Z.lor (Z.land (rax regs) 0xffff_ffff) (wrap 64 (Z.shiftl (rdx regs) 32)) in
  let timer :=
    if msr =? IA32_APIC_BASE then Some (apic_timer vcpu)
    else if msr_range msr then
      match wrmsr now (apic_timer vcpu) msr value with Ret (Ok _, t) => Some t | _ => None end
    else None in
  t ← timer;
  resume (set_timer vcpu t) h serial 2.

Definition exit_effect (vcpu : VmxVcpu) (h : Hw) (serial : list Z) : option Effect :=
  let reason := field h (ReadOnly32 VmcsReadOnly32.EXIT_REASON) in
  if get_bit reason 31 then None
  else
    r ← VmxExitReason_try_from (get_bits reason 0 16);
    match r with
    | EXTERNAL_INTERRUPT =>
        if get_bit (field h (ReadOnly32 VmcsReadOnly32.VMEXIT_INTERRUPTION_INFO)) 31
        then Some (mkEffect vcpu serial (field h rip_field) (field h primary_controls)) else None
    | INTERRUPT_WINDOW =>
        Some (mkEffect vcpu serial (field h rip_field)
          (Z.land (field h primary_controls) (not_u 32 CPU_INTERRUPT_WINDOW_EXITING)))
    | CPUID =>
        let regs := guest_regs vcpu in
        resume (set_regs vcpu (set_cpuid regs (cpuid_result cpuid regs))) h serial 2
    | VMCALL => resume vcpu h serial 3
    | IO_INSTRUCTION => io_effect vcpu h serial
    | MSR_READ => rdmsr_effect vcpu h serial
    | MSR_WRITE => wrmsr_effect vcpu h serial
    | _ => None
    end.

End Effect.

(** [s'] is the state an effect leaves. *)
Definition leaves {V : VmxHw} (h : Hw) (e : Effect) (s' : VmState) : Prop :=
  ∃ h', s' = (eff_vcpu e, h', eff_serial e) ∧
    ∀ f, field h' f = if decide (f = rip_field) then eff_rip e
      else if decide (f = primary_controls) then eff_controls e else field h f.

Section EffectProofs.
Context {P : Profile} {BF : BitField} {FL : Bitflags}.
Context {V : VmxHw} {VL : VmxHwLaws V} {VH : VmxHealthy V}.
Context (now : Z) (cpuid : Z → Z → CpuIdResult).

(** A handler agrees with an effect. *)
Definition agrees_with (m : out (result RvmError unit * VmState)) (h : Hw) (e : option Effect) : Prop :=
  match e with
  | Some e => ∃ s', m = Ret (Ok tt, s') ∧ leaves h e s'
  | None => m = Panic ∨ ∃ x s', m = Ret (Err x, s')
  end.

Lemma leaves_same h vcpu serial :
  leaves h (mkEffect vcpu serial (field h rip_field) (field h primary_controls)) (vcpu, h, serial).
Proof. exists h. split; [done|]. intros f. by repeat case_decide; subst. Qed.

Lemma add_u_64_range a b x : add_u 64 a b = Ret x → 0 ≤ x < 2 ^ 64.
Proof. intros E. by apply (norm_range 64 (a + b)). Qed.

Lemma finish_agrees vcpu h serial len :
  agrees_with (finish (vcpu, h, serial) len) h (resume vcpu h serial len).
Proof.
  unfold finish, resume, advance_rip. rewrite read_field_ok. run. fold rip_field.
  destruct (add_u 64 (field h rip_field) len) as [rip|] eqn:E; run; [|by left].
  destruct (write_field_ok h rip_field rip) as (h' & -> & _ & F).
  { by apply add_u_64_range in E. }
  run. eexists. split; [done|]. exists h'. split; [done|]. intros f. rewrite F. cbn.
  by repeat case_decide; subst.
Qed.

Lemma find_virt_device p : 0 ≤ p → find_port_io_device virt_devices p = Ret
  (if (0x3f8 <=? p) && (p <? 0x400) then Some (Uart16550 0x3f8)
   else if (0x20 <=? p) && (p <? 0x22) then Some (I8259Pic 0x20)
   else if (0xa0 <=? p) && (p <? 0xa2) then Some (I8259Pic 0xA0) else None).
Proof.
  intros Hp. unfold find_port_io_device, virt_devices, port_range. cbn [findM].
  rewrite (add_u_ok 16 0x3f8 8), (add_u_ok 16 0x20 2), (add_u_ok 16 0xA0 2) by lia. run.
  change (0x3f8 + 8) with 0x400. change (0x20 + 2) with 0x22. change (0xA0 + 2) with 0xa2.
  by repeat case_bool.
Qed.

Lemma out_byte r : wrap 8 (wrap 32 (Z.land r 0xff)) = wrap 8 r.
Proof.
  change 0xff with (Z.ones 8). rewrite Z.land_ones by done. unfold wrap.
  rewrite (Z.mod_small (r mod 2 ^ 8)).
  - by rewrite Z.mod_mod.
  - pose proof (Z.mod_pos_bound r (2 ^ 8)). lia.
Qed.

(** Writing a port, as [handle_io_instruction] does. *)
Definition out_code (dev : PortIoDevice) (serial : list Z) (port size r : Z) :
    out (result RvmError unit * list Z) :=
  value ← (if size =? 1 then Ret (Z.land r 0xff)
    else if size =? 2 then Ret (Z.land r 0xffff)
    else if size =? 4 then Ret r
    else Panic);
  dev_write dev serial port size (wrap 32 value).

Lemma out_uart serial port size r : 0x3f8 ≤ port < 0x400 →
  match out_effect port size r with
  | Some p => out_code (Uart16550 0x3f8) serial port size r = Ret (Ok tt, serial ++ p)
  | None => out_code (Uart16550 0x3f8) serial port size r = Panic ∨
      ∃ e, out_code (Uart16550 0x3f8) serial port size r = Ret (Err e, serial)
  end.
Proof.
  intros Hp. unfold out_effect, out_code, dev_write.
  rewrite (proj2 (Z.leb_le _ _)), (proj2 (Z.ltb_lt _ _)) by lia. cbn [andb].
  destruct (size =? 1) eqn:E1; cbn [negb].
  - run. rewrite sub_u_ok by lia. run. rewrite out_byte.
    assert (In port [0x3f8; 0x3f9; 0x3fa; 0x3fb; 0x3fc; 0x3fd; 0x3fe; 0x3ff]) as Hin by (cbn; lia).
    cbn in Hin. repeat destruct Hin as [<-|Hin]; cbn; rewrite ?app_nil_r; auto. done.
  - destruct (size =? 2); run; [by right; eexists|]. destruct (size =? 4); run; [by right; eexists|].
    by left.
Qed.

Lemma out_pic base serial port size r : (port <? 0x3f8) = true →
  (0x20 <=? port) && (port <? 0x22) || (0xa0 <=? port) && (port <? 0xa2) = true →
  match out_effect port size r with
  | Some p => out_code (I8259Pic base) serial port size r = Ret (Ok tt, serial ++ p)
  | None => out_code (I8259Pic base) serial port size r = Panic
  end.
Proof.
  intros Hlow Hp. breflect. unfold out_effect, out_code, dev_write. rewrite Hp.
  rewrite (proj2 (Z.leb_gt _ _)) by lia. cbn [andb].
  destruct (size =? 1); cbn [orb]; run; [by rewrite app_nil_r|].
  destruct (size =? 2); cbn [orb]; run; [by rewrite app_nil_r|].
  destruct (size =? 4); cbn [orb]; run; [by rewrite app_nil_r|done].
Qed.

(** The device that answers for a port writes it as [out_effect] says. *)
Lemma out_device serial port size r : 0 ≤ port →
  let m := dev ← find_port_io_device virt_devices port;
    match dev with None => Panic | Some dev => out_code dev serial port size r end in
  match out_effect port size r with
  | Some p => m = Ret (Ok tt, serial ++ p)
  | None => m = Panic ∨ ∃ e, m = Ret (Err e, serial)
  end.
Proof.
  intros Hp. cbv zeta. rewrite find_virt_device by done. run.
  destruct ((0x3f8 <=? port) && (port <? 0x400)) eqn:E1.
  { breflect. by apply out_uart. }
  destruct ((0x20 <=? port) && (port <? 0x22)) eqn:E2.
  { pose proof (out_pic 0x20 serial port size r) as Ho. destruct (out_effect port size r).
    - apply Ho; [breflect; lia|by rewrite E2].
    - left. apply Ho; [breflect; lia|by rewrite E2]. }
  destruct ((0xa0 <=? port) && (port <? 0xa2)) eqn:E3.
  { pose proof (out_pic 0xA0 serial port size r) as Ho. destruct (out_effect port size r).
    - apply Ho; [breflect; lia|by rewrite E2, E3].
    - left. apply Ho; [breflect; lia|by rewrite E2, E3]. }
  unfold out_effect. rewrite E1, E2, E3. by left.
Qed.

Lemma get_bits_small x lo hi : 0 ≤ lo < hi → hi ≤ 64 → 0 ≤ get_bits x lo hi < 2 ^ (hi - lo).
Proof.
  intros Hlo Hhi. rewrite get_bits_spec by done. rewrite Z.land_ones by lia.
  apply Z.mod_pos_bound, Z.pow_pos_nonneg; lia.
Qed.

Lemma handle_io_agrees vcpu h serial info :
  exit_instruction_length info = field h (ReadOnly32 VmcsReadOnly32.VMEXIT_INSTRUCTION_LEN) →
  agrees_with (handle_io_instruction (vcpu, h, serial) info) h (io_effect vcpu h serial).
Proof.
  intros Hlen. unfold handle_io_instruction, io_exit_info, io_effect. rewrite read_field_ok. run.
  set (q := field h _). 
  pose proof (get_bits_small q 0 3 ltac:(lia) ltac:(lia)) as Hs. change (2 ^ (3 - 0)) with 8 in Hs.
  pose proof (get_bits_small q 16 32 ltac:(lia) ltac:(lia)) as Hp.
  rewrite (add_u_ok 8 (get_bits q 0 3) 1) by lia. run. cbn [is_string is_repeat is_in port access_size].
  destruct (get_bit q 4); [rewrite orb_true_r; cbn; eauto|].
  destruct (get_bit q 5); [rewrite orb_true_r; cbn; eauto|]. rewrite !orb_false_r.
  pose proof (out_device serial (get_bits q 16 32) (get_bits q 0 3 + 1) (rax (guest_regs vcpu))
    (proj1 Hp)) as Hout. cbv zeta in Hout. revert Hout.
  rewrite (find_virt_device _ (proj1 Hp)). run.
  match goal with |- context [match (if ?c then Some (Uart16550 _) else ?e) with _ => _ end] =>
    destruct (if c then Some (Uart16550 0x3f8) else e) as [dev|] end.
  2: { destruct (out_effect _ _ _); [by intros [=]|]. intros _. destruct (get_bit q 3); by left. }
  destruct (get_bit q 3); [intros _; destruct dev; cbn; eauto|].
  unfold out_code. match goal with |- context [mbind _ (if ?c then Ret (Z.land ?r 255) else ?e)] =>
    destruct (if c then Ret (Z.land r 255) else e) as [value|] end; run.
  2: { destruct (out_effect _ _ _); [by intros [=]|]. by left. }
  destruct (out_effect _ _ _) as [p|].
  - intros ->. run. rewrite Hlen. apply finish_agrees.
  - intros [->|[e ->]]; run; [by left|right; eauto].
Qed.

Lemma handle_msr_read_agrees vcpu h serial :
  agrees_with (handle_msr_read now (vcpu, h, serial)) h (rdmsr_effect now vcpu h serial).
Proof.
  unfold handle_msr_read, rdmsr_effect. cbv zeta.
  destruct (wrap 32 (rcx (guest_regs vcpu)) =? IA32_APIC_BASE); [run; apply finish_agrees|].
  destruct (msr_range _); [|run; by left].
  destruct (rdmsr _ _ _) as [[v|e]|]; run; [apply finish_agrees|by left|by left].
Qed.

Lemma handle_msr_write_agrees vcpu h serial :
  agrees_with (handle_msr_write now (vcpu, h, serial)) h (wrmsr_effect now vcpu h serial).
Proof.
  unfold handle_msr_write, wrmsr_effect. cbv zeta.
  destruct (wrap 32 (rcx (guest_regs vcpu)) =? IA32_APIC_BASE); [run; apply finish_agrees|].
  destruct (msr_range _); [|run; by left].
  destruct (wrmsr _ _ _ _) as [[[[]|e] t]|]; run; [apply finish_agrees|by left|by left].
Qed.

Lemma handle_external_interrupt_agrees vcpu h serial :
  agrees_with (handle_external_interrupt (vcpu, h, serial)) h
    (if get_bit (field h (ReadOnly32 VmcsReadOnly32.VMEXIT_INTERRUPTION_INFO)) 31
     then Some (mkEffect vcpu serial (field h rip_field) (field h primary_controls)) else None).
Proof.
  unfold handle_external_interrupt, interrupt_exit_info. rewrite read_field_ok. run.
  set (info := field h (ReadOnly32 VmcsReadOnly32.VMEXIT_INTERRUPTION_INFO)).
  assert (∃ t, VmxInterruptionType_try_from (get_bits info 8 11) = Some t) as [t ->].
  { pose proof (get_bits_small info 8 11 ltac:(lia) ltac:(lia)) as Hr.
    change (2 ^ (11 - 8)) with 8 in Hr. generalize dependent (get_bits info 8 11).
    intros x Hr. assert (In x [0;1;2;3;4;5;6;7]) as Hx by (cbn; lia).
    cbn in Hx. repeat destruct Hx as [<-|Hx]; cbn; eauto. done. }
  run. destruct (get_bit info 11); [rewrite read_field_ok|]; run; cbn [valid];
    (destruct (get_bit info 31); run; [eexists; split; [done|apply leaves_same]|by left]).
Qed.

Lemma set_window_agrees vcpu h serial :
  agrees_with ('(r, h) ← set_interrupt_window h false; Ret (r, (vcpu, h, serial))) h
    (Some (mkEffect vcpu serial (field h rip_field)
      (Z.land (field h primary_controls) (not_u 32 CPU_INTERRUPT_WINDOW_EXITING)))).
Proof.
  unfold set_interrupt_window. rewrite read_field_ok. run.
  pose proof (field_range h primary_controls) as Hr. change (field_width _) with 32 in Hr.
  destruct (write_field_ok h primary_controls
    (Z.land (field h primary_controls) (not_u 32 CPU_INTERRUPT_WINDOW_EXITING)))
    as (h' & -> & _ & F).
  { rewrite Z.land_comm. by apply land_range. }
  run. eexists. split; [done|]. exists h'. split; [done|]. intros f. rewrite F. cbn.
  by repeat case_decide; subst.
Qed.

Lemma vmexit_ok (vcpu : VmxVcpu) (h : Hw) (serial : list Z) :
  match exit_effect now cpuid vcpu h serial with
  | Some e => ∃ s', vmexit_handler now cpuid (vcpu, h, serial) = Ret s' ∧ leaves h e s'
  | None => vmexit_handler now cpuid (vcpu, h, serial) = Panic
  end.
Proof.
  unfold vmexit_handler, exit_info, exit_effect. rewrite read_field_ok. run.
  set (reason := field h (ReadOnly32 VmcsReadOnly32.EXIT_REASON)).
  destruct (VmxExitReason_try_from (get_bits reason 0 16)) as [r|]; cbn [mbind option_bind]; run;
    [|by destruct (get_bit reason 31)].
  do 2 (rewrite read_field_ok; run). cbn [entry_failure exit_reason].
  destruct (get_bit reason 31); [done|].
  assert (∀ m e, agrees_with m h e →
    match e with
    | Some e => ∃ s', ('(res, s) ← m; match res with Ok _ => Ret s | Err _ => Panic end) = Ret s' ∧
        leaves h e s'
    | None => ('(res, s) ← m; match res with Ok _ => Ret s | Err _ => Panic end) = Panic
    end) as Hwrap.
  { intros m [e|]; cbn; [intros (s' & -> & Hl); eauto|intros [->|(x & s' & ->)]; done]. }
  destruct r; try done;
    first [refine (Hwrap _ None _) | refine (Hwrap _ (Some _) _) | apply Hwrap].
  - apply handle_external_interrupt_agrees.
  - apply set_window_agrees.
  - apply finish_agrees.
  - apply finish_agrees.
  - by apply handle_io_agrees.
  - apply handle_msr_read_agrees.
  - apply handle_msr_write_agrees.
  - unfold handle_ept_violation, ept_violation_info. rewrite read_field_ok. run.
    rewrite read_field_ok. run. by left.
Qed.

(** [C23] Every VM exit on a working processor does what [exit_effect] says: the
    guest's registers, timer and instruction pointer, the interrupt-window control
    and the serial output change as the emulated instruction demands and no other
    field changes; all other exits (among them every port read, EPT violation and
    unknown register) make the hypervisor panic. *)
Theorem vmexit_effect (vcpu : VmxVcpu) (h : Hw) (serial : list Z) :
  match exit_effect now cpuid vcpu h serial with
  | Some e => ∃ s', vmexit_handler now cpuid (vcpu, h, serial) = Ret s' ∧ leaves h e s'
  | None => vmexit_handler now cpuid (vcpu, h, serial) = Panic
  end.
Proof. apply vmexit_ok. Qed.

(** A guest that reads a port stops the hypervisor: whatever the port and the
    state, an IO exit whose qualification has the direction bit set panics, since no
    emulated device can be read. *)
Theorem guest_in_panics (vcpu : VmxVcpu) (h : Hw) (serial : list Z)
    (Hio : get_bits (field h (ReadOnly32 VmcsReadOnly32.EXIT_REASON)) 0 16 = 30)
    (Hin : get_bit (field h (ReadOnlyNW VmcsReadOnlyNW.EXIT_QUALIFICATION)) 3 = true) :
  vmexit_handler now cpuid (vcpu, h, serial) = Panic.
Proof.
  pose proof (vmexit_ok vcpu h serial) as H. unfold exit_effect, io_effect in H.
  rewrite Hio, Hin in H. cbn in H. by destruct (get_bit (field h _) 31).
Qed.

(** The byte of a register from bit [i]. *)
Definition byte_at (w i : Z) : Z := Z.land (Z.shiftr w i) 0xff.

Lemma testbit_pow2 k i : 0 ≤ k → Z.testbit (Z.shiftl 1 k) i = (k =? i).
Proof.
  intros Hk. rewrite Z.shiftl_1_l, Z.pow2_bits_eqb by done. done.
Qed.

(** CPUID in the guest, whatever the processor reports: leaf 1 hides the VMX
    feature (bit 5 of ECX), announces a hypervisor (bit 31) and is otherwise the
    processor's; leaf 0x4000_0000 names leaf 0x4000_0001 as the last hypervisor leaf
    and spells the vendor RVMRVMRVMRVM; and every other leaf outside the hypervisor's is the processor's own. *)
Theorem cpuid_leaves (regs : GeneralRegisters) :
  let function := wrap 32 (rax regs) in
  let own := cpuid function (wrap 32 (rcx regs)) in
  let r := cpuid_result cpuid regs in
  (function = 1 →
    eax r = eax own ∧ ebx r = ebx own ∧ edx r = edx own ∧
    Z.testbit (ecx r) 5 = false ∧ Z.testbit (ecx r) 31 = true ∧
    ∀ i, 0 ≤ i < 32 → i ≠ 5 → i ≠ 31 → Z.testbit (ecx r) i = Z.testbit (ecx own) i) ∧
  (function = 0x4000_0000 → eax r = 0x4000_0001 ∧
    (w ← [ebx r; ecx r; edx r]; byte_at w <$> [0; 8; 16; 24]) =
      [82; 86; 77; 82; 86; 77; 82; 86; 77; 82; 86; 77]) ∧
  (function ≠ 1 → function ≠ 0x4000_0000 → function ≠ 0x4000_0001 → r = own).
Proof.
  cbv zeta. unfold cpuid_result. split_and!.
  - intros E. rewrite E. cbn [Z.eqb Pos.eqb LEAF_FEATURE_INFO eax ebx ecx edx].
    assert (∀ x i, 0 ≤ i < 32 → Z.testbit (Z.lor (Z.land x (not_u 32 FEATURE_VMX)) FEATURE_HYPERVISOR) i
      = (Z.testbit x i && negb (5 =? i)) || (31 =? i)) as T.
    { intros x i Hi. unfold not_u, FEATURE_VMX, FEATURE_HYPERVISOR.
      rewrite Z.lor_spec, Z.land_spec, Z.lxor_spec, Z.ones_spec_low, !testbit_pow2 by lia.
      by rewrite xorb_true_r. }
    split_and!; [done..|rewrite T by lia; cbn; by rewrite andb_false_r|rewrite T by lia; cbn; by rewrite orb_true_r|].
    intros i Hi H5 H31. rewrite T by done.
    rewrite (proj2 (Z.eqb_neq 5 i)), (proj2 (Z.eqb_neq 31 i)) by lia.
    by rewrite andb_true_r, orb_false_r.
  - intros E. rewrite E. split; reflexivity.
  - intros H1 H2 H3. unfold LEAF_FEATURE_INFO, LEAF_HYPERVISOR_INFO, LEAF_HYPERVISOR_FEATURE.
    by rewrite !(proj2 (Z.eqb_neq _ _)).
Qed.

End EffectProofs.

(** ** Witnesses *)

(** A guest that printed a byte: an OUT of one byte, two bytes long, to port 0x3f8. *)
Definition out_exit (f : Z) : Z :=
  if f =? field_encoding (ReadOnly32 VmcsReadOnly32.EXIT_REASON) then 30
  else if f =? field_encoding (ReadOnlyNW VmcsReadOnlyNW.EXIT_QUALIFICATION) then 0x3f8_0000
  else if f =? field_encoding (ReadOnly32 VmcsReadOnly32.VMEXIT_INSTRUCTION_LEN) then 2
  else 0x7c00.

Section Examples.
#[local] Existing Instances dev Reference.bit_field Reference.bitflags.

Definition print_vcpu : VmxVcpu :=
  mkVcpu (set_rax GeneralRegisters_default 0x141) 0 0 0 [] ApicTimer_new [].
Definition print_hw : TableHw := mkTable out_exit (λ _, 0) 0x20.
Definition read_hw : TableHw :=
  mkTable (λ f, if f =? 0x6400 then 0x3f8_0008 else out_exit f) (λ _, 0) 0x20.
Definition no_cpuid (_ _ : Z) : CpuIdResult := mkCpuId 0 0 0 0.

(** The guest's byte is printed and the guest continues behind the instruction. *)
Lemma vmexit_effect_witness :
  ∃ s', vmexit_handler (V:=table_hw) 0 no_cpuid (print_vcpu, print_hw, [72]) = Ret s' ∧
    leaves (V:=table_hw) print_hw (mkEffect print_vcpu [72; 0x41] 0x7c02 0x7c00) s'.
Proof.
  assert (exit_effect (V:=table_hw) 0 no_cpuid print_vcpu print_hw [72] =
    Some (mkEffect print_vcpu [72; 0x41] 0x7c02 0x7c00)) as E by (vm_compute; reflexivity).
  pose proof (vmexit_effect (V:=table_hw) 0 no_cpuid print_vcpu print_hw [72]) as H.
  rewrite E in H. exact H.
Defined.

Lemma guest_in_panics_witness :
  vmexit_handler (V:=table_hw) 0 no_cpuid (print_vcpu, read_hw, []) = Panic.
Proof. apply (guest_in_panics (V:=table_hw)); vm_compute; reflexivity. Defined.

End Examples.
