(* ===== verification/BlockCache.v ===== *)
(** * The block cache and the disks behind it

    [kernel/src/fs/vfs/cache.rs], [kernel/src/fs/vfs/dev/block.rs] and
    [kernel/src/fs/vfs/dev/partition.rs]: sectors are cached in a map, a disk is read
    and written at byte granularity through the cache, and a partition is a window of
    a disk. The theorems: all of them are flat arrays of bytes. *)

From stdpp Require Import sorting.
From S2P Require Import Prelude.

(** ** Drivers

    The trait [BlockDevice] of [kernel/src/device/block.rs]; [D] is the state of a
    driver and its disk. The drivers always return [Some(())]. *)

Class BlockDriver (D : Type) := {
  read_block : D → Z → list Z → out (list Z * D);
  write_block : D → Z → list Z → out D;
  get_size : D → out Z;
}.

(** A working disk: an array of sectors of 512 bytes. *)
Class BlockDriverLaws (D : Type) {B : BlockDriver D} := {
  working : D → Prop;
  sectors : D → Z;
  sector : D → Z → list Z;
  sectors_range d : working d → 0 ≤ sectors d ∧ sectors d * 512 < 2 ^ 62;
  sector_len d b : working d → 0 ≤ b < sectors d → zlen (sector d b) = 512;
  get_size_ok d : working d → get_size d = Ret (sectors d * 512);
  read_block_ok d b buf : working d → 0 ≤ b < sectors d → zlen buf = 512 →
    ∃ d', read_block d b buf = Ret (sector d b, d') ∧ working d' ∧ sectors d' = sectors d ∧
      ∀ b', sector d' b' = sector d b';
  write_block_ok d b buf : working d → 0 ≤ b < sectors d → zlen buf = 512 →
    ∃ d', write_block d b buf = Ret d' ∧ working d' ∧ sectors d' = sectors d ∧
      ∀ b', sector d' b' = if decide (b' = b) then buf else sector d b';
}.

(** ** The cache *)

(** [BTreeMap::iter]: the entries in the order of their keys. *)
Definition key_le {A} (p q : Z * A) : Prop := p.1 ≤ q.1.
#[export] Instance key_le_dec {A} (p q : Z * A) : Decision (key_le p q).
Proof. unfold key_le. apply _. Defined.
Definition btree_iter {A} (m : gmap Z A) : list (Z * A) := merge_sort key_le (map_to_list m).

Lemma btree_iter_perm {A} (m : gmap Z A) : btree_iter m ≡ₚ map_to_list m.
Proof. apply merge_sort_Permutation. Qed.

(** [Cache512B::new] *)
Definition Cache512B_new : list Z := replicate 512 0.
Arguments Cache512B_new : simpl never.

(** [CacheManager]: the cached sectors; the device is the disk [id] of [HD_LIST]. *)
Record CacheManager := mkCache { caches : gmap Z (list Z); id : Z }.

Definition CacheManager_new (id : Z) : CacheManager := mkCache ∅ id.

Section Cache.
Context {P : Profile} {D : Type} {B : BlockDriver D}.

(** [BlockDevice::read], [BlockDevice::write] of [block.rs]; [hds] is [HD_LIST]. *)
Definition device_read (hds : list D) (id block_id : Z) (buf : list Z) : out (list Z * list D) :=
  d ← index hds id;
  '(buf, d) ← read_block d block_id buf;
  hds ← store hds id d;
  Ret (buf, hds).

Definition device_write (hds : list D) (id block_id : Z) (buf : list Z) : out (list D) :=
  d ← index hds id;
  d ← write_block d block_id buf;
  store hds id d.

Definition has_cache_on (self : CacheManager) (block : Z) : bool :=
  bool_decide (is_Some (caches self !! block)).

Definition add_cache (self : CacheManager) (block_id : Z) (cache : list Z) : CacheManager :=
  mkCache (<[block_id := cache]> (caches self)) (id self).

Definition flush_cache (s : CacheManager * list D) : out (CacheManager * list D) :=
  let '(self, hds) := s in
  hds ← foldM (λ hds '(block_id, cache), device_write hds (id self) block_id cache) hds
    (btree_iter (caches self));
  Ret (self, hds).

(** The first step of both loops: the block is read unless it is cached. *)
Definition load_block (s : CacheManager * list D) (block_id : Z) : out (CacheManager * list D) :=
  let '(self, hds) := s in
  if negb (has_cache_on self block_id) then
    '(new_cache, hds) ← device_read hds (id self) block_id Cache512B_new;
    Ret (add_cache self block_id new_cache, hds)
  else Ret (self, hds).

(** [dst[..].copy_from_slice(src)] *)
Definition copy_from_slice (dst src : list Z) : out (list Z) :=
  _ ← assert (zlen dst =? zlen src); Ret src.

Definition read_from_cache (s : CacheManager * list D) (start_block : Z) (buf : list Z) :
    out (list Z * (CacheManager * (list D))) :=
  let block_num := zlen buf / 512 in
  end_block ← add_u 64 start_block block_num;
  foldM (λ '(buf, s) block_id,
    s ← load_block s block_id;
    cache ← unwrap (caches s.1 !! block_id);
    k ← sub_u 64 block_id start_block;
    start ← mul_u 64 k 512;
    e ← add_u 64 start 512;
    dst ← slice buf start e;
    dst ← copy_from_slice dst cache;
    Ret (splice buf start dst, s)) (buf, s) (range start_block end_block).

Definition write_to_cache (s : CacheManager * list D) (start_block : Z) (buf : list Z) :
    out (CacheManager * list D) :=
  let block_num := zlen buf / 512 in
  end_block ← add_u 64 start_block block_num;
  foldM (λ s block_id,
    '(self, hds) ← load_block s block_id;
    cache ← unwrap (caches self !! block_id);
    k ← sub_u 64 block_id start_block;
    start ← mul_u 64 k 512;
    e ← add_u 64 start 512;
    src ← slice buf start e;
    cache ← copy_from_slice cache src;
    Ret (mkCache (<[block_id := cache]> (caches self)) (id self), hds)) s
    (range start_block end_block).

End Cache.

(** ** Inodes that hold bytes

    The part of the trait [Inode] a disk-like inode implements; [S] is the inode and
    all it reaches. *)

Class InodeIO (S : Type) := {
  read_at : S → Z → list Z → out (Z * list Z * S);
  write_at : S → Z → list Z → out (Z * S);
  size : S → out Z;
}.

(** [BlockInode]: its disk, its cache and its path; with [HD_LIST]. *)
Record BlockInode := mkBlock { hd : Z; cache_manager : CacheManager; block_path : string }.

Definition BlockInode_new (hd : Z) : BlockInode := mkBlock hd (CacheManager_new hd) EmptyString.

Section Block.
Context {P : Profile} {D : Type} {B : BlockDriver D}.

Definition BlockInode_when_mounted (self : BlockInode) (path : string) : BlockInode :=
  mkBlock (hd self) (cache_manager self) path.

(** The sectors [offset .. offset + len] touches: the position in the first, its
    number, and the size of all. *)
Definition sector_span (start len : Z) : out (Z * Z * Z) :=
  e ← add_u 64 start len;
  let start_sector_read_start := start mod 512 in
  let start_sector_id := start / 512 in
  e1 ← sub_u 64 e 1;
  let end_sector_id := e1 / 512 in
  k ← sub_u 64 end_sector_id start_sector_id;
  k ← add_u 64 k 1;
  buffer_size ← mul_u 64 k 512;
  Ret (start_sector_read_start, start_sector_id, buffer_size).

Definition BlockInode_read_at (s : BlockInode * list D) (offset : Z) (buf : list Z) :
    out (Z * list Z * (BlockInode * list D)) :=
  let '(self, hds) := s in
  '(skip, start_sector_id, buffer_size) ← sector_span offset (zlen buf);
  let tmp := replicate (Z.to_nat buffer_size) 0 in
  '(tmp, (cm, hds)) ← read_from_cache (cache_manager self, hds) start_sector_id tmp;
  buf ← foldM (λ buf i,
    j ← add_u 64 i skip;
    x ← index tmp j;
    store buf i x) buf (range 0 (zlen buf));
  Ret (zlen buf, buf, (mkBlock (hd self) cm (block_path self), hds)).

Definition BlockInode_write_at (s : BlockInode * list D) (offset : Z) (buf : list Z) :
    out (Z * (BlockInode * list D)) :=
  let '(self, hds) := s in
  '(skip, start_sector_id, buffer_size) ← sector_span offset (zlen buf);
  let tmp := replicate (Z.to_nat buffer_size) 0 in
  '(tmp, cm) ← read_from_cache (cache_manager self, hds) start_sector_id tmp;
  tmp ← foldM (λ tmp i,
    j ← add_u 64 i skip;
    x ← index buf i;
    store tmp j x) tmp (range 0 (zlen buf));
  cm ← write_to_cache cm start_sector_id tmp;
  '(cm, hds) ← flush_cache cm;
  Ret (zlen buf, (mkBlock (hd self) cm (block_path self), hds)).

Definition BlockInode_size (s : BlockInode * list D) : out Z :=
  d ← index s.2 (hd s.1); get_size d.

#[export] Instance block_io : InodeIO (BlockInode * list D) := {|
  read_at := BlockInode_read_at;
  write_at := BlockInode_write_at;
  size := BlockInode_size;
|}.

End Block.

(** [PartitionInode]: a window of a drive. *)
Record PartitionInode (S : Type) := mkPartition {
  part_offset : Z;
  part_size : Z;
  drive : S;
  part_path : string;
}.
Arguments mkPartition {S} _ _ _ _.
Arguments part_offset {S} _.
Arguments part_size {S} _.
Arguments drive {S} _.
Arguments part_path {S} _.

Definition PartitionInode_new {S} (offset size : Z) (drive : S) : PartitionInode S :=
  mkPartition offset size drive EmptyString.

Section Partition.
Context {P : Profile} {S : Type} {IO : InodeIO S}.

Definition set_drive (self : PartitionInode S) (d : S) : PartitionInode S :=
  mkPartition (part_offset self) (part_size self) d (part_path self).

Definition PartitionInode_read_at (self : PartitionInode S) (offset : Z) (buf : list Z) :
    out (Z * list Z * PartitionInode S) :=
  offset ← add_u 64 (part_offset self) offset;
  '(n, buf, d) ← read_at (drive self) offset buf;
  Ret (n, buf, set_drive self d).

Definition PartitionInode_write_at (self : PartitionInode S) (offset : Z) (buf : list Z) :
    out (Z * PartitionInode S) :=
  offset ← add_u 64 (part_offset self) offset;
  '(n, d) ← write_at (drive self) offset buf;
  Ret (n, set_drive self d).

#[export] Instance partition_io : InodeIO (PartitionInode S) := {|
  read_at := PartitionInode_read_at;
  write_at := PartitionInode_write_at;
  size self := Ret (part_size self);
|}.

End Partition.

(** ** The cache holds the disk *)

Section CacheProofs.
Context {P : Profile} {D : Type} {B : BlockDriver D} {BL : BlockDriverLaws D}.

(** The disk is [n] sectors [w]; seen through the cache, it is [v]. *)
Record Holds (s : CacheManager * list D) (v w : Z → list Z) (n : Z) : Prop := {
  holds_len : ∀ b c, caches s.1 !! b = Some c → 0 ≤ b < n ∧ zlen c = 512;
  holds_disk : ∃ d, index s.2 (id s.1) = Ret d ∧ working d ∧ sectors d = n ∧
    ∀ b, 0 ≤ b < n → sector d b = w b;
  holds_view : ∀ b, 0 ≤ b < n → default (w b) (caches s.1 !! b) = v b;
}.

Lemma device_read_ok hds i d b buf :
  index hds i = Ret d → working d → 0 ≤ b < sectors d → zlen buf = 512 →
  ∃ d' hds', device_read hds i b buf = Ret (sector d b, hds') ∧ index hds' i = Ret d' ∧ working d' ∧
    sectors d' = sectors d ∧ ∀ b', sector d' b' = sector d b'.
Proof.
  intros Hd Hw Hb Hbuf. unfold device_read. rewrite Hd. run.
  destruct (read_block_ok d b buf Hw Hb Hbuf) as (d' & -> & Hw' & Hn & Hs). run.
  pose proof (store_ok hds i d' (index_bounds _ _ _ Hd)) as E.
  rewrite E. run. exists d', (<[Z.to_nat i := d']> hds). split_and!; try done.
  by eapply index_store_eq.
Qed.

Lemma device_write_ok hds i d b buf :
  index hds i = Ret d → working d → 0 ≤ b < sectors d → zlen buf = 512 →
  ∃ d' hds', device_write hds i b buf = Ret hds' ∧ index hds' i = Ret d' ∧ working d' ∧
    sectors d' = sectors d ∧ ∀ b', sector d' b' = if decide (b' = b) then buf else sector d b'.
Proof.
  intros Hd Hw Hb Hbuf. unfold device_write. rewrite Hd. run.
  destruct (write_block_ok d b buf Hw Hb Hbuf) as (d' & -> & Hw' & Hn & Hs). run.
  pose proof (store_ok hds i d' (index_bounds _ _ _ Hd)) as E.
  rewrite E. exists d', (<[Z.to_nat i := d']> hds). split_and!; try done.
  by eapply index_store_eq.
Qed.

Lemma holds_sector_len s v w n b : Holds s v w n → 0 ≤ b < n → zlen (v b) = 512.
Proof.
  intros [Hlen (d & Hd & Hw & <- & Hs) Hv] Hb. rewrite <- Hv, <- Hs by done.
  destruct (caches s.1 !! b) as [c|] eqn:E; cbn; [by destruct (Hlen b c)|by apply sector_len].
Qed.

Lemma load_block_ok s v w n b : Holds s v w n → 0 ≤ b < n →
  ∃ s', load_block s b = Ret s' ∧ Holds s' v w n ∧ id s'.1 = id s.1 ∧ caches s'.1 !! b = Some (v b).
Proof.
  intros HH Hb. pose proof HH as [Hlen (d & Hd & Hw & Hn & Hs) Hv]. destruct s as [self hds]. cbn [fst snd] in *.
  unfold load_block, has_cache_on. destruct (caches self !! b) as [c|] eqn:E.
  { rewrite bool_decide_eq_true_2 by done. cbn [negb]. exists (self, hds).
    split_and!; [done..|]. cbn. rewrite E, <- Hv, E by done. done. }
  rewrite bool_decide_eq_false_2 by (intros []; done). cbn [negb].
  destruct (device_read_ok hds (id self) d b Cache512B_new) as (d' & hds' & -> & Hd' & Hw' & Hn' & Hs');
    [done|done|lia|done|]. run.
  eexists. split; [done|]. split; [|split; [done|]].
  - split; cbn.
    + intros b' c [[<- <-]|[Hne Hc]]%lookup_insert_Some; [|by eauto].
      split; [done|]. apply sector_len; [done|lia].
    + exists d'. split_and!; [done|done|lia|]. intros b' Hb'. by rewrite Hs', Hs.
    + intros b' Hb'. rewrite lookup_insert. case_decide; subst; [|by apply Hv].
      cbn. by rewrite Hs, <- Hv, E by done.
  - cbn. rewrite lookup_insert_eq. f_equal. by rewrite Hs, <- Hv, E by done.
Qed.

(** The byte at position [i] of a disk of sectors [v]. *)
Definition byte_of (v : Z → list Z) (i : Z) : Z := default 0 (v (i / 512) !! Z.to_nat (i mod 512)).

Lemma byte_of_lookup v b i : zlen (v b) = 512 → 0 ≤ i < 512 →
  v b !! Z.to_nat i = Some (byte_of v (512 * b + i)).
Proof.
  intros Hl Hi. unfold byte_of. replace (512 * b + i) with (i + b * 512) by lia.
  rewrite Z.div_add, Z_mod_plus_full, Z.div_small, Z.mod_small by lia. rewrite Z.add_0_l.
  destruct (lookup_lt_is_Some_2 (v b) (Z.to_nat i)) as [x Hx]; [unfold zlen in Hl; lia|].
  by rewrite Hx.
Qed.

(** Reading [m] sectors gives their bytes, and leaves the disk as it is. *)
Lemma read_from_cache_ok s v w n start buf m :
  Holds s v w n → n * 512 < 2 ^ 62 → zlen buf = 512 * m → 0 ≤ start → start + m ≤ n →
  ∃ buf' s', read_from_cache s start buf = Ret (buf', s') ∧ Holds s' v w n ∧ id s'.1 = id s.1 ∧
    zlen buf' = 512 * m ∧
    ∀ i, 0 ≤ i < 512 * m → buf' !! Z.to_nat i = Some (byte_of v (512 * start + i)).
Proof.
  intros HH Hn Hbuf Hs Hm. pose proof (zlen_nonneg buf). unfold read_from_cache. rewrite Hbuf.
  replace (512 * m / 512) with m by (rewrite Z.mul_comm, Z.div_mul; lia).
  rewrite add_u_ok by lia. run.
  match goal with |- context [foldM ?f _ _] =>
  destruct (foldM_range f
    (λ k '(b, s'), Holds s' v w n ∧ id s'.1 = id s.1 ∧ zlen b = 512 * m ∧
      ∀ i, 0 ≤ i < 512 * (k - start) → b !! Z.to_nat i = Some (byte_of v (512 * start + i)))
    start (start + m) (buf, s)) as ([b s'] & -> & ? & ? & ? & Hi) end; [lia| | |].
  - split_and!; [done..|]. intros; lia.
  - intros k [b s'] Hk (HH' & Hid & Hlen & Hb).
    destruct (load_block_ok s' v w n k HH') as (s2 & -> & HH2 & Hid2 & Hc); [lia|]. run.
    rewrite Hc. run. rewrite sub_u_ok by lia. run. rewrite mul_u_ok by lia. run.
    rewrite add_u_ok by lia. run. rewrite slice_ok by lia. run.
    pose proof (holds_sector_len s2 v w n k HH2 ltac:(lia)) as Hvk.
    unfold copy_from_slice. rewrite zlen_subslice, Hvk by lia.
    replace ((k - start) * 512 + 512 - (k - start) * 512) with 512 by lia. run.
    eexists. split; [done|]. split_and!; [done|congruence|rewrite zlen_splice; lia|].
    intros i Hi. rewrite splice_lookup, Hvk by lia. case_bool; [|apply Hb; bsolve || lia].
    rewrite byte_of_lookup by lia. do 2 f_equal. lia.
  - exists b, s'. split_and!; try done. intros i Hi'. apply Hi. lia.
Qed.

(** Writing [m] sectors replaces them in the disk seen through the cache. *)
Definition overwrite (v : Z → list Z) (start m : Z) (buf : list Z) (b : Z) : list Z :=
  if (start <=? b) && (b <? start + m) then
    subslice buf ((b - start) * 512) ((b - start) * 512 + 512) else v b.

Lemma write_to_cache_ok s v w n start buf m :
  Holds s v w n → n * 512 < 2 ^ 62 → zlen buf = 512 * m → 0 ≤ start → start + m ≤ n →
  ∃ s', write_to_cache s start buf = Ret s' ∧ Holds s' (overwrite v start m buf) w n ∧ id s'.1 = id s.1.
Proof.
  intros HH Hn Hbuf Hs Hm. pose proof (zlen_nonneg buf). unfold write_to_cache. rewrite Hbuf.
  replace (512 * m / 512) with m by (rewrite Z.mul_comm, Z.div_mul; lia).
  rewrite add_u_ok by lia. run.
  match goal with |- context [foldM ?f _ _] =>
  destruct (foldM_range f
    (λ k s', Holds s' (overwrite v start (k - start) buf) w n ∧ id s'.1 = id s.1)
    start (start + m) s) as (s' & -> & HH' & Hid) end; [lia| | |].
  - split; [|done]. destruct HH as [Hl Hd Hv]. split; [done|done|].
    intros b Hb. unfold overwrite. case_bool; [lia|by apply Hv].
  - intros k s' Hk [HH' Hid].
    destruct (load_block_ok s' _ w n k HH') as ([self hds] & -> & HH2 & Hid2 & Hc); [lia|]. run.
    cbn [fst snd] in *. rewrite Hc. run. rewrite sub_u_ok by lia. run. rewrite mul_u_ok by lia. run.
    rewrite add_u_ok by lia. run. rewrite slice_ok by lia. run.
    unfold copy_from_slice. rewrite (holds_sector_len _ _ _ _ k HH') by lia.
    rewrite zlen_subslice by lia.
    replace ((k - start) * 512 + 512 - (k - start) * 512) with 512 by lia. run.
    eexists. split; [done|]. cbn [fst snd id]. split; [|congruence].
    destruct HH2 as [Hl Hd Hv]. split; cbn [fst snd caches id] in *; [|done|].
    + intros b c [[<- <-]|[Hne Hbc]]%lookup_insert_Some; [|by eauto].
      split; [lia|]. rewrite zlen_subslice; lia.
    + intros b Hb. rewrite lookup_insert. unfold overwrite in *.
      case_decide; subst; cbn [default from_option Datatypes.id].
      * case_bool; [done|bsolve].
      * rewrite Hv by done. repeat case_bool; try done; bsolve.
  - exists s'. replace (start + m - start) with m in HH' by lia. done.
Qed.

Lemma flush_all_ok hds i d l :
  index hds i = Ret d → working d → NoDup l.*1 →
  (∀ b c, (b, c) ∈ l → 0 ≤ b < sectors d ∧ zlen c = 512) →
  ∃ d' hds', foldM (λ hds '(b, c), device_write hds i b c) hds l = Ret hds' ∧
    index hds' i = Ret d' ∧ working d' ∧ sectors d' = sectors d ∧
    ∀ b, sector d' b = default (sector d b) ((list_to_map l : gmap Z (list Z)) !! b).
Proof.
  revert hds d. induction l as [|[b c] l IH]; intros hds d Hd Hw Hnd Hl.
  { exists d, hds. cbn. split_and!; try done. }
  cbn [fmap list_fmap fst] in Hnd. apply NoDup_cons in Hnd as [Hnb Hnd].
  destruct (Hl b c) as [Hb Hc]; [left|].
  destruct (device_write_ok hds i d b c Hd Hw Hb Hc) as (d1 & hds1 & E1 & Hd1 & Hw1 & Hn1 & Hs1).
  destruct (IH hds1 d1 Hd1 Hw1 Hnd) as (d' & hds' & E' & Hd' & Hw' & Hn' & Hs').
  { intros b' c' Hin. rewrite Hn1. apply Hl. by right. }
  cbn [foldM]. rewrite E1. run. exists d', hds'. split_and!; [done..|congruence|].
  intros b'. rewrite Hs', Hs1. cbn [list_to_map foldr uncurry]. rewrite lookup_insert.
  repeat case_decide; subst; try done.
  by rewrite not_elem_of_list_to_map_1.
Qed.

(** Flushing writes the cache back: the disk is what the cache showed. *)
Lemma flush_cache_ok s v w n : Holds s v w n →
  ∃ s', flush_cache s = Ret s' ∧ Holds s' v v n ∧ id s'.1 = id s.1.
Proof.
  intros [Hl (d & Hd & Hw & Hn & Hs) Hv]. destruct s as [self hds]. cbn [fst snd] in *.
  pose proof (btree_iter_perm (caches self)) as Hp.
  assert (NoDup (btree_iter (caches self)).*1) as Hnd.
  { rewrite Hp. apply NoDup_fst_map_to_list. }
  unfold flush_cache.
  destruct (flush_all_ok hds (id self) d (btree_iter (caches self)) Hd Hw Hnd)
    as (d' & hds' & -> & Hd' & Hw' & Hn' & Hs').
  { intros b c. rewrite Hp, elem_of_map_to_list, Hn. apply Hl. }
  run. exists (self, hds'). split; [done|]. split; [|done]. split; [done| |].
  - exists d'. split_and!; [done|done|congruence|]. intros b Hb. rewrite Hs', Hs, <- Hv by done.
    do 2 f_equal. rewrite (list_to_map_proper _ _ Hnd Hp). apply list_to_map_to_list.
  - intros b Hb. cbn. destruct (caches self !! b) as [c|] eqn:E; [|done].
    cbn. by rewrite <- Hv, E by done.
Qed.

End CacheProofs.

(** ** Flat arrays of bytes

    What a disk-like inode promises: it is an array of bytes that reads return and
    writes update. *)

Class FlatDisk (S : Type) {IO : InodeIO S} := {
  flat_ok : S → Prop;
  flat_size : S → Z;
  flat_byte : S → Z → Z;
  flat_small s : flat_ok s → 0 ≤ flat_size s < 2 ^ 62;
  flat_read s off buf : flat_ok s → buf ≠ [] → 0 ≤ off → off + zlen buf ≤ flat_size s →
    ∃ s', read_at s off buf = Ret (zlen buf, flat_byte s <$> range off (off + zlen buf), s') ∧
      flat_ok s' ∧ flat_size s' = flat_size s ∧
      ∀ i, 0 ≤ i < flat_size s → flat_byte s' i = flat_byte s i;
  flat_write s off buf : flat_ok s → buf ≠ [] → 0 ≤ off → off + zlen buf ≤ flat_size s →
    ∃ s', write_at s off buf = Ret (zlen buf, s') ∧ flat_ok s' ∧ flat_size s' = flat_size s ∧
      ∀ i, 0 ≤ i < flat_size s → flat_byte s' i =
        if (off <=? i) && (i <? off + zlen buf) then default 0 (buf !! Z.to_nat (i - off))
        else flat_byte s i;
}.

Section BlockProofs.
Context {P : Profile} {D : Type} {B : BlockDriver D} {BL : BlockDriverLaws D}.

(** The sectors of a non-empty range of bytes cover it. *)
Lemma sector_span_ok off len n : 0 ≤ off → 0 < len → off + len ≤ n * 512 → n * 512 < 2 ^ 62 →
  ∃ m, sector_span off len = Ret (off mod 512, off / 512, 512 * m) ∧
    0 < m ∧ off / 512 + m ≤ n ∧ off mod 512 + len ≤ 512 * m.
Proof.
  intros Hoff Hlen Hn Hs. unfold sector_span. rewrite add_u_ok by lia. run.
  rewrite sub_u_ok by lia. run.
  pose proof (Z.div_mod off 512). pose proof (Z.mod_pos_bound off 512).
  pose proof (Z.div_mod (off + len - 1) 512). pose proof (Z.mod_pos_bound (off + len - 1) 512).
  rewrite sub_u_ok by lia. run. rewrite add_u_ok by lia. run. rewrite mul_u_ok by lia. run.
  exists ((off + len - 1) / 512 - off / 512 + 1). split; [do 2 f_equal; lia|]. lia.
Qed.

Lemma byte_of_span off j : 0 ≤ off → 512 * (off / 512) + (j + off mod 512) = off + j.
Proof. intros. pose proof (Z.div_mod off 512). lia. Qed.

(** A disk of [n] sectors [v], its cache clean. *)
Definition BlockOk (s : BlockInode * list D) (v : Z → list Z) (n : Z) : Prop :=
  hd s.1 = id (cache_manager s.1) ∧ n * 512 < 2 ^ 62 ∧ Holds (cache_manager s.1, s.2) v v n.

Lemma BlockInode_read_at_ok s v n off buf :
  BlockOk s v n → buf ≠ [] → 0 ≤ off → off + zlen buf ≤ n * 512 →
  ∃ s', BlockInode_read_at s off buf =
      Ret (zlen buf, byte_of v <$> range off (off + zlen buf), s') ∧ BlockOk s' v n.
Proof.
  intros (Hid & Hn & HH) Hne Hoff Hend. destruct s as [self hds]. cbn [fst snd] in *.
  assert (0 < zlen buf) as Hpos by (destruct buf; [done|unfold zlen; cbn; lia]).
  unfold BlockInode_read_at.
  destruct (sector_span_ok off (zlen buf) n Hoff Hpos Hend Hn) as (m & -> & Hm & Hmn & Hfit). run.
  destruct (read_from_cache_ok _ v v n (off / 512) (replicate (Z.to_nat (512 * m)) 0) m HH Hn)
    as (tmp & [cm hds'] & -> & HH' & Hid' & Hlt & Ht);
    [unfold zlen; rewrite length_replicate; lia|apply Z.div_pos; lia|done|]. run.
  pose proof (Z.mod_pos_bound off 512 ltac:(lia)).
  match goal with |- context [foldM ?f _ _] =>
  destruct (foldM_range f
    (λ k b, zlen b = zlen buf ∧ ∀ i, 0 ≤ i < k → b !! Z.to_nat i = Some (byte_of v (off + i)))
    0 (zlen buf) buf) as (b & -> & Hlen & Hb) end; [lia|split; [done|lia]| |].
  - intros k b Hk [Hl Hb]. rewrite add_u_ok by lia. run.
    assert (index tmp (k + off mod 512) = Ret (byte_of v (off + k))) as ->.
    { apply index_Ret. split; [lia|]. rewrite Ht by lia. by rewrite byte_of_span. }
    run. rewrite store_ok by lia. eexists. split; [done|]. split.
    { unfold zlen in *. by rewrite length_insert. }
    intros i Hi. destruct (decide (i = k)) as [->|Hik].
    + apply list_lookup_insert_eq. unfold zlen in *. lia.
    + rewrite list_lookup_insert_ne by lia. apply Hb. lia.
  - run. exists (mkBlock (hd self) cm (block_path self), hds').
    split; [|split_and!; [cbn in *; congruence|done|done]].
    rewrite Hlen. do 3 f_equal. apply list_eq. intros i. rewrite list_lookup_fmap.
    destruct (decide (Z.of_nat i < zlen buf)).
    + pose proof (Hb (Z.of_nat i) ltac:(lia)) as Hi. rewrite Nat2Z.id in Hi. rewrite Hi.
      unfold range. by rewrite lookup_seqZ_lt by lia.
    + rewrite lookup_ge_None_2 by (unfold zlen in *; lia). unfold range.
      by rewrite lookup_seqZ_ge by lia.
Qed.

Lemma BlockInode_write_at_ok s v n off buf :
  BlockOk s v n → buf ≠ [] → 0 ≤ off → off + zlen buf ≤ n * 512 →
  ∃ s' v', BlockInode_write_at s off buf = Ret (zlen buf, s') ∧ BlockOk s' v' n ∧
    ∀ i, 0 ≤ i < n * 512 → byte_of v' i =
      if (off <=? i) && (i <? off + zlen buf) then default 0 (buf !! Z.to_nat (i - off))
      else byte_of v i.
Proof.
  intros (Hid & Hn & HH) Hne Hoff Hend. destruct s as [self hds]. cbn [fst snd] in *.
  assert (0 < zlen buf) as Hpos by (destruct buf; [done|unfold zlen; cbn; lia]).
  unfold BlockInode_write_at.
  destruct (sector_span_ok off (zlen buf) n Hoff Hpos Hend Hn) as (m & -> & Hm & Hmn & Hfit). run.
  pose proof (Z.mod_pos_bound off 512 ltac:(lia)). pose proof (Z.div_pos off 512 Hoff ltac:(lia)).
  destruct (read_from_cache_ok _ v v n (off / 512) (replicate (Z.to_nat (512 * m)) 0) m HH Hn)
    as (tmp & cm & -> & HH' & Hid' & Hlt & Ht);
    [unfold zlen; rewrite length_replicate; lia|done|done|]. run.
  match goal with |- context [foldM ?f _ _] =>
  destruct (foldM_range f
    (λ k b, zlen b = 512 * m ∧ ∀ i, 0 ≤ i < 512 * m → b !! Z.to_nat i =
      if (off mod 512 <=? i) && (i <? off mod 512 + k) then buf !! Z.to_nat (i - off mod 512)
      else tmp !! Z.to_nat i)
    0 (zlen buf) tmp) as (tmp' & -> & Hlen & Hb) end; [lia| | |].
  - split; [done|]. intros i Hi. case_bool; [lia|done].
  - intros k b Hk [Hl Hb]. rewrite add_u_ok by lia. run.
    destruct (index_ok buf k) as [x Hx]; [lia|]. rewrite Hx. run. rewrite store_ok by lia.
    apply index_Ret in Hx as [_ Hx]. eexists. split; [done|]. split.
    { unfold zlen in *. by rewrite length_insert. }
    intros i Hi. destruct (decide (i = k + off mod 512)) as [->|Hik].
    + rewrite list_lookup_insert_eq by (unfold zlen in *; lia). case_bool; [|bsolve].
      rewrite <- Hx. do 2 f_equal. lia.
    + rewrite list_lookup_insert_ne, Hb by lia. repeat case_bool; try done; bsolve.
  - run. destruct (write_to_cache_ok cm v v n (off / 512) tmp' m HH' Hn Hlen) as (cm2 & -> & HH2 & Hid2);
      [done..|]. run.
    destruct (flush_cache_ok _ _ _ _ HH2) as ([cm3 hds3] & -> & HH3 & Hid3). run.
    eexists _, _. split; [done|]. split; [split_and!; [cbn in *; congruence|done|exact HH3]|].
    intros i Hi. unfold byte_of at 1. unfold overwrite.
    pose proof (Z.div_mod i 512). pose proof (Z.mod_pos_bound i 512).
    pose proof (Z.div_mod off 512). destruct ((off / 512 <=? i / 512) && _) eqn:E.
    + breflect. rewrite subslice_lookup by lia. rewrite Hb, Ht by lia.
      repeat case_bool; try bsolve; [do 2 f_equal; f_equal; lia|].
      cbn. f_equal. lia.
    + case_bool; [bsolve|done].
Qed.

End BlockProofs.

(** A block inode with a clean cache is the array of bytes of its disk. *)
Section BlockFlat.
Context {P : Profile} {D : Type} {B : BlockDriver D} {BL : BlockDriverLaws D}.

(** The disk of a block inode. *)
Definition disk_byte (s : BlockInode * list D) (i : Z) : Z :=
  match index s.2 (hd s.1) with Ret d => byte_of (sector d) i | Panic => 0 end.
Definition disk_size (s : BlockInode * list D) : Z :=
  match index s.2 (hd s.1) with Ret d => sectors d * 512 | Panic => 0 end.

Lemma BlockOk_disk s v n : BlockOk s v n → 0 ≤ disk_size s < 2 ^ 62 ∧ disk_size s = n * 512 ∧
  ∀ i, 0 ≤ i < n * 512 → disk_byte s i = byte_of v i.
Proof.
  intros (Hid & Hn & [_ (d & Hd & Hw & <- & Hs) _]). unfold disk_size, disk_byte.
  cbn [fst snd] in Hd. rewrite Hid, Hd. split; [|split; [done|]].
  - pose proof (sectors_range d Hw). lia.
  - intros i Hi. unfold byte_of. rewrite Hs; [done|].
    split; [apply Z.div_pos; lia|apply Z.div_lt_upper_bound; lia].
Qed.

#[export] Program Instance block_flat : FlatDisk (BlockInode * list D) := {|
  flat_ok s := ∃ v n, BlockOk s v n;
  flat_size := disk_size;
  flat_byte := disk_byte;
|}.
Next Obligation. intros s (v & n & H). by apply BlockOk_disk in H as [? _]. Qed.
Next Obligation.
  intros s off buf (v & n & H) Hne Hoff Hend. destruct (BlockOk_disk s v n H) as (_ & Hsz & Hb).
  rewrite Hsz in *. destruct (BlockInode_read_at_ok s v n off buf H Hne Hoff Hend) as (s' & E & H').
  destruct (BlockOk_disk s' v n H') as (_ & Hsz' & Hb').
  exists s'. split_and!; [|by eauto|by rewrite Hsz'|intros i Hi; by rewrite Hb, Hb'].
  rewrite (list_fmap_ext (disk_byte s) (byte_of v)); [exact E|].
  intros k x Hx%lookup_seqZ. apply Hb. lia.
Qed.
Next Obligation.
  intros s off buf (v & n & H) Hne Hoff Hend. destruct (BlockOk_disk s v n H) as (_ & Hsz & Hb).
  rewrite Hsz in *.
  destruct (BlockInode_write_at_ok s v n off buf H Hne Hoff Hend) as (s' & v' & E & H' & Hw).
  destruct (BlockOk_disk s' v' n H') as (_ & Hsz' & Hb').
  exists s'. split_and!; [done|by eauto|by rewrite Hsz'|].
  intros i Hi. rewrite Hb', Hw, Hb by done. done.
Qed.

(** A new block inode on a working disk. *)
Lemma BlockInode_new_ok hds i d : index hds i = Ret d → working d →
  BlockOk (BlockInode_new i, hds) (sector d) (sectors d).
Proof.
  intros Hd Hw. pose proof (sectors_range d Hw). split_and!; [done|lia|]. split; cbn.
  - intros b c. by rewrite lookup_empty.
  - by exists d.
  - intros b _. by rewrite lookup_empty.
Qed.

End BlockFlat.

(** ** Sequences of reads and writes *)

Inductive IoOp := IoRead (off len : Z) | IoWrite (off : Z) (buf : list Z).

Definition io_fits (n : Z) (o : IoOp) : Prop :=
  match o with
  | IoRead off len => 0 ≤ off ∧ 0 < len ∧ off + len ≤ n
  | IoWrite off buf => 0 ≤ off ∧ buf ≠ [] ∧ off + zlen buf ≤ n
  end.

(** The reference: an array of bytes. *)
Definition spec_write (f : Z → Z) (off : Z) (buf : list Z) (i : Z) : Z :=
  if (off <=? i) && (i <? off + zlen buf) then default 0 (buf !! Z.to_nat (i - off)) else f i.

Fixpoint spec_ops (f : Z → Z) (ops : list IoOp) : list (list Z) * (Z → Z) :=
  match ops with
  | [] => ([], f)
  | IoRead off len :: ops => let '(r, f') := spec_ops f ops in ((f <$> range off (off + len)) :: r, f')
  | IoWrite off buf :: ops => spec_ops (spec_write f off buf) ops
  end.

(** The inode's own operations; what the reads return. *)
Fixpoint run_ops {S} {IO : InodeIO S} (s : S) (ops : list IoOp) : out (list (list Z) * S) :=
  match ops with
  | [] => Ret ([], s)
  | IoRead off len :: ops =>
      '(_, buf, s) ← read_at s off (replicate (Z.to_nat len) 0);
      '(r, s) ← run_ops s ops;
      Ret (buf :: r, s)
  | IoWrite off buf :: ops =>
      '(_, s) ← write_at s off buf;
      run_ops s ops
  end.

(** Arrays that agree on their first [n] bytes. *)
Definition agree (n : Z) (f g : Z → Z) : Prop := ∀ i, 0 ≤ i < n → f i = g i.
#[export] Instance agree_equiv n : Equivalence (agree n).
Proof. split; [intros f i _; done|intros f g H i Hi; by rewrite H|intros f g h H1 H2 i Hi; by rewrite H1, H2]. Qed.
#[export] Instance spec_write_proper n : Proper (agree n ==> eq ==> eq ==> agree n) spec_write.
Proof. intros f g H off _ <- buf _ <- i Hi. unfold spec_write. case_bool; [done|by apply H]. Qed.

Lemma spec_ops_agree n f g ops : agree n f g → Forall (io_fits n) ops →
  (spec_ops f ops).1 = (spec_ops g ops).1 ∧ agree n (spec_ops f ops).2 (spec_ops g ops).2.
Proof.
  revert f g. induction ops as [|[off len|off buf] ops IH]; intros f g Hfg Hf; [done| |];
    apply Forall_cons in Hf as [Hfit Hf]; cbn.
  - destruct (IH f g Hfg Hf) as [E1 E2]. destruct (spec_ops f ops), (spec_ops g ops). cbn in *.
    split; [|done]. subst. f_equal. apply list_fmap_ext. intros i x Hx%lookup_seqZ. apply Hfg. lia.
  - apply IH; [by rewrite Hfg|done].
Qed.

Lemma run_ops_ok {S} {IO : InodeIO S} {FD : FlatDisk S} (s : S) (ops : list IoOp) :
  flat_ok s → Forall (io_fits (flat_size s)) ops →
  ∃ s', run_ops s ops = Ret ((spec_ops (flat_byte s) ops).1, s') ∧ flat_ok s' ∧
    flat_size s' = flat_size s ∧
    agree (flat_size s) (flat_byte s') (spec_ops (flat_byte s) ops).2.
Proof.
  revert s. induction ops as [|[off len|off buf] ops IH]; intros s Hs Hf; [by exists s| |];
    apply Forall_cons in Hf as [Hfit Hf]; cbn.
  - assert (zlen (replicate (Z.to_nat len) 0) = len) as Hlen
      by (unfold zlen; rewrite length_replicate; cbn in Hfit; lia).
    destruct (flat_read s off (replicate (Z.to_nat len) 0)) as (s1 & -> & Hs1 & Hz1 & Hb1); cbn in Hfit;
      [done|intros E; rewrite E in Hlen; unfold zlen in Hlen; cbn in Hlen; lia|lia|lia|].
    rewrite Hlen. run. destruct (IH s1 Hs1) as (s' & -> & Hs' & Hz' & Hb'); [by rewrite Hz1|]. run.
    destruct (spec_ops_agree (flat_size s) (flat_byte s1) (flat_byte s) ops Hb1 Hf) as [E1 E2].
    exists s'. rewrite E1. destruct (spec_ops (flat_byte s) ops) as [r f']. cbn in *.
    split_and!; [done|done|congruence|]. rewrite Hz1 in Hb'. by rewrite Hb'.
  - destruct Hfit as (H0 & Hne & Hend).
    destruct (flat_write s off buf Hs Hne H0 Hend) as (s1 & -> & Hs1 & Hz1 & Hb1). run.
    destruct (IH s1 Hs1) as (s' & -> & Hs' & Hz' & Hb'); [by rewrite Hz1|].
    destruct (spec_ops_agree (flat_size s) (flat_byte s1) (spec_write (flat_byte s) off buf) ops) as [E1 E2];
      [exact Hb1|done|].
    exists s'. rewrite E1. split_and!; [done|done|congruence|]. rewrite Hz1 in Hb'. by rewrite Hb'.
Qed.

Section BlockTheorems.
Context {P : Profile} {D : Type} {B : BlockDriver D} {BL : BlockDriverLaws D}.

(** [C5] Through the sector cache a disk is a flat array of bytes: any sequence of
    non-empty reads and writes in range on a new block inode returns, every read
    gives the bytes the reference array holds, and afterwards the disk itself, not
    only the cache, holds the reference's bytes. *)
Theorem block_inode_refines (hds : list D) (i : Z) (d : D) (ops : list IoOp)
    (Hd : index hds i = Ret d) (Hw : working d)
    (Hops : Forall (io_fits (sectors d * 512)) ops) :
  let spec := spec_ops (byte_of (sector d)) ops in
  ∃ s', run_ops (BlockInode_new i, hds) ops = Ret (spec.1, s') ∧
    disk_size s' = sectors d * 512 ∧ agree (sectors d * 512) (disk_byte s') spec.2.
Proof.
  cbv zeta. set (s := (BlockInode_new i, hds)).
  assert (disk_size s = sectors d * 512) as Hsz by (unfold disk_size, s; cbn; by rewrite Hd).
  destruct (run_ops_ok s ops) as (s' & E & _ & Hz & Hb); cbn [flat_ok flat_size flat_byte block_flat] in *.
  { exists (sector d), (sectors d). by apply BlockInode_new_ok. }
  { by rewrite Hsz. }
  assert (disk_byte s = byte_of (sector d)) as Hbyte by (unfold disk_byte, s; cbn; by rewrite Hd).
  rewrite Hbyte, Hsz in *. exists s'. split_and!; [done|congruence|done].
Qed.

(** With overflow checks, a read or write of no bytes at the start of a sector
    panics, whatever the disk: the number of the last sector underflows. *)
Theorem empty_access_panics (s : BlockInode * list D) (k : Z)
    (Hk : 0 ≤ k < 2 ^ 55) (Hp : @overflow_checks P = true) :
  BlockInode_read_at s (512 * k) [] = Panic ∧ BlockInode_write_at s (512 * k) [] = Panic.
Proof.
  assert (sector_span (512 * k) 0 = Panic) as E.
  { unfold sector_span. rewrite add_u_ok by lia. run.
    replace (512 * k / 512) with k by (rewrite Z.mul_comm, Z.div_mul; lia).
    destruct (decide (k = 0)) as [->|Hk0].
    { cbn. unfold sub_u, norm. by rewrite Hp. }
    rewrite sub_u_ok by lia. run.
    replace ((512 * k + 0 - 1) / 512) with (k - 1) by (apply (Z.div_unique _ _ _ 511); lia).
    unfold sub_u at 1, norm. replace (k - 1 - k) with (-1) by lia. cbn. by rewrite Hp. }
  destruct s as [self hds]. unfold BlockInode_read_at, BlockInode_write_at.
  change (zlen []) with 0. by rewrite E.
Qed.

End BlockTheorems.

(** ** Partitions *)

Section PartitionProofs.
Context {P : Profile} {S : Type} {IO : InodeIO S} {FD : FlatDisk S}.

(** A partition is the drive from its offset on: its size confines nothing. *)
#[export] Program Instance partition_flat : FlatDisk (PartitionInode S) := {|
  flat_ok p := flat_ok (drive p) ∧ 0 ≤ part_offset p ≤ flat_size (drive p);
  flat_size p := flat_size (drive p) - part_offset p;
  flat_byte p i := flat_byte (drive p) (part_offset p + i);
|}.
Next Obligation. intros p [H1 H2]. pose proof (flat_small _ H1). lia. Qed.
Next Obligation.
  intros p off buf [Hok Ho] Hne Hoff Hend. pose proof (flat_small _ Hok).
  pose proof (zlen_nonneg buf). cbn. unfold PartitionInode_read_at. rewrite add_u_ok by lia. run.
  destruct (flat_read (drive p) (part_offset p + off) buf) as (d & -> & Hok' & Hz & Hb); [done|done|lia|lia|].
  run. eexists. split; [do 3 f_equal|].
  - apply list_eq. intros k. rewrite !list_lookup_fmap. unfold range.
    destruct (decide (Z.of_nat k < zlen buf)).
    + rewrite !lookup_seqZ_lt by lia. cbn. do 2 f_equal. lia.
    + by rewrite !lookup_seqZ_ge by lia.
  - cbn. rewrite Hz. split_and!; [done|lia|lia|lia|]. intros i Hi. apply Hb. lia.
Qed.
Next Obligation.
  intros p off buf [Hok Ho] Hne Hoff Hend. pose proof (flat_small _ Hok).
  pose proof (zlen_nonneg buf). cbn. unfold PartitionInode_write_at. rewrite add_u_ok by lia. run.
  destruct (flat_write (drive p) (part_offset p + off) buf) as (d & -> & Hok' & Hz & Hb); [done|done|lia|lia|].
  run. eexists. split; [done|]. cbn. rewrite Hz. split_and!; [done|lia|lia|lia|].
  intros i Hi. rewrite Hb by lia.
  replace (part_offset p + i - (part_offset p + off)) with (i - off) by lia.
  repeat case_bool; try done; bsolve.
Qed.

(** The partition [parse_gpt_disk] makes of a GPT entry. *)
Definition gpt_partition (starting_lba ending_lba : Z) (disk : S) : out (PartitionInode S) :=
  start_offset ← mul_u 64 starting_lba 512;
  size ← mul_u 64 ending_lba 512;
  Ret (PartitionInode_new start_offset size disk).

(** The same operation [k] bytes further. *)
Definition shift_op (k : Z) (o : IoOp) : IoOp :=
  match o with IoRead off len => IoRead (k + off) len | IoWrite off buf => IoWrite (k + off) buf end.

Lemma shift_fits k n o : 0 ≤ k → io_fits (n - k) o → io_fits n (shift_op k o).
Proof. intros Hk. destruct o; cbn; intuition lia. Qed.

(** Operations on a partition are operations on its drive. *)
Lemma partition_run p ops n : 0 ≤ part_offset p → n < 2 ^ 62 →
  Forall (io_fits (n - part_offset p)) ops →
  run_ops p ops = ('(r, d) ← run_ops (drive p) (shift_op (part_offset p) <$> ops);
    Ret (r, set_drive p d)).
Proof.
  intros Hp Hn. revert p Hp. induction ops as [|o ops IH]; intros p Hp Hf; [by destruct p|].
  apply Forall_cons in Hf as [Hfit Hf].
  destruct o as [off len|off buf]; cbn [run_ops fmap list_fmap shift_op]; cbn [read_at write_at partition_io];
    unfold PartitionInode_read_at, PartitionInode_write_at; cbn in Hfit; pose proof (@zlen_nonneg Z);
    [|pose proof (zlen_nonneg buf)]; rewrite add_u_ok by lia; run.
  - destruct (read_at (drive p) _ _) as [[[m buf] d]|]; run; [|done].
    rewrite (IH (set_drive p d)) by done. cbn [drive part_offset set_drive].
    by destruct (run_ops d _) as [[r d']|].
  - destruct (write_at (drive p) _ _) as [[m d]|]; run; [|done].
    rewrite (IH (set_drive p d)) by done. cbn [drive part_offset set_drive].
    by destruct (run_ops d _) as [[r d']|].
Qed.

Lemma spec_ops_shift k f g ops : (∀ i, g i = f (k + i)) →
  (spec_ops f (shift_op k <$> ops)).1 = (spec_ops g ops).1 ∧
  ∀ i, (spec_ops f (shift_op k <$> ops)).2 (k + i) = (spec_ops g ops).2 i.
Proof.
  revert f g. induction ops as [|[off len|off buf] ops IH]; intros f g Hg; cbn; [done| |].
  - destruct (IH f g Hg) as [E1 E2].
    destruct (spec_ops f (shift_op k <$> ops)), (spec_ops g ops). cbn in *. split; [|done]. subst. f_equal.
    apply list_eq. intros i. rewrite !list_lookup_fmap. unfold range.
    destruct (decide (Z.of_nat i < len)).
    + rewrite !lookup_seqZ_lt by lia. cbn. rewrite Hg. do 2 f_equal. lia.
    + by rewrite !lookup_seqZ_ge by lia.
  - apply IH. intros i. unfold spec_write. rewrite Hg.
    replace (k + i - (k + off)) with (i - off) by lia. repeat case_bool; try done; bsolve.
Qed.

Lemma spec_ops_before k n f ops i : i < k → Forall (io_fits n) ops →
  (spec_ops f (shift_op k <$> ops)).2 i = f i.
Proof.
  intros Hi. revert f. induction ops as [|[off len|off buf] ops IH]; intros f Hf; [done| |];
    apply Forall_cons in Hf as [Hfit Hf]; cbn in *.
  - rewrite <- (IH f Hf). by destruct (spec_ops f _).
  - rewrite IH by done. unfold spec_write. case_bool; [lia|done].
Qed.

(** A GPT partition is a window of its drive: any sequence of non-empty reads and
    writes between the partition's first sector and the end of the drive returns what
    an array of bytes that starts there gives, and leaves the drive before the
    partition as it was. *)
Theorem gpt_partition_refines (start last : Z) (disk : S) (ops : list IoOp)
    (Hok : flat_ok disk) (Hs : 0 ≤ start * 512 ≤ flat_size disk) (Hl : 0 ≤ last < 2 ^ 53)
    (Hops : Forall (io_fits (flat_size disk - start * 512)) ops) :
  let spec := spec_ops (λ i, flat_byte disk (start * 512 + i)) ops in
  ∃ p p', gpt_partition start last disk = Ret p ∧ run_ops p ops = Ret (spec.1, p') ∧
    (∀ i, 0 ≤ i < flat_size disk - start * 512 → flat_byte (drive p') (start * 512 + i) = spec.2 i) ∧
    ∀ i, 0 ≤ i < start * 512 → flat_byte (drive p') i = flat_byte disk i.
Proof.
  cbv zeta. pose proof (flat_small _ Hok). unfold gpt_partition.
  rewrite (mul_u_ok 64 start 512), (mul_u_ok 64 last 512) by lia. run.
  set (p := PartitionInode_new _ _ _). exists p.
  destruct (run_ops_ok disk (shift_op (start * 512) <$> ops)) as (d' & E & _ & Hz & Hb); [done| |].
  { apply Forall_fmap. eapply Forall_impl; [exact Hops|]. intros o. apply shift_fits. lia. }
  exists (set_drive p d').
  destruct (spec_ops_shift (start * 512) (flat_byte disk) (λ i, flat_byte disk (start * 512 + i)) ops)
    as [E1 E2]; [done|].
  split; [done|]. rewrite (partition_run p ops (flat_size disk));
    [|change (part_offset p) with (start * 512); lia|lia|exact Hops].
  cbn [p PartitionInode_new drive part_offset set_drive]. rewrite E. run.
  rewrite <- E1. split_and!; [done| |]; intros i Hi; rewrite Hb by lia; [apply E2|].
  by eapply spec_ops_before; [lia|].
Qed.

(** The size of a GPT partition is wrong: for an entry from sector [start] to
    sector [last] it is [last * 512] bytes, more than the partition's
    [(last - start + 1) * 512] whenever [start > 1]; a position below that size but
    behind the partition's last sector is read from what follows it on the drive. *)
Theorem gpt_partition_oversized (start last i : Z) (disk : S)
    (Hok : flat_ok disk) (Hs : 1 < start ≤ last) (Hl : last < 2 ^ 53)
    (Hi : (last - start + 1) * 512 ≤ i < last * 512)
    (Hin : start * 512 + i < flat_size disk) :
  ∃ p p', gpt_partition start last disk = Ret p ∧ size p = Ret (last * 512) ∧
    (last - start + 1) * 512 < last * 512 ∧
    read_at p i [0] = Ret (1, [flat_byte disk (start * 512 + i)], p') ∧
    (last + 1) * 512 ≤ start * 512 + i.
Proof.
  pose proof (flat_small _ Hok). unfold gpt_partition.
  rewrite (mul_u_ok 64 start 512), (mul_u_ok 64 last 512) by lia. run.
  set (p := PartitionInode_new _ _ _). exists p.
  destruct (flat_read p i [0]) as (p' & E & _); [split; [done|]; change (part_offset p) with (start * 512); change (drive p) with disk; lia|done|lia
    |change (flat_size p) with (flat_size disk - start * 512); change (zlen [0]) with 1; lia|].
  exists p'. split_and!; [done|done|lia| |lia]. rewrite E. change (zlen [0]) with 1.
  unfold range. replace (i + 1 - i) with 1 by lia. done.
Qed.

End PartitionProofs.

(** ** Streams over an inode

    [InodeRefIO] of [kernel/src/fs/fat32.rs] and, with the same code, [Ext2InodeIO] of
    [kernel/src/fs/ext2.rs]: a cursor over an inode, for the file system crates. *)

Inductive SeekFrom := SeekStart (i : Z) | SeekEnd (i : Z) | SeekCurrent (i : Z).

Record InodeRefIO (S : Type) := mkIO { io_inode : S; io_offset : Z }.
Arguments mkIO {S} _ _.
Arguments io_inode {S} _.
Arguments io_offset {S} _.

Section Stream.
Context {P : Profile} {S : Type} {IO : InodeIO S}.

Definition InodeRefIO_new (inode : S) : InodeRefIO S := mkIO inode 0.

Definition seek (self : InodeRefIO S) (pos : SeekFrom) : out (Z * InodeRefIO S) :=
  offset ← match pos with
    | SeekCurrent i => x ← add_i 64 (to_signed 64 (io_offset self)) i; Ret (wrap 64 x)
    | SeekStart i => Ret i
    | SeekEnd i => n ← size (io_inode self); sub_u 64 n (wrap 64 i)
    end;
  Ret (offset, mkIO (io_inode self) offset).

Definition stream_read (self : InodeRefIO S) (buf : list Z) : out (Z * list Z * InodeRefIO S) :=
  '(_, buf, inode) ← read_at (io_inode self) (io_offset self) buf;
  '(_, self) ← seek (mkIO inode (io_offset self)) (SeekCurrent (to_signed 64 (zlen buf)));
  Ret (zlen buf, buf, self).

Definition stream_write (self : InodeRefIO S) (buf : list Z) : out (Z * InodeRefIO S) :=
  '(_, inode) ← write_at (io_inode self) (io_offset self) buf;
  '(_, self) ← seek (mkIO inode (io_offset self)) (SeekCurrent (to_signed 64 (zlen buf)));
  Ret (zlen buf, self).

Definition stream_flush (self : InodeRefIO S) : out (InodeRefIO S) := Ret self.

End Stream.

Inductive StreamOp := StreamSeek (pos : SeekFrom) | StreamRead (len : Z) | StreamWrite (buf : list Z).

(** The bytes read by a sequence of calls. *)
Fixpoint run_stream {P : Profile} {S} {IO : InodeIO S} (self : InodeRefIO S) (ops : list StreamOp) :
    out (list (list Z) * InodeRefIO S) :=
  match ops with
  | [] => Ret ([], self)
  | StreamSeek pos :: ops => '(_, self) ← seek self pos; run_stream self ops
  | StreamRead len :: ops =>
      '(_, buf, self) ← stream_read self (replicate (Z.to_nat len) 0);
      '(r, self) ← run_stream self ops;
      Ret (buf :: r, self)
  | StreamWrite buf :: ops => '(_, self) ← stream_write self buf; run_stream self ops
  end.

(** The reference: an array of [n] bytes and a position in it; [None] when a call
    leaves the array. Seeking relative to the end is not part of it. *)
Fixpoint spec_stream (n pos : Z) (f : Z → Z) (ops : list StreamOp) :
    option (list (list Z) * Z * (Z → Z)) :=
  match ops with
  | [] => Some ([], pos, f)
  | StreamSeek (SeekStart i) :: ops =>
      if (0 <=? i) && (i <=? n) then spec_stream n i f ops else None
  | StreamSeek (SeekCurrent i) :: ops =>
      if (0 <=? pos + i) && (pos + i <=? n) then spec_stream n (pos + i) f ops else None
  | StreamSeek (SeekEnd _) :: _ => None
  | StreamRead len :: ops =>
      if (0 <? len) && (pos + len <=? n) then
        '(r, pos', f') ← spec_stream n (pos + len) f ops;
        Some ((f <$> range pos (pos + len)) :: r, pos', f')
      else None
  | StreamWrite buf :: ops =>
      if (0 <? zlen buf) && (pos + zlen buf <=? n) then
        spec_stream n (pos + zlen buf) (spec_write f pos buf) ops
      else None
  end.

Section StreamProofs.
Context {P : Profile} {S : Type} {IO : InodeIO S} {FD : FlatDisk S}.

Lemma seek_current_ok (inode : S) pos i : 0 ≤ pos < 2 ^ 62 → 0 ≤ pos + i < 2 ^ 62 →
  seek (mkIO inode pos) (SeekCurrent i) = Ret (pos + i, mkIO inode (pos + i)).
Proof.
  intros Hp Hi. unfold seek. cbn [io_offset io_inode]. unfold add_i, to_signed.
  rewrite (proj2 (Z.ltb_lt pos _)) by lia.
  case_bool; [|bsolve]. run. by rewrite wrap_small by lia.
Qed.

Lemma spec_stream_agree n pos f g ops r pos' f' : agree n f g → 0 ≤ pos →
  spec_stream n pos f ops = Some (r, pos', f') →
  ∃ g', spec_stream n pos g ops = Some (r, pos', g') ∧ agree n f' g'.
Proof.
  revert pos f g r. induction ops as [|[[i|i|i]|len|buf] ops IH]; intros pos f g r Hfg Hpos Hsp; cbn in *.
  - injection Hsp as <- <- <-. by exists g.
  - revert Hsp. case_bool; intros Hsp; [|done]. eapply IH; [done|lia|done].
  - done.
  - revert Hsp. case_bool; intros Hsp; [|done]. eapply IH; [done|lia|done].
  - revert Hsp. case_bool; intros Hsp; [|done]. destruct (spec_stream n (pos + len) f ops) as [[[r1 p1] f1]|] eqn:E1; [|done].
    injection Hsp as <- <- <-. destruct (IH (pos + len) f g _ Hfg ltac:(lia) E1) as (g' & -> & Ha).
    exists g'. split; [|done]. cbn. do 4 f_equal.
    apply list_fmap_ext. intros k x Hx%lookup_seqZ. symmetry. apply Hfg. lia.
  - revert Hsp. case_bool; intros Hsp; [|done]. pose proof (zlen_nonneg buf). eapply IH; [by apply spec_write_proper|lia|done].
Qed.

Lemma run_stream_ok inode pos ops r pos' f' :
  flat_ok inode → 0 ≤ pos ≤ flat_size inode →
  spec_stream (flat_size inode) pos (flat_byte inode) ops = Some (r, pos', f') →
  ∃ inode', run_stream (mkIO inode pos) ops = Ret (r, mkIO inode' pos') ∧ flat_ok inode' ∧
    flat_size inode' = flat_size inode ∧ agree (flat_size inode) (flat_byte inode') f'.
Proof.
  revert inode pos r f'. induction ops as [|[[i|i|i]|len|buf] ops IH]; intros inode pos r f' Hok Hpos;
    cbn [spec_stream run_stream]; pose proof (flat_small _ Hok).
  - intros [= <- <- <-]. by exists inode.
  - case_bool; [|done]. intros Es. cbn. by apply (IH _ i _ _ Hok ltac:(lia) Es).
  - done.
  - case_bool; [|done]. intros Es. rewrite seek_current_ok by lia. run.
    by apply (IH _ (pos + i) _ _ Hok ltac:(lia) Es).
  - case_bool; [|done]. destruct (spec_stream _ _ _ ops) as [[[r1 p1] f1]|] eqn:Es; [|done].
    intros [= <- <- <-]. unfold stream_read. cbn [io_inode io_offset].
    assert (zlen (replicate (Z.to_nat len) 0) = len) as Hlen
      by (unfold zlen; rewrite length_replicate; lia).
    destruct (flat_read inode pos (replicate (Z.to_nat len) 0)) as (i1 & -> & Hok1 & Hz1 & Hb1);
      [done|intros E'; rewrite E' in Hlen; unfold zlen in Hlen; cbn in Hlen; lia|lia|lia|].
    run. rewrite Hlen. assert (zlen (flat_byte inode <$> range pos (pos + len)) = len) as Hl2.
    { unfold zlen, range. rewrite length_fmap, length_seqZ. lia. }
    rewrite Hl2. unfold to_signed at 1. rewrite (proj2 (Z.ltb_lt len _)) by lia.
    rewrite seek_current_ok by lia. run.
    destruct (spec_stream_agree _ (pos + len) _ (flat_byte i1) _ _ _ _ (symmetry Hb1) ltac:(lia) Es) as (g' & E2 & Ha).
    rewrite <- Hz1 in E2. destruct (IH i1 (pos + len) _ _ Hok1 ltac:(lia) E2) as (i' & -> & ? & ? & Hb').
    run. exists i'. rewrite Hz1 in *. split_and!; [done|done|congruence|]. by rewrite Ha.
  - case_bool; [|done]. intros Es. unfold stream_write. cbn [io_inode io_offset].
    destruct (flat_write inode pos buf) as (i1 & -> & Hok1 & Hz1 & Hb1);
      [done|intros ->; unfold zlen in *; cbn in *; lia|lia|lia|].
    run. unfold to_signed at 1. rewrite (proj2 (Z.ltb_lt (zlen buf) _)) by lia.
    rewrite seek_current_ok by lia. run.
    destruct (spec_stream_agree _ (pos + zlen buf) (spec_write _ _ _) (flat_byte i1) _ _ _ _ (symmetry Hb1) ltac:(lia) Es) as (g' & E2 & Ha).
    rewrite <- Hz1 in E2. destruct (IH i1 (pos + zlen buf) _ _ Hok1 ltac:(lia) E2) as (i' & -> & ? & ? & Hb').
    exists i'. rewrite Hz1 in *. split_and!; [done|done|congruence|]. by rewrite Ha.
Qed.

(** A stream over a disk or partition is a cursor over an array of bytes: any
    sequence of seeks from the start or the current position, reads and writes that
    stays in the array returns and gives what the reference gives. *)
Theorem stream_refines (inode : S) (ops : list StreamOp) (r : list (list Z)) (pos : Z) (f : Z → Z)
    (Hok : flat_ok inode)
    (Hspec : spec_stream (flat_size inode) 0 (flat_byte inode) ops = Some (r, pos, f)) :
  ∃ inode', run_stream (InodeRefIO_new inode) ops = Ret (r, mkIO inode' pos) ∧
    agree (flat_size inode) (flat_byte inode') f.
Proof.
  pose proof (flat_small _ Hok). destruct (run_stream_ok inode 0 ops r pos f Hok) as (i' & E & _ & _ & Ha);
    [lia|done|]. by exists i'.
Qed.

(** Seeking relative to the end goes the wrong way: [SeekFrom::End(i)] moves to
    [size - i], not to [size + i], and with overflow checks it panics for every
    negative [i]. *)
Theorem seek_end_inverted (inode : S) (pos n i : Z)
    (Hn : size inode = Ret n) (Hr : 0 < i ≤ n) (Hb : n < 2 ^ 62) :
  seek (mkIO inode pos) (SeekEnd i) = Ret (n - i, mkIO inode (n - i)) ∧
  (@overflow_checks P = true → seek (mkIO inode pos) (SeekEnd (- i)) = Panic).
Proof.
  unfold seek. cbn [io_inode]. rewrite Hn. run. split.
  - rewrite wrap_small by lia. by rewrite sub_u_ok by lia.
  - intros Hp. replace (wrap 64 (- i)) with (2 ^ 64 - i).
    2: { unfold wrap. apply (Z.mod_unique _ _ (-1)); lia. }
    unfold sub_u, norm. replace (in_range 64 _) with false; [by rewrite Hp|].
    symmetry. unfold in_range. rewrite (proj2 (Z.leb_gt _ _)) by lia. done.
Qed.

End StreamProofs.

(** ** Examples: a disk in memory *)

Record RamDisk := mkRam { ram : Z → list Z; ram_sectors : Z }.

#[export] Instance ram_driver : BlockDriver RamDisk := {|
  read_block d b _ := Ret (ram d b, d);
  write_block d b buf := Ret (mkRam (λ b', if decide (b' = b) then buf else ram d b') (ram_sectors d));
  get_size d := Ret (ram_sectors d * 512);
|}.

#[export] Program Instance ram_laws : BlockDriverLaws RamDisk := {|
  working d := 0 ≤ ram_sectors d ∧ ram_sectors d * 512 < 2 ^ 62 ∧ ∀ b, zlen (ram d b) = 512;
  sectors := ram_sectors;
  sector := ram;
|}.
Next Obligation. by intros d (? & ? & ?). Qed.
Next Obligation. by intros d b (? & ? & ?). Qed.
Next Obligation. done. Qed.
Next Obligation. intros d b buf H Hb Hl. by exists d. Qed.
Next Obligation.
  intros d b buf (H1 & H2 & H3) Hb Hl. eexists. split; [done|]. cbn. split_and!; try done.
  intros b'. by case_decide.
Qed.

Section Examples.
#[local] Existing Instance dev.

(** Four sectors; the bytes of sector [b] are all [b]. *)
Definition small_disk : RamDisk := mkRam (λ b, replicate 512 b) 4.

Definition sample_ops : list IoOp :=
  [IoWrite 511 [65; 66]; IoRead 510 4; IoWrite 1023 [67]; IoRead 1022 3].

Lemma small_disk_working : working small_disk.
Proof. cbn. repeat split; intros; unfold zlen; rewrite ?length_replicate; lia. Defined.

Lemma sample_ops_fit n : 2048 ≤ n → Forall (io_fits n) sample_ops.
Proof. intros Hn. repeat constructor; cbn; try lia; try discriminate; unfold zlen; cbn; lia. Defined.

Lemma block_inode_refines_witness :
  ∃ s', run_ops (BlockInode_new 0, [small_disk]) sample_ops = Ret ([[0; 65; 66; 1]; [1; 67; 2]], s') ∧
    disk_size s' = 2048 ∧
    agree 2048 (disk_byte s') (spec_ops (byte_of (sector small_disk)) sample_ops).2.
Proof.
  assert ((spec_ops (byte_of (sector small_disk)) sample_ops).1 = [[0; 65; 66; 1]; [1; 67; 2]]) as E
    by (vm_compute; reflexivity).
  destruct (block_inode_refines [small_disk] 0 small_disk sample_ops) as (s' & Hrun & Hsz & Hb).
  - done.
  - apply small_disk_working.
  - apply sample_ops_fit. cbn. lia.
  - exists s'. rewrite E in Hrun. split; [exact Hrun|]. split; [exact Hsz|exact Hb].
Defined.

Lemma empty_access_panics_witness :
  BlockInode_read_at (BlockInode_new 0, [small_disk]) 512 [] = Panic ∧
  BlockInode_write_at (BlockInode_new 0, [small_disk]) 512 [] = Panic.
Proof. apply (empty_access_panics (BlockInode_new 0, [small_disk]) 1); [lia|done]. Defined.

(** The disk of [small_disk], as a drive. *)
Definition small_drive : BlockInode * list RamDisk := (BlockInode_new 0, [small_disk]).

Lemma small_drive_ok : flat_ok small_drive.
Proof. exists (sector small_disk), (sectors small_disk). apply (BlockInode_new_ok [small_disk] 0 small_disk); [done|].
  apply small_disk_working. Defined.

Lemma gpt_partition_refines_witness :
  let ops := [IoWrite 5 [65; 66]; IoRead 4 4] in
  let spec := spec_ops (λ i, flat_byte small_drive (1 * 512 + i)) ops in
  ∃ p p', gpt_partition 1 2 small_drive = Ret p ∧ run_ops p ops = Ret (spec.1, p') ∧
    (∀ i, 0 ≤ i < flat_size small_drive - 1 * 512 → flat_byte (drive p') (1 * 512 + i) = spec.2 i) ∧
    ∀ i, 0 ≤ i < 1 * 512 → flat_byte (drive p') i = flat_byte small_drive i.
Proof.
  apply (gpt_partition_refines 1 2 small_drive [IoWrite 5 [65; 66]; IoRead 4 4]).
  - apply small_drive_ok.
  - vm_compute. split; congruence.
  - lia.
  - repeat constructor; vm_compute; congruence.
Defined.

Lemma gpt_partition_oversized_witness :
  ∃ p p', gpt_partition 2 2 small_drive = Ret p ∧ size p = Ret (2 * 512) ∧
    (2 - 2 + 1) * 512 < 2 * 512 ∧
    read_at p 512 [0] = Ret (1, [flat_byte small_drive (2 * 512 + 512)], p') ∧
    (2 + 1) * 512 ≤ 2 * 512 + 512.
Proof.
  apply (gpt_partition_oversized 2 2 512 small_drive); [apply small_drive_ok|lia|lia|lia|].
  vm_compute. reflexivity.
Defined.

Definition sample_stream : list StreamOp :=
  [StreamSeek (SeekStart 510); StreamWrite [65; 66; 67]; StreamSeek (SeekCurrent (-4)); StreamRead 5].

Lemma stream_refines_witness :
  ∃ inode' f, run_stream (InodeRefIO_new small_drive) sample_stream =
    Ret ([[0; 65; 66; 67; 1]], mkIO inode' 514) ∧ agree 2048 (flat_byte inode') f.
Proof.
  destruct (stream_refines small_drive sample_stream [[0; 65; 66; 67; 1]] 514
    (spec_write (flat_byte small_drive) 510 [65; 66; 67])) as (i & E & Ha).
  - apply small_drive_ok.
  - reflexivity.
  - exists i, (spec_write (flat_byte small_drive) 510 [65; 66; 67]). by split.
Defined.

Lemma seek_end_inverted_witness :
  seek (mkIO small_drive 0) (SeekEnd 10) = Ret (2038, mkIO small_drive 2038) ∧
  (@overflow_checks dev = true → seek (mkIO small_drive 0) (SeekEnd (-10)) = Panic).
Proof. apply (seek_end_inverted small_drive 0 2048 10); [reflexivity|lia|lia]. Defined.

End Examples.
