(* ===== verification/Vfs.v ===== *)
(** * The virtual file system and file descriptors

    [kernel/src/fs/vfs/inode.rs], [kernel/src/fs/vfs/root.rs], the directory inodes of
    [kernel/src/fs/fat32.rs] and [kernel/src/fs/ext2.rs], and
    [kernel/src/fs/operation.rs]: a graph of shared inodes, path lookup, mounting, and
    a table of file descriptors per process. *)

From stdpp Require Import sorting.
From S2P Require Import Prelude.

(** ** Strings

    A [String] is the list of its characters; 47 is the slash. *)

Definition Str : Type := list Z.
Definition slash : Z := 47.
Definition dot : Str := [46].
Definition dotdot : Str := [46; 46].

(** [s.split("/")]: always at least one part. *)
Fixpoint split (s : Str) : list Str :=
  match s with
  | [] => [[]]
  | c :: s =>
      if c =? slash then [] :: split s
      else match split s with [] => [[c]] | x :: xs => (c :: x) :: xs end
  end.

Definition starts_with_slash (s : Str) : bool := match s with c :: _ => c =? slash | [] => false end.

(** [while !path.ends_with("/") { name.push(path.pop().unwrap()); }], on the reversed
    path: what is left, reversed, and [name]. *)
Fixpoint pop_name (rpath name : Str) : out (Str * Str) :=
  match rpath with
  | [] => Panic
  | c :: r => if c =? slash then Ret (rpath, name) else pop_name r (name ++ [c])
  end.

(** [if path.ends_with("/") { path.pop().unwrap(); }], on the reversed path. *)
Definition pop_slash (rpath : Str) : Str :=
  match rpath with c :: r => if c =? slash then r else rpath | [] => [] end.

Fixpoint str_leb (a b : Str) : bool :=
  match a, b with
  | [], _ => true
  | _ :: _, [] => false
  | x :: a, y :: b => (x <? y) || (x =? y) && str_leb a b
  end.

(** ** Inodes *)

Inductive InodeTy := Dir | File.
#[export] Instance InodeTy_eq_dec : EqDecision InodeTy.
Proof. solve_decision. Defined.

Record FileInfo := mkFileInfo { ty : InodeTy; name : Str }.

(** The derived order: types first, then names. *)
Definition FileInfo_leb (a b : FileInfo) : bool :=
  match ty a, ty b with
  | Dir, File => true
  | File, Dir => false
  | _, _ => str_leb (name a) (name b)
  end.

Definition InodeRef : Type := Z.

Inductive VolumeKind := Fat32 | Ext2.

(** What is behind the inodes: the directories and files of the file system crates,
    the devices, and the state [World] they share. [crate_list] is what an adapter's
    [list] adds to its virtual inodes. *)
Class FsCrates := {
  World : Type;
  CDir : Type;
  CLeaf : Type;
  crate_open : World → CDir → Str → out (option (CDir + CLeaf) * World);
  crate_create : World → CDir → Str → InodeTy → out (option unit * World);
  crate_list : World → CDir → out (list FileInfo);
  leaf_read_at : World → CLeaf → Z → list Z → out (Z * list Z * World);
  leaf_write_at : World → CLeaf → Z → list Z → out (Z * World);
  leaf_size : World → CLeaf → out Z;
  leaf_ioctl : World → CLeaf → Z → Z → out (Z * World);
  open_volume : VolumeKind → World → InodeRef → out (option CDir * World);
}.

(** The implementations of the trait [Inode]: [RootFS]; the directories of a mounted
    volume ([Fat32Volume], [Fat32Dir], [Ext2Volume], [Ext2Dir]); and the inodes that
    keep the trait's own [mount], [open], [create] and [list] (files, disks,
    partitions, the terminal, the frame buffer). *)
Inductive Node `{FsCrates} :=
  | RootFS (nodes : gmap Str InodeRef) (path : Str)
  | Volume (kind : VolumeKind) (virtual_inodes : gmap Str InodeRef) (path : Str) (dir : CDir)
  | Leaf (path : Str) (leaf : CLeaf).

(** ** Processes and their files *)

Inductive OpenMode := Read | Write | ReadWrite.

Definition OpenMode_from (mode : Z) : out OpenMode :=
  if mode =? 0 then Ret Read
  else if mode =? 1 then Ret Write
  else if mode =? 2 then Ret ReadWrite
  else Panic.

Record FileTuple := mkFile { file_inode : InodeRef; file_mode : OpenMode; file_offset : Z }.

Record FileDescriptorManager := mkManager {
  file_descriptors : gmap Z FileTuple;
  file_descriptor_allocator : Z;
  cwd : InodeRef;
}.

(** The inodes (an [InodeRef] is a position in [heap]), [ROOT],
    [FILE_DESCRIPTOR_MANAGERS], and the process that is running. *)
Record Vfs `{FsCrates} := mkVfs {
  heap : list Node;
  root : InodeRef;
  managers : gmap Z FileDescriptorManager;
  current : Z;
  world : World;
}.

Section Ops.
Context {P : Profile} {C : FsCrates}.

Definition set_heap (s : Vfs) (h : list Node) : Vfs := mkVfs _ h (root s) (managers s) (current s) (world s).
Definition set_world (s : Vfs) (w : World) : Vfs := mkVfs _ (heap s) (root s) (managers s) (current s) w.
Definition set_managers (s : Vfs) (m : gmap Z FileDescriptorManager) : Vfs :=
  mkVfs _ (heap s) (root s) m (current s) (world s).

Definition node (s : Vfs) (r : InodeRef) : out Node := index (heap s) r.

(** [Arc::new(RwLock::new(inode))] *)
Definition alloc (s : Vfs) (n : Node) : InodeRef * Vfs := (zlen (heap s), set_heap s (heap s ++ [n])).

Definition put (s : Vfs) (r : InodeRef) (n : Node) : out Vfs :=
  h ← store (heap s) r n; Ret (set_heap s h).

(** [RootFS::new] *)
Definition RootFS_new (s : Vfs) : out (InodeRef * Vfs) :=
  let '(r, s) := alloc s (RootFS ∅ []) in
  s ← put s r (RootFS {[ dot := r ]} []);
  Ret (r, s).

(** A directory of a volume: [Fat32Volume::new], [Fat32Dir::new], [Ext2Dir::new], ... *)
Definition Volume_new (s : Vfs) (kind : VolumeKind) (dir : CDir) : out (InodeRef * Vfs) :=
  let '(r, s) := alloc s (Volume kind ∅ [] dir) in
  s ← put s r (Volume kind {[ dot := r ]} [] dir);
  Ret (r, s).

(** [when_mounted] *)
Definition when_mounted (s : Vfs) (r : InodeRef) (path : Str) (father : option InodeRef) : out Vfs :=
  n ← node s r;
  let add nodes := match father with Some f => <[dotdot := f]> nodes | None => nodes end in
  put s r match n with
    | RootFS nodes _ => RootFS (add nodes) path
    | Volume kind nodes _ dir => Volume kind (add nodes) path dir
    | Leaf _ leaf => Leaf path leaf
    end.

Definition get_path (s : Vfs) (r : InodeRef) : out Str :=
  n ← node s r;
  Ret match n with RootFS _ p => p | Volume _ _ p _ => p | Leaf p _ => p end.

Definition inode_type (s : Vfs) (r : InodeRef) : out InodeTy :=
  n ← node s r;
  Ret match n with RootFS _ _ => Dir | Volume _ _ _ _ => Dir | Leaf _ _ => File end.

(** [mount]; the trait's own is [unimplemented!()]. *)
Definition node_mount (s : Vfs) (self node' : InodeRef) (name : Str) : out Vfs :=
  n ← node s self;
  match n with
  | RootFS nodes p => put s self (RootFS (<[name := node']> nodes) p)
  | Volume kind nodes p dir => put s self (Volume kind (<[name := node']> nodes) p dir)
  | Leaf _ _ => Panic
  end.

Definition mount_to (s : Vfs) (node' to : InodeRef) (name : Str) : out Vfs :=
  s ← node_mount s to node' name;
  p ← get_path s to;
  when_mounted s node' (p ++ name ++ [slash]) (Some to).

(** The loop of [get_inode_by_path], with the nodes' [open]. *)
Fixpoint walk (open : Vfs → InodeRef → Str → out (option InodeRef * Vfs)) (s : Vfs) (r : InodeRef)
    (parts : list Str) : out (option InodeRef * Vfs) :=
  match parts with
  | [] => Ret (Some r, s)
  | part :: parts =>
      if 0 <? zlen part then
        '(child, s) ← open s r part;
        match child with
        | Some child => walk open s child parts
        | None => Ret (None, s)
        end
      else walk open s r parts
  end.

(** [open]; the trait's own is [unimplemented!()]. The directories of a volume look
    up their own path first, which opens the directories above them: [depth] bounds
    the nesting of these calls, behind it the kernel's stack ends. *)
Fixpoint node_open (depth : nat) (s : Vfs) (self : InodeRef) (name : Str) :
    out (option InodeRef * Vfs) :=
  n ← node s self;
  match n with
  | RootFS nodes _ => Ret (nodes !! name, s)
  | Leaf _ _ => Panic
  | Volume kind virtual_inodes path dir =>
      match depth with
      | O => Panic
      | S depth =>
          '(self_inode, s) ← walk (node_open depth) s (root s) (split path);
          match virtual_inodes !! name with
          | Some inode => Ret (Some inode, s)
          | None =>
              '(entry, w) ← crate_open (world s) dir name;
              let s := set_world s w in
              match entry with
              | None => Ret (None, s)
              | Some (inl dir) =>
                  '(inode, s) ← Volume_new s kind dir;
                  s ← when_mounted s inode (path ++ name ++ [slash]) self_inode;
                  Ret (Some inode, s)
              | Some (inr leaf) =>
                  let '(inode, s) := alloc s (Leaf [] leaf) in
                  let p := match kind with Fat32 => path ++ name | Ext2 => path ++ name ++ [slash] end in
                  s ← when_mounted s inode p self_inode;
                  Ret (Some inode, s)
              end
          end
      end
  end.

(** The depth of the stack. *)
Context (depth : nat).

Definition get_inode_by_path (s : Vfs) (path : Str) : out (option InodeRef * Vfs) :=
  walk (node_open depth) s (root s) (split path).

(** [create]; the trait's own, and [RootFS]'s, is [unimplemented!()]. *)
Definition node_create (s : Vfs) (self : InodeRef) (name : Str) (ty : InodeTy) :
    out (option InodeRef * Vfs) :=
  n ← node s self;
  match n with
  | RootFS _ _ | Leaf _ _ => Panic
  | Volume _ _ _ dir =>
      '(r, w) ← crate_create (world s) dir name ty;
      let s := set_world s w in
      match r with
      | None => Ret (None, s)
      | Some _ => node_open depth s self name
      end
  end.

(** The entries of a map of inodes, in the order of their names. *)
Definition name_le (p q : Str * InodeRef) : Prop := str_leb p.1 q.1 = true.
#[export] Instance name_le_dec p q : Decision (name_le p q).
Proof. unfold name_le. apply _. Defined.

Definition list_nodes (s : Vfs) (nodes : gmap Str InodeRef) : out (list FileInfo) :=
  foldM (λ l '(name, r), t ← inode_type s r; Ret (l ++ [mkFileInfo t name])) []
    (merge_sort name_le (map_to_list nodes)).

Definition node_list (s : Vfs) (self : InodeRef) : out (list FileInfo) :=
  n ← node s self;
  match n with
  | RootFS nodes _ => list_nodes s nodes
  | Volume _ nodes _ dir =>
      l ← list_nodes s nodes;
      l' ← crate_list (world s) dir;
      Ret (l ++ l')
  | Leaf _ _ => Ret []
  end.

Definition node_read_at (s : Vfs) (self : InodeRef) (offset : Z) (buf : list Z) :
    out (Z * list Z * Vfs) :=
  n ← node s self;
  match n with
  | Leaf _ leaf => '(n, buf, w) ← leaf_read_at (world s) leaf offset buf; Ret (n, buf, set_world s w)
  | _ => Ret (0, buf, s)
  end.

Definition node_write_at (s : Vfs) (self : InodeRef) (offset : Z) (buf : list Z) : out (Z * Vfs) :=
  n ← node s self;
  match n with
  | Leaf _ leaf => '(n, w) ← leaf_write_at (world s) leaf offset buf; Ret (n, set_world s w)
  | _ => Ret (0, s)
  end.

Definition node_size (s : Vfs) (self : InodeRef) : out Z :=
  n ← node s self;
  match n with Leaf _ leaf => leaf_size (world s) leaf | _ => Ret 0 end.

Definition node_ioctl (s : Vfs) (self : InodeRef) (cmd arg : Z) : out (Z * Vfs) :=
  n ← node s self;
  match n with
  | Leaf _ leaf => '(r, w) ← leaf_ioctl (world s) leaf cmd arg; Ret (r, set_world s w)
  | _ => Panic
  end.

(** ** [operation.rs] *)

(** [FileDescriptorManager::new] *)
Definition FileDescriptorManager_new (s : Vfs) (fds : gmap Z FileTuple) : FileDescriptorManager :=
  mkManager fds 3 (root s).

(** [fetch_add] wraps. *)
Definition get_new_fd (m : FileDescriptorManager) : Z * FileDescriptorManager :=
  (file_descriptor_allocator m,
   mkManager (file_descriptors m) (wrap 64 (file_descriptor_allocator m + 1)) (cwd m)).

Definition add_inode (m : FileDescriptorManager) (inode : InodeRef) (mode : OpenMode) :
    Z * FileDescriptorManager :=
  let '(new_fd, m) := get_new_fd m in
  (new_fd, mkManager (<[new_fd := mkFile inode mode 0]> (file_descriptors m))
     (file_descriptor_allocator m) (cwd m)).

Definition get_file_descriptor_manager (s : Vfs) : option FileDescriptorManager :=
  managers s !! current s.

(** The manager is shared: a change to it is a change in the table. *)
Definition put_manager (s : Vfs) (m : FileDescriptorManager) : Vfs :=
  set_managers s (<[current s := m]> (managers s)).

Definition manager_change_cwd (s : Vfs) (m : FileDescriptorManager) (path : Str) : out Vfs :=
  '(inode, s) ← get_inode_by_path s path;
  match inode with
  | None => Ret s
  | Some inode =>
      t ← inode_type s inode;
      if decide (t = Dir) then
        Ret (put_manager s (mkManager (file_descriptors m) (file_descriptor_allocator m) inode))
      else Ret s
  end.

Definition manager_get_cwd (s : Vfs) (m : FileDescriptorManager) : out Str := get_path s (cwd m).

Definition init_file_descriptor_manager (s : Vfs) (pid : Z) : Vfs :=
  set_managers s (<[pid := FileDescriptorManager_new s ∅]> (managers s)).

Definition init_file_descriptor_manager_with_stdin_stdout (s : Vfs) (pid : Z)
    (stdin stdout : InodeRef) : Vfs :=
  let fds := <[2 := mkFile stdout ReadWrite 0]>
    (<[1 := mkFile stdout ReadWrite 0]> (<[0 := mkFile stdin Read 0]> ∅)) in
  set_managers s (<[pid := FileDescriptorManager_new s fds]> (managers s)).

Definition kernel_open (s : Vfs) (path : Str) : out (option InodeRef * Vfs) := get_inode_by_path s path.

Definition get_inode_by_fd (s : Vfs) (fd : Z) : option InodeRef :=
  m ← get_file_descriptor_manager s;
  f ← file_descriptors m !! fd;
  Some (file_inode f).

(** The inode a path names: absolute, or behind the current directory's path. *)
Definition lookup_path (s : Vfs) (m : FileDescriptorManager) (path : Str) :
    out (option InodeRef * Vfs) :=
  if starts_with_slash path then get_inode_by_path s path
  else c ← manager_get_cwd s m; get_inode_by_path s (c ++ path).

Definition open (s : Vfs) (path : Str) (open_mode : OpenMode) : out (option Z * Vfs) :=
  match get_file_descriptor_manager s with
  | None => Ret (None, s)
  | Some m =>
      '(inode, s) ← lookup_path s m path;
      match inode with
      | None => Ret (None, s)
      | Some inode =>
          let '(fd, m) := add_inode m inode open_mode in
          Ret (Some fd, put_manager s m)
      end
  end.

Definition read (s : Vfs) (fd : Z) (buf : list Z) : out (Z * list Z * Vfs) :=
  match get_file_descriptor_manager s with
  | None => Ret (0, buf, s)
  | Some m =>
      match file_descriptors m !! fd with
      | Some f => node_read_at s (file_inode f) (file_offset f) buf
      | None => Ret (0, buf, s)
      end
  end.

Definition write (s : Vfs) (fd : Z) (buf : list Z) : out (Z * Vfs) :=
  match get_file_descriptor_manager s with
  | Some m =>
      match file_descriptors m !! fd with
      | Some f =>
          match file_mode f with
          | Write | ReadWrite => node_write_at s (file_inode f) (file_offset f) buf
          | Read => Ret (0, s)
          end
      | None => Ret (0, s)
      end
  | None => Ret (0, s)
  end.

Definition lseek (s : Vfs) (fd offset : Z) : option unit * Vfs :=
  match get_file_descriptor_manager s with
  | None => (None, s)
  | Some m =>
      match file_descriptors m !! fd with
      | None => (None, s)
      | Some f =>
          let f' := mkFile (file_inode f) (file_mode f) offset in
          (Some tt, put_manager s (mkManager (<[fd := f']> (file_descriptors m))
             (file_descriptor_allocator m) (cwd m)))
      end
  end.

Definition close (s : Vfs) (fd : Z) : option unit * Vfs :=
  match get_file_descriptor_manager s with
  | None => (None, s)
  | Some m =>
      match file_descriptors m !! fd with
      | None => (None, s)
      | Some _ =>
          (Some tt, put_manager s (mkManager (delete fd (file_descriptors m))
             (file_descriptor_allocator m) (cwd m)))
      end
  end.

Definition fsize (s : Vfs) (fd : Z) : out (option Z) :=
  match get_inode_by_fd s fd with
  | None => Ret None
  | Some inode => n ← node_size s inode; Ret (Some n)
  end.

(** [list.sort()] *)
Definition FileInfo_le (a b : FileInfo) : Prop := FileInfo_leb a b = true.
#[export] Instance FileInfo_le_dec a b : Decision (FileInfo_le a b).
Proof. unfold FileInfo_le. apply _. Defined.
Definition sort_infos (l : list FileInfo) : list FileInfo := merge_sort FileInfo_le l.

Definition list_inode (s : Vfs) (inode : option InodeRef) : out (list FileInfo * Vfs) :=
  match inode with
  | None => Ret ([], s)
  | Some inode =>
      t ← inode_type s inode;
      if decide (t = Dir) then l ← node_list s inode; Ret (sort_infos l, s) else Ret ([], s)
  end.

Definition list_dir (s : Vfs) (path : Str) : out (list FileInfo * Vfs) :=
  if starts_with_slash path then
    '(inode, s) ← get_inode_by_path s path;
    list_inode s inode
  else match get_file_descriptor_manager s with
  | None => Ret ([], s)
  | Some m =>
      c ← manager_get_cwd s m;
      '(inode, s) ← get_inode_by_path s (c ++ path);
      list_inode s inode
  end.

Definition change_cwd (s : Vfs) (path : Str) : out Vfs :=
  match get_file_descriptor_manager s with
  | None => Ret s
  | Some m =>
      if starts_with_slash path then manager_change_cwd s m path
      else c ← manager_get_cwd s m; manager_change_cwd s m (c ++ path)
  end.

Definition get_cwd (s : Vfs) : out Str :=
  match get_file_descriptor_manager s with
  | Some m => manager_get_cwd s m
  | None => Ret [slash]
  end.

Definition create (s : Vfs) (path : Str) (ty : InodeTy) (mode : OpenMode) : out (option Z * Vfs) :=
  match get_file_descriptor_manager s with
  | None => Ret (None, s)
  | Some m =>
      '(parent_path, name) ← (if starts_with_slash path then
          '(rparent, name) ← pop_name (rev path) [];
          Ret (rev rparent, name)
        else c ← manager_get_cwd s m; Ret (c, path));
      '(parent, s) ← get_inode_by_path s parent_path;
      match parent with
      | None => Ret (None, s)
      | Some parent =>
          '(inode, s) ← node_create s parent name ty;
          match inode with
          | None => Ret (None, s)
          | Some inode =>
              let '(fd, m) := add_inode m inode mode in
              Ret (Some fd, put_manager s m)
          end
      end
  end.

Definition get_type (s : Vfs) (fd : Z) : out (option InodeTy) :=
  match get_inode_by_fd s fd with
  | None => Ret None
  | Some inode => t ← inode_type s inode; Ret (Some t)
  end.

(** [Fat32Volume::new], then [Ext2Volume::new]. *)
Definition new_volume (s : Vfs) (dev : InodeRef) : out (option InodeRef * Vfs) :=
  '(d, w) ← open_volume Fat32 (world s) dev;
  match d with
  | Some d => '(r, s) ← Volume_new (set_world s w) Fat32 d; Ret (Some r, s)
  | None =>
      '(d, w) ← open_volume Ext2 w dev;
      match d with
      | Some d => '(r, s) ← Volume_new (set_world s w) Ext2 d; Ret (Some r, s)
      | None => Ret (None, set_world s w)
      end
  end.

Definition mount (s : Vfs) (to partition_path : Str) : out (option unit * Vfs) :=
  '(partition_inode, s) ← get_inode_by_path s partition_path;
  match partition_inode with
  | None => Ret (None, s)
  | Some partition_inode =>
      '(rfather, _) ← pop_name (pop_slash (rev to)) [];
      '(to_father, s) ← get_inode_by_path s (rev rfather);
      match to_father with
      | None => Ret (None, s)
      | Some to_father =>
          '(to, s) ← get_inode_by_path s to;
          match to with
          | None => Ret (None, s)
          | Some to =>
              p ← get_path s to;
              '(_, name) ← pop_name (pop_slash (rev p)) [];
              let to_name := rev name in
              '(volume, s) ← new_volume s partition_inode;
              match volume with
              | None => Ret (None, s)
              | Some volume => s ← mount_to s volume to_father to_name; Ret (Some tt, s)
              end
          end
      end
  end.

Definition ioctl (s : Vfs) (fd cmd arg : Z) : out (Z * Vfs) :=
  match get_inode_by_fd s fd with
  | Some inode => node_ioctl s inode cmd arg
  | None => Ret (usize_max, s)
  end.

End Ops.

(** ** Paths *)

Lemma split_nonempty a : split a ≠ [].
Proof. destruct a as [|c a]; cbn; [done|]. destruct (c =? slash); [done|]. by destruct (split a). Qed.

Lemma split_app a b : split (a ++ slash :: b) = split a ++ split b.
Proof.
  induction a as [|c a IH]; cbn [split app].
  - change (slash =? slash) with true. done.
  - destruct (c =? slash); [by rewrite IH|]. rewrite IH.
    pose proof (split_nonempty a). by destruct (split a).
Qed.

Lemma split_part a : slash ∉ a → split a = [a].
Proof.
  induction a as [|c a IH]; intros Ha; [done|]. cbn.
  destruct (Z.eqb_spec c slash) as [->|Hc]; [by destruct Ha; left|].
  rewrite IH; [done|]. intros H. apply Ha. by right.
Qed.

Lemma split_has_part a : slash ∉ a → a ≠ [] → Exists (λ p, p ≠ []) (split a).
Proof. intros Ha Hne. rewrite split_part by done. by left. Qed.

Lemma pop_name_rev nm r name0 : slash ∉ nm →
  pop_name (nm ++ slash :: r) name0 = Ret (slash :: r, name0 ++ nm).
Proof.
  revert name0. induction nm as [|c nm IH]; intros name0 Hn; cbn.
  - change (slash =? slash) with true. by rewrite app_nil_r.
  - destruct (Z.eqb_spec c slash) as [->|Hc]; [by destruct Hn; left|].
    rewrite IH by (intros H; apply Hn; by right). by rewrite <- app_assoc.
Qed.

Section Walks.
Context {P : Profile} {C : FsCrates}.

Lemma walk_app open s r p q : walk open s r (p ++ q) =
  ('(c, s) ← walk open s r p;
   match c with Some c => walk open s c q | None => Ret (None, s) end).
Proof.
  revert s r. induction p as [|part p IH]; intros s r; [done|]. cbn [walk app].
  destruct (0 <? zlen part); [|apply IH]. destruct (open s r part) as [[[c|] s']|]; run; [apply IH|done|done].
Qed.

(** Looking up [a/b] is looking up [a] and from there [b]. *)
Lemma get_inode_join depth s a b : get_inode_by_path depth s (a ++ slash :: b) =
  ('(c, s) ← get_inode_by_path depth s a;
   match c with Some c => walk (node_open depth) s c (split b) | None => Ret (None, s) end).
Proof. unfold get_inode_by_path. by rewrite split_app, walk_app. Qed.

(** Nothing but the graph of inodes and the devices changes in a lookup. *)
Definition same_tables (s s' : Vfs) : Prop :=
  managers s' = managers s ∧ current s' = current s ∧ root s' = root s.

#[export] Instance same_tables_preorder : PreOrder same_tables.
Proof. split; [done|]. intros s1 s2 s3 (?&?&?) (?&?&?). by split_and!; etrans. Qed.

Lemma put_tables s r n s' : put s r n = Ret s' → same_tables s s'.
Proof. unfold put. destruct (store _ _ _); [|done]. by intros [= <-]. Qed.

Lemma when_mounted_tables s r p f s' : when_mounted s r p f = Ret s' → same_tables s s'.
Proof. unfold when_mounted. destruct (node s r); [|done]. apply put_tables. Qed.

Lemma Volume_new_tables s k d r s' : Volume_new s k d = Ret (r, s') → same_tables s s'.
Proof.
  unfold Volume_new. cbn. destruct (put _ _ _) as [s1|] eqn:E; [|done]. intros [= <- <-].
  apply put_tables in E. done.
Qed.

Lemma walk_tables open s r p x s' :
  (∀ s r n x s', open s r n = Ret (x, s') → same_tables s s') →
  walk open s r p = Ret (x, s') → same_tables s s'.
Proof.
  intros Ho. revert s r. induction p as [|part p IH]; intros s r; cbn; [by intros [= <- <-]|].
  destruct (0 <? zlen part); [|apply IH].
  destruct (open s r part) as [[[c|] s1]|] eqn:E; run; [|by intros [= <- <-]; eauto|done].
  intros Hw. transitivity s1; eauto.
Qed.

Lemma node_open_tables depth s r n x s' : node_open depth s r n = Ret (x, s') → same_tables s s'.
Proof.
  revert s r n x s'. induction depth as [|depth IH]; intros s r n x s'; cbn [node_open];
    destruct (node s r) as [[nodes p|k v p dir|p l]|]; run; try done; try (by intros [= <- <-]).
  destruct (walk _ _ _ _) as [[si s1]|] eqn:Ew; run; [|done].
  apply walk_tables in Ew; [|exact IH].
  destruct (v !! n); [by intros [= <- <-]|].
  destruct (crate_open _ _ _) as [[[[dir'|leaf]|] w]|]; run; try done; [| |by intros [= <- <-]].
  - destruct (Volume_new _ _ _) as [[i s2]|] eqn:Ev; run; [|done]. apply Volume_new_tables in Ev.
    destruct (when_mounted _ _ _ _) as [s3|] eqn:Em; run; [|done]. apply when_mounted_tables in Em.
    intros [= <- <-]. etrans; [exact Ew|]. etrans; [exact Ev|exact Em].
  - cbn [alloc]. destruct (when_mounted _ _ _ _) as [s3|] eqn:Em; run; [|done].
    apply when_mounted_tables in Em. intros [= <- <-]. etrans; [exact Ew|exact Em].
Qed.

Lemma get_inode_tables depth s p x s' : get_inode_by_path depth s p = Ret (x, s') → same_tables s s'.
Proof. apply walk_tables, node_open_tables. Qed.

End Walks.

(** ** Sequences of calls

    The calls a process makes, and the scheduler's switch to another process. *)

Inductive FsCall :=
  | COpen (path : Str) (mode : OpenMode)
  | CCreate (path : Str) (ty : InodeTy) (mode : OpenMode)
  | CRead (fd len : Z)
  | CWrite (fd : Z) (buf : list Z)
  | CLseek (fd offset : Z)
  | CClose (fd : Z)
  | CChdir (path : Str)
  | CList (path : Str)
  | CMount (to partition_path : Str)
  | CIoctl (fd cmd arg : Z)
  | CSwitch (pid : Z).

Section Calls.
Context {P : Profile} {C : FsCrates} (depth : nat).

(** A call; the descriptor it returns, if it makes one. *)
Definition call_step (s : Vfs) (c : FsCall) : out (option Z * Vfs) :=
  match c with
  | COpen path mode => open depth s path mode
  | CCreate path ty mode => create depth s path ty mode
  | CRead fd len => '(_, _, s) ← read s fd (replicate (Z.to_nat len) 0); Ret (None, s)
  | CWrite fd buf => '(_, s) ← write s fd buf; Ret (None, s)
  | CLseek fd offset => Ret (None, (lseek s fd offset).2)
  | CClose fd => Ret (None, (close s fd).2)
  | CChdir path => s ← change_cwd depth s path; Ret (None, s)
  | CList path => '(_, s) ← list_dir depth s path; Ret (None, s)
  | CMount to partition_path => '(_, s) ← mount depth s to partition_path; Ret (None, s)
  | CIoctl fd cmd arg => '(_, s) ← ioctl s fd cmd arg; Ret (None, s)
  | CSwitch pid => Ret (None, mkVfs _ (heap s) (root s) (managers s) pid (world s))
  end.

(** The open files of a process. *)
Definition entry (s : Vfs) (pid fd : Z) : option FileTuple :=
  m ← managers s !! pid; file_descriptors m !! fd.

(** What a call of process [cur] that returned [r] does to the open files [e]; [i] is
    the inode it opened. *)
Definition entry_after (cur : Z) (c : FsCall) (r : option Z) (i : InodeRef)
    (e : Z → Z → option FileTuple) (pid fd : Z) : option FileTuple :=
  if decide (pid = cur) then
    match c, r with
    | COpen _ mode, Some new | CCreate _ _ mode, Some new =>
        if decide (fd = new) then Some (mkFile i mode 0) else e pid fd
    | CLseek fd' offset, _ =>
        if decide (fd = fd') then (λ f, mkFile (file_inode f) (file_mode f) offset) <$> e pid fd
        else e pid fd
    | CClose fd', _ => if decide (fd = fd') then None else e pid fd
    | _, _ => e pid fd
    end
  else e pid fd.

Lemma entry_tables s s' pid fd : same_tables s s' → entry s' pid fd = entry s pid fd.
Proof. intros (Hm & _ & _). unfold entry. by rewrite Hm. Qed.

Lemma entry_put_manager s m pid fd : entry (put_manager s m) pid fd =
  if decide (pid = current s) then file_descriptors m !! fd else entry s pid fd.
Proof.
  unfold entry, put_manager, set_managers. cbn [managers]. rewrite lookup_insert.
  by repeat case_decide; subst.
Qed.

Lemma node_create_tables s r n t x s' : node_create depth s r n t = Ret (x, s') → same_tables s s'.
Proof.
  unfold node_create. destruct (node s r) as [[]|]; run; try done.
  destruct (crate_create _ _ _ _) as [[[u|] w]|]; run; [|by intros [= <- <-]|done].
  intros H. by apply node_open_tables in H.
Qed.

Lemma mount_to_tables s n t name s' : mount_to s n t name = Ret s' → same_tables s s'.
Proof.
  unfold mount_to. destruct (node_mount s t n name) as [s1|] eqn:E1; run; [|done].
  assert (same_tables s s1) as H1.
  { unfold node_mount in E1. destruct (node s t) as [[]|]; cbn in E1; try done; by apply put_tables in E1. }
  destruct (get_path s1 t); run; [|done]. intros H%when_mounted_tables. by etrans.
Qed.

Lemma new_volume_tables s d x s' : new_volume s d = Ret (x, s') → same_tables s s'.
Proof.
  unfold new_volume. destruct (open_volume Fat32 _ _) as [[[d1|] w1]|]; run; [| |done].
  - destruct (Volume_new _ _ _) as [[r s1]|] eqn:E; run; [|done]. apply Volume_new_tables in E.
    by intros [= <- <-].
  - destruct (open_volume Ext2 _ _) as [[[d1|] w2]|]; run; [|by intros [= <- <-]|done].
    destruct (Volume_new _ _ _) as [[r s1]|] eqn:E; run; [|done]. apply Volume_new_tables in E.
    by intros [= <- <-].
Qed.

Lemma mount_tables s t p x s' : mount depth s t p = Ret (x, s') → same_tables s s'.
Proof.
  unfold mount. destruct (get_inode_by_path depth s p) as [[[pi|] s1]|] eqn:E1; run; try done;
    apply get_inode_tables in E1; [|by intros [= <- <-]].
  destruct (pop_name _ _) as [[rf nm]|]; run; [|done].
  destruct (get_inode_by_path depth s1 _) as [[[tf|] s2]|] eqn:E2; run; try done;
    apply get_inode_tables in E2; [|intros [= <- <-]; by etrans].
  destruct (get_inode_by_path depth s2 _) as [[[ti|] s3]|] eqn:E3; run; try done;
    apply get_inode_tables in E3; [|intros [= <- <-]; by do 2 (etrans; [eassumption|])].
  destruct (get_path s3 ti); run; [|done]. destruct (pop_name _ _) as [[rf' nm']|]; run; [|done].
  destruct (new_volume s3 pi) as [[[v|] s4]|] eqn:E4; run; try done; apply new_volume_tables in E4.
  - destruct (mount_to _ _ _ _) as [s5|] eqn:E5; run; [|done]. apply mount_to_tables in E5.
    intros [= <- <-]. by do 4 (etrans; [eassumption|]).
  - intros [= <- <-]. by do 3 (etrans; [eassumption|]).
Qed.

(** [r] is the descriptor of a new file of the running process, or none. *)
Definition opened (s : Vfs) (mode : OpenMode) (r : option Z) (s' : Vfs) : Prop :=
  current s' = current s ∧
  match r with
  | None => managers s' = managers s
  | Some fd => ∃ m i, managers s !! current s = Some m ∧ fd = file_descriptor_allocator m ∧
      managers s' = <[current s := mkManager (<[fd := mkFile i mode 0]> (file_descriptors m))
        (wrap 64 (fd + 1)) (cwd m)]> (managers s)
  end.

Lemma put_opened s s1 m i mode : same_tables s s1 → get_file_descriptor_manager s = Some m →
  opened s mode (Some (file_descriptor_allocator m)) (put_manager s1 (add_inode m i mode).2).
Proof.
  intros (Hm & Hc & _) Hget. split; [done|]. exists m, i. split_and!; [done|done|].
  cbn. by rewrite Hm, Hc.
Qed.

Lemma open_opened s path mode r s' : open depth s path mode = Ret (r, s') → opened s mode r s'.
Proof.
  unfold open. destruct (get_file_descriptor_manager s) as [m|] eqn:Hm; [|by intros [= <- <-]].
  assert (∀ x s1, lookup_path depth s m path = Ret (x, s1) → same_tables s s1) as Hl.
  { intros x s1. unfold lookup_path. destruct (starts_with_slash path).
    - apply get_inode_tables.
    - destruct (manager_get_cwd s m); run; [|done]. apply get_inode_tables. }
  destruct (lookup_path depth s m path) as [[[i|] s1]|] eqn:E; run; [| |done];
    specialize (Hl _ _ eq_refl).
  - cbn. intros [= <- <-]. by apply put_opened.
  - intros [= <- <-]. by destruct Hl as (? & ? & ?).
Qed.

Lemma create_opened s path t mode r s' : create depth s path t mode = Ret (r, s') → opened s mode r s'.
Proof.
  unfold create. destruct (get_file_descriptor_manager s) as [m|] eqn:Hm; [|by intros [= <- <-]].
  match goal with |- context [mbind _ (if starts_with_slash path then ?a else ?b)] =>
    destruct (if starts_with_slash path then a else b) as [[pp nm]|] end; run; [|done].
  destruct (get_inode_by_path depth s pp) as [[[pi|] s1]|] eqn:E1; run; try done;
    apply get_inode_tables in E1.
  - destruct (node_create depth s1 pi nm t) as [[[i|] s2]|] eqn:E2; run; try done;
      apply node_create_tables in E2; cbn; intros [= <- <-].
    + apply put_opened; [by etrans|done].
    + assert (same_tables s s2) as (? & ? & ?) by (by etrans). done.
  - intros [= <- <-]. by destruct E1 as (? & ? & ?).
Qed.

Lemma read_tables s fd buf x b s' : read s fd buf = Ret (x, b, s') → same_tables s s'.
Proof.
  unfold read. destruct (get_file_descriptor_manager s) as [m|]; [|by intros [= <- <- <-]].
  destruct (file_descriptors m !! fd) as [f|]; [|by intros [= <- <- <-]].
  unfold node_read_at. destruct (node _ _) as [[]|]; run; try done; try by intros [= <- <- <-].
  destruct (leaf_read_at _ _ _ _) as [[[n b'] w]|]; run; [|done]. by intros [= <- <- <-].
Qed.

Lemma write_tables s fd buf x s' : write s fd buf = Ret (x, s') → same_tables s s'.
Proof.
  unfold write. destruct (get_file_descriptor_manager s) as [m|]; [|by intros [= <- <-]].
  destruct (file_descriptors m !! fd) as [f|]; [|by intros [= <- <-]].
  unfold node_write_at. destruct (file_mode f); [by intros [= <- <-]| |];
    destruct (node _ _) as [[]|]; run; try done; try (by intros [= <- <-]);
    destruct (leaf_write_at _ _ _ _) as [[n w]|]; run; try done; by intros [= <- <-].
Qed.

Lemma ioctl_tables s fd cmd arg x s' : ioctl s fd cmd arg = Ret (x, s') → same_tables s s'.
Proof.
  unfold ioctl. destruct (get_inode_by_fd s fd) as [i|]; [|by intros [= <- <-]].
  unfold node_ioctl. destruct (node _ _) as [[]|]; run; try done.
  destruct (leaf_ioctl _ _ _ _) as [[n w]|]; run; [|done]. by intros [= <- <-].
Qed.

Lemma list_dir_tables s path x s' : list_dir depth s path = Ret (x, s') → same_tables s s'.
Proof.
  assert (∀ s i x s', list_inode s i = Ret (x, s') → s' = s) as Hl.
  { clear. intros s [i|] x s'; cbn; [|by intros [= <- <-]].
    destruct (inode_type s i); run; [|done]. case_decide; [|by intros [= <- <-]].
    destruct (node_list s i); run; [|done]. by intros [= <- <-]. }
  assert (∀ s p x s', ('(i, s) ← get_inode_by_path depth s p; list_inode s i) = Ret (x, s') →
    same_tables s s') as Hg.
  { intros s0 p x0 s0'. destruct (get_inode_by_path depth s0 p) as [[i s1]|] eqn:E; run; [|done].
    apply get_inode_tables in E. by intros ->%Hl. }
  unfold list_dir. destruct (starts_with_slash path); [apply Hg|].
  destruct (get_file_descriptor_manager s); [|by intros [= <- <-]].
  destruct (manager_get_cwd _ _); run; [apply Hg|done].
Qed.

(** Changing directory keeps all open files. *)
Lemma change_cwd_entry s path s' : change_cwd depth s path = Ret s' →
  current s' = current s ∧ (∀ pid fd, entry s' pid fd = entry s pid fd) ∧
  ∀ pid m', managers s' !! pid = Some m' → ∃ m, managers s !! pid = Some m ∧
    file_descriptor_allocator m' = file_descriptor_allocator m.
Proof.
  assert (∀ s m p s', get_file_descriptor_manager s = Some m → manager_change_cwd depth s m p = Ret s' →
    current s' = current s ∧ (∀ pid fd, entry s' pid fd = entry s pid fd) ∧
    ∀ pid m', managers s' !! pid = Some m' → ∃ m, managers s !! pid = Some m ∧
      file_descriptor_allocator m' = file_descriptor_allocator m) as Hc.
  { clear s path s'. intros s m p s' Hm. unfold manager_change_cwd.
    destruct (get_inode_by_path depth s p) as [[[i|] s1]|] eqn:E; run; try done;
      apply get_inode_tables in E as Ht; pose proof Ht as (Hm1 & Hc1 & _).
    - destruct (inode_type s1 i) as [t|]; run; [|done]. case_decide; intros [= <-].
      + split; [done|]. split.
        * intros pid fd. rewrite entry_put_manager, Hc1. cbn. case_decide; subst.
          -- unfold entry. unfold get_file_descriptor_manager in Hm. by rewrite Hm.
          -- by apply entry_tables.
        * cbn. rewrite Hm1, Hc1. intros pid m' [[<- <-]|[Hne Hl]]%lookup_insert_Some; eauto.
      + rewrite Hm1. split_and!; eauto. intros. by apply entry_tables.
    - intros [= <-]. rewrite Hm1. split_and!; eauto. intros. by apply entry_tables. }
  unfold change_cwd. destruct (get_file_descriptor_manager s) as [m|] eqn:Hm.
  - destruct (starts_with_slash path); [by apply Hc|].
    destruct (manager_get_cwd s m); run; [by apply Hc|done].
  - intros [= <-]. split_and!; eauto.
Qed.

(** The allocators after a call. *)
Definition allocators (s : Vfs) (r : option Z) (s' : Vfs) : Prop :=
  (r = None ∨ is_Some (managers s' !! current s)) ∧
  ∀ pid m', managers s' !! pid = Some m' → ∃ m, managers s !! pid = Some m ∧
    match r with
    | Some fd => if decide (pid = current s) then
        fd = file_descriptor_allocator m ∧ file_descriptor_allocator m' = wrap 64 (fd + 1)
        else file_descriptor_allocator m' = file_descriptor_allocator m
    | None => file_descriptor_allocator m' = file_descriptor_allocator m
    end.

Lemma allocators_tables s s' : managers s' = managers s → allocators s None s'.
Proof. intros E. split; [by left|]. intros pid m'. rewrite E. eauto. Qed.

Lemma opened_allocators s mode r s' : opened s mode r s' → allocators s r s'.
Proof.
  unfold allocators. intros [Hc Hr]. destruct r as [fd|].
  - destruct Hr as (m & i & Hm & -> & ->). split; [right; by rewrite lookup_insert_eq|].
    intros pid m' [[<- <-]|[Hne Hl]]%lookup_insert_Some.
    + exists m. rewrite decide_True by done. done.
    + exists m'. by rewrite decide_False by done.
  - by apply allocators_tables.
Qed.

Lemma opened_entry s mode r s' (c : FsCall) :
  opened s mode r s' → (c = COpen (match c with COpen p _ => p | _ => [] end) mode ∨
    ∃ p t, c = CCreate p t mode) →
  ∃ i, ∀ pid fd, entry s' pid fd = entry_after (current s) c r i (entry s) pid fd.
Proof.
  intros [Hc Hr] Hcall. destruct r as [fd|].
  - destruct Hr as (m & i & Hm & -> & Hm'). exists i. intros pid fd. unfold entry, entry_after.
    rewrite Hm', lookup_insert. destruct (decide (pid = current s)) as [->|Hne].
    + rewrite decide_True by done. rewrite Hm.
      destruct Hcall as [->|(p & t & ->)]; cbn; rewrite lookup_insert; by repeat case_decide; subst.
    + by rewrite decide_False by done.
  - exists 0. intros pid fd. unfold entry, entry_after. rewrite Hr.
    destruct Hcall as [->|(p & t & ->)]; by case_decide.
Qed.

Lemma lseek_entry s fd' off pid fd : let s' := (lseek s fd' off).2 in
  current s' = current s ∧ allocators s None s' ∧
  entry s' pid fd = entry_after (current s) (CLseek fd' off) None 0 (entry s) pid fd.
Proof.
  unfold lseek, entry_after, get_file_descriptor_manager.
  destruct (managers s !! current s) as [m|] eqn:Hm; [destruct (file_descriptors m !! fd') as [f|] eqn:Hf|];
    cbv zeta; cbn [snd]; (split; [done|]); (split; [try by apply allocators_tables|]).
  - split; [by left|]. intros p m'. cbn. intros [[<- <-]|[Hne Hl]]%lookup_insert_Some; eauto.
  - rewrite entry_put_manager. case_decide; subst; [|done]. unfold entry. rewrite Hm. cbn.
    rewrite lookup_insert. repeat case_decide; subst; try done. by rewrite Hf.
  - repeat case_decide; subst; try done. unfold entry. rewrite Hm. cbn. by rewrite Hf.
  - repeat case_decide; subst; try done. unfold entry. by rewrite Hm.
Qed.

Lemma close_entry s fd' pid fd : let s' := (close s fd').2 in
  current s' = current s ∧ allocators s None s' ∧
  entry s' pid fd = entry_after (current s) (CClose fd') None 0 (entry s) pid fd.
Proof.
  unfold close, entry_after, get_file_descriptor_manager.
  destruct (managers s !! current s) as [m|] eqn:Hm; [destruct (file_descriptors m !! fd') as [f|] eqn:Hf|];
    cbv zeta; cbn [snd]; (split; [done|]); (split; [try by apply allocators_tables|]).
  - split; [by left|]. intros p m'. cbn. intros [[<- <-]|[Hne Hl]]%lookup_insert_Some; eauto.
  - rewrite entry_put_manager. case_decide; subst; [|done]. unfold entry. rewrite Hm. cbn.
    rewrite lookup_delete. by repeat case_decide; subst.
  - repeat case_decide; subst; try done. unfold entry. rewrite Hm. cbn. by rewrite Hf.
  - repeat case_decide; subst; try done. unfold entry. by rewrite Hm.
Qed.

(** One call: the running process, the allocators and the open files after it. *)
Lemma call_step_ok s c r s' : call_step s c = Ret (r, s') →
  current s' = match c with CSwitch pid => pid | _ => current s end ∧ allocators s r s' ∧
  ∃ i, ∀ pid fd, entry s' pid fd = entry_after (current s) c r i (entry s) pid fd.
Proof.
  assert (∀ s' c, same_tables s s' → (∀ pid fd, entry_after (current s) c None 0 (entry s) pid fd = entry s pid fd) →
    current s' = current s ∧ allocators s None s' ∧
    ∃ i, ∀ pid fd, entry s' pid fd = entry_after (current s) c None i (entry s) pid fd) as Hsame.
  { intros s1 c1 Ht He. pose proof Ht as (Hm & Hc & _). split; [done|].
    split; [by apply allocators_tables|]. exists 0. intros. rewrite He. by apply entry_tables. }
  destruct c as [path mode|path t mode|fd len|fd buf|fd off|fd|path|path|to pp|fd cmd arg|pid]; cbn [call_step].
  - intros H%open_opened. pose proof H as [Hc _]. split_and!; [done|by eapply opened_allocators|].
    eapply opened_entry; [done|]. by left.
  - intros H%create_opened. pose proof H as [Hc _]. split_and!; [done|by eapply opened_allocators|].
    eapply opened_entry; [done|]. right; eauto.
  - destruct (read s fd _) as [[[n b] s1]|] eqn:E; run; [|done]. intros [= <- <-].
    apply Hsame; [by eapply read_tables|]. intros; unfold entry_after; by case_decide.
  - destruct (write s fd buf) as [[n s1]|] eqn:E; run; [|done]. intros [= <- <-].
    apply Hsame; [by eapply write_tables|]. intros; unfold entry_after; by case_decide.
  - intros [= <- <-]. destruct (lseek_entry s fd off 0 0) as (H1 & H2 & _).
    split_and!; [done|done|]. exists 0. intros. by apply lseek_entry.
  - intros [= <- <-]. destruct (close_entry s fd 0 0) as (H1 & H2 & _).
    split_and!; [done|done|]. exists 0. intros. by apply close_entry.
  - destruct (change_cwd depth s path) as [s1|] eqn:E; run; [|done]. intros [= <- <-].
    apply change_cwd_entry in E as (Hc & He & Ha). split_and!; [done|by split; [left|]|].
    exists 0. intros. rewrite He. unfold entry_after. by case_decide.
  - destruct (list_dir depth s path) as [[l s1]|] eqn:E; run; [|done]. intros [= <- <-].
    apply Hsame; [by eapply list_dir_tables|]. intros; unfold entry_after; by case_decide.
  - destruct (mount depth s to pp) as [[l s1]|] eqn:E; run; [|done]. intros [= <- <-].
    apply Hsame; [by eapply mount_tables|]. intros; unfold entry_after; by case_decide.
  - destruct (ioctl s fd cmd arg) as [[l s1]|] eqn:E; run; [|done]. intros [= <- <-].
    apply Hsame; [by eapply ioctl_tables|]. intros; unfold entry_after; by case_decide.
  - intros [= <- <-]. split_and!; [done|by apply allocators_tables|].
    exists 0. intros. unfold entry_after. by case_decide.
Qed.

(** [C28] What each file system call does to the open files of all processes: opening
    and creating add the returned descriptor, at offset 0 and with the requested mode;
    seeking changes the offset of its descriptor and closing removes it; reading,
    writing, listing, mounting and changing directory leave every descriptor and
    offset as they are; and no call touches the files of another process. *)
Theorem fd_calls_spec (s : Vfs) (c : FsCall) (r : option Z) (s' : Vfs)
    (H : call_step s c = Ret (r, s')) :
  current s' = match c with CSwitch pid => pid | _ => current s end ∧
  ∃ i, ∀ pid fd, entry s' pid fd = entry_after (current s) c r i (entry s) pid fd.
Proof. by apply call_step_ok in H as (? & _ & ?). Qed.

(** The descriptors returned by a sequence of calls, with their processes. *)
Fixpoint run_calls (s : Vfs) (calls : list FsCall) : out (list (Z * Z) * Vfs) :=
  match calls with
  | [] => Ret ([], s)
  | c :: calls =>
      '(r, s') ← call_step s c;
      '(l, s'') ← run_calls s' calls;
      Ret (match r with Some fd => (current s, fd) :: l | None => l end, s'')
  end.

(** Every process has handed out the descriptors below its allocator. *)
Definition allocated (s : Vfs) (n : Z) : Prop :=
  ∀ pid m, managers s !! pid = Some m →
    3 ≤ file_descriptor_allocator m ∧ file_descriptor_allocator m + n < 2 ^ 64 ∧
    ∀ fd f, file_descriptors m !! fd = Some f → fd < file_descriptor_allocator m.

Lemma call_step_allocated s c r s' n : call_step s c = Ret (r, s') → 0 ≤ n →
  allocated s (1 + n) → allocated s' n.
Proof.
  intros Hstep Hn Ha. apply call_step_ok in Hstep as (Hc & Hal & i & He). intros pid m' Hm'.
  destruct Hal as [_ Hal]. destruct (Hal pid m' Hm') as (m & Hm & Hr). destruct (Ha pid m Hm) as (H3 & Hlt & Hfd).
  assert (file_descriptor_allocator m ≤ file_descriptor_allocator m' ≤ file_descriptor_allocator m + 1) as Hmono.
  { destruct r as [fd|]; [|lia]. case_decide; [|lia]. destruct Hr as [-> Hr].
    rewrite wrap_small in Hr by lia. lia. }
  split_and!; [lia|lia|]. intros fd f Hf.
  assert (entry s' pid fd = Some f) as Hf' by (unfold entry; by rewrite Hm').
  rewrite He in Hf'. unfold entry_after in Hf'.
  assert (entry s pid fd = file_descriptors m !! fd) as Hes by (unfold entry; by rewrite Hm).
  destruct (decide (pid = current s)) as [->|Hne]; [|rewrite Hes in Hf'; apply Hfd in Hf'; lia].
  destruct c, r; try (rewrite Hes in Hf'; apply Hfd in Hf'; lia);
    repeat case_decide; subst; try done; try (rewrite Hes in Hf'; apply Hfd in Hf'; lia).
  all: try (rewrite wrap_small in Hr by lia; lia).
  all: rewrite Hes in Hf'; destruct (file_descriptors m !! _) eqn:E; [|done]; apply Hfd in E; lia.
Qed.

Lemma run_calls_ok s calls l s' : allocated s (zlen calls) → run_calls s calls = Ret (l, s') →
  NoDup l ∧ ∀ pid fd, (pid, fd) ∈ l →
    ∃ m, managers s !! pid = Some m ∧ file_descriptor_allocator m ≤ fd.
Proof.
  revert s l. induction calls as [|c calls IH]; intros s l Ha; cbn.
  { intros [= <- <-]. split; [constructor|]. intros ? ? []%elem_of_nil. }
  destruct (call_step s c) as [[r s1]|] eqn:E; run; [|done].
  destruct (run_calls s1 calls) as [[l1 s2]|] eqn:E1; run; [|done]. intros [= <- <-].
  assert (zlen (c :: calls) = 1 + zlen calls) as Hz by (unfold zlen; cbn; lia). rewrite Hz in Ha.
  destruct (IH s1 l1) as [Hnd Hin]; [|done|].
  { eapply call_step_allocated; [done|apply zlen_nonneg|done]. }
  apply call_step_ok in E as (_ & [Hsome Hal] & _). pose proof (zlen_nonneg calls).
  assert (∀ pid fd, (pid, fd) ∈ l1 → ∃ m, managers s !! pid = Some m ∧
    file_descriptor_allocator m ≤ fd ∧ (pid = current s → ∀ x, r = Some x → x < fd)) as Hlow.
  { intros pid fd (m' & Hm' & Hle)%Hin. destruct (Hal pid m' Hm') as (m & Hm & Hr).
    destruct (Ha pid m Hm) as (H3 & Hlt & _). exists m. split; [done|].
    destruct r as [x|]; [|split; [lia|done]]. case_decide as Hp; [|split; [lia|done]].
    destruct Hr as [-> Hr]. rewrite wrap_small in Hr by lia. split; [lia|]. intros _ ? [= <-]. lia. }
  destruct r as [x|].
  - split.
    + constructor; [|done]. intros Hx. destruct (Hlow _ _ Hx) as (m & _ & _ & Hlt).
      specialize (Hlt eq_refl x eq_refl). lia.
    + intros pid fd [[= -> ->]|Hx]%elem_of_cons; [|by destruct (Hlow _ _ Hx) as (m & ? & ? & _); eauto].
      destruct Hsome as [?|[m' Hm']]; [done|]. destruct (Hal _ _ Hm') as (m & Hm & Hr).
      exists m. split; [done|]. rewrite decide_True in Hr by done. lia.
  - split; [done|]. intros pid fd Hx. by destruct (Hlow _ _ Hx) as (m & ? & ? & _); eauto.
Qed.

(** [C37] Descriptors are never reused: over any sequence of calls, interleaved between
    processes in any order, the descriptors returned to a process are pairwise
    distinct, are not 0, 1 or 2, and were not open before. *)
Theorem descriptors_unique (s : Vfs) (calls : list FsCall) (l : list (Z * Z)) (s' : Vfs)
    (Ha : allocated s (zlen calls)) (Hrun : run_calls s calls = Ret (l, s')) :
  NoDup l ∧ ∀ pid fd, (pid, fd) ∈ l → 3 ≤ fd ∧ entry s pid fd = None.
Proof.
  destruct (run_calls_ok s calls l s' Ha Hrun) as [Hnd Hin]. split; [done|].
  intros pid fd (m & Hm & Hle)%Hin. destruct (Ha pid m Hm) as (H3 & _ & Hfd). split; [lia|].
  unfold entry. rewrite Hm. cbn. destruct (file_descriptors m !! fd) as [f|] eqn:E; [|done].
  apply Hfd in E. lia.
Qed.

End Calls.

(** ** Names *)

Section Names.
Context {P : Profile} {C : FsCrates} (depth : nat).

(** A path through [RootFS] directories. *)
Inductive RootPath (s : Vfs) : InodeRef → list Str → InodeRef → Prop :=
  | root_here r : RootPath s r [] r
  | root_skip r parts r' : RootPath s r parts r' → RootPath s r ([] :: parts) r'
  | root_child r (part : Str) parts nodes p c r' :
      node s r = Ret (RootFS nodes p) → part ≠ [] → nodes !! part = Some c →
      RootPath s c parts r' → RootPath s r (part :: parts) r'.

Lemma node_open_root s r name nodes p : node s r = Ret (RootFS nodes p) →
  node_open depth s r name = Ret (nodes !! name, s).
Proof. intros Hn. destruct depth; cbn [node_open]; by rewrite Hn. Qed.

(** Such a path is what the lookup finds, without changing anything. *)
Lemma RootPath_walk s r parts r' : RootPath s r parts r' →
  walk (node_open depth) s r parts = Ret (Some r', s).
Proof.
  induction 1 as [r|r parts r' _ IH|r part parts nodes p c r' Hn Hp Hc _ IH]; [done|done|].
  cbn [walk]. rewrite (proj2 (Z.ltb_lt 0 (zlen part))) by (destruct part; unfold zlen; cbn; [done|lia]).
  rewrite (node_open_root _ _ _ _ _ Hn). run. rewrite Hc. exact IH.
Qed.

Lemma RootPath_app s r p r1 q r2 : RootPath s r p r1 → RootPath s r1 q r2 → RootPath s r (p ++ q) r2.
Proof. induction 1; intros; cbn; eauto using RootPath. Qed.

Lemma RootPath_app_inv s r p q r2 : RootPath s r (p ++ q) r2 →
  ∃ r1, RootPath s r p r1 ∧ RootPath s r1 q r2.
Proof.
  revert r. induction p as [|part p IH]; intros r H; [eauto using RootPath|].
  inversion H; subst; edestruct IH as (r1 & ? & ?); eauto using RootPath.
Qed.

Lemma RootPath_end s r r' : RootPath s r [[]] r' → r = r'.
Proof. inversion 1 as [|? ? ? H1|]; subst; [by inversion H1|done]. Qed.

(** An inode that answers to its own path. *)
Definition named (s : Vfs) (r : InodeRef) : Prop :=
  ∃ nodes p, node s r = Ret (RootFS nodes p) ∧ RootPath s (root s) (split p) r.

(** No directory has an entry for [n]. *)
Definition unlinked (s : Vfs) (n : InodeRef) : Prop :=
  root s ≠ n ∧ ∀ r nodes p k, r ≠ n → node s r = Ret (RootFS nodes p) → nodes !! k ≠ Some n.

(** Mounting a new directory, node by node. *)
Lemma mount_to_nodes s n to name nodes p nn np : n ≠ to →
  node s to = Ret (RootFS nodes p) → node s n = Ret (RootFS nn np) →
  ∃ s', mount_to s n to name = Ret s' ∧ root s' = root s ∧
    node s' to = Ret (RootFS (<[name := n]> nodes) p) ∧
    node s' n = Ret (RootFS (<[dotdot := to]> nn) (p ++ name ++ [slash])) ∧
    ∀ r, 0 ≤ r → r ≠ to → r ≠ n → node s' r = node s r.
Proof.
  intros Hne Ht Hn. unfold mount_to, node_mount. rewrite Ht. run. unfold put.
  pose proof (index_bounds _ _ _ Ht) as Hbt. pose proof (index_bounds _ _ _ Hn) as Hbn.
  rewrite store_ok by done. run.
  pose proof (store_ok (heap s) to (RootFS (<[name:=n]> nodes) p) Hbt) as E1.
  set (s1 := set_heap s _). assert (node s1 to = Ret (RootFS (<[name:=n]> nodes) p)) as Ht1
    by (by eapply index_store_eq). unfold get_path. rewrite Ht1. run.
  assert (node s1 n = Ret (RootFS nn np)) as Hn1.
  { unfold node, s1. cbn. rewrite (index_store_ne _ _ _ _ _ E1) by (done || lia). done. }
  unfold when_mounted. rewrite Hn1. run. unfold put.
  pose proof (store_zlen _ _ _ _ E1) as Hz.
  pose proof (store_ok (heap s1) n (RootFS (<[dotdot:=to]> nn) (p ++ name ++ [slash]))) as E2.
  rewrite E2 by (cbn; lia). run. specialize (E2 ltac:(cbn; lia)).
  eexists. split; [done|]. unfold node. cbn [heap root set_heap]. split; [done|].
  split; [rewrite (index_store_ne _ _ _ _ _ E2) by (done || lia); done|].
  split; [by eapply index_store_eq|]. intros r Hr Hrt Hrn.
  rewrite (index_store_ne _ _ _ _ _ E2) by congruence || lia.
  unfold s1. cbn [heap set_heap]. by rewrite (index_store_ne _ _ _ _ _ E1) by congruence || lia.
Qed.

(** Paths that do not meet the mounted inode stay. *)
Lemma RootPath_mount s s' n to name nodes p :
  node s to = Ret (RootFS nodes p) → nodes !! name = None →
  node s' to = Ret (RootFS (<[name := n]> nodes) p) →
  (∀ r, 0 ≤ r → r ≠ to → r ≠ n → node s' r = node s r) → unlinked s n →
  ∀ r parts r', RootPath s r parts r' → r ≠ n → RootPath s' r parts r' ∧ r' ≠ n.
Proof.
  intros Ht Hname Ht' Hsame [_ Hun] r parts r'.
  induction 1 as [r|r parts r' _ IH|r part parts nds q c r' Hn Hp Hc _ IH]; intros Hr.
  - split; [constructor|done].
  - destruct (IH Hr). split; [by constructor|done].
  - destruct IH as [IH1 IH2]. { intros ->. by eapply (Hun r nds q part). }
    split; [|done]. destruct (decide (r = to)) as [->|Hrt].
    + rewrite Ht in Hn. injection Hn as <- <-. econstructor; [exact Ht'|done| |done].
      rewrite lookup_insert_ne; [done|]. intros ->. congruence.
    + econstructor; [|done|exact Hc|done]. rewrite Hsame; [done| |done|done].
      apply index_bounds in Hn. lia.
Qed.

(** Mounting keeps names: when a new directory is mounted under a fresh name on a
    directory that answers to its path, the call returns, the new directory answers to
    the path it was given, its parent's path and the name, and every directory that
    answered to its path still does. *)
Theorem mount_keeps_names (s : Vfs) (n to : InodeRef) (name : Str) nodes p nn np
    (Hto : node s to = Ret (RootFS nodes p)) (Hnamed : named s to)
    (Hn : node s n = Ret (RootFS nn np)) (Hun : unlinked s n)
    (Hname : nodes !! name = None) (Hslash : slash ∉ name) (Hne : name ≠ [])
    (Hend : ∃ q, p = q ++ [slash]) :
  ∃ s', mount_to s n to name = Ret s' ∧
    get_path s' n = Ret (p ++ name ++ [slash]) ∧
    get_inode_by_path depth s' (p ++ name ++ [slash]) = Ret (Some n, s') ∧
    named s' n ∧ ∀ r, r ≠ n → named s r → named s' r.
Proof.
  destruct Hnamed as (nds & q & Hto' & Hpath). rewrite Hto in Hto'. injection Hto' as <- <-.
  destruct Hun as [Hrn Hun]. assert (n ≠ to) as Hnt.
  { intros ->. destruct Hend as [q ->].
    assert (∀ r parts r', RootPath s r parts r' → r ≠ to → r' ≠ to) as Hkeep.
    { induction 1 as [| |? ? ? ? ? ? ? Hx ? ? ? IH]; auto. intros Hr. apply IH.
      intros ->. by eapply Hun. }
    by eapply Hkeep. }
  destruct (mount_to_nodes s n to name nodes p nn np Hnt Hto Hn) as (s' & -> & Hroot & Ht' & Hn' & Hsame).
  exists s'. split; [done|].
  assert (∀ r, r ≠ n → RootPath s (root s) (split (match node s r with Ret (RootFS _ q) => q | _ => [] end)) r →
    RootPath s' (root s') (split (match node s r with Ret (RootFS _ q) => q | _ => [] end)) r) as Hkeep.
  { intros r Hr Hp. rewrite Hroot. by eapply (RootPath_mount s s' n to name nodes p). }
  assert (RootPath s' (root s') (split (p ++ name ++ [slash])) n) as Hnew.
  { pose proof (Hkeep to) as Hk. rewrite Hto in Hk. specialize (Hk (not_eq_sym Hnt) Hpath).
    destruct Hend as [q ->]. rewrite <- app_assoc. cbn [app]. rewrite split_app in Hk |- *.
    rewrite split_app, (split_part name) by done.
    apply RootPath_app_inv in Hk as (r1 & Hk & <-%RootPath_end). apply RootPath_app with r1; [done|].
    econstructor; [exact Ht'|done|apply lookup_insert_eq|]. repeat constructor. }
  split_and!.
  - unfold get_path. by rewrite Hn'.
  - by apply RootPath_walk.
  - eexists _, _. split; [exact Hn'|done].
  - intros r Hr (nds & q & Hq & Hpq). pose proof (Hkeep r Hr) as Hk. rewrite Hq in Hk.
    destruct (decide (r = to)) as [->|Hrt].
    + rewrite Hto in Hq. injection Hq as <- <-. eexists _, _. split; [exact Ht'|by apply Hk].
    + eexists _, _. split; [|by apply Hk]. rewrite Hsame; [exact Hq| |done|done].
      apply index_bounds in Hq. lia.
Qed.

Lemma starts_with_slash_app a b : starts_with_slash a = true → starts_with_slash (a ++ b) = true.
Proof. by destruct a. Qed.

(** Creating a file by its absolute path creates it under its name reversed: the
    characters are taken from the end of the path one by one and never put back in
    order. *)
Theorem create_reverses (s s1 : Vfs) (m : FileDescriptorManager) (dirname nm : Str) (ty : InodeTy)
    (mode : OpenMode) (parent : InodeRef) kind virtual path dir
    (Hm : get_file_descriptor_manager s = Some m)
    (Habs : starts_with_slash dirname = true) (Hnm : slash ∉ nm)
    (Hdir : get_inode_by_path depth s (dirname ++ [slash]) = Ret (Some parent, s1))
    (Hparent : node s1 parent = Ret (Volume kind virtual path dir)) :
  create depth s (dirname ++ slash :: nm) ty mode =
    ('(r, w) ← crate_create (world s1) dir (rev nm) ty;
     match r with
     | None => Ret (None, set_world s1 w)
     | Some _ =>
         '(i, s2) ← node_open depth (set_world s1 w) parent (rev nm);
         match i with
         | None => Ret (None, s2)
         | Some i => Ret (Some (file_descriptor_allocator m), put_manager s2 (add_inode m i mode).2)
         end
     end).
Proof.
  unfold create. rewrite Hm, starts_with_slash_app by done.
  rewrite rev_app_distr. cbn [rev]. rewrite <- app_assoc. cbn [app].
  rewrite pop_name_rev by (rewrite list_elem_of_In, <- in_rev, <- list_elem_of_In; done). run. cbn [app rev]. rewrite rev_involutive.
  rewrite Hdir. run. unfold node_create. rewrite Hparent. run.
  by destruct (crate_create _ _ _ _) as [[[u|] w]|].
Qed.

(** Opening a path below something that is not a directory, such as the terminal
    or a disk, makes the kernel panic: those inodes keep the trait's [open], which is
    [unimplemented!()]. *)
Theorem open_below_leaf_panics (s s1 : Vfs) (m : FileDescriptorManager) (a b : Str)
    (mode : OpenMode) (r : InodeRef) path leaf
    (Hm : get_file_descriptor_manager s = Some m)
    (Habs : starts_with_slash a = true) (Hb : slash ∉ b) (Hne : b ≠ [])
    (Ha : get_inode_by_path depth s a = Ret (Some r, s1))
    (Hleaf : node s1 r = Ret (Leaf path leaf)) :
  open depth s (a ++ slash :: b) mode = Panic.
Proof.
  unfold open, lookup_path. rewrite Hm, starts_with_slash_app, get_inode_join, Ha by done. run.
  rewrite split_part by done. cbn [walk].
  rewrite (proj2 (Z.ltb_lt 0 (zlen b))) by (destruct b; unfold zlen; cbn; [done|lia]).
  assert (node_open depth s1 r b = Panic) as ->; [|done].
  destruct depth; cbn [node_open]; by rewrite Hleaf.
Qed.

End Names.

(** ** Examples: a volume that remembers what was created *)

#[export] Instance toy_crates : FsCrates := {|
  World := list (Str * InodeTy);
  CDir := unit;
  CLeaf := Z;
  crate_open w _ name :=
    Ret (match list_find (λ e, e.1 = name) w with
         | Some (_, (_, Dir)) => Some (inl tt)
         | Some (_, (_, File)) => Some (inr 0)
         | None => None
         end, w);
  crate_create w _ name ty := Ret (Some tt, (name, ty) :: w);
  crate_list w _ := Ret ((λ e, mkFileInfo e.2 e.1) <$> w);
  leaf_read_at w _ _ buf := Ret (0, buf, w);
  leaf_write_at w _ _ buf := Ret (zlen buf, w);
  leaf_size _ _ := Ret 0;
  leaf_ioctl w _ _ _ := Ret (0, w);
  open_volume _ w _ := Ret (Some tt, w);
|}.

Section Examples.
#[local] Existing Instance dev.

(** The root, with a terminal [t], a volume [v] and an unmounted directory; process 7. *)
Definition small_vfs : Vfs := mkVfs toy_crates
  [RootFS {[ dot := 0; [116] := 1; [118] := 2 ]} [slash];
   Leaf [slash; 116; slash] 5;
   Volume Fat32 {[ dot := 2; dotdot := 0 ]} [slash; 118; slash] tt;
   RootFS {[ dot := 3 ]} []]
  0 {[ 7 := mkManager {[ 0 := mkFile 1 Read 0 ]} 3 0 ]} 7 [].

Lemma fd_calls_spec_witness :
  ∃ r s', call_step 2 small_vfs (COpen [slash; 116] Read) = Ret (r, s') ∧ current s' = 7 ∧
    ∃ i, ∀ pid fd, entry s' pid fd = entry_after 7 (COpen [slash; 116] Read) r i (entry small_vfs) pid fd.
Proof.
  eexists _, _. split; [vm_compute; reflexivity|].
  apply (fd_calls_spec 2 small_vfs (COpen [slash; 116] Read)). vm_compute. reflexivity.
Defined.

Definition sample_calls : list FsCall :=
  [COpen [slash; 116] Read; CCreate [slash; 118; slash; 97; 98] File Write; CClose 3;
   COpen [116] Read; CLseek 4 10; CRead 4 2].

Lemma descriptors_unique_witness :
  ∃ s', run_calls 2 small_vfs sample_calls = Ret ([(7, 3); (7, 4); (7, 5)], s') ∧
    NoDup [(7, 3); (7, 4); (7, 5)] ∧
    ∀ pid fd, (pid, fd) ∈ [(7, 3); (7, 4); (7, 5)] → 3 ≤ fd ∧ entry small_vfs pid fd = None.
Proof.
  assert (∃ s', run_calls 2 small_vfs sample_calls = Ret ([(7, 3); (7, 4); (7, 5)], s')) as [s' E]
    by (eexists; vm_compute; reflexivity).
  exists s'. split; [exact E|]. apply (descriptors_unique 2 small_vfs sample_calls _ s'); [|exact E].
  intros pid m Hm. cbn in Hm. apply lookup_singleton_Some in Hm as [<- <-]. cbn.
  split_and!; [lia|unfold zlen; cbn; lia|].
  intros fd f Hf. apply lookup_singleton_Some in Hf as [<- <-]. lia.
Defined.

Lemma mount_keeps_names_witness :
  ∃ s', mount_to small_vfs 3 0 [109] = Ret s' ∧
    get_path s' 3 = Ret [slash; 109; slash] ∧
    get_inode_by_path 2 s' [slash; 109; slash] = Ret (Some 3, s') ∧
    named s' 3 ∧ ∀ r, r ≠ 3 → named small_vfs r → named s' r.
Proof.
  apply (mount_keeps_names 2 small_vfs 3 0 [109] {[ dot := 0; [116] := 1; [118] := 2 ]} [slash]
    {[ dot := 3 ]} []).
  - reflexivity.
  - eexists _, _. split; [reflexivity|]. cbn. repeat constructor.
  - reflexivity.
  - split; [done|]. intros r nodes p k Hr Hn. apply index_Ret in Hn as [Hr0 Hn]. cbn in Hn.
    destruct (Z.to_nat r) as [|[|[|[|]]]] eqn:E; cbn in Hn; try done; [|lia].
    injection Hn as <- <-. intros Hk. do 2 (apply lookup_insert_Some in Hk as [[_ ?]|[_ Hk]]; [done|]).
    by apply lookup_singleton_Some in Hk as [_ ?].
  - reflexivity.
  - intros [H|H]%elem_of_cons; [done|by apply elem_of_nil in H].
  - done.
  - by exists [].
Defined.

(** The file [ab] becomes [ba]. *)
Lemma create_reverses_witness :
  create 2 small_vfs [slash; 118; slash; 97; 98] File Write =
    ('(r, w) ← Ret (Some tt, [([98; 97], File)]);
     match r with
     | None => Ret (None, set_world small_vfs w)
     | Some _ =>
         '(i, s2) ← node_open 2 (set_world small_vfs w) 2 [98; 97];
         match i with
         | None => Ret (None, s2)
         | Some i => Ret (Some 3, put_manager s2 (add_inode (mkManager {[ 0 := mkFile 1 Read 0 ]} 3 0) i Write).2)
         end
     end).
Proof.
  apply (create_reverses 2 small_vfs small_vfs (mkManager {[ 0 := mkFile 1 Read 0 ]} 3 0)
    [slash; 118] [97; 98] File Write 2 Fat32 {[ dot := 2; dotdot := 0 ]} [slash; 118; slash] tt);
    try (vm_compute; reflexivity).
  intros [H|[H|H]%elem_of_cons]%elem_of_cons; [done|done|by apply elem_of_nil in H].
Defined.

Lemma open_below_leaf_panics_witness : open 2 small_vfs [slash; 116; slash; 120] Read = Panic.
Proof.
  apply (open_below_leaf_panics 2 small_vfs small_vfs (mkManager {[ 0 := mkFile 1 Read 0 ]} 3 0)
    [slash; 116] [120] Read 1 [slash; 116; slash] 5); try (vm_compute; reflexivity).
  - intros [H|H]%elem_of_cons; [done|by apply elem_of_nil in H].
  - done.
Defined.

End Examples.
