(* ===== verification/Task.v ===== *)
(** * Threads, processes and the scheduler

    [kernel/src/task]: contexts, threads, processes and the round-robin scheduler of
    [scheduler.rs], with the system calls [exit], [execve], [kill_process] and
    [is_exited] of [kernel/src/syscall/operations.rs]. Threads and processes are
    reference counted: the scheduler holds weak references, a process owns its
    threads, and the list of processes owns the processes. *)

From S2P Require Import Prelude.

(** ** Contexts *)

(** The registers a context holds, in the order of the struct [Context]. *)
Inductive Reg :=
  | CR3 | R15 | R14 | R13 | R12 | R11 | R10 | R9 | R8 | RBP | RSI | RDI | RDX | RCX | RBX | RAX
  | RIP | CS | RFLAGS | RSP | SS.
#[export] Instance Reg_eq_dec : EqDecision Reg.
Proof. solve_decision. Defined.

Definition Context : Type := Reg → Z.
Definition Context_default : Context := λ _, 0.

Definition context_layout : list Reg :=
  [CR3; R15; R14; R13; R12; R11; R10; R9; R8; RBP; RSI; RDI; RDX; RCX; RBX; RAX;
   RIP; CS; RFLAGS; RSP; SS].

Definition set_reg (c : Context) (r : Reg) (v : Z) : Context := λ r', if decide (r' = r) then v else c r'.

(** [Context::init] *)
Definition Context_init (self : Context) (entry_point stack_end_address page_table_address : Z)
    (segment_selectors : Z * Z) : Context :=
  let self := set_reg self RFLAGS 0x200 in
  let self := set_reg self RIP entry_point in
  let self := set_reg self RSP stack_end_address in
  let self := set_reg self CR3 page_table_address in
  let self := set_reg self CS segment_selectors.1 in
  set_reg self SS segment_selectors.2.

(** [Context::from_address]: the words at an address, in the order of the struct. *)
Definition from_address (memory : Z → Z) (address : Z) : Context := λ r,
  match list_find (r =.) context_layout with
  | Some (i, _) => memory (address + 8 * Z.of_nat i)
  | None => 0
  end.

(** *** Saving and restoring

    The instructions of the macros [push_context!] and [pop_context!], on a processor
    with its registers and the stack (the top first). *)

Inductive Instr := Push (r : Reg) | Pop (r : Reg) | Mov (dst src : Reg).

Definition exec (m : (Reg → Z) * list Z) (i : Instr) : out ((Reg → Z) * list Z) :=
  let '(regs, stack) := m in
  match i with
  | Push r => Ret (regs, regs r :: stack)
  | Pop r => match stack with v :: stack => Ret (set_reg regs r v, stack) | [] => Panic end
  | Mov dst src => Ret (set_reg regs dst (regs src), stack)
  end.

Definition push_context : list Instr :=
  [Push RAX; Push RBX; Push RCX; Push RDX; Push RDI; Push RSI; Push RBP; Push R8; Push R9; Push R10;
   Push R11; Push R12; Push R13; Push R14; Push R15; Mov R15 CR3; Push R15].

Definition pop_context : list Instr :=
  [Pop R15; Mov CR3 R15; Pop R15; Pop R14; Pop R13; Pop R12; Pop R11; Pop R10; Pop R9; Pop R8;
   Pop RBP; Pop RSI; Pop RDI; Pop RDX; Pop RCX; Pop RBX; Pop RAX].

(** ** Threads and processes *)

(** A thread; its kernel stack by the address of its end, its process by its id. *)
Record Thread := mkThread {
  kernel_stack : Z;
  context : Context;
  process : Z;
  fsbase : Z;
}.

Record Process := mkProcess { proc_threads : list Z; args_value : Z; args_len : Z }.

(** [KERNEL_PROCESS] has the first id. *)
Definition KERNEL_PROCESS : Z := 0.

(** The kernel: the threads and processes that are alive, [PROCESSES], the scheduler's
    [current_threads] and [ready_threads], the processors' FS base and ring 0 stack,
    and the next ids. *)
Record Kernel := mkKernel {
  threads : gmap Z Thread;
  processes : gmap Z Process;
  PROCESSES : list Z;
  current_threads : gmap Z Z;
  ready_threads : list Z;
  cpu_fsbase : Z → Z;
  ring0_rsp : Z → Z;
  next_thread_id : Z;
  next_process_id : Z;
}.

Definition set_threads (k : Kernel) (x : gmap Z Thread) : Kernel :=
  mkKernel x (processes k) (PROCESSES k) (current_threads k) (ready_threads k) (cpu_fsbase k)
    (ring0_rsp k) (next_thread_id k) (next_process_id k).
Definition set_processes (k : Kernel) (x : gmap Z Process) (l : list Z) : Kernel :=
  mkKernel (threads k) x l (current_threads k) (ready_threads k) (cpu_fsbase k)
    (ring0_rsp k) (next_thread_id k) (next_process_id k).
Definition set_ready (k : Kernel) (x : list Z) : Kernel :=
  mkKernel (threads k) (processes k) (PROCESSES k) (current_threads k) x (cpu_fsbase k)
    (ring0_rsp k) (next_thread_id k) (next_process_id k).
Definition set_current (k : Kernel) (x : gmap Z Z) : Kernel :=
  mkKernel (threads k) (processes k) (PROCESSES k) x (ready_threads k) (cpu_fsbase k)
    (ring0_rsp k) (next_thread_id k) (next_process_id k).
Definition set_cpu (k : Kernel) (fs sp : Z → Z) : Kernel :=
  mkKernel (threads k) (processes k) (PROCESSES k) (current_threads k) (ready_threads k) fs
    sp (next_thread_id k) (next_process_id k).
Definition set_ids (k : Kernel) (t p : Z) : Kernel :=
  mkKernel (threads k) (processes k) (PROCESSES k) (current_threads k) (ready_threads k)
    (cpu_fsbase k) (ring0_rsp k) t p.

(** [weak.upgrade()]: the thread, when it is alive. *)
Definition upgrade (k : Kernel) (t : Z) : option Thread := threads k !! t.

Definition set_context (th : Thread) (c : Context) : Thread :=
  mkThread (kernel_stack th) c (process th) (fsbase th).
Definition set_fsbase (th : Thread) (v : Z) : Thread :=
  mkThread (kernel_stack th) (context th) (process th) v.

Definition upd (f : Z → Z) (i v : Z) : Z → Z := λ j, if j =? i then v else f j.

(** [Thread::save_fsbase] and [Thread::restore_fsbase] on a processor; RDFSBASE and
    the MSR name the same register. *)
Definition save_fsbase (k : Kernel) (cpu t : Z) : out Kernel :=
  th ← unwrap (upgrade k t);
  Ret (set_threads k (<[t := set_fsbase th (cpu_fsbase k cpu)]> (threads k))).

Definition restore_fsbase (k : Kernel) (cpu : Z) (th : Thread) : Kernel :=
  set_cpu k (upd (cpu_fsbase k) cpu (fsbase th)) (ring0_rsp k).

Section Tasks.
Context (kernel_segments user_segments : Z * Z) (kernel_page_table : Z).

(** [Thread::new], the shared thread, and its place in its process. The end of a new
    kernel stack is an address the allocator gives. *)
Definition add_thread (k : Kernel) (pid : Z) (th : Thread) : out (Z * Kernel) :=
  let t := next_thread_id k in
  p ← unwrap (processes k !! pid);
  let k := set_threads k (<[t := th]> (threads k)) in
  let p := mkProcess (proc_threads p ++ [t]) (args_value p) (args_len p) in
  let k := set_processes k (<[pid := p]> (processes k)) (PROCESSES k) in
  Ret (t, set_ids k (wrap 64 (t + 1)) (next_process_id k)).

Definition get_init_thread (k : Kernel) (stack : Z) : out (Z * Kernel) :=
  add_thread k KERNEL_PROCESS (mkThread stack Context_default KERNEL_PROCESS 0).

(** [Scheduler::add] *)
Definition add (k : Kernel) (t : Z) : Kernel := set_ready k (ready_threads k ++ [t]).

Definition new_kernel_thread (k : Kernel) (function stack : Z) : out Kernel :=
  let c := Context_init Context_default function stack kernel_page_table kernel_segments in
  '(t, k) ← add_thread k KERNEL_PROCESS (mkThread stack c KERNEL_PROCESS 0);
  Ret (add k t).

Definition USER_STACK_END : Z := 0x7fff_feff_f000.

Definition new_user_thread (k : Kernel) (cpu pid entry_point page_table stack : Z) : out Kernel :=
  let c := Context_init Context_default entry_point USER_STACK_END page_table user_segments in
  '(t, k) ← add_thread k pid (mkThread stack c pid (cpu_fsbase k cpu));
  Ret (add k t).

(** [Process::new_user_process]; [binary] is the parsed program, its entry point and
    the page table its segments were mapped into. *)
Definition new_user_process (k : Kernel) (cpu : Z) (binary : option (Z * Z)) (stack : Z) :
    out (option Z * Kernel) :=
  match binary with
  | None => Ret (None, k)
  | Some (entry, page_table) =>
      let pid := next_process_id k in
      let k := set_ids k (next_thread_id k) (wrap 64 (pid + 1)) in
      let k := set_processes k (<[pid := mkProcess [] 0 0]> (processes k)) (PROCESSES k) in
      k ← new_user_thread k cpu pid entry page_table stack;
      Ret (Some pid, set_processes k (processes k) (PROCESSES k ++ [pid]))
  end.

Definition execve (k : Kernel) (cpu : Z) (binary : option (Z * Z)) (stack args_ptr args_len : Z) :
    out (Z * Kernel) :=
  '(r, k) ← new_user_process k cpu binary stack;
  match r with
  | None => Ret (usize_max, k)
  | Some pid =>
      p ← unwrap (processes k !! pid);
      Ret (pid, set_processes k (<[pid := mkProcess (proc_threads p) args_ptr args_len]> (processes k))
        (PROCESSES k))
  end.

(** [Scheduler::find] *)
Definition find (k : Kernel) (pid : Z) : out (option Z) :=
  findM (λ t, th ← unwrap (upgrade k t); _ ← unwrap (processes k !! process th);
    Ret (process th =? pid)) (ready_threads k).

(** [Scheduler::remove] *)
Definition remove (k : Kernel) (thread : Z) : out Kernel :=
  l ← foldM (λ l other,
    _ ← unwrap (upgrade k other);
    _ ← unwrap (upgrade k thread);
    Ret (if negb (other =? thread) then l ++ [other] else l)) [] (ready_threads k);
  Ret (set_ready k l).

Definition current_thread (k : Kernel) (cpu : Z) : out Z := unwrap (current_threads k !! cpu).

(** [Process::exit_process] *)
Definition exit_process (k : Kernel) (pid : Z) : Kernel :=
  match list_find (pid =.) (PROCESSES k) with
  | Some (i, _) => set_processes k (processes k) (delete i (PROCESSES k))
  | None => k
  end.

(** The last reference to a process outside of [PROCESSES] goes: unless it is listed
    there, or is the kernel, it is dropped with its threads. *)
Definition release (k : Kernel) (pid : Z) : Kernel :=
  if existsb (Z.eqb pid) (PROCESSES k) || (pid =? KERNEL_PROCESS) then k
  else match processes k !! pid with
  | Some p => set_processes (set_threads k (foldr delete (threads k) (proc_threads p)))
      (delete pid (processes k)) (PROCESSES k)
  | None => k
  end.

(** [thread.process.upgrade()], [exit_process], and the drop of the references. *)
Definition exit_process_of (k : Kernel) (t : Z) : Kernel :=
  match upgrade k t with
  | Some th =>
      match processes k !! process th with
      | Some _ => release (exit_process k (process th)) (process th)
      | None => k
      end
  | None => k
  end.

(** The system call [exit]. *)
Definition exit (k : Kernel) (cpu : Z) : out (Z * Kernel) :=
  thread ← current_thread k cpu;
  k ← remove k thread;
  Ret (0, exit_process_of k thread).

Definition kill_process (k : Kernel) (pid : Z) : out (Z * Kernel) :=
  thread ← find k pid;
  match thread with
  | None => Ret (0, k)
  | Some thread => k ← remove k thread; Ret (0, exit_process_of k thread)
  end.

Definition is_process_exited (k : Kernel) (pid : Z) : bool := negb (existsb (Z.eqb pid) (PROCESSES k)).

(** [Scheduler::schedule]: the context to continue with. *)
Definition schedule (k : Kernel) (lapic_id : Z) (ctx : Context) : out (Context * Kernel) :=
  cur ← unwrap (current_threads k !! lapic_id);
  let '(last_thread, k) := match upgrade k cur with
    | Some th => (Some cur, set_threads k (<[cur := set_context th ctx]> (threads k)))
    | None => (None, k)
    end in
  k ← match ready_threads k with
    | next_thread :: rest =>
        let k := set_ready (set_current k (<[lapic_id := next_thread]> (current_threads k))) rest in
        match last_thread with
        | Some last_thread =>
            k ← save_fsbase k lapic_id last_thread;
            Ret (set_ready k (ready_threads k ++ [last_thread]))
        | None => Ret k
        end
    | [] => Ret k
    end;
  cur ← unwrap (current_threads k !! lapic_id);
  next_thread ← unwrap (upgrade k cur);
  let k := restore_fsbase k lapic_id next_thread in
  let k := set_cpu k (cpu_fsbase k) (upd (ring0_rsp k) lapic_id (kernel_stack next_thread)) in
  Ret (context next_thread, k).

End Tasks.

(** ** Saving and restoring a context *)

(** The macros save and restore a context: pushing the registers lays them out in
    memory as the fields of [Context], below the frame the processor pushed, and
    popping that memory restores every register and the page table, leaving the frame
    on the stack. *)
Theorem context_roundtrip (regs other : Reg → Z) (frame : list Z) :
  ∃ regs', foldM exec (regs, frame) push_context = Ret (regs', (regs <$> take 16 context_layout) ++ frame) ∧
    (∀ r, r ≠ R15 → regs' r = regs r) ∧
    ∃ restored, foldM exec (other, (regs <$> take 16 context_layout) ++ frame) pop_context =
        Ret (restored, frame) ∧
      (∀ r, r ∈ take 16 context_layout → restored r = regs r) ∧
      ∀ r, r ∉ take 16 context_layout → restored r = other r.
Proof.
  eexists. split; [reflexivity|]. split.
  { intros r Hr. unfold set_reg. by rewrite decide_False by done. }
  eexists. split; [reflexivity|]. cbn [take context_layout].
  split; intros r Hr; destruct r; unfold set_reg; repeat (rewrite decide_True by done || rewrite decide_False by done);
    try done; exfalso; rewrite list_elem_of_In in Hr; cbn in Hr; intuition congruence.
Qed.

(** ** The scheduler's invariant *)

Record Inv (k : Kernel) : Prop := {
  inv_ready : ∀ t, t ∈ ready_threads k → is_Some (threads k !! t);
  inv_ready_once : NoDup (ready_threads k);
  inv_running : ∀ cpu t, current_threads k !! cpu = Some t → t ∉ ready_threads k;
  inv_running_once : ∀ cpu cpu' t, current_threads k !! cpu = Some t →
    current_threads k !! cpu' = Some t → cpu = cpu';
  inv_thread_ids : ∀ t, is_Some (threads k !! t) ∨ (∃ cpu, current_threads k !! cpu = Some t) →
    t < next_thread_id k;
  inv_process_ids : ∀ pid, is_Some (processes k !! pid) → pid < next_process_id k;
  inv_owner : ∀ t th, threads k !! t = Some th → ∃ p, processes k !! process th = Some p;
  inv_owned : ∀ pid p t, processes k !! pid = Some p → t ∈ proc_threads p →
    ∃ th, threads k !! t = Some th ∧ process th = pid;
  inv_single : ∀ pid p, pid ≠ KERNEL_PROCESS → processes k !! pid = Some p →
    ∃ t, proc_threads p = [t] ∧ ∀ t' th, threads k !! t' = Some th → process th = pid → t' = t;
  inv_listed : ∀ pid, pid ≠ KERNEL_PROCESS → pid ∈ PROCESSES k ↔ is_Some (processes k !! pid);
  inv_listed_once : NoDup (PROCESSES k);
  inv_listed_ids : ∀ pid, pid ∈ PROCESSES k → pid < next_process_id k;
  inv_kernel : is_Some (processes k !! KERNEL_PROCESS) ∧ 0 < next_process_id k ∧ 0 ≤ next_thread_id k;
  inv_scheduled : ∀ t th, threads k !! t = Some th → process th ≠ KERNEL_PROCESS →
    t ∈ ready_threads k ∨ ∃ cpu, current_threads k !! cpu = Some t;
}.

(** A processor can go on: it runs a live thread, or one is ready. *)
Definition can_run (k : Kernel) (cpu : Z) : Prop :=
  ∃ t, current_threads k !! cpu = Some t ∧ (is_Some (threads k !! t) ∨ ready_threads k ≠ []).

(** Changes of a thread that keep its process keep the invariant. *)
Lemma Inv_update_thread k t th th' : Inv k → threads k !! t = Some th → process th' = process th →
  Inv (set_threads k (<[t := th']> (threads k))).
Proof.
  intros HI Ht Hp. destruct HI. split; cbn [threads set_threads processes PROCESSES current_threads
    ready_threads next_thread_id next_process_id] in *; try done.
  - intros t' [x Hx]%inv_ready0. destruct (decide (t' = t)) as [->|]; [rewrite lookup_insert_eq; eauto|].
    rewrite lookup_insert_ne by done. eauto.
  - intros t' [[x Hx]|Hc]; apply inv_thread_ids0; [|by right]. left.
    apply lookup_insert_Some in Hx as [[<- _]|[_ ?]]; eauto.
  - intros t' x [[<- <-]|[_ Hx]]%lookup_insert_Some; [rewrite Hp|]; eauto.
  - intros pid p t' Hpid Hin. destruct (inv_owned0 _ _ _ Hpid Hin) as (x & Hx & Hpx).
    destruct (decide (t' = t)) as [->|]; [|rewrite lookup_insert_ne by done; eauto].
    rewrite lookup_insert_eq. simplify_eq. eauto.
  - intros pid p Hk Hpid. destruct (inv_single0 _ _ Hk Hpid) as (t0 & Hl & Hu). exists t0.
    split; [done|]. intros t' x [[<- <-]|[_ Hx]]%lookup_insert_Some Hpx; [|by eapply Hu].
    eapply Hu; [exact Ht|congruence].
  - intros t' x [[<- <-]|[_ Hx]]%lookup_insert_Some Hpx; eauto.
    eapply inv_scheduled0; [exact Ht|congruence].
Qed.

Lemma Inv_set_cpu k fs sp : Inv k → Inv (set_cpu k fs sp).
Proof. intros []. by split. Qed.

(** The next ready thread takes over a processor whose thread is [last]. *)
Lemma Inv_switch k cpu cur next rest last : Inv k → current_threads k !! cpu = Some cur →
  ready_threads k = next :: rest →
  last = match threads k !! cur with Some _ => [cur] | None => [] end →
  Inv (set_ready (set_current k (<[cpu := next]> (current_threads k))) (rest ++ last)).
Proof.
  intros HI Hcur Hready Hlast. pose proof HI as []. rewrite Hready in *.
  apply NoDup_cons in inv_ready_once0 as [Hnr Hnd].
  assert (∀ x, x ∈ last → x = cur ∧ is_Some (threads k !! cur)) as Hl.
  { rewrite Hlast. intros x. destruct (threads k !! cur); [|by intros ?%elem_of_nil].
    intros ->%list_elem_of_singleton. eauto. }
  assert (cur ∉ next :: rest) as Hcr by (by eapply inv_running0).
  split; cbn [threads set_ready set_current processes PROCESSES current_threads ready_threads
    next_thread_id next_process_id] in *; try done.
  - intros t [Ht|Ht%Hl]%elem_of_app; [apply inv_ready0; by right|]. by destruct Ht as [-> ?].
  - apply NoDup_app. split_and!; [done| |].
    + intros x Hx [-> _]%Hl. apply Hcr. by right.
    + rewrite Hlast. destruct (threads k !! cur); [apply NoDup_singleton|constructor].
  - intros c t [[<- <-]|[Hne Hc]]%lookup_insert_Some Hin; apply elem_of_app in Hin as [Hin|Hin%Hl].
    + done.
    + destruct Hin as [-> _]. apply Hcr. by left.
    + by apply (inv_running0 _ _ Hc); right.
    + destruct Hin as [-> _]. by apply Hne, (inv_running_once0 _ _ _ Hcur Hc).
  - intros c c' t [[<- <-]|[Hne Hc]]%lookup_insert_Some [[<- Hx]|[Hne' Hc']]%lookup_insert_Some; try done.
    + exfalso. apply (inv_running0 _ _ Hc'). by left.
    + subst. exfalso. apply (inv_running0 _ _ Hc). by left.
    + by eapply inv_running_once0.
  - intros t [Ht|[c [[<- <-]|[_ Hc]]%lookup_insert_Some]]; apply inv_thread_ids0; eauto.
    left. apply inv_ready0. by left.
  - intros t th Ht Hp. destruct (inv_scheduled0 _ _ Ht Hp) as [[->|Hin]%elem_of_cons|[c Hc]].
    + right. exists cpu. apply lookup_insert_eq.
    + left. apply elem_of_app. by left.
    + destruct (decide (c = cpu)) as [->|Hne]; [|right; exists c; by rewrite lookup_insert_ne].
      left. apply elem_of_app. right. rewrite Hcur in Hc. injection Hc as <-.
      rewrite Hlast, Ht. by apply list_elem_of_singleton.
Qed.

(** ** The operations keep the invariant and do not panic *)

(** What a timer interrupt does. *)
Lemma schedule_ok k cpu ctx : Inv k → can_run k cpu →
  ∃ cur next th k', current_threads k !! cpu = Some cur ∧
    schedule k cpu ctx = Ret (context th, k') ∧ Inv k' ∧
    current_threads k' = <[cpu := next]> (current_threads k) ∧
    threads k' !! next = Some th ∧ cpu_fsbase k' cpu = fsbase th ∧
    match ready_threads k with
    | [] => next = cur ∧ ready_threads k' = []
    | t :: rest => next = t ∧
        ready_threads k' = rest ++ match threads k !! cur with Some _ => [cur] | None => [] end
    end ∧
    ∀ t, threads k' !! t = if decide (t = cur) then
      (λ x, let x := set_context x ctx in
        match ready_threads k with [] => x | _ => set_fsbase x (cpu_fsbase k cpu) end) <$> threads k !! t
      else threads k !! t.
Proof.
  intros HI (cur & Hcur & Hgo). exists cur. unfold schedule, upgrade. rewrite Hcur. run.
  destruct (threads k !! cur) as [th|] eqn:Hth.
  - set (k1 := set_threads k _). assert (Inv k1) as HI1 by (by eapply Inv_update_thread).
    assert (threads k1 !! cur = Some (set_context th ctx)) as Hth1 by (cbn; apply lookup_insert_eq).
    change (ready_threads k1) with (ready_threads k). destruct (ready_threads k) as [|next rest] eqn:Hr.
    + run. change (current_threads k1 !! cpu) with (current_threads k !! cpu). rewrite Hcur. run.
      rewrite Hth1. run. exists cur, (set_context th ctx). eexists. split; [done|]. split; [done|].
      split; [by do 2 apply Inv_set_cpu|]. cbn. rewrite insert_id by done.
      split; [done|]. split; [apply lookup_insert_eq|]. split; [unfold upd; by rewrite Z.eqb_refl|].
      split; [done|]. intros t. rewrite lookup_insert. repeat case_decide; subst; try done. by rewrite Hth.
    + unfold save_fsbase, upgrade. cbn [threads set_ready set_current]. rewrite Hth1. run.
      set (th2 := set_fsbase _ _).
      cbn [current_threads set_threads set_ready set_current threads]. rewrite lookup_insert_eq. run.
      assert (next ≠ cur) as Hne.
      { intros ->. apply (inv_running k HI cpu cur Hcur). rewrite Hr. by left. }
      destruct (inv_ready k HI next) as [thn Hn]; [rewrite Hr; by left|].
      assert (threads k1 !! next = Some thn) as Hn1 by (cbn; by rewrite lookup_insert_ne).
      rewrite lookup_insert_ne by done. rewrite Hn1. run.
      exists next, thn. eexists. split; [done|]. split; [done|].
      set (k2 := set_threads k1 (<[cur := th2]> (threads k1))).
      assert (Inv k2) as HI2 by (by eapply Inv_update_thread).
      split; [do 2 apply Inv_set_cpu; apply (Inv_switch k2 cpu cur next rest [cur] HI2 Hcur Hr);
        cbn; by rewrite lookup_insert_eq|].
      cbn. split; [done|]. split; [by rewrite !lookup_insert_ne|].
      split; [unfold upd; by rewrite Z.eqb_refl|]. split; [done|].
      intros t. rewrite !lookup_insert. repeat case_decide; subst; try done. by rewrite Hth.
  - destruct Hgo as [[x Hx]|Hne]; [congruence|].
    destruct (ready_threads k) as [|next rest] eqn:Hr; [done|]. run. cbn [current_threads set_ready set_current].
    rewrite lookup_insert_eq. run. cbn [threads set_ready set_current].
    destruct (inv_ready k HI next) as [thn Hn]; [rewrite Hr; by left|]. rewrite Hn. run.
    exists next, thn. eexists. split; [done|]. split; [done|].
    split; [do 2 apply Inv_set_cpu; rewrite <- (app_nil_r rest);
      by apply (Inv_switch k cpu cur next rest [] HI Hcur Hr); rewrite Hth|].
    cbn. rewrite app_nil_r. split; [done|]. split; [done|]. split; [unfold upd; by rewrite Z.eqb_refl|].
    split; [done|]. intros t. case_decide; subst; [by rewrite Hth|done].
Qed.

Lemma delete_found (l : list Z) pid i y : NoDup l → list_find (pid =.) l = Some (i, y) →
  NoDup (delete i l) ∧ ∀ x, x ∈ delete i l ↔ x ∈ l ∧ x ≠ pid.
Proof.
  intros Hnd (Hi & <- & _)%list_find_Some. rewrite delete_take_drop.
  rewrite <- (take_drop_middle l i pid Hi) in Hnd. apply NoDup_app in Hnd as (H1 & H2 & H3).
  apply NoDup_cons in H3 as [H3 H4]. split.
  - apply NoDup_app. split_and!; [done| |done]. intros x Hx Hx'. apply (H2 x Hx). by right.
  - intros x. rewrite <- (take_drop_middle l i pid Hi) at 3. rewrite !elem_of_app, elem_of_cons.
    split.
    + intros [Hx|Hx]; (split; [tauto|]); intros ->; [|done]. apply (H2 pid Hx). by left.
    + intros [[?|[?|?]] ?]; tauto.
Qed.

Lemma remove_ok k t : Inv k → is_Some (threads k !! t) →
  remove k t = Ret (set_ready k (base.filter (λ o, o ≠ t) (ready_threads k))).
Proof.
  intros HI [th Ht]. unfold remove.
  match goal with |- context [foldM ?f _ _] => set (g := f) end.
  assert (∀ l acc, (∀ o, o ∈ l → is_Some (threads k !! o)) →
    foldM g acc l = Ret (acc ++ base.filter (λ o, o ≠ t) l)) as Hf.
  { induction l as [|o l IH]; intros acc Hl; cbn [foldM]; [by rewrite app_nil_r|].
    destruct (Hl o) as [x Hx]; [by left|].
    assert (g acc o = Ret (if negb (o =? t) then acc ++ [o] else acc)) as ->
      by (unfold g, upgrade; by rewrite Hx, Ht). run.
    rewrite IH by (intros; apply Hl; by right). rewrite filter_cons.
    destruct (Z.eqb_spec o t); case_decide; try done. cbn. by rewrite <- app_assoc. }
  rewrite Hf by apply (inv_ready k HI). done.
Qed.

(** A user process that has only the thread [t] is dropped. *)
Lemma Inv_drop k t th i y : Inv k → threads k !! t = Some th → process th ≠ KERNEL_PROCESS →
  list_find (process th =.) (PROCESSES k) = Some (i, y) →
  let k1 := set_ready k (base.filter (λ o, o ≠ t) (ready_threads k)) in
  Inv (set_processes (set_threads k1 (delete t (threads k))) (delete (process th) (processes k))
    (delete i (PROCESSES k))).
Proof.
  intros HI Ht Hk E. cbv zeta. pose proof HI as [].
  destruct (delete_found _ _ _ _ inv_listed_once0 E) as [Hndd Hd].
  assert (∀ o, o ∈ base.filter (λ o, o ≠ t) (ready_threads k) ↔ o ≠ t ∧ o ∈ ready_threads k) as Hf.
  { intros o. by rewrite list_elem_of_filter. }
  destruct (inv_owner0 t th Ht) as [p Hp]. destruct (inv_single0 _ _ Hk Hp) as (t0 & Hpt & Huniq).
  assert (t0 = t) as -> by (symmetry; by eapply Huniq).
  split; cbn in *; try done.
  - intros o [Hne Ho]%Hf. rewrite lookup_delete_ne by done. eauto.
  - by apply NoDup_filter.
  - intros c o Hc [_ Ho]%Hf. by eapply inv_running0.
  - intros o [[x Hx]|Hc]; apply inv_thread_ids0; [left|by right].
    apply lookup_delete_Some in Hx as [_ ?]. eauto.
  - intros pid [x [_ Hx]%lookup_delete_Some]. eauto.
  - intros o x [Hne Ho]%lookup_delete_Some. destruct (inv_owner0 o x Ho) as [q Hq]. exists q.
    rewrite lookup_delete_ne; [done|]. intros Heq. apply Hne. symmetry. by eapply Huniq.
  - intros pid q o [Hne Hq]%lookup_delete_Some Hin. destruct (inv_owned0 _ _ _ Hq Hin) as (x & Hx & Hpx).
    exists x. split; [|done]. rewrite lookup_delete_ne; [done|]. intros ->. congruence.
  - intros pid q Hpk [Hne Hq]%lookup_delete_Some. destruct (inv_single0 _ _ Hpk Hq) as (t1 & Hl & Hu).
    exists t1. split; [done|]. intros t' x [_ Hx]%lookup_delete_Some. by apply Hu.
  - intros pid Hpk. rewrite Hd, inv_listed0 by done. split.
    + intros [[q Hq] Hne]. exists q. by rewrite lookup_delete_ne.
    + intros [q [Hne Hq]%lookup_delete_Some]. eauto.
  - intros pid [Hpid _]%Hd. eauto.
  - destruct inv_kernel0 as ([q Hq] & ? & ?). split; [|done]. exists q. by rewrite lookup_delete_ne.
  - intros o x [Hne Ho]%lookup_delete_Some Hpx. destruct (inv_scheduled0 o x Ho Hpx); [|by right].
    left. by apply Hf.
Qed.

(** A thread leaves the ready queue and its process ends. *)
Lemma Inv_exit k t th : Inv k → threads k !! t = Some th →
  let k' := exit_process_of (set_ready k (base.filter (λ o, o ≠ t) (ready_threads k))) t in
  Inv k' ∧ current_threads k' = current_threads k ∧
  ready_threads k' = base.filter (λ o, o ≠ t) (ready_threads k) ∧
  (process th ≠ KERNEL_PROCESS →
    is_process_exited k' (process th) = true ∧ threads k' = delete t (threads k)) ∧
  (process th = KERNEL_PROCESS → threads k' = threads k).
Proof.
  intros HI Ht. cbv zeta. set (k1 := set_ready k _). pose proof HI as [].
  assert (∀ o, o ∈ base.filter (λ o, o ≠ t) (ready_threads k) ↔ o ≠ t ∧ o ∈ ready_threads k) as Hf.
  { intros o. by rewrite list_elem_of_filter. }
  assert (NoDup (base.filter (λ o, o ≠ t) (ready_threads k))) as Hnd by (by apply NoDup_filter).
  unfold exit_process_of, upgrade. change (threads k1) with (threads k). rewrite Ht.
  destruct (inv_owner0 t th Ht) as [p Hp]. change (processes k1) with (processes k). rewrite Hp.
  unfold exit_process. change (PROCESSES k1) with (PROCESSES k).
  destruct (decide (process th = KERNEL_PROCESS)) as [Hk|Hk].
  - assert (∀ l, (∀ x, x ≠ KERNEL_PROCESS → x ∈ l ↔ x ∈ PROCESSES k) → NoDup l →
      (∀ x, x ∈ l → x ∈ PROCESSES k) → Inv (set_processes k1 (processes k) l)) as Hl.
    { intros l Hx Hndl Hsub. split; cbn in *; try done.
      - intros o [_ Ho]%Hf. eauto.
      - intros c o Hc [_ Ho]%Hf. by eapply inv_running0.
      - intros pid Hpid. rewrite Hx by done. by apply inv_listed0.
      - intros pid Hpid. eauto.
      - intros o x Ho Hpx. destruct (inv_scheduled0 o x Ho Hpx); [|by right].
        left. apply Hf. split; [|done]. intros ->. congruence. }
    unfold release. rewrite Hk. change (KERNEL_PROCESS =? KERNEL_PROCESS) with true. rewrite orb_true_r.
    destruct (list_find _ (PROCESSES k)) as [[i y]|] eqn:E;
      (split; [|split_and!; [done|done|intros Hnk; by destruct Hnk|done]]).
    + destruct (delete_found _ _ _ _ inv_listed_once0 E) as [Hndd Hd]. apply Hl; [|done|].
      * intros x Hx. rewrite Hd. tauto.
      * intros x Hx. by apply Hd in Hx as [? _].
    + apply (Hl (PROCESSES k)); done.
  - destruct (inv_single0 _ _ Hk Hp) as (t0 & Hpt & Huniq).
    assert (t0 = t) as -> by (symmetry; by eapply Huniq).
    assert (process th ∈ PROCESSES k) as Hin by (apply inv_listed0; eauto).
    destruct (list_find (process th =.) (PROCESSES k)) as [[i y]|] eqn:E.
    2: { apply list_find_None in E. eapply Forall_forall in E; [|exact Hin]. done. }
    destruct (delete_found _ _ _ _ inv_listed_once0 E) as [Hndd Hd].
    unfold release. cbn [PROCESSES set_processes].
    assert (existsb (Z.eqb (process th)) (delete i (PROCESSES k)) = false) as Hex.
    { apply not_true_iff_false. intros (x & Hx & Hxe)%existsb_exists. apply Z.eqb_eq in Hxe as <-.
      apply list_elem_of_In, Hd in Hx as [_ ?]. done. }
    rewrite Hex, (proj2 (Z.eqb_neq _ _) Hk). cbn [orb processes set_processes].
    change (processes k1) with (processes k). rewrite Hp.
    unfold is_process_exited. rewrite Hpt. cbn [foldr PROCESSES set_processes]. rewrite Hex.
    split; [|done]. by apply (Inv_drop k t th i y).
Qed.

(** A new process with one new thread, which is ready. *)
Lemma Inv_new_process k th a b : Inv k → process th = next_process_id k →
  Inv (mkKernel (<[next_thread_id k := th]> (threads k))
    (<[next_process_id k := mkProcess [next_thread_id k] a b]> (processes k))
    (PROCESSES k ++ [next_process_id k]) (current_threads k) (ready_threads k ++ [next_thread_id k])
    (cpu_fsbase k) (ring0_rsp k) (next_thread_id k + 1) (next_process_id k + 1)).
Proof.
  intros HI Hth. pose proof HI as [].
  set (t := next_thread_id k) in *. set (pid := next_process_id k) in *.
  assert (threads k !! t = None) as Ht.
  { destruct (threads k !! t) eqn:E; [|done]. assert (t < t) by (apply inv_thread_ids0; left; eauto). lia. }
  assert (processes k !! pid = None) as Hp.
  { destruct (processes k !! pid) eqn:E; [|done]. assert (pid < pid) by (apply inv_process_ids0; eauto). lia. }
  assert (t ∉ ready_threads k) as Hr by (intros [x Hx]%inv_ready0; congruence).
  assert (pid ≠ KERNEL_PROCESS) as Hpk by (unfold KERNEL_PROCESS; lia).
  split; cbn [threads processes PROCESSES current_threads ready_threads next_thread_id next_process_id].
  - intros o [Ho| ->%list_elem_of_singleton]%elem_of_app; [|rewrite lookup_insert_eq; eauto].
    rewrite lookup_insert_ne by (intros ->; done). eauto.
  - apply NoDup_app. split_and!; [done| |apply NoDup_singleton].
    intros o Ho ->%list_elem_of_singleton. done.
  - intros c o Hc [Ho| ->%list_elem_of_singleton]%elem_of_app; [by eapply inv_running0|].
    assert (t < t) by (apply inv_thread_ids0; right; eauto). lia.
  - done.
  - intros o [[x [[<- _]|[_ Hx]]%lookup_insert_Some]|Hc]; [lia| |];
      assert (o < t) by (apply inv_thread_ids0; eauto); lia.
  - intros q [x [[<- _]|[_ Hx]]%lookup_insert_Some]; [lia|].
    assert (q < pid) by (apply inv_process_ids0; eauto). lia.
  - intros o x [[<- <-]|[Hne Hx]]%lookup_insert_Some; [rewrite Hth, lookup_insert_eq; eauto|].
    destruct (inv_owner0 _ _ Hx) as [q Hq]. exists q. rewrite lookup_insert_ne; [done|congruence].
  - intros q x o [[<- <-]|[Hne Hx]]%lookup_insert_Some Ho.
    + apply list_elem_of_singleton in Ho as ->. exists th. by rewrite lookup_insert_eq.
    + destruct (inv_owned0 _ _ _ Hx Ho) as (y & Hy & Hpy). exists y.
      split; [|done]. rewrite lookup_insert_ne; [done|congruence].
  - intros q x Hq [[<- <-]|[Hne Hx]]%lookup_insert_Some.
    + exists t. split; [done|]. intros o y [[<- _]|[_ Hy]]%lookup_insert_Some Hpy; [done|].
      destruct (inv_owner0 _ _ Hy) as [z Hz]. congruence.
    + destruct (inv_single0 _ _ Hq Hx) as (t1 & Hl & Hu). exists t1. split; [done|].
      intros o y [[<- <-]|[_ Hy]]%lookup_insert_Some Hpy; [congruence|by apply (Hu o y)].
  - intros q Hq. rewrite elem_of_app, list_elem_of_singleton, inv_listed0 by done. split.
    + intros [[x Hx]| ->]; [|rewrite lookup_insert_eq; eauto].
      rewrite lookup_insert_ne by congruence. eauto.
    + intros [x [[<- _]|[_ Hx]]%lookup_insert_Some]; eauto.
  - apply NoDup_app. split_and!; [done| |apply NoDup_singleton].
    intros o Ho ->%list_elem_of_singleton. assert (pid < pid) by (by apply inv_listed_ids0). lia.
  - intros q [Hq| ->%list_elem_of_singleton]%elem_of_app; [|lia].
    assert (q < pid) by (by apply inv_listed_ids0). lia.
  - destruct inv_kernel0 as ([x Hx] & ? & ?). split_and!; [|lia|lia].
    exists x. rewrite lookup_insert_ne; [done|congruence].
  - intros o x [[<- <-]|[Hne Hx]]%lookup_insert_Some Hpx; rewrite elem_of_app.
    + left. right. by apply list_elem_of_singleton.
    + destruct (inv_scheduled0 _ _ Hx Hpx); eauto.
Qed.

(** A new thread of the kernel, ready or not. *)
Lemma Inv_kernel_thread k p th l : Inv k → processes k !! KERNEL_PROCESS = Some p →
  process th = KERNEL_PROCESS → l = [] ∨ l = [next_thread_id k] →
  Inv (mkKernel (<[next_thread_id k := th]> (threads k))
    (<[KERNEL_PROCESS := mkProcess (proc_threads p ++ [next_thread_id k]) (args_value p) (args_len p)]>
      (processes k)) (PROCESSES k) (current_threads k) (ready_threads k ++ l)
    (cpu_fsbase k) (ring0_rsp k) (next_thread_id k + 1) (next_process_id k)).
Proof.
  intros HI Hp Hth Hl. pose proof HI as []. set (t := next_thread_id k) in *.
  assert (threads k !! t = None) as Ht.
  { destruct (threads k !! t) eqn:E; [|done]. assert (t < t) by (apply inv_thread_ids0; left; eauto). lia. }
  assert (∀ o, o ∈ l → o = t) as Hlt.
  { destruct Hl as [->| ->]; intros o; [by intros ?%elem_of_nil|by intros ->%list_elem_of_singleton]. }
  assert (t ∉ ready_threads k) as Hr by (intros [x Hx]%inv_ready0; congruence).
  split; cbn [threads processes PROCESSES current_threads ready_threads next_thread_id next_process_id].
  - intros o [Ho| ->%Hlt]%elem_of_app; [|rewrite lookup_insert_eq; eauto].
    rewrite lookup_insert_ne by (intros ->; done). eauto.
  - apply NoDup_app. split_and!; [done|by intros o Ho ->%Hlt|].
    destruct Hl as [->| ->]; [constructor|apply NoDup_singleton].
  - intros c o Hc [Ho| ->%Hlt]%elem_of_app; [by eapply inv_running0|].
    assert (t < t) by (apply inv_thread_ids0; right; eauto). lia.
  - done.
  - intros o [[x [[<- _]|[_ Hx]]%lookup_insert_Some]|Hc]; [lia| |];
      assert (o < t) by (apply inv_thread_ids0; eauto); lia.
  - intros q [x [[<- _]|[_ Hx]]%lookup_insert_Some]; apply inv_process_ids0; eauto.
  - intros o x [[<- <-]|[Hne Hx]]%lookup_insert_Some; [rewrite Hth, lookup_insert_eq; eauto|].
    rewrite lookup_insert. case_decide; eauto.
  - intros q x o [[<- <-]|[Hne Hx]]%lookup_insert_Some Ho.
    + cbn in Ho. apply elem_of_app in Ho as [Ho| ->%list_elem_of_singleton].
      * destruct (inv_owned0 _ _ _ Hp Ho) as (y & Hy & Hpy). exists y. split; [|done].
        rewrite lookup_insert_ne; [done|congruence].
      * exists th. by rewrite lookup_insert_eq.
    + destruct (inv_owned0 _ _ _ Hx Ho) as (y & Hy & Hpy). exists y. split; [|done].
      rewrite lookup_insert_ne; [done|congruence].
  - intros q x Hq [[<- _]|[_ Hx]]%lookup_insert_Some; [done|].
    destruct (inv_single0 _ _ Hq Hx) as (t1 & Hpt & Hu). exists t1. split; [done|].
    intros o y [[<- <-]|[_ Hy]]%lookup_insert_Some Hpy; [congruence|by apply (Hu o y)].
  - intros q Hq. rewrite inv_listed0 by done. by rewrite lookup_insert_ne by congruence.
  - done.
  - done.
  - destruct inv_kernel0 as (_ & ? & ?). split_and!; [rewrite lookup_insert_eq; eauto|lia|lia].
  - intros o x [[<- <-]|[Hne Hx]]%lookup_insert_Some Hpx; [congruence|].
    rewrite elem_of_app. destruct (inv_scheduled0 _ _ Hx Hpx); eauto.
Qed.

Section TaskProofs.
Context (kernel_segments user_segments : Z * Z) (kernel_page_table : Z).

(** What happens to the tasks: a timer interrupt of a processor, the calls the threads on a processor make, and
    the instructions by which a program sets the FS base of the processor it runs on. *)
Inductive Event :=
  | Timer (cpu : Z) (ctx : Context)
  | Exit (cpu : Z)
  | Kill (pid : Z)
  | Exec (cpu : Z) (binary : option (Z * Z)) (stack args_ptr args_len : Z)
  | KernelThread (function stack : Z)
  | SetFsbase (cpu v : Z).

Definition task_step (k : Kernel) (e : Event) : out Kernel :=
  match e with
  | Timer cpu ctx => '(_, k) ← schedule k cpu ctx; Ret k
  | Exit cpu => '(_, k) ← exit k cpu; Ret k
  | Kill pid => '(_, k) ← kill_process k pid; Ret k
  | Exec cpu binary stack a b => '(_, k) ← execve user_segments k cpu binary stack a b; Ret k
  | KernelThread function stack => new_kernel_thread kernel_segments kernel_page_table k function stack
  | SetFsbase cpu v => Ret (set_cpu k (upd (cpu_fsbase k) cpu v) (ring0_rsp k))
  end.

(** Interrupts and calls come from processors that the scheduler knows, and ids have not run out. *)
Definition enabled (k : Kernel) (e : Event) : Prop :=
  match e with
  | Timer cpu _ | Exit cpu | SetFsbase cpu _ => is_Some (current_threads k !! cpu)
  | Kill _ => True
  | Exec _ _ _ _ _ | KernelThread _ _ => next_thread_id k + 1 < 2 ^ 64 ∧ next_process_id k + 1 < 2 ^ 64
  end.

(** A processor is left with a freed thread: at its next timer interrupt no other thread is ready, or the freed
    thread exits once more while others are. *)
Definition stuck (k : Kernel) (e : Event) : Prop :=
  match e with
  | Timer cpu _ => ∃ t, current_threads k !! cpu = Some t ∧ threads k !! t = None ∧ ready_threads k = []
  | Exit cpu => ∃ t, current_threads k !! cpu = Some t ∧ threads k !! t = None ∧ ready_threads k ≠ []
  | _ => False
  end.

(** Steps that take a thread away, and steps that only add threads. *)
Definition removes (k k' : Kernel) (t : Z) : Prop :=
  current_threads k' = current_threads k ∧ ready_threads k' = base.filter (λ o, o ≠ t) (ready_threads k) ∧
  ∀ t' th, threads k !! t' = Some th → t' ≠ t ∨ process th = KERNEL_PROCESS → threads k' !! t' = Some th.

Definition adds (k k' : Kernel) : Prop :=
  current_threads k' = current_threads k ∧ (∃ l, ready_threads k' = ready_threads k ++ l) ∧
  ∀ t th, threads k !! t = Some th → threads k' !! t = Some th.

Lemma adds_refl k : adds k k.
Proof. split_and!; [done|exists []; by rewrite app_nil_r|done]. Qed.

Lemma exit_removes k t th : Inv k → threads k !! t = Some th →
  let k' := exit_process_of (set_ready k (base.filter (λ o, o ≠ t) (ready_threads k))) t in Inv k' ∧ removes k k' t.
Proof.
  intros HI Ht k'. destruct (Inv_exit k t th HI Ht) as (HI' & Hc & Hr & Hu & Hk). split; [done|]. split_and!; [done|done|].
  intros t' x Hx Hor. destruct (decide (process th = KERNEL_PROCESS)) as [E|E]; [unfold k'; by rewrite Hk|].
  destruct (Hu E) as [_ HT]. unfold k'. rewrite HT, lookup_delete_ne; [done|]. intros ->. destruct Hor as [|Hx']; [done|]. congruence.
Qed.

Lemma find_ok k pid : Inv k → ∃ r, find k pid = Ret r ∧
  match r with
  | Some t => ∃ th, threads k !! t = Some th ∧ process th = pid ∧ t ∈ ready_threads k
  | None => ∀ t th, t ∈ ready_threads k → threads k !! t = Some th → process th ≠ pid
  end.
Proof.
  intros HI. unfold find. pose proof (inv_ready k HI) as Hr.
  match goal with |- context [findM ?f _] => set (g := f) end.
  assert (∀ t th, threads k !! t = Some th → g t = Ret (process th =? pid)) as Hg.
  { intros t th Hth. unfold g, upgrade. rewrite Hth. run.
    by destruct (inv_owner k HI t th Hth) as [p ->]. }
  clearbody g. induction (ready_threads k) as [|t l IH]; cbn [findM].
  { exists None. split; [done|]. intros t th ?%elem_of_nil. done. }
  destruct (Hr t) as [th Hth]; [by left|]. rewrite (Hg t th Hth). run.
  destruct (Z.eqb_spec (process th) pid) as [<-|Hne].
  { exists (Some t). split; [done|]. exists th. split_and!; [done|done|by left]. }
  destruct IH as (r & Hfind & Hspec); [intros; apply Hr; by right|]. exists r. split; [exact Hfind|].
  destruct r as [t'|].
  - destruct Hspec as (x & ? & ? & ?). exists x. split_and!; [done|done|by right].
  - intros t' x [->|Ht']%elem_of_cons Hx; [congruence|]. by eapply Hspec.
Qed.

Lemma fresh_thread k : Inv k → ∀ t x, threads k !! t = Some x → next_thread_id k ≠ t.
Proof. intros HI t x Hx. assert (t < next_thread_id k) by (apply (inv_thread_ids k HI); left; eauto). lia. Qed.

Lemma execve_ok k cpu binary stack a b : Inv k →
  next_thread_id k + 1 < 2 ^ 64 → next_process_id k + 1 < 2 ^ 64 →
  ∃ r k', execve user_segments k cpu binary stack a b = Ret (r, k') ∧ Inv k' ∧ adds k k'.
Proof.
  intros HI Hnt Hnp. destruct (inv_kernel k HI) as (_ & Hp0 & Ht0). pose proof (fresh_thread k HI) as Hfr.
  destruct binary as [[entry pt]|]; [|exists usize_max, k; split_and!; [done|done|apply adds_refl]].
  pose proof (Inv_new_process k (mkThread stack (Context_init Context_default entry USER_STACK_END pt user_segments)
    (next_process_id k) (cpu_fsbase k cpu)) a b HI eq_refl) as HI'.
  destruct k as [ts ps pl ct rt fs sp nt np]. cbn [next_thread_id next_process_id threads processes
    PROCESSES current_threads ready_threads cpu_fsbase ring0_rsp] in *.
  unfold execve, new_user_process, new_user_thread, add_thread, set_processes, set_ids, set_threads, add, set_ready.
  cbn [next_thread_id next_process_id threads processes PROCESSES current_threads ready_threads
    cpu_fsbase ring0_rsp]. rewrite lookup_insert_eq. run.
  cbn [next_thread_id next_process_id threads processes PROCESSES current_threads ready_threads
    cpu_fsbase ring0_rsp proc_threads args_value args_len].
  rewrite !insert_insert_eq, lookup_insert_eq. run. eexists _, _. split; [done|].
  cbn [proc_threads app]. rewrite insert_insert_eq, !wrap_small by lia. split; [exact HI'|].
  split_and!; cbn; [done|by eexists|]. intros t x Hx. by rewrite lookup_insert_ne by eauto.
Qed.

Lemma new_kernel_thread_ok k f stack : Inv k → next_thread_id k + 1 < 2 ^ 64 →
  ∃ k', new_kernel_thread kernel_segments kernel_page_table k f stack = Ret k' ∧ Inv k' ∧ adds k k'.
Proof.
  intros HI Hnt. destruct (inv_kernel k HI) as ([p Hp] & Hp0 & Ht0). pose proof (fresh_thread k HI) as Hfr.
  pose proof (Inv_kernel_thread k p (mkThread stack (Context_init Context_default f stack kernel_page_table
    kernel_segments) KERNEL_PROCESS 0) [next_thread_id k] HI Hp eq_refl (or_intror eq_refl)) as HI'.
  destruct k as [ts ps pl ct rt fs sp nt np]. cbn [next_thread_id next_process_id threads processes
    PROCESSES current_threads ready_threads cpu_fsbase ring0_rsp] in *.
  unfold new_kernel_thread, add_thread. cbn [processes]. rewrite Hp. run. eexists. split; [done|].
  unfold set_processes, set_ids, set_threads, add, set_ready.
  cbn [next_thread_id next_process_id threads processes PROCESSES current_threads ready_threads
    cpu_fsbase ring0_rsp]. rewrite wrap_small by lia. split; [exact HI'|].
  split_and!; cbn; [done|by eexists|]. intros t x Hx. by rewrite lookup_insert_ne by eauto.
Qed.

(** A freed thread in the place of [thread] makes [remove] panic when there is a thread to compare it with. *)
Lemma remove_freed k t : Inv k → threads k !! t = None → remove k t = if decide (ready_threads k = []) then Ret k else Panic.
Proof.
  intros HI Ht. unfold remove. pose proof (inv_ready k HI) as Hr. destruct (ready_threads k) as [|o l] eqn:E; cbn [foldM].
  - rewrite decide_True by done. run. unfold set_ready. rewrite <- E. by destruct k.
  - rewrite decide_False by done. unfold upgrade. destruct (Hr o) as [x ->]; [by left|]. run. by rewrite Ht.
Qed.

(** A timer interrupt of a processor with nothing to run. *)
Lemma schedule_stuck k cpu ctx t : current_threads k !! cpu = Some t → threads k !! t = None → ready_threads k = [] → schedule k cpu ctx = Panic.
Proof. intros Hc Ht Hr. unfold schedule, upgrade. rewrite Hc. run. rewrite Ht, Hr. run. rewrite Hc. run. by rewrite Ht. Qed.

(** An event that is not stuck is handled, and keeps the invariant. *)
Lemma task_step_ok k e : Inv k → enabled k e → (stuck k e ∧ task_step k e = Panic) ∨
  (¬ stuck k e ∧ ∃ k', task_step k e = Ret k' ∧ Inv k' ∧
    match e with
    | Timer _ _ => True
    | Exit cpu => ∃ t, current_threads k !! cpu = Some t ∧ removes k k' t
    | Kill pid => k' = k ∨ ∃ t th, t ∈ ready_threads k ∧ threads k !! t = Some th ∧ process th = pid ∧ removes k k' t
    | _ => adds k k'
    end).
Proof.
  intros HI. destruct e as [cpu ctx|cpu|pid|cpu binary stack a b|f stack|cpu v]; cbn [enabled task_step stuck].
  - intros [t Hc]. destruct (decide (threads k !! t = None ∧ ready_threads k = [])) as [[Ht Hr]|Hn].
    { left. split; [eauto|]. by rewrite (schedule_stuck k cpu ctx t). }
    right. split; [intros (t' & Hc' & Ht' & Hr'); rewrite Hc in Hc'; injection Hc' as <-; by apply Hn|].
    destruct (schedule_ok k cpu ctx HI) as (cur & next & th & k' & _ & -> & HI' & _); [|run; eauto].
    exists t. split; [done|]. destruct (threads k !! t) eqn:E; [left; eauto|]. right. intros Hr. by apply Hn.
  - intros [t Hc]. unfold exit, current_thread. rewrite Hc. run. destruct (threads k !! t) as [th|] eqn:Ht.
    + right. split; [intros (t' & Hc' & Ht' & _); congruence|]. rewrite remove_ok by eauto. run.
      destruct (exit_removes k t th HI Ht) as [HI' HR]. eauto 10.
    + rewrite remove_freed by done. case_decide as Hr.
      * right. split; [intros (t' & Hc' & Ht' & Hr'); done|]. run. unfold exit_process_of, upgrade. rewrite Ht.
        exists k. split_and!; [done|done|]. exists t. split; [done|]. split_and!; [done|by rewrite Hr|done].
      * left. eauto.
  - intros _. right. split; [tauto|]. unfold kill_process. destruct (find_ok k pid HI) as ([t|] & -> & Hspec); run; [|eauto].
    destruct Hspec as (th & Ht & Hp & Hin). rewrite remove_ok by eauto. run.
    destruct (exit_removes k t th HI Ht) as [HI' HR]. eexists. split; [done|]. split; [done|]. right. eauto 10.
  - intros [Hnt Hnp]. right. split; [tauto|]. destruct (execve_ok k cpu binary stack a b HI Hnt Hnp) as (r & k' & -> & HI' & HA). run. eauto.
  - intros [Hnt _]. right. split; [tauto|]. destruct (new_kernel_thread_ok k f stack HI Hnt) as (k' & -> & HI' & HA). eauto.
  - intros _. right. split; [tauto|]. eexists. split; [done|]. split; [by apply Inv_set_cpu|]. exact (adds_refl k).
Qed.

(** The initial threads: one for each processor, alive, and each ready or running somewhere. *)
Record Idle (k : Kernel) (idle : list Z) : Prop := {
  idle_once : NoDup idle;
  idle_count : length idle = size (current_threads k);
  idle_alive : ∀ t, t ∈ idle → ∃ th, threads k !! t = Some th ∧ process th = KERNEL_PROCESS ∧
    (t ∈ ready_threads k ∨ ∃ cpu, current_threads k !! cpu = Some t);
}.

(** There are too many of them for all to run while a processor has a freed thread. *)
Lemma idle_not_stuck k idle cpu t : Inv k → Idle k idle → current_threads k !! cpu = Some t → threads k !! t = None → ready_threads k ≠ [].
Proof.
  intros HI [Hnd Hlen Hal] Hc Ht Hr.
  assert (idle ⊆ (map_to_list (delete cpu (current_threads k))).*2) as Hsub.
  { intros x Hx. destruct (Hal x Hx) as (th & Hth & _ & [Hin|[c Hcx]]); [rewrite Hr in Hin; by apply elem_of_nil in Hin|].
    apply list_elem_of_fmap. exists (c, x). split; [done|]. apply elem_of_map_to_list. rewrite lookup_delete_ne; [done|]. intros ->. congruence. }
  pose proof (submseteq_length _ _ (NoDup_submseteq _ _ Hnd Hsub)) as Hle. rewrite length_fmap, length_map_to_list, map_size_delete, Hc in Hle.
  assert (size (current_threads k) ≠ 0%nat) by (intros E; apply map_size_empty_inv in E; by rewrite E, lookup_empty in Hc). cbn in Hle. lia.
Qed.

Lemma Idle_step k idle e k' : Inv k → Idle k idle → enabled k e → e ≠ Kill KERNEL_PROCESS → task_step k e = Ret k' → Idle k' idle.
Proof.
  intros HI [Hnd Hlen Hal] He Hkill Hs. destruct (task_step_ok k e HI He) as [[_ E]|(_ & k1 & E & HI1 & HP)]; rewrite E in Hs; [done|]. injection Hs as ->.
  assert (∀ t0, removes k k' t0 → (∀ x, x ∈ idle → x ∈ ready_threads k → x ≠ t0) → Idle k' idle) as Hrem.
  { intros t0 (Hc & Hr & Ht) Hne. split; [done|by rewrite Hc|]. intros x Hx. destruct (Hal x Hx) as (th & Hth & Hp & Hor). exists th.
    split; [apply Ht; [done|by right]|]. split; [done|]. rewrite Hc, Hr. destruct Hor as [Hin|]; [left|by right]. apply list_elem_of_filter. eauto. }
  assert (adds k k' → Idle k' idle) as Hadd.
  { intros (Hc & [l Hr] & Ht). split; [done|by rewrite Hc|]. intros x Hx. destruct (Hal x Hx) as (th & Hth & Hp & Hor). exists th.
    split; [by apply Ht|]. split; [done|]. rewrite Hc, Hr. destruct Hor as [Hin|]; [left|by right]. apply elem_of_app. by left. }
  destruct e as [cpu ctx|cpu|pid|cpu binary stack a b|f stack|cpu v]; cbn [enabled] in He; try by apply Hadd.
  - cbn [task_step] in E. destruct He as [cur Hcur]. destruct (decide (threads k !! cur = None ∧ ready_threads k = [])) as [[Ht Hr]|Hn].
    { by rewrite (schedule_stuck k cpu ctx cur) in E. }
    destruct (schedule_ok k cpu ctx HI) as (c & next & th & k2 & Hc & Es & _ & Hct & _ & _ & Hq & Ht).
    { exists cur. split; [done|]. destruct (threads k !! cur) eqn:E0; [left; eauto|]. right. intros Hr. by apply Hn. }
    rewrite Hcur in Hc. injection Hc as <-. rewrite Es in E. injection E as <-.
    split; [done|rewrite Hct, map_size_insert_Some; eauto|]. intros x Hx. destruct (Hal x Hx) as (y & Hy & Hp & Hor). rewrite Ht, Hct.
    assert (∃ z, (if decide (x = cur) then (λ x0, let x0 := set_context x0 ctx in
      match ready_threads k with [] => x0 | _ => set_fsbase x0 (cpu_fsbase k cpu) end) <$> threads k !! x else threads k !! x) = Some z ∧
      process z = KERNEL_PROCESS) as (z & Ez & Hz).
    { case_decide; [|eauto]. rewrite Hy. cbn. eexists. split; [done|]. by destruct (ready_threads k). }
    exists z. split; [done|]. split; [done|]. destruct (ready_threads k) as [|head rest] eqn:Hr; destruct Hq as [-> Hq].
    + right. destruct Hor as [Hin|[c Hcx]]; [by apply elem_of_nil in Hin|]. exists c. rewrite insert_id; done.
    + rewrite Hq. destruct Hor as [[->|Hin]%elem_of_cons|[c Hcx]].
      * right. exists cpu. apply lookup_insert_eq.
      * left. apply elem_of_app. by left.
      * destruct (decide (c = cpu)) as [->|Hne]; [|right; exists c; by rewrite lookup_insert_ne].
        left. rewrite Hcur in Hcx. injection Hcx as ->. rewrite Hy. apply elem_of_app. right. by left.
  - destruct HP as (t & Hc & HR). apply (Hrem t HR). intros x _ Hin ->. by apply (inv_running k HI cpu t).
  - destruct HP as [->|(t & th & Hin & Hth & Hp & HR)]; [by split|]. apply (Hrem t HR). intros x Hx _ ->.
    destruct (Hal t Hx) as (y & Hy & Hpy & _). apply Hkill. congruence.
Qed.

(** *** Boot

    [KERNEL_PROCESS] and [Scheduler::new]: an initial thread for every processor. *)
Definition kernel_start : Kernel :=
  mkKernel ∅ {[ KERNEL_PROCESS := mkProcess [] 0 0 ]} [KERNEL_PROCESS] ∅ [] (λ _, 0) (λ _, 0) 0 1.

Definition Scheduler_new (k : Kernel) (cpus : list (Z * Z)) : out Kernel :=
  foldM (λ k '(lapic_id, stack),
    '(t, k) ← get_init_thread k stack;
    Ret (set_current k (<[lapic_id := t]> (current_threads k)))) k cpus.

Lemma kernel_start_inv : Inv kernel_start.
Proof.
  split; cbn; try done.
  - intros t []%elem_of_nil.
  - constructor.
  - intros t [[x Hx]|[c Hc]]; [by rewrite lookup_empty in Hx|by rewrite lookup_empty in Hc].
  - intros pid [x [<- _]%lookup_singleton_Some]. done.
  - intros pid p t [<- <-]%lookup_singleton_Some []%elem_of_nil.
  - intros pid p Hk [<- <-]%lookup_singleton_Some. done.
  - intros pid Hk. split; [by intros ->%list_elem_of_singleton|].
    by intros [x [<- _]%lookup_singleton_Some].
  - apply NoDup_singleton.
  - intros pid ->%list_elem_of_singleton. done.
Qed.

(** A thread that is neither ready nor running takes over a processor without one. *)
Lemma Inv_set_current k cpu t : Inv k → current_threads k !! cpu = None → t < next_thread_id k →
  t ∉ ready_threads k → (∀ c, current_threads k !! c ≠ Some t) →
  Inv (set_current k (<[cpu := t]> (current_threads k))).
Proof.
  intros [] Hc Ht Hr Hn. split; cbn [threads processes PROCESSES current_threads ready_threads
    next_thread_id next_process_id set_current]; try done.
  - intros c o [[<- <-]|[_ Ho]]%lookup_insert_Some; eauto.
  - intros c c' o [[<- <-]|[_ Ho]]%lookup_insert_Some [[<- Ho']|[_ Ho']]%lookup_insert_Some; try done.
    + by destruct (Hn c').
    + subst. by destruct (Hn c).
    + eauto.
  - intros o [Ho|[c [[<- <-]|[_ Ho]]%lookup_insert_Some]]; eauto.
  - intros o x Ho Hp. destruct (inv_scheduled0 o x Ho Hp) as [?|[c Hco]]; [by left|]. right. exists c.
    rewrite lookup_insert_ne; [done|]. intros ->. congruence.
Qed.

Lemma Scheduler_new_ok cpus k : Inv k → NoDup cpus.*1 →
  (∀ c, c ∈ cpus.*1 → current_threads k !! c = None) → next_thread_id k + zlen cpus < 2 ^ 64 →
  ∀ idle, Idle k idle → ∃ k' idle', Scheduler_new k cpus = Ret k' ∧ Inv k' ∧ Idle k' idle'.
Proof.
  revert k. induction cpus as [|[cpu stack] cpus IH]; intros k HI Hnd Hc Hn idle HD; [by exists k, idle|].
  cbn [fmap list_fmap fst] in *. apply NoDup_cons in Hnd as [Hncpu Hnd].
  assert (zlen ((cpu, stack) :: cpus) = 1 + zlen cpus) as Hz by (unfold zlen; cbn; lia).
  pose proof (zlen_nonneg cpus). rewrite Hz in Hn.
  destruct (inv_kernel k HI) as ([p Hp] & Hp0 & Ht0).
  pose proof (Inv_kernel_thread k p (mkThread stack Context_default KERNEL_PROCESS 0) [] HI Hp eq_refl
    (or_introl eq_refl)) as HI'. rewrite app_nil_r in HI'.
  unfold Scheduler_new. cbn [foldM]. unfold get_init_thread, add_thread. rewrite Hp. run. apply (IH _) with (idle := next_thread_id k :: idle); [|done| | |].
  - match type of HI' with Inv ?x => set (k1 := x) in * end.
    assert (∀ c, current_threads k1 !! c ≠ Some (next_thread_id k)) as Hfresh.
    { intros c Hct. assert (next_thread_id k < next_thread_id k) by (apply (inv_thread_ids k HI); eauto). lia. }
    pose proof (Inv_set_current k1 cpu (next_thread_id k) HI') as HI2.
    destruct k as [ts ps pl ct rt fs sp nt np].
    unfold set_current, set_processes, set_ids, set_threads.
    cbn [next_thread_id next_process_id threads processes PROCESSES current_threads ready_threads
      cpu_fsbase ring0_rsp set_current k1] in *. rewrite wrap_small by lia. apply HI2.
    + apply Hc. by left.
    + lia.
    + intros Hin. destruct (inv_ready _ HI _ Hin) as [x Hx].
      assert (nt < nt) by (apply (inv_thread_ids _ HI); left; eauto). lia.
    + done.
  - intros c Hin. cbn. rewrite lookup_insert_ne by (intros ->; done). apply Hc. by right.
  - cbn. rewrite wrap_small by lia. lia.
  - destruct HD as [Hnd' Hlen Hal]. pose proof (fresh_thread k HI) as Hfr. split; cbn.
    + apply NoDup_cons. split; [|done]. intros (th & Hth & _)%Hal. by apply (Hfr _ _ Hth).
    + rewrite Hlen, map_size_insert_None; [done|]. apply Hc. by left.
    + intros t [->|Ht]%elem_of_cons.
      * exists (mkThread stack Context_default KERNEL_PROCESS 0). rewrite lookup_insert_eq. split_and!; [done|done|].
        right. exists cpu. apply lookup_insert_eq.
      * destruct (Hal t Ht) as (th & Hth & Hpt & Hor). exists th. rewrite lookup_insert_ne by (by eapply Hfr).
        split_and!; [done|done|]. destruct Hor as [|[c Hct]]; [by left|]. right. exists c. rewrite lookup_insert_ne; [done|].
        intros ->. rewrite (Hc c) in Hct; [done|by left].
Qed.

(** The states of the kernel after boot; [kernel_kills] tells whether a program may have asked to kill process 0. *)
Inductive reachable (kernel_kills : bool) : Kernel → Prop :=
  | reach_boot cpus k : NoDup cpus.*1 → zlen cpus < 2 ^ 63 → Scheduler_new kernel_start cpus = Ret k →
      reachable kernel_kills k
  | reach_step k e k' : reachable kernel_kills k → enabled k e → (kernel_kills = false → e ≠ Kill KERNEL_PROCESS) →
      task_step k e = Ret k' → reachable kernel_kills k'.

Lemma kernel_start_idle : Idle kernel_start [].
Proof. split; [constructor|done|by intros t ?%elem_of_nil]. Qed.

Lemma reachable_ok b k : reachable b k → Inv k ∧ (b = false → ∃ idle, Idle k idle).
Proof.
  induction 1 as [cpus k Hnd Hz Hb|k e k' _ [HI HD] He Hkill Hs].
  - destruct (Scheduler_new_ok cpus kernel_start) with (idle := @nil Z) as (k' & idle & E & HI & HD);
      [apply kernel_start_inv|done|intros; apply lookup_empty|cbn; lia|apply kernel_start_idle|].
    rewrite E in Hb. injection Hb as <-. eauto.
  - destruct (task_step_ok k e HI He) as [[_ E]|(_ & k1 & E & HI1 & _)]; rewrite E in Hs; [done|]. injection Hs as ->.
    split; [done|]. intros Eb. destruct (HD Eb) as [idle Hidle]. exists idle. by apply (Idle_step k idle e k'); auto.
Qed.

Lemma reachable_inv b k : reachable b k → Inv k.
Proof. intros H. by destruct (reachable_ok b k H). Qed.

(** [C7] Scheduling is safe: in every state that boot and any sequence of timer interrupts, process creations, exits and
    kills on any processors lead to, no thread is ready twice or runs on two processors, no thread in the ready
    queue was freed, and every live thread of a user process is ready or running. The next event panics exactly when
    it is stuck: a timer interrupt of a processor whose thread was freed while no other thread is ready, or
    an exit repeated by a freed thread while others are. As long as no program kills process 0, the kernel, no timer
    interrupt is stuck, on any processor. *)
Theorem scheduler_safe (kernel_kills : bool) (k : Kernel) (e : Event) (Hk : reachable kernel_kills k) (He : enabled k e) :
  (task_step k e = Panic ↔ stuck k e) ∧
  (kernel_kills = false → ∀ cpu ctx, e = Timer cpu ctx → ∃ k', task_step k e = Ret k') ∧
  NoDup (ready_threads k) ∧ (∀ t, t ∈ ready_threads k → is_Some (threads k !! t)) ∧
  (∀ cpu cpu' t, current_threads k !! cpu = Some t →
    (t ∉ ready_threads k) ∧ (current_threads k !! cpu' = Some t → cpu = cpu')) ∧
  ∀ t th, threads k !! t = Some th → process th ≠ KERNEL_PROCESS →
    t ∈ ready_threads k ∨ ∃ cpu, current_threads k !! cpu = Some t.
Proof.
  destruct (reachable_ok kernel_kills k Hk) as [HI HD].
  pose proof (task_step_ok k e HI He) as HS. split; [|split].
  - destruct HS as [[? ?]|(? & k' & -> & _)]; [done|]. by split.
  - intros Eb cpu ctx ->. destruct HS as [[(t & Hc & Ht & Hr) _]|(_ & k' & -> & _)]; [|eauto].
    destruct (HD Eb) as [idle Hidle]. by destruct (idle_not_stuck k idle cpu t HI Hidle Hc Ht).
  - destruct HI. split_and!; eauto.
Qed.

(** ** Fairness *)

(** Events that happen one after the other. *)
Inductive steps : Kernel → list Event → Kernel → Prop :=
  | steps_nil k : steps k [] k
  | steps_cons k e k1 evs k' : enabled k e → task_step k e = Ret k1 → steps k1 evs k' → steps k (e :: evs) k'.

Definition is_timer (e : Event) : bool := match e with Timer _ _ => true | _ => false end.
Definition timers (evs : list Event) : nat := length (List.filter is_timer evs).

(** A processor takes a thread off the queue: the head runs, the others keep their
    saved state and come one closer. *)
Lemma schedule_next k cpu ctx head rest : Inv k → is_Some (current_threads k !! cpu) →
  ready_threads k = head :: rest →
  ∃ th k' l, threads k !! head = Some th ∧ schedule k cpu ctx = Ret (context th, k') ∧ Inv k' ∧
    ready_threads k' = rest ++ l ∧ current_threads k' = <[cpu := head]> (current_threads k) ∧
    cpu_fsbase k' cpu = fsbase th ∧
    (∀ t, t ∈ head :: rest → threads k' !! t = threads k !! t) ∧
    ∀ cur x, current_threads k !! cpu = Some cur → threads k !! cur = Some x →
      l = [cur] ∧ threads k' !! cur = Some (set_fsbase (set_context x ctx) (cpu_fsbase k cpu)).
Proof.
  intros HI [cur Hcur] Hr.
  destruct (schedule_ok k cpu ctx HI) as (c & next & th & k' & Hc & Hs & HI' & Hct & Hn & Hf & Hq & Ht).
  { exists cur. split; [done|]. right. by rewrite Hr. }
  rewrite Hcur in Hc. injection Hc as <-. rewrite Hr in Hq. destruct Hq as [-> Hq].
  assert (cur ∉ head :: rest) as Hnc by (rewrite <- Hr; by eapply inv_running).
  assert (∀ t, t ∈ head :: rest → threads k' !! t = threads k !! t) as Hkeep.
  { intros t Hin. rewrite Ht. case_decide; subst; [done|done]. }
  rewrite Hkeep in Hn by left. eexists th, k', _. split_and!; try done.
  intros cur' x Hcur' Hx. rewrite Hcur in Hcur'. injection Hcur' as <-. rewrite Hx. split; [done|].
  rewrite Ht, decide_True, Hx, Hr by done. done.
Qed.

(** Taking others out of the queue brings a thread forward. *)
Lemma filter_position (l : list Z) t0 t : t ≠ t0 → ∀ i, l !! i = Some t → ∃ j, (j ≤ i)%nat ∧ base.filter (λ o, o ≠ t0) l !! j = Some t.
Proof.
  intros Hne. induction l as [|x l IH]; intros i Hi; [done|]. rewrite filter_cons. destruct i as [|i]; cbn in Hi.
  - injection Hi as ->. rewrite decide_True by done. by exists O.
  - destruct (IH i Hi) as (j & Hj & Ej). case_decide; [exists (S j)|exists j]; split; (lia || done).
Qed.

(** An event other than a timer interrupt and the killing of its process leaves a ready thread as it is, and does not move it back. *)
Lemma step_keeps k e k' i t th : Inv k → enabled k e → task_step k e = Ret k' → is_timer e = false → e ≠ Kill (process th) →
  ready_threads k !! i = Some t → threads k !! t = Some th →
  Inv k' ∧ threads k' !! t = Some th ∧ ∃ j, (j ≤ i)%nat ∧ ready_threads k' !! j = Some t.
Proof.
  intros HI He Hs Hnt Hnk Hi Ht. destruct (task_step_ok k e HI He) as [[_ E]|(_ & k1 & E & HI1 & HP)]; rewrite E in Hs; [done|]. injection Hs as ->.
  split; [done|]. pose proof (list_elem_of_lookup_2 _ _ _ Hi) as Hin.
  assert (∀ t0, removes k k' t0 → t ≠ t0 → threads k' !! t = Some th ∧ ∃ j, (j ≤ i)%nat ∧ ready_threads k' !! j = Some t) as Hrem.
  { intros t0 (_ & Hr & HT) Hne. split; [apply HT; auto|]. rewrite Hr. by apply filter_position. }
  assert (adds k k' → threads k' !! t = Some th ∧ ∃ j, (j ≤ i)%nat ∧ ready_threads k' !! j = Some t) as Hadd.
  { intros (_ & [l Hr] & HT). split; [by apply HT|]. exists i. split; [done|]. rewrite Hr. by apply lookup_app_l_Some. }
  destruct e as [cpu ctx|cpu|pid|cpu binary stack a b|f stack|cpu v]; try done; try by apply Hadd.
  - destruct HP as (t0 & Hc & HR). apply (Hrem t0 HR). intros ->. by apply (inv_running k HI cpu t0).
  - destruct HP as [->|(t0 & th0 & _ & Hth & Hp & HR)]; [eauto|]. apply (Hrem t0 HR). intros ->. apply Hnk. congruence.
Qed.

(** A thread at place [i] of the queue is dispatched by one of the next [i + 1] timer interrupts. *)
Lemma ready_dispatched evs : ∀ k i t th k', Inv k → steps k evs k' → ready_threads k !! i = Some t → threads k !! t = Some th →
  Kill (process th) ∉ evs → (i < timers evs)%nat →
  ∃ evs1 cpu ctx evs2 k1 k2, evs = evs1 ++ Timer cpu ctx :: evs2 ∧ (timers evs1 ≤ i)%nat ∧ steps k evs1 k1 ∧
    schedule k1 cpu ctx = Ret (context th, k2) ∧ current_threads k2 !! cpu = Some t ∧ cpu_fsbase k2 cpu = fsbase th.
Proof.
  induction evs as [|e evs IH]; intros k i t th k' HI Hs Hi Ht Hnk Hn; [cbn in Hn; lia|].
  inversion Hs as [|? ? k1 ? ? He E Hs']; subst. rewrite not_elem_of_cons in Hnk. destruct Hnk as [Hnk1 Hnk2].
  assert (∀ j, Inv k1 → (j < timers evs)%nat → (j + (if is_timer e then 1 else 0) ≤ i)%nat → ready_threads k1 !! j = Some t → threads k1 !! t = Some th →
    ∃ evs1 cpu ctx evs2 k1 k2, e :: evs = evs1 ++ Timer cpu ctx :: evs2 ∧ (timers evs1 ≤ i)%nat ∧ steps k evs1 k1 ∧
    schedule k1 cpu ctx = Ret (context th, k2) ∧ current_threads k2 !! cpu = Some t ∧ cpu_fsbase k2 cpu = fsbase th) as Hgo.
  { intros j HI1 Hj Hji Hrj Htj. destruct (IH k1 j t th k' HI1 Hs' Hrj Htj Hnk2 Hj) as (evs1 & cpu & ctx & evs2 & ka & kb & -> & Hle & Hst & Hsch).
    exists (e :: evs1), cpu, ctx, evs2, ka, kb. split; [done|]. split; [|split; [by econstructor|done]].
    unfold timers in *. cbn [List.filter]. destruct (is_timer e); cbn [length]; lia. }
  destruct (is_timer e) eqn:Et.
  - destruct e as [cpu ctx| | | | |]; try done. cbn [enabled task_step] in He, E. unfold timers in Hn. cbn in Hn. fold (timers evs) in Hn.
    destruct (ready_threads k) as [|head rest] eqn:Hr; [done|].
    destruct (schedule_next k cpu ctx head rest HI He Hr) as (th' & k2 & l & Hth' & Esch & HI2 & Hr2 & Hct & Hf & Hkeep & _).
    rewrite Esch in E. cbn in E. injection E as ->. destruct i as [|i]; cbn in Hi.
    + injection Hi as ->. rewrite Ht in Hth'. injection Hth' as <-. exists [], cpu, ctx, evs, k, k1.
      split_and!; [done|done|constructor|done|by rewrite Hct, lookup_insert_eq|done].
    + apply (Hgo i HI2); [lia|lia|rewrite Hr2; by apply lookup_app_l_Some|]. rewrite Hkeep; [done|]. right. by eapply list_elem_of_lookup_2.
  - destruct (step_keeps k e k1 i t th HI He E Et) as (HI1 & Ht1 & j & Hj & Hrj); [congruence|done|done|].
    apply (Hgo j HI1); [|lia|done|done]. unfold timers in *. cbn [List.filter] in Hn. rewrite Et in Hn. lia.
Qed.

(** [C8] A preempted thread resumes where it was: when a timer interrupt takes the processor from a running thread
    while [n] threads are ready, then whatever happens afterwards on any processor (interrupts, new processes and
    threads, exits, kills of other processes, programs setting their FS base), the thread is dispatched at the latest
    by the [n]-th timer interrupt that follows, on whichever processor that is, with exactly the context that the
    interrupt saved and the FS base the processor had then. *)
Theorem preempted_thread_resumes (kernel_kills : bool) (k : Kernel) (cpu t : Z) (th : Thread) (ctx : Context) (evs : list Event) (k' : Kernel)
    (Hk : reachable kernel_kills k) (Hrun : current_threads k !! cpu = Some t) (Hlive : threads k !! t = Some th)
    (Hready : ready_threads k ≠ []) (Hevs : steps k (Timer cpu ctx :: evs) k') (Hkill : Kill (process th) ∉ evs)
    (Hlen : (length (ready_threads k) ≤ timers evs)%nat) :
  ∃ evs1 cpu' ctx' evs2 k1 k2, evs = evs1 ++ Timer cpu' ctx' :: evs2 ∧ (timers evs1 < length (ready_threads k))%nat ∧
    steps k (Timer cpu ctx :: evs1) k1 ∧ schedule k1 cpu' ctx' = Ret (ctx, k2) ∧
    current_threads k2 !! cpu' = Some t ∧ cpu_fsbase k2 cpu' = cpu_fsbase k cpu.
Proof.
  pose proof (reachable_inv _ k Hk) as HI. destruct (ready_threads k) as [|head rest] eqn:Hr; [done|].
  destruct (schedule_next k cpu ctx head rest) as (th0 & ka & l & _ & Es & HIa & Hra & _ & _ & _ & Hlast); [done|eauto|done|].
  destruct (Hlast t th Hrun Hlive) as [-> Hta]. inversion Hevs as [|? ? k1 ? ? He E Hs]; subst.
  cbn [task_step] in E. rewrite Es in E. cbn in E. injection E as <-.
  destruct (ready_dispatched evs ka (length rest) t (set_fsbase (set_context th ctx) (cpu_fsbase k cpu)) k' HIa Hs) as (evs1 & cpu' & ctx' & evs2 & kb & k2 & -> & Hle & Hst & Hsch & Hc2 & Hf2);
    [rewrite Hra; by apply list_lookup_middle|exact Hta|done|cbn in Hlen; lia|].
  exists evs1, cpu', ctx', evs2, kb, k2. split_and!; [done|cbn; lia| |done|done|done].
  econstructor; [exact He| |exact Hst]. cbn [task_step]. by rewrite Es.
Qed.

(** [C40] A program that sets its FS base and is then interrupted while no other thread is ready loses what it set: the
    processor continues it with the value that was saved when the thread last lost a processor (or was made), since
    only a switch saves it. *)
Theorem lone_thread_loses_fsbase (kernel_kills : bool) (k : Kernel) (cpu t v : Z) (ctx : Context) (th : Thread)
    (Hk : reachable kernel_kills k) (Hrun : current_threads k !! cpu = Some t) (Hth : threads k !! t = Some th)
    (Halone : ready_threads k = []) (Hv : v ≠ fsbase th) :
  ∃ k1 k2, task_step k (SetFsbase cpu v) = Ret k1 ∧ cpu_fsbase k1 cpu = v ∧
    schedule k1 cpu ctx = Ret (ctx, k2) ∧ current_threads k2 !! cpu = Some t ∧ cpu_fsbase k2 cpu = fsbase th ∧ cpu_fsbase k2 cpu ≠ v.
Proof.
  pose proof (reachable_inv _ k Hk) as HI. eexists. cbn [task_step].
  set (k1 := set_cpu k _ _). assert (Inv k1) as HI1 by (by apply Inv_set_cpu).
  destruct (schedule_ok k1 cpu ctx HI1) as (c & next & x & k2 & Hc & Hs & _ & Hct & Hn & Hf & Hq & Ht).
  { exists t. split; [done|]. left. cbn. eauto. }
  change (current_threads k1) with (current_threads k) in *. change (threads k1) with (threads k) in *.
  change (ready_threads k1) with (ready_threads k) in *.
  rewrite Hrun in Hc. injection Hc as <-. rewrite Halone in Hq, Ht. destruct Hq as [-> _].
  rewrite Ht, decide_True, Hth in Hn by done. injection Hn as <-.
  exists k2. split; [done|]. split; [cbn; unfold upd; by rewrite Z.eqb_refl|]. rewrite Hct, lookup_insert_eq, Hf. split_and!; [exact Hs|done|done|]. cbn. congruence.
Qed.

(** [kill_process] does nothing to a process whose thread is running: it searches
    the ready queue only, and reports success all the same. *)
Theorem kill_running_ignored (kernel_kills : bool) (k : Kernel) (cpu t pid : Z) (th : Thread) (Hk : reachable kernel_kills k)
    (Hrun : current_threads k !! cpu = Some t) (Hth : threads k !! t = Some th)
    (Hpid : process th = pid) (Huser : pid ≠ KERNEL_PROCESS) :
  kill_process k pid = Ret (0, k) ∧ is_process_exited k pid = false.
Proof.
  pose proof (reachable_inv _ k Hk) as HI. subst pid. split.
  - unfold kill_process. destruct (find_ok k (process th) HI) as ([t'|] & -> & Hspec); [|done]. exfalso.
    destruct Hspec as (th' & Ht' & Hp & Hin). destruct (inv_owner k HI t th Hth) as [p Hpp].
    destruct (inv_single k HI _ _ Huser Hpp) as (t0 & _ & Hu).
    assert (t' = t) as -> by (transitivity t0; [|symmetry]; eapply Hu; eauto).
    by eapply (inv_running k HI).
  - unfold is_process_exited. apply negb_false_iff, existsb_exists. exists (process th).
    split; [|apply Z.eqb_refl]. apply list_elem_of_In, (inv_listed k HI); [done|].
    destruct (inv_owner k HI t th Hth); eauto.
Qed.

End TaskProofs.

(** ** Examples: one processor, then one process *)

Section Examples.

Definition sample_step (k : Kernel) (e : Event) : Kernel :=
  match task_step (8, 16) (35, 27) 0x1000 k e with Ret k' => k' | Panic => k end.

Definition sample0 : Kernel :=
  match Scheduler_new kernel_start [(0, 0x9000)] with Ret k => k | Panic => kernel_start end.
Definition sample1 : Kernel := sample_step sample0 (Exec 0 (Some (0x40_0000, 0x5000)) 0xa000 0 0).
Definition sample2 : Kernel := sample_step sample1 (Timer 0 Context_default).

Lemma sample0_reachable b : reachable (8, 16) (35, 27) 0x1000 b sample0.
Proof.
  apply (reach_boot _ _ _ _ [(0, 0x9000)]); [apply NoDup_singleton|vm_compute; reflexivity|].
  vm_compute. reflexivity.
Defined.

Lemma sample1_reachable b : reachable (8, 16) (35, 27) 0x1000 b sample1.
Proof.
  apply (reach_step _ _ _ b sample0 (Exec 0 (Some (0x40_0000, 0x5000)) 0xa000 0 0)).
  - apply sample0_reachable.
  - vm_compute. split; reflexivity.
  - discriminate.
  - vm_compute. reflexivity.
Defined.

Lemma sample2_reachable b : reachable (8, 16) (35, 27) 0x1000 b sample2.
Proof.
  apply (reach_step _ _ _ b sample1 (Timer 0 Context_default)).
  - apply sample1_reachable.
  - eexists. vm_compute. reflexivity.
  - discriminate.
  - vm_compute. reflexivity.
Defined.

Lemma scheduler_safe_witness : (∃ k', task_step (8, 16) (35, 27) 0x1000 sample1 (Timer 0 Context_default) = Ret k') ∧
  NoDup (ready_threads sample1).
Proof.
  destruct (scheduler_safe (8, 16) (35, 27) 0x1000 false sample1 (Timer 0 Context_default)) as (_ & H & Hn & _).
  - apply sample1_reachable.
  - eexists. vm_compute. reflexivity.
  - split; [by apply (H eq_refl 0 Context_default)|done].
Defined.

(** A program that kills process 0 and exits leaves its processor without a thread. *)
Example kill_kernel_panics :
  foldM (task_step (8, 16) (35, 27) 0x1000) sample2 [Kill KERNEL_PROCESS; Exit 0; Timer 0 Context_default] = Panic ∧
  (∃ k, foldM (task_step (8, 16) (35, 27) 0x1000) sample2 [Kill KERNEL_PROCESS; Exit 0] = Ret k).
Proof. split; [vm_compute; reflexivity|]. eexists. vm_compute. reflexivity. Qed.

(** The initial thread sets its FS base, is preempted by the program, which sets another, and continues. *)
Definition sample3 : Kernel := sample_step sample1 (SetFsbase 0 5).

Lemma sample3_reachable b : reachable (8, 16) (35, 27) 0x1000 b sample3.
Proof.
  apply (reach_step _ _ _ b sample1 (SetFsbase 0 5)).
  - apply sample1_reachable.
  - eexists. vm_compute. reflexivity.
  - discriminate.
  - vm_compute. reflexivity.
Defined.

Definition sample_events : list Event := [SetFsbase 0 9; Timer 0 Context_default].

Lemma preempted_thread_resumes_witness :
  ∃ evs1 cpu' ctx' evs2 k1 k2, sample_events = evs1 ++ Timer cpu' ctx' :: evs2 ∧ (timers evs1 < 1)%nat ∧
    steps (8, 16) (35, 27) 0x1000 sample3 (Timer 0 (λ _, 7) :: evs1) k1 ∧ schedule k1 cpu' ctx' = Ret ((λ _, 7), k2) ∧
    current_threads k2 !! cpu' = Some 0 ∧ cpu_fsbase k2 cpu' = 5.
Proof.
  apply (preempted_thread_resumes (8, 16) (35, 27) 0x1000 true sample3 0 0 (mkThread 0x9000 Context_default KERNEL_PROCESS 0) (λ _, 7) sample_events
    (sample_step (sample_step (sample_step sample3 (Timer 0 (λ _, 7))) (SetFsbase 0 9)) (Timer 0 Context_default))).
  - apply sample3_reachable.
  - vm_compute. reflexivity.
  - vm_compute. reflexivity.
  - vm_compute. discriminate.
  - repeat (econstructor; [eexists; vm_compute; reflexivity|vm_compute; reflexivity|]). constructor.
  - unfold sample_events. rewrite !not_elem_of_cons. split_and!; [discriminate|discriminate|apply not_elem_of_nil].
  - vm_compute. lia.
Defined.

Lemma lone_thread_loses_fsbase_witness :
  ∃ k1 k2, task_step (8, 16) (35, 27) 0x1000 sample0 (SetFsbase 0 5) = Ret k1 ∧ cpu_fsbase k1 0 = 5 ∧
    schedule k1 0 (λ _, 7) = Ret ((λ _, 7), k2) ∧ current_threads k2 !! 0 = Some 0 ∧ cpu_fsbase k2 0 = 0 ∧ cpu_fsbase k2 0 ≠ 5.
Proof.
  apply (lone_thread_loses_fsbase (8, 16) (35, 27) 0x1000 true sample0 0 0 5 (λ _, 7)
    (mkThread 0x9000 Context_default KERNEL_PROCESS 0)).
  - apply sample0_reachable.
  - vm_compute. reflexivity.
  - vm_compute. reflexivity.
  - vm_compute. reflexivity.
  - discriminate.
Defined.

Lemma kill_running_ignored_witness :
  kill_process sample2 1 = Ret (0, sample2) ∧ is_process_exited sample2 1 = false.
Proof.
  apply (kill_running_ignored (8, 16) (35, 27) 0x1000 true sample2 0 1 1
    (mkThread 0xa000 (Context_init Context_default 0x40_0000 USER_STACK_END 0x5000 (35, 27)) 1 0)).
  - apply sample2_reachable.
  - vm_compute. reflexivity.
  - vm_compute. reflexivity.
  - reflexivity.
  - discriminate.
Defined.

End Examples.
