(* ===== verification/Syscall.v ===== *)
(** * System calls

    [kernel/src/syscall] and the crate [syscall_index]: the numbers of the calls, the entry
    from user code, the dispatch of [syscall_matcher] and every operation of
    [operations.rs], over the file system of [Vfs], the tasks of [Task], the memory manager
    of [KernelMemory] and the heap. The wrappers of [vstd] are in [UserLib]. *)

From S2P Require Import Prelude Crates Frame PageTable KvmHal KernelPaging KernelMemory Vfs Task.

(** ** Strings of bytes

    [char]s in UTF-8, and [str::from_utf8]: what it accepts, as characters. *)

Definition is_char (c : Z) : bool := in_range 16 c && negb ((0xD800 <=? c) && (c <=? 0xDFFF)) || (0x10000 <=? c) && (c <=? 0x10FFFF).

Definition encode_utf8 (c : Z) : list Z :=
  if c <? 0x80 then [c]
  else if c <? 0x800 then [0xC0 + c / 64; 0x80 + c mod 64]
  else if c <? 0x10000 then [0xE0 + c / 4096; 0x80 + c / 64 mod 64; 0x80 + c mod 64]
  else [0xF0 + c / 262144; 0x80 + c / 4096 mod 64; 0x80 + c / 64 mod 64; 0x80 + c mod 64].

(** [as_bytes] *)
Definition as_bytes (s : Str) : list Z := flat_map encode_utf8 s.

Definition is_cont (b : Z) : bool := (0x80 <=? b) && (b <=? 0xBF).

Fixpoint from_utf8 (l : list Z) : option Str :=
  match l with
  | [] => Some []
  | b :: l =>
      if b <? 0x80 then s ← from_utf8 l; Some (b :: s)
      else match l with
      | [] => None
      | c1 :: l =>
          if negb (is_cont c1) then None
          else if (0xC2 <=? b) && (b <=? 0xDF) then
            s ← from_utf8 l; Some ((b - 0xC0) * 64 + (c1 - 0x80) :: s)
          else match l with
          | [] => None
          | c2 :: l =>
              if negb (is_cont c2) then None
              else if (0xE0 <=? b) && (b <=? 0xEF) then
                let c := (b - 0xE0) * 4096 + (c1 - 0x80) * 64 + (c2 - 0x80) in
                if (0x800 <=? c) && is_char c then s ← from_utf8 l; Some (c :: s) else None
              else match l with
              | [] => None
              | c3 :: l =>
                  let c := (b - 0xF0) * 262144 + (c1 - 0x80) * 4096 + (c2 - 0x80) * 64 + (c3 - 0x80) in
                  if is_cont c3 && (0xF0 <=? b) && (b <=? 0xF4) && (0x10000 <=? c) && is_char c
                  then s ← from_utf8 l; Some (c :: s) else None
              end
          end
      end
  end.

(** ** The numbers of the calls *)

Module Index.

Inductive SyscallIndex :=
  | Null | Print | Malloc | Exit | Free | Open | Close | Read | Write | Fsize | Execve | IsExited
  | ChangeCwd | GetCwd | FType | ListDir | DirItemNum | IoCtl | GetArgs | GetPid | LSeek | Kill
  | SBrk | Create | Mount | Mmap.

Definition variants : list SyscallIndex :=
  [Null; Print; Malloc; Exit; Free; Open; Close; Read; Write; Fsize; Execve; IsExited; ChangeCwd; GetCwd;
   FType; ListDir; DirItemNum; IoCtl; GetArgs; GetPid; LSeek; Kill; SBrk; Create; Mount; Mmap].

End Index.

#[export] Instance SyscallIndex_eq_dec : EqDecision Index.SyscallIndex.
Proof. solve_decision. Defined.

(** [From<usize>]: [transmute] of the number, when there is such a variant. *)
Definition SyscallIndex_from (number : Z) : out Index.SyscallIndex :=
  if zlen Index.variants <=? number then Panic else unwrap (Index.variants !! Z.to_nat (wrap 8 number)).

(** [index as u64] *)
Definition SyscallIndex_as (i : Index.SyscallIndex) : Z :=
  match list_find (i =.) Index.variants with Some (n, _) => Z.of_nat n | None => 0 end.

(** ** The heap

    The [GlobalAlloc] of the kernel: an address, 0 for none. *)

Class GlobalHeap := {
  HeapState : Type;
  heap_alloc : HeapState → Z → Z → Z * HeapState;
  heap_dealloc : HeapState → Z → Z → Z → HeapState;
}.

(** The contract of [GlobalAlloc]: blocks that are held do not overlap, and lie in the
    range the allocator was given. *)
Class GlobalHeapLaws (H : GlobalHeap) := {
  held : HeapState → gmap Z Z;
  heap_alloc_spec h size align p h' : 0 < size → 0 < align → heap_alloc h size align = (p, h') →
    (p = 0 ∧ held h' = held h) ∨
    (HEAP_START ≤ p ∧ p + size ≤ HEAP_START + HEAP_SIZE ∧ p mod align = 0 ∧ held h' = <[p := size]> (held h) ∧
     held h !! p = None ∧ ∀ q n, held h !! q = Some n → p + size ≤ q ∨ q + n ≤ p);
  heap_dealloc_spec h p size align : held h !! p = Some size → held (heap_dealloc h p size align) = delete p (held h);
}.

(** [Layout::from_size_align] *)
Definition is_power_of_two (x : Z) : bool := (0 <? x) && (Z.land x (x - 1) =? 0).
Definition Layout_ok (size align : Z) : bool := is_power_of_two align && (size <=? 2 ^ 63 - 1 - (align - 1)).

(** ** What a call can do

    It returns or panics, or waits for a lock for ever. *)

Inductive sys (A : Type) := Finished (o : out A) | Hang.
Arguments Finished {A} o.
Arguments Hang {A}.

#[export] Instance sys_mbind : MBind sys := λ A B f m,
  match m with Finished (Ret a) => f a | Finished Panic => Finished Panic | Hang => Hang end.

(** [lock()] on a lock of which [locked] tells whether it is held. *)
Definition lock (locked : bool) : sys unit := if locked then Hang else Finished (Ret tt).

Section Operations.
Context {P : Profile} {BF : BitField} {BL : Bitflags} {XA : X86Addr} {M : PageMapper} {C : FsCrates} {H : GlobalHeap}.

(** The linear map, the processor, the depth of the inode graph, the segments and the
    table of the kernel, a terminal inode. *)
Context (offset cpu : Z) (depth : nat) (kernel_segments user_segments : Z * Z) (kernel_page_table : Z) (terminal : CLeaf).

(** [object]: the entry point and the segments of a program. *)
Context (parse : list Z → option (Z * list Segment)).

(** [deep_copy] of the table of the kernel, with the physical address of the copy. *)
Context (deep_copy_of : PT → BitmapFrameAllocator → out (PT * Z * BitmapFrameAllocator)).

(** [PageTableFlags::from_bits] *)
Context (PageTableFlags_from_bits : Z → option Z).

(** What the calls work on: the files; the tasks; the memory of the running process, by
    address ([None] where it is not mapped: the handler of the page fault panics); the heap;
    [C_ALLOCATION_MAP]; what was printed; and the tables, frames and memory that programs
    are loaded to, with the table of each process. *)
Record System := mkSystem {
  fs : Vfs;
  tasks : Kernel;
  mem : Z → option Z;
  heap_of : HeapState;
  C_ALLOCATION_MAP : gmap Z (Z * Z * Z);
  console : list Str;
  kernel_pt : PT;
  current_pt : PT;
  frames : BitmapFrameAllocator;
  ram : Z → Z;
}.

Definition with_fs (s : System) (x : Vfs) : System :=
  mkSystem x (tasks s) (mem s) (heap_of s) (C_ALLOCATION_MAP s) (console s) (kernel_pt s) (current_pt s) (frames s) (ram s).
Definition with_tasks (s : System) (x : Kernel) : System :=
  mkSystem (fs s) x (mem s) (heap_of s) (C_ALLOCATION_MAP s) (console s) (kernel_pt s) (current_pt s) (frames s) (ram s).
Definition with_mem (s : System) (x : Z → option Z) : System :=
  mkSystem (fs s) (tasks s) x (heap_of s) (C_ALLOCATION_MAP s) (console s) (kernel_pt s) (current_pt s) (frames s) (ram s).
Definition with_heap (s : System) (x : HeapState) : System :=
  mkSystem (fs s) (tasks s) (mem s) x (C_ALLOCATION_MAP s) (console s) (kernel_pt s) (current_pt s) (frames s) (ram s).
Definition with_map (s : System) (x : gmap Z (Z * Z * Z)) : System :=
  mkSystem (fs s) (tasks s) (mem s) (heap_of s) x (console s) (kernel_pt s) (current_pt s) (frames s) (ram s).
Definition with_console (s : System) (x : list Str) : System :=
  mkSystem (fs s) (tasks s) (mem s) (heap_of s) (C_ALLOCATION_MAP s) x (kernel_pt s) (current_pt s) (frames s) (ram s).
Definition with_paging (s : System) (pt : PT) (fa : BitmapFrameAllocator) (r : Z → Z) : System :=
  mkSystem (fs s) (tasks s) (mem s) (heap_of s) (C_ALLOCATION_MAP s) (console s) (kernel_pt s) pt fa r.

(** ** Memory behind pointers *)

(** [from_raw_parts(address, length)], read. *)
Definition read_bytes (m : Z → option Z) (address length : Z) : out (list Z) :=
  foldM (λ l i, b ← unwrap (m (address + i)); Ret (l ++ [b])) [] (range 0 length).

Fixpoint write_bytes (m : Z → option Z) (address : Z) (l : list Z) : out (Z → option Z) :=
  match l with
  | [] => Ret m
  | b :: l =>
      _ ← unwrap (m address);
      write_bytes (λ a, if a =? address then Some b else m a) (address + 1) l
  end.

Definition read_usize (m : Z → option Z) (address : Z) : out Z := l ← read_bytes m address 8; Ret (from_le l).
Definition write_usize (m : Z → option Z) (address x : Z) : out (Z → option Z) := write_bytes m address (to_le 8 x).

(** [str::from_utf8(from_raw_parts(address, length)).unwrap()] *)
Definition read_str (s : System) (address length : Z) : out Str :=
  l ← read_bytes (mem s) address length;
  unwrap (from_utf8 l).

(** [vec![0u8; n]], leaked: no block for an empty one. *)
Definition vec_zeroed (s : System) (n : Z) : out (Z * System) :=
  if n =? 0 then Ret (1, s)
  else
    let '(p, h) := heap_alloc (heap_of s) n 1 in
    if p =? 0 then Panic
    else m ← write_bytes (mem s) p (replicate (Z.to_nat n) 0); Ret (p, with_mem (with_heap s h) m).

(** A copy of a string on the heap. *)
Definition leak_str (s : System) (path : Str) : out (Z * System) :=
  let l := as_bytes path in
  '(p, s) ← vec_zeroed s (zlen l);
  m ← write_bytes (mem s) p l;
  Ret (p, with_mem s m).

(** ** The operations *)

Definition sys_print (s : System) (buffer length : Z) : out (Z * System) :=
  if length =? 0 then Ret (0, s)
  else
    l ← read_bytes (mem s) buffer length;
    match from_utf8 l with
    | Some string => Ret (0, with_console s (console s ++ [string]))
    | None => Ret (0, s)
    end.

Definition sys_exit (s : System) : out (Z * System) := '(r, k) ← exit (tasks s) cpu; Ret (r, with_tasks s k).

Definition sys_malloc (s : System) (size align : Z) : out (Z * System) :=
  if Layout_ok size align then
    let '(addr, h) := heap_alloc (heap_of s) size align in
    Ret (addr, with_heap s h)
  else Ret (0, s).

Definition sys_free (s : System) (addr size align : Z) : out (Z * System) :=
  if Layout_ok size align then Ret (0, with_heap s (heap_dealloc (heap_of s) addr size align)) else Ret (0, s).

Definition sys_open (s : System) (path path_len mode : Z) : out (Z * System) :=
  path ← read_str s path path_len;
  mode ← OpenMode_from mode;
  '(r, f) ← open depth (fs s) path mode;
  Ret (default usize_max r, with_fs s f).

Definition sys_close (s : System) (fd : Z) : out (Z * System) := Ret (0, with_fs s (close (fs s) fd).2).

Definition sys_read (s : System) (fd buf buf_size : Z) : out (Z * System) :=
  buffer ← read_bytes (mem s) buf buf_size;
  '(n, buffer, f) ← read (fs s) fd buffer;
  m ← write_bytes (mem s) buf buffer;
  Ret (n, with_mem (with_fs s f) m).

Definition sys_write (s : System) (fd buf buf_size : Z) : out (Z * System) :=
  buffer ← read_bytes (mem s) buf buf_size;
  '(n, f) ← write (fs s) fd buffer;
  Ret (n, with_fs s f).

Definition sys_fsize (s : System) (fd : Z) : out (Z * System) :=
  n ← fsize (fs s) fd;
  n ← unwrap n;
  Ret (n, s).

(** [KernelStack::new]: the end of a block of 64 KiB. *)
Definition KERNEL_STACK_SIZE : Z := 64 * 1024.

Definition KernelStack_new (s : System) : out (Z * System) :=
  '(p, s) ← vec_zeroed s KERNEL_STACK_SIZE;
  a ← VirtAddr_new (p + KERNEL_STACK_SIZE);
  Ret (a, s).

(** The part of [Process::new_user_process] that fills the address space: the copied
    table, the segments, the stacks. *)
Definition load_program (s : System) (elf_data : list Z) : out (option (Z * Z * Z) * System) :=
  match parse elf_data with
  | None => Ret (None, s)
  | Some (entry, segments) =>
      '(pt, table, fa) ← deep_copy_of (kernel_pt s) (frames s);
      '(pt, fa, r) ← map_segments offset segments ((pt, fa), ram s);
      '(stack, s) ← KernelStack_new s;
      '(_, (_, fa)) ← UserStack_new (pt, fa);
      Ret (Some (entry, table, stack), with_paging s (current_pt s) fa r)
  end.

(** [execve] on the bytes of the program. *)
Definition exec_image (s : System) (buffer : list Z) (args_ptr args_len : Z) : out (Z * System) :=
  '(program, s) ← load_program s buffer;
  let '(binary, stack) := match program with Some (entry, table, stack) => (Some (entry, table), stack) | None => (None, 0) end in
  '(r, k) ← execve user_segments (tasks s) cpu binary stack args_ptr args_len;
  let s := with_tasks s k in
  match program with
  | None => Ret (r, s)
  | Some _ =>
      let '(stdin, f) := alloc (fs s) (Leaf [] terminal) in
      let '(stdout, f) := alloc f (Leaf [] terminal) in
      Ret (r, with_fs s (init_file_descriptor_manager_with_stdin_stdout f r stdin stdout))
  end.

Definition sys_execve (s : System) (buf_addr buf_len args_ptr args_len : Z) : out (Z * System) :=
  buffer ← read_bytes (mem s) buf_addr buf_len;
  exec_image s buffer args_ptr args_len.

Definition sys_is_exited (s : System) (pid : Z) : out (Z * System) :=
  Ret ((if is_process_exited (tasks s) pid then 1 else 0), s).

Definition sys_change_cwd (s : System) (path_addr path_len : Z) : out (Z * System) :=
  path ← read_str s path_addr path_len;
  f ← change_cwd depth (fs s) path;
  Ret (0, with_fs s f).

(** The pair of words that [get_cwd] and [get_args] return the address of. *)
Definition leak_pair (s : System) (a b : Z) : out (Z * System) :=
  '(p, s) ← vec_zeroed s 16;
  _ ← VirtAddr_new p;
  m ← write_usize (mem s) p a;
  _ ← VirtAddr_new (p + 8);
  m ← write_usize m (p + 8) b;
  Ret (p, with_mem s m).

Definition sys_get_cwd (s : System) : out (Z * System) :=
  path ← get_cwd (fs s);
  '(new_path, s) ← leak_str s path;
  leak_pair s new_path (zlen (as_bytes path)).

(** [ty as usize] *)
Definition InodeTy_as (t : InodeTy) : Z := match t with Dir => 0 | File => 1 end.

Definition sys_ftype (s : System) (fd : Z) : out (Z * System) :=
  match get_inode_by_fd (fs s) fd with
  | Some inode => t ← inode_type (fs s) inode; Ret (InodeTy_as t, s)
  | None => Ret (usize_max, s)
  end.

(** [TemporyInfo]: the name as address and length, then the type. *)
Definition INFO_SIZE : Z := 24.

Definition write_info (m : Z → option Z) (address : Z) (info : Z * Z * InodeTy) : out (Z → option Z) :=
  let '(p, n, t) := info in
  m ← write_usize m address p;
  m ← write_usize m (address + 8) n;
  write_bytes m (address + 16) [InodeTy_as t].

(** [write_for_syscall] *)
Definition write_for_syscall (m : Z → option Z) (addr : Z) (buf : list (Z * Z * InodeTy)) : out (Z → option Z) :=
  foldM (λ m '(idx, info), write_info m (addr + INFO_SIZE * idx) info) m (imap (λ i x, (Z.of_nat i, x)) buf).

Definition leak_infos (s : System) (infos : list FileInfo) : out (list (Z * Z * InodeTy) * System) :=
  foldM (λ '(new_infos, s) info,
    '(new_name, s) ← leak_str s (name info);
    Ret (new_infos ++ [(new_name, zlen (as_bytes (name info)), ty info)], s)) ([], s) infos.

Definition sys_list_dir (s : System) (path_addr path_len buf_addr : Z) : out (Z * System) :=
  path ← read_str s path_addr path_len;
  '(infos, f) ← list_dir depth (fs s) path;
  '(file_infos, s) ← leak_infos (with_fs s f) infos;
  buf ← VirtAddr_new buf_addr;
  m ← write_for_syscall (mem s) buf file_infos;
  Ret (0, with_mem s m).

Definition sys_dir_item_num (s : System) (path_addr path_len : Z) : out (Z * System) :=
  path ← read_str s path_addr path_len;
  '(infos, f) ← list_dir depth (fs s) path;
  Ret (zlen infos, with_fs s f).

Definition sys_ioctl (s : System) (fd cmd arg : Z) : out (Z * System) :=
  '(r, f) ← ioctl (fs s) fd cmd arg;
  Ret (r, with_fs s f).

(** [get_current_process], with its id. *)
Definition get_current_process (k : Kernel) : out (Z * Process) :=
  t ← current_thread k cpu;
  th ← unwrap (upgrade k t);
  p ← unwrap (processes k !! process th);
  Ret (process th, p).

Definition sys_get_args (s : System) : out (Z * System) :=
  '(_, p) ← get_current_process (tasks s);
  leak_pair s (args_value p) (args_len p).

Definition sys_get_pid (s : System) : out (Z * System) :=
  '(pid, _) ← get_current_process (tasks s);
  Ret (pid, s).

Definition sys_lseek (s : System) (fd offset : Z) : out (Z * System) :=
  let '(res, f) := lseek (fs s) fd offset in
  Ret ((match res with Some _ => 0 | None => usize_max end), with_fs s f).

Definition sys_kill_process (s : System) (pid : Z) : out (Z * System) :=
  '(r, k) ← kill_process (tasks s) pid;
  Ret (r, with_tasks s k).

Definition sys_sbrk (s : System) (size : Z) : out (Z * System) :=
  if 0 <? to_signed 64 size then
    '(ptr, s) ← vec_zeroed s size;
    if negb (ptr =? 0) then
      vaddr ← VirtAddr_new ptr;
      match C_ALLOCATION_MAP s !! vaddr with
      | Some _ => Panic
      | None => Ret (vaddr, with_map s (<[vaddr := (vaddr, size, size)]> (C_ALLOCATION_MAP s)))
      end
    else Ret (usize_max, s)
  else Ret (usize_max, s).

Definition sys_create (s : System) (path path_len mode : Z) : out (Z * System) :=
  path ← read_str s path path_len;
  mode ← OpenMode_from mode;
  '(fd, f) ← create depth (fs s) path File mode;
  Ret (default usize_max fd, with_fs s f).

Definition sys_mount (s : System) (path_addr path_len partition_addr partition_len : Z) : out (Z * System) :=
  path ← read_str s path_addr path_len;
  partition ← read_str s partition_addr partition_len;
  '(ret, f) ← mount depth (fs s) path partition;
  Ret ((match ret with None => usize_max | Some _ => 0 end), with_fs s f).

(** The arguments of [map_to] in [mmap]: the guard of the first [FRAME_ALLOCATOR.lock()] is
    a temporary of the statement, so it is still held at the second. *)
Definition mmap_map (s : System) (addr i flags : Z) : sys (result MapToError unit * System) :=
  v ← Finished (d ← mul_u 64 i 4096; a ← add_u 64 addr d; VirtAddr_new a);
  _ ← lock false;
  '(frame, fa) ← Finished ('(f, fa) ← allocate_frame (frames s); f ← unwrap f; Ret (f, fa));
  flags ← Finished (unwrap (PageTableFlags_from_bits flags));
  _ ← lock true;
  '(r, (pt, fa)) ← Finished (map_to (current_pt s) fa (containing 4096 v) frame flags);
  Finished (Ret (r, with_paging s pt fa (ram s))).

Definition mmap_page (s : System) (addr flags i : Z) : sys System :=
  '(result, s) ← mmap_map s addr i flags;
  match result with
  | Ok _ => Finished (Ret s)
  | Err (PageAlreadyMapped _) =>
      v ← Finished (d ← mul_u 64 i 4096; a ← add_u 64 addr d; VirtAddr_new a);
      match unmap (current_pt s) (containing 4096 v) with
      | (Err _, _) => Finished Panic
      | (Ok _, pt) =>
          '(r, s) ← mmap_map (with_paging s pt (frames s) (ram s)) addr i flags;
          match r with Ok _ => Finished (Ret s) | Err _ => Finished Panic end
      end
  | Err _ => Finished Panic
  end.

Fixpoint mmap_pages (s : System) (addr flags : Z) (pages : list Z) : sys System :=
  match pages with
  | [] => Finished (Ret s)
  | i :: pages => s ← mmap_page s addr flags i; mmap_pages s addr flags pages
  end.

Definition sys_mmap (s : System) (addr len prot flags : Z) : sys (Z * System) :=
  if addr =? 0 then Finished (sys_sbrk s len)
  else
    n ← Finished (add_u 64 len 4095);
    s ← mmap_pages s addr flags (range 0 (n / 4096));
    Finished (Ret (addr, s)).

(** ** The dispatch *)

Definition syscall_matcher (number : Z) (arg1 arg2 arg3 arg4 arg5 arg6 : Z) (s : System) : sys (Z * System) :=
  match SyscallIndex_from number with
  | Panic => Finished Panic
  | Ret Index.Null => Finished Panic
  | Ret Index.Print => Finished (sys_print s arg1 arg2)
  | Ret Index.Malloc => Finished (sys_malloc s arg1 arg2)
  | Ret Index.Exit => Finished (sys_exit s)
  | Ret Index.Free => Finished (sys_free s arg1 arg2 arg3)
  | Ret Index.Open => Finished (sys_open s arg1 arg2 arg3)
  | Ret Index.Close => Finished (sys_close s arg1)
  | Ret Index.Read => Finished (sys_read s arg1 arg2 arg3)
  | Ret Index.Write => Finished (sys_write s arg1 arg2 arg3)
  | Ret Index.Fsize => Finished (sys_fsize s arg1)
  | Ret Index.Execve => Finished (sys_execve s arg1 arg2 arg3 arg4)
  | Ret Index.IsExited => Finished (sys_is_exited s arg1)
  | Ret Index.ChangeCwd => Finished (sys_change_cwd s arg1 arg2)
  | Ret Index.GetCwd => Finished (sys_get_cwd s)
  | Ret Index.FType => Finished (sys_ftype s arg1)
  | Ret Index.ListDir => Finished (sys_list_dir s arg1 arg2 arg3)
  | Ret Index.DirItemNum => Finished (sys_dir_item_num s arg1 arg2)
  | Ret Index.IoCtl => Finished (sys_ioctl s arg1 arg2 arg3)
  | Ret Index.GetArgs => Finished (sys_get_args s)
  | Ret Index.GetPid => Finished (sys_get_pid s)
  | Ret Index.LSeek => Finished (sys_lseek s arg1 arg2)
  | Ret Index.Kill => Finished (sys_kill_process s arg1)
  | Ret Index.SBrk => Finished (sys_sbrk s arg1)
  | Ret Index.Create => Finished (sys_create s arg1 arg2 arg3)
  | Ret Index.Mount => Finished (sys_mount s arg1 arg2 arg3 arg4)
  | Ret Index.Mmap => sys_mmap s arg1 arg2 arg3 arg4
  end.

(** ** The entry

    [syscall_handler]; the instruction SYSCALL saves the address of the next instruction in
    RCX and the flags in R11, and SYSRETQ takes them back. The handler stays on the stack
    of the caller. *)

Definition handler_entry : list Instr :=
  [Push RCX; Push R11; Push RBP; Push RBX; Push R12; Push R13; Push R14; Push R15; Mov RCX R10].

Definition handler_exit : list Instr :=
  [Pop R15; Pop R14; Pop R13; Pop R12; Pop RBX; Pop RBP; Pop R11; Pop RCX].

Definition INTERRUPT_FLAG : Z := 0x200.

Definition syscall_instr (regs : Reg → Z) : Reg → Z :=
  set_reg (set_reg (set_reg regs RCX (regs RIP)) R11 (regs RFLAGS)) RFLAGS (Z.ldiff (regs RFLAGS) INTERRUPT_FLAG).

Definition sysretq (regs : Reg → Z) : Reg → Z := set_reg (set_reg regs RIP (regs RCX)) RFLAGS (regs R11).

(** A call of a C function: it keeps the registers of its caller that the calling
    convention names, and may leave anything ([clobber]) in the others. *)
Definition callee_saved : list Reg := [RBX; RBP; R12; R13; R14; R15; RSP; CR3; CS; SS].

Definition after_call (clobber regs : Reg → Z) (r : Z) : Reg → Z :=
  set_reg (λ x, if decide (x ∈ callee_saved) then regs x else clobber x) RAX r.

Definition syscall_handler (clobber : Reg → Z) (m : (Reg → Z) * list Z) (s : System) : sys (((Reg → Z) * list Z) * System) :=
  '(regs, stack) ← Finished (foldM exec (syscall_instr m.1, m.2) handler_entry);
  '(r, s) ← syscall_matcher (regs RAX) (regs RDI) (regs RSI) (regs RDX) (regs RCX) (regs R8) (regs R9) s;
  '(regs, stack) ← Finished (foldM exec (after_call clobber regs r, stack) handler_exit);
  Finished (Ret ((sysretq regs, stack), s)).

End Operations.
