(* ===== verification/UserLib.v ===== *)
(** * The library of user programs

    [vstd/src]: the wrappers of the system calls, down to the instruction SYSCALL, on the
    kernel of [Syscall]. The same wrappers are in [vsc/src] for C programs. *)

From S2P Require Import Prelude Crates Frame PageTable KvmHal KernelPaging KernelMemory Vfs Task Syscall.

(** ** UTF-8 *)

Lemma is_char_cases c : is_char c = true → 0 ≤ c < 0xD800 ∨ 0xE000 ≤ c < 0x110000.
Proof. unfold is_char, in_range. rewrite orb_true_iff, !andb_true_iff, negb_true_iff, andb_false_iff. intros H. destruct H as [[? [?|?]]|?]; breflect; lia. Qed.

Lemma is_cont_ok r : 0 ≤ r < 64 → is_cont (0x80 + r) = true.
Proof. intros Hr. unfold is_cont. rewrite andb_true_iff, !Z.leb_le. lia. Qed.

(** A test that holds, or not, by arithmetic. *)
Ltac test b v := replace b with v by (symmetry; unfold is_cont, negb; first [apply Z.leb_le|apply Z.leb_gt|apply Z.ltb_lt|apply Z.ltb_ge]; lia).

Lemma from_utf8_char c l : is_char c = true → from_utf8 (encode_utf8 c ++ l) = (s ← from_utf8 l; Some (c :: s)).
Proof.
  intros Hc. pose proof (is_char_cases c Hc) as Hr. unfold encode_utf8.
  pose proof (Z.mod_pos_bound c 64 eq_refl) as H0. pose proof (Z.mod_pos_bound (c / 64) 64 eq_refl) as H1. pose proof (Z.mod_pos_bound (c / 4096) 64 eq_refl) as H2.
  destruct (c <? 0x80) eqn:E1; [|destruct (c <? 0x800) eqn:E2; [|destruct (c <? 0x10000) eqn:E3]]; breflect; cbn [app from_utf8].
  - by test (c <? 0x80) true.
  - assert (2 ≤ c / 64 < 32) by (Z.div_mod_to_equations; lia). test (0xC0 + c / 64 <? 0x80) false. rewrite (is_cont_ok (c mod 64)) by lia. cbn [negb].
    test (0xC2 <=? 0xC0 + c / 64) true. test (0xC0 + c / 64 <=? 0xDF) true. cbn [andb].
    replace ((0xC0 + c / 64 - 0xC0) * 64 + (0x80 + c mod 64 - 0x80)) with c by (Z.div_mod_to_equations; lia). done.
  - assert (0 ≤ c / 4096 < 16) by (Z.div_mod_to_equations; lia). test (0xE0 + c / 4096 <? 0x80) false. rewrite !is_cont_ok by lia. cbn [negb].
    test (0xC2 <=? 0xE0 + c / 4096) true. test (0xE0 + c / 4096 <=? 0xDF) false. cbn [andb].
    test (0xE0 <=? 0xE0 + c / 4096) true. test (0xE0 + c / 4096 <=? 0xEF) true. cbn [andb].
    replace ((0xE0 + c / 4096 - 0xE0) * 4096 + (0x80 + c / 64 mod 64 - 0x80) * 64 + (0x80 + c mod 64 - 0x80)) with c by (Z.div_mod_to_equations; lia).
    rewrite Hc. by test (0x800 <=? c) true.
  - assert (0 ≤ c / 262144 < 5) by (Z.div_mod_to_equations; lia). test (0xF0 + c / 262144 <? 0x80) false. rewrite !is_cont_ok by lia. cbn [negb].
    test (0xC2 <=? 0xF0 + c / 262144) true. test (0xF0 + c / 262144 <=? 0xDF) false. cbn [andb].
    test (0xE0 <=? 0xF0 + c / 262144) true. test (0xF0 + c / 262144 <=? 0xEF) false. cbn [andb].
    test (0xF0 <=? 0xF0 + c / 262144) true. test (0xF0 + c / 262144 <=? 0xF4) true. cbn [andb].
    replace ((0xF0 + c / 262144 - 0xF0) * 262144 + (0x80 + c / 4096 mod 64 - 0x80) * 4096 + (0x80 + c / 64 mod 64 - 0x80) * 64 + (0x80 + c mod 64 - 0x80)) with c
      by (Z.div_mod_to_equations; lia).
    rewrite Hc. by test (0x10000 <=? c) true.
Qed.

Lemma from_utf8_as_bytes s : forallb is_char s = true → from_utf8 (as_bytes s) = Some s.
Proof.
  induction s as [|c s IH]; [done|]. cbn [forallb as_bytes flat_map]. rewrite andb_true_iff. intros [Hc Hs].
  rewrite from_utf8_char by done. fold (as_bytes s). by rewrite IH.
Qed.

(** ** Memory behind pointers *)

Definition holds (m : Z → option Z) (a : Z) (l : list Z) : Prop := ∀ i b, l !! i = Some b → m (a + Z.of_nat i) = Some b.
Definition mapped (m : Z → option Z) (a n : Z) : Prop := ∀ x, a ≤ x < a + n → is_Some (m x).

Lemma holds_nil m a : holds m a [].
Proof. intros i b Hi. by rewrite lookup_nil in Hi. Qed.

Lemma holds_app m a l1 l2 : holds m a (l1 ++ l2) ↔ holds m a l1 ∧ holds m (a + zlen l1) l2.
Proof.
  split.
  - intros Hh. split; intros i b Hi; [apply Hh; by apply lookup_app_l_Some|].
    specialize (Hh (length l1 + i)%nat b). rewrite lookup_app_r, Nat.add_sub' in Hh by lia. rewrite <- Hh by done. f_equal. unfold zlen. lia.
  - intros [H1 H2] i b [Hi|[Hl Hi]]%lookup_app_Some; [by apply H1|]. rewrite <- (H2 _ _ Hi). f_equal. unfold zlen. lia.
Qed.

Lemma read_bytes_ok m a l : holds m a l → read_bytes m a (zlen l) = Ret l.
Proof.
  unfold read_bytes. induction l as [|b l IH] using rev_ind; intros Hh; [done|].
  apply holds_app in Hh as [H1 H2]. replace (zlen (l ++ [b])) with (zlen l + 1) by (unfold zlen; rewrite length_app; cbn; lia).
  rewrite range_snoc by apply zlen_nonneg. rewrite foldM_snoc, IH by done. run.
  specialize (H2 O b eq_refl). rewrite Z.add_0_r in H2. by rewrite H2.
Qed.

Lemma write_bytes_ok l : ∀ m a, mapped m a (zlen l) → ∃ m', write_bytes m a l = Ret m' ∧ holds m' a l ∧
  (∀ x, ¬ (a ≤ x < a + zlen l) → m' x = m x) ∧ ∀ x, is_Some (m x) → is_Some (m' x).
Proof.
  induction l as [|b l IH]; intros m a Hm; cbn [write_bytes]; [exists m; split; [done|]; split; [apply holds_nil|done]|].
  assert (zlen (b :: l) = 1 + zlen l) as Hz by (unfold zlen; cbn; lia). pose proof (zlen_nonneg l).
  destruct (Hm a ltac:(lia)) as [v ->]. run.
  destruct (IH (λ x, if x =? a then Some b else m x) (a + 1)) as (m' & E & Hh & Ho & Hs).
  { intros x Hx. case_bool; [done|]. apply Hm. lia. }
  exists m'. split; [exact E|]. split; [|split].
  - intros [|i] c Hc; cbn in Hc.
    + injection Hc as <-. rewrite Z.add_0_r, Ho by lia. by rewrite Z.eqb_refl.
    + rewrite <- (Hh i c Hc). f_equal. lia.
  - intros x Hx. rewrite Ho by lia. case_bool; [lia|done].
  - intros x Hx. apply Hs. by case_bool.
Qed.

Lemma read_usize_ok m a x : 0 ≤ x < 2 ^ 64 → holds m a (to_le 8 x) → read_usize m a = Ret x.
Proof. intros Hx Hh. unfold read_usize. rewrite <- (zlen_to_le 8 x : _ = 8), read_bytes_ok by done. run. by rewrite from_to_le. Qed.

Section Calls.
Context {P : Profile} {BF : BitField} {BL : Bitflags} {XA : X86Addr} {M : PageMapper} {C : FsCrates} {H : GlobalHeap}.
Context (offset cpu : Z) (depth : nat) (user_segments : Z * Z) (terminal : CLeaf) (parse : list Z → option (Z * list Segment))
  (deep_copy_of : PT → BitmapFrameAllocator → out (PT * Z * BitmapFrameAllocator)) (PageTableFlags_from_bits : Z → option Z).

Abbreviation matcher := (syscall_matcher offset cpu depth user_segments terminal parse deep_copy_of PageTableFlags_from_bits).
Abbreviation handler := (syscall_handler offset cpu depth user_segments terminal parse deep_copy_of PageTableFlags_from_bits).

(** ** [syscall]

    The naked function: its arguments are in registers as the calling convention says. *)

Definition syscall_stub : list Instr :=
  [Mov RAX RDI; Mov RDI RSI; Mov RSI RDX; Mov RDX RCX; Mov R10 R8; Mov R8 R9].

Definition run_syscall (clobber : Reg → Z) (m : (Reg → Z) * list Z) (s : System) : sys (((Reg → Z) * list Z) * System) :=
  m ← Finished (foldM exec m syscall_stub);
  handler clobber m s.

(** The registers of the caller, its stack, and what a call leaves in the registers it does
    not keep. *)
Context (regs0 clobber : Reg → Z) (stack : list Z).

Definition syscall (id : Index.SyscallIndex) (arg1 arg2 arg3 arg4 arg5 : Z) (s : System) : sys (Z * System) :=
  let regs : Reg → Z := set_reg (set_reg (set_reg (set_reg (set_reg (set_reg regs0 RDI (SyscallIndex_as id)) RSI arg1) RDX arg2) RCX arg3) R8 arg4) R9 arg5 in
  '((regs, _), s) ← run_syscall clobber (regs, stack) s;
  Finished (Ret (regs RAX, s)).

Lemma run_syscall_ok regs stk s : ∃ final : Z → Reg → Z,
  (∀ r, final r RAX = r ∧ ∀ x, x ∈ RIP :: RFLAGS :: callee_saved → final r x = regs x) ∧
  run_syscall clobber (regs, stk) s =
    ('(r, s') ← matcher (regs RDI) (regs RSI) (regs RDX) (regs RCX) (regs R8) (regs R9) (regs R9) s; Finished (Ret ((final r, stk), s'))).
Proof.
  unfold run_syscall, syscall_handler. destruct (foldM exec (regs, stk) syscall_stub) as [[regs1 stk1]|] eqn:E1; [|discriminate E1].
  injection E1 as <- <-. cbn [mbind sys_mbind fst snd].
  match goal with |- context [foldM exec ?m handler_entry] => destruct (foldM exec m handler_entry) as [[regs2 stk2]|] eqn:E2; [|discriminate E2] end.
  injection E2 as <- <-. cbn [mbind sys_mbind].
  match goal with |- context [foldM exec (after_call clobber ?regs2 _, ?stk2) handler_exit] =>
    exists (λ r, match foldM exec (after_call clobber regs2 r, stk2) handler_exit with Ret m => sysretq m.1 | Panic => regs end) end.
  split; [|match goal with |- ?a ≫= ?f = ?b ≫= ?g => change (b ≫= f = b ≫= g); destruct b as [[[r s']|]|] end; reflexivity].
  intros r. split; [reflexivity|]. intros x Hx. unfold callee_saved in Hx. rewrite !elem_of_cons, elem_of_nil in Hx.
  repeat destruct Hx as [->|Hx]; [reflexivity..|done].
Qed.

(** The way into the kernel and back: the instructions of [syscall] in the library, the
    instruction SYSCALL and [syscall_handler] give [syscall_matcher] the number and the five
    arguments of the caller in their order; when it returns, RAX has its result, the stack,
    the instruction pointer, the flags and the registers of the caller are as before. *)
Theorem syscall_abi (regs : Reg → Z) (stk : list Z) (s : System) : ∃ final : Z → Reg → Z,
  (∀ r, final r RAX = r ∧ ∀ x, x ∈ RIP :: RFLAGS :: callee_saved → final r x = regs x) ∧
  run_syscall clobber (regs, stk) s =
    ('(r, s') ← matcher (regs RDI) (regs RSI) (regs RDX) (regs RCX) (regs R8) (regs R9) (regs R9) s; Finished (Ret ((final r, stk), s'))).
Proof. apply run_syscall_ok. Qed.

Lemma syscall_ok id a1 a2 a3 a4 a5 s : syscall id a1 a2 a3 a4 a5 s = matcher (SyscallIndex_as id) a1 a2 a3 a4 a5 a5 s.
Proof.
  unfold syscall. cbv zeta. match goal with |- context [run_syscall _ (?regs, _) _] => destruct (run_syscall_ok regs stack s) as (final & Hf & ->) end.
  cbn. destruct (matcher _ _ _ _ _ _ _ s) as [[[r s']|]|]; cbn; [|done|done]. by rewrite (proj1 (Hf r)).
Qed.

(** ** The wrappers

    A [String] or a slice that a wrapper is given: its address and what it holds. A panic of
    a wrapper ends the program. *)

Record Text := mkText { t_ptr : Z; t_chars : Str }.
Record Buffer := mkBuffer { b_ptr : Z; b_bytes : list Z }.

Definition t_len (t : Text) : Z := zlen (as_bytes (t_chars t)).
Definition b_len (b : Buffer) : Z := zlen (b_bytes b).

(** [mode as usize] *)
Definition OpenMode_as (m : OpenMode) : Z := match m with Read => 0 | Write => 1 | ReadWrite => 2 end.

Definition vstd_create (path : Text) (mode : OpenMode) := syscall Index.Create (t_ptr path) (t_len path) (OpenMode_as mode) 0 0.
Definition vstd_open (path : Text) (mode : OpenMode) := syscall Index.Open (t_ptr path) (t_len path) (OpenMode_as mode) 0 0.
Definition vstd_close (fd : Z) := syscall Index.Close fd 0 0 0 0.
Definition vstd_read (fd : Z) (buf : Buffer) := syscall Index.Read fd (b_ptr buf) (b_len buf) 0 0.
Definition vstd_write (fd : Z) (buf : Buffer) := syscall Index.Write fd (b_ptr buf) (b_len buf) 0 0.
Definition vstd_fsize (fd : Z) := syscall Index.Fsize fd 0 0 0 0.
Definition vstd_change_cwd (path : Text) := syscall Index.ChangeCwd (t_ptr path) (t_len path) 0 0 0.
Definition vstd_ioctl (fd cmd arg : Z) := syscall Index.IoCtl fd cmd arg 0 0.
Definition vstd_lseek (fd ptr : Z) := syscall Index.LSeek fd ptr 0 0 0.
(** The result of the call is dropped. *)
Definition vstd_mount (path partition : Text) (s : System) : sys (result unit unit * System) :=
  '(_, s) ← syscall Index.Mount (t_ptr path) (t_len path) (t_ptr partition) (t_len partition) 0 s;
  Finished (Ret (Ok tt, s)).
Definition vstd_execve (buf : Buffer) (args_ptr args_len : Z) := syscall Index.Execve (b_ptr buf) (b_len buf) args_ptr args_len 0.
Definition vstd_getpid := syscall Index.GetPid 0 0 0 0 0.
Definition vstd_kill (pid : Z) := syscall Index.Kill pid 0 0 0 0.
Definition vstd_malloc (size align : Z) := syscall Index.Malloc size align 0 0 0.
Definition vstd_free (addr size align : Z) := syscall Index.Free addr size align 0 0.
Definition vstd_sbrk (size : Z) := syscall Index.SBrk size 0 0 0 0.
Definition vstd_print (str : Text) := syscall Index.Print (t_ptr str) (t_len str) 0 0 0.

(** The test of the loop of [wait]. *)
Definition vstd_is_exited (pid : Z) := syscall Index.IsExited pid 0 0 0 0.

(** [InodeTy::from] *)
Definition InodeTy_from (data : Z) : out InodeTy := if data =? 0 then Ret Dir else if data =? 1 then Ret File else Panic.

Definition vstd_ftype (fd : Z) (s : System) : sys (InodeTy * System) :=
  '(ty, s) ← syscall Index.FType fd 0 0 0 0 s;
  if ty =? usize_max then Finished (Ret (File, s)) else Finished (t ← InodeTy_from ty; Ret (t, s)).

(** The bytes behind the pair of words at an address. *)
Definition read_pair (s : System) (p : Z) : out (list Z) :=
  buf_ptr ← read_usize (mem s) p;
  buf_len ← read_usize (mem s) (p + 8);
  read_bytes (mem s) buf_ptr buf_len.

Definition vstd_get_cwd (s : System) : sys (Str * System) :=
  '(ptr, s) ← syscall Index.GetCwd 0 0 0 0 0 s;
  Finished (l ← read_pair s ptr; path ← unwrap (from_utf8 l); Ret (path, s)).

(** [split(" ")] *)
Fixpoint split_spaces (s : Str) : list Str :=
  match s with
  | [] => [[]]
  | c :: s =>
      if c =? 32 then [] :: split_spaces s
      else match split_spaces s with [] => [[c]] | x :: xs => (c :: x) :: xs end
  end.

Definition vstd_get_args (s : System) : sys (list Str * System) :=
  '(ptr, s) ← syscall Index.GetArgs 0 0 0 0 0 s;
  Finished (args_buf_ptr ← read_usize (mem s) ptr;
    if args_buf_ptr =? 0 then Ret ([], s)
    else
      l ← read_pair s ptr;
      args ← unwrap (from_utf8 l);
      Ret (split_spaces args, s)).

(** [vec![TemporyInfo::default(); len]]: on the heap, by the allocator of the library. *)
Definition vec_infos (len : Z) (s : System) : sys (Z * System) :=
  if len =? 0 then Finished (Ret (8, s))
  else
    '(p, s) ← vstd_malloc (INFO_SIZE * len) 8 s;
    if p =? 0 then Finished Panic
    else Finished (m ← write_for_syscall (mem s) p (replicate (Z.to_nat len) (1, 0, Dir)); Ret (p, with_mem s m)).

(** An element of the vector, as a [FileInfo]. *)
Definition read_info (s : System) (p : Z) : out FileInfo :=
  l ← read_pair s p;
  t ← read_bytes (mem s) (p + 16) 1;
  t ← InodeTy_from (from_le t);
  name ← unwrap (from_utf8 l);
  Ret (mkFileInfo t name).

Definition vstd_list_dir (path : Text) (s : System) : sys (list FileInfo * System) :=
  '(len, s) ← syscall Index.DirItemNum (t_ptr path) (t_len path) 0 0 0 s;
  '(buf, s) ← vec_infos len s;
  '(_, s) ← syscall Index.ListDir (t_ptr path) (t_len path) buf 0 0 s;
  Finished (infos ← foldM (λ infos i, info ← read_info s (buf + INFO_SIZE * i); Ret (infos ++ [info])) [] (range 0 len);
    Ret (infos, s)).

(** ** What a call means

    The calls by what their arguments hold, and what they ask of the files, the tasks and
    the heap. *)

Inductive Answer := ANumber (n : Z) | ANothing | AType (t : InodeTy) | AResult (r : result unit unit).

Inductive Request :=
  | RCreate (path : Text) (mode : OpenMode)
  | ROpen (path : Text) (mode : OpenMode)
  | RClose (fd : Z)
  | RRead (fd : Z) (buf : Buffer)
  | RWrite (fd : Z) (buf : Buffer)
  | RFsize (fd : Z)
  | RFtype (fd : Z)
  | RChangeCwd (path : Text)
  | RIoctl (fd cmd arg : Z)
  | RLseek (fd offset : Z)
  | RMount (path partition : Text)
  | RExecve (buf : Buffer) (args_ptr args_len : Z)
  | RGetpid
  | RKill (pid : Z)
  | RIsExited (pid : Z)
  | RPrint (str : Text).

Definition answers {A} (f : A → Answer) (m : sys (A * System)) : sys (Answer * System) := '(a, s) ← m; Finished (Ret (f a, s)).

(** The wrapper that makes the call. *)
Definition vstd (r : Request) (s : System) : sys (Answer * System) :=
  match r with
  | RCreate path mode => answers ANumber (vstd_create path mode s)
  | ROpen path mode => answers ANumber (vstd_open path mode s)
  | RClose fd => answers ANumber (vstd_close fd s)
  | RRead fd buf => answers ANumber (vstd_read fd buf s)
  | RWrite fd buf => answers ANumber (vstd_write fd buf s)
  | RFsize fd => answers ANumber (vstd_fsize fd s)
  | RFtype fd => answers AType (vstd_ftype fd s)
  | RChangeCwd path => answers (λ _, ANothing) (vstd_change_cwd path s)
  | RIoctl fd cmd arg => answers ANumber (vstd_ioctl fd cmd arg s)
  | RLseek fd offset => answers ANumber (vstd_lseek fd offset s)
  | RMount path partition => answers AResult (vstd_mount path partition s)
  | RExecve buf args_ptr args_len => answers ANumber (vstd_execve buf args_ptr args_len s)
  | RGetpid => answers ANumber (vstd_getpid s)
  | RKill pid => answers ANumber (vstd_kill pid s)
  | RIsExited pid => answers ANumber (vstd_is_exited pid s)
  | RPrint str => answers ANumber (vstd_print str s)
  end.

Abbreviation execute := (exec_image offset cpu user_segments terminal parse deep_copy_of).

Definition perform (r : Request) (s : System) : out (Answer * System) :=
  match r with
  | RCreate path mode => '(fd, f) ← create depth (fs s) (t_chars path) File mode; Ret (ANumber (default usize_max fd), with_fs s f)
  | ROpen path mode => '(fd, f) ← open depth (fs s) (t_chars path) mode; Ret (ANumber (default usize_max fd), with_fs s f)
  | RClose fd => Ret (ANumber 0, with_fs s (close (fs s) fd).2)
  | RRead fd buf =>
      '(n, l, f) ← read (fs s) fd (b_bytes buf);
      m ← write_bytes (mem s) (b_ptr buf) l;
      Ret (ANumber n, with_mem (with_fs s f) m)
  | RWrite fd buf => '(n, f) ← write (fs s) fd (b_bytes buf); Ret (ANumber n, with_fs s f)
  | RFsize fd => n ← fsize (fs s) fd; n ← unwrap n; Ret (ANumber n, s)
  | RFtype fd =>
      match get_inode_by_fd (fs s) fd with
      | Some inode => t ← inode_type (fs s) inode; Ret (AType t, s)
      | None => Ret (AType File, s)
      end
  | RChangeCwd path => f ← change_cwd depth (fs s) (t_chars path); Ret (ANothing, with_fs s f)
  | RIoctl fd cmd arg => '(r, f) ← ioctl (fs s) fd cmd arg; Ret (ANumber r, with_fs s f)
  | RLseek fd offset =>
      Ret (ANumber (match (lseek (fs s) fd offset).1 with Some _ => 0 | None => usize_max end), with_fs s (lseek (fs s) fd offset).2)
  | RMount path partition => '(_, f) ← mount depth (fs s) (t_chars path) (t_chars partition); Ret (AResult (Ok tt), with_fs s f)
  | RExecve buf args_ptr args_len => '(pid, s) ← execute s (b_bytes buf) args_ptr args_len; Ret (ANumber pid, s)
  | RGetpid => '(pid, _) ← get_current_process cpu (tasks s); Ret (ANumber pid, s)
  | RKill pid => '(r, k) ← kill_process (tasks s) pid; Ret (ANumber r, with_tasks s k)
  | RIsExited pid => Ret (ANumber (if is_process_exited (tasks s) pid then 1 else 0), s)
  | RPrint str => Ret (ANumber 0, if decide (t_chars str = []) then s else with_console s (console s ++ [t_chars str]))
  end.

(** The memory of the program has what the arguments hold. *)
Definition text_in (s : System) (t : Text) : Prop :=
  forallb is_char (t_chars t) = true ∧ read_bytes (mem s) (t_ptr t) (t_len t) = Ret (as_bytes (t_chars t)).
Definition buffer_in (s : System) (b : Buffer) : Prop := read_bytes (mem s) (b_ptr b) (b_len b) = Ret (b_bytes b).

Definition arguments_in (s : System) (r : Request) : Prop :=
  match r with
  | RCreate path _ | ROpen path _ | RChangeCwd path => text_in s path
  | RRead _ buf | RWrite _ buf | RExecve buf _ _ => buffer_in s buf
  | RMount path partition => text_in s path ∧ text_in s partition
  | RPrint str => text_in s str
  | _ => True
  end.

Lemma SyscallIndex_from_as i : SyscallIndex_from (SyscallIndex_as i) = Ret i.
Proof. by destruct i. Qed.

Lemma OpenMode_from_as m : OpenMode_from (OpenMode_as m) = Ret m.
Proof. by destruct m. Qed.

Lemma read_str_ok s t : text_in s t → read_str s (t_ptr t) (t_len t) = Ret (t_chars t).
Proof. intros [Hc E]. unfold read_str. rewrite E. run. by rewrite from_utf8_as_bytes. Qed.

Lemma as_bytes_nil l : zlen (as_bytes l) = 0 → l = [].
Proof.
  destruct l as [|c l]; [done|]. unfold as_bytes. cbn [flat_map]. unfold zlen. rewrite length_app. intros E. exfalso.
  assert (0 < length (encode_utf8 c))%nat; [|lia]. unfold encode_utf8. repeat case_bool; cbn; lia.
Qed.

(** A call through [syscall], to its operation. *)
Ltac dispatch := rewrite syscall_ok; unfold syscall_matcher; rewrite SyscallIndex_from_as.

Lemma answers_finished {A} (f : A → Answer) m : answers f (Finished m) = Finished ('(a, s) ← m; Ret (f a, s)).
Proof. by destruct m as [[a s]|]. Qed.

(** The operation is the same on both sides. *)
Ltac same_operation :=
  repeat match goal with
  | |- context [mbind _ ?m] => match m with Ret _ => fail 1 | mbind _ _ => fail 1 | _ => let x := fresh in destruct m as [x|]; [repeat match type of x with (_ * _)%type => destruct x as [x ?] end; run|done] end
  end; try done.

Lemma vstd_ok r s : arguments_in s r → vstd r s = Finished (perform r s).
Proof.
  destruct r; cbn [arguments_in]; intros Hin; cbn [vstd perform];
    unfold vstd_create, vstd_open, vstd_close, vstd_read, vstd_write, vstd_fsize, vstd_ftype, vstd_change_cwd, vstd_ioctl, vstd_lseek, vstd_mount,
      vstd_execve, vstd_getpid, vstd_kill, vstd_is_exited, vstd_print; dispatch; rewrite ?answers_finished; try f_equal.
  - unfold sys_create. rewrite read_str_ok by done. run. rewrite OpenMode_from_as. run. same_operation.
  - unfold sys_open. rewrite read_str_ok by done. run. rewrite OpenMode_from_as. run. same_operation.
  - unfold sys_read. rewrite Hin. run. same_operation.
  - unfold sys_write. rewrite Hin. run. same_operation.
  - unfold sys_fsize. same_operation.
  - unfold sys_ftype. destruct (get_inode_by_fd _ _) as [i|]; [|done]. unfold mbind at 1, sys_mbind. destruct (inode_type _ i) as [[]|]; done.
  - unfold sys_change_cwd. rewrite read_str_ok by done. run. same_operation.
  - unfold sys_ioctl. same_operation.
  - unfold sys_lseek. by destruct (lseek _ _ _).
  - unfold sys_mount. destruct Hin. rewrite !read_str_ok by done. run. by destruct (mount _ _ _ _) as [[]|].
  - unfold sys_execve. rewrite Hin. run. same_operation.
  - unfold sys_get_pid. same_operation.
  - unfold sys_kill_process. same_operation.
  - unfold sys_print. case_bool; [apply as_bytes_nil in E; by rewrite decide_True|]. destruct Hin as [Hc ->]. run. rewrite from_utf8_as_bytes by done.
    run. rewrite decide_False; [done|]. intros En. unfold t_len in E. rewrite En in E. done.
Qed.

(** [C4] The sixteen calls of the library with plain arguments and answers (files: create, open, close, read, write,
    fsize, ftype, change_cwd, ioctl, lseek, mount; tasks: execve, getpid, kill, the test of wait; print) do what they
    say: with the strings and buffers of its arguments in the memory of the program, the wrapper returns
    and changes what the operation on files, tasks or output does with those strings, buffers and numbers, through
    the registers, the number of the call, the dispatch and the decoding of the arguments. [mount] answers with
    success whatever the kernel reports. *)
Theorem vstd_refines (r : Request) (s : System) (Hin : arguments_in s r) : vstd r s = Finished (perform r s).
Proof. by apply vstd_ok. Qed.

(** ** The heap and what programs keep in it *)

Context {HL : GlobalHeapLaws H}.

(** The requests of a list of sizes and alignments succeed, and leave this heap. *)
Fixpoint alloc_all (h : HeapState) (l : list (Z * Z)) : option HeapState :=
  match l with
  | [] => Some h
  | (size, align) :: l => let '(p, h) := heap_alloc h size align in if p =? 0 then None else alloc_all h l
  end.

Lemma alloc_all_app h l1 l2 : alloc_all h (l1 ++ l2) = (h ← alloc_all h l1; alloc_all h l2).
Proof. revert h. induction l1 as [|[n a] l1 IH]; intros h; cbn; [done|]. destruct (heap_alloc h n a). by case_bool. Qed.

(** Addresses that a later allocation does not touch: outside of the heap, or held. *)
Definition owned (h : HeapState) (x : Z) : Prop :=
  x < HEAP_START ∨ HEAP_START + HEAP_SIZE ≤ x ∨ ∃ q n, held h !! q = Some n ∧ q ≤ x < q + n.

Definition kept (h : HeapState) (m m' : Z → option Z) : Prop := ∀ x, owned h x → m' x = m x.

Definition heap_mapped (m : Z → option Z) : Prop := mapped m HEAP_START HEAP_SIZE.

Definition owned_range (h : HeapState) (a n : Z) : Prop := ∀ x, a ≤ x < a + n → owned h x.

Lemma kept_holds h m m' a l : kept h m m' → owned_range h a (zlen l) → holds m a l → holds m' a l.
Proof. intros Hk Ho Hh i b Hi. rewrite Hk; [by apply Hh|]. apply Ho. apply lookup_lt_Some in Hi. unfold zlen. lia. Qed.

Definition heap_grows (h h' : HeapState) : Prop := ∀ q n, held h !! q = Some n → held h' !! q = Some n.

Lemma owned_grows h h' x : heap_grows h h' → owned h x → owned h' x.
Proof. intros Hg [?|[?|(q & n & Hq & Hx)]]; [by left|by right; left|]. right; right. exists q, n. split; [by apply Hg|done]. Qed.

Lemma kept_trans h h1 m m1 m2 : heap_grows h h1 → kept h m m1 → kept h1 m1 m2 → kept h m m2.
Proof. intros Hg H1 H2 x Hx. rewrite (H2 x) by (by eapply owned_grows). by apply H1. Qed.

(** A new block, and writing to it. *)
Lemma new_block h n a p h' : 0 < n → 0 < a → heap_alloc h n a = (p, h') → p ≠ 0 →
  heap_grows h h' ∧ held h' !! p = Some n ∧ HEAP_START ≤ p ∧ p + n ≤ HEAP_START + HEAP_SIZE ∧ ∀ x, p ≤ x < p + n → ¬ owned h x.
Proof.
  intros Hn Ha E Hp. destruct (heap_alloc_spec h n a p h' Hn Ha E) as [[? _]|(H1 & H2 & _ & Hh & Hno & Hd)]; [done|]. unfold heap_grows. rewrite Hh. split.
  - intros q k Hq. rewrite lookup_insert_ne; [done|]. intros ->. congruence.
  - split; [apply lookup_insert_eq|]. split; [done|]. split; [done|]. intros x Hx [?|[?|(q & k & Hq & Hqx)]]; [lia|lia|]. destruct (Hd q k Hq); lia.
Qed.

Lemma write_block h n a p h' m l : 0 < n → 0 < a → heap_alloc h n a = (p, h') → p ≠ 0 → heap_mapped m → zlen l = n →
  ∃ m', write_bytes m p l = Ret m' ∧ holds m' p l ∧ kept h m m' ∧ heap_mapped m'.
Proof.
  intros Hn Ha E Hp Hm Hl. destruct (new_block h n a p h' Hn Ha E Hp) as (_ & _ & H1 & H2 & Hno).
  destruct (write_bytes_ok l m p) as (m' & Ew & Hh & Ho & Hs); [intros x Hx; apply Hm; lia|]. exists m'. split; [done|]. split; [done|]. split.
  - intros x Hx. apply Ho. intros Hin. apply (Hno x); [lia|done].
  - intros x Hx. by apply Hs, Hm.
Qed.

Lemma vec_zeroed_ok s n p h : 0 < n → heap_alloc (heap_of s) n 1 = (p, h) → p ≠ 0 → heap_mapped (mem s) →
  ∃ m, vec_zeroed s n = Ret (p, with_mem (with_heap s h) m) ∧ kept (heap_of s) (mem s) m ∧ heap_mapped m.
Proof.
  intros Hn E Hp Hm. unfold vec_zeroed. rewrite (proj2 (Z.eqb_neq n 0)) by lia. rewrite E, (proj2 (Z.eqb_neq p 0)) by done.
  destruct (write_block (heap_of s) n 1 p h (mem s) (replicate (Z.to_nat n) 0)) as (m & -> & _ & Hk & Hm'); [done|lia|done..|unfold zlen; rewrite length_replicate; lia|].
  by exists m.
Qed.

(** What the kernel leaves for a program: bytes in a block of their own. *)
Record Leaked (h : HeapState) (m : Z → option Z) (h' : HeapState) (m' : Z → option Z) (p : Z) (l : list Z) : Prop := {
  le_holds : holds m' p l;
  le_kept : kept h m m';
  le_mapped : heap_mapped m';
  le_grows : heap_grows h h';
  le_owned : owned_range h' p (zlen l);
  le_new x : p ≤ x < p + zlen l → ¬ owned h x;
  le_range : 0 ≤ p < 2 ^ 47 ∧ zlen l < 2 ^ 47;
}.

Definition str_req (path : Str) : list (Z * Z) := if zlen (as_bytes path) =? 0 then [] else [(zlen (as_bytes path), 1)].

Lemma heap_end : HEAP_START + HEAP_SIZE < 2 ^ 47 - 16.
Proof. reflexivity. Qed.

Lemma leak_str_ok s path h : heap_mapped (mem s) → alloc_all (heap_of s) (str_req path) = Some h →
  ∃ p m, leak_str s path = Ret (p, with_mem (with_heap s h) m) ∧ Leaked (heap_of s) (mem s) h m p (as_bytes path).
Proof.
  intros Hm. unfold str_req, leak_str. cbv zeta. destruct (zlen (as_bytes path) =? 0) eqn:E0; breflect.
  - intros [= <-]. exists 1, (mem s). unfold vec_zeroed. rewrite E0. run. destruct (as_bytes path) eqn:El; [|unfold zlen in E0; cbn in E0; lia].
    cbn [write_bytes]. run. split; [by destruct s|]. split; [apply holds_nil|by intros x|done|by intros q n|intros x Hx; unfold zlen in Hx; cbn in Hx; lia..|].
    unfold zlen. cbn. lia.
  - cbn [alloc_all]. destruct (heap_alloc _ _ _) as [p h1] eqn:E. case_bool; [done|]. intros [= ->]. pose proof (zlen_nonneg (as_bytes path)).
    destruct (vec_zeroed_ok s (zlen (as_bytes path)) p h) as (m1 & -> & Hk1 & Hm1); [lia|done|done|done|]. run.
    destruct (write_block (heap_of s) (zlen (as_bytes path)) 1 p h m1 (as_bytes path)) as (m2 & E2 & Hh & Hk2 & Hm2); [lia|lia|done..|]. cbn [mem with_mem]. rewrite E2. run.
    destruct (new_block (heap_of s) (zlen (as_bytes path)) 1 p h) as (Hg & Hp & Hp1 & Hp2 & Hno); [lia|lia|done|done|]. exists p, m2. split; [done|].
    pose proof heap_end. split; [done| |done|done| |done|unfold HEAP_START in *; lia].
    + intros x Hx. by rewrite (Hk2 x Hx), (Hk1 x Hx).
    + intros x Hx. right; right. by exists p, (zlen (as_bytes path)).
Qed.

Definition pair_bytes (a b : Z) : list Z := to_le 8 a ++ to_le 8 b.

Lemma zlen_pair a b : zlen (pair_bytes a b) = 16.
Proof. unfold pair_bytes, zlen. by rewrite length_app, !length_to_le. Qed.

Lemma write_pair_ok m p a b : mapped m p 16 → ∃ m1 m2, write_usize m p a = Ret m1 ∧ write_usize m1 (p + 8) b = Ret m2 ∧
  holds m2 p (pair_bytes a b) ∧ (∀ x, ¬ (p ≤ x < p + 16) → m2 x = m x) ∧ ∀ x, is_Some (m x) → is_Some (m2 x).
Proof.
  intros Hm. unfold write_usize. destruct (write_bytes_ok (to_le 8 a) m p) as (m1 & E1 & H1 & O1 & S1); [intros x Hx; rewrite zlen_to_le in Hx; apply Hm; lia|].
  destruct (write_bytes_ok (to_le 8 b) m1 (p + 8)) as (m2 & E2 & H2 & O2 & S2); [intros x Hx; rewrite zlen_to_le in Hx; apply S1, Hm; lia|].
  rewrite !zlen_to_le in *. exists m1, m2. split; [done|]. split; [done|]. split; [|split].
  - apply holds_app. rewrite zlen_to_le. split; [|done]. intros i c Hi. rewrite O2; [by apply H1|]. apply lookup_lt_Some in Hi. rewrite length_to_le in Hi. lia.
  - intros x Hx. rewrite O2, O1 by lia. done.
  - intros x Hx. by apply S2, S1.
Qed.

Lemma leak_pair_ok s a b h : heap_mapped (mem s) → alloc_all (heap_of s) [(16, 1)] = Some h →
  ∃ p m, leak_pair s a b = Ret (p, with_mem (with_heap s h) m) ∧ Leaked (heap_of s) (mem s) h m p (pair_bytes a b).
Proof.
  intros Hm. cbn [alloc_all]. destruct (heap_alloc _ _ _) as [p h1] eqn:E. case_bool; [done|]. intros [= ->]. unfold leak_pair.
  destruct (vec_zeroed_ok s 16 p h) as (m1 & -> & Hk1 & Hm1); [lia|done|done|done|]. run. cbn [mem with_mem].
  destruct (new_block (heap_of s) 16 1 p h) as (Hg & Hp & Hp1 & Hp2 & Hno); [lia|lia|done|done|]. pose proof heap_end.
  destruct (write_pair_ok m1 p a b) as (m2 & m3 & E2 & E3 & Hh & Ho & Hs); [intros x Hx; apply Hm1; lia|].
  rewrite !VirtAddr_new_ok by (unfold HEAP_START in *; lia). run. rewrite E2. run. rewrite E3. run. exists p, m3. split; [done|]. split; [done| | |done| |intros x Hx; rewrite zlen_pair in Hx; by apply Hno|rewrite zlen_pair; unfold HEAP_START in *; lia].
  - intros x Hx. rewrite Ho; [by apply Hk1|]. intros Hin. by apply (Hno x).
  - intros x Hx. apply Hs, Hm1, Hx.
  - intros x Hx. rewrite zlen_pair in Hx. right; right. exists p, 16. split; [done|lia].
Qed.

Lemma read_pair_ok s p a l : 0 ≤ a < 2 ^ 64 → zlen l < 2 ^ 64 → holds (mem s) p (pair_bytes a (zlen l)) → holds (mem s) a l → read_pair s p = Ret l.
Proof.
  intros Ha Hl [Hh1 Hh2]%holds_app Hh. rewrite zlen_to_le in Hh2. unfold read_pair. rewrite (read_usize_ok (mem s) p a Ha Hh1). run.
  rewrite (read_usize_ok _ _ (zlen l)); [|split; [apply zlen_nonneg|done]|done]. run. by apply read_bytes_ok.
Qed.

Lemma Leaked_later h m h' m' p l h2 m2 : Leaked h m h' m' p l → heap_grows h' h2 → kept h' m' m2 → holds m2 p l ∧ owned_range h2 p (zlen l).
Proof.
  intros L Hg Hk. split; [eapply kept_holds; [exact Hk|apply L|apply L]|]. intros x Hx. eapply owned_grows; [exact Hg|]. by apply (le_owned _ _ _ _ _ _ L).
Qed.

(** The path a program gets is the path of the kernel. *)
Lemma vstd_get_cwd_ok s path h : get_cwd (fs s) = Ret path → forallb is_char path = true → heap_mapped (mem s) →
  zlen (as_bytes path) < 2 ^ 64 → alloc_all (heap_of s) (str_req path ++ [(16, 1)]) = Some h →
  ∃ m, vstd_get_cwd s = Finished (Ret (path, with_mem (with_heap s h) m)) ∧ kept (heap_of s) (mem s) m.
Proof.
  intros Ec Hc Hm Hl Ha. rewrite alloc_all_app in Ha. destruct (alloc_all (heap_of s) (str_req path)) as [h1|] eqn:E1; [|done]. cbn [mbind option_bind] in Ha.
  unfold vstd_get_cwd. dispatch. unfold sys_get_cwd. rewrite Ec. run.
  destruct (leak_str_ok s path h1 Hm E1) as (p & m1 & -> & L1). run.
  destruct (leak_pair_ok (with_mem (with_heap s h1) m1) p (zlen (as_bytes path)) h) as (q & m2 & -> & L2); [apply L1|done|]. cbn [mbind sys_mbind].
  exists m2. destruct (Leaked_later _ _ _ _ _ _ h m2 L1) as [Hp _]; [apply L2|apply L2|].
  rewrite (read_pair_ok _ q p (as_bytes path)); [|destruct (le_range _ _ _ _ _ _ L1); lia|done|apply L2|done]. run.
  rewrite from_utf8_as_bytes by done. split; [done|]. eapply kept_trans; [apply L1|apply L1|apply L2].
Qed.

(** *** Directories *)

Definition info_req (info : FileInfo) : list (Z * Z) := str_req (name info).

(** The bytes of an element of the vector. *)
Definition info_bytes (x : Z * Z * InodeTy) : list Z := let '(p, n, t) := x in pair_bytes p n ++ [InodeTy_as t].

Lemma zlen_info x : zlen (info_bytes x) = 17.
Proof. destruct x as [[p n] t]. unfold info_bytes. rewrite zlen_app, zlen_pair. done. Qed.

(** A triple that stands for a directory entry, its name in memory that is not of [h0]. *)
Definition stands (h0 h : HeapState) (m : Z → option Z) (info : FileInfo) (x : Z * Z * InodeTy) : Prop :=
  let '(p, n, t) := x in n = zlen (as_bytes (name info)) ∧ t = ty info ∧ holds m p (as_bytes (name info)) ∧
    owned_range h p n ∧ (∀ y, p ≤ y < p + n → ¬ owned h0 y) ∧ 0 ≤ p < 2 ^ 47 ∧ 0 ≤ n < 2 ^ 47.

Lemma stands_later h0 h m h' m' info x : heap_grows h h' → kept h m m' → stands h0 h m info x → stands h0 h' m' info x.
Proof.
  destruct x as [[p n] t]. intros Hg Hk (-> & H2 & H3 & H4 & H5). split; [done|]. split; [done|]. split; [by eapply kept_holds|]. split; [|done].
  intros y Hy. eapply owned_grows; [exact Hg|]. by apply H4.
Qed.

Lemma leak_infos_ok h0 infos : ∀ s acc h, heap_mapped (mem s) → heap_grows h0 (heap_of s) → alloc_all (heap_of s) (infos ≫= info_req) = Some h →
  ∃ l m, foldM (λ '(new_infos, s) info, '(new_name, s) ← leak_str s (name info); Ret (new_infos ++ [(new_name, zlen (as_bytes (name info)), ty info)], s)) (acc, s) infos
      = Ret (acc ++ l, with_mem (with_heap s h) m) ∧ Forall2 (stands h0 h m) infos l ∧ kept (heap_of s) (mem s) m ∧ heap_mapped m ∧ heap_grows (heap_of s) h.
Proof.
  induction infos as [|info infos IH]; intros s acc h Hm Hg0 Ha; cbn [foldM].
  { injection Ha as <-. exists [], (mem s). rewrite app_nil_r. split; [by destruct s|]. split; [constructor|]. split; [by intros x|]. by split; [|intros q n]. }
  rewrite bind_cons, alloc_all_app in Ha. destruct (alloc_all (heap_of s) (info_req info)) as [h1|] eqn:E1; [|done]. cbn [mbind option_bind] in Ha.
  destruct (leak_str_ok s (name info) h1 Hm E1) as (p & m1 & -> & L1). run.
  destruct (IH (with_mem (with_heap s h1) m1) (acc ++ [(p, zlen (as_bytes (name info)), ty info)]) h) as (l & m & E & Hf & Hk & Hm' & Hg);
    [apply L1|intros q n Hq; by apply L1, Hg0|done|].
  exists ((p, zlen (as_bytes (name info)), ty info) :: l), m. split; [rewrite E, <- app_assoc; done|]. cbn [heap_of mem with_mem with_heap] in Hk, Hg. split; [|split; [|split; [done|]]].
  - constructor; [|done]. eapply stands_later; [exact Hg|exact Hk|]. split; [done|]. split; [done|]. split; [apply L1|]. split; [apply L1|]. split.
    + intros y Hy Hy0. eapply (le_new _ _ _ _ _ _ L1); [exact Hy|]. by eapply owned_grows.
    + pose proof (le_range _ _ _ _ _ _ L1) as [??]. pose proof (zlen_nonneg (as_bytes (name info))). done.
  - eapply kept_trans; [apply L1|apply L1|done].
  - intros q n Hq. by apply Hg, L1.
Qed.

Lemma write_info_ok m a x : mapped m a INFO_SIZE → ∃ m', write_info m a x = Ret m' ∧ holds m' a (info_bytes x) ∧
  (∀ y, ¬ (a ≤ y < a + INFO_SIZE) → m' y = m y) ∧ ∀ y, is_Some (m y) → is_Some (m' y).
Proof.
  intros Hm. destruct x as [[p n] t]. unfold write_info, INFO_SIZE in *.
  destruct (write_pair_ok m a p n) as (m1 & m2 & -> & E2 & Hh & Ho & Hs); [intros y Hy; apply Hm; lia|]. run. rewrite E2. run.
  destruct (write_bytes_ok [InodeTy_as t] m2 (a + 16)) as (m3 & -> & Hh3 & Ho3 & Hs3); [intros y Hy; apply Hs, Hm; unfold zlen in Hy; cbn in Hy; lia|].
  change (zlen [InodeTy_as t]) with 1 in *. exists m3. split; [done|]. split; [|split].
  - apply holds_app. rewrite zlen_pair. split; [|done]. intros i b Hi. rewrite Ho3; [by apply Hh|]. apply lookup_lt_Some in Hi.
    pose proof (zlen_pair p n). unfold zlen in *. lia.
  - intros y Hy. rewrite Ho3, Ho by lia. done.
  - intros y Hy. by apply Hs3, Hs.
Qed.

Lemma write_for_syscall_ok m a l : mapped m a (INFO_SIZE * zlen l) → ∃ m', write_for_syscall m a l = Ret m' ∧
  (∀ i x, l !! i = Some x → holds m' (a + INFO_SIZE * Z.of_nat i) (info_bytes x)) ∧
  (∀ y, ¬ (a ≤ y < a + INFO_SIZE * zlen l) → m' y = m y) ∧ ∀ y, is_Some (m y) → is_Some (m' y).
Proof.
  unfold write_for_syscall, INFO_SIZE. induction l as [|x l IH] using rev_ind; intros Hm; [exists m; split; [done|]; split; [intros i x Hi; by rewrite lookup_nil in Hi|done]|].
  assert (zlen (l ++ [x]) = zlen l + 1) as Hz by (unfold zlen; rewrite length_app; cbn; lia). pose proof (zlen_nonneg l).
  destruct IH as (m1 & E1 & H1 & O1 & S1); [intros y Hy; apply Hm; lia|]. rewrite imap_app. cbn [imap]. rewrite Nat.add_0_r, foldM_snoc, E1. change (Z.of_nat (length l)) with (zlen l). run.
  destruct (write_info_ok m1 (a + 24 * zlen l) x) as (m2 & -> & H2 & O2 & S2); [intros y Hy; apply S1, Hm; unfold INFO_SIZE in *; lia|]. unfold INFO_SIZE in *.
  exists m2. split; [done|]. split; [|split].
  - intros i y [Hi|[Hl Hi]]%lookup_app_Some.
    + intros j b Hj. rewrite O2; [exact (H1 i y Hi j b Hj)|]. pose proof (zlen_info y). apply lookup_lt_Some in Hj, Hi. unfold zlen in *. lia.
    + apply list_lookup_singleton_Some in Hi as [Hi <-]. assert (Z.of_nat i = zlen l) as -> by (unfold zlen; lia). done.
  - intros y Hy. rewrite O2, O1 by lia. done.
  - intros y Hy. by apply S2, S1.
Qed.

Definition buf_req (len : Z) : list (Z * Z) := if len =? 0 then [] else [(INFO_SIZE * len, 8)].

Lemma vec_infos_ok len s h : 0 ≤ len → heap_mapped (mem s) → alloc_all (heap_of s) (buf_req len) = Some h →
  ∃ p m, vec_infos len s = Finished (Ret (p, with_mem (with_heap s h) m)) ∧ kept (heap_of s) (mem s) m ∧ heap_mapped m ∧
    heap_grows (heap_of s) h ∧ owned_range h p (INFO_SIZE * len) ∧ mapped m p (INFO_SIZE * len) ∧ 0 ≤ p < 2 ^ 47 ∧
    ∀ x, p ≤ x < p + INFO_SIZE * len → ¬ owned (heap_of s) x.
Proof.
  intros Hl Hm. unfold vec_infos, buf_req, INFO_SIZE. destruct (len =? 0) eqn:E0; breflect.
  - intros [= <-]. subst. exists 8, (mem s). split; [by destruct s|]. split; [by intros x|]. split; [done|]. split; [by intros q n|].
    split; [intros x Hx; lia|]. split; [intros x Hx; lia|]. split; [lia|intros x Hx; lia].
  - cbn [alloc_all]. destruct (heap_alloc _ _ _) as [p h1] eqn:E. case_bool; [done|]. intros [= ->].
    destruct (new_block (heap_of s) (24 * len) 8 p h) as (Hg & Hp & Hp1 & Hp2 & Hno); [lia|lia|done|done|]. pose proof heap_end as He.
    unfold vstd_malloc. dispatch. unfold sys_malloc, Layout_ok. rewrite E. replace (is_power_of_two 8) with true by done.
    rewrite (proj2 (Z.leb_le (24 * len) _)) by (unfold HEAP_START in *; lia). cbn [andb mbind sys_mbind]. rewrite (proj2 (Z.eqb_neq p 0)) by done.
    assert (zlen (replicate (Z.to_nat len) (1, 0, Dir)) = len) as Hz by (unfold zlen; rewrite length_replicate; lia).
    destruct (write_for_syscall_ok (mem s) p (replicate (Z.to_nat len) (1, 0, Dir))) as (m & E2 & _ & Ho & Hs); [intros x Hx; apply Hm; unfold INFO_SIZE in Hx; lia|].
    cbn [mem with_heap]. rewrite E2. run. rewrite Hz in Ho. unfold INFO_SIZE in Ho. exists p, m. split; [done|]. split; [|split; [|split; [done|split; [|split; [|split; [unfold HEAP_START in *; lia|done]]]]]].
    + intros x Hx. apply Ho. intros Hin. apply (Hno x); [lia|done].
    + intros x Hx. by apply Hs, Hm.
    + intros x Hx. right; right. by exists p, (24 * len).
    + intros x Hx. apply Hs, Hm. lia.
Qed.

Lemma read_bytes_ext m m' a n : (∀ x, a ≤ x < a + n → m' x = m x) → read_bytes m' a n = read_bytes m a n.
Proof.
  intros Hx. unfold read_bytes. destruct (Z.le_gt_cases n 0) as [?|Hn]; [by rewrite range_nil by lia|].
  revert Hx. pattern n. apply Zlt_lower_bound_ind with (z := 0); [|lia]. clear n Hn. intros n IH Hn Hx.
  destruct (decide (n = 0)) as [->|]; [done|]. replace n with ((n - 1) + 1) by lia. rewrite range_snoc by lia. rewrite !foldM_snoc, IH; [|lia|intros; apply Hx; lia].
  destruct (foldM _ _ _); run; [|done]. rewrite Hx by lia. done.
Qed.

Lemma text_kept h s t m h' : text_in s t → owned_range h (t_ptr t) (t_len t) → kept h (mem s) m → text_in (with_mem (with_heap s h') m) t.
Proof.
  intros [Hc E] Ho Hk. split; [done|]. cbn [mem with_mem]. rewrite (read_bytes_ext (mem s)); [done|]. intros x Hx. by apply Hk, Ho.
Qed.

Lemma foldM_collect {A} (f : Z → out A) l : (∀ i x, l !! i = Some x → f (Z.of_nat i) = Ret x) →
  foldM (λ acc i, x ← f i; Ret (acc ++ [x])) [] (range 0 (zlen l)) = Ret l.
Proof.
  induction l as [|x l IH] using rev_ind; intros Hf; [done|]. rewrite zlen_app. change (zlen [x]) with 1. rewrite range_snoc by apply zlen_nonneg.
  rewrite foldM_snoc, IH; [|intros i y Hi; apply Hf; by apply lookup_app_l_Some]. run. change (zlen l) with (Z.of_nat (length l)). rewrite (Hf (length l) x); [done|].
  by rewrite lookup_app_r, Nat.sub_diag by lia.
Qed.

Lemma read_info_ok h0 h m s q info x : stands h0 h m info x → forallb is_char (name info) = true → (∀ y, ¬ owned h0 y → mem s y = m y) →
  holds (mem s) q (info_bytes x) → read_info s q = Ret info.
Proof.
  destruct x as [[p n] t]. intros (-> & -> & Hp & Ho & Hno & Hpr & Hnr) Hc Hs Hq. apply holds_app in Hq as [Hq1 Hq2]. rewrite zlen_pair in Hq2. unfold read_info.
  rewrite (read_pair_ok s q p (as_bytes (name info))); [|lia|lia|done|].
  - run. change 1 with (zlen [InodeTy_as (ty info)]). rewrite (read_bytes_ok (mem s) (q + 16) [InodeTy_as (ty info)]) by done. run. rewrite from_utf8_as_bytes by done.
    destruct info as [[] nm]; run; done.
  - intros i b Hi. rewrite Hs; [by apply Hp|]. apply Hno. apply lookup_lt_Some in Hi. unfold zlen in *. lia.
Qed.

Lemma vstd_list_dir_ok path s infos f1 f2 h : text_in s path → owned_range (heap_of s) (t_ptr path) (t_len path) → heap_mapped (mem s) →
  list_dir depth (fs s) (t_chars path) = Ret (infos, f1) → list_dir depth f1 (t_chars path) = Ret (infos, f2) →
  Forall (λ i, forallb is_char (name i) = true) infos → alloc_all (heap_of s) (buf_req (zlen infos) ++ (infos ≫= info_req)) = Some h →
  ∃ m, vstd_list_dir path s = Finished (Ret (infos, with_mem (with_heap (with_fs s f2) h) m)) ∧ kept (heap_of s) (mem s) m.
Proof.
  intros Ht Hto Hm E1 E2 Hn Ha. rewrite alloc_all_app in Ha. destruct (alloc_all (heap_of s) _) as [h1|] eqn:Ea; [|done]. cbn [mbind option_bind] in Ha.
  unfold vstd_list_dir. dispatch. unfold sys_dir_item_num. rewrite read_str_ok by done. run. rewrite E1. run. cbn [mbind sys_mbind].
  destruct (vec_infos_ok (zlen infos) (with_fs s f1) h1) as (p & m1 & -> & Hk1 & Hm1 & Hg1 & Ho1 & Hp1 & Hpr & Hnew); [apply zlen_nonneg|done|done|].
  cbn [mbind sys_mbind heap_of mem with_fs] in *. dispatch. unfold sys_list_dir.
  rewrite read_str_ok by (by eapply (text_kept (heap_of s) (with_fs s f1))). run. cbn [fs with_mem with_heap with_fs]. rewrite E2. run. unfold leak_infos.
  destruct (leak_infos_ok h1 infos (with_fs (with_mem (with_heap (with_fs s f1) h1) m1) f2) [] h) as (l & m2 & -> & Hf & Hk2 & Hm2 & Hg2); [done|by intros q n|done|]. run.
  rewrite VirtAddr_new_ok by lia. run. cbn [mem heap_of with_mem with_heap with_fs app] in *. pose proof (Forall2_length _ _ _ Hf) as Hlen.
  assert (zlen l = zlen infos) as Hzl by (unfold zlen; lia).
  destruct (write_for_syscall_ok m2 p l) as (m3 & -> & Hh & Ho & Hs).
  { intros x Hx. rewrite Hk2 by (apply Ho1; lia). apply Hp1. lia. }
  run. cbn [mbind sys_mbind]. exists m3. rewrite (foldM_collect (λ i, read_info _ (p + INFO_SIZE * i)) infos).
  - run. split; [done|]. intros x Hx. rewrite Ho.
    + rewrite Hk2 by (by eapply owned_grows). by apply Hk1.
    + intros Hin. apply (Hnew x); [lia|done].
  - intros i info Hi. destruct (Forall2_lookup_l _ _ _ _ _ Hf Hi) as (x & Hx & Hst). rewrite Forall_forall in Hn.
    eapply read_info_ok; [exact Hst|apply Hn; by eapply list_elem_of_lookup_2| |by apply Hh].
    intros y Hy. cbn [mem with_mem]. apply Ho. intros Hin. apply Hy, Ho1. lia.
Qed.

(** [C26] Listing a directory, from the program down to the inodes and back: [list_dir] of the
    library counts the entries, reserves a vector for them, has the kernel fill it with
    addresses of the names it copied, and returns exactly the names and types of the kernel's
    [list_dir], provided the directory does not change in between. No memory that the program
    or the kernel held before is written. *)
Theorem list_dir_roundtrip (path : Text) (s : System) (infos : list FileInfo) (f1 f2 : Vfs) (h : HeapState)
    (Ht : text_in s path) (Hto : owned_range (heap_of s) (t_ptr path) (t_len path)) (Hm : heap_mapped (mem s))
    (E1 : list_dir depth (fs s) (t_chars path) = Ret (infos, f1)) (E2 : list_dir depth f1 (t_chars path) = Ret (infos, f2))
    (Hn : Forall (λ i, forallb is_char (name i) = true) infos)
    (Ha : alloc_all (heap_of s) (buf_req (zlen infos) ++ (infos ≫= info_req)) = Some h) :
  ∃ m, vstd_list_dir path s = Finished (Ret (infos, with_mem (with_heap (with_fs s f2) h) m)) ∧ kept (heap_of s) (mem s) m.
Proof. by apply (vstd_list_dir_ok path s infos f1). Qed.

(** The path that a program gets is the path of the kernel. *)
Theorem get_cwd_roundtrip (s : System) (path : Str) (h : HeapState) (Ec : get_cwd (fs s) = Ret path)
    (Hc : forallb is_char path = true) (Hm : heap_mapped (mem s)) (Hl : zlen (as_bytes path) < 2 ^ 64)
    (Ha : alloc_all (heap_of s) (str_req path ++ [(16, 1)]) = Some h) :
  ∃ m, vstd_get_cwd s = Finished (Ret (path, with_mem (with_heap s h) m)) ∧ kept (heap_of s) (mem s) m.
Proof. by apply vstd_get_cwd_ok. Qed.

(** ** The heap calls

    Programs allocate with [malloc], [free] and [sbrk]; [mmap] without an address is
    [sbrk]. *)

Inductive MemCall :=
  | CMalloc (size align : Z)
  | CFree (addr size align : Z)
  | CSbrk (size : Z)
  | CMmap (len prot flags : Z).

Definition mem_call (c : MemCall) : System → sys (Z * System) :=
  match c with
  | CMalloc size align => vstd_malloc size align
  | CFree addr size align => vstd_free addr size align
  | CSbrk size => vstd_sbrk size
  | CMmap len prot flags => syscall Index.Mmap 0 len prot flags 0
  end.

(** The blocks of [malloc] that programs have not freed, after a call that returned [r]. *)
Definition given_after (c : MemCall) (r : Z) (given : gmap Z Z) : gmap Z Z :=
  match c with
  | CMalloc size _ => if r =? 0 then given else <[r := size]> given
  | CFree addr _ _ => delete addr given
  | _ => given
  end.

(** What programs keep to: sizes that are not zero, and [free] of a block of [malloc] with
    the size it was asked for. *)
Definition allowed (given : gmap Z Z) (c : MemCall) : Prop :=
  match c with
  | CMalloc size align => 0 < size
  | CFree addr size align => given !! addr = Some size ∧ Layout_ok size align = true
  | CSbrk size | CMmap size _ _ => 0 ≤ size < 2 ^ 64
  end.

Inductive heap_run (s : System) (given : gmap Z Z) : System → gmap Z Z → Prop :=
  | run_none : heap_run s given s given
  | run_call s1 g1 c r s2 : heap_run s given s1 g1 → allowed g1 c → mem_call c s1 = Finished (Ret (r, s2)) →
      heap_run s given s2 (given_after c r g1).

(** Blocks of [malloc] and of [sbrk] are held, no block is of both, and held blocks do not
    overlap. *)
Record HeapInv (s : System) (given : gmap Z Z) : Prop := {
  hi_given p n : given !! p = Some n → held (heap_of s) !! p = Some n;
  hi_sbrk p v : C_ALLOCATION_MAP s !! p = Some v → ∃ n, v = (p, n, n) ∧ held (heap_of s) !! p = Some n;
  hi_apart p : is_Some (given !! p) → C_ALLOCATION_MAP s !! p = None;
  hi_disjoint p n q k : held (heap_of s) !! p = Some n → held (heap_of s) !! q = Some k → p ≠ q → p + n ≤ q ∨ q + k ≤ p;
  hi_range p n : held (heap_of s) !! p = Some n → HEAP_START ≤ p ∧ 0 < n ∧ p + n ≤ HEAP_START + HEAP_SIZE;
  hi_mapped : heap_mapped (mem s);
}.

(** A new block keeps the part of the invariant that is about the heap. *)
Lemma alloc_disjoint h n a p h' : 0 < n → 0 < a → heap_alloc h n a = (p, h') → p ≠ 0 →
  (∀ p n q k, held h !! p = Some n → held h !! q = Some k → p ≠ q → p + n ≤ q ∨ q + k ≤ p) →
  (∀ p n, held h !! p = Some n → HEAP_START ≤ p ∧ 0 < n ∧ p + n ≤ HEAP_START + HEAP_SIZE) →
  held h !! p = None ∧ held h' = <[p := n]> (held h) ∧
  (∀ p n q k, held h' !! p = Some n → held h' !! q = Some k → p ≠ q → p + n ≤ q ∨ q + k ≤ p) ∧
  (∀ p n, held h' !! p = Some n → HEAP_START ≤ p ∧ 0 < n ∧ p + n ≤ HEAP_START + HEAP_SIZE).
Proof.
  intros Hn Ha E Hp Hd Hr. destruct (heap_alloc_spec h n a p h' Hn Ha E) as [[? _]|(H1 & H2 & _ & Hh & Hno & Hnew)]; [done|].
  split; [done|]. split; [done|]. rewrite Hh. split.
  - intros x i y j Hx Hy Hxy. apply lookup_insert_Some in Hx as [[<- <-]|[Hx1 Hx]], Hy as [[<- <-]|[Hy1 Hy]]; [done| | |by eapply Hd].
    + by apply Hnew.
    + destruct (Hnew x i Hx); lia.
  - intros x i Hx. apply lookup_insert_Some in Hx as [[<- <-]|[Hx1 Hx]]; [lia|by apply Hr].
Qed.

Lemma alloc_failed h n a h' : 0 < n → 0 < a → heap_alloc h n a = (0, h') → held h' = held h.
Proof. intros Hn Ha E. destruct (heap_alloc_spec h n a 0 h' Hn Ha E) as [[_ ?]|(H1 & _)]; [done|unfold HEAP_START in H1; lia]. Qed.

Lemma Layout_align size align : Layout_ok size align = true → 0 < align.
Proof. unfold Layout_ok, is_power_of_two. rewrite !andb_true_iff, Z.ltb_lt. tauto. Qed.

Lemma malloc_ok s g size align : HeapInv s g → 0 < size →
  ∃ r s', vstd_malloc size align s = Finished (Ret (r, s')) ∧ HeapInv s' (given_after (CMalloc size align) r g) ∧
    (r = 0 ∨ held (heap_of s) !! r = None ∧ r mod align = 0).
Proof.
  intros [Ig Is Ia Id Ir Im] Hn. unfold vstd_malloc. dispatch. unfold sys_malloc. destruct (Layout_ok size align) eqn:EL.
  2: { exists 0, s. split; [done|]. split; [by split|by left]. }
  pose proof (Layout_align _ _ EL) as Hal. destruct (heap_alloc (heap_of s) size align) as [p h] eqn:E. exists p, (with_heap s h). split; [done|].
  cbn [given_after]. case_bool.
  - subst. pose proof (alloc_failed _ _ _ _ Hn Hal E) as Eh. split; [|by left]. split; cbn; rewrite ?Eh; done.
  - destruct (alloc_disjoint _ _ _ _ _ Hn Hal E E0 Id Ir) as (Hno & Hh & Id' & Ir'). split.
    + split; cbn [heap_of C_ALLOCATION_MAP mem with_heap]; [| | |done|done|done].
      * intros q k Hq. rewrite Hh. apply lookup_insert_Some in Hq as [[<- <-]|[Hne Hq]]; [apply lookup_insert_eq|]. rewrite lookup_insert_ne by done. by apply Ig.
      * intros q v Hq. destruct (Is q v Hq) as (k & -> & Hk). exists k. split; [done|]. rewrite Hh, lookup_insert_ne; [done|]. intros ->. congruence.
      * intros q [k Hq]. apply lookup_insert_Some in Hq as [[<- <-]|[Hne Hq]]; [|by apply Ia]. destruct (C_ALLOCATION_MAP s !! p) eqn:Ep; [|done].
        destruct (Is _ _ Ep) as (k & _ & Hk). congruence.
    + right. split; [done|]. destruct (heap_alloc_spec _ _ _ _ _ Hn Hal E) as [[? _]|(_ & _ & ? & _)]; done.
Qed.

Lemma vstd_free_ok s g p size align : HeapInv s g → g !! p = Some size → Layout_ok size align = true →
  ∃ s', vstd_free p size align s = Finished (Ret (0, s')) ∧ HeapInv s' (delete p g).
Proof.
  intros [Ig Is Ia Id Ir Im] Hp HL'. unfold vstd_free. dispatch. unfold sys_free. rewrite HL'.
  pose proof (heap_dealloc_spec (heap_of s) p size align (Ig p size Hp)) as Hd. eexists. split; [done|].
  split; cbn [heap_of C_ALLOCATION_MAP mem with_heap]; rewrite ?Hd; [| | | | |done].
  - intros q k [Hne Hq]%lookup_delete_Some. rewrite lookup_delete_ne by done. by apply Ig.
  - intros q v Hq. destruct (Is q v Hq) as (k & -> & Hk). exists k. split; [done|]. rewrite lookup_delete_ne; [done|]. intros ->. rewrite Ia in Hq; [done|by exists size].
  - intros q [k [Hne Hq]%lookup_delete_Some]. apply Ia. by exists k.
  - intros x n y k [_ Hx]%lookup_delete_Some [_ Hy]%lookup_delete_Some. by apply Id.
  - intros x n [_ Hx]%lookup_delete_Some. by apply Ir.
Qed.

Lemma sbrk_ok s g size : HeapInv s g → 0 ≤ size < 2 ^ 64 →
  (∃ r s', sys_sbrk s size = Ret (r, s') ∧ HeapInv s' g ∧ (r = usize_max ∨ C_ALLOCATION_MAP s' !! r = Some (r, size, size))) ∨
  (0 < size ∧ (heap_alloc (heap_of s) size 1).1 = 0 ∧ sys_sbrk s size = Panic).
Proof.
  intros HI Hs. pose proof HI as [Ig Is Ia Id Ir Im]. unfold sys_sbrk. destruct (0 <? to_signed 64 size) eqn:Ez.
  2: { left. exists usize_max, s. split; [done|]. split; [done|by left]. }
  assert (0 < size) as Hn by (unfold to_signed in Ez; revert Ez; case_bool; breflect; lia).
  destruct (heap_alloc (heap_of s) size 1) as [p h] eqn:E. destruct (decide (p = 0)) as [->|Hp].
  { right. split; [done|]. split; [done|]. unfold vec_zeroed. rewrite (proj2 (Z.eqb_neq size 0)) by lia. by rewrite E. }
  left. destruct (vec_zeroed_ok s size p h Hn E Hp Im) as (m & -> & Hk & Hm). run. rewrite (proj2 (Z.eqb_neq p 0)) by done. cbn [negb].
  destruct (alloc_disjoint _ _ _ _ _ Hn Z.lt_0_1 E Hp Id Ir) as (Hno & Hh & Id' & Ir'). destruct (Ir' p size) as (Hp1 & _ & Hp2); [rewrite Hh; apply lookup_insert_eq|].
  pose proof heap_end. rewrite VirtAddr_new_ok by (unfold HEAP_START in *; lia). run. cbn [C_ALLOCATION_MAP with_mem with_heap].
  destruct (C_ALLOCATION_MAP s !! p) as [v|] eqn:Ep; [destruct (Is _ _ Ep) as (k & _ & Hk'); congruence|].
  do 2 eexists. split; [done|]. split; [|right; apply lookup_insert_eq].
  split; cbn [heap_of C_ALLOCATION_MAP mem with_heap with_map with_mem]; [| | |done|done|done].
  - intros q k Hq. rewrite Hh, lookup_insert_ne; [by apply Ig|]. intros ->. apply Ig in Hq. congruence.
  - intros q v Hq. rewrite Hh. apply lookup_insert_Some in Hq as [[<- <-]|[Hne Hq]]; [exists size; split; [done|apply lookup_insert_eq]|].
    destruct (Is q v Hq) as (k & -> & Hk'). exists k. split; [done|]. by rewrite lookup_insert_ne.
  - intros q [k Hq]. rewrite lookup_insert_ne; [apply Ia; by exists k|]. intros ->. apply Ig in Hq. congruence.
Qed.

(** What a call may do besides returning: [sbrk] panics when the heap has no room. *)
Definition no_room (s : System) (c : MemCall) : Prop :=
  match c with
  | CSbrk size | CMmap size _ _ => 0 < size ∧ (heap_alloc (heap_of s) size 1).1 = 0
  | _ => False
  end.

Lemma mem_call_ok s g c : HeapInv s g → allowed g c →
  (∃ r s', mem_call c s = Finished (Ret (r, s')) ∧ HeapInv s' (given_after c r g)) ∨ (no_room s c ∧ mem_call c s = Finished Panic).
Proof.
  intros HI Hal. destruct c as [size align|p size align|size|len prot flags]; cbn [mem_call allowed no_room given_after] in *.
  - destruct (malloc_ok s g size align HI Hal) as (r & s' & E & HI' & _). left. by exists r, s'.
  - destruct Hal as [Hp HL']. destruct (vstd_free_ok s g p size align HI Hp HL') as (s' & E & HI'). left. by exists 0, s'.
  - unfold vstd_sbrk. dispatch. destruct (sbrk_ok s g size HI Hal) as [(r & s' & -> & HI' & _)|(H1 & H2 & ->)]; [left; by exists r, s'|by right].
  - dispatch. unfold sys_mmap. cbn [Z.eqb]. destruct (sbrk_ok s g len HI Hal) as [(r & s' & -> & HI' & _)|(H1 & H2 & ->)]; [left; by exists r, s'|by right].
Qed.

(** [C12] The heap of programs, over any sequence of [malloc], [sbrk], [mmap] without an
    address, and [free] of blocks of [malloc]: a block that was given and not freed overlaps
    no other and lies in the heap, and the next call returns; only [sbrk], and only when the
    allocator has no block, panics. In particular [sbrk] never meets an address that is in
    [C_ALLOCATION_MAP]. *)
Theorem heap_calls_safe (s0 s : System) (given0 given : gmap Z Z) (c : MemCall) (H0 : HeapInv s0 given0)
    (Hrun : heap_run s0 given0 s given) (Hc : allowed given c) :
  (∀ p n, given !! p = Some n ∨ C_ALLOCATION_MAP s !! p = Some (p, n, n) →
    HEAP_START ≤ p ∧ p + n ≤ HEAP_START + HEAP_SIZE ∧
    ∀ q k, given !! q = Some k ∨ C_ALLOCATION_MAP s !! q = Some (q, k, k) → p ≠ q → p + n ≤ q ∨ q + k ≤ p) ∧
  ((∃ r s', mem_call c s = Finished (Ret (r, s'))) ∨ (no_room s c ∧ mem_call c s = Finished Panic)).
Proof.
  assert (HeapInv s given) as HI.
  { clear Hc. induction Hrun as [|s1 g1 c1 r s2 Hrun IH Hal E]; [done|].
    destruct (mem_call_ok s1 g1 c1 IH Hal) as [(r' & s' & E' & HI')|[_ E']]; [|congruence]. rewrite E in E'. by injection E' as -> ->. }
  assert (∀ p n, given !! p = Some n ∨ C_ALLOCATION_MAP s !! p = Some (p, n, n) → held (heap_of s) !! p = Some n) as Hh.
  { intros p n [Hp|Hp]; [by apply HI|]. destruct (hi_sbrk _ _ HI _ _ Hp) as (k & [= ->] & Hk). done. }
  split.
  - intros p n Hp%Hh. destruct (hi_range _ _ HI p n Hp) as (? & ? & ?). split; [done|]. split; [done|]. intros q k Hq%Hh. by apply (hi_disjoint _ _ HI).
  - destruct (mem_call_ok s given c HI Hc) as [(r & s' & E & _)|?]; [left; by exists r, s'|by right].
Qed.

(** ** What programs can do to the kernel *)

(** [free] does not take a block of [sbrk] out of [C_ALLOCATION_MAP]: when the allocator
    gives its address again, [sbrk] panics in the kernel. *)
Theorem sbrk_after_free_panics (s : System) (n p : Z) (h h2 : HeapState) (Hn : 0 < n < 2 ^ 63) (Hm : heap_mapped (mem s))
    (E1 : heap_alloc (heap_of s) n 1 = (p, h)) (Hp : p ≠ 0) (Hc : C_ALLOCATION_MAP s !! p = None)
    (E2 : heap_alloc (heap_dealloc h p n 1) n 1 = (p, h2)) :
  ∃ s1 s2, vstd_sbrk n s = Finished (Ret (p, s1)) ∧ vstd_free p n 1 s1 = Finished (Ret (0, s2)) ∧ vstd_sbrk n s2 = Finished Panic.
Proof.
  destruct (new_block _ _ _ _ _ (proj1 Hn) Z.lt_0_1 E1 Hp) as (_ & _ & Hp1 & Hp2 & _). pose proof heap_end as He.
  assert (∀ s h, heap_mapped (mem s) → heap_alloc (heap_of s) n 1 = (p, h) → ∃ m, sys_sbrk s n =
    (match C_ALLOCATION_MAP s !! p with Some _ => Panic | None => Ret (p, with_map (with_mem (with_heap s h) m) (<[p := (p, n, n)]> (C_ALLOCATION_MAP s))) end)
    ∧ heap_mapped m) as Hb.
  { intros t h' Ht E. destruct (vec_zeroed_ok t n p h' (proj1 Hn) E Hp Ht) as (m & Ev & _ & Hm'). exists m. unfold sys_sbrk, to_signed.
    rewrite (proj2 (Z.ltb_lt n (2 ^ (64 - 1)))) by (cbn; lia). rewrite (proj2 (Z.ltb_lt 0 n)), Ev by lia. run. rewrite (proj2 (Z.eqb_neq p 0)) by done. cbn [negb].
    rewrite VirtAddr_new_ok by (unfold HEAP_START in *; lia). run. done. }
  destruct (Hb s h Hm E1) as (m1 & Es1 & Hm1). rewrite Hc in Es1. unfold vstd_sbrk, vstd_free.
  exists (with_map (with_mem (with_heap s h) m1) (<[p := (p, n, n)]> (C_ALLOCATION_MAP s))). eexists. split; [dispatch; by rewrite Es1|]. split.
  - dispatch. unfold sys_free, Layout_ok. rewrite (proj2 (Z.leb_le n _)) by lia. done.
  - dispatch. f_equal. match goal with |- sys_sbrk ?t n = _ => destruct (Hb t h2 Hm1 E2) as (m2 & -> & _) end.
    cbn [C_ALLOCATION_MAP with_map with_heap]. by rewrite lookup_insert_eq.
Qed.

(** [mmap] with an address never returns: it takes the lock of the frame allocator while it
    holds it. *)
Theorem mmap_hangs (s : System) (addr len prot flags f fl : Z) (fa : BitmapFrameAllocator) (Ha : 0 < addr < 2 ^ 47) (Hl : 0 < len < 2 ^ 47)
    (Hf : allocate_frame (frames s) = Ret (Some f, fa)) (Hfl : PageTableFlags_from_bits flags = Some fl) :
  syscall Index.Mmap addr len prot flags 0 s = Hang.
Proof.
  dispatch. unfold sys_mmap. rewrite (proj2 (Z.eqb_neq addr 0)), add_u_ok by lia. cbn [mbind sys_mbind].
  rewrite range_cons by (Z.div_mod_to_equations; lia). cbn [mmap_pages]. unfold mmap_page, mmap_map.
  rewrite mul_u_ok by lia. cbn [mbind out_mbind]. rewrite Z.mul_0_l, add_u_ok, Z.add_0_r by lia. cbn [mbind out_mbind]. rewrite VirtAddr_new_ok by lia.
  cbn [mbind sys_mbind lock]. rewrite Hf. cbn [mbind sys_mbind out_mbind unwrap]. rewrite Hfl. done.
Qed.

(** A program can make the kernel panic: with a number that is no call, the number 0, the
    size of a file that is not open, a mode that is no mode, and a path that is not UTF-8. *)
Theorem program_panics_kernel (s : System) (n a1 a2 a3 a4 a5 a6 fd mode : Z) (path : Text) (l : list Z) (Hn : n = 0 ∨ 26 ≤ n)
    (Hfd : get_inode_by_fd (fs s) fd = None) (Hm : 3 ≤ mode) (Hp : text_in s path)
    (Hl : read_bytes (mem s) a1 a2 = Ret l) (Hu : from_utf8 l = None) :
  matcher n a1 a2 a3 a4 a5 a6 s = Finished Panic ∧ vstd_fsize fd s = Finished Panic ∧
  syscall Index.Open (t_ptr path) (t_len path) mode 0 0 s = Finished Panic ∧ syscall Index.Open a1 a2 0 0 0 s = Finished Panic.
Proof.
  split; [|split; [|split]].
  - unfold syscall_matcher, SyscallIndex_from. destruct Hn as [->|Hn]; [done|]. change (zlen Index.variants) with 26. by rewrite (proj2 (Z.leb_le 26 n)) by lia.
  - unfold vstd_fsize. dispatch. unfold sys_fsize, fsize. by rewrite Hfd.
  - dispatch. unfold sys_open. rewrite read_str_ok by done. run. unfold OpenMode_from.
    rewrite (proj2 (Z.eqb_neq mode 0)), (proj2 (Z.eqb_neq mode 1)), (proj2 (Z.eqb_neq mode 2)) by lia. done.
  - dispatch. unfold sys_open, read_str. rewrite Hl. run. by rewrite Hu.
Qed.

End Calls.

(** ** A heap for the examples

    The blocks, the newest first; a new block starts behind all of them. *)

Module ListHeap.

Definition block_end (b : Z * Z) : Z := Z.max (b.1 + b.2) (b.1 + 1).
Definition top (h : list (Z * Z)) : Z := foldr (λ b t, Z.max (block_end b) t) HEAP_START h.

Fixpoint remove_block (h : list (Z * Z)) (p : Z) : list (Z * Z) :=
  match h with
  | [] => []
  | (q, n) :: h => if q =? p then remove_block h p else (q, n) :: remove_block h p
  end.

#[export] Instance list_heap : GlobalHeap := {|
  HeapState := list (Z * Z);
  heap_alloc h size align :=
    let p := (top h + align - 1) / align * align in
    if p + size <=? HEAP_START + HEAP_SIZE then (p, (p, size) :: h) else (0, h);
  heap_dealloc h p _ _ := remove_block h p;
|}.

Lemma top_ge h : HEAP_START ≤ top h ∧ ∀ b, b ∈ h → block_end b ≤ top h.
Proof.
  induction h as [|b h [IH1 IH2]]; [split; [done|by intros b ?%elem_of_nil]|]. change (top (b :: h)) with (Z.max (block_end b) (top h)).
  split; [lia|]. intros c [->|Hc]%elem_of_cons; [lia|]. specialize (IH2 c Hc). lia.
Qed.

Lemma remove_block_map h p : (list_to_map (remove_block h p) : gmap Z Z) = delete p (list_to_map h).
Proof.
  induction h as [|[q n] h IH]; cbn; [by rewrite delete_empty|]. case_bool; cbn.
  - subst. by rewrite IH, delete_insert_eq.
  - rewrite IH. by rewrite delete_insert_ne by done.
Qed.

#[export] Instance list_heap_laws : GlobalHeapLaws list_heap.
Proof.
  refine {| held := (λ h, list_to_map h : gmap Z Z) : @HeapState list_heap → gmap Z Z |}.
  - intros h size align p h' Hn Ha. cbn [heap_alloc list_heap]. destruct (top_ge h) as [Ht Hb].
    assert (top h ≤ (top h + align - 1) / align * align) as Hle by (Z.div_mod_to_equations; nia).
    case_bool; intros [= <- <-]; [right|by left]. split; [lia|]. split; [done|]. split; [apply Z.mod_mul; lia|]. split; [done|].
    assert (∀ q n, (list_to_map h : gmap Z Z) !! q = Some n → q + n ≤ top h ∧ q < top h) as Hq.
    { intros q n Hq%elem_of_list_to_map_2%Hb. unfold block_end in Hq. cbn in Hq. lia. }
    split; [|intros q n Hqn; apply Hq in Hqn; lia].
    destruct ((list_to_map h : gmap Z Z) !! _) eqn:E'; [|done]. apply Hq in E'. lia.
  - intros h p size align _. apply remove_block_map.
Defined.

End ListHeap.

Section Examples.
#[local] Existing Instances dev Reference.bit_field Reference.bitflags Reference.x86_addr Reference.x86_paging SmallPages.mapper SmallPages.mapper_laws
  ListHeap.list_heap ListHeap.list_heap_laws toy_crates.

(** The path [/v] in the memory of the program, behind it two bytes that are not UTF-8;
    the heap is mapped. *)
Definition demo_mem (a : Z) : option Z :=
  if a =? 0x7000 then Some 47 else if a =? 0x7001 then Some 118 else if (a =? 0x7002) || (a =? 0x7003) then Some 255
  else if (HEAP_START <=? a) && (a <? HEAP_START + HEAP_SIZE) then Some 0 else None.

Definition demo_system : System := mkSystem small_vfs sample1 demo_mem [] ∅ [] stack_only stack_only heap_frames (λ _, 0).
Definition demo_terminal : CLeaf := 0.
Definition demo_path : Text := mkText 0x7000 [47; 118].
Definition no_copy (pt : PT) (fa : BitmapFrameAllocator) : out (PT * Z * BitmapFrameAllocator) := Ret (pt, 0x5000, fa).

Lemma demo_text : text_in demo_system demo_path.
Proof. split; vm_compute; reflexivity. Qed.

Lemma demo_mapped : heap_mapped (mem demo_system).
Proof.
  intros x Hx. cbn [mem demo_system]. unfold demo_mem. repeat case_bool; eauto. exfalso.
  rewrite (proj2 (Z.leb_le _ _)), (proj2 (Z.ltb_lt _ _)) in * by lia. done.
Qed.

Lemma vstd_refines_witness : ∃ s', vstd lin 0 2 (35, 27) demo_terminal (λ _, None) no_copy Some (λ _, 0) (λ _, 1) [] (ROpen demo_path Read) demo_system = Finished (Ret (ANumber 3, s')).
Proof.
  rewrite (vstd_refines lin 0 2 (35, 27) demo_terminal (λ _, None) no_copy Some (λ _, 0) (λ _, 1) [] (ROpen demo_path Read) demo_system demo_text).
  assert (∃ f, open 2 small_vfs [47; 118] Read = Ret (Some 3, f)) as [f E] by (eexists; vm_compute; reflexivity).
  cbn [perform demo_path t_chars fs demo_system]. rewrite E. eexists. reflexivity.
Defined.

Lemma list_dir_roundtrip_witness : ∃ s', vstd_list_dir lin 0 2 (35, 27) demo_terminal (λ _, None) no_copy Some (λ _, 0) (λ _, 1) [] demo_path demo_system =
  Finished (Ret ([mkFileInfo Dir dot; mkFileInfo Dir dotdot], s')).
Proof.
  destruct (list_dir_roundtrip lin 0 2 (35, 27) demo_terminal (λ _, None) no_copy Some (λ _, 0) (λ _, 1) [] demo_path demo_system
    [mkFileInfo Dir dot; mkFileInfo Dir dotdot] small_vfs small_vfs
    [(HEAP_START + 49, 2); (HEAP_START + 48, 1); (HEAP_START, 48)] demo_text) as (m & E & _).
  - intros x Hx. left. change (t_len demo_path) with 2 in Hx. change (t_ptr demo_path) with 0x7000 in Hx. unfold HEAP_START. lia.
  - apply demo_mapped.
  - vm_compute. reflexivity.
  - vm_compute. reflexivity.
  - repeat (apply Forall_cons_2; [reflexivity|]). apply Forall_nil_2.
  - vm_compute. reflexivity.
  - eexists. exact E.
Defined.

Lemma demo_heap_inv : HeapInv demo_system ∅.
Proof.
  split; cbn [heap_of demo_system C_ALLOCATION_MAP held ListHeap.list_heap_laws]; [| | | | |apply demo_mapped].
  - intros p n Hp. by rewrite lookup_empty in Hp.
  - intros p v Hp. by rewrite lookup_empty in Hp.
  - intros p [n Hp]. by rewrite lookup_empty in Hp.
  - intros p n q k Hp. change ((∅ : gmap Z Z) !! p = Some n) in Hp. by rewrite lookup_empty in Hp.
  - intros p n Hp. change ((∅ : gmap Z Z) !! p = Some n) in Hp. by rewrite lookup_empty in Hp.
Qed.

Lemma heap_calls_safe_witness : ∃ r s', mem_call lin 0 2 (35, 27) demo_terminal (λ _, None) no_copy Some (λ _, 0) (λ _, 1) [] (CMalloc 24 8) demo_system = Finished (Ret (r, s')).
Proof.
  destruct (heap_calls_safe lin 0 2 (35, 27) demo_terminal (λ _, None) no_copy Some (λ _, 0) (λ _, 1) [] demo_system demo_system ∅ ∅ (CMalloc 24 8)) as [_ [E|[[] _]]];
    [exact demo_heap_inv|constructor|cbn; lia|exact E].
Defined.

Lemma sbrk_after_free_panics_witness : ∃ s1 s2,
  vstd_sbrk lin 0 2 (35, 27) demo_terminal (λ _, None) no_copy Some (λ _, 0) (λ _, 1) [] 16 demo_system = Finished (Ret (HEAP_START, s1)) ∧
  vstd_free lin 0 2 (35, 27) demo_terminal (λ _, None) no_copy Some (λ _, 0) (λ _, 1) [] HEAP_START 16 1 s1 = Finished (Ret (0, s2)) ∧
  vstd_sbrk lin 0 2 (35, 27) demo_terminal (λ _, None) no_copy Some (λ _, 0) (λ _, 1) [] 16 s2 = Finished Panic.
Proof.
  apply (sbrk_after_free_panics lin 0 2 (35, 27) demo_terminal (λ _, None) no_copy Some (λ _, 0) (λ _, 1) [] demo_system 16 HEAP_START [(HEAP_START, 16)] [(HEAP_START, 16)]);
    [lia|apply demo_mapped|vm_compute; reflexivity|discriminate|reflexivity|vm_compute; reflexivity].
Defined.

Lemma mmap_hangs_witness : syscall lin 0 2 (35, 27) demo_terminal (λ _, None) no_copy Some (λ _, 0) (λ _, 1) [] Index.Mmap 0x10000 4096 3 3 0 demo_system = Hang.
Proof.
  destruct (take_frame heap_frames) as (q & fa & E & _); [apply heap_frames_ready|cbn; lia|apply heap_frames_ready|].
  apply (mmap_hangs lin 0 2 (35, 27) demo_terminal (λ _, None) no_copy Some (λ _, 0) (λ _, 1) [] demo_system 0x10000 4096 3 3 q 3 fa); [lia|lia|exact E|reflexivity].
Defined.

Lemma program_panics_kernel_witness :
  syscall_matcher lin 0 2 (35, 27) demo_terminal (λ _, None) no_copy Some 26 0x7002 2 0 0 0 0 demo_system = Finished Panic.
Proof.
  apply (program_panics_kernel lin 0 2 (35, 27) demo_terminal (λ _, None) no_copy Some (λ _, 0) (λ _, 1) [] demo_system 26 0x7002 2 0 0 0 0 9 3 demo_path [255; 255]);
    [right; lia|vm_compute; reflexivity|lia|exact demo_text|vm_compute; reflexivity|reflexivity].
Defined.

End Examples.
