(* ===== verification/DevInodes.v ===== *)
(** * Device inodes: the keyboard, the terminal, the frame buffer, the hypervisor

    [kernel/src/device/keyboard.rs], [kernel/src/fs/vfs/dev/terminal.rs], [dev/fb.rs] and
    [dev/kvm.rs], with the commands of [syscall_index], and the line that the shell
    ([apps/shell/src/main.rs]) reads from the terminal. *)

From S2P Require Import Prelude Vfs Syscall.

(** ** [crossbeam_queue]: a queue of bounded size *)

Class ArrayQueue := {
  Queue : Type;
  q_list : Queue → list Z;
  q_push : Queue → Z → result Z unit * Queue;
  q_pop : Queue → option Z * Queue;
}.

Class ArrayQueueLaws (A : ArrayQueue) (capacity : Z) := {
  q_push_ok q c : zlen (q_list q) < capacity → ∃ q', q_push q c = (Ok tt, q') ∧ q_list q' = q_list q ++ [c];
  q_push_full q c : capacity ≤ zlen (q_list q) → ∃ q', q_push q c = (Err c, q') ∧ q_list q' = q_list q;
  q_pop_some q c l : q_list q = c :: l → ∃ q', q_pop q = (Some c, q') ∧ q_list q' = l;
  q_pop_none q : q_list q = [] → ∃ q', q_pop q = (None, q') ∧ q_list q' = [];
}.

(** ** The keyboard *)

Definition SCANCODE_QUEUE_SIZE : Z := 128.
Definition BYTES_SIZE : Z := 2048.

Inductive KeyCode := Backspace | Oem7 | OtherKey (n : Z).
Inductive DecodedKey := RawKey (k : KeyCode) | Unicode (c : Z).

(** [pc_keyboard]: the state of the decoder. *)
Class PcKeyboard := {
  Keyboard : Type;
  KeyEvent : Type;
  add_byte : Keyboard → Z → result unit (option KeyEvent) * Keyboard;
  process_keyevent : Keyboard → KeyEvent → option DecodedKey * Keyboard;
}.

Section Terminal.
Context {A : ArrayQueue}.

(** When the queue is full the code is dropped. *)
Definition add_scancode (q : Queue) (scancode : Z) : Queue := (q_push q scancode).2.

Definition get_scancode (q : Queue) : option Z * Queue := q_pop q.

Definition has_scancode (q : Queue) : bool := match q_list q with [] => false | _ => true end.

(** [BYTES.push(ch).expect("Buffer full")] *)
Definition push_char (q : Queue) (ch : Z) : out Queue :=
  match q_push q ch with (Ok _, q) => Ret q | (Err _, _) => Panic end.

(** One pass of the loop of [keyboard_parse_thread]: the scan codes, the decoder, [BYTES]. *)
Definition keyboard_parse_step {K : PcKeyboard} (st : Queue * Keyboard * Queue) : out (Queue * Keyboard * Queue) :=
  let '(codes, keyboard, bytes) := st in
  let '(scan_code, codes) := get_scancode codes in
  match scan_code with
  | None => Ret (codes, keyboard, bytes)
  | Some scan_code =>
      let '(r, keyboard) := add_byte keyboard scan_code in
      match r with
      | Ok (Some key_event) =>
          let '(key, keyboard) := process_keyevent keyboard key_event in
          match key with
          | Some (RawKey Backspace) => bytes ← push_char bytes 8; Ret (codes, keyboard, bytes)
          | Some (RawKey Oem7) => bytes ← push_char bytes 92; Ret (codes, keyboard, bytes)
          | Some (RawKey (OtherKey _)) | None => Ret (codes, keyboard, bytes)
          | Some (Unicode ch) => bytes ← push_char bytes ch; Ret (codes, keyboard, bytes)
          end
      | _ => Ret (codes, keyboard, bytes)
      end
  end.

(** ** The terminal

    The keyboard thread may push at any time: [arrivals] is what it pushes before each look
    the reader takes at the queue (a [pop] or an [is_empty]); a look may find nothing new. A
    read that waits when they are used up has not returned: [None]. *)

Definition newline : Z := 10.

(** The pushes before one look. *)
Definition arrive (q : Queue) (arrivals : list (list Z)) : out (Queue * list (list Z)) :=
  match arrivals with
  | [] => Ret (q, [])
  | a :: arrivals => q ← foldM push_char q a; Ret (q, arrivals)
  end.

(** [while BYTES.is_empty() { enable_and_hlt(); }] *)
Fixpoint wait (q : Queue) (arrivals : list (list Z)) : out (option (Queue * list (list Z))) :=
  match arrivals with
  | [] => Ret (if bool_decide (q_list q = []) then None else Some (q, []))
  | a :: arrivals =>
      q ← foldM push_char q a;
      if bool_decide (q_list q = []) then wait q arrivals else Ret (Some (q, arrivals))
  end.

(** The loop of [read_at]; [written] is the part of the buffer that is filled. *)
Fixpoint read_loop (fuel : nat) (buf_len : Z) (written : list Z) (q : Queue) (arrivals : list (list Z)) :
    out (option (list Z * Queue * list (list Z))) :=
  match fuel with
  | O => Ret None
  | S fuel =>
      if zlen written <? buf_len then
        '(q, arrivals) ← arrive q arrivals;
        match q_pop q with
        | (Some char, q) =>
            let written := written ++ [wrap 8 char] in
            if char =? newline then Ret (Some (written, q, arrivals)) else read_loop fuel buf_len written q arrivals
        | (None, q) =>
            r ← wait q arrivals;
            match r with
            | None => Ret None
            | Some (q, arrivals) => read_loop fuel buf_len written q arrivals
            end
        end
      else Ret (Some (written, q, arrivals))
  end.

(** Every pass reads a character, but for one that waits before it. *)
Definition read_fuel (buf_len : Z) : nat := Z.to_nat (2 * buf_len + 1).

Definition Terminal_read_at (buf_len : Z) (q : Queue) (arrivals : list (list Z)) : out (option (list Z * Queue * list (list Z))) :=
  read_loop (read_fuel buf_len) buf_len [] q arrivals.

(** The length of what was printed, and the string. *)
Definition Terminal_write_at (buf : list Z) : Z * option Str :=
  match from_utf8 buf with
  | Some s => (zlen buf, Some s)
  | None => (0, None)
  end.

(** ** [shell_read_line]

    The line so far and what was printed; the descriptor is the terminal. *)
Fixpoint shell_loop (fuel : nat) (tmp : Z) (buf echo : list Z) (q : Queue) (arrivals : list (list Z)) :
    out (option (list Z * list Z * Queue * list (list Z))) :=
  match fuel with
  | O => Ret None
  | S fuel =>
      if tmp =? newline then Ret (Some (buf, echo, q, arrivals))
      else
        let '(buf, echo) :=
          if tmp =? 8 then
            match buf with [] => (buf, echo) | _ => (removelast buf, echo ++ [8; 32; 8]) end
          else (buf ++ [tmp], echo ++ [tmp]) in
        r ← Terminal_read_at 1 q arrivals;
        match r with
        | None => Ret None
        | Some (tmp, q, arrivals) => tmp ← index tmp 0; shell_loop fuel tmp buf echo q arrivals
        end
  end.

Definition shell_read_line (fuel : nat) (q : Queue) (arrivals : list (list Z)) : out (option (list Z * list Z * Queue * list (list Z))) :=
  r ← Terminal_read_at 1 q arrivals;
  match r with
  | None => Ret None
  | Some (tmp, q, arrivals) => tmp ← index tmp 0; shell_loop fuel tmp [] [] q arrivals
  end.

End Terminal.

(** ** The frame buffer *)

(** The pixels, and the sizes. *)
Record FrameBuffer := mkFB { fbaddr : list Z; fb_width : Z; fb_height : Z; fb_bpp : Z }.

Inductive FbDevIoctlCommand := GetWidth | GetHeight.
Inductive KvmDevIoctlCommand := KvmRun | KvmGetRegs.

Definition FbDevIoctlCommand_from (number : Z) : out FbDevIoctlCommand :=
  if 2 <=? number then Panic else Ret (if number =? 0 then GetWidth else GetHeight).

Definition KvmDevIoctlCommand_from (number : Z) : out KvmDevIoctlCommand :=
  if 2 <=? number then Panic else Ret (if number =? 0 then KvmRun else KvmGetRegs).

Section FrameBuffers.
Context {P : Profile}.

Definition fb_size (self : FrameBuffer) : Z := zlen (fbaddr self).

(** [from_raw_parts(buf, n)] as 32-bit words. *)
Definition as_words (buf : list Z) (n : Z) : list Z := (λ i, from_le (subslice buf (4 * i) (4 * i + 4))) <$> range 0 n.

Definition fb_read_at (self : FrameBuffer) (buf : list Z) : out (Z * list Z) :=
  buf ← foldM (λ buf index_, x ← index (fbaddr self) index_; Ret (splice buf (4 * index_) (to_le 4 x))) buf (range 0 (zlen buf / 4));
  Ret (zlen buf, buf).

Definition fb_write_at (self : FrameBuffer) (offset : Z) (buf : list Z) : out (Z * FrameBuffer) :=
  n ← mul_u 64 (fb_size self) 4;
  n ← sub_u 64 n offset;
  real_buf_len ← add_u 64 n 1;
  if (real_buf_len <? zlen buf) || negb (zlen buf mod 4 =? 0) then Ret (0, self)
  else
    let write_buf := as_words buf (zlen buf / 4) in
    fb ← foldM (λ fb index_, x ← index write_buf index_; store fb index_ x) (fbaddr self) (range 0 (zlen write_buf));
    Ret (zlen buf, mkFB fb (fb_width self) (fb_height self) (fb_bpp self)).

Definition fb_ioctl (self : FrameBuffer) (cmd : Z) : out Z :=
  c ← FbDevIoctlCommand_from cmd;
  Ret (match c with GetWidth => fb_width self | GetHeight => fb_height self end).

End FrameBuffers.

(** [KVMInode::ioctl]; [run_vm] never returns to its caller. *)
Definition kvm_ioctl {A} (run_vm : Z → out A) (cmd arg : Z) : out A :=
  c ← KvmDevIoctlCommand_from cmd;
  match c with KvmRun => run_vm arg | KvmGetRegs => Panic end.

(** ** Reading lines *)

Section Lines.
Context {A : ArrayQueue} {L : ArrayQueueLaws A BYTES_SIZE}.

(** What a read of [n] bytes takes of the characters that are there: up to a newline. *)
Fixpoint line (n : nat) (l : list Z) : list Z :=
  match n, l with
  | S n, c :: l => c :: (if c =? newline then [] else line n l)
  | _, _ => []
  end.

(** It can return with them. *)
Fixpoint complete (n : nat) (l : list Z) : bool :=
  match n with
  | O => true
  | S n => match l with [] => false | c :: l => if c =? newline then true else complete n l end
  end.

(** All that is typed and not read. *)
Definition pending (q : Queue) (arrivals : list (list Z)) : list Z := q_list q ++ concat arrivals.

(** It is not more than the queue holds, so that no push finds it full. *)
Definition fits (q : Queue) (arrivals : list (list Z)) : Prop := zlen (pending q arrivals) ≤ BYTES_SIZE.

Lemma push_char_ok q c : zlen (q_list q) < BYTES_SIZE → ∃ q', push_char q c = Ret q' ∧ q_list q' = q_list q ++ [c].
Proof. intros Hl. unfold push_char. destruct (q_push_ok q c Hl) as (q' & -> & E). by exists q'. Qed.

Lemma push_all_ok l : ∀ q, zlen (q_list q) + zlen l ≤ BYTES_SIZE → ∃ q', foldM push_char q l = Ret q' ∧ q_list q' = q_list q ++ l.
Proof.
  induction l as [|c l IH]; intros q Hl; cbn [foldM]; [exists q; by rewrite app_nil_r|]. rewrite zlen_cons in Hl. pose proof (zlen_nonneg l).
  destruct (push_char_ok q c) as (q1 & -> & E1); [lia|]. run.
  destruct (IH q1) as (q' & -> & E'); [rewrite E1, zlen_app; change (zlen [c]) with 1; lia|]. exists q'. split; [done|]. by rewrite E', E1, <- app_assoc.
Qed.

Lemma arrive_one q a arrivals : fits q (a :: arrivals) →
  ∃ q', foldM push_char q a = Ret q' ∧ pending q' arrivals = pending q (a :: arrivals) ∧ q_list q' = q_list q ++ a.
Proof.
  unfold fits, pending. cbn [concat]. rewrite !zlen_app. intros Hf. pose proof (zlen_nonneg (concat arrivals)).
  destruct (push_all_ok a q) as (q' & E & Eq); [lia|]. exists q'. by rewrite Eq, <- app_assoc.
Qed.

(** A look changes nothing of what is typed and not read. *)
Lemma arrive_ok q arrivals : fits q arrivals → ∃ q' arrivals', arrive q arrivals = Ret (q', arrivals') ∧
  pending q' arrivals' = pending q arrivals ∧ ∃ l, q_list q' = q_list q ++ l.
Proof.
  destruct arrivals as [|a arrivals]; intros Hf; cbn [arrive]; [exists q, []; split_and!; [done|done|by exists []; rewrite app_nil_r]|].
  destruct (arrive_one q a arrivals Hf) as (q' & -> & E & El). run. exists q', arrivals. split_and!; [done|done|by exists a].
Qed.

Lemma fits_pending q arrivals q' arrivals' : pending q' arrivals' = pending q arrivals → fits q arrivals → fits q' arrivals'.
Proof. unfold fits. by intros ->. Qed.

Lemma wait_ok arrivals : ∀ q, fits q arrivals →
  if decide (pending q arrivals = []) then wait q arrivals = Ret None
  else ∃ q' arrivals', wait q arrivals = Ret (Some (q', arrivals')) ∧ q_list q' ≠ [] ∧ pending q' arrivals' = pending q arrivals.
Proof.
  induction arrivals as [|a arrivals IH]; intros q Hf; cbn [wait].
  - unfold pending. cbn [concat]. rewrite app_nil_r. case_decide as E; [by rewrite bool_decide_true|]. rewrite bool_decide_false by done.
    exists q, []. cbn [concat]. by rewrite app_nil_r.
  - destruct (arrive_one q a arrivals Hf) as (q1 & -> & E1 & _). run. rewrite <- E1. case_bool_decide as Eq.
    + apply IH. by apply (fits_pending q (a :: arrivals)).
    + rewrite decide_False; [by exists q1, arrivals|]. unfold pending. by intros [? _]%app_nil.
Qed.

Lemma zlen_snoc {B} (l : list B) x : zlen (l ++ [x]) = zlen l + 1.
Proof. by rewrite zlen_app. Qed.

(** One character: what the loop does when it pops [c]. *)
Lemma read_loop_ok n : ∀ fuel w q arrivals buf_len, fits q arrivals → zlen w + Z.of_nat n = buf_len → (2 * n < fuel)%nat →
  let text := pending q arrivals in
  if complete n text then
    ∃ q' arrivals', read_loop fuel buf_len w q arrivals = Ret (Some (w ++ (wrap 8 <$> line n text), q', arrivals')) ∧
      pending q' arrivals' = drop (length (line n text)) text
  else read_loop fuel buf_len w q arrivals = Ret None.
Proof.
  induction n as [|n IH]; intros fuel w q arrivals buf_len Hf Hl Hfu; cbn zeta.
  { destruct fuel as [|fuel]; [lia|]. cbn [complete line read_loop fmap list_fmap]. rewrite (proj2 (Z.ltb_ge _ _)) by lia. exists q, arrivals. by rewrite app_nil_r. }
  (* what a pass does when the look finds a character *)
  assert (∀ fuel q arrivals c l, fits q arrivals → (2 * n < fuel)%nat → q_list q = c :: l → let text := pending q arrivals in
    let r := match q_pop q with
      | (Some char, q) => if char =? newline then Ret (Some (w ++ [wrap 8 char], q, arrivals)) else read_loop fuel buf_len (w ++ [wrap 8 char]) q arrivals
      | (None, q) => Ret None
      end in
    if complete (S n) text then ∃ q' arrivals', r = Ret (Some (w ++ (wrap 8 <$> line (S n) text), q', arrivals')) ∧
      pending q' arrivals' = drop (length (line (S n) text)) text
    else r = Ret None) as Hpop.
  { clear fuel q arrivals Hf Hfu. intros fuel q arrivals c l Hf Hfu Eq. unfold fits, pending in *. rewrite Eq in *. cbn zeta. cbn [app complete line length drop fmap list_fmap] in *.
    rewrite zlen_cons in Hf. destruct (q_pop_some q c l Eq) as (q1 & -> & E1). destruct (c =? newline) eqn:Ec.
    - exists q1, arrivals. cbn [fmap list_fmap length]. rewrite E1. done.
    - specialize (IH fuel (w ++ [wrap 8 c]) q1 arrivals buf_len). unfold fits, pending in IH. rewrite E1, zlen_snoc in IH. specialize (IH ltac:(lia) ltac:(lia) Hfu). cbn zeta in IH.
      destruct (complete n (l ++ concat arrivals)); [|exact IH]. destruct IH as (q' & arr & E & Hd). exists q', arr. rewrite E, <- app_assoc. done. }
  destruct fuel as [|[|fuel]]; [lia|lia|]. destruct (arrive_ok q arrivals Hf) as (q0 & arr0 & Ea & Hp0 & _). pose proof (fits_pending _ _ _ _ Hp0 Hf) as Hf0.
  cbn [read_loop]. rewrite (proj2 (Z.ltb_lt _ _)), Ea by lia. run. rewrite <- Hp0. destruct (q_list q0) as [|c l] eqn:Eq.
  2: { pose proof (Hpop (S fuel) q0 arr0 c l Hf0 ltac:(lia) Eq) as H. cbn zeta in H. destruct (q_pop_some q0 c l Eq) as (q' & Ep & _). rewrite Ep in *. exact H. }
  destruct (q_pop_none q0 Eq) as (q1 & -> & E1). assert (pending q1 arr0 = pending q0 arr0) as Hpe by (unfold pending; by rewrite E1, Eq).
  pose proof (wait_ok arr0 q1 (fits_pending _ _ _ _ Hpe Hf0)) as Hw. rewrite Hpe in Hw. case_decide as E0.
  { rewrite Hw. run. by rewrite E0. }
  destruct Hw as (q2 & arr2 & -> & Hq2 & Hp2). run. rewrite <- Hp2. pose proof (fits_pending _ _ _ _ Hp2 Hf0) as Hf2. cbn [read_loop].
  destruct (arrive_ok q2 arr2 Hf2) as (q3 & arr3 & Ea3 & Hp3 & l3 & Hl3). pose proof (fits_pending _ _ _ _ Hp3 Hf2) as Hf3.
  rewrite Ea3. run. rewrite <- Hp3. destruct (q_list q2) as [|c l] eqn:Eq2; [done|]. cbn [app] in Hl3.
  pose proof (Hpop fuel q3 arr3 c (l ++ l3) Hf3 ltac:(lia) Hl3) as H. cbn zeta in H. destruct (q_pop_some q3 c _ Hl3) as (q' & Ep & _). rewrite Ep in *. exact H.
Qed.

(** A read of the terminal returns the characters typed up to a newline, at most as many as
    the buffer has room for, and leaves the rest; it waits as long as they are not there. *)
Theorem terminal_reads_line (n : nat) (q : Queue) (arrivals : list (list Z)) (Hf : fits q arrivals) :
  let text := pending q arrivals in
  if complete n text then
    ∃ q' arrivals', Terminal_read_at (Z.of_nat n) q arrivals = Ret (Some (wrap 8 <$> line n text, q', arrivals')) ∧
      pending q' arrivals' = drop (length (line n text)) text
  else Terminal_read_at (Z.of_nat n) q arrivals = Ret None.
Proof.
  pose proof (read_loop_ok n (read_fuel (Z.of_nat n)) [] q arrivals (Z.of_nat n) Hf) as H. cbn zeta in *. unfold Terminal_read_at.
  specialize (H ltac:(unfold zlen; cbn; lia) ltac:(unfold read_fuel; lia)). destruct (complete n _); [|done].
  destruct H as (q' & arr & E & Hp). by exists q', arr.
Qed.

Lemma read_one q arrivals c t : fits q arrivals → pending q arrivals = c :: t →
  ∃ q' arrivals', Terminal_read_at 1 q arrivals = Ret (Some ([wrap 8 c], q', arrivals')) ∧ pending q' arrivals' = t ∧ fits q' arrivals'.
Proof.
  intros Hf Hp. pose proof (read_loop_ok 1 (read_fuel 1) [] q arrivals 1 Hf eq_refl ltac:(unfold read_fuel; lia)) as H. cbn zeta in H. rewrite Hp in H. cbn [complete line] in H.
  assert ((if c =? newline then [] else []) = [] :> list Z) as E0 by (by destruct (c =? newline)). rewrite E0 in H.
  assert (∀ q' arr, pending q' arr = t → fits q' arr) as Hk.
  { intros q' arr E. unfold fits in *. rewrite E. rewrite Hp, zlen_cons in Hf. lia. }
  destruct (c =? newline); cbn [fmap list_fmap app length drop] in H; destruct H as (q' & arr & E1 & E2); exists q', arr; auto.
Qed.

(** ** The line of the shell *)

(** What the shell prints for [keys] when its line has [n] characters: every key as it is, but a
    backspace as a backspace, a blank and a backspace, or nothing when the line is empty. *)
Fixpoint printed (n : nat) (keys : list Z) : list Z :=
  match keys with
  | [] => []
  | k :: keys =>
      if k =? 8 then match n with O => printed O keys | S n => 8 :: 32 :: 8 :: printed n keys end
      else k :: printed (S n) keys
  end.

(** The line that keys make: 8 takes the last character back. *)
Definition edit (keys : list Z) : list Z := foldl (λ b c, if c =? 8 then removelast b else b ++ [c]) [] keys.

Lemma shell_loop_ok keys : ∀ fuel tmp buf echo q arrivals rest, fits q arrivals → (length keys < fuel)%nat → Forall is_byte keys → newline ∉ keys →
  tmp :: pending q arrivals = keys ++ newline :: rest →
  ∃ q' arrivals', shell_loop fuel tmp buf echo q arrivals =
      Ret (Some (foldl (λ b c, if c =? 8 then removelast b else b ++ [c]) buf keys, echo ++ printed (length buf) keys, q', arrivals')) ∧
    pending q' arrivals' = rest.
Proof.
  induction keys as [|k keys IH]; intros fuel tmp buf echo q arrivals rest Hf Hfu Hb Hn Hp; (destruct fuel as [|fuel]; [cbn in Hfu; lia|]); cbn [shell_loop].
  - injection Hp as -> Hp. exists q, arrivals. by rewrite app_nil_r.
  - injection Hp as -> Hp. rewrite not_elem_of_cons in Hn. destruct Hn as [Hk Hn]. rewrite (proj2 (Z.eqb_neq k newline)) by done. apply Forall_cons in Hb as [_ Hb].
    assert (∃ c t, keys ++ newline :: rest = c :: t ∧ is_byte c) as (c & t & Ec & Hc).
    { destruct keys as [|c keys]; [by exists newline, rest|]. apply Forall_cons in Hb as [Hc _]. by exists c, (keys ++ newline :: rest). }
    destruct (read_one q arrivals c t Hf) as (q1 & arr1 & E1 & Hp1 & Hf1); [by rewrite Hp|].
    replace (wrap 8 c) with c in E1 by (unfold wrap; rewrite Z.mod_small; [done|exact Hc]). cbn [length] in Hfu.
    assert (∃ buf1 echo1, (if k =? 8 then match buf with [] => (buf, echo) | _ => (removelast buf, echo ++ [8; 32; 8]) end else (buf ++ [k], echo ++ [k])) = (buf1, echo1) ∧
      buf1 = (if k =? 8 then removelast buf else buf ++ [k]) ∧ echo ++ printed (length buf) (k :: keys) = echo1 ++ printed (length buf1) keys)
      as (buf1 & echo1 & -> & -> & ->).
    { cbn [printed]. destruct (k =? 8).
      - destruct buf as [|b buf _] using rev_ind; [by eexists _, _|]. rewrite removelast_last, length_app, Nat.add_1_r.
        exists buf, (echo ++ [8; 32; 8]). rewrite <- app_assoc. by destruct (buf ++ [b]) eqn:E0; [destruct buf|].
      - eexists _, _. split; [done|]. split; [done|]. by rewrite length_app, Nat.add_1_r, <- app_assoc. }
    rewrite E1. run. change (index [c] 0) with (Ret c). run. cbn [foldl]. apply IH; [done|lia|done|done|]. by rewrite Hp1.
Qed.

(** [C33] What is typed is what the shell gets and prints: for keys of one byte up to a newline, of
    which any are pushed by the keyboard thread before any look of the reader at the queue, as
    long as what is typed and not read fits the queue of 2048 characters, [shell_read_line]
    returns the line the keys make, with the character before every backspace taken out; it has
    printed every key, and for a backspace that takes a character back a backspace, a blank and a
    backspace; and the keys after the newline are left for the next read. *)
Theorem shell_reads_typed_line (keys rest : list Z) (q : Queue) (arrivals : list (list Z)) (Hf : fits q arrivals)
    (Hb : Forall is_byte keys) (Hn : newline ∉ keys) (Hp : pending q arrivals = keys ++ newline :: rest) :
  ∃ q' arrivals', shell_read_line (S (length keys)) q arrivals = Ret (Some (edit keys, printed 0 keys, q', arrivals')) ∧
    pending q' arrivals' = rest.
Proof.
  assert (∃ c t, keys ++ newline :: rest = c :: t ∧ is_byte c) as (c & t & Ec & Hc).
  { destruct keys as [|c keys]; [by exists newline, rest|]. apply Forall_cons in Hb as [Hc _]. by exists c, (keys ++ newline :: rest). }
  destruct (read_one q arrivals c t Hf) as (q1 & arr1 & E1 & Hp1 & Hf1); [by rewrite Hp|].
  replace (wrap 8 c) with c in E1 by (unfold wrap; rewrite Z.mod_small; [done|exact Hc]).
  unfold shell_read_line. rewrite E1. run. change (index [c] 0) with (Ret c). run.
  apply (shell_loop_ok keys (S (length keys)) c [] [] q1 arr1 rest); [done|lia|done|done|by rewrite Hp1].
Qed.

(** A key more than the queue holds panics in the thread of the keyboard. *)
Theorem full_queue_panics {K : PcKeyboard} (codes codes' bytes : Queue) (kb kb1 kb2 : Keyboard) (sc c : Z) (ev : KeyEvent)
    (Hq : BYTES_SIZE ≤ zlen (q_list bytes)) (Hs : get_scancode codes = (Some sc, codes')) (Ha : add_byte kb sc = (Ok (Some ev), kb1))
    (Hd : process_keyevent kb1 ev = (Some (Unicode c), kb2)) :
  keyboard_parse_step (codes, kb, bytes) = Panic.
Proof.
  unfold keyboard_parse_step. rewrite Hs, Ha, Hd. unfold push_char. by destruct (q_push_full bytes c Hq) as (q' & -> & _).
Qed.

End Lines.

(** ** Pixels *)

Section Pixels.
Context {P : Profile}.

Lemma index_lookup {B} (l : list B) i x : 0 ≤ i → l !! Z.to_nat i = Some x → index l i = Ret x.
Proof. intros Hi Hx. by apply index_Ret. Qed.

Lemma store_words (w fb : list Z) (k : nat) : (k ≤ length w)%nat → zlen w ≤ zlen fb →
  foldM (λ fb i, x ← index w i; store fb i x) fb (range 0 (Z.of_nat k)) = Ret (take k w ++ drop k fb).
Proof.
  induction k as [|k IH]; intros Hk Hz; [by rewrite range_nil by lia|].
  rewrite Nat2Z.inj_succ, <- Z.add_1_r, range_snoc, foldM_snoc, IH by lia. run. destruct (lookup_lt_is_Some_2 w k) as [x Hx]; [lia|].
  rewrite (index_lookup w (Z.of_nat k) x) by (rewrite ?Nat2Z.id; by try lia). run. unfold zlen in Hz.
  rewrite store_ok by (rewrite zlen_app; unfold zlen; rewrite length_take, length_drop; lia). f_equal.
  rewrite Nat2Z.id, insert_app_r_alt by (rewrite length_take; lia). rewrite length_take, Nat.min_l, Nat.sub_diag by lia.
  rewrite (take_S_r _ _ _ Hx), <- app_assoc. f_equal. destruct (drop k fb) as [|y l] eqn:Ed.
  - apply (f_equal length) in Ed. rewrite length_drop in Ed. cbn in Ed. lia.
  - cbn. f_equal. replace (S k) with (k + 1)%nat by lia. by rewrite <- drop_drop, Ed.
Qed.

Lemma zlen_words buf n : 0 ≤ n → zlen (as_words buf n) = n.
Proof. intros Hn. unfold as_words, zlen, range. rewrite length_fmap, length_seqZ. lia. Qed.

(** [write_at] on its branches, for an offset within the buffer. *)
Lemma fb_write_ok fb offset buf : 0 ≤ offset ≤ 4 * fb_size fb → 4 * fb_size fb < 2 ^ 64 - 1 →
  fb_write_at fb offset buf =
    if (4 * fb_size fb - offset + 1 <? zlen buf) || negb (zlen buf mod 4 =? 0) then Ret (0, fb)
    else Ret (zlen buf, mkFB (as_words buf (zlen buf / 4) ++ drop (Z.to_nat (zlen buf / 4)) (fbaddr fb)) (fb_width fb) (fb_height fb) (fb_bpp fb)).
Proof.
  intros Ho Hs. unfold fb_write_at. rewrite mul_u_ok by lia. run. rewrite sub_u_ok by lia. run. rewrite add_u_ok by lia. run.
  replace (fb_size fb * 4 - offset + 1) with (4 * fb_size fb - offset + 1) by lia. destruct ((_ <? _) || _) eqn:E; [done|]. cbv zeta.
  apply orb_false_iff in E as [E1 E2]. apply negb_false_iff in E2. breflect. pose proof (zlen_nonneg buf).
  assert (0 ≤ zlen buf / 4) by (apply Z.div_pos; lia). assert (zlen buf / 4 ≤ fb_size fb) by (Z.div_mod_to_equations; lia).
  pose proof (zlen_words buf (zlen buf / 4) ltac:(lia)) as Hw. rewrite Hw. replace (range 0 (zlen buf / 4)) with (range 0 (Z.of_nat (Z.to_nat (zlen buf / 4)))) by (f_equal; lia).
  rewrite store_words by (unfold fb_size, zlen in *; lia). run. do 3 f_equal. f_equal. apply take_ge. unfold zlen in *. lia.
Qed.

(** Reading fills the buffer from the first pixel. *)
Lemma read_words (fb : list Z) : ∀ (k : nat) (buf : list Z), (k ≤ length fb)%nat → (4 * k ≤ length buf)%nat →
  foldM (λ buf i, x ← index fb i; Ret (splice buf (4 * i) (to_le 4 x))) buf (range 0 (Z.of_nat k)) = Ret (flat_map (to_le 4) (take k fb) ++ drop (4 * k) buf).
Proof.
  induction k as [|k IH]; intros buf Hk Hb; [by rewrite range_nil by lia|].
  rewrite Nat2Z.inj_succ, <- Z.add_1_r, range_snoc, foldM_snoc, IH by lia. run. destruct (lookup_lt_is_Some_2 fb k) as [x Hx]; [lia|].
  rewrite (index_lookup fb (Z.of_nat k) x) by (rewrite ?Nat2Z.id; by try lia). run. f_equal.
  assert (length (flat_map (to_le 4) (take k fb)) = 4 * k)%nat as Hl.
  { transitivity (4 * length (take k fb))%nat; [|rewrite length_take; lia]. generalize (take k fb). intros l. induction l as [|y l IHl]; [done|]. cbn [flat_map length]. rewrite length_app, length_to_le. lia. }
  unfold splice, zlen. rewrite length_to_le. replace (Z.to_nat (4 * Z.of_nat k)) with (4 * k)%nat by lia.
  rewrite take_app_le, take_ge by lia. rewrite drop_app_ge by lia. rewrite Hl, drop_drop, (take_S_r _ _ _ Hx), flat_map_app. cbn [flat_map]. rewrite app_nil_r, <- app_assoc. do 3 f_equal. lia.
Qed.

Lemma pixels_bytes buf : Forall is_byte buf → ∀ k : nat, (4 * k ≤ length buf)%nat → flat_map (to_le 4) (as_words buf (Z.of_nat k)) = take (4 * k) buf.
Proof.
  intros Hb. induction k as [|k IH]; intros Hk; [unfold as_words; by rewrite range_nil by lia|].
  unfold as_words in *. rewrite Nat2Z.inj_succ, <- Z.add_1_r, range_snoc, fmap_app, flat_map_app, IH by lia. cbn [fmap list_fmap flat_map]. rewrite app_nil_r.
  unfold subslice. replace (Z.to_nat (4 * Z.of_nat k)) with (4 * k)%nat by lia. replace (Z.to_nat (4 * Z.of_nat k + 4 - 4 * Z.of_nat k)) with 4%nat by lia.
  pose proof (to_from_le (take 4 (drop (4 * k) buf)) (Forall_take _ _ _ (Forall_drop _ _ _ Hb))) as E.
  rewrite length_take_le in E by (rewrite length_drop; lia). rewrite E, take_take_drop. f_equal. lia.
Qed.

(** Pixels: bytes that fit are written to the frame buffer from its first pixel on and
    read back; the pixels behind them and the sizes are kept, and both calls return the
    number of bytes. *)
Theorem fb_roundtrip (fb : FrameBuffer) (buf buf' : list Z) (Hb : Forall is_byte buf) (Hm : zlen buf mod 4 = 0) (Hl : zlen buf ≤ 4 * fb_size fb)
    (Hs : 4 * fb_size fb < 2 ^ 64 - 1) (He : zlen buf' = zlen buf) :
  ∃ fb', fb_write_at fb 0 buf = Ret (zlen buf, fb') ∧ fb_read_at fb' buf' = Ret (zlen buf, buf) ∧
    fb_size fb' = fb_size fb ∧ drop (Z.to_nat (zlen buf / 4)) (fbaddr fb') = drop (Z.to_nat (zlen buf / 4)) (fbaddr fb).
Proof.
  pose proof (zlen_nonneg buf). rewrite fb_write_ok by lia. rewrite Z.sub_0_r, (proj2 (Z.ltb_ge _ _)), Hm by lia. cbn [orb negb Z.eqb]. eexists. split; [done|].
  assert (0 ≤ zlen buf / 4) by (apply Z.div_pos; lia). assert (zlen buf = 4 * (zlen buf / 4)) as Hq by (Z.div_mod_to_equations; lia).
  pose proof (zlen_words buf (zlen buf / 4) ltac:(lia)) as Hw. set (k := Z.to_nat (zlen buf / 4)). assert (Z.of_nat k = zlen buf / 4) as Hk by (unfold k; lia).
  assert (length (as_words buf (zlen buf / 4)) = k) as Hwl by (unfold zlen in *; lia). split; [|split].
  - unfold fb_read_at. cbn [fbaddr]. rewrite He. replace (range 0 (zlen buf / 4)) with (range 0 (Z.of_nat k)) by (by rewrite Hk).
    rewrite read_words; [|rewrite length_app; lia|unfold zlen in *; lia]. run. rewrite take_app_le, take_ge by lia.
    replace (as_words buf (zlen buf / 4)) with (as_words buf (Z.of_nat k)) by (by rewrite Hk).
    rewrite pixels_bytes; [|done|unfold zlen in *; lia]. rewrite take_ge, drop_ge, app_nil_r by (unfold zlen in *; lia). done.
  - unfold fb_size, zlen in *. cbn [fbaddr]. rewrite length_app, length_drop, Hwl. lia.
  - cbn [fbaddr]. rewrite drop_app_ge by lia. by rewrite Hwl, Nat.sub_diag.
Qed.

(** The offset of a write decides only whether it is refused: the pixels always go to the
    start. *)
Theorem fb_write_ignores_offset (fb : FrameBuffer) (offset : Z) (buf : list Z) (Ho : 0 ≤ offset ≤ 4 * fb_size fb) (Hs : 4 * fb_size fb < 2 ^ 64 - 1)
    (Hm : zlen buf mod 4 = 0) (Hl : zlen buf ≤ 4 * fb_size fb - offset) : fb_write_at fb offset buf = fb_write_at fb 0 buf.
Proof. rewrite !fb_write_ok by lia. rewrite !(proj2 (Z.ltb_ge _ _)) by lia. done. Qed.

(** A read of more bytes than the frame buffer has panics. *)
Theorem fb_read_past_end_panics (fb : FrameBuffer) (buf : list Z) (Hl : 4 * fb_size fb + 4 ≤ zlen buf) : fb_read_at fb buf = Panic.
Proof.
  pose proof (zlen_nonneg (fbaddr fb)) as Hn. unfold fb_read_at, fb_size in *.
  rewrite (range_app 0 (zlen (fbaddr fb)) (zlen buf / 4)) by (Z.div_mod_to_equations; lia). rewrite foldM_app.
  pose proof (read_words (fbaddr fb) (length (fbaddr fb)) buf ltac:(lia) ltac:(unfold zlen in *; lia)) as Er.
  change (Z.of_nat (length (fbaddr fb))) with (zlen (fbaddr fb)) in Er. rewrite Er. run. rewrite range_cons by (Z.div_mod_to_equations; lia). cbn [foldM].
  destruct (index (fbaddr fb) (zlen (fbaddr fb))) as [x|] eqn:Ei; [|done]. apply index_bounds in Ei. lia.
Qed.

End Pixels.

(** ** Examples: a list as queue, a keyboard that types what it is sent *)

Section Examples.
#[local] Existing Instance dev.

#[local] Instance list_queue : ArrayQueue := {|
  Queue := list Z;
  q_list l := l;
  q_push l c := if zlen l <? BYTES_SIZE then (Ok tt, l ++ [c]) else (Err c, l);
  q_pop l := match l with [] => (None, []) | c :: l => (Some c, l) end;
|}.

#[local] Instance list_queue_laws : ArrayQueueLaws list_queue BYTES_SIZE.
Proof.
  split; cbn [q_list q_push q_pop list_queue].
  - intros q c Hl. rewrite (proj2 (Z.ltb_lt _ _)) by done. by exists (q ++ [c]).
  - intros q c Hl. rewrite (proj2 (Z.ltb_ge _ _)) by done. by exists q.
  - intros q c l ->. by exists l.
  - intros q ->. by exists [].
Qed.

(** [lx], a backspace, [s], return: the first key is there, [x] comes before it is read, the others
    later. *)
Lemma shell_reads_typed_line_witness : ∃ (q' : Queue) arrivals',
  shell_read_line 5 [108] [[120]; []; []; [8]; [115; 10; 99]] = Ret (Some ([108; 115], [108; 120; 8; 32; 8; 115], q', arrivals')) ∧
  pending q' arrivals' = [99].
Proof.
  apply (shell_reads_typed_line (A := list_queue) [108; 120; 8; 115] [99] [108] [[120]; []; []; [8]; [115; 10; 99]]).
  - vm_compute. discriminate.
  - repeat (apply Forall_cons_2; [unfold is_byte; lia|]). apply Forall_nil_2.
  - rewrite !elem_of_cons, elem_of_nil. unfold newline. lia.
  - reflexivity.
Defined.

Lemma terminal_reads_line_witness : ∃ (q' : Queue) arrivals', Terminal_read_at 3 [108] [[115]; [10; 99]] = Ret (Some ([108; 115; 10], q', arrivals')) ∧
  pending q' arrivals' = [99].
Proof.
  assert (fits (A := list_queue) [108] [[115]; [10; 99]]) as Hf by (vm_compute; discriminate).
  exact (terminal_reads_line (A := list_queue) 3 [108] [[115]; [10; 99]] Hf).
Defined.

#[local] Instance plain_keyboard : PcKeyboard := {|
  Keyboard := unit;
  KeyEvent := Z;
  add_byte _ c := (Ok (Some c), tt);
  process_keyevent _ c := (Some (Unicode c), tt);
|}.

Lemma full_queue_panics_witness : keyboard_parse_step (([30] : Queue), (tt : Keyboard), (replicate 2048 97 : Queue)) = Panic.
Proof.
  apply (full_queue_panics (A := list_queue) (K := plain_keyboard) _ [] _ _ tt tt 30 30 30); [vm_compute; discriminate|reflexivity|reflexivity|reflexivity].
Defined.

(** Four pixels, of which two are written. *)
Definition small_fb : FrameBuffer := mkFB [1; 2; 3; 4] 2 2 32.

Lemma fb_roundtrip_witness : ∃ fb', fb_write_at small_fb 0 [10; 20; 30; 0; 40; 50; 60; 0] = Ret (8, fb') ∧
  fb_read_at fb' [0; 0; 0; 0; 0; 0; 0; 0] = Ret (8, [10; 20; 30; 0; 40; 50; 60; 0]) ∧ drop 2 (fbaddr fb') = [3; 4].
Proof.
  destruct (fb_roundtrip small_fb [10; 20; 30; 0; 40; 50; 60; 0] [0; 0; 0; 0; 0; 0; 0; 0]) as (fb' & E1 & E2 & _ & E3).
  - repeat (apply Forall_cons_2; [unfold is_byte; lia|]). apply Forall_nil_2.
  - reflexivity.
  - vm_compute. discriminate.
  - vm_compute. reflexivity.
  - reflexivity.
  - exists fb'. split; [exact E1|]. split; [exact E2|exact E3].
Defined.

Lemma fb_write_ignores_offset_witness : fb_write_at small_fb 8 [10; 20; 30; 0] = fb_write_at small_fb 0 [10; 20; 30; 0].
Proof. apply fb_write_ignores_offset; [vm_compute; split; discriminate|vm_compute; reflexivity|reflexivity|vm_compute; discriminate]. Defined.

Lemma fb_read_past_end_panics_witness : fb_read_at small_fb (replicate 20 0) = Panic.
Proof. apply fb_read_past_end_panics. vm_compute. discriminate. Defined.

End Examples.
