(* ===== verification/Devices.v ===== *)
(** * Small devices: the PS/2 mouse and the real-time clock

    [kernel/src/device/mouse.rs] and [kernel/src/device/rtc.rs]. The ports are those
    of the machine; their devices are the parameter [Bus]. *)

From S2P Require Import Prelude.

(** Port input and output. *)
Class PortIO := {
  Bus : Type;
  inb : Bus → Z → Z * Bus;
  outb : Bus → Z → Z → Bus;
}.

(** ** The mouse *)

Definition LEFT_BUTTON : Z := 0x01.
Definition RIGHT_BUTTON : Z := 0x02.
Definition MIDDLE_BUTTON : Z := 0x04.
Definition ALWAYS_ONE : Z := 0x08.
Definition X_SIGN : Z := 0x10.
Definition Y_SIGN : Z := 0x20.
Definition X_OVERFLOW : Z := 0x40.
Definition Y_OVERFLOW : Z := 0x80.

(** [flags.contains(f)] for a single flag. *)
Definition flag_contains (flags f : Z) : bool := Z.land flags f =? f.

Inductive MouseAdditionalFlags := FirstButton | SecondButton | ScrollUp | ScrollDown | NoFlags.

Record MouseState := mkMouseState {
  flags : Z;
  additional_flags : MouseAdditionalFlags;
  move_x : Z;
  move_y : Z;
}.

Definition MouseState_new : MouseState := mkMouseState 0 NoFlags 0 0.

Inductive MouseType := Standard | OnlyScroll | FiveButton.

(** The handler is known by whether it is set; what it was called with is the log. *)
Record Mouse := mkMouse {
  current_packet_index : Z;
  current_state : MouseState;
  mouse_type : MouseType;
  complete_handler : bool;
}.

Definition Mouse_new : Mouse := mkMouse 0 MouseState_new Standard false.

Definition set_complete_handler (self : Mouse) : Mouse :=
  mkMouse (current_packet_index self) (current_state self) (mouse_type self) true.

Inductive MouseError := NoAck | ReadTimeout | WriteTimeout.

Section Mouse.
Context {P : Profile}.

(** The movement a byte of a packet gives: [packet as i16], or with the sign bits. *)
Definition movement (packet : Z) (sign : bool) : Z :=
  if sign then to_signed 16 (Z.lor packet 0xff00) else packet.

Definition additional (packet : Z) : MouseAdditionalFlags :=
  if packet =? 0x41 then FirstButton
  else if packet =? 0x7f then SecondButton
  else if packet =? 0x01 then ScrollUp
  else if packet =? 0xff then ScrollDown
  else if packet =? 0x0f then ScrollDown
  else NoFlags.

Definition modulo (t : MouseType) : Z := match t with Standard => 3 | _ => 4 end.

(** [process_packet]; the log gets what the handler is called with. *)
Definition process_packet (self : Mouse) (packet : Z) : out (Mouse * list MouseState) :=
  let st := current_state self in
  let m := modulo (mouse_type self) in
  let step := current_packet_index self mod m in
  let finish st :=
    let log := if (step =? m - 1) && complete_handler self then [st] else [] in
    i ← add_u 16 (current_packet_index self) 1;
    i ← rem_u i m;
    Ret (mkMouse i st (mouse_type self) (complete_handler self), log) in
  if step =? 0 then
    let f := Z.land packet 0xff in
    if negb (flag_contains f ALWAYS_ONE) then Ret (self, [])
    else finish (mkMouseState f (additional_flags st) (move_x st) (move_y st))
  else if step =? 1 then
    finish (if negb (flag_contains (flags st) X_OVERFLOW)
      then mkMouseState (flags st) (additional_flags st)
        (movement packet (flag_contains (flags st) X_SIGN)) (move_y st)
      else st)
  else if step =? 2 then
    finish (if negb (flag_contains (flags st) Y_OVERFLOW)
      then mkMouseState (flags st) (additional_flags st) (move_x st)
        (movement packet (flag_contains (flags st) Y_SIGN))
      else st)
  else if step =? 3 then
    finish (mkMouseState (flags st) (additional packet) (move_x st) (move_y st))
  else Panic.

(** A stream of bytes. *)
Fixpoint process_packets (self : Mouse) (bytes : list Z) : out (Mouse * list MouseState) :=
  match bytes with
  | [] => Ret (self, [])
  | b :: bytes =>
      '(self, log) ← process_packet self b;
      '(self, log') ← process_packets self bytes;
      Ret (self, log ++ log')
  end.

(** *** Initialisation *)

Context {IO : PortIO}.

Definition COMMAND_PORT : Z := 0x64.
Definition DATA_PORT : Z := 0x60.

(** [for _ in 0..10_000], with [done] the test of the status byte. *)
Fixpoint wait_loop (n : nat) (ready : Z → bool) (b : Bus) : bool * Bus :=
  match n with
  | O => (false, b)
  | S n =>
      let '(status, b) := inb b COMMAND_PORT in
      if ready status then (true, b) else wait_loop n ready b
  end.

Definition wait_for_read (b : Bus) : result MouseError unit * Bus :=
  let '(ok, b) := wait_loop (Z.to_nat 10_000) (λ s, Z.land s 0x1 =? 1) b in
  (if ok then Ok tt else Err ReadTimeout, b).

Definition wait_for_write (b : Bus) : result MouseError unit * Bus :=
  let '(ok, b) := wait_loop (Z.to_nat 10_000) (λ s, Z.land s 0x2 =? 0) b in
  (if ok then Ok tt else Err WriteTimeout, b).

Definition read_data_port (b : Bus) : result MouseError Z * Bus :=
  match wait_for_read b with
  | (Err e, b) => (Err e, b)
  | (Ok _, b) => let '(x, b) := inb b DATA_PORT in (Ok x, b)
  end.

Definition write_command_port (b : Bus) (value : Z) : result MouseError unit * Bus :=
  match wait_for_write b with
  | (Err e, b) => (Err e, b)
  | (Ok _, b) => (Ok tt, outb b COMMAND_PORT value)
  end.

Definition write_data_port (b : Bus) (value : Z) : result MouseError unit * Bus :=
  match wait_for_write b with
  | (Err e, b) => (Err e, b)
  | (Ok _, b) => (Ok tt, outb b DATA_PORT value)
  end.

Definition send_command (b : Bus) (command : Z) : result MouseError unit * Bus :=
  match write_command_port b 0xd4 with
  | (Err e, b) => (Err e, b)
  | (Ok _, b) =>
      match write_data_port b command with
      | (Err e, b) => (Err e, b)
      | (Ok _, b) =>
          match read_data_port b with
          | (Err e, b) => (Err e, b)
          | (Ok x, b) => (if x =? 0xfa then Ok tt else Err NoAck, b)
          end
      end
  end.

Fixpoint send_commands (b : Bus) (commands : list Z) : result MouseError unit * Bus :=
  match commands with
  | [] => (Ok tt, b)
  | c :: commands =>
      match send_command b c with
      | (Err e, b) => (Err e, b)
      | (Ok _, b) => send_commands b commands
      end
  end.

Definition set_type (self : Mouse) (t : MouseType) : Mouse :=
  mkMouse (current_packet_index self) (current_state self) t (complete_handler self).

Definition enable_packet_streaming (self : Mouse) (b : Bus) : result MouseError Mouse * Bus :=
  match send_command b 0xf4 with (Err e, b) => (Err e, b) | (Ok _, b) => (Ok self, b) end.

Definition enable_scroll_wheel (self : Mouse) (b : Bus) : result MouseError Mouse * Bus :=
  match send_commands b [0xf3; 200; 0xf3; 100; 0xf3; 80; 0xf2] with
  | (Err e, b) => (Err e, b)
  | (Ok _, b) =>
      match read_data_port b with
      | (Err e, b) => (Err e, b)
      | (Ok x, b) => (Ok (if x =? 0x3 then set_type self OnlyScroll else self), b)
      end
  end.

Definition enable_additional_button (self : Mouse) (b : Bus) : result MouseError Mouse * Bus :=
  match send_commands b [0xf3; 200; 0xf3; 200; 0xf3; 80; 0xf2] with
  | (Err e, b) => (Err e, b)
  | (Ok _, b) =>
      match read_data_port b with
      | (Err e, b) => (Err e, b)
      | (Ok x, b) => (Ok (if x =? 0x4 then set_type self FiveButton else self), b)
      end
  end.

(** [Mouse::init]; the mouse keeps what was found out before an error. *)
Definition Mouse_init (self : Mouse) (b : Bus) : result MouseError unit * Mouse * Bus :=
  match enable_packet_streaming self b with
  | (Err e, b) => (Err e, self, b)
  | (Ok self, b) =>
      match enable_scroll_wheel self b with
      | (Err e, b) => (Err e, self, b)
      | (Ok self, b) =>
          match enable_additional_button self b with
          | (Err e, b) => (Err e, self, b)
          | (Ok self, b) => (Ok tt, self, b)
          end
      end
  end.

End Mouse.

(** *** What a packet means

    Nine-bit two's complement movements; an axis that overflowed keeps its old value. *)

Record Packet := mkPacket { p_flags : Z; p_x : Z; p_y : Z; p_extra : Z }.

Definition packet_ok (p : Packet) : Prop :=
  0 ≤ p_flags p < 256 ∧ Z.testbit (p_flags p) 3 = true ∧ 0 ≤ p_x p < 256 ∧ 0 ≤ p_y p < 256.

Definition packet_bytes (t : MouseType) (p : Packet) : list Z :=
  p_flags p :: p_x p :: p_y p :: match t with Standard => [] | _ => [p_extra p] end.

Definition nine_bit (x : Z) (sign : bool) : Z := if sign then x - 256 else x.

Definition decode (t : MouseType) (st : MouseState) (p : Packet) : MouseState :=
  mkMouseState (p_flags p)
    (match t with Standard => additional_flags st | _ => additional (p_extra p) end)
    (if Z.testbit (p_flags p) 6 then move_x st else nine_bit (p_x p) (Z.testbit (p_flags p) 4))
    (if Z.testbit (p_flags p) 7 then move_y st else nine_bit (p_y p) (Z.testbit (p_flags p) 5)).

Fixpoint decode_all (t : MouseType) (st : MouseState) (ps : list Packet) : list MouseState * MouseState :=
  match ps with
  | [] => ([], st)
  | p :: ps => let st := decode t st p in let '(l, st') := decode_all t st ps in (st :: l, st')
  end.

Section MouseProofs.
Context {P : Profile}.

Lemma flag_contains_bit f k : 0 ≤ k → flag_contains f (2 ^ k) = Z.testbit f k.
Proof.
  intros Hk. unfold flag_contains. destruct (Z.testbit f k) eqn:E.
  - apply Z.eqb_eq. apply Z.bits_inj'. intros i Hi. rewrite Z.land_spec, Z.pow2_bits_eqb by done.
    destruct (Z.eqb_spec k i) as [<-|]; [by rewrite E|by rewrite andb_false_r].
  - apply Z.eqb_neq. intros H. assert (Z.testbit (Z.land f (2 ^ k)) k = true) as Hb
      by (rewrite H; by apply Z.pow2_bits_true). rewrite Z.land_spec, E in Hb. done.
Qed.

Lemma movement_spec x sign : 0 ≤ x < 256 → movement x sign = nine_bit x sign.
Proof.
  intros Hx. unfold movement, nine_bit. destruct sign; [|done].
  assert (Z.lor x 0xff00 = x + 0xff00) as ->
    by (by apply (lor_aligned x 0xff00 8)).
  unfold to_signed. change (2 ^ (16 - 1)) with 32768. change (2 ^ 16) with 65536.
  rewrite (proj2 (Z.ltb_ge _ _)) by lia. lia.
Qed.

(** The bytes of a packet, one by one. *)
Lemma process_flags st t h b : flag_contains (Z.land b 0xff) ALWAYS_ONE = true →
  process_packet (mkMouse 0 st t h) b =
    Ret (mkMouse 1 (mkMouseState (Z.land b 0xff) (additional_flags st) (move_x st) (move_y st)) t h, []).
Proof.
  intros H. unfold process_packet, add_u, norm, rem_u. destruct t; cbn -[Z.land flag_contains]; by rewrite H.
Qed.

Lemma process_x st t h b : process_packet (mkMouse 1 st t h) b =
  Ret (mkMouse 2 (mkMouseState (flags st) (additional_flags st)
    (if flag_contains (flags st) X_OVERFLOW then move_x st
     else movement b (flag_contains (flags st) X_SIGN)) (move_y st)) t h, []).
Proof.
  unfold process_packet, add_u, norm, rem_u. destruct st, t; cbn -[Z.land flag_contains movement];
    by destruct (flag_contains flags0 X_OVERFLOW).
Qed.

(** The state after the byte of the vertical movement. *)
Definition with_y (st : MouseState) (b : Z) : MouseState :=
  mkMouseState (flags st) (additional_flags st) (move_x st)
    (if flag_contains (flags st) Y_OVERFLOW then move_y st
     else movement b (flag_contains (flags st) Y_SIGN)).

Lemma process_y st t h b : process_packet (mkMouse 2 st t h) b =
  match t with
  | Standard => Ret (mkMouse 0 (with_y st b) t h, if h then [with_y st b] else [])
  | _ => Ret (mkMouse 3 (with_y st b) t h, [])
  end.
Proof.
  unfold process_packet, add_u, norm, rem_u, with_y. destruct st, t; cbn -[Z.land flag_contains movement];
    by destruct (flag_contains flags0 Y_OVERFLOW).
Qed.

Lemma process_extra st t h b : t ≠ Standard →
  let st' := mkMouseState (flags st) (additional b) (move_x st) (move_y st) in
  process_packet (mkMouse 3 st t h) b = Ret (mkMouse 0 st' t h, if h then [st'] else []).
Proof.
  intros Ht. unfold process_packet, add_u, norm, rem_u. destruct t; [done|..];
    by cbn -[Z.land additional].
Qed.

(** One packet. *)
Lemma process_packet_ok st t h p bytes : packet_ok p →
  process_packets (mkMouse 0 st t h) (packet_bytes t p ++ bytes) =
    ('(m, log) ← process_packets (mkMouse 0 (decode t st p) t h) bytes;
     Ret (m, (if h then [decode t st p] else []) ++ log)).
Proof.
  intros (Hf & H3 & Hx & Hy).
  assert (Z.land (p_flags p) 0xff = p_flags p) as Hand
    by (change 0xff with (Z.ones 8); by apply land_ones_small).
  assert (∀ k, 0 ≤ k → Z.testbit (p_flags p) k = flag_contains (p_flags p) (2 ^ k)) as Hbit
    by (intros; by rewrite flag_contains_bit).
  unfold decode. rewrite <- (movement_spec (p_x p)), <- (movement_spec (p_y p)), !Hbit by done.
  assert (flag_contains (Z.land (p_flags p) 0xff) ALWAYS_ONE = true) as Hone
    by (rewrite Hand, <- H3, Hbit by lia; done).
  unfold packet_bytes. cbn [app process_packets]. rewrite process_flags by done. run. rewrite process_x. run.
  rewrite process_y, Hand. cbn [flags additional_flags move_x move_y with_y].
  destruct t; run; cbn [app process_packets]; [|rewrite process_extra by done; run..];
    cbn [flags additional_flags move_x move_y];
    by destruct (process_packets _ bytes) as [[m log]|].
Qed.

(** The mouse driver decodes the stream of packets: from the start of a packet, for
    any sequence of packets of a mouse of any type, the handler is called once per
    packet, in order, with the buttons and the nine-bit signed movements of that
    packet (an axis that overflowed keeps its value), and the driver is at the start of
    a packet again. *)
Theorem mouse_decodes (st : MouseState) (t : MouseType) (ps : list Packet)
    (Hps : Forall packet_ok ps) :
  process_packets (mkMouse 0 st t true) (ps ≫= packet_bytes t) =
    Ret (mkMouse 0 (decode_all t st ps).2 t true, (decode_all t st ps).1).
Proof.
  revert st. induction Hps as [|p ps Hp _ IH]; intros st; [done|].
  cbn [mbind list_bind]. rewrite process_packet_ok by done. cbn [decode_all].
  fold (ps ≫= packet_bytes t). rewrite IH. by destruct (decode_all t (decode t st p) ps).
Qed.

End MouseProofs.

Lemma mouse_decodes_witness :
  process_packets (P:=dev) (mkMouse 0 MouseState_new OnlyScroll true) [0x19; 0xfe; 3; 1; 0x48; 9; 2; 0] =
    Ret (mkMouse 0 (mkMouseState 0x48 NoFlags (-2) 2) OnlyScroll true,
         [mkMouseState 0x19 ScrollUp (-2) 3; mkMouseState 0x48 NoFlags (-2) 2]).
Proof.
  apply (mouse_decodes (P:=dev) MouseState_new OnlyScroll [mkPacket 0x19 0xfe 3 1; mkPacket 0x48 9 2 0]).
  repeat constructor; cbn; lia.
Defined.

(** ** The real-time clock *)

Record RtcDateTime := mkRtc { second : Z; minute : Z; hour : Z; day : Z; month : Z; year : Z }.

Section Rtc.
Context {P : Profile} {IO : PortIO}.

Definition get_rtc_register (b : Bus) (idx : Z) : Z * Bus := inb (outb b 0x70 idx) 0x71.

Definition rtc_bcd_to_bin (bcd : Z) : out Z :=
  let msb := Z.land bcd 0x80 in
  let msb_masked := Z.land bcd (not_u 8 0x80) in
  tens ← mul_u 8 (msb_masked / 16) 10;
  x ← add_u 8 tens (msb_masked mod 16);
  Ret (Z.lor x msb).

(** [((hour & !0x80) % 12) + 12 * is_pm as u8] *)
Definition to_24_hour (h : Z) : out Z :=
  let is_pm := negb (Z.land h 0x80 =? 0) in
  x ← mul_u 8 12 (Z.b2z is_pm);
  add_u 8 (Z.land h (not_u 8 0x80) mod 12) x.

Definition RtcDateTime_new (b : Bus) : out (RtcDateTime * Bus) :=
  let '(s', b) := get_rtc_register b 0x00 in
  let '(m', b) := get_rtc_register b 0x02 in
  let '(h', b) := get_rtc_register b 0x04 in
  let '(d', b) := get_rtc_register b 0x07 in
  let '(mo', b) := get_rtc_register b 0x08 in
  let '(y', b) := get_rtc_register b 0x09 in
  let '(format, b) := get_rtc_register b 0x0b in
  let is_24_hour := negb (Z.land format (Z.shiftl 1 1) =? 0) in
  let is_binary := negb (Z.land format (Z.shiftl 1 2) =? 0) in
  t ← (if negb is_binary then
      s' ← rtc_bcd_to_bin s';
      m' ← rtc_bcd_to_bin m';
      h' ← rtc_bcd_to_bin h';
      d' ← rtc_bcd_to_bin d';
      mo' ← rtc_bcd_to_bin mo';
      y' ← rtc_bcd_to_bin y';
      Ret (mkRtc s' m' h' d' mo' y')
    else Ret (mkRtc s' m' h' d' mo' y'));
  t ← (if negb is_24_hour then
      h ← to_24_hour (hour t);
      Ret (mkRtc (second t) (minute t) h (day t) (month t) (year t))
    else Ret t);
  Ret (t, b).

End Rtc.

(** How the clock's chip shows a time: in binary or BCD, with 24 or 12 hours, bit 7 of
    the hour then marking the afternoon. *)
Definition encode_byte (binary : bool) (x : Z) : Z := if binary then x else 16 * (x / 10) + x mod 10.

Definition encode_hour (binary h24 : bool) (h : Z) : Z :=
  if h24 then encode_byte binary h
  else encode_byte binary (if h mod 12 =? 0 then 12 else h mod 12) + (if h <? 12 then 0 else 0x80).

Definition rtc_registers (binary h24 : bool) (t : RtcDateTime) (i : Z) : Z :=
  if i =? 0x00 then encode_byte binary (second t)
  else if i =? 0x02 then encode_byte binary (minute t)
  else if i =? 0x04 then encode_hour binary h24 (hour t)
  else if i =? 0x07 then encode_byte binary (day t)
  else if i =? 0x08 then encode_byte binary (month t)
  else if i =? 0x09 then encode_byte binary (year t)
  else if i =? 0x0b then (if h24 then 2 else 0) + (if binary then 4 else 0)
  else 0.

Definition rtc_valid (t : RtcDateTime) : Prop :=
  0 ≤ second t < 60 ∧ 0 ≤ minute t < 60 ∧ 0 ≤ hour t < 24 ∧ 1 ≤ day t < 32 ∧ 1 ≤ month t < 13 ∧
  0 ≤ year t < 80.

Section RtcProofs.
Context {P : Profile} {IO : PortIO}.

(** [f x] returns [x] for all [x] below [n], by evaluation. *)
Lemma returns_below (f : Z → out Z) n x :
  forallb (λ x, match f x with Ret y => y =? x | Panic => false end) (seqZ 0 n) = true →
  0 ≤ x < n → f x = Ret x.
Proof.
  intros H Hx. rewrite forallb_forall in H. specialize (H x).
  rewrite <- list_elem_of_In, elem_of_seqZ in H. specialize (H ltac:(lia)).
  destruct (f x) as [y|]; [|done]. by apply Z.eqb_eq in H as ->.
Qed.

Lemma bcd_ok x : 0 ≤ x < 80 → rtc_bcd_to_bin (encode_byte false x) = Ret x.
Proof.
  apply (returns_below (λ x, rtc_bcd_to_bin (encode_byte false x))). destruct P; vm_compute; reflexivity.
Qed.

(** The hour in each format. *)
Lemma hour_ok (binary h24 : bool) h : 0 ≤ h < 24 →
  (x ← (if binary then Ret (encode_hour binary h24 h) else rtc_bcd_to_bin (encode_hour binary h24 h));
   if h24 then Ret x else to_24_hour x) = Ret h.
Proof.
  apply (returns_below (λ h, x ← (if binary then Ret (encode_hour binary h24 h)
    else rtc_bcd_to_bin (encode_hour binary h24 h)); if h24 then Ret x else to_24_hour x)).
  destruct P, binary, h24; vm_compute; reflexivity.
Qed.

(** The clock is read correctly: on a chip whose registers show a date before 2080,
    in BCD or binary and with 12 or 24 hours, [RtcDateTime::new] returns that date and
    time of day, midnight and noon included. *)
Theorem rtc_reads_time (b : Bus) (binary h24 : bool) (t : RtcDateTime)
    (Hchip : ∀ b i, (inb (outb b 0x70 i) 0x71).1 = rtc_registers binary h24 t i)
    (Ht : rtc_valid t) :
  ∃ b', RtcDateTime_new b = Ret (t, b').
Proof.
  assert (∀ b i, ∃ b', get_rtc_register b i = (rtc_registers binary h24 t i, b')) as Hreg.
  { intros b0 i. unfold get_rtc_register. rewrite <- (Hchip b0 i).
    destruct (inb (outb b0 112 i) 113) as [x b1]. by exists b1. }
  unfold RtcDateTime_new. repeat match goal with |- context [get_rtc_register ?b ?i] =>
    let b' := fresh "b" in destruct (Hreg b i) as [b' ->] end.
  destruct Ht as (Hs & Hm & Hh & Hd & Hmo & Hy). pose proof (hour_ok binary h24 (hour t) Hh) as Hhour.
  assert (∀ x, 0 ≤ x < 80 → (if binary then Ret (encode_byte binary x)
    else rtc_bcd_to_bin (encode_byte binary x)) = Ret x) as Hbyte.
  { intros x Hx. destruct binary; [done|by apply bcd_ok]. }
  change (rtc_registers binary h24 t 0) with (encode_byte binary (second t)).
  change (rtc_registers binary h24 t 2) with (encode_byte binary (minute t)).
  change (rtc_registers binary h24 t 4) with (encode_hour binary h24 (hour t)).
  change (rtc_registers binary h24 t 7) with (encode_byte binary (day t)).
  change (rtc_registers binary h24 t 8) with (encode_byte binary (month t)).
  change (rtc_registers binary h24 t 9) with (encode_byte binary (year t)).
  assert ((Z.land (rtc_registers binary h24 t 11) (Z.shiftl 1 2) =? 0) = negb binary) as ->
    by (destruct binary, h24; reflexivity).
  assert ((Z.land (rtc_registers binary h24 t 11) (Z.shiftl 1 1) =? 0) = negb h24) as ->
    by (destruct binary, h24; reflexivity).
  rewrite !negb_involutive. exists b6. destruct binary; cbn [negb].
  - run. cbn [second minute hour day month year encode_byte].
    destruct h24; cbn [negb] in *; [by destruct t|]. run. cbn [mbind out_mbind] in Hhour.
    rewrite Hhour. run. by destruct t.
  - rewrite !Hbyte by lia. run. destruct (rtc_bcd_to_bin _) as [x|]; [|done]. run.
    cbn [second minute hour day month year]. cbn [mbind out_mbind] in Hhour.
    destruct h24; cbn [negb] in *; [by injection Hhour as ->; destruct t|].
    rewrite Hhour. run. by destruct t.
Qed.

End RtcProofs.

(** In BCD the years from 2080 on are wrong: bit 7 is taken for a mark and kept, so
    that 80 is read as 128. *)
Example rtc_year_80 : rtc_bcd_to_bin (P:=dev) (encode_byte false 80) = Ret 128.
Proof. reflexivity. Qed.

(** A chip whose index port selects the register that is read. *)
#[export] Instance sample_chip : PortIO := {|
  Bus := Z;
  inb b p := (if p =? 0x71 then rtc_registers false false (mkRtc 59 30 12 31 12 24) b else 0, b);
  outb b p v := if p =? 0x70 then v else b;
|}.

Lemma rtc_reads_time_witness :
  ∃ b', RtcDateTime_new (P:=dev) (IO:=sample_chip) 0 = Ret (mkRtc 59 30 12 31 12 24, b').
Proof.
  apply (rtc_reads_time (P:=dev) (IO:=sample_chip) 0 false false (mkRtc 59 30 12 31 12 24)).
  - reflexivity.
  - unfold rtc_valid. cbn. lia.
Defined.
