(* ===== verification/FatIo.v ===== *)
(** * FAT crate: storage, streams and slices of a disk

    [io.rs], [error.rs] and the type [DiskSlice] of [fs.rs] in
    [kernel/crates/good-fatfs/src]. The crate is generic in a storage that reads, writes
    and seeks: the class [Storage] is the trait, [FlatStorage] the laws of its
    documentation (a cursor over an array of bytes that may transfer less than asked),
    and the instances are the kernel's stream over an inode and [DiskSlice]. *)

From Stdlib Require Import FMapPositive.
From S2P Require Import Prelude BlockCache.

(** ** Errors

    [Error<()>]: the storage's own error type is [()] in this kernel, for which
    [is_interrupted] is [false], as it is then for every [Error<()>]. *)

Inductive Error :=
  | Io (e : unit)
  | UnexpectedEof
  | WriteZero
  | InvalidInput
  | NotFound
  | AlreadyExists
  | DirectoryIsNotEmpty
  | CorruptedFileSystem
  | NotEnoughSpace
  | InvalidFileNameLength
  | UnsupportedFileNameCharacter.

#[export] Instance Error_eq_dec : EqDecision Error.
Proof. solve_decision. Defined.

(** ** The traits [Read], [Write] and [Seek]

    [st_read s buf] is the count and the buffer afterwards. [unexpected_eof] and
    [write_zero] are [new_unexpected_eof_error] and [new_write_zero_error], converted to
    the crate's error. *)

Class Storage (S : Type) := {
  st_read : S → list Z → out (result Error (Z * list Z) * S);
  st_write : S → list Z → out (result Error Z * S);
  st_seek : S → SeekFrom → out (result Error Z * S);
  st_flush : S → out (result Error unit * S);
  unexpected_eof : Error;
  write_zero : Error;
}.

#[export] Hint Mode Storage ! : typeclass_instances.

Definition zeros (n : nat) : list Z := replicate n 0.

(** [for x in l { f(x)?; }] *)
Fixpoint for_each {X S : Type} (f : X → S → out (result Error unit * S)) (l : list X) (s : S) :
    out (result Error unit * S) :=
  match l with
  | [] => Ret (Ok tt, s)
  | x :: l => let? (_, s) := f x s in for_each f l s
  end.

Section Streams.
Context {S : Type} {ST : Storage S}.

(** The loop of [read_exact]: every pass that continues has read at least one byte, so
    the length of the buffer bounds their number. *)
Fixpoint read_exact_loop (fuel : nat) (s : S) (buf : list Z) : out (result Error (list Z) * S) :=
  match buf, fuel with
  | [], _ => Ret (Ok [], s)
  | _, O => Panic
  | _, Datatypes.S fuel =>
      let? (r, s) := st_read s buf in
      let '(n, buf) := r in
      if n =? 0 then Ret (Err (unexpected_eof (S := S)), s)
      else
        rest ← slice buf n (zlen buf);
        let? (tl, s) := read_exact_loop fuel s rest in
        Ret (Ok (take (Z.to_nat n) buf ++ tl), s)
  end.

Definition read_exact (s : S) (buf : list Z) : out (result Error (list Z) * S) :=
  read_exact_loop (length buf) s buf.

Fixpoint write_all_loop (fuel : nat) (s : S) (buf : list Z) : out (result Error unit * S) :=
  match buf, fuel with
  | [], _ => Ret (Ok tt, s)
  | _, O => Panic
  | _, Datatypes.S fuel =>
      let? (n, s) := st_write s buf in
      if n =? 0 then Ret (Err (write_zero (S := S)), s)
      else
        rest ← slice buf n (zlen buf);
        write_all_loop fuel s rest
  end.

Definition write_all (s : S) (buf : list Z) : out (result Error unit * S) :=
  write_all_loop (length buf) s buf.

Definition read_le (n : nat) (s : S) : out (result Error Z * S) :=
  let? (buf, s) := read_exact s (replicate n 0) in
  Ret (Ok (from_le buf), s).

Definition read_u8 (s : S) : out (result Error Z * S) :=
  let? (buf, s) := read_exact s [0] in
  b ← index buf 0;
  Ret (Ok b, s).
Definition read_u16_le : S → out (result Error Z * S) := read_le 2.
Definition read_u32_le : S → out (result Error Z * S) := read_le 4.

Definition write_u8 (s : S) (n : Z) : out (result Error unit * S) := write_all s [n].
Definition write_u16_le (s : S) (n : Z) : out (result Error unit * S) := write_all s (to_le 2 n).
Definition write_u32_le (s : S) (n : Z) : out (result Error unit * S) := write_all s (to_le 4 n).

(** [write_zeros] of [fs.rs]: at most 512 bytes at a time. *)
Fixpoint write_zeros_loop (fuel : nat) (disk : S) (len : Z) : out (result Error unit * S) :=
  if len <=? 0 then Ret (Ok tt, disk)
  else match fuel with
  | O => Panic
  | Datatypes.S fuel =>
      let write_size := Z.min len 512 in
      zeros ← slice (replicate 512 0) 0 write_size;
      let? (_, disk) := write_all disk zeros in
      write_zeros_loop fuel disk (len - write_size)
  end.

Definition write_zeros (disk : S) (len : Z) : out (result Error unit * S) :=
  write_zeros_loop (Z.to_nat (div_ceil len 512)) disk len.

Definition write_zeros_until_end_of_sector (disk : S) (bytes_per_sector : Z) :
    out (result Error unit * S) :=
  let? (pos, disk) := st_seek disk (SeekCurrent 0) in
  r ← rem_u pos bytes_per_sector;
  let total_bytes_to_write := bytes_per_sector - r in
  if negb (total_bytes_to_write =? bytes_per_sector) then write_zeros disk total_bytes_to_write
  else Ret (Ok tt, disk).

End Streams.

(** ** The kernel's stream as a storage *)

#[export] Instance inode_storage {P : Profile} {I} {IO : InodeIO I} : Storage (InodeRefIO I) := {|
  st_read s buf := '(n, buf, s) ← stream_read s buf; Ret (Ok (n, buf), s);
  st_write s buf := '(n, s) ← stream_write s buf; Ret (Ok n, s);
  st_seek s pos := '(n, s) ← seek s pos; Ret (Ok n, s);
  st_flush s := s ← stream_flush s; Ret (Ok tt, s);
  unexpected_eof := Io tt;
  write_zero := Io tt;
|}.

(** ** [DiskSlice]: a window of a storage, mirrored when written *)

Record DiskSlice (S : Type) := mkSlice {
  sl_begin : Z;
  sl_size : Z;
  sl_offset : Z;
  sl_mirrors : Z;
  sl_inner : S;
}.
Arguments mkSlice {S} _ _ _ _ _.
Arguments sl_begin {S} _.
Arguments sl_size {S} _.
Arguments sl_offset {S} _.
Arguments sl_mirrors {S} _.
Arguments sl_inner {S} _.

Section Slices.
Context {P : Profile} {S : Type} {ST : Storage S}.

Definition DiskSlice_new (begin size mirrors : Z) (inner : S) : DiskSlice S :=
  mkSlice begin size 0 mirrors inner.

Definition sl_set (self : DiskSlice S) (offset : Z) (inner : S) : DiskSlice S :=
  mkSlice (sl_begin self) (sl_size self) offset (sl_mirrors self) inner.

Definition abs_pos (self : DiskSlice S) : out Z := add_u 64 (sl_begin self) (sl_offset self).

(** An operation of the inner storage. *)
Definition on_inner {A} (self : DiskSlice S) (m : out (result Error A * S)) :
    out (result Error A * DiskSlice S) :=
  '(r, inner) ← m; Ret (r, sl_set self (sl_offset self) inner).

Definition DiskSlice_read (self : DiskSlice S) (buf : list Z) :
    out (result Error (Z * list Z) * DiskSlice S) :=
  offset ← add_u 64 (sl_begin self) (sl_offset self);
  left ← sub_u 64 (sl_size self) (sl_offset self);
  let read_size := Z.min left (zlen buf) in
  let? (_, self) := on_inner self (st_seek (sl_inner self) (SeekStart offset)) in
  window ← slice buf 0 read_size;
  let? (r, self) := on_inner self (st_read (sl_inner self) window) in
  let '(size, window) := r in
  new_offset ← add_u 64 (sl_offset self) size;
  Ret (Ok (size, splice buf 0 window), sl_set self new_offset (sl_inner self)).

Definition DiskSlice_write (self : DiskSlice S) (buf : list Z) : out (result Error Z * DiskSlice S) :=
  offset ← add_u 64 (sl_begin self) (sl_offset self);
  left ← sub_u 64 (sl_size self) (sl_offset self);
  let write_size := Z.min left (zlen buf) in
  if write_size =? 0 then Ret (Ok 0, self)
  else
    let? (_, self) := for_each (λ i self,
        shift ← mul_u 64 i (sl_size self);
        at_ ← add_u 64 offset shift;
        let? (_, self) := on_inner self (st_seek (sl_inner self) (SeekStart at_)) in
        window ← slice buf 0 write_size;
        on_inner self (write_all (sl_inner self) window))
      (range 0 (sl_mirrors self)) self in
    new_offset ← add_u 64 (sl_offset self) write_size;
    Ret (Ok write_size, sl_set self new_offset (sl_inner self)).

(** [i64::try_from], [checked_add] and [u64::try_from]. *)
Definition checked_offset (base x : Z) : option Z :=
  if base <? 2 ^ 63 then
    let n := base + x in
    if (- 2 ^ 63 <=? n) && (n <? 2 ^ 63) && (0 <=? n) then Some n else None
  else None.

Definition DiskSlice_seek (self : DiskSlice S) (pos : SeekFrom) : out (result Error Z * DiskSlice S) :=
  let new_offset_opt :=
    match pos with
    | SeekCurrent x => checked_offset (sl_offset self) x
    | SeekStart x => Some x
    | SeekEnd o => checked_offset (sl_size self) o
    end in
  match new_offset_opt with
  | Some new_offset =>
      if sl_size self <? new_offset then Ret (Err InvalidInput, self)
      else Ret (Ok new_offset, sl_set self new_offset (sl_inner self))
  | None => Ret (Err InvalidInput, self)
  end.

#[export] Instance slice_storage : Storage (DiskSlice S) := {|
  st_read := DiskSlice_read;
  st_write := DiskSlice_write;
  st_seek := DiskSlice_seek;
  st_flush self := on_inner self (st_flush (sl_inner self));
  unexpected_eof := UnexpectedEof;
  write_zero := WriteZero;
|}.

End Slices.

(** ** What a storage promises

    A [View] shows a storage as an array of [v_size] bytes with a position in it.
    [v_frame s s'] holds when [s'] differs from [s] only in what the view shows: it is
    whatever the storage keeps besides, and every operation keeps it. *)

Class View (S : Type) := {
  v_ok : S → Prop;
  v_size : S → Z;
  v_byte : S → Z → Z;
  v_pos : S → Z;
  v_frame : S → S → Prop;
}.

#[export] Hint Mode View ! : typeclass_instances.

(** [s'] is [s] with the bytes [f] and the position [p]. *)
Record Upd {S : Type} {V : View S} (s s' : S) (f : Z → Z) (p : Z) : Prop := {
  upd_ok : v_ok s';
  upd_size : v_size s' = v_size s;
  upd_pos : v_pos s' = p;
  upd_byte : agree (v_size s) (v_byte s') f;
  upd_frame : v_frame s s';
}.

(** [read] and [write] transfer at least one byte when there is room for all, and leave
    the position behind what they transferred. *)
Class FlatStorage (S : Type) {ST : Storage S} {V : View S} := {
  v_frame_pre :: PreOrder (v_frame (S := S));
  v_small (s : S) : v_ok s → 0 ≤ v_pos s ≤ v_size s ∧ v_size s < 2 ^ 62;
  v_bytes (s : S) i : v_ok s → 0 ≤ i < v_size s → is_byte (v_byte s i);
  v_seek (s : S) i : v_ok s → 0 ≤ i ≤ v_size s →
    ∃ s', st_seek s (SeekStart i) = Ret (Ok i, s') ∧ Upd s s' (v_byte s) i;
  v_read (s : S) buf : v_ok s → buf ≠ [] → v_pos s + zlen buf ≤ v_size s →
    ∃ n s', 0 < n ≤ zlen buf ∧
      st_read s buf = Ret (Ok (n, (v_byte s <$> range (v_pos s) (v_pos s + n)) ++ drop (Z.to_nat n) buf), s') ∧
      Upd s s' (v_byte s) (v_pos s + n);
  v_write (s : S) buf : v_ok s → buf ≠ [] → Forall is_byte buf → v_pos s + zlen buf ≤ v_size s →
    ∃ n s', 0 < n ≤ zlen buf ∧ st_write s buf = Ret (Ok n, s') ∧
      Upd s s' (spec_write (v_byte s) (v_pos s) (take (Z.to_nat n) buf)) (v_pos s + n);
}.

Lemma zlen_take {A} (l : list A) n : 0 ≤ n ≤ zlen l → zlen (take (Z.to_nat n) l) = n.
Proof. unfold zlen. intros H. rewrite length_take. lia. Qed.

Lemma zlen_drop {A} (l : list A) n : 0 ≤ n ≤ zlen l → zlen (drop (Z.to_nat n) l) = zlen l - n.
Proof. unfold zlen. intros H. rewrite length_drop. lia. Qed.

Lemma zlen_fmap_range {A} (f : Z → A) a b : a ≤ b → zlen (f <$> range a b) = b - a.
Proof. intros H. unfold zlen, range. rewrite length_fmap, length_seqZ. lia. Qed.

Lemma slice_tail {A} (l : list A) n : 0 ≤ n ≤ zlen l → slice l n (zlen l) = Ret (drop (Z.to_nat n) l).
Proof.
  intros Hn. rewrite slice_ok by lia. f_equal. unfold subslice. apply take_ge.
  rewrite length_drop. unfold zlen in *. lia.
Qed.

Lemma slice_head {A} (l : list A) n : 0 ≤ n ≤ zlen l → slice l 0 n = Ret (take (Z.to_nat n) l).
Proof. intros Hn. rewrite slice_ok by lia. unfold subslice. by rewrite drop_0, Z.sub_0_r. Qed.

Lemma fmap_agree n f g a b : agree n f g → 0 ≤ a → b ≤ n → f <$> range a b = g <$> range a b.
Proof. intros H Ha Hb. apply list_fmap_ext. intros i x Hx%lookup_seqZ. apply H. lia. Qed.

(** Two writes, one behind the other, are one write. *)
Lemma spec_write_app f off b1 b2 i :
  spec_write (spec_write f off b1) (off + zlen b1) b2 i = spec_write f off (b1 ++ b2) i.
Proof.
  unfold spec_write. rewrite zlen_app. pose proof (zlen_nonneg b1). pose proof (zlen_nonneg b2).
  destruct ((off + zlen b1 <=? i) && (i <? off + zlen b1 + zlen b2)) eqn:E1; breflect.
  - replace ((off <=? i) && (i <? off + (zlen b1 + zlen b2))) with true by (symmetry; apply andb_true_iff; lia).
    rewrite lookup_app_r by (unfold zlen in *; lia). do 2 f_equal. unfold zlen. lia.
  - destruct ((off <=? i) && (i <? off + zlen b1)) eqn:E2; breflect.
    + replace ((off <=? i) && (i <? off + (zlen b1 + zlen b2))) with true by (symmetry; apply andb_true_iff; lia).
      by rewrite lookup_app_l by (unfold zlen in *; lia).
    + destruct ((off <=? i) && (i <? off + (zlen b1 + zlen b2))) eqn:E3; [bsolve|done].
Qed.

Lemma spec_write_nil f off i : spec_write f off [] i = f i.
Proof. unfold spec_write, zlen. cbn. case_bool; [lia|done]. Qed.

Lemma spec_write_bytes f off buf i : is_byte (f i) → Forall is_byte buf → is_byte (spec_write f off buf i).
Proof.
  intros Hf Hb. unfold spec_write. case_bool; [|done].
  destruct (lookup_lt_is_Some_2 buf (Z.to_nat (i - off))) as [x Hx]; [unfold zlen in *; lia|].
  rewrite Hx. by eapply (Forall_lookup_1 _ _ _ _ Hb).
Qed.

Section FlatProofs.
Context {S : Type} {ST : Storage S} {V : View S} {FS : FlatStorage S}.

Lemma Upd_refl (s : S) : v_ok s → Upd s s (v_byte s) (v_pos s).
Proof. by split. Qed.

Lemma Upd_trans (s1 s2 s3 : S) f g p q : Upd s1 s2 f p → Upd s2 s3 g q → Upd s1 s3 g q.
Proof.
  intros [] []. split; [done|congruence|done| |by etrans]. intros i Hi. apply upd_byte1. lia.
Qed.

Lemma Upd_agree (s s' : S) f g p : agree (v_size s) f g → Upd s s' f p → Upd s s' g p.
Proof. intros Ha []. split; try done. by etrans. Qed.

Lemma Upd_trans_same (s1 s2 s3 : S) p q :
  Upd s1 s2 (v_byte s1) p → Upd s2 s3 (v_byte s2) q → Upd s1 s3 (v_byte s1) q.
Proof. intros H1 H2. eapply Upd_agree; [exact (upd_byte _ _ _ _ H1)|by eapply Upd_trans]. Qed.

Lemma read_exact_loop_ok fuel (s : S) buf : v_ok s → v_pos s + zlen buf ≤ v_size s → (length buf ≤ fuel)%nat →
  ∃ s', read_exact_loop fuel s buf =
      Ret (Ok (v_byte s <$> range (v_pos s) (v_pos s + zlen buf)), s') ∧
    Upd s s' (v_byte s) (v_pos s + zlen buf).
Proof.
  revert s buf. induction fuel as [|fuel IH]; intros s buf Hok Hfit Hfuel; destruct buf as [|b buf];
    [| cbn in Hfuel; lia | |].
  1,2: exists s; change (zlen []) with 0; rewrite Z.add_0_r, range_nil by lia; split; [done|by apply Upd_refl].
  set (buf0 := b :: buf) in *. pose proof (v_small _ Hok) as [Hp _].
  destruct (v_read s buf0) as (n & s1 & Hn & Er & U1); [done|done|done|].
  set (d := drop (Z.to_nat n) buf0) in *. assert (zlen d = zlen buf0 - n) as Hd by (apply zlen_drop; lia).
  set (h := v_byte s <$> range (v_pos s) (v_pos s + n)) in *.
  assert (zlen h = n) as Hh by (unfold h; rewrite zlen_fmap_range; lia).
  cbn [read_exact_loop]. change (b :: buf) with buf0. rewrite Er. cbn [bind_result].
  rewrite (proj2 (Z.eqb_neq n 0)) by lia.
  rewrite slice_tail by (rewrite zlen_app; lia). cbn [mbind out_mbind].
  assert (Z.to_nat n = length h) as Hl by (unfold zlen in Hh; lia).
  rewrite Hl, drop_app_length, take_app_length.
  destruct (IH s1 d) as (s' & -> & U2); [by destruct U1|destruct U1; lia|unfold zlen in *; subst buf0; cbn in *; lia|].
  cbn [bind_result]. exists s'. destruct (U1) as [? Hsz Hpos Hb ?]. rewrite Hpos, Hd in *. split.
  - do 3 f_equal. rewrite (range_app (v_pos s) (v_pos s + n)), fmap_app by lia. unfold h. f_equal.
    replace (v_pos s + n + (zlen buf0 - n)) with (v_pos s + zlen buf0) by lia.
    apply (fmap_agree (v_size s)); [done|lia|lia].
  - replace (v_pos s + zlen buf0) with (v_pos s + n + (zlen buf0 - n)) by lia. by eapply Upd_trans_same.
Qed.

Lemma read_exact_ok (s : S) buf : v_ok s → v_pos s + zlen buf ≤ v_size s →
  ∃ s', read_exact s buf = Ret (Ok (v_byte s <$> range (v_pos s) (v_pos s + zlen buf)), s') ∧
    Upd s s' (v_byte s) (v_pos s + zlen buf).
Proof. intros. by apply read_exact_loop_ok. Qed.

Lemma write_all_loop_ok fuel (s : S) buf : v_ok s → Forall is_byte buf → v_pos s + zlen buf ≤ v_size s →
  (length buf ≤ fuel)%nat →
  ∃ s', write_all_loop fuel s buf = Ret (Ok tt, s') ∧
    Upd s s' (spec_write (v_byte s) (v_pos s) buf) (v_pos s + zlen buf).
Proof.
  revert s buf. induction fuel as [|fuel IH]; intros s buf Hok Hby Hfit Hfuel; destruct buf as [|b buf];
    [| cbn in Hfuel; lia | |].
  1,2: exists s; change (zlen []) with 0; rewrite Z.add_0_r; split; [done|];
    eapply Upd_agree; [|by apply Upd_refl]; intros i _; by rewrite spec_write_nil.
  set (buf0 := b :: buf) in *. pose proof (v_small _ Hok) as [Hp _].
  destruct (v_write s buf0) as (n & s1 & Hn & Er & U1); [done|done|done|done|].
  cbn [write_all_loop]. change (b :: buf) with buf0. rewrite Er. cbn [bind_result].
  rewrite (proj2 (Z.eqb_neq n 0)) by lia.
  rewrite slice_tail by lia. cbn [mbind out_mbind].
  set (d := drop (Z.to_nat n) buf0) in *. assert (zlen d = zlen buf0 - n) as Hd by (apply zlen_drop; lia).
  destruct (U1) as [? Hsz Hpos Hb ?].
  destruct (IH s1 d) as (s' & -> & U2); [done|by apply Forall_drop|lia|unfold zlen in *; subst buf0; cbn in *; lia|].
  exists s'. split; [done|]. rewrite Hpos, Hd in U2.
  replace (v_pos s + zlen buf0) with (v_pos s + n + (zlen buf0 - n)) by lia.
  eapply Upd_agree; [|by eapply Upd_trans]. intros i Hi.
  rewrite (spec_write_proper (v_size s) _ _ Hb _ _ eq_refl _ _ eq_refl i Hi).
  replace (v_pos s + n) with (v_pos s + zlen (take (Z.to_nat n) buf0)) by (rewrite zlen_take; lia).
  rewrite spec_write_app. unfold d. by rewrite take_drop.
Qed.

Lemma write_all_bytes (s : S) buf : v_ok s → Forall is_byte buf → v_pos s + zlen buf ≤ v_size s →
  ∃ s', write_all s buf = Ret (Ok tt, s') ∧
    Upd s s' (spec_write (v_byte s) (v_pos s) buf) (v_pos s + zlen buf).
Proof. intros. by apply write_all_loop_ok. Qed.

Lemma read_le_ok n (s : S) : v_ok s → v_pos s + Z.of_nat n ≤ v_size s →
  ∃ s', read_le n s =
      Ret (Ok (from_le (v_byte s <$> range (v_pos s) (v_pos s + Z.of_nat n))), s') ∧
    Upd s s' (v_byte s) (v_pos s + Z.of_nat n).
Proof.
  intros Hok Hfit. unfold read_le.
  assert (zlen (replicate n 0) = Z.of_nat n) as Hz by (unfold zlen; by rewrite length_replicate).
  destruct (read_exact_ok s (replicate n 0)) as (s' & -> & U); [done|lia|]. rewrite Hz in *.
  run. by exists s'.
Qed.

Lemma read_u8_ok (s : S) : v_ok s → v_pos s + 1 ≤ v_size s →
  ∃ s', read_u8 s = Ret (Ok (v_byte s (v_pos s)), s') ∧ Upd s s' (v_byte s) (v_pos s + 1).
Proof.
  intros Hok Hfit. unfold read_u8. destruct (read_exact_ok s [0]) as (s' & -> & U); [done|done|].
  change (zlen [0]) with 1 in *. run. rewrite range_cons, range_nil by lia. cbn. by exists s'.
Qed.

Lemma write_le_ok n (s : S) x : v_ok s → v_pos s + Z.of_nat n ≤ v_size s →
  ∃ s', write_all s (to_le n x) = Ret (Ok tt, s') ∧
    Upd s s' (spec_write (v_byte s) (v_pos s) (to_le n x)) (v_pos s + Z.of_nat n).
Proof.
  intros Hok Hfit. rewrite <- (zlen_to_le n x) in *. apply write_all_bytes; [done|apply to_le_bytes|done].
Qed.

Lemma write_zeros_loop_ok fuel (s : S) len : v_ok s → 0 ≤ len → v_pos s + len ≤ v_size s → len ≤ 512 * Z.of_nat fuel →
  ∃ s', write_zeros_loop fuel s len = Ret (Ok tt, s') ∧
    Upd s s' (spec_write (v_byte s) (v_pos s) (replicate (Z.to_nat len) 0)) (v_pos s + len).
Proof.
  revert s len. induction fuel as [|fuel IH]; intros s len Hok Hl Hfit Hfuel; cbn [write_zeros_loop].
  all: destruct (len <=? 0) eqn:E0; breflect.
  1,3: exists s; replace len with 0 by lia; rewrite Z.add_0_r; split; [done|]; eapply Upd_agree; [|by apply Upd_refl];
    intros i _; by rewrite spec_write_nil.
  { lia. }
  set (k := Z.min len 512). rewrite slice_head by (unfold zlen, k; rewrite length_replicate; lia). run.
  rewrite take_replicate. replace (Z.to_nat k `min` 512)%nat with (Z.to_nat k) by (unfold k; lia).
  assert (zlen (replicate (Z.to_nat k) 0) = k) as Hz by (unfold zlen, k; rewrite length_replicate; lia).
  destruct (write_all_bytes s (replicate (Z.to_nat k) 0)) as (s1 & -> & U1);
    [done|apply Forall_replicate; unfold is_byte; lia|unfold k in *; lia|]. run. destruct (U1) as [Hok1 Hs1 Hp1 Hb1 _].
  destruct (IH s1 (len - k)) as (s' & E & U2); [done|unfold k; lia|lia|unfold k; lia|]. exists s'. split; [done|].
  rewrite Hp1, Hz in U2. replace (v_pos s + len) with (v_pos s + k + (len - k)) by lia.
  eapply Upd_agree; [|by eapply Upd_trans]. intros i Hi.
  rewrite (spec_write_proper (v_size s) _ _ Hb1 _ _ eq_refl _ _ eq_refl i Hi). rewrite <- Hz at 2. rewrite spec_write_app, <- replicate_add.
  do 2 f_equal. unfold k. lia.
Qed.

Lemma write_zeros_ok (s : S) len : v_ok s → 0 ≤ len → v_pos s + len ≤ v_size s →
  ∃ s', write_zeros s len = Ret (Ok tt, s') ∧
    Upd s s' (spec_write (v_byte s) (v_pos s) (replicate (Z.to_nat len) 0)) (v_pos s + len).
Proof.
  intros Hok Hl Hfit. apply write_zeros_loop_ok; [done|done|done|]. unfold div_ceil.
  pose proof (Z.div_mod len 512). pose proof (Z.mod_pos_bound len 512). pose proof (Z.div_pos len 512). case_bool; lia.
Qed.

End FlatProofs.

(** ** Access at a position

    What a client that seeks before it reads or writes relies on. It is less than
    [FlatStorage]: nothing is said of the position afterwards, and a write may change
    the bytes that are not [solid] (the status byte of a mounted volume). *)

Record Held {S : Type} {V : View S} (P : Z → Prop) (s s' : S) (f : Z → Z) : Prop := {
  he_ok : v_ok s';
  he_size : v_size s' = v_size s;
  he_frame : v_frame s s';
  he_byte i : 0 ≤ i < v_size s → P i → v_byte s' i = f i;
}.

Class RandomAccess (S : Type) {ST : Storage S} {V : View S} := {
  solid : S → Z → Prop;
  ra_frame_pre :: PreOrder (v_frame (S := S));
  ra_small (s : S) : v_ok s → 0 ≤ v_size s < 2 ^ 62;
  ra_bytes (s : S) i : v_ok s → 0 ≤ i < v_size s → is_byte (v_byte s i);
  ra_solid (s s' : S) i : v_frame s s' → solid s' i ↔ solid s i;
  ra_read (s : S) q buf : v_ok s → buf ≠ [] → 0 ≤ q → q + zlen buf ≤ v_size s →
    ∃ n s1 s2, 0 < n ≤ zlen buf ∧ st_seek s (SeekStart q) = Ret (Ok q, s1) ∧
      st_read s1 buf = Ret (Ok (n, (v_byte s <$> range q (q + n)) ++ drop (Z.to_nat n) buf), s2) ∧
      Held (λ _, True) s s2 (v_byte s);
  ra_write (s : S) q buf : v_ok s → buf ≠ [] → Forall is_byte buf → 0 ≤ q → q + zlen buf ≤ v_size s →
    (∀ i, q ≤ i < q + zlen buf → solid s i) →
    ∃ s1 s2, st_seek s (SeekStart q) = Ret (Ok q, s1) ∧ write_all s1 buf = Ret (Ok tt, s2) ∧
      Held (solid s) s s2 (spec_write (v_byte s) q buf);
}.

Lemma Upd_Held {S : Type} {V : View S} P (s s' : S) f p : Upd s s' f p → Held P s s' f.
Proof. intros []. split; [done..|]. intros i Hi _. by apply upd_byte0. Qed.

(** A storage that writes all it is given. *)
Class WholeWrites (S : Type) {ST : Storage S} {V : View S} := {
  whole : S → Prop;
  whole_frame (s s' : S) : v_frame s s' → whole s → whole s';
  whole_write (s : S) buf : v_ok s → whole s → buf ≠ [] → Forall is_byte buf → v_pos s + zlen buf ≤ v_size s →
    ∃ s', st_write s buf = Ret (Ok (zlen buf), s');
}.

Lemma write_all_whole {S : Type} {ST : Storage S} (s s' : S) buf : buf ≠ [] →
  st_write s buf = Ret (Ok (zlen buf), s') → write_all s buf = Ret (Ok tt, s').
Proof.
  intros Hne E. unfold write_all. destruct buf as [|b buf]; [done|]. cbn [length write_all_loop]. rewrite E. cbn [bind_result].
  assert (0 < zlen (b :: buf)) by (unfold zlen; cbn; lia). rewrite (proj2 (Z.eqb_neq (zlen (b :: buf)) 0)) by lia.
  rewrite slice_tail by lia. run. rewrite drop_ge by (unfold zlen; lia). by destruct (length buf).
Qed.

Section FlatRandom.
Context {S : Type} {ST : Storage S} {V : View S} {FS : FlatStorage S}.

#[export] Program Instance flat_random : RandomAccess S := { solid _ _ := True }.
Next Obligation. intros s Hok. pose proof (v_small s Hok). lia. Qed.
Next Obligation. apply v_bytes. Qed.
Next Obligation. done. Qed.
Next Obligation.
  intros s q buf Hok Hne Hq Hfit. pose proof (zlen_nonneg buf).
  destruct (v_seek s q) as (s1 & E1 & U1); [done|lia|]. destruct (U1) as [Hok1 Hs1 Hp1 Hb1 _].
  destruct (v_read s1 buf) as (n & s2 & Hn & E2 & U2); [done|done|lia|]. rewrite Hp1 in *.
  exists n, s1, s2. split_and!; [lia|lia|done| |].
  - rewrite E2. do 4 f_equal. f_equal. apply (fmap_agree (v_size s)); [done|lia|lia].
  - eapply Upd_Held, Upd_trans_same; [exact U1|exact U2].
Qed.
Next Obligation.
  intros s q buf Hok Hne Hby Hq Hfit _. pose proof (zlen_nonneg buf).
  destruct (v_seek s q) as (s1 & E1 & U1); [done|lia|]. destruct (U1) as [Hok1 Hs1 Hp1 Hb1 _].
  destruct (write_all_bytes s1 buf) as (s2 & E2 & U2); [done|done|lia|]. rewrite Hp1 in *.
  exists s1, s2. split_and!; [done|done|]. eapply Upd_Held, Upd_agree; [|by eapply Upd_trans].
  intros i Hi. by apply (spec_write_proper (v_size s)).
Qed.

End FlatRandom.

(** ** Reading and writing records

    [Input s l]: the bytes ahead of the position are [l]. [Output s0 s l]: [s] is [s0]
    after writing [l]. A field is read from the front of the one and appended to the
    other. *)

Section Codec.
Context {S : Type} {ST : Storage S} {V : View S} {FS : FlatStorage S}.

Record Input (s : S) (l : list Z) : Prop := {
  in_ok : v_ok s;
  in_fits : v_pos s + zlen l ≤ v_size s;
  in_bytes : v_byte s <$> range (v_pos s) (v_pos s + zlen l) = l;
}.

Definition Output (s0 s : S) (l : list Z) : Prop :=
  Upd s0 s (spec_write (v_byte s0) (v_pos s0) l) (v_pos s0 + zlen l).

(** [s'] shows what [s] shows, at another position. *)
Definition Moved (s s' : S) (n : Z) : Prop := Upd s s' (v_byte s) (v_pos s + n).

Lemma Moved_refl (s : S) : v_ok s → Moved s s 0.
Proof. intros H. unfold Moved. rewrite Z.add_0_r. by apply Upd_refl. Qed.

Lemma Moved_trans (s1 s2 s3 : S) m n : Moved s1 s2 m → Moved s2 s3 n → Moved s1 s3 (m + n).
Proof.
  intros H1 H2. unfold Moved in *. pose proof (upd_pos _ _ _ _ H1) as E. rewrite E, <- Z.add_assoc in H2.
  by eapply Upd_trans_same.
Qed.

Lemma input_moved (s s' : S) l1 l2 : Input s (l1 ++ l2) → Moved s s' (zlen l1) → Input s' l2.
Proof.
  intros [Hok Hfit Hb] [Hok' Hs' Hp' Hb' _]. pose proof (zlen_nonneg l1). pose proof (zlen_nonneg l2).
  pose proof (v_small s Hok) as [Hp _]. rewrite zlen_app in *.
  split; [done|lia|]. rewrite Hp'. rewrite (fmap_agree (v_size s) _ (v_byte s)) by (done || lia).
  rewrite (range_app (v_pos s) (v_pos s + zlen l1)), fmap_app in Hb by lia.
  apply app_inj_1 in Hb as [_ Hb].
  - by rewrite <- Z.add_assoc.
  - apply Nat2Z.inj. change (zlen (v_byte s <$> range (v_pos s) (v_pos s + zlen l1)) = zlen l1).
    rewrite zlen_fmap_range by lia. lia.
Qed.

Lemma input_head (s : S) l1 l2 : Input s (l1 ++ l2) → v_byte s <$> range (v_pos s) (v_pos s + zlen l1) = l1.
Proof.
  intros [Hok Hfit Hb]. pose proof (zlen_nonneg l1). pose proof (zlen_nonneg l2). rewrite zlen_app in *.
  rewrite (range_app (v_pos s) (v_pos s + zlen l1)), fmap_app in Hb by lia. apply app_inj_1 in Hb as [Hb _]; [done|].
  apply Nat2Z.inj. change (zlen (v_byte s <$> range (v_pos s) (v_pos s + zlen l1)) = zlen l1).
  rewrite zlen_fmap_range by lia. lia.
Qed.

Lemma input_exact (s : S) l1 l2 buf : Input s (l1 ++ l2) → length buf = length l1 →
  ∃ s', read_exact s buf = Ret (Ok l1, s') ∧ Input s' l2 ∧ Moved s s' (zlen l1).
Proof.
  intros HI Hl. assert (zlen buf = zlen l1) as Hz by (unfold zlen; lia). pose proof HI as [Hok Hfit _].
  rewrite zlen_app in Hfit. pose proof (zlen_nonneg l2).
  destruct (read_exact_ok s buf) as (s' & -> & U); [done|lia|]. rewrite Hz in *.
  rewrite (input_head s l1 l2 HI). exists s'. split; [done|]. split; [|exact U]. by eapply input_moved.
Qed.

Lemma input_le n (s : S) x l : Input s (to_le n x ++ l) → 0 ≤ x < 256 ^ Z.of_nat n →
  ∃ s', read_le n s = Ret (Ok x, s') ∧ Input s' l ∧ Moved s s' (Z.of_nat n).
Proof.
  intros HI Hx. unfold read_le.
  destruct (input_exact s (to_le n x) l (replicate n 0) HI) as (s' & -> & HI' & HM).
  { by rewrite length_replicate, length_to_le. }
  run. rewrite from_to_le by done. rewrite zlen_to_le in HM. by exists s'.
Qed.

Lemma input_u8 (s : S) x l : Input s (x :: l) →
  ∃ s', read_u8 s = Ret (Ok x, s') ∧ Input s' l ∧ Moved s s' 1.
Proof.
  intros HI. unfold read_u8. destruct (input_exact s [x] l [0] HI) as (s' & -> & HI' & HM); [done|].
  run. cbn. by exists s'.
Qed.

(** Reading back what has been written. *)
Lemma output_input (s0 s s1 : S) l : v_ok s0 → 0 ≤ v_pos s0 → v_pos s0 + zlen l ≤ v_size s0 → Output s0 s l →
  Upd s s1 (v_byte s) (v_pos s0) → Input s1 l.
Proof.
  intros Hok Hp Hfit [Hoks Hs _ Hb _] [Hok1 Hs1 Hp1 Hb1 _]. split; [done|lia|]. rewrite Hp1, Hs in *.
  rewrite (fmap_agree (v_size s0) _ (spec_write (v_byte s0) (v_pos s0) l)); [|by etrans|lia|lia].
  pose proof (zlen_nonneg l). apply list_eq. intros k. rewrite list_lookup_fmap. unfold range.
  destruct (decide (Z.of_nat k < zlen l)).
  - rewrite lookup_seqZ_lt by lia. cbn. unfold spec_write. case_bool; [|bsolve].
    replace (Z.to_nat (v_pos s0 + Z.of_nat k - v_pos s0)) with k by lia.
    destruct (lookup_lt_is_Some_2 l k) as [x ->]; [unfold zlen in *; lia|done].
  - rewrite lookup_seqZ_ge by lia. symmetry. apply lookup_ge_None. unfold zlen in *. lia.
Qed.

Lemma output_nil (s : S) : v_ok s → Output s s [].
Proof.
  intros Hok. unfold Output. change (zlen []) with 0. rewrite Z.add_0_r.
  eapply Upd_agree; [|by apply Upd_refl]. intros i _. by rewrite spec_write_nil.
Qed.

Lemma output_all (s0 s : S) l buf : v_ok s0 → Output s0 s l → Forall is_byte buf →
  v_pos s0 + zlen (l ++ buf) ≤ v_size s0 →
  ∃ s', write_all s buf = Ret (Ok tt, s') ∧ Output s0 s' (l ++ buf).
Proof.
  intros Hok HO Hby Hfit. pose proof HO as [Hoks Hs Hp Hb _]. rewrite zlen_app in Hfit.
  destruct (write_all_bytes s buf) as (s' & -> & U); [done|done|lia|]. exists s'. split; [done|].
  unfold Output. rewrite zlen_app, Z.add_assoc. rewrite Hp in U. eapply Upd_agree; [|by eapply Upd_trans].
  intros i Hi. rewrite <- spec_write_app. by apply (spec_write_proper (v_size s0)).
Qed.

End Codec.

(** An array of [n] bytes. *)
Definition bytes_wf (n : Z) (l : list Z) : bool := (zlen l =? n) && forallb (in_range 8) l.

(** Lengths of byte lists built from fields. *)
Ltac zl := rewrite ?zlen_app, ?zlen_to_le, ?zlen_cons; change (zlen (@nil Z)) with 0.
Ltac zl_in H := rewrite ?zlen_app, ?zlen_to_le, ?zlen_cons in H; change (zlen (@nil Z)) with 0 in H.

Lemma bytes_wf_spec n l : bytes_wf n l = true → zlen l = n ∧ Forall is_byte l.
Proof. unfold bytes_wf. intros [H1 H2]%andb_true_iff. breflect. split; [done|by apply bytes_forallb]. Qed.

Ltac wf_fields H :=
  repeat match type of H with
  | (_ && _) = true => let H' := fresh "Hf" in apply andb_true_iff in H as [H H']
  end;
  repeat match goal with
  | H : in_range 8 _ = true |- _ => apply in_range_true in H; change (2 ^ 8) with 256 in H
  | H : in_range 16 _ = true |- _ => apply in_range_true in H; change (2 ^ 16) with 65536 in H
  | H : in_range 32 _ = true |- _ => apply in_range_true in H; change (2 ^ 32) with 4294967296 in H
  | H : bytes_wf _ _ = true |- _ => apply bytes_wf_spec in H as [? ?]
  end.

(** One field written, one field read. *)
Ltac out_step HO :=
  match goal with
  | |- context [write_all ?s ?buf] =>
      let s' := fresh "s" in let HO' := fresh "HO" in
      match type of HO with
      | Output ?s0 _ ?l =>
          destruct (output_all s0 s l buf) as (s' & -> & HO');
          [done|exact HO|first [apply to_le_bytes|assumption|repeat constructor; unfold is_byte; lia]
          |zl; lia|]; clear HO; rename HO' into HO; cbn [bind_result]
      end
  end.

Ltac in_step HI HM :=
  let s' := fresh "s" in let HI' := fresh "HI" in let HM' := fresh "HM" in
  first
  [ match goal with
    | |- context [read_le ?n ?s] =>
        match type of HI with
        | Input _ (to_le _ ?x ++ ?l) =>
            destruct (input_le n s x l HI) as (s' & -> & HI' & HM');
            [first [change (256 ^ Z.of_nat n) with 65536|change (256 ^ Z.of_nat n) with 4294967296]; lia|]
        end
    end
  | match goal with
    | |- context [read_u8 ?s] =>
        match type of HI with
        | Input _ ([?x] ++ ?l) => destruct (input_u8 s x l HI) as (s' & -> & HI' & HM')
        end
    end
  | match goal with
    | |- context [read_exact ?s ?buf] =>
        match type of HI with
        | Input _ (?b ++ ?l) =>
            destruct (input_exact s b l buf HI) as (s' & -> & HI' & HM');
            [unfold zlen in *; cbn [length zeros replicate]; rewrite ?length_replicate; lia|]
        end
    end ];
  pose proof (Moved_trans _ _ _ _ _ HM HM'); clear HM HM' HI; rename HI' into HI;
  match goal with H : Moved _ _ (_ + _) |- _ => rename H into HM end; cbn [bind_result].

(** ** The kernel's stream keeps the laws *)

Section StreamView.
Context {P : Profile} {I : Type} {IO : InodeIO I} {FD : FlatDisk I}.

#[export] Instance stream_view : View (InodeRefIO I) := {|
  v_ok s := flat_ok (io_inode s) ∧ 0 ≤ io_offset s ≤ flat_size (io_inode s) ∧
    ∀ i, 0 ≤ i < flat_size (io_inode s) → is_byte (flat_byte (io_inode s) i);
  v_size s := flat_size (io_inode s);
  v_byte s := flat_byte (io_inode s);
  v_pos s := io_offset s;
  v_frame _ _ := True;
|}.

#[export] Program Instance stream_flat : FlatStorage (InodeRefIO I).
Next Obligation. by split. Qed.
Next Obligation. intros s (Hok & Hp & _). cbn. pose proof (flat_small _ Hok). lia. Qed.
Next Obligation. intros s i (_ & _ & Hb) Hi. by apply Hb. Qed.
Next Obligation. intros [inode pos] i (Hok & Hp & Hb) Hi. cbn in *. by eexists. Qed.
Next Obligation.
  intros [inode pos] buf (Hok & Hp & Hb) Hne Hfit. cbn in *. pose proof (flat_small _ Hok).
  assert (0 < zlen buf) by (destruct buf; [done|rewrite zlen_cons; pose proof (zlen_nonneg buf); lia]).
  destruct (flat_read inode pos buf) as (i1 & E & Hok1 & Hz1 & Hb1); [done|done|lia|done|].
  exists (zlen buf), (mkIO i1 (pos + zlen buf)). split; [lia|]. split.
  - unfold stream_read. cbn [io_inode io_offset]. rewrite E. run.
    rewrite zlen_fmap_range, Z.add_simpl_l by lia. unfold to_signed at 1.
    rewrite (proj2 (Z.ltb_lt _ _)) by lia. rewrite seek_current_ok by lia. run.
    rewrite drop_ge, app_nil_r by (unfold zlen; lia). done.
  - split; cbn; [|done|done|exact Hb1|done]. rewrite Hz1. split_and!; [done|lia|lia|].
    intros i Hi. rewrite Hb1 by lia. by apply Hb.
Qed.
Next Obligation.
  intros [inode pos] buf (Hok & Hp & Hb) Hne Hby Hfit. cbn in *. pose proof (flat_small _ Hok).
  assert (0 < zlen buf) by (destruct buf; [done|rewrite zlen_cons; pose proof (zlen_nonneg buf); lia]).
  destruct (flat_write inode pos buf) as (i1 & E & Hok1 & Hz1 & Hb1); [done|done|lia|done|].
  exists (zlen buf), (mkIO i1 (pos + zlen buf)). split; [lia|]. split.
  - unfold stream_write. cbn [io_inode io_offset]. rewrite E. run. unfold to_signed at 1.
    rewrite (proj2 (Z.ltb_lt _ _)) by lia. by rewrite seek_current_ok by lia.
  - rewrite take_ge by (unfold zlen; lia). split; cbn; [|done|done|exact Hb1|done].
    rewrite Hz1. split_and!; [done|lia|lia|].
    intros i Hi. rewrite Hb1 by lia. apply (spec_write_bytes (flat_byte inode)); [by apply Hb|done].
Qed.

#[export] Program Instance stream_whole : WholeWrites (InodeRefIO I) := { whole _ := True }.
Next Obligation. done. Qed.
Next Obligation.
  intros [inode pos] buf (Hok & Hp & Hb) _ Hne Hby Hfit. cbn in *. pose proof (flat_small _ Hok). pose proof (zlen_nonneg buf).
  destruct (flat_write inode pos buf) as (i1 & E & Hok1 & Hz1 & Hb1); [done|done|lia|done|].
  unfold stream_write. cbn [io_inode io_offset]. rewrite E. run. unfold to_signed at 1.
  rewrite (proj2 (Z.ltb_lt _ _)) by lia. rewrite seek_current_ok by lia. by eexists.
Qed.

End StreamView.

(** ** A slice of a storage keeps the laws

    A slice shows its first copy; what it keeps besides is everything outside its
    copies, and that all copies are the same. *)

Section SliceView.
Context {P : Profile} {S : Type} {ST : Storage S} {V : View S} {RA : RandomAccess S}.

Definition mirrored (d : DiskSlice S) : Prop :=
  ∀ k r, 0 ≤ k < sl_mirrors d → 0 ≤ r < sl_size d →
    v_byte (sl_inner d) (sl_begin d + k * sl_size d + r) = v_byte (sl_inner d) (sl_begin d + r).

(** The positions of the storage that belong to a copy. *)
Definition covered (d : DiskSlice S) (j : Z) : Prop :=
  sl_begin d ≤ j < sl_begin d + sl_mirrors d * sl_size d.

#[export] Instance slice_view : View (DiskSlice S) := {|
  v_ok d := v_ok (sl_inner d) ∧ 0 ≤ sl_offset d ≤ sl_size d ∧ 0 ≤ sl_begin d ∧ 1 ≤ sl_mirrors d ∧
    sl_begin d + sl_mirrors d * sl_size d ≤ v_size (sl_inner d) ∧ ∀ j, covered d j → solid (sl_inner d) j;
  v_size := sl_size;
  v_byte d i := v_byte (sl_inner d) (sl_begin d + i);
  v_pos := sl_offset;
  v_frame d d' :=
    sl_begin d' = sl_begin d ∧ sl_size d' = sl_size d ∧ sl_mirrors d' = sl_mirrors d ∧
    v_size (sl_inner d') = v_size (sl_inner d) ∧ v_frame (sl_inner d) (sl_inner d') ∧
    (∀ j, 0 ≤ j < v_size (sl_inner d) → solid (sl_inner d) j → ¬ covered d j →
      v_byte (sl_inner d') j = v_byte (sl_inner d) j) ∧
    (mirrored d → mirrored d');
|}.

(** A slice whose storage keeps its bytes. *)
Lemma slice_inner_same (d : DiskSlice S) s' off : v_ok d → 0 ≤ off ≤ sl_size d →
  Held (λ _, True) (sl_inner d) s' (v_byte (sl_inner d)) → Upd d (sl_set d off s') (v_byte d) off.
Proof.
  intros (Hok & Ho & Hbg & Hm & Hfit & Hsol) Hoff [Hok' Hsz Hf Hb].
  assert (sl_begin d + sl_size d ≤ v_size (sl_inner d)) by nia.
  split; cbn; [|done|done|intros i Hi; apply Hb; [lia|done]|].
  - rewrite Hsz. split_and!; try lia; [done|]. intros j Hj. apply (ra_solid _ _ _ Hf). by apply Hsol.
  - split_and!; try done; [intros j Hj _ _; by apply Hb|].
    intros Hmir k r Hk Hr. cbn in *. rewrite !Hb by (done || nia). by apply Hmir.
Qed.

(** What the storage holds after the first [i] copies are written. *)
Record Copied (d : DiskSlice S) (buf : list Z) (i : Z) (d' : DiskSlice S) : Prop := {
  cp_ok : v_ok (sl_inner d');
  cp_begin : sl_begin d' = sl_begin d;
  cp_size : sl_size d' = sl_size d;
  cp_offset : sl_offset d' = sl_offset d;
  cp_mirrors : sl_mirrors d' = sl_mirrors d;
  cp_inner_size : v_size (sl_inner d') = v_size (sl_inner d);
  cp_frame : v_frame (sl_inner d) (sl_inner d');
  cp_copy k r : 0 ≤ k < i → 0 ≤ r < sl_size d →
    v_byte (sl_inner d') (sl_begin d + k * sl_size d + r) =
      spec_write (λ r, v_byte (sl_inner d) (sl_begin d + k * sl_size d + r)) (sl_offset d) buf r;
  cp_rest j : 0 ≤ j < v_size (sl_inner d) → solid (sl_inner d) j →
    (j < sl_begin d ∨ sl_begin d + i * sl_size d ≤ j) → v_byte (sl_inner d') j = v_byte (sl_inner d) j;
}.

Lemma for_each_range {St} (f : Z → St → out (result Error unit * St)) (I : Z → St → Prop) a b s :
  a ≤ b → I a s →
  (∀ i s, a ≤ i < b → I i s → ∃ s', f i s = Ret (Ok tt, s') ∧ I (i + 1) s') →
  ∃ s', for_each f (range a b) s = Ret (Ok tt, s') ∧ I b s'.
Proof.
  intros Hab. remember (Z.to_nat (b - a)) as n eqn:Hn. revert a s Hab Hn.
  induction n as [|n IH]; intros a s Hab Hn HI Hstep.
  - rewrite range_nil by lia. replace b with a by lia. by exists s.
  - rewrite range_cons by lia. destruct (Hstep a s) as (y & Hy & HI'); [lia|done|].
    cbn [for_each]. rewrite Hy. cbn [bind_result]. apply IH; [lia|lia|done|].
    intros i z Hi. apply Hstep. lia.
Qed.

(** Writing one copy. *)
Lemma copy_step (d d1 : DiskSlice S) buf i : v_ok d → buf ≠ [] → Forall is_byte buf →
  sl_offset d + zlen buf ≤ sl_size d → 0 ≤ i < sl_mirrors d → Copied d buf i d1 →
  ∃ s2 s3, st_seek (sl_inner d1) (SeekStart (sl_begin d + sl_offset d + i * sl_size d)) =
      Ret (Ok (sl_begin d + sl_offset d + i * sl_size d), s2) ∧
    write_all s2 buf = Ret (Ok tt, s3) ∧ Copied d buf (i + 1) (sl_set d1 (sl_offset d1) s3).
Proof.
  intros (Hok & Ho & Hbg & Hm & Hfit & Hsol) Hne Hby Hlen Hi HC. destruct HC. pose proof (zlen_nonneg buf).
  set (q := sl_begin d + sl_offset d + i * sl_size d).
  assert (0 ≤ i * sl_size d) by nia.
  assert ((i + 1) * sl_size d ≤ sl_mirrors d * sl_size d) by nia.
  destruct (ra_write (sl_inner d1) q buf) as (s2 & s3 & E2 & E3 & [? Hs3 ? Hb3]); [done|done|done|unfold q; lia|unfold q; lia| |].
  { intros j Hj. apply (ra_solid _ _ _ cp_frame0), Hsol. unfold covered, q in *. lia. }
  exists s2, s3. split; [done|]. split; [done|].
  assert (∀ j, 0 ≤ j < v_size (sl_inner d) → solid (sl_inner d) j →
    v_byte s3 j = spec_write (v_byte (sl_inner d1)) q buf j) as Hw.
  { intros j Hj Hsj. apply Hb3; [lia|]. by apply (ra_solid _ _ _ cp_frame0). }
  split; cbn; try done; [congruence|by etrans| |].
  - intros k r Hk Hr. assert (solid (sl_inner d) (sl_begin d + k * sl_size d + r)) as Hsk
      by (apply Hsol; unfold covered; nia).
    rewrite Hw by (done || nia). destruct (decide (k = i)) as [->|Hne'].
    + unfold spec_write at 1 2. rewrite (cp_rest0 (sl_begin d + i * sl_size d + r)) by (done || lia).
      replace (sl_begin d + i * sl_size d + r - q) with (r - sl_offset d) by (unfold q; lia).
      unfold q. repeat case_bool; try done; bsolve.
    + rewrite <- cp_copy0 by lia. unfold spec_write at 1.
      assert (k * sl_size d + sl_size d ≤ i * sl_size d) by nia. unfold q. case_bool; [lia|done].
  - intros j Hj Hsj Hout. rewrite Hw by done. rewrite <- cp_rest0 by (done || lia).
    unfold spec_write, q. case_bool; [lia|done].
Qed.

Lemma DiskSlice_write_ok (d : DiskSlice S) buf : v_ok d → buf ≠ [] → Forall is_byte buf →
  v_pos d + zlen buf ≤ v_size d →
  ∃ d', DiskSlice_write d buf = Ret (Ok (zlen buf), d') ∧
    Upd d d' (spec_write (v_byte d) (v_pos d) buf) (v_pos d + zlen buf).
Proof.
  intros Hok Hne Hby Hlen. pose proof Hok as (Hoki & Ho & Hbg & Hm & Hfit & Hsol). cbn in Hlen.
  pose proof (ra_small _ Hoki) as [_ Hs].
  assert (0 < zlen buf) by (destruct buf; [done|rewrite zlen_cons; pose proof (zlen_nonneg buf); lia]).
  assert (sl_size d ≤ sl_mirrors d * sl_size d) by nia.
  unfold DiskSlice_write. rewrite add_u_ok, sub_u_ok by lia. run. rewrite Z.min_r by lia.
  rewrite (proj2 (Z.eqb_neq (zlen buf) 0)) by lia.
  match goal with |- context [for_each ?f _ _] => set (body := f) end.
  destruct (for_each_range body (Copied d buf) 0 (sl_mirrors d) d) as (d1 & -> & HC); [lia| | |].
  { split; try done; intros; lia. }
  { intros i d1 Hi HC. destruct (copy_step d d1 buf i Hok Hne Hby Hlen Hi HC) as (s2 & s3 & E2 & E3 & HC').
    unfold body. destruct HC. rewrite cp_size0.
    assert (i * sl_size d + sl_size d ≤ sl_mirrors d * sl_size d) by nia.
    rewrite (mul_u_ok 64 i (sl_size d)) by nia. run. rewrite add_u_ok by nia. run.
    unfold on_inner at 1. rewrite E2. run. rewrite slice_head, take_ge by (unfold zlen in *; lia). run.
    cbn [sl_inner sl_set]. rewrite E3. run. eexists. split; [done|exact HC']. }
  cbn [bind_result]. destruct HC. rewrite cp_offset0, add_u_ok by lia. run. eexists. split; [done|].
  split; cbn.
  - rewrite cp_begin0, cp_size0, cp_mirrors0, cp_inner_size0. split_and!; try lia; [done|].
    intros j Hj. apply (ra_solid _ _ _ cp_frame0), Hsol. unfold covered in *. cbn in Hj. by rewrite <- cp_begin0, <- cp_size0, <- cp_mirrors0.
  - done.
  - done.
  - intros i Hi. rewrite cp_begin0. pose proof (cp_copy0 0 i) as E. rewrite Z.mul_0_l, Z.add_0_r in E.
    rewrite E by lia. reflexivity.
  - split_and!; try done.
    + intros j Hj Hsj Hc. apply cp_rest0; [lia|done|]. unfold covered in Hc. lia.
    + intros Hmir k r Hk Hr. cbn in *. rewrite cp_begin0, cp_size0, cp_mirrors0 in *.
      rewrite (cp_copy0 k r) by lia. pose proof (cp_copy0 0 r) as E. rewrite Z.mul_0_l, Z.add_0_r in E.
      rewrite E by lia. unfold spec_write. case_bool; [done|by apply Hmir].
Qed.

Lemma splice_whole_prefix {A} (l d : list A) : zlen d = zlen l → splice l 0 d = d.
Proof. unfold zlen, splice. intros H. rewrite drop_ge by lia. cbn. apply app_nil_r. Qed.

#[export] Program Instance slice_flat : FlatStorage (DiskSlice S).
Next Obligation.
  split.
  - intros d. cbn. by split_and!.
  - intros d1 d2 d3 (? & ? & ? & ? & ? & Ho1 & ?) (? & ? & ? & ? & ? & Ho2 & ?). cbn.
    split_and!; [congruence|congruence|congruence|congruence|by etrans| |tauto].
    intros j Hj Hsj Hc. rewrite Ho2, Ho1; [done|done|done|done|congruence|by eapply ra_solid|].
    unfold covered in *. congruence.
Qed.
Next Obligation.
  intros d (Hok & Ho & Hb & Hm & Hf & _). cbn. pose proof (ra_small _ Hok). split; [done|]. nia.
Qed.
Next Obligation.
  intros d i (Hok & Ho & Hb & Hm & Hf & _) Hi. cbn in *. apply ra_bytes; [done|nia].
Qed.
Next Obligation.
  intros d i Hok Hi. cbn in *. pose proof Hok as (Hoki & _). unfold DiskSlice_seek. case_bool; [lia|].
  eexists. split; [done|]. eapply slice_inner_same; [done|done|by split].
Qed.
Next Obligation.
  intros d buf Hok Hne Hlen. pose proof Hok as (Hoki & Ho & Hbg & Hm & Hfit & _). cbn [v_pos v_size v_byte slice_view] in *.
  pose proof (ra_small _ Hoki) as [_ Hs].
  assert (0 < zlen buf) by (destruct buf; [done|rewrite zlen_cons; pose proof (zlen_nonneg buf); lia]).
  assert (sl_size d ≤ sl_mirrors d * sl_size d) by nia.
  cbn [st_read slice_storage]. unfold DiskSlice_read. rewrite add_u_ok, sub_u_ok by lia. run. rewrite Z.min_r by lia.
  destruct (ra_read (sl_inner d) (sl_begin d + sl_offset d) buf) as (n & s1 & s2 & Hn & -> & E2 & HH); [done|done|lia|lia|].
  unfold on_inner at 1. run. rewrite slice_head, take_ge by (unfold zlen in *; lia). run.
  cbn [sl_inner sl_set sl_offset]. rewrite E2. unfold on_inner. run. cbn [sl_offset sl_set sl_inner].
  rewrite add_u_ok by lia. run. rewrite splice_whole_prefix.
  - exists n. eexists. split; [done|]. split.
    + do 5 f_equal. rewrite <- Z.add_assoc.
      replace (range (sl_begin d + sl_offset d) (sl_begin d + (sl_offset d + n)))
        with (Z.add (sl_begin d) <$> range (sl_offset d) (sl_offset d + n)).
      * by rewrite <- list_fmap_compose.
      * unfold range. rewrite fmap_add_seqZ. f_equal; lia.
    + by eapply (slice_inner_same d s2); [|lia|].
  - rewrite zlen_app, zlen_drop, zlen_fmap_range by lia. lia.
Qed.
Next Obligation.
  intros d buf Hok Hne Hby Hlen.
  assert (0 < zlen buf) by (destruct buf; [done|rewrite zlen_cons; pose proof (zlen_nonneg buf); lia]).
  destruct (DiskSlice_write_ok d buf) as (d' & E & U); [done|done|done|done|].
  exists (zlen buf), d'. rewrite take_ge by (unfold zlen; lia). split; [lia|]. by split.
Qed.

End SliceView.

(** ** A buffer in memory

    A concrete storage, for the examples: it transfers at most [mem_chunk] bytes per
    call. *)

Record MemIO := mkMem { mem_bytes : list Z; mem_pos : Z; mem_chunk : Z }.

Definition mem_amount (s : MemIO) (len : Z) : Z :=
  Z.min (mem_chunk s) (Z.min len (zlen (mem_bytes s) - mem_pos s)).

#[export] Instance mem_storage : Storage MemIO := {|
  st_read s buf :=
    let n := mem_amount s (zlen buf) in
    Ret (Ok (n, subslice (mem_bytes s) (mem_pos s) (mem_pos s + n) ++ drop (Z.to_nat n) buf),
         mkMem (mem_bytes s) (mem_pos s + n) (mem_chunk s));
  st_write s buf :=
    let n := mem_amount s (zlen buf) in
    Ret (Ok n, mkMem (splice (mem_bytes s) (mem_pos s) (take (Z.to_nat n) buf)) (mem_pos s + n) (mem_chunk s));
  st_seek s pos :=
    let i := match pos with
      | SeekStart i => i
      | SeekCurrent i => mem_pos s + i
      | SeekEnd i => zlen (mem_bytes s) + i
      end in
    if (0 <=? i) && (i <=? zlen (mem_bytes s))
    then Ret (Ok i, mkMem (mem_bytes s) i (mem_chunk s))
    else Ret (Err (Io tt), s);
  st_flush s := Ret (Ok tt, s);
  unexpected_eof := Io tt;
  write_zero := Io tt;
|}.

#[export] Instance mem_view : View MemIO := {|
  v_ok s := Forall is_byte (mem_bytes s) ∧ 0 ≤ mem_pos s ≤ zlen (mem_bytes s) ∧ 1 ≤ mem_chunk s ∧
    zlen (mem_bytes s) < 2 ^ 62;
  v_size s := zlen (mem_bytes s);
  v_byte s i := default 0 (mem_bytes s !! Z.to_nat i);
  v_pos := mem_pos;
  v_frame s s' := mem_chunk s' = mem_chunk s;
|}.

Lemma subslice_fmap (l : list Z) a b : 0 ≤ a ≤ b → b ≤ zlen l →
  subslice l a b = (λ i, default 0 (l !! Z.to_nat i)) <$> range a b.
Proof.
  intros Ha Hb. apply list_eq. intros k. rewrite list_lookup_fmap. unfold range.
  destruct (decide (Z.of_nat k < b - a)).
  - rewrite <- (Nat2Z.id k) at 1. rewrite subslice_lookup by lia. rewrite lookup_seqZ_lt by lia. cbn.
    destruct (lookup_lt_is_Some_2 l (Z.to_nat (a + Z.of_nat k))) as [x ->]; [unfold zlen in *; lia|done].
  - rewrite lookup_seqZ_ge by lia. apply lookup_ge_None.
    pose proof (zlen_subslice l a b Ha Hb). unfold zlen in *. lia.
Qed.

#[export] Program Instance mem_flat : FlatStorage MemIO.
Next Obligation. split; [by intros s|intros s1 s2 s3; cbn; congruence]. Qed.
Next Obligation. intros s (_ & Hp & _ & Hs). done. Qed.
Next Obligation.
  intros s i (Hb & _) Hi. cbn in *. destruct (lookup_lt_is_Some_2 (mem_bytes s) (Z.to_nat i)) as [x Hx]; [unfold zlen in Hi; lia|].
  rewrite Hx. by eapply (Forall_lookup_1 _ _ _ _ Hb).
Qed.
Next Obligation.
  intros s i (Hb & Hp & Hc & Hs) Hi. cbn in *. case_bool; [|bsolve]. eexists. split; [done|]. by split.
Qed.
Next Obligation.
  intros s buf (Hb & Hp & Hc & Hs) Hne Hfit. cbn [v_pos v_size v_byte mem_view] in *.
  assert (0 < zlen buf) by (destruct buf; [done|rewrite zlen_cons; pose proof (zlen_nonneg buf); lia]).
  assert (mem_amount s (zlen buf) = Z.min (mem_chunk s) (zlen buf)) as E by (unfold mem_amount; lia).
  exists (Z.min (mem_chunk s) (zlen buf)). eexists. split; [lia|]. split.
  - cbn [st_read mem_storage]. rewrite E. rewrite subslice_fmap by lia. done.
  - split; cbn; try done. rewrite ?E. by split_and!; [|lia|lia|..].
Qed.
Next Obligation.
  intros s buf (Hb & Hp & Hc & Hs) Hne Hby Hfit. cbn [v_pos v_size v_byte mem_view] in *.
  assert (0 < zlen buf) by (destruct buf; [done|rewrite zlen_cons; pose proof (zlen_nonneg buf); lia]).
  assert (mem_amount s (zlen buf) = Z.min (mem_chunk s) (zlen buf)) as E by (unfold mem_amount; lia).
  set (n := Z.min (mem_chunk s) (zlen buf)) in *.
  assert (zlen (take (Z.to_nat n) buf) = n) as Hn by (apply zlen_take; lia).
  exists n. eexists. split; [lia|]. split; [cbn [st_write mem_storage]; rewrite E; done|].
  assert (zlen (splice (mem_bytes s) (mem_pos s) (take (Z.to_nat n) buf)) = zlen (mem_bytes s)) as Hz
    by (apply zlen_splice; lia).
  split; cbn; [|done|done| |done].
  - rewrite Hz. split_and!; [|lia|lia|done|done]. unfold splice.
    repeat apply Forall_app_2; [by apply Forall_take|by apply Forall_take|by apply Forall_drop].
  - intros i Hi. rewrite splice_lookup by lia. unfold spec_write. rewrite Hn.
    case_bool; [|done]. destruct (take (Z.to_nat n) buf !! Z.to_nat (i - mem_pos s)); done.
Qed.

(** ** A sparse disk

    For volumes: the bytes that were written, by their position, the others being 0; every
    transfer is as long as the disk allows. *)

Record SparseIO := mkSparse { sp_bytes : PositiveMap.t Z; sp_size : Z; sp_pos : Z }.

Definition sp_key (i : Z) : positive := Z.to_pos (i + 1).
Definition sp_find (m : PositiveMap.t Z) (i : Z) : Z := default 0 (PositiveMap.find (sp_key i) m).

Fixpoint sp_put (m : PositiveMap.t Z) (i : Z) (l : list Z) : PositiveMap.t Z :=
  match l with
  | [] => m
  | b :: l => sp_put (PositiveMap.add (sp_key i) b m) (i + 1) l
  end.

Definition sp_amount (s : SparseIO) (len : Z) : Z := Z.min len (sp_size s - sp_pos s).
Definition sp_move (s : SparseIO) (i : Z) : SparseIO := mkSparse (sp_bytes s) (sp_size s) i.

#[export] Instance sparse_storage : Storage SparseIO := {|
  st_read s buf :=
    let n := sp_amount s (zlen buf) in
    Ret (Ok (n, (sp_find (sp_bytes s) <$> range (sp_pos s) (sp_pos s + n)) ++ drop (Z.to_nat n) buf), sp_move s (sp_pos s + n));
  st_write s buf :=
    let n := sp_amount s (zlen buf) in
    Ret (Ok n, mkSparse (sp_put (sp_bytes s) (sp_pos s) (take (Z.to_nat n) buf)) (sp_size s) (sp_pos s + n));
  st_seek s pos :=
    let i := match pos with
      | SeekStart i => i
      | SeekCurrent i => sp_pos s + i
      | SeekEnd i => sp_size s + i
      end in
    if (0 <=? i) && (i <=? sp_size s) then Ret (Ok i, sp_move s i) else Ret (Err (Io tt), s);
  st_flush s := Ret (Ok tt, s);
  unexpected_eof := Io tt;
  write_zero := Io tt;
|}.

#[export] Instance sparse_view : View SparseIO := {|
  v_ok s := (∀ i, 0 ≤ i < sp_size s → is_byte (sp_find (sp_bytes s) i)) ∧ 0 ≤ sp_pos s ≤ sp_size s ∧ sp_size s < 2 ^ 62;
  v_size := sp_size;
  v_byte s i := sp_find (sp_bytes s) i;
  v_pos := sp_pos;
  v_frame _ _ := True;
|}.

Lemma sp_find_add m i j b : 0 ≤ i → 0 ≤ j → sp_find (PositiveMap.add (sp_key i) b m) j = if j =? i then b else sp_find m j.
Proof.
  intros Hi Hj. unfold sp_find. destruct (Z.eqb_spec j i) as [->|].
  - by rewrite PositiveMap.gss.
  - rewrite PositiveMap.gso; [done|]. unfold sp_key. lia.
Qed.

Lemma sp_find_put l : ∀ m i j, 0 ≤ i → 0 ≤ j → sp_find (sp_put m i l) j = spec_write (sp_find m) i l j.
Proof.
  induction l as [|b l IH]; intros m i j Hi Hj; cbn [sp_put]; [by rewrite spec_write_nil|].
  rewrite IH by lia. unfold spec_write. pose proof (zlen_nonneg l). rewrite zlen_cons, sp_find_add by lia.
  repeat case_bool; try lia; try done.
  - replace (Z.to_nat (j - i)) with (Datatypes.S (Z.to_nat (j - (i + 1)))) by lia. done.
  - by replace (Z.to_nat (j - i)) with O by lia.
Qed.

Fixpoint sp_check (m : PositiveMap.t Z) (n : nat) (i : Z) : bool :=
  match n with O => true | S n => in_range 8 (sp_find m i) && sp_check m n (i + 1) end.

Lemma sp_check_ok m n : ∀ i j, sp_check m n i = true → i ≤ j < i + Z.of_nat n → is_byte (sp_find m j).
Proof.
  induction n as [|n IH]; intros i j; cbn [sp_check]; [lia|]. intros [H1 H2]%andb_true_iff Hj.
  destruct (decide (j = i)) as [->|]; [by apply (in_range_true 8)|]. apply (IH (i + 1)); [done|lia].
Qed.

Lemma sparse_ok (s : SparseIO) :
  sp_check (sp_bytes s) (Z.to_nat (sp_size s)) 0 && (0 <=? sp_pos s) && (sp_pos s <=? sp_size s) && (sp_size s <? 2 ^ 62) = true → v_ok s.
Proof.
  rewrite !andb_true_iff. intros [[[Hb H1] H2] H3]. cbn. split_and!; [|lia..].
  intros i Hi. apply (sp_check_ok _ _ 0 i Hb). lia.
Qed.

#[export] Program Instance sparse_flat : FlatStorage SparseIO.
Next Obligation. by split. Qed.
Next Obligation. intros s (_ & Hp & Hs). done. Qed.
Next Obligation. intros s i (Hb & _) Hi. by apply Hb. Qed.
Next Obligation.
  intros s i (Hb & Hp & Hs) Hi. cbn in *. case_bool; [|bsolve]. eexists. split; [done|]. by split.
Qed.
Next Obligation.
  intros s buf (Hb & Hp & Hs) Hne Hfit. cbn [v_pos v_size v_byte sparse_view] in *.
  assert (0 < zlen buf) by (destruct buf; [done|rewrite zlen_cons; pose proof (zlen_nonneg buf); lia]).
  assert (sp_amount s (zlen buf) = zlen buf) as E by (unfold sp_amount; lia).
  exists (zlen buf). eexists. split; [lia|]. split; [cbn [st_read sparse_storage]; rewrite E; done|].
  split; cbn; try done. rewrite ?E. by split_and!; [|lia|lia|].
Qed.
Next Obligation.
  intros s buf (Hb & Hp & Hs) Hne Hby Hfit. cbn [v_pos v_size v_byte sparse_view] in *.
  assert (0 < zlen buf) by (destruct buf; [done|rewrite zlen_cons; pose proof (zlen_nonneg buf); lia]).
  assert (sp_amount s (zlen buf) = zlen buf) as E by (unfold sp_amount; lia).
  exists (zlen buf). eexists. split; [lia|]. split; [cbn [st_write sparse_storage]; rewrite E; done|].
  split; cbn; [|done|done| |done].
  - split_and!; [|lia|lia|done]. intros i Hi. rewrite sp_find_put by lia.
    by apply spec_write_bytes; [apply Hb|apply Forall_take].
  - intros i Hi. rewrite sp_find_put by lia. done.
Qed.

#[export] Program Instance sparse_whole : WholeWrites SparseIO := { whole _ := True }.
Next Obligation. done. Qed.
Next Obligation.
  intros s buf (Hb & Hp & Hs) Hw Hne Hby Hfit. cbn [v_pos v_size sparse_view st_write sparse_storage] in *.
  assert (sp_amount s (zlen buf) = zlen buf) as -> by (unfold sp_amount; lia). by eexists.
Qed.
