(* ===== verification/FatTable.v ===== *)
(** * FAT crate: the file allocation table

    [kernel/crates/good-fatfs/src/table.rs] and the type [FatType] of [fs.rs]: reading and
    writing entries of 12, 16 and 32 bits, searching and counting free ones, allocating a
    cluster, and following, cutting and freeing chains. *)

From S2P Require Import Prelude BlockCache FatIo.

(** ** Kinds of tables *)

Inductive FatType := Fat12 | Fat16 | Fat32.
#[export] Instance FatType_eq_dec : EqDecision FatType.
Proof. solve_decision. Defined.

Definition FAT16_MIN_CLUSTERS : Z := 4085.
Definition FAT32_MIN_CLUSTERS : Z := 65525.
Definition FAT32_MAX_CLUSTERS : Z := 0x0FFFFFF4.

Definition from_clusters (total_clusters : Z) : FatType :=
  if total_clusters <? FAT16_MIN_CLUSTERS then Fat12
  else if total_clusters <? FAT32_MIN_CLUSTERS then Fat16
  else Fat32.

Definition bits_per_fat_entry (t : FatType) : Z :=
  match t with Fat12 => 12 | Fat16 => 16 | Fat32 => 32 end.

Definition min_clusters (t : FatType) : Z :=
  match t with Fat12 => 0 | Fat16 => FAT16_MIN_CLUSTERS | Fat32 => FAT32_MIN_CLUSTERS end.

Definition max_clusters (t : FatType) : Z :=
  match t with
  | Fat12 => FAT16_MIN_CLUSTERS - 1
  | Fat16 => FAT32_MIN_CLUSTERS - 1
  | Fat32 => FAT32_MAX_CLUSTERS
  end.

Definition RESERVED_FAT_ENTRIES : Z := 2.

Inductive FatValue := Free | Data (n : Z) | Bad | EndOfChain.
#[export] Instance FatValue_eq_dec : EqDecision FatValue.
Proof. solve_decision. Defined.

(** [FsStatusFlags] of [fs.rs]. *)
Record FsStatusFlags := mkFlags { dirty : bool; io_error : bool }.
#[export] Instance FsStatusFlags_eq_dec : EqDecision FsStatusFlags.
Proof. solve_decision. Defined.

(** Cluster numbers that mean "bad" and "end of chain" when stored in a FAT32 entry. *)
Definition special_cluster (cluster : Z) : bool :=
  (0x0FFFFFF7 <=? cluster) && (cluster <=? 0x0FFFFFFF).

(** ** Values of raw entries *)

Definition Fat12_decode (val : Z) : FatValue :=
  if val =? 0 then Free
  else if val =? 0xFF7 then Bad
  else if (0xFF8 <=? val) && (val <=? 0xFFF) then EndOfChain
  else Data val.

Definition Fat16_decode (val : Z) : FatValue :=
  if val =? 0 then Free
  else if val =? 0xFFF7 then Bad
  else if (0xFFF8 <=? val) && (val <=? 0xFFFF) then EndOfChain
  else Data val.

Definition Fat32_decode (cluster val : Z) : FatValue :=
  if (val =? 0) && special_cluster cluster then Bad
  else if val =? 0 then Free
  else if val =? 0x0FFFFFF7 then Bad
  else if (0x0FFFFFF8 <=? val) && (val <=? 0x0FFFFFFF) then EndOfChain
  else if special_cluster cluster then Bad
  else Data val.

Definition Fat12_encode (v : FatValue) : Z :=
  match v with Free => 0 | Bad => 0xFF7 | EndOfChain => 0xFFF | Data n => n end.
Definition Fat16_encode (v : FatValue) : Z :=
  match v with Free => 0 | Bad => 0xFFF7 | EndOfChain => 0xFFFF | Data n => n end.
Definition Fat32_encode (v : FatValue) : Z :=
  match v with Free => 0 | Bad => 0x0FFFFFF7 | EndOfChain => 0x0FFFFFFF | Data n => n end.

(** The two entries packed in 16 bits of a FAT12: the lower 12 bits belong to an even
    cluster, the upper ones to an odd one. *)
Definition unpack12 (cluster packed_val : Z) : Z :=
  if Z.land cluster 1 =? 0 then Z.land packed_val 0x0FFF else Z.shiftr packed_val 4.

Definition pack12 (cluster old_packed raw_val : Z) : Z :=
  if Z.land cluster 1 =? 0 then Z.lor (Z.land old_packed 0xF000) (wrap 16 raw_val)
  else Z.lor (Z.land old_packed 0x000F) (wrap 16 (Z.shiftl (wrap 16 raw_val) 4)).

Section Table.
Context {P : Profile} {S : Type} {ST : Storage S}.

(** ** FAT12 *)

Definition Fat12_get_raw (fat : S) (cluster : Z) : out (result Error Z * S) :=
  fat_offset ← add_u 32 cluster (cluster / 2);
  let? (_, fat) := st_seek fat (SeekStart fat_offset) in
  let? (packed_val, fat) := read_u16_le fat in
  Ret (Ok (unpack12 cluster packed_val), fat).

Definition Fat12_get (fat : S) (cluster : Z) : out (result Error FatValue * S) :=
  let? (val, fat) := Fat12_get_raw fat cluster in
  Ret (Ok (Fat12_decode val), fat).

Definition Fat12_set_raw (fat : S) (cluster raw_val : Z) : out (result Error unit * S) :=
  fat_offset ← add_u 32 cluster (cluster / 2);
  let? (_, fat) := st_seek fat (SeekStart fat_offset) in
  let? (old_packed, fat) := read_u16_le fat in
  let? (_, fat) := st_seek fat (SeekStart fat_offset) in
  write_u16_le fat (pack12 cluster old_packed raw_val).

Definition Fat12_set (fat : S) (cluster : Z) (value : FatValue) : out (result Error unit * S) :=
  Fat12_set_raw fat cluster (Fat12_encode value).

(** The loop of [find_free] holds the packed entry of [cluster]; moving on reads two
    bytes for an even cluster and one for an odd one. It ends at the latest when
    [cluster], counting up modulo 2^32, reaches [end_cluster]. *)
Fixpoint Fat12_find_free_loop (fuel : nat) (fat : S) (cluster end_cluster packed_val : Z) :
    out (result Error Z * S) :=
  if unpack12 cluster packed_val =? 0 then Ret (Ok cluster, fat)
  else match fuel with
  | O => Panic
  | Datatypes.S fuel =>
      cluster ← add_u 32 cluster 1;
      if cluster =? end_cluster then Ret (Err NotEnoughSpace, fat)
      else
        let? (packed_val, fat) :=
          (if Z.land cluster 1 =? 0 then read_u16_le fat
           else
             let? (next_byte, fat) := read_u8 fat in
             Ret (Ok (Z.lor (Z.shiftr packed_val 8) (wrap 16 (Z.shiftl next_byte 8))), fat)) in
        Fat12_find_free_loop fuel fat cluster end_cluster packed_val
  end.

Definition Fat12_find_free (fat : S) (start_cluster end_cluster : Z) : out (result Error Z * S) :=
  fat_offset ← add_u 32 start_cluster (start_cluster / 2);
  let? (_, fat) := st_seek fat (SeekStart fat_offset) in
  let? (packed_val, fat) := read_u16_le fat in
  let fuel := Z.to_nat (if start_cluster <? end_cluster then end_cluster - start_cluster
                        else 2 ^ 32 - start_cluster + end_cluster) in
  Fat12_find_free_loop fuel fat start_cluster end_cluster packed_val.

(** [while cluster < end_cluster { .. }] is a pass over the clusters that are left. *)
Fixpoint Fat12_count_free_loop (l : list Z) (fat : S) (prev_packed_val count : Z) :
    out (result Error Z * S) :=
  match l with
  | [] => Ret (Ok count, fat)
  | cluster :: l =>
      let? (packed_val, fat) := (if Z.land cluster 1 =? 0 then read_u16_le fat else read_u8 fat) in
      let val := if Z.land cluster 1 =? 0 then Z.land packed_val 0x0FFF
                 else Z.lor (wrap 16 (Z.shiftl packed_val 8)) (Z.shiftr prev_packed_val 12) in
      count ← (if val =? 0 then add_u 32 count 1 else Ret count);
      Fat12_count_free_loop l fat packed_val count
  end.

Definition Fat12_count_free (fat : S) (end_cluster : Z) : out (result Error Z * S) :=
  let? (_, fat) := st_seek fat (SeekStart (RESERVED_FAT_ENTRIES * 3 / 2)) in
  Fat12_count_free_loop (range RESERVED_FAT_ENTRIES end_cluster) fat 0 0.

(** ** FAT16 *)

Definition Fat16_get_raw (fat : S) (cluster : Z) : out (result Error Z * S) :=
  fat_offset ← mul_u 32 cluster 2;
  let? (_, fat) := st_seek fat (SeekStart fat_offset) in
  read_u16_le fat.

Definition Fat16_get (fat : S) (cluster : Z) : out (result Error FatValue * S) :=
  let? (val, fat) := Fat16_get_raw fat cluster in
  Ret (Ok (Fat16_decode val), fat).

Definition Fat16_set_raw (fat : S) (cluster raw_value : Z) : out (result Error unit * S) :=
  fat_offset ← mul_u 32 cluster 2;
  let? (_, fat) := st_seek fat (SeekStart fat_offset) in
  write_u16_le fat (wrap 16 raw_value).

Definition Fat16_set (fat : S) (cluster : Z) (value : FatValue) : out (result Error unit * S) :=
  Fat16_set_raw fat cluster (Fat16_encode value).

Fixpoint Fat16_find_free_loop (l : list Z) (fat : S) : out (result Error Z * S) :=
  match l with
  | [] => Ret (Err NotEnoughSpace, fat)
  | cluster :: l =>
      let? (val, fat) := read_u16_le fat in
      if val =? 0 then Ret (Ok cluster, fat) else Fat16_find_free_loop l fat
  end.

Definition Fat16_find_free (fat : S) (start_cluster end_cluster : Z) : out (result Error Z * S) :=
  fat_offset ← mul_u 32 start_cluster 2;
  let? (_, fat) := st_seek fat (SeekStart fat_offset) in
  Fat16_find_free_loop (range start_cluster end_cluster) fat.

Fixpoint Fat16_count_free_loop (l : list Z) (fat : S) (count : Z) : out (result Error Z * S) :=
  match l with
  | [] => Ret (Ok count, fat)
  | _ :: l =>
      let? (val, fat) := read_u16_le fat in
      count ← (if val =? 0 then add_u 32 count 1 else Ret count);
      Fat16_count_free_loop l fat count
  end.

Definition Fat16_count_free (fat : S) (end_cluster : Z) : out (result Error Z * S) :=
  let? (_, fat) := st_seek fat (SeekStart (RESERVED_FAT_ENTRIES * 2)) in
  Fat16_count_free_loop (range RESERVED_FAT_ENTRIES end_cluster) fat 0.

(** ** FAT32 *)

Definition Fat32_get_raw (fat : S) (cluster : Z) : out (result Error Z * S) :=
  fat_offset ← mul_u 32 cluster 4;
  let? (_, fat) := st_seek fat (SeekStart fat_offset) in
  read_u32_le fat.

Definition Fat32_get (fat : S) (cluster : Z) : out (result Error FatValue * S) :=
  let? (raw, fat) := Fat32_get_raw fat cluster in
  Ret (Ok (Fat32_decode cluster (Z.land raw 0x0FFFFFFF)), fat).

Definition Fat32_set_raw (fat : S) (cluster raw_value : Z) : out (result Error unit * S) :=
  fat_offset ← mul_u 32 cluster 4;
  let? (_, fat) := st_seek fat (SeekStart fat_offset) in
  write_u32_le fat raw_value.

Definition Fat32_set (fat : S) (cluster : Z) (value : FatValue) : out (result Error unit * S) :=
  let? (raw, fat) := Fat32_get_raw fat cluster in
  let old_reserved_bits := Z.land raw 0xF0000000 in
  _ ← assert (negb (bool_decide (value = Free) && special_cluster cluster));
  Fat32_set_raw fat cluster (Z.lor (Fat32_encode value) old_reserved_bits).

Fixpoint Fat32_find_free_loop (l : list Z) (fat : S) : out (result Error Z * S) :=
  match l with
  | [] => Ret (Err NotEnoughSpace, fat)
  | cluster :: l =>
      let? (raw, fat) := read_u32_le fat in
      if Z.land raw 0x0FFFFFFF =? 0 then Ret (Ok cluster, fat) else Fat32_find_free_loop l fat
  end.

Definition Fat32_find_free (fat : S) (start_cluster end_cluster : Z) : out (result Error Z * S) :=
  fat_offset ← mul_u 32 start_cluster 4;
  let? (_, fat) := st_seek fat (SeekStart fat_offset) in
  Fat32_find_free_loop (range start_cluster end_cluster) fat.

Fixpoint Fat32_count_free_loop (l : list Z) (fat : S) (count : Z) : out (result Error Z * S) :=
  match l with
  | [] => Ret (Ok count, fat)
  | _ :: l =>
      let? (raw, fat) := read_u32_le fat in
      count ← (if Z.land raw 0x0FFFFFFF =? 0 then add_u 32 count 1 else Ret count);
      Fat32_count_free_loop l fat count
  end.

Definition Fat32_count_free (fat : S) (end_cluster : Z) : out (result Error Z * S) :=
  let? (_, fat) := st_seek fat (SeekStart (RESERVED_FAT_ENTRIES * 4)) in
  Fat32_count_free_loop (range RESERVED_FAT_ENTRIES end_cluster) fat 0.

(** ** Any table *)

Definition read_fat (fat : S) (fat_type : FatType) (cluster : Z) : out (result Error FatValue * S) :=
  match fat_type with
  | Fat12 => Fat12_get fat cluster
  | Fat16 => Fat16_get fat cluster
  | Fat32 => Fat32_get fat cluster
  end.

Definition write_fat (fat : S) (fat_type : FatType) (cluster : Z) (value : FatValue) :
    out (result Error unit * S) :=
  match fat_type with
  | Fat12 => Fat12_set fat cluster value
  | Fat16 => Fat16_set fat cluster value
  | Fat32 => Fat32_set fat cluster value
  end.

Definition get_next_cluster (fat : S) (fat_type : FatType) (cluster : Z) :
    out (result Error (option Z) * S) :=
  let? (val, fat) := read_fat fat fat_type cluster in
  Ret (Ok (match val with Data n => Some n | _ => None end), fat).

Definition find_free_cluster (fat : S) (fat_type : FatType) (start_cluster end_cluster : Z) :
    out (result Error Z * S) :=
  match fat_type with
  | Fat12 => Fat12_find_free fat start_cluster end_cluster
  | Fat16 => Fat16_find_free fat start_cluster end_cluster
  | Fat32 => Fat32_find_free fat start_cluster end_cluster
  end.

Definition alloc_cluster (fat : S) (fat_type : FatType) (prev_cluster hint : option Z)
    (total_clusters : Z) : out (result Error Z * S) :=
  end_cluster ← add_u 32 total_clusters RESERVED_FAT_ENTRIES;
  let start_cluster :=
    match hint with
    | Some n => if n <? end_cluster then n else RESERVED_FAT_ENTRIES
    | None => RESERVED_FAT_ENTRIES
    end in
  '(r, fat) ← find_free_cluster fat fat_type start_cluster end_cluster;
  let? (new_cluster, fat) :=
    match r with
    | Ok n => Ret (Ok n, fat)
    | Err e =>
        if RESERVED_FAT_ENTRIES <? start_cluster
        then find_free_cluster fat fat_type RESERVED_FAT_ENTRIES start_cluster
        else Ret (Err e, fat)
    end in
  let? (_, fat) := write_fat fat fat_type new_cluster EndOfChain in
  let? (_, fat) :=
    match prev_cluster with
    | Some n => write_fat fat fat_type n (Data new_cluster)
    | None => Ret (Ok tt, fat)
    end in
  Ret (Ok new_cluster, fat).

Definition read_fat_flags (fat : S) (fat_type : FatType) : out (result Error FsStatusFlags * S) :=
  let? (val, fat) :=
    match fat_type with
    | Fat12 => Ret (Ok 0xFFF, fat)
    | Fat16 => Fat16_get_raw fat 1
    | Fat32 => Fat32_get_raw fat 1
    end in
  let dirty :=
    match fat_type with
    | Fat12 => false
    | Fat16 => Z.land val (Z.shiftl 1 15) =? 0
    | Fat32 => Z.land val (Z.shiftl 1 27) =? 0
    end in
  let io_error :=
    match fat_type with
    | Fat12 => false
    | Fat16 => Z.land val (Z.shiftl 1 14) =? 0
    | Fat32 => Z.land val (Z.shiftl 1 26) =? 0
    end in
  Ret (Ok (mkFlags dirty io_error), fat).

Definition count_free_clusters (fat : S) (fat_type : FatType) (total_clusters : Z) :
    out (result Error Z * S) :=
  end_cluster ← add_u 32 total_clusters RESERVED_FAT_ENTRIES;
  match fat_type with
  | Fat12 => Fat12_count_free fat end_cluster
  | Fat16 => Fat16_count_free fat end_cluster
  | Fat32 => Fat32_count_free fat end_cluster
  end.

Definition format_fat (fat : S) (fat_type : FatType) (media bytes_per_fat total_clusters : Z) :
    out (result Error unit * S) :=
  let? (_, fat) :=
    match fat_type with
    | Fat12 =>
        let? (_, fat) := write_u8 fat media in
        write_u16_le fat 0xFFFF
    | Fat16 =>
        let? (_, fat) := write_u16_le fat (Z.lor media 0xFF00) in
        write_u16_le fat 0xFFFF
    | Fat32 =>
        let? (_, fat) := write_u32_le fat (Z.lor media 0xFFFFF00) in
        write_u32_le fat 0xFFFFFFFF
    end in
  start_cluster ← add_u 32 total_clusters RESERVED_FAT_ENTRIES;
  bits ← mul_u 64 bytes_per_fat 8;
  let end_cluster := wrap 32 (bits / bits_per_fat_entry fat_type) in
  let? (_, fat) := for_each (λ cluster fat, write_fat fat fat_type cluster EndOfChain)
    (range start_cluster end_cluster) fat in
  if 0x0FFFFFF0 <? end_cluster then
    for_each (λ cluster fat, write_fat fat fat_type cluster Bad)
      (range 0x0FFFFFF0 (Z.min (0x0FFFFFFF + 1) end_cluster)) fat
  else Ret (Ok tt, fat).

(** ** Cluster chains *)

Record ClusterIterator := mkIter {
  ci_fat : S;
  ci_type : FatType;
  ci_cluster : option Z;
  ci_err : bool;
}.

Definition ClusterIterator_new (fat : S) (fat_type : FatType) (cluster : Z) : ClusterIterator :=
  mkIter fat fat_type (Some cluster) false.

Definition ci_next (self : ClusterIterator) : out (option (result Error Z) * ClusterIterator) :=
  if ci_err self then Ret (None, self)
  else match ci_cluster self with
  | Some current_cluster =>
      '(r, fat) ← get_next_cluster (ci_fat self) (ci_type self) current_cluster;
      match r with
      | Ok next_cluster =>
          Ret (Ok <$> next_cluster, mkIter fat (ci_type self) next_cluster (ci_err self))
      | Err err => Ret (Some (Err err), mkIter fat (ci_type self) (ci_cluster self) true)
      end
  | None => Ret (None, self)
  end.

Definition ci_write (self : ClusterIterator) (n : Z) (v : FatValue) :
    out (result Error unit * ClusterIterator) :=
  '(r, fat) ← write_fat (ci_fat self) (ci_type self) n v;
  Ret (r, mkIter fat (ci_type self) (ci_cluster self) (ci_err self)).

(** The loop of [free]; no [fuel] left stands for a loop that goes on. *)
Fixpoint ci_free (fuel : nat) (self : ClusterIterator) (num_free : Z) :
    out (result Error Z * ClusterIterator) :=
  match ci_cluster self with
  | None => Ret (Ok num_free, self)
  | Some n =>
      match fuel with
      | O => Panic
      | Datatypes.S fuel =>
          '(_, self) ← ci_next self;
          let? (_, self) := ci_write self n Free in
          num_free ← add_u 32 num_free 1;
          ci_free fuel self num_free
      end
  end.

Definition ci_truncate (fuel : nat) (self : ClusterIterator) : out (result Error Z * ClusterIterator) :=
  match ci_cluster self with
  | Some n =>
      '(_, self) ← ci_next self;
      let? (_, self) := ci_write self n EndOfChain in
      ci_free fuel self 0
  | None => Ret (Ok 0, self)
  end.

End Table.
Arguments ClusterIterator S : clear implicits.

(** ** The table as a function of the bytes

    [entry_off], [entry_len]: where the entry of a cluster is stored; [entry_raw]: its
    number there; [entry]: its value; [entry_free]: what the searches test. *)

Definition entry_off (t : FatType) (c : Z) : Z :=
  match t with Fat12 => c + c / 2 | Fat16 => c * 2 | Fat32 => c * 4 end.
Definition entry_len (t : FatType) : nat := match t with Fat32 => 4 | _ => 2 end.

Definition entry_word (t : FatType) (f : Z → Z) (c : Z) : Z :=
  from_le (f <$> range (entry_off t c) (entry_off t c + Z.of_nat (entry_len t))).

Definition entry_raw (t : FatType) (f : Z → Z) (c : Z) : Z :=
  match t with
  | Fat12 => unpack12 c (entry_word t f c)
  | Fat16 => entry_word t f c
  | Fat32 => Z.land (entry_word t f c) 0x0FFFFFFF
  end.

Definition entry (t : FatType) (f : Z → Z) (c : Z) : FatValue :=
  match t with
  | Fat12 => Fat12_decode (entry_raw t f c)
  | Fat16 => Fat16_decode (entry_raw t f c)
  | Fat32 => Fat32_decode c (entry_raw t f c)
  end.

Definition entry_free (t : FatType) (f : Z → Z) (c : Z) : bool := entry_raw t f c =? 0.

(** The bytes after a value is stored. *)
Definition entry_word_set (t : FatType) (f : Z → Z) (c : Z) (v : FatValue) : Z :=
  match t with
  | Fat12 => pack12 c (entry_word t f c) (Fat12_encode v)
  | Fat16 => wrap 16 (Fat16_encode v)
  | Fat32 => Z.lor (Fat32_encode v) (Z.land (entry_word t f c) 0xF0000000)
  end.

Definition set_entry (t : FatType) (f : Z → Z) (c : Z) (v : FatValue) : Z → Z :=
  spec_write f (entry_off t c) (to_le (entry_len t) (entry_word_set t f c v)).

(** The free clusters of a range: the first one, and how many there are. *)
Definition first_free (t : FatType) (f : Z → Z) (a b : Z) : option Z :=
  List.find (entry_free t f) (range a b).

Definition num_free (t : FatType) (f : Z → Z) (a b : Z) : Z :=
  zlen (List.filter (entry_free t f) (range a b)).

(** Clusters whose entry is inside a table of [n] bytes and that are no special
    number; [stops t] is the first number that a chain cannot link to. *)
Definition in_table (t : FatType) (n c : Z) : Prop :=
  0 ≤ c < 0x0FFFFFF7 ∧ entry_off t c + Z.of_nat (entry_len t) ≤ n.

Definition stops (t : FatType) : Z :=
  match t with Fat12 => 0xFF7 | Fat16 => 0xFFF7 | Fat32 => 0x0FFFFFF7 end.

Definition storable (t : FatType) (v : FatValue) : Prop :=
  match v with Data n => 0 < n < stops t | _ => True end.

Lemma land_1_even c : 0 ≤ c → (Z.land c 1 =? 0) = Z.even c.
Proof.
  intros Hc. change 1 with (Z.ones 1). rewrite Z.land_ones by lia. change (2 ^ 1) with 2.
  rewrite Zmod_even. by destruct (Z.even c).
Qed.

(** Packed entries in arithmetic. *)
Lemma unpack12_arith c p : 0 ≤ c → 0 ≤ p →
  unpack12 c p = if Z.even c then p mod 4096 else p / 16.
Proof.
  intros Hc Hp. unfold unpack12. rewrite land_1_even by done. destruct (Z.even c).
  - change 0x0FFF with (Z.ones 12). by rewrite Z.land_ones.
  - by rewrite Z.shiftr_div_pow2.
Qed.

Lemma pack12_arith c p v : 0 ≤ c → 0 ≤ p < 65536 → 0 ≤ v < 4096 →
  pack12 c p v = if Z.even c then p / 4096 * 4096 + v else p mod 16 + v * 16.
Proof.
  intros Hc Hp Hv. unfold pack12. rewrite land_1_even by done. rewrite (wrap_small 16 v) by lia.
  destruct (Z.even c).
  - assert (Z.land p 0xF000 = p / 4096 * 4096) as ->.
    { change 0xF000 with (Z.shiftl (Z.ones 4) 12). change 4096 with (2 ^ 12).
      rewrite <- Z.shiftl_mul_pow2, <- Z.shiftr_div_pow2 by lia. apply Z.bits_inj'. intros i Hi.
      rewrite Z.land_spec, !Z.shiftl_spec by lia. destruct (decide (i < 12)).
      - rewrite !(Z.testbit_neg_r _ (i - 12)) by lia. apply andb_false_r.
      - rewrite Z.shiftr_spec by lia. replace (i - 12 + 12) with i by lia. destruct (decide (i < 16)).
        + rewrite Z.ones_spec_low by lia. apply andb_true_r.
        + rewrite (testbit_high p 16) by lia. done. }
    rewrite Z.lor_comm, (lor_aligned v _ 12); [lia|lia|lia|apply Z.mod_mul; lia].
  - assert (wrap 16 (Z.shiftl v 4) = v * 16) as ->.
    { rewrite Z.shiftl_mul_pow2 by lia. change (2 ^ 4) with 16. apply wrap_small. lia. }
    change 0x000F with (Z.ones 4). rewrite Z.land_ones by lia. change (2 ^ 4) with 16.
    rewrite (lor_aligned _ (v * 16) 4); [done|lia|change (2 ^ 4) with 16; apply Z.mod_pos_bound; lia|apply Z.mod_mul; lia].
Qed.

Lemma fmap_range_2 {A} (f : Z → A) o : f <$> range o (o + 2) = [f o; f (o + 1)].
Proof. rewrite range_cons, range_cons, range_nil by lia. done. Qed.

Lemma fmap_range_4 {A} (f : Z → A) o : f <$> range o (o + 4) = [f o; f (o + 1); f (o + 2); f (o + 3)].
Proof.
  rewrite !range_cons, range_nil by lia. cbn. by rewrite <- !Z.add_assoc.
Qed.

(** An entry of a FAT12 in terms of its two bytes. *)
Lemma entry_raw12 f c : 0 ≤ c → is_byte (f (c + c / 2)) → is_byte (f (c + c / 2 + 1)) →
  entry_raw Fat12 f c =
    if Z.even c then f (c + c / 2) + 256 * (f (c + c / 2 + 1) mod 16)
    else f (c + c / 2) / 16 + 16 * f (c + c / 2 + 1).
Proof.
  unfold entry_raw, entry_word, is_byte. cbn [entry_off entry_len]. change (Z.of_nat 2) with 2.
  rewrite fmap_range_2. cbn [from_le]. intros Hc H1 H2. rewrite unpack12_arith by lia.
  set (a := f (c + c / 2)) in *. set (b := f (c + c / 2 + 1)) in *.
  destruct (Z.even c); Z.div_mod_to_equations; lia.
Qed.

Lemma spec_write_read f o buf : spec_write f o buf <$> range o (o + zlen buf) = buf.
Proof.
  pose proof (zlen_nonneg buf). apply list_eq. intros k. rewrite list_lookup_fmap. unfold range.
  destruct (decide (Z.of_nat k < zlen buf)).
  - rewrite lookup_seqZ_lt by lia. cbn. unfold spec_write. case_bool; [|bsolve].
    replace (Z.to_nat (o + Z.of_nat k - o)) with k by lia.
    destruct (buf !! k) eqn:E'; [done|]. apply lookup_ge_None in E'. unfold zlen in *. lia.
  - rewrite lookup_seqZ_ge by lia. symmetry. apply lookup_ge_None. unfold zlen in *. lia.
Qed.

Lemma spec_write_outside f o buf a b : b ≤ o ∨ o + zlen buf ≤ a →
  spec_write f o buf <$> range a b = f <$> range a b.
Proof.
  intros H. apply list_fmap_ext. intros i x Hx%lookup_seqZ. unfold spec_write. case_bool; [lia|done].
Qed.

Lemma entry_word_range t f n c : in_table t n c → (∀ i, 0 ≤ i < n → is_byte (f i)) →
  0 ≤ entry_word t f c < 256 ^ Z.of_nat (entry_len t).
Proof.
  intros [Hc Hfit] Hb. unfold entry_word. set (o := entry_off t c) in *.
  assert (0 ≤ o) by (unfold o; destruct t; cbn; Z.div_mod_to_equations; lia).
  assert (Forall is_byte (f <$> range o (o + Z.of_nat (entry_len t)))) as Hl.
  { apply Forall_fmap, Forall_forall. intros x Hx%elem_of_range. apply Hb. lia. }
  apply from_le_range in Hl. rewrite zlen_fmap_range in Hl by lia.
  by replace (o + Z.of_nat (entry_len t) - o) with (Z.of_nat (entry_len t)) in Hl by lia.
Qed.

Lemma encode_range t v : storable t v →
  match t with
  | Fat12 => 0 ≤ Fat12_encode v < 4096
  | Fat16 => 0 ≤ Fat16_encode v < 65536
  | Fat32 => 0 ≤ Fat32_encode v < 2 ^ 28
  end.
Proof. destruct t, v; cbn; lia. Qed.

Lemma entry_word_set_range t f n c v : in_table t n c → (∀ i, 0 ≤ i < n → is_byte (f i)) → storable t v →
  0 ≤ entry_word_set t f c v < 256 ^ Z.of_nat (entry_len t).
Proof.
  intros Hc Hb Hv. pose proof (entry_word_range t f n c Hc Hb) as Hw. destruct Hc as [Hc _].
  pose proof (encode_range t v Hv). destruct t; cbn [entry_word_set entry_len] in *.
  - change (256 ^ Z.of_nat 2) with 65536 in *. rewrite pack12_arith by lia.
    destruct (Z.even c); Z.div_mod_to_equations; lia.
  - change (256 ^ Z.of_nat 2) with 65536 in *. rewrite wrap_small by lia. lia.
  - change (256 ^ Z.of_nat 4) with (2 ^ 32) in *. apply lor_range; [lia|lia|]. apply land_range; lia.
Qed.

Lemma entry_word_eq t f n c v : in_table t n c → (∀ i, 0 ≤ i < n → is_byte (f i)) → storable t v →
  entry_word t (set_entry t f c v) c = entry_word_set t f c v.
Proof.
  intros Hc Hb Hv. unfold entry_word, set_entry.
  rewrite <- (zlen_to_le (entry_len t) (entry_word_set t f c v)).
  rewrite spec_write_read, from_to_le; [done|]. by eapply entry_word_set_range.
Qed.

(** Storing a value and reading it back. *)
Lemma set_entry_eq t f n c v : in_table t n c → (∀ i, 0 ≤ i < n → is_byte (f i)) → storable t v →
  entry t (set_entry t f c v) c = v.
Proof.
  intros Hc Hb Hv. pose proof (entry_word_range t f n c Hc Hb) as Hw. pose proof (encode_range t v Hv).
  pose proof (entry_word_eq t f n c v Hc Hb Hv) as E. unfold entry, entry_raw. rewrite E.
  destruct Hc as [Hc _]. destruct t; cbn [entry_word_set entry_len] in *.
  - change (256 ^ Z.of_nat 2) with 65536 in *. rewrite pack12_arith by lia.
    assert (unpack12 c (if Z.even c then entry_word Fat12 f c / 4096 * 4096 + Fat12_encode v
              else entry_word Fat12 f c mod 16 + Fat12_encode v * 16) = Fat12_encode v) as ->.
    { set (w := entry_word _ _ _) in *. set (x := Fat12_encode v) in *. rewrite unpack12_arith; [|lia|].
      - destruct (Z.even c); Z.div_mod_to_equations; lia.
      - destruct (Z.even c); Z.div_mod_to_equations; lia. }
    destruct v; try done. cbn in *. unfold Fat12_decode. repeat case_bool; try done; lia.
  - rewrite wrap_small by lia. destruct v; try done. cbn in *. unfold Fat16_decode. repeat case_bool; try done; lia.
  - assert (Z.land (Z.lor (Fat32_encode v) (Z.land (entry_word Fat32 f c) 0xF0000000)) 0x0FFFFFFF = Fat32_encode v) as ->.
    { apply Z.bits_inj'. intros i Hi. change 0xF0000000 with (mask 28 32). change 0x0FFFFFFF with (Z.ones 28).
      rewrite Z.land_spec, Z.lor_spec, Z.land_spec, testbit_mask by lia. destruct (decide (i < 28)).
      - rewrite (proj2 (Z.leb_gt 28 i)), Z.ones_spec_low by lia. cbn. by rewrite andb_false_r, orb_false_r, andb_true_r.
      - rewrite Z.ones_spec_high by lia. rewrite andb_false_r. symmetry. apply (testbit_high _ 28); lia. }
    assert (special_cluster c = false) as Hs.
    { unfold special_cluster. by rewrite (proj2 (Z.leb_gt _ _)) by lia. }
    unfold Fat32_decode. rewrite Hs, andb_false_r. destruct v; try done. cbn in *. repeat case_bool; try done; lia.
Qed.

Lemma even_cases c : Z.even c = true ∧ c mod 2 = 0 ∨ Z.even c = false ∧ c mod 2 = 1.
Proof. rewrite Zmod_even. destruct (Z.even c); auto. Qed.

Lemma half_succ c : Z.even c = true → (c + 1) / 2 = c / 2.
Proof. intros E. destruct (even_cases c) as [[_ H]|[E' _]]; [|congruence]. Z.div_mod_to_equations. lia. Qed.

(** The bytes of two different FAT12 entries meet only if an even cluster is followed by
    its odd neighbour. *)
Lemma apart12 c c' : 0 ≤ c → 0 ≤ c' → c ≠ c' →
  (c' = c + 1 ∧ Z.even c = true) ∨ (c = c' + 1 ∧ Z.even c' = true) ∨
  c + c / 2 + 2 ≤ c' + c' / 2 ∨ c' + c' / 2 + 2 ≤ c + c / 2.
Proof.
  intros Hc Hc' Hne. destruct (even_cases c) as [[E M]|[E M]], (even_cases c') as [[E' M']|[E' M']];
    rewrite E, E'; Z.div_mod_to_equations; lia.
Qed.

Lemma set_entry12_byte f c v i :
  set_entry Fat12 f c v i =
    if i =? c + c / 2 then entry_word_set Fat12 f c v mod 256
    else if i =? c + c / 2 + 1 then entry_word_set Fat12 f c v / 256 mod 256 else f i.
Proof.
  unfold set_entry, spec_write. rewrite zlen_to_le. cbn [entry_off entry_len]. change (Z.of_nat 2) with 2.
  destruct (i =? c + c / 2) eqn:E1; breflect; [|destruct (i =? c + c / 2 + 1) eqn:E2; breflect].
  - case_bool; [|bsolve]. subst i. by rewrite Z.sub_diag.
  - case_bool; [|bsolve]. subst i. by replace (c + c / 2 + 1 - (c + c / 2)) with 1 by lia.
  - case_bool; [lia|done].
Qed.

(** The word stored for a FAT12 entry, from the two bytes it replaces. *)
Lemma entry_word_set12 f c v : 0 ≤ c → is_byte (f (c + c / 2)) → is_byte (f (c + c / 2 + 1)) →
  storable Fat12 v →
  entry_word_set Fat12 f c v =
    if Z.even c then f (c + c / 2 + 1) / 16 * 4096 + Fat12_encode v
    else f (c + c / 2) mod 16 + Fat12_encode v * 16.
Proof.
  intros Hc H1 H2 Hv. pose proof (encode_range Fat12 v Hv) as He. cbn in He. unfold is_byte in *.
  cbn [entry_word_set]. unfold entry_word. cbn [entry_off entry_len]. change (Z.of_nat 2) with 2.
  rewrite fmap_range_2. cbn [from_le]. rewrite pack12_arith by lia.
  set (a := f (c + c / 2)) in *. set (b := f (c + c / 2 + 1)) in *.
  destruct (Z.even c); Z.div_mod_to_equations; lia.
Qed.

(** The neighbour that shares a byte keeps its bits. *)
Lemma set_entry12_adjacent f n c c' v : in_table Fat12 n c → in_table Fat12 n c' →
  (c' = c + 1 ∧ Z.even c = true) ∨ (c = c' + 1 ∧ Z.even c' = true) →
  (∀ i, 0 ≤ i < n → is_byte (f i)) → storable Fat12 v →
  entry_raw Fat12 (set_entry Fat12 f c v) c' = entry_raw Fat12 f c'.
Proof.
  intros [Hc Hfit] [Hc' Hfit'] Hadj Hb Hv. cbn [entry_off entry_len] in *. change (Z.of_nat 2) with 2 in *.
  assert (∀ i, 0 ≤ i < n → is_byte (set_entry Fat12 f c v i)) as Hb'.
  { intros i Hi. apply spec_write_bytes; [by apply Hb|apply to_le_bytes]. }
  pose proof (Z.div_pos c 2) as D. pose proof (Z.div_pos c' 2) as D'.
  rewrite !entry_raw12 by (lia || (apply Hb || apply Hb'); lia).
  rewrite !set_entry12_byte, entry_word_set12 by (lia || done || apply Hb; lia).
  pose proof (Hb (c + c / 2) ltac:(lia)) as B1. pose proof (Hb (c + c / 2 + 1) ltac:(lia)) as B2. unfold is_byte in B1, B2.
  pose proof (encode_range Fat12 v Hv) as He. cbn in He. set (x := Fat12_encode v) in *.
  destruct Hadj as [[-> Hev]|[-> Hev]]; rewrite Z.even_add, Hev; cbn [Bool.eqb Z.even]; rewrite (half_succ _ Hev) in *.
  - rewrite (proj2 (Z.eqb_neq (c + 1 + c / 2) _)), (proj2 (Z.eqb_eq (c + 1 + c / 2) (c + c / 2 + 1))) by lia.
    rewrite !(proj2 (Z.eqb_neq (c + 1 + c / 2 + 1) _)) by lia.
    replace (c + 1 + c / 2) with (c + c / 2 + 1) by lia.
    set (b := f (c + c / 2 + 1)) in *. f_equal. Z.div_mod_to_equations. lia.
  - rewrite !(proj2 (Z.eqb_neq (c' + c' / 2) _)) by lia.
    rewrite (proj2 (Z.eqb_eq (c' + c' / 2 + 1) (c' + 1 + c' / 2))) by lia.
    replace (c' + c' / 2 + 1) with (c' + 1 + c' / 2) by lia.
    set (a := f (c' + 1 + c' / 2)) in *. do 2 f_equal. Z.div_mod_to_equations. lia.
Qed.

(** Other entries keep their number. *)
Lemma set_entry_ne t f n c c' v : in_table t n c → in_table t n c' → c ≠ c' →
  (∀ i, 0 ≤ i < n → is_byte (f i)) → storable t v →
  entry_raw t (set_entry t f c v) c' = entry_raw t f c'.
Proof.
  intros Hc Hc' Hne Hb Hv.
  assert (entry_off t c + Z.of_nat (entry_len t) ≤ entry_off t c' ∨
    entry_off t c' + Z.of_nat (entry_len t) ≤ entry_off t c →
    entry_raw t (set_entry t f c v) c' = entry_raw t f c') as Hdis.
  { intros Hd. unfold entry_raw, entry_word, set_entry. rewrite spec_write_outside; [done|].
    rewrite zlen_to_le. lia. }
  destruct t; [|apply Hdis; cbn; lia..].
  destruct (apart12 c c') as [H|[H|H]]; [by destruct Hc; lia|by destruct Hc'; lia|done| | |].
  - by eapply set_entry12_adjacent; eauto.
  - by eapply set_entry12_adjacent; eauto.
  - apply Hdis. cbn. lia.
Qed.

(** ** Reading and writing entries *)

Section TableProofs.
Context {P : Profile} {S : Type} {ST : Storage S} {V : View S} {FS : FlatStorage S}.

(** [s'] is [s] with the bytes [f], wherever its position. *)
Definition Step (s s' : S) (f : Z → Z) : Prop := ∃ p, Upd s s' f p.

Lemma Step_trans s1 s2 s3 f g : Step s1 s2 f → Step s2 s3 g → Step s1 s3 g.
Proof. intros [p H1] [q H2]. exists q. by eapply Upd_trans. Qed.

Lemma Step_agree s s' f g : agree (v_size s) f g → Step s s' f → Step s s' g.
Proof. intros Ha [p H]. exists p. by eapply Upd_agree. Qed.

Lemma Step_same s1 s2 s3 : Step s1 s2 (v_byte s1) → Step s2 s3 (v_byte s2) → Step s1 s3 (v_byte s1).
Proof. intros [p H1] [q H2]. exists q. by eapply Upd_trans_same. Qed.

Lemma Step_ok s s' f : Step s s' f → v_ok s' ∧ v_size s' = v_size s ∧ agree (v_size s) (v_byte s') f.
Proof. by intros [p []]. Qed.

Lemma seek_read_le_ok n (s : S) o : v_ok s → 0 ≤ o → o + Z.of_nat n ≤ v_size s →
  ∃ s1 s2, st_seek s (SeekStart o) = Ret (Ok o, s1) ∧
    read_le n s1 = Ret (Ok (from_le (v_byte s <$> range o (o + Z.of_nat n))), s2) ∧
    Upd s s2 (v_byte s) (o + Z.of_nat n).
Proof.
  intros Hok Ho Hfit. destruct (v_seek s o) as (s1 & E1 & U1); [done|lia|]. destruct (U1) as [? Hs Hp Hb ?].
  destruct (read_le_ok n s1) as (s2 & E2 & U2); [done|lia|]. exists s1, s2. rewrite E1, E2, Hp in *.
  split; [done|]. split; [|by eapply Upd_trans_same]. do 4 f_equal. apply (fmap_agree (v_size s)); [done|lia|lia].
Qed.

Lemma seek_write_le_ok n (s : S) o x : v_ok s → 0 ≤ o → o + Z.of_nat n ≤ v_size s →
  ∃ s1 s2, st_seek s (SeekStart o) = Ret (Ok o, s1) ∧ write_all s1 (to_le n x) = Ret (Ok tt, s2) ∧
    Upd s s2 (spec_write (v_byte s) o (to_le n x)) (o + Z.of_nat n).
Proof.
  intros Hok Ho Hfit. destruct (v_seek s o) as (s1 & E1 & U1); [done|lia|]. destruct (U1) as [? Hs Hp Hb ?].
  destruct (write_le_ok n s1 x) as (s2 & E2 & U2); [done|lia|]. exists s1, s2. rewrite Hp in *.
  split; [done|]. split; [done|]. eapply Upd_agree; [|by eapply Upd_trans]. by rewrite Hb.
Qed.

Lemma in_table_off t (s : S) c : v_ok s → in_table t (v_size s) c →
  0 ≤ entry_off t c < 2 ^ 32 ∧ 0 ≤ c ∧ 0 ≤ c / 2.
Proof.
  intros Hok [Hc Hfit]. pose proof (Z.div_pos c 2). pose proof (Z.div_le_upper_bound c 2 c).
  destruct t; cbn in *; lia.
Qed.

(** The number of an entry as [get_raw] reads it. *)
Definition get_raw (s : S) (t : FatType) (c : Z) : out (result Error Z * S) :=
  match t with
  | Fat12 => Fat12_get_raw s c
  | Fat16 => Fat16_get_raw s c
  | Fat32 => let? (raw, s) := Fat32_get_raw s c in Ret (Ok (Z.land raw 0x0FFFFFFF), s)
  end.

Lemma get_raw_ok t (s : S) c : v_ok s → in_table t (v_size s) c →
  ∃ s', get_raw s t c = Ret (Ok (entry_raw t (v_byte s) c), s') ∧ Step s s' (v_byte s).
Proof.
  intros Hok Hc. pose proof (in_table_off t s c Hok Hc) as (Ho & Hc0 & Hc2). destruct (Hc) as [_ Hfit].
  destruct (seek_read_le_ok (entry_len t) s (entry_off t c)) as (s1 & s2 & E1 & E2 & U); [done|lia|done|].
  exists s2. split; [|by eexists]. destruct t; cbn [get_raw entry_off entry_len] in *;
    unfold Fat12_get_raw, Fat16_get_raw, Fat32_get_raw.
  - rewrite add_u_ok by lia. run. rewrite E1. run. unfold read_u16_le. rewrite E2. run. done.
  - rewrite mul_u_ok by lia. run. rewrite E1. run. unfold read_u16_le. rewrite E2. done.
  - rewrite mul_u_ok by lia. run. rewrite E1. run. unfold read_u32_le. rewrite E2. run. done.
Qed.

Lemma read_fat_raw t (s : S) c : read_fat s t c =
  let? (raw, s) := get_raw s t c in
  Ret (Ok (match t with Fat12 => Fat12_decode raw | Fat16 => Fat16_decode raw | Fat32 => Fat32_decode c raw end), s).
Proof.
  destruct t; cbn; unfold Fat12_get, Fat16_get, Fat32_get; [done..|].
  by destruct (Fat32_get_raw s c) as [[[] ?]|].
Qed.

Lemma read_fat_ok t (s : S) c : v_ok s → in_table t (v_size s) c →
  ∃ s', read_fat s t c = Ret (Ok (entry t (v_byte s) c), s') ∧ Step s s' (v_byte s).
Proof.
  intros Hok Hc. destruct (get_raw_ok t s c Hok Hc) as (s' & E & H). exists s'. split; [|done].
  rewrite read_fat_raw, E. by destruct t.
Qed.

Lemma get_next_cluster_ok t (s : S) c : v_ok s → in_table t (v_size s) c →
  ∃ s', get_next_cluster s t c =
      Ret (Ok (match entry t (v_byte s) c with Data n => Some n | _ => None end), s') ∧
    Step s s' (v_byte s).
Proof.
  intros Hok Hc. destruct (read_fat_ok t s c Hok Hc) as (s' & E & H). exists s'. split; [|done].
  unfold get_next_cluster. by rewrite E.
Qed.

Lemma entry_word_agree t n f g c : in_table t n c → agree n f g → entry_word t f c = entry_word t g c.
Proof.
  intros [Hc Hfit] Ha. unfold entry_word. f_equal. apply (fmap_agree n); [done| |done].
  pose proof (Z.div_pos c 2). destruct t; cbn; lia.
Qed.

Lemma entry_raw_agree t n f g c : in_table t n c → agree n f g → entry_raw t f c = entry_raw t g c.
Proof. intros Hc Ha. unfold entry_raw. by rewrite (entry_word_agree t n f g c Hc Ha). Qed.

Lemma entry_agree t n f g c : in_table t n c → agree n f g → entry t f c = entry t g c.
Proof. intros Hc Ha. unfold entry. by rewrite (entry_raw_agree t n f g c Hc Ha). Qed.

Lemma not_special c : c < 0x0FFFFFF7 → special_cluster c = false.
Proof. intros Hc. unfold special_cluster. by rewrite (proj2 (Z.leb_gt _ _)) by lia. Qed.

Lemma write_fat_ok t (s : S) c v : v_ok s → in_table t (v_size s) c →
  ∃ s', write_fat s t c v = Ret (Ok tt, s') ∧ Step s s' (set_entry t (v_byte s) c v).
Proof.
  intros Hok Hc. pose proof (in_table_off t s c Hok Hc) as (Ho & Hc0 & Hc2). destruct (Hc) as [Hlt Hfit].
  destruct t; cbn [write_fat entry_off entry_len] in *;
    unfold Fat12_set, Fat16_set, Fat32_set, Fat12_set_raw, Fat16_set_raw, Fat32_set_raw, Fat32_get_raw.
  - rewrite add_u_ok by lia. run.
    destruct (seek_read_le_ok 2 s (c + c / 2)) as (s1 & s2 & -> & E2 & U); [done|lia|done|]. run.
    unfold read_u16_le. rewrite E2. run. destruct (U) as [? Hs _ Hb ?]. change (Z.of_nat 2) with 2 in *.
    destruct (seek_write_le_ok 2 s2 (c + c / 2) (entry_word_set Fat12 (v_byte s) c v)) as (s3 & s4 & -> & E4 & U4);
      [done|lia|lia|]. run.
    exists s4. split; [exact E4|]. eexists. eapply Upd_agree; [|by eapply Upd_trans]. by rewrite Hb.
  - rewrite mul_u_ok by lia. run.
    destruct (seek_write_le_ok 2 s (c * 2) (entry_word_set Fat16 (v_byte s) c v)) as (s1 & s2 & -> & E2 & U);
      [done|lia|done|]. run. exists s2. split; [exact E2|]. by eexists.
  - rewrite mul_u_ok by lia. run.
    destruct (seek_read_le_ok 4 s (c * 4)) as (s1 & s2 & -> & E2 & U); [done|lia|done|]. run.
    unfold read_u32_le. rewrite E2. run. destruct (U) as [? Hs _ Hb ?].
    rewrite (not_special c), andb_false_r by lia. run. change (Z.of_nat 4) with 4 in *.
    destruct (seek_write_le_ok 4 s2 (c * 4) (entry_word_set Fat32 (v_byte s) c v)) as (s3 & s4 & -> & E4 & U4);
      [done|lia|lia|]. run.
    exists s4. split; [exact E4|]. eexists. eapply Upd_agree; [|by eapply Upd_trans]. by rewrite Hb.
Qed.

(** [s'] is [s] with the value [v] in the entry of [c]: every other entry of the table
    keeps its number. *)
Record Stored (t : FatType) (s s' : S) (c : Z) (v : FatValue) : Prop := {
  st_ok : v_ok s';
  st_size : v_size s' = v_size s;
  st_frame : v_frame s s';
  st_eq : entry t (v_byte s') c = v;
  st_ne c' : in_table t (v_size s) c' → c' ≠ c → entry_raw t (v_byte s') c' = entry_raw t (v_byte s) c';
}.

Lemma write_fat_stored t (s : S) c v : v_ok s → in_table t (v_size s) c → storable t v →
  ∃ s', write_fat s t c v = Ret (Ok tt, s') ∧ Stored t s s' c v.
Proof.
  intros Hok Hc Hv. destruct (write_fat_ok t s c v Hok Hc) as (s' & E & p & [Hok' Hs' _ Hb' Hf']).
  exists s'. split; [done|]. pose proof (v_bytes s) as Hby.
  split; [done|done|done| |].
  - rewrite (entry_agree t (v_size s) _ _ c Hc Hb'). apply (set_entry_eq t (v_byte s) (v_size s)); auto.
  - intros c' Hc' Hne. rewrite (entry_raw_agree t (v_size s) _ _ c' Hc' Hb').
    apply (set_entry_ne t (v_byte s) (v_size s)); auto.
Qed.

(** ** Searching and counting *)

Definition found (o : option Z) : result Error Z :=
  match o with Some c => Ok c | None => Err NotEnoughSpace end.

Lemma first_free_agree t n f g a b : (∀ c, a ≤ c < b → in_table t n c) → agree n f g →
  first_free t f a b = first_free t g a b.
Proof.
  intros Hc Ha. unfold first_free.
  assert (∀ c, c ∈ range a b → entry_free t f c = entry_free t g c) as E.
  { intros c Hin%elem_of_range. unfold entry_free. by rewrite (entry_raw_agree t n f g c (Hc c Hin) Ha). }
  induction (range a b) as [|c l IH]; [done|]. cbn. rewrite E by left. destruct (entry_free t g c); [done|].
  apply IH. intros c' Hin. apply E. by right.
Qed.

Lemma num_free_agree t n f g a b : (∀ c, a ≤ c < b → in_table t n c) → agree n f g →
  num_free t f a b = num_free t g a b.
Proof.
  intros Hc Ha. unfold num_free. f_equal. apply List.filter_ext_in.
  intros c Hin%list_elem_of_In%elem_of_range. unfold entry_free.
  by rewrite (entry_raw_agree t n f g c (Hc c Hin) Ha).
Qed.

Lemma first_free_cons t f a b : a < b →
  first_free t f a b = if entry_free t f a then Some a else first_free t f (a + 1) b.
Proof. intros Hab. unfold first_free. by rewrite range_cons by lia. Qed.

Lemma num_free_cons t f a b : a < b →
  num_free t f a b = (if entry_free t f a then 1 else 0) + num_free t f (a + 1) b.
Proof.
  intros Hab. unfold num_free. rewrite range_cons by lia. cbn. destruct (entry_free t f a); [|done].
  by rewrite zlen_cons.
Qed.

Lemma num_free_le t f a b : a ≤ b → 0 ≤ num_free t f a b ≤ b - a.
Proof.
  intros Hab. unfold num_free. split; [apply zlen_nonneg|].
  pose proof (List.filter_length_le (entry_free t f) (range a b)) as H. unfold zlen.
  unfold range in *. rewrite length_seqZ in H. lia.
Qed.

(** Reading the entry at the position and moving on to the next: FAT16 and FAT32. *)
Lemma read_entry_ok t (s : S) c : t ≠ Fat12 → v_ok s → v_pos s = entry_off t c → in_table t (v_size s) c →
  ∃ s', read_le (entry_len t) s = Ret (Ok (entry_word t (v_byte s) c), s') ∧
    Upd s s' (v_byte s) (entry_off t (c + 1)).
Proof.
  intros Ht Hok Hp [Hc Hfit]. destruct (read_le_ok (entry_len t) s) as (s' & E & U); [done|lia|].
  exists s'. rewrite Hp in *. split; [exact E|].
  by replace (entry_off t (c + 1)) with (entry_off t c + Z.of_nat (entry_len t)) by (destruct t; cbn; [done|lia|lia]).
Qed.

(** The loops of FAT16 and FAT32 search and count. *)
Definition find_loop (t : FatType) : list Z → S → out (result Error Z * S) :=
  match t with Fat32 => Fat32_find_free_loop | _ => Fat16_find_free_loop end.
Definition count_loop (t : FatType) : list Z → S → Z → out (result Error Z * S) :=
  match t with Fat32 => Fat32_count_free_loop | _ => Fat16_count_free_loop end.

Lemma find_loop_cons t c l (s s1 : S) f : t ≠ Fat12 → read_le (entry_len t) s = Ret (Ok (entry_word t f c), s1) →
  find_loop t (c :: l) s = if entry_free t f c then Ret (Ok c, s1) else find_loop t l s1.
Proof.
  intros Ht E. destruct t; [done| |]; cbn [find_loop Fat16_find_free_loop Fat32_find_free_loop];
    unfold read_u16_le, read_u32_le; cbn [entry_len] in E; rewrite E; reflexivity.
Qed.

Lemma count_loop_cons t c l (s s1 : S) f k : t ≠ Fat12 → read_le (entry_len t) s = Ret (Ok (entry_word t f c), s1) →
  count_loop t (c :: l) s k =
    (k ← (if entry_free t f c then add_u 32 k 1 else Ret k); count_loop t l s1 k).
Proof.
  intros Ht E. destruct t; [done| |]; cbn [count_loop Fat16_count_free_loop Fat32_count_free_loop];
    unfold read_u16_le, read_u32_le; cbn [entry_len] in E; rewrite E; reflexivity.
Qed.

Lemma find_loop_ok t (s : S) a b : t ≠ Fat12 → v_ok s → v_pos s = entry_off t a → a ≤ b →
  (∀ c, a ≤ c < b → in_table t (v_size s) c) →
  ∃ s', find_loop t (range a b) s = Ret (found (first_free t (v_byte s) a b), s') ∧ Step s s' (v_byte s).
Proof.
  intros Ht. remember (Z.to_nat (b - a)) as n eqn:Hn. revert a s Hn.
  induction n as [|n IH]; intros a s Hn Hok Hp Hab Hc.
  - unfold first_free. rewrite range_nil by lia. exists s. split; [by destruct t|]. eexists. by apply Upd_refl.
  - destruct (read_entry_ok t s a Ht Hok Hp (Hc a ltac:(lia))) as (s1 & E & U).
    rewrite range_cons, (find_loop_cons t a _ s s1 (v_byte s) Ht E), first_free_cons by lia.
    destruct (entry_free t (v_byte s) a); [exists s1; split; [done|by eexists]|].
    destruct (U) as [? Hs1 ? Hb1 ?].
    destruct (IH (a + 1) s1) as (s' & -> & H); [lia|done|done|lia|intros c Hcc; rewrite Hs1; apply Hc; lia|].
    exists s'. split; [|eapply Step_same; [by eexists|done]].
    rewrite (first_free_agree t (v_size s) _ (v_byte s)); [done|intros c Hcc; apply Hc; lia|done].
Qed.

Lemma count_loop_ok t (s : S) a b k : t ≠ Fat12 → v_ok s → v_pos s = entry_off t a → a ≤ b →
  0 ≤ k → k + (b - a) < 2 ^ 32 → (∀ c, a ≤ c < b → in_table t (v_size s) c) →
  ∃ s', count_loop t (range a b) s k = Ret (Ok (k + num_free t (v_byte s) a b), s') ∧ Step s s' (v_byte s).
Proof.
  intros Ht. remember (Z.to_nat (b - a)) as n eqn:Hn. revert a s k Hn.
  induction n as [|n IH]; intros a s k Hn Hok Hp Hab Hk Hkb Hc.
  - unfold num_free. rewrite range_nil by lia. exists s. rewrite Z.add_0_r. split; [by destruct t|].
    eexists. by apply Upd_refl.
  - destruct (read_entry_ok t s a Ht Hok Hp (Hc a ltac:(lia))) as (s1 & E & U).
    rewrite range_cons, (count_loop_cons t a _ s s1 (v_byte s) k Ht E), num_free_cons by lia.
    destruct (U) as [? Hs1 ? Hb1 ?]. set (e := if entry_free t (v_byte s) a then 1 else 0).
    assert ((if entry_free t (v_byte s) a then add_u 32 k 1 else Ret k) = Ret (k + e)) as ->.
    { unfold e. case_bool; [by rewrite add_u_ok by lia|by rewrite Z.add_0_r]. }
    assert (0 ≤ e ≤ 1) by (unfold e; case_bool; lia).
    run. destruct (IH (a + 1) s1 (k + e)) as (s' & -> & H'); [lia|done|done|lia|lia|lia|intros c Hcc; rewrite Hs1; apply Hc; lia|].
    exists s'. split; [|eapply Step_same; [by eexists|done]].
    rewrite (num_free_agree t (v_size s) _ (v_byte s)); [|intros c Hcc; apply Hc; lia|done]. by rewrite Z.add_assoc.
Qed.

(** FAT12: the packed word of the next cluster from that of an even one. *)
Lemma entry_word12 f c : entry_word Fat12 f c = f (c + c / 2) + 256 * f (c + c / 2 + 1).
Proof.
  unfold entry_word. cbn [entry_off entry_len]. change (Z.of_nat 2) with 2. rewrite fmap_range_2. cbn. lia.
Qed.

Lemma lor_bytes a b : is_byte a → is_byte b → Z.lor a (wrap 16 (Z.shiftl b 8)) = a + 256 * b.
Proof.
  unfold is_byte. intros Ha Hb. rewrite Z.shiftl_mul_pow2 by lia. change (2 ^ 8) with 256.
  rewrite wrap_small by lia. rewrite (lor_aligned a (b * 256) 8); [lia|lia|lia|apply Z.mod_mul; lia].
Qed.

Lemma next_packed12 f c : 0 ≤ c → Z.even c = true → is_byte (f (c + c / 2)) → is_byte (f (c + c / 2 + 1)) →
  is_byte (f (c + c / 2 + 2)) →
  Z.lor (Z.shiftr (entry_word Fat12 f c) 8) (wrap 16 (Z.shiftl (f (c + c / 2 + 2)) 8)) = entry_word Fat12 f (c + 1).
Proof.
  intros Hc Hev H1 H2 H3. rewrite !entry_word12, (half_succ c Hev).
  replace (c + 1 + c / 2) with (c + c / 2 + 1) by lia. replace (c + c / 2 + 1 + 1) with (c + c / 2 + 2) by lia.
  rewrite Z.shiftr_div_pow2 by lia. change (2 ^ 8) with 256. rewrite <- (lor_bytes (f (c + c / 2 + 1))) by done. f_equal.
  unfold is_byte in *. set (x := f (c + c / 2)) in *. set (y := f (c + c / 2 + 1)) in *.
  Z.div_mod_to_equations. lia.
Qed.

(** What moving on reads: the packed word of the next cluster. *)
Lemma advance12_ok (s : S) c : v_ok s → v_pos s = c + c / 2 + 2 → in_table Fat12 (v_size s) c →
  in_table Fat12 (v_size s) (c + 1) →
  ∃ s', (if Z.land (c + 1) 1 =? 0 then read_u16_le s
         else let? (next_byte, s) := read_u8 s in
           Ret (Ok (Z.lor (Z.shiftr (entry_word Fat12 (v_byte s) c) 8) (wrap 16 (Z.shiftl next_byte 8))), s)) =
      Ret (Ok (entry_word Fat12 (v_byte s) (c + 1)), s') ∧
    Upd s s' (v_byte s) (c + 1 + (c + 1) / 2 + 2).
Proof.
  intros Hok Hp Hc [Hc1 Hfit1]. pose proof Hc as [Hc0 Hfit]. cbn [entry_off entry_len] in *. change (Z.of_nat 2) with 2 in *.
  pose proof (Z.div_pos c 2). rewrite land_1_even by lia. rewrite Z.even_add. destruct (even_cases c) as [[Hev M]|[Hev M]]; rewrite Hev; cbn [Z.even Bool.eqb].
  - rewrite (half_succ c Hev) in *. destruct (read_u8_ok s) as (s' & -> & U); [done|lia|]. run.
    exists s'. rewrite Hp in *. split; [|by replace (c + 1 + c / 2 + 2) with (c + c / 2 + 2 + 1) by lia].
    destruct (U) as [? ? ? Hb ?]. rewrite (entry_word_agree Fat12 (v_size s) (v_byte s') (v_byte s) c); [|done|done].
    rewrite next_packed12; [done|lia|done| | |]; apply v_bytes; try done; lia.
  - assert ((c + 1) / 2 = c / 2 + 1) as E by (Z.div_mod_to_equations; lia). rewrite E in *.
    destruct (read_le_ok 2 s) as (s' & E' & U); [done|change (Z.of_nat 2) with 2; lia|]. exists s'.
    unfold read_u16_le. rewrite E', Hp in *. change (Z.of_nat 2) with 2 in *.
    unfold entry_word. cbn [entry_off entry_len]. change (Z.of_nat 2) with 2. rewrite E.
    replace (c + 1 + (c / 2 + 1)) with (c + c / 2 + 2) by lia. by split.
Qed.

Lemma find12_loop_ok fuel (s : S) a b : v_ok s → v_pos s = a + a / 2 + 2 → a < b → b - a ≤ Z.of_nat fuel →
  (∀ c, a ≤ c < b → in_table Fat12 (v_size s) c) →
  ∃ s', Fat12_find_free_loop fuel s a b (entry_word Fat12 (v_byte s) a) =
      Ret (found (first_free Fat12 (v_byte s) a b), s') ∧ Step s s' (v_byte s).
Proof.
  revert s a. induction fuel as [|fuel IH]; intros s a Hok Hp Hab Hf Hc; [lia|].
  assert (0 ≤ a ∧ b ≤ 0x0FFFFFF7) as [Ha Hbb].
  { destruct (Hc a ltac:(lia)) as [? _]. destruct (Hc (b - 1) ltac:(lia)) as [? _]. lia. }
  cbn [Fat12_find_free_loop]. rewrite first_free_cons by lia.
  change (unpack12 a (entry_word Fat12 (v_byte s) a) =? 0) with (entry_free Fat12 (v_byte s) a).
  destruct (entry_free Fat12 (v_byte s) a); [exists s; split; [done|eexists; by apply Upd_refl]|].
  rewrite add_u_ok by lia. run. destruct (a + 1 =? b) eqn:E; breflect.
  { unfold first_free. rewrite range_nil by lia. exists s. split; [done|eexists; by apply Upd_refl]. }
  destruct (advance12_ok s a) as (s1 & E1 & U1); [done|done|apply Hc; lia|apply Hc; lia|].
  replace (let? (next_byte, fat) := read_u8 s in
      Ret (Ok (Z.lor (Z.shiftr (entry_word Fat12 (v_byte s) a) 8) (wrap 16 (Z.shiftl next_byte 8))), fat))
    with (let? (next_byte, s1) := read_u8 s in
      Ret (Ok (Z.lor (Z.shiftr (entry_word Fat12 (v_byte s1) a) 8) (wrap 16 (Z.shiftl next_byte 8))), s1)).
  2: { assert (0 ≤ a / 2) by (apply Z.div_pos; lia). destruct (Hc (a + 1) ltac:(lia)) as [_ Hfit]. cbn in Hfit.
       pose proof (Z.div_le_mono a (a + 1) 2).
       destruct (read_u8_ok s) as (s' & -> & [? ? ? Hb ?]); [done|lia|]. run.
       by rewrite (entry_word_agree Fat12 (v_size s) (v_byte s') (v_byte s) a); [|apply Hc; lia|]. }
  rewrite E1. run. destruct (U1) as [? Hs1 Hp1 Hb1 ?].
  rewrite <- (entry_word_agree Fat12 (v_size s) (v_byte s1) (v_byte s) (a + 1)); [|apply Hc; lia|done].
  destruct (IH s1 (a + 1)) as (s' & -> & H'); [done|done|lia|lia|intros c Hcc; rewrite Hs1; apply Hc; lia|].
  exists s'. split; [|eapply Step_same; [by eexists|done]].
  rewrite (first_free_agree Fat12 (v_size s) _ (v_byte s)); [done|intros c Hcc; apply Hc; lia|done].
Qed.

(** [find_free] is a search of the table, whatever its kind. *)
Lemma find_free_ok t (s : S) a b : v_ok s → a < b → (∀ c, a ≤ c < b → in_table t (v_size s) c) →
  ∃ s', find_free_cluster s t a b = Ret (found (first_free t (v_byte s) a b), s') ∧ Step s s' (v_byte s).
Proof.
  intros Hok Hab Hc. pose proof (Hc a ltac:(lia)) as Ha. pose proof (in_table_off t s a Hok Ha) as (Ho & Ha0 & Ha2).
  destruct Ha as [_ Hfit]. destruct (decide (t = Fat12)) as [->|Ht].
  - cbn [find_free_cluster entry_off entry_len] in *. unfold Fat12_find_free. rewrite add_u_ok by lia. run.
    destruct (seek_read_le_ok 2 s (a + a / 2)) as (s1 & s2 & -> & E2 & U); [done|lia|done|]. run.
    unfold read_u16_le. rewrite E2. run. destruct (U) as [? Hs _ Hb ?]. change (Z.of_nat 2) with 2 in *.
    rewrite (proj2 (Z.ltb_lt a b)) by lia.
    destruct (find12_loop_ok (Z.to_nat (b - a)) s2 a b) as (s' & E & H'); [done|by destruct U|lia|lia|by rewrite Hs|].
    change (from_le (v_byte s <$> range (a + a / 2) (a + a / 2 + 2))) with (entry_word Fat12 (v_byte s) a).
    rewrite <- (entry_word_agree Fat12 (v_size s) (v_byte s2) (v_byte s) a); [|apply Hc; lia|done].
    exists s'. rewrite E. split; [|eapply Step_same; [by eexists|done]].
    by rewrite (first_free_agree Fat12 (v_size s) _ (v_byte s)).
  - assert (find_free_cluster s t a b = (o ← mul_u 32 a (Z.of_nat (entry_len t));
      let? (_, s) := st_seek s (SeekStart o) in find_loop t (range a b) s)) as -> by (by destruct t).
    rewrite mul_u_ok by (destruct t; cbn in *; [done|lia|lia]). run.
    replace (a * Z.of_nat (entry_len t)) with (entry_off t a) by (by destruct t).
    destruct (v_seek s (entry_off t a)) as (s1 & -> & U); [done|lia|]. run. destruct (U) as [? Hs ? Hb ?].
    destruct (find_loop_ok t s1 a b) as (s' & -> & H'); [done|done|done|lia|by rewrite Hs|].
    exists s'. split; [|eapply Step_same; [by eexists|done]]. by rewrite (first_free_agree t (v_size s) _ (v_byte s)).
Qed.

(** The state of the FAT12 count before [c]: in front of an odd cluster the byte it
    shares with its neighbour has been read. *)
Definition at_count12 (s : S) (c prev : Z) : Prop :=
  if Z.even c then v_pos s = c + c / 2
  else v_pos s = c + c / 2 + 1 ∧ Z.shiftr prev 12 = v_byte s (c + c / 2) / 16.

(** One pass of the FAT12 count tests the entry of its cluster. *)
Lemma count12_step (s : S) c prev : v_ok s → in_table Fat12 (v_size s) c → at_count12 s c prev →
  ∃ packed s', (if Z.land c 1 =? 0 then read_u16_le s else read_u8 s) = Ret (Ok packed, s') ∧
    ((if Z.land c 1 =? 0 then Z.land packed 0x0FFF
      else Z.lor (wrap 16 (Z.shiftl packed 8)) (Z.shiftr prev 12)) =? 0) = entry_free Fat12 (v_byte s) c ∧
    at_count12 s' (c + 1) packed ∧ Step s s' (v_byte s).
Proof.
  intros Hok Hc Hat. pose proof Hc as [Hc0 Hfit]. cbn [entry_off entry_len] in *. change (Z.of_nat 2) with 2 in *.
  pose proof (Z.div_pos c 2). rewrite land_1_even by lia. unfold at_count12 in *. rewrite Z.even_add.
  pose proof (v_bytes s (c + c / 2) Hok ltac:(lia)) as B1. pose proof (v_bytes s (c + c / 2 + 1) Hok ltac:(lia)) as B2.
  destruct (even_cases c) as [[Hev M]|[Hev M]]; rewrite Hev in *; cbn [Z.even Bool.eqb].
  - destruct (read_le_ok 2 s) as (s' & E' & U); [done|change (Z.of_nat 2) with 2; lia|]. change (Z.of_nat 2) with 2 in *.
    rewrite Hat in *. exists (entry_word Fat12 (v_byte s) c), s'. split_and!.
    + exact E'.
    + unfold entry_free, entry_raw, unpack12. rewrite land_1_even by lia. by rewrite Hev.
    + destruct (U) as [? ? ? ? ?]. rewrite (half_succ c Hev). lia.
    + destruct (U) as [? ? ? Hb ?]. rewrite (half_succ c Hev), Hb, entry_word12 by lia.
      replace (c + 1 + c / 2) with (c + c / 2 + 1) by lia. rewrite Z.shiftr_div_pow2 by lia. change (2 ^ 12) with 4096.
      unfold is_byte in *. set (x := v_byte s (c + c / 2)) in *. set (y := v_byte s (c + c / 2 + 1)) in *.
      Z.div_mod_to_equations. lia.
    + by eexists.
  - destruct Hat as [Hp Hprev]. destruct (read_u8_ok s) as (s' & E' & U); [done|lia|]. rewrite Hp in *.
    exists (v_byte s (c + c / 2 + 1)), s'. rewrite E'. split_and!; [done| | |by eexists].
    + rewrite Z.lor_comm, Hprev. unfold entry_free. rewrite entry_raw12, Hev by (lia || done). unfold is_byte in *.
      set (x := v_byte s (c + c / 2)) in *. set (y := v_byte s (c + c / 2 + 1)) in *.
      rewrite lor_bytes by (unfold is_byte; Z.div_mod_to_equations; lia).
      destruct (x / 16 + 256 * y =? 0) eqn:E1, (x / 16 + 16 * y =? 0) eqn:E2; breflect; try done;
        Z.div_mod_to_equations; lia.
    + destruct (U) as [? ? ? ? ?]. assert ((c + 1) / 2 = c / 2 + 1) by (Z.div_mod_to_equations; lia). lia.
Qed.

Lemma count12_loop_ok (s : S) a b prev k : v_ok s → at_count12 s a prev → a ≤ b →
  0 ≤ k → k + (b - a) < 2 ^ 32 → (∀ c, a ≤ c < b → in_table Fat12 (v_size s) c) →
  ∃ s', Fat12_count_free_loop (range a b) s prev k = Ret (Ok (k + num_free Fat12 (v_byte s) a b), s') ∧
    Step s s' (v_byte s).
Proof.
  remember (Z.to_nat (b - a)) as n eqn:Hn. revert a s k prev Hn.
  induction n as [|n IH]; intros a s k prev Hn Hok Hat Hab Hk Hkb Hc.
  - unfold num_free. rewrite range_nil by lia. exists s. rewrite Z.add_0_r. split; [done|].
    eexists. by apply Upd_refl.
  - destruct (count12_step s a prev Hok (Hc a ltac:(lia)) Hat) as (packed & s1 & E & Ef & Hat1 & St1).
    rewrite range_cons, num_free_cons by lia. cbn [Fat12_count_free_loop]. rewrite E. run. rewrite Ef.
    destruct (Step_ok _ _ _ St1) as (Hok1 & Hs1 & Hb1). set (e := if entry_free Fat12 (v_byte s) a then 1 else 0).
    assert ((if entry_free Fat12 (v_byte s) a then add_u 32 k 1 else Ret k) = Ret (k + e)) as ->.
    { unfold e. case_bool; [by rewrite add_u_ok by lia|by rewrite Z.add_0_r]. }
    assert (0 ≤ e ≤ 1) by (unfold e; case_bool; lia).
    run. destruct (IH (a + 1) s1 (k + e) packed) as (s' & -> & H'); [lia|done|done|lia|lia|lia|intros c Hcc; rewrite Hs1; apply Hc; lia|].
    exists s'. split; [|by eapply Step_same].
    rewrite (num_free_agree Fat12 (v_size s) _ (v_byte s)); [|intros c Hcc; apply Hc; lia|done]. by rewrite Z.add_assoc.
Qed.

(** [count_free_clusters] counts, whatever the kind of the table. *)
Lemma count_free_ok t (s : S) total : v_ok s → 0 ≤ total → entry_off t 2 ≤ v_size s →
  (∀ c, 2 ≤ c < total + 2 → in_table t (v_size s) c) → total + 2 < 2 ^ 32 →
  ∃ s', count_free_clusters s t total = Ret (Ok (num_free t (v_byte s) 2 (total + 2)), s') ∧ Step s s' (v_byte s).
Proof.
  intros Hok Ht Hsz Hc Hb. unfold count_free_clusters, RESERVED_FAT_ENTRIES. rewrite add_u_ok by lia. run.
  assert (∃ s', (let? (_, s) := st_seek s (SeekStart (entry_off t 2)) in
      match t with Fat12 => Fat12_count_free_loop (range 2 (total + 2)) s 0 0
                 | _ => count_loop t (range 2 (total + 2)) s 0 end) =
      Ret (Ok (0 + num_free t (v_byte s) 2 (total + 2)), s') ∧ Step s s' (v_byte s)) as (s' & E & St).
  { destruct (v_seek s (entry_off t 2)) as (s1 & -> & U); [done|split; [by destruct t|done]|]. run. destruct (U) as [? Hs1 ? Hb1 ?].
    rewrite <- (num_free_agree t (v_size s) (v_byte s1) (v_byte s)); [|done|done]. rewrite <- Hs1 in Hc.
    destruct (decide (t = Fat12)) as [->|Hne].
    - destruct (count12_loop_ok s1 2 (total + 2) 0 0) as (s' & -> & H'); [done|done|lia|lia|lia|done|].
      exists s'. split; [done|]. eapply Step_same; [by eexists|done].
    - destruct (count_loop_ok t s1 2 (total + 2) 0) as (s' & E & H'); [done|done|done|lia|lia|lia|done|].
      exists s'. split; [by destruct t|]. eapply Step_same; [by eexists|done]. }
  exists s'. split; [|done]. destruct t; exact E.
Qed.

(** ** Allocation *)

Lemma entry_Free_iff t n f c : in_table t n c → entry t f c = Free ↔ entry_free t f c = true.
Proof.
  intros [Hc _]. unfold entry, entry_free. destruct t; unfold Fat12_decode, Fat16_decode, Fat32_decode;
    rewrite ?(not_special c), ?andb_false_r by lia; destruct (entry_raw _ f c =? 0) eqn:E; try done;
    repeat case_bool; done.
Qed.

Lemma entry_raw_eq t f g c : entry_raw t f c = entry_raw t g c → entry t f c = entry t g c.
Proof. intros E. unfold entry. by rewrite E. Qed.

Lemma first_free_Some t f a b c : first_free t f a b = Some c → a ≤ c < b ∧ entry_free t f c = true.
Proof.
  unfold first_free. intros H%List.find_some. destruct H as [Hin E]. split; [|done].
  by apply elem_of_range, list_elem_of_In.
Qed.

Lemma first_free_None t f a b c : first_free t f a b = None → a ≤ c < b → entry_free t f c = false.
Proof.
  unfold first_free. intros H Hc. apply (List.find_none _ _ H). by apply list_elem_of_In, elem_of_range.
Qed.

Lemma num_free_ext t f g a b : (∀ c, a ≤ c < b → entry_free t f c = entry_free t g c) →
  num_free t f a b = num_free t g a b.
Proof.
  intros H. unfold num_free. f_equal. apply List.filter_ext_in.
  intros c Hin%list_elem_of_In%elem_of_range. by apply H.
Qed.

Lemma num_free_split t f a c b : a ≤ c < b →
  num_free t f a b = num_free t f a c + (if entry_free t f c then 1 else 0) + num_free t f (c + 1) b.
Proof.
  intros H. unfold num_free. rewrite (range_app a c b), (range_cons c) by lia.
  rewrite List.filter_app, zlen_app. cbn. destruct (entry_free t f c); rewrite ?zlen_cons; lia.
Qed.

(** Changing one entry changes the number of free ones accordingly. *)
Lemma num_free_change t f g a c b : a ≤ c < b →
  (∀ c', a ≤ c' < b → c' ≠ c → entry_free t g c' = entry_free t f c') →
  num_free t g a b + (if entry_free t f c then 1 else 0) = num_free t f a b + (if entry_free t g c then 1 else 0).
Proof.
  intros Hc H. rewrite (num_free_split t f a c b), (num_free_split t g a c b) by lia.
  rewrite (num_free_ext t g f a c), (num_free_ext t g f (c + 1) b) by (intros; apply H; lia). lia.
Qed.

Lemma Stored_trans_ne t (s s1 s2 : S) c d v w c' : Stored t s s1 c v → Stored t s1 s2 d w →
  in_table t (v_size s) c' → c' ≠ c → c' ≠ d → entry_raw t (v_byte s2) c' = entry_raw t (v_byte s) c'.
Proof. intros [] [] Hc Hn1 Hn2. rewrite st_ne1 by (try done; by rewrite st_size0). by apply st_ne0. Qed.

(** Where the search starts, and the cluster it takes. *)
Definition alloc_start (hint : option Z) (total : Z) : Z :=
  match hint with Some n => if n <? total + 2 then n else 2 | None => 2 end.

Definition alloc_choice (t : FatType) (f : Z → Z) (hint : option Z) (total : Z) : option Z :=
  match first_free t f (alloc_start hint total) (total + 2) with
  | Some c => Some c
  | None => first_free t f 2 (alloc_start hint total)
  end.

(** The search of [alloc_cluster]. *)
Lemma alloc_search_ok t (s : S) hint total : v_ok s → 1 ≤ total → total + 2 < 2 ^ 32 →
  (∀ n, hint = Some n → 2 ≤ n) → (∀ c, 2 ≤ c < total + 2 → in_table t (v_size s) c) →
  ∃ s', ('(r, fat) ← find_free_cluster s t (alloc_start hint total) (total + 2);
      match r with
      | Ok n => Ret (Ok n, fat)
      | Err e => if 2 <? alloc_start hint total then find_free_cluster fat t 2 (alloc_start hint total)
                 else Ret (Err e, fat)
      end) = Ret (found (alloc_choice t (v_byte s) hint total), s') ∧ Step s s' (v_byte s).
Proof.
  intros Hok Ht Hb Hh Hc. set (a := alloc_start hint total).
  assert (2 ≤ a < total + 2) as Ha.
  { unfold a, alloc_start. destruct hint as [n|]; [|lia]. specialize (Hh n eq_refl). case_bool; lia. }
  destruct (find_free_ok t s a (total + 2)) as (s1 & -> & St1); [done|lia|intros c Hcc; apply Hc; lia|]. run.
  unfold alloc_choice. fold a. destruct (first_free t (v_byte s) a (total + 2)) as [c|]; cbn [found].
  { by exists s1. }
  destruct (Step_ok _ _ _ St1) as (Hok1 & Hs1 & Hb1). case_bool.
  - destruct (find_free_ok t s1 2 a) as (s2 & -> & St2); [done|lia|intros c Hcc; rewrite Hs1; apply Hc; lia|].
    exists s2. split; [|by eapply Step_same].
    by rewrite (first_free_agree t (v_size s) (v_byte s1) (v_byte s)); [|intros c Hcc; apply Hc; lia|].
  - exists s1. split; [|done]. unfold first_free. by rewrite range_nil by lia.
Qed.

Lemma Step_frame (s s' : S) f : Step s s' f → v_frame s s'.
Proof. by intros [p []]. Qed.

Lemma alloc_choice_Some t f hint total c : 2 ≤ alloc_start hint total ≤ total + 2 →
  alloc_choice t f hint total = Some c → 2 ≤ c < total + 2 ∧ entry_free t f c = true.
Proof.
  intros Ha. unfold alloc_choice. destruct (first_free t f _ (total + 2)) as [c'|] eqn:E.
  - intros [= ->]. apply first_free_Some in E. split; [lia|tauto].
  - intros E2%first_free_Some. split; [lia|tauto].
Qed.

Lemma alloc_choice_None t f hint total c : 2 ≤ alloc_start hint total ≤ total + 2 →
  alloc_choice t f hint total = None → 2 ≤ c < total + 2 → entry_free t f c = false.
Proof.
  intros Ha. unfold alloc_choice. destruct (first_free t f _ (total + 2)) as [c'|] eqn:E; [done|]. intros E2 Hc.
  destruct (decide (c < alloc_start hint total)); [eapply first_free_None; [exact E2|lia]|eapply first_free_None; [exact E|lia]].
Qed.

Lemma alloc_start_range hint total : 1 ≤ total → (∀ n, hint = Some n → 2 ≤ n) →
  2 ≤ alloc_start hint total ≤ total + 2.
Proof. intros Ht Hh. unfold alloc_start. destruct hint as [n|]; [specialize (Hh n eq_refl); case_bool; lia|lia]. Qed.

Lemma stops_max t total c : total ≤ max_clusters t → c < total + 2 → c < stops t.
Proof.
  intros H1 H2. destruct t; cbn in *; unfold FAT16_MIN_CLUSTERS, FAT32_MIN_CLUSTERS, FAT32_MAX_CLUSTERS in *; lia.
Qed.

(** What a successful allocation of [c] after [prev] does to the table. *)
Record Allocated (t : FatType) (total : Z) (s s' : S) (prev : option Z) (c : Z) : Prop := {
  al_ok : v_ok s';
  al_size : v_size s' = v_size s;
  al_frame : v_frame s s';
  al_range : 2 ≤ c < total + 2;
  al_free : entry t (v_byte s) c = Free;
  al_end : entry t (v_byte s') c = EndOfChain;
  al_prev p : prev = Some p → entry t (v_byte s') p = Data c;
  al_other c' : in_table t (v_size s) c' → c' ≠ c → prev ≠ Some c' →
    entry_raw t (v_byte s') c' = entry_raw t (v_byte s) c';
  al_count : num_free t (v_byte s') 2 (total + 2) + 1 = num_free t (v_byte s) 2 (total + 2);
}.

(** Storing the end mark and the link. *)
Lemma alloc_link_ok t (s s0 : S) prev total c : total ≤ max_clusters t →
  (∀ c, 0 ≤ c < total + 2 → in_table t (v_size s) c) →
  (∀ p, prev = Some p → 2 ≤ p < total + 2 ∧ entry t (v_byte s) p ≠ Free) →
  v_ok s → Step s s0 (v_byte s) → 2 ≤ c < total + 2 → entry_free t (v_byte s) c = true →
  ∃ s', (let? (_, fat) := write_fat s0 t c EndOfChain in
      let? (_, fat) := match prev with Some n => write_fat fat t n (Data c) | None => Ret (Ok tt, fat) end in
      Ret (Ok c, fat)) = Ret (Ok c, s') ∧ Allocated t total s s' prev c.
Proof.
  intros Hmax Hc Hp Hok St Hcr Hfree. destruct (Step_ok _ _ _ St) as (Hok0 & Hs0 & Hb0).
  assert (∀ c', in_table t (v_size s) c' → entry_raw t (v_byte s0) c' = entry_raw t (v_byte s) c') as Hraw0.
  { intros c' Hc'. by apply (entry_raw_agree t (v_size s)). }
  destruct (write_fat_stored t s0 c EndOfChain) as (s1 & -> & W1); [done|rewrite Hs0; apply Hc; lia|done|]. run.
  assert (entry t (v_byte s) c = Free) as HF by (eapply entry_Free_iff; [apply Hc; lia|done]).
  assert (∃ s', match prev with Some n => write_fat s1 t n (Data c) | None => Ret (Ok tt, s1) end = Ret (Ok tt, s') ∧
    v_ok s' ∧ v_size s' = v_size s ∧ v_frame s1 s' ∧ entry t (v_byte s') c = EndOfChain ∧
    (∀ p, prev = Some p → entry t (v_byte s') p = Data c) ∧
    (∀ c', in_table t (v_size s) c' → c' ≠ c → prev ≠ Some c' → entry_raw t (v_byte s') c' = entry_raw t (v_byte s) c'))
    as (s' & -> & Hok' & Hs' & Hf' & He & Hprev & Hoth).
  { destruct W1. destruct prev as [p|].
    - destruct (Hp p eq_refl) as [Hpr Hpf].
      destruct (write_fat_stored t s1 p (Data c)) as (s2 & E2 & W2); [done|rewrite st_size0, Hs0; apply Hc; lia
        |cbn; pose proof (stops_max t total c Hmax); lia|].
      pose proof W2 as []. exists s2. split_and!; [done|done|congruence|done| | |].
      + rewrite <- st_eq0. apply entry_raw_eq, st_ne1; [rewrite st_size0, Hs0; apply Hc; lia|congruence].
      + intros p' [= <-]. done.
      + intros c' Hc' Hn1 Hn2. rewrite st_ne1, st_ne0, Hraw0; rewrite ?st_size0, ?Hs0; congruence.
    - exists s1. split_and!; [done|done|congruence|done|done|done|].
      intros c' Hc' Hn1 _. rewrite st_ne0, Hraw0; rewrite ?Hs0; congruence. }
  run. exists s'. split; [done|]. destruct W1. split; try done.
  - etrans; [|exact Hf']. etrans; [by eapply Step_frame|done].
  - pose proof (num_free_change t (v_byte s) (v_byte s') 2 c (total + 2) ltac:(lia)) as N.
    rewrite Hfree in N. replace (entry_free t (v_byte s') c) with false in N.
    + rewrite N; [lia|]. intros c' Hc' Hne. destruct (decide (prev = Some c')) as [->|Hnp].
      * destruct (Hp c' eq_refl) as [_ Hpf].
        destruct (entry_free t (v_byte s) c') eqn:E1; [exfalso; apply Hpf; eapply entry_Free_iff; [apply Hc; lia|done]|].
        destruct (entry_free t (v_byte s') c') eqn:E2; [|done]. exfalso.
        apply (entry_Free_iff t (v_size s)) in E2; [|apply Hc; lia]. rewrite (Hprev c' eq_refl) in E2. done.
      * unfold entry_free. rewrite Hoth by (done || apply Hc; lia). done.
    + symmetry. apply not_true_is_false. intros E. apply (entry_Free_iff t (v_size s)) in E; [|apply Hc; lia]. congruence.
Qed.

Lemma alloc_cluster_ok t (s : S) prev hint total : v_ok s → 1 ≤ total ≤ max_clusters t →
  (∀ c, 0 ≤ c < total + 2 → in_table t (v_size s) c) → (∀ n, hint = Some n → 2 ≤ n) →
  (∀ p, prev = Some p → 2 ≤ p < total + 2 ∧ entry t (v_byte s) p ≠ Free) →
  ∃ s', alloc_cluster s t prev hint total = Ret (found (alloc_choice t (v_byte s) hint total), s') ∧
    match alloc_choice t (v_byte s) hint total with
    | Some c => Allocated t total s s' prev c
    | None => Step s s' (v_byte s)
    end.
Proof.
  intros Hok Ht Hc Hh Hp. assert (total + 2 < 2 ^ 32).
  { destruct (Hc (total + 1) ltac:(lia)) as [? _]. lia. }
  unfold alloc_cluster, RESERVED_FAT_ENTRIES. rewrite add_u_ok by lia. run.
  fold (alloc_start hint total).
  destruct (alloc_search_ok t s hint total) as (s0 & E & St); [done|lia|done|done|intros c Hcc; apply Hc; lia|].
  pose proof (alloc_start_range hint total ltac:(lia) Hh) as Ha.
  destruct (find_free_cluster s t (alloc_start hint total) (total + 2)) as [[r fat]|] eqn:Ef; [|done].
  cbn [mbind out_mbind] in *. rewrite E.
  destruct (alloc_choice t (v_byte s) hint total) as [c|] eqn:Ec; cbn [found bind_result].
  - apply alloc_choice_Some in Ec as [Hcr Hf]; [|done].
    destruct (alloc_link_ok t s s0 prev total c) as (s' & -> & HA); [lia|done|done|done|done|done|done|]. by exists s'.
  - by exists s0.
Qed.

(** ** Chains *)

Inductive chain (t : FatType) (f : Z → Z) : Z → list Z → Prop :=
  | chain_last c : (∀ n, entry t f c ≠ Data n) → chain t f c [c]
  | chain_link c n l : entry t f c = Data n → chain t f n l → chain t f c (c :: l).

Lemma chain_det t f c l1 l2 : chain t f c l1 → chain t f c l2 → l1 = l2.
Proof.
  intros H1. revert l2. induction H1 as [c H|c n l H H1 IH]; intros l2; inversion 1; subst; [done|congruence|congruence|].
  f_equal. apply IH. congruence.
Qed.

Lemma chain_suffix t f c l x : chain t f c l → x ∈ l → ∃ l', chain t f x l' ∧ (length l' ≤ length l)%nat.
Proof.
  induction 1 as [c H|c n l H H1 IH]; intros Hx.
  - apply list_elem_of_singleton in Hx as ->. exists [c]. split; [by constructor|done].
  - apply elem_of_cons in Hx as [->|Hx].
    + exists (c :: l). split; [by econstructor|done].
    + destruct (IH Hx) as (l' & Hl' & Hlen). exists l'. split; [done|cbn; lia].
Qed.

(** A chain that ends visits no cluster twice. *)
Lemma chain_NoDup t f c l : chain t f c l → NoDup l.
Proof.
  induction 1 as [c H|c n l H H1 IH]; [apply NoDup_singleton|]. constructor; [|done]. intros Hin.
  destruct (chain_suffix t f n l c H1 Hin) as (l' & Hl' & Hlen).
  assert (l' = c :: l) as -> by (eapply chain_det; [done|by econstructor]). cbn in Hlen. lia.
Qed.

Lemma chain_ext t f g c l : chain t f c l → (∀ x, x ∈ l → entry t g x = entry t f x) → chain t g c l.
Proof.
  induction 1 as [c H|c n l H H1 IH]; intros E.
  - constructor. intros n. rewrite E by left. apply H.
  - apply (chain_link _ _ c n); [rewrite E by left; done|]. apply IH. intros x Hx. apply E. by right.
Qed.

Definition iter_at (s : S) (t : FatType) (c : option Z) : ClusterIterator S := mkIter s t c false.

(** One step of an iterator. *)
Lemma ci_next_ok t (s : S) c : v_ok s → in_table t (v_size s) c →
  let next := match entry t (v_byte s) c with Data n => Some n | _ => None end in
  ∃ s', ci_next (iter_at s t (Some c)) = Ret (Ok <$> next, iter_at s' t next) ∧ Step s s' (v_byte s).
Proof.
  intros Hok Hc. cbv zeta. destruct (get_next_cluster_ok t s c Hok Hc) as (s' & E & St).
  exists s'. split; [|done]. unfold ci_next. cbn. rewrite E. done.
Qed.

(** A pass of [free] (with [v] = [Free]) and the first step of [truncate] ([EndOfChain]). *)
Lemma ci_pass_ok t (s : S) c v : v_ok s → in_table t (v_size s) c → storable t v →
  let next := match entry t (v_byte s) c with Data n => Some n | _ => None end in
  ∃ r s1 s', ci_next (iter_at s t (Some c)) = Ret (r, iter_at s1 t next) ∧
    ci_write (iter_at s1 t next) c v = Ret (Ok tt, iter_at s' t next) ∧ Stored t s s' c v.
Proof.
  intros Hok Hc Hv. cbv zeta. destruct (ci_next_ok t s c Hok Hc) as (s1 & E1 & St).
  destruct (Step_ok _ _ _ St) as (Hok1 & Hs1 & Hb1).
  destruct (write_fat_stored t s1 c v) as (s' & E2 & []); [done|by rewrite Hs1|done|].
  eexists _, s1, s'. split; [done|]. unfold ci_write. cbn [ci_fat ci_type iter_at ci_cluster ci_err]. rewrite E2. run.
  split; [done|]. split; [done|congruence|by etrans; [eapply Step_frame|]|done|].
  intros c' Hc' Hne. rewrite st_ne0 by (try done; congruence). by apply (entry_raw_agree t (v_size s)).
Qed.

Lemma ci_free_step t (s : S) c fuel k : v_ok s → in_table t (v_size s) c → 0 ≤ k < 2 ^ 32 - 1 →
  let next := match entry t (v_byte s) c with Data n => Some n | _ => None end in
  ∃ s', ci_free (Datatypes.S fuel) (iter_at s t (Some c)) k = ci_free fuel (iter_at s' t next) (k + 1) ∧
    Stored t s s' c Free.
Proof.
  intros Hok Hc Hk. cbv zeta. destruct (ci_pass_ok t s c Free Hok Hc I) as (r & s1 & s' & E1 & E2 & W).
  exists s'. split; [|done]. cbn [ci_free ci_cluster iter_at]. rewrite E1. run. rewrite E2. run.
  by rewrite add_u_ok by lia.
Qed.

(** [s'] is [s] with the entries of [l] free. *)
Record FreedAll (t : FatType) (s s' : S) (l : list Z) : Prop := {
  fa_ok : v_ok s';
  fa_size : v_size s' = v_size s;
  fa_frame : v_frame s s';
  fa_free c : c ∈ l → entry t (v_byte s') c = Free;
  fa_other c : in_table t (v_size s) c → c ∉ l → entry_raw t (v_byte s') c = entry_raw t (v_byte s) c;
}.

Lemma ci_free_done fuel t (s : S) k : ci_free fuel (iter_at s t None) k = Ret (Ok k, iter_at s t None).
Proof. by destruct fuel. Qed.

(** Freeing a chain frees its clusters, and returns how many there are. *)
Lemma ci_free_chain t (s : S) c l fuel k : v_ok s → chain t (v_byte s) c l →
  (∀ x, x ∈ l → in_table t (v_size s) x) → (length l ≤ fuel)%nat → 0 ≤ k → k + zlen l < 2 ^ 32 →
  ∃ s', ci_free fuel (iter_at s t (Some c)) k = Ret (Ok (k + zlen l), iter_at s' t None) ∧ FreedAll t s s' l.
Proof.
  revert s c fuel k. induction l as [|x l IH]; intros s c fuel k Hok Hch Hin Hfuel Hk Hkl; [inversion Hch|].
  destruct fuel as [|fuel]; [cbn in Hfuel; lia|]. pose proof (zlen_nonneg l). rewrite zlen_cons in *.
  pose proof (chain_NoDup _ _ _ _ Hch) as [Hnc Hnd]%NoDup_cons.
  assert (x = c) as -> by (by inversion Hch).
  destruct (ci_free_step t s c fuel k Hok (Hin c ltac:(left)) ltac:(lia)) as (s1 & -> & []).
  inversion Hch as [c' H1 H2|c' n l' Hn Hch']; subst.
  - exists s1. replace (match entry t (v_byte s) c with Data n => Some n | _ => None end) with (@None Z)
      by (destruct (entry t (v_byte s) c) eqn:E; try done; exfalso; by eapply H1).
    rewrite ci_free_done. split; [by rewrite Z.add_0_r|].
    split; [done|done|done| |]; intros c'; rewrite list_elem_of_singleton; intros; subst; auto.
  - rewrite Hn. destruct (IH s1 n fuel (k + 1)) as (s' & -> & []); [done| | |cbn in Hfuel; lia|lia|lia|].
    + eapply chain_ext; [exact Hch'|]. intros x Hx. apply entry_raw_eq, st_ne0; [apply Hin; by right|congruence].
    + intros x Hx. rewrite st_size0. apply Hin. by right.
    + exists s'. split; [by rewrite <- Z.add_assoc|]. split; [done|congruence|by etrans| |].
      * intros x Hx. destruct (decide (x ∈ l)); [by apply fa_free0|]. apply elem_of_cons in Hx as [->|?]; [|done].
        rewrite <- st_eq0. apply entry_raw_eq, fa_other0; [rewrite st_size0; apply Hin; left|done].
      * intros x Hx Hnx. apply not_elem_of_cons in Hnx as [? ?].
        rewrite fa_other0, st_ne0; [done|done|done|by rewrite st_size0|done].
Qed.

(** Cutting a chain after its first cluster. *)
Lemma ci_truncate_chain t (s : S) c l fuel : v_ok s → chain t (v_byte s) c (c :: l) →
  (∀ x, x ∈ c :: l → in_table t (v_size s) x) → (length l ≤ fuel)%nat → zlen l < 2 ^ 32 - 1 →
  ∃ s', ci_truncate fuel (iter_at s t (Some c)) = Ret (Ok (zlen l), iter_at s' t None) ∧
    v_ok s' ∧ v_size s' = v_size s ∧ v_frame s s' ∧ entry t (v_byte s') c = EndOfChain ∧
    (∀ x, x ∈ l → entry t (v_byte s') x = Free) ∧
    (∀ x, in_table t (v_size s) x → x ∉ c :: l → entry_raw t (v_byte s') x = entry_raw t (v_byte s) x).
Proof.
  intros Hok Hch Hin Hfuel Hl. pose proof (chain_NoDup _ _ _ _ Hch) as [Hnc Hnd]%NoDup_cons.
  destruct (ci_pass_ok t s c EndOfChain Hok (Hin c ltac:(left)) I) as (r & s1 & s2 & E1 & E2 & W).
  unfold ci_truncate. cbn [ci_cluster iter_at] in *. rewrite E1. run. rewrite E2. run. clear E1 E2. destruct W.
  inversion Hch as [c' H1 H2|c' n l' Hn Hch']; subst.
  - exists s2. replace (match entry t (v_byte s) c with Data n => Some n | _ => None end) with (@None Z)
      by (destruct (entry t (v_byte s) c) eqn:E; try done; exfalso; by eapply H1).
    rewrite ci_free_done. split_and!; try done; [intros x Hx; inversion Hx|].
    intros x Hx [? _]%not_elem_of_cons. by apply st_ne0.
  - rewrite Hn. destruct (ci_free_chain t s2 n l fuel 0) as (s' & -> & []); [done| | |done|lia|lia|].
    + eapply chain_ext; [exact Hch'|]. intros x Hx. apply entry_raw_eq, st_ne0; [apply Hin; by right|congruence].
    + intros x Hx. rewrite st_size0. apply Hin. by right.
    + exists s'. split_and!; [done|done|congruence|by etrans| |done|].
      * rewrite <- st_eq0. apply entry_raw_eq, fa_other0; [rewrite st_size0; apply Hin; left|done].
      * intros x Hx [? ?]%not_elem_of_cons. rewrite fa_other0, st_ne0; [done|done|done|by rewrite st_size0|done].
Qed.

(** ** Any table: links that stay in the table, but may form loops *)

Definition link (t : FatType) (f : Z → Z) (c n : Z) : Prop := entry t f c = Data n.

Definition closed (t : FatType) (f : Z → Z) (N : Z) : Prop :=
  ∀ c n, 2 ≤ c < N → link t f c n → 2 ≤ n < N.

Lemma reach_in t f N c x : closed t f N → 2 ≤ c < N → rtc (link t f) c x → 2 ≤ x < N.
Proof. intros Hcl Hc H. revert Hc. induction H as [|c n x Hl _ IH]; intros Hc; [done|]. apply IH. by eapply Hcl. Qed.

(** Freeing [c] keeps what its successor reaches, up to [c] itself. *)
Lemma reach_freed t f g N c n x : closed t f N → 2 ≤ c < N → link t f c n →
  (∀ y, 2 ≤ y < N → y ≠ c → entry t g y = entry t f y) →
  rtc (link t f) c x → x = c ∨ rtc (link t g) n x.
Proof.
  intros Hcl Hc Hl Hg. revert x. apply rtc_ind_r; [by left|]. intros y z Hcy Hyz IH. right.
  pose proof (reach_in t f N c y Hcl Hc Hcy) as Hy.
  assert (y = c → z = n) as Hyc by (intros ->; unfold link in *; congruence).
  destruct (decide (y = c)) as [->|Hne]; [rewrite Hyc by done; apply rtc_refl|].
  destruct IH as [->|IH]; [done|]. eapply rtc_r; [exact IH|]. unfold link. by rewrite Hg.
Qed.

Lemma reach_kept t f g c N x y : closed t f N → 2 ≤ x < N → entry t g c = Free →
  (∀ y, 2 ≤ y < N → y ≠ c → entry t g y = entry t f y) →
  rtc (link t g) x y → rtc (link t f) x y.
Proof.
  intros Hcl Hx Hc Hg H. revert Hx. induction H as [|x z y Hl _ IH]; intros Hx; [apply rtc_refl|].
  unfold link in Hl. destruct (decide (x = c)) as [->|Hne]; [congruence|]. rewrite Hg in Hl by done.
  eapply rtc_l; [exact Hl|]. apply IH. by eapply Hcl.
Qed.

Lemma closed_freed t f g N c : closed t f N → entry t g c = Free →
  (∀ y, 2 ≤ y < N → y ≠ c → entry t g y = entry t f y) → closed t g N.
Proof.
  intros Hcl Hc Hg y z Hy Hl. unfold link in Hl. destruct (decide (y = c)) as [->|Hne]; [congruence|].
  rewrite Hg in Hl by done. by eapply Hcl.
Qed.

Lemma next_cases v : (∃ n, v = Data n ∧ (match v with Data n => Some n | _ => None end) = Some n) ∨
  (∀ n, v ≠ Data n) ∧ (match v with Data n => Some n | _ => None end) = @None Z.
Proof. destruct v; [right|left|right|right]; eauto. Qed.

(** Freeing an entry in use makes one more free. *)
Lemma num_free_freed t (s s1 : S) N c : (∀ x, 2 ≤ x < N → in_table t (v_size s) x) → 2 ≤ c < N →
  Stored t s s1 c Free → entry t (v_byte s) c ≠ Free →
  num_free t (v_byte s1) 2 N = num_free t (v_byte s) 2 N + 1.
Proof.
  intros Hin Hc [] Hne. pose proof (num_free_change t (v_byte s) (v_byte s1) 2 c N ltac:(lia)) as Nc.
  replace (entry_free t (v_byte s) c) with false in Nc.
  2: { symmetry. apply not_true_is_false. intros E'. apply (entry_Free_iff t (v_size s)) in E'; [congruence|auto]. }
  rewrite (proj1 (entry_Free_iff t (v_size s) _ c (Hin c Hc)) st_eq0) in Nc.
  rewrite <- Nc; [lia|]. intros y Hy Hy'. unfold entry_free. rewrite st_ne0; auto.
Qed.

(** What freeing from [c] does to a table with any links: it returns, after as many
    passes as there are entries in use at most. *)
Lemma ci_free_any t (s : S) N c fuel k : v_ok s → (∀ x, 2 ≤ x < N → in_table t (v_size s) x) →
  closed t (v_byte s) N → 2 ≤ c < N → N - 2 - num_free t (v_byte s) 2 N < Z.of_nat fuel →
  0 ≤ k → k + (N - 2 - num_free t (v_byte s) 2 N) + 1 < 2 ^ 32 →
  ∃ n s', ci_free fuel (iter_at s t (Some c)) k = Ret (Ok (k + n), iter_at s' t None) ∧
    1 ≤ n ≤ N - 2 - num_free t (v_byte s) 2 N + 1 ∧ v_ok s' ∧ v_size s' = v_size s ∧ v_frame s s' ∧
    (∀ x, rtc (link t (v_byte s)) c x → entry t (v_byte s') x = Free) ∧
    (∀ x, 2 ≤ x < N → entry t (v_byte s) x = Free → entry t (v_byte s') x = Free) ∧
    (∀ x, in_table t (v_size s) x → ¬ rtc (link t (v_byte s)) c x →
      entry_raw t (v_byte s') x = entry_raw t (v_byte s) x).
Proof.
  revert s c k. induction fuel as [|fuel IH]; intros s c k Hok Hin Hcl Hc Hfuel Hk Hkb.
  { pose proof (num_free_le t (v_byte s) 2 N ltac:(lia)). lia. }
  pose proof (num_free_le t (v_byte s) 2 N ltac:(lia)) as HN.
  destruct (ci_free_step t s c fuel k Hok (Hin c Hc) ltac:(lia)) as (s1 & -> & []).
  assert (∀ y, 2 ≤ y < N → y ≠ c → entry t (v_byte s1) y = entry t (v_byte s) y) as Hsame.
  { intros y Hy Hne. apply entry_raw_eq, st_ne0; auto. }
  assert (∀ y, 2 ≤ y < N → entry t (v_byte s) y = Free → entry t (v_byte s1) y = Free) as Hkeep.
  { intros y Hy Hfy. destruct (decide (y = c)) as [->|Hne]; [done|by rewrite Hsame]. }
  destruct (next_cases (entry t (v_byte s) c)) as [(n & E & ->)|[Hno ->]].
  - assert (2 ≤ n < N) as Hn by (by eapply Hcl).
    assert (num_free t (v_byte s1) 2 N = num_free t (v_byte s) 2 N + 1) as Nc
      by (eapply (num_free_freed t s s1 N c); eauto; [split; eauto|congruence]).
    destruct (IH s1 n (k + 1)) as (m & s' & -> & Hm & Hok' & Hs' & Hf' & Hfree & Hk' & Hoth);
      rewrite ?Nc, ?st_size0; try lia; auto; [by eapply closed_freed|].
    exists (1 + m), s'. split; [do 3 f_equal; lia|]. split_and!; [lia|lia|done|congruence|by etrans| | |].
    + intros x Hx. destruct (reach_freed t (v_byte s) (v_byte s1) N c n x Hcl Hc E Hsame Hx) as [->|Hr]; auto.
    + intros x Hx Hfx. apply Hk'; auto.
    + intros x Hx Hnr. assert (x ≠ c) by (intros ->; apply Hnr, rtc_refl).
      rewrite Hoth, st_ne0; [done|done|done|by rewrite st_size0|]. intros Hr. apply Hnr.
      eapply rtc_l; [exact E|]. by eapply (reach_kept t (v_byte s) (v_byte s1) c N).
  - rewrite ci_free_done. exists 1, s1. split; [done|]. split_and!; [lia|lia|done|done|done| |done|].
    + intros x Hx. apply rtc_inv in Hx as [->|(y & Hl & _)]; [done|]. exfalso. by eapply Hno.
    + intros x Hx Hnr. apply st_ne0; [done|]. intros ->. apply Hnr, rtc_refl.
Qed.

End TableProofs.

(** ** Theorems *)

Section TableTheorems.
Context {P : Profile} {S : Type} {ST : Storage S} {V : View S} {FS : FlatStorage S}.

(** [C19] Storing a value in an entry of a FAT12, FAT16 or FAT32 and reading it back gives
    the value; any other entry, also the FAT12 neighbour that shares a byte, reads as
    before, and nothing besides the table changes. *)
Theorem write_read_fat (t : FatType) (s : S) (c c' : Z) (v : FatValue)
    (Hok : v_ok s) (Hc : in_table t (v_size s) c) (Hc' : in_table t (v_size s) c')
    (Hne : c' ≠ c) (Hv : storable t v) :
  ∃ s1 s2 s3 s4 w, write_fat s t c v = Ret (Ok tt, s1) ∧ read_fat s1 t c = Ret (Ok v, s2) ∧
    read_fat s t c' = Ret (Ok w, s3) ∧ read_fat s1 t c' = Ret (Ok w, s4) ∧ v_frame s s1.
Proof.
  destruct (write_fat_stored t s c v Hok Hc Hv) as (s1 & E1 & []).
  destruct (read_fat_ok t s1 c) as (s2 & E2 & _); [done|by rewrite st_size0|].
  destruct (read_fat_ok t s c' Hok Hc') as (s3 & E3 & _).
  destruct (read_fat_ok t s1 c') as (s4 & E4 & _); [done|by rewrite st_size0|].
  exists s1, s2, s3, s4, (entry t (v_byte s) c'). rewrite E2, st_eq0, E4.
  split_and!; [done|done|done| |done]. do 3 f_equal. by apply entry_raw_eq, st_ne0.
Qed.

(** The searches one entry at a time, with [get_raw]. *)
Fixpoint find_ref (t : FatType) (l : list Z) (s : S) : out (result Error Z * S) :=
  match l with
  | [] => Ret (Err NotEnoughSpace, s)
  | c :: l => let? (raw, s) := get_raw s t c in if raw =? 0 then Ret (Ok c, s) else find_ref t l s
  end.

Fixpoint count_ref (t : FatType) (l : list Z) (s : S) (n : Z) : out (result Error Z * S) :=
  match l with
  | [] => Ret (Ok n, s)
  | c :: l => let? (raw, s) := get_raw s t c in count_ref t l s (if raw =? 0 then n + 1 else n)
  end.

Lemma find_ref_ok t (s : S) a b : v_ok s → (∀ c, a ≤ c < b → in_table t (v_size s) c) →
  ∃ s', find_ref t (range a b) s = Ret (found (first_free t (v_byte s) a b), s').
Proof.
  remember (Z.to_nat (b - a)) as n eqn:Hn. revert a s Hn. induction n as [|n IH]; intros a s Hn Hok Hc.
  - unfold first_free. rewrite range_nil by lia. by exists s.
  - rewrite first_free_cons, range_cons by lia. destruct (get_raw_ok t s a Hok (Hc a ltac:(lia))) as (s1 & E & St).
    cbn [find_ref]. rewrite E. run. destruct (Step_ok _ _ _ St) as (Hok1 & Hs1 & Hb1). unfold entry_free.
    case_bool; [by exists s1|]. destruct (IH (a + 1) s1) as (s' & ->); [lia|done|intros c Hcc; rewrite Hs1; apply Hc; lia|].
    exists s'. by rewrite (first_free_agree t (v_size s) _ (v_byte s)); [|intros c Hcc; apply Hc; lia|].
Qed.

Lemma count_ref_ok t (s : S) a b k : v_ok s → a ≤ b → (∀ c, a ≤ c < b → in_table t (v_size s) c) →
  ∃ s', count_ref t (range a b) s k = Ret (Ok (k + num_free t (v_byte s) a b), s').
Proof.
  remember (Z.to_nat (b - a)) as n eqn:Hn. revert a s k Hn. induction n as [|n IH]; intros a s k Hn Hok Hab Hc.
  - unfold num_free. rewrite range_nil by lia. exists s. by rewrite Z.add_0_r.
  - rewrite num_free_cons, range_cons by lia. destruct (get_raw_ok t s a Hok (Hc a ltac:(lia))) as (s1 & E & St).
    cbn [count_ref]. rewrite E. run. destruct (Step_ok _ _ _ St) as (Hok1 & Hs1 & Hb1).
    destruct (IH (a + 1) s1 (if entry_raw t (v_byte s) a =? 0 then k + 1 else k)) as (s' & ->);
      [lia|done|lia|intros c Hcc; rewrite Hs1; apply Hc; lia|].
    exists s'. rewrite (num_free_agree t (v_size s) _ (v_byte s)); [|intros c Hcc; apply Hc; lia|done].
    do 3 f_equal. unfold entry_free. case_bool; lia.
Qed.

(** [C24] The searches that run through the table byte by byte, with FAT12 entries that
    straddle bytes, are the searches that read one entry at a time: [find_free] returns
    the first cluster in its range whose entry is 0, or an error when there is none, and
    [count_free] the number of entries that are 0; neither changes the table. *)
Theorem scans_equiv (t : FatType) (s : S) (a b total : Z)
    (Hok : v_ok s) (Hab : 0 ≤ a < b) (Hb : b ≤ total + 2) (Ht : 1 ≤ total)
    (Hc : ∀ c, 0 ≤ c < total + 2 → in_table t (v_size s) c) :
  (∃ r s1 s2, find_free_cluster s t a b = Ret (r, s1) ∧ find_ref t (range a b) s = Ret (r, s2) ∧
    r = found (first_free t (v_byte s) a b) ∧ Step s s1 (v_byte s)) ∧
  (∃ n s1 s2, count_free_clusters s t total = Ret (Ok n, s1) ∧
    count_ref t (range 2 (total + 2)) s 0 = Ret (Ok n, s2) ∧
    n = num_free t (v_byte s) 2 (total + 2) ∧ Step s s1 (v_byte s)).
Proof.
  assert (total + 2 < 2 ^ 32) by (destruct (Hc (total + 1) ltac:(lia)) as [? _]; lia). split.
  - destruct (find_free_ok t s a b) as (s1 & E1 & St); [done|lia|intros c Hcc; apply Hc; lia|].
    destruct (find_ref_ok t s a b) as (s2 & E2); [done|intros c Hcc; apply Hc; lia|].
    by exists (found (first_free t (v_byte s) a b)), s1, s2.
  - destruct (count_free_ok t s total) as (s1 & E1 & St); [done|lia| |intros c Hcc; apply Hc; lia|lia|].
    { destruct (Hc 2 ltac:(lia)) as [_ ?]. lia. }
    destruct (count_ref_ok t s 2 (total + 2) 0) as (s2 & E2); [done|lia|intros c Hcc; apply Hc; lia|].
    by exists (num_free t (v_byte s) 2 (total + 2)), s1, s2.
Qed.

(** Allocating a cluster on a volume with [total] clusters takes the first free one
    from the hint on, wrapping around at the end: it becomes the end of a chain, the
    previous cluster links to it, every other entry keeps its number and one less is
    free. If no cluster is free it fails with [NotEnoughSpace] and changes nothing. *)
Theorem alloc_cluster_spec (t : FatType) (s : S) (prev hint : option Z) (total : Z)
    (Hok : v_ok s) (Ht : 1 ≤ total ≤ max_clusters t)
    (Hc : ∀ c, 0 ≤ c < total + 2 → in_table t (v_size s) c)
    (Hh : ∀ n, hint = Some n → 2 ≤ n)
    (Hp : ∀ p, prev = Some p → 2 ≤ p < total + 2 ∧ entry t (v_byte s) p ≠ Free) :
  ∃ s', match alloc_choice t (v_byte s) hint total with
    | Some c => alloc_cluster s t prev hint total = Ret (Ok c, s') ∧ Allocated t total s s' prev c
    | None => alloc_cluster s t prev hint total = Ret (Err NotEnoughSpace, s') ∧
        (∀ c, 2 ≤ c < total + 2 → entry t (v_byte s) c ≠ Free) ∧ Step s s' (v_byte s)
    end.
Proof.
  destruct (alloc_cluster_ok t s prev hint total) as (s' & E & H); [done..|]. exists s'. rewrite E.
  destruct (alloc_choice t (v_byte s) hint total) as [c|] eqn:Ec; [done|]. split_and!; [done| |done].
  intros c Hcc F. apply (entry_Free_iff t (v_size s)) in F; [|apply Hc; lia].
  rewrite (alloc_choice_None t (v_byte s) hint total c (alloc_start_range hint total ltac:(lia) Hh) Ec Hcc) in F. done.
Qed.

(** [C27] Freeing a chain returns, whatever the links of the table are as long as they stay
    in it (they may merge or form a loop): it takes at most one pass more than there are
    entries in use, frees exactly the clusters that can be reached from the first one,
    and changes no other entry and nothing besides the table. *)
Theorem free_terminates (t : FatType) (s : S) (N c : Z) (fuel : nat)
    (Hok : v_ok s) (Hin : ∀ x, 2 ≤ x < N → in_table t (v_size s) x)
    (Hcl : closed t (v_byte s) N) (Hc : 2 ≤ c < N) (Hfuel : N - 1 ≤ Z.of_nat fuel) :
  ∃ n s', ci_free fuel (ClusterIterator_new s t c) 0 = Ret (Ok n, mkIter s' t None false) ∧
    1 ≤ n ≤ N - 1 - num_free t (v_byte s) 2 N ∧ v_frame s s' ∧
    (∀ x, rtc (link t (v_byte s)) c x → entry t (v_byte s') x = Free) ∧
    (∀ x, in_table t (v_size s) x → ¬ rtc (link t (v_byte s)) c x →
      entry t (v_byte s') x = entry t (v_byte s) x).
Proof.
  pose proof (num_free_le t (v_byte s) 2 N ltac:(lia)) as HN.
  assert (N ≤ 0x0FFFFFF7) by (destruct (Hin (N - 1) ltac:(lia)) as [? _]; lia).
  destruct (ci_free_any t s N c fuel 0) as (n & s' & E & Hn & Hok' & Hs' & Hf' & Hfree & _ & Hoth);
    [done|done|done|done|lia|lia|lia|].
  exists n, s'. split; [exact E|]. split_and!; [lia|lia|done|done|].
  intros x Hx Hnr. by apply entry_raw_eq, Hoth.
Qed.

(** Cutting a chain after its first cluster: the cluster becomes the end of a chain,
    the rest of the chain is free and counted, every other entry keeps its value. *)
Theorem truncate_spec (t : FatType) (s : S) (c : Z) (l : list Z) (fuel : nat)
    (Hok : v_ok s) (Hch : chain t (v_byte s) c (c :: l))
    (Hin : ∀ x, x ∈ c :: l → in_table t (v_size s) x)
    (Hfuel : (length l ≤ fuel)%nat) (Hl : zlen l < 2 ^ 32 - 1) :
  ∃ s', ci_truncate fuel (ClusterIterator_new s t c) = Ret (Ok (zlen l), mkIter s' t None false) ∧
    chain t (v_byte s') c [c] ∧ (∀ x, x ∈ l → entry t (v_byte s') x = Free) ∧
    (∀ x, in_table t (v_size s) x → x ∉ c :: l → entry t (v_byte s') x = entry t (v_byte s) x) ∧
    v_frame s s'.
Proof.
  destruct (ci_truncate_chain t s c l fuel) as (s' & E & _ & _ & Hf & He & Hfree & Hoth); [done..|].
  exists s'. split; [exact E|]. split_and!; [constructor; intros n; congruence|done| |done].
  intros x Hx Hn. by apply entry_raw_eq, Hoth.
Qed.

End TableTheorems.

(** ** Examples: the tables of the crate's unit tests

    The FAT12 of 32 entries, as the second window of a buffer that holds it twice and
    transfers three bytes at a time. *)

Section Examples.
Local Existing Instance dev.

Definition sample12 : list Z := [
  0xF0; 0xFF; 0xFF; 0x03; 0x40; 0x00; 0x05; 0x60; 0x00; 0x07; 0x80; 0x00; 0xFF; 0xAF; 0x00; 0x14; 0xC0; 0x00;
  0x0D; 0xE0; 0x00; 0x0F; 0x00; 0x01; 0x11; 0xF0; 0xFF; 0x00; 0xF0; 0xFF; 0x15; 0x60; 0x01; 0x19; 0x70; 0xFF;
  0xF7; 0xAF; 0x01; 0xFF; 0x0F; 0x00; 0x00; 0x70; 0xFF; 0x00; 0x00; 0x00].

Definition sample_fat : DiskSlice MemIO := DiskSlice_new 4 48 2 (mkMem ([1; 2; 3; 4] ++ sample12 ++ sample12 ++ [9]) 0 3).

Lemma sample_ok : v_ok sample_fat.
Proof.
  assert (Forall is_byte (mem_bytes (sl_inner sample_fat))) as Hb.
  { apply bytes_forallb. vm_compute. reflexivity. }
  repeat split; try exact Hb; vm_compute; congruence.
Qed.

Lemma sample_in_table c : 0 ≤ c < 32 → in_table Fat12 (v_size sample_fat) c.
Proof.
  intros Hc. split; [lia|]. cbn. pose proof (Z.div_le_upper_bound c 2 15). Z.div_mod_to_equations. lia.
Qed.

(** What the unit tests of the crate check. *)
Example sample_reads :
  (fst <$> read_fat sample_fat Fat12 1) = Ret (Ok EndOfChain) ∧
  (fst <$> read_fat sample_fat Fat12 9) = Ret (Ok (Data 0xA)) ∧
  (fst <$> read_fat sample_fat Fat12 0x12) = Ret (Ok Free) ∧
  (fst <$> read_fat sample_fat Fat12 0x17) = Ret (Ok Bad) ∧
  (fst <$> find_free_cluster sample_fat Fat12 0x13 0x20) = Ret (Ok 0x1B) ∧
  (fst <$> count_free_clusters sample_fat Fat12 0x1E) = Ret (Ok 5).
Proof. vm_compute. split_and!; reflexivity. Qed.

Lemma write_read_fat_witness :
  ∃ s1 s2 s3 s4 w, write_fat sample_fat Fat12 0x12 (Data 0x1B) = Ret (Ok tt, s1) ∧
    read_fat s1 Fat12 0x12 = Ret (Ok (Data 0x1B), s2) ∧
    read_fat sample_fat Fat12 0x13 = Ret (Ok w, s3) ∧ read_fat s1 Fat12 0x13 = Ret (Ok w, s4) ∧
    v_frame sample_fat s1.
Proof.
  apply (write_read_fat Fat12 sample_fat 0x12 0x13 (Data 0x1B));
    [exact sample_ok|apply sample_in_table; lia|apply sample_in_table; lia|lia|cbn; lia].
Defined.

Lemma scans_equiv_witness :
  (∃ r s1 s2, find_free_cluster sample_fat Fat12 0x13 0x20 = Ret (r, s1) ∧
    find_ref Fat12 (range 0x13 0x20) sample_fat = Ret (r, s2) ∧
    r = found (first_free Fat12 (v_byte sample_fat) 0x13 0x20) ∧ Step sample_fat s1 (v_byte sample_fat)) ∧
  (∃ n s1 s2, count_free_clusters sample_fat Fat12 0x1E = Ret (Ok n, s1) ∧
    count_ref Fat12 (range 2 (0x1E + 2)) sample_fat 0 = Ret (Ok n, s2) ∧
    n = num_free Fat12 (v_byte sample_fat) 2 (0x1E + 2) ∧ Step sample_fat s1 (v_byte sample_fat)).
Proof.
  apply (scans_equiv Fat12 sample_fat 0x13 0x20 0x1E);
    [exact sample_ok|lia|lia|lia|intros c Hc; apply sample_in_table; lia].
Defined.

Lemma alloc_cluster_spec_witness :
  ∃ s', alloc_cluster sample_fat Fat12 (Some 0x9) (Some 0x13) 0x1E = Ret (Ok 0x1B, s') ∧
    Allocated Fat12 0x1E sample_fat s' (Some 0x9) 0x1B.
Proof.
  assert (alloc_choice Fat12 (v_byte sample_fat) (Some 0x13) 0x1E = Some 0x1B) as E by (vm_compute; reflexivity).
  assert (entry Fat12 (v_byte sample_fat) 9 ≠ Free) as E9 by (vm_compute; discriminate).
  pose proof (alloc_cluster_spec Fat12 sample_fat (Some 0x9) (Some 0x13) 0x1E sample_ok) as W.
  rewrite E in W. apply W; [vm_compute; split; discriminate|intros c Hc; apply sample_in_table; lia|intros n [= <-]; lia|].
  intros p [= <-]. split; [lia|exact E9].
Defined.

Lemma sample_closed : closed Fat12 (v_byte sample_fat) 32.
Proof.
  intros c n Hc Hl. unfold link in Hl.
  assert (forallb (λ c, match entry Fat12 (v_byte sample_fat) c with Data n => (2 <=? n) && (n <? 32) | _ => true end)
    (range 2 32) = true) as Hall by (vm_compute; reflexivity).
  rewrite forallb_forall in Hall. specialize (Hall c). rewrite Hl in Hall.
  apply andb_true_iff in Hall as [? ?]; [breflect; lia|]. by apply list_elem_of_In, elem_of_range.
Qed.

Lemma free_terminates_witness :
  ∃ n s', ci_free 31 (ClusterIterator_new sample_fat Fat12 9) 0 = Ret (Ok n, mkIter s' Fat12 None false) ∧
    1 ≤ n ≤ 32 - 1 - num_free Fat12 (v_byte sample_fat) 2 32 ∧ v_frame sample_fat s' ∧
    (∀ x, rtc (link Fat12 (v_byte sample_fat)) 9 x → entry Fat12 (v_byte s') x = Free) ∧
    (∀ x, in_table Fat12 (v_size sample_fat) x → ¬ rtc (link Fat12 (v_byte sample_fat)) 9 x →
      entry Fat12 (v_byte s') x = entry Fat12 (v_byte sample_fat) x).
Proof.
  apply (free_terminates Fat12 sample_fat 32 9 31);
    [exact sample_ok|intros x Hx; apply sample_in_table; lia|exact sample_closed|lia|lia].
Defined.

Lemma truncate_spec_witness :
  ∃ s', ci_truncate 5 (ClusterIterator_new sample_fat Fat12 0x15) = Ret (Ok (zlen [0x16; 0x19; 0x1A]), mkIter s' Fat12 None false) ∧
    chain Fat12 (v_byte s') 0x15 [0x15] ∧ (∀ x, x ∈ [0x16; 0x19; 0x1A] → entry Fat12 (v_byte s') x = Free) ∧
    (∀ x, in_table Fat12 (v_size sample_fat) x → x ∉ [0x15; 0x16; 0x19; 0x1A] →
      entry Fat12 (v_byte s') x = entry Fat12 (v_byte sample_fat) x) ∧ v_frame sample_fat s'.
Proof.
  apply (truncate_spec Fat12 sample_fat 0x15 [0x16; 0x19; 0x1A] 5); [exact sample_ok| | |cbn; lia|vm_compute; done].
  - do 3 (eapply chain_link; [vm_compute; reflexivity|]). apply chain_last. intros n. vm_compute. discriminate.
  - intros x Hx. apply sample_in_table. repeat (apply elem_of_cons in Hx as [->|Hx]; [lia|]). inversion Hx.
Defined.

End Examples.
