(* ===== verification/FatTime.v ===== *)
(** * FAT crate: dates and times

    [kernel/crates/good-fatfs/src/time.rs], as the kernel builds it: without the feature
    [chrono], so that the default provider is [NullTimeProvider]. *)

From S2P Require Import Prelude.

Definition MIN_YEAR : Z := 1980.
Definition MAX_YEAR : Z := 2107.
Definition MIN_MONTH : Z := 1.
Definition MAX_MONTH : Z := 12.
Definition MIN_DAY : Z := 1.
Definition MAX_DAY : Z := 31.

Record Date := mkDate { year : Z; month : Z; day : Z }.
Record Time := mkTime { hour : Z; min : Z; sec : Z; millis : Z }.
Record DateTime := mkDateTime { dt_date : Date; dt_time : Time }.

#[export] Instance Date_eq_dec : EqDecision Date.
Proof. solve_decision. Defined.
#[export] Instance Time_eq_dec : EqDecision Time.
Proof. solve_decision. Defined.
#[export] Instance DateTime_eq_dec : EqDecision DateTime.
Proof. solve_decision. Defined.

Section TimeOps.
Context {P : Profile}.

Definition Date_new (year month day : Z) : out Date :=
  _ ← assert ((MIN_YEAR <=? year) && (year <=? MAX_YEAR));
  _ ← assert ((MIN_MONTH <=? month) && (month <=? MAX_MONTH));
  _ ← assert ((MIN_DAY <=? day) && (day <=? MAX_DAY));
  Ret (mkDate year month day).

(** The sum is at most 127 + 1980. *)
Definition Date_decode (dos_date : Z) : Date :=
  mkDate (Z.shiftr dos_date 9 + MIN_YEAR) (Z.land (Z.shiftr dos_date 5) 0xF) (Z.land dos_date 0x1F).

Definition Date_encode (self : Date) : out Z :=
  y ← sub_u 16 (year self) MIN_YEAR;
  Ret (Z.lor (Z.lor (wrap 16 (Z.shiftl y 9)) (wrap 16 (Z.shiftl (month self) 5))) (day self)).

Definition Time_new (hour min sec millis : Z) : out Time :=
  _ ← assert (hour <=? 23);
  _ ← assert (min <=? 59);
  _ ← assert (sec <=? 59);
  _ ← assert (millis <=? 999);
  Ret (mkTime hour min sec millis).

Definition Time_decode (dos_time dos_time_hi_res : Z) : Time :=
  let hour := Z.shiftr dos_time 11 in
  let min := Z.land (Z.shiftr dos_time 5) 0x3F in
  let sec := Z.land dos_time 0x1F * 2 + dos_time_hi_res / 100 in
  let millis := dos_time_hi_res mod 100 * 10 in
  mkTime hour min sec millis.

Definition Time_encode (self : Time) : Z * Z :=
  let dos_time := Z.lor (Z.lor (wrap 16 (Z.shiftl (hour self) 11)) (wrap 16 (Z.shiftl (min self) 5))) (sec self / 2) in
  let dos_time_hi_res := millis self / 10 + sec self mod 2 * 100 in
  (dos_time, wrap 8 dos_time_hi_res).

Definition DateTime_new (date : Date) (time : Time) : DateTime := mkDateTime date time.

Definition DateTime_decode (dos_date dos_time dos_time_hi_res : Z) : DateTime :=
  DateTime_new (Date_decode dos_date) (Time_decode dos_time dos_time_hi_res).

(** ** Time providers *)

Class TimeProvider := {
  get_current_date : Date;
  get_current_date_time : DateTime;
}.

Definition NullTimeProvider : TimeProvider := {|
  get_current_date := Date_decode 0;
  get_current_date_time := DateTime_decode 0 0 0;
|}.

End TimeOps.

(** ** Packed fields *)

Section TimeProofs.
Context {P : Profile}.

Lemma pack_fields a b c n m : 0 ≤ n ≤ m → 0 ≤ a → 0 ≤ b < 2 ^ (m - n) → 0 ≤ c < 2 ^ n →
  Z.lor (Z.lor (Z.shiftl a m) (Z.shiftl b n)) c = a * 2 ^ m + b * 2 ^ n + c.
Proof.
  intros Hn Ha Hb Hc. rewrite !Z.shiftl_mul_pow2 by lia. rewrite (Z.lor_comm (a * 2 ^ m)).
  pose proof (Z.pow_pos_nonneg 2 n). pose proof (Z.pow_pos_nonneg 2 (m - n)).
  assert (2 ^ m = 2 ^ (m - n) * 2 ^ n) as E by (rewrite <- Z.pow_add_r by lia; f_equal; lia).
  rewrite (lor_aligned (b * 2 ^ n) (a * 2 ^ m) m); [|lia| |apply Z.mod_mul; lia].
  - rewrite Z.lor_comm, (lor_aligned c _ n); [lia|lia|lia|].
    rewrite E, Z.mul_assoc, <- Z.mul_add_distr_r. apply Z.mod_mul. lia.
  - rewrite E. nia.
Qed.

Lemma unpack_fields x n m : 0 ≤ n ≤ m → Z.land (Z.shiftr x n) (Z.ones (m - n)) = x / 2 ^ n mod 2 ^ (m - n).
Proof. intros H. by rewrite Z.land_ones, Z.shiftr_div_pow2 by lia. Qed.

(** A date the fields have room for. *)
Definition Date_fits (d : Date) : Prop :=
  MIN_YEAR ≤ year d ≤ MAX_YEAR ∧ 0 ≤ month d < 16 ∧ 0 ≤ day d < 32.

Definition Time_fits (t : Time) : Prop :=
  0 ≤ hour t < 24 ∧ 0 ≤ min t < 60 ∧ 0 ≤ sec t < 60 ∧ 0 ≤ millis t < 1000.

Lemma Date_encode_ok d : Date_fits d →
  Date_encode d = Ret ((year d - MIN_YEAR) * 512 + month d * 32 + day d).
Proof.
  intros (Hy & Hm & Hd). unfold Date_encode, MIN_YEAR, MAX_YEAR in *. rewrite sub_u_ok by lia. run. f_equal.
  rewrite !wrap_small by (rewrite Z.shiftl_mul_pow2 by lia; lia). rewrite (pack_fields _ _ _ 5 9) by lia. lia.
Qed.

Lemma Date_decode_encode d : Date_fits d → (Date_decode <$> Date_encode d) = Ret d.
Proof.
  intros Hf. rewrite (Date_encode_ok d Hf). destruct Hf as (Hy & Hm & Hd). unfold MIN_YEAR, MAX_YEAR in *. cbn. f_equal.
  destruct d as [y m d]. cbn in *. unfold Date_decode, MIN_YEAR. change 0xF with (Z.ones (9 - 5)). change 0x1F with (Z.ones 5).
  rewrite unpack_fields by lia. rewrite Z.land_ones, Z.shiftr_div_pow2 by lia.
  f_equal; Z.div_mod_to_equations; lia.
Qed.

Lemma Date_decode_fits x : 0 ≤ x < 65536 → Date_fits (Date_decode x) ∧ Date_encode (Date_decode x) = Ret x.
Proof.
  intros Hx. assert (Date_fits (Date_decode x)) as Hf.
  { unfold Date_decode, Date_fits, MIN_YEAR, MAX_YEAR. cbn [year month day]. change 0xF with (Z.ones (9 - 5)). change 0x1F with (Z.ones 5).
    rewrite unpack_fields by lia. rewrite Z.land_ones, Z.shiftr_div_pow2 by lia. Z.div_mod_to_equations; lia. }
  split; [done|]. rewrite (Date_encode_ok _ Hf). f_equal. unfold Date_decode, MIN_YEAR. cbn [year month day].
  change 0xF with (Z.ones (9 - 5)). change 0x1F with (Z.ones 5).
  rewrite unpack_fields by lia. rewrite Z.land_ones, Z.shiftr_div_pow2 by lia. Z.div_mod_to_equations; lia.
Qed.

Lemma Time_encode_ok t : Time_fits t →
  Time_encode t = (hour t * 2048 + min t * 32 + sec t / 2, millis t / 10 + sec t mod 2 * 100).
Proof.
  intros (Hh & Hm & Hs & Hl). unfold Time_encode. f_equal.
  - rewrite !wrap_small by (rewrite Z.shiftl_mul_pow2 by lia; lia).
    rewrite (pack_fields _ _ _ 5 11); [lia|lia|lia|lia|]. Z.div_mod_to_equations; lia.
  - apply wrap_small. Z.div_mod_to_equations; lia.
Qed.

(** Times are kept to the hundredth of a second. *)
Lemma Time_decode_encode t : Time_fits t →
  Time_decode (Time_encode t).1 (Time_encode t).2 = mkTime (hour t) (min t) (sec t) (millis t / 10 * 10).
Proof.
  intros Hf. rewrite (Time_encode_ok t Hf). destruct Hf as (Hh & Hm & Hs & Hl). cbn [fst snd]. unfold Time_decode.
  change 0x3F with (Z.ones (11 - 5)). change 0x1F with (Z.ones 5).
  rewrite unpack_fields by lia. rewrite Z.land_ones, Z.shiftr_div_pow2 by lia.
  f_equal; Z.div_mod_to_equations; lia.
Qed.

(** Dates and times survive their packed form: a date in range is decoded as it was
    encoded and every 16-bit date is the encoding of what it decodes to, a time is kept to
    the hundredth of a second. *)
Theorem datetime_roundtrip (d : Date) (t : Time) (x : Z)
    (Hd : Date_fits d) (Ht : Time_fits t) (Hx : 0 ≤ x < 65536) :
  ∃ e, Date_encode d = Ret e ∧ 0 ≤ e < 65536 ∧ Date_encode (Date_decode x) = Ret x ∧
    DateTime_decode e (Time_encode t).1 (Time_encode t).2 =
      mkDateTime d (mkTime (hour t) (min t) (sec t) (millis t / 10 * 10)) ∧
    0 ≤ (Time_encode t).1 < 65536 ∧ 0 ≤ (Time_encode t).2 < 200.
Proof.
  pose proof (Date_decode_encode d Hd) as E. rewrite (Date_encode_ok d Hd) in *. injection E as E.
  eexists. split; [done|]. split; [|split; [by apply Date_decode_fits|split]].
  - destruct Hd as (? & ? & ?). unfold MIN_YEAR, MAX_YEAR in *. lia.
  - unfold DateTime_decode, DateTime_new. by rewrite E, Time_decode_encode.
  - rewrite (Time_encode_ok t Ht). destruct Ht as (? & ? & ? & ?). cbn. Z.div_mod_to_equations; lia.
Qed.

Lemma datetime_roundtrip_witness : ∃ e, Date_encode (mkDate 2055 7 23) = Ret e ∧ 0 ≤ e < 65536 ∧
  Date_encode (Date_decode 38647) = Ret 38647 ∧
  DateTime_decode e (Time_encode (mkTime 15 3 29 998)).1 (Time_encode (mkTime 15 3 29 998)).2 =
    mkDateTime (mkDate 2055 7 23) (mkTime 15 3 29 990) ∧
  0 ≤ (Time_encode (mkTime 15 3 29 998)).1 < 65536 ∧ 0 ≤ (Time_encode (mkTime 15 3 29 998)).2 < 200.
Proof.
  apply (datetime_roundtrip (mkDate 2055 7 23) (mkTime 15 3 29 998) 38647);
    [repeat split; cbn; unfold MIN_YEAR, MAX_YEAR; lia|repeat split; cbn; lia|lia].
Defined.

(** The default provider's date has month 0 and day 0: it is not the first of January
    1980 that its documentation names, and [Date::new] would refuse it. *)
Theorem null_time_is_no_date :
  get_current_date (TimeProvider := NullTimeProvider) = mkDate 1980 0 0 ∧ Date_new 1980 0 0 = Panic.
Proof. by split. Qed.

End TimeProofs.
