(* ===== verification/FatEntry.v ===== *)
(** * FAT crate: directory entries

    The records of [kernel/crates/good-fatfs/src/dir_entry.rs]: short names, file and
    long-name entries with their 32-byte form, and the editor that keeps the entry of an
    open file. Characters are their code points. *)

From S2P Require Import Prelude Crates BlockCache FatIo FatTable FatTime.

(** ** Attributes *)

Definition READ_ONLY : Z := 0x01.
Definition HIDDEN : Z := 0x02.
Definition SYSTEM : Z := 0x04.
Definition VOLUME_ID : Z := 0x08.
Definition DIRECTORY : Z := 0x10.
Definition ARCHIVE : Z := 0x20.
Definition LFN : Z := Z.lor (Z.lor (Z.lor READ_ONLY HIDDEN) SYSTEM) VOLUME_ID.
(** Every flag of the type. *)
Definition ATTRS_ALL : Z := Z.lor (Z.lor LFN DIRECTORY) ARCHIVE.

Definition DIR_ENTRY_SIZE : Z := 32.
Definition DIR_ENTRY_DELETED_FLAG : Z := 0xE5.
Definition DIR_ENTRY_REALLY_E5_FLAG : Z := 0x05.
Definition SFN_SIZE : Z := 11.
Definition SFN_PADDING : Z := 0x20.
Definition LFN_PART_LEN : Z := 13.
Definition LFN_ENTRY_LAST_FLAG : Z := 0x40.

(** [iter().rposition(p)] *)
Fixpoint rposition {A} (p : A → bool) (l : list A) : option Z :=
  match l with
  | [] => None
  | x :: l =>
      match rposition p l with
      | Some n => Some (n + 1)
      | None => if p x then Some 0 else None
      end
  end.

(** [.map_or(0, |p| p + 1)] *)
Definition len_of (o : option Z) : Z := match o with Some p => p + 1 | None => 0 end.

(** [c.to_ascii_lowercase()] and [c.to_ascii_uppercase()] *)
Definition to_ascii_lowercase (c : Z) : Z := if (65 <=? c) && (c <=? 90) then c + 32 else c.
Definition to_ascii_uppercase (c : Z) : Z := if (97 <=? c) && (c <=? 122) then c - 32 else c.

(** [LossyOemCpConverter] of [fs.rs]. *)
Definition oem_decode (oem_char : Z) : Z := if oem_char <=? 0x7F then oem_char else 0xFFFD.
Definition oem_encode (uni_char : Z) : option Z := if uni_char <=? 0x7F then Some uni_char else None.

(** [char::to_uppercase], a table of the Unicode standard. *)
Class Unicode := char_to_uppercase : Z → list Z.

(** ** Short names *)

Record ShortName := mkShortName { sn_name : list Z; sn_len : Z }.

(** [dst[a..a + src.len()].copy_from_slice(src)] *)
Definition copy_at {A} (dst : list A) (a : Z) (src : list A) : out (list A) :=
  _ ← slice dst a (a + zlen src);
  Ret (splice dst a src).

Definition ShortName_new (raw_name : list Z) : out ShortName :=
  base ← slice raw_name 0 8;
  let name_len := len_of (rposition (λ x, negb (x =? SFN_PADDING)) base) in
  ext ← slice raw_name 8 11;
  let ext_len := len_of (rposition (λ x, negb (x =? SFN_PADDING)) ext) in
  let name := replicate 12 SFN_PADDING in
  src ← slice raw_name 0 name_len;
  name ← copy_at name 0 src;
  '(name, total_len) ←
    (if 0 <? ext_len then
      name ← store name name_len 0x2E;
      src ← slice raw_name 8 (8 + ext_len);
      name ← copy_at name (name_len + 1) src;
      Ret (name, name_len + 1 + ext_len)
    else Ret (name, name_len));
  first ← index name 0;
  name ← (if first =? DIR_ENTRY_REALLY_E5_FLAG then store name 0 0xE5 else Ret name);
  Ret (mkShortName name (wrap 8 total_len)).

Definition sn_as_bytes (self : ShortName) : out (list Z) := slice (sn_name self) 0 (sn_len self).

Definition sn_to_string (self : ShortName) : out (list Z) :=
  bytes ← sn_as_bytes self; Ret (map oem_decode bytes).

Definition sn_eq_ignore_case {U : Unicode} (self : ShortName) (name : list Z) : out bool :=
  bytes ← sn_as_bytes self;
  Ret (bool_decide (flat_map char_to_uppercase (map oem_decode bytes) = flat_map char_to_uppercase name)).

(** ** File entries *)

Record DirFileEntryData := mkEntry {
  e_name : list Z;
  e_attrs : Z;
  e_reserved_0 : Z;
  e_create_time_0 : Z;
  e_create_time_1 : Z;
  e_create_date : Z;
  e_access_date : Z;
  e_first_cluster_hi : Z;
  e_modify_time : Z;
  e_modify_date : Z;
  e_first_cluster_lo : Z;
  e_size : Z;
}.

Definition DirFileEntryData_default : DirFileEntryData := mkEntry (zeros 11) 0 0 0 0 0 0 0 0 0 0 0.

Definition DirFileEntryData_new (name : list Z) (attrs : Z) : DirFileEntryData :=
  mkEntry name attrs 0 0 0 0 0 0 0 0 0 0.

(** The entry with some of its fields replaced. *)
Definition e_set_name (e : DirFileEntryData) (name : list Z) : DirFileEntryData :=
  mkEntry name (e_attrs e) (e_reserved_0 e) (e_create_time_0 e) (e_create_time_1 e) (e_create_date e)
    (e_access_date e) (e_first_cluster_hi e) (e_modify_time e) (e_modify_date e) (e_first_cluster_lo e) (e_size e).
Definition e_set_cluster (e : DirFileEntryData) (hi lo : Z) : DirFileEntryData :=
  mkEntry (e_name e) (e_attrs e) (e_reserved_0 e) (e_create_time_0 e) (e_create_time_1 e) (e_create_date e)
    (e_access_date e) hi (e_modify_time e) (e_modify_date e) lo (e_size e).
Definition e_set_size (e : DirFileEntryData) (size : Z) : DirFileEntryData :=
  mkEntry (e_name e) (e_attrs e) (e_reserved_0 e) (e_create_time_0 e) (e_create_time_1 e) (e_create_date e)
    (e_access_date e) (e_first_cluster_hi e) (e_modify_time e) (e_modify_date e) (e_first_cluster_lo e) size.

Section Entries.
Context {P : Profile} {BF : Bitflags}.
Implicit Types self : DirFileEntryData.

Definition renamed self (new_name : list Z) : DirFileEntryData := e_set_name self new_name.

Definition first_cluster self (fat_type : FatType) : option Z :=
  let first_cluster_hi := if decide (fat_type = Fat32) then e_first_cluster_hi self else 0 in
  let n := Z.lor (wrap 32 (Z.shiftl first_cluster_hi 16)) (e_first_cluster_lo self) in
  if n =? 0 then None else Some n.

Definition set_first_cluster self (cluster : option Z) (fat_type : FatType) : DirFileEntryData :=
  let n := default 0 cluster in
  e_set_cluster self
    (if decide (fat_type = Fat32) then wrap 16 (Z.shiftr n 16) else e_first_cluster_hi self)
    (wrap 16 (Z.land n 0xFFFF)).

Definition is_dir self : bool := fl_contains (e_attrs self) DIRECTORY.
Definition is_file self : bool := negb (is_dir self).
Definition size self : option Z := if is_file self then Some (e_size self) else None.
Definition is_volume self : bool := fl_contains (e_attrs self) VOLUME_ID.
Definition lowercase_basename self : bool := negb (Z.land (e_reserved_0 self) (Z.shiftl 1 3) =? 0).
Definition lowercase_ext self : bool := negb (Z.land (e_reserved_0 self) (Z.shiftl 1 4) =? 0).

Definition lowercase_name self : out ShortName :=
  let name_copy := e_name self in
  let name_copy := if lowercase_basename self
    then (to_ascii_lowercase <$> take 8 name_copy) ++ drop 8 name_copy else name_copy in
  let name_copy := if lowercase_ext self
    then take 8 name_copy ++ (to_ascii_lowercase <$> drop 8 name_copy) else name_copy in
  ShortName_new name_copy.

Definition created self : DateTime :=
  DateTime_decode (e_create_date self) (e_create_time_1 self) (e_create_time_0 self).
Definition accessed self : Date := Date_decode (e_access_date self).
Definition modified self : DateTime := DateTime_decode (e_modify_date self) (e_modify_time self) 0.

Definition set_created self (date_time : DateTime) : out DirFileEntryData :=
  create_date ← Date_encode (dt_date date_time);
  let encoded_time := Time_encode (dt_time date_time) in
  Ret (mkEntry (e_name self) (e_attrs self) (e_reserved_0 self) encoded_time.2 encoded_time.1 create_date
    (e_access_date self) (e_first_cluster_hi self) (e_modify_time self) (e_modify_date self)
    (e_first_cluster_lo self) (e_size self)).

Definition set_accessed self (date : Date) : out DirFileEntryData :=
  access_date ← Date_encode date;
  Ret (mkEntry (e_name self) (e_attrs self) (e_reserved_0 self) (e_create_time_0 self) (e_create_time_1 self)
    (e_create_date self) access_date (e_first_cluster_hi self) (e_modify_time self) (e_modify_date self)
    (e_first_cluster_lo self) (e_size self)).

Definition set_modified self (date_time : DateTime) : out DirFileEntryData :=
  modify_date ← Date_encode (dt_date date_time);
  Ret (mkEntry (e_name self) (e_attrs self) (e_reserved_0 self) (e_create_time_0 self) (e_create_time_1 self)
    (e_create_date self) (e_access_date self) (e_first_cluster_hi self) (Time_encode (dt_time date_time)).1
    modify_date (e_first_cluster_lo self) (e_size self)).

(** [name[0]] of an array of 11 bytes. *)
Definition is_deleted self : bool := bool_decide (head (e_name self) = Some DIR_ENTRY_DELETED_FLAG).
Definition is_end self : bool := bool_decide (head (e_name self) = Some 0).
Definition set_deleted self : DirFileEntryData := e_set_name self (<[0%nat := DIR_ENTRY_DELETED_FLAG]> (e_name self)).

End Entries.

(** ** Long-name entries *)

Record DirLfnEntryData := mkLfn {
  l_order : Z;
  l_name_0 : list Z;
  l_attrs : Z;
  l_entry_type : Z;
  l_checksum : Z;
  l_name_1 : list Z;
  l_reserved_0 : Z;
  l_name_2 : list Z;
}.

Definition DirLfnEntryData_new (order checksum : Z) : DirLfnEntryData :=
  mkLfn order (zeros 5) LFN 0 checksum (zeros 6) 0 (zeros 2).

Definition copy_name_from_slice (self : DirLfnEntryData) (lfn_part : list Z) : out DirLfnEntryData :=
  name_0 ← slice lfn_part 0 5;
  name_1 ← slice lfn_part 5 (5 + 6);
  name_2 ← slice lfn_part 11 (11 + 2);
  Ret (mkLfn (l_order self) name_0 (l_attrs self) (l_entry_type self) (l_checksum self) name_1 (l_reserved_0 self) name_2).

Definition copy_name_to_slice {P : Profile} (self : DirLfnEntryData) (lfn_part : list Z) : out (list Z) :=
  _ ← debug_assert (zlen lfn_part =? LFN_PART_LEN);
  lfn_part ← copy_at lfn_part 0 (l_name_0 self);
  lfn_part ← copy_at lfn_part 5 (l_name_1 self);
  copy_at lfn_part 11 (l_name_2 self).

Definition lfn_is_deleted (self : DirLfnEntryData) : bool := l_order self =? DIR_ENTRY_DELETED_FLAG.
Definition lfn_is_end (self : DirLfnEntryData) : bool := l_order self =? 0.
Definition lfn_set_deleted (self : DirLfnEntryData) : DirLfnEntryData :=
  mkLfn DIR_ENTRY_DELETED_FLAG (l_name_0 self) (l_attrs self) (l_entry_type self) (l_checksum self)
    (l_name_1 self) (l_reserved_0 self) (l_name_2 self).

(** ** Entries on the disk *)

Inductive DirEntryData := DeFile (file : DirFileEntryData) | DeLfn (lfn : DirLfnEntryData).

Definition de_is_deleted (self : DirEntryData) : bool :=
  match self with DeFile file => is_deleted file | DeLfn lfn => lfn_is_deleted lfn end.
Definition de_set_deleted (self : DirEntryData) : DirEntryData :=
  match self with DeFile file => DeFile (set_deleted file) | DeLfn lfn => DeLfn (lfn_set_deleted lfn) end.
Definition de_is_end (self : DirEntryData) : bool :=
  match self with DeFile file => is_end file | DeLfn lfn => lfn_is_end lfn end.

(** [chunks_exact(2)] with [u16::from_le_bytes] *)
Fixpoint words (l : list Z) : list Z :=
  match l with
  | a :: b :: l => from_le [a; b] :: words l
  | _ => []
  end.

Section Codec.
Context {BF : Bitflags} {S : Type} {ST : Storage S}.

Definition file_serialize (self : DirFileEntryData) (wrt : S) : out (result Error unit * S) :=
  let? (_, wrt) := write_all wrt (e_name self) in
  let? (_, wrt) := write_u8 wrt (e_attrs self) in
  let? (_, wrt) := write_u8 wrt (e_reserved_0 self) in
  let? (_, wrt) := write_u8 wrt (e_create_time_0 self) in
  let? (_, wrt) := write_u16_le wrt (e_create_time_1 self) in
  let? (_, wrt) := write_u16_le wrt (e_create_date self) in
  let? (_, wrt) := write_u16_le wrt (e_access_date self) in
  let? (_, wrt) := write_u16_le wrt (e_first_cluster_hi self) in
  let? (_, wrt) := write_u16_le wrt (e_modify_time self) in
  let? (_, wrt) := write_u16_le wrt (e_modify_date self) in
  let? (_, wrt) := write_u16_le wrt (e_first_cluster_lo self) in
  write_u32_le wrt (e_size self).

Definition write_words (l : list Z) (wrt : S) : out (result Error unit * S) :=
  for_each (λ ch wrt, write_u16_le wrt ch) l wrt.

Definition lfn_serialize (self : DirLfnEntryData) (wrt : S) : out (result Error unit * S) :=
  let? (_, wrt) := write_u8 wrt (l_order self) in
  let? (_, wrt) := write_words (l_name_0 self) wrt in
  let? (_, wrt) := write_u8 wrt (l_attrs self) in
  let? (_, wrt) := write_u8 wrt (l_entry_type self) in
  let? (_, wrt) := write_u8 wrt (l_checksum self) in
  let? (_, wrt) := write_words (l_name_1 self) wrt in
  let? (_, wrt) := write_u16_le wrt (l_reserved_0 self) in
  write_words (l_name_2 self) wrt.

Definition de_serialize (self : DirEntryData) (wrt : S) : out (result Error unit * S) :=
  match self with DeFile file => file_serialize file wrt | DeLfn lfn => lfn_serialize lfn wrt end.

(** [for x in &mut a { *x = rdr.read_u16_le()?; }] for an array of [n] words. *)
Fixpoint read_words (n : nat) (rdr : S) : out (result Error (list Z) * S) :=
  match n with
  | O => Ret (Ok [], rdr)
  | Datatypes.S n =>
      let? (x, rdr) := read_u16_le rdr in
      let? (l, rdr) := read_words n rdr in
      Ret (Ok (x :: l), rdr)
  end.

Definition lfn_deserialize (name : list Z) (attrs : Z) (rdr : S) : out (result Error DirEntryData * S) :=
  order ← index name 0;
  let name_0 := take 5 (words (drop 1 name)) in
  let? (entry_type, rdr) := read_u8 rdr in
  let? (checksum, rdr) := read_u8 rdr in
  let? (name_1, rdr) := read_words 6 rdr in
  let? (reserved_0, rdr) := read_u16_le rdr in
  let? (name_2, rdr) := read_words 2 rdr in
  Ret (Ok (DeLfn (mkLfn order name_0 attrs entry_type checksum name_1 reserved_0 name_2)), rdr).

Definition file_deserialize (name : list Z) (attrs : Z) (rdr : S) : out (result Error DirEntryData * S) :=
  let? (reserved_0, rdr) := read_u8 rdr in
  let? (create_time_0, rdr) := read_u8 rdr in
  let? (create_time_1, rdr) := read_u16_le rdr in
  let? (create_date, rdr) := read_u16_le rdr in
  let? (access_date, rdr) := read_u16_le rdr in
  let? (first_cluster_hi, rdr) := read_u16_le rdr in
  let? (modify_time, rdr) := read_u16_le rdr in
  let? (modify_date, rdr) := read_u16_le rdr in
  let? (first_cluster_lo, rdr) := read_u16_le rdr in
  let? (size, rdr) := read_u32_le rdr in
  Ret (Ok (DeFile (mkEntry name attrs reserved_0 create_time_0 create_time_1 create_date access_date
    first_cluster_hi modify_time modify_date first_cluster_lo size)), rdr).

(** The end of the stream stands for an entry that ends the directory. *)
Definition de_deserialize (rdr : S) : out (result Error DirEntryData * S) :=
  '(r, rdr) ← read_exact rdr (zeros 11);
  match r with
  | Err UnexpectedEof => Ret (Ok (DeFile DirFileEntryData_default), rdr)
  | Err err => Ret (Err err, rdr)
  | Ok name =>
      let? (b, rdr) := read_u8 rdr in
      let attrs := fl_truncate ATTRS_ALL b in
      if fl_intersect attrs LFN =? LFN then lfn_deserialize name attrs rdr
      else file_deserialize name attrs rdr
  end.

End Codec.

(** ** The editor of an entry *)

Record DirEntryEditor := mkEditor { ed_data : DirFileEntryData; ed_pos : Z; ed_dirty : bool }.

Section Editor.
Context {P : Profile} {BF : Bitflags}.

Definition DirEntryEditor_new (data : DirFileEntryData) (pos : Z) : DirEntryEditor := mkEditor data pos false.

Definition ed_set_first_cluster (self : DirEntryEditor) (first_cluster_ : option Z) (fat_type : FatType) : DirEntryEditor :=
  if decide (first_cluster_ = first_cluster (ed_data self) fat_type) then self
  else mkEditor (set_first_cluster (ed_data self) first_cluster_ fat_type) (ed_pos self) true.

Definition ed_set_size (self : DirEntryEditor) (new_size : Z) : DirEntryEditor :=
  match size (ed_data self) with
  | Some n => if negb (new_size =? n) then mkEditor (e_set_size (ed_data self) new_size) (ed_pos self) true else self
  | None => self
  end.

Definition ed_set_created (self : DirEntryEditor) (date_time : DateTime) : out DirEntryEditor :=
  if decide (date_time = created (ed_data self)) then Ret self
  else data ← set_created (ed_data self) date_time; Ret (mkEditor data (ed_pos self) true).

Definition ed_set_accessed (self : DirEntryEditor) (date : Date) : out DirEntryEditor :=
  if decide (date = accessed (ed_data self)) then Ret self
  else data ← set_accessed (ed_data self) date; Ret (mkEditor data (ed_pos self) true).

Definition ed_set_modified (self : DirEntryEditor) (date_time : DateTime) : out DirEntryEditor :=
  if decide (date_time = modified (ed_data self)) then Ret self
  else data ← set_modified (ed_data self) date_time; Ret (mkEditor data (ed_pos self) true).

End Editor.

(** ** Short names are the trimmed parts with a dot between *)

Lemma rposition_nonneg {A} (p : A → bool) l n : rposition p l = Some n → 0 ≤ n.
Proof.
  revert n. induction l as [|x l IH]; intros n; cbn; [done|]. destruct (rposition p l) as [k|].
  - intros [= <-]. specialize (IH k eq_refl). lia.
  - destruct (p x); [by intros [= <-]|done].
Qed.

Lemma rposition_split {A} (p : A → bool) l : ∃ a b, l = a ++ b ∧ zlen a = len_of (rposition p l) ∧
  Forall (λ x, p x = false) b ∧ ∀ x, last a = Some x → p x = true.
Proof.
  induction l as [|x l (a & b & -> & Ha & Hb & Hl)]; [by exists [], []|]. cbn [rposition].
  pose proof (rposition_nonneg p (a ++ b)) as Hn. destruct (rposition p (a ++ b)) as [n|]; cbn [len_of] in *.
  - exists (x :: a), b. rewrite zlen_cons. split_and!; [done|lia|done|]. intros y Hy. apply Hl.
    destruct a; [|done]. specialize (Hn n eq_refl). unfold zlen in Ha. cbn in Ha. lia.
  - assert (a = []) as -> by (destruct a as [|y a]; [done|rewrite zlen_cons in Ha; pose proof (zlen_nonneg a); lia]).
    destruct (p x) eqn:E.
    + exists [x], b. split_and!; [done|done|done|]. by intros y [= <-].
    + exists [], (x :: b). split_and!; [done|done|by constructor|done].
Qed.

(** [l] without the spaces at its end. *)
Definition trims (l t : list Z) : Prop := ∃ k, l = t ++ replicate k SFN_PADDING ∧ last t ≠ Some SFN_PADDING.

Lemma trims_rposition l : ∃ t, trims l t ∧ zlen t = len_of (rposition (λ x, negb (x =? SFN_PADDING)) l) ∧ zlen t ≤ zlen l ∧
  ∀ n, n = zlen t → take (Z.to_nat n) l = t.
Proof.
  destruct (rposition_split (λ x, negb (x =? SFN_PADDING)) l) as (a & b & -> & Ha & Hb & Hl).
  exists a. rewrite zlen_app. pose proof (zlen_nonneg b). split_and!; [|done|lia|].
  - exists (length b). split.
    + f_equal. clear -Hb. induction Hb as [|x b Hx Hb IH]; cbn; [done|]. breflect. congruence.
    + intros E. specialize (Hl _ E). breflect. done.
  - intros n ->. unfold zlen. rewrite Nat2Z.id. by apply take_app_length.
Qed.

(** The first byte 0x05 stands for 0xE5. *)
Definition real_first (l : list Z) : list Z :=
  match l with x :: l => (if x =? DIR_ENTRY_REALLY_E5_FLAG then 0xE5 else x) :: l | [] => [] end.

Lemma copy_at_ok {A} (dst src : list A) a : 0 ≤ a → a + zlen src ≤ zlen dst → copy_at dst a src = Ret (splice dst a src).
Proof. intros Ha Hl. unfold copy_at. pose proof (zlen_nonneg src). rewrite slice_ok by lia. done. Qed.

(** The name array: base, dot, extension, padding. *)
Lemma short_array base ext : zlen base ≤ 8 → zlen ext ≤ 3 → ext ≠ [] →
  ∃ name, (name ← copy_at (replicate 12 SFN_PADDING) 0 base; name ← store name (zlen base) 0x2E;
    copy_at name (zlen base + 1) ext) = Ret name ∧
    name = base ++ 0x2E :: ext ++ replicate (12 - length base - 1 - length ext) SFN_PADDING.
Proof.
  intros Hb He Hne. pose proof (zlen_nonneg base). pose proof (zlen_nonneg ext).
  assert (∃ b e, length base = b ∧ length ext = e ∧ (b ≤ 8)%nat ∧ (e ≤ 3)%nat) as (b & e & Eb & Ee & Hb8 & He3)
    by (exists (length base), (length ext); unfold zlen in *; lia).
  rewrite copy_at_ok by (unfold zlen in *; rewrite ?length_replicate; lia). run.
  assert (splice (replicate 12 SFN_PADDING) 0 base = base ++ replicate (12 - b) SFN_PADDING) as ->.
  { unfold splice. cbn [Z.to_nat take app]. by rewrite drop_replicate, Eb. }
  unfold store. rewrite zlen_app. unfold zlen. rewrite length_replicate, Eb, Ee in *.
  rewrite (proj2 (Z.leb_le _ _)), (proj2 (Z.ltb_lt _ _)) by lia. cbn [andb]. run. rewrite Nat2Z.id.
  rewrite insert_app_r_alt by lia. replace (b - length base)%nat with 0%nat by lia.
  replace (12 - b)%nat with (Datatypes.S (11 - b)) by lia. cbn [replicate insert list_insert].
  rewrite copy_at_ok.
  - eexists. split; [done|]. unfold splice. replace (Z.to_nat (Z.of_nat b + 1)) with (length base + 1)%nat by lia.
    rewrite take_app_add, drop_app_ge by lia. rewrite <- app_assoc. cbn [take app]. rewrite take_0. cbn [app]. do 3 f_equal.
    replace (length base + 1 + length ext - length base)%nat with (Datatypes.S (length ext)) by lia. cbn [drop].
    rewrite drop_replicate. f_equal. lia.
  - lia.
  - unfold zlen. rewrite length_app. cbn. rewrite length_replicate. lia.
Qed.

Lemma real_first_name x l :
  (if x =? DIR_ENTRY_REALLY_E5_FLAG then store (x :: l) 0 0xE5 else Ret (x :: l)) = Ret (real_first (x :: l)).
Proof.
  cbn [real_first]. case_bool; [|done]. unfold store. rewrite zlen_cons. pose proof (zlen_nonneg l).
  by rewrite (proj2 (Z.ltb_lt _ _)) by lia.
Qed.

Lemma real_first_app l m : take (length l) (real_first (l ++ m)) = real_first l.
Proof. destruct l as [|x l]; [done|]. cbn. by rewrite take_app_length. Qed.

Lemma zlen_real_first l : zlen (real_first l) = zlen l.
Proof. by destruct l. Qed.

Lemma short_finish body pad : zlen (body ++ pad) = 12 → ∃ sn,
  (first ← index (body ++ pad) 0;
   name ← (if first =? DIR_ENTRY_REALLY_E5_FLAG then store (body ++ pad) 0 0xE5 else Ret (body ++ pad));
   Ret (mkShortName name (wrap 8 (zlen body)))) = Ret sn ∧ sn_as_bytes sn = Ret (real_first body).
Proof.
  intros Hl. pose proof (real_first_app body pad) as Ht. pose proof (zlen_nonneg body). pose proof (zlen_nonneg pad).
  pose proof Hl as Hl'. rewrite zlen_app in Hl'.
  destruct (body ++ pad) as [|x l] eqn:E; [done|].
  change (index (x :: l) 0) with (Ret x : out Z). run. rewrite real_first_name. run. eexists. split; [done|].
  unfold sn_as_bytes. cbn [sn_name sn_len]. rewrite wrap_small by lia.
  rewrite slice_head by (rewrite zlen_real_first; lia). f_equal. unfold zlen. by rewrite Nat2Z.id.
Qed.

(** A short name never leaves its arrays: for any 11 bytes, the name is the first eight
    without the spaces at their end, and, unless the last three are all spaces, a dot and
    these without theirs; 0x05 in front is read as 0xE5. *)
Theorem short_name_spec (raw_name : list Z) (Hlen : zlen raw_name = 11) :
  ∃ sn base ext, ShortName_new raw_name = Ret sn ∧ trims (take 8 raw_name) base ∧ trims (drop 8 raw_name) ext ∧
    sn_as_bytes sn = Ret (real_first (base ++ if decide (ext = []) then [] else 0x2E :: ext)).
Proof.
  destruct (trims_rposition (take 8 raw_name)) as (base & Tb & Lb & Hb & Hbt).
  destruct (trims_rposition (drop 8 raw_name)) as (ext & Te & Le & He & Het).
  change 8%nat with (Z.to_nat 8) in Hb, He. rewrite zlen_take in Hb by lia. rewrite zlen_drop in He by lia.
  pose proof (zlen_nonneg base). pose proof (zlen_nonneg ext).
  assert (slice raw_name 0 8 = Ret (take 8 raw_name)) as E1 by (apply (slice_head raw_name 8); lia).
  assert (slice raw_name 8 11 = Ret (drop 8 raw_name)) as E2 by (rewrite <- Hlen; apply (slice_tail raw_name 8); lia).
  unfold ShortName_new. rewrite E1. run. rewrite E2. run. rewrite <- Lb, <- Le.
  rewrite (slice_head raw_name (zlen base)) by lia. run.
  specialize (Hbt _ eq_refl). rewrite take_take in Hbt.
  replace (Z.to_nat (zlen base) `min` 8)%nat with (Z.to_nat (zlen base)) in Hbt by lia. rewrite Hbt.
  destruct (decide (ext = [])) as [->|Hne].
  - change (zlen []) with 0 in *. cbn [Z.ltb Z.compare]. rewrite copy_at_ok by (change (zlen (replicate _ _)) with 12; lia). run.
    assert (splice (replicate 12 SFN_PADDING) 0 base = base ++ replicate (12 - length base) SFN_PADDING) as ->.
    { unfold splice. cbn [Z.to_nat take app]. by rewrite drop_replicate. }
    destruct (short_finish base (replicate (12 - length base) SFN_PADDING)) as (sn & E & Hsn).
    { rewrite zlen_app. unfold zlen in *. rewrite length_replicate. lia. }
    exists sn, base, []. rewrite decide_True, app_nil_r by done. done.
  - assert (0 < zlen ext) by (destruct ext; [done|rewrite zlen_cons; pose proof (zlen_nonneg ext); lia]).
    rewrite (proj2 (Z.ltb_lt 0 (zlen ext))) by lia.
    destruct (short_array base ext) as (name & Ea & ->); [lia|lia|done|].
    assert (slice raw_name 8 (8 + zlen ext) = Ret ext) as E3.
    { rewrite slice_ok by lia. unfold subslice. rewrite Z.add_simpl_l. f_equal. by apply Het. }
    destruct (copy_at (replicate 12 SFN_PADDING) 0 base) as [n1|]; [|done]. run. cbn [mbind out_mbind] in Ea.
    destruct (store n1 (zlen base) 0x2E) as [n2|]; [|done]. run. cbn [mbind out_mbind] in Ea. rewrite E3. run. rewrite Ea. run.
    destruct (short_finish (base ++ 0x2E :: ext) (replicate (12 - length base - 1 - length ext) SFN_PADDING)) as (sn & E & Hsn).
    { rewrite !zlen_app, zlen_cons. unfold zlen in *. rewrite length_replicate. lia. }
    exists sn, base, ext. rewrite decide_False by done. rewrite zlen_app, zlen_cons, <- app_assoc, Z.add_assoc in E. done.
Qed.

Lemma short_name_spec_witness : ∃ sn base ext,
  ShortName_new [0x05; 0x4F; 0x4F; 0x20; 0x41; 0x20; 0x20; 0x20; 0x54; 0x58; 0x20] = Ret sn ∧
  trims [0x05; 0x4F; 0x4F; 0x20; 0x41; 0x20; 0x20; 0x20] base ∧ trims [0x54; 0x58; 0x20] ext ∧
  sn_as_bytes sn = Ret (real_first (base ++ if decide (ext = []) then [] else 0x2E :: ext)).
Proof. apply (short_name_spec [0x05; 0x4F; 0x4F; 0x20; 0x41; 0x20; 0x20; 0x20; 0x54; 0x58; 0x20]). reflexivity. Defined.

(** ** The 32 bytes of an entry *)

Definition word_bytes (l : list Z) : list Z := flat_map (to_le 2) l.

Definition file_bytes (e : DirFileEntryData) : list Z :=
  e_name e ++ [e_attrs e] ++ [e_reserved_0 e] ++ [e_create_time_0 e] ++ to_le 2 (e_create_time_1 e) ++
  to_le 2 (e_create_date e) ++ to_le 2 (e_access_date e) ++ to_le 2 (e_first_cluster_hi e) ++
  to_le 2 (e_modify_time e) ++ to_le 2 (e_modify_date e) ++ to_le 2 (e_first_cluster_lo e) ++ to_le 4 (e_size e).

Definition lfn_bytes (l : DirLfnEntryData) : list Z :=
  [l_order l] ++ word_bytes (l_name_0 l) ++ [l_attrs l] ++ [l_entry_type l] ++ [l_checksum l] ++
  word_bytes (l_name_1 l) ++ to_le 2 (l_reserved_0 l) ++ word_bytes (l_name_2 l).

Definition de_bytes (e : DirEntryData) : list Z :=
  match e with DeFile e => file_bytes e | DeLfn l => lfn_bytes l end.

(** Fields of their widths; the attributes are flags of the type and tell the two kinds
    of entry apart. *)
Definition file_fits (e : DirFileEntryData) : bool :=
  bytes_wf 11 (e_name e) && in_range 8 (e_attrs e) && in_range 8 (e_reserved_0 e) &&
  in_range 8 (e_create_time_0 e) && in_range 16 (e_create_time_1 e) && in_range 16 (e_create_date e) &&
  in_range 16 (e_access_date e) && in_range 16 (e_first_cluster_hi e) && in_range 16 (e_modify_time e) &&
  in_range 16 (e_modify_date e) && in_range 16 (e_first_cluster_lo e) && in_range 32 (e_size e).

Definition words_wf (n : Z) (l : list Z) : bool := (zlen l =? n) && forallb (in_range 16) l.

Definition lfn_fits (l : DirLfnEntryData) : bool :=
  in_range 8 (l_order l) && words_wf 5 (l_name_0 l) && in_range 8 (l_attrs l) && in_range 8 (l_entry_type l) &&
  in_range 8 (l_checksum l) && words_wf 6 (l_name_1 l) && in_range 16 (l_reserved_0 l) && words_wf 2 (l_name_2 l).

Definition de_wf (e : DirEntryData) : bool :=
  match e with
  | DeFile e => file_fits e && (Z.land ATTRS_ALL (e_attrs e) =? e_attrs e) && negb (Z.land (e_attrs e) LFN =? LFN)
  | DeLfn l => lfn_fits l && (Z.land ATTRS_ALL (l_attrs l) =? l_attrs l) && (Z.land (l_attrs l) LFN =? LFN)
  end.

Lemma words_wf_spec n l : words_wf n l = true → zlen l = n ∧ Forall (λ x, 0 ≤ x < 65536) l.
Proof.
  unfold words_wf. intros [H1 H2]%andb_true_iff. breflect. split; [done|].
  rewrite forallb_forall in H2. apply Forall_forall. intros x Hx%list_elem_of_In. by apply (in_range_true 16), H2.
Qed.

Lemma zlen_word_bytes l : zlen (word_bytes l) = 2 * zlen l.
Proof.
  induction l as [|x l IH]; [done|]. unfold word_bytes in *. cbn [flat_map]. rewrite zlen_app, IH, zlen_to_le, zlen_cons. lia.
Qed.

Lemma word_bytes_bytes l : Forall is_byte (word_bytes l).
Proof.
  induction l as [|x l IH]; [constructor|]. unfold word_bytes in *. cbn [flat_map]. apply Forall_app_2; [apply to_le_bytes|done].
Qed.

Lemma words_bytes l : Forall (λ x, 0 ≤ x < 65536) l → words (word_bytes l) = l.
Proof.
  induction 1 as [|x l Hx Hl IH]; [done|]. 
  change (words (word_bytes (x :: l))) with (from_le (to_le 2 x) :: words (word_bytes l)). rewrite IH.
  f_equal. apply from_to_le. cbn. lia.
Qed.

Section EntryProofs.
Context {P : Profile} {BF : Bitflags} {S : Type} {ST : Storage S} {V : View S} {FS : FlatStorage S}.

Lemma write_words_ok ws (s0 s : S) l : v_ok s0 → Output s0 s l → v_pos s0 + zlen (l ++ word_bytes ws) ≤ v_size s0 →
  ∃ s', write_words ws s = Ret (Ok tt, s') ∧ Output s0 s' (l ++ word_bytes ws).
Proof.
  revert s l. induction ws as [|x ws IH]; intros s l Hok HO Hfit; [exists s; by rewrite app_nil_r|].
  unfold word_bytes in *. cbn [flat_map] in *. pose proof (zlen_nonneg (flat_map (to_le 2) ws)).
  unfold write_words. cbn [for_each]. unfold write_u16_le.
  destruct (output_all s0 s l (to_le 2 x)) as (s1 & -> & HO1);
    [done|done|apply to_le_bytes|rewrite !zlen_app in *; lia|]. run.
  destruct (IH s1 (l ++ to_le 2 x)) as (s' & E & HO'); [done|done|by rewrite <- app_assoc|].
  exists s'. by rewrite <- app_assoc in HO'.
Qed.

Lemma read_words_ok ws (s : S) l : Forall (λ x, 0 ≤ x < 65536) ws → Input s (word_bytes ws ++ l) →
  ∃ s', read_words (length ws) s = Ret (Ok ws, s') ∧ Input s' l ∧ Moved s s' (2 * zlen ws).
Proof.
  intros Hw. revert s. induction Hw as [|x ws Hx Hw IH]; intros s HI.
  - exists s. split; [done|]. split; [done|]. apply Moved_refl, HI.
  - unfold word_bytes in *. cbn [flat_map] in HI. rewrite <- app_assoc in HI. cbn [length read_words]. unfold read_u16_le.
    destruct (input_le 2 s x _ HI) as (s1 & -> & HI1 & HM1); [cbn; lia|]. run.
    destruct (IH s1 HI1) as (s' & -> & HI' & HM'). run. exists s'. split; [done|]. split; [done|].
    rewrite zlen_cons. eapply eq_ind; [by eapply Moved_trans|]. lia.
Qed.

Lemma file_serialize_ok e (s0 s : S) l : v_ok s0 → file_fits e = true → Output s0 s l →
  v_pos s0 + zlen (l ++ file_bytes e) ≤ v_size s0 →
  ∃ s', file_serialize e s = Ret (Ok tt, s') ∧ Output s0 s' (l ++ file_bytes e).
Proof.
  intros Hok Hwf HO Hfit. unfold file_fits in Hwf. wf_fields Hwf. unfold file_serialize, write_u16_le, write_u32_le, write_u8.
  unfold file_bytes in *. zl_in Hfit. do 12 out_step HO. eexists. split; [reflexivity|]. by rewrite <- !app_assoc in HO.
Qed.

Lemma lfn_serialize_ok e (s0 s : S) l : v_ok s0 → lfn_fits e = true → Output s0 s l →
  v_pos s0 + zlen (l ++ lfn_bytes e) ≤ v_size s0 →
  ∃ s', lfn_serialize e s = Ret (Ok tt, s') ∧ Output s0 s' (l ++ lfn_bytes e).
Proof.
  intros Hok Hwf HO Hfit. unfold lfn_fits in Hwf. wf_fields Hwf. unfold lfn_serialize, write_u16_le, write_u8.
  unfold lfn_bytes in *. zl_in Hfit. pose proof (zlen_nonneg (word_bytes (l_name_0 e))).
  pose proof (zlen_nonneg (word_bytes (l_name_1 e))). pose proof (zlen_nonneg (word_bytes (l_name_2 e))).
  out_step HO. destruct (write_words_ok (l_name_0 e) _ _ _ Hok HO) as (? & -> & HO1); [zl; lia|]. clear HO. run.
  do 3 out_step HO1. destruct (write_words_ok (l_name_1 e) _ _ _ Hok HO1) as (? & -> & HO); [zl; lia|]. clear HO1. run.
  out_step HO. destruct (write_words_ok (l_name_2 e) _ _ _ Hok HO) as (s' & -> & HO1); [zl; lia|].
  exists s'. split; [done|]. by rewrite <- !app_assoc in HO1.
Qed.

Lemma zlen_de_bytes e : de_wf e = true → zlen (de_bytes e) = 32.
Proof.
  destruct e as [e|l]; cbn [de_wf de_bytes]; intros [[Hwf _]%andb_true_iff _]%andb_true_iff.
  - unfold file_fits in Hwf. wf_fields Hwf. unfold file_bytes. zl. lia.
  - unfold lfn_fits in Hwf. wf_fields Hwf. unfold lfn_bytes. zl. rewrite !zlen_word_bytes.
    repeat match goal with H : words_wf _ _ = true |- _ => apply words_wf_spec in H as [? ?] end. lia.
Qed.

Lemma de_serialize_ok e (s0 s : S) l : v_ok s0 → de_wf e = true → Output s0 s l → v_pos s0 + zlen (l ++ de_bytes e) ≤ v_size s0 →
  ∃ s', de_serialize e s = Ret (Ok tt, s') ∧ Output s0 s' (l ++ de_bytes e).
Proof.
  destruct e as [e|d]; cbn [de_wf de_bytes]; intros Hok [[Hwf _]%andb_true_iff _]%andb_true_iff HO Hfit.
  - by apply file_serialize_ok.
  - by apply lfn_serialize_ok.
Qed.

Lemma de_deserialize_ok e (s : S) l : de_wf e = true → Input s (de_bytes e ++ l) →
  ∃ s', de_deserialize s = Ret (Ok e, s') ∧ Input s' l ∧ Moved s s' 32.
Proof.
  intros Hwf HI. pose proof (zlen_de_bytes e Hwf) as Hz. pose proof (Moved_refl s (in_ok _ _ HI)) as HM.
  unfold de_deserialize, read_u16_le, read_u32_le. destruct e as [e|d]; cbn [de_wf de_bytes] in *.
  - apply andb_true_iff in Hwf as [[Hwf Ha]%andb_true_iff Hn]. breflect. unfold file_fits in Hwf. wf_fields Hwf.
    unfold file_bytes in *. rewrite <- !app_assoc in HI. in_step HI HM. run. in_step HI HM.
    rewrite fl_truncate_spec, fl_intersect_spec, Ha. rewrite (proj2 (Z.eqb_neq _ _)) by done.
    unfold file_deserialize, read_u16_le, read_u32_le. do 10 in_step HI HM. eexists. split; [by destruct e|]. split; [exact HI|].
    zl_in Hz. eapply eq_ind; [exact HM|]. lia.
  - apply andb_true_iff in Hwf as [[Hwf Ha]%andb_true_iff Hn]. breflect. unfold lfn_fits in Hwf. wf_fields Hwf.
    repeat match goal with H : words_wf _ _ = true |- _ => apply words_wf_spec in H as [? ?] end.
    pose proof (zlen_word_bytes (l_name_0 d)) as Hz0. unfold lfn_bytes in *. rewrite <- !app_assoc, app_assoc in HI.
    destruct (input_exact s ([l_order d] ++ word_bytes (l_name_0 d)) _ (zeros 11) HI) as (? & -> & HI1 & HM1);
      [unfold zlen in *; cbn; lia|]. clear HI. run. in_step HI1 HM1.
    rewrite fl_truncate_spec, fl_intersect_spec, Ha, Hn, Z.eqb_refl. unfold lfn_deserialize, read_u16_le.
    change (index ([l_order d] ++ word_bytes (l_name_0 d)) 0) with (Ret (l_order d) : out Z). run. do 2 in_step HI1 HM1.
    destruct (read_words_ok (l_name_1 d) _ _ ltac:(done) HI1) as (? & E3 & HI & HM3).
    replace (length (l_name_1 d)) with 6%nat in E3 by (unfold zlen in *; lia). rewrite E3. run. clear HI1.
    pose proof (Moved_trans _ _ _ _ _ HM1 HM3) as HM4. clear HM HM1 HM3. in_step HI HM4.
    destruct (read_words_ok (l_name_2 d) _ _ ltac:(done) HI) as (sl & E5 & HI5 & HM5).
    replace (length (l_name_2 d)) with 2%nat in E5 by (unfold zlen in *; lia). rewrite E5. run.
    exists sl. split; [|split; [exact HI5|]].
    + change (drop 1 ([l_order d] ++ word_bytes (l_name_0 d))) with (word_bytes (l_name_0 d)).
      rewrite words_bytes, take_ge by (done || unfold zlen in *; lia). by destruct d.
    + eapply eq_ind; [by eapply Moved_trans|]. zl. zl_in Hz. rewrite !zlen_word_bytes in *. lia.
Qed.

(** The first cluster is stored in two halves, of which FAT12 and FAT16 only use the
    lower one. *)
Definition cluster_fits (t : FatType) (c : option Z) : Prop :=
  match c with
  | Some n => 0 < n < (if decide (t = Fat32) then 2 ^ 32 else 2 ^ 16)
  | None => True
  end.

Lemma first_cluster_set e c t : cluster_fits t c → first_cluster (set_first_cluster e c t) t = c.
Proof.
  intros Hc. assert (0 ≤ default 0 c < if decide (t = Fat32) then 2 ^ 32 else 2 ^ 16) as Hn
    by (destruct c; cbn in *; case_decide; lia).
  unfold first_cluster, set_first_cluster. cbn [e_first_cluster_hi e_first_cluster_lo e_set_cluster].
  set (n := default 0 c) in *. assert (wrap 16 (Z.land n 0xFFFF) = n mod 65536) as ->.
  { change 0xFFFF with (Z.ones 16). rewrite Z.land_ones by lia. unfold wrap. apply Z.mod_mod. lia. }
  match goal with |- context [Z.lor ?a ?b =? 0] => assert (Z.lor a b = n) as -> end.
  - case_decide.
    + rewrite Z.shiftr_div_pow2 by lia. rewrite (wrap_small 16 (n / 2 ^ 16)) by (Z.div_mod_to_equations; lia).
      rewrite Z.shiftl_mul_pow2 by lia. rewrite wrap_small by (Z.div_mod_to_equations; lia).
      rewrite Z.lor_comm, (lor_aligned _ _ 16); [Z.div_mod_to_equations; lia|lia|Z.div_mod_to_equations; lia|apply Z.mod_mul; lia].
    + change (wrap 32 (Z.shiftl 0 16)) with 0. rewrite Z.lor_0_l. apply Z.mod_small. lia.
  - destruct c as [m|]; cbn in *; [|done]. by rewrite (proj2 (Z.eqb_neq m 0)) by lia.
Qed.

(** A directory entry of either kind takes 32 bytes, and is read back as it was
    written, with every field; nothing else on the storage changes. *)
Theorem dir_entry_roundtrip (e : DirEntryData) (s : S)
    (Hok : v_ok s) (Hwf : de_wf e = true) (Hfit : v_pos s + 32 ≤ v_size s) :
  ∃ s1 s2 s3, de_serialize e s = Ret (Ok tt, s1) ∧ v_pos s1 = v_pos s + 32 ∧
    st_seek s1 (SeekStart (v_pos s)) = Ret (Ok (v_pos s), s2) ∧
    de_deserialize s2 = Ret (Ok e, s3) ∧ v_frame s s3 ∧
    ∀ i, 0 ≤ i < v_size s → i < v_pos s ∨ v_pos s + 32 ≤ i → v_byte s3 i = v_byte s i.
Proof.
  pose proof (v_small s Hok) as [Hp _]. pose proof (zlen_de_bytes e Hwf) as Hl.
  destruct (de_serialize_ok e s s [] Hok Hwf (output_nil s Hok)) as (s1 & E1 & HO); [cbn [app]; lia|].
  cbn [app] in HO. pose proof HO as [Hok1 Hs1 Hp1 Hb1 Hf1]. rewrite Hl in Hp1.
  destruct (v_seek s1 (v_pos s)) as (s2 & E2 & U2); [done|lia|].
  destruct (de_deserialize_ok e s2 [] Hwf) as (s3 & E3 & _ & U3).
  { rewrite app_nil_r. eapply (output_input s s1); [done|lia|lia|done|done]. }
  pose proof U2 as [_ Hs2 _ Hb2 Hf2]. pose proof U3 as [_ Hs3 _ Hb3 Hf3].
  exists s1, s2, s3. split_and!; [done|done|done|done|by etrans; [|etrans]|].
  intros i Hi Hout. rewrite Hb3, Hb2, Hb1 by lia. unfold spec_write. case_bool; [lia|done].
Qed.

End EntryProofs.

Section Examples.
Local Existing Instance Reference.bitflags.

Definition sample_entry : DirEntryData :=
  DeFile (mkEntry [0x46; 0x4F; 0x4F; 0x20; 0x20; 0x20; 0x20; 0x20; 0x54; 0x58; 0x54] ARCHIVE 0x18 100
    0x7AB3 0x4C21 0x4C22 1 0x7AB4 0x4C21 0x0345 70000).
Definition sample_disk : MemIO := mkMem (zeros 50) 9 5.

Lemma dir_entry_roundtrip_witness :
  ∃ s1 s2 s3, de_serialize sample_entry sample_disk = Ret (Ok tt, s1) ∧ v_pos s1 = v_pos sample_disk + 32 ∧
    st_seek s1 (SeekStart (v_pos sample_disk)) = Ret (Ok (v_pos sample_disk), s2) ∧
    de_deserialize s2 = Ret (Ok sample_entry, s3) ∧ v_frame sample_disk s3 ∧
    ∀ i, 0 ≤ i < v_size sample_disk → i < v_pos sample_disk ∨ v_pos sample_disk + 32 ≤ i →
      v_byte s3 i = v_byte sample_disk i.
Proof.
  apply (dir_entry_roundtrip sample_entry sample_disk); [|vm_compute; reflexivity|vm_compute; congruence].
  split_and!; [apply bytes_forallb; vm_compute; reflexivity|vm_compute; congruence..].
Defined.

End Examples.
