(* ===== verification/FatBoot.v ===== *)
(** * FAT crate: the boot sector

    [kernel/crates/good-fatfs/src/boot_sector.rs] with the formatting options of [fs.rs]:
    the BIOS parameter block, its encoding, its validation, the geometry derived from it
    and the geometry chosen when a volume is formatted. *)

From S2P Require Import Prelude BlockCache FatIo FatTable FatEntry.

Definition BITS_PER_BYTE : Z := 8.
Definition KB : Z := 1024.
Definition MB_64 : Z := KB * 1024.
Definition GB_64 : Z := MB_64 * 1024.

(** ** The BIOS parameter block *)

Record BiosParameterBlock := mkBpb {
  b_bytes_per_sector : Z;
  b_sectors_per_cluster : Z;
  b_reserved_sectors : Z;
  b_fats : Z;
  b_root_entries : Z;
  b_total_sectors_16 : Z;
  b_media : Z;
  b_sectors_per_fat_16 : Z;
  b_sectors_per_track : Z;
  b_heads : Z;
  b_hidden_sectors : Z;
  b_total_sectors_32 : Z;
  b_sectors_per_fat_32 : Z;
  b_extended_flags : Z;
  b_fs_version : Z;
  b_root_dir_first_cluster : Z;
  b_fs_info_sector : Z;
  b_backup_boot_sector : Z;
  b_reserved_0 : list Z;
  b_drive_num : Z;
  b_reserved_1 : Z;
  b_ext_sig : Z;
  b_volume_id : Z;
  b_volume_label : list Z;
  b_fs_type_label : list Z;
}.

Definition Bpb_default : BiosParameterBlock :=
  mkBpb 0 0 0 0 0 0 0 0 0 0 0 0 0 0 0 0 0 0 (zeros 12) 0 0 0 0 (zeros 11) (zeros 8).

(** [FsStatusFlags::encode] and [decode] of [fs.rs]. *)
Definition flags_encode (f : FsStatusFlags) : Z :=
  let res := if dirty f then Z.lor 0 1 else 0 in
  if io_error f then Z.lor res 2 else res.

Definition flags_decode (flags : Z) : FsStatusFlags :=
  mkFlags (negb (Z.land flags 1 =? 0)) (negb (Z.land flags 2 =? 0)).

Section Bpb.
Context {P : Profile}.
Implicit Types self bpb : BiosParameterBlock.

Definition is_fat32 self : bool := b_sectors_per_fat_16 self =? 0.

Definition mirroring_enabled self : bool := Z.land (b_extended_flags self) 0x80 =? 0.

Definition active_fat self : Z :=
  if mirroring_enabled self then 0 else Z.land (b_extended_flags self) 0x0F.

Definition status_flags self : FsStatusFlags := flags_decode (b_reserved_1 self).

Definition sectors_per_fat self : Z :=
  if is_fat32 self then b_sectors_per_fat_32 self else b_sectors_per_fat_16 self.

Definition total_sectors self : Z :=
  if b_total_sectors_16 self =? 0 then b_total_sectors_32 self else b_total_sectors_16 self.

Definition root_dir_sectors self : out Z :=
  root_dir_bytes ← mul_u 32 (b_root_entries self) DIR_ENTRY_SIZE;
  x ← add_u 32 root_dir_bytes (b_bytes_per_sector self);
  y ← sub_u 32 x 1;
  div_u y (b_bytes_per_sector self).

Definition sectors_per_all_fats self : out Z := mul_u 32 (b_fats self) (sectors_per_fat self).

Definition first_data_sector self : out Z :=
  root_dir_sectors ← root_dir_sectors self;
  fat_sectors ← sectors_per_all_fats self;
  x ← add_u 32 (b_reserved_sectors self) fat_sectors;
  add_u 32 x root_dir_sectors.

Definition total_clusters self : out Z :=
  first_data_sector ← first_data_sector self;
  data_sectors ← sub_u 32 (total_sectors self) first_data_sector;
  div_u data_sectors (b_sectors_per_cluster self).

Definition bytes_from_sectors self (sectors : Z) : out Z :=
  mul_u 64 sectors (b_bytes_per_sector self).

Definition sectors_from_clusters self (clusters : Z) : out Z :=
  mul_u 32 clusters (b_sectors_per_cluster self).

Definition cluster_size self : out Z :=
  mul_u 32 (b_sectors_per_cluster self) (b_bytes_per_sector self).

Definition clusters_from_bytes self (bytes : Z) : out Z :=
  cluster_size ← cluster_size self;
  x ← add_u 64 bytes cluster_size;
  y ← sub_u 64 x 1;
  z ← div_u y cluster_size;
  Ret (wrap 32 z).

(** ** Encoding *)

Section Codec.
Context {S : Type} {ST : Storage S}.

Definition Bpb_deserialize (rdr : S) : out (result Error BiosParameterBlock * S) :=
  let? (bytes_per_sector, rdr) := read_u16_le rdr in
  let? (sectors_per_cluster, rdr) := read_u8 rdr in
  let? (reserved_sectors, rdr) := read_u16_le rdr in
  let? (fats, rdr) := read_u8 rdr in
  let? (root_entries, rdr) := read_u16_le rdr in
  let? (total_sectors_16, rdr) := read_u16_le rdr in
  let? (media, rdr) := read_u8 rdr in
  let? (sectors_per_fat_16, rdr) := read_u16_le rdr in
  let? (sectors_per_track, rdr) := read_u16_le rdr in
  let? (heads, rdr) := read_u16_le rdr in
  let? (hidden_sectors, rdr) := read_u32_le rdr in
  let? (total_sectors_32, rdr) := read_u32_le rdr in
  let? (e, rdr) :=
    (if sectors_per_fat_16 =? 0 then
      let? (sectors_per_fat_32, rdr) := read_u32_le rdr in
      let? (extended_flags, rdr) := read_u16_le rdr in
      let? (fs_version, rdr) := read_u16_le rdr in
      let? (root_dir_first_cluster, rdr) := read_u32_le rdr in
      let? (fs_info_sector, rdr) := read_u16_le rdr in
      let? (backup_boot_sector, rdr) := read_u16_le rdr in
      let? (reserved_0, rdr) := read_exact rdr (zeros 12) in
      Ret (Ok (sectors_per_fat_32, extended_flags, fs_version, root_dir_first_cluster,
               fs_info_sector, backup_boot_sector, reserved_0), rdr)
    else Ret (Ok (0, 0, 0, 0, 0, 0, zeros 12), rdr)) in
  let '(sectors_per_fat_32, extended_flags, fs_version, root_dir_first_cluster,
        fs_info_sector, backup_boot_sector, reserved_0) := e in
  let? (drive_num, rdr) := read_u8 rdr in
  let? (reserved_1, rdr) := read_u8 rdr in
  let? (ext_sig, rdr) := read_u8 rdr in
  let? (volume_id, rdr) := read_u32_le rdr in
  let? (volume_label, rdr) := read_exact rdr (zeros 11) in
  let? (fs_type_label, rdr) := read_exact rdr (zeros 8) in
  let valid := ext_sig =? 0x29 in
  Ret (Ok (mkBpb bytes_per_sector sectors_per_cluster reserved_sectors fats root_entries
    total_sectors_16 media sectors_per_fat_16 sectors_per_track heads hidden_sectors
    total_sectors_32 sectors_per_fat_32 extended_flags fs_version root_dir_first_cluster
    fs_info_sector backup_boot_sector reserved_0 drive_num reserved_1 ext_sig
    (if valid then volume_id else 0) (if valid then volume_label else zeros 11)
    (if valid then fs_type_label else zeros 8)), rdr).

Definition Bpb_serialize (self : BiosParameterBlock) (wrt : S) : out (result Error unit * S) :=
  let? (_, wrt) := write_u16_le wrt (b_bytes_per_sector self) in
  let? (_, wrt) := write_u8 wrt (b_sectors_per_cluster self) in
  let? (_, wrt) := write_u16_le wrt (b_reserved_sectors self) in
  let? (_, wrt) := write_u8 wrt (b_fats self) in
  let? (_, wrt) := write_u16_le wrt (b_root_entries self) in
  let? (_, wrt) := write_u16_le wrt (b_total_sectors_16 self) in
  let? (_, wrt) := write_u8 wrt (b_media self) in
  let? (_, wrt) := write_u16_le wrt (b_sectors_per_fat_16 self) in
  let? (_, wrt) := write_u16_le wrt (b_sectors_per_track self) in
  let? (_, wrt) := write_u16_le wrt (b_heads self) in
  let? (_, wrt) := write_u32_le wrt (b_hidden_sectors self) in
  let? (_, wrt) := write_u32_le wrt (b_total_sectors_32 self) in
  let? (_, wrt) :=
    (if is_fat32 self then
      let? (_, wrt) := write_u32_le wrt (b_sectors_per_fat_32 self) in
      let? (_, wrt) := write_u16_le wrt (b_extended_flags self) in
      let? (_, wrt) := write_u16_le wrt (b_fs_version self) in
      let? (_, wrt) := write_u32_le wrt (b_root_dir_first_cluster self) in
      let? (_, wrt) := write_u16_le wrt (b_fs_info_sector self) in
      let? (_, wrt) := write_u16_le wrt (b_backup_boot_sector self) in
      write_all wrt (b_reserved_0 self)
    else Ret (Ok tt, wrt)) in
  let? (_, wrt) := write_u8 wrt (b_drive_num self) in
  let? (_, wrt) := write_u8 wrt (b_reserved_1 self) in
  let? (_, wrt) := write_u8 wrt (b_ext_sig self) in
  let? (_, wrt) := write_u32_le wrt (b_volume_id self) in
  let? (_, wrt) := write_all wrt (b_volume_label self) in
  write_all wrt (b_fs_type_label self).

End Codec.

(** ** Validation

    Each check returns [Ok] or [CorruptedFileSystem]; warnings only write to the log. *)

(** [count_ones] of a [w]-bit integer. *)
Definition count_ones (w x : Z) : Z := zlen (List.filter (Z.testbit x) (range 0 w)).

Definition check (b : bool) : result Error unit := if b then Ok tt else Err CorruptedFileSystem.

(** [a?; b] for checks, which can panic too. *)
Definition and_then (a b : out (result Error unit)) : out (result Error unit) :=
  r ← a; match r with Ok _ => b | Err e => Ret (Err e) end.

Definition validate_bytes_per_sector self : out (result Error unit) :=
  and_then (Ret (check (count_ones 16 (b_bytes_per_sector self) =? 1)))
    (Ret (check (negb ((b_bytes_per_sector self <? 512) || (4096 <? b_bytes_per_sector self))))).

Definition validate_sectors_per_cluster self : out (result Error unit) :=
  and_then (Ret (check (count_ones 8 (b_sectors_per_cluster self) =? 1)))
    (and_then (Ret (check (negb ((b_sectors_per_cluster self <? 1) || (128 <? b_sectors_per_cluster self)))))
      (_ ← mul_u 32 (b_bytes_per_sector self) (b_sectors_per_cluster self);
       Ret (Ok tt))).

Definition validate_reserved_sectors self : out (result Error unit) :=
  and_then (Ret (check (negb (b_reserved_sectors self <? 1))))
    (and_then (Ret (check (negb (is_fat32 self && (b_reserved_sectors self <=? b_backup_boot_sector self)))))
      (Ret (check (negb (is_fat32 self && (b_reserved_sectors self <=? b_fs_info_sector self)))))).

Definition validate_fats self : out (result Error unit) := Ret (check (negb (b_fats self =? 0))).

Definition validate_root_entries self : out (result Error unit) :=
  and_then (Ret (check (negb (is_fat32 self && negb (b_root_entries self =? 0)))))
    (and_then (Ret (check (negb (negb (is_fat32 self) && (b_root_entries self =? 0)))))
      (bytes ← mul_u 32 (b_root_entries self) DIR_ENTRY_SIZE;
       _ ← rem_u bytes (b_bytes_per_sector self);
       Ret (Ok tt))).

Definition validate_total_sectors self : out (result Error unit) :=
  and_then (Ret (check (negb (is_fat32 self && negb (b_total_sectors_16 self =? 0)))))
    (and_then (Ret (check (negb (eqb (b_total_sectors_16 self =? 0) (b_total_sectors_32 self =? 0)))))
      (first_data_sector ← first_data_sector self;
       Ret (check (negb (total_sectors self <=? first_data_sector))))).

Definition validate_sectors_per_fat self : out (result Error unit) :=
  Ret (check (negb (is_fat32 self && (b_sectors_per_fat_32 self =? 0)))).

Definition validate_total_clusters self : out (result Error unit) :=
  total_clusters ← total_clusters self;
  let fat_type := from_clusters total_clusters in
  and_then (Ret (check (eqb (is_fat32 self) (bool_decide (fat_type = Fat32)))))
    (and_then (Ret (check (negb (bool_decide (fat_type = Fat32) && (0x0FFFFFFF <? total_clusters)))))
      (x ← mul_u 32 (sectors_per_fat self) (b_bytes_per_sector self);
       y ← mul_u 32 x 8;
       let total_fat_entries := y / bits_per_fat_entry fat_type in
       _ ← sub_u 32 total_fat_entries RESERVED_FAT_ENTRIES;
       Ret (Ok tt))).

Definition Bpb_validate self : out (result Error unit) :=
  and_then (Ret (check (b_fs_version self =? 0)))
    (and_then (validate_bytes_per_sector self)
      (and_then (validate_sectors_per_cluster self)
        (and_then (validate_reserved_sectors self)
          (and_then (validate_fats self)
            (and_then (validate_root_entries self)
              (and_then (validate_total_sectors self)
                (and_then (validate_sectors_per_fat self)
                  (validate_total_clusters self)))))))).

End Bpb.

(** ** The boot sector *)

Record BootSector := mkBoot {
  bootjmp : list Z;
  oem_name : list Z;
  boot_bpb : BiosParameterBlock;
  boot_code : list Z;
  boot_sig : list Z;
}.

Definition BootSector_default : BootSector :=
  mkBoot (zeros 3) (zeros 8) Bpb_default (zeros 448) (zeros 2).

Section Boot.
Context {P : Profile}.

Section Codec.
Context {S : Type} {ST : Storage S}.

Definition BootSector_deserialize (rdr : S) : out (result Error BootSector * S) :=
  let? (bootjmp, rdr) := read_exact rdr (zeros 3) in
  let? (oem_name, rdr) := read_exact rdr (zeros 8) in
  let? (bpb, rdr) := Bpb_deserialize rdr in
  let? (boot_code, rdr) :=
    (if is_fat32 bpb then
       let? (code, rdr) := read_exact rdr (zeros 420) in Ret (Ok (code ++ zeros 28), rdr)
     else read_exact rdr (zeros 448)) in
  let? (boot_sig, rdr) := read_exact rdr (zeros 2) in
  Ret (Ok (mkBoot bootjmp oem_name bpb boot_code boot_sig), rdr).

Definition BootSector_serialize (self : BootSector) (wrt : S) : out (result Error unit * S) :=
  let? (_, wrt) := write_all wrt (bootjmp self) in
  let? (_, wrt) := write_all wrt (oem_name self) in
  let? (_, wrt) := Bpb_serialize (boot_bpb self) wrt in
  code ← slice (boot_code self) 0 (if is_fat32 (boot_bpb self) then 420 else 448);
  let? (_, wrt) := write_all wrt code in
  write_all wrt (boot_sig self).

End Codec.

Definition BootSector_validate (self : BootSector) : out (result Error unit) :=
  and_then (Ret (check (bool_decide (boot_sig self = [0x55; 0xAA])))) (Bpb_validate (boot_bpb self)).

(** ** Formatting: the geometry of a new volume *)

Record FormatVolumeOptions := mkOptions {
  o_bytes_per_sector : option Z;
  o_total_sectors : option Z;
  o_bytes_per_cluster : option Z;
  o_fat_type : option FatType;
  o_max_root_dir_entries : option Z;
  o_fats : option Z;
  o_media : option Z;
  o_sectors_per_track : option Z;
  o_heads : option Z;
  o_drive_num : option Z;
  o_volume_id : option Z;
  o_volume_label : option (list Z);
}.

Definition FormatVolumeOptions_new : FormatVolumeOptions :=
  mkOptions None None None None None None None None None None None None.

Definition estimate_fat_type (total_bytes : Z) : FatType :=
  if total_bytes <? 4 * MB_64 then Fat12
  else if total_bytes <? 512 * MB_64 then Fat16
  else Fat32.

(** [u64::next_power_of_two], which overflows above 2^63. *)
Definition next_power_of_two (x : Z) : out Z := norm 64 (2 ^ Z.log2_up x).

Definition is_power_of_two (w x : Z) : bool := count_ones w x =? 1.

Definition determine_bytes_per_cluster (total_bytes bytes_per_sector : Z) (fat_type : option FatType) : out Z :=
  let fat_type := default (estimate_fat_type total_bytes) fat_type in
  bytes_per_cluster ← match fat_type with
    | Fat12 =>
        n ← next_power_of_two total_bytes;
        x ← mul_u 64 (n / MB_64) 512;
        Ret (wrap 32 x)
    | Fat16 =>
        if total_bytes <=? 16 * MB_64 then Ret KB
        else if total_bytes <=? 128 * MB_64 then Ret (2 * KB)
        else
          n ← next_power_of_two total_bytes;
          mul_u 32 (wrap 32 (n / (64 * MB_64))) KB
    | Fat32 =>
        if total_bytes <=? 260 * MB_64 then Ret 512
        else if total_bytes <=? 8 * GB_64 then Ret (4 * KB)
        else
          n ← next_power_of_two total_bytes;
          mul_u 32 (wrap 32 (n / (2 * GB_64))) KB
    end;
  let clamped := Z.min (Z.max bytes_per_cluster bytes_per_sector) (32 * KB) in
  _ ← debug_assert (is_power_of_two 32 clamped);
  Ret clamped.

Definition determine_sectors_per_fat (total_sectors bytes_per_sector sectors_per_cluster : Z)
    (fat_type : FatType) (reserved_sectors root_dir_sectors fats : Z) : out Z :=
  t ← sub_u 32 total_sectors reserved_sectors;
  t0 ← sub_u 32 t root_dir_sectors;
  two ← mul_u 32 2 sectors_per_cluster;
  t1 ← add_u 64 t0 two;
  x ← mul_u 32 sectors_per_cluster bytes_per_sector;
  bits_per_cluster ← mul_u 32 x BITS_PER_BYTE;
  t2 ← add_u 32 (bits_per_cluster / bits_per_fat_entry fat_type) fats;
  y ← add_u 64 t1 t2;
  z ← sub_u 64 y 1;
  sectors_per_fat ← div_u z t2;
  Ret (wrap 32 sectors_per_fat).

Definition try_fs_geometry (total_sectors bytes_per_sector sectors_per_cluster : Z)
    (fat_type : FatType) (root_dir_sectors fats : Z) : out (result Error (Z * Z)) :=
  let reserved_sectors := if decide (fat_type = Fat32) then 8 else 1 in
  a ← add_u 32 reserved_sectors root_dir_sectors;
  b ← add_u 32 a 8;
  if total_sectors <=? b then Ret (Err InvalidInput)
  else
    sectors_per_fat ← determine_sectors_per_fat total_sectors bytes_per_sector sectors_per_cluster
      fat_type reserved_sectors root_dir_sectors fats;
    x ← sub_u 32 total_sectors reserved_sectors;
    y ← sub_u 32 x root_dir_sectors;
    z ← mul_u 32 sectors_per_fat fats;
    data_sectors ← sub_u 32 y z;
    total_clusters ← div_u data_sectors sectors_per_cluster;
    if negb (bool_decide (fat_type = from_clusters total_clusters)) then Ret (Err InvalidInput)
    else
      _ ← debug_assert (min_clusters fat_type <=? total_clusters);
      if max_clusters fat_type <? total_clusters then Ret (Err InvalidInput)
      else Ret (Ok (reserved_sectors, sectors_per_fat)).

Definition determine_root_dir_sectors (root_dir_entries bytes_per_sector : Z) (fat_type : FatType) : out Z :=
  if decide (fat_type = Fat32) then Ret 0
  else
    root_dir_bytes ← mul_u 32 root_dir_entries DIR_ENTRY_SIZE;
    x ← add_u 32 root_dir_bytes bytes_per_sector;
    y ← sub_u 32 x 1;
    div_u y bytes_per_sector.

(** The first kind that fits, of those in the list. *)
Fixpoint fs_geometry_of (kinds : list FatType) (total_sectors bytes_per_sector sectors_per_cluster
    root_dir_entries fats : Z) : out (result Error (FatType * Z * Z)) :=
  match kinds with
  | [] => Ret (Err InvalidInput)
  | fat_type :: kinds =>
      root_dir_sectors ← determine_root_dir_sectors root_dir_entries bytes_per_sector fat_type;
      result ← try_fs_geometry total_sectors bytes_per_sector sectors_per_cluster fat_type
        root_dir_sectors fats;
      match result with
      | Ok (reserved_sectors, sectors_per_fat) => Ret (Ok (fat_type, reserved_sectors, sectors_per_fat))
      | Err _ => fs_geometry_of kinds total_sectors bytes_per_sector sectors_per_cluster root_dir_entries fats
      end
  end.

Definition determine_fs_geometry : Z → Z → Z → Z → Z → out (result Error (FatType * Z * Z)) :=
  fs_geometry_of [Fat32; Fat16; Fat12].

(** ["FAT12   "] and its like, and ["NO NAME    "]. *)
Definition fs_type_label (t : FatType) : list Z :=
  match t with
  | Fat12 => [0x46; 0x41; 0x54; 0x31; 0x32; 0x20; 0x20; 0x20]
  | Fat16 => [0x46; 0x41; 0x54; 0x31; 0x36; 0x20; 0x20; 0x20]
  | Fat32 => [0x46; 0x41; 0x54; 0x33; 0x32; 0x20; 0x20; 0x20]
  end.

Definition no_name : list Z := [0x4E; 0x4F; 0x20; 0x4E; 0x41; 0x4D; 0x45; 0x20; 0x20; 0x20; 0x20].

Definition format_bpb (options : FormatVolumeOptions) (total_sectors bytes_per_sector : Z) :
    out (result Error (BiosParameterBlock * FatType)) :=
  bytes_per_cluster ← match o_bytes_per_cluster options with
    | Some n => Ret n
    | None =>
        total_bytes ← mul_u 64 total_sectors bytes_per_sector;
        determine_bytes_per_cluster total_bytes bytes_per_sector (o_fat_type options)
    end;
  sectors_per_cluster ← div_u bytes_per_cluster bytes_per_sector;
  _ ← assert (sectors_per_cluster <=? 255);
  let sectors_per_cluster := wrap 8 sectors_per_cluster in
  let fats := default 2 (o_fats options) in
  let root_dir_entries := default 512 (o_max_root_dir_entries options) in
  geometry ← determine_fs_geometry total_sectors bytes_per_sector sectors_per_cluster root_dir_entries fats;
  match geometry with
  | Err e => Ret (Err e)
  | Ok (fat_type, reserved_sectors, sectors_per_fat) =>
      let is32 := bool_decide (fat_type = Fat32) in
      let drive_num := default (if bool_decide (fat_type = Fat12) then 0 else 0x80) (o_drive_num options) in
      let volume_label := default no_name (o_volume_label options) in
      sectors_per_fat_16 ←
        (if is32 then Ret 0
         else _ ← debug_assert (sectors_per_fat <=? 0xFFFF); Ret (wrap 16 sectors_per_fat));
      let bpb := mkBpb bytes_per_sector sectors_per_cluster reserved_sectors fats
        (if is32 then 0 else root_dir_entries)
        (if total_sectors <? 0x10000 then wrap 16 total_sectors else 0)
        (default 0xF8 (o_media options)) sectors_per_fat_16
        (default 0x20 (o_sectors_per_track options)) (default 0x40 (o_heads options)) 0
        (if 0x10000 <=? total_sectors then total_sectors else 0)
        (if is32 then sectors_per_fat else 0) 0 0 (if is32 then 2 else 0)
        (if is32 then 1 else 0) (if is32 then 6 else 0) (zeros 12) drive_num 0 0x29
        (default 0x12345678 (o_volume_id options)) volume_label (fs_type_label fat_type) in
      total_clusters ← total_clusters bpb;
      if negb (bool_decide (from_clusters total_clusters = fat_type)) then Ret (Err InvalidInput)
      else Ret (Ok (bpb, fat_type))
  end.

(** The code that prints a message, for a FAT32 boot sector. *)
Definition default_boot_code : list Z := [
  0x0E; 0x1F; 0xBE; 0x77; 0x7C; 0xAC; 0x22; 0xC0; 0x74; 0x0B; 0x56; 0xB4; 0x0E; 0xBB; 0x07; 0x00; 0xCD; 0x10;
  0x5E; 0xEB; 0xF0; 0x32; 0xE4; 0xCD; 0x16; 0xCD; 0x19; 0xEB; 0xFE; 0x54; 0x68; 0x69; 0x73; 0x20; 0x69; 0x73;
  0x20; 0x6E; 0x6F; 0x74; 0x20; 0x61; 0x20; 0x62; 0x6F; 0x6F; 0x74; 0x61; 0x62; 0x6C; 0x65; 0x20; 0x64; 0x69;
  0x73; 0x6B; 0x2E; 0x20; 0x20; 0x50; 0x6C; 0x65; 0x61; 0x73; 0x65; 0x20; 0x69; 0x6E; 0x73; 0x65; 0x72; 0x74;
  0x20; 0x61; 0x20; 0x62; 0x6F; 0x6F; 0x74; 0x61; 0x62; 0x6C; 0x65; 0x20; 0x66; 0x6C; 0x6F; 0x70; 0x70; 0x79;
  0x20; 0x61; 0x6E; 0x64; 0x0D; 0x0A; 0x70; 0x72; 0x65; 0x73; 0x73; 0x20; 0x61; 0x6E; 0x79; 0x20; 0x6B; 0x65;
  0x79; 0x20; 0x74; 0x6F; 0x20; 0x74; 0x72; 0x79; 0x20; 0x61; 0x67; 0x61; 0x69; 0x6E; 0x20; 0x2E; 0x2E; 0x2E;
  0x20; 0x0D; 0x0A].

Definition format_boot_sector (options : FormatVolumeOptions) (total_sectors bytes_per_sector : Z) :
    out (result Error (BootSector * FatType)) :=
  r ← format_bpb options total_sectors bytes_per_sector;
  match r with
  | Err e => Ret (Err e)
  | Ok (bpb, fat_type) =>
      let code := splice (zeros 448) 0 default_boot_code in
      let oem_name := [0x4D; 0x53; 0x57; 0x49; 0x4E; 0x34; 0x2E; 0x31] in
      if decide (fat_type = Fat32)
      then Ret (Ok (mkBoot [0xEB; 0x58; 0x90] oem_name bpb code [0x55; 0xAA], fat_type))
      else
        let BOOT_CODE_OFFSET := 0x36 + 8 in
        let MESSAGE_OFFSET := 29 in
        let message_offset_in_sector := BOOT_CODE_OFFSET + MESSAGE_OFFSET + 0x7c00 in
        code ← store code 3 (Z.land message_offset_in_sector 0xff);
        code ← store code 4 (Z.shiftr message_offset_in_sector 8);
        Ret (Ok (mkBoot [0xEB; BOOT_CODE_OFFSET - 2; 0x90] oem_name bpb code [0x55; 0xAA], fat_type))
  end.

End Boot.

(** ** The encoding of a boot sector *)

Definition Bpb_bytes (b : BiosParameterBlock) : list Z :=
  to_le 2 (b_bytes_per_sector b) ++ [b_sectors_per_cluster b] ++ to_le 2 (b_reserved_sectors b) ++
  [b_fats b] ++ to_le 2 (b_root_entries b) ++ to_le 2 (b_total_sectors_16 b) ++ [b_media b] ++
  to_le 2 (b_sectors_per_fat_16 b) ++ to_le 2 (b_sectors_per_track b) ++ to_le 2 (b_heads b) ++
  to_le 4 (b_hidden_sectors b) ++ to_le 4 (b_total_sectors_32 b) ++
  (if is_fat32 b then
     to_le 4 (b_sectors_per_fat_32 b) ++ to_le 2 (b_extended_flags b) ++ to_le 2 (b_fs_version b) ++
     to_le 4 (b_root_dir_first_cluster b) ++ to_le 2 (b_fs_info_sector b) ++
     to_le 2 (b_backup_boot_sector b) ++ b_reserved_0 b
   else []) ++
  [b_drive_num b] ++ [b_reserved_1 b] ++ [b_ext_sig b] ++ to_le 4 (b_volume_id b) ++
  b_volume_label b ++ b_fs_type_label b.

(** The fields have their widths. *)
Definition Bpb_wf (b : BiosParameterBlock) : bool :=
  in_range 16 (b_bytes_per_sector b) && in_range 8 (b_sectors_per_cluster b) &&
  in_range 16 (b_reserved_sectors b) && in_range 8 (b_fats b) && in_range 16 (b_root_entries b) &&
  in_range 16 (b_total_sectors_16 b) && in_range 8 (b_media b) && in_range 16 (b_sectors_per_fat_16 b) &&
  in_range 16 (b_sectors_per_track b) && in_range 16 (b_heads b) && in_range 32 (b_hidden_sectors b) &&
  in_range 32 (b_total_sectors_32 b) && in_range 32 (b_sectors_per_fat_32 b) &&
  in_range 16 (b_extended_flags b) && in_range 16 (b_fs_version b) &&
  in_range 32 (b_root_dir_first_cluster b) && in_range 16 (b_fs_info_sector b) &&
  in_range 16 (b_backup_boot_sector b) && bytes_wf 12 (b_reserved_0 b) && in_range 8 (b_drive_num b) &&
  in_range 8 (b_reserved_1 b) && in_range 8 (b_ext_sig b) && in_range 32 (b_volume_id b) &&
  bytes_wf 11 (b_volume_label b) && bytes_wf 8 (b_fs_type_label b).

(** What is stored of a parameter block: a FAT12 or FAT16 one has no place for the FAT32
    fields, and the label is only valid with the extended signature. *)
Definition Bpb_stored (b : BiosParameterBlock) : BiosParameterBlock :=
  let x := is_fat32 b in
  let v := b_ext_sig b =? 0x29 in
  mkBpb (b_bytes_per_sector b) (b_sectors_per_cluster b) (b_reserved_sectors b) (b_fats b)
    (b_root_entries b) (b_total_sectors_16 b) (b_media b) (b_sectors_per_fat_16 b)
    (b_sectors_per_track b) (b_heads b) (b_hidden_sectors b) (b_total_sectors_32 b)
    (if x then b_sectors_per_fat_32 b else 0) (if x then b_extended_flags b else 0)
    (if x then b_fs_version b else 0) (if x then b_root_dir_first_cluster b else 0)
    (if x then b_fs_info_sector b else 0) (if x then b_backup_boot_sector b else 0)
    (if x then b_reserved_0 b else zeros 12) (b_drive_num b) (b_reserved_1 b) (b_ext_sig b)
    (if v then b_volume_id b else 0) (if v then b_volume_label b else zeros 11)
    (if v then b_fs_type_label b else zeros 8).

Definition Boot_bytes (b : BootSector) : list Z :=
  bootjmp b ++ oem_name b ++ Bpb_bytes (boot_bpb b) ++
  take (if is_fat32 (boot_bpb b) then 420 else 448) (boot_code b) ++ boot_sig b.

Definition Boot_wf (b : BootSector) : bool :=
  bytes_wf 3 (bootjmp b) && bytes_wf 8 (oem_name b) && Bpb_wf (boot_bpb b) &&
  bytes_wf 448 (boot_code b) && bytes_wf 2 (boot_sig b).

Definition Boot_stored (b : BootSector) : BootSector :=
  mkBoot (bootjmp b) (oem_name b) (Bpb_stored (boot_bpb b))
    (if is_fat32 (boot_bpb b) then take 420 (boot_code b) ++ zeros 28 else boot_code b) (boot_sig b).

Section BootProofs.
Context {P : Profile} {S : Type} {ST : Storage S} {V : View S} {FS : FlatStorage S}.

Lemma Bpb_serialize_ok (b : BiosParameterBlock) (s0 s : S) l : v_ok s0 → Bpb_wf b = true →
  Output s0 s l → v_pos s0 + zlen (l ++ Bpb_bytes b) ≤ v_size s0 →
  ∃ s', Bpb_serialize b s = Ret (Ok tt, s') ∧ Output s0 s' (l ++ Bpb_bytes b).
Proof.
  intros Hok Hwf HO Hfit. unfold Bpb_wf in Hwf. wf_fields Hwf.
  unfold Bpb_serialize, write_u16_le, write_u32_le, write_u8. unfold Bpb_bytes in *.
  destruct (is_fat32 b); zl_in Hfit.
  - do 25 out_step HO. eexists. split; [reflexivity|]. by rewrite <- !app_assoc in HO.
  - do 18 out_step HO. eexists. split; [reflexivity|]. by rewrite <- !app_assoc in HO.
Qed.

Lemma Bpb_deserialize_ok (b : BiosParameterBlock) (s : S) l : Bpb_wf b = true → Input s (Bpb_bytes b ++ l) →
  ∃ s', Bpb_deserialize s = Ret (Ok (Bpb_stored b), s') ∧ Input s' l ∧ Moved s s' (zlen (Bpb_bytes b)).
Proof.
  intros Hwf HI. unfold Bpb_wf in Hwf. wf_fields Hwf. pose proof (Moved_refl s (in_ok _ _ HI)) as HM.
  unfold Bpb_deserialize, read_u16_le, read_u32_le. unfold Bpb_stored, Bpb_bytes in *. rewrite <- !app_assoc in HI.
  do 12 in_step HI HM. change (b_sectors_per_fat_16 b =? 0) with (is_fat32 b). destruct (is_fat32 b) eqn:E32.
  - rewrite <- !app_assoc in HI. do 7 in_step HI HM. do 6 in_step HI HM.
    eexists. split; [reflexivity|]. split; [exact HI|]. zl. eapply eq_ind; [exact HM|]. lia.
  - rewrite app_nil_l in HI. cbn [bind_result]. do 6 in_step HI HM.
    eexists. split; [reflexivity|]. split; [exact HI|]. zl. eapply eq_ind; [exact HM|]. lia.
Qed.

Lemma zlen_Bpb_bytes b : Bpb_wf b = true → zlen (Bpb_bytes b) = if is_fat32 b then 79 else 51.
Proof.
  intros Hwf. unfold Bpb_wf in Hwf. wf_fields Hwf. unfold Bpb_bytes. destruct (is_fat32 b); zl; lia.
Qed.

(** A boot sector is 512 bytes. *)
Lemma zlen_Boot_bytes b : Boot_wf b = true → zlen (Boot_bytes b) = 512.
Proof.
  intros Hwf. unfold Boot_wf in Hwf. wf_fields Hwf. unfold Boot_bytes. zl. rewrite zlen_Bpb_bytes by done.
  destruct (is_fat32 (boot_bpb b)).
  - change 420%nat with (Z.to_nat 420). rewrite zlen_take by lia. lia.
  - change 448%nat with (Z.to_nat 448). rewrite zlen_take by lia. lia.
Qed.

Lemma BootSector_serialize_ok (b : BootSector) (s : S) : v_ok s → Boot_wf b = true → v_pos s + 512 ≤ v_size s →
  ∃ s', BootSector_serialize b s = Ret (Ok tt, s') ∧ Output s s' (Boot_bytes b).
Proof.
  intros Hok Hwf Hfit. pose proof (zlen_Boot_bytes b Hwf) as Hlen. unfold Boot_wf in Hwf. wf_fields Hwf.
  unfold Boot_bytes in Hlen. zl_in Hlen.
  pose proof (output_nil s Hok) as HO. unfold BootSector_serialize.
  pose proof (zlen_nonneg (Bpb_bytes (boot_bpb b))).
  assert (0 ≤ zlen (take (if is_fat32 (boot_bpb b) then 420%nat else 448%nat) (boot_code b))) by apply zlen_nonneg.
  do 2 out_step HO. destruct (Bpb_serialize_ok (boot_bpb b) s _ _ Hok ltac:(done) HO) as (s3 & -> & HO3); [zl; lia|]. run.
  rewrite slice_head by (destruct (is_fat32 (boot_bpb b)); lia). run.
  replace (Z.to_nat (if is_fat32 (boot_bpb b) then 420 else 448)) with (if is_fat32 (boot_bpb b) then 420%nat else 448%nat)
    by (by destruct (is_fat32 (boot_bpb b))).
  assert (Forall is_byte (take (if is_fat32 (boot_bpb b) then 420%nat else 448%nat) (boot_code b))) by (by apply Forall_take).
  clear HO. rename HO3 into HO. do 2 out_step HO. eexists. split; [reflexivity|]. by rewrite <- !app_assoc in HO.
Qed.

Lemma BootSector_deserialize_ok (b : BootSector) (s : S) : Boot_wf b = true → Input s (Boot_bytes b) →
  ∃ s', BootSector_deserialize s = Ret (Ok (Boot_stored b), s') ∧ Moved s s' 512.
Proof.
  intros Hwf HI. pose proof (zlen_Boot_bytes b Hwf) as Hlen. unfold Boot_wf in Hwf. wf_fields Hwf.
  pose proof (Moved_refl s (in_ok _ _ HI)) as HM. unfold BootSector_deserialize, Boot_stored.
  unfold Boot_bytes in *. zl_in Hlen. rewrite <- (app_nil_r (boot_sig b)) in HI. do 2 in_step HI HM.
  destruct (Bpb_deserialize_ok (boot_bpb b) _ _ ltac:(done) HI) as (s3 & -> & HI3 & HM3). run.
  pose proof (Moved_trans _ _ _ _ _ HM HM3) as HM'. clear HM HM3 HI. rename HI3 into HI, HM' into HM.
  change (is_fat32 (Bpb_stored (boot_bpb b))) with (is_fat32 (boot_bpb b)).
  destruct (is_fat32 (boot_bpb b)) eqn:E32.
  - assert (zlen (take 420 (boot_code b)) = 420) by (change 420%nat with (Z.to_nat 420); rewrite zlen_take; lia).
    do 2 in_step HI HM. eexists. split; [reflexivity|]. eapply eq_ind; [exact HM|]. lia.
  - rewrite take_ge in * by (unfold zlen in *; lia).
    do 2 in_step HI HM. eexists. split; [reflexivity|]. eapply eq_ind; [exact HM|]. lia.
Qed.

(** Writing a boot sector and reading it back gives it again: 512 bytes at the
    position, every field with its value (a FAT12 or FAT16 sector has no FAT32 fields,
    and the label only counts with the extended signature); nothing else changes. *)
Theorem boot_sector_roundtrip (b : BootSector) (s : S)
    (Hok : v_ok s) (Hwf : Boot_wf b = true) (Hfit : v_pos s + 512 ≤ v_size s) :
  ∃ s1 s2 s3, BootSector_serialize b s = Ret (Ok tt, s1) ∧ v_pos s1 = v_pos s + 512 ∧
    st_seek s1 (SeekStart (v_pos s)) = Ret (Ok (v_pos s), s2) ∧
    BootSector_deserialize s2 = Ret (Ok (Boot_stored b), s3) ∧ v_frame s s3 ∧
    ∀ i, 0 ≤ i < v_size s → i < v_pos s ∨ v_pos s + 512 ≤ i → v_byte s3 i = v_byte s i.
Proof.
  pose proof (v_small s Hok) as [Hp _]. pose proof (zlen_Boot_bytes b Hwf) as Hl.
  destruct (BootSector_serialize_ok b s Hok Hwf Hfit) as (s1 & E1 & HO).
  pose proof HO as [Hok1 Hs1 Hp1 Hb1 Hf1]. rewrite Hl in Hp1.
  destruct (v_seek s1 (v_pos s)) as (s2 & E2 & U2); [done|lia|].
  destruct (BootSector_deserialize_ok b s2 Hwf) as (s3 & E3 & U3).
  { eapply (output_input s s1); [done|lia|lia|done|done]. }
  pose proof U2 as [_ Hs2 _ Hb2 Hf2]. pose proof U3 as [_ Hs3 _ Hb3 Hf3].
  exists s1, s2, s3. split_and!; [done|done|done|done|by etrans; [|etrans]|].
  intros i Hi Hout. rewrite Hb3, Hb2, Hb1 by lia. unfold spec_write. case_bool; [lia|done].
Qed.

End BootProofs.

(** ** The geometry of a new volume *)

Section Geometry.
Context {P : Profile}.

(** The size of the table in sectors, for [t0] sectors of tables and data. *)
Definition table_denominator (bps spc fats : Z) (t : FatType) : Z :=
  spc * bps * 8 / bits_per_fat_entry t + fats.

Definition table_sectors (t0 bps spc fats : Z) (t : FatType) : Z :=
  (t0 + 2 * spc + table_denominator bps spc fats t - 1) / table_denominator bps spc fats t.

Lemma bits_range t : 12 ≤ bits_per_fat_entry t ≤ 32.
Proof. destruct t; cbn; lia. Qed.

Lemma denominator_range bps spc fats t : 512 ≤ bps ≤ 4096 → 1 ≤ spc ≤ 128 → 1 ≤ fats ≤ 2 →
  let q := spc * bps * 8 / bits_per_fat_entry t in
  128 * spc ≤ q ≤ 349526 ∧ q * bits_per_fat_entry t ≤ spc * bps * 8 < (q + 1) * bits_per_fat_entry t.
Proof.
  intros Hb Hs Hf. cbv zeta. pose proof (bits_range t) as Hbt. set (B := bits_per_fat_entry t) in *.
  pose proof (Z.div_mod (spc * bps * 8) B ltac:(lia)). pose proof (Z.mod_pos_bound (spc * bps * 8) B ltac:(lia)).
  assert (128 * spc * 32 ≤ spc * bps * 8) by nia. assert (spc * bps * 8 ≤ 128 * 4096 * 8) by nia.
  split_and!; [apply Z.div_le_lower_bound; nia| |nia|nia].
  apply Z.div_le_upper_bound; nia.
Qed.

(** The tables leave room for data, and hold an entry for every cluster of it. *)
Lemma table_sectors_ok t0 bps spc fats t : 9 ≤ t0 → 512 ≤ bps ≤ 4096 → 1 ≤ spc ≤ 128 → 1 ≤ fats ≤ 2 →
  let spf := table_sectors t0 bps spc fats t in
  let clusters := (t0 - fats * spf) / spc in
  1 ≤ spf ∧ fats * spf < t0 ∧ 0 ≤ clusters ∧ clusters * spc ≤ t0 - fats * spf < (clusters + 1) * spc ∧
  (clusters + 2) * bits_per_fat_entry t ≤ spf * bps * 8 ∧
  (spf - 1) * (spc * bps * 8 / bits_per_fat_entry t) < (clusters + 3) * spc + fats.
Proof.
  intros Ht Hb Hs Hf. cbv zeta. destruct (denominator_range bps spc fats t Hb Hs Hf) as [Hq1 Hq2].
  pose proof (bits_range t) as Hbt. set (B := bits_per_fat_entry t) in *.
  unfold table_sectors, table_denominator. fold B. set (q := spc * bps * 8 / B) in *.
  set (d := q + fats). set (num := t0 + 2 * spc + d - 1).
  pose proof (Z.div_mod num d ltac:(unfold d; lia)) as E1. pose proof (Z.mod_pos_bound num d ltac:(unfold d; lia)) as E2.
  set (spf := num / d) in *.
  assert (1 ≤ spf) as H1 by (apply Z.div_le_lower_bound; unfold num, d; lia).
  assert (spf * d ≤ t0 + 2 * spc + d - 1) as Hup by (unfold num in *; lia).
  assert (t0 + 2 * spc ≤ spf * d) as Hlo by (unfold num in *; lia).
  assert (fats * spf < t0) as H2.
  { destruct (Z_lt_le_dec (fats * spf) t0) as [?|Hge]; [done|exfalso].
    assert (t0 ≤ 2 * spf) by nia. assert (129 ≤ d) by (unfold d; lia). assert (128 * spc < d) by (unfold d; lia).
    assert (t0 * d ≤ 2 * (spf * d)) by nia. assert ((t0 - 2) * d ≤ 2 * t0 + 4 * spc) by nia.
    assert (64 * (t0 - 2) + 64 * spc ≤ (t0 - 2) * d) by nia. lia. }
  set (D := t0 - fats * spf) in *. assert (0 < D) by (unfold D; lia).
  pose proof (Z.div_mod D spc ltac:(lia)). pose proof (Z.mod_pos_bound D spc ltac:(lia)).
  assert (0 ≤ D / spc) by (apply Z.div_pos; lia). set (n := D / spc) in *.
  assert ((n + 2) * spc ≤ spf * q) by (unfold D, d in *; nia).
  split_and!; [lia|lia|lia|lia|lia| |].
  - assert ((n + 2) * spc * B ≤ spf * q * B) by nia. assert (spf * (q * B) ≤ spf * (spc * bps * 8)) by nia.
    apply (Z.mul_le_mono_pos_r _ _ spc); nia.
  - unfold D, d in *. nia.
Qed.

Lemma determine_sectors_per_fat_ok ts bps spc t res rds fats : 0 ≤ res → 0 ≤ rds → res + rds ≤ ts < 2 ^ 32 →
  512 ≤ bps ≤ 4096 → 1 ≤ spc ≤ 128 → 1 ≤ fats ≤ 2 →
  determine_sectors_per_fat ts bps spc t res rds fats = Ret (table_sectors (ts - res - rds) bps spc fats t).
Proof.
  intros Hr Hd Hts Hb Hs Hf. destruct (denominator_range bps spc fats t Hb Hs Hf) as [Hq1 Hq2].
  assert (spc * bps ≤ 128 * 4096) by nia. assert (0 ≤ spc * bps) by nia.
  unfold determine_sectors_per_fat. rewrite sub_u_ok by lia. run. rewrite sub_u_ok by lia. run.
  rewrite (mul_u_ok 32 2 spc) by lia. run. rewrite add_u_ok by lia. run. rewrite mul_u_ok by lia. run.
  unfold BITS_PER_BYTE. rewrite mul_u_ok by lia. run.
  rewrite (add_u_ok 32 (spc * bps * 8 / bits_per_fat_entry t)) by lia. run.
  change (spc * bps * 8 / bits_per_fat_entry t + fats) with (table_denominator bps spc fats t).
  assert (1 ≤ table_denominator bps spc fats t < 2 ^ 20) by (unfold table_denominator; lia).
  rewrite add_u_ok by lia. run. rewrite sub_u_ok by lia. run. unfold div_u.
  rewrite (proj2 (Z.eqb_neq (table_denominator bps spc fats t) 0)) by lia. run. f_equal. apply wrap_small.
  split; [apply Z.div_pos; lia|]. apply Z.div_lt_upper_bound; [lia|].
  assert (129 ≤ table_denominator bps spc fats t) by (unfold table_denominator; lia). nia.
Qed.

Definition reserved_for (t : FatType) : Z := if decide (t = Fat32) then 8 else 1.
Definition root_for (rde bps : Z) (t : FatType) : Z :=
  if decide (t = Fat32) then 0 else (rde * 32 + bps - 1) / bps.


(** A geometry of [n] clusters that the formatter accepts: reserved sectors, root
    directory, tables and data fit on the volume, the table has an entry for every
    cluster, and the number of clusters is one of the kind. *)
Record Geometry (ts bps spc rde fats : Z) (t : FatType) (res spf n : Z) : Prop := {
  g_res : res = reserved_for t;
  g_spf : 1 ≤ spf;
  g_room : res + root_for rde bps t + fats * spf < ts;
  g_count : n = (ts - res - root_for rde bps t - fats * spf) / spc;
  g_data : 0 ≤ n ∧ n * spc ≤ ts - res - root_for rde bps t - fats * spf < (n + 1) * spc;
  g_kind : from_clusters n = t;
  g_max : n ≤ max_clusters t;
  g_table : (n + 2) * bits_per_fat_entry t ≤ spf * bps * 8;
  g_small : (spf - 1) * (spc * bps * 8 / bits_per_fat_entry t) < (n + 3) * spc + fats;
}.

Lemma root_for_range rde bps t : 0 ≤ rde < 65536 → 512 ≤ bps ≤ 4096 → 0 ≤ root_for rde bps t ≤ 4097.
Proof.
  intros Hr Hb. unfold root_for. destruct (decide (t = Fat32)); [lia|].
  split; [apply Z.div_pos; lia|]. apply Z.div_le_upper_bound; nia.
Qed.

Lemma determine_root_dir_sectors_ok rde bps t : 0 ≤ rde < 65536 → 512 ≤ bps ≤ 4096 →
  determine_root_dir_sectors rde bps t = Ret (root_for rde bps t).
Proof.
  intros Hr Hb. unfold determine_root_dir_sectors, root_for, DIR_ENTRY_SIZE. destruct (decide (t = Fat32)); [done|].
  rewrite mul_u_ok by lia. run. rewrite add_u_ok by lia. run. rewrite sub_u_ok by lia. run.
  unfold div_u. by rewrite (proj2 (Z.eqb_neq bps 0)) by lia.
Qed.

Lemma min_clusters_le n : 0 ≤ n → min_clusters (from_clusters n) ≤ n.
Proof. intros Hn. unfold from_clusters. repeat case_bool; cbn; lia. Qed.

(** Trying a kind never panics; what it accepts is a geometry. *)
Lemma try_fs_geometry_ok ts bps spc rde fats t : 0 ≤ ts < 2 ^ 32 → 512 ≤ bps ≤ 4096 → 1 ≤ spc ≤ 128 →
  1 ≤ fats ≤ 2 → 0 ≤ rde < 65536 →
  ∃ r, try_fs_geometry ts bps spc t (root_for rde bps t) fats = Ret r ∧
    ∀ res spf, r = Ok (res, spf) → ∃ n, Geometry ts bps spc rde fats t res spf n.
Proof.
  intros Hts Hb Hs Hf Hr. pose proof (root_for_range rde bps t Hr Hb) as Hroot.
  unfold try_fs_geometry. fold (reserved_for t). assert (1 ≤ reserved_for t ≤ 8) as Hres by (by destruct t).
  set (R := root_for rde bps t) in *. set (V := reserved_for t) in *.
  rewrite (add_u_ok 32 V R) by lia. run. rewrite (add_u_ok 32 (V + R) 8) by lia. run.
  destruct (ts <=? V + R + 8) eqn:E0; breflect; [by exists (Err InvalidInput)|].
  rewrite determine_sectors_per_fat_ok by lia. run. set (t0 := ts - V - R). set (spf := table_sectors t0 bps spc fats t).
  destruct (table_sectors_ok t0 bps spc fats t) as (H1 & H2 & H3 & H4 & H5 & H6); [unfold t0; lia|done..|]. fold spf in H1, H2, H3, H4, H5, H6.
  rewrite (sub_u_ok 32 ts V) by lia. run. rewrite (sub_u_ok 32 (ts - V) R) by lia. run.
  rewrite mul_u_ok by (unfold t0 in *; lia). run. rewrite (Z.mul_comm spf fats). fold t0.
  rewrite sub_u_ok by (unfold t0 in *; lia). run. unfold div_u. rewrite (proj2 (Z.eqb_neq spc 0)) by lia. run.
  set (n := (t0 - fats * spf) / spc) in *.
  destruct (bool_decide (t = from_clusters n)) eqn:Et; cbn [negb]; [|by exists (Err InvalidInput)].
  apply bool_decide_eq_true in Et.
  assert (debug_assert (min_clusters t <=? n) = Ret tt) as ->.
  { unfold debug_assert. rewrite (proj2 (Z.leb_le _ _)); [by destruct overflow_checks|].
    rewrite Et. apply min_clusters_le. done. }
  run. destruct (max_clusters t <? n) eqn:Em; breflect; [by exists (Err InvalidInput)|].
  eexists. split; [done|]. intros res spf' [= <- <-]. exists n.
  split; fold R; fold V; fold t0; try done. unfold t0 in *. lia.
Qed.

Lemma fs_geometry_ok kinds ts bps spc rde fats : 0 ≤ ts < 2 ^ 32 → 512 ≤ bps ≤ 4096 → 1 ≤ spc ≤ 128 →
  1 ≤ fats ≤ 2 → 0 ≤ rde < 65536 →
  ∃ r, fs_geometry_of kinds ts bps spc rde fats = Ret r ∧
    match r with
    | Ok (t, res, spf) => ∃ n, Geometry ts bps spc rde fats t res spf n
    | Err e => e = InvalidInput
    end.
Proof.
  intros Hts Hb Hs Hf Hr. induction kinds as [|t kinds IH]; cbn [fs_geometry_of]; [by exists (Err InvalidInput)|].
  rewrite determine_root_dir_sectors_ok by done. run.
  destruct (try_fs_geometry_ok ts bps spc rde fats t) as (r & -> & HG); [done..|]. run.
  destruct r as [[res spf]|e]; [|exact IH]. exists (Ok (t, res, spf)). split; [done|by apply HG].
Qed.

(** ** The cluster size *)

Lemma clamp_pow2 x b : x = 0 ∨ (∃ m, 0 ≤ m ∧ x = 2 ^ m) → 9 ≤ b ≤ 15 →
  ∃ j, b ≤ j ≤ 15 ∧ Z.min (Z.max x (2 ^ b)) (32 * KB) = 2 ^ j.
Proof.
  change (32 * KB) with (2 ^ 15). intros [->|(m & Hm & ->)] Hb.
  - exists b. pose proof (Z.pow_pos_nonneg 2 b). pose proof (Z.pow_le_mono_r 2 b 15). lia.
  - pose proof (Z.pow_le_mono_r 2 b 15 ltac:(lia) ltac:(lia)). destruct (Z_le_gt_dec m b).
    + exists b. pose proof (Z.pow_le_mono_r 2 m b ltac:(lia) ltac:(lia)). lia.
    + pose proof (Z.pow_le_mono_r 2 b m ltac:(lia) ltac:(lia)). destruct (Z_le_gt_dec m 15).
      * exists m. pose proof (Z.pow_le_mono_r 2 m 15 ltac:(lia) ltac:(lia)). lia.
      * exists 15. pose proof (Z.pow_le_mono_r 2 15 m ltac:(lia) ltac:(lia)). lia.
Qed.

Lemma div_pow2 k m : 0 ≤ k → 0 ≤ m → 2 ^ k / 2 ^ m = if m <=? k then 2 ^ (k - m) else 0.
Proof.
  intros Hk Hm. case_bool.
  - rewrite Z.pow_sub_r by lia. done.
  - apply Z.div_small. pose proof (Z.pow_pos_nonneg 2 k). pose proof (Z.pow_lt_mono_r 2 k m). lia.
Qed.

Lemma wrap_pow2 m : 0 ≤ m → wrap 32 (2 ^ m) = if m <? 32 then 2 ^ m else 0.
Proof.
  intros Hm. case_bool.
  - apply wrap_small. pose proof (Z.pow_pos_nonneg 2 m). pose proof (Z.pow_lt_mono_r 2 m 32). lia.
  - unfold wrap. replace m with ((m - 32) + 32) by lia. rewrite Z.pow_add_r by lia. apply Z.mod_mul. lia.
Qed.

Lemma next_power_of_two_ok x : 0 ≤ x ≤ 2 ^ 44 → ∃ k, 0 ≤ k ≤ 44 ∧ next_power_of_two x = Ret (2 ^ k).
Proof.
  intros Hx. exists (Z.log2_up x). pose proof (Z.log2_up_nonneg x).
  pose proof (Z.log2_up_le_mono x (2 ^ 44) ltac:(lia)) as Hl. rewrite Z.log2_up_pow2 in Hl by lia. split; [lia|].
  unfold next_power_of_two. apply norm_ok. pose proof (Z.pow_pos_nonneg 2 (Z.log2_up x)).
  pose proof (Z.pow_le_mono_r 2 (Z.log2_up x) 44). lia.
Qed.

Lemma small_pow2 j : 0 ≤ j ≤ 15 → is_power_of_two 32 (2 ^ j) = true.
Proof.
  intros Hj. assert (forallb (λ j, is_power_of_two 32 (2 ^ j)) (range 0 16) = true) as H by (vm_compute; reflexivity).
  rewrite forallb_forall in H. apply (H j), list_elem_of_In, elem_of_range. lia.
Qed.

(** The cluster size is a power of two between the sector size and 32 KiB. *)
Lemma determine_bytes_per_cluster_ok total b t : 0 ≤ total ≤ 2 ^ 44 → 9 ≤ b ≤ 12 →
  ∃ j, b ≤ j ≤ 15 ∧ determine_bytes_per_cluster total (2 ^ b) t = Ret (2 ^ j).
Proof.
  intros Ht Hb. unfold determine_bytes_per_cluster. set (kind := default _ t).
  destruct (next_power_of_two_ok total Ht) as (k & Hk & Enp).
  assert (∃ x, (x = 0 ∨ ∃ m, 0 ≤ m ∧ x = 2 ^ m) ∧ match kind with
    | Fat12 => n ← next_power_of_two total; x ← mul_u 64 (n / MB_64) 512; Ret (wrap 32 x)
    | Fat16 => if total <=? 16 * MB_64 then Ret KB else if total <=? 128 * MB_64 then Ret (2 * KB)
               else n ← next_power_of_two total; mul_u 32 (wrap 32 (n / (64 * MB_64))) KB
    | Fat32 => if total <=? 260 * MB_64 then Ret 512 else if total <=? 8 * GB_64 then Ret (4 * KB)
               else n ← next_power_of_two total; mul_u 32 (wrap 32 (n / (2 * GB_64))) KB
    end = Ret x) as (x & Hx & ->).
  { assert (∀ m c, 26 ≤ m ≤ 44 → c = 2 ^ m → ∃ x, (x = 0 ∨ ∃ m, 0 ≤ m ∧ x = 2 ^ m) ∧
      (n ← next_power_of_two total; mul_u 32 (wrap 32 (n / c)) KB) = Ret x) as Hdiv.
    { intros m c Hm ->. rewrite Enp. run. rewrite div_pow2 by lia. destruct (m <=? k) eqn:E; breflect.
      - rewrite wrap_pow2, (proj2 (Z.ltb_lt _ _)) by lia. exists (2 ^ (k - m + 10)). split; [right; exists (k - m + 10); lia|].
        rewrite Z.pow_add_r by lia. apply mul_u_ok. pose proof (Z.pow_pos_nonneg 2 (k - m)).
        pose proof (Z.pow_le_mono_r 2 (k - m) 18). change (2 ^ 10) with 1024. unfold KB. lia.
      - exists 0. split; [by left|]. by rewrite mul_u_ok. }
    destruct kind.
    - rewrite Enp. run. change MB_64 with (2 ^ 20). rewrite div_pow2 by lia. destruct (20 <=? k) eqn:E; breflect.
      + pose proof (Z.pow_pos_nonneg 2 (k - 20)). pose proof (Z.pow_le_mono_r 2 (k - 20) 24).
        rewrite mul_u_ok by lia. run. change 512 with (2 ^ 9). rewrite <- Z.pow_add_r, wrap_pow2 by lia.
        eexists. split; [|done]. case_bool; [right; eexists; split; [|done]; lia|by left].
      + exists 0. split; [by left|]. by rewrite mul_u_ok.
    - repeat case_bool; [exists KB; split; [right; by exists 10|done]|exists (2 * KB); split; [right; by exists 11|done]|].
      by apply (Hdiv 26).
    - repeat case_bool; [exists 512; split; [right; by exists 9|done]|exists (4 * KB); split; [right; by exists 12|done]|].
      by apply (Hdiv 31). }
  run. destruct (clamp_pow2 x b Hx ltac:(lia)) as (j & Hj & ->). exists j. split; [done|].
  unfold debug_assert. rewrite small_pow2 by lia. by destruct overflow_checks.
Qed.

(** ** The parameter block of a new volume *)

(** Options as the setters of [FormatVolumeOptions] leave them, for sectors of [2^b]
    bytes, in the documented range from 512 to 4096: a cluster size may be any power of two of
    32 bits from 512 on. *)
Record OptionsOk (o : FormatVolumeOptions) (b : Z) : Prop := {
  oo_sector : 9 ≤ b ≤ 12;
  oo_cluster n : o_bytes_per_cluster o = Some n → ∃ j, 9 ≤ j ≤ 31 ∧ n = 2 ^ j;
  oo_fats n : o_fats o = Some n → 1 ≤ n ≤ 2;
  oo_root n : o_max_root_dir_entries o = Some n → 0 ≤ n < 65536;
}.

(** A cluster size, when one is given, of one to 128 sectors. *)
Definition cluster_size_fits (o : FormatVolumeOptions) (b : Z) : Prop :=
  ∀ n, o_bytes_per_cluster o = Some n → 2 ^ b ≤ n ≤ 128 * 2 ^ b.

(** The block [format_bpb] builds for a geometry. *)
Definition new_bpb (o : FormatVolumeOptions) (ts bps spc rde fats : Z) (t : FatType) (res spf : Z) : BiosParameterBlock :=
  let is32 := bool_decide (t = Fat32) in
  mkBpb bps spc res fats (if is32 then 0 else rde)
    (if ts <? 0x10000 then wrap 16 ts else 0) (default 0xF8 (o_media o)) (if is32 then 0 else wrap 16 spf)
    (default 0x20 (o_sectors_per_track o)) (default 0x40 (o_heads o)) 0
    (if 0x10000 <=? ts then ts else 0) (if is32 then spf else 0) 0 0 (if is32 then 2 else 0)
    (if is32 then 1 else 0) (if is32 then 6 else 0) (zeros 12)
    (default (if bool_decide (t = Fat12) then 0 else 0x80) (o_drive_num o)) 0 0x29
    (default 0x12345678 (o_volume_id o)) (default no_name (o_volume_label o)) (fs_type_label t).

Section New.
Context (o : FormatVolumeOptions) (ts bps spc rde fats : Z) (t : FatType) (res spf n : Z).
Context (Hts : 0 ≤ ts < 2 ^ 32) (Hb : 512 ≤ bps ≤ 4096) (Hs : 1 ≤ spc ≤ 128) (Hf : 1 ≤ fats ≤ 2)
  (Hr : 0 ≤ rde < 65536).
Context (G : Geometry ts bps spc rde fats t res spf n).

(** The table of a FAT12 or FAT16 volume is small. *)
Lemma new_spf_small : t ≠ Fat32 → spf ≤ 512.
Proof.
  intros Ht. destruct G. destruct (denominator_range bps spc fats t Hb Hs Hf) as [Hq _].
  assert (n ≤ 65524) by (destruct t; cbn in *; unfold FAT16_MIN_CLUSTERS, FAT32_MIN_CLUSTERS in *; [lia|lia|done]).
  assert ((n + 3) * spc ≤ 65527 * spc) by (apply Z.mul_le_mono_nonneg_r; lia).
  pose proof (Z.mul_le_mono_nonneg_l (128 * spc) (spc * bps * 8 / bits_per_fat_entry t) (spf - 1) ltac:(lia) ltac:(lia)).
  assert ((spf - 1) * 128 * spc < 65529 * spc) as H3 by lia. apply Z.mul_lt_mono_pos_r in H3; lia.
Qed.

(** A FAT32 volume has at least 2^16 sectors. *)
Lemma new_fat32_large : t = Fat32 → 0x10000 ≤ ts.
Proof.
  intros Ht. destruct G. rewrite Ht in *. cbn [bits_per_fat_entry] in *. change (reserved_for Fat32) with 8 in *.
  change (root_for rde bps Fat32) with 0 in *.
  assert (65525 ≤ n).
  { unfold from_clusters, FAT16_MIN_CLUSTERS, FAT32_MIN_CLUSTERS in g_kind0.
    destruct (n <? 4085); [done|]. destruct (n <? 65525) eqn:E; [done|]. breflect. lia. }
  assert (64 ≤ spf) by nia. nia.
Qed.

Lemma new_is_fat32 : is_fat32 (new_bpb o ts bps spc rde fats t res spf) = bool_decide (t = Fat32).
Proof.
  unfold is_fat32. cbn. destruct (bool_decide (t = Fat32)) eqn:E; [done|]. apply bool_decide_eq_false in E.
  pose proof (new_spf_small E). destruct G. rewrite wrap_small by lia. apply Z.eqb_neq. lia.
Qed.

Lemma new_sectors_per_fat : sectors_per_fat (new_bpb o ts bps spc rde fats t res spf) = spf.
Proof.
  unfold sectors_per_fat. rewrite new_is_fat32. cbn. destruct (bool_decide (t = Fat32)) eqn:E; [done|].
  apply bool_decide_eq_false in E. pose proof (new_spf_small E). destruct G. rewrite wrap_small by lia. done.
Qed.

Lemma new_total_sectors : total_sectors (new_bpb o ts bps spc rde fats t res spf) = ts.
Proof.
  assert (0 < ts). { destruct G. pose proof (root_for_range rde bps t ltac:(lia) Hb). subst res. unfold reserved_for in *. case_decide; nia. }
  unfold total_sectors. cbn. destruct (ts <? 0x10000) eqn:E; breflect.
  - rewrite wrap_small by lia. by rewrite (proj2 (Z.eqb_neq ts 0)) by lia.
  - cbn. by rewrite (proj2 (Z.leb_le _ _)) by lia.
Qed.

Lemma new_root_dir_sectors : root_dir_sectors (new_bpb o ts bps spc rde fats t res spf) = Ret (root_for rde bps t).
Proof.
  unfold root_dir_sectors, root_for, DIR_ENTRY_SIZE. cbn [b_root_entries b_bytes_per_sector new_bpb].
  destruct (bool_decide (t = Fat32)) eqn:E.
  - apply bool_decide_eq_true in E. rewrite decide_True by done.
    rewrite mul_u_ok by lia. run. rewrite add_u_ok by lia. run. rewrite sub_u_ok by lia. run.
    unfold div_u. rewrite (proj2 (Z.eqb_neq bps 0)) by lia. f_equal. apply Z.div_small. lia.
  - apply bool_decide_eq_false in E. rewrite decide_False by done.
    rewrite mul_u_ok by lia. run. rewrite add_u_ok by lia. run. rewrite sub_u_ok by lia. run.
    unfold div_u. by rewrite (proj2 (Z.eqb_neq bps 0)) by lia.
Qed.

Lemma new_first_data_sector : first_data_sector (new_bpb o ts bps spc rde fats t res spf) =
  Ret (res + fats * spf + root_for rde bps t).
Proof.
  unfold first_data_sector, sectors_per_all_fats. rewrite new_root_dir_sectors, new_sectors_per_fat. run.
  pose proof (root_for_range rde bps t ltac:(lia) Hb). destruct G. assert (1 ≤ res) by (subst res; by destruct t).
  assert (0 ≤ fats * spf) by nia.
  cbn [b_fats b_reserved_sectors new_bpb]. rewrite mul_u_ok by lia. run. rewrite add_u_ok by lia. run.
  by rewrite add_u_ok by lia.
Qed.

Lemma new_total_clusters : total_clusters (new_bpb o ts bps spc rde fats t res spf) = Ret n.
Proof.
  unfold total_clusters. rewrite new_first_data_sector, new_total_sectors. run.
  pose proof (root_for_range rde bps t ltac:(lia) Hb). destruct G. assert (1 ≤ res) by (subst res; by destruct t).
  assert (0 ≤ fats * spf) by nia.
  rewrite sub_u_ok by lia. run. unfold div_u. cbn [b_sectors_per_cluster new_bpb].
  rewrite (proj2 (Z.eqb_neq spc 0)) by lia. f_equal. rewrite g_count0. f_equal. lia.
Qed.

Abbreviation bpb := (new_bpb o ts bps spc rde fats t res spf).

Lemma new_positive : 1 ≤ res ∧ 0 ≤ fats * spf ∧ 0 ≤ root_for rde bps t.
Proof.
  pose proof (root_for_range rde bps t ltac:(lia) Hb). destruct G. subst res. split; [by destruct t|]. nia.
Qed.

Lemma new_valid_total_sectors : validate_total_sectors bpb = Ret (Ok tt).
Proof.
  unfold validate_total_sectors. rewrite new_first_data_sector, new_total_sectors, new_is_fat32.
  pose proof new_fat32_large as Hl32. destruct new_positive as (?&?&?). destruct G.
  cbn [new_bpb b_total_sectors_16 b_total_sectors_32]. run. rewrite (proj2 (Z.leb_gt ts (res + _ + _))) by lia.
  destruct (ts <? 0x10000) eqn:E; breflect.
  - rewrite wrap_small, (proj2 (Z.leb_gt _ ts)), (proj2 (Z.eqb_neq ts 0)) by lia.
    rewrite bool_decide_false; [done|]. intros E'. specialize (Hl32 E'). lia.
  - rewrite (proj2 (Z.leb_le _ ts)), (proj2 (Z.eqb_neq ts 0)) by lia. by destruct (bool_decide (t = Fat32)).
Qed.

(** The number of table entries is computed in 32 bits. *)
Lemma new_valid_total_clusters : spf * bps * 8 < 2 ^ 32 → validate_total_clusters bpb = Ret (Ok tt).
Proof.
  intros Hsz. unfold validate_total_clusters. rewrite new_total_clusters, new_is_fat32, new_sectors_per_fat. run.
  destruct new_positive as (?&?&?). destruct G. rewrite g_kind0, eqb_reflx. cbn [new_bpb b_bytes_per_sector].
  rewrite (proj2 (Z.ltb_ge 0x0FFFFFFF n)), andb_false_r.
  - cbn [check and_then negb]. pose proof (Z.mul_nonneg_nonneg spf bps). run. rewrite mul_u_ok by lia. run. rewrite mul_u_ok by lia. run.
    pose proof (bits_range t). assert (n + 2 ≤ spf * bps * 8 / bits_per_fat_entry t) by (apply Z.div_le_lower_bound; lia).
    assert (spf * bps * 8 / bits_per_fat_entry t < 2 ^ 32) by (apply Z.div_lt_upper_bound; lia).
    unfold RESERVED_FAT_ENTRIES. by rewrite sub_u_ok by lia.
  - destruct t; cbn in g_max0; unfold FAT16_MIN_CLUSTERS, FAT32_MIN_CLUSTERS, FAT32_MAX_CLUSTERS in g_max0; lia.
Qed.

Lemma new_valid_root_entries : rde ≠ 0 ∨ t = Fat32 → validate_root_entries bpb = Ret (Ok tt).
Proof.
  intros H0.
  unfold validate_root_entries, DIR_ENTRY_SIZE. rewrite new_is_fat32. cbn [new_bpb b_root_entries b_bytes_per_sector].
  unfold rem_u. rewrite (proj2 (Z.eqb_neq bps 0)) by lia.
  case_bool_decide as Ht; cbn; [by rewrite mul_u_ok by lia|].
  rewrite (proj2 (Z.eqb_neq rde 0)) by tauto. cbn. by rewrite mul_u_ok by lia.
Qed.

Lemma new_valid_sizes : count_ones 16 bps = 1 → count_ones 8 spc = 1 →
  validate_bytes_per_sector bpb = Ret (Ok tt) ∧ validate_sectors_per_cluster bpb = Ret (Ok tt).
Proof.
  intros Hob Hos. assert (spc * bps ≤ 128 * 4096) by nia. split.
  - unfold validate_bytes_per_sector. cbn [new_bpb b_bytes_per_sector]. rewrite Hob. cbn.
    by rewrite (proj2 (Z.ltb_ge bps 512)), (proj2 (Z.ltb_ge 4096 bps)) by lia.
  - unfold validate_sectors_per_cluster. cbn [new_bpb b_sectors_per_cluster b_bytes_per_sector]. rewrite Hos. cbn.
    rewrite (proj2 (Z.ltb_ge spc 1)), (proj2 (Z.ltb_ge 128 spc)) by lia. cbn. by rewrite mul_u_ok by nia.
Qed.

Lemma new_valid_tables : validate_reserved_sectors bpb = Ret (Ok tt) ∧ validate_fats bpb = Ret (Ok tt) ∧
  validate_sectors_per_fat bpb = Ret (Ok tt).
Proof.
  destruct new_positive as (?&?&?). split_and!.
  - unfold validate_reserved_sectors. rewrite new_is_fat32.
    cbn [new_bpb b_reserved_sectors b_backup_boot_sector b_fs_info_sector].
    rewrite (proj2 (Z.ltb_ge res 1)) by lia. destruct G. rewrite g_res0. by destruct t.
  - unfold validate_fats. cbn [new_bpb b_fats]. by rewrite (proj2 (Z.eqb_neq fats 0)) by lia.
  - unfold validate_sectors_per_fat. rewrite new_is_fat32. cbn [new_bpb b_sectors_per_fat_32]. destruct G.
    destruct (bool_decide (t = Fat32)); [|done]. by rewrite (proj2 (Z.eqb_neq spf 0)) by lia.
Qed.

(** Every check of [validate] passes. *)
Lemma new_validates : count_ones 16 bps = 1 → count_ones 8 spc = 1 → spf * bps * 8 < 2 ^ 32 → rde ≠ 0 ∨ t = Fat32 →
  Bpb_validate bpb = Ret (Ok tt).
Proof.
  intros Hob Hos Hsz H0. destruct (new_valid_sizes Hob Hos) as [E1 E2]. destruct new_valid_tables as (E3 & E4 & E5).
  unfold Bpb_validate. rewrite E1, E2, E3, E4, E5, (new_valid_root_entries H0), new_valid_total_sectors.
  by rewrite (new_valid_total_clusters Hsz).
Qed.

End New.

(** ** A new volume *)

Lemma count_ones_pow2 w j : 0 ≤ j ≤ 15 → w = 16 ∨ w = 8 ∧ j ≤ 7 → count_ones w (2 ^ j) = 1.
Proof.
  intros Hj Hw.
  assert (forallb (λ j, (count_ones 16 (2 ^ j) =? 1) && ((7 <? j) || (count_ones 8 (2 ^ j) =? 1))) (range 0 16) = true)
    as H by (vm_compute; reflexivity).
  rewrite forallb_forall in H. assert (In j (range 0 16)) as Hin by (apply list_elem_of_In, elem_of_range; lia).
  specialize (H j Hin).
  apply andb_prop in H as [H1 H2]. breflect. destruct Hw as [->|[-> Hw]]; [lia|].
  rewrite (proj2 (Z.ltb_ge 7 j)) in H2 by lia. breflect. lia.
Qed.

(** The cluster size is a whole number of sectors, [2^j] of them. *)
Lemma cluster_sectors_ok (o : FormatVolumeOptions) ts b : OptionsOk o b → cluster_size_fits o b → 0 ≤ ts < 2 ^ 32 → ∃ j, 0 ≤ j ≤ 7 ∧
  match o_bytes_per_cluster o with
  | Some n => Ret n
  | None => total_bytes ← mul_u 64 ts (2 ^ b); determine_bytes_per_cluster total_bytes (2 ^ b) (o_fat_type o)
  end = Ret (2 ^ (b + j)) ∧ div_u (2 ^ (b + j)) (2 ^ b) = Ret (2 ^ j).
Proof.
  intros [Hb Hc _ _] Hfit Hts. unfold cluster_size_fits in Hfit. pose proof (Z.pow_pos_nonneg 2 b). pose proof (Z.pow_le_mono_r 2 b 12).
  assert (∀ j, 0 ≤ j ≤ 7 → div_u (2 ^ (b + j)) (2 ^ b) = Ret (2 ^ j)) as Hd.
  { intros j Hj. unfold div_u. rewrite (proj2 (Z.eqb_neq (2 ^ b) 0)), div_pow2, (proj2 (Z.leb_le _ _)) by lia.
    f_equal. f_equal. lia. }
  destruct (o_bytes_per_cluster o) as [m|].
  - destruct (Hc m eq_refl) as (j & Hj & ->). destruct (Hfit _ eq_refl) as [F1 F2].
    change 128 with (2 ^ 7) in F2. rewrite <- Z.pow_add_r in F2 by lia.
    apply Z.pow_le_mono_r_iff in F1, F2; [|lia..]. exists (j - b). replace (b + (j - b)) with j at 1 by lia.
    split; [lia|]. split; [done|]. apply Hd. lia.
  - assert (ts * 2 ^ b ≤ 2 ^ 32 * 2 ^ 12) by (apply Z.mul_le_mono_nonneg; lia).
    assert (0 ≤ ts * 2 ^ b) by (apply Z.mul_nonneg_nonneg; lia). rewrite mul_u_ok by lia. run.
    destruct (determine_bytes_per_cluster_ok (ts * 2 ^ b) b (o_fat_type o)) as (j & Hj & ->); [lia..|].
    exists (j - b). replace (b + (j - b)) with j at 1 by lia. split; [lia|]. split; [done|]. apply Hd. lia.
Qed.

(** A block [format_bpb] accepts has a table with an entry for every cluster, data that fits
    between the tables and the end of the volume, a number of clusters that [total_clusters]
    computes again and that is one of the kind it reports. It passes every check of [validate],
    unless its table has 2^32 bits or more or it has no room for a root directory. *)
Definition bpb_sound (ts : Z) (bpb : BiosParameterBlock) (t : FatType) : Prop :=
  ∃ n first,
    total_clusters bpb = Ret n ∧ from_clusters n = t ∧ n ≤ max_clusters t ∧
    is_fat32 bpb = bool_decide (t = Fat32) ∧ total_sectors bpb = ts ∧
    first_data_sector bpb = Ret first ∧ first + n * b_sectors_per_cluster bpb ≤ ts ∧
    (n + RESERVED_FAT_ENTRIES) * bits_per_fat_entry t ≤ sectors_per_fat bpb * b_bytes_per_sector bpb * 8 ∧
    (sectors_per_fat bpb * b_bytes_per_sector bpb * 8 < 2 ^ 32 → b_root_entries bpb ≠ 0 ∨ t = Fat32 → Bpb_validate bpb = Ret (Ok tt)).

Lemma format_bpb_ok (o : FormatVolumeOptions) (ts b : Z) (Ho : OptionsOk o b) (Hfit : cluster_size_fits o b) (Hts : 0 ≤ ts < 2 ^ 32) :
  ∃ r, format_bpb o ts (2 ^ b) = Ret r ∧
    match r with Err e => e = InvalidInput | Ok (bpb, t) => bpb_sound ts bpb t end.
Proof.
  destruct (cluster_sectors_ok o ts b Ho Hfit Hts) as (j & Hj & Ebpc & Espc).
  pose proof (Z.pow_pos_nonneg 2 j). pose proof (Z.pow_le_mono_r 2 j 7). destruct Ho as [Hb _ Hf Hr].
  pose proof (Z.pow_le_mono_r 2 9 b). pose proof (Z.pow_le_mono_r 2 b 12).
  assert (1 ≤ default 2 (o_fats o) ≤ 2) as Hf' by (destruct (o_fats o); [by apply Hf|done]).
  assert (0 ≤ default 512 (o_max_root_dir_entries o) < 65536) as Hr'
    by (destruct (o_max_root_dir_entries o); [by apply Hr|done]).
  unfold format_bpb. rewrite Ebpc. run. rewrite Espc. run. rewrite (proj2 (Z.leb_le (2 ^ j) 255)) by lia. cbn [assert]. run.
  rewrite (wrap_small 8 (2 ^ j)) by lia.
  destruct (fs_geometry_ok [Fat32; Fat16; Fat12] ts (2 ^ b) (2 ^ j) (default 512 (o_max_root_dir_entries o)) (default 2 (o_fats o)))
    as (r & Er & HG); [lia..|].
  unfold determine_fs_geometry. rewrite Er. run. destruct r as [[[t res] spf]|e]; [|by exists (Err e)].
  destruct HG as [n G]. set (rde := default 512 (o_max_root_dir_entries o)) in *. set (fats := default 2 (o_fats o)) in *.
  assert ((if bool_decide (t = Fat32) then Ret 0 else _ ← debug_assert (spf <=? 0xFFFF); Ret (wrap 16 spf)) =
    Ret (if bool_decide (t = Fat32) then 0 else wrap 16 spf)) as ->.
  { case_bool_decide as Ht; [done|]. pose proof (new_spf_small ts (2 ^ b) (2 ^ j) rde fats t res spf n ltac:(lia) ltac:(lia) Hf' G Ht).
    unfold debug_assert. rewrite (proj2 (Z.leb_le _ _)) by lia. by destruct overflow_checks. }
  run. pose proof (new_total_clusters o ts (2 ^ b) (2 ^ j) rde fats t res spf n) as Etc.
  change (mkBpb (2 ^ b) (2 ^ j) res fats _ _ _ _ _ _ _ _ _ _ _ _ _ _ _ _ _ _ _ _ _)
    with (new_bpb o ts (2 ^ b) (2 ^ j) rde fats t res spf).
  rewrite Etc by (lia || done). run. rewrite (bool_decide_true (from_clusters n = t)) by apply G. cbn [negb].
  eexists. split; [reflexivity|].
  exists n, (res + fats * spf + root_for rde (2 ^ b) t). rewrite Etc by (lia || done).
  rewrite (new_is_fat32 o ts (2 ^ b) (2 ^ j) rde fats t res spf n) by (lia || done).
  rewrite (new_total_sectors o ts (2 ^ b) (2 ^ j) rde fats t res spf n) by (lia || done).
  rewrite (new_first_data_sector o ts (2 ^ b) (2 ^ j) rde fats t res spf n) by (lia || done).
  rewrite (new_sectors_per_fat o ts (2 ^ b) (2 ^ j) rde fats t res spf n) by (lia || done).
  cbn [new_bpb b_bytes_per_sector b_sectors_per_cluster]. unfold RESERVED_FAT_ENTRIES.
  split_and!; [done|apply G|apply G|done|done|done|destruct G; lia|apply G|].
  intros Hsz Hrde. apply (new_validates o ts (2 ^ b) (2 ^ j) rde fats t res spf n); try lia; [done|apply count_ones_pow2; lia..|].
  cbn [new_bpb b_root_entries] in Hrde. case_bool_decide; tauto.
Qed.

(** Clusters of no sector: the division by them panics, unless the volume is too small for any. *)
Lemma no_sectors_per_cluster kinds ts bps rde fats : 0 < bps ≤ 4096 → 0 ≤ rde < 65536 → 1 ≤ fats ≤ 2 →
  fs_geometry_of kinds ts bps 0 rde fats = Panic ∨ fs_geometry_of kinds ts bps 0 rde fats = Ret (Err InvalidInput).
Proof.
  intros Hb Hr Hf. induction kinds as [|t kinds IH]; cbn [fs_geometry_of]; [by right|].
  destruct (determine_root_dir_sectors rde bps t) as [x|]; [run|by left].
  assert (try_fs_geometry ts bps 0 t x fats = Panic ∨ try_fs_geometry ts bps 0 t x fats = Ret (Err InvalidInput)) as [->| ->]; [|by left|run; exact IH].
  unfold try_fs_geometry. destruct (add_u 32 _ x) as [u|]; [run|by left]. destruct (add_u 32 u 8) as [v|]; [run|by left].
  destruct (ts <=? v); [by right|]. left. destruct (determine_sectors_per_fat _ _ _ _ _ _ _); [run|done].
  repeat (match goal with |- context [mbind _ ?m] => destruct m as [?|] eqn:?; [run|done] end || done).
Qed.

(** [C29] Formatting never leaves the machine's integers and never accepts a broken
    geometry: for all options that the setters accept, sectors of 512 to 4096 bytes and any number
    of sectors, and a cluster size that is left open or is one to 128 sectors, [format_bpb]
    returns; what it refuses, it refuses as invalid input; and a block it accepts is sound: its
    table has an entry for every cluster, its data fits the volume, and its numbers are the ones
    a mount computes again and accepts. With a cluster of more than 128 sectors, which the setter
    accepts, it panics; with one smaller than a sector it panics or refuses. *)
Theorem format_bpb_bounds (o : FormatVolumeOptions) (ts b : Z) (Ho : OptionsOk o b) (Hts : 0 ≤ ts < 2 ^ 32) :
  (cluster_size_fits o b → ∃ r, format_bpb o ts (2 ^ b) = Ret r ∧
    match r with Err e => e = InvalidInput | Ok (bpb, t) => bpb_sound ts bpb t end) ∧
  (∀ n, o_bytes_per_cluster o = Some n → 128 * 2 ^ b < n → format_bpb o ts (2 ^ b) = Panic) ∧
  (∀ n, o_bytes_per_cluster o = Some n → n < 2 ^ b →
    format_bpb o ts (2 ^ b) = Panic ∨ format_bpb o ts (2 ^ b) = Ret (Err InvalidInput)).
Proof.
  split; [intros Hfit; by apply format_bpb_ok|]. destruct Ho as [Hb Hc Hf Hr]. pose proof (Z.pow_le_mono_r 2 9 b). pose proof (Z.pow_le_mono_r 2 b 12).
  split; intros n En Hn; unfold format_bpb; rewrite En; run; unfold div_u; rewrite (proj2 (Z.eqb_neq (2 ^ b) 0)) by lia; run.
  - destruct (Hc n En) as (j & Hj & ->). change 128 with (2 ^ 7) in Hn. rewrite <- Z.pow_add_r in Hn by lia.
    apply Z.pow_lt_mono_r_iff in Hn; [|lia..]. rewrite div_pow2, (proj2 (Z.leb_le b j)) by lia.
    pose proof (Z.pow_le_mono_r 2 8 (j - b)). by rewrite (proj2 (Z.leb_gt (2 ^ (j - b)) 255)) by lia.
  - assert (0 ≤ n) by (destruct (Hc n En) as (j & Hj & ->); lia). rewrite Z.div_small by lia. cbn [assert Z.leb Z.compare]. run.
    change (wrap 8 0) with 0. unfold determine_fs_geometry.
    destruct (no_sectors_per_cluster [Fat32; Fat16; Fat12] ts (2 ^ b) (default 512 (o_max_root_dir_entries o)) (default 2 (o_fats o))) as [->| ->];
      [lia|destruct (o_max_root_dir_entries o); [by apply Hr|done]|destruct (o_fats o); [by apply Hf|done]|by left|by right].
Qed.

End Geometry.

(** ** Examples *)

Section Examples.
Local Existing Instance dev.

(** The boot sector of a 1.44 MB floppy, as [format_boot_sector] makes it. *)
Definition floppy : BootSector :=
  match format_boot_sector FormatVolumeOptions_new 2880 512 with
  | Ret (Ok (b, _)) => b
  | _ => BootSector_default
  end.

Example floppy_geometry : Boot_wf floppy = true ∧ BootSector_validate floppy = Ret (Ok tt) ∧
  sectors_per_fat (boot_bpb floppy) = 5 ∧ total_clusters (boot_bpb floppy) = Ret 1418.
Proof. vm_compute. split_and!; reflexivity. Qed.

Definition blank_disk : MemIO := mkMem (zeros 600) 7 100.

Lemma boot_sector_roundtrip_witness :
  ∃ s1 s2 s3, BootSector_serialize floppy blank_disk = Ret (Ok tt, s1) ∧ v_pos s1 = v_pos blank_disk + 512 ∧
    st_seek s1 (SeekStart (v_pos blank_disk)) = Ret (Ok (v_pos blank_disk), s2) ∧
    BootSector_deserialize s2 = Ret (Ok (Boot_stored floppy), s3) ∧ v_frame blank_disk s3 ∧
    ∀ i, 0 ≤ i < v_size blank_disk → i < v_pos blank_disk ∨ v_pos blank_disk + 512 ≤ i →
      v_byte s3 i = v_byte blank_disk i.
Proof.
  apply (boot_sector_roundtrip floppy blank_disk); [|vm_compute; reflexivity|vm_compute; congruence].
  split_and!; [apply bytes_forallb; vm_compute; reflexivity|vm_compute; congruence..].
Defined.

Lemma default_options_ok b : 9 ≤ b ≤ 12 → OptionsOk FormatVolumeOptions_new b.
Proof. by intros Hb; split. Qed.

(** A floppy with the default options; and a cluster of 1 MiB on 512-byte sectors, which panics. *)
Definition large_clusters : FormatVolumeOptions := mkOptions None None (Some (2 ^ 20)) None None None None None None None None None.

Lemma format_bpb_bounds_witness :
  (∃ r, format_bpb FormatVolumeOptions_new 2880 (2 ^ 9) = Ret r ∧
    match r with Err e => e = InvalidInput | Ok (bpb, t) => bpb_sound 2880 bpb t end) ∧
  format_bpb large_clusters 2880 (2 ^ 9) = Panic.
Proof.
  split.
  - destruct (format_bpb_bounds FormatVolumeOptions_new 2880 9) as [H _]; [apply default_options_ok; lia|lia|].
    apply H. discriminate.
  - apply (format_bpb_bounds large_clusters 2880 9) with (n := 2 ^ 20); [|lia|reflexivity|lia].
    split; try discriminate; [lia|]. intros n [= <-]. exists 20. split; [lia|reflexivity].
Defined.

(** The number of table entries of a volume with a table of 512 MiB does not fit 32
    bits: [validate] of the block [format_bpb] has just made overflows. *)
Theorem validate_overflows :
  match format_bpb FormatVolumeOptions_new (2 ^ 31) 4096 with
  | Ret (Ok (bpb, t)) => t = Fat32 ∧ Bpb_validate bpb = Panic
  | _ => False
  end.
Proof. vm_compute. split; reflexivity. Qed.

(** Some sizes fit no kind of table: the number of clusters is in the reach of neither. *)
Theorem unformattable_size : format_bpb FormatVolumeOptions_new 8230 512 = Ret (Err InvalidInput).
Proof. vm_compute. reflexivity. Qed.

End Examples.
