(* ===== verification/FatName.v ===== *)
(** * FAT crate: file names

    The functions on names of [kernel/crates/good-fatfs/src/dir.rs]: paths, the
    characters of a long name, its entries ([LfnEntriesGenerator], [LongNameBuilder]) and
    the 8.3 name made for it ([ShortNameGenerator]). A string is the list of its code
    points; a position in it is in bytes of its UTF-8 form. *)

From S2P Require Import Prelude Crates BlockCache FatIo FatTable FatTime FatEntry.

Definition LFN_PADDING : Z := 0xFFFF.
Definition MAX_LONG_NAME_LEN : Z := 255.
Definition MAX_LONG_DIR_ENTRIES : Z := (MAX_LONG_NAME_LEN + LFN_PART_LEN - 1) / LFN_PART_LEN.

(** [char::len_utf8], and [str::len]. *)
Definition len_utf8 (c : Z) : Z :=
  if c <? 0x80 then 1 else if c <? 0x800 then 2 else if c <? 0x10000 then 3 else 4.

Definition str_len (s : list Z) : Z := foldr (λ c n, len_utf8 c + n) 0 s.

(** [char::encode_utf16], and [str::encode_utf16]. *)
Definition char_utf16 (c : Z) : list Z :=
  if c <? 0x10000 then [c]
  else [0xD800 + (c - 0x10000) / 0x400; 0xDC00 + (c - 0x10000) mod 0x400].

Definition encode_utf16 (s : list Z) : list Z := flat_map char_utf16 s.

(** ** Paths *)

(** [str::find(c)] and what is before and after it; [str::rfind(c)]. *)
Fixpoint split_first (c : Z) (s : list Z) : option (list Z * list Z) :=
  match s with
  | [] => None
  | x :: s => if x =? c then Some ([], s)
              else match split_first c s with Some (a, b) => Some (x :: a, b) | None => None end
  end.

Fixpoint split_last (c : Z) (s : list Z) : option (list Z * list Z) :=
  match s with
  | [] => None
  | x :: s =>
      match split_last c s with
      | Some (a, b) => Some (x :: a, b)
      | None => if x =? c then Some ([], s) else None
      end
  end.

Fixpoint trim_start (c : Z) (s : list Z) : list Z :=
  match s with x :: s' => if x =? c then trim_start c s' else s | [] => [] end.

Definition trim_matches (c : Z) (s : list Z) : list Z := rev (trim_start c (rev (trim_start c s))).

Definition split_path (path : list Z) : list Z * option (list Z) :=
  let trimmed_path := trim_matches 0x2F path in
  match split_first 0x2F trimmed_path with
  | Some (a, b) => (a, Some b)
  | None => (trimmed_path, None)
  end.

(** ** Long names *)

Definition between (a b c : Z) : bool := (a <=? c) && (c <=? b).

Definition ascii_alnum (c : Z) : bool := between 97 122 c || between 65 90 c || between 48 57 c.

(** [$ % ' - _ @ ~ ` ! ( ) { } . space + , ; = [ ] ^ # &] *)
Definition long_name_char (c : Z) : bool :=
  ascii_alnum c || between 0x80 0xFFFF c ||
  existsb (Z.eqb c) [36; 37; 39; 45; 95; 64; 126; 96; 33; 40; 41; 123; 125; 46; 32; 43; 44; 59; 61; 91; 93; 94; 35; 38].

Fixpoint validate_chars (name : list Z) : result Error unit :=
  match name with
  | [] => Ok tt
  | c :: name => if long_name_char c then validate_chars name else Err UnsupportedFileNameCharacter
  end.

Definition validate_long_name (name : list Z) : result Error unit :=
  match name with
  | [] => Err InvalidFileNameLength
  | _ => if MAX_LONG_NAME_LEN <? str_len name then Err InvalidFileNameLength else validate_chars name
  end.

(** [Wrapping<u8>]: shifts drop the bits that leave, sums wrap. *)
Definition lfn_checksum (short_name : list Z) : Z :=
  foldl (λ chksum b, wrap 8 (wrap 8 (wrap 8 (Z.shiftl chksum 7) + Z.shiftr chksum 1) + b)) 0 short_name.

(** [Vec::resize] *)
Definition resize (l : list Z) (len x : Z) : list Z :=
  take (Z.to_nat len) l ++ replicate (Z.to_nat len - length l) x.

(** [LfnBuffer] is its [Vec]. *)
Record LongNameBuilder := mkBuilder { lb_buf : list Z; lb_chksum : Z; lb_index : Z }.

Definition LongNameBuilder_new : LongNameBuilder := mkBuilder [] 0 0.

Section Builder.
Context {P : Profile}.
Implicit Types self : LongNameBuilder.

Definition lb_clear self : LongNameBuilder := mkBuilder [] (lb_chksum self) 0.

Definition lb_truncate self : LongNameBuilder :=
  let new_len := len_of (rposition (λ c, negb (c =? 0xFFFF) && negb (c =? 0)) (lb_buf self)) in
  mkBuilder (resize (lb_buf self) new_len 0) (lb_chksum self) (lb_index self).

Definition lb_is_empty self : bool := lb_index self =? 0.

Definition into_buf self : list Z :=
  if lb_index self =? 1 then lb_buf (lb_truncate self)
  else if negb (lb_is_empty self) then lb_buf (lb_clear self)
  else lb_buf self.

(** Copying a part into the buffer, once the entry is accepted. *)
Definition lb_copy self (data : DirLfnEntryData) (index_ : Z) : out LongNameBuilder :=
  k ← sub_u 8 index_ 1;
  let pos := LFN_PART_LEN * k in
  part ← slice (lb_buf self) pos (pos + 13);
  part ← copy_name_to_slice data part;
  Ret (mkBuilder (splice (lb_buf self) pos part) (lb_chksum self) (lb_index self)).

Definition lb_process self (data : DirLfnEntryData) : out LongNameBuilder :=
  let is_last := negb (Z.land (l_order data) LFN_ENTRY_LAST_FLAG =? 0) in
  let index := Z.land (l_order data) 0x1F in
  if (index =? 0) || (MAX_LONG_DIR_ENTRIES <? index) then Ret (lb_clear self)
  else if is_last then
    lb_copy (mkBuilder (resize (lb_buf self) (index * LFN_PART_LEN) 0) (l_checksum data) index) data index
  else
    bad ← (if lb_index self =? 0 then Ret true
           else (before ← sub_u 8 (lb_index self) 1;
                 Ret (negb (index =? before) || negb (l_checksum data =? lb_chksum self))));
    if (bad : bool) then Ret (lb_clear self)
    else
      new_index ← sub_u 8 (lb_index self) 1;
      lb_copy (mkBuilder (lb_buf self) (lb_chksum self) new_index) data index.

Definition lb_validate_chksum self (short_name : list Z) : LongNameBuilder :=
  if lb_is_empty self then self
  else if negb (lfn_checksum short_name =? lb_chksum self) then lb_clear self else self.

(** A run of entries, as [read_dir_entry] feeds them. *)
Fixpoint lb_process_all self (l : list DirLfnEntryData) : out LongNameBuilder :=
  match l with
  | [] => Ret self
  | data :: l => self ← lb_process self data; lb_process_all self l
  end.

End Builder.

(** [slice.chunks(n)]: [fuel] is the length of the slice, every chunk takes at least one. *)
Fixpoint chunks_aux {A} (fuel : nat) (n : nat) (l : list A) : list (list A) :=
  match l, fuel with
  | [], _ => []
  | _, O => []
  | _, S fuel => take n l :: chunks_aux fuel n (drop n l)
  end.

Definition chunks {A} (n : nat) (l : list A) : list (list A) := chunks_aux (length l) n l.

Record LfnEntriesGenerator := mkLfnGen {
  lg_parts : list (list Z);  (* what the reversed iterator over the chunks still yields *)
  lg_checksum : Z;
  lg_index : Z;
  lg_num : Z;
  lg_ended : bool;
}.

Section Generator.
Context {P : Profile}.

Definition LfnEntriesGenerator_new (name_utf16 : list Z) (checksum : Z) : LfnEntriesGenerator :=
  mkLfnGen (rev (chunks (Z.to_nat LFN_PART_LEN) name_utf16)) checksum 0
    ((zlen name_utf16 + LFN_PART_LEN - 1) / LFN_PART_LEN) false.

Definition lg_next (self : LfnEntriesGenerator) : out (option DirLfnEntryData * LfnEntriesGenerator) :=
  if lg_ended self then Ret (None, self)
  else match lg_parts self with
  | name_part :: parts =>
      lfn_index ← sub_u 64 (lg_num self) (lg_index self);
      let order := wrap 8 lfn_index in
      let order := if lg_index self =? 0 then Z.lor order LFN_ENTRY_LAST_FLAG else order in
      _ ← debug_assert (0 <? order);
      lfn_part ← copy_at (replicate (Z.to_nat LFN_PART_LEN) LFN_PADDING) 0 name_part;
      lfn_part ← (if zlen name_part <? LFN_PART_LEN then store lfn_part (zlen name_part) 0 else Ret lfn_part);
      lfn_entry ← copy_name_from_slice (DirLfnEntryData_new order (lg_checksum self)) lfn_part;
      Ret (Some lfn_entry, mkLfnGen parts (lg_checksum self) (lg_index self + 1) (lg_num self) (lg_ended self))
  | [] => Ret (None, mkLfnGen [] (lg_checksum self) (lg_index self) (lg_num self) true)
  end.

(** [lfn_iter.len()]: what [size_hint] says. *)
Definition lg_len (self : LfnEntriesGenerator) : Z := zlen (lg_parts self).

(** The entries the iterator yields: one per remaining part. *)
Fixpoint lg_collect (fuel : nat) (self : LfnEntriesGenerator) : out (list DirLfnEntryData) :=
  match fuel with
  | O => Ret []
  | S fuel =>
      '(e, self) ← lg_next self;
      match e with
      | Some e => l ← lg_collect fuel self; Ret (e :: l)
      | None => Ret []
      end
  end.

Definition lfn_entries (name_utf16 : list Z) (checksum : Z) : out (list DirLfnEntryData) :=
  let g := LfnEntriesGenerator_new name_utf16 checksum in
  lg_collect (S (length (lg_parts g))) g.

End Generator.

(** ** Parts of a name *)

Lemma chunks_aux_fuel {A} n (l : list A) f1 f2 : (0 < n)%nat → (length l ≤ f1)%nat → (length l ≤ f2)%nat →
  chunks_aux f1 n l = chunks_aux f2 n l.
Proof.
  intros Hn. revert l f2. induction f1 as [|f1 IH]; intros l f2 H1 H2; destruct l as [|x l]; [by destruct f2|cbn in H1; lia|by destruct f2|].
  destruct f2 as [|f2]; [cbn in H2; lia|]. cbn [chunks_aux]. f_equal.
  apply IH; rewrite length_drop; cbn in *; lia.
Qed.

Lemma chunks_cons {A} n (l : list A) : (0 < n)%nat → l ≠ [] → chunks n l = take n l :: chunks n (drop n l).
Proof.
  intros Hn Hl. unfold chunks. destruct l as [|x l]; [done|]. cbn [length chunks_aux]. f_equal.
  apply chunks_aux_fuel; [done|rewrite length_drop; cbn; lia|done].
Qed.

Lemma chunks_ind {A} n (Q : list A → list (list A) → Prop) : (0 < n)%nat → Q [] [] →
  (∀ l ps, l ≠ [] → Q (drop n l) ps → Q l (take n l :: ps)) → ∀ l, Q l (chunks n l).
Proof.
  intros Hn H0 HS l. remember (length l) as k eqn:Hk. revert l Hk. induction (lt_wf k) as [k _ IH]; intros l ->.
  destruct (decide (l = [])) as [->|Hl]; [done|]. rewrite chunks_cons by done. apply HS; [done|].
  eapply IH; [|done]. rewrite length_drop. destruct l; [done|]. cbn. lia.
Qed.

(** A part, padded to its 13 places. *)
Definition pad_part (p : list Z) : list Z :=
  if zlen p <? LFN_PART_LEN then p ++ 0 :: replicate (12 - length p) LFN_PADDING else p.

Definition part_ok (p : list Z) : Prop := 1 ≤ zlen p ≤ 13.

Lemma zlen_pad_part p : part_ok p → zlen (pad_part p) = 13.
Proof.
  intros Hp. unfold part_ok in Hp. unfold pad_part, LFN_PART_LEN. case_bool; [|lia].
  rewrite zlen_app, zlen_cons. unfold zlen in *. rewrite length_replicate. lia.
Qed.

Lemma chunks_parts (l : list Z) : Forall part_ok (chunks 13 l) ∧ zlen (chunks 13 l) = (zlen l + 12) / 13.
Proof.
  apply (chunks_ind 13 (λ l ps, Forall part_ok ps ∧ zlen ps = (zlen l + 12) / 13)); [lia|done|].
  intros l' ps Hne [HF Hz]. assert (1 ≤ zlen l') by (destruct l'; [done|rewrite zlen_cons; pose proof (zlen_nonneg l'); lia]).
  split; [constructor; [|done]|].
  - unfold part_ok, zlen in *. rewrite length_take. lia.
  - rewrite zlen_cons, Hz. unfold zlen in *. rewrite length_drop. destruct (decide (Z.of_nat (length l') ≤ 13)).
    + replace (Z.of_nat (length l' - 13) + 12) with 12 by lia. Z.div_mod_to_equations. lia.
    + replace (Z.of_nat (length l' - 13) + 12) with (Z.of_nat (length l') + 12 + (-1) * 13) by lia.
      rewrite Z.div_add by lia. lia.
Qed.

Definition is_padding (c : Z) : Prop := c = 0 ∨ c = LFN_PADDING.

Lemma concat_pad (l : list Z) : ∃ pad, concat (pad_part <$> chunks 13 l) = l ++ pad ∧ Forall is_padding pad.
Proof.
  apply (chunks_ind 13 (λ l ps, ∃ pad, concat (pad_part <$> ps) = l ++ pad ∧ Forall is_padding pad)); [lia|by exists []|].
  intros l' ps Hne (pad & E & HF). rewrite fmap_cons. cbn [concat]. rewrite E.
  assert (∃ q, pad_part (take 13 l') = take 13 l' ++ q ∧ Forall is_padding q ∧ (q = [] ∨ drop 13 l' = [])) as (q & -> & Hq & Hc).
  { unfold pad_part, LFN_PART_LEN. case_bool; [|exists []; rewrite app_nil_r; by split_and!; [| |left]].
    eexists. split; [done|]. split.
    - constructor; [by left|]. apply Forall_replicate. by right.
    - right. apply drop_ge. unfold zlen in *. rewrite length_take in *. lia. }
  destruct Hc as [->|Hd].
  - exists pad. by rewrite app_nil_r, app_assoc, take_drop.
  - exists (q ++ pad). rewrite Hd. cbn. rewrite <- app_assoc. split; [|by apply Forall_app_2].
    rewrite <- (take_drop 13 l') at 2. by rewrite Hd, app_nil_r.
Qed.

(** ** The entries of a name *)

Definition part_entry (order chk : Z) (p : list Z) : DirLfnEntryData :=
  mkLfn order (take 5 p) LFN 0 chk (subslice p 5 11) 0 (drop 11 p).

Definition part_order (num j : Z) : Z := if j =? 0 then Z.lor num LFN_ENTRY_LAST_FLAG else num - j.

Fixpoint part_entries (chk num j : Z) (ps : list (list Z)) : list DirLfnEntryData :=
  match ps with
  | [] => []
  | p :: ps => part_entry (part_order num j) chk (pad_part p) :: part_entries chk num (j + 1) ps
  end.

Lemma zlen_part_entries chk num j ps : zlen (part_entries chk num j ps) = zlen ps.
Proof. revert j. induction ps as [|p ps IH]; intros j; cbn [part_entries]; [done|]. by rewrite !zlen_cons, IH. Qed.

Section LfnProofs.
Context {P : Profile}.

Lemma lg_next_ok p ps chk j num : part_ok p → 0 ≤ j → j + 1 + zlen ps = num → num ≤ 31 →
  lg_next (mkLfnGen (p :: ps) chk j num false) =
    Ret (Some (part_entry (part_order num j) chk (pad_part p)), mkLfnGen ps chk (j + 1) num false).
Proof.
  intros Hp Hj Hn Hm. pose proof (zlen_nonneg ps). unfold lg_next. cbn [lg_ended lg_parts lg_num lg_index lg_checksum].
  rewrite sub_u_ok by lia. run. rewrite (wrap_small 8) by lia.
  assert ((if j =? 0 then Z.lor (num - j) LFN_ENTRY_LAST_FLAG else num - j) = part_order num j) as ->.
  { unfold part_order. case_bool; [|done]. by replace (num - j) with num by lia. }
  assert (0 < part_order num j).
  { unfold part_order. case_bool; [|lia]. assert (0 ≤ Z.lor num LFN_ENTRY_LAST_FLAG) by (apply Z.lor_nonneg; unfold LFN_ENTRY_LAST_FLAG; lia).
    assert (Z.lor num LFN_ENTRY_LAST_FLAG ≠ 0); [|lia]. intros [_ Hx]%Z.lor_eq_0_iff. done. }
  unfold debug_assert. rewrite (proj2 (Z.ltb_lt 0 _)) by done.
  replace (if overflow_checks then assert true else Ret tt) with (Ret tt) by (by destruct overflow_checks). run.
  change (Z.to_nat LFN_PART_LEN) with 13%nat. unfold part_ok in Hp. rewrite copy_at_ok by (unfold zlen in *; rewrite ?length_replicate; cbn; lia). run.
  assert (splice (replicate 13 LFN_PADDING) 0 p = p ++ replicate (13 - length p) LFN_PADDING) as ->.
  { unfold splice. cbn [Z.to_nat take app]. by rewrite drop_replicate. }
  assert ((if zlen p <? LFN_PART_LEN then store (p ++ replicate (13 - length p) LFN_PADDING) (zlen p) 0
           else Ret (p ++ replicate (13 - length p) LFN_PADDING)) = Ret (pad_part p)) as ->.
  { unfold pad_part, LFN_PART_LEN. case_bool.
    - unfold store. rewrite zlen_app. unfold zlen in *. rewrite length_replicate.
      rewrite (proj2 (Z.leb_le _ _)), (proj2 (Z.ltb_lt _ _)) by lia. cbn [andb]. rewrite Nat2Z.id, insert_app_r_alt by lia.
      rewrite Nat.sub_diag. replace (13 - length p)%nat with (S (12 - length p)) by lia. done.
    - replace (13 - length p)%nat with 0%nat by (unfold zlen in *; lia). by rewrite app_nil_r. }
  run. pose proof (zlen_pad_part p Hp) as Hz. unfold copy_name_from_slice, DirLfnEntryData_new.
  rewrite (slice_head (pad_part p) 5) by lia. run. rewrite (slice_ok (pad_part p) 5) by lia. run.
  change (11 + 2) with 13. rewrite <- Hz. rewrite (slice_tail (pad_part p) 11) by lia. run. done.
Qed.

Lemma lg_collect_ok ps chk j num fuel : Forall part_ok ps → 0 ≤ j → j + zlen ps = num → num ≤ 31 →
  (length ps < fuel)%nat → lg_collect fuel (mkLfnGen ps chk j num false) = Ret (part_entries chk num j ps).
Proof.
  intros HF. revert j fuel. induction HF as [|p ps Hp HF IH]; intros j fuel Hj Hn Hm Hfuel; (destruct fuel as [|fuel]; [lia|]).
  - done.
  - rewrite zlen_cons in Hn. cbn [lg_collect]. rewrite lg_next_ok by (done || lia). run.
    rewrite IH by (lia || cbn in Hfuel; lia). done.
Qed.

(** ** Reading the entries back *)

Definition lfn_shape (d : DirLfnEntryData) : Prop :=
  zlen (l_name_0 d) = 5 ∧ zlen (l_name_1 d) = 6 ∧ zlen (l_name_2 d) = 2.

Definition lfn_part (d : DirLfnEntryData) : list Z := l_name_0 d ++ l_name_1 d ++ l_name_2 d.

Lemma splice_app {A} (a b c m : list A) n : zlen a = n → length b = length m →
  splice (a ++ b ++ c) n m = a ++ m ++ c.
Proof.
  intros <- Hm. unfold splice, zlen. rewrite Nat2Z.id, take_app_length. f_equal. f_equal.
  rewrite drop_app_ge by lia. replace (length a + length m - length a)%nat with (length b) by lia. apply drop_app_length.
Qed.

Lemma split_at {A} (l : list A) n m : zlen l = Z.of_nat (n + m) → ∃ a b, l = a ++ b ∧ length a = n ∧ length b = m.
Proof.
  intros Hl. exists (take n l), (drop n l). rewrite take_drop, length_take, length_drop. unfold zlen in Hl. split_and!; [done|lia|lia].
Qed.

Lemma copy_name_to_slice_ok d part : lfn_shape d → zlen part = 13 → copy_name_to_slice d part = Ret (lfn_part d).
Proof.
  intros (H0 & H1 & H2) Hp. unfold copy_name_to_slice, LFN_PART_LEN, debug_assert. rewrite Hp. cbn [Z.eqb Pos.eqb].
  replace (if overflow_checks then assert true else Ret tt) with (Ret tt) by (by destruct overflow_checks). run.
  destruct (split_at part 5 8 Hp) as (a & r & -> & Ha & Hr).
  destruct (split_at r 6 2) as (b & c & -> & Hb & Hc); [unfold zlen; lia|].
  unfold zlen in H0, H1, H2. pose proof (zlen_app a (b ++ c)) as E. unfold zlen in E.
  assert (∀ x y z : list Z, length x = 5%nat → length y = 6%nat → length z = 2%nat → zlen (x ++ y ++ z) = 13) as Hz.
  { intros x y z Hx Hy Hz. rewrite !zlen_app. unfold zlen. lia. }
  rewrite copy_at_ok by (rewrite ?Hz by lia; unfold zlen; lia). run.
  pose proof (splice_app [] a (b ++ c) (l_name_0 d) 0) as E0. cbn [app] in E0. rewrite E0 by (done || lia).
  rewrite copy_at_ok by (rewrite ?Hz by lia; unfold zlen; lia). run.
  rewrite (splice_app (l_name_0 d) b c (l_name_1 d) 5) by (unfold zlen; lia).
  rewrite copy_at_ok by (rewrite ?Hz by lia; unfold zlen; lia). f_equal.
  pose proof (splice_app (l_name_0 d ++ l_name_1 d) c [] (l_name_2 d) 11) as Es.
  rewrite !app_nil_r, <- !app_assoc in Es. apply Es; [rewrite zlen_app; unfold zlen|]; lia.
Qed.

Lemma lb_copy_ok self d k : lfn_shape d → 1 ≤ k < 256 → 13 * k ≤ zlen (lb_buf self) →
  lb_copy self d k = Ret (mkBuilder (splice (lb_buf self) (13 * (k - 1)) (lfn_part d)) (lb_chksum self) (lb_index self)).
Proof.
  intros Hd Hk Hl. unfold lb_copy, LFN_PART_LEN. rewrite sub_u_ok by lia. run. rewrite slice_ok by lia. run.
  rewrite copy_name_to_slice_ok; [run; done|done|]. rewrite zlen_subslice by lia. lia.
Qed.

Lemma zlen_lfn_part d : lfn_shape d → zlen (lfn_part d) = 13.
Proof. intros (? & ? & ?). unfold lfn_part. rewrite !zlen_app. lia. Qed.

Lemma zlen_resize l n x : 0 ≤ n → zlen (resize l n x) = n.
Proof. intros Hn. unfold resize. rewrite zlen_app. unfold zlen. rewrite length_take, length_replicate. lia. Qed.

(** While entries are expected, the buffer has room for them. *)
Definition lb_ok self : Prop := 0 ≤ lb_index self ≤ 31 ∧ 13 * lb_index self ≤ zlen (lb_buf self) ≤ 260.

Lemma lb_process_safe self d : lb_ok self → lfn_shape d → 0 ≤ l_order d < 256 →
  ∃ self', lb_process self d = Ret self' ∧ lb_ok self'.
Proof.
  intros [Hi Hl] Hd Ho. pose proof (zlen_lfn_part d Hd) as Hz.
  assert (0 ≤ Z.land (l_order d) 0x1F < 32) as Hk by (apply (land_range _ _ 5); lia).
  assert (∀ s, lb_ok (lb_clear s)) as Hclr by (intros s; split; cbn; [lia|unfold zlen; cbn; lia]).
  unfold lb_process. set (k := Z.land (l_order d) 0x1F) in *. case_bool; [by eexists|]. breflect.
  change MAX_LONG_DIR_ENTRIES with 20 in *.
  case_bool; breflect.
  - rewrite lb_copy_ok; [|done|lia|cbn; rewrite zlen_resize; unfold LFN_PART_LEN; lia]. eexists. split; [done|].
    split; cbn; [lia|]. rewrite zlen_splice; rewrite ?zlen_resize, ?Hz; unfold LFN_PART_LEN; lia.
  - destruct (lb_index self =? 0) eqn:E0; [run; by eexists|]. breflect. rewrite sub_u_ok by lia. run. case_bool; [by eexists|].
    breflect. rewrite lb_copy_ok; [|done|lia|cbn; lia]. eexists. split; [done|].
    split; cbn; [lia|]. rewrite zlen_splice; lia.
Qed.

Lemma part_entry_part o chk q : zlen q = 13 → lfn_shape (part_entry o chk q) ∧ lfn_part (part_entry o chk q) = q.
Proof.
  intros Hq. unfold lfn_shape, lfn_part, part_entry. cbn [l_name_0 l_name_1 l_name_2].
  change 11%nat with (Z.to_nat 11). change 5%nat with (Z.to_nat 5).
  rewrite zlen_take, zlen_drop, zlen_subslice by lia. split; [lia|]. unfold subslice.
  rewrite <- (take_drop (Z.to_nat 5) q) at 4. f_equal. rewrite <- (take_drop (Z.to_nat (11 - 5)) (drop (Z.to_nat 5) q)) at 2.
  f_equal. by rewrite drop_drop.
Qed.

(** The order of an entry, taken apart. *)
Lemma order_parts num j : 0 ≤ j < num → num ≤ 20 →
  Z.land (part_order num j) 0x1F = num - j ∧ (Z.land (part_order num j) LFN_ENTRY_LAST_FLAG =? 0) = negb (j =? 0).
Proof.
  intros Hj Hn.
  assert (forallb (λ n, forallb (λ j, (Z.land (part_order n j) 0x1F =? n - j) &&
    eqb (Z.land (part_order n j) LFN_ENTRY_LAST_FLAG =? 0) (negb (j =? 0))) (range 0 n)) (range 1 21) = true) as H
    by (vm_compute; reflexivity).
  rewrite forallb_forall in H. specialize (H num). rewrite forallb_forall in H.
  assert (In num (range 1 21)) as H1 by (apply list_elem_of_In, elem_of_range; lia).
  assert (In j (range 0 num)) as H2 by (apply list_elem_of_In, elem_of_range; lia).
  specialize (H H1 j H2). apply andb_true_iff in H as [Ha Hb]. apply Z.eqb_eq in Ha. by apply eqb_prop in Hb.
Qed.

(** The entries after the first one fill the buffer from its end. *)
Lemma lb_process_rest ps chk num j buf : Forall part_ok ps → 1 ≤ j → j + zlen ps = num → num ≤ 20 →
  13 * zlen ps ≤ zlen buf →
  lb_process_all (mkBuilder buf chk (zlen ps + 1)) (part_entries chk num j ps) =
    Ret (mkBuilder (concat (pad_part <$> rev ps) ++ drop (Z.to_nat (13 * zlen ps)) buf) chk 1).
Proof.
  intros HF. revert j buf. induction HF as [|p ps Hp HF IH]; intros j buf Hj Hn Hm Hl; [done|].
  rewrite zlen_cons in *. pose proof (zlen_nonneg ps). pose proof (zlen_pad_part p Hp) as Hz.
  destruct (part_entry_part (part_order num j) chk (pad_part p) Hz) as [Hd Ep].
  destruct (order_parts num j) as [Ek El]; [lia|lia|].
  cbn [part_entries lb_process_all]. unfold lb_process. cbn [l_order part_entry lb_index lb_chksum l_checksum lb_buf]. rewrite Ek, El.
  replace (num - j) with (1 + zlen ps) by lia. change MAX_LONG_DIR_ENTRIES with 20.
  rewrite (proj2 (Z.eqb_neq (1 + zlen ps) 0)), (proj2 (Z.ltb_ge 20 _)), (proj2 (Z.eqb_neq j 0)) by lia. cbn [negb orb].
  rewrite (proj2 (Z.eqb_neq (1 + zlen ps + 1) 0)) by lia. rewrite sub_u_ok by lia. run.
  rewrite Z.add_simpl_r, !Z.eqb_refl. cbn [negb orb]. rewrite lb_copy_ok by (done || cbn; lia). rewrite Ep. run.
  cbn [lb_buf lb_chksum lb_index]. replace (1 + zlen ps) with (zlen ps + 1) by lia. rewrite Z.add_simpl_r.
  rewrite IH by (lia || rewrite zlen_splice; lia). do 2 f_equal. cbn [rev]. rewrite fmap_app, concat_app, <- app_assoc. f_equal.
  rewrite fmap_cons. cbn [concat fmap list_fmap]. rewrite app_nil_r. unfold splice.
  rewrite drop_app_ge, length_take by (rewrite length_take; unfold zlen in *; lia).
  replace (Z.to_nat (13 * zlen ps) - Z.to_nat (13 * zlen ps) `min` length buf)%nat with 0%nat by (unfold zlen in *; lia).
  rewrite drop_0. f_equal. f_equal. unfold zlen in *. lia.
Qed.

(** The number of entries of a name, and the parts in the order they are written. *)
Lemma name_parts (name : list Z) : name ≠ [] → zlen name ≤ 255 → ∃ p ps, rev (chunks 13 name) = p :: ps ∧
  part_ok p ∧ Forall part_ok ps ∧ zlen ps + 1 = (zlen name + 12) / 13 ∧ 1 ≤ (zlen name + 12) / 13 ≤ 20.
Proof.
  intros Hne Hlen. destruct (chunks_parts name) as [HF Hz].
  assert (zlen (rev (chunks 13 name)) = (zlen name + 12) / 13) as Hzr by (unfold zlen in *; by rewrite length_rev).
  assert (1 ≤ zlen name) by (destruct name; [done|rewrite zlen_cons; pose proof (zlen_nonneg name); lia]).
  assert (1 ≤ (zlen name + 12) / 13 ≤ 20) by (Z.div_mod_to_equations; lia).
  apply Forall_rev in HF. destruct (rev (chunks 13 name)) as [|p ps]; [change (zlen []) with 0 in Hzr; lia|].
  rewrite zlen_cons in Hzr. apply Forall_cons in HF as [Hp HF]. exists p, ps. split_and!; [done|done|done|lia|lia|lia].
Qed.

Lemma lfn_entries_ok name chk : name ≠ [] → zlen name ≤ 255 →
  lfn_entries name chk = Ret (part_entries chk ((zlen name + 12) / 13) 0 (rev (chunks 13 name))).
Proof.
  intros Hne Hlen. destruct (name_parts name Hne Hlen) as (p & ps & E & Hp & HF & Hz & Hn).
  unfold lfn_entries, LfnEntriesGenerator_new. change (Z.to_nat LFN_PART_LEN) with 13%nat. cbn [lg_parts]. unfold LFN_PART_LEN.
  replace (zlen name + 13 - 1) with (zlen name + 12) by lia. rewrite E.
  apply lg_collect_ok; [by constructor|lia|rewrite zlen_cons; lia|lia|lia].
Qed.

Lemma lb_process_entries name chk : name ≠ [] → zlen name ≤ 255 →
  lb_process_all LongNameBuilder_new (part_entries chk ((zlen name + 12) / 13) 0 (rev (chunks 13 name))) =
    Ret (mkBuilder (concat (pad_part <$> chunks 13 name)) chk 1).
Proof.
  intros Hne Hlen. destruct (name_parts name Hne Hlen) as (p & ps & E & Hp & HF & Hz & Hn).
  assert (chunks 13 name = rev (p :: ps)) as -> by (rewrite <- E; symmetry; apply rev_involutive). rewrite rev_involutive.
  set (num := (zlen name + 12) / 13) in *. pose proof (zlen_pad_part p Hp) as Hzp. pose proof (zlen_nonneg ps).
  destruct (part_entry_part (part_order num 0) chk (pad_part p) Hzp) as [Hd Ep].
  destruct (order_parts num 0) as [Ek Eo]; [lia|lia|].
  cbn [part_entries lb_process_all]. unfold lb_process. cbn [l_order part_entry lb_index lb_chksum l_checksum lb_buf LongNameBuilder_new].
  rewrite Ek, Eo, Z.sub_0_r. change MAX_LONG_DIR_ENTRIES with 20.
  rewrite (proj2 (Z.eqb_neq num 0)), (proj2 (Z.ltb_ge 20 num)) by lia. cbn [negb orb Z.eqb].
  assert (zlen (resize [] (num * LFN_PART_LEN) 0) = 13 * num) as Hr by (rewrite zlen_resize; unfold LFN_PART_LEN; lia).
  rewrite lb_copy_ok; [|done|lia|cbn [lb_buf]; lia]. rewrite Ep. run. cbn [lb_buf lb_chksum lb_index].
  match goal with |- context [mkBuilder ?b chk num] => replace (mkBuilder b chk num) with (mkBuilder b chk (zlen ps + 1)) by (f_equal; lia) end.
  rewrite lb_process_rest; [|done|lia|lia|lia|rewrite zlen_splice; lia]. do 2 f_equal.
  cbn [rev]. rewrite fmap_app, concat_app. f_equal. rewrite fmap_cons. cbn [concat fmap list_fmap]. f_equal.
  set (z := resize [] (num * LFN_PART_LEN) 0) in *. unfold splice. replace (num - 1) with (zlen ps) by lia.
  rewrite drop_app_ge, length_take by (rewrite length_take; unfold zlen in *; lia).
  replace (Z.to_nat (13 * zlen ps) - Z.to_nat (13 * zlen ps) `min` length z)%nat with 0%nat by (unfold zlen in *; lia).
  rewrite drop_0, (drop_ge z) by (unfold zlen in *; lia). by rewrite app_nil_r.
Qed.

(** Cutting the padding off. *)
Lemma padding_spec c : negb (c =? 0xFFFF) && negb (c =? 0) = false ↔ is_padding c.
Proof.
  unfold is_padding, LFN_PADDING. destruct (c =? 0xFFFF) eqn:E1, (c =? 0) eqn:E2; breflect; cbn; split; intros H; (done || lia || auto).
Qed.

Lemma split_unique {A} (Q : A → Prop) (a b c d : list A) : a ++ b = c ++ d → Forall Q b → Forall Q d →
  (∀ x, last a = Some x → ¬ Q x) → (∀ x, last c = Some x → ¬ Q x) → a = c.
Proof.
  assert (∀ a b c d : list A, a ++ b = c ++ d → Forall Q b → (∀ x, last c = Some x → ¬ Q x) → (length c ≤ length a)%nat) as H.
  { clear. intros a b c d E Hb Hc. destruct (decide (length c ≤ length a)%nat) as [|Hn]; [done|].
    destruct (app_eq_inv _ _ _ _ E) as [(k & -> & ->)|(k & -> & ->)]; [rewrite length_app in Hn; lia|].
    destruct (decide (k = [])) as [->|Hk]; [rewrite app_nil_r in Hn; lia|]. exfalso.
    destruct (last k) as [x|] eqn:Ex; [|by apply last_None in Ex]. apply (Hc x).
    - rewrite last_app, Ex. done.
    - apply last_Some in Ex as (k' & ->). apply Forall_app in Hb as [[_ Hb]%Forall_app _]. by apply Forall_cons in Hb as [? _]. }
  intros E Hb Hd Ha Hc. apply app_inj_1 in E as [? _]; [done|].
  pose proof (H a b c d E Hb Hc). pose proof (H c d a b (eq_sym E) Hd Ha). lia.
Qed.

Lemma into_buf_ok name pad chk : Forall is_padding pad → (∀ c, last name = Some c → ¬ is_padding c) →
  into_buf (mkBuilder (name ++ pad) chk 1) = name.
Proof.
  intros Hp Hl. unfold into_buf. cbn [lb_index Z.eqb Pos.eqb]. unfold lb_truncate. cbn [lb_buf].
  destruct (rposition_split (λ c, negb (c =? 0xFFFF) && negb (c =? 0)) (name ++ pad)) as (a & b & E & Ha & Hb & Hla).
  rewrite <- Ha. assert (a = name) as ->.
  { symmetry. eapply (split_unique is_padding); [exact E|done| |done|].
    - eapply Forall_impl; [exact Hb|]. intros c. apply padding_spec.
    - intros c Hc Hpc. apply padding_spec in Hpc. rewrite (Hla c Hc) in Hpc. done. }
  unfold resize, zlen. rewrite Nat2Z.id, E, take_app_length, length_app.
  replace (length name - (length name + length b))%nat with 0%nat by lia. apply app_nil_r.
Qed.

(** [C35] Long names survive their directory entries: the entries made for a name of up to
    255 units that does not end in a padding unit, one for every 13 units begun, are
    accepted by the builder in the order they are written, and give the name again
    when the short name has the checksum they were made for; any other checksum makes
    the builder drop it. *)
Theorem lfn_roundtrip (name short_name other : list Z)
    (Hne : name ≠ []) (Hlen : zlen name ≤ 255) (Hlast : ∀ c, last name = Some c → c ≠ 0 ∧ c ≠ LFN_PADDING) :
  ∃ l b, lfn_entries name (lfn_checksum short_name) = Ret l ∧ zlen l = (zlen name + 12) / 13 ∧
    lb_process_all LongNameBuilder_new l = Ret b ∧ into_buf (lb_validate_chksum b short_name) = name ∧
    (lfn_checksum other ≠ lfn_checksum short_name → into_buf (lb_validate_chksum b other) = []).
Proof.
  rewrite (lfn_entries_ok name) by done. eexists _, _. split; [done|]. rewrite lb_process_entries by done.
  split; [|split; [done|]].
  - destruct (name_parts name Hne Hlen) as (p & ps & -> & _ & _ & Hz & _). rewrite zlen_part_entries, zlen_cons. lia.
  - destruct (concat_pad name) as (pad & -> & Hpad). unfold lb_validate_chksum. cbn [lb_is_empty lb_index lb_chksum Z.eqb Pos.eqb].
    rewrite Z.eqb_refl. cbn [negb]. split.
    + apply into_buf_ok; [done|]. intros c Hc. destruct (Hlast c Hc). by intros [?|?].
    + intros Hx. rewrite (proj2 (Z.eqb_neq _ _)) by done. done.
Qed.

(** Reading long-name entries is safe: whatever entries a directory holds, in whatever
    order, the builder takes them without leaving its buffer, which never has more than
    260 units. *)
Theorem lfn_builder_safe (l : list DirLfnEntryData)
    (Hl : Forall (λ d, lfn_shape d ∧ 0 ≤ l_order d < 256) l) :
  ∃ b, lb_process_all LongNameBuilder_new l = Ret b ∧ zlen (into_buf b) ≤ 260.
Proof.
  assert (∀ b, lb_ok b → ∃ b', lb_process_all b l = Ret b' ∧ lb_ok b') as H.
  { induction Hl as [|d l [Hd Ho] Hl IH]; intros b Hb; cbn [lb_process_all]; [by exists b|].
    destruct (lb_process_safe b d Hb Hd Ho) as (b1 & -> & Hb1). run. by apply IH. }
  destruct (H LongNameBuilder_new) as (b & -> & [Hi Hb]); [split; cbn; unfold zlen; cbn; lia|].
  exists b. split; [done|]. unfold into_buf. case_bool; [|case_bool; [unfold zlen; cbn; lia|lia]].
  unfold lb_truncate. cbn [lb_buf].
  destruct (rposition_split (λ c, negb (c =? 0xFFFF) && negb (c =? 0)) (lb_buf b)) as (p & q & Epq & Hp & _).
  rewrite <- Hp, zlen_resize by apply zlen_nonneg. rewrite Epq, zlen_app in Hb. pose proof (zlen_nonneg q). lia.
Qed.

End LfnProofs.

(** ** Short names for long ones *)

Record ShortNameGenerator := mkGen {
  g_chksum : Z;
  g_long_prefix_bitmap : Z;
  g_prefix_chksum_bitmap : Z;
  g_name_fits : bool;
  g_lossy_conv : bool;
  g_exact_match : bool;
  g_basename_len : Z;
  g_short_name : list Z;
}.

(** [! # $ % & ' ( ) - @ ^ _ ` { } ~] *)
Definition short_name_char (c : Z) : bool :=
  ascii_alnum c || existsb (Z.eqb c) [33; 35; 36; 37; 38; 39; 40; 41; 45; 64; 94; 95; 96; 123; 125; 126].

(** [char::to_digit(10)] and [(16)], [char::from_digit]. *)
Definition to_digit10 (c : Z) : option Z := if between 48 57 c then Some (c - 48) else None.

Definition to_digit16 (c : Z) : option Z :=
  if between 48 57 c then Some (c - 48)
  else if between 97 102 c then Some (c - 87)
  else if between 65 70 c then Some (c - 55) else None.

Definition from_digit (num radix : Z) : option Z :=
  if num <? radix then Some (if num <? 10 then 48 + num else 87 + num) else None.

Fixpoint hex_digits (l : list Z) (acc : Z) : option Z :=
  match l with
  | [] => Some acc
  | c :: l => match to_digit16 c with Some d => hex_digits l (acc * 16 + d) | None => None end
  end.

(** [u16::from_str_radix(s, 16)] on the four bytes, if they are UTF-8: a leading plus is
    skipped, anything that is not a digit is an error, and four digits fit 16 bits. *)
Definition parse_hex (l : list Z) : option Z :=
  match l with
  | [] => None
  | c :: l' => if (c =? 0x2B) && negb (bool_decide (l' = [])) then hex_digits l' 0 else hex_digits l 0
  end.

(** [copy_short_name_part], with the destination and what it returns. *)
Fixpoint copy_short_name_part (dst : list Z) (dst_pos : Z) (lossy_conv : bool) (src : list Z) :
    out (list Z * Z * bool * bool) :=
  match src with
  | [] => Ret (dst, dst_pos, true, lossy_conv)
  | c :: src =>
      if dst_pos =? zlen dst then Ret (dst, dst_pos, false, lossy_conv)
      else if (c =? 0x20) || (c =? 0x2E) then copy_short_name_part dst dst_pos true src
      else
        let fixed_c := if short_name_char c then c else 0x5F in
        let lossy_conv := lossy_conv || negb (fixed_c =? c) in
        let upper := to_ascii_uppercase fixed_c in
        dst ← store dst dst_pos (wrap 8 upper);
        copy_short_name_part dst (dst_pos + 1) lossy_conv src
  end.

(** [Wrapping<u16>] *)
Definition sn_checksum (name : list Z) : Z :=
  foldl (λ chksum c, wrap 16 (wrap 16 (Z.shiftr chksum 1 + wrap 16 (Z.shiftl chksum 15)) + wrap 16 c)) 0 name.

(** [name[1..]]: the first character must be there and take one byte. *)
Definition str_from_1 (name : list Z) : out (list Z) :=
  match name with
  | c :: rest => if len_utf8 c =? 1 then Ret rest else Panic
  | [] => Panic
  end.

Definition ShortNameGenerator_new (name : list Z) : out ShortNameGenerator :=
  let short_name := replicate (Z.to_nat SFN_SIZE) SFN_PADDING in
  rest ← str_from_1 name;
  let dot := split_last 0x2E rest in
  let basename_src := match dot with Some (before, _) => take 1 name ++ before | None => name end in
  '(base, basename_len, basename_fits, basename_lossy) ← copy_short_name_part (take 8 short_name) 0 false basename_src;
  '(ext, name_fits, lossy_conv) ←
    match dot with
    | Some (_, after) =>
        '(ext, _, ext_fits, ext_lossy) ← copy_short_name_part (drop 8 short_name) 0 false after;
        Ret (ext, basename_fits && ext_fits, basename_lossy || ext_lossy)
    | None => Ret (drop 8 short_name, basename_fits, basename_lossy)
    end;
  Ret (mkGen (sn_checksum name) 0 0 name_fits lossy_conv false basename_len (base ++ ext)).

Definition generate_dot : list Z := 0x2E :: replicate 10 SFN_PADDING.
Definition generate_dotdot : list Z := 0x2E :: 0x2E :: replicate 9 SFN_PADDING.

Section ShortNames.
Context {P : Profile}.
Implicit Types self : ShortNameGenerator.

Definition g_set_long self (b : Z) : ShortNameGenerator :=
  mkGen (g_chksum self) b (g_prefix_chksum_bitmap self) (g_name_fits self) (g_lossy_conv self)
    (g_exact_match self) (g_basename_len self) (g_short_name self).
Definition g_set_prefix self (b : Z) : ShortNameGenerator :=
  mkGen (g_chksum self) (g_long_prefix_bitmap self) b (g_name_fits self) (g_lossy_conv self)
    (g_exact_match self) (g_basename_len self) (g_short_name self).
Definition g_set_exact self : ShortNameGenerator :=
  mkGen (g_chksum self) (g_long_prefix_bitmap self) (g_prefix_chksum_bitmap self) (g_name_fits self)
    (g_lossy_conv self) true (g_basename_len self) (g_short_name self).

Definition check_for_long_prefix_collision self (short_name : list Z) : out ShortNameGenerator :=
  let long_prefix_len := Z.min (g_basename_len self) 6 in
  c ← index short_name long_prefix_len;
  if negb (c =? 0x7E) then Ret self
  else
    d ← index short_name (long_prefix_len + 1);
    match to_digit10 d with
    | Some num_suffix =>
        a ← slice short_name 0 long_prefix_len;
        b ← slice (g_short_name self) 0 long_prefix_len;
        a' ← slice short_name 8 (zlen short_name);
        b' ← slice (g_short_name self) 8 (zlen (g_short_name self));
        if bool_decide (a = b) && bool_decide (a' = b')
        then Ret (g_set_long self (Z.lor (g_long_prefix_bitmap self) (wrap 16 (Z.shiftl 1 num_suffix))))
        else Ret self
    | None => Ret self
    end.

Definition check_for_short_prefix_collision self (short_name : list Z) : out ShortNameGenerator :=
  let short_prefix_len := Z.min (g_basename_len self) 2 in
  c ← index short_name (short_prefix_len + 4);
  if negb (c =? 0x7E) then Ret self
  else
    d ← index short_name (short_prefix_len + 4 + 1);
    match to_digit10 d with
    | Some num_suffix =>
        a ← slice short_name 0 short_prefix_len;
        b ← slice (g_short_name self) 0 short_prefix_len;
        a' ← slice short_name 8 (zlen short_name);
        b' ← slice (g_short_name self) 8 (zlen (g_short_name self));
        if bool_decide (a = b) && bool_decide (a' = b') then
          hex ← slice short_name short_prefix_len (short_prefix_len + 4);
          if bool_decide (parse_hex hex = Some (g_chksum self))
          then Ret (g_set_prefix self (Z.lor (g_prefix_chksum_bitmap self) (wrap 16 (Z.shiftl 1 num_suffix))))
          else Ret self
        else Ret self
    | None => Ret self
    end.

Definition add_existing self (short_name : list Z) : out ShortNameGenerator :=
  let self := if bool_decide (short_name = g_short_name self) then g_set_exact self else self in
  self ← check_for_long_prefix_collision self short_name;
  check_for_short_prefix_collision self short_name.

Definition u16_to_hex (x : Z) : out (list Z) :=
  a ← unwrap (from_digit (Z.land (Z.shiftr x 12) 0xF) 16);
  b ← unwrap (from_digit (Z.land (Z.shiftr x 8) 0xF) 16);
  c ← unwrap (from_digit (Z.land (Z.shiftr x 4) 0xF) 16);
  d ← unwrap (from_digit (Z.land x 0xF) 16);
  Ret (to_ascii_uppercase <$> [wrap 8 a; wrap 8 b; wrap 8 c; wrap 8 d]).

Definition build_prefixed_name self (num : Z) (with_chksum : bool) : out (list Z) :=
  let buf := replicate (Z.to_nat SFN_SIZE) SFN_PADDING in
  '(buf, prefix_len) ←
    (if with_chksum then
      let prefix_len := Z.min (g_basename_len self) 2 in
      src ← slice (g_short_name self) 0 prefix_len;
      buf ← copy_at buf 0 src;
      hex ← u16_to_hex (g_chksum self);
      buf ← copy_at buf prefix_len hex;
      Ret (buf, prefix_len + 4)
    else
      let prefix_len := Z.min (g_basename_len self) 6 in
      src ← slice (g_short_name self) 0 prefix_len;
      buf ← copy_at buf 0 src;
      Ret (buf, prefix_len));
  buf ← store buf prefix_len 0x7E;
  digit ← unwrap (from_digit num 10);
  buf ← store buf (prefix_len + 1) (wrap 8 digit);
  ext ← slice (g_short_name self) 8 (zlen (g_short_name self));
  copy_at buf 8 ext.

(** [for i in a..b { if bitmap & (1 << i) == 0 { return .. } }] *)
Definition first_clear (bitmap a b : Z) : option Z :=
  list_find (λ i, Z.land bitmap (wrap 16 (Z.shiftl 1 i)) = 0) (range a b) ≫= λ p, Some p.2.

Definition generate self : out (result Error (list Z)) :=
  if negb (g_lossy_conv self) && g_name_fits self && negb (g_exact_match self) then Ret (Ok (g_short_name self))
  else match first_clear (g_long_prefix_bitmap self) 1 5 with
  | Some i => n ← build_prefixed_name self i false; Ret (Ok n)
  | None =>
      match first_clear (g_prefix_chksum_bitmap self) 1 10 with
      | Some i => n ← build_prefixed_name self i true; Ret (Ok n)
      | None => Ret (Err AlreadyExists)
      end
  end.

Definition next_iteration self : ShortNameGenerator :=
  mkGen (wrap 16 (g_chksum self + 1)) 0 0 (g_name_fits self) (g_lossy_conv self) (g_exact_match self)
    (g_basename_len self) (g_short_name self).

(** The names of a directory, as [find_entry] shows them to the generator. *)
Fixpoint add_all self (l : list (list Z)) : out ShortNameGenerator :=
  match l with
  | [] => Ret self
  | n :: l => self ← add_existing self n; add_all self l
  end.

End ShortNames.

(** ** What the generator makes of a name *)

Record gen_ok (g : ShortNameGenerator) : Prop := {
  go_name : zlen (g_short_name g) = 11;
  go_base : 0 ≤ g_basename_len g ≤ 8;
  go_chksum : 0 ≤ g_chksum g < 65536;
  go_long : 0 ≤ g_long_prefix_bitmap g;
  go_prefix : 0 ≤ g_prefix_chksum_bitmap g;
}.

Section ShortNameProofs.
Context {P : Profile}.

Lemma store_app {A} (a b : list A) (x y : A) n : zlen a = n → store (a ++ x :: b) n y = Ret (a ++ y :: b).
Proof.
  intros <-. unfold store. rewrite zlen_app, zlen_cons. pose proof (zlen_nonneg a). pose proof (zlen_nonneg b).
  rewrite (proj2 (Z.leb_le _ _)), (proj2 (Z.ltb_lt _ _)) by lia. cbn [andb]. f_equal. unfold zlen. rewrite Nat2Z.id.
  rewrite insert_app_r_alt by lia. by rewrite Nat.sub_diag.
Qed.

Lemma copy_part_ok (src : list Z) dst pos lossy : 0 ≤ pos ≤ zlen dst →
  ∃ dst' pos' fits lossy', copy_short_name_part dst pos lossy src = Ret (dst', pos', fits, lossy') ∧
    zlen dst' = zlen dst ∧ 0 ≤ pos' ≤ zlen dst.
Proof.
  revert dst pos lossy. induction src as [|c src IH]; intros dst pos lossy Hp; cbn [copy_short_name_part];
    [by eexists _, _, _, _|].
  case_bool; [by eexists _, _, _, _|]. case_bool; [by apply IH|]. unfold store.
  rewrite (proj2 (Z.leb_le 0 pos)), (proj2 (Z.ltb_lt pos _)) by lia. cbn [andb]. run.
  match goal with |- context [copy_short_name_part ?d _ ?l src] => destruct (IH d (pos + 1) l) as (d' & p' & f' & l' & Ec & Hz & Hp') end.
  { unfold zlen in *. rewrite length_insert. lia. }
  exists d', p', f', l'. unfold zlen in *. rewrite length_insert in *. done.
Qed.

Lemma sn_checksum_range name : 0 ≤ sn_checksum name < 65536.
Proof.
  unfold sn_checksum. assert (∀ l a, 0 ≤ a < 65536 →
    0 ≤ foldl (λ chksum c, wrap 16 (wrap 16 (Z.shiftr chksum 1 + wrap 16 (Z.shiftl chksum 15)) + wrap 16 c)) a l < 65536) as H.
  { induction l as [|c l IH]; intros a Ha; cbn [foldl]; [done|]. apply IH, Z.mod_pos_bound. lia. }
  apply H. lia.
Qed.

Lemma ShortNameGenerator_new_ok c rest : c < 0x80 →
  ∃ g, ShortNameGenerator_new (c :: rest) = Ret g ∧ gen_ok g ∧ g_long_prefix_bitmap g = 0 ∧ g_prefix_chksum_bitmap g = 0 ∧
    g_exact_match g = false.
Proof.
  intros Hc. unfold ShortNameGenerator_new, str_from_1, len_utf8. rewrite (proj2 (Z.ltb_lt c 0x80)) by done. cbn [Z.eqb Pos.eqb]. run.
  change (Z.to_nat SFN_SIZE) with 11%nat. cbn [replicate take drop]. pose proof (sn_checksum_range (c :: rest)) as Hk.
  match goal with |- context [copy_short_name_part ?d 0 false ?src] =>
    destruct (copy_part_ok src d 0 false) as (base & bl & bf & blossy & -> & Hzb & Hbl); [done|] end. run.
  change (zlen [SFN_PADDING; SFN_PADDING; SFN_PADDING; SFN_PADDING; SFN_PADDING; SFN_PADDING; SFN_PADDING; SFN_PADDING]) with 8 in *.
  destruct (split_last 0x2E rest) as [[before after]|].
  - destruct (copy_part_ok after [SFN_PADDING; SFN_PADDING; SFN_PADDING] 0 false) as (ext & el & ef & elossy & -> & Hze & _); [done|].
    run. eexists. split; [done|]. split; [|done]. split; cbn -[zlen]; [rewrite zlen_app, Hzb, Hze; done|lia|done|lia|lia].
  - run. eexists. split; [done|]. split; [|done]. split; cbn -[zlen]; [rewrite zlen_app, Hzb; done|lia|done|lia|lia].
Qed.

(** The buffer with its tilde, digit and extension. *)
Lemma tilde_name src i ext : zlen src ≤ 6 → 0 ≤ i < 10 → zlen ext = 3 →
  (buf ← store (src ++ replicate (11 - length src) SFN_PADDING) (zlen src) 0x7E;
   digit ← unwrap (from_digit i 10);
   buf ← store buf (zlen src + 1) (wrap 8 digit);
   copy_at buf 8 ext) = Ret (src ++ [0x7E; 48 + i] ++ replicate (6 - length src) SFN_PADDING ++ ext).
Proof.
  intros Hs Hi He. pose proof (zlen_nonneg src). assert (length src ≤ 6)%nat by (unfold zlen in *; lia).
  replace (11 - length src)%nat with (S (S ((6 - length src) + 3))) by lia. cbn [replicate]. rewrite replicate_add. cbn [replicate].
  rewrite store_app by done. run. unfold from_digit. rewrite (proj2 (Z.ltb_lt i 10)) by lia. cbn [unwrap]. run.
  rewrite wrap_small by lia.
  replace (src ++ 0x7E :: SFN_PADDING :: replicate (6 - length src) SFN_PADDING ++ [SFN_PADDING; SFN_PADDING; SFN_PADDING])
    with ((src ++ [0x7E]) ++ SFN_PADDING :: replicate (6 - length src) SFN_PADDING ++ [SFN_PADDING; SFN_PADDING; SFN_PADDING])
    by (by rewrite <- app_assoc).
  rewrite store_app by (rewrite zlen_app; done). run.
  rewrite copy_at_ok by (rewrite ?zlen_app, ?zlen_cons, ?zlen_app; unfold zlen in *; rewrite ?length_replicate; cbn; lia).
  f_equal. pose proof (splice_app (src ++ [0x7E; 48 + i] ++ replicate (6 - length src) SFN_PADDING)
    [SFN_PADDING; SFN_PADDING; SFN_PADDING] [] ext 8) as Es. rewrite !app_nil_r, <- !app_assoc in Es. rewrite <- app_assoc. apply Es.
  - rewrite !zlen_app. unfold zlen. rewrite length_replicate. cbn. lia.
  - unfold zlen in He. cbn. lia.
Qed.

Lemma hex_digit_ok d : 0 ≤ d < 16 → ∃ c, unwrap (from_digit d 16) = Ret c ∧
  to_digit16 (to_ascii_uppercase (wrap 8 c)) = Some d ∧ to_ascii_uppercase (wrap 8 c) ≠ 0x2B.
Proof.
  intros Hd. assert (forallb (λ d, match unwrap (from_digit d 16) with
    | Ret c => bool_decide (to_digit16 (to_ascii_uppercase (wrap 8 c)) = Some d) && negb (to_ascii_uppercase (wrap 8 c) =? 0x2B)
    | Panic => false end) (range 0 16) = true) as H by (vm_compute; reflexivity).
  rewrite forallb_forall in H. assert (In d (range 0 16)) as Hin by (apply list_elem_of_In, elem_of_range; lia).
  specialize (H d Hin). destruct (unwrap (from_digit d 16)) as [c|]; [|done]. apply andb_true_iff in H as [H1 H2].
  breflect. apply bool_decide_eq_true in H1. by exists c.
Qed.

Lemma u16_to_hex_ok x : 0 ≤ x < 65536 → ∃ h, u16_to_hex x = Ret h ∧ zlen h = 4 ∧ parse_hex h = Some x.
Proof.
  intros Hx. unfold u16_to_hex. rewrite !Z.shiftr_div_pow2 by lia. change 0xF with (Z.ones 4). rewrite !Z.land_ones by lia.
  set (d3 := (x / 2 ^ 12) mod 2 ^ 4). set (d2 := (x / 2 ^ 8) mod 2 ^ 4). set (d1 := (x / 2 ^ 4) mod 2 ^ 4). set (d0 := x mod 2 ^ 4).
  assert (∀ y, 0 ≤ y mod 2 ^ 4 < 16) as Hm by (intros y; apply Z.mod_pos_bound; lia).
  destruct (hex_digit_ok d3 (Hm _)) as (c3 & -> & E3 & Hp). destruct (hex_digit_ok d2 (Hm _)) as (c2 & -> & E2 & _).
  destruct (hex_digit_ok d1 (Hm _)) as (c1 & -> & E1 & _). destruct (hex_digit_ok d0 (Hm _)) as (c0 & -> & E0 & _). run.
  eexists. split; [done|]. split; [done|]. cbn [fmap list_fmap parse_hex]. rewrite (proj2 (Z.eqb_neq _ 0x2B)) by done. cbn [andb hex_digits].
  rewrite E3, E2, E1, E0. f_equal. unfold d3, d2, d1, d0. Z.div_mod_to_equations. lia.
Qed.

(** The characters in front of the tilde. *)
Definition gen_prefix (g : ShortNameGenerator) (with_chksum : bool) (pre : list Z) : Prop :=
  if with_chksum then ∃ h, pre = take (Z.to_nat (Z.min (g_basename_len g) 2)) (g_short_name g) ++ h ∧ zlen h = 4 ∧
    parse_hex h = Some (g_chksum g)
  else pre = take (Z.to_nat (Z.min (g_basename_len g) 6)) (g_short_name g).

Lemma take_base g m : gen_ok g → 0 ≤ m → zlen (take (Z.to_nat (Z.min (g_basename_len g) m)) (g_short_name g)) = Z.min (g_basename_len g) m.
Proof. intros [] Hm. rewrite zlen_take; lia. Qed.

Lemma copy_prefix src : zlen src ≤ 6 →
  copy_at (replicate 11 SFN_PADDING) 0 src = Ret (src ++ replicate (11 - length src) SFN_PADDING).
Proof.
  intros Hs. rewrite copy_at_ok by (unfold zlen in *; cbn; lia). f_equal. unfold splice. cbn [Z.to_nat take app].
  by rewrite drop_replicate.
Qed.

Lemma build_ok g i w : gen_ok g → 0 ≤ i < 10 → ∃ pre, gen_prefix g w pre ∧ zlen pre ≤ 6 ∧
  zlen pre = (if w then Z.min (g_basename_len g) 2 + 4 else Z.min (g_basename_len g) 6) ∧
  build_prefixed_name g i w = Ret (pre ++ [0x7E; 48 + i] ++ replicate (6 - length pre) SFN_PADDING ++ drop 8 (g_short_name g)).
Proof.
  intros Hg Hi. pose proof Hg as []. unfold build_prefixed_name. change (Z.to_nat SFN_SIZE) with 11%nat.
  assert (slice (g_short_name g) 8 (zlen (g_short_name g)) = Ret (drop 8 (g_short_name g))) as Eext by (apply (slice_tail _ 8); lia).
  assert (zlen (drop 8 (g_short_name g)) = 3) as Hext by (change 8%nat with (Z.to_nat 8); rewrite zlen_drop; lia).
  pose proof (take_base g 2 Hg) as T2. pose proof (take_base g 6 Hg) as T6. destruct w; cbn [gen_prefix].
  - clear T6. destruct (u16_to_hex_ok (g_chksum g)) as (h & Eh & Hh & Hp); [done|]. rewrite slice_head by lia. run.
    rewrite copy_prefix by lia. run. rewrite Eh. run.
    set (a := take _ (g_short_name g)) in *. specialize (T2 ltac:(lia)).
    assert (∃ m, replicate (11 - length a) SFN_PADDING = replicate 4 SFN_PADDING ++ replicate m SFN_PADDING ∧ m = (11 - length (a ++ h))%nat) as (m & -> & ->).
    { eexists. rewrite <- replicate_add. split; [f_equal|done]. rewrite length_app. unfold zlen in *. lia. }
    rewrite copy_at_ok by (rewrite ?zlen_app, ?T2, ?Hh; unfold zlen; rewrite ?length_replicate; lia).
    rewrite splice_app by (done || unfold zlen in *; rewrite ?length_replicate; lia). run.
    exists (a ++ h). rewrite zlen_app, T2, Hh. split_and!; [by exists h|lia|done|].
    rewrite Eext. pose proof (tilde_name (a ++ h) i (drop 8 (g_short_name g))) as T. rewrite zlen_app, T2, Hh in T.
    rewrite app_assoc. unfold mbind, out_mbind in T |- *. rewrite <- T by lia. done.
  - clear T2. specialize (T6 ltac:(lia)). rewrite slice_head by lia. run. set (a := take _ (g_short_name g)) in *. rewrite copy_prefix by lia. run.
    exists a. rewrite T6. split_and!; [done|lia|done|].
    rewrite Eext. pose proof (tilde_name a i (drop 8 (g_short_name g))) as T. rewrite T6 in T.
    unfold mbind, out_mbind in T |- *. rewrite <- T by lia. done.
Qed.

Lemma index_app {A} (a b : list A) x n : zlen a = n → index (a ++ x :: b) n = Ret x.
Proof.
  intros <-. unfold index. rewrite (proj2 (Z.leb_le 0 _)) by apply zlen_nonneg. unfold zlen. rewrite Nat2Z.id.
  by rewrite lookup_app_r, Nat.sub_diag by lia.
Qed.

Lemma index_returns {A} (l : list A) n : 0 ≤ n < zlen l → ∃ x, index l n = Ret x.
Proof.
  intros Hn. unfold index. rewrite (proj2 (Z.leb_le 0 n)) by lia.
  destruct (lookup_lt_is_Some_2 l (Z.to_nat n)) as [x ->]; [unfold zlen in *; lia|]. by exists x.
Qed.

Lemma digit_bit c d : to_digit10 c = Some d → 0 ≤ d < 10.
Proof. unfold to_digit10, between. case_bool; [|done]. intros [= <-]. lia. Qed.

Lemma shift_bit d : 0 ≤ d < 10 → wrap 16 (Z.shiftl 1 d) = 2 ^ d.
Proof.
  intros Hd. rewrite Z.shiftl_1_l. apply wrap_small. pose proof (Z.pow_pos_nonneg 2 d). pose proof (Z.pow_lt_mono_r 2 d 16). lia.
Qed.

(** Bits are only ever added. *)
Definition grows (b b' : Z) : Prop := 0 ≤ b' ∧ ∀ j, Z.testbit b j = true → Z.testbit b' j = true.

Lemma grows_refl b : 0 ≤ b → grows b b.
Proof. by split. Qed.

Lemma grows_lor b c : 0 ≤ b → 0 ≤ c → grows b (Z.lor b c).
Proof. intros Hb Hc. split; [by apply Z.lor_nonneg|]. intros j Hj. by rewrite Z.lor_spec, Hj. Qed.

Lemma g_set_long_id g : g_set_long g (g_long_prefix_bitmap g) = g.
Proof. by destruct g. Qed.

Lemma g_set_prefix_id g : g_set_prefix g (g_prefix_chksum_bitmap g) = g.
Proof. by destruct g. Qed.

Lemma check_long_ok g n : gen_ok g → zlen n = 11 → ∃ b, check_for_long_prefix_collision g n = Ret (g_set_long g b) ∧
  grows (g_long_prefix_bitmap g) b.
Proof.
  intros [] Hn. unfold check_for_long_prefix_collision. set (k := Z.min (g_basename_len g) 6).
  assert (0 ≤ k ≤ 6) by (unfold k; lia). clearbody k.
  assert (∃ b, Ret (A := ShortNameGenerator) g = Ret (g_set_long g b) ∧ grows (g_long_prefix_bitmap g) b) as Hsame
    by (exists (g_long_prefix_bitmap g); rewrite g_set_long_id; split; [done|by apply grows_refl]).
  destruct (index_returns n k) as (c & ->); [lia|]. run. case_bool; [done|]. destruct (index_returns n (k + 1)) as (d & ->); [lia|]. run.
  destruct (to_digit10 d) as [x|] eqn:Ex; [|done]. apply digit_bit in Ex.
  rewrite (slice_head n) by lia. run. rewrite (slice_head (g_short_name g)) by lia. run.
  rewrite (slice_tail n 8) by lia. run. rewrite (slice_tail (g_short_name g) 8) by lia. run. case_bool; [|done].
  eexists. split; [done|]. apply grows_lor; [done|]. rewrite shift_bit by done. apply Z.pow_nonneg. lia.
Qed.

Lemma check_prefix_ok g n : gen_ok g → zlen n = 11 → ∃ b, check_for_short_prefix_collision g n = Ret (g_set_prefix g b) ∧
  grows (g_prefix_chksum_bitmap g) b.
Proof.
  intros [] Hn. unfold check_for_short_prefix_collision. set (k := Z.min (g_basename_len g) 2).
  assert (0 ≤ k ≤ 2) by (unfold k; lia). clearbody k.
  assert (∃ b, Ret (A := ShortNameGenerator) g = Ret (g_set_prefix g b) ∧ grows (g_prefix_chksum_bitmap g) b) as Hsame
    by (exists (g_prefix_chksum_bitmap g); rewrite g_set_prefix_id; split; [done|by apply grows_refl]).
  destruct (index_returns n (k + 4)) as (c & ->); [lia|]. run. case_bool; [done|]. destruct (index_returns n (k + 4 + 1)) as (d & ->); [lia|]. run.
  destruct (to_digit10 d) as [x|] eqn:Ex; [|done]. apply digit_bit in Ex.
  rewrite (slice_head n) by lia. run. rewrite (slice_head (g_short_name g)) by lia. run.
  rewrite (slice_tail n 8) by lia. run. rewrite (slice_tail (g_short_name g) 8) by lia. run. case_bool; [|done].
  rewrite slice_ok by lia. run. case_bool; [|done].
  eexists. split; [done|]. apply grows_lor; [done|]. rewrite shift_bit by done. apply Z.pow_nonneg. lia.
Qed.

(** A name the generator could make sets its bit. *)
Lemma digit_of i : 0 ≤ i < 10 → to_digit10 (48 + i) = Some i.
Proof. intros Hi. unfold to_digit10, between. case_bool; [f_equal; lia|bsolve]. Qed.

Lemma tilde_parts pre i (ext n : list Z) : zlen pre ≤ 6 → zlen ext = 3 →
  n = pre ++ [0x7E; 48 + i] ++ replicate (6 - length pre) SFN_PADDING ++ ext →
  zlen n = 11 ∧ index n (zlen pre) = Ret 0x7E ∧ index n (zlen pre + 1) = Ret (48 + i) ∧
  slice n 8 (zlen n) = Ret ext ∧ ∀ k, 0 ≤ k ≤ zlen pre → slice n 0 k = Ret (take (Z.to_nat k) pre) ∧
    slice n k (zlen pre) = Ret (drop (Z.to_nat k) pre).
Proof.
  intros Hp He Hn. assert (zlen n = 11) as Hl.
  { rewrite Hn, !zlen_app. unfold zlen in *. rewrite length_replicate. cbn. lia. }
  split; [done|]. split; [rewrite Hn; by apply index_app|]. split.
  { rewrite Hn. change (pre ++ [0x7E; 48 + i] ++ replicate (6 - length pre) SFN_PADDING ++ ext)
      with (pre ++ [0x7E] ++ (48 + i) :: replicate (6 - length pre) SFN_PADDING ++ ext).
    rewrite app_assoc. apply index_app. by rewrite zlen_app. }
  split.
  { rewrite (slice_tail n 8) by lia. f_equal. rewrite Hn, !app_assoc. rewrite drop_app_ge;
      rewrite !length_app, length_replicate; cbn; unfold zlen in Hp; [|lia].
    replace (Z.to_nat 8 - (length pre + 2 + (6 - length pre)))%nat with 0%nat by lia. done. }
  intros k Hk. rewrite slice_head, slice_ok by lia. subst n. unfold subslice. split; f_equal.
  - by rewrite take_app_le by (unfold zlen in *; lia).
  - rewrite drop_app_le by (unfold zlen in *; lia). rewrite take_app_le by (rewrite length_drop; unfold zlen in *; lia).
    apply take_ge. rewrite length_drop. unfold zlen in *. lia.
Qed.

Lemma zlen_ext g : gen_ok g → zlen (drop 8 (g_short_name g)) = 3.
Proof. intros []. change 8%nat with (Z.to_nat 8). rewrite zlen_drop; lia. Qed.

Lemma check_long_hit g i n : gen_ok g → 0 ≤ i < 10 → build_prefixed_name g i false = Ret n →
  zlen n = 11 ∧ check_for_long_prefix_collision g n = Ret (g_set_long g (Z.lor (g_long_prefix_bitmap g) (2 ^ i))).
Proof.
  intros Hg Hi. pose proof Hg as []. destruct (build_ok g i false Hg Hi) as (pre & Hpre & Hl & Hz & ->). intros [= Hn].
  destruct (tilde_parts pre i (drop 8 (g_short_name g)) n) as (Hn11 & E1 & E2 & E3 & E4); [done|by apply zlen_ext|done|].
  split; [done|]. unfold check_for_long_prefix_collision. rewrite <- Hz, E1. run. cbn [Z.eqb Pos.eqb negb]. rewrite E2. run.
  rewrite digit_of by done. destruct (E4 (zlen pre)) as [-> _]; [lia|]. run. rewrite slice_head by lia. run. rewrite E3. run.
  rewrite (slice_tail (g_short_name g) 8) by lia. run. cbn [gen_prefix] in Hpre.
  assert (take (Z.to_nat (zlen pre)) (g_short_name g) = pre) as -> by (by rewrite Hz).
  rewrite (take_ge pre) by (unfold zlen in *; lia). rewrite !bool_decide_true by done. by rewrite shift_bit.
Qed.

Lemma check_prefix_hit g i n : gen_ok g → 0 ≤ i < 10 → build_prefixed_name g i true = Ret n →
  zlen n = 11 ∧ check_for_short_prefix_collision g n = Ret (g_set_prefix g (Z.lor (g_prefix_chksum_bitmap g) (2 ^ i))).
Proof.
  intros Hg Hi. pose proof Hg as []. destruct (build_ok g i true Hg Hi) as (pre & (h & Hpre & Hh & Hp) & Hl & Hz & ->). intros [= Hn].
  destruct (tilde_parts pre i (drop 8 (g_short_name g)) n) as (Hn11 & E1 & E2 & E3 & E4); [done|by apply zlen_ext|done|].
  split; [done|]. unfold check_for_short_prefix_collision. rewrite <- Hz, E1. run. cbn [Z.eqb Pos.eqb negb]. rewrite E2. run.
  rewrite digit_of by done. set (k := Z.min (g_basename_len g) 2) in *. destruct (E4 k) as [-> E5]; [lia|]. run.
  rewrite slice_head by lia. run. rewrite E3. run. rewrite (slice_tail (g_short_name g) 8) by lia. run.
  assert (zlen (take (Z.to_nat k) (g_short_name g)) = k) as Hk by (apply zlen_take; lia).
  assert (take (Z.to_nat k) pre = take (Z.to_nat k) (g_short_name g)) as ->.
  { rewrite Hpre, take_app_le by (unfold zlen in *; lia). apply take_ge. unfold zlen in *. lia. }
  rewrite !bool_decide_true by done. cbn [andb]. rewrite E5. run.
  assert (drop (Z.to_nat k) pre = h) as ->.
  { rewrite Hpre, drop_app_ge by (unfold zlen in *; lia). replace (Z.to_nat k - _)%nat with 0%nat by (unfold zlen in *; lia). done. }
  rewrite bool_decide_true by done. by rewrite shift_bit.
Qed.

(** The part of the generator that names are built from. *)
Definition same_names (g g' : ShortNameGenerator) : Prop :=
  g_chksum g' = g_chksum g ∧ g_basename_len g' = g_basename_len g ∧ g_short_name g' = g_short_name g ∧
  g_name_fits g' = g_name_fits g ∧ g_lossy_conv g' = g_lossy_conv g.

Lemma build_same g g' i w : same_names g g' → build_prefixed_name g' i w = build_prefixed_name g i w.
Proof. intros (E1 & E2 & E3 & _). unfold build_prefixed_name. by rewrite E1, E2, E3. Qed.

(** The generator knows the names of [l]. *)
Record Seen (g : ShortNameGenerator) (l : list (list Z)) : Prop := {
  seen_exact : g_short_name g ∈ l → g_exact_match g = true;
  seen_long i n : 0 ≤ i < 10 → build_prefixed_name g i false = Ret n → n ∈ l → Z.testbit (g_long_prefix_bitmap g) i = true;
  seen_prefix i n : 0 ≤ i < 10 → build_prefixed_name g i true = Ret n → n ∈ l → Z.testbit (g_prefix_chksum_bitmap g) i = true;
}.

Lemma testbit_lor_pow b i : 0 ≤ i → Z.testbit (Z.lor b (2 ^ i)) i = true.
Proof. intros Hi. rewrite Z.lor_spec, Z.pow2_bits_true by done. apply orb_true_r. Qed.

Lemma add_existing_ok g n l : gen_ok g → zlen n = 11 → Seen g l →
  ∃ g', add_existing g n = Ret g' ∧ gen_ok g' ∧ same_names g g' ∧ Seen g' (n :: l).
Proof.
  intros Hg Hn [Hx Hl Hp]. unfold add_existing.
  set (g0 := if bool_decide (n = g_short_name g) then g_set_exact g else g).
  assert (gen_ok g0 ∧ same_names g g0 ∧ g_long_prefix_bitmap g0 = g_long_prefix_bitmap g ∧
    g_prefix_chksum_bitmap g0 = g_prefix_chksum_bitmap g ∧ (g_exact_match g = true → g_exact_match g0 = true) ∧
    (n = g_short_name g → g_exact_match g0 = true)) as (Hg0 & Hs0 & El0 & Ep0 & Hx0 & Hx1).
  { unfold g0. case_bool_decide; (split; [by destruct Hg|]); by repeat split. }
  destruct (check_long_ok g0 n Hg0 Hn) as (b & E1 & Hb0 & Hb). rewrite E1. run.
  assert (gen_ok (g_set_long g0 b)) as Hg1 by (destruct Hg0; by split).
  destruct (check_prefix_ok (g_set_long g0 b) n Hg1 Hn) as (c & E2 & Hc0 & Hc). rewrite E2.
  eexists. split; [done|]. assert (same_names g (g_set_prefix (g_set_long g0 b) c)) as Hs by (destruct Hs0 as (? & ? & ? & ? & ?); by repeat split).
  assert (same_names g (g_set_long g0 b)) as Hs1 by (destruct Hs0 as (? & ? & ? & ? & ?); by repeat split).
  split; [destruct Hg1; by split|]. split; [done|]. cbn in Hc. rewrite El0 in Hb. rewrite Ep0 in Hc.
  split; cbn [g_exact_match g_set_prefix g_set_long g_long_prefix_bitmap g_prefix_chksum_bitmap].
  - destruct Hs as (_ & _ & E & _ & _). rewrite E, elem_of_cons. intros [<-|Hin]; auto.
  - intros i m Hi Hm. rewrite (build_same g _ i false Hs) in Hm. rewrite elem_of_cons. intros [->|Hin]; [|by apply Hb, (Hl i m)].
    rewrite <- (build_same g g0 i false Hs0) in Hm. destruct (check_long_hit g0 i n Hg0 Hi Hm) as [_ E]. rewrite E1 in E. injection E as ->.
    apply testbit_lor_pow. lia.
  - intros i m Hi Hm. rewrite (build_same g _ i true Hs) in Hm. rewrite elem_of_cons. intros [->|Hin]; [|by apply Hc, (Hp i m)].
    rewrite <- (build_same g _ i true Hs1) in Hm. destruct (check_prefix_hit _ i n Hg1 Hi Hm) as [_ E]. rewrite E2 in E. injection E as ->.
    apply testbit_lor_pow. lia.
Qed.

Lemma add_all_ok g ns l : gen_ok g → Forall (λ n, zlen n = 11) ns → Seen g l →
  ∃ g', add_all g ns = Ret g' ∧ gen_ok g' ∧ same_names g g' ∧ Seen g' (rev ns ++ l).
Proof.
  intros Hg HF. revert g l Hg. induction HF as [|n ns Hn HF IH]; intros g l Hg HS; cbn [add_all].
  { exists g. split; [done|]. split; [done|]. by split; [repeat split|]. }
  destruct (add_existing_ok g n l Hg Hn HS) as (g1 & -> & Hg1 & Hs1 & HS1). run.
  destruct (IH g1 (n :: l) Hg1 HS1) as (g' & E & Hg' & Hs' & HS'). exists g'. split; [done|]. split; [done|]. split.
  - destruct Hs1 as (? & ? & ? & ? & ?), Hs' as (? & ? & ? & ? & ?). repeat split; congruence.
  - cbn [rev]. by rewrite <- app_assoc.
Qed.

Lemma first_clear_spec bm a b i : 0 ≤ a → b ≤ 10 → first_clear bm a b = Some i → a ≤ i < b ∧ Z.testbit bm i = false.
Proof.
  intros Ha Hb. unfold first_clear. destruct (list_find _ _) as [[k x]|] eqn:E; [|done]. intros [= <-].
  apply list_find_Some in E as (E & Hx & _). apply lookup_seqZ in E as [-> Hk]. split; [lia|]. cbn [snd] in *.
  rewrite shift_bit in Hx by lia. destruct (Z.testbit bm (a + Z.of_nat k)) eqn:Et; [|done].
  apply (f_equal (λ z, Z.testbit z (a + Z.of_nat k))) in Hx. rewrite Z.land_spec, Et, Z.pow2_bits_true, Z.testbit_0_l in Hx by lia. done.
Qed.

Lemma generate_fresh g l n : gen_ok g → Seen g l → generate g = Ret (Ok n) → (n ∉ l) ∧ zlen n = 11.
Proof.
  intros Hg [Hx Hl Hp]. unfold generate. case_bool.
  - intros [= <-]. split; [|apply Hg]. intros Hin. specialize (Hx Hin). breflect. congruence.
  - destruct (first_clear (g_long_prefix_bitmap g) 1 5) as [i|] eqn:E1.
    + apply first_clear_spec in E1 as [Hi Hb]; [|lia..]. destruct (build_prefixed_name g i false) as [m|] eqn:Em; [|done]. run. intros [= <-].
      split; [|eapply (check_long_hit g i); [done|lia|done]]. intros Hin. rewrite (Hl i m) in Hb by (done || lia). done.
    + destruct (first_clear (g_prefix_chksum_bitmap g) 1 10) as [i|] eqn:E2; [|done].
      apply first_clear_spec in E2 as [Hi Hb]; [|lia..]. destruct (build_prefixed_name g i true) as [m|] eqn:Em; [|done]. run. intros [= <-].
      split; [|eapply (check_prefix_hit g i); [done|lia|done]]. intros Hin. rewrite (Hp i m) in Hb by (done || lia). done.
Qed.

(** The loop of [check_for_existence], for a directory with the short names [ns] in which
    the long name is not found. *)
Fixpoint sn_search (fuel : nat) (g : ShortNameGenerator) (ns : list (list Z)) : out (option (list Z)) :=
  match fuel with
  | O => Ret None
  | S fuel =>
      g ← add_all g ns;
      r ← generate g;
      match r with
      | Ok n => Ret (Some n)
      | Err _ => sn_search fuel (next_iteration g) ns
      end
  end.

(** The checksum in a name. *)
Definition name_code (k : Z) (n : list Z) : option Z := parse_hex (subslice n k (k + 4)).

Lemma check_prefix_code g n g' : gen_ok g → zlen n = 11 → check_for_short_prefix_collision g n = Ret g' →
  g' = g ∨ name_code (Z.min (g_basename_len g) 2) n = Some (g_chksum g).
Proof.
  intros [] Hn. unfold check_for_short_prefix_collision, name_code. set (k := Z.min (g_basename_len g) 2).
  assert (0 ≤ k ≤ 2) by (unfold k; lia). clearbody k.
  destruct (index_returns n (k + 4)) as (c & ->); [lia|]. run. case_bool; [intros [= <-]; by left|].
  destruct (index_returns n (k + 4 + 1)) as (d & ->); [lia|]. run.
  destruct (to_digit10 d) as [x|]; [|intros [= <-]; by left].
  rewrite (slice_head n) by lia. run. rewrite (slice_head (g_short_name g)) by lia. run.
  rewrite (slice_tail n 8) by lia. run. rewrite (slice_tail (g_short_name g) 8) by lia. run. case_bool; [|intros [= <-]; by left].
  rewrite slice_ok by lia. run. destruct (decide (parse_hex (subslice n k (k + 4)) = Some (g_chksum g))); [by right|].
  rewrite bool_decide_false by done. intros [= <-]. by left.
Qed.

Lemma add_all_code g ns g' : gen_ok g → Forall (λ n, zlen n = 11) ns → add_all g ns = Ret g' →
  g_prefix_chksum_bitmap g' = g_prefix_chksum_bitmap g ∨
  Some (g_chksum g) ∈ name_code (Z.min (g_basename_len g) 2) <$> ns.
Proof.
  intros Hg HF. revert g Hg. induction HF as [|n ns Hn HF IH]; intros g Hg; cbn [add_all]; [intros [= <-]; by left|].
  unfold add_existing. set (g0 := if bool_decide (n = g_short_name g) then g_set_exact g else g).
  assert (gen_ok g0 ∧ g_chksum g0 = g_chksum g ∧ g_basename_len g0 = g_basename_len g ∧
    g_prefix_chksum_bitmap g0 = g_prefix_chksum_bitmap g) as (Hg0 & Ec & Eb & Ep)
    by (unfold g0; case_bool_decide; (split; [by destruct Hg|]); done).
  destruct (check_long_ok g0 n Hg0 Hn) as (b & -> & Hb0 & _). run.
  assert (gen_ok (g_set_long g0 b)) as Hg1 by (destruct Hg0; by split).
  destruct (check_prefix_ok (g_set_long g0 b) n Hg1 Hn) as (c & E2 & Hc0 & _). rewrite E2. run. intros Ha.
  assert (gen_ok (g_set_prefix (g_set_long g0 b) c)) as Hg2 by (destruct Hg1; by split).
  destruct (IH _ Hg2 Ha) as [E|E]; cbn in E.
  - destruct (check_prefix_code _ n _ Hg1 Hn E2) as [Es|Es]; cbn in Es.
    + left. rewrite E, <- Ep. apply (f_equal g_prefix_chksum_bitmap) in Es. done.
    + right. rewrite fmap_cons, elem_of_cons. left. by rewrite Eb, Ec in Es.
  - right. rewrite fmap_cons, elem_of_cons. right. by rewrite Eb, Ec in E.
Qed.

Lemma generate_total g : gen_ok g → ∃ r, generate g = Ret r ∧
  (∀ e, r = Err e → g_prefix_chksum_bitmap g ≠ 0).
Proof.
  intros Hg. unfold generate. case_bool; [by eexists|].
  destruct (first_clear (g_long_prefix_bitmap g) 1 5) as [i|] eqn:E1.
  - apply first_clear_spec in E1 as [Hi _]; [|lia..]. destruct (build_ok g i false Hg) as (pre & _ & _ & _ & ->); [lia|]. run. by eexists.
  - destruct (first_clear (g_prefix_chksum_bitmap g) 1 10) as [i|] eqn:E2.
    + apply first_clear_spec in E2 as [Hi _]; [|lia..]. destruct (build_ok g i true Hg) as (pre & _ & _ & _ & ->); [lia|]. run. by eexists.
    + eexists. split; [done|]. intros _ _ E0. rewrite E0 in E2. vm_compute in E2. done.
Qed.

Lemma Seen_nil g : Seen g [].
Proof. split; [|intros i n _ _|intros i n _ _]; by intros ?%not_elem_of_nil. Qed.

Lemma sn_search_ok fuel g ns : gen_ok g → g_prefix_chksum_bitmap g = 0 → Forall (λ n, zlen n = 11) ns →
  ∃ o, sn_search fuel g ns = Ret o ∧
    match o with
    | Some n => (n ∉ ns) ∧ zlen n = 11
    | None => ∀ j, 0 ≤ j < Z.of_nat fuel →
        Some ((g_chksum g + j) mod 65536) ∈ name_code (Z.min (g_basename_len g) 2) <$> ns
    end.
Proof.
  intros Hg Hbm HF. revert g Hg Hbm. induction fuel as [|fuel IH]; intros g Hg Hbm; cbn [sn_search].
  { exists None. split; [done|]. lia. }
  destruct (add_all_ok g ns [] Hg HF (Seen_nil g)) as (g1 & E1 & Hg1 & (Ec & Eb & _) & HS). rewrite E1. run.
  destruct (generate_total g1 Hg1) as (r & Er & Hr). rewrite Er. run. destruct r as [n|e].
  - exists (Some n). split; [done|]. destruct (generate_fresh g1 _ n Hg1 HS Er) as [Hn Hz]. split; [|done].
    rewrite app_nil_r in Hn. rewrite list_elem_of_In, <- in_rev, <- list_elem_of_In in Hn. done.
  - specialize (Hr e eq_refl). destruct (add_all_code g ns g1 Hg HF E1) as [E|E]; [congruence|].
    destruct (IH (next_iteration g1)) as (o & -> & Ho); [|done|].
    { destruct Hg1. split; cbn; try done. apply wrap_range. lia. }
    exists o. split; [done|]. destruct o as [n|]; [done|]. cbn in Ho. rewrite Ec, Eb in Ho.
    intros j Hj. destruct (decide (j = 0)) as [->|Hj0].
    + rewrite Z.add_0_r, Z.mod_small by apply Hg. done.
    + specialize (Ho (j - 1) ltac:(lia)). unfold wrap in Ho. rewrite Zplus_mod_idemp_l in Ho. by replace (g_chksum g + 1 + (j - 1)) with (g_chksum g + j) in Ho by lia.
Qed.

(** [C36] The search for a short name ends with one that is not taken: whatever up to 65535
    short names a directory has, after at most as many passes as it has names, and one
    more, the generator makes 11 bytes that are none of them. The name must begin with an
    ASCII character. *)
Theorem short_name_search (c : Z) (rest : list Z) (ns : list (list Z)) (fuel : nat)
    (Hc : c < 0x80) (Hns : Forall (λ n, zlen n = 11) ns) (Hlen : zlen ns < 65536) (Hfuel : (length ns < fuel)%nat) :
  ∃ g n, ShortNameGenerator_new (c :: rest) = Ret g ∧ sn_search fuel g ns = Ret (Some n) ∧ (n ∉ ns) ∧ zlen n = 11.
Proof.
  destruct (ShortNameGenerator_new_ok c rest Hc) as (g & E & Hg & _ & Hbm & _). exists g.
  destruct (sn_search_ok fuel g ns Hg Hbm Hns) as (o & Eo & Ho). destruct o as [n|]; [by exists n|]. exfalso.
  set (codes := name_code (Z.min (g_basename_len g) 2) <$> ns) in *.
  set (cs := (λ j, Some ((g_chksum g + j) mod 65536)) <$> range 0 (zlen ns + 1)).
  assert (NoDup cs) as Hnd.
  { apply NoDup_fmap_2_strong; [|apply NoDup_seqZ]. intros x y Hx%elem_of_range Hy%elem_of_range [= Hxy].
    pose proof (go_chksum g Hg). Z.div_mod_to_equations. lia. }
  assert (cs ⊆ codes) as Hsub.
  { intros o (j & -> & Hj)%list_elem_of_fmap. apply elem_of_range in Hj. apply Ho. unfold zlen in *. lia. }
  pose proof (submseteq_length _ _ (NoDup_submseteq _ _ Hnd Hsub)) as Hl. unfold cs, codes, range in Hl.
  rewrite !length_fmap, length_seqZ in Hl. unfold zlen in *. lia.
Qed.

(** A name that begins with a character of two bytes or more makes the generator panic,
    before the name is checked; so does the empty name. *)
Theorem short_name_non_ascii_panics : ShortNameGenerator_new [0xE9; 0x74; 0xE9] = Panic ∧ ShortNameGenerator_new [] = Panic ∧
  validate_long_name [0xE9; 0x74; 0xE9] = Ok tt ∧ validate_long_name [] = Err InvalidFileNameLength.
Proof. vm_compute. done. Qed.

End ShortNameProofs.

(** ** Examples: the names of the crate's unit tests *)

Section Examples.
Local Existing Instance dev.

Definition str (s : string) : list Z := (λ c, Z.of_N (Ascii.N_of_ascii c)) <$> String.list_ascii_of_string s.

Definition short_of (s : string) : out (result Error (list Z)) :=
  g ← ShortNameGenerator_new (str s); generate g.

Definition short_among (s : string) (l : list string) : out (result Error (list Z)) :=
  g ← ShortNameGenerator_new (str s); g ← add_all g (str <$> l); generate g.

Example test_generate_short_name :
  short_of "Foo" = Ret (Ok (str "FOO        ")) ∧ short_of "Foo.b" = Ret (Ok (str "FOO     B  ")) ∧
  short_of "Foo+1.baR" = Ret (Ok (str "FOO_1~1 BAR")) ∧ short_of "ver +1.2.text" = Ret (Ok (str "VER_12~1TEX")) ∧
  short_of ".bashrc.swp" = Ret (Ok (str "BASHRC~1SWP")) ∧ short_of ".foo" = Ret (Ok (str "FOO~1      ")).
Proof. vm_compute. done. Qed.

Example test_generate_short_name_collisions :
  short_among "TextFile.Mine.txt" ["TEXTFI~1TXT"; "TEXTFI~3TXT"] = Ret (Ok (str "TEXTFI~2TXT")) ∧
  short_among "TextFile.Mine.txt" ["TEXTFI~1TXT"; "TEXTFI~2TXT"; "TEXTFI~3TXT"; "TEXTFI~4TXT"; "TE527D~1TXT"] =
    Ret (Ok (str "TE527D~2TXT")) ∧
  short_among "x.txt" ["X       TXT"; "X~1     TXT"; "X~2     TXT"; "X~3     TXT"; "X~4     TXT"] = Ret (Ok (str "X40DA~1 TXT")).
Proof. vm_compute. done. Qed.

Example test_split_path :
  split_path (str "aaa/bbb/ccc") = (str "aaa", Some (str "bbb/ccc")) ∧ split_path (str "/aaa/bbb/") = (str "aaa", Some (str "bbb")) ∧
  split_path (str "aaa") = (str "aaa", None).
Proof. vm_compute. done. Qed.

Lemma lfn_roundtrip_witness :
  ∃ l b, lfn_entries (str "a name of some length") (lfn_checksum (str "ANAMEO~1   ")) = Ret l ∧ zlen l = 2 ∧
    lb_process_all LongNameBuilder_new l = Ret b ∧
    into_buf (lb_validate_chksum b (str "ANAMEO~1   ")) = str "a name of some length" ∧
    (lfn_checksum (str "ANAMEO~2   ") ≠ lfn_checksum (str "ANAMEO~1   ") → into_buf (lb_validate_chksum b (str "ANAMEO~2   ")) = []).
Proof.
  apply (lfn_roundtrip (str "a name of some length") (str "ANAMEO~1   ") (str "ANAMEO~2   "));
    [done|vm_compute; congruence|]. intros c [= <-]. by split.
Defined.

Lemma lfn_builder_safe_witness :
  ∃ b, lb_process_all LongNameBuilder_new [mkLfn 0x45 (zeros 5) LFN 0 7 (zeros 6) 0 (zeros 2); mkLfn 0x03 (zeros 5) LFN 0 7 (zeros 6) 0 (zeros 2)] = Ret b ∧
    zlen (into_buf b) ≤ 260.
Proof.
  apply (lfn_builder_safe [mkLfn 0x45 (zeros 5) LFN 0 7 (zeros 6) 0 (zeros 2); mkLfn 0x03 (zeros 5) LFN 0 7 (zeros 6) 0 (zeros 2)]).
  repeat constructor; vm_compute; congruence.
Defined.

Lemma short_name_search_witness :
  ∃ g n, ShortNameGenerator_new (str "x.txt") = Ret g ∧ sn_search 3 g [str "X       TXT"; str "X~1     TXT"] = Ret (Some n) ∧
    (n ∉ [str "X       TXT"; str "X~1     TXT"]) ∧ zlen n = 11.
Proof.
  apply (short_name_search 0x78 (str ".txt") [str "X       TXT"; str "X~1     TXT"] 3);
    [lia|repeat constructor|vm_compute; done|cbn; lia].
Defined.

End Examples.
