(* ===== verification/FatFs.v ===== *)
(** * FAT crate: the mounted volume

    [FileSystem] of [kernel/crates/good-fatfs/src/fs.rs] with its information sector, the
    adapter through which the tables are written, mounting, unmounting and formatting.
    The fields behind [RwLock], [RefCell] and [Cell] are fields of one record, which every
    operation returns. *)

From Stdlib Require Import FMapPositive.
From S2P Require Import Prelude Crates BlockCache FatIo FatTable FatTime FatEntry FatBoot.

(** ** The information sector *)

Record FsInfoSector := mkInfo {
  free_cluster_count : option Z;
  next_free_cluster : option Z;
  fi_dirty : bool;
}.

Definition FsInfoSector_default : FsInfoSector := mkInfo None None false.

Definition LEAD_SIG : Z := 0x41615252.
Definition STRUC_SIG : Z := 0x61417272.
Definition TRAIL_SIG : Z := 0xAA550000.

Section Info.
Context {P : Profile}.
Implicit Types self : FsInfoSector.

Definition validate_and_fix self (total_clusters : Z) : out FsInfoSector :=
  max_valid_cluster_number ← add_u 32 total_clusters RESERVED_FAT_ENTRIES;
  let count := match free_cluster_count self with
    | Some n => if total_clusters <? n then None else Some n
    | None => None
    end in
  let next := match next_free_cluster self with
    | Some n => if max_valid_cluster_number <? n then None else Some n
    | None => None
    end in
  Ret (mkInfo count next (fi_dirty self)).

Definition map_free_clusters self (map_fn : Z → out Z) : out FsInfoSector :=
  match free_cluster_count self with
  | Some n => n ← map_fn n; Ret (mkInfo (Some n) (next_free_cluster self) true)
  | None => Ret self
  end.

Definition set_next_free_cluster self (cluster : Z) : FsInfoSector :=
  mkInfo (free_cluster_count self) (Some cluster) true.

Definition set_free_cluster_count self (count : Z) : FsInfoSector :=
  mkInfo (Some count) (next_free_cluster self) true.

Context {S : Type} {ST : Storage S}.

Definition FsInfoSector_deserialize (rdr : S) : out (result Error FsInfoSector * S) :=
  let? (lead_sig, rdr) := read_u32_le rdr in
  if negb (lead_sig =? LEAD_SIG) then Ret (Err CorruptedFileSystem, rdr)
  else
  let? (_, rdr) := read_exact rdr (zeros 480) in
  let? (struc_sig, rdr) := read_u32_le rdr in
  if negb (struc_sig =? STRUC_SIG) then Ret (Err CorruptedFileSystem, rdr)
  else
  let? (n, rdr) := read_u32_le rdr in
  let free_cluster_count := if n =? 0xFFFFFFFF then None else Some n in
  let? (n, rdr) := read_u32_le rdr in
  let next_free_cluster := if (n =? 0xFFFFFFFF) || (n =? 0) || (n =? 1) then None else Some n in
  let? (_, rdr) := read_exact rdr (zeros 12) in
  let? (trail_sig, rdr) := read_u32_le rdr in
  if negb (trail_sig =? TRAIL_SIG) then Ret (Err CorruptedFileSystem, rdr)
  else Ret (Ok (mkInfo free_cluster_count next_free_cluster false), rdr).

Definition FsInfoSector_serialize self (wrt : S) : out (result Error unit * S) :=
  let? (_, wrt) := write_u32_le wrt LEAD_SIG in
  let? (_, wrt) := write_all wrt (zeros 480) in
  let? (_, wrt) := write_u32_le wrt STRUC_SIG in
  let? (_, wrt) := write_u32_le wrt (default 0xFFFFFFFF (free_cluster_count self)) in
  let? (_, wrt) := write_u32_le wrt (default 0xFFFFFFFF (next_free_cluster self)) in
  let? (_, wrt) := write_all wrt (zeros 12) in
  write_u32_le wrt TRAIL_SIG.

End Info.

(** ** The volume

    [update_accessed_date] is what is left of [FsOptions]: the converter and the time
    provider have no state. *)

Record FileSystem (S : Type) := mkFs {
  fs_disk : S;
  fs_update_accessed_date : bool;
  fs_fat_type : FatType;
  fs_bpb : BiosParameterBlock;
  fs_first_data_sector : Z;
  fs_root_dir_sectors : Z;
  fs_total_clusters : Z;
  fs_info : FsInfoSector;
  fs_status : FsStatusFlags;
}.
Arguments mkFs {S} _ _ _ _ _ _ _ _ _.
Arguments fs_disk {S} _.
Arguments fs_update_accessed_date {S} _.
Arguments fs_fat_type {S} _.
Arguments fs_bpb {S} _.
Arguments fs_first_data_sector {S} _.
Arguments fs_root_dir_sectors {S} _.
Arguments fs_total_clusters {S} _.
Arguments fs_info {S} _.
Arguments fs_status {S} _.

(** [fat_slice]: the tables of a volume, all of them when they mirror each other. *)
Definition fat_slice {P : Profile} {S : Type} (io : S) (bpb : BiosParameterBlock) : out (DiskSlice S) :=
  let sectors_per_fat := sectors_per_fat bpb in
  '(fat_first_sector, mirrors) ←
    (if mirroring_enabled bpb then Ret (b_reserved_sectors bpb, b_fats bpb)
     else x ← mul_u 32 (active_fat bpb) sectors_per_fat;
          first ← add_u 32 (b_reserved_sectors bpb) x;
          Ret (first, 1));
  begin ← bytes_from_sectors bpb fat_first_sector;
  size ← bytes_from_sectors bpb sectors_per_fat;
  Ret (DiskSlice_new begin size mirrors io).

Section Volume.
Context {P : Profile} {S : Type} {ST : Storage S}.
Implicit Types self fs : FileSystem S.

Definition fs_set_disk self (disk : S) : FileSystem S :=
  mkFs disk (fs_update_accessed_date self) (fs_fat_type self) (fs_bpb self) (fs_first_data_sector self)
    (fs_root_dir_sectors self) (fs_total_clusters self) (fs_info self) (fs_status self).
Definition fs_set_info self (info : FsInfoSector) : FileSystem S :=
  mkFs (fs_disk self) (fs_update_accessed_date self) (fs_fat_type self) (fs_bpb self) (fs_first_data_sector self)
    (fs_root_dir_sectors self) (fs_total_clusters self) info (fs_status self).
Definition fs_set_status self (flags : FsStatusFlags) : FileSystem S :=
  mkFs (fs_disk self) (fs_update_accessed_date self) (fs_fat_type self) (fs_bpb self) (fs_first_data_sector self)
    (fs_root_dir_sectors self) (fs_total_clusters self) (fs_info self) flags.

(** An operation of [self.disk.write()]. *)
Definition on_disk {A} self (m : out (result Error A * S)) : out (result Error A * FileSystem S) :=
  '(r, disk) ← m; Ret (r, fs_set_disk self disk).

(** [debug_assert!(disk.seek(SeekFrom::Current(0))? == 0)] *)
Definition assert_at_start (disk : S) : out (result Error unit * S) :=
  if overflow_checks then
    let? (pos, disk) := st_seek disk (SeekCurrent 0) in
    _ ← assert (pos =? 0);
    Ret (Ok tt, disk)
  else Ret (Ok tt, disk).

Definition FileSystem_new (disk : S) (update_accessed_date : bool) : out (result Error (FileSystem S)) :=
  '(r, _) ← (
    let? (_, disk) := assert_at_start disk in
    let? (boot, disk) := BootSector_deserialize disk in
    v ← BootSector_validate boot;
    match v with
    | Err e => Ret (Err e, disk)
    | Ok _ =>
        let bpb := boot_bpb boot in
        root_dir_sectors ← root_dir_sectors bpb;
        first_data_sector ← first_data_sector bpb;
        total_clusters ← total_clusters bpb;
        let fat_type := from_clusters total_clusters in
        let? (info, disk) :=
          (if decide (fat_type = Fat32) then
            at_ ← bytes_from_sectors bpb (b_fs_info_sector bpb);
            let? (_, disk) := st_seek disk (SeekStart at_) in
            FsInfoSector_deserialize disk
          else Ret (Ok FsInfoSector_default, disk)) in
        let info := if dirty (status_flags bpb) then mkInfo None (next_free_cluster info) (fi_dirty info) else info in
        info ← validate_and_fix info total_clusters;
        Ret (Ok (mkFs disk update_accessed_date fat_type bpb first_data_sector root_dir_sectors total_clusters
          info (status_flags bpb)), disk)
    end);
  Ret r.

Definition volume_label_as_bytes self : out (list Z) :=
  let full_label_slice := b_volume_label (fs_bpb self) in
  slice full_label_slice 0 (len_of (rposition (λ b, negb (b =? SFN_PADDING)) full_label_slice)).

Definition offset_from_sector self (sector : Z) : out Z := bytes_from_sectors (fs_bpb self) sector.

Definition sector_from_cluster self (cluster : Z) : out Z :=
  k ← sub_u 32 cluster RESERVED_FAT_ENTRIES;
  x ← sectors_from_clusters (fs_bpb self) k;
  add_u 32 (fs_first_data_sector self) x.

Definition fs_cluster_size self : out Z := cluster_size (fs_bpb self).

Definition offset_from_cluster self (cluster : Z) : out Z :=
  sector ← sector_from_cluster self cluster;
  offset_from_sector self sector.

Definition bytes_from_clusters self (clusters : Z) : out Z :=
  x ← sectors_from_clusters (fs_bpb self) clusters;
  bytes_from_sectors (fs_bpb self) x.

Definition fs_clusters_from_bytes self (bytes : Z) : out Z := clusters_from_bytes (fs_bpb self) bytes.

(** [set_dirty_flag]: one byte of the boot sector. *)
Definition status_offset self : Z := if decide (fs_fat_type self = Fat32) then 0x041 else 0x025.

Definition set_dirty_flag self (dirty_ : bool) : out (result Error unit * FileSystem S) :=
  let flags := status_flags (fs_bpb self) in
  let flags := mkFlags (dirty flags || dirty_) (io_error flags) in
  if decide (flags = fs_status self) then Ret (Ok tt, self)
  else
    let encoded := flags_encode flags in
    let? (_, self) := on_disk self (st_seek (fs_disk self) (SeekStart (status_offset self))) in
    let? (_, self) := on_disk self (write_u8 (fs_disk self) encoded) in
    Ret (Ok tt, fs_set_status self flags).

(** ** [FsIoAdapter]

    It holds a reference to the volume, so its state is the volume. *)

Definition Adapter_write self (buf : list Z) : out (result Error Z * FileSystem S) :=
  let? (size, self) := on_disk self (st_write (fs_disk self) buf) in
  if 0 <? size then
    let? (_, self) := set_dirty_flag self true in
    Ret (Ok size, self)
  else Ret (Ok size, self).

#[export] Instance adapter_storage : Storage (FileSystem S) := {|
  st_read self buf := on_disk self (st_read (fs_disk self) buf);
  st_write := Adapter_write;
  st_seek self pos := on_disk self (st_seek (fs_disk self) pos);
  st_flush self := on_disk self (st_flush (fs_disk self));
  unexpected_eof := unexpected_eof (S := S);
  write_zero := write_zero (S := S);
|}.

(** ** Clusters *)

Definition fs_fat_slice self : out (DiskSlice (FileSystem S)) := fat_slice self (fs_bpb self).

Definition cluster_iter self (cluster : Z) : out (ClusterIterator (DiskSlice (FileSystem S))) :=
  disk_slice ← fs_fat_slice self;
  Ret (ClusterIterator_new disk_slice (fs_fat_type self) cluster).

(** Enough passes for a table with an entry for every cluster. *)
Definition chain_fuel self : nat := Z.to_nat (fs_total_clusters self + 2).

Definition truncate_cluster_chain self (cluster : Z) : out (result Error unit * FileSystem S) :=
  iter ← cluster_iter self cluster;
  '(r, iter) ← ci_truncate (chain_fuel self) iter;
  let self := sl_inner (ci_fat iter) in
  match r with
  | Err e => Ret (Err e, self)
  | Ok num_free =>
      info ← map_free_clusters (fs_info self) (λ n, add_u 32 n num_free);
      Ret (Ok tt, fs_set_info self info)
  end.

Definition free_cluster_chain self (cluster : Z) : out (result Error unit * FileSystem S) :=
  iter ← cluster_iter self cluster;
  '(r, iter) ← ci_free (chain_fuel self) iter 0;
  let self := sl_inner (ci_fat iter) in
  match r with
  | Err e => Ret (Err e, self)
  | Ok num_free =>
      info ← map_free_clusters (fs_info self) (λ n, add_u 32 n num_free);
      Ret (Ok tt, fs_set_info self info)
  end.

(** An operation on the table, through its slice. *)
Definition on_fat {A} self (m : DiskSlice (FileSystem S) → out (result Error A * DiskSlice (FileSystem S))) :
    out (result Error A * FileSystem S) :=
  fat ← fs_fat_slice self;
  '(r, fat) ← m fat;
  Ret (r, sl_inner fat).

Definition fs_alloc_cluster self (prev_cluster : option Z) (zero : bool) : out (result Error Z * FileSystem S) :=
  let hint := next_free_cluster (fs_info self) in
  let? (cluster, self) := on_fat self (λ fat, alloc_cluster fat (fs_fat_type self) prev_cluster hint (fs_total_clusters self)) in
  let? (_, self) :=
    (if zero then
      at_ ← offset_from_cluster self cluster;
      let? (_, self) := on_disk self (st_seek (fs_disk self) (SeekStart at_)) in
      size ← fs_cluster_size self;
      on_disk self (write_zeros (fs_disk self) size)
    else Ret (Ok tt, self)) in
  next ← add_u 32 cluster 1;
  info ← map_free_clusters (set_next_free_cluster (fs_info self) next) (λ n, sub_u 32 n 1);
  Ret (Ok cluster, fs_set_info self info).

Definition read_status_flags self : out (result Error FsStatusFlags * FileSystem S) :=
  let bpb_status := status_flags (fs_bpb self) in
  let? (fat_status, self) := on_fat self (λ fat, read_fat_flags fat (fs_fat_type self)) in
  Ret (Ok (mkFlags (dirty bpb_status || dirty fat_status) (io_error bpb_status || io_error fat_status)), self).

Definition recalc_free_clusters self : out (result Error Z * FileSystem S) :=
  let? (count, self) := on_fat self (λ fat, count_free_clusters fat (fs_fat_type self) (fs_total_clusters self)) in
  Ret (Ok count, fs_set_info self (set_free_cluster_count (fs_info self) count)).

Record FileSystemStats := mkStats { stats_cluster_size : Z; stats_total_clusters : Z; stats_free_clusters : Z }.

Definition stats self : out (result Error FileSystemStats * FileSystem S) :=
  let? (free_clusters, self) :=
    match free_cluster_count (fs_info self) with
    | Some n => Ret (Ok n, self)
    | None => recalc_free_clusters self
    end in
  cluster_size ← fs_cluster_size self;
  Ret (Ok (mkStats cluster_size (fs_total_clusters self) free_clusters), self).

(** ** Unmounting *)

Definition flush_fs_info self : out (result Error unit * FileSystem S) :=
  if bool_decide (fs_fat_type self = Fat32) && fi_dirty (fs_info self) then
    at_ ← offset_from_sector self (b_fs_info_sector (fs_bpb self));
    let? (_, self) := on_disk self (st_seek (fs_disk self) (SeekStart at_)) in
    let? (_, self) := on_disk self (FsInfoSector_serialize (fs_info self) (fs_disk self)) in
    Ret (Ok tt, fs_set_info self (mkInfo (free_cluster_count (fs_info self)) (next_free_cluster (fs_info self)) false))
  else Ret (Ok tt, self).

Definition unmount_internal self : out (result Error unit * FileSystem S) :=
  let? (_, self) := flush_fs_info self in
  set_dirty_flag self false.

(** [unmount] consumes the volume; dropping it then unmounts once more and ignores the
    result. *)
Definition unmount self : out (result Error unit * FileSystem S) :=
  '(r, self) ← unmount_internal self;
  '(_, self) ← unmount_internal self;
  Ret (r, self).

End Volume.

(** ** Formatting *)

Section Format.
Context {P : Profile} {BF : Bitflags} {S : Type} {ST : Storage S}.

(** An operation on the tables of a volume that is not mounted. *)
Definition on_tables {A} (storage : S) (bpb : BiosParameterBlock)
    (m : DiskSlice S → out (result Error A * DiskSlice S)) : out (result Error A * S) :=
  fat ← fat_slice storage bpb;
  '(r, fat) ← m fat;
  Ret (r, sl_inner fat).

(** The number of sectors to format. *)
Definition format_total_sectors (options : FormatVolumeOptions) (bytes_per_sector : Z) (storage : S) :
    out (result Error Z * S) :=
  match o_total_sectors options with
  | Some total_sectors => Ret (Ok total_sectors, storage)
  | None =>
      let? (total_bytes, storage) := st_seek storage (SeekEnd 0) in
      total_sectors_64 ← div_u total_bytes bytes_per_sector;
      let? (_, storage) := st_seek storage (SeekStart 0) in
      if 2 ^ 32 - 1 <? total_sectors_64 then Ret (Err InvalidInput, storage)
      else Ret (Ok (wrap 32 total_sectors_64), storage)
  end.

(** The information sector and the copy of the boot sector, on FAT32. *)
Definition format_fat32_sectors (boot : BootSector) (storage : S) : out (result Error unit * S) :=
  let bpb := boot_bpb boot in
  let bytes_per_sector := b_bytes_per_sector bpb in
  if is_fat32 bpb then
    at_ ← bytes_from_sectors bpb (b_fs_info_sector bpb);
    let? (_, storage) := st_seek storage (SeekStart at_) in
    let? (_, storage) := FsInfoSector_serialize (mkInfo None None false) storage in
    let? (_, storage) := write_zeros_until_end_of_sector storage bytes_per_sector in
    at_ ← bytes_from_sectors bpb (b_backup_boot_sector bpb);
    let? (_, storage) := st_seek storage (SeekStart at_) in
    let? (_, storage) := BootSector_serialize boot storage in
    write_zeros_until_end_of_sector storage bytes_per_sector
  else Ret (Ok tt, storage).

(** The tables. *)
Definition format_tables (boot : BootSector) (fat_type : FatType) (storage : S) : out (result Error unit * S) :=
  let bpb := boot_bpb boot in
  fat_pos ← bytes_from_sectors bpb (b_reserved_sectors bpb);
  sectors_per_all_fats ← sectors_per_all_fats bpb;
  let? (_, storage) := st_seek storage (SeekStart fat_pos) in
  n ← bytes_from_sectors bpb sectors_per_all_fats;
  let? (_, storage) := write_zeros storage n in
  bytes_per_fat ← bytes_from_sectors bpb (sectors_per_fat bpb);
  total ← total_clusters bpb;
  on_tables storage bpb (λ fat, format_fat fat fat_type (b_media bpb) bytes_per_fat total).

(** The root directory: a region of its own, or the first cluster. *)
Definition format_root (boot : BootSector) (fat_type : FatType) (storage : S) : out (result Error Z * S) :=
  let bpb := boot_bpb boot in
  sectors_per_all_fats ← sectors_per_all_fats bpb;
  root_dir_first_sector ← add_u 32 (b_reserved_sectors bpb) sectors_per_all_fats;
  root_dir_sectors ← root_dir_sectors bpb;
  root_dir_pos ← bytes_from_sectors bpb root_dir_first_sector;
  let? (_, storage) := st_seek storage (SeekStart root_dir_pos) in
  n ← bytes_from_sectors bpb root_dir_sectors;
  let? (_, storage) := write_zeros storage n in
  if decide (fat_type = Fat32) then
    let? (root_dir_first_cluster, storage) := on_tables storage bpb (λ fat, alloc_cluster fat fat_type None None 1) in
    _ ← assert (root_dir_first_cluster =? b_root_dir_first_cluster bpb);
    x ← add_u 32 (b_reserved_sectors bpb) sectors_per_all_fats;
    first_data_sector ← add_u 32 x root_dir_sectors;
    k ← sub_u 32 root_dir_first_cluster RESERVED_FAT_ENTRIES;
    data_sectors_before_root_dir ← sectors_from_clusters bpb k;
    fat32_root_dir_first_sector ← add_u 32 first_data_sector data_sectors_before_root_dir;
    fat32_root_dir_pos ← bytes_from_sectors bpb fat32_root_dir_first_sector;
    let? (_, storage) := st_seek storage (SeekStart fat32_root_dir_pos) in
    size ← cluster_size bpb;
    let? (_, storage) := write_zeros storage size in
    Ret (Ok root_dir_pos, storage)
  else Ret (Ok root_dir_pos, storage).

Definition format_volume (storage : S) (options : FormatVolumeOptions) : out (result Error unit * S) :=
  let? (_, storage) := assert_at_start storage in
  let bytes_per_sector := default 512 (o_bytes_per_sector options) in
  let? (total_sectors, storage) := format_total_sectors options bytes_per_sector storage in
  b ← format_boot_sector options total_sectors bytes_per_sector;
  match b with
  | Err e => Ret (Err e, storage)
  | Ok (boot, fat_type) =>
      v ← BootSector_validate boot;
      match v with
      | Err _ => Ret (Err InvalidInput, storage)
      | Ok _ =>
          let? (_, storage) := BootSector_serialize boot storage in
          let? (_, storage) := write_zeros_until_end_of_sector storage (b_bytes_per_sector (boot_bpb boot)) in
          let? (_, storage) := format_fat32_sectors boot storage in
          let? (_, storage) := format_tables boot fat_type storage in
          let? (root_dir_pos, storage) := format_root boot fat_type storage in
          let? (_, storage) :=
            match o_volume_label options with
            | Some volume_label =>
                let? (_, storage) := st_seek storage (SeekStart root_dir_pos) in
                file_serialize (DirFileEntryData_new volume_label VOLUME_ID) storage
            | None => Ret (Ok tt, storage)
            end in
          let? (_, storage) := st_seek storage (SeekStart 0) in
          Ret (Ok tt, storage)
      end
  end.

End Format.

(** ** The adapter keeps the laws

    Reading and writing at a position through the adapter is reading and writing the disk,
    except that a write may mark the volume dirty, in a byte of the boot sector that is
    outside every table. *)

Lemma flags_decode_encode f : flags_decode (flags_encode f) = f.
Proof. by destruct f as [[] []]. Qed.

#[global] Arguments status_offset : simpl never.

Section AdapterProofs.
Context {P : Profile} {S : Type} {ST : Storage S} {V : View S} {FS : FlatStorage S} {WW : WholeWrites S}.
Implicit Types fs : FileSystem S.

(** The flags of a volume that has been changed. *)
Definition marked fs : FsStatusFlags := mkFlags true (io_error (status_flags (fs_bpb fs))).

(** The status byte on the disk shows the flags in memory. *)
Definition synced fs : Prop := flags_decode (v_byte (fs_disk fs) (status_offset fs)) = fs_status fs.

(** What never changes while a volume is mounted, and the information sector. *)
Definition same_volume fs fs' : Prop :=
  fs' = fs_set_status (fs_set_disk fs (fs_disk fs')) (fs_status fs').

#[export] Instance adapter_view : View (FileSystem S) := {|
  v_ok fs := v_ok (fs_disk fs) ∧ whole (fs_disk fs) ∧ 0x41 < v_size (fs_disk fs);
  v_size fs := v_size (fs_disk fs);
  v_byte fs := v_byte (fs_disk fs);
  v_pos fs := v_pos (fs_disk fs);
  v_frame fs fs' :=
    same_volume fs fs' ∧ v_frame (fs_disk fs) (fs_disk fs') ∧ v_size (fs_disk fs') = v_size (fs_disk fs) ∧
    (synced fs → synced fs') ∧
    (fs_status fs' = marked fs ∨
     fs_status fs' = fs_status fs ∧ agree (v_size (fs_disk fs)) (v_byte (fs_disk fs')) (v_byte (fs_disk fs)));
|}.

Lemma same_volume_fields fs fs' : same_volume fs fs' →
  fs_bpb fs' = fs_bpb fs ∧ fs_fat_type fs' = fs_fat_type fs ∧ fs_info fs' = fs_info fs ∧
  fs_total_clusters fs' = fs_total_clusters fs ∧ fs_first_data_sector fs' = fs_first_data_sector fs ∧
  status_offset fs' = status_offset fs.
Proof. unfold same_volume. intros ->. done. Qed.

Lemma status_offset_range fs : 0 ≤ status_offset fs ≤ 0x41.
Proof. unfold status_offset. destruct (decide _); lia. Qed.

(** Only the disk has moved or been read. *)
Lemma adapter_same fs d p : v_ok fs → Upd (fs_disk fs) d (v_byte (fs_disk fs)) p →
  Held (λ _, True) fs (fs_set_disk fs d) (v_byte fs) ∧ v_ok d.
Proof.
  intros (Hok & Hw & Hz) [Hok' Hs' Hp' Hb' Hf']. pose proof (status_offset_range fs).
  assert (whole d) by (by eapply whole_frame). split; [|done].
  split; cbn; [by rewrite Hs'|done| |intros i Hi _; by apply Hb'].
  split_and!; [done|done|done| |by right]. unfold synced. cbn.
  change (status_offset (fs_set_disk fs d)) with (status_offset fs). by rewrite Hb' by lia.
Qed.

(** Marking the volume changes the status byte alone. *)
Lemma set_dirty_flag_ok fs : v_ok fs → ∃ fs', set_dirty_flag fs true = Ret (Ok tt, fs') ∧ v_ok fs' ∧
  same_volume fs fs' ∧ v_size (fs_disk fs') = v_size (fs_disk fs) ∧ v_frame (fs_disk fs) (fs_disk fs') ∧
  fs_status fs' = marked fs ∧ (synced fs → synced fs') ∧
  ∀ i, 0 ≤ i < v_size (fs_disk fs) → i ≠ status_offset fs → v_byte (fs_disk fs') i = v_byte (fs_disk fs) i.
Proof.
  intros Hv. pose proof Hv as (Hok & Hw & Hz). unfold set_dirty_flag. rewrite orb_true_r. fold (marked fs). pose proof (status_offset_range fs).
  destruct (decide (marked fs = fs_status fs)) as [E|E].
  { exists fs. split; [done|]. split; [done|]. split; [by destruct fs|]. by split_and!. }
  destruct (v_seek (fs_disk fs) (status_offset fs)) as (d1 & E1 & U1); [done|lia|]. rewrite E1. unfold on_disk at 1. run.
  destruct (U1) as [Hok1 Hs1 Hp1 Hb1 Hf1]. unfold write_u8. cbn [fs_set_disk fs_disk].
  assert (is_byte (flags_encode (marked fs))) by (unfold is_byte; destruct (marked fs) as [[] []]; vm_compute; split; congruence).
  destruct (write_all_bytes d1 [flags_encode (marked fs)]) as (d2 & E2 & [Hok2 Hs2 Hp2 Hb2 Hf2]);
    [done|by apply Forall_singleton|change (zlen [_]) with 1; lia|].
  unfold on_disk. rewrite E2. run. eexists. split; [done|]. cbn. assert (whole d2) by (by eapply whole_frame, whole_frame).
  assert (∀ i, 0 ≤ i < v_size (fs_disk fs) → v_byte d2 i = spec_write (v_byte (fs_disk fs)) (status_offset fs) [flags_encode (marked fs)] i) as Hb.
  { intros i Hi. rewrite Hb2 by lia. rewrite Hp1. unfold spec_write. case_bool; [done|]. apply Hb1. lia. }
  split_and!; [done|done|lia|done|lia|by etrans|done| |].
  - intros _. unfold synced. cbn. change (status_offset (fs_set_status (fs_set_disk (fs_set_disk fs d1) d2) (marked fs))) with (status_offset fs).
    rewrite Hb by lia. unfold spec_write. rewrite Z.leb_refl, Z.sub_diag. change (zlen [flags_encode (marked fs)]) with 1.
    rewrite (proj2 (Z.ltb_lt _ _)) by lia. cbn. apply flags_decode_encode.
  - intros i Hi Hne. rewrite Hb by lia. unfold spec_write. change (zlen [flags_encode (marked fs)]) with 1. case_bool; [lia|done].
Qed.

#[export] Program Instance adapter_random : RandomAccess (FileSystem S) := { solid fs i := i ≠ status_offset fs }.
Next Obligation.
  split.
  - intros fs. cbn. split_and!; [by destruct fs|done|done|done|by right].
  - intros f1 f2 f3 (A1 & B1 & C1 & D1 & E1) (A2 & B2 & C2 & D2 & E2). cbn.
    destruct (same_volume_fields _ _ A1) as (Eb & _). split_and!; [|by etrans|congruence|auto|].
    + unfold same_volume in *. rewrite A2, A1. done.
    + unfold marked in *. rewrite Eb in E2. destruct E2 as [->|[-> E2]]; [by left|]. destruct E1 as [->|[-> E1]]; [by left|].
      right. split; [done|]. rewrite C1 in E2. by etrans.
Qed.
Next Obligation. intros fs (Hok & _ & Hz). cbn. pose proof (v_small _ Hok). lia. Qed.
Next Obligation. intros fs i (Hok & _). cbn. by apply (v_bytes (fs_disk fs)). Qed.
Next Obligation. intros fs fs' i (A & _). cbn. by destruct (same_volume_fields _ _ A) as (_ & _ & _ & _ & _ & ->). Qed.
Next Obligation.
  intros fs q buf Hv Hne Hq Hfit. pose proof Hv as (Hok & Hw & Hz). cbn [v_size v_byte adapter_view] in *. pose proof (zlen_nonneg buf).
  destruct (v_seek (fs_disk fs) q) as (d1 & E1 & U1); [done|lia|]. destruct (U1) as [Hok1 Hs1 Hp1 Hb1 _].
  destruct (v_read d1 buf) as (n & d2 & Hn & E2 & U2); [done|done|lia|]. rewrite Hp1 in *.
  exists n, (fs_set_disk fs d1), (fs_set_disk fs d2). split; [lia|].
  cbn [st_seek st_read adapter_storage]. unfold on_disk. rewrite E1. cbn [fs_disk fs_set_disk]. rewrite E2. run. split; [done|]. split.
  - do 5 f_equal. apply (fmap_agree (v_size (fs_disk fs))); [done|lia|lia].
  - eapply adapter_same; [done|]. by eapply Upd_trans_same.
Qed.
Next Obligation.
  intros fs q buf Hv Hne Hby Hq Hfit Hsol. pose proof Hv as (Hok & Hw & Hz). cbn [v_size v_byte adapter_view solid] in *.
  assert (0 < zlen buf) by (destruct buf; [done|rewrite zlen_cons; pose proof (zlen_nonneg buf); lia]).
  destruct (v_seek (fs_disk fs) q) as (d1 & E1 & U1); [done|lia|].
  destruct (adapter_same fs d1 q Hv U1) as [[Hv1 Hsz1 Hfr1 _] _]. destruct (U1) as [Hok1 Hs1 Hp1 Hb1 Hf1].
  destruct (whole_write d1 buf) as (d2 & E2); [done|by eapply whole_frame|done|done|lia|].
  destruct (v_write d1 buf) as (n & d2' & Hn & E2' & U2); [done|done|done|lia|]. rewrite E2 in E2'. injection E2' as <- <-.
  rewrite take_ge in U2 by (unfold zlen; lia). destruct (U2) as [Hok2 Hs2 Hp2 Hb2 Hf2]. rewrite Hp1 in *.
  pose proof (status_offset_range fs). assert (v_ok (fs_set_disk fs d2)) as Hv2 by (cbn; split_and!; [done|by eapply whole_frame, whole_frame|lia]).
  destruct (set_dirty_flag_ok _ Hv2) as (fs3 & E3 & Hv3 & Hsv & Hs3 & Hf3 & Hst & Hsy & Hb3). cbn in Hs3, Hf3, Hb3.
  change (status_offset (fs_set_disk fs d2)) with (status_offset fs) in Hb3.
  exists (fs_set_disk fs d1), fs3. cbn [st_seek adapter_storage]. unfold on_disk at 1. rewrite E1. run. split; [done|]. split.
  - apply write_all_whole; [done|]. cbn [st_write adapter_storage]. unfold Adapter_write, on_disk at 1. cbn [fs_disk fs_set_disk]. rewrite E2. run.
    rewrite (proj2 (Z.ltb_lt 0 _)) by lia. change (fs_set_disk (fs_set_disk fs d1) d2) with (fs_set_disk fs d2). rewrite E3. done.
  - assert (agree (v_size (fs_disk fs)) (v_byte d2) (spec_write (v_byte (fs_disk fs)) q buf)) as Hb.
    { intros i Hi. rewrite Hb2 by lia. unfold spec_write. case_bool; [done|]. apply Hb1. lia. }
    split; cbn; [done|lia| |].
    + split_and!; [|by etrans; [|etrans]|lia| |by left].
      * unfold same_volume in *. by rewrite Hsv.
      * intros Hs. apply Hsy. unfold synced in *. cbn. change (status_offset (fs_set_disk fs d2)) with (status_offset fs).
        rewrite Hb by lia. unfold spec_write. case_bool; [|done]. exfalso. by apply (Hsol (status_offset fs)); [lia|].
    + intros i Hi Hne'. rewrite Hb3 by lia. apply Hb. lia.
Qed.

End AdapterProofs.

(** ** Examples: a floppy disk, formatted and mounted *)

Section Examples.
Local Existing Instance dev.
Local Existing Instance Reference.bitflags.

(** Twelve sectors, with room for 16 entries in the root directory. *)
Definition blank : SparseIO := mkSparse (PositiveMap.empty Z) (12 * 512) 0.
Definition small_root : FormatVolumeOptions := mkOptions None None None None (Some 16) None None None None None None None.

Definition mounted : out (result Error (FileSystem SparseIO)) :=
  '(r, disk) ← format_volume blank small_root;
  match r with
  | Ok _ => FileSystem_new disk false
  | Err e => Ret (Err e)
  end.

Definition summary (r : out (result Error (FileSystem SparseIO))) : option (FatType * Z * Z) :=
  match r with
  | Ret (Ok fs) =>
      match stats fs with
      | Ret (Ok st, fs) => Some (fs_fat_type fs, fs_total_clusters fs, stats_free_clusters st)
      | _ => None
      end
  | _ => None
  end.

Example format_then_mount : summary mounted = Some (Fat12, 8, 8).
Proof. vm_compute. reflexivity. Qed.

End Examples.
