(* ===== verification/FatVolume.v ===== *)
(** * FAT crate: what the operations of a mounted volume do

    The theorems on [FatFs]: allocating, freeing and cutting chains on a mounted volume
    changes the tables, all copies of them alike, and nothing else but the status byte,
    keeps the cached number of free clusters true, and leaves the volume marked dirty. *)

From S2P Require Import Prelude Crates BlockCache FatIo FatTable FatTime FatEntry FatBoot FatFs.

(** Freeing a list of clusters in use. *)
Lemma num_free_list t f g a b l : NoDup l → (∀ x, x ∈ l → a ≤ x < b ∧ entry_free t f x = false ∧ entry_free t g x = true) →
  (∀ x, a ≤ x < b → x ∉ l → entry_free t g x = entry_free t f x) → num_free t g a b = num_free t f a b + zlen l.
Proof.
  intros Hnd Hl Ho. unfold num_free. rewrite Z.add_comm, <- zlen_app. unfold zlen. f_equal. apply Permutation_length.
  assert (∀ h x, x ∈ List.filter h (range a b) ↔ h x = true ∧ a ≤ x < b) as Hf.
  { intros h x. rewrite list_elem_of_In, filter_In, <- list_elem_of_In, elem_of_range. tauto. }
  assert (∀ h, NoDup (List.filter h (range a b))) as Hn.
  { intros h. apply NoDup_ListNoDup, List.NoDup_filter, NoDup_ListNoDup, NoDup_seqZ. }
  apply NoDup_Permutation; [apply Hn| |].
  - apply NoDup_app. split; [done|]. split; [|apply Hn]. intros x Hx [E _]%Hf. destruct (Hl x Hx) as (_ & E' & _). congruence.
  - intros x. rewrite elem_of_app, !Hf. split.
    + intros [E Hr]. destruct (decide (x ∈ l)) as [|Hx]; [by left|]. right. by rewrite <- (Ho x Hr Hx).
    + intros [Hx|[E Hr]]; [by destruct (Hl x Hx) as (? & ? & ?)|]. split; [|done].
      destruct (decide (x ∈ l)) as [Hx|Hx]; [by apply Hl|]. by rewrite Ho.
Qed.

Section Volumes.
Context {P : Profile} {S : Type} {ST : Storage S} {V : View S} {FS : FlatStorage S} {WW : WholeWrites S}.
Implicit Types fs : FileSystem S.

(** ** Where the tables and the clusters are *)

Definition fat_first fs : Z :=
  let bpb := fs_bpb fs in
  if mirroring_enabled bpb then b_reserved_sectors bpb else b_reserved_sectors bpb + active_fat bpb * sectors_per_fat bpb.
Definition fat_copies fs : Z := if mirroring_enabled (fs_bpb fs) then b_fats (fs_bpb fs) else 1.
Definition fat_begin fs : Z := fat_first fs * b_bytes_per_sector (fs_bpb fs).
Definition fat_bytes fs : Z := sectors_per_fat (fs_bpb fs) * b_bytes_per_sector (fs_bpb fs).

Definition bytes_per_cluster fs : Z := b_sectors_per_cluster (fs_bpb fs) * b_bytes_per_sector (fs_bpb fs).
Definition cluster_at fs (c : Z) : Z :=
  (fs_first_data_sector fs + (c - 2) * b_sectors_per_cluster (fs_bpb fs)) * b_bytes_per_sector (fs_bpb fs).

Definition fs_slice fs : DiskSlice (FileSystem S) := DiskSlice_new (fat_begin fs) (fat_bytes fs) (fat_copies fs) fs.

(** The bytes of the table in use, and one past the last cluster. *)
Definition fs_table fs : Z → Z := v_byte (fs_slice fs).
Definition fs_end fs : Z := fs_total_clusters fs + 2.

(** A mounted volume with a sensible geometry: the tables are behind the boot sector and
    before the data, have an entry for every cluster, and everything is on the disk. *)
Record VolOk fs : Prop := {
  vo_ok : v_ok fs;
  vo_bps : 512 ≤ b_bytes_per_sector (fs_bpb fs) ≤ 4096;
  vo_spc : 1 ≤ b_sectors_per_cluster (fs_bpb fs) ≤ 128;
  vo_active : 0 ≤ active_fat (fs_bpb fs);
  vo_reserved : 1 ≤ b_reserved_sectors (fs_bpb fs);
  vo_spf : 1 ≤ sectors_per_fat (fs_bpb fs);
  vo_copies : 1 ≤ fat_copies fs;
  vo_before : fat_first fs + fat_copies fs * sectors_per_fat (fs_bpb fs) ≤ fs_first_data_sector fs;
  vo_sectors : fs_first_data_sector fs + fs_total_clusters fs * b_sectors_per_cluster (fs_bpb fs) < 2 ^ 32;
  vo_disk : (fs_first_data_sector fs + fs_total_clusters fs * b_sectors_per_cluster (fs_bpb fs)) *
    b_bytes_per_sector (fs_bpb fs) ≤ v_size (fs_disk fs);
  vo_total : 1 ≤ fs_total_clusters fs ≤ max_clusters (fs_fat_type fs);
  vo_table : (fs_total_clusters fs + 2) * bits_per_fat_entry (fs_fat_type fs) ≤ fat_bytes fs * 8;
  vo_hint n : next_free_cluster (fs_info fs) = Some n → 2 ≤ n;
}.

Lemma entry_in_table t n total c : total ≤ max_clusters t → 0 ≤ c < total + 2 → (total + 2) * bits_per_fat_entry t ≤ n * 8 → in_table t n c.
Proof.
  intros Hm Hc Hn. split.
  - destruct t; cbn in *; unfold FAT16_MIN_CLUSTERS, FAT32_MIN_CLUSTERS, FAT32_MAX_CLUSTERS in *; lia.
  - destruct t; cbn in *; [Z.div_mod_to_equations; lia|lia|lia].
Qed.

Lemma fs_entries fs : VolOk fs → ∀ c, 0 ≤ c < fs_total_clusters fs + 2 → in_table (fs_fat_type fs) (v_size (fs_slice fs)) c.
Proof. intros [] c Hc. by eapply entry_in_table; [apply vo_total0| |]. Qed.

Lemma vol_products fs : VolOk fs → 0 ≤ active_fat (fs_bpb fs) * sectors_per_fat (fs_bpb fs) ∧
  b_reserved_sectors (fs_bpb fs) ≤ fat_first fs ∧ 512 ≤ fat_begin fs ∧ 512 ≤ fat_bytes fs ∧
  sectors_per_fat (fs_bpb fs) ≤ fat_copies fs * sectors_per_fat (fs_bpb fs) ∧
  0 ≤ fs_total_clusters fs * b_sectors_per_cluster (fs_bpb fs) ∧
  fat_begin fs + fat_copies fs * fat_bytes fs ≤ fs_first_data_sector fs * b_bytes_per_sector (fs_bpb fs) ≤ v_size (fs_disk fs).
Proof.
  intros []. assert (b_reserved_sectors (fs_bpb fs) ≤ fat_first fs) by (unfold fat_first; destruct (mirroring_enabled _); nia).
  unfold fat_begin, fat_bytes. split_and!; try nia.
Qed.

Lemma fs_slice_ok fs : VolOk fs → fs_fat_slice fs = Ret (fs_slice fs) ∧ v_ok (fs_slice fs).
Proof.
  intros Hv. pose proof (vol_products fs Hv) as (H1 & H2 & H3 & H4 & H5 & H6 & H7). destruct Hv. split.
  - assert (∀ x, 0 ≤ x < 2 ^ 32 → 0 ≤ x * b_bytes_per_sector (fs_bpb fs) < 2 ^ 64) as Hm by (intros; nia).
    assert (0 ≤ fat_first fs < 2 ^ 32) as Hff by lia. assert (0 ≤ sectors_per_fat (fs_bpb fs) < 2 ^ 32) as Hsp by lia.
    unfold fs_fat_slice, fat_slice, bytes_from_sectors, fs_slice, fat_begin, fat_bytes.
    assert ((if mirroring_enabled (fs_bpb fs) then Ret (b_reserved_sectors (fs_bpb fs), b_fats (fs_bpb fs))
      else x ← mul_u 32 (active_fat (fs_bpb fs)) (sectors_per_fat (fs_bpb fs));
           first ← add_u 32 (b_reserved_sectors (fs_bpb fs)) x; Ret (first, 1)) = Ret (fat_first fs, fat_copies fs)) as ->.
    { unfold fat_first, fat_copies in *. destruct (mirroring_enabled (fs_bpb fs)); [done|].
      rewrite mul_u_ok by lia. run. by rewrite add_u_ok by lia. }
    run. rewrite (mul_u_ok 64 (fat_first fs)) by auto. run. rewrite mul_u_ok by auto. done.
  - split; [exact vo_ok0|]. cbn. split_and!; try lia.
    intros j Hj. unfold covered in Hj. cbn in Hj. pose proof (status_offset_range fs). lia.
Qed.

(** ** What an operation on the tables keeps

    [R] is what it may change of the data area. *)

Record Kept (R : Z → Prop) fs fs' : Prop := {
  ke_ok : VolOk fs';
  ke_bpb : fs_bpb fs' = fs_bpb fs;
  ke_type : fs_fat_type fs' = fs_fat_type fs;
  ke_total : fs_total_clusters fs' = fs_total_clusters fs;
  ke_first : fs_first_data_sector fs' = fs_first_data_sector fs;
  ke_access : fs_update_accessed_date fs' = fs_update_accessed_date fs;
  ke_size : v_size (fs_disk fs') = v_size (fs_disk fs);
  ke_synced : synced fs → synced fs';
  ke_mirrored : mirrored (fs_slice fs) → mirrored (fs_slice fs');
  ke_rest j : 0 ≤ j < v_size (fs_disk fs) → j ≠ status_offset fs → ¬ covered (fs_slice fs) j → ¬ R j →
    v_byte (fs_disk fs') j = v_byte (fs_disk fs) j;
}.

Lemma VolOk_fields fs fs' : VolOk fs → v_ok fs' → v_size (fs_disk fs') = v_size (fs_disk fs) →
  fs_bpb fs' = fs_bpb fs → fs_fat_type fs' = fs_fat_type fs → fs_total_clusters fs' = fs_total_clusters fs →
  fs_first_data_sector fs' = fs_first_data_sector fs → (∀ n, next_free_cluster (fs_info fs') = Some n → 2 ≤ n) → VolOk fs'.
Proof.
  intros [] Hok Hs E1 E2 E3 E4 Hn. unfold fat_bytes in *.
  assert (fat_first fs' = fat_first fs) by (unfold fat_first; by rewrite E1).
  assert (fat_copies fs' = fat_copies fs) by (unfold fat_copies; by rewrite E1).
  split; unfold fat_bytes; rewrite ?E1, ?E2, ?E3, ?E4, ?Hs; congruence || done.
Qed.

Lemma slice_same fs fs' : fs_bpb fs' = fs_bpb fs →
  fat_begin fs' = fat_begin fs ∧ fat_bytes fs' = fat_bytes fs ∧ fat_copies fs' = fat_copies fs ∧
  fs_slice fs' = mkSlice (fat_begin fs) (fat_bytes fs) 0 (fat_copies fs) fs'.
Proof. intros E. unfold fs_slice, DiskSlice_new, fat_begin, fat_bytes, fat_copies, fat_first. by rewrite E. Qed.

(** From what a slice of the tables keeps to what the volume keeps. *)
Lemma slice_kept fs d : VolOk fs → v_ok d → v_frame (fs_slice fs) d →
  Kept (λ _, False) fs (sl_inner d) ∧ fs_info (sl_inner d) = fs_info fs ∧ fs_table (sl_inner d) = v_byte d ∧
  (fs_status (sl_inner d) = marked fs ∨
   fs_status (sl_inner d) = fs_status fs ∧ agree (v_size (fs_disk fs)) (v_byte (fs_disk (sl_inner d))) (v_byte (fs_disk fs))).
Proof.
  intros Hv (Hok & _) (Hb & Hz & Hm & Hsz & (Hsv & _ & _ & Hsy & Hst) & Hrest & Hmir).
  cbn [fs_slice DiskSlice_new sl_begin sl_size sl_mirrors sl_inner] in *. destruct (same_volume_fields _ _ Hsv) as (Eb & Et & Ei & En & Ef & Eo).
  assert (VolOk (sl_inner d)) as Hv'.
  { apply (VolOk_fields fs); try done. rewrite Ei. apply Hv. }
  destruct (slice_same fs (sl_inner d) Eb) as (F1 & F2 & F3 & F4).
  split; [|split; [done|split; [|done]]].
  - split; try done; [unfold same_volume in Hsv; by rewrite Hsv| |].
    + intros Hmi. specialize (Hmir Hmi). rewrite F4. unfold mirrored in *. cbn [sl_begin sl_size sl_mirrors sl_inner] in *. by rewrite Hb, Hz, Hm in Hmir.
    + intros j Hj Hs Hc _. by apply Hrest.
  - unfold fs_table. rewrite F4. cbn. by rewrite Hb.
Qed.

Lemma Kept_info R fs fs' i : Kept R fs fs' → (∀ n, next_free_cluster i = Some n → 2 ≤ n) → Kept R fs (fs_set_info fs' i).
Proof.
  intros [] Hn. split; try done. by apply (VolOk_fields fs'); try (done || apply ke_ok0).
Qed.

(** ** The cached number of free clusters *)

Definition free_now fs : Z := num_free (fs_fat_type fs) (fs_table fs) 2 (fs_end fs).

(** What the information sector says is true. *)
Definition count_exact fs : Prop := ∀ n, free_cluster_count (fs_info fs) = Some n → n = free_now fs.

Lemma free_now_range fs : VolOk fs → 0 ≤ free_now fs ≤ fs_total_clusters fs.
Proof. intros []. unfold free_now, fs_end. pose proof (num_free_le (fs_fat_type fs) (fs_table fs) 2 (fs_total_clusters fs + 2)). lia. Qed.

Lemma total_small fs : VolOk fs → fs_total_clusters fs ≤ 0x0FFFFFF4.
Proof.
  intros []. destruct (fs_fat_type fs); cbn in vo_total0; unfold FAT16_MIN_CLUSTERS, FAT32_MIN_CLUSTERS, FAT32_MAX_CLUSTERS in *; lia.
Qed.

(** The position of a cluster of the volume. *)
Lemma offset_from_cluster_ok fs c : VolOk fs → 2 ≤ c < fs_end fs → offset_from_cluster fs c = Ret (cluster_at fs c) ∧
  fs_first_data_sector fs * b_bytes_per_sector (fs_bpb fs) ≤ cluster_at fs c ∧ cluster_at fs c + bytes_per_cluster fs ≤ v_size (fs_disk fs).
Proof.
  intros Hv Hc. pose proof (total_small fs Hv). pose proof (vol_products fs Hv) as (H1 & H2 & H3 & H4 & H5 & H6 & H7). destruct Hv. unfold fs_end in Hc.
  set (bps := b_bytes_per_sector (fs_bpb fs)) in *. set (spc := b_sectors_per_cluster (fs_bpb fs)) in *.
  assert (0 ≤ (c - 2) * spc) by (apply Z.mul_nonneg_nonneg; lia).
  assert ((c - 1) * spc ≤ fs_total_clusters fs * spc) by (apply Z.mul_le_mono_nonneg_r; lia).
  unfold cluster_at, bytes_per_cluster. fold bps spc. split_and!.
  - unfold offset_from_cluster, sector_from_cluster, offset_from_sector, bytes_from_sectors, sectors_from_clusters, RESERVED_FAT_ENTRIES. fold bps spc.
    rewrite sub_u_ok by lia. run. rewrite mul_u_ok by lia. run. rewrite add_u_ok by lia. run. apply mul_u_ok.
    assert (∀ x, 0 ≤ x < 2 ^ 32 → 0 ≤ x * bps < 2 ^ 64) as Hm by (intros x Hx; clear -Hx vo_bps0; nia). apply Hm. lia.
  - apply Z.mul_le_mono_nonneg_r; lia.
  - rewrite <- Z.mul_add_distr_r. etrans; [|exact vo_disk0]. apply Z.mul_le_mono_nonneg_r; lia.
Qed.

Lemma fs_cluster_size_ok fs : VolOk fs → fs_cluster_size fs = Ret (bytes_per_cluster fs) ∧ 512 ≤ bytes_per_cluster fs ≤ 524288.
Proof. intros []. unfold fs_cluster_size, cluster_size, bytes_per_cluster. rewrite mul_u_ok by nia. split; [done|nia]. Qed.

(** ** Allocation *)

(** What a cluster of the data area covers. *)
Definition in_cluster fs (c j : Z) : Prop := cluster_at fs c ≤ j < cluster_at fs c + bytes_per_cluster fs.

(** The table after [c] has been allocated behind [prev]. *)
Record Linked fs fs' (prev : option Z) (c : Z) : Prop := {
  li_range : 2 ≤ c < fs_end fs;
  li_free : entry (fs_fat_type fs) (fs_table fs) c = Free;
  li_end : entry (fs_fat_type fs) (fs_table fs') c = EndOfChain;
  li_prev p : prev = Some p → entry (fs_fat_type fs) (fs_table fs') p = Data c;
  li_other c' : 0 ≤ c' < fs_end fs → c' ≠ c → prev ≠ Some c' →
    entry (fs_fat_type fs) (fs_table fs') c' = entry (fs_fat_type fs) (fs_table fs) c';
  li_count : free_now fs' + 1 = free_now fs;
}.

Definition prev_ok fs (prev : option Z) : Prop :=
  ∀ p, prev = Some p → 2 ≤ p < fs_end fs ∧ entry (fs_fat_type fs) (fs_table fs) p ≠ Free.

Definition fs_choice fs : option Z :=
  alloc_choice (fs_fat_type fs) (fs_table fs) (next_free_cluster (fs_info fs)) (fs_total_clusters fs).

(** The part of [alloc_cluster] that works on the table. *)
Lemma alloc_table_ok fs prev : VolOk fs → prev_ok fs prev → ∃ fs1,
  on_fat fs (λ fat, alloc_cluster fat (fs_fat_type fs) prev (next_free_cluster (fs_info fs)) (fs_total_clusters fs)) =
    Ret (found (fs_choice fs), fs1) ∧ Kept (λ _, False) fs fs1 ∧ fs_info fs1 = fs_info fs ∧
  match fs_choice fs with
  | Some c => Linked fs fs1 prev c ∧ fs_status fs1 = marked fs
  | None => free_now fs1 = free_now fs ∧ ∀ c, 0 ≤ c < fs_end fs → entry (fs_fat_type fs) (fs_table fs1) c = entry (fs_fat_type fs) (fs_table fs) c
  end.
Proof.
  intros Hv Hp. destruct (fs_slice_ok fs Hv) as [Es Hok]. unfold on_fat. rewrite Es. run. pose proof (fs_entries fs Hv) as Hin.
  destruct (alloc_cluster_ok (fs_fat_type fs) (fs_slice fs) prev (next_free_cluster (fs_info fs)) (fs_total_clusters fs)) as (d & E & H);
    [done|apply Hv|done|apply Hv|exact Hp|].
  rewrite E. run. unfold fs_choice, fs_table. exists (sl_inner d). split; [done|].
  destruct (alloc_choice (fs_fat_type fs) (v_byte (fs_slice fs)) (next_free_cluster (fs_info fs)) (fs_total_clusters fs)) as [c|].
  - destruct H as [Hok' Hsz Hfr Hr Hfree Hend Hprev Hoth Hcnt].
    destruct (slice_kept fs d Hv Hok' Hfr) as (HK & Hi & Ht & Hst). split; [done|]. split; [done|]. fold (fs_table (sl_inner d)). split.
    + split; rewrite ?Ht; try done.
      * intros c' Hc' H1 H2. apply entry_raw_eq. by apply Hoth; [apply Hin|..].
      * unfold free_now, fs_end. rewrite Ht, (ke_type _ _ _ HK), (ke_total _ _ _ HK). exact Hcnt.
    + destruct Hst as [?|[_ Hag]]; [done|]. exfalso.
      assert (entry (fs_fat_type fs) (v_byte d) c = entry (fs_fat_type fs) (fs_table fs) c) as Eq.
      { rewrite <- Ht. apply (entry_agree _ (fat_bytes fs)); [apply (Hin c); lia|]. intros i Hi'. unfold fs_table, fs_slice. cbn.
        pose proof (vol_products fs Hv) as (_ & _ & ? & ? & ? & _ & ?). destruct (slice_same fs (sl_inner d) (ke_bpb _ _ _ HK)) as (-> & _).
        apply Hag. pose proof (vo_copies fs Hv). nia. }
      unfold fs_table in Eq. congruence.
  - destruct (Step_ok _ _ _ H) as (Hok' & Hsz & Hag). pose proof (Step_frame _ _ _ H) as Hfr.
    destruct (slice_kept fs d Hv Hok' Hfr) as (HK & Hi & Ht & Hst). split; [done|]. split; [done|]. fold (fs_table (sl_inner d)) (fs_table fs). rewrite Ht. split.
    + unfold free_now, fs_end. rewrite Ht, (ke_type _ _ _ HK), (ke_total _ _ _ HK). apply (num_free_agree _ (v_size (fs_slice fs))); [|done].
      intros c Hc. apply Hin. lia.
    + intros c Hc. apply (entry_agree _ (v_size (fs_slice fs))); [by apply Hin|done].
Qed.

Lemma Kept_covered R fs fs' j : Kept R fs fs' → covered (fs_slice fs') j ↔ covered (fs_slice fs) j.
Proof. intros HK. destruct (slice_same fs fs' (ke_bpb _ _ _ HK)) as (_ & _ & _ & ->). done. Qed.

Lemma Kept_status R fs fs' : Kept R fs fs' → status_offset fs' = status_offset fs.
Proof. intros []. unfold status_offset. by rewrite ke_type0. Qed.

Lemma Kept_refl R fs : VolOk fs → Kept R fs fs.
Proof. by split. Qed.

Lemma Kept_trans R fs fs1 fs2 : Kept R fs fs1 → Kept R fs1 fs2 → Kept R fs fs2.
Proof.
  intros H1 H2. pose proof (Kept_status _ _ _ H1) as Eo. assert (∀ j, covered (fs_slice fs1) j ↔ covered (fs_slice fs) j) as Hc by (intros j; by eapply Kept_covered).
  destruct H1, H2.
  split; try done; try congruence; [auto|auto|]. intros j Hj Hs Hcov HR. rewrite ke_rest1, ke_rest0; try done.
  - by rewrite ke_size0.
  - by rewrite Eo.
  - by rewrite Hc.
Qed.

Lemma Kept_weaken (R R' : Z → Prop) fs fs' : (∀ j, R j → R' j) → Kept R fs fs' → Kept R' fs fs'.
Proof. intros HR []. split; try done. intros j Hj Hs Hc Hn. apply ke_rest0; auto. Qed.

Lemma Kept_cluster R fs fs' c : Kept R fs fs' → cluster_at fs' c = cluster_at fs c ∧ bytes_per_cluster fs' = bytes_per_cluster fs ∧ fs_end fs' = fs_end fs.
Proof. intros []. unfold cluster_at, bytes_per_cluster, fs_end. by rewrite ke_bpb0, ke_first0, ke_total0. Qed.

(** A write to the data area, past the adapter. *)
Lemma data_write_kept fs d f p (R : Z → Prop) : VolOk fs → Upd (fs_disk fs) d f p →
  (∀ j, ¬ R j → f j = v_byte (fs_disk fs) j) → (∀ j, R j → fs_first_data_sector fs * b_bytes_per_sector (fs_bpb fs) ≤ j) →
  Kept R fs (fs_set_disk fs d) ∧ agree (fat_bytes fs) (fs_table (fs_set_disk fs d)) (fs_table fs).
Proof.
  intros Hv [Hok Hs _ Hb Hf] Hno HR. pose proof (vol_products fs Hv) as (_ & _ & H3 & H4 & _ & _ & H7). pose proof (status_offset_range fs).
  pose proof (vo_copies fs Hv).
  assert (∀ j, 0 ≤ j < fs_first_data_sector fs * b_bytes_per_sector (fs_bpb fs) → v_byte d j = v_byte (fs_disk fs) j) as Hlow.
  { intros j Hj. rewrite Hb by lia. apply Hno. intros Hr. specialize (HR j Hr). lia. }
  assert (v_ok (fs_set_disk fs d)) as Hok'.
  { destruct (vo_ok fs Hv) as (? & ? & ?). cbn. split_and!; [done|by eapply whole_frame|lia]. }
  assert (∀ k r, 0 ≤ k < fat_copies fs → 0 ≤ r < fat_bytes fs → 0 ≤ fat_begin fs + k * fat_bytes fs + r < fs_first_data_sector fs * b_bytes_per_sector (fs_bpb fs)) as Hin.
  { intros k r Hk Hr. assert ((k + 1) * fat_bytes fs ≤ fat_copies fs * fat_bytes fs) by (apply Z.mul_le_mono_nonneg_r; lia).
    assert (0 ≤ k * fat_bytes fs) by (apply Z.mul_nonneg_nonneg; lia). lia. }
  split.
  - split; try done.
    + by apply (VolOk_fields fs); try (done || apply Hv).
    + unfold synced. change (status_offset (fs_set_disk fs d)) with (status_offset fs). cbn. by rewrite Hlow by lia.
    + unfold mirrored. cbn. intros Hm k r Hk Hr. specialize (Hm k r Hk Hr).
      change (fat_begin (fs_set_disk fs d)) with (fat_begin fs). change (fat_bytes (fs_set_disk fs d)) with (fat_bytes fs) in *.
      rewrite (Hlow (fat_begin fs + k * fat_bytes fs + r)) by (by apply Hin). rewrite Hlow; [done|]. specialize (Hin 0 r). lia.
    + intros j Hj _ _ Hr. cbn. rewrite Hb by lia. by apply Hno.
  - intros i Hi. cbn. apply Hlow. specialize (Hin 0 i). lia.
Qed.

(** Tables that agree have the same entries. *)
Lemma table_agree fs fs' c : VolOk fs → fs_fat_type fs' = fs_fat_type fs → agree (fat_bytes fs) (fs_table fs') (fs_table fs) →
  0 ≤ c < fs_end fs → entry (fs_fat_type fs) (fs_table fs') c = entry (fs_fat_type fs) (fs_table fs) c.
Proof. intros Hv Et Ha Hc. apply (entry_agree _ (fat_bytes fs)); [|done]. by apply (fs_entries fs Hv). Qed.

Lemma free_now_agree R fs fs' : Kept R fs fs' → VolOk fs → agree (fat_bytes fs) (fs_table fs') (fs_table fs) → free_now fs' = free_now fs.
Proof.
  intros HK Hv Ha. unfold free_now, fs_end. rewrite (ke_type _ _ _ HK), (ke_total _ _ _ HK). apply (num_free_agree _ (fat_bytes fs)); [|done].
  intros c Hc. apply (fs_entries fs Hv). lia.
Qed.

(** Zeroing a cluster. *)
Lemma zero_cluster_ok fs c : VolOk fs → 2 ≤ c < fs_end fs → ∃ fs',
  (at_ ← offset_from_cluster fs c;
   let? (_, fs) := on_disk fs (st_seek (fs_disk fs) (SeekStart at_)) in
   size ← fs_cluster_size fs;
   on_disk fs (write_zeros (fs_disk fs) size)) = Ret (Ok tt, fs') ∧
  Kept (in_cluster fs c) fs fs' ∧ agree (fat_bytes fs) (fs_table fs') (fs_table fs) ∧ fs_info fs' = fs_info fs ∧
  fs_status fs' = fs_status fs ∧ ∀ j, in_cluster fs c j → v_byte (fs_disk fs') j = 0.
Proof.
  intros Hv Hc. destruct (offset_from_cluster_ok fs c Hv Hc) as (-> & Hlo & Hhi). run. destruct (fs_cluster_size_ok fs Hv) as [Ez Hz].
  pose proof (vol_products fs Hv) as (_ & _ & H3 & H4 & _ & _ & H7). pose proof (vo_copies fs Hv).
  destruct (vo_ok fs Hv) as (Hok & _). assert (0 ≤ fat_copies fs * fat_bytes fs) by (apply Z.mul_nonneg_nonneg; lia).
  destruct (v_seek (fs_disk fs) (cluster_at fs c)) as (d1 & E1 & U1); [done|lia|]. unfold on_disk at 1. rewrite E1. run.
  change (fs_cluster_size (fs_set_disk fs d1)) with (fs_cluster_size fs). rewrite Ez. run. cbn [fs_disk fs_set_disk].
  destruct (U1) as [Hok1 Hs1 Hp1 Hb1 _]. destruct (write_zeros_ok d1 (bytes_per_cluster fs)) as (d2 & E2 & U2); [done|lia|lia|].
  unfold on_disk. rewrite E2. run. rewrite Hp1 in U2. exists (fs_set_disk fs d2). split; [done|].
  assert (zlen (replicate (Z.to_nat (bytes_per_cluster fs)) 0) = bytes_per_cluster fs) as Hl by (unfold zlen; rewrite length_replicate; lia).
  assert (Upd (fs_disk fs) d2 (spec_write (v_byte (fs_disk fs)) (cluster_at fs c) (replicate (Z.to_nat (bytes_per_cluster fs)) 0))
    (cluster_at fs c + bytes_per_cluster fs)) as U.
  { eapply Upd_agree; [|by eapply Upd_trans]. intros i Hi. by apply (spec_write_proper (v_size (fs_disk fs))). }
  destruct (data_write_kept fs d2 _ _ (in_cluster fs c) Hv U) as [HK Ha].
  { intros j Hj. unfold spec_write. rewrite Hl. unfold in_cluster in Hj. case_bool; [lia|done]. }
  { intros j Hj. unfold in_cluster in Hj. lia. }
  split_and!; [done|done|done|done|]. intros j Hj. unfold in_cluster in Hj. cbn. rewrite (upd_byte _ _ _ _ U) by lia. unfold spec_write. rewrite Hl.
  case_bool; [|bsolve]. rewrite lookup_replicate_2 by lia. done.
Qed.

(** What allocation does to the information sector. *)
Definition info_allocated (i : FsInfoSector) (c : Z) : FsInfoSector :=
  mkInfo ((λ n, n - 1) <$> free_cluster_count i) (Some (c + 1)) true.

(** The data area that an allocation may change. *)
Definition zeroed fs (zero : bool) (c j : Z) : Prop := zero = true ∧ in_cluster fs c j.

(** What [alloc_cluster] does when it succeeds. *)
Record FsAllocated fs fs' (prev : option Z) (zero : bool) (c : Z) : Prop := {
  fl_kept : Kept (zeroed fs zero c) fs fs';
  fl_linked : Linked fs fs' prev c;
  fl_info : fs_info fs' = info_allocated (fs_info fs) c;
  fl_status : fs_status fs' = marked fs;
  fl_zero j : zeroed fs zero c j → v_byte (fs_disk fs') j = 0;
}.

Lemma Linked_agree fs fs1 fs2 prev c : VolOk fs → Linked fs fs1 prev c → fs_fat_type fs2 = fs_fat_type fs → free_now fs2 = free_now fs1 →
  prev_ok fs prev → (∀ x, 0 ≤ x < fs_end fs → entry (fs_fat_type fs) (fs_table fs2) x = entry (fs_fat_type fs) (fs_table fs1) x) →
  Linked fs fs2 prev c.
Proof.
  intros Hv [] Et Ef Hp Ha. split; try done; [|..].
  - rewrite Ha by lia. done.
  - intros p Ep. rewrite Ha; [by apply li_prev0|]. destruct (Hp p Ep). lia.
  - intros c' Hc' H1 H2. rewrite Ha by done. by apply li_other0.
  - by rewrite Ef.
Qed.

Lemma fs_alloc_cluster_ok fs prev zero : VolOk fs → prev_ok fs prev → count_exact fs → ∃ fs',
  fs_alloc_cluster fs prev zero = Ret (found (fs_choice fs), fs') ∧
  match fs_choice fs with
  | Some c => FsAllocated fs fs' prev zero c ∧ count_exact fs'
  | None => Kept (λ _, False) fs fs' ∧ fs_info fs' = fs_info fs ∧ free_now fs' = free_now fs ∧
      ∀ c, 0 ≤ c < fs_end fs → entry (fs_fat_type fs) (fs_table fs') c = entry (fs_fat_type fs) (fs_table fs) c
  end.
Proof.
  intros Hv Hp Hx. unfold fs_alloc_cluster. destruct (alloc_table_ok fs prev Hv Hp) as (fs1 & -> & HK1 & Hi1 & H1).
  destruct (fs_choice fs) as [c|]; cbn [found]; run; [|exists fs1; by destruct H1].
  destruct H1 as [HL Hst1]. pose proof (li_range _ _ _ _ HL) as Hc. pose proof (ke_ok _ _ _ HK1) as Hv1.
  assert (∃ fs2, (if zero then
      at_ ← offset_from_cluster fs1 c;
      let? (_, self) := on_disk fs1 (st_seek (fs_disk fs1) (SeekStart at_)) in
      size ← fs_cluster_size self;
      on_disk self (write_zeros (fs_disk self) size)
    else Ret (Ok tt, fs1)) = Ret (Ok tt, fs2) ∧ Kept (zeroed fs zero c) fs1 fs2 ∧ agree (fat_bytes fs1) (fs_table fs2) (fs_table fs1) ∧
    fs_info fs2 = fs_info fs1 ∧ fs_status fs2 = fs_status fs1 ∧ ∀ j, zeroed fs zero c j → v_byte (fs_disk fs2) j = 0)
    as (fs2 & -> & HK2 & Ha2 & Hi2 & Hst2 & Hz2).
  { destruct (Kept_cluster _ _ _ c HK1) as (Ea & Eb & Ee). unfold zeroed, in_cluster. destruct zero.
    - destruct (zero_cluster_ok fs1 c Hv1) as (fs2 & E & HK & Ha & Hi & Hst & Hz); [by rewrite Ee|]. exists fs2. unfold in_cluster in *. rewrite Ea, Eb in *.
      split_and!; [done| |done|done|done|intros j [_ Hj]; by apply Hz]. eapply Kept_weaken; [|exact HK]. by intros j Hj.
    - exists fs1. split_and!; [done|by apply Kept_refl|done|done|done|by intros j [? _]]. }
  run. pose proof (total_small fs Hv). unfold fs_end in Hc. rewrite add_u_ok by lia. run.
  pose proof (free_now_range fs1 Hv1) as Hr1. pose proof (li_count _ _ _ _ HL) as Hcnt. pose proof (ke_total _ _ _ HK1).
  assert (map_free_clusters (set_next_free_cluster (fs_info fs2) (c + 1)) (λ n, sub_u 32 n 1) = Ret (info_allocated (fs_info fs) c)) as ->.
  { unfold map_free_clusters, set_next_free_cluster, info_allocated. rewrite Hi2, Hi1. cbn [free_cluster_count next_free_cluster].
    unfold count_exact in Hx. destruct (free_cluster_count (fs_info fs)) as [n|]; [|done]. rewrite (Hx n eq_refl). rewrite sub_u_ok by lia. done. }
  run. exists (fs_set_info fs2 (info_allocated (fs_info fs) c)). split; [done|].
  assert (Kept (zeroed fs zero c) fs fs2) as HK by (eapply Kept_trans; [eapply Kept_weaken; [|exact HK1]; done|done]).
  pose proof (free_now_agree _ _ _ HK2 Hv1 Ha2) as Ef.
  split; [split; [|eapply (Linked_agree fs fs1); try done|done|by cbn; rewrite Hst2|done]|].
  - apply Kept_info; [done|]. cbn. intros n [= <-]. lia.
  - cbn. by rewrite (ke_type _ _ _ HK).
  - intros x Hxr. rewrite <- (ke_type _ _ _ HK1). apply (table_agree fs1); try done; [by apply (ke_type _ _ _ HK2)|].
    unfold fs_end in *. by rewrite (ke_total _ _ _ HK1).
  - unfold count_exact, info_allocated in *. cbn. intros n Hn. destruct (free_cluster_count (fs_info fs)) as [m|]; [|done]. injection Hn as <-.
    change (free_now (fs_set_info fs2 _)) with (free_now fs2). rewrite (Hx m eq_refl), Ef. lia.
Qed.

(** ** Freeing *)

(** A chain of clusters of the volume, all in use. *)
Record fs_chain fs (c : Z) (l : list Z) : Prop := {
  ch_chain : chain (fs_fat_type fs) (fs_table fs) c l;
  ch_in x : x ∈ l → 2 ≤ x < fs_end fs;
  ch_used x : x ∈ l → entry (fs_fat_type fs) (fs_table fs) x ≠ Free;
}.

Lemma chain_fuel_ok fs c l : VolOk fs → fs_chain fs c l → (length l ≤ chain_fuel fs)%nat ∧ zlen l ≤ fs_total_clusters fs.
Proof.
  intros Hv []. assert (length l ≤ length (range 2 (fs_end fs)))%nat as H.
  { apply submseteq_length, NoDup_submseteq; [by eapply chain_NoDup|]. intros x Hx. apply elem_of_range. by apply ch_in0. }
  unfold range, fs_end in H. rewrite length_seqZ in H. unfold chain_fuel, zlen. pose proof (vo_total fs Hv). lia.
Qed.

Definition info_freed (i : FsInfoSector) (k : Z) : FsInfoSector :=
  match free_cluster_count i with Some n => mkInfo (Some (n + k)) (next_free_cluster i) true | None => i end.

Lemma map_freed fs k : count_exact fs → VolOk fs → 0 ≤ k → free_now fs + k ≤ fs_total_clusters fs →
  map_free_clusters (fs_info fs) (λ n, add_u 32 n k) = Ret (info_freed (fs_info fs) k).
Proof.
  intros Hx Hv Hk Hs. pose proof (total_small fs Hv). pose proof (free_now_range fs Hv). unfold map_free_clusters, info_freed, count_exact in *.
  destruct (free_cluster_count (fs_info fs)) as [n|]; [|done]. rewrite (Hx n eq_refl). by rewrite add_u_ok by lia.
Qed.

Lemma exact_freed fs fs' k : count_exact fs → fs_info fs' = info_freed (fs_info fs) k → free_now fs' = free_now fs + k → count_exact fs'.
Proof.
  intros Hx Ei Ef n Hn. rewrite Ei in Hn. unfold info_freed, count_exact in *. destruct (free_cluster_count (fs_info fs)) as [m|] eqn:E; [|congruence].
  injection Hn as <-. rewrite Ef. by rewrite (Hx m eq_refl).
Qed.

(** The clusters of [l] are freed, the others keep their entries. *)
Record Freed fs fs' (l : list Z) : Prop := {
  fr_kept : Kept (λ _, False) fs fs';
  fr_free x : x ∈ l → entry (fs_fat_type fs) (fs_table fs') x = Free;
  fr_count : free_now fs' = free_now fs + zlen l;
  fr_info : fs_info fs' = info_freed (fs_info fs) (zlen l);
  fr_exact : count_exact fs';
}.

(** From the slice of the tables to the volume. *)
Lemma freed_count fs f l : VolOk fs → NoDup l → (∀ x, x ∈ l → 2 ≤ x < fs_end fs) →
  (∀ x, x ∈ l → entry (fs_fat_type fs) (fs_table fs) x ≠ Free ∧ entry (fs_fat_type fs) f x = Free) →
  (∀ x, 2 ≤ x < fs_end fs → x ∉ l → entry_free (fs_fat_type fs) f x = entry_free (fs_fat_type fs) (fs_table fs) x) →
  num_free (fs_fat_type fs) f 2 (fs_end fs) = free_now fs + zlen l.
Proof.
  intros Hv Hnd Hin Hl Ho. apply num_free_list; [done| |done]. intros x Hx. split; [by apply Hin|]. destruct (Hl x Hx) as [Hu Hf].
  assert (in_table (fs_fat_type fs) (v_size (fs_slice fs)) x) as Ht by (apply fs_entries; [done|]; specialize (Hin x Hx); unfold fs_end in Hin; lia).
  split.
  - destruct (entry_free _ (fs_table fs) x) eqn:E; [|done]. by apply (entry_Free_iff _ _ _ _ Ht) in E.
  - by apply (entry_Free_iff _ _ _ _ Ht).
Qed.

(** The end of both operations: the information sector counts the clusters of [l]. *)
Lemma freed_volume fs d l : VolOk fs → count_exact fs → NoDup l → (∀ x, x ∈ l → 2 ≤ x < fs_end fs) →
  (∀ x, x ∈ l → entry (fs_fat_type fs) (fs_table fs) x ≠ Free ∧ entry (fs_fat_type fs) (v_byte d) x = Free) →
  (∀ x, 2 ≤ x < fs_end fs → x ∉ l → entry_free (fs_fat_type fs) (v_byte d) x = entry_free (fs_fat_type fs) (fs_table fs) x) →
  v_ok d → v_frame (fs_slice fs) d →
  map_free_clusters (fs_info (sl_inner d)) (λ n, add_u 32 n (zlen l)) = Ret (info_freed (fs_info fs) (zlen l)) ∧
  Freed fs (fs_set_info (sl_inner d) (info_freed (fs_info fs) (zlen l))) l ∧ fs_table (sl_inner d) = v_byte d.
Proof.
  intros Hv Hx Hnd Hin Hl Ho Hok Hfr. destruct (slice_kept fs d Hv Hok Hfr) as (HK & Hi & Htab & _).
  assert (free_now (sl_inner d) = free_now fs + zlen l) as Hcnt.
  { unfold free_now at 1, fs_end. rewrite Htab, (ke_type _ _ _ HK), (ke_total _ _ _ HK). by apply freed_count. }
  pose proof (free_now_range _ (ke_ok _ _ _ HK)) as Hr. rewrite (ke_total _ _ _ HK) in Hr. pose proof (zlen_nonneg l).
  split; [rewrite Hi; apply map_freed; done || lia|]. split; [|done].
  split; try done; [apply Kept_info; [done|]| |by eapply (exact_freed fs)].
  - unfold info_freed. destruct (free_cluster_count _); cbn; apply Hv.
  - intros x Hxl. change (fs_table (fs_set_info (sl_inner d) _)) with (fs_table (sl_inner d)). rewrite Htab. by apply Hl.
Qed.

Lemma free_cluster_chain_ok fs c l : VolOk fs → count_exact fs → fs_chain fs c l → ∃ fs',
  free_cluster_chain fs c = Ret (Ok tt, fs') ∧ Freed fs fs' l ∧
  (∀ x, 0 ≤ x < fs_end fs → x ∉ l → entry (fs_fat_type fs) (fs_table fs') x = entry (fs_fat_type fs) (fs_table fs) x).
Proof.
  intros Hv Hx Hch. destruct (chain_fuel_ok fs c l Hv Hch) as [Hfuel Hlen]. pose proof (total_small fs Hv). destruct Hch as [Hc Hin Hu].
  unfold free_cluster_chain, cluster_iter. destruct (fs_slice_ok fs Hv) as [-> Hok]. run. pose proof (fs_entries fs Hv) as Ht.
  assert (∀ x, x ∈ l → in_table (fs_fat_type fs) (v_size (fs_slice fs)) x) as Hlt by (intros x Hxl; specialize (Hin x Hxl); apply Ht; unfold fs_end in Hin; lia).
  destruct (ci_free_chain (fs_fat_type fs) (fs_slice fs) c l (chain_fuel fs) 0) as (d & E & [Hok' Hsz Hfr Hfree Hoth]); [done|done|done|done|lia|lia|].
  unfold ClusterIterator_new, iter_at in *. rewrite E. run. cbn [ci_fat]. rewrite Z.add_0_l.
  destruct (freed_volume fs d l) as (-> & HF & Htab); try done; [by eapply chain_NoDup|by intros x Hxl; auto| |].
  { intros x Hr Hn. unfold entry_free. rewrite Hoth; [done|apply Ht; unfold fs_end in Hr; lia|done]. }
  run. eexists. split; [done|]. split; [done|]. intros x Hxr Hn.
  change (fs_table (fs_set_info (sl_inner d) _)) with (fs_table (sl_inner d)). rewrite Htab. apply entry_raw_eq, Hoth; [by apply Ht|done].
Qed.

Lemma truncate_cluster_chain_ok fs c l : VolOk fs → count_exact fs → fs_chain fs c (c :: l) → ∃ fs',
  truncate_cluster_chain fs c = Ret (Ok tt, fs') ∧ Freed fs fs' l ∧ entry (fs_fat_type fs) (fs_table fs') c = EndOfChain ∧
  (∀ x, 0 ≤ x < fs_end fs → x ∉ c :: l → entry (fs_fat_type fs) (fs_table fs') x = entry (fs_fat_type fs) (fs_table fs) x).
Proof.
  intros Hv Hx Hch. destruct (chain_fuel_ok fs c _ Hv Hch) as [Hfuel Hlen]. pose proof (total_small fs Hv). destruct Hch as [Hc Hin Hu].
  rewrite zlen_cons in Hlen. cbn in Hfuel.
  unfold truncate_cluster_chain, cluster_iter. destruct (fs_slice_ok fs Hv) as [-> Hok]. run. pose proof (fs_entries fs Hv) as Ht.
  assert (∀ x, x ∈ c :: l → in_table (fs_fat_type fs) (v_size (fs_slice fs)) x) as Hlt by (intros x Hxl; specialize (Hin x Hxl); apply Ht; unfold fs_end in Hin; lia).
  destruct (ci_truncate_chain (fs_fat_type fs) (fs_slice fs) c l (chain_fuel fs)) as (d & E & Hok' & Hsz & Hfr & He & Hfree & Hoth); [done|done|done|lia|lia|].
  unfold ClusterIterator_new, iter_at in *. rewrite E. run. cbn [ci_fat]. pose proof (chain_NoDup _ _ _ _ Hc) as [Hnc Hnd]%NoDup_cons.
  destruct (freed_volume fs d l) as (-> & HF & Htab); try done.
  { intros x Hxl. apply Hin. by right. }
  { intros x Hxl. split; [|by apply Hfree]. apply Hu. by right. }
  { intros x Hr Hn. assert (in_table (fs_fat_type fs) (v_size (fs_slice fs)) x) as Hxt by (apply Ht; unfold fs_end in Hr; lia).
    destruct (decide (x = c)) as [->|Hne]; [|unfold entry_free; rewrite Hoth; [done|done|by apply not_elem_of_cons]].
    apply eq_true_iff_eq. rewrite <- !(entry_Free_iff _ _ _ _ Hxt), He. split; [done|]. intros Hf. exfalso. apply (Hu c); [left|done]. }
  run. eexists. split; [done|]. split; [done|]. change (fs_table (fs_set_info (sl_inner d) _)) with (fs_table (sl_inner d)). rewrite Htab.
  split; [done|]. intros x Hxr Hn. apply entry_raw_eq, Hoth; [by apply Ht|done].
Qed.

(** ** Counting *)

Lemma recalc_free_clusters_ok fs : VolOk fs → ∃ fs', recalc_free_clusters fs = Ret (Ok (free_now fs), fs') ∧
  Kept (λ _, False) fs fs' ∧ fs_info fs' = set_free_cluster_count (fs_info fs) (free_now fs) ∧ free_now fs' = free_now fs.
Proof.
  intros Hv. unfold recalc_free_clusters, on_fat. destruct (fs_slice_ok fs Hv) as [-> Hok]. run. pose proof (fs_entries fs Hv) as Ht.
  pose proof (total_small fs Hv). pose proof (vo_total fs Hv) as [? _].
  destruct (count_free_ok (fs_fat_type fs) (fs_slice fs) (fs_total_clusters fs)) as (d & -> & St); [done|lia| |intros c Hc; apply Ht; lia|lia|].
  { destruct (Ht 2 ltac:(lia)) as [_ H2]. etrans; [|exact H2]. destruct (fs_fat_type fs); cbn; lia. }
  run. destruct (Step_ok _ _ _ St) as (Hok' & Hsz & Hag). destruct (slice_kept fs d Hv Hok' (Step_frame _ _ _ St)) as (HK & Hi & Htab & _).
  assert (free_now (sl_inner d) = free_now fs) as Ef by (apply (free_now_agree _ _ _ HK Hv); by rewrite Htab).
  eexists. split; [done|]. rewrite Hi. split; [|done]. apply Kept_info; [done|]. cbn. apply Hv.
Qed.

Lemma stats_ok fs : VolOk fs → count_exact fs → ∃ fs', stats fs =
    Ret (Ok (mkStats (bytes_per_cluster fs) (fs_total_clusters fs) (free_now fs)), fs') ∧
  Kept (λ _, False) fs fs' ∧ count_exact fs'.
Proof.
  intros Hv Hx. unfold stats. destruct (free_cluster_count (fs_info fs)) as [n|] eqn:En.
  - run. destruct (fs_cluster_size_ok fs Hv) as [-> _]. run. exists fs. rewrite (Hx n En). split_and!; [done|by apply Kept_refl|done].
  - destruct (recalc_free_clusters_ok fs Hv) as (fs' & -> & HK & Hi & Ef). run. destruct (fs_cluster_size_ok fs' (ke_ok _ _ _ HK)) as [-> _]. run.
    rewrite (proj1 (proj2 (Kept_cluster _ _ _ 0 HK))), (ke_total _ _ _ HK). exists fs'. split_and!; [done|done|].
    intros n Hn. rewrite Hi in Hn. injection Hn as <-. done.
Qed.

(** ** A mounted volume as a state machine *)

Inductive vol_op :=
  | OpAlloc (prev : option Z) (zero : bool)
  | OpTruncate (cluster : Z)
  | OpFree (cluster : Z)
  | OpRecalc
  | OpStats.

Definition vol_exec fs (op : vol_op) : out (result Error unit * FileSystem S) :=
  let unit_ {A} (m : out (result Error A * FileSystem S)) := let? (_, fs) := m in Ret (Ok tt, fs) in
  match op with
  | OpAlloc prev zero => unit_ (fs_alloc_cluster fs prev zero)
  | OpTruncate c => truncate_cluster_chain fs c
  | OpFree c => free_cluster_chain fs c
  | OpRecalc => unit_ (recalc_free_clusters fs)
  | OpStats => unit_ (stats fs)
  end.

(** When files and directories call them: behind a cluster in use, and on their chains. *)
Definition vol_pre fs (op : vol_op) : Prop :=
  match op with
  | OpAlloc prev _ => prev_ok fs prev
  | OpTruncate c => ∃ l, fs_chain fs c (c :: l)
  | OpFree c => ∃ l, fs_chain fs c l
  | _ => True
  end.

Inductive vol_step fs : FileSystem S → Prop :=
  | vol_step_exec op r fs' : vol_pre fs op → vol_exec fs op = Ret (r, fs') → vol_step fs fs'.

(** The geometry is sensible, the cached count is true, the status byte shows the flags in
    memory, the copies of the table are alike. *)
Record VolInv fs : Prop := {
  vi_ok : VolOk fs;
  vi_count : count_exact fs;
  vi_synced : synced fs;
  vi_mirrored : mirrored (fs_slice fs);
}.

Lemma VolInv_kept R fs fs' : VolInv fs → Kept R fs fs' → count_exact fs' → VolInv fs'.
Proof. intros [] [] ?. split; auto. Qed.

Lemma exact_same fs fs' : count_exact fs → fs_info fs' = fs_info fs → free_now fs' = free_now fs → count_exact fs'.
Proof. unfold count_exact. intros Hx -> ->. done. Qed.

(** No cluster to be chosen: none is free. *)
Lemma no_choice fs : VolOk fs → fs_choice fs = None → free_now fs = 0.
Proof.
  intros Hv Hc. unfold free_now, num_free. pose proof (vo_total fs Hv).
  destruct (List.filter _ _) as [|x l] eqn:E; [done|]. exfalso.
  assert (In x (x :: l)) as Hx by (left; done). rewrite <- E in Hx. apply filter_In in Hx as [Hx Hf]. apply list_elem_of_In, elem_of_range in Hx.
  pose proof (alloc_choice_None (fs_fat_type fs) (fs_table fs) (next_free_cluster (fs_info fs)) (fs_total_clusters fs) x) as Hn.
  rewrite Hn in Hf; [done| |exact Hc|done]. apply alloc_start_range; [lia|apply Hv].
Qed.

(** Every operation returns, keeps the invariant, and fails only for want of a free
    cluster. *)
Lemma vol_exec_ok fs op : VolInv fs → vol_pre fs op → ∃ r fs' R, vol_exec fs op = Ret (r, fs') ∧ VolInv fs' ∧ Kept R fs fs' ∧
  (r = Ok tt ∨ r = Err NotEnoughSpace ∧ fs_choice fs = None).
Proof.
  intros Hi Hp. destruct (Hi) as [Hv Hx Hs Hm]. destruct op as [prev zero|c|c| |]; cbn [vol_exec vol_pre] in *.
  - destruct (fs_alloc_cluster_ok fs prev zero Hv Hp Hx) as (fs' & -> & H). destruct (fs_choice fs) as [c|] eqn:Ec.
    + destruct H as [[HK _ _ _ _] Hx']. run. do 3 eexists. split; [done|]. split; [by eapply VolInv_kept|]. by split; [|left].
    + destruct H as (HK & Hi' & Hf & _). run. do 3 eexists. split; [done|]. split; [|by split; [|right]].
      eapply VolInv_kept; [done..|by eapply exact_same].
  - destruct Hp as [l Hl]. destruct (truncate_cluster_chain_ok fs c l Hv Hx Hl) as (fs' & -> & [] & _). do 3 eexists. split; [done|]. split; [by eapply VolInv_kept|]. by split; [|left].
  - destruct Hp as [l Hl]. destruct (free_cluster_chain_ok fs c l Hv Hx Hl) as (fs' & -> & [] & _). do 3 eexists. split; [done|]. split; [by eapply VolInv_kept|]. by split; [|left].
  - destruct (recalc_free_clusters_ok fs Hv) as (fs' & -> & HK & Hi' & Hf). run. do 3 eexists. split; [done|]. split; [|by split; [|left]].
    eapply VolInv_kept; [done..|]. intros n Hn. rewrite Hi' in Hn. injection Hn as <-. done.
  - destruct (stats_ok fs Hv Hx) as (fs' & -> & HK & Hx'). run. do 3 eexists. split; [done|]. split; [by eapply VolInv_kept|]. by split; [|left].
Qed.

End Volumes.

Section Theorems.
Context {P : Profile} {S : Type} {ST : Storage S} {V : View S} {FS : FlatStorage S} {WW : WholeWrites S}.

(** [C6] A mounted volume stays consistent: whatever sequence of allocations, truncations,
    frees and counts runs on it, the cached number of free clusters is the number of free
    entries, the status byte on the disk shows the flags in memory, the copies of the
    allocation table are equal, and the next operation returns without a panic, failing
    only when no cluster is free. *)
Theorem volume_invariant (fs fs' : FileSystem S) (op : vol_op) (Hi : VolInv fs) (Hr : rtc vol_step fs fs') (Hp : vol_pre fs' op) :
  VolInv fs' ∧ fs_bpb fs' = fs_bpb fs ∧
  ∃ r fs'', vol_exec fs' op = Ret (r, fs'') ∧ VolInv fs'' ∧ (r = Ok tt ∨ r = Err NotEnoughSpace ∧ fs_choice fs' = None).
Proof.
  assert (VolInv fs' ∧ fs_bpb fs' = fs_bpb fs) as [Hi' Hb].
  { clear Hp. induction Hr as [fs|fs fs1 fs2 [o r fs1' Hp E] _ IH]; [done|].
    destruct (vol_exec_ok fs o Hi Hp) as (r' & fs3 & R & E' & Hi3 & HK & _). rewrite E in E'. injection E' as <- <-.
    destruct (IH Hi3) as [? ->]. split; [done|]. apply HK. }
  split_and!; [done..|]. destruct (vol_exec_ok fs' op Hi' Hp) as (r & fs'' & R & ? & ? & _ & ?). by exists r, fs''.
Qed.

(** [FileSystem::alloc_cluster]: the cluster is the first free one behind the hint, or the
    first free one of all; its entry becomes the end of the chain, that of the previous cluster
    points to it, no other entry changes; the cluster is zeroed when asked, and no other byte
    of the disk changes but the status byte and the tables; the hint and the cached count
    follow, and the volume is marked dirty in memory and on the disk. Without a free cluster
    the error is [NotEnoughSpace]. *)
Theorem volume_alloc_spec (fs : FileSystem S) (prev : option Z) (zero : bool)
    (Hi : VolInv fs) (Hp : prev_ok fs prev) :
  ∃ fs', fs_alloc_cluster fs prev zero = Ret (found (fs_choice fs), fs') ∧ VolInv fs' ∧
  match fs_choice fs with
  | Some c => FsAllocated fs fs' prev zero c
  | None => free_now fs = 0 ∧ ∀ c, 0 ≤ c < fs_end fs → entry (fs_fat_type fs) (fs_table fs') c = entry (fs_fat_type fs) (fs_table fs) c
  end.
Proof.
  destruct (Hi) as [Hv Hx _ _]. destruct (fs_alloc_cluster_ok fs prev zero Hv Hp Hx) as (fs' & -> & H). exists fs'. split; [done|].
  destruct (fs_choice fs) as [c|] eqn:Ec.
  - destruct H as [HA Hx']. split; [|done]. eapply VolInv_kept; [done|apply HA|done].
  - destruct H as (HK & Hi' & Hf & He). split; [eapply VolInv_kept; [done..|by eapply exact_same]|]. split; [|done].
    by apply no_choice.
Qed.

End Theorems.

(** ** Examples: operations on the formatted floppy disk *)

Section Examples.
Local Existing Instance dev.
Local Existing Instance Reference.bitflags.

(** The volume that [mounted] gives; [unmounted] stands for an error. *)
Definition unmounted : FileSystem SparseIO :=
  mkFs blank false Fat12 Bpb_default 34 32 29 FsInfoSector_default (mkFlags false false).
Definition volume_of (r : out (result Error (FileSystem SparseIO))) : FileSystem SparseIO :=
  match r with Ret (Ok fs) => fs | _ => unmounted end.
Definition demo : FileSystem SparseIO := Eval vm_compute in volume_of mounted.

Example demo_mounted : volume_of mounted = demo.
Proof. vm_compute. reflexivity. Qed.

Lemma demo_ok : VolOk demo.
Proof.
  split.
  1: { split_and!; [apply sparse_ok; vm_compute; reflexivity|done|vm_compute; reflexivity]. }
  all: vm_compute; (split; discriminate) || discriminate || reflexivity.
Qed.

Lemma demo_invariant : VolInv demo.
Proof.
  split; [exact demo_ok|vm_compute; discriminate|vm_compute; reflexivity|].
  intros k r Hk Hr. assert (sl_mirrors (fs_slice demo) = 2 ∧ sl_size (fs_slice demo) = 512) as [E1 E2] by (vm_compute; done).
  rewrite E1, E2 in *.
  assert (forallb (λ k, forallb (λ r, v_byte (sl_inner (fs_slice demo)) (sl_begin (fs_slice demo) + k * 512 + r) =?
    v_byte (sl_inner (fs_slice demo)) (sl_begin (fs_slice demo) + r)) (range 0 512)) (range 0 2) = true) as Hall by (vm_compute; reflexivity).
  rewrite forallb_forall in Hall. specialize (Hall k). rewrite forallb_forall in Hall. apply Z.eqb_eq, Hall; apply list_elem_of_In, elem_of_range; lia.
Qed.

Lemma demo_choice : fs_choice demo = Some 2.
Proof. vm_compute. reflexivity. Qed.

Lemma volume_alloc_spec_witness :
  ∃ fs', fs_alloc_cluster demo None true = Ret (Ok 2, fs') ∧ VolInv fs' ∧ FsAllocated demo fs' None true 2.
Proof.
  pose proof (volume_alloc_spec demo None true demo_invariant) as W. rewrite demo_choice in W. apply W. intros p. discriminate.
Defined.

Lemma volume_invariant_witness :
  ∃ fs1, vol_exec demo (OpAlloc None true) = Ret (Ok tt, fs1) ∧ VolInv fs1 ∧ fs_bpb fs1 = fs_bpb demo ∧
  ∃ r fs2, vol_exec fs1 OpStats = Ret (r, fs2) ∧ VolInv fs2 ∧ (r = Ok tt ∨ r = Err NotEnoughSpace ∧ fs_choice fs1 = None).
Proof.
  destruct (vol_exec_ok demo (OpAlloc None true) demo_invariant) as (r & fs1 & R & E & _ & _ & H); [intros p; discriminate|].
  assert (r = Ok tt) as -> by (destruct H as [?|[_ H]]; [done|by rewrite demo_choice in H]).
  exists fs1. split; [done|]. apply (volume_invariant demo fs1 OpStats); [exact demo_invariant| |exact I].
  apply rtc_once. apply (vol_step_exec demo (OpAlloc None true) (Ok tt)); [intros p; discriminate|done].
Defined.

End Examples.
