(* ===== verification/FatFile.v ===== *)
(** * FAT crate: files

    [kernel/crates/good-fatfs/src/file.rs] with the part of the entry editor of
    [dir_entry.rs] that writes to the disk. A file holds a reference to the volume: here
    the volume is a field, which every operation returns.

    The theorems: a file is an array of bytes with a position. Reading, writing, seeking
    and truncating act on it as they do on an array, through the chain of clusters. *)

From S2P Require Import Prelude Crates BlockCache FatIo FatTable FatTime FatEntry FatBoot FatFs FatVolume.

Definition MAX_FILE_SIZE : Z := 2 ^ 32 - 1.

Record File (S : Type) := mkFile {
  f_first_cluster : option Z;
  f_current_cluster : option Z;
  f_offset : Z;
  f_entry : option DirEntryEditor;
  f_fs : FileSystem S;
}.
Arguments mkFile {S} _ _ _ _ _.
Arguments f_first_cluster {S} _.
Arguments f_current_cluster {S} _.
Arguments f_offset {S} _.
Arguments f_entry {S} _.
Arguments f_fs {S} _.

Record Extent := mkExtent { ext_offset : Z; ext_size : Z }.

(** [u32::try_from] of the sum, which an [i64] must hold ([checked_add]). *)
Definition checked_u32 (base x : Z) : option Z :=
  let n := base + x in
  if (- 2 ^ 63 <=? n) && (n <? 2 ^ 63) && (0 <=? n) && (n <? 2 ^ 32) then Some n else None.

Section Files.
Context {P : Profile} {BF : Bitflags} {TP : TimeProvider} {S : Type} {ST : Storage S}.
Implicit Types self : File S.

(** ** The editor's write to the disk *)

Definition ed_write (self : DirEntryEditor) (fs : FileSystem S) : out (result Error unit * FileSystem S) :=
  let? (_, fs) := on_disk fs (st_seek (fs_disk fs) (SeekStart (ed_pos self))) in
  on_disk fs (file_serialize (ed_data self) (fs_disk fs)).

Definition ed_flush (self : DirEntryEditor) (fs : FileSystem S) :
    out (result Error unit * (DirEntryEditor * FileSystem S)) :=
  if ed_dirty self then
    '(r, fs) ← ed_write self fs;
    match r with
    | Ok _ => Ret (Ok tt, (mkEditor (ed_data self) (ed_pos self) false, fs))
    | Err e => Ret (Err e, (self, fs))
    end
  else Ret (Ok tt, (self, fs)).

(** ** Fields *)

Definition File_new (first_cluster : option Z) (entry : option DirEntryEditor) (fs : FileSystem S) : File S :=
  mkFile first_cluster None 0 entry fs.

Definition f_set_fs self (fs : FileSystem S) : File S :=
  mkFile (f_first_cluster self) (f_current_cluster self) (f_offset self) (f_entry self) fs.
Definition f_set_entry self (entry : option DirEntryEditor) : File S :=
  mkFile (f_first_cluster self) (f_current_cluster self) (f_offset self) entry (f_fs self).
Definition f_set_pos self (current_cluster : option Z) (offset : Z) : File S :=
  mkFile (f_first_cluster self) current_cluster offset (f_entry self) (f_fs self).
Definition f_set_first self (first_cluster : option Z) : File S :=
  mkFile first_cluster (f_current_cluster self) (f_offset self) (f_entry self) (f_fs self).

(** An operation of [self.fs]. *)
Definition on_fs {A} self (m : out (result Error A * FileSystem S)) : out (result Error A * File S) :=
  '(r, fs) ← m; Ret (r, f_set_fs self fs).

Definition File_size self : option Z :=
  match f_entry self with Some e => size (ed_data e) | None => None end.

Definition File_is_dir self : bool :=
  match f_entry self with Some e => is_dir (ed_data e) | None => false end.

Definition bytes_left_in_file self : out (option Z) :=
  match File_size self with
  | Some s => n ← sub_u 32 s (f_offset self); Ret (Some n)
  | None => Ret None
  end.

Definition File_set_first_cluster self (cluster : Z) : File S :=
  let self := f_set_first self (Some cluster) in
  match f_entry self with
  | Some e => f_set_entry self (Some (ed_set_first_cluster e (f_first_cluster self) (fs_fat_type (f_fs self))))
  | None => self
  end.

Definition File_abs_pos self : out (option Z) :=
  match f_current_cluster self with
  | Some n =>
      cluster_size ← fs_cluster_size (f_fs self);
      offset_mod_cluster_size ← rem_u (f_offset self) cluster_size;
      let offset_in_cluster := if offset_mod_cluster_size =? 0 then cluster_size else offset_mod_cluster_size in
      x ← offset_from_cluster (f_fs self) n;
      offset_in_fs ← add_u 64 x offset_in_cluster;
      Ret (Some offset_in_fs)
  | None => Ret None
  end.

(** ** Dates *)

Definition on_entry self (f : DirEntryEditor → out DirEntryEditor) : out (File S) :=
  match f_entry self with
  | Some e => e ← f e; Ret (f_set_entry self (Some e))
  | None => Ret self
  end.

Definition File_set_created self (date_time : DateTime) : out (File S) := on_entry self (λ e, ed_set_created e date_time).
Definition File_set_accessed self (date : Date) : out (File S) := on_entry self (λ e, ed_set_accessed e date).
Definition File_set_modified self (date_time : DateTime) : out (File S) := on_entry self (λ e, ed_set_modified e date_time).

Definition update_dir_entry_after_write self : out (File S) :=
  let offset := f_offset self in
  on_entry self (λ e,
    e ← ed_set_modified e get_current_date_time;
    Ret (match size (ed_data e) with
         | Some s => if s <? offset then ed_set_size e offset else e
         | None => e
         end)).

(** ** Flushing and dropping *)

Definition flush_dir_entry self : out (result Error unit * File S) :=
  match f_entry self with
  | Some e =>
      '(r, (e, fs)) ← ed_flush e (f_fs self);
      Ret (r, f_set_fs (f_set_entry self (Some e)) fs)
  | None => Ret (Ok tt, self)
  end.

Definition File_flush self : out (result Error unit * File S) :=
  let? (_, self) := flush_dir_entry self in
  on_fs self (on_disk (f_fs self) (st_flush (fs_disk (f_fs self)))).

(** [drop]: what is left is the volume. An error is logged. *)
Definition File_drop self : out (FileSystem S) :=
  '(_, self) ← File_flush self;
  Ret (f_fs self).

(** ** Truncating *)

Definition truncate self : out (result Error unit * File S) :=
  match f_entry self with
  | Some e =>
      let e := ed_set_size e (f_offset self) in
      let e := if f_offset self =? 0 then ed_set_first_cluster e None (fs_fat_type (f_fs self)) else e in
      let self := f_set_entry self (Some e) in
      match f_current_cluster self with
      | Some current_cluster =>
          _ ← debug_assert (0 <? f_offset self);
          on_fs self (truncate_cluster_chain (f_fs self) current_cluster)
      | None =>
          _ ← debug_assert (f_offset self =? 0);
          match f_first_cluster self with
          | Some n =>
              let? (_, self) := on_fs self (free_cluster_chain (f_fs self) n) in
              Ret (Ok tt, f_set_first self None)
          | None => Ret (Ok tt, self)
          end
      end
  | None => Panic
  end.

(** ** Reading *)

(** [self.fs.cluster_iter(n).next()], transposed. *)
Definition next_of self (n : Z) : out (result Error (option Z) * File S) :=
  iter ← cluster_iter (f_fs self) n;
  '(r, iter) ← ci_next iter;
  let self := f_set_fs self (sl_inner (ci_fat iter)) in
  match r with
  | Some (Err err) => Ret (Err err, self)
  | Some (Ok n) => Ret (Ok (Some n), self)
  | None => Ret (Ok None, self)
  end.

(** The cluster behind a position between clusters. *)
Definition next_cluster_of self : out (result Error (option Z) * File S) :=
  match f_current_cluster self with
  | None => Ret (Ok (f_first_cluster self), self)
  | Some n => next_of self n
  end.

Definition File_read self (buf : list Z) : out (result Error (Z * list Z) * File S) :=
  cluster_size ← fs_cluster_size (f_fs self);
  offset_in_cluster ← rem_u (f_offset self) cluster_size;
  let? (current_cluster_opt, self) :=
    (if offset_in_cluster =? 0 then next_cluster_of self
     else Ret (Ok (f_current_cluster self), self)) in
  match current_cluster_opt with
  | None => Ret (Ok (0, buf), self)
  | Some current_cluster =>
      bytes_left_in_cluster ← sub_u 32 cluster_size offset_in_cluster;
      left ← bytes_left_in_file self;
      let bytes_left_in_file := default bytes_left_in_cluster left in
      let read_size := Z.min (Z.min (zlen buf) bytes_left_in_cluster) bytes_left_in_file in
      if read_size =? 0 then Ret (Ok (0, buf), self)
      else
        x ← offset_from_cluster (f_fs self) current_cluster;
        offset_in_fs ← add_u 64 x offset_in_cluster;
        let? (_, self) := on_fs self (on_disk (f_fs self) (st_seek (fs_disk (f_fs self)) (SeekStart offset_in_fs))) in
        window ← slice buf 0 read_size;
        let? (r, self) := on_fs self (on_disk (f_fs self) (st_read (fs_disk (f_fs self)) window)) in
        let '(read_bytes, window) := r in
        let buf := splice buf 0 window in
        if read_bytes =? 0 then Ret (Ok (0, buf), self)
        else
          offset ← add_u 32 (f_offset self) (wrap 32 read_bytes);
          let self := f_set_pos self (Some current_cluster) offset in
          self ← (if fs_update_accessed_date (f_fs self) then File_set_accessed self get_current_date else Ret self);
          Ret (Ok (read_bytes, buf), self)
  end.

(** ** Writing *)

(** The cluster to write to, a new one at the end of the chain. *)
Definition cluster_for_write self (offset_in_cluster : Z) : out (result Error Z * File S) :=
  if offset_in_cluster =? 0 then
    let? (next_cluster, self) := next_cluster_of self in
    match next_cluster with
    | Some n => Ret (Ok n, self)
    | None =>
        let? (new_cluster, self) := on_fs self (fs_alloc_cluster (f_fs self) (f_current_cluster self) (File_is_dir self)) in
        let self := match f_first_cluster self with None => File_set_first_cluster self new_cluster | Some _ => self end in
        Ret (Ok new_cluster, self)
    end
  else
    n ← unwrap (f_current_cluster self);
    Ret (Ok n, self).

Definition File_write self (buf : list Z) : out (result Error Z * File S) :=
  cluster_size ← fs_cluster_size (f_fs self);
  offset_in_cluster ← rem_u (f_offset self) cluster_size;
  bytes_left_in_cluster ← sub_u 32 cluster_size offset_in_cluster;
  bytes_left_until_max_file_size ← sub_u 32 MAX_FILE_SIZE (f_offset self);
  let write_size := Z.min (zlen buf) bytes_left_in_cluster in
  let write_size := Z.min write_size bytes_left_until_max_file_size in
  if write_size =? 0 then Ret (Ok 0, self)
  else
    let? (_, self) := on_fs self (set_dirty_flag (f_fs self) true) in
    let? (current_cluster, self) := cluster_for_write self offset_in_cluster in
    x ← offset_from_cluster (f_fs self) current_cluster;
    offset_in_fs ← add_u 64 x offset_in_cluster;
    let? (_, self) := on_fs self (on_disk (f_fs self) (st_seek (fs_disk (f_fs self)) (SeekStart offset_in_fs))) in
    window ← slice buf 0 write_size;
    let? (written_bytes, self) := on_fs self (on_disk (f_fs self) (st_write (fs_disk (f_fs self)) window)) in
    if written_bytes =? 0 then Ret (Ok 0, self)
    else
      offset ← add_u 32 (f_offset self) (wrap 32 written_bytes);
      let self := f_set_pos self (Some current_cluster) offset in
      self ← update_dir_entry_after_write self;
      Ret (Ok written_bytes, self).

(** ** Seeking *)

(** The clusters to skip; when the chain ends before, the position becomes its end. *)
Fixpoint seek_loop (l : list Z) (iter : ClusterIterator (DiskSlice (FileSystem S))) (cluster new_offset : Z) :
    out (result Error (Z * Z) * ClusterIterator (DiskSlice (FileSystem S))) :=
  match l with
  | [] => Ret (Ok (cluster, new_offset), iter)
  | i :: l =>
      '(r, iter) ← ci_next iter;
      match r with
      | Some (Ok cluster) => seek_loop l iter cluster new_offset
      | Some (Err e) => Ret (Err e, iter)
      | None =>
          k ← add_u 32 i 1;
          new_offset ← bytes_from_clusters (sl_inner (ci_fat iter)) k;
          Ret (Ok (cluster, wrap 32 new_offset), iter)
      end
  end.

Definition new_position self (pos : SeekFrom) : result Error Z :=
  let size_opt := File_size self in
  let new_offset_opt := match pos with
    | SeekCurrent x => checked_u32 (f_offset self) x
    | SeekStart x => if x <? 2 ^ 32 then Some x else None
    | SeekEnd o => match size_opt with Some s => checked_u32 s o | None => None end
    end in
  match new_offset_opt with
  | None => Err InvalidInput
  | Some new_offset =>
      Ok (match size_opt with
          | Some size => if size <? new_offset then size else new_offset
          | None => new_offset
          end)
  end.

Definition File_seek self (pos : SeekFrom) : out (result Error Z * File S) :=
  match new_position self pos with
  | Err e => Ret (Err e, self)
  | Ok new_offset =>
      if new_offset =? f_offset self then Ret (Ok (f_offset self), self)
      else
        new_offset_in_clusters ← fs_clusters_from_bytes (f_fs self) new_offset;
        old_offset_in_clusters ← fs_clusters_from_bytes (f_fs self) (f_offset self);
        let? (r, self) :=
          (if new_offset =? 0 then Ret (Ok (None, new_offset), self)
           else if new_offset_in_clusters =? old_offset_in_clusters then Ret (Ok (f_current_cluster self, new_offset), self)
           else match f_first_cluster self with
           | Some first_cluster =>
               _ ← debug_assert (0 <? new_offset_in_clusters);
               clusters_to_skip ← sub_u 32 new_offset_in_clusters 1;
               iter ← cluster_iter (f_fs self) first_cluster;
               '(r, iter) ← seek_loop (range 0 clusters_to_skip) iter first_cluster new_offset;
               let self := f_set_fs self (sl_inner (ci_fat iter)) in
               match r with
               | Ok (cluster, new_offset) => Ret (Ok (Some cluster, new_offset), self)
               | Err e => Ret (Err e, self)
               end
           | None => Ret (Ok (None, 0), self)
           end) in
        let '(new_cluster, new_offset) := r in
        let self := f_set_pos self new_cluster new_offset in
        Ret (Ok (f_offset self), self)
  end.

#[export] Instance file_storage : Storage (File S) := {|
  st_read := File_read;
  st_write := File_write;
  st_seek := File_seek;
  st_flush := File_flush;
  unexpected_eof := UnexpectedEof;
  write_zero := WriteZero;
|}.

(** ** Extents *)

Fixpoint extents_loop (fuel : nat) (iter : ClusterIterator (DiskSlice (FileSystem S))) (cluster_size bytes_left : Z)
    (cluster : result Error Z) : out (list (result Error Extent) * ClusterIterator (DiskSlice (FileSystem S))) :=
  '(x, bytes_left) ←
    match cluster with
    | Ok cluster =>
        let size := Z.min cluster_size bytes_left in
        bytes_left ← sub_u 32 bytes_left size;
        offset ← offset_from_cluster (sl_inner (ci_fat iter)) cluster;
        Ret (Ok (mkExtent offset size), bytes_left)
    | Err e => Ret (Err e, bytes_left)
    end;
  match fuel with
  | O => Ret ([x], iter)
  | Datatypes.S fuel =>
      '(r, iter) ← ci_next iter;
      match r with
      | Some c => '(l, iter) ← extents_loop fuel iter cluster_size bytes_left c; Ret (x :: l, iter)
      | None => Ret ([x], iter)
      end
  end.

(** All that the iterator gives. *)
Definition extents self : out (list (result Error Extent) * File S) :=
  cluster_size ← fs_cluster_size (f_fs self);
  match File_size self, f_first_cluster self with
  | Some bytes_left, Some first =>
      iter ← cluster_iter (f_fs self) first;
      '(l, iter) ← extents_loop (chain_fuel (f_fs self)) iter cluster_size bytes_left (Ok first);
      Ret (l, f_set_fs self (sl_inner (ci_fat iter)))
  | _, _ => Ret ([], self)
  end.

End Files.

(** ** Chains by position *)

Section Chains.
Context (t : FatType).
Implicit Types f g : Z → Z.

Lemma chain_head f c l : chain t f c l → l !! 0%nat = Some c.
Proof. by destruct 1. Qed.

Lemma chain_next f c l k x : chain t f c l → l !! k = Some x →
  match l !! Datatypes.S k with Some y => entry t f x = Data y | None => ∀ n, entry t f x ≠ Data n end.
Proof.
  intros H. revert k x. induction H as [c H|c n l H H1 IH]; intros [|k] x; cbn.
  - by intros [= <-].
  - done.
  - intros [= <-]. by destruct H1.
  - apply IH.
Qed.

Lemma chain_drop f c l k x : chain t f c l → l !! k = Some x → chain t f x (drop k l).
Proof.
  intros H. revert k x. induction H as [c H|c n l H H1 IH]; intros [|k] x; cbn; try done.
  - intros [= <-]. by constructor.
  - intros [= <-]. by econstructor.
  - apply IH.
Qed.

Lemma chain_snoc f g c l p n : chain t f c l → last l = Some p → (∀ x, x ∈ l → x ≠ p → entry t g x = entry t f x) →
  entry t g p = Data n → (∀ m, entry t g n ≠ Data m) → chain t g c (l ++ [n]).
Proof.
  intros H. pose proof (chain_NoDup _ _ _ _ H) as Hnd. induction H as [c H|c m l H H1 IH]; intros Hl Ho Hp Hn.
  - injection Hl as <-. eapply chain_link; [done|by constructor].
  - apply NoDup_cons in Hnd as [Hc Hnd]. assert (last l = Some p) as Hl' by (by destruct H1).
    eapply chain_link; [|apply IH; try done; intros x Hx; apply Ho; by right].
    rewrite <- H. apply Ho; [left|]. intros ->. apply Hc. by apply last_Some_elem_of.
Qed.

Lemma chain_cut f g c l k x : chain t f c l → l !! k = Some x → (∀ y, y ∈ take k l → entry t g y = entry t f y) →
  (∀ n, entry t g x ≠ Data n) → chain t g c (take (Datatypes.S k) l).
Proof.
  intros H. revert k. induction H as [c H|c n l H H1 IH]; intros [|k] Hk Ho Hx; cbn in *; try done.
  - injection Hk as ->. by constructor.
  - injection Hk as ->. by constructor.
  - eapply chain_link; [rewrite Ho; [done|left]|]. apply IH; [done| |done]. intros y Hy. apply Ho. by right.
Qed.

End Chains.

(** ** The bytes of a chain *)

Section FileProofs.
Context {P : Profile} {BF : Bitflags} {TP : TimeProvider}.
Context {S : Type} {ST : Storage S} {V : View S} {FS : FlatStorage S} {WW : WholeWrites S}.
Implicit Types (fs : FileSystem S) (self : File S) (l : list Z).

Abbreviation nth_cluster l k := (default 0 (l !! Z.to_nat k)).

(** Where byte [i] of the chain [l] is, and the byte. *)
Definition chain_pos fs l (i : Z) : Z :=
  cluster_at fs (nth_cluster l (i / bytes_per_cluster fs)) + i mod bytes_per_cluster fs.
Definition chain_byte fs l (i : Z) : Z := v_byte (fs_disk fs) (chain_pos fs l i).
Definition chain_bytes fs l : Z := zlen l * bytes_per_cluster fs.

Lemma nth_cluster_in l k : 0 ≤ k < zlen l → l !! Z.to_nat k = Some (nth_cluster l k) ∧ nth_cluster l k ∈ l.
Proof.
  intros Hk. destruct (lookup_lt_is_Some_2 l (Z.to_nat k)) as [x E]; [unfold zlen in Hk; lia|].
  rewrite E. split; [done|]. by apply list_elem_of_lookup_2 in E.
Qed.

Lemma chain_index fs l i : VolOk fs → 0 ≤ i < chain_bytes fs l → 0 ≤ i / bytes_per_cluster fs < zlen l.
Proof.
  intros Hv Hi. destruct (fs_cluster_size_ok fs Hv) as [_ Hc]. unfold chain_bytes in Hi.
  split; [apply Z.div_pos; lia|]. apply Z.div_lt_upper_bound; lia.
Qed.

(** Clusters do not overlap each other, the tables or the status byte. *)
Lemma clusters_disjoint fs c c' j : VolOk fs → in_cluster fs c j → in_cluster fs c' j → c = c'.
Proof.
  intros Hv. destruct (fs_cluster_size_ok fs Hv) as [_ Hc]. unfold in_cluster, cluster_at, bytes_per_cluster in *.
  set (bps := b_bytes_per_sector (fs_bpb fs)) in *. set (spc := b_sectors_per_cluster (fs_bpb fs)) in *.
  intros H1 H2. assert (∀ a b, a < b → (a - 2) * (spc * bps) + spc * bps ≤ (b - 2) * (spc * bps)) as Hm.
  { intros a b Hab. assert ((a - 1) * (spc * bps) ≤ (b - 2) * (spc * bps)) by (apply Z.mul_le_mono_nonneg_r; lia). lia. }
  destruct (Z.lt_trichotomy c c') as [Hl|[?|Hl]]; [|done|]; exfalso; specialize (Hm _ _ Hl); lia.
Qed.

Lemma cluster_in_data fs c j : VolOk fs → 2 ≤ c < fs_end fs → in_cluster fs c j →
  0 ≤ j < v_size (fs_disk fs) ∧ j ≠ status_offset fs ∧ ¬ covered (fs_slice fs) j.
Proof.
  intros Hv Hc Hj. destruct (offset_from_cluster_ok fs c Hv Hc) as (_ & Hlo & Hhi). unfold in_cluster in Hj.
  pose proof (vol_products fs Hv) as (_ & _ & H3 & H4 & _ & _ & H7). pose proof (status_offset_range fs). pose proof (vo_copies fs Hv).
  assert (0 ≤ fat_copies fs * fat_bytes fs) by (apply Z.mul_nonneg_nonneg; lia). split_and!; [lia|lia|lia|].
  unfold covered. cbn. lia.
Qed.

Lemma chain_pos_in fs l i : VolOk fs → 0 ≤ i < chain_bytes fs l →
  in_cluster fs (nth_cluster l (i / bytes_per_cluster fs)) (chain_pos fs l i).
Proof.
  intros Hv Hi. destruct (fs_cluster_size_ok fs Hv) as [_ Hc]. unfold in_cluster, chain_pos.
  pose proof (Z.mod_pos_bound i (bytes_per_cluster fs)). lia.
Qed.

Lemma Kept_pos R fs fs' l i : Kept R fs fs' → chain_pos fs' l i = chain_pos fs l i ∧ chain_bytes fs' l = chain_bytes fs l.
Proof.
  intros HK. unfold chain_pos, chain_bytes. destruct (Kept_cluster _ _ _ 0 HK) as (_ & E & _). rewrite E.
  by destruct (Kept_cluster _ _ _ (nth_cluster l (i / bytes_per_cluster fs)) HK) as (-> & _).
Qed.

(** What an operation that leaves the clusters of [l] alone does to its bytes. *)
Lemma chain_byte_kept (R : Z → Prop) fs fs' l i : Kept R fs fs' → VolOk fs → (∀ x, x ∈ l → 2 ≤ x < fs_end fs) →
  (∀ x j, x ∈ l → in_cluster fs x j → ¬ R j) → 0 ≤ i < chain_bytes fs l → chain_byte fs' l i = chain_byte fs l i.
Proof.
  intros HK Hv Hin HR Hi. unfold chain_byte. destruct (Kept_pos R fs fs' l i HK) as [-> _].
  destruct (nth_cluster_in l (i / bytes_per_cluster fs) (chain_index fs l i Hv Hi)) as [_ Hx].
  pose proof (chain_pos_in fs l i Hv Hi) as Hj. destruct (cluster_in_data fs _ _ Hv (Hin _ Hx) Hj) as (H1 & H2 & H3).
  apply (ke_rest _ _ _ HK); try done. by eapply HR.
Qed.

(** The table and the information sector are the same. *)
Record Quiet fs fs' : Prop := {
  q_kept : Kept (λ _, False) fs fs';
  q_table : agree (fat_bytes fs) (fs_table fs') (fs_table fs);
  q_info : fs_info fs' = fs_info fs;
  q_status : fs_status fs' = marked fs ∨ fs_status fs' = fs_status fs;
}.

Lemma Kept_marked R fs fs' : Kept R fs fs' → marked fs' = marked fs.
Proof. intros HK. unfold marked. by rewrite (ke_bpb _ _ _ HK). Qed.

Lemma Quiet_refl fs : VolOk fs → Quiet fs fs.
Proof. intros Hv. split; [by apply Kept_refl|done|done|by right]. Qed.

Lemma Quiet_entry fs fs' c : VolOk fs → Quiet fs fs' → 0 ≤ c < fs_end fs →
  entry (fs_fat_type fs) (fs_table fs') c = entry (fs_fat_type fs) (fs_table fs) c.
Proof. intros Hv [HK Ha _ _] Hc. apply table_agree; try done. apply HK. Qed.

Lemma Quiet_free fs fs' : VolOk fs → Quiet fs fs' → free_now fs' = free_now fs.
Proof. intros Hv [HK Ha _ _]. by eapply free_now_agree. Qed.

Lemma Quiet_inv fs fs' : VolInv fs → Quiet fs fs' → VolInv fs'.
Proof.
  intros Hi HQ. destruct (Hi) as [Hv Hx _ _]. eapply VolInv_kept; [done|apply HQ|].
  eapply exact_same; [done|apply HQ|by apply Quiet_free].
Qed.

(** A chain whose entries are the same. *)
Lemma fs_chain_same R fs fs' c l : Kept R fs fs' → fs_chain fs c l →
  (∀ x, x ∈ l → entry (fs_fat_type fs) (fs_table fs') x = entry (fs_fat_type fs) (fs_table fs) x) → fs_chain fs' c l.
Proof.
  intros HK [Hc Hin Hu] He. destruct (Kept_cluster _ _ _ 0 HK) as (_ & _ & Ee). pose proof (ke_type _ _ _ HK) as Et.
  split; rewrite ?Et.
  - by eapply chain_ext.
  - intros x Hx. rewrite Ee. auto.
  - intros x Hx. rewrite He by done. auto.
Qed.

Lemma Quiet_chain fs fs' c l : VolOk fs → Quiet fs fs' → fs_chain fs c l → fs_chain fs' c l.
Proof.
  intros Hv HQ Hc. eapply fs_chain_same; [apply HQ|done|]. intros x Hx. apply Quiet_entry; try done.
  pose proof (ch_in _ _ _ Hc x Hx). lia.
Qed.

(** Reading the next entry of the table. *)
Lemma next_of_ok self l c k n : VolOk (f_fs self) → fs_chain (f_fs self) c l → l !! k = Some n →
  ∃ fs', next_of self n = Ret (Ok (l !! Datatypes.S k), f_set_fs self fs') ∧ Quiet (f_fs self) fs'.
Proof.
  intros Hv [Hc Hin Hu] Hk. unfold next_of, cluster_iter. destruct (fs_slice_ok _ Hv) as [-> Hok]. run.
  set (fs := f_fs self) in *. assert (2 ≤ n < fs_end fs) as Hn by (apply Hin; by apply list_elem_of_lookup_2 in Hk).
  destruct (ci_next_ok (fs_fat_type fs) (fs_slice fs) n) as (d & E & St); [done|apply fs_entries; [done|unfold fs_end in Hn; lia]|].
  unfold ClusterIterator_new, iter_at in *. rewrite E. run. cbn [ci_fat].
  destruct (Step_ok _ _ _ St) as (Hok' & Hsz & Hag). destruct (slice_kept fs d Hv Hok' (Step_frame _ _ _ St)) as (HK & Hi & Htab & Hst).
  exists (sl_inner d). split; [|split; [done|by rewrite Htab|done|by destruct Hst as [?|[? _]]; [left|right]]].
  pose proof (chain_next _ _ _ _ _ _ Hc Hk) as Hnext. unfold fs_table in Hnext. destruct (l !! Datatypes.S k) as [y|].
  - rewrite Hnext. done.
  - destruct (entry (fs_fat_type fs) (v_byte (fs_slice fs)) n) as [|m| |] eqn:En; try done. by destruct (Hnext m).
Qed.

(** Marking the volume. *)
Lemma mark_quiet fs : VolOk fs → ∃ fs', set_dirty_flag fs true = Ret (Ok tt, fs') ∧ Quiet fs fs' ∧ fs_status fs' = marked fs.
Proof.
  intros Hv. destruct (set_dirty_flag_ok fs (vo_ok fs Hv)) as (fs' & E & Hok & Hsv & Hs & Hf & Hst & Hsy & Hb). exists fs'. split; [done|].
  destruct (same_volume_fields _ _ Hsv) as (Eb & Et & Ei & En & Ef & Eo).
  pose proof (vol_products fs Hv) as (_ & _ & H3 & H4 & _ & _ & H7). pose proof (status_offset_range fs). pose proof (vo_copies fs Hv).
  destruct (slice_same fs fs' Eb) as (F1 & F2 & F3 & F4).
  assert (∀ k r, 0 ≤ k < fat_copies fs → 0 ≤ r < fat_bytes fs →
    v_byte (fs_disk fs') (fat_begin fs + k * fat_bytes fs + r) = v_byte (fs_disk fs) (fat_begin fs + k * fat_bytes fs + r)) as Hcopy.
  { intros k r Hk Hr. assert ((k + 1) * fat_bytes fs ≤ fat_copies fs * fat_bytes fs) by (apply Z.mul_le_mono_nonneg_r; lia).
    assert (0 ≤ k * fat_bytes fs) by (apply Z.mul_nonneg_nonneg; lia). apply Hb; lia. }
  split; [|done]. split; [|intros i Hi; unfold fs_table; rewrite F4; cbn; specialize (Hcopy 0 i ltac:(lia) Hi); by rewrite Z.mul_0_l, Z.add_0_r in Hcopy|done|by left].
  split; try done; [|unfold same_volume in Hsv; by rewrite Hsv| |].
  - apply (VolOk_fields fs); try done. rewrite Ei. apply Hv.
  - rewrite F4. unfold mirrored. cbn. intros Hm k r Hk Hr. rewrite Hcopy by done. specialize (Hcopy 0 r ltac:(lia) Hr).
    rewrite Z.mul_0_l, Z.add_0_r in Hcopy. rewrite Hcopy. by apply Hm.
  - intros j Hj Hs' _ _. by apply Hb.
Qed.

(** ** A file over a chain

    The chain, the position with the cluster it is in or behind, the size and the first
    cluster in the directory entry fit together. *)

Record FileOk self l : Prop := {
  fo_vol : VolInv (f_fs self);
  fo_chain : match f_first_cluster self with Some c => fs_chain (f_fs self) c l | None => l = [] end;
  fo_offset : 0 ≤ f_offset self ≤ MAX_FILE_SIZE;
  fo_fits : f_offset self ≤ chain_bytes (f_fs self) l;
  fo_current : f_current_cluster self =
    if f_offset self =? 0 then None else l !! Z.to_nat ((f_offset self - 1) / bytes_per_cluster (f_fs self));
  fo_size s : File_size self = Some s → f_offset self ≤ s ≤ MAX_FILE_SIZE ∧ s ≤ chain_bytes (f_fs self) l;
  fo_entry e : f_entry self = Some e → first_cluster (ed_data e) (fs_fat_type (f_fs self)) = f_first_cluster self;
}.

(** The end of the file: its size, or that of the chain for a directory. *)
Definition limit self l : Z := default (chain_bytes (f_fs self) l) (File_size self).

Lemma limit_range self l : FileOk self l → f_offset self ≤ limit self l ≤ chain_bytes (f_fs self) l.
Proof.
  intros []. unfold limit. destruct (File_size self) as [s|]; cbn; [|lia]. destruct (fo_size0 s eq_refl). lia.
Qed.

Lemma FileOk_in self l x : FileOk self l → x ∈ l → 2 ≤ x < fs_end (f_fs self).
Proof.
  intros [] Hx. destruct (f_first_cluster self); [by apply (ch_in _ _ _ fo_chain0)|subst; by apply not_elem_of_nil in Hx].
Qed.

Lemma FileOk_used self l x : FileOk self l → x ∈ l → entry (fs_fat_type (f_fs self)) (fs_table (f_fs self)) x ≠ Free.
Proof.
  intros [] Hx. destruct (f_first_cluster self); [by apply (ch_used _ _ _ fo_chain0)|subst; by apply not_elem_of_nil in Hx].
Qed.

(** The volume may change, as long as the chain is the same. *)
Lemma FileOk_fs R self l fs' : FileOk self l → VolInv fs' → Kept R (f_fs self) fs' →
  (∀ x, x ∈ l → entry (fs_fat_type (f_fs self)) (fs_table fs') x = entry (fs_fat_type (f_fs self)) (fs_table (f_fs self)) x) →
  FileOk (f_set_fs self fs') l.
Proof.
  intros Hf Hi HK He. destruct (Kept_pos R _ _ l 0 HK) as [_ Ec]. destruct (Kept_cluster _ _ _ 0 HK) as (_ & Eb & _).
  destruct Hf. split; cbn; rewrite ?Ec, ?Eb, ?(ke_type _ _ _ HK); try done.
  destruct (f_first_cluster self); [|done]. by eapply fs_chain_same.
Qed.

Lemma FileOk_quiet self l fs' : FileOk self l → Quiet (f_fs self) fs' → FileOk (f_set_fs self fs') l.
Proof.
  intros Hf HQ. pose proof (vi_ok _ (fo_vol _ _ Hf)) as Hv. eapply (FileOk_fs (λ _, False)); [done| |apply HQ|].
  - eapply Quiet_inv; [apply Hf|done].
  - intros x Hx. apply Quiet_entry; [done|done|]. pose proof (FileOk_in _ _ _ Hf Hx). lia.
Qed.

(** The position may change. *)
Lemma FileOk_pos self l c o : FileOk self l → 0 ≤ o ≤ limit self l → o ≤ MAX_FILE_SIZE →
  c = (if o =? 0 then None else l !! Z.to_nat ((o - 1) / bytes_per_cluster (f_fs self))) → FileOk (f_set_pos self c o) l.
Proof.
  intros Hf Ho Hm ->. pose proof (limit_range _ _ Hf). unfold limit in *. destruct Hf. split; cbn; try done; [lia|lia|].
  change (File_size (f_set_pos self _ o)) with (File_size self). intros s Hs. destruct (fo_size0 s Hs). rewrite Hs in *. cbn in *. lia.
Qed.

(** The entry may change, but not its size or its first cluster. *)
Record same_entry (e e' : DirEntryEditor) : Prop := {
  se_size : e_size (ed_data e') = e_size (ed_data e);
  se_attrs : e_attrs (ed_data e') = e_attrs (ed_data e);
  se_hi : e_first_cluster_hi (ed_data e') = e_first_cluster_hi (ed_data e);
  se_lo : e_first_cluster_lo (ed_data e') = e_first_cluster_lo (ed_data e);
  se_name : e_name (ed_data e') = e_name (ed_data e);
  se_pos : ed_pos e' = ed_pos e;
}.

Lemma same_entry_size e e' : same_entry e e' → size (ed_data e') = size (ed_data e).
Proof. intros []. unfold size, is_file, is_dir. by rewrite se_size0, se_attrs0. Qed.

Lemma same_entry_first e e' t : same_entry e e' → first_cluster (ed_data e') t = first_cluster (ed_data e) t.
Proof. intros []. unfold first_cluster. by rewrite se_hi0, se_lo0. Qed.

Lemma FileOk_entry self l e e' : FileOk self l → f_entry self = Some e → same_entry e e' → FileOk (f_set_entry self (Some e')) l ∧
  File_size (f_set_entry self (Some e')) = File_size self.
Proof.
  intros [] Ee He. assert (File_size (f_set_entry self (Some e')) = File_size self) as Es
    by (unfold File_size; rewrite Ee; cbn; by apply same_entry_size).
  split; [|done]. split; try done; [intros s Hs; apply fo_size0; by rewrite <- Es|]. intros e2 [= <-]. rewrite (same_entry_first e) by done. auto.
Qed.

Lemma ed_set_accessed_ok e d : Date_fits d → ∃ e', ed_set_accessed e d = Ret e' ∧ same_entry e e'.
Proof.
  intros Hd. unfold ed_set_accessed. case_decide; [by exists e|]. unfold set_accessed. rewrite (Date_encode_ok d Hd). run. by eexists.
Qed.

Lemma ed_set_modified_ok e d : Date_fits (dt_date d) → ∃ e', ed_set_modified e d = Ret e' ∧ same_entry e e'.
Proof.
  intros Hd. unfold ed_set_modified. case_decide; [by exists e|]. unfold set_modified. rewrite (Date_encode_ok _ Hd). run. by eexists.
Qed.

(** ** Where a position is *)

Lemma before_pos o cs : 0 < cs → 0 < o → (o - 1) / cs = if o mod cs =? 0 then o / cs - 1 else o / cs.
Proof.
  intros Hc Ho. pose proof (Z.div_mod o cs ltac:(lia)) as E. pose proof (Z.mod_pos_bound o cs Hc). case_bool.
  - symmetry. apply (Z.div_unique _ _ _ (cs - 1)); lia.
  - symmetry. apply (Z.div_unique _ _ _ (o mod cs - 1)); lia.
Qed.

(** Between clusters, the next one is read from the table. *)
Lemma next_cluster_ok self l : FileOk self l → f_offset self mod bytes_per_cluster (f_fs self) = 0 → ∃ fs',
  next_cluster_of self = Ret (Ok (l !! Z.to_nat (f_offset self / bytes_per_cluster (f_fs self))), f_set_fs self fs') ∧ Quiet (f_fs self) fs'.
Proof.
  intros Hf Hm. pose proof (vi_ok _ (fo_vol _ _ Hf)) as Hv. destruct (fs_cluster_size_ok _ Hv) as [_ Hcs]. destruct (Hf) as [_ Hch Ho Hfit Hcur _ _].
  unfold next_cluster_of. rewrite Hcur. destruct (f_offset self =? 0) eqn:E0; breflect.
  - exists (f_fs self). split; [|by apply Quiet_refl]. rewrite E0, Z.div_0_l by lia. destruct self as [[c|] cu o en fs]; cbn in *; [|by subst].
    by destruct (ch_chain _ _ _ Hch).
  - rewrite before_pos, Hm, Z.eqb_refl by lia. unfold chain_bytes in Hfit.
    assert (1 ≤ f_offset self / bytes_per_cluster (f_fs self) ≤ zlen l) as Hq.
    { pose proof (Z.div_mod (f_offset self) (bytes_per_cluster (f_fs self)) ltac:(lia)). split; [|apply Z.div_le_upper_bound; lia].
      apply Z.div_le_lower_bound; [lia|]. destruct (Z.le_gt_cases (f_offset self / bytes_per_cluster (f_fs self)) 0); [|nia]. nia. }
    set (q := f_offset self / bytes_per_cluster (f_fs self)) in *. destruct (nth_cluster_in l (q - 1)) as [-> Hx]; [lia|].
    destruct (f_first_cluster self) as [c|]; [|by subst; apply not_elem_of_nil in Hx].
    destruct (next_of_ok self l c (Z.to_nat (q - 1)) (nth_cluster l (q - 1))) as (fs' & -> & HQ); [done|done|by apply nth_cluster_in; lia|].
    exists fs'. split; [|done]. do 5 f_equal. lia.
Qed.

Lemma inside_cluster self l : FileOk self l → f_offset self mod bytes_per_cluster (f_fs self) ≠ 0 →
  f_current_cluster self = l !! Z.to_nat (f_offset self / bytes_per_cluster (f_fs self)) ∧
  f_offset self / bytes_per_cluster (f_fs self) < zlen l ∧ 0 < f_offset self.
Proof.
  intros Hf Hm. destruct (fs_cluster_size_ok _ (vi_ok _ (fo_vol _ _ Hf))) as [_ Hcs]. destruct (Hf) as [_ _ Ho Hfit Hcur _ _].
  assert (0 < f_offset self) by (destruct (decide (f_offset self = 0)) as [E|]; [rewrite E, Z.mod_0_l in Hm by lia; done|lia]).
  rewrite Hcur, (proj2 (Z.eqb_neq (f_offset self) 0)), before_pos, (proj2 (Z.eqb_neq _ 0) Hm) by lia. split_and!; [done| |done].
  unfold chain_bytes in Hfit. pose proof (Z.div_mod (f_offset self) (bytes_per_cluster (f_fs self)) ltac:(lia)).
  pose proof (Z.mod_pos_bound (f_offset self) (bytes_per_cluster (f_fs self))). apply Z.div_lt_upper_bound; [lia|].
  assert (f_offset self ≠ bytes_per_cluster (f_fs self) * zlen l) as Hne; [|lia].
  intros E. rewrite E, Z.mul_comm, Z.mod_mul in Hm by lia. done.
Qed.

(** The cluster of the position, if the chain has it. *)
Lemma current_ok self l : FileOk self l → ∃ fs',
  (if f_offset self mod bytes_per_cluster (f_fs self) =? 0 then next_cluster_of self else Ret (Ok (f_current_cluster self), self)) =
    Ret (Ok (l !! Z.to_nat (f_offset self / bytes_per_cluster (f_fs self))), f_set_fs self fs') ∧ Quiet (f_fs self) fs'.
Proof.
  intros Hf. destruct (_ =? 0) eqn:E; breflect; [by apply next_cluster_ok|].
  destruct (inside_cluster self l Hf) as (-> & _ & _); [done|]. exists (f_fs self). split; [by destruct self|apply Quiet_refl, Hf].
Qed.

Lemma chain_pos_step fs l o i : VolOk fs → 0 ≤ o ≤ i → o mod bytes_per_cluster fs + (i - o) < bytes_per_cluster fs →
  i / bytes_per_cluster fs = o / bytes_per_cluster fs ∧ chain_pos fs l i = chain_pos fs l o + (i - o).
Proof.
  intros Hv Ho Hi. destruct (fs_cluster_size_ok fs Hv) as [_ Hc]. unfold chain_pos. set (cs := bytes_per_cluster fs) in *.
  pose proof (Z.div_mod o cs ltac:(lia)). pose proof (Z.mod_pos_bound o cs ltac:(lia)).
  assert (i / cs = o / cs) as -> by (symmetry; apply (Z.div_unique _ _ _ (o mod cs + (i - o))); lia).
  assert (i mod cs = o mod cs + (i - o)) as -> by (symmetry; apply (Z.mod_unique _ _ (o / cs)); lia). lia.
Qed.

Lemma chain_window fs l o n : VolOk fs → 0 ≤ o → 0 ≤ n → o mod bytes_per_cluster fs + n ≤ bytes_per_cluster fs →
  v_byte (fs_disk fs) <$> range (chain_pos fs l o) (chain_pos fs l o + n) = chain_byte fs l <$> range o (o + n).
Proof.
  intros Hv Ho Hn Hfit. unfold range. rewrite !Z.add_simpl_l. apply list_eq. intros k. rewrite !list_lookup_fmap.
  destruct (decide (Z.of_nat k < n)); [|by rewrite !lookup_seqZ_ge by lia]. rewrite !lookup_seqZ_lt by lia. cbn. unfold chain_byte.
  destruct (chain_pos_step fs l o (o + Z.of_nat k)) as [_ ->]; [done|lia|lia|]. do 2 f_equal. lia.
Qed.

(** A disk that transfers whole buffers, as the inode streams of the kernel do. *)
Definition reads_whole : Prop := ∀ (s : S) buf n b s', v_ok s → buf ≠ [] → v_pos s + zlen buf ≤ v_size s →
  st_read s buf = Ret (Ok (n, b), s') → n = zlen buf.
Definition writes_whole : Prop := ∀ (s : S) buf n s', v_ok s → buf ≠ [] → Forall is_byte buf → v_pos s + zlen buf ≤ v_size s →
  st_write s buf = Ret (Ok n, s') → n = zlen buf.

(** Reading a part of the disk. *)
Lemma data_read fs q window : VolOk fs → window ≠ [] → 0 ≤ q → q + zlen window ≤ v_size (fs_disk fs) → ∃ n fs1 fs2, 0 < n ≤ zlen window ∧
  on_disk fs (st_seek (fs_disk fs) (SeekStart q)) = Ret (Ok q, fs1) ∧
  on_disk fs1 (st_read (fs_disk fs1) window) =
    Ret (Ok (n, (v_byte (fs_disk fs) <$> range q (q + n)) ++ drop (Z.to_nat n) window), fs2) ∧ Quiet fs fs2 ∧ (reads_whole → n = zlen window).
Proof.
  intros Hv Hne Hq Hfit. destruct (vo_ok fs Hv) as (Hok & _). pose proof (zlen_nonneg window).
  destruct (v_seek (fs_disk fs) q) as (d1 & E1 & U1); [done|lia|]. destruct (U1) as [Hok1 Hs1 Hp1 Hb1 _].
  destruct (v_read d1 window) as (n & d2 & Hn & E2 & U2); [done|done|lia|]. rewrite Hp1 in *.
  exists n, (fs_set_disk fs d1), (fs_set_disk fs d2). unfold on_disk. cbn [fs_disk fs_set_disk]. rewrite E1, E2. run. split_and!; [lia|lia|done| | |].
  - do 5 f_equal. apply (fmap_agree (v_size (fs_disk fs))); [done|lia|lia].
  - destruct (data_write_kept fs d2 (v_byte (fs_disk fs)) (q + n) (λ _, False) Hv) as [HK Ha]; [by eapply Upd_trans_same|done|done|].
    split; [done|done|done|by right].
  - intros HW. eapply HW; [exact Hok1|done|rewrite Hp1; lia|exact E2].
Qed.

(** The date of access, when it is kept. *)
Lemma accessed_ok self l : FileOk self l → Date_fits get_current_date → ∃ self',
  (if fs_update_accessed_date (f_fs self) then File_set_accessed self get_current_date else Ret self) = Ret self' ∧ FileOk self' l ∧
  File_size self' = File_size self ∧ f_first_cluster self' = f_first_cluster self ∧ f_offset self' = f_offset self ∧ f_fs self' = f_fs self.
Proof.
  intros Hf Hd. destruct (fs_update_accessed_date (f_fs self)); [|by exists self]. unfold File_set_accessed, on_entry.
  destruct (f_entry self) as [e|] eqn:E; [|by exists self]. destruct (ed_set_accessed_ok e get_current_date Hd) as (e' & -> & He). run.
  destruct (FileOk_entry self l e e' Hf E He) as [Hf' Es]. eexists. by split_and!.
Qed.

(** What reading gives: the bytes at the position, at least one unless the buffer is empty or
    the file ends. *)
Record Was_read self self' l (n : Z) : Prop := {
  wr_ok : FileOk self' l;
  wr_offset : f_offset self' = f_offset self + n;
  wr_size : File_size self' = File_size self;
  wr_first : f_first_cluster self' = f_first_cluster self;
  wr_quiet : Quiet (f_fs self) (f_fs self');
}.

Lemma Was_read_none self l fs' : FileOk self l → Quiet (f_fs self) fs' → Was_read self (f_set_fs self fs') l 0.
Proof. intros Hf HQ. split; [by apply FileOk_quiet|cbn; lia|done|done|done]. Qed.

(** Where the cluster of the position ends. *)
Lemma room_ok self l : FileOk self l → f_offset self / bytes_per_cluster (f_fs self) < zlen l →
  let cs := bytes_per_cluster (f_fs self) in
  f_offset self + (cs - f_offset self mod cs) ≤ chain_bytes (f_fs self) l ∧ 0 < cs - f_offset self mod cs ≤ cs ∧ cs ≤ 524288 ∧
  0 ≤ f_offset self mod cs < cs.
Proof.
  intros Hf Hq. cbv zeta. destruct (fs_cluster_size_ok _ (vi_ok _ (fo_vol _ _ Hf))) as [_ Hcs]. unfold chain_bytes. set (cs := bytes_per_cluster (f_fs self)) in *.
  pose proof (Z.div_mod (f_offset self) cs ltac:(lia)). pose proof (Z.mod_pos_bound (f_offset self) cs ltac:(lia)).
  assert ((f_offset self / cs + 1) * cs ≤ zlen l * cs) by (apply Z.mul_le_mono_nonneg_r; lia). lia.
Qed.

Lemma left_ok self l : FileOk self l → f_offset self / bytes_per_cluster (f_fs self) < zlen l →
  let room := bytes_per_cluster (f_fs self) - f_offset self mod bytes_per_cluster (f_fs self) in
  ∃ left, bytes_left_in_file self = Ret left ∧ ∀ n, Z.min (Z.min n room) (default room left) = Z.min (Z.min n room) (limit self l - f_offset self).
Proof.
  intros Hf Hq. cbv zeta. pose proof (room_ok self l Hf Hq) as (Hr & _). unfold bytes_left_in_file, limit. destruct (Hf) as [_ _ Ho _ _ Hs _].
  destruct (File_size self) as [s|].
  - destruct (Hs s eq_refl). unfold MAX_FILE_SIZE in *. rewrite sub_u_ok by lia. run. eexists. split; [done|]. intros n. done.
  - exists None. split; [done|]. intros n. cbn. lia.
Qed.

(** The position of the window on the disk. *)
Lemma window_ok self l : FileOk self l → f_offset self / bytes_per_cluster (f_fs self) < zlen l →
  let cs := bytes_per_cluster (f_fs self) in
  let c := nth_cluster l (f_offset self / cs) in
  offset_from_cluster (f_fs self) c = Ret (cluster_at (f_fs self) c) ∧
  add_u 64 (cluster_at (f_fs self) c) (f_offset self mod cs) = Ret (chain_pos (f_fs self) l (f_offset self)) ∧
  0 ≤ chain_pos (f_fs self) l (f_offset self) ∧
  chain_pos (f_fs self) l (f_offset self) + (cs - f_offset self mod cs) ≤ v_size (fs_disk (f_fs self)).
Proof.
  intros Hf Hq. cbv zeta. pose proof (vi_ok _ (fo_vol _ _ Hf)) as Hv. destruct (room_ok self l Hf Hq) as (_ & Hr & Hcs & Hm).
  destruct (nth_cluster_in l (f_offset self / bytes_per_cluster (f_fs self))) as [_ Hx]; [split; [apply Z.div_pos; [apply Hf|lia]|done]|].
  destruct (offset_from_cluster_ok _ _ Hv (FileOk_in _ _ _ Hf Hx)) as (E & Hlo & Hhi). pose proof (vol_products _ Hv) as (_ & _ & H3 & _ & _ & _ & H7).
  destruct (vo_ok _ Hv) as (Hok & _). pose proof (v_small _ Hok). pose proof (vo_copies _ Hv). unfold chain_pos.
  assert (0 ≤ fat_copies (f_fs self) * fat_bytes (f_fs self)) by (apply Z.mul_nonneg_nonneg; [lia|]; pose proof (vol_products _ Hv); lia).
  rewrite add_u_ok by lia. split_and!; [done|done|lia|lia].
Qed.

Lemma splice_window (buf w : list Z) n m : zlen w = n → 0 ≤ n ≤ m → m ≤ zlen buf →
  splice buf 0 (w ++ drop (Z.to_nat n) (take (Z.to_nat m) buf)) = w ++ drop (Z.to_nat n) buf.
Proof.
  intros Hw Hn Hm. unfold splice, zlen in *. change (Z.to_nat 0) with 0%nat. rewrite take_0, app_nil_l, <- app_assoc. f_equal.
  rewrite length_app, length_drop, length_take. replace (0 + (length w + (Z.to_nat m `min` length buf - Z.to_nat n)))%nat with (Z.to_nat m) by lia.
  rewrite <- (take_drop (Z.to_nat m) buf) at 3. rewrite drop_app_le by (rewrite length_take; lia). done.
Qed.

(** The part of [read] behind the choice of the window. *)
Lemma read_window self l buf m : FileOk self l → Date_fits get_current_date → f_offset self / bytes_per_cluster (f_fs self) < zlen l →
  0 < m ≤ zlen buf → m ≤ bytes_per_cluster (f_fs self) - f_offset self mod bytes_per_cluster (f_fs self) → f_offset self + m ≤ limit self l → limit self l ≤ MAX_FILE_SIZE →
  let c := nth_cluster l (f_offset self / bytes_per_cluster (f_fs self)) in
  ∃ n self',
  (x ← offset_from_cluster (f_fs self) c;
   offset_in_fs ← add_u 64 x (f_offset self mod bytes_per_cluster (f_fs self));
   let? (_, self) := on_fs self (on_disk (f_fs self) (st_seek (fs_disk (f_fs self)) (SeekStart offset_in_fs))) in
   window ← slice buf 0 m;
   let? (r, self) := on_fs self (on_disk (f_fs self) (st_read (fs_disk (f_fs self)) window)) in
   let '(read_bytes, window) := r in
   let buf := splice buf 0 window in
   if read_bytes =? 0 then Ret (Ok (0, buf), self)
   else
     offset ← add_u 32 (f_offset self) (wrap 32 read_bytes);
     let self := f_set_pos self (Some c) offset in
     self ← (if fs_update_accessed_date (f_fs self) then File_set_accessed self get_current_date else Ret self);
     Ret (Ok (read_bytes, buf), self)) =
  Ret (Ok (n, (chain_byte (f_fs self) l <$> range (f_offset self) (f_offset self + n)) ++ drop (Z.to_nat n) buf), self') ∧
  Was_read self self' l n ∧ 0 < n ≤ m ∧ (reads_whole → n = m).
Proof.
  intros Hf Hd Hq Hm Hroom Hlim Hmax. cbv zeta. pose proof (vi_ok _ (fo_vol _ _ Hf)) as Hv.
  pose proof (room_ok self l Hf Hq) as (Hr1 & Hr2 & Hr3 & Hr4). destruct (window_ok self l Hf Hq) as (-> & Ew2 & Hw1 & Hw2). run. rewrite Ew2. run.
  assert (zlen (take (Z.to_nat m) buf) = m) as Hz by (apply zlen_take; lia).
  destruct (data_read (f_fs self) (chain_pos (f_fs self) l (f_offset self)) (take (Z.to_nat m) buf)) as (n & fs1 & fs2 & Hn & E1 & E2 & HQ & HW);
    [done|intros E; rewrite E in Hz; change (zlen []) with 0 in Hz; lia|done|lia|]. rewrite Hz in Hn.
  unfold on_fs at 1. rewrite E1. run. rewrite slice_head by lia. run. cbn [f_fs f_set_fs]. unfold on_fs. rewrite E2. run.
  rewrite (proj2 (Z.eqb_neq n 0)) by lia. destruct (limit_range _ _ Hf) as [_ Hl2]. cbn [f_offset f_set_fs].
  pose proof (fo_offset _ _ Hf) as Ho. unfold MAX_FILE_SIZE in *.
  rewrite (wrap_small 32 n), add_u_ok by lia. run. set (c := nth_cluster l (f_offset self / bytes_per_cluster (f_fs self))).
  pose proof (FileOk_quiet self l fs2 Hf HQ) as Hf2. destruct (Kept_pos _ _ _ l 0 (q_kept _ _ HQ)) as [_ Ec].
  destruct (Kept_cluster _ _ _ 0 (q_kept _ _ HQ)) as (_ & Eb & _).
  assert (limit (f_set_fs self fs2) l = limit self l) as El by (unfold limit; cbn [f_fs f_set_fs]; by rewrite Ec).
  assert (FileOk (f_set_pos (f_set_fs self fs2) (Some c) (f_offset self + n)) l) as Hf3.
  { apply FileOk_pos; [done|lia|unfold MAX_FILE_SIZE; lia|]. cbn [f_fs f_set_fs]. rewrite Eb, (proj2 (Z.eqb_neq _ 0)) by lia.
    destruct (chain_pos_step (f_fs self) l (f_offset self) (f_offset self + n - 1)) as [-> _]; [done|lia|lia|].
    symmetry. apply nth_cluster_in. split; [apply Z.div_pos; lia|done]. }
  destruct (accessed_ok _ l Hf3 Hd) as (self' & Ea & Hf4 & H1 & H2 & H3 & H4). cbn [f_fs f_set_pos f_set_fs] in *. 
  change (f_set_fs (f_set_fs self fs1) fs2) with (f_set_fs self fs2). rewrite Ea. run.
  exists n, self'. split; [|split; [split; try done; by rewrite H4|split; [lia|intros R; rewrite <- Hz; by apply HW]]]. do 5 f_equal.
  rewrite chain_window by (done || lia). set (w := chain_byte _ _ <$> _).
  assert (zlen w = n) as Hwn by (unfold w; rewrite zlen_fmap_range; lia).
  apply splice_window; lia.
Qed.

Lemma Quiet_trans fs1 fs2 fs3 : Quiet fs1 fs2 → Quiet fs2 fs3 → Quiet fs1 fs3.
Proof.
  intros [K1 T1 I1 M1] [K2 T2 I2 M2]. rewrite (Kept_marked _ _ _ K1) in M2. split; [by eapply Kept_trans| |congruence|].
  - destruct (slice_same fs1 fs2 (ke_bpb _ _ _ K1)) as (_ & E & _). rewrite E in T2. by etrans.
  - destruct M2 as [->| ->]; [by left|done].
Qed.

Lemma Was_read_quiet self l fs1 self' n : Quiet (f_fs self) fs1 → Was_read (f_set_fs self fs1) self' l n → Was_read self self' l n.
Proof. intros Q []. split; try done. by eapply Quiet_trans. Qed.

Lemma chain_byte_quiet fs fs' l i : VolOk fs → Quiet fs fs' → (∀ x, x ∈ l → 2 ≤ x < fs_end fs) → 0 ≤ i < chain_bytes fs l →
  chain_byte fs' l i = chain_byte fs l i.
Proof. intros Hv [HK _ _ _] Hin Hi. eapply chain_byte_kept; try done. auto. Qed.

(** At the end of the chain the file ends. *)
Lemma chain_end_limit self l : FileOk self l → zlen l ≤ f_offset self / bytes_per_cluster (f_fs self) →
  f_offset self = limit self l ∧ f_offset self = chain_bytes (f_fs self) l.
Proof.
  intros Hf Hq. destruct (fs_cluster_size_ok _ (vi_ok _ (fo_vol _ _ Hf))) as [_ Hcs]. destruct (limit_range _ _ Hf) as [Hl1 Hl2].
  unfold chain_bytes in *. set (cs := bytes_per_cluster (f_fs self)) in *. assert (zlen l * cs ≤ f_offset self / cs * cs) by (apply Z.mul_le_mono_nonneg_r; lia).
  pose proof (Z.div_mod (f_offset self) cs ltac:(lia)). pose proof (Z.mod_pos_bound (f_offset self) cs ltac:(lia)). lia.
Qed.

Lemma File_read_ok self l buf : FileOk self l → Date_fits get_current_date → limit self l ≤ MAX_FILE_SIZE → ∃ n self',
  File_read self buf = Ret (Ok (n, (chain_byte (f_fs self) l <$> range (f_offset self) (f_offset self + n)) ++ drop (Z.to_nat n) buf), self') ∧
  Was_read self self' l n ∧ 0 ≤ n ≤ zlen buf ∧ f_offset self + n ≤ limit self l ∧ (n = 0 → buf = [] ∨ f_offset self = limit self l) ∧
  (reads_whole → n = Z.min (Z.min (zlen buf) (bytes_per_cluster (f_fs self) - f_offset self mod bytes_per_cluster (f_fs self))) (limit self l - f_offset self)).
Proof.
  intros Hf Hd Hmax. pose proof (vi_ok _ (fo_vol _ _ Hf)) as Hv. destruct (fs_cluster_size_ok _ Hv) as [Ecs Hcs]. destruct (limit_range _ _ Hf) as [Hl1 Hl2].
  pose proof (zlen_nonneg buf). assert (∀ o, range o (o + 0) = []) as Hnil by (intros o; unfold range; by rewrite Z.add_simpl_l).
  unfold File_read. rewrite Ecs. run. unfold rem_u. rewrite (proj2 (Z.eqb_neq _ 0)) by lia. run.
  destruct (current_ok self l Hf) as (fs1 & -> & Q1). run. pose proof (FileOk_quiet _ _ _ Hf Q1) as Hf1.
  destruct (decide (f_offset self / bytes_per_cluster (f_fs self) < zlen l)) as [Hq|Hq].
  2: { rewrite lookup_ge_None_2 by (unfold zlen in Hq; lia). exists 0, (f_set_fs self fs1). rewrite Hnil. split; [done|].
    assert (f_offset self = limit self l) as Hend by (apply chain_end_limit; [done|lia]).
    pose proof (Z.mod_pos_bound (f_offset self) (bytes_per_cluster (f_fs self)) ltac:(lia)).
    split; [by apply Was_read_none|]. split_and!; [lia|lia|lia|by right|lia]. }
  destruct (Kept_cluster _ _ _ 0 (q_kept _ _ Q1)) as (_ & Eb & _). destruct (Kept_pos _ _ _ l 0 (q_kept _ _ Q1)) as [_ Ec].
  assert (limit (f_set_fs self fs1) l = limit self l) as El by (unfold limit; cbn [f_fs f_set_fs]; by rewrite Ec).
  destruct (left_ok (f_set_fs self fs1) l Hf1) as (left & Eleft & Hmin); [by cbn [f_fs f_set_fs]; rewrite Eb|].
  pose proof (room_ok self l Hf Hq) as (Hr1 & Hr2 & Hr3 & Hr4). cbn [f_offset f_set_fs f_fs] in Hmin. rewrite Eb, El in Hmin.
  destruct (nth_cluster_in l (f_offset self / bytes_per_cluster (f_fs self))) as [-> Hx]; [split; [apply Z.div_pos; [apply Hf|lia]|done]|].
  rewrite sub_u_ok by lia. run. rewrite Eleft. run. rewrite Hmin. clear Hmin Eleft left.
  remember (Z.min (Z.min (zlen buf) _) _) as m eqn:Em. destruct (m =? 0) eqn:E0; breflect.
  { exists 0, (f_set_fs self fs1). rewrite Hnil. split; [done|]. split; [by apply Was_read_none|]. split_and!; [lia|lia|lia| |lia].
    intros _. destruct buf; [by left|right]. rewrite zlen_cons in *. pose proof (zlen_nonneg buf). lia. }
  destruct (read_window (f_set_fs self fs1) l buf m) as (n & self' & E & HW & Hn & Hwh); cbn [f_fs f_offset f_set_fs] in *;
    rewrite ?Eb, ?El; try done || lia. rewrite Eb in E. exists n, self'. split.
  - rewrite E. do 5 f_equal. apply list_fmap_ext. intros k x Hk%lookup_seqZ. apply chain_byte_quiet; [done|done|by intros y; apply FileOk_in|]. pose proof (fo_offset _ _ Hf). lia.
  - split; [by eapply Was_read_quiet|]. split_and!; [lia|lia|lia|lia|]. intros HR. by rewrite (Hwh HR).
Qed.

(** ** What an operation on one file leaves alone

    Every other chain keeps its clusters and its bytes, and stays apart. *)

Definition apart l1 l2 : Prop := ∀ x, x ∈ l1 → x ∉ l2.

Definition Isolated fs fs' l l' : Prop := fs_bpb fs' = fs_bpb fs ∧ ∀ c2 l2, fs_chain fs c2 l2 → apart l2 l →
  fs_chain fs' c2 l2 ∧ apart l2 l' ∧ ∀ i, 0 ≤ i < chain_bytes fs l2 → chain_byte fs' l2 i = chain_byte fs l2 i.

Lemma Isolated_comp fs1 fs2 fs3 l1 l2 l3 : Isolated fs1 fs2 l1 l2 → Isolated fs2 fs3 l2 l3 → Isolated fs1 fs3 l1 l3.
Proof.
  intros [B1 I1] [B2 I2]. split; [congruence|]. intros c l Hc Ha. destruct (I1 c l Hc Ha) as (Hc2 & Ha2 & Hb2).
  destruct (I2 c l Hc2 Ha2) as (Hc3 & Ha3 & Hb3). split_and!; [done|done|]. intros i Hi. rewrite Hb3, Hb2; [done|done|].
  unfold chain_bytes, bytes_per_cluster in *. by rewrite B1.
Qed.

Lemma Isolated_trans R fs1 fs2 fs3 l1 l2 l3 : Kept R fs1 fs2 → Isolated fs1 fs2 l1 l2 → Isolated fs2 fs3 l2 l3 → Isolated fs1 fs3 l1 l3.
Proof. intros _. apply Isolated_comp. Qed.

(** A write to the data area that is within the clusters of [l]. *)
Lemma Isolated_data R fs fs' l : VolOk fs → Kept R fs fs' → agree (fat_bytes fs) (fs_table fs') (fs_table fs) →
  (∀ j, R j → ∃ x, x ∈ l ∧ in_cluster fs x j) → Isolated fs fs' l l.
Proof.
  intros Hv HK Ha HR. split; [apply HK|]. intros c2 l2 Hc Hap. split_and!; [|done|].
  - eapply fs_chain_same; [done|done|]. intros x Hx. apply table_agree; try done; [apply HK|]. pose proof (ch_in _ _ _ Hc x Hx). lia.
  - intros i Hi. eapply chain_byte_kept; [done|done|by intros x; apply (ch_in _ _ _ Hc)| |done].
    intros x j Hx Hj Hr. destruct (HR j Hr) as (y & Hy & Hjy). rewrite (clusters_disjoint fs x y j Hv Hj Hjy) in Hx. by eapply Hap.
Qed.

Lemma Isolated_quiet fs fs' l : VolOk fs → Quiet fs fs' → Isolated fs fs' l l.
Proof. intros Hv [HK Ha _ _]. by eapply Isolated_data. Qed.

(** ** Growing *)

(** The file has a new cluster at its end; nothing else has changed. *)
Record Grown self self' l (c : Z) : Prop := {
  gr_ok : FileOk self' (l ++ [c]);
  gr_offset : f_offset self' = f_offset self;
  gr_size : File_size self' = File_size self;
  gr_dir : File_is_dir self' = File_is_dir self;
  gr_isolated : Isolated (f_fs self) (f_fs self') l (l ++ [c]);
  gr_kept : Kept (zeroed (f_fs self) (File_is_dir self) c) (f_fs self) (f_fs self');
  gr_status : fs_status (f_fs self') = marked (f_fs self);
  gr_free : entry (fs_fat_type (f_fs self)) (fs_table (f_fs self)) c = Free;
  gr_zero j : zeroed (f_fs self) (File_is_dir self) c j → v_byte (fs_disk (f_fs self')) j = 0;
}.

(** The cluster that the new one goes behind. *)
Lemma prev_is_last self l : FileOk self l → f_offset self = chain_bytes (f_fs self) l → f_current_cluster self = last l.
Proof.
  intros Hf Eo. destruct (fs_cluster_size_ok _ (vi_ok _ (fo_vol _ _ Hf))) as [_ Hcs]. rewrite (fo_current _ _ Hf), Eo. unfold chain_bytes.
  destruct (decide (l = [])) as [->|Hne]; [done|]. assert (1 ≤ zlen l) by (destruct l; [done|rewrite zlen_cons; pose proof (zlen_nonneg l); lia]).
  rewrite (proj2 (Z.eqb_neq _ 0)) by nia. rewrite before_pos, Z.mod_mul, Z.eqb_refl, Z.div_mul by nia. rewrite last_lookup. f_equal. unfold zlen in *. lia.
Qed.

Lemma alloc_isolated fs fs' prev zero c l : VolOk fs → FsAllocated fs fs' prev zero c → (∀ p, prev = Some p → p ∈ l) →
  Isolated fs fs' l (l ++ [c]).
Proof.
  intros Hv [HK HL _ _ _] Hp. split; [apply HK|]. intros c2 l2 Hc Ha.
  assert (∀ x, x ∈ l2 → x ≠ c) as Hne by (intros x Hx ->; by apply (ch_used _ _ _ Hc c Hx), (li_free _ _ _ _ HL)).
  split_and!.
  - eapply fs_chain_same; [done|done|]. intros x Hx. apply (li_other _ _ _ _ HL); [pose proof (ch_in _ _ _ Hc x Hx); lia|by apply Hne|].
    intros E. by apply (Ha x Hx), Hp.
  - intros x Hx [Hin|Hin%list_elem_of_singleton]%elem_of_app; [by apply (Ha x)|by apply (Hne x)].
  - intros i Hi. eapply chain_byte_kept; [done|done|by intros x; apply (ch_in _ _ _ Hc)| |done].
    intros x j Hx Hj [_ Hz]. by apply (Hne x Hx), (clusters_disjoint fs x c j Hv).
Qed.

Lemma fits_entry fs c : VolOk fs → 2 ≤ c < fs_end fs → cluster_fits (fs_fat_type fs) (Some c).
Proof.
  intros Hv Hc. pose proof (vo_total fs Hv) as [_ Ht]. unfold fs_end, cluster_fits in *.
  destruct (fs_fat_type fs); case_decide; try done; cbn in Ht; unfold FAT16_MIN_CLUSTERS, FAT32_MIN_CLUSTERS, FAT32_MAX_CLUSTERS in *; lia.
Qed.

Lemma ed_set_first_ok e c t : cluster_fits t c → first_cluster (ed_data (ed_set_first_cluster e c t)) t = c ∧
  size (ed_data (ed_set_first_cluster e c t)) = size (ed_data e) ∧ is_dir (ed_data (ed_set_first_cluster e c t)) = is_dir (ed_data e).
Proof.
  intros Hc. unfold ed_set_first_cluster. case_decide as E; [by rewrite <- E|]. cbn [ed_data].
  split; [by apply first_cluster_set|]. by destruct e as [[] p d].
Qed.

(** The chain behind an allocation. *)
Lemma grown_chain fs fs' l c f zero : VolOk fs → FsAllocated fs fs' (last l) zero c →
  match f with Some c0 => fs_chain fs c0 l | None => l = [] end → fs_chain fs' (default c f) (l ++ [c]).
Proof.
  intros Hv [HK HL _ _ _] Hch. pose proof (ke_type _ _ _ HK) as Et. destruct (Kept_cluster _ _ _ 0 HK) as (_ & _ & Ee).
  pose proof (li_range _ _ _ _ HL) as Hc. pose proof (li_end _ _ _ _ HL) as He.
  assert (∀ m, entry (fs_fat_type fs) (fs_table fs') c ≠ Data m) as Hend by (intros m; by rewrite He).
  destruct f as [c0|]; cbn.
  - destruct Hch as [Hch Hin Hu]. assert (∃ p, last l = Some p) as [p Hp] by (destruct (last l) eqn:E; [by eexists|apply last_None in E as ->; by inversion Hch]).
    pose proof (li_prev _ _ _ _ HL p Hp) as Ep.
    assert (∀ x, x ∈ l → x ≠ p → entry (fs_fat_type fs) (fs_table fs') x = entry (fs_fat_type fs) (fs_table fs) x) as Ho.
    { intros x Hx Hne. apply (li_other _ _ _ _ HL); [specialize (Hin x Hx); lia| |rewrite Hp; congruence].
      intros ->. by apply (Hu c Hx), (li_free _ _ _ _ HL). }
    split; rewrite ?Et, ?Ee.
    + by eapply (chain_snoc _ (fs_table fs)).
    + intros x [Hx| ->%list_elem_of_singleton]%elem_of_app; auto.
    + intros x [Hx| ->%list_elem_of_singleton]%elem_of_app; [|by rewrite He].
      destruct (decide (x = p)) as [->|Hne]; [by rewrite Ep|]. rewrite Ho by done. auto.
  - subst l. cbn. split; rewrite ?Et, ?Ee.
    + by constructor.
    + by intros x ->%list_elem_of_singleton.
    + intros x ->%list_elem_of_singleton. by rewrite He.
Qed.

Lemma chain_bytes_snoc fs l c : chain_bytes fs (l ++ [c]) = chain_bytes fs l + bytes_per_cluster fs.
Proof. unfold chain_bytes. rewrite zlen_app. change (zlen [c]) with 1. lia. Qed.

(** The file with its new cluster. *)
Definition with_cluster self fs' (c : Z) : File S :=
  match f_first_cluster self with None => File_set_first_cluster (f_set_fs self fs') c | Some _ => f_set_fs self fs' end.

Lemma with_cluster_fields self fs' c : VolOk (f_fs self) → fs_fat_type fs' = fs_fat_type (f_fs self) → 2 ≤ c < fs_end (f_fs self) →
  f_fs (with_cluster self fs' c) = fs' ∧ f_offset (with_cluster self fs' c) = f_offset self ∧
  f_current_cluster (with_cluster self fs' c) = f_current_cluster self ∧
  f_first_cluster (with_cluster self fs' c) = Some (default c (f_first_cluster self)) ∧
  File_size (with_cluster self fs' c) = File_size self ∧ File_is_dir (with_cluster self fs' c) = File_is_dir self ∧
  ∀ e, f_entry (with_cluster self fs' c) = Some e → (∀ e, f_entry self = Some e → first_cluster (ed_data e) (fs_fat_type (f_fs self)) = f_first_cluster self) →
    first_cluster (ed_data e) (fs_fat_type fs') = f_first_cluster (with_cluster self fs' c).
Proof.
  intros Hv Et Hc. pose proof (fits_entry _ _ Hv Hc) as Hfit. unfold with_cluster, File_size, File_is_dir, File_set_first_cluster.
  destruct self as [[c0|] cu o [e|] fs]; cbn in *; rewrite ?Et; try (split_and!; done || (intros e1 [= <-] He; by apply He)).
  destruct (ed_set_first_ok e (Some c) (fs_fat_type fs) Hfit) as (H1 & H2 & H3). split_and!; try done. by intros e1 [= <-] _.
Qed.

Lemma last_in l p : last l = Some p → p ∈ l.
Proof. intros [l' ->]%last_Some. apply elem_of_app. right. by left. Qed.

Lemma grow_ok self l : FileOk self l → f_offset self = chain_bytes (f_fs self) l → ∃ fs',
  fs_alloc_cluster (f_fs self) (f_current_cluster self) (File_is_dir self) = Ret (found (fs_choice (f_fs self)), fs') ∧
  match fs_choice (f_fs self) with
  | Some c => Grown self (with_cluster self fs' c) l c
  | None => FileOk (f_set_fs self fs') l ∧ Kept (λ _, False) (f_fs self) fs' ∧ Isolated (f_fs self) fs' l l
  end.
Proof.
  intros Hf Eo. destruct (fo_vol _ _ Hf) as [Hv Hx Hs Hm]. pose proof (prev_is_last self l Hf Eo) as Hlast. rewrite Hlast.
  assert (prev_ok (f_fs self) (last l)) as Hp.
  { intros p Hp%last_in. split; [by apply (FileOk_in self l)|by apply (FileOk_used self l)]. }
  destruct (fs_alloc_cluster_ok (f_fs self) (last l) (File_is_dir self) Hv Hp Hx) as (fs' & E & H). exists fs'. split; [done|].
  destruct (fs_choice (f_fs self)) as [c|].
  - destruct H as [HA Hx']. pose proof HA as [HK HL _ Hst Hz]. pose proof (li_range _ _ _ _ HL) as Hc.
    destruct (with_cluster_fields self fs' c Hv (ke_type _ _ _ HK) Hc) as (W1 & W2 & W3 & W4 & W5 & W6 & W7).
    destruct (Kept_cluster _ _ _ 0 HK) as (_ & Eb & _). destruct (fs_cluster_size_ok _ Hv) as [_ Hcs].
    destruct (Kept_pos _ _ _ (l ++ [c]) 0 HK) as [_ Ec]. rewrite (chain_bytes_snoc (f_fs self)) in Ec.
    split; rewrite ?W1, ?W5, ?W6; try done; [|by eapply alloc_isolated; [| |apply last_in]|apply HL].
    split; rewrite ?W1, ?W2, ?W3, ?W4, ?W5, ?Ec; [| |apply (fo_offset _ _ Hf)| | | |].
    + eapply (VolInv_kept _ (f_fs self)); [apply Hf|done|done].
    + by eapply (grown_chain (f_fs self)); [| |apply Hf].
    + lia.
    + rewrite (fo_current _ _ Hf), Eb. destruct (f_offset self =? 0) eqn:E0; [done|]. breflect.
      rewrite lookup_app_l; [done|]. pose proof (fo_offset _ _ Hf). unfold chain_bytes, zlen in Eo.
      assert ((f_offset self - 1) / bytes_per_cluster (f_fs self) < Z.of_nat (length l)) by (apply Z.div_lt_upper_bound; lia).
      pose proof (Z.div_pos (f_offset self - 1) (bytes_per_cluster (f_fs self))). lia.
    + intros s Hs'. destruct (fo_size _ _ Hf s Hs'). lia.
    + intros e He. rewrite <- W4. apply W7; [done|apply Hf].
  - destruct H as (HK & Hi' & Hfr & He). assert (∀ x, x ∈ l → 0 ≤ x < fs_end (f_fs self)) as Hin by (intros x Hxl; pose proof (FileOk_in _ _ _ Hf Hxl); lia).
    split_and!; [|done|].
    + eapply FileOk_fs; [done|by eapply (VolInv_kept _ (f_fs self)); [apply Hf|done|by eapply exact_same]|done|auto].
    + split; [apply HK|]. intros c2 l2 Hc Ha. split_and!; [|done|].
      * eapply fs_chain_same; [done|done|]. intros x Hx2. apply He. pose proof (ch_in _ _ _ Hc x Hx2). lia.
      * intros i Hi. eapply chain_byte_kept; [done|done|apply Hc|auto|done].
Qed.

(** ** Writing *)

(** Writing a part of a cluster of the file. *)
Lemma data_write fs l c q window : VolInv fs → c ∈ l → (∀ x, x ∈ l → 2 ≤ x < fs_end fs) → window ≠ [] → Forall is_byte window →
  cluster_at fs c ≤ q → q + zlen window ≤ cluster_at fs c + bytes_per_cluster fs → ∃ n fs1 fs2, 0 < n ≤ zlen window ∧
  on_disk fs (st_seek (fs_disk fs) (SeekStart q)) = Ret (Ok q, fs1) ∧
  on_disk fs1 (st_write (fs_disk fs1) window) = Ret (Ok n, fs2) ∧ Kept (in_cluster fs c) fs fs2 ∧
  agree (fat_bytes fs) (fs_table fs2) (fs_table fs) ∧ VolInv fs2 ∧ fs_status fs2 = fs_status fs ∧ Isolated fs fs2 l l ∧
  agree (v_size (fs_disk fs)) (v_byte (fs_disk fs2)) (spec_write (v_byte (fs_disk fs)) q (take (Z.to_nat n) window)) ∧ (writes_whole → n = zlen window).
Proof.
  intros Hi Hcl Hin Hne Hby Hlo Hhi. destruct (Hi) as [Hv Hx Hs Hm]. destruct (vo_ok fs Hv) as (Hok & _). pose proof (zlen_nonneg window).
  destruct (offset_from_cluster_ok fs c Hv (Hin c Hcl)) as (_ & H1 & H2). pose proof (vol_products fs Hv) as (_ & _ & H3 & H4 & _ & _ & H7).
  pose proof (vo_copies fs Hv). assert (0 ≤ fat_copies fs * fat_bytes fs) by (apply Z.mul_nonneg_nonneg; lia).
  destruct (v_seek (fs_disk fs) q) as (d1 & E1 & U1); [done|lia|]. destruct (U1) as [Hok1 Hs1 Hp1 Hb1 _].
  destruct (v_write d1 window) as (n & d2 & Hn & E2 & U2); [done|done|done|lia|]. rewrite Hp1 in *.
  exists n, (fs_set_disk fs d1), (fs_set_disk fs d2). unfold on_disk. cbn [fs_disk fs_set_disk]. rewrite E1, E2. run.
  assert (zlen (take (Z.to_nat n) window) = n) as Hz by (apply zlen_take; lia).
  assert (Upd (fs_disk fs) d2 (spec_write (v_byte (fs_disk fs)) q (take (Z.to_nat n) window)) (q + n)) as U.
  { eapply Upd_agree; [|by eapply Upd_trans]. intros i Hi'. by apply (spec_write_proper (v_size (fs_disk fs))). }
  destruct (data_write_kept fs d2 _ _ (in_cluster fs c) Hv U) as [HK Ha].
  { intros j Hj. unfold spec_write. rewrite Hz. unfold in_cluster in Hj. case_bool; [lia|done]. }
  { intros j Hj. unfold in_cluster in Hj. lia. }
  split_and!; try done; [lia|lia| | |apply (upd_byte _ _ _ _ U)|intros HW; eapply HW; [exact Hok1|done|done|rewrite Hp1; lia|exact E2]].
  - eapply VolInv_kept; [done|done|]. eapply exact_same; [done|done|by eapply free_now_agree].
  - eapply Isolated_data; [done|done|done|]. intros j Hj. by exists c.
Qed.

(** The file is ready for a write at its position. *)
Record Target self self' l l' : Prop := {
  tg_ok : FileOk self' l';
  tg_offset : f_offset self' = f_offset self;
  tg_size : File_size self' = File_size self;
  tg_dir : File_is_dir self' = File_is_dir self;
  tg_room : f_offset self / bytes_per_cluster (f_fs self) < zlen l';
  tg_kept : ∃ R, Kept R (f_fs self) (f_fs self');
  tg_isolated : Isolated (f_fs self) (f_fs self') l l';
  tg_chain : l' = l ∨ ∃ c, l' = l ++ [c] ∧ entry (fs_fat_type (f_fs self)) (fs_table (f_fs self)) c = Free;
  tg_bytes i : 0 ≤ i < chain_bytes (f_fs self) l → chain_byte (f_fs self') l' i = chain_byte (f_fs self) l i;
  tg_zero i : File_is_dir self = true → chain_bytes (f_fs self) l ≤ i < chain_bytes (f_fs self) l' → chain_byte (f_fs self') l' i = 0;
  tg_status : fs_status (f_fs self) = marked (f_fs self) → fs_status (f_fs self') = marked (f_fs self);
}.

Lemma Target_quiet self l fs' : FileOk self l → Quiet (f_fs self) fs' → f_offset self / bytes_per_cluster (f_fs self) < zlen l →
  Target self (f_set_fs self fs') l l.
Proof.
  intros Hf HQ Hq. pose proof (vi_ok _ (fo_vol _ _ Hf)) as Hv. split; try done.
  - by apply FileOk_quiet.
  - eexists. apply HQ.
  - by apply Isolated_quiet.
  - by left.
  - intros i Hi. apply chain_byte_quiet; [done|done|by intros x; apply FileOk_in|done].
  - intros i _ Hi. lia.
  - intros E. destruct (q_status _ _ HQ) as [?|E']; [done|]. cbn. congruence.
Qed.

Lemma chain_byte_snoc fs l c i : VolOk fs → 0 ≤ i < chain_bytes fs l → chain_byte fs (l ++ [c]) i = chain_byte fs l i.
Proof.
  intros Hv Hi. pose proof (chain_index fs l i Hv Hi). unfold chain_byte, chain_pos. by rewrite lookup_app_l by (unfold zlen in *; lia).
Qed.

Lemma chain_pos_last fs l c i : VolOk fs → chain_bytes fs l ≤ i < chain_bytes fs (l ++ [c]) →
  nth_cluster (l ++ [c]) (i / bytes_per_cluster fs) = c ∧ in_cluster fs c (chain_pos fs (l ++ [c]) i).
Proof.
  intros Hv Hi. destruct (fs_cluster_size_ok fs Hv) as [_ Hcs]. pose proof (zlen_nonneg l).
  assert (nth_cluster (l ++ [c]) (i / bytes_per_cluster fs) = c) as E.
  { rewrite chain_bytes_snoc in Hi. unfold chain_bytes in Hi.
    assert (i / bytes_per_cluster fs = zlen l) as -> by (symmetry; apply (Z.div_unique _ _ _ (i - zlen l * bytes_per_cluster fs)); lia).
    unfold zlen. by rewrite Nat2Z.id, list_lookup_middle. }
  split; [done|]. rewrite <- E at 1. apply chain_pos_in; [done|]. unfold chain_bytes in *. nia.
Qed.

Lemma Target_grown self self' l c : FileOk self l → f_offset self = chain_bytes (f_fs self) l → Grown self self' l c → Target self self' l (l ++ [c]).
Proof.
  intros Hf Eo [Hok Ho Hs Hd Hiso HK Hst Hfree Hz]. pose proof (vi_ok _ (fo_vol _ _ Hf)) as Hv. destruct (fs_cluster_size_ok _ Hv) as [_ Hcs].
  split; try done.
  - rewrite Eo, zlen_app. unfold chain_bytes. rewrite Z.div_mul by lia. change (zlen [c]) with 1. lia.
  - by eexists.
  - right. by exists c.
  - intros i Hi. rewrite chain_byte_snoc; [|apply HK|by destruct (Kept_pos _ _ _ l 0 HK) as [_ ->]].
    eapply chain_byte_kept; [done|done|by intros x; apply FileOk_in| |done].
    intros x j Hx Hj [_ Hzj]. rewrite (clusters_disjoint _ _ _ _ Hv Hj Hzj) in Hx. by apply (FileOk_used _ _ _ Hf Hx).
  - intros i Hdir Hi. destruct (chain_pos_last (f_fs self) l c i Hv Hi) as [_ Hj]. unfold chain_byte.
    destruct (Kept_pos _ _ _ (l ++ [c]) i HK) as [-> _]. by apply Hz.
Qed.

(** Looking at the table first changes nothing. *)
Lemma Target_after self l fs1 self' l' : FileOk self l → Quiet (f_fs self) fs1 → Target (f_set_fs self fs1) self' l l' → Target self self' l l'.
Proof.
  intros Hf HQ [H1 H2 H3 H4 H5 [R H6] H7 H8 H9 H10 H11]. pose proof (vi_ok _ (fo_vol _ _ Hf)) as Hv. pose proof (q_kept _ _ HQ) as HK.
  destruct (Kept_cluster _ _ _ 0 HK) as (_ & Eb & _). destruct (Kept_pos _ _ _ l 0 HK) as [_ Ec]. destruct (Kept_pos _ _ _ l' 0 HK) as [_ Ec'].
  cbn [f_fs f_set_fs f_offset] in *. change (File_is_dir (f_set_fs self fs1)) with (File_is_dir self) in *.
  rewrite Eb in *. rewrite Ec, ?Ec', (Kept_marked _ _ _ HK) in *. split; try done.
  - exists R. eapply Kept_trans; [|done]. eapply Kept_weaken; [|done]. done.
  - eapply Isolated_trans; [done|by apply Isolated_quiet|done].
  - destruct H8 as [?|(c & E & Hc)]; [by left|right]. exists c. split; [done|]. rewrite <- Hc, (ke_type _ _ _ HK). symmetry. apply Quiet_entry; [done|done|].
    assert (c ∈ l') as Hin by (subst; apply elem_of_app; right; by left). pose proof (FileOk_in _ _ _ H1 Hin) as Hr.
    destruct (Kept_cluster _ _ _ 0 H6) as (_ & _ & Ee). destruct (Kept_cluster _ _ _ 0 HK) as (_ & _ & Ee'). lia.
  - intros i Hi. rewrite H9 by done. apply chain_byte_quiet; [done|done|by intros x; apply FileOk_in|done].
  - intros E. apply H11. destruct (q_status _ _ HQ) as [->|E']; [done|]. congruence.
Qed.

Lemma Quiet_choice fs fs' : VolOk fs → Quiet fs fs' → fs_choice fs' = fs_choice fs.
Proof.
  intros Hv [HK Ha Hi _]. unfold fs_choice, alloc_choice. rewrite Hi, (ke_type _ _ _ HK), (ke_total _ _ _ HK).
  pose proof (vo_total fs Hv). destruct (alloc_start_range (next_free_cluster (fs_info fs)) (fs_total_clusters fs)) as [Hs1 Hs2]; [lia|apply Hv|].
  assert (∀ a b, 2 ≤ a → b ≤ fs_total_clusters fs + 2 → first_free (fs_fat_type fs) (fs_table fs') a b = first_free (fs_fat_type fs) (fs_table fs) a b) as E.
  { intros a b Ha' Hb. apply (first_free_agree _ (fat_bytes fs)); [|done]. intros c Hc. apply (fs_entries fs Hv). lia. }
  by rewrite !E by lia.
Qed.

Lemma cluster_for_write_ok self l : FileOk self l → ∃ r self',
  cluster_for_write self (f_offset self mod bytes_per_cluster (f_fs self)) = Ret (r, self') ∧
  ((∃ l', r = Ok (nth_cluster l' (f_offset self / bytes_per_cluster (f_fs self))) ∧ Target self self' l l') ∨
   r = Err NotEnoughSpace ∧ fs_choice (f_fs self) = None ∧ f_offset self = chain_bytes (f_fs self) l ∧ ∃ fs', self' = f_set_fs self fs' ∧ FileOk self' l ∧
     Kept (λ _, False) (f_fs self) fs' ∧ Isolated (f_fs self) fs' l l).
Proof.
  intros Hf. pose proof (vi_ok _ (fo_vol _ _ Hf)) as Hv. destruct (fs_cluster_size_ok _ Hv) as [_ Hcs]. pose proof (fo_offset _ _ Hf) as Ho.
  assert (0 ≤ f_offset self / bytes_per_cluster (f_fs self)) as Hq0 by (apply Z.div_pos; lia).
  unfold cluster_for_write. destruct (_ =? 0) eqn:E; breflect.
  2: { destruct (inside_cluster self l Hf E) as (-> & Hq & _). destruct (nth_cluster_in l (f_offset self / bytes_per_cluster (f_fs self))) as [-> _]; [lia|].
    run. do 2 eexists. split; [done|]. left. exists l. split; [done|]. replace self with (f_set_fs self (f_fs self)) at 2 by (by destruct self).
    apply Target_quiet; [done|by apply Quiet_refl|done]. }
  destruct (next_cluster_ok self l Hf E) as (fs1 & -> & Q1). run.
  destruct (decide (f_offset self / bytes_per_cluster (f_fs self) < zlen l)) as [Hq|Hq].
  { destruct (nth_cluster_in l (f_offset self / bytes_per_cluster (f_fs self))) as [-> _]; [lia|]. do 2 eexists. split; [done|]. left. exists l. split; [done|].
    by apply Target_quiet. }
  rewrite lookup_ge_None_2 by (unfold zlen in Hq; lia). destruct (chain_end_limit self l Hf ltac:(lia)) as [_ Eo].
  pose proof (FileOk_quiet _ _ _ Hf Q1) as Hf1. pose proof (q_kept _ _ Q1) as HK1. destruct (Kept_pos _ _ _ l 0 HK1) as [_ Ec].
  destruct (grow_ok (f_set_fs self fs1) l Hf1) as (fs2 & Ea & H2); [cbn; lia|]. unfold on_fs. rewrite Ea. run.
  cbn [f_fs f_set_fs] in *. rewrite (Quiet_choice _ _ Hv Q1) in *. destruct (fs_choice (f_fs self)) as [c|]; cbn [found]; run.
  - do 2 eexists. split; [done|]. left. exists (l ++ [c]). split.
    + f_equal. symmetry. eapply (chain_pos_last (f_fs self)); [done|]. rewrite chain_bytes_snoc. lia.
    + apply (Target_after self l fs1 _ _ Hf Q1). apply Target_grown; [done|cbn; lia|done].
  - destruct H2 as (Hf2 & HK2 & HI2). do 2 eexists. split; [done|]. right. split_and!; try done. exists fs2. split_and!; [done|done| |].
    + by eapply Kept_trans.
    + eapply Isolated_trans; [done|by apply Isolated_quiet|done].
Qed.

(** The entry after a write: a new date, and the size when the file has grown. *)
Lemma entry_after_write e (o : Z) : Date_fits (dt_date get_current_date_time) → ∃ e',
  (e ← ed_set_modified e get_current_date_time;
   Ret (match size (ed_data e) with Some s => if s <? o then ed_set_size e o else e | None => e end)) = Ret e' ∧
  size (ed_data e') = (λ s, Z.max s o) <$> size (ed_data e) ∧ (∀ t, first_cluster (ed_data e') t = first_cluster (ed_data e) t) ∧
  is_dir (ed_data e') = is_dir (ed_data e) ∧ ed_pos e' = ed_pos e.
Proof.
  intros Hd. destruct (ed_set_modified_ok e get_current_date_time Hd) as (e1 & -> & He). run. eexists. split; [done|].
  pose proof (same_entry_size _ _ He) as Es. pose proof (se_attrs _ _ He) as Ea. rewrite <- Es. unfold is_dir. rewrite <- Ea.
  assert (∀ t, first_cluster (ed_data e1) t = first_cluster (ed_data e) t) as Ef by (intros t; by apply same_entry_first).
  destruct (size (ed_data e1)) as [s|] eqn:E1; cbn; [|split_and!; [done|done|done|apply He]].
  destruct (s <? o) eqn:Elt; breflect.
  - unfold ed_set_size. rewrite E1, (proj2 (Z.eqb_neq o s)) by lia. cbn [negb]. rewrite Z.max_r by lia.
    revert E1. unfold size, is_file, is_dir. cbn. destruct (negb _); [|done]. intros _. split_and!; [done|done|done|apply He].
  - rewrite Z.max_l by lia. split_and!; [done|done|done|apply He].
Qed.

Lemma advance_ok self l o c : FileOk self l → Date_fits (dt_date get_current_date_time) → 0 < o ≤ chain_bytes (f_fs self) l → o ≤ MAX_FILE_SIZE →
  l !! Z.to_nat ((o - 1) / bytes_per_cluster (f_fs self)) = Some c → ∃ self',
  update_dir_entry_after_write (f_set_pos self (Some c) o) = Ret self' ∧ FileOk self' l ∧ f_offset self' = o ∧ f_fs self' = f_fs self ∧
  File_size self' = (λ s, Z.max s o) <$> File_size self ∧ File_is_dir self' = File_is_dir self.
Proof.
  intros [Hv Hch Ho Hfit Hcur Hs He] Hd Hoc Hmax Hc. unfold update_dir_entry_after_write, on_entry. cbn [f_entry f_set_pos f_offset].
  unfold File_size, File_is_dir in *. destruct (f_entry self) as [e|] eqn:Ee.
  - destruct (entry_after_write e o Hd) as (e' & -> & Es & Ef & Edir & Ep). run. eexists. split; [done|]. split; [|done].
    split; unfold File_size; cbn; rewrite ?(proj2 (Z.eqb_neq o 0)) by lia; try done; [lia|lia| |].
    + rewrite Es. destruct (size (ed_data e)) as [s|]; [|done]. intros s' [= <-]. destruct (Hs s eq_refl). lia.
    + intros e1 [= <-]. rewrite Ef. auto.
  - run. eexists. split; [done|]. cbn. rewrite Ee. split; [|done].
    split; unfold File_size; cbn; rewrite ?Ee, ?(proj2 (Z.eqb_neq o 0)) by lia; try done; lia.
Qed.

(** What a write of the bytes [w] does. *)
Record Written self self' l l' (w : list Z) : Prop := {
  wn_ok : FileOk self' l';
  wn_offset : f_offset self' = f_offset self + zlen w;
  wn_size : File_size self' = (λ s, Z.max s (f_offset self + zlen w)) <$> File_size self;
  wn_chain : l' = l ∨ ∃ c, l' = l ++ [c] ∧ entry (fs_fat_type (f_fs self)) (fs_table (f_fs self)) c = Free;
  wn_bytes i : 0 ≤ i → i < chain_bytes (f_fs self) l ∨ i < f_offset self + zlen w →
    chain_byte (f_fs self') l' i = spec_write (chain_byte (f_fs self) l) (f_offset self) w i;
  wn_zero i : File_is_dir self = true → f_offset self + zlen w ≤ i → chain_bytes (f_fs self) l ≤ i < chain_bytes (f_fs self) l' →
    chain_byte (f_fs self') l' i = 0;
  wn_isolated : Isolated (f_fs self) (f_fs self') l l';
  wn_status : fs_status (f_fs self') = marked (f_fs self);
}.

(** The bytes of the chain after a write to the disk within one of its clusters. *)
Lemma written_bytes fs fs' l o w i : VolOk fs → Kept (in_cluster fs (nth_cluster l (o / bytes_per_cluster fs))) fs fs' →
  agree (v_size (fs_disk fs)) (v_byte (fs_disk fs')) (spec_write (v_byte (fs_disk fs)) (chain_pos fs l o) w) → NoDup l →
  (∀ x, x ∈ l → 2 ≤ x < fs_end fs) → 0 ≤ o → o mod bytes_per_cluster fs + zlen w ≤ bytes_per_cluster fs → o < chain_bytes fs l →
  0 ≤ i < chain_bytes fs l → chain_byte fs' l i = spec_write (chain_byte fs l) o w i.
Proof.
  intros Hv HK Hag Hnd Hin Ho Hfit Hol Hi. destruct (fs_cluster_size_ok fs Hv) as [_ Hcs]. unfold chain_byte at 1.
  destruct (Kept_pos _ _ _ l i HK) as [-> _]. set (cs := bytes_per_cluster fs) in *. pose proof (zlen_nonneg w).
  pose proof (chain_index fs l i Hv Hi) as Hki. pose proof (chain_index fs l o Hv ltac:(lia)) as Hko. fold cs in Hki, Hko.
  destruct (nth_cluster_in l (i / cs) Hki) as [Eki Hxi]. destruct (nth_cluster_in l (o / cs) Hko) as [Eko Hxo].
  destruct (cluster_in_data fs _ _ Hv (Hin _ Hxi) (chain_pos_in fs l i Hv Hi)) as (Hd & _ & _). rewrite Hag by done. unfold spec_write.
  pose proof (Z.mod_pos_bound o cs ltac:(lia)). pose proof (Z.mod_pos_bound i cs ltac:(lia)).
  pose proof (Z.div_mod o cs ltac:(lia)) as Do. pose proof (Z.div_mod i cs ltac:(lia)) as Di.
  destruct (decide (o ≤ i < o + zlen w)) as [Hr|Hr].
  - destruct (chain_pos_step fs l o i Hv) as [_ ->]; [lia|fold cs; lia|]. repeat case_bool; try (bsolve || lia). do 2 f_equal. lia.
  - destruct (decide (chain_pos fs l o ≤ chain_pos fs l i < chain_pos fs l o + zlen w)) as [Hp|Hp]; [|repeat case_bool; done || lia].
    exfalso. unfold chain_pos in Hp. fold cs in Hp. assert (i / cs = o / cs) as Eq.
    { assert (nth_cluster l (i / cs) = nth_cluster l (o / cs)) as En.
      { apply (clusters_disjoint fs _ _ (chain_pos fs l i) Hv); [by apply chain_pos_in|]. unfold in_cluster, chain_pos. fold cs. lia. }
      rewrite En in Eki. pose proof (NoDup_lookup _ _ _ _ Hnd Eki Eko). lia. }
    rewrite Eq in Hp, Di. lia.
Qed.

Lemma FileOk_NoDup self l : FileOk self l → NoDup l.
Proof.
  intros []. destruct (f_first_cluster self); [by eapply chain_NoDup, fo_chain0|subst; by apply NoDup_nil].
Qed.

(** The part of [write] behind the choice of the cluster. *)
Lemma write_window self l buf m : FileOk self l → Date_fits (dt_date get_current_date_time) → Forall is_byte buf →
  f_offset self / bytes_per_cluster (f_fs self) < zlen l → 0 < m ≤ zlen buf →
  m ≤ bytes_per_cluster (f_fs self) - f_offset self mod bytes_per_cluster (f_fs self) → f_offset self + m ≤ MAX_FILE_SIZE →
  let c := nth_cluster l (f_offset self / bytes_per_cluster (f_fs self)) in
  ∃ n self',
  (x ← offset_from_cluster (f_fs self) c;
   offset_in_fs ← add_u 64 x (f_offset self mod bytes_per_cluster (f_fs self));
   let? (_, self) := on_fs self (on_disk (f_fs self) (st_seek (fs_disk (f_fs self)) (SeekStart offset_in_fs))) in
   window ← slice buf 0 m;
   let? (written_bytes, self) := on_fs self (on_disk (f_fs self) (st_write (fs_disk (f_fs self)) window)) in
   if written_bytes =? 0 then Ret (Ok 0, self)
   else
     offset ← add_u 32 (f_offset self) (wrap 32 written_bytes);
     let self := f_set_pos self (Some c) offset in
     self ← update_dir_entry_after_write self;
     Ret (Ok written_bytes, self)) = Ret (Ok n, self') ∧ (0 < n ≤ m ∧ (writes_whole → n = m)) ∧ FileOk self' l ∧
  f_offset self' = f_offset self + n ∧ File_size self' = (λ s, Z.max s (f_offset self + n)) <$> File_size self ∧
  Isolated (f_fs self) (f_fs self') l l ∧ fs_status (f_fs self') = fs_status (f_fs self) ∧
  ∀ i, 0 ≤ i < chain_bytes (f_fs self) l →
    chain_byte (f_fs self') l i = spec_write (chain_byte (f_fs self) l) (f_offset self) (take (Z.to_nat n) buf) i.
Proof.
  intros Hf Hd Hby Hq Hm Hroom Hmax. cbv zeta. pose proof (vi_ok _ (fo_vol _ _ Hf)) as Hv. pose proof (fo_offset _ _ Hf) as Ho.
  pose proof (room_ok self l Hf Hq) as (Hr1 & Hr2 & Hr3 & Hr4). destruct (window_ok self l Hf Hq) as (-> & Ew2 & Hw1 & Hw2). run. rewrite Ew2. run.
  assert (0 ≤ f_offset self / bytes_per_cluster (f_fs self)) as Hq0 by (apply Z.div_pos; lia).
  destruct (nth_cluster_in l (f_offset self / bytes_per_cluster (f_fs self)) (conj Hq0 Hq)) as [Ec Hx].
  assert (zlen (take (Z.to_nat m) buf) = m) as Hz by (apply zlen_take; lia).
  destruct (data_write (f_fs self) l (nth_cluster l (f_offset self / bytes_per_cluster (f_fs self)))
    (chain_pos (f_fs self) l (f_offset self)) (take (Z.to_nat m) buf)) as (n & fs1 & fs2 & Hn & E1 & E2 & HK & Ha & Hi & Hst & HI & Hag & HW);
    [apply Hf|done|by intros x; apply FileOk_in|intros E; rewrite E in Hz; change (zlen []) with 0 in Hz; lia|by apply Forall_take|unfold chain_pos; lia|unfold chain_pos; lia|].
  rewrite Hz in Hn, HW. rewrite take_take, Nat.min_l in Hag by lia.
  unfold on_fs at 1. rewrite E1. run. rewrite slice_head by lia. run. cbn [f_fs f_set_fs]. unfold on_fs. rewrite E2. run.
  rewrite (proj2 (Z.eqb_neq n 0)) by lia. unfold MAX_FILE_SIZE in *. cbn [f_offset f_set_fs]. rewrite (wrap_small 32 n), add_u_ok by lia. run.
  destruct (Kept_cluster _ _ _ 0 HK) as (_ & Eb & _). destruct (Kept_pos _ _ _ l 0 HK) as [_ Ecb].
  assert (FileOk (f_set_fs self fs2) l) as Hf2.
  { eapply FileOk_fs; [done|done|done|]. intros x Hxl. apply table_agree; [done|apply HK|done|]. pose proof (FileOk_in _ _ _ Hf Hxl). lia. }
  destruct (advance_ok (f_set_fs self fs2) l (f_offset self + n) (nth_cluster l (f_offset self / bytes_per_cluster (f_fs self))) Hf2 Hd)
    as (self' & E3 & Hf3 & Ho3 & Efs & Es & _); cbn [f_fs f_set_fs]; [rewrite Ecb; lia|unfold MAX_FILE_SIZE; lia| |].
  { rewrite Eb. destruct (chain_pos_step (f_fs self) l (f_offset self) (f_offset self + n - 1)) as [-> _]; [done|lia|lia|done]. }
  change (f_set_fs (f_set_fs self fs1) fs2) with (f_set_fs self fs2). rewrite E3. run. exists n, self'. cbn [f_fs f_set_fs] in Efs. rewrite Efs.
  split_and!; try done; [lia|lia|]. intros i Hii. eapply written_bytes; try done; [by eapply FileOk_NoDup|by intros x; apply FileOk_in|lia| |lia].
  rewrite zlen_take by lia. lia.
Qed.

(** The write fails for want of a cluster; the bytes stay. *)
Record Refused self self' l : Prop := {
  rf_ok : FileOk self' l;
  rf_offset : f_offset self' = f_offset self;
  rf_size : File_size self' = File_size self;
  rf_full : free_now (f_fs self) = 0;
  rf_end : f_offset self = chain_bytes (f_fs self) l;
  rf_bytes i : 0 ≤ i < chain_bytes (f_fs self) l → chain_byte (f_fs self') l i = chain_byte (f_fs self) l i;
  rf_isolated : Isolated (f_fs self) (f_fs self') l l;
}.

(** From the three parts of a write to the whole. *)
Lemma written_target self self1 self2 l l' w : FileOk self l → Target self self1 l l' → fs_status (f_fs self1) = marked (f_fs self) →
  0 < zlen w ≤ bytes_per_cluster (f_fs self) - f_offset self mod bytes_per_cluster (f_fs self) →
  FileOk self2 l' → f_offset self2 = f_offset self1 + zlen w → File_size self2 = (λ s, Z.max s (f_offset self1 + zlen w)) <$> File_size self1 →
  Isolated (f_fs self1) (f_fs self2) l' l' → fs_status (f_fs self2) = fs_status (f_fs self1) →
  (∀ i, 0 ≤ i < chain_bytes (f_fs self1) l' →
    chain_byte (f_fs self2) l' i = spec_write (chain_byte (f_fs self1) l') (f_offset self1) w i) → Written self self2 l l' w.
Proof.
  intros Hf [H1 H2 H3 H4 H5 [R H6] H7 H8 H9 H10 H11] Hst Hw Hok Ho Hs HI Hst2 Hb.
  destruct (Kept_pos _ _ _ l' 0 H6) as [_ Ec]. rewrite H2, ?H3, ?Ec in *. pose proof (fo_offset _ _ Hf).
  assert (∀ i, f_offset self ≤ i < f_offset self + zlen w → i < chain_bytes (f_fs self) l') as Hend.
  { intros i Hi. destruct (fs_cluster_size_ok _ (vi_ok _ (fo_vol _ _ Hf))) as [_ Hcs]. unfold chain_bytes. set (cs := bytes_per_cluster (f_fs self)) in *.
    pose proof (Z.div_mod (f_offset self) cs ltac:(lia)). assert ((f_offset self / cs + 1) * cs ≤ zlen l' * cs) by (apply Z.mul_le_mono_nonneg_r; lia). lia. }
  assert (chain_bytes (f_fs self) l ≤ chain_bytes (f_fs self) l') as Hle.
  { destruct H8 as [->|(c & -> & _)]; [lia|]. rewrite chain_bytes_snoc. destruct (fs_cluster_size_ok _ (vi_ok _ (fo_vol _ _ Hf))). lia. }
  pose proof (fo_fits _ _ Hf) as Hfits. split; try done.
  - intros i Hi Hor. rewrite Hb.
    + unfold spec_write. case_bool; [done|]. apply H9. lia.
    + split; [done|]. destruct (decide (f_offset self ≤ i < f_offset self + zlen w)); [by apply Hend|lia].
  - intros i Hdir Hi1 Hi2. rewrite Hb by lia. unfold spec_write. case_bool; [lia|]. by apply H10.
  - by eapply Isolated_trans.
  - by rewrite Hst2.
Qed.

Lemma File_write_ok self l buf : FileOk self l → Date_fits (dt_date get_current_date_time) → Forall is_byte buf → buf ≠ [] →
  f_offset self < MAX_FILE_SIZE → ∃ r self', File_write self buf = Ret (r, self') ∧
  ((∃ n l', r = Ok n ∧ (0 < n ≤ zlen buf ∧ (writes_whole → n = Z.min (Z.min (zlen buf)
      (bytes_per_cluster (f_fs self) - f_offset self mod bytes_per_cluster (f_fs self))) (MAX_FILE_SIZE - f_offset self))) ∧
      Written self self' l l' (take (Z.to_nat n) buf)) ∨ r = Err NotEnoughSpace ∧ Refused self self' l).
Proof.
  intros Hf Hd Hby Hne Hmax. pose proof (vi_ok _ (fo_vol _ _ Hf)) as Hv. destruct (fs_cluster_size_ok _ Hv) as [Ecs Hcs]. pose proof (fo_offset _ _ Hf) as Ho.
  assert (0 < zlen buf) by (destruct buf; [done|rewrite zlen_cons; pose proof (zlen_nonneg buf); lia]).
  unfold File_write. rewrite Ecs. run. unfold rem_u. rewrite (proj2 (Z.eqb_neq _ 0)) by lia. run.
  pose proof (Z.mod_pos_bound (f_offset self) (bytes_per_cluster (f_fs self)) ltac:(lia)) as Hmod. unfold MAX_FILE_SIZE in *.
  rewrite sub_u_ok by lia. run. rewrite sub_u_ok by lia. run.
  remember (Z.min (Z.min (zlen buf) _) _) as m eqn:Em. rewrite (proj2 (Z.eqb_neq m 0)) by lia.
  destruct (mark_quiet (f_fs self) Hv) as (fs1 & E1 & Q1 & Hst1). unfold on_fs at 1. rewrite E1. run.
  pose proof (FileOk_quiet _ _ _ Hf Q1) as Hf1. pose proof (q_kept _ _ Q1) as HK1. destruct (Kept_cluster _ _ _ 0 HK1) as (_ & Eb & _).
  destruct (cluster_for_write_ok (f_set_fs self fs1) l Hf1) as (r & self2 & E2 & H2). cbn [f_offset f_fs f_set_fs] in E2. rewrite Eb in E2. rewrite E2. run.
  destruct H2 as [(l' & -> & HT)|(-> & Hnone & Hend & fs2 & -> & Hf2 & HK2 & HI2)]; cbn [f_offset f_fs f_set_fs] in *; rewrite ?Eb.
  - run. pose proof (tg_status _ _ _ _ HT) as Hst. cbn [f_fs f_set_fs] in Hst. rewrite (Kept_marked _ _ _ HK1) in Hst. specialize (Hst Hst1).
    pose proof (Target_after self l fs1 self2 l' Hf Q1 HT) as HT'. destruct (tg_kept _ _ _ _ HT') as [R2 HK2]. destruct (Kept_cluster _ _ _ 0 HK2) as (_ & Eb2 & _).
    pose proof (tg_offset _ _ _ _ HT') as Eo. pose proof (tg_room _ _ _ _ HT') as Hroom.
    destruct (write_window self2 l' buf m (tg_ok _ _ _ _ HT')) as (n & self3 & E3 & [Hn HW] & W1 & W2 & W3 & W4 & W5 & W6); rewrite ?Eb2, ?Eo; try done || lia.
    { unfold MAX_FILE_SIZE. lia. }
    rewrite Eb2, Eo in E3. do 2 eexists. split; [exact E3|]. left. exists n, l'. split; [done|]. split; [split; [lia|intros HWw; by rewrite (HW HWw)]|].
    assert (zlen (take (Z.to_nat n) buf) = n) as Hz by (apply zlen_take; lia). rewrite Eo in W2, W3.
    eapply written_target; rewrite ?Hz, ?Eo; try (done || lia). by rewrite <- Eo.
  - do 2 eexists. split; [done|]. right. split; [done|]. destruct (Kept_pos _ _ _ l 0 HK1) as [_ Ec]. rewrite Ec in Hend.
    assert (Kept (λ _, False) (f_fs self) fs2) as HK by (by eapply Kept_trans). split; try done.
    + apply no_choice; [done|]. by rewrite <- (Quiet_choice _ _ Hv Q1).
    + intros i Hi. eapply chain_byte_kept; [done|done|by intros x; apply FileOk_in|auto|done].
    + eapply Isolated_trans; [exact HK1|by apply Isolated_quiet|done].
Qed.

(** Nothing to write, or no room for a larger size. *)
Lemma File_write_none self l buf : FileOk self l → buf = [] ∨ f_offset self = MAX_FILE_SIZE → File_write self buf = Ret (Ok 0, self).
Proof.
  intros Hf Hor. destruct (fs_cluster_size_ok _ (vi_ok _ (fo_vol _ _ Hf))) as [Ecs Hcs]. pose proof (fo_offset _ _ Hf) as Ho. unfold MAX_FILE_SIZE in *.
  unfold File_write, MAX_FILE_SIZE. rewrite Ecs. run. unfold rem_u. rewrite (proj2 (Z.eqb_neq _ 0)) by lia. run.
  pose proof (Z.mod_pos_bound (f_offset self) (bytes_per_cluster (f_fs self)) ltac:(lia)) as Hmod. pose proof (zlen_nonneg buf).
  rewrite sub_u_ok by lia. run. rewrite sub_u_ok by lia. run. rewrite (proj2 (Z.eqb_eq _ 0)); [done|].
  destruct Hor as [->|Hor]; [change (zlen []) with 0|]; lia.
Qed.

(** ** Seeking *)

Lemma clusters_from_bytes_ok fs b : VolOk fs → 0 ≤ b < 2 ^ 32 →
  fs_clusters_from_bytes fs b = Ret ((b + bytes_per_cluster fs - 1) / bytes_per_cluster fs) ∧
  0 ≤ (b + bytes_per_cluster fs - 1) / bytes_per_cluster fs < 2 ^ 32.
Proof.
  intros Hv Hb. destruct (fs_cluster_size_ok fs Hv) as [Ecs Hcs]. unfold fs_clusters_from_bytes, clusters_from_bytes, fs_cluster_size in *.
  set (cs := bytes_per_cluster fs) in *. rewrite Ecs. run. rewrite add_u_ok by lia. run. rewrite sub_u_ok by lia. run.
  assert (0 ≤ (b + cs - 1) / cs < 2 ^ 32) as Hr by (split; [apply Z.div_pos; lia|apply Z.div_lt_upper_bound; nia]).
  unfold div_u. rewrite (proj2 (Z.eqb_neq cs 0)) by lia. run. rewrite wrap_small by lia. done.
Qed.

Lemma bytes_from_clusters_ok fs k : VolOk fs → 0 ≤ k ≤ fs_total_clusters fs → bytes_from_clusters fs k = Ret (k * bytes_per_cluster fs).
Proof.
  intros Hv Hk. unfold bytes_from_clusters, sectors_from_clusters, bytes_from_sectors, bytes_per_cluster.
  pose proof (vo_sectors fs Hv). pose proof (vo_bps fs Hv). pose proof (vo_spc fs Hv). pose proof (vol_products fs Hv) as (_ & ? & _ & _ & ? & _ & _).
  pose proof (vo_before fs Hv). pose proof (vo_reserved fs Hv). pose proof (vo_spf fs Hv).
  assert (0 ≤ k * b_sectors_per_cluster (fs_bpb fs) ≤ fs_total_clusters fs * b_sectors_per_cluster (fs_bpb fs)) as Hm
    by (split; [apply Z.mul_nonneg_nonneg; lia|apply Z.mul_le_mono_nonneg_r; lia]).
  rewrite mul_u_ok by lia. run. rewrite mul_u_ok; [f_equal; lia|]. set (x := k * _) in *. assert (x < 2 ^ 32) by lia. split; [apply Z.mul_nonneg_nonneg; lia|].
  apply Z.le_lt_trans with (x * 4096); [apply Z.mul_le_mono_nonneg_l; lia|lia].
Qed.

(** The slice of the tables, after reads. *)
Definition read_only fs (d : DiskSlice (FileSystem S)) : Prop := Step (fs_slice fs) d (v_byte (fs_slice fs)).

Lemma read_only_quiet fs d : VolOk fs → read_only fs d → Quiet fs (sl_inner d) ∧ v_ok d ∧ v_size d = fat_bytes fs ∧ agree (fat_bytes fs) (v_byte d) (fs_table fs).
Proof.
  intros Hv St. destruct (Step_ok _ _ _ St) as (Hok' & Hsz & Hag). destruct (slice_kept fs d Hv Hok' (Step_frame _ _ _ St)) as (HK & Hi & Htab & Hst).
  split; [|done]. split; [done|by rewrite Htab|done|by destruct Hst as [?|[? _]]; [left|right]].
Qed.

Lemma read_only_next fs d c l k x : VolOk fs → read_only fs d → fs_chain fs c l → l !! k = Some x → ∃ d',
  ci_next (iter_at d (fs_fat_type fs) (Some x)) = Ret (Ok <$> l !! Datatypes.S k, iter_at d' (fs_fat_type fs) (l !! Datatypes.S k)) ∧ read_only fs d'.
Proof.
  intros Hv St [Hc Hin Hu] Hk. destruct (read_only_quiet fs d Hv St) as (HQ & Hok & Hsz & Hag).
  assert (in_table (fs_fat_type fs) (fat_bytes fs) x) as Hx.
  { apply (fs_entries fs Hv). apply list_elem_of_lookup_2 in Hk. specialize (Hin x Hk). unfold fs_end in Hin. lia. }
  destruct (ci_next_ok (fs_fat_type fs) d x) as (d' & E & St'); [done|by rewrite Hsz|]. rewrite (entry_agree _ (fat_bytes fs) _ (fs_table fs)) in E by done.
  exists d'. split; [|unfold read_only; by eapply Step_same]. rewrite E. pose proof (chain_next _ _ _ _ _ _ Hc Hk) as Hn.
  destruct (l !! Datatypes.S k) as [y|]; [by rewrite Hn|]. destruct (entry _ _ x) as [|n| |] eqn:En; try done. by destruct (Hn n).
Qed.

Lemma seek_loop_ok fs c l p k : VolOk fs → fs_chain fs c l → k < 2 ^ 32 → ∀ n i d x, n = Z.to_nat (k - i) → 0 ≤ i ≤ k → l !! Z.to_nat i = Some x → read_only fs d →
  ∃ d' o, seek_loop (range i k) (iter_at d (fs_fat_type fs) (Some x)) x p =
    Ret (Ok (if k <? zlen l then (nth_cluster l k, p) else (nth_cluster l (zlen l - 1), wrap 32 (chain_bytes fs l))), iter_at d' (fs_fat_type fs) o) ∧ read_only fs d'.
Proof.
  intros Hv Hch Hk32 n. destruct (chain_fuel_ok fs c l Hv Hch) as [_ Hlen]. induction n as [|n IH]; intros i d x Hn Hi Hx Hd.
  - assert (i = k) as -> by lia. pose proof (lookup_lt_Some _ _ _ Hx). assert (range k k = []) as -> by (unfold range; by rewrite Z.sub_diag).
    cbn. exists d, (Some x). rewrite (proj2 (Z.ltb_lt k (zlen l))) by (unfold zlen; lia). by rewrite Hx.
  - rewrite range_cons by lia. cbn [seek_loop]. destruct (read_only_next fs d c l (Z.to_nat i) x Hv Hd Hch Hx) as (d' & -> & Hd'). run.
    replace (Datatypes.S (Z.to_nat i)) with (Z.to_nat (i + 1)) by lia. destruct (l !! Z.to_nat (i + 1)) as [y|] eqn:Ey; cbn [fmap option_fmap option_map].
    + apply IH; [lia|lia|done|done].
    + apply lookup_ge_None in Ey. apply lookup_lt_Some in Hx as Hlt. assert (zlen l = i + 1) as El by (unfold zlen; lia).
      rewrite add_u_ok by lia. run. cbn [ci_fat iter_at]. destruct (read_only_quiet fs d' Hv Hd') as (HQ & _). pose proof (q_kept _ _ HQ) as HK.
      rewrite (bytes_from_clusters_ok _ (i + 1) (ke_ok _ _ _ HK)) by (rewrite (ke_total _ _ _ HK); lia). run.
      destruct (Kept_cluster _ _ _ 0 HK) as (_ & -> & _). exists d', None. split; [|done]. rewrite (proj2 (Z.ltb_ge k (zlen l))) by lia.
      unfold chain_bytes. rewrite El. replace (i + 1 - 1) with i by lia. by rewrite Hx.
Qed.

(** What a seek does: the position is the new one, or the end of the chain. *)
Record Sought self self' l (p : Z) : Prop := {
  so_ok : FileOk self' l;
  so_offset : f_offset self' = p;
  so_size : File_size self' = File_size self;
  so_first : f_first_cluster self' = f_first_cluster self;
  so_entry : f_entry self' = f_entry self;
  so_quiet : Quiet (f_fs self) (f_fs self');
}.

Lemma Sought_pos self l fs' p c : FileOk self l → Quiet (f_fs self) fs' → 0 ≤ p ≤ limit self l → p ≤ MAX_FILE_SIZE →
  c = (if p =? 0 then None else l !! Z.to_nat ((p - 1) / bytes_per_cluster (f_fs self))) → Sought self (f_set_pos (f_set_fs self fs') c p) l p.
Proof.
  intros Hf HQ Hp Hm Hc. pose proof (q_kept _ _ HQ) as HK. destruct (Kept_cluster _ _ _ 0 HK) as (_ & Eb & _). destruct (Kept_pos _ _ _ l 0 HK) as [_ Ec].
  split; try done. apply FileOk_pos; [by apply FileOk_quiet|unfold limit in *; cbn; by rewrite Ec|done|cbn; by rewrite Eb].
Qed.

(** The position is at most the end of the file. *)
Lemma new_position_range self l pos p : FileOk self l → (∀ x, pos = SeekStart x → 0 ≤ x) → new_position self pos = Ok p →
  0 ≤ p ≤ MAX_FILE_SIZE ∧ ∀ s, File_size self = Some s → p ≤ s.
Proof.
  intros Hf Hx. unfold new_position, checked_u32, MAX_FILE_SIZE. pose proof (fo_offset _ _ Hf) as Ho. pose proof (fo_size _ _ Hf) as Hs. unfold MAX_FILE_SIZE in *.
  destruct pos as [x|x|x]; [specialize (Hx x eq_refl)|..]; destruct (File_size self) as [s|]; try (specialize (Hs s eq_refl));
    repeat (case_bool || case_match); try done; intros [= <-]; split; intros; simplify_eq; bsolve || lia.
Qed.

Lemma div_up p cs : 0 < cs → (p + cs - 1) / cs = (p - 1) / cs + 1.
Proof. intros Hc. replace (p + cs - 1) with (p - 1 + 1 * cs) by lia. apply Z.div_add. lia. Qed.

(** Where the cluster of a position is in the chain. *)
Lemma behind_chain fs l p : VolOk fs → 0 < p → (p - 1) / bytes_per_cluster fs < zlen l ↔ p ≤ chain_bytes fs l.
Proof.
  intros Hv Hp. destruct (fs_cluster_size_ok fs Hv) as [_ Hcs]. unfold chain_bytes. set (cs := bytes_per_cluster fs) in *. split.
  - intros H. pose proof (Z.div_mod (p - 1) cs ltac:(lia)). pose proof (Z.mod_pos_bound (p - 1) cs ltac:(lia)).
    assert (((p - 1) / cs + 1) * cs ≤ zlen l * cs) by (apply Z.mul_le_mono_nonneg_r; lia). lia.
  - intros H. apply Z.div_lt_upper_bound; lia.
Qed.

(** The walk along the chain. *)
Lemma seek_walk self l c p : FileOk self l → f_first_cluster self = Some c → 0 < p ≤ MAX_FILE_SIZE → ∃ iter iter' c',
  cluster_iter (f_fs self) c = Ret iter ∧
  seek_loop (range 0 ((p - 1) / bytes_per_cluster (f_fs self))) iter c p = Ret (Ok (c', Z.min p (chain_bytes (f_fs self) l)), iter') ∧
  Quiet (f_fs self) (sl_inner (ci_fat iter')) ∧
  0 < Z.min p (chain_bytes (f_fs self) l) ∧
  l !! Z.to_nat ((Z.min p (chain_bytes (f_fs self) l) - 1) / bytes_per_cluster (f_fs self)) = Some c'.
Proof.
  intros Hf Ef Hp. pose proof (vi_ok _ (fo_vol _ _ Hf)) as Hv. pose proof (fo_chain _ _ Hf) as Hch. rewrite Ef in Hch.
  destruct (fs_cluster_size_ok _ Hv) as [_ Hcs]. pose proof (chain_head _ _ _ _ (ch_chain _ _ _ Hch)) as Hhd.
  assert (1 ≤ zlen l) by (destruct l; [done|rewrite zlen_cons; pose proof (zlen_nonneg l); lia]). unfold MAX_FILE_SIZE in *.
  pose proof (behind_chain (f_fs self) l p Hv ltac:(lia)) as Hb. set (cs := bytes_per_cluster (f_fs self)) in *. set (k := (p - 1) / cs) in *.
  assert (0 ≤ k < 2 ^ 32) as Hk by (split; [apply Z.div_pos; lia|apply Z.div_lt_upper_bound; nia]).
  unfold cluster_iter. destruct (fs_slice_ok _ Hv) as [-> Hok]. run.
  destruct (seek_loop_ok (f_fs self) c l p k Hv Hch ltac:(lia) (Z.to_nat (k - 0)) 0 (fs_slice (f_fs self)) c) as (d' & o & E & Hd);
    [done|lia|done|unfold read_only; eexists; by apply Upd_refl|].
  unfold ClusterIterator_new. change (mkIter (fs_slice (f_fs self)) (fs_fat_type (f_fs self)) (Some c) false) with (iter_at (fs_slice (f_fs self)) (fs_fat_type (f_fs self)) (Some c)).
  destruct (read_only_quiet _ d' Hv Hd) as (HQ & _). eexists _, _, (if k <? zlen l then nth_cluster l k else nth_cluster l (zlen l - 1)). split; [done|]. rewrite E.
  destruct (k <? zlen l) eqn:Ek; breflect.
  - rewrite Z.min_l by (by apply Hb). split; [done|]. split_and!; [done|lia|]. apply nth_cluster_in. lia.
  - assert (chain_bytes (f_fs self) l < p) as Hlt by lia. assert (0 < chain_bytes (f_fs self) l) by (unfold chain_bytes; fold cs; nia).
    rewrite Z.min_r, wrap_small by lia. split; [done|]. split_and!; [done|lia|].
    assert ((chain_bytes (f_fs self) l - 1) / cs = zlen l - 1) as ->; [|apply nth_cluster_in; lia].
    symmetry. apply (Z.div_unique _ _ _ (cs - 1)); unfold chain_bytes; fold cs; lia.
Qed.

Lemma File_seek_ok self l pos p : FileOk self l → (∀ x, pos = SeekStart x → 0 ≤ x) → new_position self pos = Ok p → ∃ self',
  File_seek self pos = Ret (Ok (Z.min p (chain_bytes (f_fs self) l)), self') ∧ Sought self self' l (Z.min p (chain_bytes (f_fs self) l)).
Proof.
  intros Hf Hx Hp. pose proof (vi_ok _ (fo_vol _ _ Hf)) as Hv. destruct (new_position_range self l pos p Hf Hx Hp) as [Hpr Hps].
  destruct (fs_cluster_size_ok _ Hv) as [_ Hcs]. pose proof (limit_range _ _ Hf) as [Hl1 Hl2]. pose proof (fo_offset _ _ Hf) as Ho. pose proof (zlen_nonneg l).
  assert (0 ≤ chain_bytes (f_fs self) l) as Hcb by (unfold chain_bytes; apply Z.mul_nonneg_nonneg; lia).
  assert (Z.min p (chain_bytes (f_fs self) l) ≤ limit self l) as Hlim.
  { unfold limit in *. destruct (File_size self) as [s|]; cbn in *; [specialize (Hps s eq_refl)|]; lia. }
  unfold MAX_FILE_SIZE in *. unfold File_seek. rewrite Hp. destruct (p =? f_offset self) eqn:E0; breflect.
  { subst p. rewrite Z.min_l by lia. exists self. split; [done|]. split; try done. by apply Quiet_refl. }
  destruct (clusters_from_bytes_ok (f_fs self) p Hv) as [-> HK1]; [lia|]. run. destruct (clusters_from_bytes_ok (f_fs self) (f_offset self) Hv) as [-> HK2]; [lia|]. run.
  set (cs := bytes_per_cluster (f_fs self)) in *. destruct (p =? 0) eqn:Ep; breflect.
  { subst p. run. rewrite Z.min_l by lia. eexists. split; [done|]. replace self with (f_set_fs self (f_fs self)) at 2 by (by destruct self).
    apply Sought_pos; [done|by apply Quiet_refl|lia|unfold MAX_FILE_SIZE; lia|done]. }
  pose proof (behind_chain (f_fs self) l p Hv ltac:(lia)) as Hb. fold cs in Hb. rewrite !div_up in * by lia.
  destruct (_ =? _) eqn:Ek; breflect.
  - assert (0 < f_offset self) as Hpos.
    { destruct (decide (f_offset self = 0)) as [Z0|]; [|lia]. rewrite Z0 in Ek. assert ((0 - 1) / cs = -1) by (symmetry; apply (Z.div_unique _ _ _ (cs - 1)); lia).
      pose proof (Z.div_pos (p - 1) cs). lia. }
    assert ((p - 1) / cs = (f_offset self - 1) / cs) as Eq by lia. pose proof (behind_chain (f_fs self) l (f_offset self) Hv Hpos) as Hb2. fold cs in Hb2.
    rewrite Z.min_l in * by (apply Hb; rewrite Eq; apply Hb2; lia). run. eexists. split; [done|].
    replace self with (f_set_fs self (f_fs self)) at 2 by (by destruct self). apply Sought_pos; [done|by apply Quiet_refl|lia|unfold MAX_FILE_SIZE; lia|].
    rewrite (proj2 (Z.eqb_neq p 0)) by lia. fold cs. rewrite Eq, (fo_current _ _ Hf), (proj2 (Z.eqb_neq (f_offset self) 0)) by lia. done.
  - destruct (f_first_cluster self) as [c|] eqn:Ef.
    + destruct (seek_walk self l c p Hf Ef) as (iter & iter' & c' & E1 & E2 & HQ & Hpos & Ec); [unfold MAX_FILE_SIZE; lia|]. fold cs in E2, Ec.
      pose proof (Z.div_pos (p - 1) cs). unfold debug_assert. rewrite (proj2 (Z.ltb_lt 0 ((p - 1) / cs + 1))) by lia. replace (if overflow_checks then assert true else Ret tt) with (Ret tt) by (by destruct overflow_checks).
      run. rewrite sub_u_ok by lia. run. rewrite E1. run. replace ((p - 1) / cs + 1 - 1) with ((p - 1) / cs) by lia. rewrite E2. run.
      eexists. split; [done|]. apply Sought_pos; [done|done|lia|unfold MAX_FILE_SIZE; lia|]. by rewrite (proj2 (Z.eqb_neq _ 0)) by lia.
    + pose proof (fo_chain _ _ Hf) as Hch. rewrite Ef in Hch. subst l. run. rewrite Z.min_r in * by (change (chain_bytes (f_fs self) []) with 0; lia).
      change (chain_bytes (f_fs self) []) with 0 in *. eexists. split; [done|]. replace self with (f_set_fs self (f_fs self)) at 2 by (by destruct self).
      apply Sought_pos; [done|by apply Quiet_refl|lia|unfold MAX_FILE_SIZE; lia|done].
Qed.

(** ** Truncating *)

Lemma Isolated_entries fs fs' l l' : VolOk fs → Kept (λ _, False) fs fs' →
  (∀ x, 0 ≤ x < fs_end fs → x ∉ l → entry (fs_fat_type fs) (fs_table fs') x = entry (fs_fat_type fs) (fs_table fs) x) →
  (∀ x, x ∈ l' → x ∈ l) → Isolated fs fs' l l'.
Proof.
  intros Hv HK He Hl. split; [apply HK|]. intros c2 l2 Hc Ha. split_and!.
  - eapply fs_chain_same; [done|done|]. intros x Hx. apply He; [|by apply Ha]. pose proof (ch_in _ _ _ Hc x Hx). lia.
  - intros x Hx Hx'. apply (Ha x Hx). auto.
  - intros i Hi. eapply chain_byte_kept; [done|done|by intros x; apply (ch_in _ _ _ Hc)|auto|done].
Qed.

Lemma ed_set_size_ok e o : size (ed_data (ed_set_size e o)) = (λ _, o) <$> size (ed_data e) ∧
  (∀ t, first_cluster (ed_data (ed_set_size e o)) t = first_cluster (ed_data e) t) ∧ is_dir (ed_data (ed_set_size e o)) = is_dir (ed_data e).
Proof.
  unfold ed_set_size. destruct (size (ed_data e)) as [s|] eqn:E; cbn; [|done]. destruct (o =? s) eqn:Eo; breflect; cbn; [by rewrite E; subst|].
  split_and!; [|done|done]. revert E. unfold size, is_file, is_dir. cbn. by destruct (negb _).
Qed.

(** What is left of a chain when the file ends at [o]. *)
Definition kept_clusters fs (o : Z) l : list Z := take (Z.to_nat ((o - 1) / bytes_per_cluster fs + 1)) l.

Record Truncated self self' l : Prop := {
  tr_ok : FileOk self' (kept_clusters (f_fs self) (f_offset self) l);
  tr_offset : f_offset self' = f_offset self;
  tr_size : File_size self' = (λ _, f_offset self) <$> File_size self;
  tr_bytes i : 0 ≤ i < f_offset self → chain_byte (f_fs self') (kept_clusters (f_fs self) (f_offset self) l) i = chain_byte (f_fs self) l i;
  tr_free : free_now (f_fs self') + zlen (kept_clusters (f_fs self) (f_offset self) l) = free_now (f_fs self) + zlen l;
  tr_isolated : Isolated (f_fs self) (f_fs self') l (kept_clusters (f_fs self) (f_offset self) l);
}.

Lemma kept_none fs l : VolOk fs → kept_clusters fs 0 l = [].
Proof.
  intros Hv. destruct (fs_cluster_size_ok fs Hv) as [_ Hcs]. unfold kept_clusters.
  assert ((0 - 1) / bytes_per_cluster fs = -1) as -> by (symmetry; apply (Z.div_unique _ _ _ (bytes_per_cluster fs - 1)); lia). done.
Qed.

(** The whole chain goes. *)
Lemma truncate_all self l e : FileOk self l → f_entry self = Some e → f_offset self = 0 → ∃ self', truncate self = Ret (Ok tt, self') ∧ Truncated self self' l.
Proof.
  intros Hf Ee E0. pose proof (vi_ok _ (fo_vol _ _ Hf)) as Hv. unfold truncate. rewrite Ee, E0. cbn [Z.eqb f_current_cluster f_set_entry].
  rewrite (fo_current _ _ Hf), E0. cbn [Z.eqb f_offset f_set_entry f_first_cluster f_fs]. rewrite E0. cbn [Z.eqb Z.ltb].
  replace (debug_assert true) with (Ret tt) by (unfold debug_assert; by destruct overflow_checks). run.
  destruct (ed_set_size_ok e 0) as (S1 & S2 & S3). destruct (ed_set_first_ok (ed_set_size e 0) None (fs_fat_type (f_fs self)) I) as (F1 & F2 & F3).
  assert (∀ fs', VolInv fs' → Kept (λ _, False) (f_fs self) fs' → free_now fs' = free_now (f_fs self) + zlen l →
    (∀ x, 0 ≤ x < fs_end (f_fs self) → x ∉ l → entry (fs_fat_type (f_fs self)) (fs_table fs') x = entry (fs_fat_type (f_fs self)) (fs_table (f_fs self)) x) →
    Truncated self (mkFile None (f_current_cluster self) 0 (Some (ed_set_first_cluster (ed_set_size e 0) None (fs_fat_type (f_fs self)))) fs') l) as Hgoal.
  { intros fs' Hi HK Hfree He. split; rewrite E0, ?kept_none by done.
    - split; cbn; try done; [by rewrite (fo_current _ _ Hf), E0| |].
      + unfold File_size. cbn. rewrite F2, S1. destruct (size (ed_data e)); [|done]. intros s [= <-]. unfold MAX_FILE_SIZE. change (chain_bytes fs' []) with 0. lia.
      + intros e1 [= <-]. by rewrite (ke_type _ _ _ HK), F1.
    - done.
    - unfold File_size. cbn. by rewrite Ee, F2, S1.
    - intros i Hi2. lia.
    - cbn [f_fs]. change (zlen []) with 0. lia.
    - apply Isolated_entries; try done. intros x Hx. by apply not_elem_of_nil in Hx. }
  destruct (f_first_cluster self) as [c|] eqn:Ef.
  - pose proof (fo_chain _ _ Hf) as Hch. rewrite Ef in Hch. destruct (free_cluster_chain_ok (f_fs self) c l Hv (vi_count _ (fo_vol _ _ Hf)) Hch) as (fs' & E & [HK H1 H2 H3 H4] & Ho).
    unfold on_fs. rewrite E. run. eexists. split; [done|]. unfold f_set_first, f_set_fs. cbn. rewrite E0. apply Hgoal; try done. by eapply VolInv_kept; [apply Hf|done|done].
  - eexists. split; [done|]. pose proof (fo_chain _ _ Hf) as Hch. rewrite Ef in Hch. subst l. unfold f_set_entry. rewrite Ef, E0. apply Hgoal; [apply (fo_vol _ _ Hf)|by apply Kept_refl|change (zlen []) with 0; lia|done].
Qed.

Lemma in_drop l k x : x ∈ drop k l → x ∈ l.
Proof. intros H. rewrite <- (take_drop k l). apply elem_of_app. by right. Qed.
Lemma in_take l k x : x ∈ take k l → x ∈ l.
Proof. intros H. rewrite <- (take_drop k l). apply elem_of_app. by left. Qed.

Lemma fs_chain_drop fs c l k x : fs_chain fs c l → l !! k = Some x → fs_chain fs x (x :: drop (Datatypes.S k) l).
Proof.
  intros [Hc Hin Hu] Hk. rewrite <- (drop_S l x k Hk).
  split; [by eapply chain_drop|intros y Hy%in_drop; auto|intros y Hy%in_drop; auto].
Qed.

(** The chain after the cut. *)
Lemma cut_chain fs fs' c l k x : Kept (λ _, False) fs fs' → fs_chain fs c l → l !! k = Some x → entry (fs_fat_type fs) (fs_table fs') x = EndOfChain →
  (∀ y, 0 ≤ y < fs_end fs → y ∉ x :: drop (Datatypes.S k) l → entry (fs_fat_type fs) (fs_table fs') y = entry (fs_fat_type fs) (fs_table fs) y) →
  fs_chain fs' c (take (Datatypes.S k) l).
Proof.
  intros HK [Hc Hin Hu] Hk He Ho. pose proof (chain_NoDup _ _ _ _ Hc) as Hnd. destruct (Kept_cluster _ _ _ 0 HK) as (_ & _ & Ee). pose proof (ke_type _ _ _ HK) as Et.
  assert (∀ y, y ∈ take k l → entry (fs_fat_type fs) (fs_table fs') y = entry (fs_fat_type fs) (fs_table fs) y) as Hold.
  { intros y Hy. apply Ho; [pose proof (Hin y (in_take _ _ _ Hy)); lia|]. rewrite <- (drop_S l x k Hk). intros Hd.
    rewrite <- (take_drop k l) in Hnd. apply NoDup_app in Hnd as (_ & Hd' & _). by apply (Hd' y). }
  split; rewrite ?Et, ?Ee.
  - eapply (chain_cut _ (fs_table fs)); [done|done|done|]. intros n. by rewrite He.
  - intros y Hy%in_take. auto.
  - intros y Hy. rewrite (take_S_r l k x Hk) in Hy. apply elem_of_app in Hy as [Hy| ->%list_elem_of_singleton]; [|by rewrite He].
    rewrite Hold by done. apply Hu. by eapply in_take.
Qed.

Lemma debug_assert_true : debug_assert true = Ret tt.
Proof. unfold debug_assert. by destruct overflow_checks. Qed.

Lemma truncate_some self l e : FileOk self l → f_entry self = Some e → 0 < f_offset self → ∃ self', truncate self = Ret (Ok tt, self') ∧ Truncated self self' l.
Proof.
  intros Hf Ee Hpos. destruct (fo_vol _ _ Hf) as [Hv Hx Hsy Hmi]. destruct (fs_cluster_size_ok _ Hv) as [_ Hcs]. pose proof (fo_fits _ _ Hf) as Hfit.
  set (k := (f_offset self - 1) / bytes_per_cluster (f_fs self)) in *.
  assert (0 ≤ k < zlen l) as Hk by (split; [apply Z.div_pos; lia|by apply behind_chain]). destruct (nth_cluster_in l k Hk) as [Ek Hin].
  unfold truncate. rewrite Ee, (proj2 (Z.eqb_neq (f_offset self) 0)) by lia. cbn [f_current_cluster f_set_entry f_offset f_fs].
  rewrite (fo_current _ _ Hf), (proj2 (Z.eqb_neq (f_offset self) 0)) by lia. fold k. rewrite Ek, (proj2 (Z.ltb_lt 0 _) Hpos), debug_assert_true. run.
  destruct (f_first_cluster self) as [c|] eqn:Ef; [|pose proof (fo_chain _ _ Hf) as Hch; rewrite Ef in Hch; subst; by apply not_elem_of_nil in Hin].
  pose proof (fo_chain _ _ Hf) as Hch. rewrite Ef in Hch.
  destruct (truncate_cluster_chain_ok (f_fs self) (nth_cluster l k) (drop (Datatypes.S (Z.to_nat k)) l) Hv Hx) as (fs' & E & [HK H1 H2 H3 H4] & He & Ho);
    [by eapply fs_chain_drop|]. unfold on_fs. rewrite E. run. eexists. split; [done|].
  assert (kept_clusters (f_fs self) (f_offset self) l = take (Datatypes.S (Z.to_nat k)) l) as El by (unfold kept_clusters; fold k; f_equal; lia).
  destruct (Kept_cluster _ _ _ 0 HK) as (_ & Eb & _). assert (zlen (take (Datatypes.S (Z.to_nat k)) l) = k + 1) as Hzl.
  { unfold zlen in *. rewrite length_take. lia. }
  assert (f_offset self ≤ chain_bytes fs' (take (Datatypes.S (Z.to_nat k)) l)) as Hle by (apply behind_chain; [apply HK|done|]; rewrite Eb; fold k; lia).
  pose proof (fo_offset _ _ Hf). destruct (ed_set_size_ok e (f_offset self)) as (S1 & S2 & _).
  split; rewrite ?El; cbn [f_fs f_offset f_set_fs f_set_entry].
  - split; cbn [f_fs f_offset f_set_fs f_set_entry f_first_cluster f_current_cluster f_entry]; try done.
    + eapply VolInv_kept; [apply (fo_vol _ _ Hf)|done|done].
    + rewrite Ef. eapply cut_chain; done.
    + rewrite (fo_current _ _ Hf), Eb. destruct (_ =? 0); [done|]. fold k. rewrite lookup_take_lt by lia. done.
    + unfold File_size. cbn. rewrite S1. destruct (size (ed_data e)); [|done]. intros s [= <-]. lia.
    + intros e1 [= <-]. rewrite S2, (ke_type _ _ _ HK). by apply (fo_entry _ _ Hf).
  - done.
  - unfold File_size. cbn. by rewrite Ee.
  - intros i Hi. unfold chain_byte at 1, chain_pos. rewrite Eb. assert (0 ≤ i / bytes_per_cluster (f_fs self) ≤ k) as Hik
      by (split; [apply Z.div_pos; lia|apply Z.div_le_mono; lia]).
    rewrite lookup_take_lt, <- Eb by lia. eapply (chain_byte_kept (λ _, False)); [done|done|by intros x; apply FileOk_in|auto|lia].
  - rewrite H2, Hzl. unfold zlen. rewrite length_drop. unfold zlen in *. lia.
  - apply Isolated_entries; try done.
    + intros x Hxr Hxl. apply Ho; [done|]. intros [->|Hd%in_drop]%elem_of_cons; done.
    + intros x. apply in_take.
Qed.

(** ** The abstract file: bytes and a position *)

Record FileState := mkState { st_bytes : list Z; st_pos : Z }.

Inductive file_op :=
  | FRead (buf : list Z)
  | FWrite (buf : list Z)
  | FSeek (pos : SeekFrom)
  | FTruncate.

Inductive file_reply :=
  | RRead (n : Z) (buf : list Z)
  | RCount (n : Z)
  | RDone
  | RFail (e : Error).

(** Positions are 32-bit numbers, and the end of the file is the last. *)
Definition target (st : FileState) (pos : SeekFrom) : option Z :=
  let n := match pos with
    | SeekStart x => x
    | SeekCurrent x => st_pos st + x
    | SeekEnd x => zlen (st_bytes st) + x
    end in
  if (0 <=? n) && (n <? 2 ^ 32) then Some (Z.min n (zlen (st_bytes st))) else None.

Inductive spec_step : FileState → file_op → file_reply → FileState → Prop :=
  | spec_read b p buf n : 0 ≤ n ≤ zlen buf → p + n ≤ zlen b → (n = 0 → buf = [] ∨ p = zlen b) →
      spec_step (mkState b p) (FRead buf) (RRead n (subslice b p (p + n) ++ drop (Z.to_nat n) buf)) (mkState b (p + n))
  | spec_wrote b p buf n : 0 < n ≤ zlen buf →
      spec_step (mkState b p) (FWrite buf) (RCount n) (mkState (splice b p (take (Z.to_nat n) buf)) (p + n))
  | spec_write_none b p buf : buf = [] ∨ p = MAX_FILE_SIZE → spec_step (mkState b p) (FWrite buf) (RCount 0) (mkState b p)
  | spec_write_full b p buf : spec_step (mkState b p) (FWrite buf) (RFail NotEnoughSpace) (mkState b p)
  | spec_seek b p pos q : target (mkState b p) pos = Some q → spec_step (mkState b p) (FSeek pos) (RCount q) (mkState b q)
  | spec_seek_bad b p pos : target (mkState b p) pos = None → spec_step (mkState b p) (FSeek pos) (RFail InvalidInput) (mkState b p)
  | spec_truncate b p : spec_step (mkState b p) FTruncate RDone (mkState (take (Z.to_nat p) b) p).

Definition reply {A} (f : A → file_reply) (r : result Error A) : file_reply :=
  match r with Ok a => f a | Err e => RFail e end.

Definition file_exec self (op : file_op) : out (file_reply * File S) :=
  match op with
  | FRead buf => '(r, self) ← File_read self buf; Ret (reply (λ '(n, buf), RRead n buf) r, self)
  | FWrite buf => '(r, self) ← File_write self buf; Ret (reply RCount r, self)
  | FSeek pos => '(r, self) ← File_seek self pos; Ret (reply RCount r, self)
  | FTruncate => '(r, self) ← truncate self; Ret (reply (λ _, RDone) r, self)
  end.

(** Arguments of the right types. *)
Definition op_ok (op : file_op) : Prop :=
  match op with FWrite buf => Forall is_byte buf | FSeek (SeekStart x) => 0 ≤ x | _ => True end.

(** The file [self] over the chain [l] holds [st]. *)
Record Represents self l (st : FileState) : Prop := {
  rp_ok : FileOk self l;
  rp_size : File_size self = Some (zlen (st_bytes st));
  rp_pos : f_offset self = st_pos st;
  rp_bytes : chain_byte (f_fs self) l <$> range 0 (zlen (st_bytes st)) = st_bytes st;
}.

Lemma Represents_range self l st : Represents self l st →
  0 ≤ st_pos st ≤ zlen (st_bytes st) ∧ zlen (st_bytes st) ≤ MAX_FILE_SIZE ∧ zlen (st_bytes st) ≤ chain_bytes (f_fs self) l ∧ limit self l = zlen (st_bytes st).
Proof.
  intros [Hf Hs Hp _]. destruct (fo_size _ _ Hf _ Hs) as [? ?]. pose proof (fo_offset _ _ Hf). unfold limit. rewrite Hs. cbn. lia.
Qed.

Lemma fmap_subslice (g : Z → Z) n a b : 0 ≤ a ≤ b → b ≤ n → subslice (g <$> range 0 n) a b = g <$> range a b.
Proof.
  intros Ha Hb. rewrite (range_app 0 b n), (range_app 0 a b), !fmap_app by lia. unfold subslice.
  pose proof (zlen_fmap_range g 0 a ltac:(lia)) as L1. pose proof (zlen_fmap_range g a b ltac:(lia)) as L2. unfold zlen in L1, L2.
  rewrite <- app_assoc, drop_app_ge by lia. rewrite drop_0 || replace (Z.to_nat a - length (g <$> range 0 a))%nat with 0%nat by lia. rewrite drop_0.
  rewrite take_app_le, take_ge by lia. done.
Qed.

Lemma spec_write_splice (g : Z → Z) p w s : 0 ≤ p ≤ s →
  spec_write g p w <$> range 0 (Z.max s (p + zlen w)) = splice (g <$> range 0 s) p w.
Proof.
  intros Hp. pose proof (zlen_nonneg w). rewrite (range_app 0 p), (range_app p (p + zlen w)), !fmap_app by lia.
  rewrite (spec_write_outside g p w 0 p), (spec_write_read g p w), (spec_write_outside g p w (p + zlen w)) by lia.
  pose proof (zlen_fmap_range g 0 p ltac:(lia)) as L1. unfold splice. rewrite (range_app 0 p s), fmap_app by lia. unfold zlen in L1.
  rewrite take_app_le, take_ge by lia. f_equal. f_equal. rewrite drop_app_ge by lia.
  replace (Z.to_nat p + length w - length (g <$> range 0 p))%nat with (length w) by lia.
  destruct (decide (p + zlen w ≤ s)) as [Hle|Hgt].
  - rewrite Z.max_l by lia. rewrite (range_app p (p + zlen w) s), fmap_app by lia. pose proof (zlen_fmap_range g p (p + zlen w) ltac:(lia)) as L2. unfold zlen in L2 at 1.
    rewrite drop_app_ge by (unfold zlen in *; lia). replace (length w - _)%nat with 0%nat by (unfold zlen in *; lia). done.
  - rewrite Z.max_r by lia. rewrite range_nil by lia. pose proof (zlen_fmap_range g p s ltac:(lia)) as L2. rewrite drop_ge; [done|]. unfold zlen in *. lia.
Qed.

(** What a step of a file gives. *)
Record Simulated self self' l l' op r (st st' : FileState) : Prop := {
  sim_step : spec_step st op r st';
  sim_repr : Represents self' l' st';
  sim_isolated : Isolated (f_fs self) (f_fs self') l l';
}.

Definition simulates self l st op : Prop := ∃ r self' l' st', file_exec self op = Ret (r, self') ∧ Simulated self self' l l' op r st st'.

Lemma bytes_quiet self fs' l n : FileOk self l → Quiet (f_fs self) fs' → n ≤ chain_bytes (f_fs self) l →
  chain_byte fs' l <$> range 0 n = chain_byte (f_fs self) l <$> range 0 n.
Proof.
  intros Hf HQ Hn. apply list_fmap_ext. intros k x Hx%lookup_seqZ. apply chain_byte_quiet; [apply (fo_vol _ _ Hf)|done|by intros y; apply FileOk_in|lia].
Qed.

Lemma Was_read_represents self self' l b p n : Represents self l (mkState b p) → Was_read self self' l n →
  Represents self' l (mkState b (p + n)) ∧ Isolated (f_fs self) (f_fs self') l l.
Proof.
  intros HR [W1 W2 W3 W4 W5]. destruct (Represents_range _ _ _ HR) as (H1 & H2 & H3 & H4). pose proof HR as [Hf Hs Hp Hb]. cbn in *.
  split; [split; [done|by rewrite W3|cbn; lia|cbn; by rewrite (bytes_quiet self)]|apply Isolated_quiet; [apply (fo_vol _ _ Hf)|done]].
Qed.

Lemma Sought_represents self self' l b p q : Represents self l (mkState b p) → Sought self self' l q →
  Represents self' l (mkState b q) ∧ Isolated (f_fs self) (f_fs self') l l.
Proof.
  intros HR [S1 S2 S3 S4 S5 S6]. destruct (Represents_range _ _ _ HR) as (H1 & H2 & H3 & H4). pose proof HR as [Hf Hs Hp Hb]. cbn in *.
  split; [split; [done|by rewrite S3|done|cbn; by rewrite (bytes_quiet self)]|apply Isolated_quiet; [apply (fo_vol _ _ Hf)|done]].
Qed.

Lemma sim_read self l st buf : Represents self l st → Date_fits get_current_date → simulates self l st (FRead buf).
Proof.
  intros HR Hd. destruct (Represents_range _ _ _ HR) as (H1 & H2 & H3 & H4). pose proof HR as [Hf Hs Hp Hb]. destruct st as [b p]. cbn in *.
  destruct (File_read_ok self l buf Hf Hd) as (n & self' & E & HW & Hn & Hlim & Hz & _); [lia|]. destruct (Was_read_represents _ _ _ _ _ _ HR HW).
  do 3 eexists. exists (mkState b (p + n)). cbn [file_exec]. rewrite E. run. split; [done|]. rewrite Hp, H4 in *. split; [|done|done].
  rewrite <- (fmap_subslice _ (zlen b)), Hb by lia. by constructor.
Qed.

Lemma Written_represents self self' l l' b p w : Represents self l (mkState b p) → Written self self' l l' w →
  Represents self' l' (mkState (splice b p w) (p + zlen w)).
Proof.
  intros HR [W1 W2 W3 W4 W5 W6 W7 W8]. destruct (Represents_range _ _ _ HR) as (H1 & H2 & H3 & H4). pose proof HR as [Hf Hs Hp Hb]. cbn in *. rewrite Hp in *.
  pose proof (zlen_nonneg w). assert (zlen (splice b p w) = Z.max (zlen b) (p + zlen w)) as Hzs.
  { rewrite <- Hb at 1. rewrite <- spec_write_splice by lia. rewrite zlen_fmap_range by lia. lia. }
  split; cbn; [done|by rewrite W3, Hs, Hzs|done|]. rewrite Hzs. rewrite <- Hb at 2. rewrite <- spec_write_splice by lia.
  apply list_fmap_ext. intros k x Hx%lookup_seqZ. apply W5; [lia|]. lia.
Qed.

Lemma sim_write self l st buf : Represents self l st → Date_fits (dt_date get_current_date_time) → Forall is_byte buf → simulates self l st (FWrite buf).
Proof.
  intros HR Hd Hby. destruct (Represents_range _ _ _ HR) as (H1 & H2 & H3 & H4). pose proof HR as [Hf Hs Hp Hb]. destruct st as [b p]. cbn in *.
  pose proof (vi_ok _ (fo_vol _ _ Hf)) as Hv.
  destruct (decide (buf = [] ∨ f_offset self = MAX_FILE_SIZE)) as [Hn|Hn].
  { do 3 eexists. exists (mkState b p). cbn [file_exec]. rewrite (File_write_none self l buf Hf Hn). run. split; [done|]. split; [|done|by apply Isolated_quiet, Quiet_refl].
    constructor. by rewrite <- Hp. }
  destruct (File_write_ok self l buf Hf Hd Hby) as (r & self' & E & H); [tauto|pose proof (fo_offset _ _ Hf); lia|].
  destruct H as [(n & l' & -> & [Hn' _] & HW)|(-> & [R1 R2 R3 R4 R5 R6 R7])].
  - assert (zlen (take (Z.to_nat n) buf) = n) as Hz by (apply zlen_take; lia). pose proof (Written_represents _ _ _ _ _ _ _ HR HW) as HR'. rewrite Hz in HR'.
    do 3 eexists. exists (mkState (splice b p (take (Z.to_nat n) buf)) (p + n)). cbn [file_exec]. rewrite E. run. split; [done|].
    split; [by constructor|exact HR'|apply HW].
  - do 3 eexists. exists (mkState b p). cbn [file_exec]. rewrite E. run. split; [done|]. split; [by constructor| |done].
    split; cbn; [done|by rewrite R3|by rewrite R2|]. rewrite <- Hb at 2. apply list_fmap_ext. intros k x Hx%lookup_seqZ. apply R6. lia.
Qed.

Lemma sim_truncate self l st : Represents self l st → simulates self l st FTruncate.
Proof.
  intros HR. destruct (Represents_range _ _ _ HR) as (H1 & H2 & H3 & H4). pose proof HR as [Hf Hs Hp Hb]. destruct st as [b p]. cbn in *.
  destruct (f_entry self) as [e|] eqn:Ee; [|unfold File_size in Hs; by rewrite Ee in Hs].
  assert (∃ self', truncate self = Ret (Ok tt, self') ∧ Truncated self self' l) as (self' & E & [T1 T2 T3 T4 T5 T6]).
  { destruct (decide (f_offset self = 0)); [by eapply truncate_all|eapply truncate_some; [done|done|lia]]. }
  do 3 eexists. exists (mkState (take (Z.to_nat p) b) p). cbn [file_exec]. rewrite E. run. split; [done|]. split; [by constructor| |done].
  assert (zlen (take (Z.to_nat p) b) = p) as Hz by (apply zlen_take; lia). rewrite Hp in *.
  split; cbn; rewrite ?Hz; [done|by rewrite T3, Hs|done|].
  replace (take (Z.to_nat p) b) with (subslice b 0 p) by (unfold subslice; by rewrite Z.sub_0_r). rewrite <- Hb, fmap_subslice by lia.
  apply list_fmap_ext. intros k x Hx%lookup_seqZ. apply T4. lia.
Qed.

Lemma sim_seek self l st pos : Represents self l st → (∀ x, pos = SeekStart x → 0 ≤ x) → simulates self l st (FSeek pos).
Proof.
  intros HR Hx. destruct (Represents_range _ _ _ HR) as (H1 & H2 & H3 & H4). pose proof HR as [Hf Hs Hp Hb]. destruct st as [b p]. cbn in *.
  unfold MAX_FILE_SIZE in *.
  assert (new_position self pos = match target (mkState b p) pos with Some q => Ok q | None => Err InvalidInput end) as En.
  { unfold new_position, target, checked_u32. rewrite Hs, Hp. cbn [st_bytes st_pos].
    destruct pos as [x|x|x]; [specialize (Hx x eq_refl)|..]; repeat case_bool; try done; try (f_equal; lia); exfalso; bsolve || lia. }
  destruct (target (mkState b p) pos) as [q|] eqn:Et.
  - assert (0 ≤ q ≤ zlen b) as Hq by (unfold target in Et; cbn [st_bytes st_pos] in Et; destruct (_ && _) eqn:Eb in Et; [injection Et as <-; breflect; lia|done]).
    destruct (File_seek_ok self l pos q Hf Hx En) as (self' & E & HS). rewrite Z.min_l in * by lia.
    destruct (Sought_represents _ _ _ _ _ _ HR HS). do 3 eexists. exists (mkState b q). cbn [file_exec]. rewrite E. run. split; [done|]. by split; [constructor|..].
  - do 3 eexists. exists (mkState b p). cbn [file_exec]. unfold File_seek. rewrite En. run. split; [done|]. split; [by constructor|done|].
    apply Isolated_quiet, Quiet_refl; apply (fo_vol _ _ Hf).
Qed.

Lemma sim_any self l st op : Represents self l st → Date_fits get_current_date → Date_fits (dt_date get_current_date_time) → op_ok op →
  simulates self l st op.
Proof.
  intros HR Hd1 Hd2 Hop. destruct op as [buf|buf|pos|]; cbn in Hop.
  - by apply sim_read.
  - by apply sim_write.
  - apply sim_seek; [done|]. by intros x ->.
  - by apply sim_truncate.
Qed.

(** A sequence of operations and the replies. *)
Fixpoint file_run self (ops : list file_op) : out (list file_reply * File S) :=
  match ops with
  | [] => Ret ([], self)
  | op :: ops => '(r, self) ← file_exec self op; '(rs, self) ← file_run self ops; Ret (r :: rs, self)
  end.

Inductive spec_run : FileState → list file_op → list file_reply → FileState → Prop :=
  | spec_run_nil st : spec_run st [] [] st
  | spec_run_cons st st1 st2 op ops r rs : spec_step st op r st1 → spec_run st1 ops rs st2 → spec_run st (op :: ops) (r :: rs) st2.

End FileProofs.

Section Theorems.
Context {P : Profile} {BF : Bitflags} {TP : TimeProvider}.
Context {S : Type} {ST : Storage S} {V : View S} {FS : FlatStorage S} {WW : WholeWrites S}.

(** [C3] A file is an array of bytes with a position: whatever is read, written, sought and
    truncated, in any order, no operation panics, every reply and the bytes afterwards are those
    of the array, short transfers and a full volume included, and every other chain of
    clusters keeps its clusters and its bytes. *)
Theorem file_refines (self : File S) (l : list Z) (st : FileState) (ops : list file_op) (c2 : Z) (l2 : list Z)
    (HR : Represents self l st) (Hd1 : Date_fits get_current_date) (Hd2 : Date_fits (dt_date get_current_date_time))
    (Hops : Forall op_ok ops) (Hc2 : fs_chain (f_fs self) c2 l2) (Ha2 : apart l2 l) :
  ∃ rs self' l' st', file_run self ops = Ret (rs, self') ∧ spec_run st ops rs st' ∧ Represents self' l' st' ∧
    fs_chain (f_fs self') c2 l2 ∧ apart l2 l' ∧
    chain_byte (f_fs self') l2 <$> range 0 (chain_bytes (f_fs self) l2) = chain_byte (f_fs self) l2 <$> range 0 (chain_bytes (f_fs self) l2).
Proof.
  revert self l st HR Hc2 Ha2. induction ops as [|op ops IH]; intros self l st HR Hc2 Ha2.
  { exists [], self, l, st. split_and!; try done. constructor. }
  apply Forall_cons in Hops as [Hop Hops]. destruct (sim_any self l st op HR Hd1 Hd2 Hop) as (r & self1 & l1 & st1 & E & [Hs HR1 [HB HI]]).
  destruct (HI c2 l2 Hc2 Ha2) as (Hc & Ha & Hb). destruct (IH Hops self1 l1 st1 HR1 Hc Ha) as (rs & self2 & l3 & st2 & E2 & Hs2 & HR2 & Hc3 & Ha3 & Hb3).
  exists (r :: rs), self2, l3, st2. cbn [file_run]. rewrite E. run. rewrite E2. run. split_and!; try done; [by econstructor|].
  assert (chain_bytes (f_fs self1) l2 = chain_bytes (f_fs self) l2) as Eb by (unfold chain_bytes, bytes_per_cluster; by rewrite HB).
  rewrite Eb in Hb3. rewrite Hb3. apply list_fmap_ext. intros k x Hx%lookup_seqZ. apply Hb. lia.
Qed.

End Theorems.

(** ** Examples: an empty file on the formatted floppy disk *)

Section Examples.
Local Existing Instance dev.
Local Existing Instance Reference.bitflags.
Local Existing Instance NullTimeProvider.

(** A short entry in the first place of the root directory. *)
Definition demo_entry : DirEntryEditor :=
  DirEntryEditor_new (DirFileEntryData_new [0x46; 0x4F; 0x4F; 0x20; 0x20; 0x20; 0x20; 0x20; 0x54; 0x58; 0x54] ARCHIVE) 1536.
Definition demo_file (fs : FileSystem SparseIO) : File SparseIO := File_new None (Some demo_entry) fs.

Lemma demo_file_ok fs : VolInv fs → fs_fat_type fs = Fat12 → Represents (demo_file fs) [] (mkState [] 0).
Proof.
  intros Hi Et. split; [|done|done|done]. split; try done; cbn.
  - intros s [= <-]. done.
  - intros e [= <-]. rewrite Et. done.
Qed.

Definition hello : list Z := [104; 101; 108; 108; 111].

(** Six hundred bytes, in two clusters, and back. *)
Definition session : list file_op :=
  [FWrite (replicate 600 7); FWrite (replicate 88 7); FSeek (SeekStart 510); FWrite hello; FSeek (SeekCurrent (-5)); FRead (zeros 5); FSeek (SeekStart 3); FTruncate;
   FSeek (SeekEnd 9); FSeek (SeekEnd (-9))].

Example session_replies : (fst <$> file_run (demo_file demo) session) =
  Ret [RCount 512; RCount 88; RCount 510; RCount 2; RCount 507; RRead 5 [7; 7; 7; 104; 101]; RCount 3; RDone; RCount 3; RFail InvalidInput].
Proof. vm_compute. reflexivity. Qed.

Definition op_okb (op : file_op) : bool :=
  match op with FWrite buf => forallb (in_range 8) buf | FSeek (SeekStart x) => 0 <=? x | _ => true end.

Lemma ops_ok ops : forallb op_okb ops = true → Forall op_ok ops.
Proof.
  intros H. apply Forall_forall. intros op Hop. rewrite forallb_forall in H. specialize (H op ltac:(by apply list_elem_of_In)).
  destruct op as [|buf|[]|]; cbn in *; try done; [by apply bytes_forallb|breflect; lia].
Qed.

(** With another file's cluster beside it. *)
Lemma file_refines_witness : ∃ fs rs self' l' st', fs_alloc_cluster demo None true = Ret (Ok 2, fs) ∧
  file_run (demo_file fs) session = Ret (rs, self') ∧ spec_run (mkState [] 0) session rs st' ∧ Represents self' l' st' ∧
  fs_chain (f_fs self') 2 [2] ∧ apart [2] l' ∧
  chain_byte (f_fs self') [2] <$> range 0 (chain_bytes fs [2]) = chain_byte fs [2] <$> range 0 (chain_bytes fs [2]).
Proof.
  destruct (fs_alloc_cluster_ok demo None true) as (fs & E & H); [exact demo_ok|intros p; discriminate|vm_compute; discriminate|].
  rewrite demo_choice in E, H. destruct H as [HA Hx]. exists fs.
  assert (VolInv fs) as Hi by (eapply VolInv_kept; [exact demo_invariant|apply HA|done]).
  assert (fs_fat_type fs = Fat12) as Et by (rewrite (ke_type _ _ _ (fl_kept _ _ _ _ _ HA)); vm_compute; reflexivity).
  destruct (file_refines (demo_file fs) [] (mkState [] 0) session 2 [2]) as (rs & self' & l' & st' & H).
  - by apply demo_file_ok.
  - vm_compute. repeat split; discriminate.
  - vm_compute. repeat split; discriminate.
  - apply ops_ok. vm_compute. reflexivity.
  - apply (grown_chain demo fs [] 2 None true); [exact demo_ok|exact HA|done].
  - intros x _ Hx2. by apply not_elem_of_nil in Hx2.
  - exists rs, self', l', st'. by split.
Defined.

End Examples.
