(* ===== verification/FatDir.v ===== *)
(** * FAT crate: directories

    The streams, iterators and operations of [kernel/crates/good-fatfs/src/dir.rs], the
    entries of [dir_entry.rs] and the root directory of [fs.rs].

    Directories, entries and iterators hold a reference to the volume. Here an operation
    takes the volume and returns it; a stream, which works on the volume, holds it while it
    is used. [raw_drop] is what happens when a stream goes out of scope: a file is flushed. *)

From S2P Require Import Prelude Crates BlockCache FatIo FatTable FatTime FatEntry FatBoot FatName FatFs FatVolume FatFile.

(** ** Names *)

(** [char::decode_utf16]: [None] is an unpaired surrogate. *)
Fixpoint decode_utf16 (l : list Z) : list (option Z) :=
  match l with
  | [] => []
  | u :: l =>
      if (u <? 0xD800) || (0xE000 <=? u) then Some u :: decode_utf16 l
      else if 0xDC00 <=? u then None :: decode_utf16 l
      else match l with
      | [] => [None]
      | u2 :: l' =>
          if (0xDC00 <=? u2) && (u2 <? 0xE000)
          then Some (0x10000 + (u - 0xD800) * 0x400 + (u2 - 0xDC00)) :: decode_utf16 l'
          else None :: decode_utf16 l
      end
  end.

Definition from_utf16_lossy (l : list Z) : list Z := default 0xFFFD <$> decode_utf16 l.

(** What is left of [l] behind the prefix [p]. *)
Fixpoint strip_prefix (p l : list Z) : option (list Z) :=
  match p, l with
  | [], _ => Some l
  | x :: p, y :: l => if x =? y then strip_prefix p l else None
  | _ :: _, [] => None
  end.

Fixpoint eq_upper {U : Unicode} (decoded : list (option Z)) (other : list Z) : bool :=
  match decoded with
  | [] => match other with [] => true | _ => false end
  | None :: _ => false
  | Some c :: decoded =>
      match strip_prefix (char_to_uppercase c) other with
      | Some other => eq_upper decoded other
      | None => false
      end
  end.

(** ** Entries *)

Record DirEntry := mkDirEntry {
  den_data : DirFileEntryData;
  den_short_name : ShortName;
  den_lfn_utf16 : list Z;
  den_entry_pos : Z;
  den_offset_range : Z * Z;
}.

Section EntryOps.
Context {P : Profile} {BF : Bitflags} {U : Unicode}.
Implicit Types self : DirEntry.

Definition short_file_name self : out (list Z) := sn_to_string (den_short_name self).
Definition short_file_name_as_bytes self : out (list Z) := sn_as_bytes (den_short_name self).

Definition long_file_name_as_ucs2_units self : option (list Z) :=
  if 0 <? zlen (den_lfn_utf16 self) then Some (den_lfn_utf16 self) else None.

Definition file_name self : out (list Z) :=
  match long_file_name_as_ucs2_units self with
  | Some lfn => Ret (from_utf16_lossy lfn)
  | None => n ← lowercase_name (den_data self); sn_to_string n
  end.

Definition den_attributes self : Z := e_attrs (den_data self).
Definition den_is_dir self : bool := is_dir (den_data self).
Definition den_is_file self : bool := is_file (den_data self).
Definition den_len self : Z := e_size (den_data self).
Definition den_created self : DateTime := created (den_data self).
Definition den_accessed self : Date := accessed (den_data self).
Definition den_modified self : DateTime := modified (den_data self).
Definition raw_short_name self : list Z := e_name (den_data self).
Definition editor self : DirEntryEditor := DirEntryEditor_new (den_data self) (den_entry_pos self).
Definition is_same_entry self (other : DirEntry) : bool := den_entry_pos self =? den_entry_pos other.

Definition eq_name_lfn self (name : list Z) : bool :=
  match long_file_name_as_ucs2_units self with
  | Some lfn => eq_upper (decode_utf16 lfn) (flat_map char_to_uppercase name)
  | None => false
  end.

Definition eq_name self (name : list Z) : out bool :=
  if eq_name_lfn self name then Ret true else sn_eq_ignore_case (den_short_name self) name.

End EntryOps.

(** ** Streams *)

Inductive DirRawStream (S : Type) :=
  | RawFile (file : File S)
  | RawRoot (raw : DiskSlice (FileSystem S)).
Arguments RawFile {S} file.
Arguments RawRoot {S} raw.

Record Dir (S : Type) := mkDir { d_stream : DirRawStream S }.
Arguments mkDir {S} _.
Arguments d_stream {S} _.

Section Dirs.
Context {P : Profile} {BF : Bitflags} {U : Unicode} {TP : TimeProvider} {S : Type} {ST : Storage S}.
Implicit Types (fs : FileSystem S) (stream : DirRawStream S).

Definition raw_fs stream : FileSystem S :=
  match stream with RawFile file => f_fs file | RawRoot raw => sl_inner raw end.
Definition raw_set_fs stream fs : DirRawStream S :=
  match stream with
  | RawFile file => RawFile (f_set_fs file fs)
  | RawRoot raw => RawRoot (sl_set raw (sl_offset raw) fs)
  end.

Definition raw_abs_pos stream : out (option Z) :=
  match stream with
  | RawFile file => File_abs_pos file
  | RawRoot raw => p ← abs_pos raw; Ret (Some p)
  end.

Definition raw_first_cluster stream : option Z :=
  match stream with RawFile file => f_first_cluster file | RawRoot _ => None end.

(** An operation of either kind of stream. *)
Definition on_raw {A} stream (f : File S → out (result Error A * File S))
    (g : DiskSlice (FileSystem S) → out (result Error A * DiskSlice (FileSystem S))) : out (result Error A * DirRawStream S) :=
  match stream with
  | RawFile file => '(r, file) ← f file; Ret (r, RawFile file)
  | RawRoot raw => '(r, raw) ← g raw; Ret (r, RawRoot raw)
  end.

#[export] Instance raw_storage : Storage (DirRawStream S) := {|
  st_read stream buf := on_raw stream (λ f, st_read f buf) (λ r, st_read r buf);
  st_write stream buf := on_raw stream (λ f, st_write f buf) (λ r, st_write r buf);
  st_seek stream pos := on_raw stream (λ f, st_seek f pos) (λ r, st_seek r pos);
  st_flush stream := on_raw stream st_flush st_flush;
  unexpected_eof := UnexpectedEof;
  write_zero := WriteZero;
|}.

Definition raw_drop stream : out (FileSystem S) :=
  match stream with RawFile file => File_drop file | RawRoot raw => Ret (sl_inner raw) end.

(** A stream that is in scope during [m]. *)
Definition with_stream {A} stream (m : DirRawStream S → out (result Error A * DirRawStream S)) :
    out (result Error A * FileSystem S) :=
  '(r, stream) ← m stream;
  fs ← raw_drop stream;
  Ret (r, fs).

(** [self.stream.clone()] *)
Definition clone_stream fs (self : Dir S) : DirRawStream S := raw_set_fs (d_stream self) fs.

(** A directory that goes out of scope. *)
Definition Dir_drop fs (self : Dir S) : out (FileSystem S) := raw_drop (clone_stream fs self).

(** ** The root directory *)

Definition from_sectors (first_sector sector_count mirrors : Z) (bpb : BiosParameterBlock) fs : out (DiskSlice (FileSystem S)) :=
  begin ← bytes_from_sectors bpb first_sector;
  size ← bytes_from_sectors bpb sector_count;
  Ret (DiskSlice_new begin size mirrors fs).

Definition root_dir fs : out (Dir S) :=
  match fs_fat_type fs with
  | Fat32 => Ret (mkDir (RawFile (File_new (Some (b_root_dir_first_cluster (fs_bpb fs))) None fs)))
  | _ =>
      first ← sub_u 32 (fs_first_data_sector fs) (fs_root_dir_sectors fs);
      raw ← from_sectors first (fs_root_dir_sectors fs) 1 (fs_bpb fs) fs;
      Ret (mkDir (RawRoot raw))
  end.

(** ** From entries to files and directories *)

Definition den_first_cluster fs (self : DirEntry) : option Z := first_cluster (den_data self) (fs_fat_type fs).

Definition to_file fs (self : DirEntry) : out (File S) :=
  _ ← assert (negb (den_is_dir self));
  Ret (File_new (den_first_cluster fs self) (Some (editor self)) fs).

Definition to_dir fs (self : DirEntry) : out (Dir S) :=
  _ ← assert (den_is_dir self);
  match den_first_cluster fs self with
  | Some n => Ret (mkDir (RawFile (File_new (Some n) (Some (editor self)) fs)))
  | None => root_dir fs
  end.

(** [e.to_dir()] as a temporary value of an expression. *)
Definition in_dir {A} fs (e : DirEntry) (m : FileSystem S → Dir S → out (result Error A * FileSystem S)) :
    out (result Error A * FileSystem S) :=
  d ← to_dir fs e;
  '(r, fs) ← m fs d;
  fs ← Dir_drop fs d;
  Ret (r, fs).

(** ** Iterators *)

Record DirIter := mkDirIter { it_stream : DirRawStream S; it_skip_volume : bool; it_err : bool }.

Definition DirIter_new stream (skip_volume : bool) : DirIter := mkDirIter stream skip_volume false.
Definition it_set (self : DirIter) stream : DirIter := mkDirIter stream (it_skip_volume self) (it_err self).

Definition should_skip_entry (self : DirIter) (raw_entry : DirEntryData) : bool :=
  if de_is_deleted raw_entry then true
  else match raw_entry with
  | DeFile sfn_entry => it_skip_volume self && is_volume sfn_entry
  | DeLfn _ => false
  end.

(** The entry that has just been read. *)
Definition entry_read (self : DirIter) (data : DirFileEntryData) (lfn_builder : LongNameBuilder) (begin_offset offset : Z) : out DirEntry :=
  p ← raw_abs_pos (it_stream self);
  end_abs_pos ← unwrap p;
  abs_pos ← sub_u 64 end_abs_pos DIR_ENTRY_SIZE;
  let lfn_builder := lb_validate_chksum lfn_builder (e_name data) in
  short_name ← ShortName_new (e_name data);
  Ret (mkDirEntry data short_name (into_buf lfn_builder) abs_pos (begin_offset, offset)).

(** A chain of clusters that is a loop would be read until the 32-bit position overflows. *)
Fixpoint read_dir_entry_loop (fuel : nat) (self : DirIter) (lfn_builder : LongNameBuilder) (begin_offset offset : Z) :
    out (result Error (option DirEntry) * DirIter) :=
  match fuel with
  | O => Panic
  | Datatypes.S fuel =>
      '(r, stream) ← de_deserialize (it_stream self);
      let self := it_set self stream in
      match r with
      | Err e => Ret (Err e, self)
      | Ok raw_entry =>
          offset ← add_u 64 offset DIR_ENTRY_SIZE;
          if de_is_end raw_entry then Ret (Ok None, self)
          else if should_skip_entry self raw_entry then read_dir_entry_loop fuel self (lb_clear lfn_builder) offset offset
          else match raw_entry with
          | DeFile data => e ← entry_read self data lfn_builder begin_offset offset; Ret (Ok (Some e), self)
          | DeLfn data =>
              lfn_builder ← lb_process lfn_builder data;
              read_dir_entry_loop fuel self lfn_builder begin_offset offset
          end
      end
  end.

(** The entries a directory has room for, one more for its end. *)
Definition dir_fuel fs : nat :=
  let bytes := (fs_total_clusters fs * b_sectors_per_cluster (fs_bpb fs) + fs_root_dir_sectors fs) * b_bytes_per_sector (fs_bpb fs) in
  Z.to_nat (bytes / DIR_ENTRY_SIZE + 2).

Definition read_dir_entry (self : DirIter) : out (result Error (option DirEntry) * DirIter) :=
  '(r, stream) ← st_seek (it_stream self) (SeekCurrent 0);
  let self := it_set self stream in
  match r with
  | Err e => Ret (Err e, self)
  | Ok offset => read_dir_entry_loop (dir_fuel (raw_fs (it_stream self))) self LongNameBuilder_new offset offset
  end.

Definition dir_next (self : DirIter) : out (option (result Error DirEntry) * DirIter) :=
  if it_err self then Ret (None, self)
  else
    '(r, self) ← read_dir_entry self;
    match r with
    | Ok (Some e) => Ret (Some (Ok e), self)
    | Ok None => Ret (None, self)
    | Err err => Ret (Some (Err err), mkDirIter (it_stream self) (it_skip_volume self) true)
    end.

(** [for r in iter { let e = r?; ... }] over a directory: [body] goes on with a new state, or
    returns. *)
Fixpoint for_entries {St A} (fuel : nat) (body : DirEntry → St → out (St + result Error A)) (self : DirIter) (st : St) :
    out ((St + result Error A) * St * DirIter) :=
  match fuel with
  | O => Panic
  | Datatypes.S fuel =>
      '(r, self) ← dir_next self;
      match r with
      | None => Ret (inl st, st, self)
      | Some (Err e) => Ret (inr (Err e), st, self)
      | Some (Ok e) =>
          b ← body e st;
          match b with
          | inl st => for_entries fuel body self st
          | inr r => Ret (inr r, st, self)
          end
      end
  end.

(** The loop over a clone of the directory's stream, which is dropped behind it. *)
Definition iterate {St A} fs (self : Dir S) (skip_volume : bool) (body : DirEntry → St → out (St + result Error A))
    (at_end : result Error A) (st : St) : out (result Error A * St * FileSystem S) :=
  '(r, st, it) ← for_entries (dir_fuel fs) body (DirIter_new (clone_stream fs self) skip_volume) st;
  fs ← raw_drop (it_stream it);
  Ret (match r with inl _ => at_end | inr r => r end, st, fs).

(** ** Looking up *)

Definition find_entry_body (name : list Z) (is_dir : option bool) (e : DirEntry) (gen : option ShortNameGenerator) :
    out (option ShortNameGenerator + result Error DirEntry) :=
  eq ← eq_name e name;
  if (eq : bool) then
    Ret (inr (match is_dir with
              | Some d => if Bool.eqb (den_is_dir e) d then Ok e else Err InvalidInput
              | None => Ok e
              end))
  else match gen with
  | Some g => g ← add_existing g (raw_short_name e); Ret (inl (Some g))
  | None => Ret (inl None)
  end.

Definition find_entry_gen fs (self : Dir S) (name : list Z) (is_dir : option bool) (gen : option ShortNameGenerator) :
    out (result Error DirEntry * option ShortNameGenerator * FileSystem S) :=
  iterate fs self true (find_entry_body name is_dir) (Err NotFound) gen.

(** Without a generator. *)
Definition find_entry fs (self : Dir S) (name : list Z) (is_dir : option bool) : out (result Error DirEntry * FileSystem S) :=
  '(r, _, fs) ← find_entry_gen fs self name is_dir None;
  Ret (r, fs).

(** The rest of a path is shorter, so that its length bounds the recursion. *)
Fixpoint check_path_type_loop (fuel : nat) fs (self : Dir S) (path : list Z) : out (result Error (option bool) * FileSystem S) :=
  let '(name, rest_opt) := split_path path in
  match rest_opt, fuel with
  | Some rest, Datatypes.S fuel =>
      let? (e, fs) := find_entry fs self name (Some true) in
      in_dir fs e (λ fs d, check_path_type_loop fuel fs d rest)
  | Some _, O => Panic
  | None, _ =>
      '(r, _, fs) ← iterate fs self true
        (λ e _, eq ← eq_name e name; Ret (if eq : bool then inr (Ok (Some (den_is_dir e))) else inl tt)) (Err NotFound) tt;
      Ret (r, fs)
  end.
Definition check_path_type fs (self : Dir S) (path : list Z) : out (result Error (option bool) * FileSystem S) :=
  check_path_type_loop (length path) fs self path.

Definition find_volume_entry fs (self : Dir S) : out (result Error (option DirEntry) * FileSystem S) :=
  '(r, _, fs) ← iterate fs self false (λ e _, Ret (if is_volume (den_data e) then inr (Ok (Some e)) else inl tt)) (Ok None) tt;
  Ret (r, fs).

Definition read_volume_label_from_root_dir_as_bytes fs : out (result Error (option (list Z)) * FileSystem S) :=
  d ← root_dir fs;
  '(r, fs) ← find_volume_entry fs d;
  fs ← Dir_drop fs d;
  match r with
  | Ok e => Ret (Ok (option_map raw_short_name e), fs)
  | Err err => Ret (Err err, fs)
  end.

Definition read_volume_label_from_root_dir fs : out (result Error (option (list Z)) * FileSystem S) :=
  let? (volume_label_opt, fs) := read_volume_label_from_root_dir_as_bytes fs in
  match volume_label_opt with
  | None => Ret (Ok None, fs)
  | Some volume_label =>
      label_slice ← slice volume_label 0 (len_of (rposition (λ b, negb (b =? SFN_PADDING)) volume_label));
      Ret (Ok (Some (map oem_decode label_slice)), fs)
  end.

Definition volume_label fs : out (list Z) :=
  l ← volume_label_as_bytes fs; Ret (map oem_decode l).

(** An entry of that name, or a free short name for it. The checksum has 16 bits: when every
    value has been tried the loop would go on for ever. *)
Inductive DirEntryOrShortName := IsDirEntry (e : DirEntry) | IsShortName (name : list Z).

Fixpoint check_for_existence_loop (fuel : nat) fs (self : Dir S) (name : list Z) (is_dir : option bool) (gen : ShortNameGenerator) :
    out (result Error DirEntryOrShortName * FileSystem S) :=
  match fuel with
  | O => Panic
  | Datatypes.S fuel =>
      '(r, gen_opt, fs) ← find_entry_gen fs self name is_dir (Some gen);
      let gen := default gen gen_opt in
      match r with
      | Ok e => Ret (Ok (IsDirEntry e), fs)
      | Err NotFound =>
          g ← generate gen;
          match g with
          | Ok short => Ret (Ok (IsShortName short), fs)
          | Err _ => check_for_existence_loop fuel fs self name is_dir (next_iteration gen)
          end
      | Err err => Ret (Err err, fs)
      end
  end.
Definition check_for_existence fs (self : Dir S) (name : list Z) (is_dir : option bool) :
    out (result Error DirEntryOrShortName * FileSystem S) :=
  gen ← ShortNameGenerator_new name;
  check_for_existence_loop (Z.to_nat 65537) fs self name is_dir gen.

Fixpoint open_dir_loop (fuel : nat) fs (self : Dir S) (path : list Z) : out (result Error (Dir S) * FileSystem S) :=
  let '(name, rest_opt) := split_path path in
  let? (e, fs) := find_entry fs self name (Some true) in
  match rest_opt, fuel with
  | Some rest, Datatypes.S fuel => in_dir fs e (λ fs d, open_dir_loop fuel fs d rest)
  | Some _, O => Panic
  | None, _ => d ← to_dir fs e; Ret (Ok d, fs)
  end.
Definition open_dir fs (self : Dir S) (path : list Z) : out (result Error (Dir S) * FileSystem S) :=
  open_dir_loop (length path) fs self path.

(** [m] on the directory of the last name of a path, with the end of the path and the name. *)
Fixpoint walk {A} (fuel : nat) (m : FileSystem S → Dir S → list Z → list Z → out (result Error A * FileSystem S)) fs (self : Dir S) (path : list Z) :
    out (result Error A * FileSystem S) :=
  let '(name, rest_opt) := split_path path in
  match rest_opt, fuel with
  | Some rest, Datatypes.S fuel =>
      let? (e, fs) := find_entry fs self name (Some true) in
      in_dir fs e (λ fs d, walk fuel m fs d rest)
  | Some _, O => Panic
  | None, _ => m fs self path name
  end.

(** The file that is returned holds a reference: its position and entry matter, the volume
    goes on. *)
Definition open_file fs (self : Dir S) (path : list Z) : out (result Error (File S) * FileSystem S) :=
  walk (length path) (λ fs self _ name,
    let? (e, fs) := find_entry fs self name (Some false) in
    f ← to_file fs e; Ret (Ok f, fs)) fs self path.

(** ** Writing entries *)

(** Room for [num_entries] entries in a row: deleted ones, or the end of the directory. *)
Fixpoint find_free_entries_loop (fuel : nat) stream (num_entries first_free num_free i : Z) : out (result Error unit * DirRawStream S) :=
  match fuel with
  | O => Panic
  | Datatypes.S fuel =>
      let? (raw_entry, stream) := de_deserialize stream in
      if de_is_end raw_entry then
        let first_free := if num_free =? 0 then i else first_free in
        pos ← mul_u 32 first_free DIR_ENTRY_SIZE;
        let? (_, stream) := st_seek stream (SeekStart pos) in
        Ret (Ok tt, stream)
      else if de_is_deleted raw_entry then
        let first_free := if num_free =? 0 then i else first_free in
        num_free ← add_u 32 num_free 1;
        if num_free =? num_entries then
          pos ← mul_u 32 first_free DIR_ENTRY_SIZE;
          let? (_, stream) := st_seek stream (SeekStart pos) in
          Ret (Ok tt, stream)
        else i ← add_u 32 i 1; find_free_entries_loop fuel stream num_entries first_free num_free i
      else i ← add_u 32 i 1; find_free_entries_loop fuel stream num_entries first_free 0 i
  end.
Definition find_free_entries stream (num_entries : Z) : out (result Error unit * DirRawStream S) :=
  find_free_entries_loop (dir_fuel (raw_fs stream)) stream num_entries 0 0 0.

Definition create_sfn_entry fs (short_name : list Z) (attrs : Z) (first_cluster : option Z) : out DirFileEntryData :=
  let raw_entry := DirFileEntryData_new short_name attrs in
  let raw_entry := set_first_cluster raw_entry first_cluster (fs_fat_type fs) in
  let now := get_current_date_time in
  raw_entry ← set_created raw_entry now;
  raw_entry ← set_accessed raw_entry (dt_date now);
  set_modified raw_entry now.

(** [LfnBuffer::from_ucs2_units] collects. *)
Definition encode_lfn_utf16 (name : list Z) : list Z := encode_utf16 name.

Definition alloc_and_write_lfn_entries stream (lfn_utf16 short_name : list Z) : out (result Error Z * DirRawStream S) :=
  let lfn_chsum := lfn_checksum short_name in
  let lfn_iter := LfnEntriesGenerator_new lfn_utf16 lfn_chsum in
  num_entries ← add_u 32 (wrap 32 (lg_len lfn_iter)) 1;
  let? (_, stream) := find_free_entries stream num_entries in
  let? (start_pos, stream) := st_seek stream (SeekCurrent 0) in
  entries ← lfn_entries lfn_utf16 lfn_chsum;
  let? (_, stream) := for_each lfn_serialize entries stream in
  Ret (Ok start_pos, stream).

(** The long and the short entries, at the stream. *)
Definition write_entries stream (lfn_utf16 : list Z) (raw_entry : DirFileEntryData) : out (result Error DirEntry * DirRawStream S) :=
  let? (start_pos, stream) := alloc_and_write_lfn_entries stream lfn_utf16 (e_name raw_entry) in
  let? (_, stream) := file_serialize raw_entry stream in
  let? (end_pos, stream) := st_seek stream (SeekCurrent 0) in
  p ← raw_abs_pos stream;
  end_abs_pos ← unwrap p;
  start_abs_pos ← sub_u 64 end_abs_pos DIR_ENTRY_SIZE;
  short_name ← ShortName_new (e_name raw_entry);
  Ret (Ok (mkDirEntry raw_entry short_name lfn_utf16 start_abs_pos (start_pos, end_pos)), stream).

Definition write_entry fs (self : Dir S) (name : list Z) (raw_entry : DirFileEntryData) : out (result Error DirEntry * FileSystem S) :=
  match validate_long_name name with
  | Err e => Ret (Err e, fs)
  | Ok _ => with_stream (clone_stream fs self) (λ stream, write_entries stream (encode_lfn_utf16 name) raw_entry)
  end.

Definition create_file fs (self : Dir S) (path : list Z) : out (result Error (File S) * FileSystem S) :=
  walk (length path) (λ fs self _ name,
    let? (r, fs) := check_for_existence fs self name (Some false) in
    match r with
    | IsShortName short_name =>
        sfn_entry ← create_sfn_entry fs short_name (fl_truncate ATTRS_ALL 0) None;
        let? (e, fs) := write_entry fs self name sfn_entry in
        f ← to_file fs e; Ret (Ok f, fs)
    | IsDirEntry e => f ← to_file fs e; Ret (Ok f, fs)
    end) fs self path.

(** The new directory, dropped when an entry cannot be written. *)
Definition write_dots fs (self dir : Dir S) (entry : DirEntry) : out (result Error (Dir S) * FileSystem S) :=
  '(r, fs) ← (
    sfn_entry ← create_sfn_entry fs generate_dot DIRECTORY (den_first_cluster fs entry);
    let? (_, fs) := write_entry fs dir [0x2E] sfn_entry in
    sfn_entry ← create_sfn_entry fs generate_dotdot DIRECTORY (raw_first_cluster (d_stream self));
    write_entry fs dir [0x2E; 0x2E] sfn_entry);
  match r with
  | Ok _ => Ret (Ok dir, fs)
  | Err e => fs ← Dir_drop fs dir; Ret (Err e, fs)
  end.

Definition create_dir fs (self : Dir S) (path : list Z) : out (result Error (Dir S) * FileSystem S) :=
  walk (length path) (λ fs self _ name,
    let? (r, fs) := check_for_existence fs self name (Some true) in
    match r with
    | IsShortName short_name =>
        let? (cluster, fs) := fs_alloc_cluster fs None true in
        sfn_entry ← create_sfn_entry fs short_name DIRECTORY (Some cluster);
        let? (entry, fs) := write_entry fs self name sfn_entry in
        dir ← to_dir fs entry;
        write_dots fs self dir entry
    | IsDirEntry e => d ← to_dir fs e; Ret (Ok d, fs)
    end) fs self path.

(** ** Removing and renaming *)

Definition is_empty fs (self : Dir S) : out (result Error bool * FileSystem S) :=
  '(r, _, fs) ← iterate fs self true (λ e _,
      name ← short_file_name_as_bytes e;
      Ret (if negb (bool_decide (name = [0x2E])) && negb (bool_decide (name = [0x2E; 0x2E])) then inr (Ok false) else inl tt))
    (Ok true) tt;
  Ret (r, fs).

(** The long and short name entries of [e] become free. *)
Definition delete_entries stream (e : DirEntry) : out (result Error unit * DirRawStream S) :=
  let '(from_, to_) := den_offset_range e in
  let? (_, stream) := st_seek stream (SeekStart from_) in
  len ← sub_u 64 to_ from_;
  num ← div_u len DIR_ENTRY_SIZE;
  for_each (λ _ stream,
    let? (data, stream) := de_deserialize stream in
    let? (_, stream) := st_seek stream (SeekCurrent (- DIR_ENTRY_SIZE)) in
    de_serialize (de_set_deleted data) stream) (range 0 num) stream.

Definition remove fs (self : Dir S) (path : list Z) : out (result Error unit * FileSystem S) :=
  walk (length path) (λ fs self _ name,
    let? (e, fs) := find_entry fs self name None in
    let? (empty, fs) := (if den_is_dir e then in_dir fs e is_empty else Ret (Ok true, fs)) in
    if negb empty then Ret (Err DirectoryIsNotEmpty, fs)
    else
      let? (_, fs) := match den_first_cluster fs e with
        | Some n => free_cluster_chain fs n
        | None => Ret (Ok tt, fs)
        end in
      with_stream (clone_stream fs self) (λ stream, delete_entries stream e)) fs self path.

Definition rename_internal fs (self : Dir S) (src_name : list Z) (dst_dir : Dir S) (dst_name : list Z) : out (result Error unit * FileSystem S) :=
  let? (e, fs) := find_entry fs self src_name None in
  let? (r, fs) := check_for_existence fs dst_dir dst_name None in
  match r with
  | IsDirEntry dst_e => Ret (if is_same_entry e dst_e then Ok tt else Err AlreadyExists, fs)
  | IsShortName short_name =>
      (** the stream stays in scope until the function returns *)
      '(r, stream) ← delete_entries (clone_stream fs self) e;
      match r with
      | Err err => fs ← raw_drop stream; Ret (Err err, fs)
      | Ok _ =>
          let fs := raw_fs stream in
          let sfn_entry := renamed (den_data e) short_name in
          '(r, fs) ← write_entry fs dst_dir dst_name sfn_entry;
          fs ← raw_drop (raw_set_fs stream fs);
          match r with Ok _ => Ret (Ok tt, fs) | Err err => Ret (Err err, fs) end
      end
  end.

Definition rename fs (self : Dir S) (src_path : list Z) (dst_dir : Dir S) (dst_path : list Z) : out (result Error unit * FileSystem S) :=
  walk (length src_path) (λ fs self src_path _,
    walk (length dst_path) (λ fs dst_dir dst_path _, rename_internal fs self src_path dst_dir dst_path) fs dst_dir dst_path) fs self src_path.

End Dirs.

(** ** Examples: the formatted floppy disk *)

Section Examples.
Local Existing Instance dev.
Local Existing Instance Reference.bitflags.
Local Existing Instance NullTimeProvider.
Local Instance ascii_case : Unicode := λ c, [to_ascii_uppercase c].

Abbreviation Vol := (FileSystem SparseIO).

(** An operation on the root directory. *)
Definition at_root {A} (m : Vol → Dir SparseIO → out (result Error A * Vol)) (fs : Vol) : out (result Error A * Vol) :=
  d ← root_dir fs; m fs d.

Definition and_then {A B} (m : out (result Error A * Vol)) (k : Vol → out (result Error B * Vol)) : out (result Error B * Vol) :=
  let? (_, fs) := m in k fs.

(** The names in the root directory, with the results so far. *)
Definition listing {A} (m : out (result Error A * Vol)) : out (result Error unit * list (list Z)) :=
  '(r, fs) ← m;
  d ← root_dir fs;
  '(_, l, _) ← iterate (A := unit) fs d true (λ e l, n ← file_name e; Ret (inl (l ++ [n]))) (Ok tt) [];
  Ret (match r with Ok _ => Ok tt | Err e => Err e end, l).

Definition with_files : out (result Error unit * Vol) :=
  and_then (at_root (λ fs d, create_file fs d (str "Hello World.txt")) demo) (λ fs,
  and_then (at_root (λ fs d, create_dir fs d (str "sub")) fs) (λ fs,
  and_then (at_root (λ fs d, create_file fs d (str "/sub/a")) fs) (λ fs, Ret (Ok tt, fs)))).

Example created_names : listing with_files = Ret (Ok tt, [str "Hello World.txt"; str "sub"]).
Proof. vm_compute. reflexivity. Qed.

Example remove_full_dir : listing (and_then with_files (at_root (λ fs d, remove fs d (str "sub")))) =
  Ret (Err DirectoryIsNotEmpty, [str "Hello World.txt"; str "sub"]).
Proof. vm_compute. reflexivity. Qed.

Example remove_inner_then_dir :
  listing (and_then with_files (λ fs, and_then (at_root (λ fs d, remove fs d (str "sub/a")) fs) (at_root (λ fs d, remove fs d (str "sub"))))) =
  Ret (Ok tt, [str "Hello World.txt"]).
Proof. vm_compute. reflexivity. Qed.

Example renamed_file : listing (and_then with_files (at_root (λ fs d, rename fs d (str "hello world.TXT") d (str "b c")))) =
  Ret (Ok tt, [str "b c"; str "sub"]).
Proof. vm_compute. reflexivity. Qed.

(** A rename to a name with an unsupported character fails and removes the file: the old
    entries are deleted before [write_entry] looks at the new name. *)
Theorem rename_to_bad_name_loses_file : listing (and_then with_files (at_root (λ fs d, rename fs d (str "Hello World.txt") d (str "a*b")))) =
  Ret (Err UnsupportedFileNameCharacter, [str "sub"]).
Proof. vm_compute. reflexivity. Qed.

(** A slash before the name, which every other operation ignores, makes [rename] look for a
    name with the slash in it. *)
Theorem rename_keeps_slash :
  listing (and_then with_files (at_root (λ fs d, rename fs d (str "/Hello World.txt") d (str "b")))) =
    Ret (Err NotFound, [str "Hello World.txt"; str "sub"]) ∧
  listing (and_then with_files (at_root (λ fs d, open_file fs d (str "/Hello World.txt")))) = Ret (Ok tt, [str "Hello World.txt"; str "sub"]).
Proof. split; vm_compute; reflexivity. Qed.

End Examples.
