(* ===== verification/Fat32.v ===== *)
(** * Directories and files of a FAT volume as inodes

    [kernel/src/fs/fat32.rs]: what the inodes of a mounted FAT volume do with the FAT crate. The
    virtual inodes, the paths and the mounting around them are in [Vfs], the stream over the
    partition's inode in [BlockCache]. *)

From S2P Require Import Prelude Crates BlockCache FatIo FatTable FatTime FatEntry FatBoot FatName FatFs FatVolume FatFile FatDir.

(** [.unwrap()] on what an operation of the crate returns. *)
Definition unwrap_io {A S : Type} (m : out (result Error A * S)) : out (A * S) :=
  '(r, s) ← m;
  match r with Ok a => Ret (a, s) | Err _ => Panic end.

Section Inodes.
Context {P : Profile} {BF : Bitflags} {U : Unicode} {TP : TimeProvider} {S : Type} {ST : Storage S}.
Implicit Types fs : FileSystem S.

(** ** Files

    The open file of the crate is shared by everyone who holds the inode. *)

Record Fat32File := mkFat32File { file : File S; ff_cluster_size : Z }.
Definition ff_set (self : Fat32File) (f : File S) : Fat32File := mkFat32File f (ff_cluster_size self).

Definition Fat32File_size (self : Fat32File) : out Z := unwrap (File_size (file self)).

(** One turn of the loop of [read_at]: the bytes read so far, the buffer, the file. *)
Definition read_chunk (cluster_size : Z) (st : Z * list Z * File S) (i : Z) : out (Z * list Z * File S) :=
  let '(size, buf, f) := st in
  offset ← mul_u 64 cluster_size i;
  end_ ← add_u 64 offset cluster_size;
  window ← slice buf offset end_;
  '(r, f) ← unwrap_io (File_read f window);
  size ← add_u 64 size r.1;
  Ret (size, splice buf offset r.2, f).

Definition read_at (self : Fat32File) (offset : Z) (buf : list Z) : out (Z * list Z * Fat32File) :=
  '(_, f) ← unwrap_io (File_seek (file self) (SeekStart offset));
  file_size ← unwrap (File_size f);
  let read_size := Z.min (zlen buf) file_size in
  read_cnt ← div_u read_size (ff_cluster_size self);
  '(size, buf, f) ← foldM (read_chunk (ff_cluster_size self)) (0, buf, f) (range 0 read_cnt);
  remaining ← rem_u read_size (ff_cluster_size self);
  file_size ← unwrap (File_size f);
  if (0 <? remaining) && (zlen buf <=? file_size) then
    offset ← mul_u 64 read_cnt (ff_cluster_size self);
    window ← slice buf offset (zlen buf);
    '(r, f) ← unwrap_io (File_read f window);
    size ← add_u 64 size r.1;
    Ret (size, splice buf offset r.2, ff_set self f)
  else Ret (size, buf, ff_set self f).

Definition write_chunk (cluster_size : Z) (buf : list Z) (st : Z * File S) (i : Z) : out (Z * File S) :=
  let '(size, f) := st in
  offset ← mul_u 64 cluster_size i;
  end_ ← add_u 64 offset cluster_size;
  window ← slice buf offset end_;
  '(n, f) ← unwrap_io (File_write f window);
  size ← add_u 64 size n;
  Ret (size, f).

(** [write_at] up to the [flush]. *)
Definition write_chunks (cluster_size : Z) (f : File S) (buf : list Z) : out (Z * File S) :=
  write_cnt ← div_u (zlen buf) cluster_size;
  '(size, f) ← foldM (write_chunk cluster_size buf) (0, f) (range 0 write_cnt);
  remaining ← rem_u (zlen buf) cluster_size;
  if 0 <? remaining then
    offset ← mul_u 64 write_cnt cluster_size;
    window ← slice buf offset (zlen buf);
    '(n, f) ← unwrap_io (File_write f window);
    size ← add_u 64 size n;
    Ret (size, f)
  else Ret (size, f).

Definition write_at (self : Fat32File) (offset : Z) (buf : list Z) : out (Z * Fat32File) :=
  '(_, f) ← unwrap_io (File_seek (file self) (SeekStart offset));
  '(size, f) ← write_chunks (ff_cluster_size self) f buf;
  '(_, f) ← unwrap_io (File_flush f);
  Ret (size, ff_set self f).

(** ** Directories *)

Inductive Opened := OpenedDir (dir : Dir S) | OpenedFile (f : Fat32File).

(** [open] behind the virtual inodes: a directory of that name, else a file. *)
Definition dir_open fs (dir : Dir S) (cluster_size : Z) (name : list Z) : out (option Opened * FileSystem S) :=
  '(r, fs) ← open_dir fs dir name;
  match r with
  | Ok d => Ret (Some (OpenedDir d), fs)
  | Err _ =>
      '(r, fs) ← open_file fs dir name;
      match r with
      | Ok f => Ret (Some (OpenedFile (mkFat32File f cluster_size)), fs)
      | Err _ => Ret (None, fs)
      end
  end.

(** [create] up to its call of [open]; what is created is dropped. *)
Definition dir_create fs (dir : Dir S) (name : list Z) (is_dir : bool) : out (option unit * FileSystem S) :=
  if is_dir then
    '(r, fs) ← create_dir fs dir name;
    match r with
    | Ok d => fs ← Dir_drop fs d; Ret (Some tt, fs)
    | Err _ => Ret (None, fs)
    end
  else
    '(r, fs) ← create_file fs dir name;
    match r with
    | Ok f => fs ← File_drop (f_set_fs f fs); Ret (Some tt, fs)
    | Err _ => Ret (None, fs)
    end.

(** The entries behind the virtual inodes, with whether each is a directory. An entry that
    cannot be read ends the iterator. [dots] is whether the names of one and two dots are listed:
    [Fat32Volume::list] has no test for them, [Fat32Dir::list] leaves them out. *)
Definition list_body (dots : bool) (e : DirEntry) (vec : list (list Z * bool)) : out (list (list Z * bool) + result Error unit) :=
  name ← file_name e;
  if negb dots && (bool_decide (name = [46]) || bool_decide (name = [46; 46])) then Ret (inl vec)
  else Ret (inl (vec ++ [(name, den_is_dir e)])).

Definition dir_list (dots : bool) fs (dir : Dir S) : out (list (list Z * bool) * FileSystem S) :=
  '(_, vec, fs) ← iterate fs dir true (list_body dots) (Ok tt) [];
  Ret (vec, fs).

End Inodes.
Arguments Fat32File : clear implicits.
Arguments Opened : clear implicits.

(** ** Proofs *)

Section InodeProofs.
Context {P : Profile} {BF : Bitflags} {TP : TimeProvider}.
Context {S : Type} {ST : Storage S} {V : View S} {FS : FlatStorage S} {WW : WholeWrites S}.
Context (Hr : reads_whole (S := S)) (Hd1 : Date_fits get_current_date).
Implicit Types f : File S.

Local Abbreviation cs f := (bytes_per_cluster (f_fs f)).

Lemma Isolated_cs f f' l l' : Isolated (f_fs f) (f_fs f') l l' → cs f' = cs f.
Proof. intros [E _]. unfold bytes_per_cluster. by rewrite E. Qed.

Lemma cs_pos f l st : Represents f l st → 0 < cs f.
Proof. intros HR. destruct (fs_cluster_size_ok _ (vi_ok _ (fo_vol _ _ (rp_ok _ _ _ HR)))). lia. Qed.

Lemma seek_step f l b p q : Represents f l (mkState b p) → 0 ≤ q ≤ zlen b → ∃ f',
  unwrap_io (File_seek f (SeekStart q)) = Ret (q, f') ∧ Represents f' l (mkState b q) ∧ Isolated (f_fs f) (f_fs f') l l.
Proof.
  intros HR Hq. destruct (Represents_range _ _ _ HR) as (H1 & H2 & H3 & H4). cbn in *. unfold MAX_FILE_SIZE in *.
  destruct (File_seek_ok f l (SeekStart q) q (rp_ok _ _ _ HR)) as (f' & E & HS); [intros x [= <-]; lia| |].
  { unfold new_position, checked_u32. rewrite (rp_size _ _ _ HR). cbn. repeat case_bool; try done; try lia; f_equal; lia. }
  rewrite Z.min_l in E, HS by lia. exists f'. unfold unwrap_io. rewrite E. run. split; [done|]. by apply (Sought_represents f f' l b p q).
Qed.

(** A read of at most a cluster, from the start of a cluster. *)
Lemma read_step f l b p window : Represents f l (mkState b p) → p mod cs f = 0 → zlen window ≤ cs f → p + zlen window ≤ zlen b → ∃ f',
  unwrap_io (File_read f window) = Ret ((zlen window, subslice b p (p + zlen window)), f') ∧
  Represents f' l (mkState b (p + zlen window)) ∧ Isolated (f_fs f) (f_fs f') l l.
Proof.
  intros HR Ha Hw Hfit. destruct (Represents_range _ _ _ HR) as (H1 & H2 & H3 & H4). pose proof (rp_pos _ _ _ HR) as Hp. cbn in *.
  pose proof (zlen_nonneg window). pose proof (cs_pos _ _ _ HR).
  destruct (File_read_ok f l window (rp_ok _ _ _ HR) Hd1) as (n & f' & E & HW & Hn & Hl & _ & Hwh); [lia|]. specialize (Hwh Hr).
  rewrite Hp, Ha, H4 in Hwh. replace n with (zlen window) in * by lia. destruct (Was_read_represents _ _ _ _ _ _ HR HW).
  exists f'. unfold unwrap_io. rewrite E. cbn. split_and!; [|done|done]. rewrite Hp, (drop_ge window), app_nil_r by (unfold zlen; lia).
  rewrite <- (fmap_subslice _ (zlen b)) by lia. pose proof (rp_bytes _ _ _ HR) as Hb. cbn in Hb. by rewrite Hb.
Qed.

Lemma splice_after {A} (pre rest w : list A) n : zlen pre = n → splice (pre ++ rest) n w = pre ++ w ++ drop (length w) rest.
Proof.
  intros H. unfold splice, zlen in *. rewrite take_app_le, take_ge by lia. f_equal. f_equal. rewrite drop_app_ge by lia. f_equal. lia.
Qed.

Lemma subslice_join {A} (b : list A) x y z : 0 ≤ x ≤ y → y ≤ z → z ≤ zlen b → subslice b x y ++ subslice b y z = subslice b x z.
Proof.
  intros H1 H2 H3. unfold subslice, zlen in *. rewrite <- (take_drop (Z.to_nat (y - x)) (drop (Z.to_nat x) b)) at 2.
  rewrite take_app_ge by (rewrite length_take, length_drop; lia). f_equal.
  rewrite drop_drop, length_take, length_drop. f_equal; [lia|]. f_equal. lia.
Qed.

Lemma take_subslice {A} (l : list A) x y z : 0 ≤ x → 0 ≤ y → z = x + y → take (Z.to_nat x) l ++ subslice l x z = take (Z.to_nat (x + y)) l.
Proof.
  intros Hx Hy ->. unfold subslice. rewrite Z.add_simpl_l, Z2Nat.inj_add by lia. by rewrite take_take_drop.
Qed.

(** The turns of the loop: what is in the buffer is what is in the file. *)
Lemma read_chunks f l b p buf k : Represents f l (mkState b p) → p mod cs f = 0 → 0 ≤ k → k * cs f ≤ zlen buf → p + k * cs f ≤ zlen b → zlen buf < 2 ^ 63 →
  ∃ f', foldM (read_chunk (cs f)) (0, buf, f) (range 0 k) =
    Ret (k * cs f, subslice b p (p + k * cs f) ++ drop (Z.to_nat (k * cs f)) buf, f') ∧
  Represents f' l (mkState b (p + k * cs f)) ∧ Isolated (f_fs f) (f_fs f') l l.
Proof.
  intros HR Ha Hk Hbuf Hfit Hbig. pose proof (cs_pos _ _ _ HR) as Hcs. pose proof (Represents_range _ _ _ HR) as Hp. cbn in Hp.
  revert Hbuf Hfit. pattern k. apply natlike_ind; [| |done].
  - intros _ _. exists f. cbn. rewrite Z.add_0_r. split_and!; [|done|].
    + unfold subslice. rewrite Z.sub_diag. cbn. by rewrite drop_0.
    + apply Isolated_quiet, Quiet_refl; apply (fo_vol _ _ (rp_ok _ _ _ HR)).
  - clear k Hk. intros k Hk IH Hbuf Hfit. unfold Z.succ in *. rewrite Z.mul_add_distr_r, Z.mul_1_l in *.
    destruct IH as (f1 & E1 & HR1 & HI1); [lia|lia|]. rewrite range_snoc, foldM_snoc, E1 by lia. run. unfold read_chunk.
    set (c := cs f) in *. set (pre := subslice b p (p + k * c)).
    assert (zlen pre = k * c) as Hpre by (unfold pre; rewrite zlen_subslice; lia).
    assert (zlen (drop (Z.to_nat (k * c)) buf) = zlen buf - k * c) as Hd by (unfold zlen; rewrite length_drop; unfold zlen in *; lia).
    rewrite mul_u_ok by nia. run. rewrite add_u_ok by nia. run. rewrite slice_ok by (rewrite ?zlen_app; nia). run.
    set (w := subslice _ (c * k) _). assert (zlen w = c) as Hw by (unfold w; rewrite zlen_subslice; rewrite ?zlen_app; nia).
    assert (cs f1 = c) as Hc1 by (by eapply Isolated_cs).
    destruct (read_step f1 l b (p + k * c) w HR1) as (f2 & E2 & HR2 & HI2); rewrite ?Hc1, ?Hw; [|lia|lia|].
    { rewrite Z.mod_add, Ha by lia. done. }
    rewrite Hw in E2, HR2. rewrite E2. run. cbn [fst snd]. rewrite add_u_ok by lia. run. exists f2. rewrite splice_after by lia. split_and!.
    + do 3 f_equal. rewrite app_assoc. unfold pre. rewrite subslice_join by lia. rewrite drop_drop.
      pose proof (zlen_subslice b (p + k * c) (p + k * c + c)) as Hl. unfold zlen in Hl at 2.
      match goal with |- _ ++ drop ?x _ = _ => replace x with (Z.to_nat (k * c + c)) by lia end. by rewrite Z.add_assoc.
    + by rewrite Z.add_assoc.
    + by eapply Isolated_comp.
Qed.

(** ** Writing *)

Context (Hww : writes_whole (S := S)) (Hd2 : Date_fits (dt_date get_current_date_time)).

(** A write of at most a cluster, from the start of a cluster the file has. *)
Lemma write_step f l b p window : Represents f l (mkState b p) → p mod cs f = 0 → 0 < zlen window ≤ cs f → Forall is_byte window →
  p + zlen window ≤ MAX_FILE_SIZE → p < chain_bytes (f_fs f) l → ∃ f' l',
  unwrap_io (File_write f window) = Ret (zlen window, f') ∧ Represents f' l' (mkState (splice b p window) (p + zlen window)) ∧
  Isolated (f_fs f) (f_fs f') l l' ∧ chain_bytes (f_fs f) l ≤ chain_bytes (f_fs f') l'.
Proof.
  intros HR Ha Hn Hby Hmax Hroom. pose proof (rp_pos _ _ _ HR) as Hp. cbn in Hp. pose proof (cs_pos _ _ _ HR).
  destruct (File_write_ok f l window (rp_ok _ _ _ HR) Hd2 Hby) as (r & f' & E & HO); [intros ->; change (zlen []) with 0 in Hn; lia|lia|].
  destruct HO as [(n & l' & -> & [Hn' Hwh] & HW)|(-> & HF)]; [|destruct HF; lia]. specialize (Hwh Hww). rewrite Hp, Ha in Hwh.
  replace n with (zlen window) in * by lia. rewrite take_ge in HW by (unfold zlen; lia).
  exists f', l'. unfold unwrap_io. rewrite E. split_and!; [done|by eapply Written_represents|apply HW|].
  unfold chain_bytes. rewrite (Isolated_cs _ _ _ _ (wn_isolated _ _ _ _ _ HW)). destruct (wn_chain _ _ _ _ _ HW) as [->|(c & -> & _)]; [lia|].
  rewrite zlen_app. pose proof (zlen_nonneg [c]). nia.
Qed.

Lemma splice_twice {A} (b w1 w2 : list A) p : 0 ≤ p ≤ zlen b → splice (splice b p w1) (p + zlen w1) w2 = splice b p (w1 ++ w2).
Proof.
  intros Hp. unfold splice, zlen in *. set (q := Z.to_nat p). replace (Z.to_nat (p + Z.of_nat (length w1))) with (q + length w1)%nat by lia.
  assert (length (take q b ++ w1) = (q + length w1)%nat) as Hl by (rewrite length_app, length_take; lia).
  rewrite (app_assoc (take q b) w1). rewrite take_app_length' by lia. rewrite <- !app_assoc. do 3 f_equal.
  rewrite (app_assoc (take q b) w1), drop_app_ge by lia. rewrite drop_drop, Hl, length_app. f_equal. lia.
Qed.

Lemma write_loop f l b p buf k : Represents f l (mkState b p) → p mod cs f = 0 → 0 ≤ k → k * cs f ≤ zlen buf → Forall is_byte buf →
  p + k * cs f ≤ MAX_FILE_SIZE → p + k * cs f ≤ chain_bytes (f_fs f) l → zlen buf < 2 ^ 63 →
  ∃ f' l', foldM (write_chunk (cs f) buf) (0, f) (range 0 k) = Ret (k * cs f, f') ∧
  Represents f' l' (mkState (splice b p (take (Z.to_nat (k * cs f)) buf)) (p + k * cs f)) ∧ Isolated (f_fs f) (f_fs f') l l' ∧
  chain_bytes (f_fs f) l ≤ chain_bytes (f_fs f') l'.
Proof.
  intros HR Ha Hk Hbuf Hby Hmax Hroom Hbig. pose proof (cs_pos _ _ _ HR) as Hcs. pose proof (Represents_range _ _ _ HR) as Hp. cbn in Hp.
  revert Hbuf Hmax Hroom. pattern k. apply natlike_ind; [| |done].
  - intros _ _ _. exists f, l. rewrite Z.mul_0_l, Z.add_0_r, take_0.
    assert (splice b p [] = b) as -> by (unfold splice; cbn; by rewrite Nat.add_0_r, take_drop).
    split_and!; [done|done|apply Isolated_quiet, Quiet_refl; apply (fo_vol _ _ (rp_ok _ _ _ HR))|lia].
  - clear k Hk. intros k Hk IH Hbuf Hmax Hroom. unfold Z.succ in *. rewrite Z.mul_add_distr_r, Z.mul_1_l in *.
    destruct IH as (f1 & l1 & E1 & HR1 & HI1 & Hl1); [lia|lia|lia|]. rewrite range_snoc, foldM_snoc, E1 by lia. run. unfold write_chunk.
    set (c := cs f) in *. rewrite mul_u_ok by nia. run. rewrite add_u_ok by nia. run. rewrite slice_ok by nia. run. rewrite (Z.mul_comm c k).
    set (w := subslice _ (k * c) _). assert (zlen w = c) as Hzw by (unfold w; rewrite zlen_subslice; nia).
    assert (cs f1 = c) as Hc1 by (by eapply Isolated_cs).
    destruct (write_step f1 l1 _ (p + k * c) w HR1) as (f2 & l2 & E2 & HR2 & HI2 & Hl2); rewrite ?Hc1, ?Hzw; [| |by apply Forall_take, Forall_drop|lia|lia|].
    { rewrite Z.mod_add, Ha by lia. done. }
    { lia. }
    rewrite Hzw in E2, HR2. rewrite E2. run. rewrite add_u_ok by lia. run. exists f2, l2. split_and!; [done| |by eapply Isolated_comp|lia].
    rewrite Z.add_assoc. replace (take (Z.to_nat (k * c + c)) buf) with (take (Z.to_nat (k * c)) buf ++ w); [|apply take_subslice; lia].
    rewrite <- splice_twice by lia. rewrite zlen_take by lia. done.
Qed.

(** [read_at] at the start of a cluster, for what is in the file. *)
Lemma read_at_ok (self : Fat32File S) l b p offset buf : Represents (file self) l (mkState b p) → ff_cluster_size self = cs (file self) →
  0 ≤ offset → offset mod cs (file self) = 0 → offset + zlen buf ≤ zlen b → ∃ self',
  read_at self offset buf = Ret (zlen buf, subslice b offset (offset + zlen buf), self') ∧
  Represents (file self') l (mkState b (offset + zlen buf)) ∧ Isolated (f_fs (file self)) (f_fs (file self')) l l.
Proof.
  intros HR Hcs Ho Ha Hfit. pose proof (cs_pos _ _ _ HR) as Hpos. pose proof (zlen_nonneg buf). destruct (Represents_range _ _ _ HR) as (_ & Hmax & _). cbn in Hmax.
  unfold MAX_FILE_SIZE in *. destruct (seek_step (file self) l b p offset HR) as (f1 & E1 & HR1 & HI1); [lia|]. pose proof (Isolated_cs _ _ _ _ HI1) as Hc1.
  unfold read_at. rewrite E1. run. rewrite (rp_size _ _ _ HR1). run. cbn [st_bytes]. rewrite Z.min_l by lia. rewrite Hcs, <- Hc1 in *.
  unfold div_u, rem_u. rewrite (proj2 (Z.eqb_neq _ 0)) by lia. run. set (c := cs f1) in *. set (k := zlen buf / c).
  pose proof (Z.div_mod (zlen buf) c ltac:(lia)) as Hdm. pose proof (Z.mod_pos_bound (zlen buf) c ltac:(lia)) as Hm. fold k in Hdm.
  assert (0 ≤ k) as Hk by (apply Z.div_pos; lia).
  destruct (read_chunks f1 l b offset buf k HR1) as (f2 & E2 & HR2 & HI2); [done|done|fold c; lia|fold c; lia|lia|]. fold c in E2, HR2. rewrite E2. run.
  rewrite (rp_size _ _ _ HR2). run. cbn [st_bytes]. pose proof (zlen_subslice b offset (offset + k * c)) as Hz.
  assert (zlen (drop (Z.to_nat (k * c)) buf) = zlen buf mod c) as Hd by (unfold zlen at 1; rewrite length_drop; unfold zlen in *; lia).
  rewrite zlen_app, Hz, Hd by lia. rewrite (proj2 (Z.leb_le _ _)) by lia. rewrite andb_true_r. pose proof (Isolated_comp _ _ _ _ _ _ HI1 HI2) as HI.
  case_bool.
  - rewrite mul_u_ok by lia. run. rewrite slice_ok by (rewrite ?zlen_app, ?Hz, ?Hd; lia). run. set (w := subslice (_ ++ _) _ _).
    assert (zlen w = zlen buf mod c) as Hw by (unfold w; rewrite zlen_subslice; rewrite ?zlen_app; lia).
    destruct (read_step f2 l b (offset + k * c) w HR2) as (f3 & E3 & HR3 & HI3); rewrite ?(Isolated_cs _ _ _ _ HI2); fold c; [|lia|lia|].
    { rewrite Z.mod_add by lia. done. }
    rewrite E3. run. cbn [fst snd]. rewrite Hw in *. rewrite add_u_ok by lia. run. exists (ff_set self f3). cbn [file ff_set].
    rewrite splice_after by lia. rewrite app_assoc, subslice_join by lia. rewrite drop_ge.
    2: { pose proof (zlen_subslice b (offset + k * c) (offset + k * c + zlen buf mod c)). unfold zlen in *. lia. }
    rewrite app_nil_r. replace (offset + k * c + zlen buf mod c) with (offset + zlen buf) in * by lia. replace (k * c + zlen buf mod c) with (zlen buf) by lia.
    split_and!; [done|done|by eapply Isolated_comp].
  - exists (ff_set self f2). cbn [file ff_set]. replace (k * c) with (zlen buf) in * by lia. rewrite drop_ge, app_nil_r by (unfold zlen; lia). done.
Qed.

(** [write_at] at the start of a cluster, within the clusters of the file, up to the [flush]. *)
Lemma write_chunks_ok f l b p buf : Represents f l (mkState b p) → p mod cs f = 0 → Forall is_byte buf →
  p + zlen buf ≤ MAX_FILE_SIZE → p + zlen buf ≤ chain_bytes (f_fs f) l → ∃ f' l',
  write_chunks (cs f) f buf = Ret (zlen buf, f') ∧ Represents f' l' (mkState (splice b p buf) (p + zlen buf)) ∧ Isolated (f_fs f) (f_fs f') l l'.
Proof.
  intros HR Ha Hby Hmax Hroom. pose proof (cs_pos _ _ _ HR) as Hcs. pose proof (Represents_range _ _ _ HR) as Hp. cbn in Hp. pose proof (zlen_nonneg buf).
  unfold write_chunks, div_u, rem_u. rewrite (proj2 (Z.eqb_neq _ 0)) by lia. run. set (c := cs f) in *. set (k := zlen buf / c).
  pose proof (Z.div_mod (zlen buf) c ltac:(lia)) as Hdm. pose proof (Z.mod_pos_bound (zlen buf) c ltac:(lia)) as Hm. fold k in Hdm.
  assert (0 ≤ k) as Hk by (apply Z.div_pos; lia). unfold MAX_FILE_SIZE in *.
  destruct (write_loop f l b p buf k HR) as (f1 & l1 & E1 & HR1 & HI1 & Hl1); [done|done|fold c; lia|done|fold c; unfold MAX_FILE_SIZE; lia|fold c; lia|lia|].
  fold c in E1, HR1. rewrite E1. run. case_bool.
  - rewrite mul_u_ok by lia. run. rewrite slice_ok by lia. run. set (w := subslice _ _ _).
    assert (zlen w = zlen buf mod c) as Hzw by (unfold w; rewrite zlen_subslice; lia).
    destruct (write_step f1 l1 _ (p + k * c) w HR1) as (f2 & l2 & E2 & HR2 & HI2 & Hl2); rewrite ?(Isolated_cs _ _ _ _ HI1), ?Hzw; fold c;
      [rewrite Z.mod_add by lia; done|lia|by apply Forall_take, Forall_drop|unfold MAX_FILE_SIZE; lia|lia|].
    rewrite Hzw in E2, HR2. rewrite E2. run. rewrite add_u_ok by lia. run. exists f2, l2. replace (k * c + zlen buf mod c) with (zlen buf) by lia.
    split_and!; [done| |by eapply Isolated_comp]. replace (p + k * c + zlen buf mod c) with (p + zlen buf) in HR2 by lia.
    assert (take (Z.to_nat (k * c)) buf ++ w = buf) as Ew.
    { unfold w. rewrite (take_subslice buf (k * c) (zlen buf mod c)) by lia. apply take_ge. unfold zlen in *. lia. }
    rewrite <- Ew at 1. rewrite <- splice_twice, zlen_take by lia. done.
  - exists f1, l1. replace (k * c) with (zlen buf) in * by lia. rewrite take_ge in HR1 by (unfold zlen; lia). done.
Qed.
End InodeProofs.

Section Theorems.
Context {P : Profile} {BF : Bitflags} {TP : TimeProvider}.
Context {S : Type} {ST : Storage S} {V : View S} {FS : FlatStorage S} {WW : WholeWrites S}.

(** Reading a file inode from the start of a cluster, for bytes the file has, fills the whole
    buffer with those bytes and says so, on a disk that reads whole buffers; the file and every
    other file keep their bytes. *)
Theorem fat_read_at (self : Fat32File S) (l : list Z) (st : FileState) (offset : Z) (buf : list Z)
    (HR : Represents (file self) l st) (Hcs : ff_cluster_size self = bytes_per_cluster (f_fs (file self)))
    (Hr : reads_whole (S := S)) (Hd : Date_fits get_current_date) (Ho : 0 ≤ offset)
    (Ha : offset mod ff_cluster_size self = 0) (Hfit : offset + zlen buf ≤ zlen (st_bytes st)) :
  ∃ self', read_at self offset buf = Ret (zlen buf, subslice (st_bytes st) offset (offset + zlen buf), self') ∧
    Represents (file self') l (mkState (st_bytes st) (offset + zlen buf)) ∧ Isolated (f_fs (file self)) (f_fs (file self')) l l.
Proof. destruct st as [b p]. rewrite Hcs in Ha. by apply (read_at_ok Hr Hd self l b p offset buf). Qed.

(** [C34] Writing a file inode from the start of a cluster, within the clusters the file has, stores
    the whole buffer there and hands the file to [flush]: it holds the old bytes with the buffer
    over them, grown if need be, and every other file keeps its bytes. *)
Theorem fat_write_at (self : Fat32File S) (l : list Z) (st : FileState) (offset : Z) (buf : list Z)
    (HR : Represents (file self) l st) (Hcs : ff_cluster_size self = bytes_per_cluster (f_fs (file self)))
    (Hw : writes_whole (S := S)) (Hd2 : Date_fits (dt_date get_current_date_time))
    (Ho : 0 ≤ offset ≤ zlen (st_bytes st)) (Ha : offset mod ff_cluster_size self = 0) (Hby : Forall is_byte buf)
    (Hmax : offset + zlen buf ≤ MAX_FILE_SIZE) (Hfit : offset + zlen buf ≤ chain_bytes (f_fs (file self)) l) :
  ∃ f l', write_at self offset buf = ('(_, f) ← unwrap_io (File_flush f); Ret (zlen buf, ff_set self f)) ∧
    Represents f l' (mkState (splice (st_bytes st) offset buf) (offset + zlen buf)) ∧ Isolated (f_fs (file self)) (f_fs f) l l'.
Proof.
  destruct st as [b p]. cbn [st_bytes] in *. destruct (seek_step (file self) l b p offset HR Ho) as (f1 & E1 & HR1 & HI1).
  pose proof (Isolated_cs _ _ _ _ HI1) as Hc. rewrite Hcs in Ha.
  destruct (write_chunks_ok Hw Hd2 f1 l b offset buf HR1) as (f2 & l2 & E2 & HR2 & HI2); [by rewrite Hc|done|done| |].
  { unfold chain_bytes in *. by rewrite Hc. }
  exists f2, l2. unfold write_at. rewrite E1. run. rewrite Hcs, <- Hc, E2. run. split_and!; [done|done|by eapply Isolated_comp].
Qed.

End Theorems.

(** ** Examples on the formatted floppy disk *)

Section Examples.
Local Existing Instance dev.
Local Existing Instance Reference.bitflags.
Local Existing Instance NullTimeProvider.

Lemma sparse_reads_whole : reads_whole (S := SparseIO).
Proof. intros s buf n b s' _ _ H [= <- _ _]. unfold sp_amount. cbn in H. lia. Qed.

Lemma sparse_writes_whole : writes_whole (S := SparseIO).
Proof. intros s buf n s' _ _ _ H [= <- _]. unfold sp_amount. cbn in H. lia. Qed.

(** A file of [n] bytes that count up. *)
Definition counted (n : Z) : list Z := (λ i, i mod 251) <$> range 0 n.
Definition demo_inode : Fat32File SparseIO := mkFat32File (demo_file demo) 512.

Definition written (n : Z) : out (Fat32File SparseIO) := '(_, f) ← write_at demo_inode 0 (counted n); Ret f.

(** The number returned, and whether bytes of the buffer are those of the file at the place
    where they belong. *)
Definition read_back (n offset len : Z) : out (Z * list bool) :=
  f ← written n;
  '(size, buf, _) ← read_at f offset (zeros (Z.to_nat len));
  Ret (size, (λ i, bool_decide (buf !! Z.to_nat i = counted n !! Z.to_nat (offset + i))) <$> [0; 255; 256; 511; 512; 767]).

Example read_aligned : read_back 1300 512 768 = Ret (768, [true; true; true; true; true; true]).
Proof. vm_compute. reflexivity. Qed.

(** From the middle of a cluster the buffer is not what the file holds: a short first chunk is
    followed by the second one a cluster further on, and 512 of 768 bytes are reported. *)
Theorem fat_read_unaligned : read_back 1300 256 768 = Ret (512, [true; true; false; false; false; false]).
Proof. vm_compute. reflexivity. Qed.

(** A buffer larger than the file gets whole clusters only, of a small file nothing. *)
Theorem fat_read_short_file : (fst <$> read_back 300 0 768) = Ret 0 ∧ (fst <$> read_back 1300 0 2000) = Ret 1024.
Proof. split; vm_compute; reflexivity. Qed.

(** A write behind the end of the file lands at its end. *)
Theorem fat_write_past_end :
  (f ← written 3; '(n, f) ← write_at f 512 hello; s ← Fat32File_size f; '(_, buf, _) ← read_at f 0 (zeros 8); Ret (n, s, buf)) =
  Ret (5, 8, counted 3 ++ hello).
Proof. vm_compute. reflexivity. Qed.

(** A full volume panics the kernel. *)
Theorem fat_write_full_panics : written 5120 = Panic.
Proof. vm_compute. reflexivity. Qed.

(** A file with five bytes in a cluster of its own. *)
Lemma hello_file : ∃ f l, Represents f l (mkState hello 5) ∧ bytes_per_cluster (f_fs f) = 512 ∧ 5 ≤ chain_bytes (f_fs f) l.
Proof.
  assert (Represents (demo_file demo) [] (mkState [] 0)) as HR by (apply demo_file_ok; [exact demo_invariant|vm_compute; reflexivity]).
  destruct (File_write_ok (demo_file demo) [] hello (rp_ok _ _ _ HR)) as (r & f & E & H); [vm_compute; repeat split; discriminate| |done|done|].
  { apply bytes_forallb. reflexivity. }
  destruct H as [(n & l & -> & [Hn Hwh] & HW)|(_ & HF)]; [|pose proof (rf_full _ _ _ HF) as HF0; vm_compute in HF0; discriminate].
  specialize (Hwh sparse_writes_whole). vm_compute in Hwh. subst n. change (take (Z.to_nat 5) hello) with hello in HW.
  exists f, l. pose proof (Written_represents _ _ _ _ _ _ _ HR HW) as HR'. destruct (Represents_range _ _ _ HR') as (_ & _ & Hl & _).
  split_and!; [exact HR'| |exact Hl]. destruct (wn_isolated _ _ _ _ _ HW) as [E2 _]. unfold bytes_per_cluster. rewrite E2. vm_compute. reflexivity.
Qed.

Lemma fat_read_at_witness : ∃ self self', read_at (S := SparseIO) self 0 (zeros 5) = Ret (5, hello, self').
Proof.
  destruct hello_file as (f & l & HR & Hcs & _). exists (mkFat32File f 512).
  destruct (fat_read_at (mkFat32File f 512) l (mkState hello 5) 0 (zeros 5)) as (self' & E & _);
    [exact HR|by symmetry|exact sparse_reads_whole|vm_compute; repeat split; discriminate|done|done|done|].
  exists self'. exact E.
Defined.

Lemma fat_write_at_witness : ∃ self f l', write_at (S := SparseIO) self 0 [72; 69] = ('(_, f) ← unwrap_io (File_flush f); Ret (2, ff_set self f)) ∧
  Represents f l' (mkState [72; 69; 108; 108; 111] 2).
Proof.
  destruct hello_file as (f & l & HR & Hcs & Hl). exists (mkFat32File f 512).
  destruct (fat_write_at (mkFat32File f 512) l (mkState hello 5) 0 [72; 69]) as (f' & l' & E & HR' & _);
    [exact HR|by symmetry|exact sparse_writes_whole|vm_compute; repeat split; discriminate|done|done| |done| |].
  - apply bytes_forallb. reflexivity.
  - cbn [file]. change (0 + zlen [72; 69]) with 2. lia.
  - exists f', l'. split; [exact E|exact HR'].
Defined.

End Examples.
