(* ===== verification/ExtBlocks.v ===== *)
(** * The blocks of an ext2 file

    [kernel/crates/efs/src/fs/structures/indirection.rs]: the numbers of a file's data blocks, the
    first twelve in the inode and the others behind one, two or three levels of indirection
    blocks; finding the block at an offset, counting, appending and truncating. *)

From S2P Require Import Prelude.

Definition DIRECT_BLOCK_POINTER_COUNT : Z := 12.
Abbreviation DBPC := DIRECT_BLOCK_POINTER_COUNT.

Inductive Indirection := Direct | Simple | Double | Triple.
#[export] Instance Indirection_eq_dec : EqDecision Indirection.
Proof. solve_decision. Defined.

(** A level is the number of its indirection block, zero for none, and what it points to. *)
Abbreviation DirectBlocks := (list Z).
Abbreviation SimpleIndirection := (Z * list Z)%type.
Abbreviation DoubleIndirection := (Z * list (Z * list Z))%type.
Abbreviation TripleIndirection := (Z * list (Z * list (Z * list Z)))%type.

Record IndirectedBlocks := mkBlocks {
  blocks_per_indirection : Z;
  direct_blocks : DirectBlocks;
  singly_indirected_blocks : SimpleIndirection;
  doubly_indirected_blocks : DoubleIndirection;
  triply_indirected_blocks : TripleIndirection;
}.

(** [v.get(i)] and [v.get(i..)] *)
Definition get {A} (l : list A) (i : Z) : option A := l !! Z.to_nat i.
Definition get_from {A} (l : list A) (i : Z) : option (list A) :=
  if i <=? zlen l then Some (drop (Z.to_nat i) l) else None.

(** [v.drain(i..)] and [v.drain(..i)]: what is left. *)
Definition drain_from {A} (l : list A) (i : Z) : out (list A) :=
  if i <=? zlen l then Ret (take (Z.to_nat i) l) else Panic.
Definition drain_to {A} (l : list A) (i : Z) : out (list A) :=
  if i <=? zlen l then Ret (drop (Z.to_nat i) l) else Panic.

(** Changing the first, the last or the [i]th element, when there is one. *)
Definition first_mut {A} (f : A → out A) (l : list A) : out (list A) :=
  match l with [] => Ret [] | x :: l => x ← f x; Ret (x :: l) end.
Definition get_mut {A} (f : A → out A) (i : Z) (l : list A) : out (list A) :=
  match get l i with None => Ret l | Some x => x ← f x; Ret (<[Z.to_nat i := x]> l) end.

Section Ops.
Context {P : Profile}.
Implicit Types self : IndirectedBlocks.

(** ** Finding a block *)

Definition resolve_blocks (blocks : list Z) (offset : Z) : option Z := get blocks offset.

Definition resolve_double (self : DoubleIndirection) (offset bpi : Z) : out (option Z) :=
  double_indirection_index ← div_u offset bpi;
  simple_indirection_index ← rem_u offset bpi;
  Ret (get self.2 double_indirection_index ≫= λ s, resolve_blocks s.2 simple_indirection_index).

Definition resolve_triple (self : TripleIndirection) (offset bpi : Z) : out (option Z) :=
  square ← mul_u 32 bpi bpi;
  triple_indirection_index ← div_u offset square;
  double_indirection_index ← rem_u offset square;
  match get self.2 triple_indirection_index with
  | None => Ret None
  | Some d => resolve_double d double_indirection_index bpi
  end.

Definition block_at_offset_remainging_in_indirection (offset bpi : Z) : out (option (Indirection * Z)) :=
  if offset <? 12 then Ret (Some (Direct, offset))
  else
    up_to_simple ← add_u 32 DBPC bpi;
    if offset <? up_to_simple then
      o ← sub_u 32 offset DBPC; Ret (Some (Simple, o))
    else
      square ← mul_u 32 bpi bpi;
      up_to_double ← add_u 32 up_to_simple square;
      if offset <? up_to_double then
        o ← sub_u 32 offset up_to_simple; Ret (Some (Double, o))
      else
        cube ← mul_u 32 square bpi;
        up_to_triple ← add_u 32 up_to_double cube;
        if offset <? up_to_triple then
          o ← sub_u 32 offset up_to_double; Ret (Some (Triple, o))
        else Ret None.

Definition block_at_offset_in_indirection self (indirection : Indirection) (offset : Z) : out (option Z) :=
  let bpi := blocks_per_indirection self in
  match indirection with
  | Direct => Ret (resolve_blocks (direct_blocks self) offset)
  | Simple => Ret (resolve_blocks (singly_indirected_blocks self).2 offset)
  | Double => resolve_double (doubly_indirected_blocks self) offset bpi
  | Triple => resolve_triple (triply_indirected_blocks self) offset bpi
  end.

Definition block_at_offset self (offset : Z) : out (option Z) :=
  r ← block_at_offset_remainging_in_indirection offset (blocks_per_indirection self);
  match r with
  | None => Ret None
  | Some (indirection, remaining_offset) => block_at_offset_in_indirection self indirection remaining_offset
  end.

(** ** The data blocks in order *)

(** [iter().enumerate().map(f)] *)
Definition enumerate_map {A B} (f : Z → A → out B) (l : list A) : out (list B) :=
  foldM (λ acc p, b ← f p.1 p.2; Ret (acc ++ [b])) [] (zip (range 0 (zlen l)) l).

Definition flatten_data_blocks_with_indirection self : out (list (Z * (Indirection * Z))) :=
  let bpi := blocks_per_indirection self in
  let plain ind := enumerate_map (λ index block, Ret (block, (ind, wrap 32 index))) in
  direct ← plain Direct (direct_blocks self);
  simple ← plain Simple (singly_indirected_blocks self).2;
  double ← enumerate_map (λ i s, enumerate_map (λ index block,
    base ← mul_u 32 (wrap 32 i) bpi;
    o ← add_u 32 base (wrap 32 index);
    Ret (block, (Double, o))) s.2) (doubly_indirected_blocks self).2;
  triple ← enumerate_map (λ j d, blocks ← enumerate_map (λ i s, enumerate_map (λ index block,
    jb ← mul_u 32 (wrap 32 j) bpi;
    jbb ← mul_u 32 jb bpi;
    base ← mul_u 32 (wrap 32 i) bpi;
    o ← add_u 32 jbb base;
    o ← add_u 32 o (wrap 32 index);
    Ret (block, (Triple, o))) s.2) d.2; Ret (concat blocks)) (triply_indirected_blocks self).2;
  Ret (direct ++ simple ++ concat double ++ concat triple).

Definition flatten_data_blocks self : out (list Z) :=
  l ← flatten_data_blocks_with_indirection self;
  Ret (l.*1).

(** ** Counting *)

Definition last_data_block_allocated self : out (option (Z * (Indirection * Z))) :=
  let bpi := blocks_per_indirection self in
  let last_index {A} (l : list A) : Z := wrap 32 (zlen l - 1) in
  match (d ← last (triply_indirected_blocks self).2; s ← last d.2; b ← last s.2; Some (d.2, s.2, b)) with
  | Some (doubly, singly, block) =>
      t1 ← mul_u 32 (last_index (triply_indirected_blocks self).2) bpi;
      t2 ← mul_u 32 t1 bpi;
      d1 ← mul_u 32 (last_index doubly) bpi;
      o ← add_u 32 t2 d1;
      o ← add_u 32 o (last_index singly);
      Ret (Some (block, (Triple, o)))
  | None =>
  match (s ← last (doubly_indirected_blocks self).2; b ← last s.2; Some (s.2, b)) with
  | Some (singly, block) =>
      d1 ← mul_u 32 (last_index (doubly_indirected_blocks self).2) bpi;
      o ← add_u 32 d1 (last_index singly);
      Ret (Some (block, (Double, o)))
  | None =>
  match last (singly_indirected_blocks self).2 with
  | Some block => Ret (Some (block, (Simple, last_index (singly_indirected_blocks self).2)))
  | None => Ret ((λ block, (block, (Direct, last_index (direct_blocks self)))) <$> last (direct_blocks self))
  end end end.

Definition data_block_count self : out Z :=
  let bpi := blocks_per_indirection self in
  r ← last_data_block_allocated self;
  match r with
  | None => Ret 0
  | Some (_, (indirection, index)) =>
      i ← add_u 32 1 index;
      before ← match indirection with
        | Direct => Ret 0
        | Simple => Ret DBPC
        | Double => add_u 32 DBPC bpi
        | Triple => a ← add_u 32 DBPC bpi; sq ← mul_u 32 bpi bpi; add_u 32 a sq
        end;
      add_u 32 i before
  end.

Definition necessary_indirection_block_count (data_block_count bpi : Z) : out Z :=
  if data_block_count <=? DBPC then Ret 0
  else
    n ← sub_u 32 data_block_count DBPC;
    if n <=? bpi then Ret 1
    else
      n ← sub_u 32 n bpi;
      square ← mul_u 32 bpi bpi;
      if n <=? square then
        n1 ← sub_u 32 n 1; q ← div_u n1 bpi; add_u 32 3 q
      else
        n ← sub_u 32 n square;
        n1 ← sub_u 32 n 1;
        q ← div_u n1 bpi;
        qq ← div_u q bpi;
        x ← add_u 32 2 bpi; x ← add_u 32 x 2; x ← add_u 32 x q; x ← add_u 32 x 1; add_u 32 x qq.

Definition indirection_block_count self : out Z :=
  n ← data_block_count self;
  necessary_indirection_block_count n (blocks_per_indirection self).

(** ** Appending

    The blocks that are left are what the iterator [blocks_iterator] has not given yet. *)

(** [if l.len() < n { l.append(blocks_iterator.take(n - l.len())) }] *)
Definition top_up (n : nat) (l blocks : list Z) : list Z * list Z :=
  if (length l <? n)%nat then (l ++ take (n - length l) blocks, drop (n - length l) blocks) else (l, blocks).

(** [if pointer == 0 { pointer = blocks_iterator.next().unwrap_or_default() }] *)
Definition next_pointer (pointer : Z) (blocks : list Z) : Z * list Z :=
  if pointer =? 0 then match blocks with [] => (0, []) | b :: blocks => (b, blocks) end
  else (pointer, blocks).

(** Completing the last of some simple indirections. *)
Definition top_up_last (n : nat) (l : list SimpleIndirection) (blocks : list Z) : list SimpleIndirection * list Z :=
  match last l with
  | None => (l, blocks)
  | Some (p, data) =>
      let '(data, blocks) := top_up n data blocks in
      (<[pred (length l) := (p, data)]> l, blocks)
  end.

(** [while len < n && let Some(block) = blocks_iterator.next() { push (block, take(n)) }], with
    [room] places left. *)
Fixpoint fill_double (n room : nat) (blocks : list Z) : list SimpleIndirection * list Z :=
  match room, blocks with
  | S room, b :: blocks =>
      let '(l, rest) := fill_double n room (drop n blocks) in ((b, take n blocks) :: l, rest)
  | _, _ => ([], blocks)
  end.

(** The same with the two conditions in the other order: a block is taken from the iterator before
    the length is compared. *)
Fixpoint fill_inner (n room : nat) (blocks : list Z) : list SimpleIndirection * list Z :=
  match blocks with
  | [] => ([], [])
  | b :: blocks =>
      match room with
      | O => ([], blocks)
      | S room => let '(l, rest) := fill_inner n room (drop n blocks) in ((b, take n blocks) :: l, rest)
      end
  end.

Fixpoint fill_triple (n room : nat) (blocks : list Z) : list DoubleIndirection * list Z :=
  match room, blocks with
  | S room, b :: blocks =>
      let '(d, rest) := fill_inner n n blocks in
      let '(l, rest) := fill_triple n room rest in ((b, d) :: l, rest)
  | _, _ => ([], blocks)
  end.

Definition extend_doubly (n : nat) (l : list SimpleIndirection) (blocks : list Z) : list SimpleIndirection * list Z :=
  if (length l <=? n)%nat then
    let '(l, blocks) := top_up_last n l blocks in
    let '(l', blocks) := fill_double n (n - length l) blocks in
    (l ++ l', blocks)
  else (l, blocks).

Definition extend_triply (n : nat) (l : list DoubleIndirection) (blocks : list Z) : list DoubleIndirection * list Z :=
  if (length l <=? n)%nat then
    let '(l, blocks) := match last l with
      | None => (l, blocks)
      | Some (p, d) =>
          if (length d <? n)%nat then
            let '(d, blocks) := top_up_last n d blocks in
            let '(d', blocks) := fill_double n (n - length d) blocks in
            (<[pred (length l) := (p, d ++ d')]> l, blocks)
          else (l, blocks)
      end in
    let '(l', blocks) := fill_triple n (n - length l) blocks in
    (l ++ l', blocks)
  else (l, blocks).

Definition append_blocks self (blocks : list Z) : IndirectedBlocks :=
  let bpi := blocks_per_indirection self in
  let n := Z.to_nat bpi in
  let '(direct, blocks) := top_up (Z.to_nat DBPC) (direct_blocks self) blocks in
  let '(p1, blocks) := next_pointer (singly_indirected_blocks self).1 blocks in
  if bool_decide (blocks = []) then
    mkBlocks bpi direct (p1, (singly_indirected_blocks self).2) (doubly_indirected_blocks self) (triply_indirected_blocks self)
  else
    let '(simple, blocks) := top_up n (singly_indirected_blocks self).2 blocks in
    let '(p2, blocks) := next_pointer (doubly_indirected_blocks self).1 blocks in
    if bool_decide (blocks = []) then
      mkBlocks bpi direct (p1, simple) (p2, (doubly_indirected_blocks self).2) (triply_indirected_blocks self)
    else
      let '(double, blocks) := extend_doubly n (doubly_indirected_blocks self).2 blocks in
      let '(p3, blocks) := next_pointer (triply_indirected_blocks self).1 blocks in
      if bool_decide (blocks = []) then
        mkBlocks bpi direct (p1, simple) (p2, double) (p3, (triply_indirected_blocks self).2)
      else
        let '(triple, _) := extend_triply n (triply_indirected_blocks self).2 blocks in
        mkBlocks bpi direct (p1, simple) (p2, double) (p3, triple).

(** ** Truncating *)

Definition truncate_back_data_blocks self (n : Z) : out IndirectedBlocks :=
  let bpi := blocks_per_indirection self in
  count ← data_block_count self;
  if count <? n then Ret self
  else if n <=? DBPC then
    direct ← drain_from (direct_blocks self) n;
    Ret (mkBlocks bpi direct (0, []) (0, []) (0, []))
  else
    n ← sub_u 32 n DBPC;
    if n <=? bpi then
      simple ← drain_from (singly_indirected_blocks self).2 n;
      Ret (mkBlocks bpi (direct_blocks self) ((singly_indirected_blocks self).1, simple) (0, []) (0, []))
    else
      n ← sub_u 32 n bpi;
      square ← mul_u 32 bpi bpi;
      if n <=? square then
        q ← div_u n bpi; r ← rem_u n bpi;
        double ← get_mut (λ '(p, blocks), blocks ← drain_from blocks r; Ret (p, blocks)) q (doubly_indirected_blocks self).2;
        n1 ← sub_u 32 n 1; q1 ← div_u n1 bpi;
        double ← drain_from double (q1 + 1);
        Ret (mkBlocks bpi (direct_blocks self) (singly_indirected_blocks self) ((doubly_indirected_blocks self).1, double) (0, []))
      else
        n ← sub_u 32 n square;
        q ← div_u n bpi; qq ← div_u q bpi; r ← rem_u n bpi;
        n1 ← sub_u 32 n 1; q1 ← div_u n1 bpi; qq1 ← div_u q1 bpi;
        triple ← get_mut (λ '(p, d),
          d ← get_mut (λ '(p, blocks), blocks ← drain_from blocks r; Ret (p, blocks)) q d;
          d ← drain_from d (q1 + 1);
          Ret (p, d)) qq (triply_indirected_blocks self).2;
        triple ← drain_from triple (qq1 + 1);
        Ret (mkBlocks bpi (direct_blocks self) (singly_indirected_blocks self) (doubly_indirected_blocks self)
          ((triply_indirected_blocks self).1, triple)).

(** What an operation changes: for each level the index it starts at, and what it holds. *)
Record SymmetricDifference := mkDiff {
  df_blocks_per_indirection : Z;
  df_direct : Z * DirectBlocks;
  df_singly : Z * SimpleIndirection;
  df_doubly : Z * DoubleIndirection;
  df_triply : Z * TripleIndirection;
}.

Definition truncate_front_data_blocks self (n : Z) : out SymmetricDifference :=
  let bpi := blocks_per_indirection self in
  if n <? DBPC then
    direct ← drain_to (direct_blocks self) n;
    Ret (mkDiff bpi (n, direct) (0, singly_indirected_blocks self) (0, doubly_indirected_blocks self) (0, triply_indirected_blocks self))
  else
    n ← sub_u 32 n DBPC;
    if n <? bpi then
      simple ← drain_to (singly_indirected_blocks self).2 n;
      Ret (mkDiff bpi (0, []) (n, ((singly_indirected_blocks self).1, simple)) (0, doubly_indirected_blocks self) (0, triply_indirected_blocks self))
    else
      n ← sub_u 32 n bpi;
      square ← mul_u 32 bpi bpi;
      if n <? square then
        q ← div_u n bpi; r ← rem_u n bpi;
        double ← drain_to (doubly_indirected_blocks self).2 q;
        double ← first_mut (λ '(p, blocks), blocks ← drain_to blocks r; Ret (p, blocks)) double;
        Ret (mkDiff bpi (0, []) (0, (0, [])) (n, ((doubly_indirected_blocks self).1, double)) (0, triply_indirected_blocks self))
      else
        n ← sub_u 32 n square;
        cube ← mul_u 32 square bpi;
        if n <? cube then
          q ← div_u n bpi; qq ← div_u q bpi; m ← rem_u n square; mq ← div_u m bpi; r ← rem_u n bpi;
          triple ← drain_to (triply_indirected_blocks self).2 qq;
          triple ← first_mut (λ '(p, d),
            d ← drain_to d mq;
            d ← first_mut (λ '(p, blocks), blocks ← drain_to blocks r; Ret (p, blocks)) d;
            Ret (p, d)) triple;
          Ret (mkDiff bpi (0, []) (0, (0, [])) (0, (0, [])) (n, ((triply_indirected_blocks self).1, triple)))
        else Ret (mkDiff bpi (0, []) (0, (0, [])) (0, (0, [])) (0, (0, []))).

Definition no_difference self : SymmetricDifference :=
  mkDiff (blocks_per_indirection self) (0, []) (0, (0, [])) (0, (0, [])) (0, (0, [])).

(** [l.get(i..).map(to_vec).unwrap_or_default()] *)
Definition rest_from {A} (l : list A) (i : Z) : list A := default [] (get_from l i).

(** The part of [appended] that starts at [last_index] of the level [last_indirection]. *)
Definition changed_part (appended : IndirectedBlocks) (bpi : Z) (last_indirection : Indirection) (last_index : Z) : out IndirectedBlocks :=
  let '(mkBlocks b direct singly doubly triply) := appended in
  match last_indirection with
  | Direct => Ret (mkBlocks b (rest_from direct last_index) singly doubly triply)
  | Simple =>
      let data := rest_from singly.2 last_index in
      Ret (mkBlocks b [] (if bool_decide (data = []) then 0 else singly.1, data) doubly triply)
  | Double =>
      q ← div_u last_index bpi; r ← rem_u last_index bpi;
      match rest_from doubly.2 q with
      | [] => Ret (mkBlocks b [] (0, []) (0, []) triply)
      | (p, data) :: l =>
          let data := rest_from data r in
          Ret (mkBlocks b [] (0, []) (doubly.1, (if bool_decide (data = []) then 0 else p, data) :: l) triply)
      end
  | Triple =>
      square ← mul_u 32 bpi bpi;
      q ← div_u last_index square; m ← rem_u last_index square; mq ← div_u m bpi; r ← rem_u last_index bpi;
      match rest_from triply.2 q with
      | [] => Ret (mkBlocks b [] (0, []) (0, []) (triply.1, []))
      | (p, d) :: l =>
          if m =? 0 then Ret (mkBlocks b [] (0, []) (0, []) (triply.1, (0, []) :: l))
          else
            let d := match rest_from d mq with
              | [] => []
              | (p, data) :: d => (if r =? 0 then (0, []) else (p, rest_from data r)) :: d
              end in
            Ret (mkBlocks b [] (0, []) (0, []) (triply.1, (p, d) :: l))
      end
  end.

Definition append_blocks_with_difference self (blocks : list Z) (offset : option Z) : out (IndirectedBlocks * SymmetricDifference) :=
  let bpi := blocks_per_indirection self in
  start ← match offset with
    | None =>
        r ← last_data_block_allocated self;
        match r with
        | None => Ret None
        | Some (_, (last_indirection, last_index)) => i ← add_u 32 last_index 1; Ret (Some (last_indirection, i))
        end
    | Some offset => block_at_offset_remainging_in_indirection offset bpi
    end;
  match start with
  | None => Ret (self, no_difference self)
  | Some (last_indirection, last_index) =>
      let appended := append_blocks self blocks in
      indirection ← changed_part appended bpi last_indirection last_index;
      let starting_index indirect := if decide (last_indirection = indirect) then last_index else 0 in
      Ret (appended, mkDiff (blocks_per_indirection indirection)
        (starting_index Direct, direct_blocks indirection)
        (starting_index Simple, singly_indirected_blocks indirection)
        (starting_index Double, doubly_indirected_blocks indirection)
        (starting_index Triple, triply_indirected_blocks indirection))
  end.

(** The indirection blocks that change: for each the index its new content starts at, and the
    content. *)
Definition changed_indirected_blocks (self : SymmetricDifference) : out (list (Z * (Z * list Z))) :=
  let bpi := df_blocks_per_indirection self in
  let simples := fmap (λ s : SimpleIndirection, (0, s)) in
  let singly := if (df_singly self).2.1 =? 0 then [] else [((df_singly self).1, (df_singly self).2)] in
  doubly ← (let '(start, (pointer, l)) := df_doubly self in
    if pointer =? 0 then Ret []
    else
      q ← div_u start bpi; r ← rem_u start bpi;
      Ret ((q, (pointer, l.*1)) :: match l with [] => [] | s :: l => (r, s) :: simples l end));
  triply ← (let '(start, (pointer, l)) := df_triply self in
    if pointer =? 0 then Ret []
    else
      square ← mul_u 64 bpi bpi;
      q ← div_u start square; m ← rem_u start square; mq ← div_u m bpi; r ← rem_u start bpi;
      Ret ((q, (pointer, l.*1)) :: match l with
        | [] => []
        | (p, d) :: l =>
            (mq, (p, d.*1)) :: (match d with [] => [] | s :: d => (r, s) :: simples d end) ++
            (l ≫= λ '(p, d), (0, (p, d.*1)) :: simples d)
        end));
  Ret (singly ++ doubly ++ triply).

Definition changed_data_blocks (self : SymmetricDifference) : list Z :=
  (df_direct self).2 ++ (df_singly self).2.2 ++ ((df_doubly self).2.2 ≫= snd) ++
  ((df_triply self).2.2 ≫= λ d, d.2 ≫= snd).

End Ops.

(** ** The layout of a list of blocks

    A file that has been given the blocks [t], in this order: the first twelve are data, the next is
    an indirection block, and so on; [chunks] cuts the rest into indirection blocks with the [n]
    data blocks behind each. *)

Definition chunks (n : nat) (t : list Z) : list SimpleIndirection := (fill_double n (length t) t).1.

Definition layout (bpi : Z) (t : list Z) : IndirectedBlocks :=
  let n := Z.to_nat bpi in
  let r1 := drop 12 t in
  let r2 := drop n (tail r1) in
  mkBlocks bpi (take 12 t) (default 0 (head r1), take n (tail r1)) (default 0 (head r2), chunks n (tail r2)) (0, []).

Section Chunks.
Context (n : nat).
Implicit Types t bs : list Z.

Lemma fill_double_fuel t r1 r2 : (length t ≤ r1)%nat → (length t ≤ r2)%nat → fill_double n r1 t = fill_double n r2 t.
Proof.
  revert t r2. induction r1 as [|r1 IH]; intros [|b t] [|r2] H1 H2; cbn in *; try done; try lia.
  rewrite (IH (drop n t) r2); [done|rewrite length_drop; lia|rewrite length_drop; lia].
Qed.

Lemma chunks_nil : chunks n [] = [].
Proof. done. Qed.

Lemma chunks_step b t : chunks n (b :: t) = (b, take n t) :: chunks n (drop n t).
Proof.
  unfold chunks. cbn [length fill_double]. rewrite (fill_double_fuel (drop n t) (length t) (length (drop n t))); [|rewrite length_drop; lia|done].
  by destruct (fill_double n _ (drop n t)).
Qed.

(** Induction along the chunks. *)
Lemma chunks_induction (Q : list Z → Prop) : Q [] → (∀ b t, Q (drop n t) → Q (b :: t)) → ∀ t, Q t.
Proof.
  intros H0 HS t. remember (length t) as k eqn:E.
  revert t E. induction (lt_wf k) as [k _ IH]. intros [|b t] ->; [done|]. apply HS. eapply IH; [|done]. cbn. rewrite length_drop. lia.
Qed.

Lemma fill_double_chunks t room : (length t ≤ room * S n)%nat → fill_double n room t = (chunks n t, []).
Proof.
  revert t. induction room as [|room IH]; intros [|b t] H; cbn in *; try done; try lia.
  rewrite IH by (rewrite length_drop; lia). by rewrite chunks_step.
Qed.

Lemma length_chunks t : (length (chunks n t) * S n < length t + S n)%nat.
Proof.
  induction t as [|b t IH] using chunks_induction; [cbn; lia|]. rewrite chunks_step. cbn [length]. rewrite length_drop in IH.
  destruct (length (chunks n (drop n t))) as [|k]; [lia|nia].
Qed.

Lemma chunks_empty t : chunks n t = [] → t = [].
Proof. destruct t; [done|]. by rewrite chunks_step. Qed.

Lemma top_up_take k t bs : top_up k (take k t) bs = (take k (t ++ bs), drop (k - length t) bs).
Proof.
  unfold top_up. rewrite length_take, take_app. destruct (Nat.ltb_spec (k `min` length t) k) as [H|H].
  - rewrite (Nat.min_r k (length t)) by lia. done.
  - replace (k - length t)%nat with 0%nat by lia. by rewrite take_0, app_nil_r, drop_0.
Qed.

Lemma next_pointer_head t bs : Forall (λ b, b ≠ 0) t → ∃ bs', next_pointer (default 0 (head t)) bs = (default 0 (head (t ++ bs)), bs') ∧
  tail (t ++ bs) = tail t ++ bs'.
Proof.
  intros Hz. destruct t as [|p t]; cbn.
  - destruct bs as [|b bs]; [by exists []|by exists bs].
  - apply Forall_cons in Hz as [Hp _]. unfold next_pointer. rewrite (proj2 (Z.eqb_neq p 0)) by done. by exists bs.
Qed.

Lemma top_up_last_cons x l bs : l ≠ [] → top_up_last n (x :: l) bs = ((x :: (top_up_last n l bs).1), (top_up_last n l bs).2).
Proof.
  intros Hl. unfold top_up_last. rewrite last_cons. destruct (last l) as [[p data]|] eqn:E; [|by apply last_None in E].
  destruct (top_up n data bs). cbn. f_equal. destruct l; [done|]. done.
Qed.

Lemma top_up_last_chunks t bs : let '(l, bs') := top_up_last n (chunks n t) bs in
  l ++ chunks n bs' = chunks n (t ++ bs) ∧ length l = length (chunks n t) ∧ (bs' ≠ [] → length (t ++ bs) = length l * S n + length bs')%nat.
Proof.
  induction t as [|b t IH] using chunks_induction; [cbn; split_and!; [done|done|lia]|]. rewrite chunks_step.
  destruct (decide (drop n t = [])) as [E|E].
  - rewrite E, chunks_nil. pose proof (f_equal length E) as El. rewrite length_drop in El. cbn in El. unfold top_up_last. cbn [last].
    rewrite top_up_take. cbn. rewrite chunks_step, drop_app, E. split_and!; [done|done|]. intros Hne. rewrite length_app, length_drop.
    destruct (decide (length bs ≤ n - length t)%nat); [|lia]. by rewrite drop_ge in Hne.
  - assert (chunks n (drop n t) ≠ []) as Hc by (intros Hc; by apply chunks_empty in Hc). rewrite top_up_last_cons by done.
    destruct (top_up_last n (chunks n (drop n t)) bs) as [l bs']. destruct IH as (H1 & H2 & H3). cbn [fst snd].
    pose proof (f_equal length (take_drop n t)) as Ht. rewrite length_app in Ht.
    assert (n < length t)%nat as Hlt by (destruct (decide (length t ≤ n)%nat); [by rewrite drop_ge in E|lia]).
    split_and!.
    + cbn [app]. rewrite H1, chunks_step. rewrite take_app_le, drop_app_le by lia. done.
    + cbn. by rewrite H2.
    + intros Hne. specialize (H3 Hne). rewrite length_app, length_drop in H3. cbn. rewrite length_app. lia.
Qed.

Lemma extend_doubly_chunks t bs : (length (t ++ bs) ≤ n * S n)%nat → extend_doubly n (chunks n t) bs = (chunks n (t ++ bs), []).
Proof.
  intros Hlen. pose proof (length_chunks t) as Hc. rewrite length_app in Hlen. unfold extend_doubly.
  rewrite (proj2 (Nat.leb_le _ _)) by nia. pose proof (top_up_last_chunks t bs) as HT.
  destruct (top_up_last n (chunks n t) bs) as [l bs']. destruct HT as (H1 & H2 & H3).
  rewrite fill_double_chunks; [by rewrite H1|]. destruct bs' as [|b bs']; [apply Nat.le_0_l|]. specialize (H3 ltac:(done)). rewrite length_app in H3.
  rewrite Nat.mul_sub_distr_r. lia.
Qed.

End Chunks.

(** ** Appending is appending *)

(** As many blocks as the first three levels hold. *)
Definition capacity (n : nat) : nat := 12 + (1 + n) + (1 + n * S n).

Lemma append_layout bpi t bs : Forall (λ b, b ≠ 0) t → (length (t ++ bs) ≤ capacity (Z.to_nat bpi))%nat →
  append_blocks (layout bpi t) bs = layout bpi (t ++ bs).
Proof.
  intros Hz Hcap. unfold append_blocks, layout. cbn [blocks_per_indirection direct_blocks singly_indirected_blocks doubly_indirected_blocks triply_indirected_blocks fst snd].
  set (n := Z.to_nat bpi) in *. unfold capacity in Hcap. change (Z.to_nat DBPC) with 12%nat. rewrite top_up_take. rewrite (drop_app t).
  set (r1 := drop 12 t). set (bs1 := drop (12 - length t) bs). assert (length (r1 ++ bs1) ≤ (1 + n) + (1 + n * S n))%nat as Hl1.
  { unfold r1, bs1. rewrite <- drop_app, length_drop. lia. }
  destruct (next_pointer_head r1 bs1) as (bs2 & -> & E2); [by apply Forall_drop|]. rewrite E2. case_bool_decide as Hb2.
  { subst. by rewrite !app_nil_r. }
  rewrite top_up_take. rewrite (drop_app (tail r1)). set (r2 := drop n (tail r1)). set (bs3 := drop (n - length (tail r1)) bs2).
  destruct (next_pointer_head r2 bs3) as (bs4 & -> & E4).
  { apply Forall_drop. destruct r1 eqn:Er; [done|]. assert (Forall (λ b, b ≠ 0) r1) as H by (by apply Forall_drop). rewrite Er in H. by apply Forall_cons in H as [_ H]. }
  rewrite E4. case_bool_decide as Hb4.
  { subst. by rewrite !app_nil_r. }
  rewrite extend_doubly_chunks; [done|]. rewrite <- E4, length_tl. unfold r2, bs3. rewrite <- drop_app, length_drop, <- E2, length_tl. lia.
Qed.

(** ** Well-formed files

    Every chunk but the last is full, and the last is not empty. *)
Fixpoint chunked {X} (f : X → list Z) (m : nat) (l : list X) : Prop :=
  match l with
  | [] => True
  | x :: l => match l with [] => (0 < length (f x) ≤ m)%nat | _ => length (f x) = m end ∧ chunked f m l
  end.

Definition flat1 (l : list SimpleIndirection) : list Z := l ≫= snd.
Definition flat2 (l : list DoubleIndirection) : list Z := l ≫= λ d, flat1 d.2.

(** The data blocks. *)
Definition blocks_of (self : IndirectedBlocks) : list Z :=
  direct_blocks self ++ (singly_indirected_blocks self).2 ++ flat1 (doubly_indirected_blocks self).2 ++ flat2 (triply_indirected_blocks self).2.

(** A level is used when the one before it is full. *)
Record Tight (self : IndirectedBlocks) : Prop := {
  ti_positive : 0 < blocks_per_indirection self;
  ti_bound : 12 + blocks_per_indirection self + blocks_per_indirection self * blocks_per_indirection self +
    blocks_per_indirection self * blocks_per_indirection self * blocks_per_indirection self < 2 ^ 32;
  ti_direct : zlen (direct_blocks self) ≤ 12;
  ti_simple : zlen (singly_indirected_blocks self).2 ≤ blocks_per_indirection self;
  ti_double : chunked snd (Z.to_nat (blocks_per_indirection self)) (doubly_indirected_blocks self).2;
  ti_double_len : zlen (doubly_indirected_blocks self).2 ≤ blocks_per_indirection self;
  ti_triple : chunked (λ d : DoubleIndirection, flat1 d.2) (Z.to_nat (blocks_per_indirection self) * Z.to_nat (blocks_per_indirection self))
    (triply_indirected_blocks self).2;
  ti_triple_len : zlen (triply_indirected_blocks self).2 ≤ blocks_per_indirection self;
  ti_triple_in : Forall (λ d : DoubleIndirection, chunked snd (Z.to_nat (blocks_per_indirection self)) d.2) (triply_indirected_blocks self).2;
  ti_then_simple : (singly_indirected_blocks self).2 ++ flat1 (doubly_indirected_blocks self).2 ++ flat2 (triply_indirected_blocks self).2 ≠ [] →
    zlen (direct_blocks self) = 12;
  ti_then_double : flat1 (doubly_indirected_blocks self).2 ++ flat2 (triply_indirected_blocks self).2 ≠ [] →
    zlen (singly_indirected_blocks self).2 = blocks_per_indirection self;
  ti_then_triple : flat2 (triply_indirected_blocks self).2 ≠ [] →
    zlen (flat1 (doubly_indirected_blocks self).2) = blocks_per_indirection self * blocks_per_indirection self;
}.

Section Chunked.
Context {X : Type} (f : X → list Z) (m : nat) (Hm : (0 < m)%nat).
Implicit Types l : list X.

Lemma chunked_cons x l : chunked f m (x :: l) → (0 < length (f x) ≤ m)%nat ∧ (l ≠ [] → length (f x) = m) ∧ chunked f m l.
Proof. destruct l as [|y l]; intros [H1 H2]; split_and!; try done; lia. Qed.

Lemma chunked_lookup l i : chunked f m l → (l ≫= f) !! i = (l !! (i / m)%nat) ≫= λ x, f x !! (i mod m)%nat.
Proof.
  revert i. induction l as [|x l IH]; intros i Hc; [done|]. apply chunked_cons in Hc as (Hx & Hfull & Hc).
  rewrite bind_cons. destruct (decide (i < m)%nat) as [Hi|Hi].
  - rewrite Nat.div_small, Nat.mod_small by done. cbn. destruct (decide (i < length (f x))%nat) as [Hl|Hl].
    + by rewrite lookup_app_l.
    + destruct l as [|y l]; [cbn; by rewrite app_nil_r|]. rewrite Hfull in Hl by done. lia.
  - assert (i / m = S ((i - m) / m) ∧ i mod m = (i - m) mod m)%nat as [-> ->].
    { replace i with ((i - m) + 1 * m)%nat at 1 3 by lia. rewrite Nat.div_add, Nat.Div0.mod_add by lia. split; [lia|done]. }
    destruct l as [|y l]; [cbn; rewrite app_nil_r; apply lookup_ge_None_2; lia|]. specialize (Hfull ltac:(done)).
    rewrite lookup_app_r, Hfull by lia. change ((x :: y :: l) !! S ((i - m) / m)%nat) with ((y :: l) !! ((i - m) / m)%nat). by apply IH.
Qed.

Lemma chunked_last l x : chunked f m l → last l = Some x → (0 < length (f x) ≤ m)%nat ∧ length (l ≫= f) = (pred (length l) * m + length (f x))%nat.
Proof.
  induction l as [|y l IH]; intros Hc Hl; [done|]. apply chunked_cons in Hc as (Hy & Hfull & Hc). rewrite bind_cons, length_app.
  destruct l as [|z l]; [injection Hl as ->; cbn; split; [done|lia]|]. rewrite last_cons_cons in Hl. destruct (IH Hc Hl) as [H1 H2].
  split; [done|]. rewrite H2, Hfull by done. cbn. lia.
Qed.

Lemma chunked_in l i x : chunked f m l → l !! i = Some x → (0 < length (f x) ≤ m)%nat.
Proof. revert i. induction l as [|y l IH]; intros [|i] Hc Hi; try done; apply chunked_cons in Hc as (Hy & _ & Hc); [by injection Hi as ->|by eapply IH]. Qed.

Lemma chunked_nil l : chunked f m l → l ≫= f = [] → l = [].
Proof.
  destruct l as [|x l]; [done|]. intros Hc E. apply chunked_cons in Hc as (Hx & _). rewrite bind_cons in E. apply app_nil in E as [E _]. rewrite E in Hx. cbn in Hx. lia.
Qed.

Lemma chunked_length l : chunked f m l → (length (l ≫= f) ≤ length l * m)%nat.
Proof.
  induction l as [|x l IH]; intros Hc; [done|]. apply chunked_cons in Hc as (Hx & _ & Hc). rewrite bind_cons, length_app. specialize (IH Hc). cbn. lia.
Qed.

End Chunked.

(** Looking up across two levels of which the first has [a] places. *)
Lemma lookup_level {A} (l1 l2 : list A) a i : (length l1 ≤ a)%nat → (l2 ≠ [] → length l1 = a) →
  (l1 ++ l2) !! i = if decide (i < a)%nat then l1 !! i else l2 !! (i - a)%nat.
Proof.
  intros H1 H2. case_decide as Hi.
  - destruct (decide (i < length l1)%nat); [by apply lookup_app_l|]. destruct l2 as [|x l2]; [by rewrite app_nil_r|]. specialize (H2 ltac:(done)). lia.
  - rewrite lookup_app_r by lia. destruct l2 as [|x l2]; [done|]. by rewrite (H2 ltac:(done)).
Qed.

Section TightProofs.
Context {P : Profile}.
Implicit Types self : IndirectedBlocks.

(** The numbers of a well-formed file, as naturals. *)
Lemma tight_nat self : Tight self → let m := Z.to_nat (blocks_per_indirection self) in
  (0 < m)%nat ∧ blocks_per_indirection self = Z.of_nat m ∧ 12 + Z.of_nat m + Z.of_nat (m * m) + Z.of_nat (m * m * m) < 2 ^ 32.
Proof. intros Ht. pose proof (ti_positive _ Ht). pose proof (ti_bound _ Ht) as Hb. cbv zeta. split_and!; [lia|lia|]. rewrite !Nat2Z.inj_mul, Z2Nat.id by lia. done. Qed.

(** The tree of levels as one lookup. *)
Lemma blocks_of_lookup self i : Tight self → let m := Z.to_nat (blocks_per_indirection self) in
  blocks_of self !! i =
    if decide (i < 12)%nat then direct_blocks self !! i
    else if decide (i - 12 < m)%nat then (singly_indirected_blocks self).2 !! (i - 12)%nat
    else if decide (i - 12 - m < m * m)%nat then flat1 (doubly_indirected_blocks self).2 !! (i - 12 - m)%nat
    else flat2 (triply_indirected_blocks self).2 !! (i - 12 - m - m * m)%nat.
Proof.
  intros Ht. destruct (tight_nat self Ht) as (Hm & Eb & _). cbv zeta. set (m := Z.to_nat _) in *. unfold blocks_of.
  pose proof (ti_direct _ Ht). pose proof (ti_simple _ Ht). pose proof (ti_double_len _ Ht). pose proof (ti_then_simple _ Ht) as T1. pose proof (ti_then_double _ Ht) as T2. pose proof (ti_then_triple _ Ht) as T3.
  pose proof (chunked_length snd m Hm _ (ti_double _ Ht)) as Hd. fold (flat1 (doubly_indirected_blocks self).2) in Hd. unfold zlen in *. rewrite Eb in T3.
  assert (length (flat1 (doubly_indirected_blocks self).2) ≤ m * m)%nat by (etrans; [exact Hd|apply Nat.mul_le_mono_r; lia]).
  rewrite (lookup_level _ _ 12), (lookup_level _ _ m), (lookup_level _ _ (m * m)); [done|nia|intros Hne; specialize (T3 Hne); nia|lia|intros Hne; specialize (T2 Hne); lia|lia|intros Hne; specialize (T1 Hne); lia].
Qed.
Lemma resolve_double_ok (d : DoubleIndirection) o m : (0 < m)%nat → chunked snd m d.2 →
  resolve_double d (Z.of_nat o) (Z.of_nat m) = Ret (flat1 d.2 !! o).
Proof.
  intros Hm Hc. unfold resolve_double, div_u, rem_u. rewrite (proj2 (Z.eqb_neq _ 0)) by lia. run. unfold get, resolve_blocks.
  rewrite <- Nat2Z.inj_div, <- Nat2Z.inj_mod, !Nat2Z.id. unfold flat1. rewrite (chunked_lookup snd m Hm) by done.
  unfold get. by rewrite Nat2Z.id.
Qed.

Lemma resolve_triple_ok (t : TripleIndirection) o m : (0 < m)%nat → Z.of_nat (m * m) < 2 ^ 32 →
  chunked (λ d : DoubleIndirection, flat1 d.2) (m * m) t.2 → Forall (λ d : DoubleIndirection, chunked snd m d.2) t.2 →
  resolve_triple t (Z.of_nat o) (Z.of_nat m) = Ret (flat2 t.2 !! o).
Proof.
  intros Hm Hb Hc Hf. unfold resolve_triple. rewrite mul_u_ok by nia. run. rewrite <- Nat2Z.inj_mul. unfold div_u, rem_u.
  rewrite (proj2 (Z.eqb_neq _ 0)) by nia. run. unfold get, flat2. rewrite <- Nat2Z.inj_div, <- Nat2Z.inj_mod, Nat2Z.id.
  rewrite (chunked_lookup _ (m * m) ltac:(nia)) by done. destruct (t.2 !! (o / (m * m))%nat) as [d|] eqn:E; [|done]. cbn.
  apply resolve_double_ok; [done|]. by eapply (Forall_lookup_1 _ _ _ _ Hf E).
Qed.

Lemma flat2_length self : Tight self → let m := Z.to_nat (blocks_per_indirection self) in
  (length (flat2 (triply_indirected_blocks self).2) ≤ m * m * m)%nat ∧ (length (flat1 (doubly_indirected_blocks self).2) ≤ m * m)%nat.
Proof.
  intros Ht. destruct (tight_nat self Ht) as (Hm & Eb & _). cbv zeta. set (m := Z.to_nat _) in *.
  pose proof (chunked_length snd m Hm _ (ti_double _ Ht)) as Hd. pose proof (chunked_length _ (m * m) ltac:(nia) _ (ti_triple _ Ht)) as Htr.
  pose proof (ti_double_len _ Ht). pose proof (ti_triple_len _ Ht). unfold zlen in *. split.
  - etrans; [exact Htr|]. rewrite <- Nat.mul_assoc. apply Nat.mul_le_mono_r. lia.
  - etrans; [exact Hd|]. apply Nat.mul_le_mono_r. lia.
Qed.

Lemma block_at_offset_ok self offset : Tight self → 0 ≤ offset < 2 ^ 32 → block_at_offset self offset = Ret (blocks_of self !! Z.to_nat offset).
Proof.
  intros Ht Ho. destruct (tight_nat self Ht) as (Hm & Eb & Hb). destruct (flat2_length self Ht) as [Hl2 Hl1]. rewrite blocks_of_lookup by done. cbv zeta in *.
  unfold block_at_offset, block_at_offset_remainging_in_indirection, block_at_offset_in_indirection. rewrite Eb. rewrite !Nat2Z.id.
  set (m := Z.to_nat (blocks_per_indirection self)) in *. clearbody m. unfold DIRECT_BLOCK_POINTER_COUNT.
  assert (0 ≤ Z.of_nat m ∧ Z.of_nat (m * m) = Z.of_nat m * Z.of_nat m ∧ Z.of_nat (m * m * m) = Z.of_nat m * Z.of_nat m * Z.of_nat m) as (Hp0 & Em2 & Em3) by (split_and!; lia).
  assert (0 ≤ Z.of_nat m * Z.of_nat m ∧ 0 ≤ Z.of_nat m * Z.of_nat m * Z.of_nat m) as [Hp2 Hp3] by lia.
  destruct (Z.ltb_spec offset 12); case_decide; try lia; [done|].
  rewrite add_u_ok by lia. run. destruct (Z.ltb_spec offset (12 + Z.of_nat m)); case_decide; try lia.
  { rewrite sub_u_ok by lia. run. unfold resolve_blocks, get. do 2 f_equal. lia. }
  rewrite mul_u_ok by lia. run. rewrite add_u_ok by lia. run. destruct (Z.ltb_spec offset (12 + Z.of_nat m + Z.of_nat m * Z.of_nat m)); case_decide; try lia.
  { rewrite sub_u_ok by lia. run. replace (offset - (12 + Z.of_nat m)) with (Z.of_nat (Z.to_nat offset - 12 - m)) by lia.
    apply resolve_double_ok; [done|]. pose proof (ti_double _ Ht) as Hd. rewrite Eb, Nat2Z.id in Hd. done. }
  rewrite mul_u_ok by lia. run. rewrite add_u_ok by lia. run. 
  destruct (Z.ltb_spec offset (12 + Z.of_nat m + Z.of_nat m * Z.of_nat m + Z.of_nat m * Z.of_nat m * Z.of_nat m)).
  - rewrite sub_u_ok by lia. run. replace (offset - (12 + Z.of_nat m + Z.of_nat m * Z.of_nat m)) with (Z.of_nat (Z.to_nat offset - 12 - m - m * m)) by lia.
    pose proof (ti_triple _ Ht) as Htr. pose proof (ti_triple_in _ Ht) as Hin. rewrite Eb, Nat2Z.id in Htr, Hin. apply resolve_triple_ok; try done. lia.
  - run. symmetry. f_equal. apply lookup_ge_None_2. lia.
Qed.

(** ** Counting *)

Lemma last_index_ok {A} (l : list A) : l ≠ [] → zlen l < 2 ^ 32 → wrap 32 (zlen l - 1) = Z.of_nat (pred (length l)).
Proof. intros Hl Hb. destruct l as [|x l]; [done|]. rewrite wrap_small; unfold zlen in *; cbn in *; lia. Qed.

Lemma last_Some_ne {A} (l : list A) : l ≠ [] → ∃ x, last l = Some x.
Proof. intros H. destruct (last l) as [x|] eqn:E; [by exists x|]. by apply last_None in E. Qed.

(** The last block of a double indirection of which each chunk but the last is full. *)
Lemma flat1_last (l : list SimpleIndirection) m : (0 < m)%nat → chunked snd m l → l ≠ [] → ∃ s b, last l = Some s ∧ last s.2 = Some b ∧
  s.2 ≠ [] ∧ (length s.2 ≤ m)%nat ∧ length (flat1 l) = (pred (length l) * m + length s.2)%nat.
Proof.
  intros Hm Hc Hl. destruct (last_Some_ne _ Hl) as [s Es]. destruct (chunked_last _ _ Hm _ _ Hc Es) as [H1 H2].
  assert (s.2 ≠ []) as Hs by (intros E; rewrite E in H1; cbn in H1; lia). destruct (last_Some_ne _ Hs) as [b Eb]. exists s, b. split_and!; try done. lia.
Qed.

Lemma chunked_count (l : list SimpleIndirection) m : (0 < m)%nat → chunked snd m l → (length (flat1 l) ≤ m * m)%nat → (length l ≤ m)%nat.
Proof.
  intros Hm Hc Hl. destruct (decide (l = [])) as [->|Hne]; [cbn; lia|]. destruct (flat1_last l m Hm Hc Hne) as (s & b & _ & _ & Hs & _ & Hf).
  assert (0 < length s.2)%nat by (destruct s.2; [done|cbn; lia]). assert (pred (length l) < m)%nat; [|lia].
  apply Nat.nle_gt. intros Hle. apply (Nat.mul_le_mono_r _ _ m) in Hle. lia.
Qed.

(** Where a level begins. *)
Definition level_base (m : Z) (indirection : Indirection) : Z :=
  match indirection with Direct => 0 | Simple => 12 | Double => 12 + m | Triple => 12 + m + m * m end.

(** The last data block is where the number of blocks says. *)
Definition last_is self (r : option (Z * (Indirection * Z))) : Prop :=
  match r with
  | None => blocks_of self = []
  | Some (block, (indirection, index)) => 0 ≤ index ∧ level_base (blocks_per_indirection self) indirection + index + 1 = zlen (blocks_of self)
  end.

Lemma last_triple self : Tight self → (triply_indirected_blocks self).2 ≠ [] → ∃ r, last_data_block_allocated self = Ret r ∧ last_is self r.
Proof.
  intros Ht Hne. destruct (tight_nat self Ht) as (Hm & Eb & Hb). destruct (flat2_length self Ht) as [Hl2 Hl1]. cbv zeta in *.
  pose proof (ti_triple_len _ Ht) as Hlen. pose proof (ti_then_simple _ Ht) as T1. pose proof (ti_then_double _ Ht) as T2. pose proof (ti_then_triple _ Ht) as T3.
  pose proof (ti_triple _ Ht) as C2. pose proof (ti_triple_in _ Ht) as C3. unfold last_data_block_allocated. set (m := Z.to_nat (blocks_per_indirection self)) in *. clearbody m. rewrite Eb in *.
  destruct (last_Some_ne _ Hne) as [d Ed]. rewrite Ed. destruct (chunked_last _ (m * m) ltac:(nia) _ _ C2 Ed) as [H1 H2]. change (_ ≫= _) with (flat2 (triply_indirected_blocks self).2) in H2.
  assert (d.2 ≠ []) as Hd2 by (intros E; rewrite E in H1; cbn in H1; lia).
  assert (chunked snd m d.2) as Cd.
  { rewrite Forall_forall in C3. apply C3. apply last_Some in Ed as [l' ->]. apply elem_of_app. right. by apply list_elem_of_singleton. }
  destruct (flat1_last d.2 m Hm Cd Hd2) as (s & b & Es & Ebl & Hs & Hsm & Hf).
  cbn [mbind option_bind]. rewrite Es. cbn [mbind option_bind]. rewrite Ebl. cbn [mbind option_bind fst snd].
  cbn beta in H1, H2. assert (0 < length s.2)%nat by (destruct s.2; [done|cbn; lia]). pose proof (chunked_count d.2 m Hm Cd ltac:(lia)).
  assert (pred (length d.2) < m)%nat by (destruct d.2; [done|cbn in *; lia]).
  assert (pred (length (triply_indirected_blocks self).2) < m)%nat by (unfold zlen in Hlen; destruct (triply_indirected_blocks self).2; cbn in *; [done|lia]).
  rewrite !last_index_ok by (done || unfold zlen in *; nia).
  set (x := pred (length (triply_indirected_blocks self).2)) in *. set (y := pred (length d.2)) in *. set (z := pred (length s.2)).
  assert (S z = length s.2) by (unfold z; destruct s.2; [done|cbn; lia]).
  assert (length (flat2 (triply_indirected_blocks self).2) = x * (m * m) + (y * m + S z))%nat as Hfl by lia.
  assert (0 ≤ Z.of_nat x * Z.of_nat m ∧ Z.of_nat x * Z.of_nat m * Z.of_nat m + Z.of_nat y * Z.of_nat m + Z.of_nat z < 2 ^ 32) as [Hx0 Hx1] by nia.
  rewrite mul_u_ok by nia. run. rewrite mul_u_ok by nia. run. rewrite mul_u_ok by nia. run. rewrite add_u_ok by nia. run. rewrite add_u_ok by nia. run.
  eexists. split; [done|]. unfold last_is, level_base, blocks_of. rewrite Eb, !zlen_app.
  assert (flat2 (triply_indirected_blocks self).2 ≠ []) as Hf2 by (intros E; rewrite E in Hfl; cbn in Hfl; lia).
  rewrite T1, T2, T3; [|done|intros E; apply app_nil in E as [_ E]; done|intros E; apply app_nil in E as [_ E]; apply app_nil in E as [_ E]; done].
  unfold zlen. rewrite Hfl. split; nia.
Qed.
Lemma last_double self : Tight self → (triply_indirected_blocks self).2 = [] → (doubly_indirected_blocks self).2 ≠ [] →
  ∃ r, last_data_block_allocated self = Ret r ∧ last_is self r.
Proof.
  intros Ht E3 Hne. destruct (tight_nat self Ht) as (Hm & Eb & Hb). cbv zeta in *.
  pose proof (ti_double_len _ Ht) as Hlen. pose proof (ti_then_simple _ Ht) as T1. pose proof (ti_then_double _ Ht) as T2.
  pose proof (ti_double _ Ht) as C1. unfold last_data_block_allocated. set (m := Z.to_nat (blocks_per_indirection self)) in *. clearbody m. rewrite Eb, E3 in *.
  destruct (flat1_last _ m Hm C1 Hne) as (s & b & Es & Ebl & Hs & Hsm & Hf). cbn [last mbind option_bind]. rewrite Es. cbn [mbind option_bind]. rewrite Ebl. cbn [mbind option_bind fst snd].
  assert (pred (length (doubly_indirected_blocks self).2) < m)%nat by (unfold zlen in Hlen; destruct (doubly_indirected_blocks self).2; cbn in *; [done|lia]).
  rewrite !last_index_ok by (done || unfold zlen in *; nia). set (y := pred (length (doubly_indirected_blocks self).2)) in *. set (z := pred (length s.2)).
  assert (S z = length s.2) by (unfold z; destruct s.2; [done|cbn; lia]).
  rewrite mul_u_ok by nia. run. rewrite add_u_ok by nia. run. eexists. split; [done|]. unfold last_is, level_base, blocks_of. rewrite Eb, !zlen_app, E3.
  assert (flat1 (doubly_indirected_blocks self).2 ≠ []) as Hf1 by (intros E; rewrite E in Hf; cbn in Hf; lia).
  rewrite T1, T2; [|intros E; apply app_nil in E as [E _]; done|intros E; apply app_nil in E as [_ E]; apply app_nil in E as [E _]; done].
  unfold zlen. rewrite Hf. cbn [flat2 mbind list_bind length]. split; nia.
Qed.

Lemma last_ok self : Tight self → ∃ r, last_data_block_allocated self = Ret r ∧ last_is self r.
Proof.
  intros Ht. destruct (decide ((triply_indirected_blocks self).2 = [])) as [E3|E3]; [|by apply last_triple].
  destruct (decide ((doubly_indirected_blocks self).2 = [])) as [E2|E2]; [|by apply last_double].
  pose proof (ti_bound _ Ht) as Hb. pose proof (ti_positive _ Ht) as Hpos. pose proof (ti_direct _ Ht) as Hd. pose proof (ti_simple _ Ht) as Hs.
  pose proof (ti_then_simple _ Ht) as T1. unfold last_data_block_allocated, last_is, blocks_of. rewrite E2, E3 in *. cbn [last mbind option_bind flat1 flat2 list_bind app] in *.
  rewrite app_nil_r in *. assert (zlen (singly_indirected_blocks self).2 < 2 ^ 32 ∧ zlen (direct_blocks self) < 2 ^ 32) as [Hs2 Hd2] by nia.
  destruct (decide ((singly_indirected_blocks self).2 = [])) as [E1|E1].
  - rewrite E1. cbn [last]. rewrite app_nil_r. destruct (decide (direct_blocks self = [])) as [E0|E0]; [rewrite E0; by eexists|].
    destruct (last_Some_ne _ E0) as [b Ebl]. rewrite Ebl. cbn. eexists. split; [done|]. cbn. rewrite last_index_ok by done.
    destruct (direct_blocks self); [done|]. rewrite zlen_cons. unfold zlen. cbn. lia.
  - destruct (last_Some_ne _ E1) as [b Ebl]. rewrite Ebl. eexists. split; [done|]. cbn [level_base]. rewrite last_index_ok by done.
    rewrite zlen_app, T1 by done. destruct (singly_indirected_blocks self).2; [done|]. rewrite zlen_cons. unfold zlen. cbn. lia.
Qed.

Lemma blocks_of_length self : Tight self → zlen (blocks_of self) < 2 ^ 32.
Proof.
  intros Ht. destruct (tight_nat self Ht) as (Hm & Eb & Hb). destruct (flat2_length self Ht) as [Hl2 Hl1]. cbv zeta in *.
  pose proof (ti_direct _ Ht). pose proof (ti_simple _ Ht). unfold blocks_of. rewrite !zlen_app. unfold zlen in *. lia.
Qed.

Lemma data_block_count_ok self : Tight self → data_block_count self = Ret (zlen (blocks_of self)).
Proof.
  intros Ht. destruct (last_ok self Ht) as (r & E & Hr). pose proof (blocks_of_length self Ht). pose proof (ti_bound _ Ht) as Hb. pose proof (ti_positive _ Ht) as Hpos.
  unfold data_block_count. rewrite E. run. destruct r as [[b [ind index]]|]; cbn in Hr; [|by rewrite Hr]. destruct Hr as [Hi Hr].
  unfold level_base in Hr. assert (0 ≤ blocks_per_indirection self * blocks_per_indirection self) by nia.
  assert (0 ≤ blocks_per_indirection self * blocks_per_indirection self * blocks_per_indirection self) by nia. unfold DIRECT_BLOCK_POINTER_COUNT.
  destruct ind; rewrite add_u_ok by lia; run; rewrite ?add_u_ok by lia; run; rewrite ?mul_u_ok by lia; run; rewrite ?add_u_ok by lia; run;
    rewrite ?add_u_ok by lia; f_equal; lia.
Qed.
(** ** The list of data blocks *)

Lemma enumerate_map_ok {A B} (f : Z → A → out B) (g : nat → A → B) l : (∀ i x, l !! i = Some x → f (Z.of_nat i) x = Ret (g i x)) →
  enumerate_map f l = Ret (imap g l).
Proof.
  intros Hf. unfold enumerate_map. set (step := λ acc p, b ← f p.1 p.2; Ret (acc ++ [b])).
  assert (∀ l1 l2 acc, l = l1 ++ l2 → acc = imap g l1 → foldM step acc (zip (range (zlen l1) (zlen l)) l2) = Ret (imap g l)) as H.
  { intros l1 l2. revert l1. induction l2 as [|x l2 IH]; intros l1 acc El ->.
    - rewrite app_nil_r in El. subst. rewrite zip_with_nil_r. done.
    - rewrite range_cons by (rewrite El, zlen_app, zlen_cons; pose proof (zlen_nonneg l2); lia). cbn [zip_with foldM].
      assert (step (imap g l1) (zlen l1, x) = Ret (imap g l1 ++ [g (length l1) x])) as ->.
      { unfold step, zlen. cbn [fst snd]. rewrite (Hf _ x); [done|]. rewrite El. by apply list_lookup_middle. }
      run.
      replace (zlen l1 + 1) with (zlen (l1 ++ [x])) by (by rewrite zlen_app). apply IH; [by rewrite <- app_assoc|]. rewrite imap_app. cbn. by rewrite Nat.add_0_r. }
  apply (H [] l []); done.
Qed.

Lemma imap_fst {A C} (g : nat → A → A * C) l : (∀ i x, (g i x).1 = x) → (imap g l).*1 = l.
Proof. intros Hg. apply list_eq. intros i. rewrite list_lookup_fmap, list_lookup_imap. destruct (l !! i) as [x|]; cbn; [by rewrite Hg|done]. Qed.

Lemma concat_imap_fst {A C} (h : A → list Z) (g : nat → A → list (Z * C)) l : (∀ i x, (g i x).*1 = h x) → (concat (imap g l)).*1 = l ≫= h.
Proof.
  intros Hg. revert g Hg. induction l as [|x l IH]; intros g Hg; [done|]. cbn [imap concat]. rewrite fmap_app, Hg, bind_cons. f_equal.
  apply (IH (g ∘ S)). intros. apply Hg.
Qed.
Lemma flatten_data_blocks_ok self : Tight self → flatten_data_blocks self = Ret (blocks_of self).
Proof.
  intros Ht. destruct (tight_nat self Ht) as (Hm & Eb & Hb). destruct (flat2_length self Ht) as [Hl2 Hl1]. cbv zeta in *.
  pose proof (ti_double_len _ Ht) as Hd. pose proof (ti_triple_len _ Ht) as Htl. pose proof (ti_double _ Ht) as C1. pose proof (ti_triple _ Ht) as C2. pose proof (ti_triple_in _ Ht) as C3.
  unfold flatten_data_blocks, flatten_data_blocks_with_indirection. set (m := Z.to_nat (blocks_per_indirection self)) in *. clearbody m. rewrite Eb in *. unfold zlen in *.
  cbv zeta. rewrite (enumerate_map_ok _ (λ i b, (b, (Direct, wrap 32 (Z.of_nat i)))) (direct_blocks self)) by (intros; done). run.
  rewrite (enumerate_map_ok _ (λ i b, (b, (Simple, wrap 32 (Z.of_nat i)))) (singly_indirected_blocks self).2) by (intros; done). run.
  rewrite (enumerate_map_ok _ (λ i (s : SimpleIndirection), imap (λ j b, (b, (Double, Z.of_nat i * Z.of_nat m + Z.of_nat j))) s.2) (doubly_indirected_blocks self).2).
  2: { intros i s Hs. apply enumerate_map_ok. intros j b Hj. pose proof (lookup_lt_Some _ _ _ Hs). pose proof (lookup_lt_Some _ _ _ Hj).
    pose proof (chunked_in snd m Hm _ _ _ C1 Hs). rewrite !wrap_small by nia. rewrite mul_u_ok by nia. run. by rewrite add_u_ok by nia. }
  run. rewrite (enumerate_map_ok _ (λ k (d : DoubleIndirection), concat (imap (λ i (s : SimpleIndirection), imap (λ j b,
    (b, (Triple, Z.of_nat k * Z.of_nat m * Z.of_nat m + Z.of_nat i * Z.of_nat m + Z.of_nat j))) s.2) d.2)) (triply_indirected_blocks self).2).
  2: { intros k d Hk. pose proof (lookup_lt_Some _ _ _ Hk). pose proof (Forall_lookup_1 _ _ _ _ C3 Hk) as Cd. cbn beta in Cd.
    pose proof (chunked_in _ (m * m) ltac:(nia) _ _ _ C2 Hk) as Hdl. cbn beta in Hdl.
    rewrite (enumerate_map_ok _ (λ i (s : SimpleIndirection), imap (λ j b, (b, (Triple, Z.of_nat k * Z.of_nat m * Z.of_nat m + Z.of_nat i * Z.of_nat m + Z.of_nat j))) s.2)); [done|].
    intros i s Hs. apply enumerate_map_ok. intros j b Hj. pose proof (lookup_lt_Some _ _ _ Hs). pose proof (lookup_lt_Some _ _ _ Hj).
    pose proof (chunked_in snd m Hm _ _ _ Cd Hs). pose proof (chunked_count _ m Hm Cd ltac:(lia)).
    assert (Z.of_nat k * Z.of_nat m * Z.of_nat m + Z.of_nat i * Z.of_nat m + Z.of_nat j < 2 ^ 32 ∧ 0 ≤ Z.of_nat k * Z.of_nat m ∧ 0 ≤ Z.of_nat i * Z.of_nat m) as (? & ? & ?) by nia.
    rewrite !wrap_small by nia. rewrite mul_u_ok by nia. run. rewrite mul_u_ok by nia. run. rewrite mul_u_ok by nia. run. rewrite add_u_ok by nia. run. by rewrite add_u_ok by nia. }
  run. do 1 f_equal. rewrite !fmap_app, !imap_fst by done. unfold blocks_of. do 3 f_equal; [|f_equal].
  - apply concat_imap_fst. intros. by apply imap_fst.
  - apply concat_imap_fst. intros. apply concat_imap_fst. intros. by apply imap_fst.
Qed.
End TightProofs.

(** ** Files within the double indirection

    [nec n] indirection blocks go with [n] data blocks. *)

(** A simple indirection and what it holds, in order. *)
Definition walk1 (s : SimpleIndirection) : list Z := s.1 :: s.2.

Lemma length_walk (l : list SimpleIndirection) : length (l ≫= walk1) = (length l + length (flat1 l))%nat.
Proof. induction l as [|s l IH]; [done|]. unfold flat1. rewrite !bind_cons, !length_app. fold (flat1 l). rewrite IH. cbn. lia. Qed.

Section Small.
Context (m : nat) (Hm : (0 < m)%nat).
Implicit Types (t bs : list Z) (l : list SimpleIndirection).

Definition nec (n : nat) : nat :=
  if decide (n ≤ 12)%nat then 0 else if decide (n - 12 ≤ m)%nat then 1 else 3 + (n - 12 - m - 1) / m.

Lemma chunks_walk t : chunks m t ≫= walk1 = t.
Proof. induction t as [|b t IH] using (chunks_induction m); [done|]. rewrite chunks_step, bind_cons, IH. cbn. f_equal. apply take_drop. Qed.

Lemma chunks_of_chunked l : chunked snd m l → chunks m (l ≫= walk1) = l.
Proof.
  induction l as [|[p data] l IH]; intros Hc; [done|]. apply chunked_cons in Hc as (Hx & Hfull & Hc); [|done]. rewrite bind_cons. cbn [walk1 fst snd app].
  rewrite chunks_step. destruct l as [|x l].
  - cbn. rewrite app_nil_r, take_ge, drop_ge by (cbn in Hx; lia). done.
  - cbn in Hfull. specialize (Hfull ltac:(done)). rewrite take_app_length', drop_app_length' by done. by rewrite IH.
Qed.

Lemma div_pred n : (m < n)%nat → ((n - 1) / m = S ((n - m - 1) / m))%nat.
Proof. intros H. replace (n - 1)%nat with ((n - m - 1) + 1 * m)%nat by lia. rewrite Nat.div_add by lia. lia. Qed.

Lemma chunked_number l : chunked snd m l → l ≠ [] → length l = S ((length (flat1 l) - 1) / m).
Proof.
  intros Hc Hl. destruct (flat1_last l m Hm Hc Hl) as (s & b & _ & _ & Hs & Hsm & Hf). assert (0 < length s.2)%nat by (destruct s.2; [done|cbn; lia]).
  rewrite Hf. assert (length l = S (pred (length l))) as El by (destruct l; [done|cbn; lia]). remember (pred (length l)) as x eqn:Ex. clear Ex.
  replace (x * m + length s.2 - 1)%nat with ((length s.2 - 1) + x * m)%nat by lia. rewrite Nat.div_add, Nat.div_small by lia. lia.
Qed.

Lemma chunks_exact t n : (0 < n)%nat → length t = (n + 1 + (n - 1) / m)%nat → chunked snd m (chunks m t) ∧ length (flat1 (chunks m t)) = n.
Proof.
  revert n. induction t as [|b t IH] using (chunks_induction m); intros n Hn Hl; [cbn in Hl; lia|]. rewrite chunks_step. cbn [length] in Hl.
  unfold flat1. rewrite bind_cons, length_app. fold (flat1 (chunks m (drop m t))). cbn [snd]. rewrite length_take.
  destruct (decide (n ≤ m)%nat) as [Hle|Hgt].
  - rewrite Nat.div_small in Hl by lia. rewrite drop_ge by lia. cbn. rewrite length_take. split; [split; [lia|done]|lia].
  - rewrite div_pred in Hl by lia. destruct (IH (n - m)%nat) as [H1 H2]; [lia|rewrite length_drop; lia|]. split; [|lia]. cbn [chunked]. split; [|done].
    destruct (chunks m (drop m t)) eqn:E; [cbn in H2; lia|]. cbn. rewrite length_take. lia.
Qed.

(** The data behind a longer list begins with the data behind a shorter one. *)
Lemma chunks_prefix t bs : flat1 (chunks m t) `prefix_of` flat1 (chunks m (t ++ bs)).
Proof.
  induction t as [|b t IH] using (chunks_induction m); [apply prefix_nil|]. cbn [app]. rewrite !chunks_step. unfold flat1. rewrite !bind_cons. cbn [snd].
  fold (flat1 (chunks m (drop m t))). fold (flat1 (chunks m (drop m (t ++ bs)))). destruct (decide (length t ≤ m)%nat) as [Hle|Hgt].
  - rewrite (drop_ge t) by done. cbn. rewrite app_nil_r, take_ge, take_app_ge by lia. rewrite <- app_assoc. by apply prefix_app_r.
  - rewrite take_app_le, drop_app_le by lia. by apply prefix_app.
Qed.

End Small.

(** All blocks of a file in the order in which they were given to it. *)
Definition behind (p : Z) (l : list Z) : list Z := if bool_decide (l = []) then [] else p :: l.
Definition traverse (self : IndirectedBlocks) : list Z :=
  direct_blocks self ++ behind (singly_indirected_blocks self).1 (singly_indirected_blocks self).2 ++
  behind (doubly_indirected_blocks self).1 ((doubly_indirected_blocks self).2 ≫= walk1).

(** A well-formed file without triple indirection, and without indirection blocks that hold
    nothing. *)
Record Small (self : IndirectedBlocks) : Prop := {
  sm_tight : Tight self;
  sm_triple : triply_indirected_blocks self = (0, []);
  sm_simple : (singly_indirected_blocks self).2 = [] → (singly_indirected_blocks self).1 = 0;
  sm_double : (doubly_indirected_blocks self).2 = [] → (doubly_indirected_blocks self).1 = 0;
  sm_nonzero : Forall (λ b, b ≠ 0) (traverse self);
}.

Section SmallProofs.
Implicit Types self : IndirectedBlocks.

(** The three shapes of a small file. *)
Inductive shape self : Prop :=
  | shape_direct : (singly_indirected_blocks self) = (0, []) → (doubly_indirected_blocks self) = (0, []) → shape self
  | shape_simple : (singly_indirected_blocks self).2 ≠ [] → (doubly_indirected_blocks self) = (0, []) → zlen (direct_blocks self) = 12 → shape self
  | shape_double : (singly_indirected_blocks self).2 ≠ [] → (doubly_indirected_blocks self).2 ≠ [] → zlen (direct_blocks self) = 12 →
      zlen (singly_indirected_blocks self).2 = blocks_per_indirection self → shape self.

Lemma small_shape self : Small self → shape self.
Proof.
  intros [Ht E3 H1 H2 _]. pose proof (ti_then_simple _ Ht) as T1. pose proof (ti_then_double _ Ht) as T2. pose proof (ti_positive _ Ht) as Hp. destruct (tight_nat self Ht) as (Hm & _).
  pose proof (chunked_nil snd _ Hm _ (ti_double _ Ht)) as Hn. fold (flat1 (doubly_indirected_blocks self).2) in Hn. rewrite E3 in T1, T2. cbn [flat2 mbind list_bind snd] in T1, T2. rewrite app_nil_r in T1, T2.
  destruct (decide ((doubly_indirected_blocks self).2 = [])) as [E2|E2].
  - destruct (decide ((singly_indirected_blocks self).2 = [])) as [E1|E1].
    + apply shape_direct; [destruct (singly_indirected_blocks self)|destruct (doubly_indirected_blocks self)]; cbn in *; subst; by rewrite ?H1, ?H2.
    + apply shape_simple; [done|destruct (doubly_indirected_blocks self); cbn in *; subst; by rewrite H2|]. apply T1. intros E. by apply app_nil in E as [E _].
  - assert (flat1 (doubly_indirected_blocks self).2 ≠ []) as Hf by (intros E; by apply E2, Hn). apply shape_double; [|done| |by apply T2].
    + intros E. specialize (T2 Hf). rewrite E in T2. change (zlen []) with 0 in T2. lia.
    + apply T1. intros E. by apply app_nil in E as [_ E].
Qed.

Lemma small_layout self : Small self → self = layout (blocks_per_indirection self) (traverse self).
Proof.
  intros Hs. pose proof (sm_tight _ Hs) as Ht. destruct (tight_nat self Ht) as (Hm & Eb & _). pose proof (ti_direct _ Ht) as Hd. pose proof (ti_simple _ Ht) as Hsl.
  unfold layout, traverse. destruct (small_shape self Hs) as [E1 E2|E1 E2 Ed|E1 E2 Ed Es]; destruct self as [bpi direct [p1 simple] [p2 double] triple];
    pose proof (sm_triple _ Hs) as E3; cbn in *; subst triple; unfold behind, zlen in *.
  - injection E1 as -> ->. injection E2 as -> ->. cbn. rewrite !app_nil_r, take_ge, drop_ge by lia. cbn. by rewrite take_nil, drop_nil.
  - injection E2 as -> ->. rewrite bool_decide_eq_false_2 by done. cbn. rewrite app_nil_r. rewrite take_app_length', drop_app_length' by lia. cbn.
    rewrite take_ge, drop_ge by lia. done.
  - assert (double ≫= walk1 ≠ []) as Hw. { intros E. apply (f_equal length) in E. rewrite length_walk in E. destruct double; [done|cbn in E; lia]. }
    rewrite !bool_decide_eq_false_2 by done. rewrite take_app_length', drop_app_length' by lia. cbn.
    rewrite take_app_length', drop_app_length' by lia. cbn. rewrite (chunks_of_chunked _ Hm); [done|]. apply (ti_double _ Ht).
Qed.
Lemma split_length {A} (l : list A) k : (k ≤ length l)%nat → ∃ l1 l2, l = l1 ++ l2 ∧ length l1 = k.
Proof. intros H. exists (take k l), (drop k l). rewrite take_drop, length_take. split; [done|lia]. Qed.

Lemma layout_direct bpi d : (length d ≤ 12)%nat → layout bpi d = mkBlocks bpi d (0, []) (0, []) (0, []).
Proof. intros H. unfold layout. rewrite take_ge, drop_ge by lia. cbn. by rewrite take_nil, drop_nil. Qed.

Lemma layout_simple bpi d p s : length d = 12%nat → (length s ≤ Z.to_nat bpi)%nat →
  layout bpi (d ++ p :: s) = mkBlocks bpi d (p, s) (0, []) (0, []).
Proof. intros H1 H2. unfold layout. rewrite take_app_length', drop_app_length' by lia. cbn. rewrite take_ge, drop_ge by lia. done. Qed.

Lemma layout_double bpi d p s q r : length d = 12%nat → length s = Z.to_nat bpi →
  layout bpi (d ++ p :: s ++ q :: r) = mkBlocks bpi d (p, s) (q, chunks (Z.to_nat bpi) r) (0, []).
Proof. intros H1 H2. unfold layout. rewrite take_app_length', drop_app_length' by lia. cbn. by rewrite take_app_length', drop_app_length' by lia. Qed.

Context (bpi : Z) (Hpos : 0 < bpi) (Hbound : 12 + bpi + bpi * bpi + bpi * bpi * bpi < 2 ^ 32).
Local Abbreviation m := (Z.to_nat bpi).

Lemma Tight_levels d p s q l : (length d ≤ 12)%nat → (length s ≤ m)%nat → (s ≠ [] → length d = 12%nat) → chunked snd m l → (length l ≤ m)%nat →
  (l ≠ [] → length d = 12%nat ∧ length s = m) → Tight (mkBlocks bpi d (p, s) (q, l) (0, [])).
Proof.
  intros H1 H2 H3 H4 H5 H6. assert (flat1 l ≠ [] → l ≠ []) as Hf by (intros E ->; done).
  split; cbn [blocks_per_indirection direct_blocks singly_indirected_blocks doubly_indirected_blocks triply_indirected_blocks snd flat2 mbind list_bind]; unfold zlen; rewrite ?app_nil_r;
    try done; try lia; [cbn; lia|..].
  - intros Hne. destruct s as [|x s]; [destruct (H6 (Hf Hne)); lia|rewrite H3 by done; lia].
  - intros Hne. destruct (H6 (Hf Hne)). lia.
Qed.

(** A list of as many blocks as [n] data blocks need is a small file with [n] data blocks. *)
Lemma layout_small t n : (n ≤ 12 + m + m * m)%nat → length t = (n + nec m n)%nat → Forall (λ b, b ≠ 0) t →
  Small (layout bpi t) ∧ length (blocks_of (layout bpi t)) = n ∧ traverse (layout bpi t) = t.
Proof.
  intros Hn Hlen Hz. assert (0 < m)%nat as Hm by lia. unfold nec in Hlen. case_decide as H12; [|case_decide as H1].
  - rewrite layout_direct by lia. unfold traverse, blocks_of. cbn. rewrite !app_nil_r. split_and!; [|lia|done].
    split; cbn; try done; [apply Tight_levels; cbn; try done; lia|]. by rewrite !app_nil_r.
  - destruct (split_length t 12) as (d & [|p s] & -> & Hd); [lia|rewrite length_app in Hlen; cbn in Hlen; lia|]. rewrite length_app in Hlen. cbn in Hlen.
    rewrite layout_simple by lia. assert (s ≠ []) as Hs by (intros ->; cbn in Hlen; lia).
    assert (traverse (mkBlocks bpi d (p, s) (0, []) (0, [])) = d ++ p :: s) as Ht.
    { unfold traverse, behind. cbn. rewrite bool_decide_eq_false_2 by done. by rewrite app_nil_r. }
    split_and!; [|unfold blocks_of; cbn; rewrite !app_nil_r, length_app; lia|done]. split; [apply Tight_levels; cbn [length]; try done; lia|done|by intros ?%Hs|done|by rewrite Ht].
  - destruct (split_length t 12) as (d & [|p u] & -> & Hd); [lia|rewrite length_app in Hlen; cbn in Hlen; lia|]. rewrite length_app in Hlen. cbn in Hlen.
    destruct (split_length u m) as (s & [|q r] & -> & Hs); [lia|rewrite length_app in Hlen; cbn in Hlen; lia|]. rewrite length_app in Hlen. cbn in Hlen.
    destruct (chunks_exact m Hm r (n - 12 - m)) as [Hc Hl]; [lia|lia|]. rewrite layout_double by done.
    assert (r ≠ []) as Hr by (intros ->; cbn in Hlen; lia). assert (s ≠ []) as Hsn by (intros ->; cbn in Hs; lia).
    assert (traverse (mkBlocks bpi d (p, s) (q, chunks m r) (0, [])) = d ++ p :: s ++ q :: r) as Ht.
    { unfold traverse, behind. cbn. rewrite chunks_walk, !bool_decide_eq_false_2 by done. done. }
    split_and!; [|unfold blocks_of; cbn; rewrite app_nil_r, !length_app; fold (flat1 (chunks m r)); lia|done]. split; [apply Tight_levels; try done; try lia|done|by intros ?%Hsn| |by rewrite Ht].
    + apply (chunked_count _ m Hm Hc). lia.
    + intros E. by apply chunks_empty in E.
Qed.
Lemma small_length self : Small self → blocks_per_indirection self = bpi →
  length (traverse self) = (length (blocks_of self) + nec m (length (blocks_of self)))%nat ∧ (length (blocks_of self) ≤ 12 + m + m * m)%nat.
Proof.
  intros Hs Eb. pose proof (sm_tight _ Hs) as Ht. destruct (flat2_length self Ht) as [_ Hf]. pose proof (ti_direct _ Ht) as Hd. pose proof (ti_simple _ Ht) as Hsl.
  pose proof (ti_double _ Ht) as Hc. assert (0 < m)%nat as Hm by lia. cbv zeta in Hf. rewrite Eb in *. unfold nec, traverse, blocks_of.
  rewrite (sm_triple _ Hs). change (flat2 (0, []).2) with ([] : list Z). rewrite app_nil_r, !length_app. unfold zlen in *.
  destruct (small_shape self Hs) as [E1 E2|E1 E2 E3|E1 E2 E3 E4]; unfold behind; rewrite ?E1, ?E2.
  - cbn. case_decide; lia.
  - rewrite bool_decide_eq_false_2 by done. cbn. assert (0 < length (singly_indirected_blocks self).2)%nat by (destruct (singly_indirected_blocks self).2; [done|cbn; lia]).
    unfold zlen in *. case_decide; [lia|]. case_decide; lia.
  - pose proof (chunked_number m Hm _ Hc E2) as Hn. pose proof (length_walk (doubly_indirected_blocks self).2) as Hw. unfold zlen in *.
    assert (0 < length (flat1 (doubly_indirected_blocks self).2))%nat.
    { destruct (flat1 (doubly_indirected_blocks self).2) eqn:E; [|cbn; lia]. exfalso. by apply E2, (chunked_nil snd m Hm _ Hc). }
    rewrite !bool_decide_eq_false_2; [|intros E; rewrite E in Hw; cbn in Hw; lia|done]. cbn [length]. rewrite Hw, Hn.
    case_decide; [lia|]. case_decide; [lia|].
    replace (length (direct_blocks self) + (length (singly_indirected_blocks self).2 + length (flat1 (doubly_indirected_blocks self).2)) - 12 - m - 1)%nat
      with (length (flat1 (doubly_indirected_blocks self).2) - 1)%nat by lia. lia.
Qed.
(** Cutting a double indirection behind its [k]th data block. *)
Definition cut (k : nat) (l : list SimpleIndirection) : list SimpleIndirection :=
  take (S ((k - 1) / m)) (alter (λ s : SimpleIndirection, (s.1, take (k mod m) s.2)) (k / m)%nat l).

Lemma div_step k : (m ≤ k)%nat → (0 < m)%nat → (k / m = S ((k - m) / m) ∧ k mod m = (k - m) mod m)%nat.
Proof. intros H Hm. replace k with ((k - m) + 1 * m)%nat at 1 3 by lia. rewrite Nat.div_add, Nat.Div0.mod_add by lia. split; [lia|done]. Qed.

Lemma cut_ok l k : chunked snd m l → (0 < k ≤ length (flat1 l))%nat →
  (∀ s, l !! (k / m)%nat = Some s → k mod m ≤ length s.2)%nat ∧ ((k - 1) / m < length l)%nat ∧ chunked snd m (cut k l) ∧ flat1 (cut k l) = take k (flat1 l) ∧
  cut k l ≫= walk1 = take (k + 1 + (k - 1) / m) (l ≫= walk1).
Proof.
  assert (0 < m)%nat as Hm by lia. revert k. induction l as [|x l IH]; intros k Hc Hk; [cbn in Hk; lia|]. pose proof Hc as Hc0. apply chunked_cons in Hc as (Hx & Hfull & Hc); [|done].
  unfold flat1 in *. rewrite !bind_cons in *. rewrite length_app in Hk. fold (flat1 l) in *. destruct (decide (k < m)%nat) as [H1|H1]; [|destruct (decide (k = m)) as [H2|H2]].
  - assert (k ≤ length x.2)%nat as Hx2 by (destruct l; [cbn in Hk; lia|rewrite Hfull by done; lia]).
    assert (cut k (x :: l) = [(x.1, take k x.2)]) as -> by (unfold cut; rewrite !Nat.div_small, Nat.mod_small by lia; cbn; by rewrite take_0).
    rewrite !Nat.div_small, Nat.mod_small by lia. cbn. rewrite length_take. split_and!; try lia; try done; [intros s [= <-]; lia|rewrite app_nil_r, take_app_le by lia; done|].
    rewrite app_nil_r. replace (k + 1 + 0)%nat with (S k) by lia. cbn. by rewrite take_app_le by lia.
  - subst k. assert (length x.2 = m) as Hx2 by (destruct l; [cbn in Hk; lia|by apply Hfull]).
    assert (cut m (x :: l) = [x]) as -> by (unfold cut; rewrite Nat.div_same by lia; rewrite Nat.div_small by lia; cbn; by rewrite take_0).
    rewrite (Nat.div_small (m - 1)), Nat.Div0.mod_same by lia. cbn. split_and!; try lia; try done; [rewrite app_nil_r, take_app_length' by lia; done|].
    rewrite app_nil_r. replace (m + 1 + 0)%nat with (S m) by lia. cbn. rewrite take_app_length' by lia. by destruct x.
  - assert (l ≠ []) as Hl by (intros ->; cbn in Hk; lia). specialize (Hfull Hl). destruct (div_step k) as [Eq Er]; [lia|done|].
    destruct (div_step (k - 1)) as [Eq1 _]; [lia|done|]. replace (k - 1 - m)%nat with (k - m - 1)%nat in Eq1 by lia.
    destruct (IH (k - m)%nat Hc) as (I1 & I2 & I3 & I4 & I5); [lia|].
    assert (cut k (x :: l) = x :: cut (k - m) l) as -> by (unfold cut; by rewrite Eq, Eq1, Er).
    rewrite Eq, Eq1, Er, !bind_cons. rewrite I4, I5. split_and!; [done|cbn; lia| | |].
    + cbn [chunked]. split; [|done]. by destruct (cut (k - m) l) eqn:E; [lia|].
    + rewrite take_app_ge by lia. by rewrite Hfull.
    + replace (k + 1 + S ((k - m - 1) / m))%nat with (S (m + (k - m + 1 + (k - m - 1) / m)))%nat by lia. cbn. rewrite take_app_ge by lia. do 3 f_equal. lia.
Qed.
End SmallProofs.

Section Operations.
Context {P : Profile}.
Implicit Types self : IndirectedBlocks.

Lemma necessary_ok m n : (0 < m)%nat → 12 + Z.of_nat m + Z.of_nat m * Z.of_nat m + Z.of_nat m * Z.of_nat m * Z.of_nat m < 2 ^ 32 → (n ≤ 12 + m + m * m)%nat →
  necessary_indirection_block_count (Z.of_nat n) (Z.of_nat m) = Ret (Z.of_nat (nec m n)).
Proof.
  intros Hm Hb Hn. unfold necessary_indirection_block_count, nec, DIRECT_BLOCK_POINTER_COUNT.
  destruct (Z.leb_spec (Z.of_nat n) 12); case_decide; try lia; [done|]. rewrite sub_u_ok by nia. run.
  destruct (Z.leb_spec (Z.of_nat n - 12) (Z.of_nat m)); case_decide; try lia; [done|]. rewrite sub_u_ok by nia. run. rewrite mul_u_ok by nia. run.
  rewrite (proj2 (Z.leb_le _ _)) by nia. rewrite sub_u_ok by nia. run. unfold div_u. rewrite (proj2 (Z.eqb_neq _ 0)) by lia. run.
  replace (Z.of_nat n - 12 - Z.of_nat m - 1) with (Z.of_nat (n - 12 - m - 1)) by lia. rewrite <- Nat2Z.inj_div.
  assert ((n - 12 - m - 1) / m ≤ m * m)%nat by (apply Nat.Div0.div_le_upper_bound; nia). rewrite add_u_ok by nia. f_equal. lia.
Qed.

Lemma nec_capacity m n : (0 < m)%nat → (n ≤ 12 + m + m * m)%nat → (n + nec m n ≤ capacity m)%nat.
Proof.
  intros Hm Hn. unfold nec, capacity. case_decide; [lia|]. case_decide; [lia|].
  assert ((n - 12 - m - 1) / m < m)%nat by (apply Nat.Div0.div_lt_upper_bound; lia). lia.
Qed.

Lemma nec_mono m n n' : (0 < m)%nat → (n ≤ n')%nat → (nec m n ≤ nec m n')%nat.
Proof.
  intros Hm Hn. unfold nec. repeat case_decide; try lia. assert ((n - 12 - m - 1) / m ≤ (n' - 12 - m - 1) / m)%nat; [|lia]. apply Nat.Div0.div_le_mono. lia.
Qed.

Lemma prefix_level a (u v l l' : list Z) : ((a < length u)%nat → l `prefix_of` l') → ((length u ≤ a)%nat → l = []) →
  take a u ++ l `prefix_of` take a (u ++ v) ++ l'.
Proof.
  intros H1 H2. destruct (decide (a < length u)%nat) as [H|H].
  - rewrite take_app_le by lia. by apply prefix_app, H1.
  - rewrite H2, app_nil_r, take_ge, take_app_ge by lia. rewrite <- app_assoc. by apply prefix_app_r.
Qed.

Lemma layout_prefix bpi t bs : 0 < bpi → blocks_of (layout bpi t) `prefix_of` blocks_of (layout bpi (t ++ bs)).
Proof.
  intros Hpos. unfold layout, blocks_of. cbn [direct_blocks singly_indirected_blocks doubly_indirected_blocks triply_indirected_blocks snd].
  change (flat2 []) with ([] : list Z). rewrite !app_nil_r. apply prefix_level; intros Hl.
  - rewrite (drop_app_le t) by lia. destruct (drop 12 t) as [|p u] eqn:E; [apply (f_equal length) in E; rewrite length_drop in E; cbn in E; lia|]. cbn [tail app].
    apply prefix_level; intros Hu.
    + rewrite (drop_app_le u) by lia. destruct (drop (Z.to_nat bpi) u) as [|q r] eqn:E'; [apply (f_equal length) in E'; rewrite length_drop in E'; cbn in E'; lia|].
      cbn [tail app]. apply chunks_prefix. lia.
    + rewrite drop_ge by lia. done.
  - rewrite drop_ge by lia. cbn. by rewrite take_nil, drop_nil.
Qed.

Lemma append_ok self bs k a b : Small self → 0 ≤ k → zlen (blocks_of self) + k ≤ 12 + blocks_per_indirection self + blocks_per_indirection self * blocks_per_indirection self →
  Forall (λ x, x ≠ 0) bs → indirection_block_count self = Ret a →
  necessary_indirection_block_count (zlen (blocks_of self) + k) (blocks_per_indirection self) = Ret b → zlen bs = k + (b - a) →
  Small (append_blocks self bs) ∧ traverse (append_blocks self bs) = traverse self ++ bs ∧ blocks_of self `prefix_of` blocks_of (append_blocks self bs) ∧
  zlen (blocks_of (append_blocks self bs)) = zlen (blocks_of self) + k.
Proof.
  intros Hs Hk Hfit Hz Ha Hb Hlen. pose proof (sm_tight _ Hs) as Ht. pose proof (ti_positive _ Ht) as Hpos. pose proof (ti_bound _ Ht) as Hbound.
  set (bpi := blocks_per_indirection self) in *. assert (bpi = Z.of_nat (Z.to_nat bpi)) as Eb by lia. set (m := Z.to_nat bpi) in *.
  destruct (small_length bpi Hpos self Hs eq_refl) as [Hl Hn]. fold m in Hl, Hn. set (n := length (blocks_of self)) in *.
  unfold indirection_block_count in Ha. rewrite data_block_count_ok in Ha by done. cbn [mbind out_mbind] in Ha. fold bpi in Ha. rewrite Eb in Ha, Hb, Hfit, Hbound.
  change (zlen (blocks_of self)) with (Z.of_nat n) in *. rewrite necessary_ok in Ha by (lia || nia).
  replace (Z.of_nat n + k) with (Z.of_nat (n + Z.to_nat k)) in Hb by lia. rewrite necessary_ok in Hb by (lia || nia). injection Ha as <-. injection Hb as <-.
  assert (length (traverse self ++ bs) = (n + Z.to_nat k) + nec m (n + Z.to_nat k))%nat as Hl' by (rewrite length_app; unfold zlen in Hlen; lia).
  assert (append_blocks self bs = layout bpi (traverse self ++ bs)) as ->.
  { rewrite (small_layout self Hs) at 1. fold bpi. apply append_layout; [apply Hs|]. fold m. rewrite Hl'. apply nec_capacity; lia. }
  destruct (layout_small bpi Hpos) with (t := traverse self ++ bs) (n := (n + Z.to_nat k)%nat) as (H1 & H2 & H3); [by rewrite Eb|fold m; lia|done|apply Forall_app; split; [apply Hs|done]|].
  split_and!; [done|done| |unfold zlen; rewrite H2; lia]. rewrite (small_layout self Hs) at 1. fold bpi. by apply layout_prefix.
Qed.
(** ** Truncating *)

Lemma drain_from_ok {A} (l : list A) i : i ≤ zlen l → drain_from l i = Ret (take (Z.to_nat i) l).
Proof. intros H. unfold drain_from. by rewrite (proj2 (Z.leb_le _ _)). Qed.

Lemma get_mut_alter {A} (f : A → out A) (g : A → A) i l : (∀ x, l !! i = Some x → f x = Ret (g x)) → get_mut f (Z.of_nat i) l = Ret (alter g i l).
Proof.
  intros Hf. unfold get_mut, get. rewrite Nat2Z.id. destruct (l !! i) as [x|] eqn:E.
  - rewrite Hf by done. run. f_equal. apply list_eq. intros j. pose proof (lookup_lt_Some _ _ _ E). rewrite list_lookup_alter. case_decide as Hij.
    + subst j. by rewrite list_lookup_insert_eq, E.
    + by rewrite list_lookup_insert_ne.
  - f_equal. apply list_eq. intros j. rewrite list_lookup_alter. case_decide; [subst; by rewrite E|done].
Qed.

(** The double indirection of [truncate_back_data_blocks] is [cut]. *)
Lemma truncate_double_ok {B} (K : list SimpleIndirection → out B) bpi l k : 0 < bpi → chunked snd (Z.to_nat bpi) l → (0 < k ≤ length (flat1 l))%nat → Z.of_nat k < 2 ^ 32 →
  (q ← div_u (Z.of_nat k) bpi; r ← rem_u (Z.of_nat k) bpi;
   double ← get_mut (λ '(p, blocks), blocks ← drain_from blocks r; Ret (p, blocks)) q l;
   n1 ← sub_u 32 (Z.of_nat k) 1; q1 ← div_u n1 bpi;
   double ← drain_from double (q1 + 1);
   K double) = K (cut bpi k l).
Proof.
  intros Hpos Hc Hk Hbig. destruct (cut_ok bpi Hpos l k Hc Hk) as (H1 & H2 & _). set (m := Z.to_nat bpi) in *. assert (bpi = Z.of_nat m) as Eb by lia. rewrite Eb.
  unfold div_u, rem_u. rewrite (proj2 (Z.eqb_neq _ 0)) by lia. run. rewrite <- Nat2Z.inj_div, <- Nat2Z.inj_mod.
  assert (get_mut (λ '(p, blocks), blocks ← drain_from blocks (Z.of_nat (k mod m)); Ret (p, blocks)) (Z.of_nat (k / m)) l =
    Ret (alter (λ s : SimpleIndirection, (s.1, take (k mod m) s.2)) (k / m)%nat l)) as ->.
  { apply get_mut_alter. intros [p data] E. rewrite drain_from_ok by (specialize (H1 _ E); unfold zlen; cbn in *; lia). run. by rewrite Nat2Z.id. }
  run. rewrite sub_u_ok by lia. run. replace (Z.of_nat k - 1) with (Z.of_nat (k - 1)) by lia. rewrite <- Nat2Z.inj_div. rewrite drain_from_ok.
  - run. unfold cut. rewrite Nat2Z.id. by replace (Z.to_nat (Z.of_nat ((k - 1) / m) + 1)) with (S ((k - 1) / m)) by lia.
  - unfold zlen. rewrite length_alter. lia.
Qed.

Lemma truncate_back_layout self n : Small self → (n ≤ length (blocks_of self))%nat →
  truncate_back_data_blocks self (Z.of_nat n) =
  Ret (layout (blocks_per_indirection self) (take (n + nec (Z.to_nat (blocks_per_indirection self)) n) (traverse self))).
Proof.
  intros Hs Hn. pose proof (sm_tight _ Hs) as Ht. pose proof (ti_positive _ Ht) as Hpos. pose proof (ti_bound _ Ht) as Hbound. pose proof (blocks_of_length self Ht) as Hbig.
  unfold truncate_back_data_blocks, DIRECT_BLOCK_POINTER_COUNT. rewrite data_block_count_ok by done. run. rewrite (proj2 (Z.ltb_ge _ _)) by (unfold zlen in *; lia).
  pose proof (ti_direct _ Ht) as Hd. pose proof (ti_simple _ Ht) as Hsl. pose proof (ti_double _ Ht) as Hc. pose proof (sm_triple _ Hs) as E3. pose proof (small_shape self Hs) as Hsh.
  destruct self as [bpi d [p s] [q l] t]. cbn [blocks_per_indirection direct_blocks singly_indirected_blocks doubly_indirected_blocks triply_indirected_blocks fst snd] in *. subst t.
  unfold blocks_of in Hn, Hbig. cbn [blocks_per_indirection direct_blocks singly_indirected_blocks doubly_indirected_blocks triply_indirected_blocks fst snd] in Hn, Hbig.
  change (flat2 []) with ([] : list Z) in *. rewrite app_nil_r in *. unfold zlen in *. rewrite !length_app in Hn, Hbig.
  set (m := Z.to_nat bpi) in *. assert (bpi = Z.of_nat m) as Eb by lia. unfold nec.
  destruct (Z.leb_spec (Z.of_nat n) 12); case_decide; try lia.
  { assert (n ≤ length d)%nat as Hnd.
    { destruct Hsh as [E1 E2|_ _ Ed|_ _ Ed _]; [|unfold zlen in Ed; cbn in Ed; lia|unfold zlen in Ed; cbn in Ed; lia].
      injection E1 as -> ->. injection E2 as -> ->. cbn in Hn. lia. }
    rewrite drain_from_ok by (unfold zlen; lia). run. rewrite Nat2Z.id, Nat.add_0_r. unfold traverse. cbn [direct_blocks]. rewrite take_app_le by done.
    rewrite layout_direct by (rewrite length_take; lia). done. }
  rewrite sub_u_ok by lia. run. destruct Hsh as [E1 E2|E1 E2 Ed|E1 E2 Ed Es]; unfold zlen in *; cbn in * |-.
  { injection E1 as -> ->. injection E2 as -> ->. cbn in Hn. lia. }
  { injection E2 as -> ->. cbn in Hn. rewrite (proj2 (Z.leb_le _ _)) by lia. case_decide; [|lia]. rewrite drain_from_ok by (unfold zlen; lia). run.
    unfold traverse, behind. cbn [direct_blocks singly_indirected_blocks doubly_indirected_blocks fst snd mbind list_bind]. rewrite bool_decide_eq_false_2 by done.
    rewrite bool_decide_eq_true_2, app_nil_r, take_app_ge by (done || lia). replace (n + 1 - length d)%nat with (S (n - 12)) by lia. cbn [take].
    rewrite layout_simple by (rewrite ?length_take; lia). do 4 f_equal. lia. }
  assert (l ≫= walk1 ≠ []) as Hw by (intros E; apply (f_equal length) in E; rewrite length_walk in E; destruct l; [done|cbn in E; lia]).
  assert (traverse (mkBlocks bpi d (p, s) (q, l) (0, [])) = d ++ p :: s ++ q :: (l ≫= walk1)) as ->.
  { unfold traverse, behind. cbn [direct_blocks singly_indirected_blocks doubly_indirected_blocks fst snd]. rewrite !bool_decide_eq_false_2 by done. done. }
  destruct (Z.leb_spec (Z.of_nat n - 12) bpi); case_decide; try lia.
  { rewrite drain_from_ok by (unfold zlen; lia). run. rewrite take_app_ge by lia. replace (n + 1 - length d)%nat with (S (n - 12)) by lia. cbn [take].
    rewrite take_app_le by lia. rewrite layout_simple by (rewrite ?length_take; lia). do 4 f_equal. lia. }
  rewrite sub_u_ok by lia. run. rewrite mul_u_ok by nia. run. destruct (flat2_length _ Ht) as [_ Hf]. cbn in Hf. fold m (flat1 l) in Hf.
  assert (Z.of_nat (m * m) = bpi * bpi) as Em by (rewrite Eb; lia). rewrite (proj2 (Z.leb_le _ _)) by lia.
  replace (Z.of_nat n - 12 - bpi) with (Z.of_nat (n - 12 - m)) by lia. rewrite truncate_double_ok by (done || lia).
  destruct (cut_ok bpi Hpos l (n - 12 - m) Hc ltac:(lia)) as (_ & _ & Hcc & _ & Hcw).
  rewrite take_app_ge by lia. replace (n + (3 + (n - 12 - m - 1) / m) - length d)%nat with (S (m + S (n - 12 - m + 1 + (n - 12 - m - 1) / m))) by lia. cbn [take].
  rewrite take_app_ge by lia. replace (m + S (n - 12 - m + 1 + (n - 12 - m - 1) / m) - length s)%nat with (S (n - 12 - m + 1 + (n - 12 - m - 1) / m)) by lia. cbn [take].
  fold m in Hcw. rewrite <- Hcw. rewrite layout_double by lia. rewrite chunks_of_chunked by (done || lia). done.
Qed.
Lemma prefix_take {A} (l k : list A) : l `prefix_of` k → l = take (length l) k.
Proof. intros [r ->]. by rewrite take_app_length. Qed.

Lemma truncate_back_ok self n : Small self → 0 ≤ n ≤ zlen (blocks_of self) → ∃ self', truncate_back_data_blocks self n = Ret self' ∧ Small self' ∧
  blocks_of self' = take (Z.to_nat n) (blocks_of self) ∧ traverse self' `prefix_of` traverse self.
Proof.
  intros Hs Hn. pose proof (sm_tight _ Hs) as Ht. pose proof (ti_positive _ Ht) as Hpos. pose proof (ti_bound _ Ht) as Hbound. unfold zlen in Hn.
  pose proof (truncate_back_layout self (Z.to_nat n) Hs ltac:(lia)) as E. rewrite Z2Nat.id in E by lia. set (t := take _ (traverse self)) in E.
  destruct (small_length _ Hpos self Hs eq_refl) as [Hl Hcap]. set (m := Z.to_nat (blocks_per_indirection self)) in *.
  assert (Z.to_nat n + nec m (Z.to_nat n) ≤ length (traverse self))%nat as Hle.
  { rewrite Hl. assert (nec m (Z.to_nat n) ≤ nec m (length (blocks_of self)))%nat; [|lia]. apply nec_mono; lia. }
  destruct (layout_small _ Hpos Hbound t (Z.to_nat n)) as (H1 & H2 & H3); [fold m; lia|unfold t; rewrite length_take; fold m; lia|apply Forall_take, Hs|].
  eexists. split; [exact E|]. split; [done|]. split.
  - rewrite (small_layout self Hs). rewrite <- (take_drop (Z.to_nat n + nec m (Z.to_nat n)) (traverse self)). fold t.
    rewrite (prefix_take _ _ (layout_prefix _ t (drop (Z.to_nat n + nec m (Z.to_nat n)) (traverse self)) Hpos)) at 1. by rewrite H2.
  - rewrite H3. unfold t. exists (drop (Z.to_nat n + nec m (Z.to_nat n)) (traverse self)). by rewrite take_drop.
Qed.

(** Dropping the first [k] data blocks of a double indirection. *)
Lemma drop_front m l k : (0 < m)%nat → chunked snd m l → (k ≤ length (flat1 l))%nat →
  (k / m ≤ length l)%nat ∧ (∀ s, l !! (k / m)%nat = Some s → k mod m ≤ length s.2)%nat ∧
  flat1 (match drop (k / m) l with [] => [] | s :: r => (s.1, drop (k mod m) s.2) :: r end) = drop k (flat1 l).
Proof.
  intros Hm. revert k. induction l as [|x l IH]; intros k Hc Hk.
  { cbn in Hk. replace k with 0%nat by lia. rewrite Nat.Div0.div_0_l. cbn. split_and!; [lia|done|done]. }
  apply chunked_cons in Hc as (Hx & Hfull & Hc); [|done]. unfold flat1 in *. rewrite bind_cons in *. rewrite length_app in Hk. fold (flat1 l) in *.
  destruct (decide (k < m)%nat) as [H1|H1].
  - assert (k ≤ length x.2)%nat by (destruct l; [cbn in Hk; lia|rewrite Hfull by done; lia]).
    rewrite Nat.div_small, Nat.mod_small by done. cbn [drop lookup]. split_and!; [lia|by intros s [= <-]|]. rewrite bind_cons. by rewrite drop_app_le.
  - assert (length x.2 = m) as Hx2 by (destruct l; [cbn in Hk; lia|by apply Hfull]).
    assert (k / m = S ((k - m) / m) ∧ k mod m = (k - m) mod m)%nat as [-> ->].
    { replace k with ((k - m) + 1 * m)%nat at 1 3 by lia. rewrite Nat.div_add, Nat.Div0.mod_add by lia. split; [lia|done]. }
    destruct (IH (k - m)%nat Hc) as (I1 & I2 & I3); [lia|]. split_and!; [cbn; lia|done|]. cbn [drop]. rewrite I3, drop_app_ge by lia. by rewrite Hx2.
Qed.
Lemma drain_to_ok {A} (l : list A) i : i ≤ zlen l → drain_to l i = Ret (drop (Z.to_nat i) l).
Proof. intros H. unfold drain_to. by rewrite (proj2 (Z.leb_le _ _)). Qed.

Lemma truncate_front_ok self n : Small self → 0 ≤ n ≤ zlen (blocks_of self) → ∃ diff, truncate_front_data_blocks self n = Ret diff ∧
  changed_data_blocks diff = drop (Z.to_nat n) (blocks_of self).
Proof.
  intros Hs Hn. pose proof (sm_tight _ Hs) as Ht. pose proof (ti_positive _ Ht) as Hpos. pose proof (ti_bound _ Ht) as Hbound. destruct (flat2_length _ Ht) as [_ Hf]. pose proof (blocks_of_length _ Ht) as Hbig.
  pose proof (ti_direct _ Ht) as Hd. pose proof (ti_simple _ Ht) as Hsl. pose proof (ti_double _ Ht) as Hc. pose proof (sm_triple _ Hs) as E3. pose proof (small_shape self Hs) as Hsh.
  destruct self as [bpi d [p s] [q l] t]. unfold truncate_front_data_blocks, blocks_of, changed_data_blocks, DIRECT_BLOCK_POINTER_COUNT in *.
  cbn [blocks_per_indirection direct_blocks singly_indirected_blocks doubly_indirected_blocks triply_indirected_blocks fst snd] in *. subst t.
  change (flat2 []) with ([] : list Z) in *. rewrite app_nil_r in *. rewrite !zlen_app in Hn, Hbig. set (m := Z.to_nat bpi) in *. assert (bpi = Z.of_nat m) as Eb by lia.
  assert (Z.of_nat (m * m) = bpi * bpi) as Em by (rewrite Eb; lia). assert (0 ≤ bpi * bpi ∧ 0 ≤ bpi * bpi * bpi) as [Hp2 Hp3] by nia.
  pose proof (zlen_nonneg s) as Zs. pose proof (zlen_nonneg (flat1 l)) as Zl. 
  assert ((zlen s = 0 ∧ zlen (flat1 l) = 0 ∨ zlen d = 12) ∧ (zlen (flat1 l) = 0 ∨ zlen s = bpi)) as [Hd12 Hsm].
  { destruct Hsh as [E1 E2|E1 E2 Ed|E1 E2 Ed Es]; cbn in *; [injection E1 as -> ->; injection E2 as -> ->; by split; left|injection E2 as -> ->|]; split; auto. }
  destruct (Z.ltb_spec n 12) as [H12|H12].
  { rewrite drain_to_ok by lia. run. eexists. split; [done|].
    cbn [df_direct df_singly df_doubly df_triply snd mbind list_bind]. fold (flat1 l). rewrite app_nil_r, drop_app_le; [done|].
    unfold zlen in *. lia. }
  assert (zlen d = 12) as Hd' by lia.
  rewrite drop_app_ge by (unfold zlen in *; lia). replace (Z.to_nat n - length d)%nat with (Z.to_nat (n - 12)) by (unfold zlen in *; lia).
  rewrite sub_u_ok by lia. run. destruct (Z.ltb_spec (n - 12) bpi) as [Hb|Hb].
  { rewrite drain_to_ok by lia. run. eexists. split; [done|].
    cbn [df_direct df_singly df_doubly df_triply snd mbind list_bind app]. fold (flat1 l). rewrite app_nil_r, drop_app_le; [done|].
    unfold zlen in *. lia. }
  assert (zlen s = bpi) as Hs' by lia.
  rewrite drop_app_ge by (unfold zlen in *; lia). replace (Z.to_nat (n - 12) - length s)%nat with (Z.to_nat (n - 12 - bpi)) by (unfold zlen in *; lia).
  rewrite sub_u_ok by lia. run. rewrite mul_u_ok by lia. run. unfold div_u, rem_u. rewrite (proj2 (Z.eqb_neq bpi 0)) by lia.
  destruct (Z.ltb_spec (n - 12 - bpi) (bpi * bpi)) as [Hq|Hq].
  - destruct (drop_front m l (Z.to_nat (n - 12 - bpi))) as (F1 & F2 & F3); [lia|done|unfold zlen in *; lia|].
    run. replace (n - 12 - bpi) with (Z.of_nat (Z.to_nat (n - 12 - bpi))) by lia. set (k := Z.to_nat (n - 12 - bpi)) in *. rewrite Eb, <- Nat2Z.inj_div, <- Nat2Z.inj_mod.
    rewrite drain_to_ok by (unfold zlen; lia). run. rewrite !Nat2Z.id. specialize (F2 : ∀ s, l !! (k / m)%nat = Some s → _). rewrite <- F3.
    destruct (drop (k / m) l) as [|x r] eqn:E; cbn [first_mut].
    + run. eexists. by split.
    + assert (l !! (k / m)%nat = Some x) as Hx by (rewrite <- (Nat.add_0_r (k / m)), <- lookup_drop, E; done). destruct x as [px dx].
      rewrite drain_to_ok by (specialize (F2 _ Hx); unfold zlen; cbn in *; lia). run. rewrite Nat2Z.id. eexists. split; [done|].
      cbn [df_direct df_singly df_doubly df_triply snd fst mbind list_bind app]. by rewrite app_nil_r.
  - unfold zlen in *. rewrite sub_u_ok by lia. run. rewrite mul_u_ok by lia. run. replace (n - 12 - bpi - bpi * bpi) with 0 by lia.
    assert (0 < bpi * bpi ∧ 0 < bpi * bpi * bpi) as [H2 H3] by nia.
    rewrite (proj2 (Z.ltb_lt _ _)) by lia. run. rewrite (proj2 (Z.eqb_neq (bpi * bpi) 0)) by lia. run.
    rewrite !Z.div_0_l by lia. run. rewrite drain_to_ok by done. run. cbn [first_mut drop Z.to_nat]. run. eexists. split; [done|].
    cbn [df_direct df_singly df_doubly df_triply snd mbind list_bind app]. rewrite drop_ge by lia. done.
Qed.
End Operations.

(** ** What an ext2 file does with the blocks *)

(** The blocks that [File::truncate] gives back. *)
Definition freed_blocks {P : Profile} (self : IndirectedBlocks) (size block_size : Z) : out (list Z) :=
  q ← div_u (Z.max (size - 1) 0) block_size;
  kept_data_blocks_number ← add_u 32 1 (wrap 32 q);
  symmetrical_difference ← truncate_front_data_blocks self kept_data_blocks_number;
  indirected ← changed_indirected_blocks symmetrical_difference;
  Ret (changed_data_blocks symmetrical_difference ++ ((λ p, p.2.1) <$> indirected)).

Section Theorems.
Context {P : Profile}.

(** [C20] The block at an offset is the one at this place in the list of data blocks, and the count
    is the length of the list, for every offset and at every level of indirection. *)
Theorem block_at_offset_flatten (self : IndirectedBlocks) (offset : Z) (Ht : Tight self) (Ho : 0 ≤ offset < 2 ^ 32) :
  ∃ l, flatten_data_blocks self = Ret l ∧ data_block_count self = Ret (zlen l) ∧ block_at_offset self offset = Ret (l !! Z.to_nat offset).
Proof.
  exists (blocks_of self). split_and!; [by apply flatten_data_blocks_ok|by apply data_block_count_ok|by apply block_at_offset_ok].
Qed.

(** [C13] For a file without triple indirection: given as many blocks as the counts of data and indirection blocks say, appending [k] data
    blocks uses every block, once and in order, leaves the old data blocks where they are and
    leaves a well-formed file with [k] data blocks more, up to the end of the double
    indirection. *)
Theorem append_blocks_spec (self : IndirectedBlocks) (bs old : list Z) (k a b : Z) (Hs : Small self) (Hold : flatten_data_blocks self = Ret old) (Hk : 0 ≤ k)
    (Hfit : zlen old + k ≤ 12 + blocks_per_indirection self + blocks_per_indirection self * blocks_per_indirection self)
    (Hz : Forall (λ x, x ≠ 0) bs) (Ha : indirection_block_count self = Ret a)
    (Hb : necessary_indirection_block_count (zlen old + k) (blocks_per_indirection self) = Ret b) (Hlen : zlen bs = k + (b - a)) :
  let self' := append_blocks self bs in
  Small self' ∧ traverse self' = traverse self ++ bs ∧ data_block_count self' = Ret (zlen old + k) ∧ ∃ new, flatten_data_blocks self' = Ret (old ++ new).
Proof.
  rewrite flatten_data_blocks_ok in Hold by apply Hs. injection Hold as <-.
  destruct (append_ok self bs k a b Hs Hk Hfit Hz Ha Hb Hlen) as (H1 & H2 & [new H3] & H4). cbv zeta.
  split_and!; [done|done|rewrite data_block_count_ok, H4 by apply H1; done|]. exists new. by rewrite flatten_data_blocks_ok, H3 by apply H1.
Qed.

(** The two ways of cutting a file's blocks at [n] agree: what [truncate_back_data_blocks] keeps
    and what [truncate_front_data_blocks] gives back are the first [n] data blocks and the
    others, and what is kept is well-formed. *)
Theorem truncate_partitions (self : IndirectedBlocks) (l : list Z) (n : Z) (Hs : Small self) (Hl : flatten_data_blocks self = Ret l) (Hn : 0 ≤ n ≤ zlen l) :
  ∃ self' diff, truncate_back_data_blocks self n = Ret self' ∧ Small self' ∧ flatten_data_blocks self' = Ret (take (Z.to_nat n) l) ∧
    truncate_front_data_blocks self n = Ret diff ∧ changed_data_blocks diff = drop (Z.to_nat n) l.
Proof.
  rewrite flatten_data_blocks_ok in Hl by apply Hs. injection Hl as <-.
  destruct (truncate_back_ok self n Hs Hn) as (self' & E1 & H1 & H2 & _). destruct (truncate_front_ok self n Hs Hn) as (diff & E2 & H3).
  exists self', diff. split_and!; try done. by rewrite flatten_data_blocks_ok, H2 by apply H1.
Qed.

(** Behind the first double indirection block of the triple indirection, cutting panics. *)
Theorem truncate_back_panics (self : IndirectedBlocks) (n : Z) (Ht : Tight self)
    (Hn : 12 + blocks_per_indirection self + 2 * (blocks_per_indirection self * blocks_per_indirection self) < n ≤ zlen (blocks_of self))
    (Hr : (n - 12 - blocks_per_indirection self - blocks_per_indirection self * blocks_per_indirection self) mod
      (blocks_per_indirection self * blocks_per_indirection self) ≠ 0) :
  truncate_back_data_blocks self n = Panic.
Proof.
  destruct (tight_nat self Ht) as (Hm & Eb & Hb). destruct (flat2_length self Ht) as [Hl2 Hl1]. pose proof (blocks_of_length self Ht) as Hbig. cbv zeta in *.
  pose proof (ti_direct _ Ht) as Hd. pose proof (ti_simple _ Ht) as Hsl. pose proof (ti_triple _ Ht) as C2. pose proof (ti_triple_in _ Ht) as C3.
  assert (n - 12 - blocks_per_indirection self - blocks_per_indirection self * blocks_per_indirection self ≤ zlen (flat2 (triply_indirected_blocks self).2)) as Hcount.
  { unfold blocks_of in Hn. rewrite !zlen_app in Hn. unfold zlen in *. rewrite Eb in *. lia. }
  unfold truncate_back_data_blocks, DIRECT_BLOCK_POINTER_COUNT. rewrite data_block_count_ok by done. run. set (m := Z.to_nat (blocks_per_indirection self)) in *. clearbody m. rewrite Eb in *.
  assert (Z.of_nat (m * m) = Z.of_nat m * Z.of_nat m) as Em by lia. assert (0 < Z.of_nat m * Z.of_nat m) as Hpos by nia. set (sq := Z.of_nat m * Z.of_nat m) in *.
  rewrite (proj2 (Z.ltb_ge _ _)), (proj2 (Z.leb_gt n 12)) by lia. rewrite sub_u_ok by lia. run. rewrite (proj2 (Z.leb_gt _ _)) by lia. rewrite sub_u_ok by lia. run.
  rewrite mul_u_ok by lia. run. fold sq. rewrite (proj2 (Z.leb_gt _ _)) by lia. rewrite sub_u_ok by lia. run. set (k := n - 12 - Z.of_nat m - sq) in *.
  unfold div_u, rem_u. rewrite !(proj2 (Z.eqb_neq (Z.of_nat m) 0)) by lia. run. rewrite sub_u_ok by lia. run.
  assert (k / Z.of_nat m / Z.of_nat m = (k - 1) / sq) as Eq.
  { rewrite Z.div_div by lia. fold sq. pose proof (Z.div_mod k sq ltac:(lia)). pose proof (Z.mod_pos_bound k sq ltac:(lia)). apply (Z.div_unique_pos _ _ _ (k mod sq - 1)); lia. }
  assert (is_Some ((triply_indirected_blocks self).2 !! Z.to_nat ((k - 1) / sq))) as [[p d] Ed].
  { destruct (lookup_lt_is_Some_2 (flat2 (triply_indirected_blocks self).2) (Z.to_nat (k - 1))) as [b Eb2]; [unfold zlen in Hcount; lia|].
    unfold flat2 in Eb2. rewrite (chunked_lookup _ (m * m) ltac:(lia) _ _ C2) in Eb2.
    replace (Z.to_nat (k - 1) / (m * m))%nat with (Z.to_nat ((k - 1) / sq)) in Eb2 by (rewrite <- Em, Z2Nat.inj_div, Nat2Z.id by lia; done).
    destruct ((triply_indirected_blocks self).2 !! Z.to_nat ((k - 1) / sq)); [by eexists|done]. }
  pose proof (chunked_count d m Hm (Forall_lookup_1 _ _ _ _ C3 Ed)) as Hdl. pose proof (chunked_in _ (m * m) ltac:(lia) _ _ _ C2 Ed) as Hdf. cbn in Hdf. specialize (Hdl ltac:(apply Hdf)).
  assert (Z.of_nat m ≤ k / Z.of_nat m ∧ Z.of_nat m ≤ (k - 1) / Z.of_nat m) as [Hk1 Hk2] by (split; apply Z.div_le_lower_bound; lia).
  assert ((get_mut (λ '(p, blocks), blocks ← drain_from blocks (k mod Z.of_nat m); Ret (p, blocks)) (k / Z.of_nat m) d) = Ret d) as E1.
  { unfold get_mut, get. by rewrite lookup_ge_None_2 by lia. }
  assert (drain_from d ((k - 1) / Z.of_nat m + 1) = Panic) as E2 by (unfold drain_from; by rewrite (proj2 (Z.leb_gt _ _)) by (unfold zlen; lia)).
  rewrite Eq. unfold get_mut at 1, get. rewrite Ed, E1. run. rewrite E2. done.
Qed.

End Theorems.

(** ** Examples *)

Section Examples.
Local Existing Instance dev.

(** [n] blocks from 100 on. *)
Definition numbers (n : Z) : list Z := range 100 (100 + n).

Example tests_append : append_blocks (mkBlocks 5 [1; 2; 3; 4; 5; 6; 7] (0, []) (0, []) (0, [])) [8; 9; 10; 11; 12; 13; 14] =
  mkBlocks 5 [1; 2; 3; 4; 5; 6; 7; 8; 9; 10; 11; 12] (13, [14]) (0, []) (0, []).
Proof. vm_compute. reflexivity. Qed.

(** Thirty data blocks with six indirection blocks. *)
Definition sample : IndirectedBlocks := layout 4 (numbers 36).

Lemma sample_small : Small sample ∧ length (blocks_of sample) = 30%nat ∧ traverse sample = numbers 36.
Proof.
  apply (layout_small 4); [lia|lia|vm_compute; lia|reflexivity|].
  apply Forall_forall. intros x Hx. unfold numbers in Hx. apply elem_of_range in Hx. lia.
Qed.

Lemma block_at_offset_flatten_witness : Tight sample ∧ ∃ l, flatten_data_blocks sample = Ret l ∧ data_block_count sample = Ret (zlen l) ∧
  block_at_offset sample 29 = Ret (l !! Z.to_nat 29).
Proof. split; [apply sample_small|]. apply (block_at_offset_flatten sample 29); [apply sample_small|lia]. Defined.

(** Two data blocks more fit without another indirection block. *)
Lemma append_blocks_spec_witness : Small (append_blocks sample [200; 201]) ∧ data_block_count (append_blocks sample [200; 201]) = Ret 32.
Proof.
  destruct (append_blocks_spec sample [200; 201] (blocks_of sample) 2 6 6) as (H1 & _ & H2 & _);
    [apply sample_small|vm_compute; reflexivity|lia|vm_compute; discriminate|by repeat constructor|vm_compute; reflexivity|vm_compute; reflexivity|reflexivity|].
  split; [exact H1|exact H2].
Defined.

Lemma truncate_partitions_witness : ∃ self' diff, truncate_back_data_blocks sample 21 = Ret self' ∧ Small self' ∧
  flatten_data_blocks self' = Ret (take 21 (blocks_of sample)) ∧ truncate_front_data_blocks sample 21 = Ret diff ∧ changed_data_blocks diff = drop 21 (blocks_of sample).
Proof.
  apply (truncate_partitions sample (blocks_of sample) 21); [apply sample_small|vm_compute; reflexivity|]. split; vm_compute; discriminate.
Defined.

(** A file of 36 data blocks whose triple indirection has two double ones. *)
Definition deep : IndirectedBlocks :=
  mkBlocks 2 (numbers 12) (1, [2; 3]) (4, [(5, [6; 7]); (8, [9; 10])]) (11, [(12, [(13, [14; 15]); (16, [17; 18])]); (19, [(20, [21])])]).

Lemma deep_tight : Tight deep.
Proof. split; cbn; try lia; try (repeat constructor; cbn; lia); try done. Qed.

Lemma truncate_back_panics_witness : zlen (blocks_of deep) = 23 ∧ truncate_back_data_blocks deep 23 = Panic.
Proof. split; [reflexivity|]. apply truncate_back_panics; [exact deep_tight|split; vm_compute; done|vm_compute; discriminate]. Defined.

(** Blocks for a number of data blocks, three to an indirection block. *)
Definition filled (k : Z) : out IndirectedBlocks :=
  n ← necessary_indirection_block_count k 3;
  Ret (append_blocks (mkBlocks 3 [] (0, []) (0, []) (0, [])) (numbers (k + n))).

(** Up to the first double indirection block of the triple indirection every block is used. Behind
    it a block is taken and lost: blocks for 35 data blocks become 34, and blocks for 34 become 33
    with an empty indirection block at the end, on which the count is 24. *)
Theorem append_loses_blocks : (s ← filled 33; data_block_count s) = Ret 33 ∧ (s ← filled 35; data_block_count s) = Ret 34 ∧
  (s ← filled 34; data_block_count s) = Ret 24 ∧ (s ← filled 34; l ← flatten_data_blocks s; Ret (zlen l)) = Ret 33.
Proof. split_and!; vm_compute; reflexivity. Qed.

(** Of a file of 29 data blocks 20 are kept; block 112, which points to eight of them, is given
    back. *)
Theorem truncate_frees_used_block : freed_blocks (layout 256 (numbers 30)) 20000 1024 = Ret (range 121 130 ++ [112]) ∧
  (s ← truncate_back_data_blocks (layout 256 (numbers 30)) 20; Ret (singly_indirected_blocks s)) = Ret (112, range 113 121).
Proof. split; vm_compute; reflexivity. Qed.

(** Nothing is appended to a file without blocks when only the new blocks are asked for. *)
Theorem append_to_empty_appends_nothing : let empty := mkBlocks 256 [] (0, []) (0, []) (0, []) in
  append_blocks_with_difference empty [100; 101] None = Ret (empty, no_difference empty).
Proof. vm_compute. reflexivity. Qed.
End Examples.
