(* ===== verification/Ext2Disk.v ===== *)
(** * ext2 crate: devices, the superblock, group descriptors and inodes

    [dev/mod.rs], [superblock.rs], [block_group.rs] and [inode.rs] of
    [kernel/crates/efs/src]: reading and writing a storage through slices and commits, the
    packed structures of the disk, the caches, and opening a volume.

    The storage is the class [Storage] of the FAT crate, whose streams have the same methods
    and default methods; what it reports is [Device]. [Shows] relates a volume to an abstract
    one, a superblock with a descriptor, two bitmaps and an inode table per group; the lemmas
    on it say what each access to the disk does to the abstract volume. *)

From S2P Require Import Prelude Crates BlockCache FatIo.

(** ** Errors *)

Inductive Ext2Error :=
  | BadFileType (mode : Z)
  | BadMagic (magic : Z)
  | BadString
  | BlockAlreadyFree (block : Z)
  | BlockAlreadyInUse (block : Z)
  | FileTooLarge
  | GidTooLarge (gid : Z)
  | InodeAlreadyFree (inode : Z)
  | InodeAlreadyInUse (inode : Z)
  | InvalidState (state : Z)
  | InvalidErrorHandlingMethod (errors : Z)
  | InvalidCompressionAlgorithm (algo : Z)
  | NameTooLong (name : string)
  | NoExtendedFields
  | NonExistingBlockGroup (group : Z)
  | NonExistingBlock (block : Z)
  | NonExistingInode (inode : Z)
  | NotEnoughFreeBlocks (requested available : Z)
  | NotEnoughInodes
  | OutOfBounds (byte : Z)
  | UidTooLarge (uid : Z)
  | UnknownEntryFileType
  | UnsupportedFeature (feature : string).

(** [Error]: of the device, with the storage's own errors and the two of the default methods of
    [Read] and [Write], or of the file system's implementation. *)
Inductive DevError :=
  | DevOutOfBounds (value upper_bound : Z)
  | DevStorage (e : FatIo.Error).

Inductive FsErr := Device (e : DevError) | Fs (e : Ext2Error).

(** ** Devices

    The trait [Device] and its implementation for every type that reads, writes and seeks. *)

Section Dev.
Context {P : Profile} {S : Type} {ST : Storage S}.

Definition dev_err {A} (m : out (result FatIo.Error A * S)) : out (result FsErr A * S) :=
  '(r, s) ← m;
  Ret (match r with Ok a => Ok a | Err e => Err (Device (DevStorage e)) end, s).

Definition expect {A} (m : out (result FatIo.Error A * S)) : out (A * S) :=
  '(r, s) ← m;
  match r with Ok a => Ret (a, s) | Err _ => Panic end.

Definition dev_size (s : S) : out (Z * S) :=
  '(offset, s) ← expect (st_seek s (SeekEnd 0));
  expect (st_seek s (SeekStart offset)).

Definition dev_slice (s : S) (start end_ : Z) : out (result FsErr (list Z) * S) :=
  len ← sub_u 64 end_ start;
  let? (_, s) := dev_err (st_seek s (SeekStart start)) in
  dev_err (read_exact s (zeros (Z.to_nat len))).

Definition dev_commit (s : S) (addr : Z) (inner : list Z) : out (result FsErr unit * S) :=
  let? (offset, s) := dev_err (st_seek s (SeekStart addr)) in
  let? (_, s) := dev_err (write_all s inner) in
  let? (_, s) := dev_err (st_seek s (SeekStart offset)) in
  Ret (Ok tt, s).

(** The range of a structure; the argument of [ok_or], with the size of the device, is computed
    before the sum is looked at. *)
Definition object_range (s : S) (starting_addr length : Z) : out (result FsErr (Z * Z) * S) :=
  value ← add_u 64 starting_addr length;
  '(upper_bound, s) ← dev_size s;
  Ret (if starting_addr + length <? 2 ^ 64 then Ok (starting_addr, starting_addr + length)
       else Err (Device (DevOutOfBounds value upper_bound)), s).

(** A structure is its bytes, of which there are [size]. *)
Definition read_at (size : Z) (s : S) (starting_addr : Z) : out (result FsErr (list Z) * S) :=
  let? (r, s) := object_range s starting_addr size in
  dev_slice s r.1 r.2.

Definition write_at (s : S) (starting_addr : Z) (object : list Z) : out (result FsErr unit * S) :=
  _ ← assert (0 <? zlen object);
  let? (r, s) := object_range s starting_addr (zlen object) in
  let? (device_slice, s) := dev_slice s r.1 r.2 in
  _ ← assert (zlen device_slice =? zlen object);
  dev_commit s r.1 object.

End Dev.

(** ** Packed structures

    Reading the fields of a structure one after the other. *)

Definition rd (n : nat) (l : list Z) : Z * list Z := (from_le (take n l), drop n l).
Definition rd_array (n : nat) (l : list Z) : list Z * list Z := (take n l, drop n l).
Fixpoint rd_words (k : nat) (l : list Z) : list Z * list Z :=
  match k with
  | O => ([], l)
  | Datatypes.S k => let '(x, l) := rd 4 l in let '(w, l) := rd_words k l in (x :: w, l)
  end.
Definition words_le (l : list Z) : list Z := flat_map (to_le 4) l.

Record Base := mkBase {
  inodes_count : Z;
  blocks_count : Z;
  r_blocks_count : Z;
  free_blocks_count : Z;
  free_inodes_count : Z;
  first_data_block : Z;
  log_block_size : Z;
  log_frag_size : Z;
  blocks_per_group : Z;
  frags_per_group : Z;
  inodes_per_group : Z;
  mtime : Z;
  wtime : Z;
  mnt_count : Z;
  max_mnt_count : Z;
  magic : Z;
  state : Z;
  errors : Z;
  minor_rev_level : Z;
  lastcheck : Z;
  checkinterval : Z;
  creator_os : Z;
  rev_level : Z;
  def_resuid : Z;
  def_resgid : Z;
}.

Definition BASE_SIZE : Z := 84.

Definition Base_enc (b : Base) : list Z :=
  to_le 4 (inodes_count b) ++ to_le 4 (blocks_count b) ++ to_le 4 (r_blocks_count b) ++
  to_le 4 (free_blocks_count b) ++ to_le 4 (free_inodes_count b) ++ to_le 4 (first_data_block b) ++
  to_le 4 (log_block_size b) ++ to_le 4 (log_frag_size b) ++ to_le 4 (blocks_per_group b) ++
  to_le 4 (frags_per_group b) ++ to_le 4 (inodes_per_group b) ++ to_le 4 (mtime b) ++ to_le 4 (wtime b) ++
  to_le 2 (mnt_count b) ++ to_le 2 (max_mnt_count b) ++ to_le 2 (magic b) ++ to_le 2 (state b) ++
  to_le 2 (errors b) ++ to_le 2 (minor_rev_level b) ++ to_le 4 (lastcheck b) ++ to_le 4 (checkinterval b) ++
  to_le 4 (creator_os b) ++ to_le 4 (rev_level b) ++ to_le 2 (def_resuid b) ++ to_le 2 (def_resgid b).

Definition Base_dec (l : list Z) : Base :=
  let '(inodes_count, l) := rd 4 l in
  let '(blocks_count, l) := rd 4 l in
  let '(r_blocks_count, l) := rd 4 l in
  let '(free_blocks_count, l) := rd 4 l in
  let '(free_inodes_count, l) := rd 4 l in
  let '(first_data_block, l) := rd 4 l in
  let '(log_block_size, l) := rd 4 l in
  let '(log_frag_size, l) := rd 4 l in
  let '(blocks_per_group, l) := rd 4 l in
  let '(frags_per_group, l) := rd 4 l in
  let '(inodes_per_group, l) := rd 4 l in
  let '(mtime, l) := rd 4 l in
  let '(wtime, l) := rd 4 l in
  let '(mnt_count, l) := rd 2 l in
  let '(max_mnt_count, l) := rd 2 l in
  let '(magic, l) := rd 2 l in
  let '(state, l) := rd 2 l in
  let '(errors, l) := rd 2 l in
  let '(minor_rev_level, l) := rd 2 l in
  let '(lastcheck, l) := rd 4 l in
  let '(checkinterval, l) := rd 4 l in
  let '(creator_os, l) := rd 4 l in
  let '(rev_level, l) := rd 4 l in
  let '(def_resuid, l) := rd 2 l in
  let '(def_resgid, l) := rd 2 l in
  mkBase inodes_count blocks_count r_blocks_count free_blocks_count free_inodes_count first_data_block
    log_block_size log_frag_size blocks_per_group frags_per_group inodes_per_group mtime wtime mnt_count
    max_mnt_count magic state errors minor_rev_level lastcheck checkinterval creator_os rev_level
    def_resuid def_resgid.

Record ExtendedFields := mkExtended {
  first_ino : Z;
  inode_size_ : Z;
  block_group_nr : Z;
  feature_compat : Z;
  feature_incompat : Z;
  feature_ro_compat : Z;
  uuid : Z;
  volume_name : list Z;
  last_mounted : list Z;
  algo_bitmap : Z;
  prealloc_blocks : Z;
  prealloc_dir_blocks : Z;
  unused_1 : Z;
  journal_uuid : Z;
  journal_inum : Z;
  journal_dev : Z;
  last_orphan : Z;
  hash_seed : list Z;
  def_hash_version : Z;
  unused_2 : list Z;
  default_mount_options : Z;
  first_meta_bg : Z;
}.

Definition EXTENDED_SIZE : Z := 180.

Definition Extended_enc (e : ExtendedFields) : list Z :=
  to_le 4 (first_ino e) ++ to_le 2 (inode_size_ e) ++ to_le 2 (block_group_nr e) ++
  to_le 4 (feature_compat e) ++ to_le 4 (feature_incompat e) ++ to_le 4 (feature_ro_compat e) ++
  to_le 16 (uuid e) ++ volume_name e ++ last_mounted e ++ to_le 4 (algo_bitmap e) ++
  to_le 1 (prealloc_blocks e) ++ to_le 1 (prealloc_dir_blocks e) ++ to_le 2 (unused_1 e) ++
  to_le 16 (journal_uuid e) ++ to_le 4 (journal_inum e) ++ to_le 4 (journal_dev e) ++ to_le 4 (last_orphan e) ++
  words_le (hash_seed e) ++ to_le 1 (def_hash_version e) ++ unused_2 e ++
  to_le 4 (default_mount_options e) ++ to_le 4 (first_meta_bg e).

Definition Extended_dec (l : list Z) : ExtendedFields :=
  let '(first_ino, l) := rd 4 l in
  let '(inode_size_, l) := rd 2 l in
  let '(block_group_nr, l) := rd 2 l in
  let '(feature_compat, l) := rd 4 l in
  let '(feature_incompat, l) := rd 4 l in
  let '(feature_ro_compat, l) := rd 4 l in
  let '(uuid, l) := rd 16 l in
  let '(volume_name, l) := rd_array 16 l in
  let '(last_mounted, l) := rd_array 64 l in
  let '(algo_bitmap, l) := rd 4 l in
  let '(prealloc_blocks, l) := rd 1 l in
  let '(prealloc_dir_blocks, l) := rd 1 l in
  let '(unused_1, l) := rd 2 l in
  let '(journal_uuid, l) := rd 16 l in
  let '(journal_inum, l) := rd 4 l in
  let '(journal_dev, l) := rd 4 l in
  let '(last_orphan, l) := rd 4 l in
  let '(hash_seed, l) := rd_words 4 l in
  let '(def_hash_version, l) := rd 1 l in
  let '(unused_2, l) := rd_array 3 l in
  let '(default_mount_options, l) := rd 4 l in
  let '(first_meta_bg, l) := rd 4 l in
  mkExtended first_ino inode_size_ block_group_nr feature_compat feature_incompat feature_ro_compat uuid
    volume_name last_mounted algo_bitmap prealloc_blocks prealloc_dir_blocks unused_1 journal_uuid
    journal_inum journal_dev last_orphan hash_seed def_hash_version unused_2 default_mount_options
    first_meta_bg.

Record BlockGroupDescriptor := mkGroup {
  block_bitmap : Z;
  inode_bitmap : Z;
  inode_table : Z;
  bg_free_blocks_count : Z;
  bg_free_inodes_count : Z;
  used_dirs_count : Z;
  pad : Z;
  reserved : list Z;
}.

Definition BLOCK_GROUP_DESCRIPTOR_SIZE : Z := 32.

Definition Group_enc (d : BlockGroupDescriptor) : list Z :=
  to_le 4 (block_bitmap d) ++ to_le 4 (inode_bitmap d) ++ to_le 4 (inode_table d) ++
  to_le 2 (bg_free_blocks_count d) ++ to_le 2 (bg_free_inodes_count d) ++ to_le 2 (used_dirs_count d) ++
  to_le 2 (pad d) ++ reserved d.

Definition Group_dec (l : list Z) : BlockGroupDescriptor :=
  let '(block_bitmap, l) := rd 4 l in
  let '(inode_bitmap, l) := rd 4 l in
  let '(inode_table, l) := rd 4 l in
  let '(bg_free_blocks_count, l) := rd 2 l in
  let '(bg_free_inodes_count, l) := rd 2 l in
  let '(used_dirs_count, l) := rd 2 l in
  let '(pad, l) := rd 2 l in
  let '(reserved, l) := rd_array 12 l in
  mkGroup block_bitmap inode_bitmap inode_table bg_free_blocks_count bg_free_inodes_count used_dirs_count
    pad reserved.

Record Inode := mkInode {
  i_mode : Z;
  i_uid : Z;
  i_size : Z;
  i_atime : Z;
  i_ctime : Z;
  i_mtime : Z;
  i_dtime : Z;
  i_gid : Z;
  links_count : Z;
  i_blocks : Z;
  i_flags : Z;
  osd1 : Z;
  direct_block_pointers : list Z;
  singly_indirect_block_pointer : Z;
  doubly_indirect_block_pointer : Z;
  triply_indirect_block_pointer : Z;
  generation : Z;
  file_acl : Z;
  dir_acl : Z;
  faddr : Z;
  osd2 : list Z;
}.

Definition INODE_SIZE : Z := 128.

Definition Inode_enc (i : Inode) : list Z :=
  to_le 2 (i_mode i) ++ to_le 2 (i_uid i) ++ to_le 4 (i_size i) ++ to_le 4 (i_atime i) ++
  to_le 4 (i_ctime i) ++ to_le 4 (i_mtime i) ++ to_le 4 (i_dtime i) ++ to_le 2 (i_gid i) ++
  to_le 2 (links_count i) ++ to_le 4 (i_blocks i) ++ to_le 4 (i_flags i) ++ to_le 4 (osd1 i) ++
  words_le (direct_block_pointers i) ++ to_le 4 (singly_indirect_block_pointer i) ++
  to_le 4 (doubly_indirect_block_pointer i) ++ to_le 4 (triply_indirect_block_pointer i) ++
  to_le 4 (generation i) ++ to_le 4 (file_acl i) ++ to_le 4 (dir_acl i) ++ to_le 4 (faddr i) ++ osd2 i.

Definition Inode_dec (l : list Z) : Inode :=
  let '(i_mode, l) := rd 2 l in
  let '(i_uid, l) := rd 2 l in
  let '(i_size, l) := rd 4 l in
  let '(i_atime, l) := rd 4 l in
  let '(i_ctime, l) := rd 4 l in
  let '(i_mtime, l) := rd 4 l in
  let '(i_dtime, l) := rd 4 l in
  let '(i_gid, l) := rd 2 l in
  let '(links_count, l) := rd 2 l in
  let '(i_blocks, l) := rd 4 l in
  let '(i_flags, l) := rd 4 l in
  let '(osd1, l) := rd 4 l in
  let '(direct_block_pointers, l) := rd_words 12 l in
  let '(singly_indirect_block_pointer, l) := rd 4 l in
  let '(doubly_indirect_block_pointer, l) := rd 4 l in
  let '(triply_indirect_block_pointer, l) := rd 4 l in
  let '(generation, l) := rd 4 l in
  let '(file_acl, l) := rd 4 l in
  let '(dir_acl, l) := rd 4 l in
  let '(faddr, l) := rd 4 l in
  let '(osd2, l) := rd_array 12 l in
  mkInode i_mode i_uid i_size i_atime i_ctime i_mtime i_dtime i_gid links_count i_blocks i_flags osd1
    direct_block_pointers singly_indirect_block_pointer doubly_indirect_block_pointer
    triply_indirect_block_pointer generation file_acl dir_acl faddr osd2.

(** ** The superblock *)

Definition EXT2_SIGNATURE : Z := 0xef53.
Definition SUPERBLOCK_START_BYTE : Z := 1024.
Definition SUPERBLOCK_SIZE : Z := 1024.

Inductive Superblock := Basic (b : Base) | Extended (b : Base) (e : ExtendedFields).

Definition base (self : Superblock) : Base := match self with Basic b | Extended b _ => b end.
Definition extended_fields (self : Superblock) : option ExtendedFields :=
  match self with Basic _ => None | Extended _ e => Some e end.
(** [*base_mut() = b] *)
Definition set_base (self : Superblock) (b : Base) : Superblock :=
  match self with Basic _ => Basic b | Extended _ e => Extended b e end.

Definition b_set_free_blocks (b : Base) (value : Z) : Base :=
  mkBase (inodes_count b) (blocks_count b) (r_blocks_count b) value (free_inodes_count b) (first_data_block b)
    (log_block_size b) (log_frag_size b) (blocks_per_group b) (frags_per_group b) (inodes_per_group b) (mtime b)
    (wtime b) (mnt_count b) (max_mnt_count b) (magic b) (state b) (errors b) (minor_rev_level b) (lastcheck b)
    (checkinterval b) (creator_os b) (rev_level b) (def_resuid b) (def_resgid b).
Definition b_set_free_inodes (b : Base) (value : Z) : Base :=
  mkBase (inodes_count b) (blocks_count b) (r_blocks_count b) (free_blocks_count b) value (first_data_block b)
    (log_block_size b) (log_frag_size b) (blocks_per_group b) (frags_per_group b) (inodes_per_group b) (mtime b)
    (wtime b) (mnt_count b) (max_mnt_count b) (magic b) (state b) (errors b) (minor_rev_level b) (lastcheck b)
    (checkinterval b) (creator_os b) (rev_level b) (def_resuid b) (def_resgid b).

Inductive State := Clean | Errors.
Definition State_try_from_bytes (bytes : Z) : result Ext2Error State :=
  if bytes =? 1 then Ok Clean else if bytes =? 2 then Ok Errors else Err (InvalidState bytes).
Definition State_value (s : State) : Z := match s with Clean => 1 | Errors => 2 end.

Inductive ErrorHandlingMethod := Ignore | Remount | PanicMethod.
Definition ErrorHandlingMethod_try_from_bytes (bytes : Z) : result Ext2Error ErrorHandlingMethod :=
  if bytes =? 1 then Ok Ignore else if bytes =? 2 then Ok Remount else if bytes =? 3 then Ok PanicMethod
  else Err (InvalidErrorHandlingMethod bytes).
Definition ErrorHandlingMethod_value (m : ErrorHandlingMethod) : Z :=
  match m with Ignore => 1 | Remount => 2 | PanicMethod => 3 end.

Inductive OperatingSystem := Linux | GnuHurd | Masix | FreeBSD | OtherLites | Other (id : Z).
Definition OperatingSystem_from_bytes (bytes : Z) : OperatingSystem :=
  if bytes =? 0 then Linux else if bytes =? 1 then GnuHurd else if bytes =? 2 then Masix
  else if bytes =? 3 then FreeBSD else if bytes =? 4 then OtherLites else Other bytes.
Definition OperatingSystem_value (os : OperatingSystem) : Z :=
  match os with Linux => 0 | GnuHurd => 1 | Masix => 2 | FreeBSD => 3 | OtherLites => 4 | Other id => id end.

Definition REQ_COMPRESSION : Z := 0x1.
Definition REQ_FILETYPE : Z := 0x2.
Definition REQ_RECOVER : Z := 0x4.
Definition REQ_JOURNAL_DEV : Z := 0x8.
Definition REQ_META_BG : Z := 0x10.
Definition RequiredFeatures_all : Z := 0x1F.
Definition RO_SPARSE_SUPER : Z := 0x1.
Definition RO_LARGE_FILE : Z := 0x2.
Definition RO_BTREE_DIR : Z := 0x4.
Definition ReadOnlyFeatures_all : Z := 0x7.
Definition OptionalFeatures_all : Z := 0x3F.

Section Super.
Context {P : Profile} {BF : Bitflags}.
Implicit Types self : Superblock.

(** [div_ceil] panics on zero. *)
Definition block_group_count self : out Z :=
  _ ← div_u (blocks_count (base self)) (blocks_per_group (base self));
  Ret (div_ceil (blocks_count (base self)) (blocks_per_group (base self))).
Definition block_size self : out Z := shl_u 32 1024 (log_block_size (base self)).
Definition frag_size self : out Z := shl_u 32 1024 (log_frag_size (base self)).

Definition max_file_size self : out Z :=
  block_size ← block_size self;
  direct_blocks_size ← mul_u 64 12 block_size;
  simply_indirect_blocks_size ← mul_u 64 block_size (block_size / 4);
  d1 ← mul_u 64 block_size (block_size / 4);
  doubly_indirect_blocks_size ← mul_u 64 d1 (block_size / 4);
  t1 ← mul_u 64 block_size (block_size / 4);
  t2 ← mul_u 64 t1 (block_size / 4);
  triply_indirect_blocks_size ← mul_u 64 t2 (block_size / 4);
  s1 ← add_u 64 direct_blocks_size simply_indirect_blocks_size;
  s2 ← add_u 64 s1 doubly_indirect_blocks_size;
  add_u 64 s2 triply_indirect_blocks_size.

Definition inode_size self : Z :=
  match self with Basic _ => 128 | Extended _ e => inode_size_ e end.
Definition first_non_reserved_inode self : Z :=
  match self with Basic _ => 11 | Extended _ e => first_ino e end.

Definition optional_features self : result Ext2Error Z :=
  match self with
  | Basic _ => Err NoExtendedFields
  | Extended _ e => Ok (fl_truncate OptionalFeatures_all (feature_compat e))
  end.
Definition required_features self : result Ext2Error Z :=
  match self with
  | Basic _ => Err NoExtendedFields
  | Extended _ e => Ok (fl_truncate RequiredFeatures_all (feature_incompat e))
  end.
Definition read_only_features self : result Ext2Error Z :=
  match self with
  | Basic _ => Err NoExtendedFields
  | Extended _ e => Ok (fl_truncate ReadOnlyFeatures_all (feature_ro_compat e))
  end.

Definition block_group self (block_number : Z) : out Z :=
  d ← sub_u 32 block_number (first_data_block (base self));
  div_u d (blocks_per_group (base self)).
Definition group_index self (block_number : Z) : out Z :=
  d ← sub_u 32 block_number (first_data_block (base self));
  rem_u d (blocks_per_group (base self)).

(** ** Inodes, in memory *)

Definition FIFO : Z := 0x1000.
Definition CHARACTER_DEVICE : Z := 0x2000.
Definition TP_DIRECTORY : Z := 0x4000.
Definition BLOCK_DEVICE : Z := 0x6000.
Definition REGULAR_FILE : Z := 0x8000.
Definition SYMBOLIC_LINK : Z := 0xA000.
Definition SOCKET : Z := 0xC000.
(** All the flags declared: the types and the twelve permissions. *)
Definition TypePermissions_all : Z := 0xFFFF.

Inductive FileType := TRegular | TDirectory | TSymbolicLink | TFifo | TCharacterDevice | TBlockDevice | TSocket.

Definition type_flag (t : FileType) : Z :=
  match t with
  | TRegular => REGULAR_FILE
  | TDirectory => TP_DIRECTORY
  | TSymbolicLink => SYMBOLIC_LINK
  | TFifo => FIFO
  | TCharacterDevice => CHARACTER_DEVICE
  | TBlockDevice => BLOCK_DEVICE
  | TSocket => SOCKET
  end.

Definition type_permissions (i : Inode) : Z := fl_truncate TypePermissions_all (i_mode i).

Definition file_type (i : Inode) : result Ext2Error FileType :=
  let tp := type_permissions i in
  if fl_contains tp SYMBOLIC_LINK then Ok TSymbolicLink
  else if fl_contains tp REGULAR_FILE then Ok TRegular
  else if fl_contains tp TP_DIRECTORY then Ok TDirectory
  else if fl_contains tp FIFO then Ok TFifo
  else if fl_contains tp CHARACTER_DEVICE then Ok TCharacterDevice
  else if fl_contains tp BLOCK_DEVICE then Ok TBlockDevice
  else if fl_contains tp SOCKET then Ok TSocket
  else Err (BadFileType tp).

Definition data_size (i : Inode) : Z :=
  if fl_contains (type_permissions i) TP_DIRECTORY then i_size i
  else i_size i + Z.shiftl (dir_acl i) 32.

Definition Inode_block_group self (n : Z) : out Z :=
  d ← sub_u 32 n 1; div_u d (inodes_per_group (base self)).
Definition Inode_group_index self (n : Z) : out Z :=
  d ← sub_u 32 n 1; rem_u d (inodes_per_group (base self)).
Definition containing_block self (n : Z) : out Z :=
  d ← mul_u 32 n (inode_size self); bs ← block_size self; div_u d bs.

Definition Inode_create self (mode uid gid flags osd1 : Z) (osd2 : list Z) : Inode :=
  let t := wtime (base self) in
  mkInode mode uid 0 t t t t gid 1 0 flags osd1 (replicate 12 0) 0 0 0 0 0 0 0 osd2.

End Super.

(** ** The volume

    [Ext2], with the two static caches, whose keys are a device and a number. *)

Record Ext2 (S : Type) := mkExt2 {
  device_id : Z;
  device : S;
  superblock : Superblock;
  opt_large_files : bool;
  opt_file_type : bool;
  cache : bool;
  group_cache : gmap (Z * Z) BlockGroupDescriptor;
  inode_cache : gmap (Z * Z) Inode;
}.
Arguments mkExt2 {S} _ _ _ _ _ _ _ _.
Arguments device_id {S} _.
Arguments device {S} _.
Arguments superblock {S} _.
Arguments opt_large_files {S} _.
Arguments opt_file_type {S} _.
Arguments cache {S} _.
Arguments group_cache {S} _.
Arguments inode_cache {S} _.

Section Volume.
Context {P : Profile} {BF : Bitflags} {S : Type} {ST : Storage S}.
Implicit Types fs : Ext2 S.

Definition set_device fs (s : S) : Ext2 S :=
  mkExt2 (device_id fs) s (superblock fs) (opt_large_files fs) (opt_file_type fs) (cache fs) (group_cache fs) (inode_cache fs).
Definition set_super fs (sb : Superblock) : Ext2 S :=
  mkExt2 (device_id fs) (device fs) sb (opt_large_files fs) (opt_file_type fs) (cache fs) (group_cache fs) (inode_cache fs).
Definition cache_group fs (n : Z) (d : BlockGroupDescriptor) : Ext2 S :=
  mkExt2 (device_id fs) (device fs) (superblock fs) (opt_large_files fs) (opt_file_type fs) (cache fs)
    (<[(device_id fs, n) := d]> (group_cache fs)) (inode_cache fs).
Definition cache_inode fs (n : Z) (i : Inode) : Ext2 S :=
  mkExt2 (device_id fs) (device fs) (superblock fs) (opt_large_files fs) (opt_file_type fs) (cache fs)
    (group_cache fs) (<[(device_id fs, n) := i]> (inode_cache fs)).

(** A call on the device of a volume. *)
Definition on_device {A} fs (m : out (result FsErr A * S)) : out (result FsErr A * Ext2 S) :=
  '(r, s) ← m; Ret (r, set_device fs s).

Definition Superblock_parse (s : S) : out (result FsErr Superblock * S) :=
  let? (l, s) := read_at BASE_SIZE s SUPERBLOCK_START_BYTE in
  let superblock_base := Base_dec l in
  if negb (magic superblock_base =? EXT2_SIGNATURE) then Ret (Err (Fs (BadMagic (magic superblock_base))), s)
  else if rev_level superblock_base =? 0 then Ret (Ok (Basic superblock_base), s)
  else
    let? (l, s) := read_at EXTENDED_SIZE s (SUPERBLOCK_START_BYTE + BASE_SIZE) in
    Ret (Ok (Extended superblock_base (Extended_dec l)), s).

(** [new] and [new_celled]; the caches are those of the program. *)
Definition Ext2_new (s : S) (id : Z) (cache : bool) (groups : gmap (Z * Z) BlockGroupDescriptor) (inodes : gmap (Z * Z) Inode) :
    out (result FsErr (Ext2 S) * S) :=
  let? (sb, s) := Superblock_parse s in
  let unsupported := match required_features sb with
    | Err _ => None
    | Ok f =>
        if fl_contains f REQ_COMPRESSION then Some "compression"%string
        else if fl_contains f REQ_JOURNAL_DEV then Some "journal_dev"%string
        else if fl_contains f REQ_META_BG then Some "meta_bg"%string
        else if fl_contains f REQ_RECOVER then Some "recover"%string
        else None
    end in
  match unsupported with
  | Some f => Ret (Err (Fs (UnsupportedFeature f)), s)
  | None =>
      let large_files := match read_only_features sb with Ok f => fl_contains f RO_LARGE_FILE | Err _ => false end in
      let file_type := match read_only_features sb with Ok f => fl_contains f RO_LARGE_FILE | Err _ => false end in
      Ret (Ok (mkExt2 id s sb large_files file_type cache groups inodes), s)
  end.

Definition update_inner_superblock fs : out (result FsErr unit * Ext2 S) :=
  let? (sb, fs) := on_device fs (Superblock_parse (device fs)) in
  Ret (Ok tt, set_super fs sb).

Definition set_superblock fs (sb : Superblock) : out (result FsErr unit * Ext2 S) :=
  let? (_, fs) := on_device fs (write_at (device fs) SUPERBLOCK_START_BYTE (Base_enc (base sb))) in
  let? (_, fs) := match extended_fields sb with
    | Some e => on_device fs (write_at (device fs) (SUPERBLOCK_START_BYTE + BASE_SIZE) (Extended_enc e))
    | None => Ret (Ok tt, fs)
    end in
  update_inner_superblock fs.

Definition set_free_blocks fs (value : Z) : out (result FsErr unit * Ext2 S) :=
  set_superblock fs (set_base (superblock fs) (b_set_free_blocks (base (superblock fs)) value)).

(** ** Group descriptors *)

Definition Group_starting_addr (sb : Superblock) (n : Z) : out (result FsErr Z) :=
  block_group_count ← block_group_count sb;
  if block_group_count <=? n then Ret (Err (Fs (NonExistingBlockGroup n)))
  else
    let superblock_end_address := SUPERBLOCK_START_BYTE + SUPERBLOCK_SIZE in
    off ← mul_u 64 BLOCK_GROUP_DESCRIPTOR_SIZE n;
    addr ← add_u 64 superblock_end_address off;
    Ret (Ok addr).

Definition Group_parse fs (n : Z) : out (result FsErr BlockGroupDescriptor * Ext2 S) :=
  match (if cache fs then group_cache fs !! (device_id fs, n) else None) with
  | Some d => Ret (Ok d, fs)
  | None =>
      addr ← Group_starting_addr (superblock fs) n;
      match addr with
      | Err e => Ret (Err e, fs)
      | Ok addr =>
          let? (l, fs) := on_device fs (read_at BLOCK_GROUP_DESCRIPTOR_SIZE (device fs) addr) in
          let d := Group_dec l in
          Ret (Ok d, if cache fs then cache_group fs n d else fs)
      end
  end.

Definition Group_write_on_device fs (n : Z) (d : BlockGroupDescriptor) : out (result FsErr unit * Ext2 S) :=
  addr ← Group_starting_addr (superblock fs) n;
  match addr with
  | Err e => Ret (Err e, fs)
  | Ok addr =>
      let fs := if cache fs then cache_group fs n d else fs in
      on_device fs (write_at (device fs) addr (Group_enc d))
  end.

(** ** Inodes, on the disk *)

Definition Inode_starting_addr fs (n : Z) : out (result FsErr Z * Ext2 S) :=
  if (inodes_count (base (superblock fs)) <? n) || (n =? 0) then Ret (Err (Fs (NonExistingInode n)), fs)
  else
    group ← Inode_block_group (superblock fs) n;
    let? (d, fs) := Group_parse fs group in
    index ← Inode_group_index (superblock fs) n;
    bs ← block_size (superblock fs);
    a ← mul_u 32 (inode_table d) bs;
    b ← mul_u 32 index (inode_size (superblock fs));
    addr ← add_u 32 a b;
    Ret (Ok addr, fs).

Definition Inode_parse fs (n : Z) : out (result FsErr Inode * Ext2 S) :=
  match (if cache fs then inode_cache fs !! (device_id fs, n) else None) with
  | Some i => Ret (Ok i, fs)
  | None =>
      let? (addr, fs) := Inode_starting_addr fs n in
      let? (l, fs) := on_device fs (read_at INODE_SIZE (device fs) addr) in
      let i := Inode_dec l in
      match file_type i with
      | Err e => Ret (Err (Fs e), fs)
      | Ok _ => Ret (Ok i, if cache fs then cache_inode fs n i else fs)
      end
  end.

Definition Inode_write_on_device fs (n : Z) (i : Inode) : out (result FsErr unit * Ext2 S) :=
  let? (addr, fs) := Inode_starting_addr fs n in
  let fs := if cache fs then cache_inode fs n i else fs in
  on_device fs (write_at (device fs) addr (Inode_enc i)).

End Volume.

(** ** Round trips of the structures *)

Lemma rd_le n x r : in_range (8 * Z.of_nat n) x = true → rd n (to_le n x ++ r) = (x, r).
Proof.
  intros H%in_range_true. unfold rd. rewrite take_app_length', drop_app_length' by (by rewrite length_to_le).
  rewrite from_to_le; [done|]. rewrite Z.pow_mul_r in H by lia. done.
Qed.

Lemma rd_array_app n a r : zlen a = Z.of_nat n → rd_array n (a ++ r) = (a, r).
Proof.
  unfold zlen. intros H. unfold rd_array. by rewrite take_app_length', drop_app_length' by lia.
Qed.

Lemma rd_words_app ws : ∀ k r, zlen ws = Z.of_nat k → forallb (in_range 32) ws = true → rd_words k (words_le ws ++ r) = (ws, r).
Proof.
  induction ws as [|w ws IH]; intros [|k] r Hk Hw; [done|done| |].
  { rewrite zlen_cons in Hk. pose proof (zlen_nonneg ws). lia. }
  rewrite zlen_cons in Hk. cbn [words_le flat_map forallb] in *. apply andb_true_iff in Hw as [H1 H2].
  cbn [rd_words]. rewrite <- app_assoc, (rd_le 4 w) by done. cbv iota.
  change (flat_map (to_le 4) ws) with (words_le ws). by rewrite IH by (done || lia).
Qed.

Lemma words_le_bytes ws : Forall is_byte (words_le ws).
Proof. induction ws as [|w ws IH]; [constructor|]. apply Forall_app_2; [apply to_le_bytes|exact IH]. Qed.

Lemma zlen_words_le ws : zlen (words_le ws) = 4 * zlen ws.
Proof.
  induction ws as [|w ws IH]; [done|]. unfold words_le in *. cbn [flat_map]. rewrite zlen_app, zlen_cons, IH, zlen_to_le. lia.
Qed.

(** An array of [n] words. *)
Definition array_wf (n : Z) (l : list Z) : bool := (zlen l =? n) && forallb (in_range 32) l.

Lemma array_wf_spec n l : array_wf n l = true → zlen l = n ∧ forallb (in_range 32) l = true.
Proof. unfold array_wf. intros [H1 H2]%andb_true_iff. breflect. done. Qed.

Definition Base_fits (b : Base) : bool :=
  in_range 32 (inodes_count b) && in_range 32 (blocks_count b) && in_range 32 (r_blocks_count b) &&
  in_range 32 (free_blocks_count b) && in_range 32 (free_inodes_count b) && in_range 32 (first_data_block b) &&
  in_range 32 (log_block_size b) && in_range 32 (log_frag_size b) && in_range 32 (blocks_per_group b) &&
  in_range 32 (frags_per_group b) && in_range 32 (inodes_per_group b) && in_range 32 (mtime b) && in_range 32 (wtime b) &&
  in_range 16 (mnt_count b) && in_range 16 (max_mnt_count b) && in_range 16 (magic b) && in_range 16 (state b) &&
  in_range 16 (errors b) && in_range 16 (minor_rev_level b) && in_range 32 (lastcheck b) && in_range 32 (checkinterval b) &&
  in_range 32 (creator_os b) && in_range 32 (rev_level b) && in_range 16 (def_resuid b) && in_range 16 (def_resgid b).

Definition Extended_fits (e : ExtendedFields) : bool :=
  in_range 32 (first_ino e) && in_range 16 (inode_size_ e) && in_range 16 (block_group_nr e) &&
  in_range 32 (feature_compat e) && in_range 32 (feature_incompat e) && in_range 32 (feature_ro_compat e) &&
  in_range 128 (uuid e) && bytes_wf 16 (volume_name e) && bytes_wf 64 (last_mounted e) && in_range 32 (algo_bitmap e) &&
  in_range 8 (prealloc_blocks e) && in_range 8 (prealloc_dir_blocks e) && in_range 16 (unused_1 e) &&
  in_range 128 (journal_uuid e) && in_range 32 (journal_inum e) && in_range 32 (journal_dev e) && in_range 32 (last_orphan e) &&
  array_wf 4 (hash_seed e) && in_range 8 (def_hash_version e) && bytes_wf 3 (unused_2 e) &&
  in_range 32 (default_mount_options e) && in_range 32 (first_meta_bg e).

Definition Group_fits (d : BlockGroupDescriptor) : bool :=
  in_range 32 (block_bitmap d) && in_range 32 (inode_bitmap d) && in_range 32 (inode_table d) &&
  in_range 16 (bg_free_blocks_count d) && in_range 16 (bg_free_inodes_count d) && in_range 16 (used_dirs_count d) &&
  in_range 16 (pad d) && bytes_wf 12 (reserved d).

Definition Inode_fits (i : Inode) : bool :=
  in_range 16 (i_mode i) && in_range 16 (i_uid i) && in_range 32 (i_size i) && in_range 32 (i_atime i) &&
  in_range 32 (i_ctime i) && in_range 32 (i_mtime i) && in_range 32 (i_dtime i) && in_range 16 (i_gid i) &&
  in_range 16 (links_count i) && in_range 32 (i_blocks i) && in_range 32 (i_flags i) && in_range 32 (osd1 i) &&
  array_wf 12 (direct_block_pointers i) && in_range 32 (singly_indirect_block_pointer i) &&
  in_range 32 (doubly_indirect_block_pointer i) && in_range 32 (triply_indirect_block_pointer i) &&
  in_range 32 (generation i) && in_range 32 (file_acl i) && in_range 32 (dir_acl i) && in_range 32 (faddr i) &&
  bytes_wf 12 (osd2 i).

Ltac fits_split H :=
  unfold Base_fits, Extended_fits, Group_fits, Inode_fits in H;
  repeat match type of H with
  | (_ && _) = true => let H' := fresh "Hf" in apply andb_true_iff in H as [H H']
  end;
  repeat match goal with
  | H : bytes_wf _ _ = true |- _ => apply bytes_wf_spec in H as [? ?]
  | H : array_wf _ _ = true |- _ => apply array_wf_spec in H as [? ?]
  end.

Ltac and_split := repeat match goal with |- (_ && _) = true => apply andb_true_iff; split end.

Ltac read_fields :=
  repeat (first
    [ match goal with |- context [rd ?n (to_le ?n ?x ++ ?r)] => rewrite (rd_le n x r) by assumption end
    | match goal with |- context [rd_array ?n (?a ++ ?r)] => rewrite (rd_array_app n a r) by assumption end
    | match goal with |- context [rd_words ?n (words_le ?a ++ ?r)] => rewrite (rd_words_app a n r) by assumption end ];
    cbv beta iota zeta).

Lemma Base_dec_enc b r : Base_fits b = true → Base_dec (Base_enc b ++ r) = b.
Proof. intros H. fits_split H. unfold Base_dec, Base_enc. rewrite <- !app_assoc. read_fields. by destruct b. Qed.

Lemma Extended_dec_enc e r : Extended_fits e = true → Extended_dec (Extended_enc e ++ r) = e.
Proof. intros H. fits_split H. unfold Extended_dec, Extended_enc. rewrite <- !app_assoc. read_fields. by destruct e. Qed.

Lemma Group_dec_enc d r : Group_fits d = true → Group_dec (Group_enc d ++ r) = d.
Proof. intros H. fits_split H. unfold Group_dec, Group_enc. rewrite <- !app_assoc. read_fields. by destruct d. Qed.

Lemma Inode_dec_enc i r : Inode_fits i = true → Inode_dec (Inode_enc i ++ r) = i.
Proof. intros H. fits_split H. unfold Inode_dec, Inode_enc. rewrite <- !app_assoc. read_fields. by destruct i. Qed.

Ltac enc_bytes := repeat first [apply Forall_app_2 | apply to_le_bytes | apply words_le_bytes | assumption].

Lemma Base_enc_ok b : zlen (Base_enc b) = BASE_SIZE ∧ Forall is_byte (Base_enc b).
Proof. unfold Base_enc. split; [by rewrite !zlen_app, !zlen_to_le|enc_bytes]. Qed.

Lemma Extended_enc_ok e : Extended_fits e = true → zlen (Extended_enc e) = EXTENDED_SIZE ∧ Forall is_byte (Extended_enc e).
Proof.
  intros H. fits_split H. unfold Extended_enc, EXTENDED_SIZE.
  split; [rewrite !zlen_app, !zlen_to_le, zlen_words_le; lia|enc_bytes].
Qed.

Lemma Group_enc_ok d : Group_fits d = true → zlen (Group_enc d) = BLOCK_GROUP_DESCRIPTOR_SIZE ∧ Forall is_byte (Group_enc d).
Proof.
  intros H. fits_split H. unfold Group_enc, BLOCK_GROUP_DESCRIPTOR_SIZE.
  split; [rewrite !zlen_app, !zlen_to_le; lia|enc_bytes].
Qed.

Lemma Inode_enc_ok i : Inode_fits i = true → zlen (Inode_enc i) = INODE_SIZE ∧ Forall is_byte (Inode_enc i).
Proof.
  intros H. fits_split H. unfold Inode_enc, INODE_SIZE.
  split; [rewrite !zlen_app, !zlen_to_le, zlen_words_le; lia|enc_bytes].
Qed.

(** ** What the device does

    [size] seeks to the end, which [FlatStorage] says nothing of. *)

Class EndSeek (S : Type) {ST : Storage S} {V : View S} := {
  v_seek_end (s : S) : v_ok s → ∃ e s', 0 ≤ e ≤ v_size s ∧ st_seek s (SeekEnd 0) = Ret (Ok e, s') ∧ Upd s s' (v_byte s) e;
}.

(** [s'] is [s] with the bytes [f], wherever its position is. *)
Abbreviation Now := (Held (λ _, True)).

Section DevProofs.
Context {P : Profile} {S : Type} {ST : Storage S} {V : View S} {FS : FlatStorage S} {ES : EndSeek S}.

Lemma Now_refl (s : S) : v_ok s → Now s s (v_byte s).
Proof. intros H. by apply (Upd_Held _ _ _ _ (v_pos s)), Upd_refl. Qed.

Lemma Now_trans (s1 s2 s3 : S) f g : Now s1 s2 f → Now s2 s3 g → Now s1 s3 g.
Proof.
  intros H1 H2. split; [apply H2| |etrans; [apply H1|apply H2]|].
  - by rewrite (he_size _ _ _ _ H2), (he_size _ _ _ _ H1).
  - intros i Hi _. apply (he_byte _ _ _ _ H2); [by rewrite (he_size _ _ _ _ H1)|done].
Qed.

Lemma Now_agree (s1 s2 : S) f g : agree (v_size s1) f g → Now s1 s2 f → Now s1 s2 g.
Proof.
  intros Ha H. split; [apply H..|]. intros i Hi HP. rewrite (he_byte _ _ _ _ H) by done. by apply Ha.
Qed.

Lemma Now_same (s1 s2 s3 : S) : Now s1 s2 (v_byte s1) → Now s2 s3 (v_byte s2) → Now s1 s3 (v_byte s1).
Proof.
  intros H1 H2. eapply Now_agree; [|by eapply Now_trans]. intros i Hi. by apply (he_byte _ _ _ _ H1).
Qed.

Lemma Now_write (s1 s2 s3 : S) a buf : Now s1 s2 (v_byte s1) → Now s2 s3 (spec_write (v_byte s2) a buf) →
  Now s1 s3 (spec_write (v_byte s1) a buf).
Proof.
  intros H1 H2. eapply Now_agree; [|by eapply Now_trans]. intros i Hi.
  apply (spec_write_proper (v_size s1)); [|done..]. intros j Hj. by apply (he_byte _ _ _ _ H1).
Qed.

Lemma dev_size_ok (s : S) : v_ok s → ∃ n s', dev_size s = Ret (n, s') ∧ Now s s' (v_byte s).
Proof.
  intros Hok. destruct (v_seek_end s Hok) as (e & s1 & He & E1 & U1). unfold dev_size, expect. rewrite E1. run.
  destruct (v_seek s1 e) as (s2 & E2 & U2); [apply U1|rewrite (upd_size _ _ _ _ U1); lia|].
  rewrite E2. run. exists e, s2. split; [done|]. eapply Now_same; by apply (Upd_Held _ _ _ _ e).
Qed.

Lemma dev_slice_ok (s : S) a b : v_ok s → 0 ≤ a ≤ b → b ≤ v_size s →
  ∃ s', dev_slice s a b = Ret (Ok (v_byte s <$> range a b), s') ∧ Now s s' (v_byte s).
Proof.
  intros Hok Ha Hb. pose proof (v_small _ Hok) as [_ Hsz]. unfold dev_slice. rewrite sub_u_ok by lia. run.
  destruct (v_seek s a) as (s1 & E1 & U1); [done|lia|]. rewrite E1. unfold dev_err. run.
  assert (zlen (zeros (Z.to_nat (b - a))) = b - a) as Hz by (unfold zlen, zeros; rewrite length_replicate; lia).
  destruct (read_exact_ok s1 (zeros (Z.to_nat (b - a)))) as (s2 & E2 & U2);
    [apply U1|rewrite (upd_pos _ _ _ _ U1), (upd_size _ _ _ _ U1); lia|].
  rewrite E2. run. rewrite (upd_pos _ _ _ _ U1), Hz. replace (a + (b - a)) with b by lia.
  exists s2. split.
  - do 3 f_equal. apply fmap_agree with (v_size s); [exact (upd_byte _ _ _ _ U1)|lia|lia].
  - eapply Now_same; by eapply Upd_Held.
Qed.

Lemma dev_commit_ok (s : S) a buf : v_ok s → 0 ≤ a → a + zlen buf ≤ v_size s → Forall is_byte buf →
  ∃ s', dev_commit s a buf = Ret (Ok tt, s') ∧ Now s s' (spec_write (v_byte s) a buf).
Proof.
  intros Hok Ha Hb Hby. pose proof (zlen_nonneg buf). unfold dev_commit.
  destruct (v_seek s a) as (s1 & E1 & U1); [done|lia|]. rewrite E1. unfold dev_err. run.
  destruct (write_all_bytes s1 buf) as (s2 & E2 & U2);
    [apply U1|done|rewrite (upd_pos _ _ _ _ U1), (upd_size _ _ _ _ U1); lia|].
  rewrite E2. run.
  destruct (v_seek s2 a) as (s3 & E3 & U3); [apply U2|rewrite (upd_size _ _ _ _ U2), (upd_size _ _ _ _ U1); lia|].
  rewrite E3. run. exists s3. split; [done|]. rewrite (upd_pos _ _ _ _ U1) in U2.
  eapply Now_write; [by eapply Upd_Held|].
  eapply Now_agree; [|eapply Now_trans; by eapply Upd_Held]. intros i Hi.
  exact (upd_byte _ _ _ _ U2 i Hi).
Qed.

Lemma object_range_ok (s : S) a len : v_ok s → 0 ≤ a → 0 ≤ len → a + len ≤ v_size s →
  ∃ s', object_range s a len = Ret (Ok (a, a + len), s') ∧ Now s s' (v_byte s).
Proof.
  intros Hok Ha Hl Hb. pose proof (v_small _ Hok) as [_ Hsz]. unfold object_range. rewrite add_u_ok by lia. run.
  destruct (dev_size_ok s Hok) as (n & s1 & -> & H1). run. rewrite (proj2 (Z.ltb_lt _ _)) by lia. by exists s1.
Qed.

Lemma dev_read_at_ok (s : S) a len : v_ok s → 0 ≤ a → 0 ≤ len → a + len ≤ v_size s →
  ∃ s', read_at len s a = Ret (Ok (v_byte s <$> range a (a + len)), s') ∧ Now s s' (v_byte s).
Proof.
  intros Hok Ha Hl Hb. unfold read_at. destruct (object_range_ok s a len) as (s1 & -> & H1); [done..|]. run. cbn [fst snd].
  destruct (dev_slice_ok s1 a (a + len)) as (s2 & -> & H2); [apply H1|lia|rewrite (he_size _ _ _ _ H1); lia|].
  exists s2. split; [|by eapply Now_same]. do 3 f_equal.
  apply fmap_agree with (v_size s); [|lia|lia]. intros i Hi. by apply (he_byte _ _ _ _ H1).
Qed.

Lemma write_at_ok (s : S) a buf : v_ok s → 0 ≤ a → buf ≠ [] → a + zlen buf ≤ v_size s → Forall is_byte buf →
  ∃ s', write_at s a buf = Ret (Ok tt, s') ∧ Now s s' (spec_write (v_byte s) a buf).
Proof.
  intros Hok Ha Hne Hb Hby. pose proof (zlen_nonneg buf). unfold write_at.
  assert (0 < zlen buf) by (destruct buf; [done|rewrite zlen_cons in *; pose proof (zlen_nonneg buf); lia]).
  rewrite (proj2 (Z.ltb_lt _ _)) by lia. run.
  destruct (object_range_ok s a (zlen buf)) as (s1 & -> & H1); [done..|]. run. cbn [fst snd].
  destruct (dev_slice_ok s1 a (a + zlen buf)) as (s2 & -> & H2); [apply H1|lia|rewrite (he_size _ _ _ _ H1); lia|]. run.
  rewrite zlen_fmap_range, Z.add_simpl_l, Z.eqb_refl by lia. run.
  destruct (dev_commit_ok s2 a buf) as (s3 & -> & H3);
    [apply H2|done|rewrite (he_size _ _ _ _ H2), (he_size _ _ _ _ H1); lia|done|].
  exists s3. split; [done|]. eapply Now_write; [|done]. by eapply Now_same.
Qed.

End DevProofs.

(** The kernel's stream over a disk, and the storages of the examples. *)
#[export] Program Instance block_end {P : Profile} {D} {B : BlockDriver D} {BL : BlockDriverLaws D} :
  EndSeek (InodeRefIO (BlockInode * list D)).
Next Obligation.
  intros P D B BL [inode pos] (Hok & Hp & Hb). cbn [st_seek inode_storage seek io_inode io_offset] in *.
  pose proof (flat_small _ Hok). pose proof Hok as (v & n & Hbk). pose proof (BlockOk_disk _ _ _ Hbk) as (Hr & Hs & _).
  exists (flat_size inode). destruct Hbk as (Hid & Hn & [_ (d & Hd & Hw & Hsec & _) _]). cbn in Hd.
  unfold seek. cbn [io_inode io_offset].
  assert (size inode = Ret (sectors d * 512)) as ->.
  { cbn [size block_io]. unfold BlockInode_size. cbn. rewrite Hid, Hd. run. by apply get_size_ok. }
  run.
  change (wrap 64 0) with 0. cbn [v_size stream_view io_inode flat_size block_flat] in *.
  rewrite sub_u_ok by lia. run. eexists. split; [lia|]. split; [by rewrite Hs, Hsec, Z.sub_0_r|].
  split; cbn; [|done|lia|done|done]. split_and!; [done|lia|lia|done].
Qed.

#[export] Program Instance mem_end : EndSeek MemIO.
Next Obligation.
  intros s (Hb & Hp & Hc & Hs). pose proof (zlen_nonneg (mem_bytes s)). cbn. exists (zlen (mem_bytes s)).
  rewrite Z.add_0_r. case_bool; [|bsolve]. eexists. split; [lia|]. split; [done|]. split; [cbn; split_and!; (done || lia)|done..].
Qed.

#[export] Program Instance sparse_end : EndSeek SparseIO.
Next Obligation.
  intros s (Hb & Hp & Hs). cbn. exists (sp_size s). rewrite Z.add_0_r. case_bool; [|bsolve].
  eexists. split; [lia|]. split; [done|]. split; [cbn; split_and!; (done || lia)|done..].
Qed.

(** ** The abstract volume

    A group has three areas: the bitmaps of its blocks and its inodes, and its inode table. The
    bytes of the disk behind the descriptors and outside the areas are data. *)

Inductive Area := ABlocks | AInodes | ATable.
#[export] Instance Area_eq_dec : EqDecision Area.
Proof. solve_decision. Defined.

Record Vol := mkVol {
  vol_sb : Superblock;
  vol_group : Z → BlockGroupDescriptor;
  vol_area : Area → Z → list Z;
  vol_data : Z → Z;
}.

Definition with_super (V : Vol) (sb : Superblock) : Vol := mkVol sb (vol_group V) (vol_area V) (vol_data V).
Definition with_group (V : Vol) (g : Z) (d : BlockGroupDescriptor) : Vol :=
  mkVol (vol_sb V) (λ h, if h =? g then d else vol_group V h) (vol_area V) (vol_data V).
Definition with_area (V : Vol) (a : Area) (g : Z) (l : list Z) : Vol :=
  mkVol (vol_sb V) (vol_group V) (λ b h, if decide (b = a ∧ h = g) then l else vol_area V b h) (vol_data V).
Definition with_data (V : Vol) (f : Z → Z) : Vol := mkVol (vol_sb V) (vol_group V) (vol_area V) f.

Definition groups (sb : Superblock) : Z := div_ceil (blocks_count (base sb)) (blocks_per_group (base sb)).
Definition block_bytes (sb : Superblock) : Z := 1024 * 2 ^ log_block_size (base sb).

Definition area_block (d : BlockGroupDescriptor) (a : Area) : Z :=
  match a with ABlocks => block_bitmap d | AInodes => inode_bitmap d | ATable => inode_table d end.
Definition area_start (sb : Superblock) (d : BlockGroupDescriptor) (a : Area) : Z := area_block d a * block_bytes sb.
Definition area_len (sb : Superblock) (a : Area) : Z :=
  match a with
  | ABlocks => blocks_per_group (base sb) / 8
  | AInodes => inodes_per_group (base sb) / 8
  | ATable => inodes_per_group (base sb) * inode_size sb
  end.

(** The sizes a volume may have: whole bytes of bitmap, counts of a group in sixteen bits, block
    numbers in 32. *)
Definition Super_wf (sb : Superblock) : bool :=
  Base_fits (base sb) && (magic (base sb) =? EXT2_SIGNATURE) &&
  match sb with
  | Basic b => rev_level b =? 0
  | Extended b e => negb (rev_level b =? 0) && Extended_fits e && (128 <=? inode_size_ e)
  end &&
  (0 <? blocks_count (base sb)) && (0 <? blocks_per_group (base sb)) && (blocks_per_group (base sb) <? 65536) &&
  (blocks_per_group (base sb) mod 8 =? 0) && (0 <? inodes_per_group (base sb)) && (inodes_per_group (base sb) <? 65536) &&
  (inodes_per_group (base sb) mod 8 =? 0) && (log_block_size (base sb) <=? 16) &&
  (first_data_block (base sb) + groups sb * blocks_per_group (base sb) <? 2 ^ 32) &&
  (inodes_count (base sb) =? groups sb * inodes_per_group (base sb)).

(** The areas are behind the descriptors, on the disk, and apart; the code computes addresses in
    inode tables with 32 bits. *)
Record Layout (size : Z) (sb : Superblock) (D : Z → BlockGroupDescriptor) : Prop := {
  lay_area g a : 0 ≤ g < groups sb → 2048 + 32 * groups sb ≤ area_start sb (D g) a ∧
    area_start sb (D g) a + area_len sb a ≤ size ∧ (a = ATable → area_start sb (D g) a + area_len sb a < 2 ^ 32);
  lay_apart g a h b : 0 ≤ g < groups sb → 0 ≤ h < groups sb → ¬ (g = h ∧ a = b) →
    area_start sb (D g) a + area_len sb a ≤ area_start sb (D h) b ∨
    area_start sb (D h) b + area_len sb b ≤ area_start sb (D g) a;
}.

(** The byte at [i] is data. *)
Definition DataByte (sb : Superblock) (D : Z → BlockGroupDescriptor) (i : Z) : Prop :=
  2048 + 32 * groups sb ≤ i ∧ ∀ g a, 0 ≤ g < groups sb → i < area_start sb (D g) a ∨ area_start sb (D g) a + area_len sb a ≤ i.

Section Shows.
Context {P : Profile} {BF : Bitflags} {S : Type} {ST : Storage S} {V : View S} {FS : FlatStorage S} {ES : EndSeek S}.

(** The disk [s] holds the volume [X]. *)
Record DevShows (s : S) (X : Vol) : Prop := {
  ds_ok : v_ok s;
  ds_wf : Super_wf (vol_sb X) = true;
  ds_layout : Layout (v_size s) (vol_sb X) (vol_group X);
  ds_base : v_byte s <$> range 1024 1108 = Base_enc (base (vol_sb X));
  ds_extended e : extended_fields (vol_sb X) = Some e → v_byte s <$> range 1108 1288 = Extended_enc e;
  ds_group g : 0 ≤ g < groups (vol_sb X) → Group_fits (vol_group X g) = true ∧
    v_byte s <$> range (2048 + 32 * g) (2048 + 32 * g + 32) = Group_enc (vol_group X g);
  ds_area g a : 0 ≤ g < groups (vol_sb X) →
    v_byte s <$> range (area_start (vol_sb X) (vol_group X g) a) (area_start (vol_sb X) (vol_group X g) a + area_len (vol_sb X) a) =
    vol_area X a g;
  ds_data i : 0 ≤ i < v_size s → DataByte (vol_sb X) (vol_group X) i → v_byte s i = vol_data X i;
}.

Lemma bytes_kept (s s' : S) a buf b e : Now s s' (spec_write (v_byte s) a buf) → 0 ≤ b → e ≤ v_size s →
  e ≤ a ∨ a + zlen buf ≤ b → v_byte s' <$> range b e = v_byte s <$> range b e.
Proof.
  intros H Hb He Hd. apply list_fmap_ext. intros k x Hx%lookup_seqZ. rewrite (he_byte _ _ _ _ H) by (done || lia).
  unfold spec_write. by case_bool; [lia|].
Qed.

Lemma byte_kept (s s' : S) a buf i : Now s s' (spec_write (v_byte s) a buf) → 0 ≤ i < v_size s → i < a ∨ a + zlen buf ≤ i →
  v_byte s' i = v_byte s i.
Proof. intros H Hi Hd. rewrite (he_byte _ _ _ _ H) by (done || lia). unfold spec_write. by case_bool; [lia|]. Qed.

Lemma bytes_spliced (s s' : S) a buf b e : Now s s' (spec_write (v_byte s) a buf) → 0 ≤ b ≤ a → a + zlen buf ≤ e → e ≤ v_size s →
  v_byte s' <$> range b e = splice (v_byte s <$> range b e) (a - b) buf.
Proof.
  intros H Hb Ha He. pose proof (zlen_nonneg buf).
  assert (zlen (v_byte s <$> range b e) = e - b) as Hz by (apply zlen_fmap_range; lia).
  assert (zlen (splice (v_byte s <$> range b e) (a - b) buf) = e - b) as Hz' by (rewrite zlen_splice; lia).
  apply list_eq. intros k. destruct (decide (Z.of_nat k < e - b)).
  - rewrite <- (Nat2Z.id k) at 2. rewrite splice_lookup by lia. rewrite !list_lookup_fmap. unfold range.
    rewrite !Nat2Z.id, lookup_seqZ_lt by lia. cbn. rewrite (he_byte _ _ _ _ H) by (done || lia).
    unfold spec_write. repeat case_bool; try lia; [|done].
    replace (Z.to_nat (b + Z.of_nat k - a)) with (Z.to_nat (Z.of_nat k - (a - b))) by lia.
    destruct (lookup_lt_is_Some_2 buf (Z.to_nat (Z.of_nat k - (a - b)))) as [x ->]; [unfold zlen in *; lia|done].
  - rewrite !lookup_ge_None_2; [done|unfold zlen in *; lia|].
    rewrite length_fmap. unfold range. rewrite length_seqZ. lia.
Qed.

Lemma bytes_put (s s' : S) a buf e : Now s s' (spec_write (v_byte s) a buf) → 0 ≤ a → e = a + zlen buf → e ≤ v_size s →
  v_byte s' <$> range a e = buf.
Proof.
  intros H Ha -> Hb. pose proof (zlen_nonneg buf). rewrite (bytes_spliced s s' a buf) by (done || lia).
  rewrite Z.sub_diag. apply splice_whole_prefix. rewrite zlen_fmap_range; lia.
Qed.

Lemma Super_wf_spec sb : Super_wf sb = true →
  let b := base sb in
  0 < blocks_count b < 2 ^ 32 ∧ 0 < blocks_per_group b < 65536 ∧ blocks_per_group b mod 8 = 0 ∧
  0 < inodes_per_group b < 65536 ∧ inodes_per_group b mod 8 = 0 ∧ 0 ≤ log_block_size b ≤ 16 ∧
  0 ≤ first_data_block b ∧ first_data_block b + groups sb * blocks_per_group b < 2 ^ 32 ∧
  inodes_count b = groups sb * inodes_per_group b ∧ inodes_count b < 2 ^ 32 ∧ 1 ≤ groups sb < 2 ^ 32 ∧
  128 ≤ inode_size sb < 65536.
Proof.
  unfold Super_wf. intros H. repeat match type of H with
  | (_ && _) = true => let H' := fresh "Hf" in apply andb_true_iff in H as [H H'] end.
  assert (128 ≤ inode_size sb < 65536).
  { destruct sb as [b|b e]; cbn; [lia|]. apply andb_true_iff in Hf9 as [[_ He]%andb_true_iff Hi]. fits_split He.
    match goal with H : in_range 16 (inode_size_ e) = true |- _ => apply in_range_true in H end. lia. }
  fits_split H. repeat match goal with H : in_range 32 _ = true |- _ => apply in_range_true in H end.
  breflect. pose proof (div_ceil_spec (blocks_count (base sb)) (blocks_per_group (base sb)) ltac:(lia) ltac:(lia)) as Hc.
  fold (groups sb) in Hc. cbn zeta. assert (1 ≤ groups sb) by nia. assert (groups sb < 2 ^ 32) by nia. split_and!; lia.
Qed.

Lemma DevShows_bounds (s : S) X : DevShows s X → 2048 + 32 * groups (vol_sb X) ≤ v_size s ∧ 1 ≤ groups (vol_sb X).
Proof.
  intros H. destruct (Super_wf_spec _ (ds_wf _ _ H)) as (Wbc & Wbpg & Wb8 & Wipg & Wi8 & Wlog & Wfdb & Wtot & Wic & Wic2 & Wgr & Wisz).
  destruct (lay_area _ _ _ (ds_layout _ _ H) 0 ABlocks ltac:(lia)) as (Ha & He & _).
  assert (0 ≤ area_len (vol_sb X) ABlocks) by (cbn; apply Z.div_pos; lia). lia.
Qed.

Lemma DevShows_same (s s' : S) X : DevShows s X → Now s s' (v_byte s) → DevShows s' X.
Proof.
  intros H Hn. pose proof (DevShows_bounds _ _ H) as [Hb Hone]. pose proof (he_size _ _ _ _ Hn) as Hz.
  assert (∀ b e, 0 ≤ b → e ≤ v_size s → v_byte s' <$> range b e = v_byte s <$> range b e) as Hk.
  { intros b e ? He. apply list_fmap_ext. intros k x Hx%lookup_seqZ. apply (he_byte _ _ _ _ Hn); [lia|done]. }
  split; rewrite ?Hz; try apply H.
  - apply Hn.
  - rewrite Hk by lia. apply H.
  - intros e He. rewrite Hk by lia. by apply H.
  - intros g Hg. rewrite Hk by lia. by apply H.
  - intros g a Hg. destruct (lay_area _ _ _ (ds_layout _ _ H) g a Hg) as (H1 & H2 & _).
    rewrite Hk by lia. by apply H.
  - intros i Hi HD. rewrite (he_byte _ _ _ _ Hn) by done. by apply H.
Qed.

(** A write inside an area changes that area only. *)
Lemma DevShows_area (s s' : S) X g a off buf : DevShows s X → 0 ≤ g < groups (vol_sb X) → 0 ≤ off → off + zlen buf ≤ area_len (vol_sb X) a →
  Now s s' (spec_write (v_byte s) (area_start (vol_sb X) (vol_group X g) a + off) buf) →
  DevShows s' (with_area X a g (splice (vol_area X a g) off buf)).
Proof.
  intros H Hg Hoff Hend Hn. pose proof (DevShows_bounds _ _ H) as [Hb Hone]. pose proof (he_size _ _ _ _ Hn) as Hz.
  pose proof (zlen_nonneg buf). destruct (lay_area _ _ _ (ds_layout _ _ H) g a Hg) as (H1 & H2 & _).
  split; cbn [vol_sb vol_group with_area]; rewrite ?Hz; try apply H.
  - apply Hn.
  - rewrite (bytes_kept _ _ _ _ _ _ Hn) by lia. apply H.
  - intros e He. rewrite (bytes_kept _ _ _ _ _ _ Hn) by lia. by apply H.
  - intros h Hh. rewrite (bytes_kept _ _ _ _ _ _ Hn) by lia. by apply H.
  - intros h b Hh. cbn [vol_area with_area]. destruct (lay_area _ _ _ (ds_layout _ _ H) h b Hh) as (H3 & H4 & _).
    destruct (decide (b = a ∧ h = g)) as [[-> ->]|Hne].
    + rewrite (bytes_spliced _ _ _ _ _ _ Hn) by lia. rewrite (ds_area _ _ H) by done. f_equal. lia.
    + destruct (lay_apart _ _ _ (ds_layout _ _ H) h b g a Hh Hg) as [Hd|Hd]; [tauto| |];
        rewrite (bytes_kept _ _ _ _ _ _ Hn) by lia; by apply H.
  - intros i Hi HD. destruct (proj2 HD g a Hg); rewrite (byte_kept _ _ _ _ _ Hn) by lia; by apply H.
Qed.

(** A write of data changes data only. *)
Lemma DevShows_ext (s : S) X f : (∀ i, f i = vol_data X i) → DevShows s X → DevShows s (with_data X f).
Proof. intros Hf [D1 D2 D3 D4 D5 D6 D7 D8]. split; try done. intros i Hi HD. cbn. rewrite Hf. by apply D8. Qed.

Lemma DevShows_data (s s' : S) X a buf : DevShows s X → a + zlen buf ≤ v_size s →
  (∀ i, a ≤ i < a + zlen buf → DataByte (vol_sb X) (vol_group X) i) → Now s s' (spec_write (v_byte s) a buf) →
  DevShows s' (with_data X (spec_write (vol_data X) a buf)).
Proof.
  intros H Hend HD Hn. pose proof (DevShows_bounds _ _ H) as [Hb Hone]. pose proof (he_size _ _ _ _ Hn) as Hz.
  assert (∀ (f : Z → Z) i, spec_write f a [] i = f i) as Hnil by (intros; unfold spec_write; change (zlen []) with 0; by case_bool; [lia|]).
  destruct (decide (buf = [])) as [->|Hne].
  { apply DevShows_ext; [done|]. eapply DevShows_same; [exact H|]. eapply Now_agree; [|exact Hn]. intros i _. by rewrite Hnil. }
  assert (0 < zlen buf) as Hlen by (destruct buf; [done|rewrite zlen_cons; pose proof (zlen_nonneg buf); lia]).
  destruct (HD a ltac:(lia)) as [Ha _].
  split; cbn [vol_sb vol_group vol_area vol_data with_data]; rewrite ?Hz; try apply H.
  - apply Hn.
  - rewrite (bytes_kept _ _ _ _ _ _ Hn) by lia. apply H.
  - intros e He. rewrite (bytes_kept _ _ _ _ _ _ Hn) by lia. by apply H.
  - intros h Hh. rewrite (bytes_kept _ _ _ _ _ _ Hn) by lia. by apply H.
  - intros h b Hh. destruct (lay_area _ _ _ (ds_layout _ _ H) h b Hh) as (H3 & H4 & _). rewrite (bytes_kept _ _ _ _ _ _ Hn); [by apply H|lia|lia|].
    destruct (decide (area_start (vol_sb X) (vol_group X h) b + area_len (vol_sb X) b ≤ a)) as [|Hlt]; [by left|right].
    destruct (decide (a + zlen buf ≤ area_start (vol_sb X) (vol_group X h) b)) as [|Hgt]; [done|exfalso].
    assert (0 < area_len (vol_sb X) b) as Hpos.
    { destruct (Super_wf_spec _ (ds_wf _ _ H)) as (Wbc & Wbpg & Wb8 & Wipg & Wi8 & Wlog & Wfdb & Wtot & Wic & Wic2 & Wgr & Wisz).
      pose proof (Z.div_mod (blocks_per_group (base (vol_sb X))) 8 ltac:(lia)). pose proof (Z.div_mod (inodes_per_group (base (vol_sb X))) 8 ltac:(lia)). destruct b; cbn; nia. }
    destruct (HD (Z.max a (area_start (vol_sb X) (vol_group X h) b)) ltac:(lia)) as [_ HDi]. destruct (HDi h b Hh); lia.
  - intros i Hi HDi. rewrite (he_byte _ _ _ _ Hn) by done. unfold spec_write. by case_bool; [|apply H].
Qed.

(** A descriptor that keeps its group's areas where they are. *)
Definition same_places (d d' : BlockGroupDescriptor) : Prop := ∀ a, area_block d' a = area_block d a.

Lemma same_start sb d d' a : same_places d d' → area_start sb d' a = area_start sb d a.
Proof. intros H. unfold area_start. by rewrite H. Qed.

Lemma Layout_group size sb D D' : Layout size sb D → (∀ h, same_places (D h) (D' h)) → Layout size sb D'.
Proof.
  intros H Hs. split.
  - intros h a Hh. rewrite (same_start _ _ _ _ (Hs h)). by apply H.
  - intros h a k b Hh Hk Hne. rewrite (same_start _ _ _ _ (Hs h)), (same_start _ _ _ _ (Hs k)). by apply (lay_apart _ _ _ H).
Qed.

Lemma DevShows_group (s s' : S) X g d : DevShows s X → 0 ≤ g < groups (vol_sb X) → Group_fits d = true → same_places (vol_group X g) d →
  Now s s' (spec_write (v_byte s) (2048 + 32 * g) (Group_enc d)) → DevShows s' (with_group X g d).
Proof.
  intros H Hg Hf Hs Hn. pose proof (DevShows_bounds _ _ H) as [Hb Hone]. pose proof (he_size _ _ _ _ Hn) as Hz.
  destruct (Group_enc_ok d Hf) as [Hl _]. change BLOCK_GROUP_DESCRIPTOR_SIZE with 32 in Hl.
  assert (∀ h, same_places (vol_group X h) (vol_group (with_group X g d) h)) as Hp.
  { intros h. cbn. destruct (Z.eqb_spec h g) as [->|]; done. }
  split; cbn [vol_sb vol_area with_group]; rewrite ?Hz; try apply H.
  - apply Hn.
  - eapply Layout_group; [apply H|done].
  - rewrite (bytes_kept _ _ _ _ _ _ Hn) by lia. apply H.
  - intros e He. rewrite (bytes_kept _ _ _ _ _ _ Hn) by lia. by apply H.
  - intros h Hh. cbn. destruct (Z.eqb_spec h g) as [->|Hne].
    + split; [done|]. apply (bytes_put _ _ _ _ _ Hn); lia.
    + rewrite (bytes_kept _ _ _ _ _ _ Hn) by lia. by apply H.
  - intros h b Hh. rewrite (same_start _ _ _ _ (Hp h)). destruct (lay_area _ _ _ (ds_layout _ _ H) h b Hh) as (H3 & H4 & _).
    rewrite (bytes_kept _ _ _ _ _ _ Hn) by lia. by apply H.
  - intros i Hi [HD1 HD2]. rewrite (byte_kept _ _ _ _ _ Hn) by lia. apply H; [done|]. split; [done|]. intros h a Hh.
    destruct (HD2 h a Hh) as [HD|HD]; rewrite (same_start _ _ _ _ (Hp h)) in HD; auto.
Qed.

(** ** Updating the superblock *)

#[local] Arguments in_range : simpl never.

(** The superblock with other counts of free blocks and inodes. *)
Definition recount (sb : Superblock) (blocks inodes : Z) : Superblock :=
  set_base sb (b_set_free_inodes (b_set_free_blocks (base sb) blocks) inodes).

Lemma recount_wf sb b i : Super_wf sb = true → 0 ≤ b < 2 ^ 32 → 0 ≤ i < 2 ^ 32 → Super_wf (recount sb b i) = true.
Proof.
  intros H Hb Hi. apply in_range_true in Hb, Hi. unfold Super_wf in *.
  assert (Base_fits (base (recount sb b i)) = true) as Hf.
  { repeat match type of H with (_ && _) = true => apply andb_true_iff in H as [H _] end.
    destruct sb; cbn in *; fits_split H; unfold Base_fits; cbn; by and_split. }
  rewrite Hf. destruct sb as [sb|sb e]; cbn in *; repeat match goal with H : (_ && _) = true |- _ => apply andb_true_iff in H as [H ?] end; by and_split.
Qed.

Lemma DevShows_super (s s1 s2 : S) X b i : DevShows s X → 0 ≤ b < 2 ^ 32 → 0 ≤ i < 2 ^ 32 →
  Now s s1 (spec_write (v_byte s) 1024 (Base_enc (base (recount (vol_sb X) b i)))) →
  match extended_fields (vol_sb X) with
  | Some e => Now s1 s2 (spec_write (v_byte s1) 1108 (Extended_enc e))
  | None => s2 = s1
  end → DevShows s2 (with_super X (recount (vol_sb X) b i)).
Proof.
  intros H Hb Hi H1 H2. pose proof (DevShows_bounds _ _ H) as [Hbd Hone].
  destruct (Base_enc_ok (base (recount (vol_sb X) b i))) as [Hl _]. change BASE_SIZE with 84 in Hl.
  pose proof (he_size _ _ _ _ H1) as Hz1.
  assert (v_ok s2 ∧ v_size s2 = v_size s ∧ (∀ c e, 0 ≤ c → e ≤ v_size s → e ≤ 1108 ∨ 1288 ≤ c →
    v_byte s2 <$> range c e = v_byte s1 <$> range c e) ∧
    ∀ e, extended_fields (vol_sb X) = Some e → v_byte s2 <$> range 1108 1288 = Extended_enc e) as (Hok & Hz & Hk & He).
  { destruct (extended_fields (vol_sb X)) as [e|] eqn:Ee; [|subst s2].
    - assert (Extended_fits e = true) as Hf.
      { pose proof (ds_wf _ _ H) as Hw. unfold Super_wf in Hw. destruct (vol_sb X); [done|]. injection Ee as ->.
        repeat (apply andb_true_iff in Hw as [Hw ?]). match goal with H : _ && _ && (128 <=? _) = true |- _ =>
          apply andb_true_iff in H as [[_ H]%andb_true_iff _]; exact H end. }
      destruct (Extended_enc_ok e Hf) as [Hle _]. change EXTENDED_SIZE with 180 in Hle.
      pose proof (he_size _ _ _ _ H2) as Hz2. split_and!; [apply H2|congruence| |].
      + intros c d Hc Hd Ho. apply (bytes_kept _ _ _ _ _ _ H2); lia.
      + intros e' [= <-]. apply (bytes_put _ _ _ _ _ H2); lia.
    - split_and!; [apply H1|done|done|done]. }
  assert (∀ c e, 0 ≤ c → e ≤ v_size s → 1288 ≤ c → v_byte s2 <$> range c e = v_byte s <$> range c e) as Hk2.
  { intros c d Hc Hd Ho. rewrite Hk by lia. apply (bytes_kept _ _ _ _ _ _ H1); lia. }
  pose proof (ds_layout _ _ H) as Hlay.
  assert (groups (recount (vol_sb X) b i) = groups (vol_sb X)) as Hg by (by destruct (vol_sb X)).
  assert (∀ g a, area_start (recount (vol_sb X) b i) (vol_group X g) a = area_start (vol_sb X) (vol_group X g) a) as Hs
    by (intros; by destruct (vol_sb X)).
  assert (∀ a, area_len (recount (vol_sb X) b i) a = area_len (vol_sb X) a) as Ha by (intros []; by destruct (vol_sb X)).
  split; cbn [vol_sb vol_group vol_area with_super]; rewrite ?Hg, ?Hz; try done.
  - apply recount_wf; [apply H|done|done].
  - split; rewrite ?Hg; intros *; rewrite !Hs, !Ha; apply Hlay.
  - rewrite Hk by lia. apply (bytes_put _ _ _ _ _ H1); lia.
  - intros e E. apply He. by destruct (vol_sb X).
  - intros g Hgr. rewrite Hk2 by lia. by apply H.
  - intros g a Hgr. rewrite Hs, Ha. destruct (lay_area _ _ _ Hlay g a Hgr) as (L1 & L2 & _). rewrite Hk2 by lia. by apply H.
  - intros j Hj [HD1 HD2]. rewrite Hg in HD1, HD2.
    assert ([v_byte s2 j] = [v_byte s j]) as [= ->] 
      by (pose proof (Hk2 j (j + 1) ltac:(lia) ltac:(lia) ltac:(lia)) as E; by rewrite range_cons, range_nil in E by lia). apply H; [done|].
    split; [done|]. intros g a Hgr. specialize (HD2 g a Hgr). by rewrite Hs, Ha in HD2.
Qed.

(** ** The volume in memory *)

Definition inode_offset (sb : Superblock) (n : Z) : Z := (n - 1) mod inodes_per_group (base sb) * inode_size sb.
Definition inode_group (sb : Superblock) (n : Z) : Z := (n - 1) / inodes_per_group (base sb).
Definition inode_at (X : Vol) (n : Z) : Inode :=
  let off := inode_offset (vol_sb X) n in
  Inode_dec (subslice (vol_area X ATable (inode_group (vol_sb X) n)) off (off + INODE_SIZE)).

(** The disk, the superblock in memory and the caches agree. *)
Record Shows (fs : Ext2 S) (X : Vol) : Prop := {
  sh_dev : DevShows (device fs) X;
  sh_super : superblock fs = vol_sb X;
  sh_groups n d : cache fs = true → group_cache fs !! (device_id fs, n) = Some d → 0 ≤ n < groups (vol_sb X) ∧ d = vol_group X n;
  sh_inodes n i : cache fs = true → inode_cache fs !! (device_id fs, n) = Some i →
    1 ≤ n ≤ inodes_count (base (vol_sb X)) ∧ i = inode_at X n;
}.

(** What no operation changes. *)
Record Mounted (fs fs' : Ext2 S) : Prop := {
  mo_id : device_id fs' = device_id fs;
  mo_cache : cache fs' = cache fs;
  mo_large : opt_large_files fs' = opt_large_files fs;
  mo_type : opt_file_type fs' = opt_file_type fs;
  mo_size : v_size (device fs') = v_size (device fs);
  mo_frame : v_frame (device fs) (device fs');
}.

#[export] Instance Mounted_pre : PreOrder Mounted.
Proof.
  split; [by split|]. intros f1 f2 f3 H1 H2. destruct H1, H2. split; try congruence. by etrans.
Qed.

Lemma Mounted_device fs s f : Now (device fs) s f → Mounted fs (set_device fs s).
Proof. intros H. split; [done..|apply H|apply H]. Qed.

Lemma Shows_device fs X s : Shows fs X → Now (device fs) s (v_byte (device fs)) → Shows (set_device fs s) X.
Proof. intros [Hd Hs Hg Hi] H. split; [by eapply DevShows_same|done|apply Hg|apply Hi]. Qed.

Lemma Shows_cache_group fs X n : Shows fs X → 0 ≤ n < groups (vol_sb X) → Shows (cache_group fs n (vol_group X n)) X.
Proof.
  intros [Hd Hs Hg Hi] Hn. split; [done|done| |done]. intros m d Hc. cbn. rewrite lookup_insert. case_decide as E.
  - injection E as ->. by intros [= <-].
  - by apply Hg.
Qed.

Lemma on_device_read fs X a len : Shows fs X → 0 ≤ a → 0 ≤ len → a + len ≤ v_size (device fs) →
  ∃ fs', on_device fs (read_at len (device fs) a) = Ret (Ok (v_byte (device fs) <$> range a (a + len)), fs') ∧
    Shows fs' X ∧ Mounted fs fs'.
Proof.
  intros H Ha Hl Hb. destruct (dev_read_at_ok (device fs) a len) as (s & E & Hn); [apply H|done..|].
  unfold on_device. rewrite E. run. eexists. split; [done|].
  split; [by apply Shows_device|by eapply Mounted_device].
Qed.

Lemma on_device_slice fs X a b : Shows fs X → 0 ≤ a ≤ b → b ≤ v_size (device fs) →
  ∃ fs', on_device fs (dev_slice (device fs) a b) = Ret (Ok (v_byte (device fs) <$> range a b), fs') ∧
    Shows fs' X ∧ Mounted fs fs'.
Proof.
  intros H Ha Hb. destruct (dev_slice_ok (device fs) a b) as (s & E & Hn); [apply H|done..|].
  unfold on_device. rewrite E. run. eexists. split; [done|].
  split; [by apply Shows_device|by eapply Mounted_device].
Qed.

Lemma block_group_count_ok sb : Super_wf sb = true → block_group_count sb = Ret (groups sb).
Proof.
  intros H. destruct (Super_wf_spec sb H) as (?&?&_). unfold block_group_count, div_u.
  rewrite (proj2 (Z.eqb_neq _ _)) by lia. done.
Qed.

Lemma block_size_ok sb : Super_wf sb = true → block_size sb = Ret (block_bytes sb) ∧ 1024 ≤ block_bytes sb ≤ 2 ^ 26.
Proof.
  intros H. destruct (Super_wf_spec sb H) as (?&?&?&?&?&Hl&_). unfold block_size, block_bytes.
  pose proof (Z.pow_le_mono_r 2 (log_block_size (base sb)) 16 ltac:(lia) ltac:(lia)).
  pose proof (Z.pow_pos_nonneg 2 (log_block_size (base sb)) ltac:(lia) ltac:(lia)).
  rewrite shl_u_ok by lia. rewrite Z.shiftl_mul_pow2, wrap_small by lia. split; [done|lia].
Qed.

Lemma Group_starting_addr_ok sb n : Super_wf sb = true → 0 ≤ n < groups sb → Group_starting_addr sb n = Ret (Ok (2048 + 32 * n)).
Proof.
  intros H Hn. destruct (Super_wf_spec sb H) as (Wbc & Wbpg & Wb8 & Wipg & Wi8 & Wlog & Wfdb & Wtot & Wic & Wic2 & Wgr & Wisz). unfold Group_starting_addr.
  rewrite block_group_count_ok by done. run. rewrite (proj2 (Z.leb_gt _ _)) by lia.
  change BLOCK_GROUP_DESCRIPTOR_SIZE with 32. rewrite mul_u_ok by lia. run.
  change (SUPERBLOCK_START_BYTE + SUPERBLOCK_SIZE) with 2048. rewrite add_u_ok by lia. done.
Qed.

Lemma Group_parse_ok fs X g : Shows fs X → 0 ≤ g < groups (vol_sb X) →
  ∃ fs', Group_parse fs g = Ret (Ok (vol_group X g), fs') ∧ Shows fs' X ∧ Mounted fs fs'.
Proof.
  intros H Hg. unfold Group_parse. pose proof (DevShows_bounds _ _ (sh_dev _ _ H)) as [Hb _].
  destruct (if cache fs then _ else _) as [d|] eqn:Ec.
  { destruct (cache fs) eqn:Hc; [|done]. destruct (sh_groups _ _ H g d Hc Ec) as [_ ->]. by exists fs. }
  rewrite (sh_super _ _ H), Group_starting_addr_ok by (done || apply H). run.
  destruct (on_device_read fs X (2048 + 32 * g) 32) as (fs1 & E1 & H1 & M1); [done|lia|lia|lia|].
  change BLOCK_GROUP_DESCRIPTOR_SIZE with 32. rewrite E1. run.
  destruct (ds_group _ _ (sh_dev _ _ H) g Hg) as [Hf ->].
  rewrite <- (app_nil_r (Group_enc _)), Group_dec_enc by done.
  destruct (cache fs1); eexists; (split; [done|]); [|done].
  split; [by apply Shows_cache_group|]. etrans; [done|]. by split.
Qed.

Lemma Group_parse_none fs X g : Shows fs X → groups (vol_sb X) ≤ g → Group_parse fs g = Ret (Err (Fs (NonExistingBlockGroup g)), fs).
Proof.
  intros H Hg. unfold Group_parse. destruct (if cache fs then _ else _) as [d|] eqn:Ec.
  { destruct (cache fs) eqn:Hc; [|done]. destruct (sh_groups _ _ H g d Hc Ec) as [? _]. lia. }
  rewrite (sh_super _ _ H). unfold Group_starting_addr. rewrite block_group_count_ok by apply H. run.
  by rewrite (proj2 (Z.leb_le _ _)) by lia.
Qed.

Lemma Group_write_ok fs X g d : Shows fs X → 0 ≤ g < groups (vol_sb X) → Group_fits d = true → same_places (vol_group X g) d →
  ∃ fs', Group_write_on_device fs g d = Ret (Ok tt, fs') ∧ Shows fs' (with_group X g d) ∧ Mounted fs fs'.
Proof.
  intros H Hg Hf Hs. unfold Group_write_on_device. pose proof (DevShows_bounds _ _ (sh_dev _ _ H)) as [Hb _].
  rewrite (sh_super _ _ H), Group_starting_addr_ok by (done || apply H). run.
  destruct (Group_enc_ok d Hf) as [Hl Hby]. change BLOCK_GROUP_DESCRIPTOR_SIZE with 32 in Hl.
  set (fs1 := if cache fs then cache_group fs g d else fs).
  assert (device fs1 = device fs ∧ superblock fs1 = superblock fs ∧ cache fs1 = cache fs ∧ device_id fs1 = device_id fs ∧
    inode_cache fs1 = inode_cache fs ∧ Mounted fs fs1) as (Ed & Es & Ec & Ei & En & M1) by (unfold fs1; destruct (cache fs) eqn:?; split_and!; (done || by split)).
  destruct (write_at_ok (device fs) (2048 + 32 * g) (Group_enc d)) as (s & E & Hn); [apply H|lia|by intros E; rewrite E in Hl|lia|done|].
  unfold on_device. rewrite Ed, E. run. eexists. split; [done|]. split.
  - split; cbn [device superblock cache device_id inode_cache group_cache set_device].
    + by eapply DevShows_group; [apply H| | | |].
    + rewrite Es. apply H.
    + rewrite Ec, Ei. intros n e Hc. unfold fs1. rewrite Hc. cbn. rewrite lookup_insert. case_decide as Ek.
      * injection Ek as ->. intros [= <-]. by rewrite Z.eqb_refl.
      * intros Hl2. destruct (sh_groups _ _ H n e Hc Hl2) as [Hr ->]. split; [done|].
        by rewrite (proj2 (Z.eqb_neq n g)) by congruence.
    + rewrite Ec, Ei, En. apply H.
  - etrans; [exact M1|]. apply (Mounted_device _ _ (spec_write (v_byte (device fs)) (2048 + 32 * g) (Group_enc d))). by rewrite Ed.
Qed.

Lemma Super_wf_fits sb : Super_wf sb = true →
  Base_fits (base sb) = true ∧ magic (base sb) = EXT2_SIGNATURE ∧
  match sb with Basic b => rev_level b = 0 | Extended b e => rev_level b ≠ 0 ∧ Extended_fits e = true end.
Proof.
  unfold Super_wf. intros H. repeat match type of H with (_ && _) = true => apply andb_true_iff in H as [H ?] end.
  split; [done|]. split; [lia|]. destruct sb as [b|b e]; [lia|].
  repeat match goal with H : (_ && _) = true |- _ => apply andb_true_iff in H as [? ?] end. split; [|done].
  by apply Z.eqb_neq, negb_true_iff.
Qed.

Lemma Superblock_parse_ok (s : S) X : DevShows s X → ∃ s', Superblock_parse s = Ret (Ok (vol_sb X), s') ∧ Now s s' (v_byte s).
Proof.
  intros H. pose proof (DevShows_bounds _ _ H) as [Hb Hone]. destruct (Super_wf_fits _ (ds_wf _ _ H)) as (Hf & Hm & Hr).
  unfold Superblock_parse. change BASE_SIZE with 84. change SUPERBLOCK_START_BYTE with 1024.
  destruct (dev_read_at_ok s 1024 84) as (s1 & E1 & H1); [apply H|lia|lia|lia|]. rewrite E1. run.
  change (1024 + 84) with 1108. rewrite (ds_base _ _ H), <- (app_nil_r (Base_enc _)), Base_dec_enc by done.
  rewrite Hm, Z.eqb_refl. cbn [negb].
  destruct (vol_sb X) as [b|b e] eqn:Esb; cbn [base] in *.
  { rewrite Hr, Z.eqb_refl. by exists s1. }
  destruct Hr as [Hr He]. rewrite (proj2 (Z.eqb_neq _ _)) by done. change EXTENDED_SIZE with 180.
  destruct (dev_read_at_ok s1 1108 180) as (s2 & E2 & H2); [apply H1|lia|lia|rewrite (he_size _ _ _ _ H1); lia|].
  rewrite E2. run. exists s2. split; [|by eapply Now_same]. do 4 f_equal.
  rewrite (fmap_agree (v_size s) _ (v_byte s)); [|intros i Hi; by apply (he_byte _ _ _ _ H1)|lia|lia].
  change (1108 + 180) with 1288. rewrite (ds_extended _ _ H e) by (by rewrite Esb). by rewrite <- (app_nil_r (Extended_enc _)), Extended_dec_enc.
Qed.

Lemma update_inner_superblock_ok fs X : DevShows (device fs) X →
  ∃ s, update_inner_superblock fs = Ret (Ok tt, set_super (set_device fs s) (vol_sb X)) ∧ Now (device fs) s (v_byte (device fs)).
Proof.
  intros H. destruct (Superblock_parse_ok _ _ H) as (s & E & Hn). unfold update_inner_superblock, on_device.
  rewrite E. run. by exists s.
Qed.

Lemma update_inner_ok fs X : Shows fs X → ∃ fs', update_inner_superblock fs = Ret (Ok tt, fs') ∧ Shows fs' X ∧ Mounted fs fs'.
Proof.
  intros H. destruct (update_inner_superblock_ok fs X (sh_dev _ _ H)) as (s & -> & Hn). eexists. split; [done|].
  pose proof (Shows_device _ _ _ H Hn) as [Hd Hs Hg Hi]. split; [by split|by split; try apply Hn].
Qed.

Lemma recount_inode_at X b i n : inode_at (with_super X (recount (vol_sb X) b i)) n = inode_at X n.
Proof. unfold inode_at. cbn. by destruct (vol_sb X). Qed.

Lemma set_superblock_ok fs X b i : Shows fs X → 0 ≤ b < 2 ^ 32 → 0 ≤ i < 2 ^ 32 →
  ∃ fs', set_superblock fs (recount (vol_sb X) b i) = Ret (Ok tt, fs') ∧
    Shows fs' (with_super X (recount (vol_sb X) b i)) ∧ Mounted fs fs'.
Proof.
  intros H Hb Hi. pose proof (sh_dev _ _ H) as Hd. pose proof (DevShows_bounds _ _ Hd) as [Hbd Hone].
  set (sb := recount (vol_sb X) b i) in *. destruct (Base_enc_ok (base sb)) as [Hl Hby]. change BASE_SIZE with 84 in Hl.
  unfold set_superblock. destruct (write_at_ok (device fs) SUPERBLOCK_START_BYTE (Base_enc (base sb))) as (s1 & E1 & H1);
    [apply Hd|done|by intros E; rewrite E in Hl|unfold SUPERBLOCK_START_BYTE; lia|done|].
  unfold on_device at 1. rewrite E1. run. cbn [device set_device].
  assert (∃ s2, match extended_fields sb with
    | Some e => on_device (set_device fs s1) (write_at s1 (SUPERBLOCK_START_BYTE + BASE_SIZE) (Extended_enc e))
    | None => Ret (Ok tt, set_device fs s1) end = Ret (Ok tt, set_device fs s2) ∧
    match extended_fields (vol_sb X) with
    | Some e => Now s1 s2 (spec_write (v_byte s1) 1108 (Extended_enc e)) | None => s2 = s1 end ∧ v_frame s1 s2) as (s2 & -> & H2 & Hfr).
  { assert (extended_fields sb = extended_fields (vol_sb X)) as -> by (unfold sb; by destruct (vol_sb X)).
    destruct (Super_wf_fits _ (ds_wf _ _ Hd)) as (_ & _ & Hx).
    destruct (extended_fields (vol_sb X)) as [e|] eqn:Ee; [|exists s1; split_and!; done].
    assert (Extended_fits e = true) as Hf by (destruct (vol_sb X); [done|]; injection Ee as ->; apply Hx).
    destruct (Extended_enc_ok e Hf) as [Hle Hbe]. change EXTENDED_SIZE with 180 in Hle.
    change (SUPERBLOCK_START_BYTE + BASE_SIZE) with 1108.
    destruct (write_at_ok s1 1108 (Extended_enc e)) as (s2 & E2 & H2);
      [apply H1|lia|by intros E; rewrite E in Hle|rewrite (he_size _ _ _ _ H1); lia|done|].
    exists s2. unfold on_device. rewrite E2. run. split_and!; [done|done|apply H2]. }
  run. pose proof (DevShows_super _ _ _ X b i Hd Hb Hi H1 H2) as Hd2.
  destruct (update_inner_superblock_ok (set_device fs s2) _ Hd2) as (s3 & -> & H3). eexists. split; [done|]. split.
  - split; cbn [device superblock cache device_id group_cache inode_cache set_super set_device].
    + by eapply DevShows_same.
    + done.
    + intros n d Hc Hn. destruct (sh_groups _ _ H n d Hc Hn) as [? ->]. unfold sb. by destruct (vol_sb X).
    + intros n j Hc Hn. destruct (sh_inodes _ _ H n j Hc Hn) as [? ->]. unfold sb. rewrite recount_inode_at. split; [|done].
      by destruct (vol_sb X).
  - assert (v_size s2 = v_size (device fs)) as Hz.
    { rewrite <- (he_size _ _ _ _ H1). destruct (extended_fields (vol_sb X)); [apply H2|by subst s2]. }
    split; [done..| |]; cbn.
    + by rewrite (he_size _ _ _ _ H3).
    + etrans; [apply H1|]. etrans; [exact Hfr|apply H3].
Qed.

(** ** Areas *)

Lemma area_range sb d a : Super_wf sb = true → Group_fits d = true → 0 ≤ area_block d a < 2 ^ 32 ∧ 0 ≤ area_start sb d a < 2 ^ 58 ∧ 0 ≤ area_len sb a < 2 ^ 32.
Proof.
  intros H Hf. destruct (Super_wf_spec sb H) as (Wbc & Wbpg & Wb8 & Wipg & Wi8 & Wlog & Wfdb & Wtot & Wic & Wic2 & Wgr & Wisz). destruct (block_size_ok sb H) as [_ Hbs]. fits_split Hf.
  repeat match goal with H : in_range 32 _ = true |- _ => apply in_range_true in H end.
  assert (0 ≤ area_block d a < 2 ^ 32) by (destruct a; cbn; lia). split; [done|]. split; [unfold area_start; nia|].
  destruct a; cbn; [| |nia]; (split; [apply Z.div_pos; lia|apply Z.div_lt_upper_bound; lia]).
Qed.

Lemma area_slice_ok fs X g a : Shows fs X → 0 ≤ g < groups (vol_sb X) →
  ∃ fs', on_device fs (dev_slice (device fs) (area_start (vol_sb X) (vol_group X g) a)
      (area_start (vol_sb X) (vol_group X g) a + area_len (vol_sb X) a)) = Ret (Ok (vol_area X a g), fs') ∧
    Shows fs' X ∧ Mounted fs fs'.
Proof.
  intros H Hg. pose proof (sh_dev _ _ H) as Hd. destruct (lay_area _ _ _ (ds_layout _ _ Hd) g a Hg) as (L1 & L2 & _).
  destruct (area_range (vol_sb X) (vol_group X g) a) as (_ & Hs & Hl); [apply Hd|by apply Hd|].
  edestruct (on_device_slice fs X (area_start (vol_sb X) (vol_group X g) a)) as (fs' & E & H' & M); [done| |exact L2|]; [lia|].
  rewrite (ds_area _ _ Hd) in E by done. by exists fs'.
Qed.

Lemma zlen_area (s : S) X g a : DevShows s X → 0 ≤ g < groups (vol_sb X) →
  zlen (vol_area X a g) = area_len (vol_sb X) a ∧ Forall is_byte (vol_area X a g).
Proof.
  intros H Hg. destruct (lay_area _ _ _ (ds_layout _ _ H) g a Hg) as (L1 & L2 & _).
  destruct (area_range (vol_sb X) (vol_group X g) a) as (_ & Hs & Hl); [apply H|by apply H|].
  rewrite <- (ds_area _ _ H g a Hg). split; [rewrite zlen_fmap_range; lia|].
  apply Forall_fmap, Forall_forall. intros x Hx%elem_of_range. apply v_bytes; [apply H|lia].
Qed.

(** A write of bytes into a bitmap. *)
Lemma area_commit_ok fs X g a off buf : Shows fs X → 0 ≤ g < groups (vol_sb X) → a ≠ ATable → 0 ≤ off →
  off + zlen buf ≤ area_len (vol_sb X) a → Forall is_byte buf →
  ∃ fs', on_device fs (dev_commit (device fs) (area_start (vol_sb X) (vol_group X g) a + off) buf) = Ret (Ok tt, fs') ∧
    Shows fs' (with_area X a g (splice (vol_area X a g) off buf)) ∧ Mounted fs fs'.
Proof.
  intros H Hg Ha Hoff Hend Hby. pose proof (sh_dev _ _ H) as Hd. destruct (lay_area _ _ _ (ds_layout _ _ Hd) g a Hg) as (L1 & L2 & _).
  destruct (area_range (vol_sb X) (vol_group X g) a) as (_ & Hs & Hl); [apply Hd|by apply Hd|].
  destruct (dev_commit_ok (device fs) (area_start (vol_sb X) (vol_group X g) a + off) buf) as (s & E & Hn); [apply Hd|lia|lia|done|].
  unfold on_device. rewrite E. run. eexists. split; [done|]. split; [|by eapply Mounted_device].
  split; cbn; [by eapply DevShows_area|apply H|apply H|]. intros n i Hc Hl2. destruct (sh_inodes _ _ H n i Hc Hl2) as [Hr ->].
  split; [done|]. unfold inode_at. cbn. by rewrite decide_False by (intros [? _]; congruence).
Qed.

(** ** The inode table *)

Lemma subslice_splice_in {A} (l buf : list A) a : 0 ≤ a → a + zlen buf ≤ zlen l → subslice (splice l a buf) a (a + zlen buf) = buf.
Proof.
  intros Ha Hb. pose proof (zlen_nonneg buf). unfold subslice, splice.
  assert (length (take (Z.to_nat a) l) = Z.to_nat a) as Hl by (rewrite length_take; unfold zlen in *; lia).
  rewrite drop_app_length' by done. rewrite Z.add_simpl_l. unfold zlen. rewrite Nat2Z.id. apply take_app_length.
Qed.

Lemma subslice_splice_out {A} (l buf : list A) a b e : 0 ≤ a → a + zlen buf ≤ zlen l → 0 ≤ b ≤ e → e ≤ zlen l → e ≤ a ∨ a + zlen buf ≤ b →
  subslice (splice l a buf) b e = subslice l b e.
Proof.
  intros Ha Hb He Hl Ho. assert (zlen (splice l a buf) = zlen l) as Hz by (by apply zlen_splice). apply list_eq. intros k.
  destruct (decide (Z.of_nat k < e - b)).
  - rewrite <- (Nat2Z.id k), !subslice_lookup by lia. rewrite splice_lookup by lia. by case_bool; [lia|].
  - pose proof (zlen_subslice l b e) as H1. pose proof (zlen_subslice (splice l a buf) b e) as H2.
    rewrite !lookup_ge_None_2; [done|unfold zlen in *; lia..].
Qed.

Lemma subslice_of_range (f : Z → Z) a n b e : 0 ≤ b ≤ e → e ≤ n → subslice (f <$> range a (a + n)) b e = f <$> range (a + b) (a + e).
Proof.
  intros Hb He. rewrite (range_app a (a + b)), (range_app (a + b) (a + e) (a + n)), !fmap_app by lia.
  pose proof (zlen_fmap_range f a (a + b) ltac:(lia)). pose proof (zlen_fmap_range f (a + b) (a + e) ltac:(lia)).
  unfold subslice, zlen in *. rewrite drop_app_length' by lia. by rewrite take_app_length' by lia.
Qed.

Definition with_inode (X : Vol) (n : Z) (i : Inode) : Vol :=
  let g := inode_group (vol_sb X) n in
  with_area X ATable g (splice (vol_area X ATable g) (inode_offset (vol_sb X) n) (Inode_enc i)).

Lemma inode_place sb n : Super_wf sb = true → 1 ≤ n ≤ inodes_count (base sb) →
  0 ≤ inode_group sb n < groups sb ∧ 0 ≤ inode_offset sb n ∧ inode_offset sb n + inode_size sb ≤ area_len sb ATable.
Proof.
  intros H Hn. destruct (Super_wf_spec sb H) as (Wbc & Wbpg & Wb8 & Wipg & Wi8 & Wlog & Wfdb & Wtot & Wic & Wic2 & Wgr & Wisz). unfold inode_group, inode_offset. cbn [area_len].
  set (p := inodes_per_group (base sb)) in *. rewrite Wic in Hn.
  pose proof (Z.mod_pos_bound (n - 1) p ltac:(lia)) as Hm. split.
  - split; [apply Z.div_pos; lia|apply Z.div_lt_upper_bound; nia].
  - nia.
Qed.

Lemma inode_at_with (s : S) X n i m : DevShows s X → 1 ≤ n ≤ inodes_count (base (vol_sb X)) → 1 ≤ m ≤ inodes_count (base (vol_sb X)) →
  Inode_fits i = true → inode_at (with_inode X n i) m = if m =? n then i else inode_at X m.
Proof.
  intros H Hn Hm Hf. pose proof (ds_wf _ _ H) as Hw. destruct (Super_wf_spec _ Hw) as (Wbc & Wbpg & Wb8 & Wipg & Wi8 & Wlog & Wfdb & Wtot & Wic & Wic2 & Wgr & Wisz).
  destruct (inode_place _ n Hw Hn) as (Gn & On & En). destruct (inode_place _ m Hw Hm) as (Gm & Om & Em).
  destruct (Inode_enc_ok i Hf) as [Hl _]. change INODE_SIZE with 128 in Hl.
  destruct (zlen_area s X (inode_group (vol_sb X) n) ATable H Gn) as [Hz _].
  unfold inode_at. cbn [vol_sb vol_area with_inode with_area]. change INODE_SIZE with 128.
  destruct (Z.eqb_spec m n) as [->|Hne].
  - rewrite decide_True by done. rewrite <- Hl, subslice_splice_in by lia. rewrite <- (app_nil_r (Inode_enc i)). by apply Inode_dec_enc.
  - case_decide as Eg; [|done]. destruct Eg as [_ Eg]. rewrite Eg. f_equal. apply subslice_splice_out; try lia.
    assert ((n - 1) mod inodes_per_group (base (vol_sb X)) ≠ (m - 1) mod inodes_per_group (base (vol_sb X))) as Hmod.
    { intros E. unfold inode_group in Eg. pose proof (Z.div_mod (n - 1) (inodes_per_group (base (vol_sb X))) ltac:(lia)).
      pose proof (Z.div_mod (m - 1) (inodes_per_group (base (vol_sb X))) ltac:(lia)). rewrite Eg in *. lia. }
    unfold inode_offset in *. rewrite Hl. nia.
Qed.

Lemma Inode_starting_addr_ok fs X n : Shows fs X → 1 ≤ n ≤ inodes_count (base (vol_sb X)) →
  ∃ fs', Inode_starting_addr fs n = Ret (Ok (area_start (vol_sb X) (vol_group X (inode_group (vol_sb X) n)) ATable + inode_offset (vol_sb X) n), fs') ∧
    Shows fs' X ∧ Mounted fs fs'.
Proof.
  intros H Hn. pose proof (sh_dev _ _ H) as Hd. pose proof (ds_wf _ _ Hd) as Hw.
  destruct (Super_wf_spec _ Hw) as (Wbc & Wbpg & Wb8 & Wipg & Wi8 & Wlog & Wfdb & Wtot & Wic & Wic2 & Wgr & Wisz). destruct (inode_place _ n Hw Hn) as (Gn & On & En).
  unfold Inode_starting_addr. rewrite (sh_super _ _ H). case_bool; [lia|].
  unfold Inode_block_group. rewrite sub_u_ok by lia. run. unfold div_u. rewrite (proj2 (Z.eqb_neq _ _)) by lia. run.
  fold (inode_group (vol_sb X) n). destruct (Group_parse_ok fs X _ H Gn) as (fs1 & -> & Hs1 & M1). run.
  rewrite (sh_super _ _ Hs1). unfold Inode_group_index. rewrite sub_u_ok by lia. run. unfold rem_u. rewrite (proj2 (Z.eqb_neq _ _)) by lia. run.
  destruct (block_size_ok _ Hw) as [-> Hbs]. run. destruct (lay_area _ _ _ (ds_layout _ _ Hd) _ ATable Gn) as (L1 & L2 & L3).
  specialize (L3 eq_refl). set (d := vol_group X (inode_group (vol_sb X) n)) in *.
  assert (Group_fits d = true) as Hf by (by apply Hd). destruct (area_range (vol_sb X) d ATable Hw Hf) as (A1 & A2 & A3).
  unfold area_start, inode_offset in *. cbn [area_block] in *. rewrite (mul_u_ok 32 (inode_table d)) by lia. run.
  rewrite mul_u_ok by lia. run. rewrite add_u_ok by lia. run. by exists fs1.
Qed.

Lemma Inode_parse_ok fs X n t : Shows fs X → 1 ≤ n ≤ inodes_count (base (vol_sb X)) → file_type (inode_at X n) = Ok t →
  ∃ fs', Inode_parse fs n = Ret (Ok (inode_at X n), fs') ∧ Shows fs' X ∧ Mounted fs fs'.
Proof.
  intros H Hn Ht. pose proof (sh_dev _ _ H) as Hd. pose proof (ds_wf _ _ Hd) as Hw. unfold Inode_parse.
  destruct (if cache fs then _ else _) as [i|] eqn:Ec.
  { destruct (cache fs) eqn:Hc; [|done]. destruct (sh_inodes _ _ H n i Hc Ec) as [_ ->]. by exists fs. }
  destruct (Super_wf_spec _ Hw) as (Wbc & Wbpg & Wb8 & Wipg & Wi8 & Wlog & Wfdb & Wtot & Wic & Wic2 & Wgr & Wisz). destruct (inode_place _ n Hw Hn) as (Gn & On & En).
  destruct (Inode_starting_addr_ok fs X n H Hn) as (fs1 & -> & H1 & M1). run.
  destruct (lay_area _ _ _ (ds_layout _ _ Hd) _ ATable Gn) as (L1 & L2 & L3). pose proof (mo_size _ _ M1) as Hz.
  set (a := area_start (vol_sb X) (vol_group X (inode_group (vol_sb X) n)) ATable) in *.
  destruct (on_device_read fs1 X (a + inode_offset (vol_sb X) n) INODE_SIZE) as (fs2 & -> & H2 & M2);
    [done|lia|done|change INODE_SIZE with 128; lia|]. run.
  assert (Inode_dec (v_byte (device fs1) <$> range (a + inode_offset (vol_sb X) n) (a + inode_offset (vol_sb X) n + INODE_SIZE)) = inode_at X n) as ->.
  { unfold inode_at. rewrite <- (ds_area _ _ (sh_dev _ _ H1) _ ATable Gn). fold a. f_equal. change INODE_SIZE with 128.
    rewrite subslice_of_range by lia. f_equal. f_equal; lia. }
  rewrite Ht. destruct (cache fs2); eexists; (split; [done|]); [|split; [done|by etrans]].
  split; [|etrans; [exact M1|]; etrans; [exact M2|]; by split].
  destruct H2 as [Hd2 Hs2 Hg2 Hi2]. split; [done..|]. intros m j Hc. cbn. rewrite lookup_insert. case_decide as E.
  - injection E as ->. by intros [= <-].
  - by apply Hi2.
Qed.

Lemma Inode_write_ok fs X n i : Shows fs X → 1 ≤ n ≤ inodes_count (base (vol_sb X)) → Inode_fits i = true →
  ∃ fs', Inode_write_on_device fs n i = Ret (Ok tt, fs') ∧ Shows fs' (with_inode X n i) ∧ Mounted fs fs'.
Proof.
  intros H Hn Hf. pose proof (sh_dev _ _ H) as Hd. pose proof (ds_wf _ _ Hd) as Hw.
  destruct (Super_wf_spec _ Hw) as (Wbc & Wbpg & Wb8 & Wipg & Wi8 & Wlog & Wfdb & Wtot & Wic & Wic2 & Wgr & Wisz). destruct (inode_place _ n Hw Hn) as (Gn & On & En).
  destruct (Inode_enc_ok i Hf) as [Hl Hby]. change INODE_SIZE with 128 in Hl.
  unfold Inode_write_on_device. destruct (Inode_starting_addr_ok fs X n H Hn) as (fs1 & -> & H1 & M1). run.
  destruct (lay_area _ _ _ (ds_layout _ _ Hd) _ ATable Gn) as (L1 & L2 & L3). pose proof (mo_size _ _ M1) as Hz.
  set (a := area_start (vol_sb X) (vol_group X (inode_group (vol_sb X) n)) ATable) in *.
  set (fs2 := if cache fs1 then cache_inode fs1 n i else fs1).
  assert (device fs2 = device fs1 ∧ superblock fs2 = superblock fs1 ∧ cache fs2 = cache fs1 ∧ device_id fs2 = device_id fs1 ∧
    group_cache fs2 = group_cache fs1 ∧ Mounted fs1 fs2) as (Ed & Es & Ec & Ei & En2 & M2)
    by (unfold fs2; destruct (cache fs1) eqn:?; split_and!; (done || by split)).
  destruct (write_at_ok (device fs1) (a + inode_offset (vol_sb X) n) (Inode_enc i)) as (s & E & Hns);
    [apply H1|lia|by intros E; rewrite E in Hl|lia|done|].
  unfold on_device. rewrite Ed, E. run. eexists. split; [done|]. split.
  - split; cbn [device superblock cache device_id inode_cache group_cache set_device].
    + eapply DevShows_area; [apply H1|done|done|lia|done].
    + rewrite Es. apply H1.
    + rewrite Ec, Ei, En2. apply H1.
    + rewrite Ec, Ei. intros m j Hc. unfold fs2. rewrite Hc. cbn [inode_cache cache_inode]. rewrite lookup_insert.
      change (vol_sb (with_inode X n i)) with (vol_sb X). case_decide as Ek.
      * injection Ek as ->. intros [= <-]. split; [done|]. rewrite (inode_at_with (device fs)), Z.eqb_refl by done. done.
      * intros Hl2. destruct (sh_inodes _ _ H1 m j Hc Hl2) as [Hr ->]. split; [done|].
        rewrite (inode_at_with (device fs)), (proj2 (Z.eqb_neq m n)) by (done || congruence). done.
  - etrans; [exact M1|]. etrans; [exact M2|]. eapply (Mounted_device _ _ (spec_write (v_byte (device fs1)) _ _)). rewrite Ed. exact Hns.
Qed.

End Shows.

(** ** What the code gets wrong *)

(** Whether directory entries have a type field is decided by the flag for large files. *)
Theorem file_type_option {P : Profile} {BF : Bitflags} {S : Type} {ST : Storage S} (s s' : S) id c gs is_ fs
    (Hnew : Ext2_new s id c gs is_ = Ret (Ok fs, s')) : opt_file_type fs = opt_large_files fs.
Proof.
  unfold Ext2_new in Hnew. destruct (Superblock_parse s) as [[[sb|e] s1]|]; try done. cbn [bind_result] in Hnew.
  destruct (match required_features sb with Ok f => _ | Err _ => None end) as [f|]; [done|]. by injection Hnew as <- _.
Qed.

(** The type of an inode from its mode: a block device is taken for a directory and a socket for a regular file; the
    other types are read back. *)
Theorem file_type_of_mode {BF : Bitflags} (i : Inode) (t : FileType) (permissions : Z) (Hperm : 0 ≤ permissions < 0x1000)
    (Hmode : i_mode i = Z.lor (type_flag t) permissions) :
  file_type i = Ok match t with TBlockDevice => TDirectory | TSocket => TRegular | t => t end.
Proof.
  assert (∀ f, 0 ≤ f < 16 → fl_contains (type_permissions i) (Z.shiftl f 12) = fl_contains (type_flag t) (Z.shiftl f 12)) as Hc.
  { intros f Hf. unfold type_permissions. rewrite !fl_contains_spec, fl_truncate_spec, Hmode.
    assert (Z.land (Z.land TypePermissions_all (Z.lor (type_flag t) permissions)) (Z.shiftl f 12) = Z.land (type_flag t) (Z.shiftl f 12)) as ->; [|done].
    apply Z.bits_inj'. intros k Hk. rewrite !Z.land_spec, Z.lor_spec, Z.shiftl_spec by lia. change TypePermissions_all with (Z.ones 16).
    destruct (Z.testbit f (k - 12)) eqn:E; rewrite ?andb_false_r; [|done]. rewrite !andb_true_r.
    assert (12 ≤ k) by (destruct (decide (12 ≤ k)); [done|]; by rewrite Z.testbit_neg_r in E by lia).
    rewrite (testbit_high permissions 12 k), orb_false_r by (done || lia). destruct (decide (k < 16)).
    - by rewrite Z.ones_spec_low by lia.
    - rewrite (testbit_high (type_flag t) 16 k); [by rewrite andb_false_r| |lia]. by destruct t. }
  unfold file_type. cbv zeta. change SYMBOLIC_LINK with (Z.shiftl 0xA 12). change REGULAR_FILE with (Z.shiftl 0x8 12).
  change TP_DIRECTORY with (Z.shiftl 0x4 12). change FIFO with (Z.shiftl 0x1 12). change CHARACTER_DEVICE with (Z.shiftl 0x2 12).
  rewrite (Hc 0xA), (Hc 0x8), (Hc 0x4), (Hc 0x1), (Hc 0x2) by lia. rewrite !fl_contains_spec. by destruct t.
Qed.
