(* ===== verification/Ext2Alloc.v ===== *)
(** * ext2 crate: bitmaps and the allocation of blocks and inodes

    [fs/structures/bitmap.rs] and the allocator of [fs/ext2/mod.rs] in
    [kernel/crates/efs/src]. The theorems are about the lists of free blocks and free inodes of an
    abstract volume ([Ext2Disk.Vol]): what the searches return is what those lists say, and
    allocating and freeing changes them by exactly the blocks or the inode given, with the
    counts of the groups and of the superblock kept exact. *)

From Stdlib Require Import FMapPositive.
From S2P Require Import Prelude Crates BlockCache FatIo Ext2Disk.

(** ** Bitmaps *)

Record Bitmap := mkBitmap { bm_inner : list Z; bm_start : Z; bm_length : Z }.

Section Bitmaps.
Context {P : Profile}.

(** The set bits of a byte, by sums of pairs, nibbles and halves. *)
Definition count_ones_u8 (byte : Z) : out Z :=
  a ← shr_u 8 byte 1;
  count ← sub_u 8 byte (Z.land a 0x55);
  b ← shr_u 8 count 2;
  count ← add_u 8 (Z.land count 0x33) (Z.land b 0x33);
  c ← shr_u 8 count 4;
  d ← add_u 8 count c;
  Ret (Z.land d 0x0F).

Fixpoint find_to_count_loop (n : Z) (count : Z → out Z) (l : list Z) (index counter : Z) (taken : list (Z * Z)) :
    out (list (Z * Z)) :=
  match l with
  | [] => Ret taken
  | element :: l =>
      element_count ← count element;
      if 0 <? element_count then
        counter ← add_u 64 counter element_count;
        let taken := taken ++ [(index, element)] in
        if n <=? counter then Ret taken else find_to_count_loop n count l (index + 1) counter taken
      else find_to_count_loop n count l (index + 1) counter taken
  end.

Definition find_to_count (self : Bitmap) (n : Z) (count : Z → out Z) : out (list (Z * Z)) :=
  find_to_count_loop n count (bm_inner self) 0 0 [].

Definition find_n_set_bits (self : Bitmap) (n : Z) : out (list (Z * Z)) := find_to_count self n count_ones_u8.

Definition find_n_unset_bits (self : Bitmap) (n : Z) : out (list (Z * Z)) :=
  find_to_count self n (λ byte, count ← count_ones_u8 byte; sub_u 32 8 count).

End Bitmaps.

Section Alloc.
Context {P : Profile} {BF : Bitflags} {S : Type} {ST : Storage S}.
Implicit Types fs : Ext2 S.

Definition Bitmap_new fs (starting_addr length : Z) : out (result FsErr Bitmap * Ext2 S) :=
  end_ ← add_u 64 starting_addr length;
  let? (inner, fs) := on_device fs (dev_slice (device fs) starting_addr end_) in
  Ret (Ok (mkBitmap inner starting_addr length), fs).

(** [clone_from_slice] panics when the lengths differ. *)
Definition write_back fs (self : Bitmap) : out (result FsErr unit * Ext2 S) :=
  end_ ← add_u 64 (bm_start self) (bm_length self);
  let? (sl, fs) := on_device fs (dev_slice (device fs) (bm_start self) end_) in
  _ ← assert (zlen sl =? zlen (bm_inner self));
  on_device fs (dev_commit (device fs) (bm_start self) (bm_inner self)).

Definition get_block_bitmap fs (block_group_number : Z) : out (result FsErr Bitmap * Ext2 S) :=
  let? (d, fs) := Group_parse fs block_group_number in
  bs ← block_size (superblock fs);
  starting_addr ← mul_u 64 (block_bitmap d) bs;
  Bitmap_new fs starting_addr (blocks_per_group (base (superblock fs)) / 8).

Definition get_inode_bitmap fs (block_group_number : Z) : out (result FsErr Bitmap * Ext2 S) :=
  let? (d, fs) := Group_parse fs block_group_number in
  bs ← block_size (superblock fs);
  starting_addr ← mul_u 64 (inode_bitmap d) bs;
  Bitmap_new fs starting_addr (inodes_per_group (base (superblock fs)) / 8).

(** ** Searching free blocks *)

(** The loops over the bits of a byte and over the bytes found in a group: whether the call
    returns, and the blocks pushed. *)
Fixpoint push_bits (b : Base) (group index byte n : Z) (bits : list Z) (free_blocks : list Z) : out (bool * list Z) :=
  match bits with
  | [] => Ret (false, free_blocks)
  | bit :: bits =>
      s ← shr_u 8 byte bit;
      if Z.land s 1 =? 0 then
        x ← mul_u 32 group (blocks_per_group b);
        y ← mul_u 32 index 8;
        x ← add_u 32 x y;
        x ← add_u 32 x bit;
        block ← add_u 32 x (first_data_block b);
        let free_blocks := free_blocks ++ [block] in
        if zlen free_blocks =? n then Ret (true, free_blocks) else push_bits b group index byte n bits free_blocks
      else push_bits b group index byte n bits free_blocks
  end.

Fixpoint push_bytes (b : Base) (group n : Z) (found : list (Z * Z)) (free_blocks : list Z) : out (bool * list Z) :=
  match found with
  | [] => Ret (false, free_blocks)
  | (index, byte) :: found =>
      '(done, free_blocks) ← push_bits b group index byte n (range 0 8) free_blocks;
      if done : bool then Ret (true, free_blocks) else push_bytes b group n found free_blocks
  end.

Fixpoint free_blocks_loop fs (n start_block_group total : Z) (counts : list Z) (free_blocks : list Z) :
    out (result FsErr (list Z) * Ext2 S) :=
  match counts with
  | [] => Ret (Err (Fs (NotEnoughFreeBlocks n (zlen free_blocks))), fs)
  | c :: counts =>
      c ← add_u 32 c start_block_group;
      group ← rem_u c total;
      let? (d, fs) := Group_parse fs group in
      if 0 <? bg_free_blocks_count d then
        let? (bitmap, fs) := get_block_bitmap fs group in
        found ← find_n_unset_bits bitmap n;
        '(done, free_blocks) ← push_bytes (base (superblock fs)) group n found free_blocks;
        if done : bool then Ret (Ok free_blocks, fs)
        else free_blocks_loop fs n start_block_group total counts free_blocks
      else free_blocks_loop fs n start_block_group total counts free_blocks
  end.

Definition free_blocks_offset fs (n start_block_group : Z) : out (result FsErr (list Z) * Ext2 S) :=
  if n =? 0 then Ret (Ok [], fs)
  else if free_blocks_count (base (superblock fs)) <? n then
    Ret (Err (Fs (NotEnoughFreeBlocks n (free_blocks_count (base (superblock fs))))), fs)
  else
    total ← block_group_count (superblock fs);
    free_blocks_loop fs n start_block_group total (range 0 total) [].

Definition free_blocks fs (n : Z) : out (result FsErr (list Z) * Ext2 S) := free_blocks_offset fs n 0.

(** ** Allocating and freeing blocks *)

Definition set_group_blocks (d : BlockGroupDescriptor) (count : Z) : BlockGroupDescriptor :=
  mkGroup (block_bitmap d) (inode_bitmap d) (inode_table d) count (bg_free_inodes_count d) (used_dirs_count d) (pad d) (reserved d).
Definition set_group_inodes (d : BlockGroupDescriptor) (count : Z) : BlockGroupDescriptor :=
  mkGroup (block_bitmap d) (inode_bitmap d) (inode_table d) (bg_free_blocks_count d) count (used_dirs_count d) (pad d) (reserved d).

Definition update_block_group fs (block_group_number changed : Z) (bitmap : Bitmap) (usage : bool) :
    out (result FsErr unit * Ext2 S) :=
  let? (_, fs) := write_back fs bitmap in
  let? (d, fs) := Group_parse fs block_group_number in
  count ← (if usage then sub_u 16 (bg_free_blocks_count d) changed else add_u 16 (bg_free_blocks_count d) changed);
  Group_write_on_device fs block_group_number (set_group_blocks d count).

Definition set_inner (bm : Bitmap) (l : list Z) : Bitmap := mkBitmap l (bm_start bm) (bm_length bm).

(** The bit of a block: the error, or the bitmap with it flipped. *)
Definition flip_block (sb : Superblock) (bitmap : Bitmap) (block : Z) (usage : bool) : out (result FsErr Bitmap) :=
  gi ← group_index sb block;
  let bitmap_index := gi / 8 in
  let bitmap_offset := gi mod 8 in
  match bm_inner bitmap !! Z.to_nat bitmap_index with
  | None => Ret (Err (Fs (NonExistingBlock block)))
  | Some byte =>
      s ← shr_u 8 byte bitmap_offset;
      if usage && (Z.land s 1 =? 1) then Ret (Err (Fs (BlockAlreadyInUse block)))
      else if negb usage && (Z.land s 1 =? 0) then Ret (Err (Fs (BlockAlreadyFree block)))
      else
        m ← shl_u 8 1 bitmap_offset;
        Ret (Ok (set_inner bitmap (<[Z.to_nat bitmap_index := Z.lxor byte m]> (bm_inner bitmap))))
  end.

Fixpoint locate_loop fs (usage : bool) (group changed : Z) (bitmap : Bitmap) (blocks : list Z) :
    out (result FsErr (Z * Z * Bitmap) * Ext2 S) :=
  match blocks with
  | [] => Ret (Ok (group, changed, bitmap), fs)
  | block :: blocks =>
      g ← block_group (superblock fs) block;
      let? (r, fs) :=
        if negb (g =? group) then
          let? (_, fs) := update_block_group fs group changed bitmap usage in
          let? (bitmap, fs) := get_block_bitmap fs g in
          Ret (Ok (g, 0, bitmap), fs)
        else Ret (Ok (group, changed, bitmap), fs) in
      let '(group, changed, bitmap) := r in
      changed ← add_u 16 changed 1;
      b ← flip_block (superblock fs) bitmap block usage;
      match b with
      | Err e => Ret (Err e, fs)
      | Ok bitmap => locate_loop fs usage group changed bitmap blocks
      end
  end.

Definition locate_blocks fs (blocks : list Z) (usage : bool) : out (result FsErr unit * Ext2 S) :=
  let? (_, fs) := (if cache fs then Ret (Ok tt, fs) else update_inner_superblock fs) in
  let? (_, fs) := match blocks with
    | [] => Ret (Ok tt, fs)
    | block :: _ =>
        group ← block_group (superblock fs) block;
        let? (bitmap, fs) := get_block_bitmap fs group in
        let? (r, fs) := locate_loop fs usage group 0 bitmap blocks in
        let '(group, changed, bitmap) := r in
        update_block_group fs group changed bitmap usage
    end in
  let free := free_blocks_count (base (superblock fs)) in
  value ← (if usage then sub_u 32 free (zlen blocks) else add_u 32 free (zlen blocks));
  set_free_blocks fs value.

Definition allocate_blocks fs (blocks : list Z) := locate_blocks fs blocks true.
Definition deallocate_blocks fs (blocks : list Z) := locate_blocks fs blocks false.

(** ** Inodes *)

Fixpoint first_unset (byte : Z) (bits : list Z) : out (option Z) :=
  match bits with
  | [] => Ret None
  | bit :: bits => s ← shr_u 8 byte bit; if Z.land s 1 =? 0 then Ret (Some bit) else first_unset byte bits
  end.

(** [iter().position(|byte| *byte != u8::MAX)] and the byte there. *)
Fixpoint position_not_full (l : list Z) (index : Z) : option (Z * Z) :=
  match l with
  | [] => None
  | byte :: l => if negb (byte =? 255) then Some (index, byte) else position_not_full l (index + 1)
  end.

Fixpoint free_inode_loop fs (gs : list Z) : out (result FsErr Z * Ext2 S) :=
  match gs with
  | [] => Ret (Err (Fs NotEnoughInodes), fs)
  | group :: gs =>
      let? (bitmap, fs) := get_inode_bitmap fs group in
      match position_not_full (bm_inner bitmap) 0 with
      | None => free_inode_loop fs gs
      | Some (index, byte) =>
          o ← first_unset byte (range 0 8);
          match o with
          | None => free_inode_loop fs gs
          | Some bit =>
              x ← mul_u 32 group (inodes_per_group (base (superblock fs)));
              y ← mul_u 32 8 index;
              x ← add_u 32 x y;
              x ← add_u 32 x bit;
              x ← add_u 32 x 1;
              Ret (Ok x, fs)
          end
      end
  end.

Definition free_inode fs : out (result FsErr Z * Ext2 S) :=
  let? (_, fs) := (if cache fs then Ret (Ok tt, fs) else update_inner_superblock fs) in
  total ← block_group_count (superblock fs);
  free_inode_loop fs (range 0 total).

(** The bit of an inode, in the byte at [address]. *)
Definition flip_inode fs (address inode_offset inode_number : Z) (usage : bool) : out (result FsErr unit * Ext2 S) :=
  end_ ← add_u 64 address 1;
  let? (sl, fs) := on_device fs (dev_slice (device fs) address end_) in
  byte ← index sl 0;
  s ← shr_u 8 byte inode_offset;
  if usage && (Z.land s 1 =? 1) then Ret (Err (Fs (InodeAlreadyInUse inode_number)), fs)
  else if negb usage && (Z.land s 1 =? 0) then Ret (Err (Fs (InodeAlreadyFree inode_number)), fs)
  else
    m ← shl_u 8 1 inode_offset;
    on_device fs (dev_commit (device fs) address [Z.lxor byte m]).

Definition locate_inode fs (inode_number : Z) (usage : bool) : out (result FsErr unit * Ext2 S) :=
  let sb := superblock fs in
  count ← (if usage then sub_u 32 (free_inodes_count (base sb)) 1 else add_u 32 (free_inodes_count (base sb)) 1);
  let sb := set_base sb (b_set_free_inodes (base sb) count) in
  let? (_, fs) := set_superblock fs sb in
  group ← Inode_block_group sb inode_number;
  let? (d, fs) := Group_parse fs group in
  count ← (if usage then sub_u 16 (bg_free_inodes_count d) 1 else add_u 16 (bg_free_inodes_count d) 1);
  let? (_, fs) := Group_write_on_device fs group (set_group_inodes d count) in
  bs ← block_size sb;
  bitmap_starting_byte ← mul_u 64 (inode_bitmap d) bs;
  gi ← Inode_group_index sb inode_number;
  let inode_index := gi / 8 in
  n1 ← sub_u 32 inode_number 1;
  let inode_offset := n1 mod 8 in
  bitmap_inode_address ← add_u 64 bitmap_starting_byte inode_index;
  flip_inode fs bitmap_inode_address inode_offset inode_number usage.

Definition allocate_inode fs (inode_number mode uid gid flags osd1 : Z) (osd2 : list Z) : out (result FsErr unit * Ext2 S) :=
  let? (_, fs) := locate_inode fs inode_number true in
  let inode := Inode_create (superblock fs) mode uid gid flags osd1 osd2 in
  Inode_write_on_device fs inode_number inode.

End Alloc.

(** ** Free bits

    Bit [i] of a bitmap is bit [i mod 8] of its byte [i / 8]; it is set when what it stands for is
    in use. *)

Definition bit (l : list Z) (i : Z) : bool :=
  match l !! Z.to_nat (i / 8) with Some x => Z.testbit x (i mod 8) | None => true end.

Definition free_in_byte (k x : Z) : list Z := (λ b, 8 * k + b) <$> filter (λ b, Z.testbit x b = false) (range 0 8).

(** The unset bits of bytes that begin with byte [k]. *)
Definition free_from (k : Z) (l : list Z) : list Z :=
  filter (λ i, bit l (i - 8 * k) = false) (range (8 * k) (8 * k + 8 * zlen l)).
Definition free_bits (l : list Z) : list Z := free_from 0 l.

Lemma elem_of_free_bits l i : i ∈ free_bits l ↔ bit l i = false ∧ 0 ≤ i < 8 * zlen l.
Proof. unfold free_bits, free_from. rewrite list_elem_of_filter, elem_of_range. rewrite Z.mul_0_r, Z.sub_0_r. done. Qed.

Lemma NoDup_free_bits l : NoDup (free_bits l).
Proof. unfold free_bits, free_from, range. apply NoDup_filter, NoDup_seqZ. Qed.

Lemma zlen_free_bits l : 0 ≤ zlen (free_bits l) ≤ 8 * zlen l.
Proof.
  split; [apply zlen_nonneg|]. unfold free_bits, free_from, zlen at 1.
  etrans; [apply inj_le, length_filter|]. unfold range. rewrite length_seqZ. pose proof (zlen_nonneg l). lia.
Qed.

Lemma filter_map_comm {A B} (p : B → Prop) `{∀ x, Decision (p x)} (f : A → B) (l : list A) :
  filter p (f <$> l) = f <$> filter (λ x, p (f x)) l.
Proof.
  induction l as [|x l IH]; [done|]. rewrite fmap_cons, !filter_cons. cbn. by repeat case_decide; rewrite ?fmap_cons, IH.
Qed.

Lemma free_from_nil k : free_from k [] = [].
Proof. unfold free_from. by rewrite range_nil by (change (zlen []) with 0; lia). Qed.

Lemma free_from_cons k x l : free_from k (x :: l) = free_in_byte k x ++ free_from (k + 1) l.
Proof.
  unfold free_from. rewrite zlen_cons. pose proof (zlen_nonneg l).
  rewrite (range_app _ (8 * k + 8)), filter_app by lia. f_equal.
  - assert (range (8 * k) (8 * k + 8) = Z.add (8 * k) <$> range 0 8) as ->
      by (unfold range; rewrite fmap_add_seqZ; f_equal; lia).
    rewrite filter_map_comm. apply (f_equal (fmap (Z.add (8 * k)))). apply filter_ext_in. intros b Hb%elem_of_range.
    replace (8 * k + b - 8 * k) with b by lia. unfold bit. rewrite Z.div_small, Z.mod_small by lia. done.
  - replace (8 * k + 8 * (1 + zlen l)) with (8 * (k + 1) + 8 * zlen l) by lia.
    replace (8 * k + 8) with (8 * (k + 1)) by lia. apply filter_ext_in. intros i Hi%elem_of_range. unfold bit.
    replace (i - 8 * k) with (i - 8 * (k + 1) + 1 * 8) by lia. rewrite Z.div_add, Z.mod_add by lia.
    pose proof (Z.div_pos (i - 8 * (k + 1)) 8 ltac:(lia) ltac:(lia)).
    replace (Z.to_nat ((i - 8 * (k + 1)) / 8 + 1)) with (Datatypes.S (Z.to_nat ((i - 8 * (k + 1)) / 8))) by lia. done.
Qed.

Lemma zlen_free_in_byte k x : zlen (free_in_byte k x) = zlen (free_in_byte 0 x).
Proof. unfold free_in_byte, zlen. by rewrite !length_fmap. Qed.

Lemma land_shr x b : 0 ≤ b → Z.land (Z.shiftr x b) 1 = Z.b2z (Z.testbit x b).
Proof.
  intros Hb. change 1 with (Z.ones 1). rewrite Z.land_ones, Z.shiftr_div_pow2, Z.testbit_spec' by lia. done.
Qed.

(** The sums of pairs, nibbles and halves are the number of set bits. *)
Lemma count_unset_ok {P : Profile} x : is_byte x →
  (count ← count_ones_u8 x; sub_u 32 8 count) = Ret (zlen (free_in_byte 0 x)).
Proof.
  intros Hx. assert (forallb (λ x, match (count ← count_ones_u8 x; sub_u 32 8 count) with
    | Ret c => c =? zlen (free_in_byte 0 x) | Panic => false end) (range 0 256) = true) as H by (destruct P; vm_compute; reflexivity).
  rewrite forallb_forall in H. specialize (H x). rewrite <- list_elem_of_In in H. specialize (H (proj2 (elem_of_range 0 256 x) Hx)).
  cbv beta in H. destruct (count ← count_ones_u8 x; _); [|done]. f_equal. lia.
Qed.

(** What the bytes found hold. *)
Definition flat_free (taken : list (Z * Z)) : list Z := concat ((λ t, free_in_byte t.1 t.2) <$> taken).

Lemma flat_free_snoc taken t : flat_free (taken ++ [t]) = flat_free taken ++ free_in_byte t.1 t.2.
Proof. unfold flat_free. rewrite fmap_app, concat_app. cbn. by rewrite app_nil_r. Qed.

Lemma find_unset_ok {P : Profile} n l : ∀ k taken, Forall is_byte l → zlen (flat_free taken) + 8 * zlen l < 2 ^ 63 →
  ∃ taken' p q, find_to_count_loop n (λ byte, count ← count_ones_u8 byte; sub_u 32 8 count) l k (zlen (flat_free taken)) taken = Ret taken' ∧
    free_from k l = p ++ q ∧ flat_free taken' = flat_free taken ++ p ∧ (q = [] ∨ n ≤ zlen (flat_free taken')).
Proof.
  induction l as [|x l IH]; intros k taken Hl Hb; cbn [find_to_count_loop].
  { exists taken, [], []. rewrite free_from_nil. split_and!; rewrite ?app_nil_r; auto. }
  apply Forall_cons in Hl as [Hx Hl]. rewrite count_unset_ok by done. run. rewrite <- (zlen_free_in_byte k x).
  rewrite zlen_cons in Hb. pose proof (zlen_nonneg l). pose proof (zlen_nonneg (flat_free taken)).
  pose proof (zlen_nonneg (free_in_byte k x)).
  assert (zlen (free_in_byte k x) ≤ 8).
  { unfold free_in_byte, zlen. rewrite length_fmap. etrans; [apply inj_le, length_filter|]. done. }
  rewrite free_from_cons. case_bool.
  - rewrite add_u_ok by lia. run. rewrite <- zlen_app. change (free_in_byte k x) with (free_in_byte (k, x).1 (k, x).2).
    rewrite <- flat_free_snoc. case_bool.
    + exists (taken ++ [(k, x)]), (free_in_byte k x), (free_from (k + 1) l). rewrite flat_free_snoc. split_and!; [done..|]. right.
      by rewrite <- flat_free_snoc.
    + destruct (IH (k + 1) (taken ++ [(k, x)]) Hl) as (t' & p & q & -> & E1 & E2 & E3).
      { rewrite flat_free_snoc, zlen_app. cbn [fst snd]. lia. }
      exists t', (free_in_byte k x ++ p), q. cbn [fst snd]. rewrite E1, <- app_assoc. split_and!; [done..| |done].
      rewrite E2, flat_free_snoc, <- app_assoc. done.
  - assert (free_in_byte k x = []) as Hn by (destruct (free_in_byte k x); [done|rewrite zlen_cons in *; pose proof (zlen_nonneg l0); lia]).
    rewrite Hn. apply IH; [done|lia].
Qed.

(** ** Free blocks *)

Definition block_no (b : Base) (group i : Z) : Z := group * blocks_per_group b + i + first_data_block b.

(** The free blocks of a group and of a volume. *)
Definition group_free (X : Vol) (g : Z) : list Z := block_no (base (vol_sb X)) g <$> free_bits (vol_area X ABlocks g).
Definition free_list (X : Vol) : list Z := concat (group_free X <$> range 0 (groups (vol_sb X))).

(** The free inodes, numbered from one. *)
Definition group_free_inodes (X : Vol) (g : Z) : list Z :=
  (λ i, g * inodes_per_group (base (vol_sb X)) + i + 1) <$> free_bits (vol_area X AInodes g).
Definition free_inode_list (X : Vol) : list Z := concat (group_free_inodes X <$> range 0 (groups (vol_sb X))).

(** The counts of the groups and of the superblock are exact. *)
Record Counted (X : Vol) : Prop := {
  ct_blocks g : 0 ≤ g < groups (vol_sb X) → bg_free_blocks_count (vol_group X g) = zlen (free_bits (vol_area X ABlocks g));
  ct_inodes g : 0 ≤ g < groups (vol_sb X) → bg_free_inodes_count (vol_group X g) = zlen (free_bits (vol_area X AInodes g));
  ct_all_blocks : free_blocks_count (base (vol_sb X)) = zlen (free_list X);
  ct_all_inodes : free_inodes_count (base (vol_sb X)) = zlen (free_inode_list X);
}.

(** Pushing stops at [n] elements. *)
Definition settle (n : Z) (l : list Z) : bool * list Z := if n <=? zlen l then (true, take (Z.to_nat n) l) else (false, l).

Lemma settle_app n l m : settle n (l ++ m) = if n <=? zlen l then (true, take (Z.to_nat n) l) else settle n (l ++ m).
Proof.
  case_bool; [|done]. unfold settle. rewrite zlen_app. pose proof (zlen_nonneg m). rewrite (proj2 (Z.leb_le _ _)) by lia.
  rewrite take_app_le; [done|]. unfold zlen in *. lia.
Qed.

Lemma settle_more n l : zlen l < n → settle n l = (false, l).
Proof. intros H. unfold settle. by rewrite (proj2 (Z.leb_gt _ _)). Qed.

Section AllocProofs.
Context {P : Profile} {BF : Bitflags} {S : Type} {ST : Storage S} {V : View S} {FS : FlatStorage S} {ES : EndSeek S}.
Implicit Types fs : Ext2 S.

Lemma push_bits_ok (b : Base) g k x n bits : ∀ acc, 0 ≤ first_data_block b → 0 ≤ g * blocks_per_group b → 0 ≤ k → block_no b g (8 * k + 8) < 2 ^ 32 →
  Forall (λ i, 0 ≤ i < 8) bits → zlen acc < n →
  push_bits b g k x n bits acc = Ret (settle n (acc ++ (block_no b g <$> ((λ i, 8 * k + i) <$> filter (λ i, Z.testbit x i = false) bits)))).
Proof.
  unfold block_no. intros acc Hb Hg Hk Hs Hbits. revert acc. induction Hbits as [|i bits Hi Hbits IH]; intros acc Hacc; cbn [push_bits].
  { cbn. by rewrite app_nil_r, settle_more. }
  rewrite shr_u_ok by lia. run. rewrite land_shr, filter_cons by lia. destruct (Z.testbit x i); cbn [Z.b2z Z.eqb].
  - rewrite decide_False by done. by apply IH.
  - rewrite decide_True by done. rewrite (mul_u_ok 32 g) by lia. run. rewrite (mul_u_ok 32 k) by lia. run.
    rewrite add_u_ok by lia. run. rewrite add_u_ok by lia. run. rewrite add_u_ok by lia. run. rewrite !fmap_cons.
    replace (g * blocks_per_group b + k * 8 + i + first_data_block b) with (g * blocks_per_group b + (8 * k + i) + first_data_block b) by lia.
    set (y := g * blocks_per_group b + (8 * k + i) + first_data_block b).
    assert (zlen (acc ++ [y]) = zlen acc + 1) as Hz by (by rewrite zlen_app).
    match goal with |- context [settle n (acc ++ y :: ?r)] => replace (acc ++ y :: r) with ((acc ++ [y]) ++ r) by (by rewrite <- app_assoc) end.
    case_bool.
    + rewrite settle_app, (proj2 (Z.leb_le _ _)) by lia. by rewrite take_ge by (unfold zlen in *; lia).
    + apply IH. lia.
Qed.

Lemma push_bytes_ok (b : Base) g n found : ∀ acc, 0 ≤ first_data_block b → 0 ≤ g * blocks_per_group b →
  Forall (λ t, 0 ≤ t.1 ∧ block_no b g (8 * t.1 + 8) < 2 ^ 32) found → zlen acc < n →
  push_bytes b g n found acc = Ret (settle n (acc ++ (block_no b g <$> flat_free found))).
Proof.
  intros acc Hb Hg Hf. revert acc. induction Hf as [|[k x] found [Hk Hs] Hf IH]; intros acc Hacc; cbn [push_bytes].
  { cbn. by rewrite app_nil_r, settle_more. }
  cbn [fst] in *. rewrite push_bits_ok by (done || (apply Forall_forall; intros i Hi%elem_of_range; lia)). run.
  unfold flat_free. cbn [fmap list_fmap concat fst snd]. rewrite fmap_app, app_assoc.
  fold (free_in_byte k x). fold (flat_free found). set (a := acc ++ (block_no b g <$> free_in_byte k x)).
  unfold settle at 1. case_bool.
  - rewrite settle_app, (proj2 (Z.leb_le _ _)) by lia. done.
  - apply IH. lia.
Qed.

(** The bytes found in a group are at indices of its bitmap. *)
Lemma found_range n count l : ∀ k c taken taken', find_to_count_loop n count l k c taken = Ret taken' →
  ∃ more, taken' = taken ++ more ∧ Forall (λ t, k ≤ t.1 < k + zlen l) more.
Proof.
  induction l as [|x l IH]; intros k c taken taken'; cbn [find_to_count_loop].
  { intros [= <-]. exists []. by rewrite app_nil_r. }
  rewrite zlen_cons. pose proof (zlen_nonneg l). destruct (count x) as [cx|]; run; [|done]. case_bool.
  - destruct (add_u 64 c cx) as [c'|]; run; [|done]. case_bool.
    + intros [= <-]. exists [(k, x)]. split; [done|]. constructor; [cbn; lia|done].
    + intros (more & -> & Hm)%IH. exists ((k, x) :: more). rewrite <- app_assoc. split; [done|].
      constructor; [cbn; lia|]. eapply Forall_impl; [exact Hm|]. cbn. lia.
  - intros (more & -> & Hm)%IH. exists more. split; [done|]. eapply Forall_impl; [exact Hm|]. cbn. lia.
Qed.

Lemma get_block_bitmap_ok fs X g : Shows fs X → 0 ≤ g < groups (vol_sb X) →
  ∃ fs', get_block_bitmap fs g = Ret (Ok (mkBitmap (vol_area X ABlocks g) (area_start (vol_sb X) (vol_group X g) ABlocks) (area_len (vol_sb X) ABlocks)), fs') ∧
    Shows fs' X ∧ Mounted fs fs'.
Proof.
  intros H Hg. unfold get_block_bitmap. destruct (Group_parse_ok fs X g H Hg) as (fs1 & -> & H1 & M1). run.
  pose proof (sh_dev _ _ H1) as Hd. pose proof (ds_wf _ _ Hd) as Hw. destruct (block_size_ok _ Hw) as [Eb Hb].
  rewrite (sh_super _ _ H1), Eb. run.
  destruct (area_range (vol_sb X) (vol_group X g) ABlocks Hw) as (A1 & A2 & A3); [by apply Hd|].
  unfold area_start in A2. cbn [area_block area_len] in *. rewrite mul_u_ok by lia. run. unfold Bitmap_new. rewrite add_u_ok by lia. run.
  destruct (area_slice_ok fs1 X g ABlocks H1 Hg) as (fs2 & E & H2 & M2). unfold area_start in *. cbn [area_block area_len] in *. rewrite E. run.
  eexists. split; [done|]. split; [done|by etrans].
Qed.

Lemma get_inode_bitmap_ok fs X g : Shows fs X → 0 ≤ g < groups (vol_sb X) →
  ∃ fs', get_inode_bitmap fs g = Ret (Ok (mkBitmap (vol_area X AInodes g) (area_start (vol_sb X) (vol_group X g) AInodes) (area_len (vol_sb X) AInodes)), fs') ∧
    Shows fs' X ∧ Mounted fs fs'.
Proof.
  intros H Hg. unfold get_inode_bitmap. destruct (Group_parse_ok fs X g H Hg) as (fs1 & -> & H1 & M1). run.
  pose proof (sh_dev _ _ H1) as Hd. pose proof (ds_wf _ _ Hd) as Hw. destruct (block_size_ok _ Hw) as [Eb Hb].
  rewrite (sh_super _ _ H1), Eb. run.
  destruct (area_range (vol_sb X) (vol_group X g) AInodes Hw) as (A1 & A2 & A3); [by apply Hd|].
  unfold area_start in A2. cbn [area_block area_len] in *. rewrite mul_u_ok by lia. run. unfold Bitmap_new. rewrite add_u_ok by lia. run.
  destruct (area_slice_ok fs1 X g AInodes H1 Hg) as (fs2 & E & H2 & M2). unfold area_start in *. cbn [area_block area_len] in *. rewrite E. run.
  eexists. split; [done|]. split; [done|by etrans].
Qed.

(** Searching goes through the groups from [start] on, around the end. *)
Definition rotated (sb : Superblock) (start : Z) : list Z := (λ c, (c + start) mod groups sb) <$> range 0 (groups sb).

Definition found_blocks (n : Z) (all : list Z) : result FsErr (list Z) :=
  if n <=? zlen all then Ok (take (Z.to_nat n) all) else Err (Fs (NotEnoughFreeBlocks n (zlen all))).

Lemma found_blocks_app n l m : n ≤ zlen l → found_blocks n (l ++ m) = Ok (take (Z.to_nat n) l).
Proof.
  intros H. unfold found_blocks. rewrite zlen_app. pose proof (zlen_nonneg m). rewrite (proj2 (Z.leb_le _ _)) by lia.
  rewrite take_app_le; [done|]. unfold zlen in *. lia.
Qed.

Lemma free_bits_le l : free_bits l = [] ↔ zlen (free_bits l) ≤ 0.
Proof. split; [by intros ->|]. destruct (free_bits l) as [|i r]; [done|]. rewrite zlen_cons. pose proof (zlen_nonneg r). lia. Qed.

Lemma free_blocks_loop_ok X n start counts : ∀ fs acc, Shows fs X → Counted X → 0 ≤ start → start + groups (vol_sb X) < 2 ^ 32 →
  Forall (λ c, 0 ≤ c < groups (vol_sb X)) counts → zlen acc < n →
  ∃ fs', free_blocks_loop fs n start (groups (vol_sb X)) counts acc =
      Ret (found_blocks n (acc ++ concat (group_free X <$> ((λ c, (c + start) mod groups (vol_sb X)) <$> counts))), fs') ∧
    Shows fs' X ∧ Mounted fs fs'.
Proof.
  intros fs acc H Hc Hs Hsg Hcs. revert fs acc H. induction Hcs as [|c counts Hc1 Hcs IH]; intros fs acc H Hacc; cbn [free_blocks_loop].
  { exists fs. cbn. rewrite app_nil_r. unfold found_blocks. by rewrite (proj2 (Z.leb_gt _ _)) by lia. }
  rewrite add_u_ok by lia. run. unfold rem_u. rewrite (proj2 (Z.eqb_neq _ _)) by lia. run. rewrite !fmap_cons. cbn [concat].
  set (g := (c + start) mod groups (vol_sb X)). assert (0 ≤ g < groups (vol_sb X)) as Hg by (apply Z.mod_pos_bound; lia).
  destruct (Group_parse_ok fs X g H Hg) as (fs1 & -> & H1 & M1). run. rewrite (ct_blocks _ Hc g Hg). case_bool.
  - destruct (get_block_bitmap_ok fs1 X g H1 Hg) as (fs2 & -> & H2 & M2). run.
    pose proof (sh_dev _ _ H2) as Hd. pose proof (ds_wf _ _ Hd) as Hw.
    destruct (Super_wf_spec _ Hw) as (Wbc & Wbpg & Wb8 & Wipg & Wi8 & Wlog & Wfdb & Wtot & Wic & Wic2 & Wgr & Wisz).
    destruct (zlen_area _ X g ABlocks Hd Hg) as [Hz Hby]. cbn [area_len] in Hz.
    pose proof (Z.div_mod (blocks_per_group (base (vol_sb X))) 8 ltac:(lia)) as Hdm.
    unfold find_n_unset_bits, find_to_count. cbn [bm_inner].
    destruct (find_unset_ok n (vol_area X ABlocks g) 0 [] Hby) as (found & p & q & Ef & Ep & Et & Hq).
    { change (zlen (flat_free [])) with 0. lia. }
    change (zlen (flat_free [])) with 0 in Ef. rewrite Ef. run. cbn [app] in Et. change (flat_free []) with (@nil Z) in Et. cbn [app] in Et.
    destruct (found_range _ _ _ _ _ _ _ Ef) as (more & -> & Hmore). cbn [app] in *.
    rewrite (sh_super _ _ H2). rewrite push_bytes_ok; [|lia|nia| |done].
    2: { eapply Forall_impl; [exact Hmore|]. intros t Ht. cbn in Ht. split; [lia|]. unfold block_no.
      assert (g * blocks_per_group (base (vol_sb X)) + blocks_per_group (base (vol_sb X)) ≤ groups (vol_sb X) * blocks_per_group (base (vol_sb X))) by nia. lia. }
    run. rewrite Et. assert (group_free X g = (block_no (base (vol_sb X)) g <$> p) ++ (block_no (base (vol_sb X)) g <$> q)) as Eg.
    { unfold group_free, free_bits. by rewrite Ep, fmap_app. }
    rewrite Eg, <- app_assoc, !app_assoc. set (a := acc ++ (block_no (base (vol_sb X)) g <$> p)). unfold settle.
    case_bool.
    + exists fs2. rewrite <- (app_assoc a), found_blocks_app by lia. split; [done|]. split; [done|by etrans].
    + assert (q = []) as ->.
      { destruct Hq as [?|Hq]; [done|]. unfold a in *. rewrite zlen_app in *. rewrite Et in Hq.
        assert (zlen (block_no (base (vol_sb X)) g <$> p) = zlen p) by (unfold zlen; by rewrite length_fmap). pose proof (zlen_nonneg acc). lia. }
      rewrite app_nil_r. destruct (IH fs2 a H2) as (fs3 & -> & H3 & M3); [lia|].
      exists fs3. split; [done|]. split; [done|]. etrans; [exact M1|]. by etrans.
  - assert (group_free X g = []) as -> by (unfold group_free; by rewrite (proj2 (free_bits_le _))).
    cbn [app]. destruct (IH fs1 acc H1 Hacc) as (fs3 & -> & H3 & M3). exists fs3. split; [done|]. split; [done|by etrans].
Qed.

Lemma rotated_perm sb start : 1 ≤ groups sb → rotated sb start ≡ₚ range 0 (groups sb).
Proof.
  intros HG. apply NoDup_Permutation; [|apply NoDup_seqZ|].
  - unfold rotated. apply NoDup_fmap_2_strong; [|apply NoDup_seqZ]. intros x y Hx%elem_of_range Hy%elem_of_range E.
    pose proof (Z.div_mod (x + start) (groups sb) ltac:(lia)). pose proof (Z.div_mod (y + start) (groups sb) ltac:(lia)).
    rewrite E in *. assert ((x + start) / groups sb = (y + start) / groups sb) by nia. lia.
  - intros x. rewrite elem_of_range. unfold rotated. rewrite list_elem_of_fmap. split.
    + intros (y & -> & _). apply Z.mod_pos_bound. lia.
    + intros Hx. exists ((x - start) mod groups sb). split; [|apply elem_of_range, Z.mod_pos_bound; lia].
      rewrite Z.add_mod_idemp_l by lia. replace (x - start + start) with x by lia. by rewrite Z.mod_small.
Qed.

Lemma concat_perm {A} (l m : list (list A)) : l ≡ₚ m → concat l ≡ₚ concat m.
Proof. induction 1 as [| |x y l|]; cbn; [done|by f_equiv| |by etrans]. rewrite !app_assoc. f_equiv. apply Permutation_app_comm. Qed.

Lemma free_blocks_offset_ok fs X n start : Shows fs X → Counted X → 0 ≤ n < 2 ^ 32 → 0 ≤ start → start + groups (vol_sb X) < 2 ^ 32 →
  ∃ fs', free_blocks_offset fs n start = Ret (found_blocks n (concat (group_free X <$> rotated (vol_sb X) start)), fs') ∧
    Shows fs' X ∧ Mounted fs fs' ∧ concat (group_free X <$> rotated (vol_sb X) start) ≡ₚ free_list X.
Proof.
  intros H Hc Hn Hs Hsg. pose proof (sh_dev _ _ H) as Hd. pose proof (ds_wf _ _ Hd) as Hw.
  destruct (Super_wf_spec _ Hw) as (Wbc & Wbpg & Wb8 & Wipg & Wi8 & Wlog & Wfdb & Wtot & Wic & Wic2 & Wgr & Wisz).
  assert (concat (group_free X <$> rotated (vol_sb X) start) ≡ₚ free_list X) as Hp.
  { unfold free_list. apply concat_perm. f_equiv. apply rotated_perm. lia. }
  assert (zlen (concat (group_free X <$> rotated (vol_sb X) start)) = zlen (free_list X)) as Hz by (unfold zlen; by rewrite Hp).
  unfold free_blocks_offset. rewrite (sh_super _ _ H), (ct_all_blocks _ Hc). pose proof (zlen_nonneg (free_list X)).
  case_bool; [|case_bool].
  - exists fs. unfold found_blocks. rewrite Hz, (proj2 (Z.leb_le _ _)) by lia. subst n. by split_and!.
  - exists fs. unfold found_blocks. rewrite Hz, (proj2 (Z.leb_gt _ _)) by lia. by split_and!.
  - rewrite block_group_count_ok by done. run.
    destruct (free_blocks_loop_ok X n start (range 0 (groups (vol_sb X))) fs [] H Hc Hs Hsg) as (fs1 & -> & H1 & M1).
    { apply Forall_forall. intros c Hcr%elem_of_range. lia. }
    { change (zlen []) with 0. lia. }
    by exists fs1.
Qed.

(** ** Blocks and their bits *)

(** A number with a bit in the bitmap of a group. In the last group there can be bits behind the last block of the
    volume; the code takes them for blocks too, and volumes have them set. *)
Definition bitmap_block (sb : Superblock) (b : Z) : Prop :=
  first_data_block (base sb) ≤ b < first_data_block (base sb) + groups sb * blocks_per_group (base sb).
Definition exists_block (sb : Superblock) (b : Z) : Prop := first_data_block (base sb) ≤ b < blocks_count (base sb).
Definition grp (sb : Superblock) (b : Z) : Z := (b - first_data_block (base sb)) / blocks_per_group (base sb).
Definition idx (sb : Superblock) (b : Z) : Z := (b - first_data_block (base sb)) mod blocks_per_group (base sb).

Definition block_bit (X : Vol) (b : Z) : bool := bit (vol_area X ABlocks (grp (vol_sb X) b)) (idx (vol_sb X) b).

Lemma exists_bitmap sb b : Super_wf sb = true → exists_block sb b → bitmap_block sb b.
Proof.
  intros Hw Hb. destruct (Super_wf_spec _ Hw) as (Wbc & Wbpg & Wb8 & Wipg & Wi8 & Wlog & Wfdb & Wtot & Wic & Wic2 & Wgr & Wisz).
  unfold exists_block, bitmap_block, groups in *. destruct (div_ceil_spec (blocks_count (base sb)) (blocks_per_group (base sb))); lia.
Qed.

Lemma valid_place sb b : Super_wf sb = true → bitmap_block sb b →
  0 ≤ grp sb b < groups sb ∧ 0 ≤ idx sb b < blocks_per_group (base sb) ∧ b = block_no (base sb) (grp sb b) (idx sb b) ∧
  block_group sb b = Ret (grp sb b) ∧ group_index sb b = Ret (idx sb b).
Proof.
  intros Hw Hb. destruct (Super_wf_spec _ Hw) as (Wbc & Wbpg & Wb8 & Wipg & Wi8 & Wlog & Wfdb & Wtot & Wic & Wic2 & Wgr & Wisz).
  unfold bitmap_block, grp, idx, block_no, block_group, group_index in *. set (p := blocks_per_group (base sb)) in *.
  set (f := first_data_block (base sb)) in *. pose proof (Z.div_mod (b - f) p ltac:(lia)). pose proof (Z.mod_pos_bound (b - f) p ltac:(lia)).
  rewrite sub_u_ok by lia. run. unfold div_u, rem_u. rewrite (proj2 (Z.eqb_neq p 0)) by lia. split_and!; try done; try lia.
  - apply Z.div_pos; lia.
  - apply Z.div_lt_upper_bound; nia.
Qed.

Lemma concat_bind {A B} (f : A → list B) l : concat (f <$> l) = l ≫= f.
Proof. induction l as [|x l IH]; [done|]. cbn. by rewrite <- IH. Qed.

Lemma bitmap_len (s : S) X g : DevShows s X → 0 ≤ g < groups (vol_sb X) → 8 * zlen (vol_area X ABlocks g) = blocks_per_group (base (vol_sb X)).
Proof.
  intros H Hg. destruct (zlen_area s X g ABlocks H Hg) as [-> _]. cbn [area_len].
  destruct (Super_wf_spec _ (ds_wf _ _ H)) as (_ & _ & Wb8 & _).
  pose proof (Z.div_mod (blocks_per_group (base (vol_sb X))) 8 ltac:(lia)). lia.
Qed.

(** Numbered groups of [per] bits, the first number being [first]. *)
Definition numbered (per first : Z) (A : Z → list Z) (G : Z) : list Z :=
  concat ((λ g, (λ i, g * per + i + first) <$> free_bits (A g)) <$> range 0 G).

Lemma number_place per first g i : 0 ≤ i < per → (g * per + i + first - first) / per = g ∧ (g * per + i + first - first) mod per = i.
Proof.
  intros Hi. replace (g * per + i + first - first) with (i + g * per) by lia.
  rewrite Z.div_add, Z.mod_add by lia. by rewrite Z.div_small, Z.mod_small by lia.
Qed.

Lemma elem_of_numbered per first A G n : 0 < per → (∀ g, 0 ≤ g < G → 8 * zlen (A g) = per) →
  n ∈ numbered per first A G ↔ first ≤ n < first + G * per ∧ bit (A ((n - first) / per)) ((n - first) mod per) = false.
Proof.
  intros Hp HA. unfold numbered. rewrite concat_bind, list_elem_of_bind. split.
  - intros (g & (i & -> & [Hi Hr]%elem_of_free_bits)%list_elem_of_fmap & Hg%elem_of_range).
    rewrite HA in Hr by lia. destruct (number_place per first g i Hr) as [-> ->]. split; [nia|done].
  - intros [Hv Hb]. pose proof (Z.div_mod (n - first) per ltac:(lia)). pose proof (Z.mod_pos_bound (n - first) per ltac:(lia)).
    assert (0 ≤ (n - first) / per < G) as Hg by (split; [apply Z.div_pos; lia|apply Z.div_lt_upper_bound; nia]).
    exists ((n - first) / per). split; [|by apply elem_of_range]. apply list_elem_of_fmap. exists ((n - first) mod per).
    split; [lia|]. apply elem_of_free_bits. rewrite HA by lia. done.
Qed.

Lemma NoDup_numbered per first A G : 0 < per → (∀ g, 0 ≤ g < G → 8 * zlen (A g) = per) → NoDup (numbered per first A G).
Proof.
  intros Hp HA. unfold numbered. rewrite concat_bind. apply NoDup_bind.
  - intros g h n Hg%elem_of_range Hh%elem_of_range (i & -> & [_ Hi]%elem_of_free_bits)%list_elem_of_fmap
      (j & E & [_ Hj]%elem_of_free_bits)%list_elem_of_fmap.
    rewrite HA in Hi, Hj by lia. destruct (number_place per first g i Hi) as [<- _]. destruct (number_place per first h j Hj) as [<- _]. by rewrite E.
  - intros g Hg. apply NoDup_fmap_2; [|apply NoDup_free_bits]. intros i j. lia.
  - apply NoDup_seqZ.
Qed.

Lemma zlen_numbered per first A G (extra : list Z) : 0 < per → 0 ≤ G → (∀ g, 0 ≤ g < G → 8 * zlen (A g) = per) → NoDup extra →
  (∀ n, n ∈ extra → first ≤ n < first + G * per ∧ n ∉ numbered per first A G) → zlen extra + zlen (numbered per first A G) ≤ G * per.
Proof.
  intros Hp HG HA Hnd Hex. rewrite <- zlen_app. assert (0 ≤ G * per) by nia.
  assert (length (extra ++ numbered per first A G) ≤ length (range first (first + G * per)))%nat as Hl.
  { apply submseteq_length, NoDup_submseteq.
    - apply NoDup_app. split_and!; [done| |by apply NoDup_numbered]. intros n Hn. apply (Hex n Hn).
    - intros n [Hn|Hn]%elem_of_app; apply elem_of_range; [apply (Hex n Hn)|]. by apply elem_of_numbered in Hn as [? _]. }
  unfold range in Hl. rewrite length_seqZ in Hl. unfold zlen. lia.
Qed.

Lemma elem_of_free_list (s : S) X b : DevShows s X → b ∈ free_list X ↔ bitmap_block (vol_sb X) b ∧ block_bit X b = false.
Proof.
  intros H. destruct (Super_wf_spec _ (ds_wf _ _ H)) as (_ & Wbpg & _).
  apply (elem_of_numbered _ _ (vol_area X ABlocks)); [lia|]. intros g Hg. by apply (bitmap_len s).
Qed.

Lemma NoDup_free_list (s : S) X : DevShows s X → NoDup (free_list X).
Proof.
  intros H. destruct (Super_wf_spec _ (ds_wf _ _ H)) as (_ & Wbpg & _).
  apply (NoDup_numbered _ _ (vol_area X ABlocks)); [lia|]. intros g Hg. by apply (bitmap_len s).
Qed.

(** ** Flipping a bit *)

Definition flip_bit (l : list Z) (i : Z) : list Z :=
  match l !! Z.to_nat (i / 8) with
  | Some x => <[Z.to_nat (i / 8) := Z.lxor x (Z.shiftl 1 (i mod 8))]> l
  | None => l
  end.

Lemma zlen_flip l i : zlen (flip_bit l i) = zlen l.
Proof. unfold flip_bit. destruct (l !! _); [|done]. unfold zlen. by rewrite length_insert. Qed.

Lemma lxor_byte x k : is_byte x → 0 ≤ k < 8 → is_byte (Z.lxor x (Z.shiftl 1 k)).
Proof.
  unfold is_byte. change 256 with (2 ^ 8). intros Hx Hk. apply testbit_range; [lia| |].
  - apply Z.lxor_nonneg. split; [intros _; apply Z.shiftl_nonneg; lia|lia].
  - intros i Hi. rewrite Z.lxor_spec, (testbit_high x 8 i) by lia. rewrite Z.shiftl_1_l, Z.pow2_bits_false by lia. done.
Qed.

Lemma flip_bytes l i : Forall is_byte l → Forall is_byte (flip_bit l i).
Proof.
  intros Hl. unfold flip_bit. destruct (l !! _) as [x|] eqn:E; [|done]. apply Forall_insert; [done|].
  apply lxor_byte; [by eapply (Forall_lookup_1 _ _ _ _ Hl)|apply Z.mod_pos_bound; lia].
Qed.

Lemma bit_flip l i j : 0 ≤ i < 8 * zlen l → 0 ≤ j → bit (flip_bit l i) j = if decide (j = i) then negb (bit l i) else bit l j.
Proof.
  intros Hi Hj. unfold bit, flip_bit. pose proof (Z.div_pos i 8 ltac:(lia) ltac:(lia)). pose proof (Z.div_pos j 8 ltac:(lia) ltac:(lia)).
  pose proof (Z.div_mod i 8 ltac:(lia)). pose proof (Z.div_mod j 8 ltac:(lia)).
  pose proof (Z.mod_pos_bound i 8 ltac:(lia)). pose proof (Z.mod_pos_bound j 8 ltac:(lia)).
  destruct (lookup_lt_is_Some_2 l (Z.to_nat (i / 8))) as [x Hx]; [unfold zlen in *; lia|]. rewrite Hx.
  destruct (decide (j / 8 = i / 8)) as [E|E].
  - rewrite E, Hx, list_lookup_insert_eq by (by eapply lookup_lt_Some). rewrite Z.lxor_spec, Z.shiftl_1_l.
    rewrite Z.pow2_bits_eqb by lia. case_decide as Ej.
    + subst j. by rewrite Z.eqb_refl, xorb_true_r.
    + rewrite (proj2 (Z.eqb_neq _ _)) by lia. by rewrite xorb_false_r.
  - rewrite list_lookup_insert_ne by lia. rewrite decide_False by congruence. done.
Qed.

Lemma free_flip_used l i : 0 ≤ i < 8 * zlen l → bit l i = false → free_bits l ≡ₚ i :: free_bits (flip_bit l i).
Proof.
  intros Hi Hb. apply NoDup_Permutation; [apply NoDup_free_bits|constructor; [|apply NoDup_free_bits]|].
  - rewrite elem_of_free_bits, bit_flip, decide_True, Hb by (done || lia). by intros [? _].
  - intros j. rewrite elem_of_cons, !elem_of_free_bits, zlen_flip. destruct (decide (j = i)) as [->|Hne]; [split; [by left|done]|].
    split; intros H; [right|destruct H as [?|H]; [done|]]; (split; [|apply H]); rewrite ?bit_flip, ?decide_False in * by (done || lia); apply H.
Qed.

Lemma free_flip_freed l i : 0 ≤ i < 8 * zlen l → bit l i = true → free_bits (flip_bit l i) ≡ₚ i :: free_bits l.
Proof.
  intros Hi Hb. apply NoDup_Permutation; [apply NoDup_free_bits|constructor; [|apply NoDup_free_bits]|].
  - rewrite elem_of_free_bits, Hb. by intros [? _].
  - intros j. rewrite elem_of_cons, !elem_of_free_bits, zlen_flip. destruct (decide (j = i)) as [->|Hne].
    + rewrite bit_flip, decide_True, Hb by (done || lia). split; [by left|by intros _].
    + split; intros H; [right|destruct H as [?|H]; [done|]]; (split; [|apply H]); rewrite ?bit_flip, ?decide_False in * by (done || lia); apply H.
Qed.

Lemma zlen_flip_free l i u : 0 ≤ i < 8 * zlen l → bit l i = negb u →
  zlen (free_bits (flip_bit l i)) = zlen (free_bits l) + if u : bool then -1 else 1.
Proof.
  intros Hi Hb. unfold zlen at 1 2. destruct u.
  - rewrite (free_flip_used l i Hi Hb). cbn [length]. lia.
  - rewrite (free_flip_freed l i Hi Hb). cbn [length]. lia.
Qed.

Definition bad_block (usage : bool) (b : Z) : FsErr := Fs (if usage then BlockAlreadyInUse b else BlockAlreadyFree b).

Lemma flip_block_ok sb bm b usage : Super_wf sb = true → bitmap_block sb b → 8 * zlen (bm_inner bm) = blocks_per_group (base sb) →
  flip_block sb bm b usage =
    Ret (if eqb (bit (bm_inner bm) (idx sb b)) usage then Err (bad_block usage b) else Ok (set_inner bm (flip_bit (bm_inner bm) (idx sb b)))).
Proof.
  intros Hw Hv Hz. destruct (valid_place _ b Hw Hv) as (_ & Hi & _ & _ & Eg). unfold flip_block. rewrite Eg. run.
  unfold bit, flip_bit. pose proof (Z.div_mod (idx sb b) 8 ltac:(lia)). pose proof (Z.mod_pos_bound (idx sb b) 8 ltac:(lia)).
  pose proof (Z.div_pos (idx sb b) 8 ltac:(lia) ltac:(lia)).
  destruct (lookup_lt_is_Some_2 (bm_inner bm) (Z.to_nat (idx sb b / 8))) as [x Hx]; [unfold zlen in *; lia|]. rewrite Hx.
  rewrite shr_u_ok by lia. run. rewrite land_shr by lia. rewrite shl_u_ok by lia. run.
  assert (wrap 8 (Z.shiftl 1 (idx sb b mod 8)) = Z.shiftl 1 (idx sb b mod 8)) as ->.
  { apply wrap_small. rewrite Z.shiftl_1_l. split; [apply Z.pow_nonneg; lia|]. apply Z.pow_lt_mono_r; lia. }
  by destruct usage, (Z.testbit x (idx sb b mod 8)).
Qed.

(** ** Writing back a group *)

Lemma set_group_blocks_fits d c : Group_fits d = true → 0 ≤ c < 65536 → Group_fits (set_group_blocks d c) = true.
Proof.
  intros H Hc. assert (in_range 16 c = true) by (by apply in_range_true). unfold Group_fits, set_group_blocks in *.
  cbn [block_bitmap inode_bitmap inode_table bg_free_blocks_count bg_free_inodes_count used_dirs_count pad reserved].
  repeat match type of H with (_ && _) = true => apply andb_true_iff in H as [H ?] end. by and_split.
Qed.

Definition written_back (X : Vol) (g : Z) (inner : list Z) (c : Z) : Vol :=
  with_group (with_area X ABlocks g inner) g (set_group_blocks (vol_group X g) c).

Lemma write_back_ok fs X g inner : Shows fs X → 0 ≤ g < groups (vol_sb X) → zlen inner = area_len (vol_sb X) ABlocks → Forall is_byte inner →
  ∃ fs', write_back fs (mkBitmap inner (area_start (vol_sb X) (vol_group X g) ABlocks) (area_len (vol_sb X) ABlocks)) = Ret (Ok tt, fs') ∧
    Shows fs' (with_area X ABlocks g inner) ∧ Mounted fs fs'.
Proof.
  intros H Hg Hz Hby. pose proof (sh_dev _ _ H) as Hd. unfold write_back. cbn [bm_start bm_length bm_inner].
  destruct (area_range (vol_sb X) (vol_group X g) ABlocks) as (A1 & A2 & A3); [apply Hd|by apply Hd|].
  rewrite add_u_ok by lia. run. destruct (area_slice_ok fs X g ABlocks H Hg) as (fs1 & -> & H1 & M1). run.
  destruct (zlen_area _ X g ABlocks Hd Hg) as [Hza _]. rewrite Hza, Hz, Z.eqb_refl. run.
  destruct (area_commit_ok fs1 X g ABlocks 0 inner H1 Hg) as (fs2 & E & H2 & M2); [done|lia|lia|done|].
  rewrite Z.add_0_r in E. rewrite E. exists fs2. rewrite splice_whole_prefix in H2 by lia.
  split; [done|]. split; [done|by etrans].
Qed.

Lemma update_block_group_ok fs X g inner k (usage : bool) : Shows fs X → 0 ≤ g < groups (vol_sb X) →
  zlen inner = area_len (vol_sb X) ABlocks → Forall is_byte inner →
  0 ≤ bg_free_blocks_count (vol_group X g) + (if usage then -1 else 1) * k < 65536 →
  ∃ fs', update_block_group fs g k (mkBitmap inner (area_start (vol_sb X) (vol_group X g) ABlocks) (area_len (vol_sb X) ABlocks)) usage = Ret (Ok tt, fs') ∧
    Shows fs' (written_back X g inner (bg_free_blocks_count (vol_group X g) + (if usage then -1 else 1) * k)) ∧ Mounted fs fs'.
Proof.
  intros H Hg Hz Hby Hk. unfold update_block_group. destruct (write_back_ok fs X g inner H Hg Hz Hby) as (fs1 & -> & H1 & M1). run.
  destruct (Group_parse_ok fs1 _ g H1 Hg) as (fs2 & -> & H2 & M2). run. cbn [vol_group with_area].
  assert ((if usage then sub_u 16 (bg_free_blocks_count (vol_group X g)) k else add_u 16 (bg_free_blocks_count (vol_group X g)) k) =
    Ret (bg_free_blocks_count (vol_group X g) + (if usage then -1 else 1) * k)) as ->.
  { destruct usage; [rewrite sub_u_ok|rewrite add_u_ok]; (done || lia || (f_equal; lia)). }
  run. destruct (Group_write_ok fs2 _ g (set_group_blocks (vol_group X g) (bg_free_blocks_count (vol_group X g) + (if usage then -1 else 1) * k)) H2 Hg)
    as (fs3 & -> & H3 & M3).
  { apply set_group_blocks_fits; [|done]. by apply (ds_group _ _ (sh_dev _ _ H)). }
  { by intros []. }
  exists fs3. split; [done|]. split; [done|]. etrans; [exact M1|]. by etrans.
Qed.

(** ** Allocating and freeing *)

(** [Y] is [X] with other block bitmaps and counts of free blocks in the groups. *)
Record Same (X Y : Vol) : Prop := {
  sa_sb : vol_sb Y = vol_sb X;
  sa_area a g : a ≠ ABlocks → vol_area Y a g = vol_area X a g;
  sa_data : vol_data Y = vol_data X;
  sa_group g : vol_group Y g = set_group_blocks (vol_group X g) (bg_free_blocks_count (vol_group Y g));
}.

Lemma set_group_same d : set_group_blocks d (bg_free_blocks_count d) = d.
Proof. by destruct d. Qed.

Lemma Same_refl X : Same X X.
Proof. split; [done..|]. intros g. by rewrite set_group_same. Qed.

Lemma Same_start X Y g a : Same X Y → area_start (vol_sb Y) (vol_group Y g) a = area_start (vol_sb X) (vol_group X g) a.
Proof. intros H. unfold area_start. rewrite (sa_sb _ _ H), (sa_group _ _ H). by destruct a. Qed.

Lemma Same_written X Y g inner c : Same X Y → Same X (written_back Y g inner c).
Proof.
  intros H. split; cbn.
  - apply H.
  - intros a h Ha. rewrite decide_False by (intros [? _]; congruence). by apply H.
  - apply H.
  - intros h. destruct (Z.eqb_spec h g) as [->|]; [|apply H]. cbn. by rewrite (sa_group _ _ H g).
Qed.

Definition GroupCounts (X : Vol) : Prop := ∀ g, 0 ≤ g < groups (vol_sb X) → bg_free_blocks_count (vol_group X g) = zlen (free_bits (vol_area X ABlocks g)).

(** In the loop: [done] have been flipped, those of group [g], of which there are [k] since the
    bitmap was read, in [inner] only. *)
Record Pending (X Y : Vol) (usage : bool) (g : Z) (inner : list Z) (k : Z) (done : list Z) : Prop := {
  pe_same : Same X Y;
  pe_counts : GroupCounts Y;
  pe_group : 0 ≤ g < groups (vol_sb X);
  pe_len : zlen inner = area_len (vol_sb X) ABlocks;
  pe_bytes : Forall is_byte inner;
  pe_nonneg : 0 ≤ k;
  pe_free : zlen (free_bits inner) = bg_free_blocks_count (vol_group Y g) + (if usage then -1 else 1) * k;
  pe_bit b : bitmap_block (vol_sb X) b →
    bit (if decide (grp (vol_sb X) b = g) then inner else vol_area Y ABlocks (grp (vol_sb X) b)) (idx (vol_sb X) b) =
    if decide (b ∈ done) then usage else block_bit X b;
}.

(** The bitmap of group [g] as the loop holds it. *)
Definition held_bitmap (X : Vol) (g : Z) (inner : list Z) : Bitmap :=
  mkBitmap inner (area_start (vol_sb X) (vol_group X g) ABlocks) (area_len (vol_sb X) ABlocks).

Lemma Pending_flush X Y usage g inner k done (s : S) : DevShows s X → Pending X Y usage g inner k done →
  let c := bg_free_blocks_count (vol_group Y g) + (if usage then -1 else 1) * k in
  0 ≤ c < 65536 ∧ Same X (written_back Y g inner c) ∧ GroupCounts (written_back Y g inner c) ∧
  ∀ b, bitmap_block (vol_sb X) b → block_bit (written_back Y g inner c) b = if decide (b ∈ done) then usage else block_bit X b.
Proof.
  intros Hd H. pose proof (ds_wf _ _ Hd) as Hw.
  destruct (Super_wf_spec _ Hw) as (Wbc & Wbpg & Wb8 & Wipg & Wi8 & Wlog & Wfdb & Wtot & Wic & Wic2 & Wgr & Wisz).
  cbn zeta. rewrite <- (pe_free _ _ _ _ _ _ _ H). split_and!.
  - apply zlen_nonneg.
  - pose proof (zlen_free_bits inner). rewrite (pe_len _ _ _ _ _ _ _ H) in *. cbn [area_len] in *.
    pose proof (Z.div_mod (blocks_per_group (base (vol_sb X))) 8 ltac:(lia)). lia.
  - apply Same_written, H.
  - intros h Hh. cbn in *. destruct (Z.eqb_spec h g) as [->|Hne].
    + rewrite decide_True by done. done.
    + rewrite decide_False by (intros [_ ?]; congruence). by apply H.
  - intros b Hb. rewrite <- (pe_bit _ _ _ _ _ _ _ H b Hb). unfold block_bit. cbn. rewrite (sa_sb _ _ (pe_same _ _ _ _ _ _ _ H)).
    destruct (decide (grp (vol_sb X) b = g)) as [E|E]; [by rewrite decide_True|by rewrite decide_False by (intros [_ ?]; congruence)].
Qed.

Lemma Pending_start X Y usage g done (s : S) : DevShows s Y → Same X Y → GroupCounts Y → 0 ≤ g < groups (vol_sb X) →
  (∀ b, bitmap_block (vol_sb X) b → block_bit Y b = if decide (b ∈ done) then usage else block_bit X b) →
  Pending X Y usage g (vol_area Y ABlocks g) 0 done.
Proof.
  intros Hd Hs Hc Hg Hb. pose proof (sa_sb _ _ Hs) as Es. rewrite <- Es in Hg. destruct (zlen_area s Y g ABlocks Hd Hg) as [Hz Hby].
  split; [done|done|by rewrite <- Es|by rewrite <- Es|done|done| |].
  - rewrite Z.mul_0_r, Z.add_0_r. symmetry. by apply Hc.
  - intros b Hv. rewrite <- Hb by done. unfold block_bit. rewrite Es. case_decide as E; [by rewrite E|done].
Qed.

Lemma decide_snoc {A} (l : list Z) b c (x y : A) : c ≠ b →
  (if decide (c ∈ l ++ [b]) then x else y) = if decide (c ∈ l) then x else y.
Proof.
  intros Hne. destruct (decide (c ∈ l)) as [Hin|Hin]; [rewrite decide_True|rewrite decide_False]; [done|apply elem_of_app; by left|done|].
  intros [?|?%list_elem_of_singleton]%elem_of_app; done.
Qed.

Lemma Pending_flip X Y usage g inner k done b (s t : S) : DevShows s X → DevShows t Y → Pending X Y usage g inner k done → bitmap_block (vol_sb X) b →
  grp (vol_sb X) b = g → b ∉ done → block_bit X b = negb usage →
  bit inner (idx (vol_sb X) b) = negb usage ∧ k + 1 < 65536 ∧
  Pending X Y usage g (flip_bit inner (idx (vol_sb X) b)) (k + 1) (done ++ [b]).
Proof.
  intros Hd Hdy H Hv Hg Hnew Hb. pose proof (ds_wf _ _ Hd) as Hw.
  destruct (Super_wf_spec _ Hw) as (Wbc & Wbpg & Wb8 & Wipg & Wi8 & Wlog & Wfdb & Wtot & Wic & Wic2 & Wgr & Wisz).
  destruct (valid_place _ b Hw Hv) as (_ & Hi & Hbn & _).
  assert (bit inner (idx (vol_sb X) b) = negb usage) as Hbit.
  { pose proof (pe_bit _ _ _ _ _ _ _ H b Hv) as E. rewrite decide_True in E by done. rewrite E, decide_False by done. done. }
  pose proof (pe_len _ _ _ _ _ _ _ H) as Hl. cbn [area_len] in Hl. pose proof (Z.div_mod (blocks_per_group (base (vol_sb X))) 8 ltac:(lia)).
  pose proof (zlen_flip_free inner (idx (vol_sb X) b) usage ltac:(lia) Hbit) as Hf. pose proof (pe_free _ _ _ _ _ _ _ H) as Hp.
  pose proof (zlen_free_bits (flip_bit inner (idx (vol_sb X) b))) as Hr. rewrite zlen_flip in Hr.
  pose proof (pe_group _ _ _ _ _ _ _ H) as Hgr. rewrite <- (sa_sb _ _ (pe_same _ _ _ _ _ _ _ H)) in Hgr.
  pose proof (pe_counts _ _ _ _ _ _ _ H g Hgr) as Hcg. pose proof (zlen_nonneg (free_bits (vol_area Y ABlocks g))).
  pose proof (zlen_free_bits (vol_area Y ABlocks g)) as Hry. rewrite (bitmap_len t Y g Hdy Hgr) in Hry.
  rewrite (sa_sb _ _ (pe_same _ _ _ _ _ _ _ H)) in Hry. pose proof (pe_nonneg _ _ _ _ _ _ _ H).
  split; [done|]. split; [destruct usage; lia|]. split; try apply H.
  - by rewrite zlen_flip, Hl.
  - apply flip_bytes, H.
  - lia.
  - rewrite Hf, Hp. destruct usage; lia.
  - intros c Hc. pose proof (pe_bit _ _ _ _ _ _ _ H c Hc) as E. destruct (valid_place _ c Hw Hc) as (_ & Hic & Hcn & _).
    destruct (decide (grp (vol_sb X) c = g)) as [Egc|Egc].
    + rewrite bit_flip by lia. destruct (decide (idx (vol_sb X) c = idx (vol_sb X) b)) as [Ei|Ei].
      * assert (c = b) as -> by congruence. rewrite decide_True by (apply elem_of_app; right; by apply list_elem_of_singleton). by rewrite Hbit, negb_involutive.
      * rewrite E. assert (c ≠ b) by congruence. by rewrite decide_snoc by done.
    + rewrite E. assert (c ≠ b) by congruence. by rewrite decide_snoc by done.
Qed.

Lemma locate_loop_ok X usage blocks : ∀ (s : S) fs Y g inner k done, DevShows s X → Shows fs Y → Pending X Y usage g inner k done → NoDup (done ++ blocks) →
  Forall (λ b, bitmap_block (vol_sb X) b ∧ block_bit X b = negb usage) blocks →
  ∃ fs' Y' g' inner' k', locate_loop fs usage g k (held_bitmap X g inner) blocks = Ret (Ok (g', k', held_bitmap X g' inner'), fs') ∧
    Shows fs' Y' ∧ Mounted fs fs' ∧ Pending X Y' usage g' inner' k' (done ++ blocks).
Proof.
  intros s fs Y g inner k done Hd. revert fs Y g inner k done. induction blocks as [|b blocks IH]; intros fs Y g inner k done H HP Hnd Hbs; cbn [locate_loop].
  { exists fs, Y, g, inner, k. by rewrite app_nil_r. }
  apply Forall_cons in Hbs as [[Hv Hb] Hbs]. pose proof (ds_wf _ _ Hd) as Hw. destruct (valid_place _ b Hw Hv) as (Hg & Hi & _ & Eg & _).
  pose proof (sa_sb _ _ (pe_same _ _ _ _ _ _ _ HP)) as Es. rewrite (sh_super _ _ H), Es, Eg. run.
  assert (b ∉ done) as Hnew by (apply NoDup_app in Hnd as (_ & Hdis & _); intros Hin; apply (Hdis b Hin), elem_of_cons; by left).
  assert (∃ fs1 Y1 inner1 k1, (if negb (grp (vol_sb X) b =? g) then
      let? (_, fs) := update_block_group fs g k (held_bitmap X g inner) usage in
      let? (bitmap, fs) := get_block_bitmap fs (grp (vol_sb X) b) in Ret (Ok (grp (vol_sb X) b, 0, bitmap), fs)
      else Ret (Ok (g, k, held_bitmap X g inner), fs)) = Ret (Ok (grp (vol_sb X) b, k1, held_bitmap X (grp (vol_sb X) b) inner1), fs1) ∧
    Shows fs1 Y1 ∧ Mounted fs fs1 ∧ Pending X Y1 usage (grp (vol_sb X) b) inner1 k1 done) as (fs1 & Y1 & inner1 & k1 & -> & H1 & M1 & HP1).
  { destruct (Z.eqb_spec (grp (vol_sb X) b) g) as [<-|Hne]; cbn [negb]; [by exists fs, Y, inner, k|].
    destruct (Pending_flush X Y usage g inner k done s Hd HP) as (Hc & Hs1 & Hc1 & Hb1).
    pose proof (pe_group _ _ _ _ _ _ _ HP) as Hgg. pose proof (pe_len _ _ _ _ _ _ _ HP) as Hl.
    unfold held_bitmap at 1. rewrite <- (Same_start X Y g ABlocks (pe_same _ _ _ _ _ _ _ HP)). rewrite <- Es in *.
    destruct (update_block_group_ok fs Y g inner k usage H Hgg Hl (pe_bytes _ _ _ _ _ _ _ HP) Hc) as (fs1 & -> & H1 & M1). run.
    set (Y1 := written_back Y g inner _) in *. change (vol_sb Y) with (vol_sb Y1) in Hg |- *.
    destruct (get_block_bitmap_ok fs1 Y1 _ H1 Hg) as (fs2 & -> & H2 & M2). run.
    exists fs2, Y1, (vol_area Y1 ABlocks (grp (vol_sb Y1) b)), 0. unfold held_bitmap.
    rewrite <- (Same_start X Y1 _ ABlocks Hs1), <- (sa_sb _ _ Hs1). split_and!; [done|done|by etrans|].
    rewrite (sa_sb _ _ Hs1). eapply Pending_start; [apply H2|done|done|by rewrite <- (sa_sb _ _ Hs1)|].
    intros c. rewrite <- (sa_sb _ _ Hs1). apply Hb1. }
  run. destruct (Pending_flip X Y1 usage _ inner1 k1 done b s _ Hd (sh_dev _ _ H1) HP1 Hv eq_refl Hnew Hb) as (Hbit & Hk & HP2).
  pose proof (pe_nonneg _ _ _ _ _ _ _ HP1). rewrite add_u_ok by lia. run.
  rewrite (sh_super _ _ H1), (sa_sb _ _ (pe_same _ _ _ _ _ _ _ HP1)).
  rewrite flip_block_ok; [|done|done|].
  2: { cbn [bm_inner held_bitmap]. rewrite (pe_len _ _ _ _ _ _ _ HP1). cbn [area_len]. destruct (Super_wf_spec _ Hw) as (_ & _ & Wb8 & _).
    pose proof (Z.div_mod (blocks_per_group (base (vol_sb X))) 8 ltac:(lia)). lia. }
  run. cbn [bm_inner held_bitmap]. rewrite Hbit. replace (eqb (negb usage) usage) with false by (by destruct usage).
  change (set_inner (held_bitmap X (grp (vol_sb X) b) inner1) ?l) with (held_bitmap X (grp (vol_sb X) b) l).
  destruct (IH fs1 Y1 _ _ _ (done ++ [b]) H1 HP2) as (fs2 & Y2 & g2 & i2 & k2 & -> & H2 & M2 & HP3); [by rewrite <- app_assoc|done|].
  exists fs2, Y2, g2, i2, k2. rewrite <- app_assoc in HP3. split_and!; [done|done|by etrans|done].
Qed.

(** What allocating or freeing [blocks] does to a volume. *)
Record Located (X Y : Vol) (blocks : list Z) (usage : bool) : Prop := {
  lo_sb : vol_sb Y = recount (vol_sb X) (free_blocks_count (base (vol_sb Y))) (free_inodes_count (base (vol_sb X)));
  lo_area a g : a ≠ ABlocks → vol_area Y a g = vol_area X a g;
  lo_data : vol_data Y = vol_data X;
  lo_group g : vol_group Y g = set_group_blocks (vol_group X g) (bg_free_blocks_count (vol_group Y g));
  lo_free : if usage then free_list X ≡ₚ blocks ++ free_list Y else free_list Y ≡ₚ blocks ++ free_list X;
}.

Lemma recount_same sb : recount sb (free_blocks_count (base sb)) (free_inodes_count (base sb)) = sb.
Proof. destruct sb as [[]|[] e]; done. Qed.

(** Volumes whose blocks differ in [blocks] only. *)
Lemma free_list_change (s t : S) X Y blocks usage : DevShows s X → DevShows t Y → Same X Y → NoDup blocks →
  Forall (λ b, bitmap_block (vol_sb X) b ∧ block_bit X b = negb usage) blocks →
  (∀ b, bitmap_block (vol_sb X) b → block_bit Y b = if decide (b ∈ blocks) then usage else block_bit X b) →
  if usage then free_list X ≡ₚ blocks ++ free_list Y else free_list Y ≡ₚ blocks ++ free_list X.
Proof.
  intros HX HY Hs Hnd Hbs Hb. rewrite Forall_forall in Hbs. pose proof (sa_sb _ _ Hs) as Es.
  destruct usage.
  - apply NoDup_Permutation; [by eapply NoDup_free_list| |].
    + apply NoDup_app. split_and!; [done| |by eapply NoDup_free_list]. intros b Hin. rewrite (elem_of_free_list t) by done. rewrite Es.
      intros [Hv Hf]. rewrite Hb, decide_True in Hf by done. done.
    + intros b. rewrite elem_of_app, (elem_of_free_list s X), (elem_of_free_list t Y) by done. rewrite Es. split.
      * intros [Hv Hf]. destruct (decide (b ∈ blocks)) as [|Hn]; [by left|right]. split; [done|]. by rewrite Hb, decide_False by done.
      * intros [Hin|[Hv Hf]]; [apply (Hbs b Hin)|]. split; [done|]. rewrite Hb in Hf by done. by case_decide.
  - apply NoDup_Permutation; [by eapply NoDup_free_list| |].
    + apply NoDup_app. split_and!; [done| |by eapply NoDup_free_list]. intros b Hin. rewrite (elem_of_free_list s) by done.
      intros [Hv Hf]. destruct (Hbs b Hin) as [_ E]. by rewrite E in Hf.
    + intros b. rewrite elem_of_app, (elem_of_free_list s X), (elem_of_free_list t Y) by done. rewrite Es. split.
      * intros [Hv Hf]. destruct (decide (b ∈ blocks)) as [|Hn]; [by left|right]. split; [done|]. by rewrite Hb, decide_False in Hf by done.
      * intros [Hin|[Hv Hf]]; (split; [first [done|by apply Hbs]|]); [rewrite Hb by (by apply Hbs); by rewrite decide_True by done|].
        rewrite Hb by done. by case_decide.
Qed.

Lemma zlen_free_list (s : S) X : DevShows s X → zlen (free_list X) ≤ groups (vol_sb X) * blocks_per_group (base (vol_sb X)).
Proof.
  intros H. destruct (Super_wf_spec _ (ds_wf _ _ H)) as (Wbc & Wbpg & Wb8 & Wipg & Wi8 & Wlog & Wfdb & Wtot & Wic & Wic2 & Wgr & Wisz).
  pose proof (zlen_numbered (blocks_per_group (base (vol_sb X))) (first_data_block (base (vol_sb X))) (vol_area X ABlocks) (groups (vol_sb X)) []) as Hz.
  change (zlen []) with 0 in Hz. apply Hz; [lia|lia| |constructor|by intros n ?%not_elem_of_nil]. intros g Hg. by apply (bitmap_len s).
Qed.

Lemma free_list_recount X b i : free_list (with_super X (recount (vol_sb X) b i)) = free_list X.
Proof. unfold free_list, group_free. cbn. by destruct (vol_sb X). Qed.

Lemma set_free_blocks_recount sb v : set_base sb (b_set_free_blocks (base sb) v) = recount sb v (free_inodes_count (base sb)).
Proof. by destruct sb. Qed.

Lemma locate_groups_ok fs X blocks usage : Shows fs X → Counted X → NoDup blocks →
  Forall (λ b, bitmap_block (vol_sb X) b ∧ block_bit X b = negb usage) blocks →
  ∃ fs' Y, match blocks with
    | [] => Ret (Ok tt, fs)
    | block :: _ =>
        group ← block_group (superblock fs) block;
        let? (bitmap, fs) := get_block_bitmap fs group in
        let? (r, fs) := locate_loop fs usage group 0 bitmap blocks in
        let '(group, changed, bitmap) := r in
        update_block_group fs group changed bitmap usage
    end = Ret (Ok tt, fs') ∧ Shows fs' Y ∧ Mounted fs fs' ∧ Same X Y ∧ GroupCounts Y ∧
    ∀ b, bitmap_block (vol_sb X) b → block_bit Y b = if decide (b ∈ blocks) then usage else block_bit X b.
Proof.
  intros H Hc Hnd Hbs. pose proof (sh_dev _ _ H) as Hd. pose proof (ds_wf _ _ Hd) as Hw.
  assert (GroupCounts X) as HG by exact (ct_blocks _ Hc).
  destruct blocks as [|b0 rest] eqn:Eb.
  { exists fs, X. split_and!; [done|done|done|apply Same_refl|done|]. intros b _. by rewrite decide_False by apply not_elem_of_nil. }
  rewrite <- Eb in *. assert (bitmap_block (vol_sb X) b0) as Hv0 by (subst blocks; by apply Forall_cons in Hbs as [[? _] _]).
  destruct (valid_place _ b0 Hw Hv0) as (Hg & _ & _ & Eg & _). rewrite (sh_super _ _ H), Eg. run.
  destruct (get_block_bitmap_ok fs X _ H Hg) as (fs1 & -> & H1 & M1). run.
  assert (Pending X X usage (grp (vol_sb X) b0) (vol_area X ABlocks (grp (vol_sb X) b0)) 0 []) as HP.
  { eapply Pending_start; [exact Hd|apply Same_refl|done|done|]. intros b _. by rewrite decide_False by apply not_elem_of_nil. }
  destruct (locate_loop_ok X usage blocks _ fs1 X _ _ 0 [] Hd H1 HP Hnd Hbs) as (fs2 & Y & g & inner & k & E & H2 & M2 & HP2).
  unfold held_bitmap at 1 in E. rewrite E. run. cbn [app] in HP2.
  destruct (Pending_flush X Y usage g inner k blocks _ Hd HP2) as (Hcn & Hs & Hgc & Hbit).
  pose proof (pe_group _ _ _ _ _ _ _ HP2) as Hgg. pose proof (pe_len _ _ _ _ _ _ _ HP2) as Hl.
  pose proof (pe_same _ _ _ _ _ _ _ HP2) as HsY. unfold held_bitmap. rewrite <- (Same_start X Y g ABlocks HsY), <- (sa_sb _ _ HsY) in *.
  destruct (update_block_group_ok fs2 Y g inner k usage H2 Hgg Hl (pe_bytes _ _ _ _ _ _ _ HP2) Hcn) as (fs3 & -> & H3 & M3).
  exists fs3. eexists. split_and!; [done|exact H3| |done|done|exact Hbit]. etrans; [exact M1|]. by etrans.
Qed.

Lemma Counted_located X Y v : Counted X → Same X Y → GroupCounts Y → v = zlen (free_list Y) →
  Counted (with_super Y (recount (vol_sb Y) v (free_inodes_count (base (vol_sb Y))))).
Proof.
  intros Hc Hs Hg ->. pose proof (sa_sb _ _ Hs) as Es. split.
  - intros g Hgr. apply Hg. by destruct (vol_sb Y).
  - intros g Hgr. cbn. rewrite (sa_group _ _ Hs), (sa_area _ _ Hs) by done. apply Hc. rewrite <- Es. by destruct (vol_sb Y).
  - rewrite free_list_recount. by destruct (vol_sb Y).
  - transitivity (free_inodes_count (base (vol_sb Y))); [by destruct (vol_sb Y)|]. rewrite Es, (ct_all_inodes _ Hc).
    unfold free_inode_list, group_free_inodes. cbn. replace (groups (recount _ _ _)) with (groups (vol_sb X)) by (rewrite <- Es; by destruct (vol_sb Y)).
    f_equal. f_equal. apply list_fmap_ext. intros k g _. rewrite (sa_area _ _ Hs) by done. f_equal.
    rewrite <- Es. by destruct (vol_sb Y).
Qed.

Lemma locate_blocks_ok fs X blocks usage : Shows fs X → Counted X → NoDup blocks →
  Forall (λ b, bitmap_block (vol_sb X) b ∧ block_bit X b = negb usage) blocks →
  ∃ fs' Y, locate_blocks fs blocks usage = Ret (Ok tt, fs') ∧ Shows fs' Y ∧ Counted Y ∧ Mounted fs fs' ∧ Located X Y blocks usage.
Proof.
  intros H Hc Hnd Hbs. unfold locate_blocks.
  assert (∃ fs1, (if cache fs then Ret (Ok tt, fs) else update_inner_superblock fs) = Ret (Ok tt, fs1) ∧ Shows fs1 X ∧ Mounted fs fs1) as (fs1 & -> & H1 & M1).
  { destruct (cache fs); [by exists fs|by apply update_inner_ok]. }
  run. destruct (locate_groups_ok fs1 X blocks usage H1 Hc Hnd Hbs) as (fs2 & Y & -> & H2 & M2 & Hs & Hg & Hb). run.
  pose proof (sh_dev _ _ H) as Hd. pose proof (sh_dev _ _ H2) as Hd2. pose proof (sa_sb _ _ Hs) as Es.
  pose proof (free_list_change _ _ X Y blocks usage Hd Hd2 Hs Hnd Hbs Hb) as HF.
  pose proof (zlen_free_list _ _ Hd) as BX. pose proof (zlen_free_list _ _ Hd2) as BY. rewrite Es in BY.
  destruct (Super_wf_spec _ (ds_wf _ _ Hd)) as (Wbc & Wbpg & Wb8 & Wipg & Wi8 & Wlog & Wfdb & Wtot & Wic & Wic2 & Wgr & Wisz).
  pose proof (zlen_nonneg (free_list Y)) as BN. pose proof (zlen_nonneg blocks) as BB.
  rewrite (sh_super _ _ H2), Es, (ct_all_blocks _ Hc).
  assert ((if usage then sub_u 32 (zlen (free_list X)) (zlen blocks) else add_u 32 (zlen (free_list X)) (zlen blocks)) = Ret (zlen (free_list Y))) as ->.
  { destruct usage; [assert (zlen (free_list X) = zlen blocks + zlen (free_list Y)) as Hz by (unfold zlen; rewrite HF, length_app; lia)
      |assert (zlen (free_list Y) = zlen blocks + zlen (free_list X)) as Hz by (unfold zlen; rewrite HF, length_app; lia)].
    - rewrite sub_u_ok by lia. f_equal. lia.
    - rewrite add_u_ok by lia. f_equal. lia. }
  run. unfold set_free_blocks. rewrite (sh_super _ _ H2), set_free_blocks_recount.
  assert (0 ≤ free_inodes_count (base (vol_sb Y)) < 2 ^ 32) as Hi.
  { destruct (Super_wf_fits _ (ds_wf _ _ Hd2)) as (Hf & _). fits_split Hf. by apply in_range_true. }
  destruct (set_superblock_ok fs2 Y (zlen (free_list Y)) (free_inodes_count (base (vol_sb Y))) H2) as (fs3 & -> & H3 & M3); [lia|done|].
  eexists. eexists. split; [done|]. split; [exact H3|]. split; [by eapply Counted_located|].
  split; [etrans; [exact M1|]; by etrans|]. split; cbn [vol_sb vol_area vol_group vol_data with_super].
  - rewrite Es. by destruct (vol_sb X).
  - apply Hs.
  - apply Hs.
  - apply Hs.
  - by rewrite free_list_recount.
Qed.

(** ** Searching a free inode *)

Lemma full_byte x : is_byte x → filter (λ b, Z.testbit x b = false) (range 0 8) = [] ↔ x = 255.
Proof.
  intros Hx. assert (forallb (λ x, eqb (bool_decide (filter (λ b, Z.testbit x b = false) (range 0 8) = [])) (x =? 255)) (range 0 256) = true) as H
    by (vm_compute; reflexivity).
  rewrite forallb_forall in H. specialize (H x). rewrite <- list_elem_of_In in H. specialize (H (proj2 (elem_of_range 0 256 x) Hx)).
  apply eqb_prop in H. split.
  - intros E. rewrite bool_decide_true in H by done. lia.
  - intros ->. by apply bool_decide_eq_true in H.
Qed.

Lemma first_unset_ok x bits : Forall (λ b, 0 ≤ b < 8) bits → first_unset x bits = Ret (head (filter (λ b, Z.testbit x b = false) bits)).
Proof.
  induction 1 as [|b bits Hb Hbits IH]; [done|]. cbn [first_unset]. rewrite shr_u_ok by lia. run. rewrite land_shr, filter_cons by lia.
  destruct (Z.testbit x b) eqn:E; cbn [Z.b2z Z.eqb]; [by rewrite decide_False|by rewrite decide_True].
Qed.

Lemma position_not_full_ok l : ∀ k, Forall is_byte l →
  match position_not_full l k with
  | None => free_from k l = []
  | Some (j, x) => (∃ r, free_from k l = free_in_byte j x ++ r) ∧ x ≠ 255 ∧ is_byte x ∧ k ≤ j < k + zlen l
  end.
Proof.
  induction l as [|x l IH]; intros k Hl; cbn [position_not_full]; [apply free_from_nil|].
  apply Forall_cons in Hl as [Hx Hl]. rewrite zlen_cons. pose proof (zlen_nonneg l). rewrite free_from_cons.
  destruct (Z.eqb_spec x 255) as [->|Hne]; cbn [negb].
  - change (free_in_byte k 255) with ((λ b, 8 * k + b) <$> filter (λ b, Z.testbit 255 b = false) (range 0 8)).
    rewrite (proj2 (full_byte 255 Hx)) by done. cbn [fmap list_fmap app]. specialize (IH (k + 1) Hl).
    destruct (position_not_full l (k + 1)) as [[j y]|]; [|done]. destruct IH as (? & ? & ? & ?). split_and!; (done || lia).
  - split_and!; [by eexists|done|done|lia|lia].
Qed.

Definition first_inode (l : list Z) : result FsErr Z := match l with [] => Err (Fs NotEnoughInodes) | n :: _ => Ok n end.

Lemma free_inode_loop_ok X gs : ∀ fs, Shows fs X → Forall (λ g, 0 ≤ g < groups (vol_sb X)) gs →
  ∃ fs', free_inode_loop fs gs = Ret (first_inode (concat (group_free_inodes X <$> gs)), fs') ∧ Shows fs' X ∧ Mounted fs fs'.
Proof.
  intros fs H Hgs. revert fs H. induction Hgs as [|g gs Hg Hgs IH]; intros fs H; cbn [free_inode_loop]; [by exists fs|].
  destruct (get_inode_bitmap_ok fs X g H Hg) as (fs1 & -> & H1 & M1). run. cbn [bm_inner]. rewrite fmap_cons. cbn [concat].
  pose proof (sh_dev _ _ H) as Hd. destruct (zlen_area _ X g AInodes Hd Hg) as [Hz Hby].
  destruct (Super_wf_spec _ (ds_wf _ _ Hd)) as (Wbc & Wbpg & Wb8 & Wipg & Wi8 & Wlog & Wfdb & Wtot & Wic & Wic2 & Wgr & Wisz).
  unfold group_free_inodes at 1. change (free_bits (vol_area X AInodes g)) with (free_from 0 (vol_area X AInodes g)).
  pose proof (position_not_full_ok (vol_area X AInodes g) 0 Hby) as Hpos.
  destruct (position_not_full (vol_area X AInodes g) 0) as [[j x]|].
  - destruct Hpos as ((r & ->) & Hne & Hx & Hj). rewrite first_unset_ok by (apply Forall_forall; intros b Hb%elem_of_range; lia). run.
    unfold free_in_byte. destruct (filter (λ b, Z.testbit x b = false) (range 0 8)) as [|b bs] eqn:Ef; [by apply full_byte in Ef|].
    assert (b ∈ range 0 8) as Hb%elem_of_range by (assert (b ∈ filter (λ b, Z.testbit x b = false) (range 0 8)) as Hin
      by (rewrite Ef; apply elem_of_cons; by left); by apply list_elem_of_filter in Hin as [_ ?]).
    cbn [head]. rewrite (sh_super _ _ H1). cbn [area_len] in Hz. pose proof (Z.div_mod (inodes_per_group (base (vol_sb X))) 8 ltac:(lia)).
    assert (g * inodes_per_group (base (vol_sb X)) + inodes_per_group (base (vol_sb X)) ≤ inodes_count (base (vol_sb X))) by (rewrite Wic; nia).
    assert (0 ≤ g * inodes_per_group (base (vol_sb X))) by nia.
    rewrite (mul_u_ok 32 g) by lia. run. rewrite (mul_u_ok 32 8) by lia. run. do 3 (rewrite add_u_ok by lia; run).
    exists fs1. split; [|done]. rewrite fmap_cons. cbn [fmap list_fmap app first_inode]. do 3 f_equal. lia.
  - rewrite Hpos. cbn [fmap list_fmap app]. destruct (IH fs1 H1) as (fs2 & -> & H2 & M2). exists fs2. split; [done|]. split; [done|by etrans].
Qed.

Lemma free_inode_ok fs X : Shows fs X →
  ∃ fs', free_inode fs = Ret (first_inode (free_inode_list X), fs') ∧ Shows fs' X ∧ Mounted fs fs'.
Proof.
  intros H. unfold free_inode.
  assert (∃ fs1, (if cache fs then Ret (Ok tt, fs) else update_inner_superblock fs) = Ret (Ok tt, fs1) ∧ Shows fs1 X ∧ Mounted fs fs1) as (fs1 & -> & H1 & M1).
  { destruct (cache fs); [by exists fs|by apply update_inner_ok]. }
  run. rewrite (sh_super _ _ H1), block_group_count_ok by apply H1. run.
  destruct (free_inode_loop_ok X (range 0 (groups (vol_sb X))) fs1 H1) as (fs2 & -> & H2 & M2).
  { apply Forall_forall. intros g Hg%elem_of_range. lia. }
  exists fs2. split; [done|]. split; [done|by etrans].
Qed.

(** ** Allocating and freeing an inode *)

Definition inode_index (sb : Superblock) (n : Z) : Z := (n - 1) mod inodes_per_group (base sb).
Definition inode_bit (X : Vol) (n : Z) : bool := bit (vol_area X AInodes (inode_group (vol_sb X) n)) (inode_index (vol_sb X) n).

Lemma inode_bitmap_len (s : S) X g : DevShows s X → 0 ≤ g < groups (vol_sb X) → 8 * zlen (vol_area X AInodes g) = inodes_per_group (base (vol_sb X)).
Proof.
  intros H Hg. destruct (zlen_area s X g AInodes H Hg) as [-> _]. cbn [area_len].
  destruct (Super_wf_spec _ (ds_wf _ _ H)) as (_ & _ & _ & _ & Wi8 & _).
  pose proof (Z.div_mod (inodes_per_group (base (vol_sb X))) 8 ltac:(lia)). lia.
Qed.

Lemma elem_of_free_inode_list (s : S) X n : DevShows s X →
  n ∈ free_inode_list X ↔ 1 ≤ n ≤ inodes_count (base (vol_sb X)) ∧ inode_bit X n = false.
Proof.
  intros H. destruct (Super_wf_spec _ (ds_wf _ _ H)) as (_ & _ & _ & Wipg & _ & _ & _ & _ & Wic & _).
  unfold free_inode_list, group_free_inodes. fold (numbered (inodes_per_group (base (vol_sb X))) 1 (vol_area X AInodes) (groups (vol_sb X))).
  rewrite elem_of_numbered; [|lia|intros g Hg; by apply (inode_bitmap_len s)]. rewrite Wic. unfold inode_bit, inode_group, inode_index. intuition lia.
Qed.

Lemma NoDup_free_inode_list (s : S) X : DevShows s X → NoDup (free_inode_list X).
Proof.
  intros H. destruct (Super_wf_spec _ (ds_wf _ _ H)) as (_ & _ & _ & Wipg & _).
  apply (NoDup_numbered _ _ (vol_area X AInodes)); [lia|]. intros g Hg. by apply (inode_bitmap_len s).
Qed.

Lemma splice_one (l : list Z) k x : 0 ≤ k < zlen l → splice l k [x] = <[Z.to_nat k := x]> l.
Proof.
  intros Hk. apply list_eq. intros i. rewrite <- (Nat2Z.id i), splice_lookup by (change (zlen [x]) with 1; lia).
  change (zlen [x]) with 1. case_bool.
  - replace (Z.of_nat i) with k by lia. rewrite Z.sub_diag. rewrite list_lookup_insert_eq; [done|]. unfold zlen in *. lia.
  - rewrite list_lookup_insert_ne by lia. done.
Qed.

Lemma set_group_inodes_fits d c : Group_fits d = true → 0 ≤ c < 65536 → Group_fits (set_group_inodes d c) = true.
Proof.
  intros H Hc. assert (in_range 16 c = true) by (by apply in_range_true). unfold Group_fits, set_group_inodes in *.
  cbn [block_bitmap inode_bitmap inode_table bg_free_blocks_count bg_free_inodes_count used_dirs_count pad reserved].
  repeat match type of H with (_ && _) = true => apply andb_true_iff in H as [H ?] end. by and_split.
Qed.

(** The counts are changed before the bit is looked at. *)
Definition recounted (X : Vol) (g delta : Z) : Vol :=
  with_group (with_super X (recount (vol_sb X) (free_blocks_count (base (vol_sb X))) (free_inodes_count (base (vol_sb X)) + delta))) g
    (set_group_inodes (vol_group X g) (bg_free_inodes_count (vol_group X g) + delta)).

Definition bad_inode (usage : bool) (n : Z) : FsErr := Fs (if usage then InodeAlreadyInUse n else InodeAlreadyFree n).

Lemma flip_inode_ok fs X g i n (usage : bool) : Shows fs X → 0 ≤ g < groups (vol_sb X) → 0 ≤ i < inodes_per_group (base (vol_sb X)) →
  ∃ fs', Mounted fs fs' ∧
    if eqb (bit (vol_area X AInodes g) i) usage
    then flip_inode fs (area_start (vol_sb X) (vol_group X g) AInodes + i / 8) (i mod 8) n usage = Ret (Err (bad_inode usage n), fs') ∧ Shows fs' X
    else flip_inode fs (area_start (vol_sb X) (vol_group X g) AInodes + i / 8) (i mod 8) n usage = Ret (Ok tt, fs') ∧
      Shows fs' (with_area X AInodes g (flip_bit (vol_area X AInodes g) i)).
Proof.
  intros H Hg Hi. pose proof (sh_dev _ _ H) as Hd. destruct (Super_wf_spec _ (ds_wf _ _ Hd)) as (_ & _ & _ & Wipg & _). destruct (lay_area _ _ _ (ds_layout _ _ Hd) g AInodes Hg) as (L1 & L2 & _).
  destruct (area_range (vol_sb X) (vol_group X g) AInodes) as (_ & A2 & _); [apply Hd|by apply Hd|].
  destruct (zlen_area _ X g AInodes Hd Hg) as [Hz Hby]. pose proof (inode_bitmap_len _ X g Hd Hg) as Hz8.
  pose proof (Z.div_mod i 8 ltac:(lia)) as Hdi. pose proof (Z.mod_pos_bound i 8 ltac:(lia)) as Hmi.
  pose proof (Z.div_pos i 8 ltac:(lia) ltac:(lia)) as Hpi. unfold flip_inode. set (a := area_start (vol_sb X) (vol_group X g) AInodes) in *.
  destruct (lookup_lt_is_Some_2 (vol_area X AInodes g) (Z.to_nat (i / 8))) as [x Hx]; [unfold zlen in *; lia|].
  assert (is_byte x) as Hbx by (by eapply (Forall_lookup_1 _ _ _ _ Hby)).
  rewrite add_u_ok by lia. run. destruct (on_device_slice fs X (a + i / 8) (a + i / 8 + 1)) as (fs1 & -> & H1 & M1); [done|lia|lia|]. run.
  assert (v_byte (device fs) <$> range (a + i / 8) (a + i / 8 + 1) = [x]) as ->.
  { rewrite range_cons, range_nil by lia. cbn. f_equal. pose proof (ds_area _ _ Hd g AInodes Hg) as Ha. fold a in Ha. rewrite <- Ha in Hx.
    rewrite list_lookup_fmap in Hx. unfold range in Hx. rewrite lookup_seqZ_lt in Hx by lia. cbn in Hx. injection Hx as <-. f_equal. lia. }
  change (index [x] 0) with (Ret x). run. rewrite shr_u_ok by lia. run. rewrite land_shr, shl_u_ok by lia. run.
  assert (wrap 8 (Z.shiftl 1 (i mod 8)) = Z.shiftl 1 (i mod 8)) as ->.
  { apply wrap_small. rewrite Z.shiftl_1_l. split; [apply Z.pow_nonneg; lia|]. apply Z.pow_lt_mono_r; lia. }
  unfold bit, flip_bit. rewrite Hx.
  destruct (area_commit_ok fs1 X g AInodes (i / 8) [Z.lxor x (Z.shiftl 1 (i mod 8))] H1 Hg) as (fs2 & E & H2 & M2);
    [done|lia|change (zlen [_]) with 1; lia|constructor; [by apply lxor_byte|done]|]. fold a in E. rewrite splice_one in H2 by lia.
  destruct usage, (Z.testbit x (i mod 8)); cbn [Z.b2z andb negb eqb Z.eqb Pos.eqb]; rewrite ?E;
    first [exists fs1; by split_and!|exists fs2; split; [by etrans|by split]].
Qed.

Lemma locate_inode_ok fs X n (usage : bool) : Shows fs X → 1 ≤ n ≤ inodes_count (base (vol_sb X)) →
  let delta := if usage then -1 else 1 in
  let g := inode_group (vol_sb X) n in
  0 ≤ free_inodes_count (base (vol_sb X)) + delta < 2 ^ 32 → 0 ≤ bg_free_inodes_count (vol_group X g) + delta < 65536 →
  ∃ fs', Mounted fs fs' ∧
    if eqb (inode_bit X n) usage then locate_inode fs n usage = Ret (Err (bad_inode usage n), fs') ∧ Shows fs' (recounted X g delta)
    else locate_inode fs n usage = Ret (Ok tt, fs') ∧
      Shows fs' (with_area (recounted X g delta) AInodes g (flip_bit (vol_area X AInodes g) (inode_index (vol_sb X) n))).
Proof.
  intros H Hn delta g Hci Hcg. pose proof (sh_dev _ _ H) as Hd. pose proof (ds_wf _ _ Hd) as Hw.
  destruct (Super_wf_spec _ Hw) as (Wbc & Wbpg & Wb8 & Wipg & Wi8 & Wlog & Wfdb & Wtot & Wic & Wic2 & Wgr & Wisz).
  destruct (inode_place _ n Hw Hn) as (Hg & _). fold g in Hg.
  unfold locate_inode. rewrite (sh_super _ _ H).
  assert ((if usage then sub_u 32 (free_inodes_count (base (vol_sb X))) 1 else add_u 32 (free_inodes_count (base (vol_sb X))) 1) =
    Ret (free_inodes_count (base (vol_sb X)) + delta)) as -> by (unfold delta in *; destruct usage; [rewrite sub_u_ok|rewrite add_u_ok]; (done || lia)).
  run. set (v := free_inodes_count (base (vol_sb X)) + delta) in *.
  assert (set_base (vol_sb X) (b_set_free_inodes (base (vol_sb X)) v) = recount (vol_sb X) (free_blocks_count (base (vol_sb X))) v) as ->
    by (by destruct (vol_sb X) as [[]|[] e]).
  set (sb := recount (vol_sb X) (free_blocks_count (base (vol_sb X))) v).
  assert (0 ≤ free_blocks_count (base (vol_sb X)) < 2 ^ 32) as Hfb.
  { destruct (Super_wf_fits _ Hw) as (Hf & _). fits_split Hf. by apply in_range_true. }
  destruct (set_superblock_ok fs X _ v H Hfb Hci) as (fs1 & E1 & H1 & M1). fold sb in E1, H1. rewrite E1. run.
  assert (inodes_per_group (base sb) = inodes_per_group (base (vol_sb X)) ∧ block_bytes sb = block_bytes (vol_sb X) ∧ groups sb = groups (vol_sb X) ∧
    Super_wf sb = true) as (Ei & Ebb & Egr & Hws) by (split_and!; [by unfold sb; destruct (vol_sb X)..|by apply recount_wf]).
  unfold Inode_block_group. rewrite sub_u_ok by lia. run. unfold div_u. rewrite Ei, (proj2 (Z.eqb_neq _ _)) by lia. run.
  fold (inode_group (vol_sb X) n). fold g.
  destruct (Group_parse_ok fs1 _ g H1) as (fs2 & -> & H2 & M2); [by cbn; rewrite Egr|]. run. cbn [vol_group with_super].
  assert ((if usage then sub_u 16 (bg_free_inodes_count (vol_group X g)) 1 else add_u 16 (bg_free_inodes_count (vol_group X g)) 1) =
    Ret (bg_free_inodes_count (vol_group X g) + delta)) as -> by (unfold delta in *; destruct usage; [rewrite sub_u_ok|rewrite add_u_ok]; (done || lia)).
  run. destruct (ds_group _ _ Hd g Hg) as [Hfg _].
  destruct (Group_write_ok fs2 _ g (set_group_inodes (vol_group X g) (bg_free_inodes_count (vol_group X g) + delta)) H2) as (fs3 & -> & H3 & M3);
    [by cbn; rewrite Egr|by apply set_group_inodes_fits|by intros []|]. run.
  change (with_group (with_super X sb) g _) with (recounted X g delta) in H3.
  assert (Mounted fs fs3) as M03 by (etrans; [exact M1|]; by etrans).
  destruct (block_size_ok sb Hws) as [-> Hbs]. run.
  destruct (area_range sb (vol_group X g) AInodes Hws Hfg) as (A1 & A2 & A3). cbn [area_block area_len] in *. unfold area_start in A2. cbn [area_block] in A2.
  rewrite mul_u_ok by lia. run. unfold Inode_group_index. rewrite sub_u_ok by lia. run. unfold rem_u. rewrite Ei, (proj2 (Z.eqb_neq _ _)) by lia. run.
  fold (inode_index (vol_sb X) n). set (i := inode_index (vol_sb X) n).
  assert (0 ≤ i < inodes_per_group (base (vol_sb X))) as Hi by (apply Z.mod_pos_bound; lia).
  assert ((n - 1) mod 8 = i mod 8) as Hmod.
  { unfold i, inode_index. pose proof (Z.div_mod (n - 1) (inodes_per_group (base (vol_sb X))) ltac:(lia)).
    pose proof (Z.div_mod (inodes_per_group (base (vol_sb X))) 8 ltac:(lia)).
    replace (n - 1) with ((n - 1) mod inodes_per_group (base (vol_sb X)) + (inodes_per_group (base (vol_sb X)) / 8 * ((n - 1) / inodes_per_group (base (vol_sb X)))) * 8) at 1 by nia.
    by rewrite Z.mod_add by lia. }
  pose proof (Z.div_mod (inodes_per_group (base (vol_sb X))) 8 ltac:(lia)) as Hdm. pose proof (Z.div_mod i 8 ltac:(lia)) as Hdi.
  pose proof (Z.mod_pos_bound i 8 ltac:(lia)) as Hmi.
  pose proof (Z.div_pos i 8 ltac:(lia) ltac:(lia)) as Hpi. assert (i / 8 < inodes_per_group (base (vol_sb X)) / 8) as Hlt by lia. rewrite Ei in A3.
  rewrite Hmod. rewrite (add_u_ok 64) by lia. run.
  destruct (flip_inode_ok fs3 (recounted X g delta) g i n usage H3) as (fs4 & M4 & H4);
    [change (0 ≤ g < groups sb); by rewrite Egr|change (0 ≤ i < inodes_per_group (base sb)); by rewrite Ei|].
  assert (area_start (vol_sb (recounted X g delta)) (vol_group (recounted X g delta) g) AInodes = inode_bitmap (vol_group X g) * block_bytes sb) as Ea
    by (unfold area_start; cbn; by rewrite Z.eqb_refl).
  rewrite Ea in H4. exists fs4. split; [by etrans|]. exact H4.
Qed.

Lemma numbered_ext per first A B G : (∀ g, 0 ≤ g < G → A g = B g) → numbered per first A G = numbered per first B G.
Proof. intros H. unfold numbered. f_equal. apply list_fmap_ext. intros k g Hg%lookup_seqZ. by rewrite H by lia. Qed.

Definition flip_at (A : Z → list Z) (g i : Z) (h : Z) : list Z := if decide (h = g) then flip_bit (A g) i else A h.

Lemma numbered_flip per first A G n (usage : bool) : 0 < per → (∀ g, 0 ≤ g < G → 8 * zlen (A g) = per) → first ≤ n < first + G * per →
  let g := (n - first) / per in let i := (n - first) mod per in
  bit (A g) i = negb usage →
  (∀ h, 0 ≤ h < G → 8 * zlen (flip_at A g i h) = per) ∧
  if usage then numbered per first A G ≡ₚ n :: numbered per first (flip_at A g i) G
  else numbered per first (flip_at A g i) G ≡ₚ n :: numbered per first A G.
Proof.
  intros Hp HA Hn g i Hb. pose proof (Z.div_mod (n - first) per ltac:(lia)) as Hdm. pose proof (Z.mod_pos_bound (n - first) per ltac:(lia)) as Hi.
  fold g i in Hdm, Hi. assert (0 ≤ g < G) as Hg by (split; [apply Z.div_pos; lia|apply Z.div_lt_upper_bound; nia]).
  assert (∀ h, 0 ≤ h < G → 8 * zlen (flip_at A g i h) = per) as HB.
  { intros h Hh. unfold flip_at. case_decide; [rewrite zlen_flip|]; by apply HA. }
  assert (∀ m, first ≤ m < first + G * per → bit (flip_at A g i ((m - first) / per)) ((m - first) mod per) =
    if decide (m = n) then usage else bit (A ((m - first) / per)) ((m - first) mod per)) as Hbit.
  { intros m Hm. unfold flip_at. pose proof (Z.div_mod (m - first) per ltac:(lia)) as Hdm'. pose proof (Z.mod_pos_bound (m - first) per ltac:(lia)).
    destruct (decide ((m - first) / per = g)) as [E|E].
    - rewrite bit_flip by (rewrite ?HA; lia). destruct (decide ((m - first) mod per = i)) as [E2|E2].
      + rewrite decide_True by (rewrite E, E2 in Hdm'; lia). by rewrite Hb, negb_involutive.
      + rewrite decide_False by (intros ->; by apply E2). by rewrite E.
    - by rewrite decide_False by (intros ->; by apply E). }
  split; [done|]. destruct usage.
  - apply NoDup_Permutation; [by apply NoDup_numbered|constructor; [|by apply NoDup_numbered]|].
    + rewrite elem_of_numbered by done. intros [_ E]. rewrite Hbit, decide_True in E by done. done.
    + intros m. rewrite elem_of_cons, !elem_of_numbered by done. split.
      * intros [Hm E]. destruct (decide (m = n)) as [|Hne]; [by left|right]. split; [done|]. by rewrite Hbit, decide_False by done.
      * intros [->|[Hm E]]; [by split|]. split; [done|]. rewrite Hbit in E by done. by case_decide.
  - apply NoDup_Permutation; [by apply NoDup_numbered|constructor; [|by apply NoDup_numbered]|].
    + rewrite elem_of_numbered by done. intros [_ E]. fold g i in E. by rewrite Hb in E.
    + intros m. rewrite elem_of_cons, !elem_of_numbered by done. split.
      * intros [Hm E]. destruct (decide (m = n)) as [|Hne]; [by left|right]. split; [done|]. by rewrite Hbit, decide_False in E by done.
      * intros [->|[Hm E]]; (split; [done|]); rewrite Hbit by done; [by rewrite decide_True|by case_decide].
Qed.

(** Two volumes of one size whose structures are in the same places. *)
Record SamePlaces (X Y : Vol) : Prop := {
  sp_block : block_bytes (vol_sb Y) = block_bytes (vol_sb X);
  sp_data i : DataByte (vol_sb X) (vol_group X) i → DataByte (vol_sb Y) (vol_group Y) i;
  sp_valid b : bitmap_block (vol_sb X) b → bitmap_block (vol_sb Y) b;
  sp_inodes : inodes_count (base (vol_sb Y)) = inodes_count (base (vol_sb X));
  sp_bpg : blocks_per_group (base (vol_sb Y)) = blocks_per_group (base (vol_sb X));
}.

#[export] Instance SamePlaces_pre : PreOrder SamePlaces.
Proof. split; [by split|]. intros X Y Z H1 H2. destruct H1, H2. split; auto; congruence. Qed.

(** What allocating or freeing the inode [n] leaves. *)
Definition located_inode (X : Vol) (n : Z) (usage : bool) : Vol :=
  let g := inode_group (vol_sb X) n in
  with_area (recounted X g (if usage then -1 else 1)) AInodes g (flip_bit (vol_area X AInodes g) (inode_index (vol_sb X) n)).

Lemma located_inode_places (s : S) X n usage i : DevShows s X → SamePlaces X (with_inode (located_inode X n usage) n i).
Proof.
  intros H. split; unfold located_inode, recounted; cbn [with_inode with_area with_group with_super vol_sb vol_group]; try by destruct (vol_sb X).
  intros k [D1 D2]. split; [by destruct (vol_sb X)|]. intros g a Hg. assert (0 ≤ g < groups (vol_sb X)) as Hg' by (by destruct (vol_sb X)).
  specialize (D2 g a Hg'). unfold area_start, area_len in *. set (G := inode_group (vol_sb X) n) in *. clearbody G.
  destruct (Z.eqb_spec g G) as [->|]; destruct (vol_sb X), a; exact D2.
Qed.

Lemma located_inode_ok (s : S) X n (usage : bool) : DevShows s X → Counted X → 1 ≤ n ≤ inodes_count (base (vol_sb X)) → inode_bit X n = negb usage →
  let Y := located_inode X n usage in
  0 ≤ free_inodes_count (base (vol_sb X)) + (if usage then -1 else 1) < 2 ^ 32 ∧
  0 ≤ bg_free_inodes_count (vol_group X (inode_group (vol_sb X) n)) + (if usage then -1 else 1) < 65536 ∧
  Counted Y ∧ free_list Y = free_list X ∧
  if usage then free_inode_list X ≡ₚ n :: free_inode_list Y else free_inode_list Y ≡ₚ n :: free_inode_list X.
Proof.
  intros Hd Hc Hn Hb Y. pose proof (ds_wf _ _ Hd) as Hw.
  destruct (Super_wf_spec _ Hw) as (Wbc & Wbpg & Wb8 & Wipg & Wi8 & Wlog & Wfdb & Wtot & Wic & Wic2 & Wgr & Wisz).
  destruct (inode_place _ n Hw Hn) as (Hg & _). set (g := inode_group (vol_sb X) n) in *. set (i := inode_index (vol_sb X) n).
  assert (0 ≤ i < inodes_per_group (base (vol_sb X))) as Hi by (apply Z.mod_pos_bound; lia).
  pose proof (λ h, inode_bitmap_len s X h Hd) as HL.
  assert (groups (vol_sb Y) = groups (vol_sb X) ∧ inodes_per_group (base (vol_sb Y)) = inodes_per_group (base (vol_sb X))) as [EG EP]
    by (unfold Y, located_inode, recounted; cbn; by destruct (vol_sb X)).
  assert (zlen (free_bits (flip_bit (vol_area X AInodes g) i)) = bg_free_inodes_count (vol_group X g) + (if usage then -1 else 1)) as Hgc.
  { rewrite (ct_inodes _ Hc g Hg). apply zlen_flip_free; [rewrite HL; lia|exact Hb]. }
  destruct (numbered_flip (inodes_per_group (base (vol_sb X))) 1 (vol_area X AInodes) (groups (vol_sb X)) n usage) as [HB HP]; [lia|done|lia|exact Hb|].
  change ((n - 1) / _) with g in HB, HP. change ((n - 1) mod _) with i in HB, HP.
  assert (free_inode_list Y = numbered (inodes_per_group (base (vol_sb X))) 1 (flip_at (vol_area X AInodes) g i) (groups (vol_sb X))) as EY.
  { unfold free_inode_list, group_free_inodes. rewrite EG, EP. apply numbered_ext. intros h Hh. unfold Y, located_inode, flip_at. cbn. fold g i.
    destruct (decide (h = g)) as [->|E]; [by rewrite decide_True|by rewrite decide_False by (intros [_ ?]; congruence)]. }
  rewrite <- EY in HP. change (numbered _ 1 (vol_area X AInodes) _) with (free_inode_list X) in HP.
  assert (zlen (free_inode_list Y) = free_inodes_count (base (vol_sb X)) + (if usage then -1 else 1)) as Htot.
  { rewrite (ct_all_inodes _ Hc). unfold zlen. destruct usage; rewrite HP; cbn [length]; lia. }
  assert (zlen (free_inode_list Y) ≤ inodes_count (base (vol_sb X))) as Hbound.
  { rewrite EY, Wic. pose proof (zlen_numbered (inodes_per_group (base (vol_sb X))) 1 (flip_at (vol_area X AInodes) g i) (groups (vol_sb X)) []) as Hz.
    change (zlen []) with 0 in Hz. apply Hz; [lia|lia|done|constructor|by intros m ?%not_elem_of_nil]. }
  pose proof (zlen_nonneg (free_inode_list Y)). pose proof (zlen_free_bits (flip_bit (vol_area X AInodes g) i)) as Hfb. rewrite zlen_flip, HL in Hfb by done.
  assert (free_list Y = free_list X) as EF by (unfold Y, located_inode, recounted, free_list, group_free; cbn; by destruct (vol_sb X)).
  split_and!; [lia..| |done|done]. split.
  - intros h Hh. rewrite EG in Hh. pose proof (ct_blocks _ Hc h Hh) as E. unfold Y, located_inode, recounted. cbn. fold g.
    destruct (Z.eqb_spec h g) as [->|]; exact E.
  - intros h Hh. rewrite EG in Hh. unfold Y, located_inode, recounted. cbn. fold g i. destruct (Z.eqb_spec h g) as [->|Hne].
    + by rewrite decide_True.
    + rewrite decide_False by (intros [_ ?]; congruence). by apply Hc.
  - rewrite EF, <- (ct_all_blocks _ Hc). unfold Y, located_inode, recounted. cbn. by destruct (vol_sb X).
  - rewrite Htot. unfold Y, located_inode, recounted. cbn. by destruct (vol_sb X).
Qed.

(** ** Allocating an inode *)

Lemma Inode_create_fits sb mode uid gid flags osd1 osd2 : Super_wf sb = true → in_range 16 mode = true → in_range 16 uid = true →
  in_range 16 gid = true → in_range 32 flags = true → in_range 32 osd1 = true → bytes_wf 12 osd2 = true →
  Inode_fits (Inode_create sb mode uid gid flags osd1 osd2) = true.
Proof.
  intros Hw. destruct (Super_wf_fits sb Hw) as (Hf & _). intros. assert (in_range 32 (wtime (base sb)) = true) by (by fits_split Hf).
  unfold Inode_fits, Inode_create. cbv zeta. cbn [i_mode i_uid i_size i_atime i_ctime i_mtime i_dtime i_gid links_count i_blocks i_flags
    Ext2Disk.osd1 direct_block_pointers singly_indirect_block_pointer doubly_indirect_block_pointer triply_indirect_block_pointer generation
    file_acl dir_acl faddr Ext2Disk.osd2]. by and_split.
Qed.

Lemma Counted_inode X n i : Counted X → Counted (with_inode X n i) ∧ free_list (with_inode X n i) = free_list X ∧
  free_inode_list (with_inode X n i) = free_inode_list X.
Proof.
  intros Hc. assert (∀ a g, a ≠ ATable → vol_area (with_inode X n i) a g = vol_area X a g) as Ha.
  { intros a g Hne. cbn. by rewrite decide_False by (intros [? _]; congruence). }
  assert (free_list (with_inode X n i) = free_list X) as E1 by done.
  assert (free_inode_list (with_inode X n i) = free_inode_list X) as E2 by done.
  split_and!; [|done|done]. split; [| |rewrite E1; apply Hc|rewrite E2; apply Hc]; intros g Hg; rewrite Ha by done; by apply Hc.
Qed.

Lemma allocate_inode_ok fs X n mode uid gid flags osd1 osd2 : Shows fs X → Counted X → n ∈ free_inode_list X →
  in_range 16 mode = true → in_range 16 uid = true → in_range 16 gid = true → in_range 32 flags = true → in_range 32 osd1 = true → bytes_wf 12 osd2 = true →
  ∃ fs' Y, allocate_inode fs n mode uid gid flags osd1 osd2 = Ret (Ok tt, fs') ∧ Shows fs' Y ∧ Counted Y ∧ Mounted fs fs' ∧
    inodes_count (base (vol_sb Y)) = inodes_count (base (vol_sb X)) ∧
    free_inode_list X ≡ₚ n :: free_inode_list Y ∧ free_list Y = free_list X ∧ vol_data Y = vol_data X ∧ SamePlaces X Y ∧
    ∀ m, 1 ≤ m ≤ inodes_count (base (vol_sb X)) →
      inode_at Y m = if m =? n then Inode_create (vol_sb X) mode uid gid flags osd1 osd2 else inode_at X m.
Proof.
  intros H Hc Hin Hm Hu Hg Hfl H1 H2. pose proof (sh_dev _ _ H) as Hd. apply (elem_of_free_inode_list _ X n Hd) in Hin as [Hn Hb].
  destruct (located_inode_ok _ X n true Hd Hc Hn Hb) as (B1 & B2 & HcY & EF & HP). set (Y := located_inode X n true) in *.
  destruct (locate_inode_ok fs X n true H Hn B1 B2) as (fs1 & M1 & HL). rewrite Hb in HL. cbn [eqb] in HL. destruct HL as [E1 HY].
  change (Shows fs1 Y) in HY. unfold allocate_inode. rewrite E1. run.
  assert (Inode_create (superblock fs1) mode uid gid flags osd1 osd2 = Inode_create (vol_sb X) mode uid gid flags osd1 osd2) as ->
    by (rewrite (sh_super _ _ HY); unfold Y, located_inode, recounted; cbn; by destruct (vol_sb X)).
  set (i := Inode_create (vol_sb X) mode uid gid flags osd1 osd2).
  assert (Inode_fits i = true) as Hf by (apply Inode_create_fits; [apply Hd|done..]).
  assert (inodes_count (base (vol_sb Y)) = inodes_count (base (vol_sb X)) ∧ ∀ m, inode_at Y m = inode_at X m) as [Ec Ea]
    by (unfold Y, located_inode, recounted, inode_at, inode_offset, inode_group; cbn; by destruct (vol_sb X)).
  destruct (Inode_write_ok fs1 Y n i HY) as (fs2 & -> & H3 & M2); [by rewrite Ec|done|].
  destruct (Counted_inode Y n i HcY) as (HcZ & EFZ & EIZ). exists fs2, (with_inode Y n i).
  split_and!; [done|done|done|by etrans|done|by rewrite EIZ|by rewrite EFZ|done|by eapply located_inode_places|].
  intros m Hmr. rewrite (inode_at_with _ Y n i m (sh_dev _ _ HY)) by (rewrite ?Ec; done). by rewrite Ea.
Qed.

End AllocProofs.

(** ** Theorems *)

Section Theorems.
Context {P : Profile} {BF : Bitflags} {S : Type} {ST : Storage S} {V : View S} {FS : FlatStorage S} {ES : EndSeek S}.

(** [C21] Searching free blocks from a group on returns the first [n] of the volume's free blocks, in the
    order of the groups from there around the end and of the bits in each, and an error with the number
    of free blocks when there are fewer; the blocks are distinct and the volume stays as it is. *)
Theorem free_blocks_spec (fs : Ext2 S) (X : Vol) (n start : Z) (Hshows : Shows fs X) (Hcounted : Counted X)
    (Hn : 0 ≤ n < 2 ^ 32) (Hstart : 0 ≤ start) (Hgroups : start + groups (vol_sb X) < 2 ^ 32) :
  let all := concat (group_free X <$> rotated (vol_sb X) start) in
  all ≡ₚ free_list X ∧ NoDup all ∧
  ∃ fs', free_blocks_offset fs n start =
      Ret (if n <=? zlen (free_list X) then Ok (take (Z.to_nat n) all)
           else Err (Fs (NotEnoughFreeBlocks n (zlen (free_list X)))), fs') ∧
    Shows fs' X ∧ Mounted fs fs'.
Proof.
  destruct (free_blocks_offset_ok fs X n start Hshows Hcounted Hn Hstart Hgroups) as (fs' & E & H' & M & Hp).
  split; [done|]. split; [rewrite Hp; by eapply NoDup_free_list, Hshows|]. exists fs'. split; [|done]. rewrite E. unfold found_blocks.
  assert (zlen (concat (group_free X <$> rotated (vol_sb X) start)) = zlen (free_list X)) as -> by (unfold zlen; by rewrite Hp). done.
Qed.

(** [C14] Allocating distinct free blocks, or freeing distinct existing blocks in use, in any order and in any groups,
    succeeds on a volume that has the bits behind its last block set: the free blocks become those there were without
    the given ones, or with them, and all exist; the counts of every group and of the superblock stay exact, on the disk
    and in the caches, and inodes and data are not touched. *)
Theorem locate_blocks_spec (fs : Ext2 S) (X : Vol) (blocks : list Z) (usage : bool) (Hshows : Shows fs X) (Hcounted : Counted X)
    (Hpadded : ∀ b, b ∈ free_list X → exists_block (vol_sb X) b) (Hdup : NoDup blocks)
    (Hblocks : ∀ b, b ∈ blocks → if usage then b ∈ free_list X else exists_block (vol_sb X) b ∧ b ∉ free_list X) :
  ∃ fs' Y, locate_blocks fs blocks usage = Ret (Ok tt, fs') ∧ Shows fs' Y ∧ Counted Y ∧ Mounted fs fs' ∧
    (if usage then free_list X ≡ₚ blocks ++ free_list Y else free_list Y ≡ₚ blocks ++ free_list X) ∧
    (∀ b, b ∈ free_list Y → exists_block (vol_sb Y) b) ∧
    (∀ a g, a ≠ ABlocks → vol_area Y a g = vol_area X a g) ∧ vol_data Y = vol_data X.
Proof.
  pose proof (sh_dev _ _ Hshows) as Hd.
  destruct (locate_blocks_ok fs X blocks usage Hshows Hcounted Hdup) as (fs' & Y & E & H' & Hc & M & L).
  - apply Forall_forall. intros b Hb. specialize (Hblocks b Hb). pose proof (elem_of_free_list _ X b Hd) as Hf.
    destruct usage; [by apply Hf|]. destruct Hblocks as [Hv%(exists_bitmap _ _ (ds_wf _ _ Hd)) Hn]. rewrite Hf in Hn.
    split; [done|]. destruct (block_bit X b); [done|]. by destruct Hn.
  - exists fs', Y. split_and!; [done..|apply L| |apply L|apply L]. intros b Hb.
    assert (exists_block (vol_sb Y) b ↔ exists_block (vol_sb X) b) as -> by (rewrite (lo_sb _ _ _ _ L); unfold exists_block, recount; by destruct (vol_sb X)).
    pose proof (lo_free _ _ _ _ L) as Hp. destruct usage.
    + apply Hpadded. rewrite Hp. apply elem_of_app. by right.
    + rewrite Hp in Hb. apply elem_of_app in Hb as [Hb|Hb]; [by apply Hblocks|by apply Hpadded].
Qed.

(** [C30] Creating an inode: the number found is the first free one, or there is none and the call fails.
    Allocating it makes it used and nothing else, the counts stay exact, reading it back gives the inode
    that was created, and the other inodes and the data are as before. *)
Theorem create_inode_spec (fs : Ext2 S) (X : Vol) (mode uid gid flags osd1 : Z) (osd2 : list Z) (t : FileType)
    (Hshows : Shows fs X) (Hcounted : Counted X)
    (Hmode : in_range 16 mode = true) (Huid : in_range 16 uid = true) (Hgid : in_range 16 gid = true)
    (Hflags : in_range 32 flags = true) (Hosd1 : in_range 32 osd1 = true) (Hosd2 : bytes_wf 12 osd2 = true)
    (Htype : file_type (Inode_create (vol_sb X) mode uid gid flags osd1 osd2) = Ok t) :
  match free_inode_list X with
  | [] => ∃ fs', free_inode fs = Ret (Err (Fs NotEnoughInodes), fs') ∧ Shows fs' X
  | n :: _ => ∃ fs1 fs2 fs3 Y, free_inode fs = Ret (Ok n, fs1) ∧
      allocate_inode fs1 n mode uid gid flags osd1 osd2 = Ret (Ok tt, fs2) ∧
      Inode_parse fs2 n = Ret (Ok (Inode_create (vol_sb X) mode uid gid flags osd1 osd2), fs3) ∧
      Shows fs3 Y ∧ Counted Y ∧ Mounted fs fs3 ∧ free_inode_list X ≡ₚ n :: free_inode_list Y ∧ free_list Y = free_list X ∧ vol_data Y = vol_data X ∧
      ∀ m, 1 ≤ m ≤ inodes_count (base (vol_sb X)) → m ≠ n → inode_at Y m = inode_at X m
  end.
Proof.
  destruct (free_inode_ok fs X Hshows) as (fs1 & E1 & H1 & M1). destruct (free_inode_list X) as [|n l] eqn:El; [by exists fs1|].
  assert (n ∈ free_inode_list X) as Hin by (rewrite El; apply elem_of_cons; by left).
  destruct (allocate_inode_ok fs1 X n mode uid gid flags osd1 osd2 H1 Hcounted Hin) as (fs2 & Y & E2 & H2 & Hc & M2 & Ec & Hp & Hf & Hdata & _ & Ha); [done..|].
  apply (elem_of_free_inode_list _ X n (sh_dev _ _ Hshows)) in Hin as [Hn _].
  pose proof (Ha n Hn) as En. rewrite Z.eqb_refl in En.
  destruct (Inode_parse_ok fs2 Y n t H2) as (fs3 & E3 & H3 & M3); [by rewrite Ec|by rewrite En|]. rewrite En in E3.
  exists fs1, fs2, fs3, Y. rewrite El in Hp. split_and!; [done..|etrans; [exact M1|]; by etrans|done|done|done|].
  intros m Hm Hne. rewrite (Ha m Hm). by rewrite (proj2 (Z.eqb_neq m n)).
Qed.

(** Asking for a block in the wrong state, or for one behind the last group, changes nothing when it is
    the first block asked for. *)
Theorem locate_blocks_refused (fs : Ext2 S) (X : Vol) (b : Z) (blocks : list Z) (usage : bool) (Hshows : Shows fs X)
    (Hlow : first_data_block (base (vol_sb X)) ≤ b < 2 ^ 32)
    (Hbad : bitmap_block (vol_sb X) b → block_bit X b = usage) :
  ∃ fs', Shows fs' X ∧ Mounted fs fs' ∧ locate_blocks fs (b :: blocks) usage =
    Ret (Err (if decide (bitmap_block (vol_sb X) b) then bad_block usage b else Fs (NonExistingBlockGroup (grp (vol_sb X) b))), fs').
Proof.
  pose proof (ds_wf _ _ (sh_dev _ _ Hshows)) as Hw.
  destruct (Super_wf_spec _ Hw) as (Wbc & Wbpg & Wb8 & Wipg & Wi8 & Wlog & Wfdb & Wtot & Wic & Wic2 & Wgr & Wisz).
  unfold locate_blocks.
  assert (∃ fs1, (if cache fs then Ret (Ok tt, fs) else update_inner_superblock fs) = Ret (Ok tt, fs1) ∧ Shows fs1 X ∧ Mounted fs fs1) as (fs1 & -> & H1 & M1).
  { destruct (cache fs); [by exists fs|by apply update_inner_ok]. }
  run. rewrite (sh_super _ _ H1). case_decide as Hv.
  - destruct (valid_place _ b Hw Hv) as (Hg & Hi & _ & Eg & _). rewrite Eg. run.
    destruct (get_block_bitmap_ok fs1 X _ H1 Hg) as (fs2 & -> & H2 & M2). run. cbn [locate_loop].
    rewrite (sh_super _ _ H2), Eg. run. rewrite Z.eqb_refl. cbn [negb bind_result]. rewrite add_u_ok by lia. run.
    rewrite (sh_super _ _ H2), flip_block_ok; [|done|done|exact (bitmap_len _ X _ (sh_dev _ _ Hshows) Hg)]. run. cbn [bm_inner].
    fold (block_bit X b). rewrite (Hbad Hv), eqb_reflx. exists fs2. split_and!; [done|by etrans|done].
  - unfold block_group. rewrite sub_u_ok by lia. run. unfold div_u. rewrite (proj2 (Z.eqb_neq _ _)) by lia. run. fold (grp (vol_sb X) b).
    assert (groups (vol_sb X) ≤ grp (vol_sb X) b) as Hg.
    { unfold bitmap_block in Hv. apply Z.div_le_lower_bound; lia. }
    unfold get_block_bitmap. rewrite (Group_parse_none fs1 X _ H1 Hg). run. by exists fs1.
Qed.

(** Allocating an inode that is in use, or freeing a free one, is refused after the counts were changed:
    they are wrong from then on. *)
Theorem refused_inode_miscounts (fs : Ext2 S) (X : Vol) (n : Z) (usage : bool) (Hshows : Shows fs X) (Hcounted : Counted X)
    (Hn : 1 ≤ n ≤ inodes_count (base (vol_sb X))) (Hbad : inode_bit X n = usage)
    (Htotal : 0 < free_inodes_count (base (vol_sb X)) < 2 ^ 32 - 1)
    (Hgroup : 0 < bg_free_inodes_count (vol_group X (inode_group (vol_sb X) n)) < 65535) :
  ∃ fs' Y, locate_inode fs n usage = Ret (Err (bad_inode usage n), fs') ∧ Shows fs' Y ∧
    free_inode_list Y = free_inode_list X ∧
    free_inodes_count (base (vol_sb Y)) = zlen (free_inode_list Y) + (if usage then -1 else 1).
Proof.
  destruct (locate_inode_ok fs X n usage Hshows Hn) as (fs' & _ & HL); [destruct usage; lia..|].
  rewrite Hbad, eqb_reflx in HL. destruct HL as [E HY]. exists fs'. eexists. split; [done|]. split; [exact HY|].
  assert (∀ g d, free_inode_list (recounted X g d) = free_inode_list X) as EL
    by (intros; unfold recounted, free_inode_list, group_free_inodes; cbn; by destruct (vol_sb X)).
  rewrite EL. split; [done|]. rewrite <- (ct_all_inodes _ Hcounted). unfold recounted. cbn. by destruct (vol_sb X).
Qed.

End Theorems.

(** ** A small volume

    Two groups of sixteen blocks and eight inodes, with blocks of 1 KiB; the last bit stands for no block. *)

Local Existing Instance Reference.bitflags.

Definition small_base : Base :=
  mkBase 16 32 0 16 12 1 0 0 16 16 8 5 6 1 20 EXT2_SIGNATURE 1 1 0 7 0 0 0 0 0.
Definition small_group0 : BlockGroupDescriptor := mkGroup 3 4 5 4 4 1 0 (zeros 12).
Definition small_group1 : BlockGroupDescriptor := mkGroup 6 7 8 12 8 0 0 (zeros 12).
Definition small_disk : SparseIO :=
  let m := sp_put (PositiveMap.empty Z) 1024 (Base_enc small_base) in
  let m := sp_put m 2048 (Group_enc small_group0 ++ Group_enc small_group1) in
  let m := sp_put m 3072 [0xFF; 0x0F] in
  let m := sp_put m 4096 [0x0F] in
  let m := sp_put m 6144 [0x07; 0x80] in
  mkSparse (sp_put m 7168 [0x00]) 33792 0.

Definition small_vol : Vol := mkVol (Basic small_base) (λ g, if g =? 0 then small_group0 else small_group1)
  (λ a g, match a with
    | ABlocks => if g =? 0 then [0xFF; 0x0F] else [0x07; 0x80]
    | AInodes => if g =? 0 then [0x0F] else [0x00]
    | ATable => zeros 1024
    end) (v_byte small_disk).

Definition small_fs (cache : bool) : Ext2 SparseIO := mkExt2 0 small_disk (Basic small_base) false false cache ∅ ∅.

Lemma small_two g : 0 ≤ g < groups (Basic small_base) → g = 0 ∨ g = 1.
Proof. change (groups (Basic small_base)) with 2. lia. Qed.

Lemma small_layout2 : Layout 33792 (Basic small_base) (vol_group small_vol).
Proof.
  split.
  - intros g a [-> | ->]%small_two; destruct a; vm_compute; (split; [discriminate|]); split; (discriminate || done).
  - intros g a h b [-> | ->]%small_two [-> | ->]%small_two Hne; destruct a, b;
      first [exfalso; by apply Hne|left; vm_compute; discriminate|right; vm_compute; discriminate].
Qed.

Lemma small_shows cache : Shows (small_fs cache) small_vol.
Proof.
  split; [|done| |].
  - split.
    + apply sparse_ok. vm_compute. reflexivity.
    + reflexivity.
    + exact small_layout2.
    + vm_compute. reflexivity.
    + done.
    + intros g [-> | ->]%small_two; split; vm_compute; reflexivity.
    + intros g a [-> | ->]%small_two; destruct a; vm_compute; reflexivity.
    + done.
  - intros n d _. cbn. by rewrite lookup_empty.
  - intros n i _. cbn. by rewrite lookup_empty.
Qed.

Lemma small_counted : Counted small_vol.
Proof.
  split; [| |vm_compute; reflexivity..]; intros g [-> | ->]%small_two; vm_compute; reflexivity.
Qed.

Lemma small_free : free_list small_vol = [13; 14; 15; 16; 20; 21; 22; 23; 24; 25; 26; 27; 28; 29; 30; 31].
Proof. vm_compute. reflexivity. Qed.

Lemma free_blocks_spec_witness : ∃ fs', free_blocks_offset (P := release) (small_fs true) 15 1 =
  Ret (Ok [20; 21; 22; 23; 24; 25; 26; 27; 28; 29; 30; 31; 13; 14; 15], fs') ∧ Shows fs' small_vol.
Proof.
  destruct (free_blocks_spec (P := release) (small_fs true) small_vol 15 1 (small_shows true) small_counted) as (_ & _ & fs' & E & H & _);
    [lia|lia|vm_compute; reflexivity|]. exists fs'. split; [|exact H]. rewrite E. vm_compute. reflexivity.
Defined.

Lemma small_existing : Forall (exists_block (vol_sb small_vol)) (free_list small_vol).
Proof. rewrite small_free. repeat (apply Forall_cons_2; [vm_compute; split; [discriminate|reflexivity]|]). apply Forall_nil_2. Qed.

Lemma locate_blocks_spec_witness : ∃ fs' Y, locate_blocks (P := release) (small_fs false) [14; 22; 13] true = Ret (Ok tt, fs') ∧
  Shows fs' Y ∧ Counted Y ∧ free_list small_vol ≡ₚ [14; 22; 13] ++ free_list Y.
Proof.
  destruct (locate_blocks_spec (P := release) (small_fs false) small_vol [14; 22; 13] true (small_shows false) small_counted)
    as (fs' & Y & E & H & Hc & _ & Hf & _).
  - apply Forall_forall, small_existing.
  - apply (bool_decide_unpack _). vm_compute. exact I.
  - intros b Hb. rewrite small_free. repeat (apply elem_of_cons in Hb as [->|Hb]; [apply (bool_decide_unpack _); vm_compute; exact I|]).
    by apply not_elem_of_nil in Hb.
  - exists fs', Y. split; [exact E|]. split; [exact H|]. split; [exact Hc|exact Hf].
Defined.

(** A regular file with the permissions 0644. *)
Lemma create_inode_spec_witness : ∃ fs1 fs2 fs3 Y, free_inode (P := dev) (small_fs true) = Ret (Ok 5, fs1) ∧
  allocate_inode (P := dev) fs1 5 0x81A4 1 2 0 0 (zeros 12) = Ret (Ok tt, fs2) ∧
  Inode_parse (P := dev) fs2 5 = Ret (Ok (Inode_create (Basic small_base) 0x81A4 1 2 0 0 (zeros 12)), fs3) ∧
  Shows fs3 Y ∧ Counted Y ∧ free_inode_list small_vol ≡ₚ 5 :: free_inode_list Y.
Proof.
  pose proof (create_inode_spec (P := dev) (small_fs true) small_vol 0x81A4 1 2 0 0 (zeros 12) TRegular (small_shows true) small_counted) as H.
  assert (free_inode_list small_vol = [5; 6; 7; 8; 9; 10; 11; 12; 13; 14; 15; 16]) as El by (vm_compute; reflexivity). rewrite El in *.
  destruct H as (fs1 & fs2 & fs3 & Y & E1 & E2 & E3 & H & Hc & _ & Hp & _); [vm_compute; reflexivity..|].
  exists fs1, fs2, fs3, Y. split; [exact E1|]. split; [exact E2|]. split; [exact E3|]. split; [exact H|]. split; [exact Hc|exact Hp].
Defined.

(** ** What the code gets wrong *)

(** A request that fails in its second group leaves the block of the first allocated and the count of that group
    changed, and the superblock's count as it was. *)
Example failed_request_miscounts :
  match allocate_blocks (P := release) (small_fs false) [13; 17] with
  | Ret (Err e, fs) =>
      e = Fs (BlockAlreadyInUse 17) ∧ free_blocks_count (base (superblock fs)) = 16 ∧
      match Group_parse (P := release) fs 0, Group_parse (P := release) fs 1 with
      | Ret (Ok d0, _), Ret (Ok d1, _) => bg_free_blocks_count d0 + bg_free_blocks_count d1 = 15
      | _, _ => False
      end
  | _ => False
  end.
Proof. vm_compute. done. Qed.

(** A volume of 28 blocks in the same groups: the bits of the last four stand for no blocks. Freeing block 31, which
    does not exist, succeeds. *)
Definition short_base : Base := mkBase 16 28 0 13 12 1 0 0 16 16 8 5 6 1 20 EXT2_SIGNATURE 1 1 0 7 0 0 0 0 0.
Definition short_disk : SparseIO :=
  let m := sp_put (sp_bytes small_disk) 1024 (Base_enc short_base) in
  let m := sp_put m 2048 (Group_enc small_group0 ++ Group_enc (set_group_blocks small_group1 9)) in
  mkSparse (sp_put m 6144 [0x07; 0xF0]) 33792 0.

Example frees_missing_block :
  match deallocate_blocks (P := release) (mkExt2 0 short_disk (Basic short_base) false false false ∅ ∅) [31] with
  | Ret (Ok _, fs) =>
      match free_blocks (P := release) fs 14 with
      | Ret (Ok l, _) => l = [13; 14; 15; 16; 20; 21; 22; 23; 24; 25; 26; 27; 28; 31]
      | _ => False
      end
  | _ => False
  end.
Proof. vm_compute. reflexivity. Qed.
