(* ===== verification/Ext2File.v ===== *)
(** * ext2 crate: the data of files

    [fs/ext2/block.rs], the reading of data in [fs/ext2/inode.rs] and the files of
    [fs/ext2/file.rs] in [kernel/crates/efs/src]. A file is its inode number, a copy of its
    inode and a position; the volume is passed along. The device of the kernel has no clock
    ([Device::now] is its default, [None]), so access times do not change. Where the code
    calls [unwrap_unchecked] on a failure, which is undefined, the model panics. *)

From Stdlib Require Import FMapPositive.
From S2P Require Import Prelude Crates BlockCache FatIo ExtBlocks Ext2Disk Ext2Alloc.

Definition MINIMAL_FILE_ALLOCATION : Z := 8192.
Definition SYMBOLIC_LINK_INODE_STORE_LIMIT : Z := 60.

(** [try_from] to [w] bits, unsigned, and what the callers do when it fails. *)
Definition try_from_u (w x : Z) : option Z := if (0 <=? x) && (x <? 2 ^ w) then Some x else None.
Definition unchecked_u (w x : Z) : out Z := unwrap (try_from_u w x).
Definition unchecked_i64 (x : Z) : out Z := unwrap (if x <? 2 ^ 63 then Some x else None).

(** [clone_from_slice] into a slice of [n] elements. *)
Definition clone_from_slice {A} (n : Z) (l : list A) : out (list A) := _ ← assert (zlen l =? n); Ret l.

(** ** Blocks *)

Record Block := mkBlock { bk_number : Z; bk_offset : Z }.

Section Blocks.
Context {P : Profile} {BF : Bitflags} {S : Type} {ST : Storage S}.
Implicit Types (fs : Ext2 S) (self : Block).

Definition Block_new (number : Z) : Block := mkBlock number 0.

Definition Block_block_group self (sb : Superblock) : out Z := block_group sb (bk_number self).
Definition Block_group_index self (sb : Superblock) : out Z := group_index sb (bk_number self).

Definition Block_is_free self (sb : Superblock) (bitmap : list Z) : out bool :=
  index_ ← Block_group_index self sb;
  d ← sub_u 32 (bk_number self) (first_data_block (base sb));
  byte ← index bitmap (index_ / 8);
  s ← shr_u 8 byte (d mod 8);
  Ret (Z.land s 1 =? 0).
Definition Block_is_used self (sb : Superblock) (bitmap : list Z) : out bool :=
  free ← Block_is_free self sb bitmap; Ret (negb free).

Definition Block_set_usage fs self (usage : bool) : out (result FsErr unit * Ext2 S) := locate_blocks fs [bk_number self] usage.
Definition Block_set_free fs self := Block_set_usage fs self false.
Definition Block_set_used fs self := Block_set_usage fs self true.

(** The bytes of a block from its position on, as many as [len] and the block allow. *)
Definition Block_range fs self (len : Z) : out (Z * Z) :=
  bs ← block_size (superblock fs);
  rest ← sub_u 32 bs (bk_offset self);
  let length := Z.min rest len in
  a ← mul_u 64 (bk_number self) bs;
  starting_addr ← add_u 64 a (bk_offset self);
  Ret (starting_addr, length).

Definition Block_read fs self (buf : list Z) : out (result FsErr (Z * list Z) * (Ext2 S * Block)) :=
  '(starting_addr, length) ← Block_range fs self (zlen buf);
  end_ ← add_u 64 starting_addr length;
  '(r, fs) ← on_device fs (dev_slice (device fs) starting_addr end_);
  match r with
  | Err e => Ret (Err e, (fs, self))
  | Ok slice =>
      buf ← clone_from_slice (zlen buf) slice;
      offset ← add_u 32 (bk_offset self) length;
      Ret (Ok (length, buf), (fs, mkBlock (bk_number self) offset))
  end.

Definition Block_write fs self (buf : list Z) : out (result FsErr Z * (Ext2 S * Block)) :=
  '(starting_addr, length) ← Block_range fs self (zlen buf);
  end_ ← add_u 64 starting_addr length;
  '(r, fs) ← on_device fs (dev_slice (device fs) starting_addr end_);
  match r with
  | Err e => Ret (Err e, (fs, self))
  | Ok slice =>
      inner ← clone_from_slice (zlen slice) (take (Z.to_nat length) buf);
      '(r, fs) ← on_device fs (dev_commit (device fs) starting_addr inner);
      match r with
      | Err e => Ret (Err e, (fs, self))
      | Ok _ =>
          offset ← add_u 32 (bk_offset self) length;
          Ret (Ok length, (fs, mkBlock (bk_number self) offset))
      end
  end.

Definition Block_seek fs self (pos : SeekFrom) : out (result FsErr Z * (Ext2 S * Block)) :=
  bs ← block_size (superblock fs);
  let previous_offset := bk_offset self in
  target ← match pos with
    | SeekStart offset => Ret offset
    | SeekEnd back_offset => add_i 64 bs (- back_offset)
    | SeekCurrent add_offset => add_i 64 previous_offset add_offset
    end;
  match try_from_u 32 target with
  | None => Ret (Err (Fs (OutOfBounds target)), (fs, self))
  | Some offset =>
      Ret (if bs <=? offset then Err (Fs (OutOfBounds offset)) else Ok previous_offset, (fs, mkBlock (bk_number self) offset))
  end.

Definition Block_read_all fs self : out (result FsErr (list Z) * (Ext2 S * Block)) :=
  bs ← block_size (superblock fs);
  let? (_, st) := Block_seek fs self (SeekStart 0) in
  let? (r, st) := Block_read st.1 st.2 (zeros (Z.to_nat bs)) in
  let? (_, st) := Block_seek st.1 st.2 (SeekStart 0) in
  Ret (Ok r.2, st).

(** The default method of [Write]; a turn writes a byte at least, so the length of the buffer is
    enough fuel. *)
Fixpoint Block_write_all_loop (fuel : nat) fs self (buf : list Z) : out (result FsErr unit * (Ext2 S * Block)) :=
  match buf, fuel with
  | [], _ => Ret (Ok tt, (fs, self))
  | _, O => Panic
  | _, Datatypes.S fuel =>
      let? (n, st) := Block_write fs self buf in
      if n =? 0 then Ret (Err (Device (DevStorage WriteZero)), st)
      else Block_write_all_loop fuel st.1 st.2 (drop (Z.to_nat n) buf)
  end.
Definition Block_write_all fs self (buf : list Z) := Block_write_all_loop (length buf) fs self buf.

End Blocks.

(** ** The data of an inode *)

Section Data.
Context {P : Profile} {BF : Bitflags} {S : Type} {ST : Storage S}.
Implicit Types fs : Ext2 S.

Definition Inode_is_free (inode_number : Z) (sb : Superblock) (bitmap : list Z) : out bool :=
  index_ ← Inode_group_index sb inode_number;
  d ← sub_u 32 inode_number 1;
  byte ← index bitmap (index_ / 8);
  s ← shr_u 8 byte (d mod 8);
  Ret (Z.land s 1 =? 0).
Definition Inode_is_used (inode_number : Z) (sb : Superblock) (bitmap : list Z) : out bool :=
  free ← Inode_is_free inode_number sb bitmap; Ret (negb free).

Definition read_indirect_block fs (block_number : Z) : out (result FsErr (list Z) * Ext2 S) :=
  bs ← block_size (superblock fs);
  block_address ← mul_u 64 block_number bs;
  end_ ← add_u 64 block_address bs;
  let? (byte_array, fs) := on_device fs (dev_slice (device fs) block_address end_) in
  let address_array := (rd_words (Z.to_nat (zlen byte_array / 4)) byte_array).1 in
  Ret (Ok (filter (λ b, b ≠ 0) address_array), fs).

(** The loops over a double indirection block, over the simple ones behind a triple one, and over
    a triple one. The boolean is whether the loop is left by the [return] in it, which drops
    [dib] and what it holds. *)
Fixpoint read_double fs (data_blocks bpi parsed : Z) (pointers : list Z) (acc : list SimpleIndirection) :
    out (result FsErr (bool * Z * list SimpleIndirection) * Ext2 S) :=
  match pointers with
  | [] => Ret (Ok (false, parsed, acc), fs)
  | block_pointer :: pointers =>
      if (block_pointer =? 0) || (data_blocks <=? parsed) then Ret (Ok (true, parsed, acc), fs)
      else
        let? (l, fs) := read_indirect_block fs block_pointer in
        parsed ← add_u 32 parsed bpi;
        read_double fs data_blocks bpi parsed pointers (acc ++ [(block_pointer, l)])
  end.

Fixpoint read_dib fs (data_blocks parsed : Z) (pointers : list Z) (dib : list SimpleIndirection) :
    out (result FsErr (bool * list SimpleIndirection) * Ext2 S) :=
  match pointers with
  | [] => Ret (Ok (false, dib), fs)
  | block_pointer :: pointers =>
      if (block_pointer =? 0) || (data_blocks <=? parsed) then Ret (Ok (true, dib), fs)
      else
        let? (l, fs) := read_indirect_block fs block_pointer in
        read_dib fs data_blocks parsed pointers (dib ++ [(block_pointer, l)])
  end.

Fixpoint read_triple fs (data_blocks bpi parsed : Z) (pointers : list Z) (acc : list DoubleIndirection) :
    out (result FsErr (list DoubleIndirection) * Ext2 S) :=
  match pointers with
  | [] => Ret (Ok acc, fs)
  | block_pointer_pointer :: pointers =>
      if (block_pointer_pointer =? 0) || (data_blocks <=? parsed) then Ret (Ok acc, fs)
      else
        let? (l, fs) := read_indirect_block fs block_pointer_pointer in
        parsed ← add_u 32 parsed bpi;
        let? (r, fs) := read_dib fs data_blocks parsed l [] in
        if r.1 : bool then Ret (Ok acc, fs)
        else read_triple fs data_blocks bpi parsed pointers (acc ++ [(block_pointer_pointer, r.2)])
  end.

(** The end of the function: the blocks behind the size are cut off. *)
Definition cut_blocks fs (data_blocks : Z) (blocks : IndirectedBlocks) : out (result FsErr IndirectedBlocks * Ext2 S) :=
  blocks ← truncate_back_data_blocks blocks data_blocks; Ret (Ok blocks, fs).

Definition indirected_blocks fs (self : Inode) : out (result FsErr IndirectedBlocks * Ext2 S) :=
  bs ← block_size (superblock fs);
  q ← div_u (Z.max (data_size self - 1) 0) bs;
  n ← add_u 64 1 q;
  data_blocks ← unchecked_u 32 n;
  let bpi := bs / 4 in
  let direct := filter (λ b, b ≠ 0) (direct_block_pointers self) in
  let parsed := Z.min DBPC data_blocks in
  let p1 := singly_indirect_block_pointer self in
  let p2 := doubly_indirect_block_pointer self in
  let p3 := triply_indirect_block_pointer self in
  if (p1 =? 0) || (data_blocks <=? parsed) then cut_blocks fs data_blocks (mkBlocks bpi direct (p1, []) (p2, []) (p3, []))
  else
    let? (simple, fs) := read_indirect_block fs p1 in
    parsed ← add_u 32 parsed bpi;
    if (p2 =? 0) || (data_blocks <=? parsed) then cut_blocks fs data_blocks (mkBlocks bpi direct (p1, simple) (p2, []) (p3, []))
    else
      let? (pointers, fs) := read_indirect_block fs p2 in
      let? (r, fs) := read_double fs data_blocks bpi parsed pointers [] in
      let '(stop, parsed, double) := r in
      if stop || (p3 =? 0) || (data_blocks <=? parsed) then
        cut_blocks fs data_blocks (mkBlocks bpi direct (p1, simple) (p2, double) (p3, []))
      else
        let? (pointers, fs) := read_indirect_block fs p3 in
        let? (triple, fs) := read_triple fs data_blocks bpi parsed pointers [] in
        cut_blocks fs data_blocks (mkBlocks bpi direct (p1, simple) (p2, double) (p3, triple)).

(** Copying [count] bytes at [from] of a block into the buffer. *)
Definition copy_block fs (block_number from count read_bytes : Z) (buffer : list Z) : out (result FsErr (list Z) * Ext2 S) :=
  bs ← block_size (superblock fs);
  block_addr ← mul_u 64 block_number bs;
  start ← add_u 64 block_addr from;
  end_ ← add_u 64 start count;
  let? (slice, fs) := on_device fs (dev_slice (device fs) start end_) in
  slice ← clone_from_slice count slice;
  Ret (Ok (splice buffer read_bytes slice), fs).

Fixpoint read_data_loop fs (size : Z) (blocks : list Z) (buffer : list Z) (read_bytes offset : Z) :
    out (result FsErr (Z * list Z) * Ext2 S) :=
  match blocks with
  | [] => Ret (Ok (read_bytes, buffer), fs)
  | block_number :: blocks =>
      if (read_bytes =? size) || (read_bytes =? zlen buffer) then Ret (Ok (read_bytes, buffer), fs)
      else
        bs ← block_size (superblock fs);
        if offset =? 0 then
          rest ← sub_u 64 (zlen buffer) read_bytes;
          let count := Z.min bs rest in
          let? (buffer, fs) := copy_block fs block_number 0 count read_bytes buffer in
          read_bytes ← add_u 64 read_bytes count;
          read_data_loop fs size blocks buffer read_bytes 0
        else if bs <=? offset then
          offset ← sub_u 64 offset bs;
          read_data_loop fs size blocks buffer read_bytes offset
        else
          rest ← sub_u 64 (zlen buffer) read_bytes;
          let data_count := Z.min bs rest in
          if data_count <? offset then read_data_loop fs size blocks buffer (zlen buffer) 0
          else
            let count := data_count - offset in
            let? (buffer, fs) := copy_block fs block_number offset count read_bytes buffer in
            read_bytes ← add_u 64 read_bytes count;
            read_data_loop fs size blocks buffer read_bytes 0
  end.

(** The bytes read, and the buffer. *)
Definition read_data fs (self : Inode) (buffer : list Z) (offset : Z) : out (result FsErr (Z * list Z) * Ext2 S) :=
  let? (blocks, fs) := indirected_blocks fs self in
  blocks ← flatten_data_blocks blocks;
  read_data_loop fs (data_size self) blocks buffer 0 offset.

(** [deallocate_inode] of [mod.rs]. *)
Definition set_links (i : Inode) (n : Z) : Inode :=
  mkInode (i_mode i) (i_uid i) (i_size i) (i_atime i) (i_ctime i) (i_mtime i) (i_dtime i) (i_gid i) n (i_blocks i) (i_flags i)
    (osd1 i) (direct_block_pointers i) (singly_indirect_block_pointer i) (doubly_indirect_block_pointer i)
    (triply_indirect_block_pointer i) (generation i) (file_acl i) (dir_acl i) (faddr i) (osd2 i).

Definition deallocate_inode fs (inode_number : Z) : out (result FsErr unit * Ext2 S) :=
  let? (inode, fs) := Inode_parse fs inode_number in
  match file_type inode with
  | Err e => Ret (Err (Fs e), fs)
  | Ok t =>
      links ← sub_u 16 (links_count inode) (match t with TDirectory => 2 | _ => 1 end);
      let inode := set_links inode links in
      let? (_, fs) :=
        if links =? 0 then
          let? (_, fs) :=
            if match t with TRegular | TDirectory => true | TSymbolicLink => SYMBOLIC_LINK_INODE_STORE_LIMIT <=? data_size inode | _ => false end then
              let? (blocks, fs) := indirected_blocks fs inode in
              blocks ← flatten_data_blocks blocks;
              deallocate_blocks fs blocks
            else Ret (Ok tt, fs) in
          locate_inode fs inode_number false
        else Ret (Ok tt, fs) in
      Inode_write_on_device fs inode_number inode
  end.

End Data.

(** ** Files *)

Record File := mkFile { f_inode_number : Z; f_inode : Inode; f_io_offset : Z }.

Definition set_inode_size (i : Inode) (size : Z) : Inode :=
  mkInode (i_mode i) (i_uid i) size (i_atime i) (i_ctime i) (i_mtime i) (i_dtime i) (i_gid i) (links_count i) (i_blocks i) (i_flags i)
    (osd1 i) (direct_block_pointers i) (singly_indirect_block_pointer i) (doubly_indirect_block_pointer i)
    (triply_indirect_block_pointer i) (generation i) (file_acl i) (dir_acl i) (faddr i) (osd2 i).
Definition set_owner (i : Inode) (mode uid gid : Z) : Inode :=
  mkInode mode uid (i_size i) (i_atime i) (i_ctime i) (i_mtime i) (i_dtime i) gid (links_count i) (i_blocks i) (i_flags i)
    (osd1 i) (direct_block_pointers i) (singly_indirect_block_pointer i) (doubly_indirect_block_pointer i)
    (triply_indirect_block_pointer i) (generation i) (file_acl i) (dir_acl i) (faddr i) (osd2 i).
Definition set_content (i : Inode) (size blocks : Z) (direct : list Z) (p1 p2 p3 acl : Z) : Inode :=
  mkInode (i_mode i) (i_uid i) size (i_atime i) (i_ctime i) (i_mtime i) (i_dtime i) (i_gid i) (links_count i) blocks (i_flags i)
    (osd1 i) direct p1 p2 p3 (generation i) (file_acl i) acl (faddr i) (osd2 i).

Section Files.
Context {P : Profile} {BF : Bitflags} {S : Type} {ST : Storage S}.
Implicit Types (fs : Ext2 S) (self : File).

Definition set_offset self (o : Z) : File := mkFile (f_inode_number self) (f_inode self) o.

(** A call on the volume that leaves the file as it is. *)
Definition on_volume {A} self (m : out (result FsErr A * Ext2 S)) : out (result FsErr A * (Ext2 S * File)) :=
  '(r, fs) ← m; Ret (r, (fs, self)).

Definition File_new fs (inode_number : Z) : out (result FsErr File * Ext2 S) :=
  let? (inode, fs) := Inode_parse fs inode_number in
  Ret (Ok (mkFile inode_number inode 0), fs).

Definition update_inner_inode fs self : out (result FsErr unit * (Ext2 S * File)) :=
  let? (inode, st) := on_volume self (Inode_parse fs (f_inode_number self)) in
  Ret (Ok tt, (st.1, mkFile (f_inode_number self) inode (f_io_offset self))).

Definition set_inode fs self (inode : Inode) : out (result FsErr unit * (Ext2 S * File)) :=
  let? (_, st) := on_volume self (Inode_write_on_device fs (f_inode_number self) inode) in
  update_inner_inode st.1 st.2.

Definition truncate fs self (size : Z) : out (result FsErr unit * (Ext2 S * File)) :=
  if data_size (f_inode self) <=? size then Ret (Ok tt, (fs, self))
  else
    let new_inode := set_inode_size (f_inode self) (Z.land (2 ^ 32 - 1) size) in
    let? (_, st) := on_volume self (Inode_write_on_device fs (f_inode_number self) new_inode) in
    bs ← block_size (superblock st.1);
    q ← div_u (Z.max (size - 1) 0) bs;
    q ← unchecked_u 32 q;
    kept_data_blocks_number ← add_u 32 1 q;
    let? (blocks, st) := on_volume self (indirected_blocks st.1 (f_inode self)) in
    symmetrical_difference ← truncate_front_data_blocks blocks kept_data_blocks_number;
    indirected ← changed_indirected_blocks symmetrical_difference;
    let deallocated_blocks := changed_data_blocks symmetrical_difference ++ ((λ p, p.2.1) <$> indirected) in
    let? (_, st) := on_volume self (deallocate_blocks st.1 deallocated_blocks) in
    update_inner_inode st.1 (set_offset self 0).

Definition File_seek self (pos : SeekFrom) : out (result FsErr Z * File) :=
  file_length ← unchecked_i64 (data_size (f_inode self));
  let previous_offset := f_io_offset self in
  r ← match pos with
    | SeekStart offset => Ret (Ok offset)
    | SeekEnd back_offset =>
        e ← add_i 64 file_length back_offset;
        match try_from_u 64 e with
        | Some o => Ret (Ok o)
        | None => x ← add_i 64 file_length (- back_offset); Ret (Err (Fs (OutOfBounds x)))
        end
    | SeekCurrent add_offset =>
        p ← unchecked_i64 previous_offset;
        e ← add_i 64 p add_offset;
        Ret (match try_from_u 64 e with Some o => Ok o | None => Err (Fs (OutOfBounds e)) end)
    end;
  match r with
  | Err e => Ret (Err e, self)
  | Ok o =>
      Ret (if data_size (f_inode self) <? o then Err (Fs (OutOfBounds o)) else Ok previous_offset, set_offset self o)
  end.

Definition on_file {A} fs (m : out (result FsErr A * File)) : out (result FsErr A * (Ext2 S * File)) :=
  '(r, self) ← m; Ret (r, (fs, self)).

Definition File_read fs self (buf : list Z) : out (result FsErr (Z * list Z) * (Ext2 S * File)) :=
  let? (r, st) := on_volume self (read_data fs (f_inode self) buf (f_io_offset self)) in
  offset ← add_u 64 (f_io_offset self) r.1;
  Ret (Ok r, (st.1, set_offset self offset)).

Definition read_all fs self : out (result FsErr (list Z) * (Ext2 S * File)) :=
  let? (previous_offset, st) := on_file fs (File_seek self (SeekStart 0)) in
  let? (r, st) := File_read st.1 st.2 (zeros (Z.to_nat (data_size (f_inode self)))) in
  let? (_, st) := on_file st.1 (File_seek st.2 (SeekStart previous_offset)) in
  Ret (Ok r.2, st).

Definition get_type self : out FileType := match file_type (f_inode self) with Ok t => Ret t | Err _ => Panic end.

Record Stat := mkStat {
  st_dev : Z; st_ino : Z; st_mode : Z; st_nlink : Z; st_uid : Z; st_gid : Z; st_rdev : Z; st_size : Z;
  st_atim : Z; st_mtim : Z; st_ctim : Z; st_blksize : Z; st_blkcnt : Z;
}.

Definition File_stat fs self : out Stat :=
  let i := f_inode self in
  bs ← block_size (superblock fs);
  Ret (mkStat (device_id fs) (f_inode_number self) (i_mode i) (links_count i) (i_uid i) (i_gid i) 0
    (if data_size i <? 2 ^ 63 then data_size i else 0) (i_atime i) (i_mtime i) (i_ctime i) bs (i_blocks i)).

Definition set_mode fs self (mode : Z) : out (result FsErr unit * (Ext2 S * File)) :=
  let i := f_inode self in
  let type_bits := fl_truncate TypePermissions_all (Z.shiftl (Z.shiftr (type_permissions i) 12) 12) in
  set_inode fs self (set_owner i (Z.lor mode type_bits) (i_uid i) (i_gid i)).

Definition set_uid fs self (uid : Z) : out (result FsErr unit * (Ext2 S * File)) :=
  match try_from_u 16 uid with
  | None => Ret (Err (Fs (UidTooLarge uid)), (fs, self))
  | Some uid => set_inode fs self (set_owner (f_inode self) (i_mode (f_inode self)) uid (i_gid (f_inode self)))
  end.

Definition set_gid fs self (gid : Z) : out (result FsErr unit * (Ext2 S * File)) :=
  match try_from_u 16 gid with
  | None => Ret (Err (Fs (GidTooLarge gid)), (fs, self))
  | Some gid => set_inode fs self (set_owner (f_inode self) (i_mode (f_inode self)) (i_uid (f_inode self)) gid)
  end.

(** ** Writing *)

(** The parts of the changed indirection blocks; a position other than zero is sought first. *)
Fixpoint write_indirections fs (changed : list (Z * (Z * list Z))) : out (result FsErr unit * Ext2 S) :=
  match changed with
  | [] => Ret (Ok tt, fs)
  | (starting_index, (indirection_block, blocks)) :: changed =>
      let block := Block_new indirection_block in
      '(r, st) ← (if negb (starting_index =? 0) then Block_seek fs block (SeekStart starting_index) else Ret (Ok 0, (fs, block)));
      match r with
      | Err e => Ret (Err e, st.1)
      | Ok _ =>
          '(r, st) ← Block_write_all st.1 st.2 (words_le blocks);
          match r with
          | Err e => Ret (Err e, st.1)
          | Ok _ => write_indirections st.1 changed
          end
      end
  end.

(** The first data block, from the position in it on. *)
Definition write_first fs (io_offset : Z) (buf : list Z) (blocks : list Z) : out (result FsErr Z * Ext2 S) :=
  match blocks with
  | [] => Ret (Ok 0, fs)
  | block_number :: _ =>
      bs ← block_size (superblock fs);
      o ← rem_u io_offset bs;
      '(r, st) ← Block_seek fs (Block_new block_number) (SeekStart o);
      match r with
      | Err e => Ret (Err e, st.1)
      | Ok _ => '(r, st) ← Block_write st.1 st.2 buf; Ret (r, st.1)
      end
  end.

(** The blocks behind it. *)
Fixpoint write_rest fs (blocks : list Z) (buf : list Z) (written_bytes : Z) : out (result FsErr Z * Ext2 S) :=
  match blocks with
  | [] => Ret (Ok written_bytes, fs)
  | block_number :: blocks =>
      rest ← sub_u 64 (zlen buf) written_bytes;
      end_ ← add_u 64 written_bytes (Z.min (blocks_per_group (base (superblock fs))) rest);
      if zlen buf <? end_ then Ret (Ok written_bytes, fs)
      else
        '(r, st) ← Block_write fs (Block_new block_number) (subslice buf written_bytes end_);
        match r with
        | Err e => Ret (Err e, st.1)
        | Ok new_written_bytes =>
            if new_written_bytes =? 0 then Ret (Ok written_bytes, st.1)
            else
              written_bytes ← add_u 64 written_bytes new_written_bytes;
              write_rest st.1 blocks buf written_bytes
        end
  end.

(** The inode with the new blocks and size. *)
Definition updated_inode (i : Inode) (bs data_blocks_needed io_offset buf_len : Z) (blocks : IndirectedBlocks) : out Inode :=
  let direct := direct_blocks blocks in
  room ← sub_u 64 12 (zlen direct);
  direct ← clone_from_slice 12 (direct ++ take (Z.to_nat room) (replicate 12 0));
  e ← add_u 64 io_offset buf_len;
  let new_size := Z.max (data_size i) e in
  b ← mul_u 32 data_blocks_needed bs;
  Ret (set_content i (Z.land new_size (2 ^ 32 - 1)) (b / 512) direct (singly_indirected_blocks blocks).1
    (doubly_indirected_blocks blocks).1 (triply_indirected_blocks blocks).1 (Z.land (Z.shiftr new_size 32) (2 ^ 32 - 1))).

(** The blocks of the file, cut at its size or the minimal allocation, and the blocks to ask for. *)
Definition blocks_to_request (blocks : IndirectedBlocks) (data_blocks_needed bs : Z) : out Z :=
  current_data_block_count ← data_block_count blocks;
  let data_blocks_to_request := Z.max (data_blocks_needed - current_data_block_count) 0 in
  current_indirection_block_count ← indirection_block_count blocks;
  n ← necessary_indirection_block_count data_blocks_needed (bs / 4);
  indirection_blocks_to_request ← sub_u 32 n current_indirection_block_count;
  add_u 32 data_blocks_to_request indirection_blocks_to_request.

Definition start_group (sb : Superblock) (blocks : IndirectedBlocks) : out Z :=
  last ← last_data_block_allocated blocks;
  match last with Some (block, _) => block_group sb block | None => Ret 0 end.

(** The blocks of the file and those allocated for [data_blocks_needed]. *)
Definition grow fs self (data_blocks_needed bs : Z) : out (result FsErr (IndirectedBlocks * list Z) * Ext2 S) :=
  let? (blocks, fs) := indirected_blocks fs (f_inode self) in
  q ← div_u (Z.max (data_size (f_inode self)) MINIMAL_FILE_ALLOCATION - 1) bs;
  q ← unchecked_u 32 q;
  n ← add_u 32 1 q;
  blocks ← truncate_back_data_blocks blocks n;
  n ← blocks_to_request blocks data_blocks_needed bs;
  start_block_group ← start_group (superblock fs) blocks;
  let? (free, fs) := free_blocks_offset fs n start_block_group in
  let? (_, fs) := allocate_blocks fs free in
  Ret (Ok (blocks, free), fs).

(** The contents of the blocks; the bytes written. *)
Definition write_blocks fs (changed : SymmetricDifference) (io_offset : Z) (buf : list Z) : out (result FsErr Z * Ext2 S) :=
  indirections ← changed_indirected_blocks changed;
  let? (_, fs) := write_indirections fs indirections in
  let data := changed_data_blocks changed in
  let? (written_bytes, fs) := write_first fs io_offset buf data in
  write_rest fs (tail data) buf written_bytes.

Definition File_write fs self (buf : list Z) : out (result FsErr Z * (Ext2 S * File)) :=
  bs ← block_size (superblock fs);
  let buf_len := zlen buf in
  max ← max_file_size (superblock fs);
  if max <? buf_len then Ret (Err (Fs (OutOfBounds buf_len)), (fs, self))
  else
    match file_type (f_inode self) with
    | Err e => Ret (Err (Fs e), (fs, self))
    | Ok t =>
        let bytes_to_write := match t with TRegular => Z.max buf_len MINIMAL_FILE_ALLOCATION | _ => buf_len end in
        a ← add_u 64 bytes_to_write (f_io_offset self);
        a ← sub_u 64 a 1;
        q ← div_u a bs;
        q ← unchecked_u 32 q;
        data_blocks_needed ← add_u 32 1 q;
        bytes ← mul_u 64 data_blocks_needed bs;
        if negb (opt_large_files fs) && (2 ^ 32 - 1 <=? bytes) then Ret (Err (Fs FileTooLarge), (fs, self))
        else
          let? (r, st) := on_volume self (grow fs self data_blocks_needed bs) in
          let '(blocks, free) := r in
          o ← div_u (f_io_offset self) bs;
          o ← unchecked_u 32 o;
          '(new_blocks, changed) ← append_blocks_with_difference blocks free (Some o);
          let? (written_bytes, st) := on_volume self (write_blocks st.1 changed (f_io_offset self) buf) in
          inode ← updated_inode (f_inode self) bs data_blocks_needed (f_io_offset self) buf_len new_blocks;
          let? (_, st) := set_inode st.1 st.2 inode in
          n ← unwrap (if buf_len <? 2 ^ 63 then Some buf_len else None);
          let? (_, st) := on_file st.1 (File_seek st.2 (SeekCurrent n)) in
          Ret (Ok written_bytes, st)
    end.


(** ** The kernel's inode of a file

    [Ext2File] of [kernel/src/fs/ext2.rs]. Both calls report the length of the buffer, whatever
    was read or written; the buffer of a read that fails is given back as it was. *)

Definition inode_read_at fs self (offset : Z) (buf : list Z) : out (Z * list Z * (Ext2 S * File)) :=
  '(r, self) ← File_seek self (SeekStart offset);
  match r with
  | Err _ => Ret (0, buf, (fs, self))
  | Ok _ =>
      '(r, st) ← File_read fs self buf;
      match r with
      | Err _ => Ret (0, buf, st)
      | Ok (_, buf) =>
          '(r, self) ← File_seek st.2 (SeekStart 0);
          Ret (match r with Err _ => 0 | Ok _ => zlen buf end, buf, (st.1, self))
      end
  end.

Definition inode_write_at fs self (offset : Z) (buf : list Z) : out (Z * (Ext2 S * File)) :=
  '(r, self) ← File_seek self (SeekStart offset);
  match r with
  | Err _ => Ret (0, (fs, self))
  | Ok _ =>
      '(r, st) ← File_write fs self buf;
      match r with
      | Err _ => Ret (0, st)
      | Ok _ =>
          '(r, self) ← File_seek st.2 (SeekStart 0);
          Ret (match r with Err _ => 0 | Ok _ => zlen buf end, (st.1, self))
      end
  end.

Definition inode_size_of fs self : out Z := s ← File_stat fs self; Ret (st_size s).

End Files.

(** ** The data of a volume

    A block of data lies on the disk and outside the structures of the volume. *)

Record DataBlock (size : Z) (X : Vol) (b : Z) : Prop := {
  db_number : 0 ≤ b;
  db_end : b * block_bytes (vol_sb X) + block_bytes (vol_sb X) ≤ size;
  db_data i : b * block_bytes (vol_sb X) ≤ i < b * block_bytes (vol_sb X) + block_bytes (vol_sb X) → DataByte (vol_sb X) (vol_group X) i;
}.

Definition block_data (X : Vol) (b : Z) : list Z :=
  vol_data X <$> range (b * block_bytes (vol_sb X)) (b * block_bytes (vol_sb X) + block_bytes (vol_sb X)).

(** The words of an indirection block: the numbers [l], then zeros. The bytes of a list of blocks. *)
Definition block_words (X : Vol) (b : Z) : list Z := (rd_words (Z.to_nat (block_bytes (vol_sb X) / 4)) (block_data X b)).1.
Definition padded (n : Z) (l : list Z) : list Z := l ++ replicate (Z.to_nat n - length l) 0.
Definition points_to (X : Vol) (b : Z) (l : list Z) : Prop := block_words X b = padded (block_bytes (vol_sb X) / 4) l.
Definition bytes_of (X : Vol) (blocks : list Z) : list Z := blocks ≫= block_data X.

(** The volume [X] keeps the blocks of the inode [i] as [ib]. *)
Record HasBlocks (size : Z) (X : Vol) (i : Inode) (ib : IndirectedBlocks) : Prop := {
  hb_small : Small ib;
  hb_bpi : blocks_per_indirection ib = block_bytes (vol_sb X) / 4;
  hb_direct : direct_block_pointers i = padded 12 (direct_blocks ib);
  hb_p1 : singly_indirect_block_pointer i = (singly_indirected_blocks ib).1;
  hb_p2 : doubly_indirect_block_pointer i = (doubly_indirected_blocks ib).1;
  hb_p3 : triply_indirect_block_pointer i = 0;
  hb_on_disk : Forall (DataBlock size X) (traverse ib);
  hb_simple : (singly_indirected_blocks ib).2 ≠ [] → points_to X (singly_indirected_blocks ib).1 (singly_indirected_blocks ib).2;
  hb_double : (doubly_indirected_blocks ib).2 ≠ [] → points_to X (doubly_indirected_blocks ib).1 (doubly_indirected_blocks ib).2.*1;
  hb_inner : Forall (λ s, points_to X s.1 s.2) (doubly_indirected_blocks ib).2;
}.

(** How many blocks the size of a file asks for. *)
Definition size_blocks (sb : Superblock) (size : Z) : Z := 1 + Z.max (size - 1) 0 / block_bytes sb.

(** A byte string is the content of the file when the blocks hold it. *)
Definition content (X : Vol) (ib : IndirectedBlocks) (size : Z) : list Z := take (Z.to_nat size) (bytes_of X (blocks_of ib)).

Section Reading.
Context {P : Profile} {BF : Bitflags} {S : Type} {ST : Storage S} {V : View S} {FS : FlatStorage S} {ES : EndSeek S}.
Implicit Types (fs : Ext2 S) (X : Vol).

Lemma data_slice_ok fs X a b : Shows fs X → 0 ≤ a ≤ b → b ≤ v_size (device fs) → (∀ i, a ≤ i < b → DataByte (vol_sb X) (vol_group X) i) →
  ∃ fs', on_device fs (dev_slice (device fs) a b) = Ret (Ok (vol_data X <$> range a b), fs') ∧ Shows fs' X ∧ Mounted fs fs'.
Proof.
  intros H Ha Hb HD. destruct (on_device_slice fs X a b H Ha Hb) as (fs' & -> & H' & M). exists fs'. split; [|done]. do 3 f_equal.
  apply list_fmap_ext. intros k x Hx%lookup_seqZ. apply (ds_data _ _ (sh_dev _ _ H)); [lia|apply HD; lia].
Qed.

Lemma zlen_block_data X b : 0 ≤ block_bytes (vol_sb X) → zlen (block_data X b) = block_bytes (vol_sb X).
Proof. intros H. unfold block_data. rewrite zlen_fmap_range; lia. Qed.

(** The address of a block does not overflow. *)
Lemma block_address fs X b : Shows fs X → DataBlock (v_size (device fs)) X b →
  block_size (superblock fs) = Ret (block_bytes (vol_sb X)) ∧ mul_u 64 b (block_bytes (vol_sb X)) = Ret (b * block_bytes (vol_sb X)) ∧
  1024 ≤ block_bytes (vol_sb X) ≤ 2 ^ 26 ∧ 0 ≤ b * block_bytes (vol_sb X) ∧ v_size (device fs) < 2 ^ 62.
Proof.
  intros H Hb. pose proof (sh_dev _ _ H) as Hd. destruct (block_size_ok _ (ds_wf _ _ Hd)) as [E Hbs]. pose proof (v_small _ (ds_ok _ _ Hd)) as [_ Hsz].
  destruct Hb as [Hn He _]. rewrite (sh_super _ _ H). split_and!; [done| |lia|lia|nia|lia]. apply mul_u_ok. nia.
Qed.

Lemma filter_padded n l : Forall (λ b, b ≠ 0) l → filter (λ b, b ≠ 0) (padded n l) = l.
Proof.
  intros Hl. unfold padded. rewrite filter_app. assert (∀ k, filter (λ b, b ≠ 0) (replicate k 0) = []) as -> by (by intros k; induction k).
  rewrite app_nil_r. induction Hl as [|x l Hx _ IH]; [done|]. rewrite filter_cons_True by done. by rewrite IH.
Qed.

Lemma read_indirect_block_ok fs X b l : Shows fs X → DataBlock (v_size (device fs)) X b → points_to X b l → Forall (λ b, b ≠ 0) l →
  ∃ fs', read_indirect_block fs b = Ret (Ok l, fs') ∧ Shows fs' X ∧ Mounted fs fs'.
Proof.
  intros H Hb Hp Hl. destruct (block_address fs X b H Hb) as (E1 & E2 & Hbs & Ha & Hsz). pose proof (db_end _ _ _ Hb).
  unfold read_indirect_block. rewrite E1. run. rewrite E2. run. rewrite add_u_ok by lia. run.
  destruct (data_slice_ok fs X (b * block_bytes (vol_sb X)) (b * block_bytes (vol_sb X) + block_bytes (vol_sb X))) as (fs' & -> & H' & M); [done|lia|done|apply Hb|].
  run. exists fs'. split; [|done]. fold (block_data X b). rewrite zlen_block_data by lia. fold (block_words X b). by rewrite Hp, filter_padded.
Qed.

(** The loop over a double indirection reads its simple ones until the size is reached. *)
Lemma read_double_ok X n bpi l : ∀ fs parsed acc, Shows fs X → 0 ≤ parsed → 0 ≤ bpi → parsed + zlen l * bpi < 2 ^ 32 →
  Forall (λ s, s.1 ≠ 0 ∧ DataBlock (v_size (device fs)) X s.1 ∧ points_to X s.1 s.2 ∧ Forall (λ b, b ≠ 0) s.2) l →
  ∃ j stop fs', read_double fs n bpi parsed l.*1 acc = Ret (Ok (stop, parsed + Z.of_nat j * bpi, acc ++ take j l), fs') ∧
    (j ≤ length l)%nat ∧ ((j < length l)%nat → n ≤ parsed + Z.of_nat j * bpi) ∧ Shows fs' X ∧ Mounted fs fs'.
Proof.
  induction l as [|[p data] l IH]; intros fs parsed acc H Hp Hb Hlen Hl.
  { exists 0%nat, false, fs. cbn. rewrite app_nil_r, Z.add_0_r. split_and!; [done|lia|lia|done|done]. }
  apply Forall_cons in Hl as [(Hz & Hd & Hq & Hnz) Hl]. cbn [fst snd] in *. rewrite zlen_cons in Hlen. pose proof (zlen_nonneg l). cbn [read_double fmap list_fmap fst].
  rewrite (proj2 (Z.eqb_neq p 0)) by done. cbn [orb]. destruct (Z.leb_spec n parsed) as [Hn|Hn].
  { exists 0%nat, true, fs. cbn [take]. rewrite app_nil_r, Z.mul_0_l, Z.add_0_r. split_and!; [done|cbn; lia|lia|done|done]. }
  destruct (read_indirect_block_ok fs X p data H Hd Hq Hnz) as (fs1 & -> & H1 & M1). run. rewrite add_u_ok by nia. run.
  destruct (IH fs1 (parsed + bpi) (acc ++ [(p, data)])) as (j & stop & fs2 & E & Hj & Hs & H2 & M2); [done|lia|done|lia| |].
  { eapply Forall_impl; [exact Hl|]. cbn. intros x. by rewrite (mo_size _ _ M1). }
  rewrite E. exists (Datatypes.S j), stop, fs2. cbn [take length].
  replace (parsed + bpi + Z.of_nat j * bpi) with (parsed + Z.of_nat (Datatypes.S j) * bpi) in * by lia.
  rewrite <- app_assoc. split_and!; [done|lia|intros; apply Hs; lia|done|by etrans].
Qed.

(** The blocks of a file are in [traverse] with the indirection blocks. *)
Lemma traverse_double ib s : Small ib → s ∈ (doubly_indirected_blocks ib).2 → s.1 ∈ traverse ib ∧ ∀ b, b ∈ s.2 → b ∈ traverse ib.
Proof.
  intros H Hs. assert (∀ b, b ∈ walk1 s → b ∈ traverse ib) as Hw.
  { intros b Hb. unfold traverse, behind. rewrite !elem_of_app. right. right.
    assert (b ∈ (doubly_indirected_blocks ib).2 ≫= walk1) as Hin by (apply list_elem_of_bind; by exists s).
    rewrite bool_decide_eq_false_2 by (intros E; rewrite E in Hin; by apply not_elem_of_nil in Hin). by apply elem_of_cons; right. }
  split; [|intros b Hb]; apply Hw; apply elem_of_cons; auto.
Qed.

Lemma traverse_head_double ib : (doubly_indirected_blocks ib).2 ≠ [] → (doubly_indirected_blocks ib).1 ∈ traverse ib.
Proof.
  intros H. unfold traverse, behind. rewrite !elem_of_app. right. right. rewrite bool_decide_eq_false_2; [by apply elem_of_cons; left|].
  intros E. apply (f_equal length) in E. rewrite length_walk in E. destruct ((doubly_indirected_blocks ib).2); [done|cbn in E; lia].
Qed.

Lemma traverse_simple ib b : (singly_indirected_blocks ib).2 ≠ [] → b ∈ (singly_indirected_blocks ib).1 :: (singly_indirected_blocks ib).2 → b ∈ traverse ib.
Proof.
  intros H Hb. unfold traverse, behind. rewrite !elem_of_app. right. left. by rewrite bool_decide_eq_false_2.
Qed.

(** Cutting at a size beyond the blocks changes nothing. *)
Lemma truncate_back_any ib n : Small ib → 0 ≤ n → ∃ ib', truncate_back_data_blocks ib n = Ret ib' ∧ Small ib' ∧
  blocks_per_indirection ib' = blocks_per_indirection ib ∧ blocks_of ib' = take (Z.to_nat n) (blocks_of ib) ∧ traverse ib' `prefix_of` traverse ib.
Proof.
  intros H Hn. destruct (decide (n ≤ zlen (blocks_of ib))) as [Hle|Hgt].
  - pose proof (truncate_back_layout ib (Z.to_nat n) H) as E. unfold zlen in Hle. specialize (E ltac:(lia)). rewrite Z2Nat.id in E by lia.
    destruct (truncate_back_ok ib n H) as (ib' & E' & H1 & H2 & H3); [unfold zlen; lia|]. rewrite E in E'. injection E' as <-. by exists (layout (blocks_per_indirection ib) (take (Z.to_nat n + nec (Z.to_nat (blocks_per_indirection ib)) (Z.to_nat n)) (traverse ib))).
  - exists ib. unfold truncate_back_data_blocks. rewrite data_block_count_ok by apply H. run. rewrite (proj2 (Z.ltb_lt _ _)) by lia.
    split_and!; [done..|rewrite take_ge by (unfold zlen in *; lia); done|done].
Qed.

(** Indirection blocks that have not been read do not matter when the size does not reach them. *)
Lemma truncate_unread bpi d p1 l1 p2 p2' n : Tight (mkBlocks bpi d (p1, l1) (p2, []) (0, [])) → Tight (mkBlocks bpi d (p1, l1) (p2', []) (0, [])) →
  0 ≤ n ≤ zlen d + zlen l1 → n ≤ 12 + bpi →
  truncate_back_data_blocks (mkBlocks bpi d (p1, l1) (p2, []) (0, [])) n = truncate_back_data_blocks (mkBlocks bpi d (p1, l1) (p2', []) (0, [])) n.
Proof.
  intros H1 H2 Hn Hm. unfold truncate_back_data_blocks, DIRECT_BLOCK_POINTER_COUNT. rewrite !data_block_count_ok by done. run.
  assert (blocks_of (mkBlocks bpi d (p1, l1) (p2, []) (0, [])) = d ++ l1) as -> by (unfold blocks_of; cbn; by rewrite app_nil_r).
  assert (blocks_of (mkBlocks bpi d (p1, l1) (p2', []) (0, [])) = d ++ l1) as -> by (unfold blocks_of; cbn; by rewrite app_nil_r).
  rewrite zlen_app, (proj2 (Z.ltb_ge _ _)) by lia. destruct (Z.leb_spec n 12); [done|].
  pose proof (ti_positive _ H1) as Hp. pose proof (ti_bound _ H1) as Hb. cbn [blocks_per_indirection] in Hp, Hb.
  assert (0 ≤ bpi * bpi ∧ 0 ≤ bpi * bpi * bpi) as [? ?] by nia. rewrite sub_u_ok by lia. run. cbn [blocks_per_indirection]. by rewrite (proj2 (Z.leb_le (n - 12) bpi)) by lia.
Qed.

Lemma truncate_unread1 bpi d p1 p2 n : Tight (mkBlocks bpi d (p1, []) (p2, []) (0, [])) → 0 ≤ n ≤ zlen d →
  truncate_back_data_blocks (mkBlocks bpi d (p1, []) (p2, []) (0, [])) n = truncate_back_data_blocks (mkBlocks bpi d (0, []) (0, []) (0, [])) n.
Proof.
  intros H1 Hn. pose proof (ti_direct _ H1) as Hd. cbn in Hd. assert (Tight (mkBlocks bpi d (0, []) (0, []) (0, []))) as H2 by (destruct H1; by split).
  unfold truncate_back_data_blocks, DIRECT_BLOCK_POINTER_COUNT. rewrite !data_block_count_ok by done. run.
  assert (∀ p q, blocks_of (mkBlocks bpi d (p, []) (q, []) (0, [])) = d) as Hbo by (intros; unfold blocks_of; cbn; by rewrite app_nil_r).
  rewrite !Hbo, (proj2 (Z.ltb_ge _ _)) by lia. by rewrite (proj2 (Z.leb_le n 12)) by lia.
Qed.

Lemma chunked_take {A} (f : A → list Z) m l j : (0 < m)%nat → chunked f m l →
  chunked f m (take j l) ∧ ((j < length l)%nat → length (take j l ≫= f) = (j * m)%nat).
Proof.
  intros Hm. revert j. induction l as [|x l IH]; intros [|j] Hc; try (by split; [|cbn; lia]). destruct (IH j) as [I1 I2]; [apply Hc|]. cbn [take length chunked].
  destruct Hc as [Hx Hc]. split.
  - split; [|done]. destruct l as [|y l]; [by destruct j|]. destruct j; cbn; [lia|done].
  - intros Hj. rewrite bind_cons, length_app, I2 by lia. destruct l; [cbn in Hj; lia|]. rewrite Hx. lia.
Qed.

(** Parts of a small file are small files. *)
Lemma Small_part bpi d p1 l1 p2 l j : Small (mkBlocks bpi d (p1, l1) (p2, l) (0, [])) →
  Small (mkBlocks bpi d (0, []) (0, []) (0, [])) ∧ (l1 ≠ [] → Small (mkBlocks bpi d (p1, l1) (0, []) (0, []))) ∧
  ((0 < j)%nat → l ≠ [] → Small (mkBlocks bpi d (p1, l1) (p2, take j l) (0, []))).
Proof.
  intros H. pose proof (sm_tight _ H) as Ht. pose proof (sm_nonzero _ H) as Hz. pose proof (ti_positive _ Ht) as Hp. pose proof (ti_bound _ Ht) as Hb.
  pose proof (ti_direct _ Ht) as Hd. pose proof (ti_simple _ Ht) as Hs. pose proof (ti_double _ Ht) as Hc. pose proof (ti_double_len _ Ht) as Hcl.
  pose proof (small_shape _ H) as Hsh. cbn [blocks_per_indirection direct_blocks singly_indirected_blocks doubly_indirected_blocks triply_indirected_blocks fst snd] in *.
  unfold traverse, zlen in *. cbn [direct_blocks singly_indirected_blocks doubly_indirected_blocks fst snd] in *.
  apply Forall_app in Hz as [Z1 [Z2 Z3]%Forall_app]. assert (0 < Z.to_nat bpi)%nat as Hm by lia.
  assert (l1 ≠ [] → length d = 12%nat) as H12.
  { intros Hne. destruct Hsh as [E _|_ _ E|_ _ E _]; unfold zlen in E; cbn in E; [by injection E|lia..]. }
  split_and!.
  - split; cbn; [apply Tight_levels; cbn; try done; lia|done..|]. unfold traverse. cbn. by rewrite !app_nil_r.
  - intros Hne. split; cbn; [apply Tight_levels; cbn; try done; lia|done..|]. unfold traverse. cbn. rewrite app_nil_r. by apply Forall_app.
  - intros Hj Hl. destruct (chunked_take snd _ l j Hm Hc) as [Hct _].
    assert (length d = 12%nat ∧ length l1 = Z.to_nat bpi) as [Hd12 Hl1].
    { destruct Hsh as [_ E|_ E _|_ _ E1 E2]; [by injection E as _ ?..|]. unfold zlen in *. cbn in *. lia. }
    split; cbn [triply_indirected_blocks singly_indirected_blocks doubly_indirected_blocks fst snd].
    + apply Tight_levels; try done; rewrite ?length_take; lia.
    + done.
    + intros ->. cbn in Hl1. lia.
    + intros E. destruct l; [done|]. by destruct j; [lia|].
    + unfold traverse. cbn [direct_blocks singly_indirected_blocks doubly_indirected_blocks fst snd]. rewrite !Forall_app. split_and!; [done|done|].
      unfold behind at 1. case_bool_decide as E1; [by constructor|]. unfold behind in Z3. rewrite bool_decide_eq_false_2 in Z3.
      * apply Forall_cons in Z3 as [Z3 Z4]. apply Forall_cons. split; [done|].
        rewrite <- (take_drop j l), bind_app in Z4. by apply Forall_app in Z4 as [? _].
      * intros E. apply E1. rewrite <- (take_drop j l), bind_app in E. by apply app_nil in E as [? _].
Qed.

(** What [indirected_blocks] finds: the blocks of the file up to its size. *)
Definition FoundBlocks (full ib : IndirectedBlocks) (n : Z) : Prop :=
  Small ib ∧ blocks_per_indirection ib = blocks_per_indirection full ∧ blocks_of ib = take (Z.to_nat n) (blocks_of full) ∧
  traverse ib `prefix_of` traverse full.

Lemma cut_blocks_ok fs n full part : Small part → 0 ≤ n → blocks_per_indirection part = blocks_per_indirection full → traverse part `prefix_of` traverse full →
  take (Z.to_nat n) (blocks_of part) = take (Z.to_nat n) (blocks_of full) → ∃ ib, cut_blocks fs n part = Ret (Ok ib, fs) ∧ FoundBlocks full ib n.
Proof.
  intros H Hn Hb Ht Hbo. destruct (truncate_back_any part n H Hn) as (ib & E & H1 & H2 & H3 & H4). unfold cut_blocks. rewrite E. run. exists ib. split; [done|].
  split_and!; [done|congruence|congruence|by etrans].
Qed.

Lemma levels_of bpi d p1 l1 p2 l : blocks_of (mkBlocks bpi d (p1, l1) (p2, l) (0, [])) = d ++ l1 ++ flat1 l.
Proof. unfold blocks_of. cbn. by rewrite app_nil_r. Qed.

Lemma traverse_part bpi d p1 l1 p2 l p1' p2' j :
  traverse (mkBlocks bpi d (p1', []) (p2', []) (0, [])) `prefix_of` traverse (mkBlocks bpi d (p1, l1) (p2, l) (0, [])) ∧
  traverse (mkBlocks bpi d (p1, l1) (p2', []) (0, [])) `prefix_of` traverse (mkBlocks bpi d (p1, l1) (p2, l) (0, [])) ∧
  traverse (mkBlocks bpi d (p1, l1) (p2, take j l) (0, [])) `prefix_of` traverse (mkBlocks bpi d (p1, l1) (p2, l) (0, [])).
Proof.
  unfold traverse. cbn [direct_blocks singly_indirected_blocks doubly_indirected_blocks fst snd mbind list_bind].
  assert (∀ p, behind p [] = []) as E by done. rewrite !E. split_and!; apply prefix_app; [apply prefix_nil|rewrite app_nil_r; by apply prefix_app_r|].
  apply prefix_app. unfold behind. case_bool_decide as E1; [apply prefix_nil|].
  assert (l ≫= walk1 = (take j l ≫= walk1) ++ (drop j l ≫= walk1)) as E3 by (by rewrite <- bind_app, take_drop).
  case_bool_decide as E2; [rewrite E3 in E2; by apply app_nil in E2 as [? _]|]. rewrite E3. by apply prefix_cons, prefix_app_r.
Qed.

(** Reading stops before the double indirection, or in it. *)
Lemma double_part_ok fs X i bpi d p1 l1 p2 l n : Shows fs X → let full := mkBlocks bpi d (p1, l1) (p2, l) (0, []) in
  HasBlocks (v_size (device fs)) X i full → l ≠ [] → 12 + bpi < n →
  ∃ fs' ib, (let? (pointers, fs) := read_indirect_block fs p2 in
    let? (r, fs) := read_double fs n bpi (12 + bpi) pointers [] in
    let '(stop, parsed, double) := r in
    if stop || (0 =? 0) || (n <=? parsed) then cut_blocks fs n (mkBlocks bpi d (p1, l1) (p2, double) (0, []))
    else
      let? (pointers, fs) := read_indirect_block fs 0 in
      let? (triple, fs) := read_triple fs n bpi parsed pointers [] in
      cut_blocks fs n (mkBlocks bpi d (p1, l1) (p2, double) (0, triple))) = Ret (Ok ib, fs') ∧
    FoundBlocks full ib n ∧ Shows fs' X ∧ Mounted fs fs'.
Proof.
  intros H full HB Hl Hn. pose proof (hb_small _ _ _ _ HB) as Hsm. pose proof (sm_tight _ Hsm) as Ht. pose proof (ti_positive _ Ht) as Hp. pose proof (ti_bound _ Ht) as Hb.
  pose proof (ti_double _ Ht) as Hc. pose proof (ti_double_len _ Ht) as Hcl. pose proof (hb_on_disk _ _ _ _ HB) as Hdisk. pose proof (sm_nonzero _ Hsm) as Hz.
  assert (blocks_of full = d ++ l1 ++ flat1 l) as Ebo by apply levels_of.
  assert (zlen d = 12 ∧ zlen l1 = bpi) as [Ed El1]. { destruct (small_shape _ Hsm) as [_ E|_ E _|_ _ E1 E2]; [by injection E|by injection E|by split]. }
  pose proof (hb_double _ _ _ _ HB) as Hd2. pose proof (hb_inner _ _ _ _ HB) as Hin.
  cbn [full blocks_per_indirection doubly_indirected_blocks fst snd] in Hp, Hb, Hc, Hcl, Hd2, Hin.
  assert (Forall (λ s : SimpleIndirection, s.1 ≠ 0 ∧ DataBlock (v_size (device fs)) X s.1 ∧ points_to X s.1 s.2 ∧ Forall (λ b, b ≠ 0) s.2) l) as Hall.
  { apply Forall_forall. intros s Hs. destruct (traverse_double full s Hsm Hs) as [T1 T2]. rewrite Forall_forall in Hz, Hdisk. rewrite Forall_forall in Hin. split_and!; auto.
    apply Forall_forall. intros b Hbs. by apply Hz, T2. }
  destruct (read_indirect_block_ok fs X p2 l.*1) as (fs1 & -> & H1 & M1); [done| |by apply Hd2| |].
  { rewrite Forall_forall in Hdisk. apply Hdisk, (traverse_head_double full), Hl. }
  { apply Forall_fmap. eapply Forall_impl; [exact Hall|]. by intros x [? _]. }
  run. destruct (read_double_ok X n bpi l fs1 (12 + bpi) []) as (j & stop & fs2 & -> & Hj & Hs & H2 & M2); [done|lia|lia|nia| |].
  { eapply Forall_impl; [exact Hall|]. cbn. intros x. by rewrite (mo_size _ _ M1). }
  run. cbn [app]. rewrite orb_true_r. cbn [orb]. assert (0 < length l)%nat by (destruct l; [done|cbn; lia]).
  assert (0 < j)%nat as Hj0 by (destruct j; [specialize (Hs ltac:(lia)); lia|lia]).
  destruct (cut_blocks_ok fs2 n full (mkBlocks bpi d (p1, l1) (p2, take j l) (0, []))) as (ib & E & HF).
  - by apply (Small_part bpi d p1 l1 p2 l j).
  - lia.
  - done.
  - apply traverse_part; exact 0.
  - rewrite levels_of, Ebo. destruct (decide (j < length l)%nat) as [Hlt|Hge]; [|by rewrite (take_ge l) by lia].
    destruct (chunked_take snd (Z.to_nat bpi) l j ltac:(lia) Hc) as [_ Hlen]. specialize (Hs Hlt). specialize (Hlen Hlt). fold (flat1 (take j l)) in Hlen.
    rewrite <- (take_drop j l) at 2. unfold flat1 at 2. rewrite bind_app. fold (flat1 (take j l)) (flat1 (drop j l)). rewrite !app_assoc.
    rewrite (take_app_le (_ ++ flat1 (take j l))); [done|]. unfold zlen in *. rewrite !length_app. nia.
  - exists fs2, ib. split_and!; [done|done|done|by etrans].
Qed.

Lemma indirected_blocks_ok fs X i full : Shows fs X → HasBlocks (v_size (device fs)) X i full → 0 ≤ data_size i < 2 ^ 64 → size_blocks (vol_sb X) (data_size i) < 2 ^ 32 →
  ∃ fs' ib, indirected_blocks fs i = Ret (Ok ib, fs') ∧ FoundBlocks full ib (size_blocks (vol_sb X) (data_size i)) ∧ Shows fs' X ∧ Mounted fs fs'.
Proof.
  intros H HB Hsz Hn. pose proof (sh_dev _ _ H) as Hd. destruct (block_size_ok _ (ds_wf _ _ Hd)) as [Ebs Hbs].
  pose proof (hb_small _ _ _ _ HB) as Hsm. pose proof (sm_tight _ Hsm) as Ht. pose proof (ti_positive _ Ht) as Hp. pose proof (ti_bound _ Ht) as Hb.
  pose proof (small_shape _ Hsm) as Hsh. pose proof (sm_nonzero _ Hsm) as Hz. pose proof (hb_on_disk _ _ _ _ HB) as Hdisk.
  unfold indirected_blocks. rewrite (sh_super _ _ H), Ebs. run. unfold div_u. rewrite (proj2 (Z.eqb_neq (block_bytes (vol_sb X)) 0)) by lia. run.
  assert (0 ≤ Z.max (data_size i - 1) 0 / block_bytes (vol_sb X)) as Hq by (apply Z.div_pos; lia). unfold size_blocks in *.
  rewrite add_u_ok by lia. run. set (n := 1 + _) in *. unfold unchecked_u, try_from_u. rewrite (proj2 (Z.leb_le 0 n)), (proj2 (Z.ltb_lt n _)) by lia. run. cbn [andb unwrap]. run.
  rewrite <- (hb_bpi _ _ _ _ HB), (hb_direct _ _ _ _ HB), (hb_p1 _ _ _ _ HB), (hb_p2 _ _ _ _ HB), (hb_p3 _ _ _ _ HB).
  destruct full as [bpi d [p1 l1] [p2 l] t]. pose proof (sm_triple _ Hsm) as Et. cbn [triply_indirected_blocks] in Et. subst t.
  cbn [blocks_per_indirection direct_blocks singly_indirected_blocks doubly_indirected_blocks fst snd] in *.
  assert (Forall (λ b, b ≠ 0) d) as Hzd by (unfold traverse in Hz; by apply Forall_app in Hz as [? _]). rewrite filter_padded by done.
  destruct (Small_part bpi d p1 l1 p2 l 1 Hsm) as (S1 & S2 & _). destruct (traverse_part bpi d p1 l1 p2 l p1 p2 1) as (T1 & T2 & _).
  set (full := mkBlocks bpi d (p1, l1) (p2, l) (0, [])) in *. assert (blocks_of full = d ++ l1 ++ flat1 l) as Ebo by apply levels_of.
  assert (∀ fs1 part, Shows fs1 X → Mounted fs fs1 → Small part → blocks_per_indirection part = bpi → traverse part `prefix_of` traverse full →
    take (Z.to_nat n) (blocks_of part) = take (Z.to_nat n) (blocks_of full) →
    ∃ fs' ib, cut_blocks fs1 n part = Ret (Ok ib, fs') ∧ FoundBlocks full ib n ∧ Shows fs' X ∧ Mounted fs fs') as Hcut.
  { intros fs1 part Hs1 M1 HS Eb Htr Etk. destruct (cut_blocks_ok fs1 n full part) as (ib & E & HF); [done|lia|done|done|done|]. by exists fs1, ib. }
  assert (0 ≤ bpi * bpi ∧ 0 ≤ bpi * bpi * bpi) as [Hm2 Hm3] by nia.
  destruct Hsh as [E1 E2|E1 E2 Ed|E1 E2 Ed Es]; cbn [full singly_indirected_blocks doubly_indirected_blocks direct_blocks blocks_per_indirection fst snd] in *.
  { injection E1 as -> ->. injection E2 as -> ->. cbn [orb]. rewrite Z.eqb_refl. cbn [orb]. by apply Hcut. }
  all: assert (∀ b, b ∈ p1 :: l1 → b ∈ traverse full) as Hin1 by (intros b; by apply (traverse_simple full)).
  all: rewrite Forall_forall in Hz, Hdisk; assert (p1 ≠ 0) as Hp1 by (apply Hz, Hin1; by left).
  all: rewrite (proj2 (Z.eqb_neq p1 0)) by done; cbn [orb].
  all: assert (n ≤ 12 → ∃ fs' ib, cut_blocks fs n (mkBlocks bpi d (p1, []) (p2, []) (0, [])) = Ret (Ok ib, fs') ∧ FoundBlocks full ib n ∧ Shows fs' X ∧ Mounted fs fs') as Hdir.
  1, 3: intros Hn12; unfold cut_blocks; rewrite truncate_unread1 by (lia || (destruct (sm_tight _ S1); by split)); apply Hcut; try done;
      rewrite levels_of, Ebo; cbn; rewrite app_nil_r; unfold zlen in *; by rewrite take_app_le by lia.
  all: destruct (Z.leb_spec n (Z.min DBPC n)) as [Hn12|Hn12]; [apply Hdir; unfold DIRECT_BLOCK_POINTER_COUNT in Hn12; lia|clear Hdir].
  all: unfold DIRECT_BLOCK_POINTER_COUNT in Hn12 |- *; destruct (read_indirect_block_ok fs X p1 l1) as (fs1 & -> & H1 & M1);
      [done|by apply Hdisk, Hin1; left|by apply HB|by apply Forall_forall; intros b Hb1; apply Hz, Hin1; right|].
  all: run; rewrite Z.min_l, add_u_ok by lia; run.
  - injection E2 as -> ->. rewrite Z.eqb_refl. cbn [orb]. by apply Hcut.
  - assert (p2 ≠ 0) as Hp2 by (apply Hz, (traverse_head_double full), E2). rewrite (proj2 (Z.eqb_neq p2 0)) by done. cbn [orb].
    destruct (Z.leb_spec n (12 + bpi)) as [Hn1|Hn1].
    + specialize (S2 E1). unfold cut_blocks. rewrite (truncate_unread bpi d p1 l1 p2 0) by (lia || apply S2 || (destruct (sm_tight _ S2); by split)).
      apply Hcut; try done. rewrite levels_of, Ebo. cbn. rewrite app_nil_r, app_assoc. unfold zlen in *. rewrite (take_app_le (d ++ l1)); [done|]. rewrite length_app. lia.
    + destruct (double_part_ok fs1 X i bpi d p1 l1 p2 l n) as (fs2 & ib & E & HF & H2 & M2); [done|by rewrite (mo_size _ _ M1)|done|done|].
      exists fs2, ib. split_and!; [exact E|done|done|by etrans].
Qed.

Lemma copy_block_ok fs X b from count r buffer : Shows fs X → DataBlock (v_size (device fs)) X b → 0 ≤ from → 0 ≤ count → from + count ≤ block_bytes (vol_sb X) →
  ∃ fs', copy_block fs b from count r buffer = Ret (Ok (splice buffer r (subslice (block_data X b) from (from + count))), fs') ∧ Shows fs' X ∧ Mounted fs fs'.
Proof.
  intros H Hb Hf Hc He. destruct (block_address fs X b H Hb) as (E1 & E2 & Hbs & Ha & Hsz). pose proof (db_end _ _ _ Hb).
  unfold copy_block. rewrite E1. run. rewrite E2. run. rewrite add_u_ok by lia. run. rewrite add_u_ok by lia. run.
  set (a := b * block_bytes (vol_sb X)) in *. destruct (data_slice_ok fs X (a + from) (a + from + count)) as (fs' & -> & H' & M);
    [done|lia|lia|intros i Hi; apply (db_data _ _ _ Hb); fold a; lia|].
  run. unfold clone_from_slice. rewrite zlen_fmap_range, Z.add_simpl_l, Z.eqb_refl by lia. run. exists fs'. split; [|done]. do 4 f_equal.
  unfold block_data. fold a. rewrite subslice_of_range by lia. by rewrite Z.add_assoc.
Qed.

Lemma zlen_bytes_of X bl : 0 ≤ block_bytes (vol_sb X) → zlen (bytes_of X bl) = zlen bl * block_bytes (vol_sb X).
Proof.
  intros Hb. induction bl as [|b bl IH]; [done|]. unfold bytes_of. rewrite bind_cons, zlen_app, zlen_cons, zlen_block_data by done.
  fold (bytes_of X bl). lia.
Qed.

Lemma splice_nil {A} (l : list A) r : 0 ≤ r ≤ zlen l → splice l r [] = l.
Proof. intros H. unfold splice. cbn. rewrite Nat.add_0_r. apply take_drop. Qed.

Lemma splice_next {A} (l x y : list A) r : 0 ≤ r → r + zlen x + zlen y ≤ zlen l → splice (splice l r x) (r + zlen x) y = splice l r (x ++ y).
Proof.
  intros Hr Hl. pose proof (zlen_nonneg x). pose proof (zlen_nonneg y). assert (zlen (splice l r x) = zlen l) as Hz by (apply zlen_splice; lia).
  apply list_eq. intros k. destruct (decide (Z.of_nat k < zlen l)) as [Hk|Hk].
  - rewrite <- (Nat2Z.id k). rewrite splice_lookup by lia. rewrite !splice_lookup by (rewrite ?zlen_app; lia). rewrite zlen_app.
    repeat case_bool; try lia; try done; rewrite ?lookup_app_l, ?lookup_app_r by (unfold zlen in *; lia); try done. f_equal. unfold zlen in *. lia.
  - assert (zlen (splice (splice l r x) (r + zlen x) y) = zlen l ∧ zlen (splice l r (x ++ y)) = zlen l) as [? ?] by (split; rewrite zlen_splice; rewrite ?zlen_app; lia).
    rewrite !lookup_ge_None_2; [done|unfold zlen in *; lia..].
Qed.

(** From the start of a block on. *)
Lemma read_from_ok X size bl : ∀ fs B r, Shows fs X → Forall (DataBlock (v_size (device fs)) X) bl → 0 ≤ r ≤ zlen B → zlen B < 2 ^ 63 →
  r + zlen bl * block_bytes (vol_sb X) < size + block_bytes (vol_sb X) →
  let k := Z.min (zlen B - r) (zlen bl * block_bytes (vol_sb X)) in
  ∃ fs', read_data_loop fs size bl B r 0 = Ret (Ok (r + k, splice B r (take (Z.to_nat k) (bytes_of X bl))), fs') ∧ Shows fs' X ∧ Mounted fs fs'.
Proof.
  induction bl as [|b bl IH]; intros fs B r H Hd Hr HB Hs k.
  { exists fs. unfold k. change (zlen []) with 0. rewrite Z.mul_0_l, Z.min_r, Z.add_0_r by lia. change (Z.to_nat 0) with 0%nat. by rewrite take_0, splice_nil. }
  apply Forall_cons in Hd as [Hb Hd]. destruct (block_address fs X b H Hb) as (E1 & _ & Hbs & _). rewrite zlen_cons in *. pose proof (zlen_nonneg bl) as Hnn.
  set (bs := block_bytes (vol_sb X)) in *. assert (0 ≤ zlen bl * bs) as Hnb by nia. cbn [read_data_loop]. rewrite (proj2 (Z.eqb_neq r size)) by lia. cbn [orb].
  destruct (Z.eqb_spec r (zlen B)) as [->|Hne].
  { exists fs. unfold k. rewrite zlen_cons, Z.sub_diag, Z.min_l, Z.add_0_r by lia. change (Z.to_nat 0) with 0%nat. by rewrite take_0, splice_nil by lia. }
  rewrite E1. run. rewrite sub_u_ok by lia. run. set (count := Z.min bs (zlen B - r)).
  destruct (copy_block_ok fs X b 0 count r B) as (fs1 & -> & H1 & M1); [done|done|lia|lia|fold bs; lia|]. run. rewrite add_u_ok by lia. run.
  set (x := subslice (block_data X b) 0 (0 + count)). pose proof (zlen_block_data X b ltac:(fold bs; lia)) as Hz. fold bs in Hz.
  assert (zlen x = count) as Hx by (unfold x; rewrite zlen_subslice; lia). assert (x = take (Z.to_nat count) (block_data X b)) as Ex by (unfold x, subslice; cbn; f_equal; lia).
  assert (zlen (splice B r x) = zlen B) as HzB by (apply zlen_splice; lia).
  destruct (IH fs1 (splice B r x) (r + count)) as (fs2 & E & H2 & M2); [done| |lia|lia|lia|].
  { by rewrite (mo_size _ _ M1). }
  rewrite HzB in E. exists fs2. split; [|split; [done|by etrans]]. rewrite E. set (k' := Z.min (zlen B - (r + count)) (zlen bl * bs)).
  assert (k = count + k') as Ek by (unfold k, k', count; rewrite zlen_cons; lia). assert (0 ≤ k') as Hk' by lia.
  assert (zlen (take (Z.to_nat k') (bytes_of X bl)) = k') as Hzk.
  { unfold zlen. rewrite length_take. pose proof (zlen_bytes_of X bl ltac:(fold bs; lia)) as Hy. fold bs in Hy. unfold zlen in *. lia. }
  assert (x ++ take (Z.to_nat k') (bytes_of X bl) = take (Z.to_nat k) (bytes_of X (b :: bl))) as <-.
  { unfold bytes_of. rewrite bind_cons. fold (bytes_of X bl). unfold zlen in Hz. rewrite Ex. destruct (decide (count = bs)) as [Ec|Ec].
    - rewrite take_ge, take_app_ge by lia. f_equal. f_equal. lia.
    - assert (k' = 0) as -> by lia. cbn. rewrite app_nil_r, take_app_le by lia. f_equal. lia. }
  rewrite <- (splice_next B x) by lia. rewrite Hx, Ek, Z.add_assoc. done.
Qed.

(** Blocks before the offset are passed over. *)
Lemma read_skip_ok fs X size bl1 bl2 B o : superblock fs = vol_sb X → Super_wf (vol_sb X) = true → 0 < size → 0 < zlen B → 0 ≤ o →
  zlen bl1 * block_bytes (vol_sb X) + o < 2 ^ 64 →
  read_data_loop fs size (bl1 ++ bl2) B 0 (zlen bl1 * block_bytes (vol_sb X) + o) = read_data_loop fs size bl2 B 0 o.
Proof.
  intros Es Hw Hsz HB Ho. destruct (block_size_ok _ Hw) as [Ebs Hbs]. induction bl1 as [|b bl1 IH]; intros Hlt; [by rewrite Z.mul_0_l|].
  rewrite zlen_cons in Hlt. pose proof (zlen_nonneg bl1) as Hnn. cbn [app read_data_loop]. rewrite (proj2 (Z.eqb_neq 0 size)), (proj2 (Z.eqb_neq 0 (zlen B))) by lia. cbn [orb].
  rewrite Es, Ebs. run. rewrite zlen_cons. set (bs := block_bytes (vol_sb X)) in *. assert (0 ≤ zlen bl1 * bs) as Hnb by nia.
  rewrite (proj2 (Z.eqb_neq (_ + o) 0)), (proj2 (Z.leb_le bs _)) by lia. rewrite sub_u_ok by lia. run. rewrite <- IH by lia. f_equal. lia.
Qed.

Lemma bytes_of_app X l1 l2 : bytes_of X (l1 ++ l2) = bytes_of X l1 ++ bytes_of X l2.
Proof. unfold bytes_of. by rewrite bind_app. Qed.

Lemma drop_bytes_of X bl q : 0 ≤ block_bytes (vol_sb X) → (q ≤ length bl)%nat →
  drop (Z.to_nat (Z.of_nat q * block_bytes (vol_sb X))) (bytes_of X bl) = bytes_of X (drop q bl).
Proof.
  intros Hb Hq. rewrite <- (take_drop q bl) at 1. rewrite bytes_of_app. apply drop_app_length'.
  pose proof (zlen_bytes_of X (take q bl) Hb) as Hz. unfold zlen in Hz. rewrite length_take, Nat.min_l in Hz by done. lia.
Qed.

(** Reading blocks [bl] from [o] on, at a boundary or with room for a block. *)
Lemma read_blocks_ok fs X size bl B o : Shows fs X → Forall (DataBlock (v_size (device fs)) X) bl → 0 < size →
  0 ≤ o ≤ zlen bl * block_bytes (vol_sb X) → zlen bl * block_bytes (vol_sb X) < size + block_bytes (vol_sb X) → zlen bl * block_bytes (vol_sb X) < 2 ^ 64 → zlen B < 2 ^ 63 →
  o mod block_bytes (vol_sb X) = 0 ∨ block_bytes (vol_sb X) ≤ zlen B →
  let k := Z.min (zlen B) (zlen bl * block_bytes (vol_sb X) - o) in
  ∃ fs', read_data_loop fs size bl B 0 o = Ret (Ok (k, splice B 0 (take (Z.to_nat k) (drop (Z.to_nat o) (bytes_of X bl)))), fs') ∧ Shows fs' X ∧ Mounted fs fs'.
Proof.
  intros H Hd Hsz Ho Hsize H64 HB Hal k. pose proof (ds_wf _ _ (sh_dev _ _ H)) as Hw. destruct (block_size_ok _ Hw) as [Ebs Hbs].
  pose proof (zlen_nonneg bl) as Hnn. pose proof (zlen_nonneg B) as HnB. destruct (Z.eqb_spec (zlen B) 0) as [EB|HB0].
  { exists fs. unfold k. rewrite EB, Z.min_l by lia. change (Z.to_nat 0) with 0%nat. rewrite take_0, splice_nil by lia. split; [|done].
    destruct bl; [done|]. cbn. rewrite EB, orb_true_r. done. }
  set (bs := block_bytes (vol_sb X)) in *. set (q := o / bs). set (r := o mod bs).
  pose proof (Z.div_mod o bs ltac:(lia)) as Hdm. pose proof (Z.mod_pos_bound o bs ltac:(lia)) as Hr. fold q in Hdm. fold r in Hdm, Hr, Hal.
  assert (0 ≤ q ≤ zlen bl) as Hq by nia. set (bl1 := take (Z.to_nat q) bl). set (bl2 := drop (Z.to_nat q) bl).
  assert (bl = bl1 ++ bl2) as Ebl by (symmetry; apply take_drop). assert (zlen bl1 = q ∧ zlen bl2 = zlen bl - q) as [Hl1 Hl2] by (unfold bl1, bl2, zlen in *; rewrite length_take, length_drop; lia).
  assert (Forall (DataBlock (v_size (device fs)) X) bl2) as Hd2 by (rewrite Ebl in Hd; by apply Forall_app in Hd as [_ ?]).
  assert (drop (Z.to_nat o) (bytes_of X bl) = drop (Z.to_nat r) (bytes_of X bl2)) as Edr.
  { unfold bl2. rewrite <- drop_bytes_of by (fold bs; unfold zlen in Hq; lia). fold bs. rewrite drop_drop. f_equal. rewrite Z2Nat.id by lia. assert (0 ≤ q * bs) by nia. lia. }
  rewrite Edr. assert (read_data_loop fs size bl B 0 o = read_data_loop fs size bl2 B 0 r) as ->.
  { transitivity (read_data_loop fs size (bl1 ++ bl2) B 0 (zlen bl1 * bs + r)); [rewrite <- Ebl; f_equal; lia|].
    apply read_skip_ok; [apply H|done|done|lia|lia|fold bs; nia]. }
  destruct (Z.eqb_spec r 0) as [Er|Er].
  - rewrite Er. change (Z.to_nat 0) with 0%nat. rewrite drop_0. destruct (read_from_ok X size bl2 fs B 0) as (fs' & E & H' & M); [done|done|lia|done|fold bs; nia|].
    exists fs'. split; [|done]. fold bs in E. rewrite E, Hl2, Z.sub_0_r, Z.add_0_l. replace (Z.min (zlen B) ((zlen bl - q) * bs)) with k by (unfold k; f_equal; lia). done.
  - destruct Hal as [?|Hal]; [done|]. destruct bl2 as [|b bl2'] eqn:Eb2; [change (zlen []) with 0 in Hl2; nia|]. rewrite zlen_cons in Hl2. pose proof (zlen_nonneg bl2') as Hnn2.
    apply Forall_cons in Hd2 as [Hb Hd2]. cbn [read_data_loop]. rewrite (proj2 (Z.eqb_neq 0 size)), (proj2 (Z.eqb_neq 0 (zlen B))) by lia. cbn [orb].
    rewrite (sh_super _ _ H), Ebs. run. fold bs. rewrite (proj2 (Z.eqb_neq r 0)), (proj2 (Z.leb_gt bs r)) by lia. rewrite sub_u_ok by lia. run. rewrite Z.sub_0_r, Z.min_l by lia.
    rewrite (proj2 (Z.ltb_ge bs r)) by lia. destruct (copy_block_ok fs X b r (bs - r) 0 B) as (fs1 & -> & H1 & M1); [done|done|lia|lia|fold bs; lia|]. run.
    rewrite add_u_ok by lia. run. replace (r + (bs - r)) with bs by lia. set (x := subslice (block_data X b) r bs).
    pose proof (zlen_block_data X b ltac:(fold bs; lia)) as Hz. fold bs in Hz. assert (zlen x = bs - r) as Hx by (unfold x; rewrite zlen_subslice; lia).
    assert (zlen (splice B 0 x) = zlen B) as HzB by (apply zlen_splice; lia). rewrite Z.add_0_l.
    destruct (read_from_ok X size bl2' fs1 (splice B 0 x) (bs - r)) as (fs2 & E & H2 & M2); [done|by rewrite (mo_size _ _ M1)|lia|lia|fold bs; nia|].
    fold bs in E. exists fs2. rewrite E, HzB. split; [|split; [done|by etrans]]. set (k' := Z.min (zlen B - (bs - r)) (zlen bl2' * bs)).
    assert (k = bs - r + k') as Ek by (unfold k, k'; nia). assert (0 ≤ k') as Hk' by (unfold k'; nia).
    assert (x ++ take (Z.to_nat k') (bytes_of X bl2') = take (Z.to_nat k) (drop (Z.to_nat r) (bytes_of X (b :: bl2')))) as <-.
    { unfold bytes_of. rewrite bind_cons. fold (bytes_of X bl2'). rewrite drop_app_le by (unfold zlen in *; lia).
      assert (x = drop (Z.to_nat r) (block_data X b)) as -> by (unfold x, subslice; apply take_ge; rewrite length_drop; unfold zlen in *; lia).
      rewrite take_app_ge by (rewrite length_drop; unfold zlen in *; lia). f_equal. f_equal. rewrite length_drop. unfold zlen in *. lia. }
    assert (zlen (take (Z.to_nat k') (bytes_of X bl2')) = k') as Hzk.
    { unfold zlen. rewrite length_take. pose proof (zlen_bytes_of X bl2' ltac:(fold bs; lia)) as Hy. fold bs in Hy. unfold zlen in *. lia. }
    pose proof (splice_next B x (take (Z.to_nat k') (bytes_of X bl2')) 0 ltac:(lia) ltac:(lia)) as Esp. rewrite Z.add_0_l, Hx in Esp. rewrite Ek, Esp. done.
Qed.

Lemma blocks_in_traverse ib b : Small ib → b ∈ blocks_of ib → b ∈ traverse ib.
Proof.
  intros H. unfold blocks_of. rewrite (sm_triple _ H). change (flat2 (0, []).2) with ([] : list Z). rewrite app_nil_r, !elem_of_app. intros [Hb|[Hb|Hb]].
  - unfold traverse. rewrite elem_of_app. by left.
  - apply traverse_simple; [by intros E; rewrite E in Hb; apply not_elem_of_nil in Hb|by apply elem_of_cons; right].
  - apply list_elem_of_bind in Hb as (s & Hb & Hs). by apply (traverse_double ib s H Hs).
Qed.

Lemma size_blocks_range sb size : Super_wf sb = true → 0 < size →
  1 ≤ size_blocks sb size ∧ size ≤ size_blocks sb size * block_bytes sb ∧ size_blocks sb size * block_bytes sb < size + block_bytes sb.
Proof.
  intros Hw Hs. destruct (block_size_ok _ Hw) as [_ Hbs]. unfold size_blocks. rewrite Z.max_l by lia.
  pose proof (Z.div_mod (size - 1) (block_bytes sb) ltac:(lia)). pose proof (Z.mod_pos_bound (size - 1) (block_bytes sb) ltac:(lia)).
  pose proof (Z.div_pos (size - 1) (block_bytes sb) ltac:(lia) ltac:(lia)). split_and!; nia.
Qed.

(** The blocks of a file that has as many as its size asks for. *)
Record HasFile (size : Z) (X : Vol) (i : Inode) (full : IndirectedBlocks) : Prop := {
  hf_blocks : HasBlocks size X i full;
  hf_size : 0 ≤ data_size i < 2 ^ 63;
  hf_enough : 0 < data_size i → size_blocks (vol_sb X) (data_size i) ≤ zlen (blocks_of full);
}.

Lemma found_length full ib n : FoundBlocks full ib n → 0 ≤ n ≤ zlen (blocks_of full) → zlen (blocks_of ib) = n.
Proof. intros (_ & _ & E & _) Hn. rewrite E. unfold zlen in *. rewrite length_take. lia. Qed.

Lemma read_data_ok fs X i full B o : Shows fs X → HasFile (v_size (device fs)) X i full → 0 < data_size i → 0 ≤ o ≤ data_size i → zlen B < 2 ^ 63 →
  o mod block_bytes (vol_sb X) = 0 ∨ block_bytes (vol_sb X) ≤ zlen B →
  let n := size_blocks (vol_sb X) (data_size i) in
  let k := Z.min (zlen B) (n * block_bytes (vol_sb X) - o) in
  ∃ fs', read_data fs i B o = Ret (Ok (k, splice B 0 (take (Z.to_nat k) (drop (Z.to_nat o) (bytes_of X (take (Z.to_nat n) (blocks_of full)))))), fs') ∧
    Shows fs' X ∧ Mounted fs fs'.
Proof.
  intros H HF Hpos Ho HB Hal n k. destruct (size_blocks_range (vol_sb X) (data_size i)) as (N1 & N2 & N3); [apply H|done|]. fold n in N1, N2, N3.
  pose proof (hf_blocks _ _ _ _ HF) as HBl. pose proof (hf_size _ _ _ _ HF) as Hsz. pose proof (hf_enough _ _ _ _ HF Hpos) as Hen. fold n in Hen.
  pose proof (blocks_of_length _ (sm_tight _ (hb_small _ _ _ _ HBl))) as Hlen. destruct (block_size_ok _ (ds_wf _ _ (sh_dev _ _ H))) as [_ Hbs].
  destruct (indirected_blocks_ok fs X i full) as (fs1 & ib & E & Hfound & H1 & M1); [done|done|lia|fold n; lia|]. unfold read_data. rewrite E. run.
  pose proof (found_length full ib n Hfound ltac:(lia)) as Hl. destruct Hfound as (S1 & Eb & Ebo & Tp). rewrite flatten_data_blocks_ok by apply S1. run.
  destruct (read_blocks_ok fs1 X (data_size i) (blocks_of ib) B o) as (fs2 & E2 & H2 & M2); rewrite ?Hl; try done; try lia.
  { apply Forall_forall. intros b Hb. rewrite (mo_size _ _ M1). pose proof (hb_on_disk _ _ _ _ HBl) as Hd. rewrite Forall_forall in Hd. apply Hd.
    apply (blocks_in_traverse _ _ S1) in Hb. destruct Tp as [r ->]. rewrite elem_of_app. by left. }
  exists fs2. rewrite E2, Hl, Ebo. split_and!; [done|done|by etrans].
Qed.

Lemma take_content X full size n : 0 ≤ size → size ≤ zlen (take n (blocks_of full)) * block_bytes (vol_sb X) → 0 ≤ block_bytes (vol_sb X) →
  take (Z.to_nat size) (bytes_of X (take n (blocks_of full))) = content X full size.
Proof.
  intros Hs Hn Hb. unfold content. rewrite <- (take_drop n (blocks_of full)) at 2. rewrite bytes_of_app. rewrite take_app_le; [done|].
  pose proof (zlen_bytes_of X (take n (blocks_of full)) Hb) as Hz. unfold zlen in *. lia.
Qed.

(** A window of the file. *)
Lemma read_window_ok fs X i full B o : Shows fs X → HasFile (v_size (device fs)) X i full → 0 ≤ o → o + zlen B ≤ data_size i →
  o mod block_bytes (vol_sb X) = 0 ∨ block_bytes (vol_sb X) ≤ zlen B →
  ∃ fs', read_data fs i B o = Ret (Ok (zlen B, subslice (content X full (data_size i)) o (o + zlen B)), fs') ∧ Shows fs' X ∧ Mounted fs fs'.
Proof.
  intros H HF Ho Hend Hal. pose proof (zlen_nonneg B) as HnB. pose proof (hf_size _ _ _ _ HF) as Hsz. pose proof (hf_blocks _ _ _ _ HF) as HBl.
  destruct (block_size_ok _ (ds_wf _ _ (sh_dev _ _ H))) as [_ Hbs]. destruct (decide (data_size i = 0)) as [E0|Hpos].
  - assert (zlen B = 0 ∧ o = 0) as [EB ->] by lia. assert (B = []) as -> by (destruct B; [done|rewrite zlen_cons in EB; pose proof (zlen_nonneg B); lia]).
    destruct (indirected_blocks_ok fs X i full) as (fs1 & ib & E & (S1 & _) & H1 & M1); [done|done|lia|unfold size_blocks; rewrite E0; change (Z.max (0 - 1) 0) with 0; rewrite Z.div_0_l; lia|].
    unfold read_data. rewrite E. run. rewrite flatten_data_blocks_ok by apply S1. run. exists fs1. split; [|done]. rewrite E0. by destruct (blocks_of ib).
  - destruct (read_data_ok fs X i full B o) as (fs' & E & H' & M); [done|done|lia|lia|lia|done|].
    destruct (size_blocks_range (vol_sb X) (data_size i)) as (N1 & N2 & N3); [apply H|lia|]. pose proof (hf_enough _ _ _ _ HF ltac:(lia)) as Hen.
    set (n := size_blocks (vol_sb X) (data_size i)) in *. rewrite Z.min_l in E by lia. exists fs'. split; [|done]. rewrite E. do 3 f_equal. f_equal.
    assert (zlen (take (Z.to_nat n) (blocks_of full)) = n) as Hl by (unfold zlen in *; rewrite length_take; lia).
    rewrite <- (take_content X full (data_size i) (Z.to_nat n)) by (rewrite ?Hl; lia). unfold subslice. rewrite Z.add_simpl_l.
    pose proof (zlen_bytes_of X (take (Z.to_nat n) (blocks_of full)) ltac:(lia)) as Hz. rewrite Hl in Hz.
    rewrite splice_whole_prefix.
    + rewrite !take_drop_commute, take_take. f_equal. f_equal. lia.
    + unfold zlen in *. rewrite length_take, length_drop. lia.
Qed.
End Reading.

(** ** Theorems on reading *)

Section Theorems.
Context {P : Profile} {BF : Bitflags} {S : Type} {ST : Storage S} {V : View S} {FS : FlatStorage S} {ES : EndSeek S}.

Lemma File_seek_start self o : 0 ≤ data_size (f_inode self) < 2 ^ 63 → 0 ≤ o ≤ data_size (f_inode self) →
  File_seek self (SeekStart o) = Ret (Ok (f_io_offset self), set_offset self o).
Proof.
  intros Hs Ho. unfold File_seek, unchecked_i64. rewrite (proj2 (Z.ltb_lt _ _)) by lia. cbn [unwrap]. run. by rewrite (proj2 (Z.ltb_ge _ _)) by lia.
Qed.

(** Reading all of a file. *)
Lemma read_all_ok (fs : Ext2 S) (X : Vol) (self : File) (full : IndirectedBlocks) : Shows fs X → HasFile (v_size (device fs)) X (f_inode self) full →
  0 ≤ f_io_offset self ≤ data_size (f_inode self) →
  let bytes := content X full (data_size (f_inode self)) in
  zlen bytes = data_size (f_inode self) ∧ ∃ fs', read_all fs self = Ret (Ok bytes, (fs', self)) ∧ Shows fs' X ∧ Mounted fs fs'.
Proof.
  intros Hshows Hfile Ho. cbv zeta. pose proof (hf_size _ _ _ _ Hfile) as Hsz. destruct (block_size_ok _ (ds_wf _ _ (sh_dev _ _ Hshows))) as [_ Hbs].
  assert (zlen (content X full (data_size (f_inode self))) = data_size (f_inode self)) as Hlen.
  { unfold content, zlen. rewrite length_take. destruct (decide (data_size (f_inode self) = 0)) as [->|Hne]; [cbn; lia|].
    destruct (size_blocks_range (vol_sb X) (data_size (f_inode self))) as (N1 & N2 & N3); [apply Hshows|lia|]. pose proof (hf_enough _ _ _ _ Hfile ltac:(lia)) as Hen.
    pose proof (zlen_bytes_of X (blocks_of full) ltac:(lia)) as Hz. unfold zlen in *. nia. }
  split; [done|].
  assert (zlen (zeros (Z.to_nat (data_size (f_inode self)))) = data_size (f_inode self)) as Hz by (unfold zlen, zeros; rewrite length_replicate; lia).
    destruct (read_window_ok fs X (f_inode self) full (zeros (Z.to_nat (data_size (f_inode self)))) 0) as (fs' & E & H & M); [done|done|lia|lia|by left; rewrite Z.mod_0_l by lia|].
    unfold read_all, on_file. rewrite File_seek_start by lia. run. unfold File_read, on_volume. cbn [fst snd f_inode f_io_offset set_offset]. rewrite E. run. cbn [fst snd].
    rewrite Hz, add_u_ok by lia. run. cbn [fst snd]. rewrite File_seek_start by (cbn; lia). run. exists fs'. split; [|done]. destruct self. cbn [set_offset f_inode_number f_inode f_io_offset].
    do 3 f_equal. unfold subslice. rewrite Z.add_0_l, Z.sub_0_r. change (Z.to_nat 0) with 0%nat. rewrite drop_0. apply take_ge. unfold zlen in Hlen. cbn [f_inode] in Hlen. lia.
Qed.


(** Reading fewer bytes than a block has from inside a block reports them all as read. Of [n] bytes at
    [r] in block [b] the first [n - r] are right, the rest is the start of the next block, and with
    fewer than [r] bytes nothing is read. *)
Theorem short_read_misses (fs : Ext2 S) (X : Vol) (i : Inode) (full : IndirectedBlocks) (buf : list Z) (o b b' : Z) (Hshows : Shows fs X)
    (Hfile : HasFile (v_size (device fs)) X i full) (Ho : 0 ≤ o) (Hend : o + block_bytes (vol_sb X) < data_size i)
    (Hin : 0 < o mod block_bytes (vol_sb X)) (Hshort : 0 < zlen buf < block_bytes (vol_sb X))
    (Hb : blocks_of full !! Z.to_nat (o / block_bytes (vol_sb X)) = Some b) (Hb' : blocks_of full !! Z.to_nat (o / block_bytes (vol_sb X) + 1) = Some b') :
  let r := o mod block_bytes (vol_sb X) in
  ∃ fs', read_data fs i buf o = Ret (Ok (zlen buf, if zlen buf <? r then buf else subslice (block_data X b) r (zlen buf) ++ take (Z.to_nat r) (block_data X b')), fs').
Proof.
  cbv zeta. pose proof (hf_size _ _ _ _ Hfile) as Hsz. pose proof (hf_blocks _ _ _ _ Hfile) as HBl. pose proof (ds_wf _ _ (sh_dev _ _ Hshows)) as Hw.
  destruct (block_size_ok _ Hw) as [Ebs Hbs]. destruct (size_blocks_range (vol_sb X) (data_size i)) as (N1 & N2 & N3); [done|lia|].
  pose proof (hf_enough _ _ _ _ Hfile ltac:(lia)) as Hen. pose proof (blocks_of_length _ (sm_tight _ (hb_small _ _ _ _ HBl))) as Hlen.
  set (n := size_blocks (vol_sb X) (data_size i)) in *. destruct (indirected_blocks_ok fs X i full) as (fs1 & ib & E & Hfound & H1 & M1); [done|done|lia|fold n; lia|].
  unfold read_data. rewrite E. run. pose proof (found_length full ib n Hfound ltac:(lia)) as Hl. destruct Hfound as (S1 & Eb & Ebo & Tp). rewrite flatten_data_blocks_ok by apply S1. run.
  set (bs := block_bytes (vol_sb X)) in *. set (q := o / bs) in *. set (r := o mod bs) in *. pose proof (Z.div_mod o bs ltac:(lia)) as Hdm. pose proof (Z.mod_pos_bound o bs ltac:(lia)) as Hr.
  fold q r in Hdm. fold r in Hr. assert (0 ≤ q ∧ q + 1 < n) as [Hq0 Hqn] by nia.
  assert (∀ x, x ∈ blocks_of ib → DataBlock (v_size (device fs1)) X x) as Hdata.
  { intros x Hx. rewrite (mo_size _ _ M1). pose proof (hb_on_disk _ _ _ _ HBl) as Hd. rewrite Forall_forall in Hd. apply Hd.
    apply (blocks_in_traverse _ _ S1) in Hx. destruct Tp as [rr ->]. rewrite elem_of_app. by left. }
  assert (∃ rest, drop (Z.to_nat q) (blocks_of ib) = b :: b' :: rest) as [rest Erest].
  { assert (blocks_of ib !! Z.to_nat q = Some b) as L1 by (rewrite Ebo, lookup_take_lt by lia; done).
    assert (blocks_of ib !! Datatypes.S (Z.to_nat q) = Some b') as L2 by (rewrite Ebo, lookup_take_lt by lia; rewrite <- Hb'; f_equal; lia).
    exists (drop (Datatypes.S (Datatypes.S (Z.to_nat q))) (blocks_of ib)). by rewrite (drop_S _ _ _ L1), (drop_S _ _ _ L2). }
  assert (read_data_loop fs1 (data_size i) (blocks_of ib) buf 0 o = read_data_loop fs1 (data_size i) (b :: b' :: rest) buf 0 r) as ->.
  { rewrite <- Erest. rewrite <- (take_drop (Z.to_nat q) (blocks_of ib)) at 1. assert (zlen (take (Z.to_nat q) (blocks_of ib)) = q) as Hzq by (unfold zlen in *; rewrite length_take; lia).
    replace o with (zlen (take (Z.to_nat q) (blocks_of ib)) * bs + r) by (rewrite Hzq; lia). apply read_skip_ok; [apply H1|done|lia|lia|lia|rewrite Hzq; fold bs; lia]. }
  assert (b ∈ blocks_of ib ∧ Forall (DataBlock (v_size (device fs1)) X) (b' :: rest)) as [Hbi Hbr].
  { rewrite <- (take_drop (Z.to_nat q) (blocks_of ib)) in Hdata |- *. rewrite Erest in Hdata |- *. split; [rewrite elem_of_app; right; by left|].
    apply Forall_forall. intros x Hx. apply Hdata. rewrite elem_of_app. right. by right. }
  remember (b' :: rest) as tl eqn:Etl.
  cbn [read_data_loop]. rewrite (proj2 (Z.eqb_neq 0 (data_size i))), (proj2 (Z.eqb_neq 0 (zlen buf))) by lia. cbn [orb]. rewrite (sh_super _ _ H1), Ebs. run. fold bs.
  rewrite (proj2 (Z.eqb_neq r 0)), (proj2 (Z.leb_gt bs r)) by lia. rewrite sub_u_ok by lia. run. rewrite Z.sub_0_r, Z.min_r by lia.
  destruct (Z.ltb_spec (zlen buf) r) as [Hlt|Hge]; [exists fs1; rewrite Etl; cbn [read_data_loop]; by rewrite Z.eqb_refl, orb_true_r|]. subst tl.
  destruct (copy_block_ok fs1 X b r (zlen buf - r) 0 buf) as (fs2 & -> & H2 & M2); [done|by apply Hdata|lia|lia|fold bs; lia|]. run. rewrite add_u_ok by lia. run.
  replace (r + (zlen buf - r)) with (zlen buf) by lia. rewrite Z.add_0_l. set (x := subslice (block_data X b) r (zlen buf)).
  pose proof (zlen_block_data X b ltac:(fold bs; lia)) as Hz. pose proof (zlen_block_data X b' ltac:(fold bs; lia)) as Hz'. fold bs in Hz, Hz'.
  assert (zlen x = zlen buf - r) as Hx by (unfold x; rewrite zlen_subslice; lia). assert (zlen (splice buf 0 x) = zlen buf) as HzB by (apply zlen_splice; lia).
  assert (zlen (b' :: rest) = n - q - 1) as Hrl by (unfold zlen in *; apply (f_equal length) in Erest; rewrite length_drop in Erest; cbn in Erest |- *; lia).
  destruct (read_from_ok X (data_size i) (b' :: rest) fs2 (splice buf 0 x) (zlen buf - r)) as (fs3 & E3 & _ & _);
    [done|by rewrite (mo_size _ _ M2)|lia|lia|fold bs; rewrite Hrl; nia|].
  fold bs in E3. rewrite HzB, Hrl in E3. replace (Z.min (zlen buf - (zlen buf - r)) ((n - q - 1) * bs)) with r in E3 by nia. rewrite E3. exists fs3.
  replace (zlen buf - r + r) with (zlen buf) by lia. assert (take (Z.to_nat r) (bytes_of X (b' :: rest)) = take (Z.to_nat r) (block_data X b')) as ->.
  { unfold bytes_of. rewrite bind_cons, take_app_le; [done|]. unfold zlen in *. lia. }
  pose proof (splice_next buf x (take (Z.to_nat r) (block_data X b')) 0) as Esp. rewrite Z.add_0_l, Hx in Esp. rewrite Esp; [|lia|unfold zlen in *; rewrite length_take; lia].
  by rewrite splice_whole_prefix by (rewrite zlen_app, Hx; unfold zlen in *; rewrite length_take; lia).
Qed.
End Theorems.

(** ** A volume with a file

    One group of 1024 blocks of 1 KiB, with a file of 2500 bytes in the blocks 13, 14 and 20. *)

Local Existing Instance Reference.bitflags.

Definition file_base : Base := mkBase 8 1024 0 1009 3 1 0 0 1024 1024 8 5 6 1 20 EXT2_SIGNATURE 1 1 0 7 0 0 0 0 0.
Definition file_group : BlockGroupDescriptor := mkGroup 3 4 5 1009 3 1 0 (zeros 12).
Definition file_inode : Inode := mkInode 0x81A4 1 2500 0 0 0 0 2 1 16 0 0 [13; 14; 20; 0; 0; 0; 0; 0; 0; 0; 0; 0] 0 0 0 0 0 0 0 (zeros 12).

Definition file_disk : SparseIO :=
  let m := sp_put (PositiveMap.empty Z) 1024 (Base_enc file_base) in
  let m := sp_put m 2048 (Group_enc file_group) in
  let m := sp_put m 3072 [0xFF; 0x3F; 0x08] in
  let m := sp_put m 4096 [0x1F] in
  let m := sp_put m 5632 (Inode_enc file_inode) in
  let m := sp_put m (13 * 1024 + 1020) [11; 12; 13; 14] in
  let m := sp_put m (14 * 1024) [21; 22; 23; 24] in
  mkSparse (sp_put m (20 * 1024) [31; 32; 33; 34]) 1049600 0.

Definition file_vol : Vol := mkVol (Basic file_base) (λ _, file_group)
  (λ a _, match a with
    | ABlocks => [0xFF; 0x3F; 0x08] ++ zeros 125
    | AInodes => [0x1F]
    | ATable => zeros 512 ++ Inode_enc file_inode ++ zeros 384
    end) (v_byte file_disk).

Definition file_fs (cache : bool) : Ext2 SparseIO := mkExt2 0 file_disk (Basic file_base) false false cache ∅ ∅.

Lemma file_one g : 0 ≤ g < groups (Basic file_base) → g = 0.
Proof. change (groups (Basic file_base)) with 1. lia. Qed.

Lemma file_shows cache : Shows (file_fs cache) file_vol.
Proof.
  split; [|done|intros n d _; cbn; by rewrite lookup_empty|intros n i _; cbn; by rewrite lookup_empty]. split.
  - apply sparse_ok. vm_compute. reflexivity.
  - reflexivity.
  - split.
    + intros g a ->%file_one; destruct a; vm_compute; (split; [discriminate|]); split; (discriminate || done).
    + intros g a h b ->%file_one ->%file_one Hne; destruct a, b;
        first [exfalso; by apply Hne|left; vm_compute; discriminate|right; vm_compute; discriminate].
  - vm_compute. reflexivity.
  - done.
  - intros g ->%file_one; split; vm_compute; reflexivity.
  - intros g a ->%file_one; destruct a; vm_compute; reflexivity.
  - done.
Qed.

Lemma file_counted : Counted file_vol.
Proof. split; [| |vm_compute; reflexivity..]; intros g ->%file_one; vm_compute; reflexivity. Qed.

(** The blocks behind the inode tables. *)
Lemma file_data b : 6 ≤ b ≤ 1024 → DataBlock 1049600 file_vol b.
Proof.
  intros Hb. change (block_bytes (vol_sb file_vol)) with 1024 in *. split; change (block_bytes (vol_sb file_vol)) with 1024; [lia|lia|].
  intros i Hi. split; change (groups (vol_sb file_vol)) with 1; [lia|]. intros g a Hg. right.
  assert (area_start (vol_sb file_vol) (vol_group file_vol g) a + area_len (vol_sb file_vol) a ≤ 6144) as Hle; [|lia].
  destruct a; vm_compute; discriminate.
Qed.

Definition file_blocks : IndirectedBlocks := mkBlocks 256 [13; 14; 20] (0, []) (0, []) (0, []).

Lemma file_has : HasFile 1049600 file_vol file_inode file_blocks.
Proof.
  assert (Small file_blocks ∧ traverse file_blocks = [13; 14; 20]) as [HS HT].
  { destruct (layout_small 256) with (t := [13; 14; 20]) (n := 3%nat) as (H1 & _ & H3); [done|done|lia|done|by repeat constructor|]. by split. }
  split; [|done|by vm_compute]. split; try done.
  rewrite HT. apply Forall_forall. intros b Hb. apply file_data. repeat (apply elem_of_cons in Hb as [->|Hb]; [lia|]). by apply not_elem_of_nil in Hb.
Qed.

Definition sample_file (o : Z) : File := mkFile 5 file_inode o.


(** 1023 bytes at 1022: the byte 14 at 1023 is left out. *)
Lemma short_read_misses_witness : ∃ fs', read_data (P := release) (file_fs true) file_inode (zeros 1023) 1022 =
  Ret (Ok (1023, [13] ++ [21; 22; 23; 24] ++ zeros 1018), fs').
Proof.
  destruct (short_read_misses (P := release) (file_fs true) file_vol file_inode file_blocks (zeros 1023) 1022 13 14 (file_shows true) file_has) as (fs' & E);
    [lia|vm_compute; reflexivity|vm_compute; reflexivity|split; vm_compute; reflexivity|reflexivity|reflexivity|].
  exists fs'. rewrite E. vm_compute. reflexivity.
Defined.
