(* ===== verification/Ext2Write.v ===== *)
(** * ext2 crate: writing files

    The theorems on [File::write] ([fs/ext2/file.rs], modelled in [Ext2File]): as long as the
    file stays within its direct blocks, writing at any position puts the bytes there and
    nowhere else, allocates exactly the blocks it takes, and leaves a file that reads back as
    written. *)

From Stdlib Require Import FMapPositive.
From S2P Require Import Prelude Crates BlockCache FatIo ExtBlocks Ext2Disk Ext2Alloc Ext2File.

(** ** Blocks of data *)

Lemma DataBlock_places size X Y b : SamePlaces X Y → DataBlock size X b → DataBlock size Y b.
Proof. intros [E HD _ _ _] [H1 H2 H3]. split; rewrite ?E; auto. Qed.

Lemma block_data_places X Y b : block_bytes (vol_sb Y) = block_bytes (vol_sb X) → vol_data Y = vol_data X → block_data Y b = block_data X b.
Proof. intros E1 E2. unfold block_data. by rewrite E1, E2. Qed.

Lemma bytes_of_ext X Y bl : (∀ b, b ∈ bl → block_data Y b = block_data X b) → bytes_of Y bl = bytes_of X bl.
Proof.
  induction bl as [|b bl IH]; intros H; [done|]. unfold bytes_of. rewrite !bind_cons. fold (bytes_of X bl) (bytes_of Y bl).
  rewrite H, IH by (intros; try apply H; set_solver). done.
Qed.

(** Writing the data [D] from [p] on over two pieces. *)
Lemma splice_pieces {A} (a r D : list A) p : 0 ≤ p ≤ zlen a → zlen D ≤ zlen a - p + zlen r →
  let c := Z.min (zlen a - p) (zlen D) in
  splice a p (take (Z.to_nat c) D) ++ splice r 0 (drop (Z.to_nat c) D) = splice (a ++ r) p D.
Proof.
  intros Hp HD c. pose proof (zlen_nonneg D). pose proof (zlen_nonneg r). unfold splice. rewrite !length_take, !length_drop. unfold zlen in *.
  change (Z.to_nat 0) with 0%nat. cbn [take app]. rewrite (take_app_le a r) by lia. rewrite <- !app_assoc. f_equal.
  destruct (decide (Z.of_nat (length D) ≤ Z.of_nat (length a) - p)) as [Hle|Hgt].
  - rewrite take_ge, (drop_ge D) by lia. rewrite take_0. cbn [app length]. f_equal. rewrite drop_app_le by lia.
    replace (Init.Nat.min (Z.to_nat c) (length D)) with (length D) by lia. f_equal. replace (length D - Z.to_nat c)%nat with 0%nat by lia. done.
  - rewrite (drop_ge a) by lia. rewrite take_0. cbn [app]. rewrite (app_assoc (take (Z.to_nat c) D) (drop (Z.to_nat c) D)), take_drop. f_equal. rewrite drop_app_ge by lia. f_equal. lia.
Qed.

Section Blocks.
Context {P : Profile} {BF : Bitflags} {S : Type} {ST : Storage S} {V : View S} {FS : FlatStorage S} {ES : EndSeek S}.
Implicit Types (fs : Ext2 S) (X : Vol).

Lemma with_data_places X f : SamePlaces X (with_data X f).
Proof. by split. Qed.

(** A write at [p] in the block [b] changes this block only. *)
Definition put (X : Vol) (b p : Z) (buf : list Z) : Vol := with_data X (spec_write (vol_data X) (b * block_bytes (vol_sb X) + p) buf).

Lemma block_data_put X b p buf b' : 0 ≤ p → p + zlen buf ≤ block_bytes (vol_sb X) →
  block_data (put X b p buf) b' = if decide (b' = b) then splice (block_data X b) p buf else block_data X b'.
Proof.
  intros Hp He. pose proof (zlen_nonneg buf) as Hn. set (bs := block_bytes (vol_sb X)) in *. pose proof (zlen_block_data X b' ltac:(fold bs; lia)) as Hz. fold bs in Hz.
  case_decide as Eb.
  - subst b'. apply list_eq. intros k. destruct (decide (Z.of_nat k < bs)) as [Hk|Hk].
    + rewrite <- (Nat2Z.id k) at 2. rewrite splice_lookup by lia. unfold block_data. cbn [vol_sb vol_data put with_data]. fold bs. rewrite !list_lookup_fmap, Nat2Z.id. unfold range.
      rewrite !lookup_seqZ_lt by lia. cbn [fmap option_fmap option_map]. unfold spec_write. fold bs. repeat case_bool; try lia; [|done].
      replace (b * bs + Z.of_nat k - (b * bs + p)) with (Z.of_nat k - p) by lia.
      destruct (lookup_lt_is_Some_2 buf (Z.to_nat (Z.of_nat k - p))) as [x ->]; [unfold zlen in *; lia|done].
    + assert (zlen (splice (block_data X b) p buf) = bs) by (rewrite zlen_splice; lia). pose proof (zlen_block_data (put X b p buf) b ltac:(cbn; fold bs; lia)) as Hz2. cbn in Hz2. fold bs in Hz2.
      rewrite !lookup_ge_None_2; [done|unfold zlen in *; lia..].
  - unfold block_data. cbn [vol_sb vol_data put with_data]. fold bs. apply list_fmap_ext. intros k x Hx%lookup_seqZ. unfold spec_write. case_bool; [|done].
    exfalso. assert (b' < b ∨ b < b') as [Hlt|Hlt] by lia; nia.
Qed.

Lemma Shows_put fs X s b p buf : Shows fs X → DataBlock (v_size (device fs)) X b → 0 ≤ p → p + zlen buf ≤ block_bytes (vol_sb X) →
  Now (device fs) s (spec_write (v_byte (device fs)) (b * block_bytes (vol_sb X) + p) buf) → Shows (set_device fs s) (put X b p buf).
Proof.
  intros H Hb Hp He Hn. pose proof (db_end _ _ _ Hb). split; [|apply H|apply H|apply H]. cbn [device set_device].
  eapply DevShows_data; [apply H|lia| |exact Hn]. intros i Hi. apply Hb. lia.
Qed.

Lemma Block_range_ok fs X b p len : Shows fs X → DataBlock (v_size (device fs)) X b → 0 ≤ p ≤ block_bytes (vol_sb X) → 0 ≤ len →
  Block_range fs (mkBlock b p) len = Ret (b * block_bytes (vol_sb X) + p, Z.min (block_bytes (vol_sb X) - p) len).
Proof.
  intros H Hb Hp Hl. destruct (block_address fs X b H Hb) as (E1 & E2 & Hbs & Ha & Hsz). pose proof (db_end _ _ _ Hb). unfold Block_range. cbn [bk_number bk_offset].
  rewrite E1. run. rewrite sub_u_ok by lia. run. rewrite E2. run. rewrite add_u_ok by lia. done.
Qed.

Lemma Block_write_ok fs X b p buf : Shows fs X → DataBlock (v_size (device fs)) X b → 0 ≤ p ≤ block_bytes (vol_sb X) → Forall is_byte buf →
  let c := Z.min (block_bytes (vol_sb X) - p) (zlen buf) in
  ∃ fs', Block_write fs (mkBlock b p) buf = Ret (Ok c, (fs', mkBlock b (p + c))) ∧ Shows fs' (put X b p (take (Z.to_nat c) buf)) ∧ Mounted fs fs'.
Proof.
  intros H Hb Hp Hby c. destruct (block_address fs X b H Hb) as (E1 & E2 & Hbs & Ha & Hsz). pose proof (db_end _ _ _ Hb) as He. pose proof (zlen_nonneg buf) as Hn.
  assert (0 ≤ c ≤ block_bytes (vol_sb X) - p ∧ c ≤ zlen buf) as [Hc1 Hc2] by (unfold c; lia).
  unfold Block_write. rewrite (Block_range_ok fs X) by (done || lia). run. fold c. set (a := b * block_bytes (vol_sb X)) in *. rewrite (add_u_ok 64 (a + p) c) by lia. run.
  destruct (on_device_slice fs X (a + p) (a + p + c)) as (fs1 & -> & H1 & M1); [done|lia|lia|]. run.
  assert (zlen (take (Z.to_nat c) buf) = c) as Hc by (unfold zlen in *; rewrite length_take; lia).
  unfold clone_from_slice. rewrite Hc, zlen_fmap_range by lia. replace (a + p + c - (a + p)) with c by lia. rewrite Z.eqb_refl. run.
  destruct (dev_commit_ok (device fs1) (a + p) (take (Z.to_nat c) buf)) as (s & E & Hs); [apply H1|lia|rewrite (mo_size _ _ M1); lia|by apply Forall_take|].
  unfold on_device. rewrite E. run. cbn [bk_number bk_offset]. rewrite add_u_ok by lia. run. eexists. split; [done|]. split.
  - apply Shows_put; [done|by rewrite (mo_size _ _ M1)|lia|lia|done].
  - etrans; [exact M1|]. by eapply Mounted_device.
Qed.

Lemma Block_seek_ok fs X b o : Shows fs X → 0 ≤ o < block_bytes (vol_sb X) → Block_seek fs (Block_new b) (SeekStart o) = Ret (Ok 0, (fs, mkBlock b o)).
Proof.
  intros H Ho. destruct (block_size_ok _ (ds_wf _ _ (sh_dev _ _ H))) as [E Hbs]. unfold Block_seek, try_from_u. rewrite (sh_super _ _ H), E. run.
  rewrite (proj2 (Z.leb_le 0 o)), (proj2 (Z.ltb_lt o (2 ^ 32))) by lia. cbn [andb]. by rewrite (proj2 (Z.leb_gt _ _)) by lia.
Qed.
End Blocks.

(** ** Files within the direct blocks *)

Definition direct (bpi : Z) (d : list Z) : IndirectedBlocks := mkBlocks bpi d (0, []) (0, []) (0, []).

Lemma blocks_of_direct bpi d : blocks_of (direct bpi d) = d ∧ traverse (direct bpi d) = d.
Proof. unfold blocks_of, traverse, direct. cbn. by rewrite !app_nil_r. Qed.

Lemma direct_of ib : Small ib → zlen (blocks_of ib) ≤ 12 → ib = direct (blocks_per_indirection ib) (blocks_of ib).
Proof.
  intros H Hl. destruct (small_shape ib H) as [E1 E2|E1 E2 E3|E1 E2 E3 E4].
  - pose proof (sm_triple _ H) as E. destruct ib. cbn in *. subst. unfold direct, blocks_of. cbn. by rewrite app_nil_r.
  - exfalso. unfold blocks_of in Hl. rewrite !zlen_app in Hl. destruct (singly_indirected_blocks ib).2 as [|x l]; [done|]. rewrite zlen_cons in Hl.
    pose proof (zlen_nonneg l). pose proof (zlen_nonneg (flat1 (doubly_indirected_blocks ib).2)). pose proof (zlen_nonneg (flat2 (triply_indirected_blocks ib).2)). lia.
  - exfalso. unfold blocks_of in Hl. rewrite !zlen_app in Hl. destruct (singly_indirected_blocks ib).2 as [|x l]; [done|]. rewrite zlen_cons in Hl.
    pose proof (zlen_nonneg l). pose proof (zlen_nonneg (flat1 (doubly_indirected_blocks ib).2)). pose proof (zlen_nonneg (flat2 (triply_indirected_blocks ib).2)). lia.
Qed.

Definition bpi_fits (bpi : Z) : Prop := 0 < bpi ∧ 12 + bpi + bpi * bpi + bpi * bpi * bpi < 2 ^ 32.

Lemma direct_small bpi d : bpi_fits bpi → zlen d ≤ 12 → Forall (λ b, b ≠ 0) d → Small (direct bpi d).
Proof.
  intros [Hp Hb] Hd Hz. unfold zlen in Hd. destruct (layout_small bpi Hp Hb d (length d)) as (H & _ & _); [lia| |done|by rewrite layout_direct in H by lia].
  unfold nec. rewrite decide_True by lia. lia.
Qed.

Lemma small_bpi ib : Small ib → bpi_fits (blocks_per_indirection ib).
Proof. intros H. split; apply (sm_tight _ H). Qed.

Section Direct.
Context {P : Profile}.

Lemma necessary_direct n bpi : n ≤ 12 → necessary_indirection_block_count n bpi = Ret 0.
Proof. intros H. unfold necessary_indirection_block_count, DIRECT_BLOCK_POINTER_COUNT. by rewrite (proj2 (Z.leb_le _ _)) by lia. Qed.

Lemma blocks_to_request_direct bpi d n bs : Small (direct bpi d) → zlen d ≤ 12 → 0 ≤ n ≤ 12 → blocks_to_request (direct bpi d) n bs = Ret (Z.max (n - zlen d) 0).
Proof.
  intros H Hd Hn. pose proof (zlen_nonneg d). unfold blocks_to_request, indirection_block_count. rewrite data_block_count_ok by apply H. run.
  rewrite (proj1 (blocks_of_direct bpi d)), !necessary_direct by lia. run. rewrite sub_u_ok by lia. run. rewrite add_u_ok by lia. f_equal. lia.
Qed.

Lemma append_direct bpi d bs : Forall (λ b, b ≠ 0) d → (length d + length bs ≤ 12)%nat → append_blocks (direct bpi d) bs = direct bpi (d ++ bs).
Proof.
  intros Hz Hl. unfold direct. rewrite <- layout_direct, <- layout_direct by (rewrite ?length_app; lia). apply append_layout; [done|].
  unfold capacity. rewrite length_app. lia.
Qed.

(** The blocks that change are those from the block [q] on. *)
Lemma append_difference_direct bpi d bs q : Forall (λ b, b ≠ 0) d → zlen d + zlen bs ≤ 12 → 0 ≤ q < 12 → q ≤ zlen d + zlen bs →
  ∃ diff, append_blocks_with_difference (direct bpi d) bs (Some q) = Ret (direct bpi (d ++ bs), diff) ∧ changed_indirected_blocks diff = Ret [] ∧
    changed_data_blocks diff = drop (Z.to_nat q) (d ++ bs).
Proof.
  intros Hz Hl Hq Hq2. unfold append_blocks_with_difference, block_at_offset_remainging_in_indirection. rewrite (proj2 (Z.ltb_lt q 12)) by lia. run.
  rewrite append_direct by (done || unfold zlen in *; lia). cbn [changed_part direct]. run. eexists. split; [done|]. split; [done|].
  unfold changed_data_blocks, rest_from, get_from. cbn. rewrite !app_nil_r. rewrite (proj2 (Z.leb_le _ _)) by (rewrite zlen_app; lia). done.
Qed.
End Direct.

(** ** The loops *)

Section Writing.
Context {P : Profile} {BF : Bitflags} {S : Type} {ST : Storage S} {V : View S} {FS : FlatStorage S} {ES : EndSeek S}.
Implicit Types (fs : Ext2 S) (X : Vol).

(** [Y] is [X] with the data [D] at [p] of the blocks [bl]. *)
Record Written (X Y : Vol) (bl : list Z) (p : Z) (D : list Z) : Prop := {
  wr_is : ∃ f, Y = with_data X f;
  wr_bytes : bytes_of Y bl = splice (bytes_of X bl) p D;
  wr_other b : b ∉ bl → block_data Y b = block_data X b;
}.

(** A part in the first block and the rest in the others. *)
Lemma Written_cons X Y b bl p D : 0 ≤ p ≤ block_bytes (vol_sb X) → b ∉ bl → zlen D ≤ (1 + zlen bl) * block_bytes (vol_sb X) - p →
  let c := Z.min (block_bytes (vol_sb X) - p) (zlen D) in
  Written (put X b p (take (Z.to_nat c) D)) Y bl 0 (drop (Z.to_nat c) D) → Written X Y (b :: bl) p D.
Proof.
  intros Hp Hb HD c HW. destruct HW as [[f ->] Hbytes Hother]. pose proof (zlen_nonneg D) as HnD. set (X1 := put X b p (take (Z.to_nat c) D)) in *.
  assert (0 ≤ c ≤ block_bytes (vol_sb X) - p ∧ c ≤ zlen D) as [Hc1 Hc2] by (unfold c; lia).
  assert (zlen (take (Z.to_nat c) D) = c) as Hct by (unfold zlen in *; rewrite length_take; lia).
  assert (∀ b', block_data X1 b' = if decide (b' = b) then splice (block_data X b) p (take (Z.to_nat c) D) else block_data X b') as Hx by (intros; apply block_data_put; lia).
  pose proof (zlen_block_data X b ltac:(lia)) as Hz. pose proof (zlen_bytes_of X bl ltac:(lia)) as Hzl.
  split; [by exists f| |].
  - unfold bytes_of. rewrite !bind_cons. fold (bytes_of X bl) (bytes_of (with_data X1 f) bl). rewrite Hbytes, Hother, Hx, decide_True by done.
    rewrite (bytes_of_ext X X1) by (intros b' Hb'; rewrite Hx, decide_False; [done|by intros ->]).
    pose proof (splice_pieces (block_data X b) (bytes_of X bl) D p) as E. rewrite Hz in E. apply E; [lia|]. rewrite Hzl. lia.
  - intros b' Hb'. rewrite not_elem_of_cons in Hb'. destruct Hb' as [Hne Hni]. by rewrite Hother, Hx, decide_False by done.
Qed.

Lemma Written_nil X bl : Written X X bl 0 [].
Proof. split; [by exists (vol_data X); destruct X|by rewrite splice_nil by (split; [done|apply zlen_nonneg])|done]. Qed.

Lemma write_rest_ok buf bl : ∀ fs X w, Shows fs X → Forall (DataBlock (v_size (device fs)) X) bl → NoDup bl → Forall is_byte buf → zlen buf < 2 ^ 63 →
  0 ≤ w ≤ zlen buf → block_bytes (vol_sb X) ≤ blocks_per_group (base (vol_sb X)) → zlen buf - w ≤ zlen bl * block_bytes (vol_sb X) →
  ∃ fs' Y, write_rest fs bl buf w = Ret (Ok (zlen buf), fs') ∧ Shows fs' Y ∧ Mounted fs fs' ∧ Written X Y bl 0 (drop (Z.to_nat w) buf).
Proof.
  induction bl as [|b bl IH]; intros fs X w H Hd Hnd Hby Hl Hw Hbpg Hfit.
  { change (zlen []) with 0 in Hfit. assert (w = zlen buf) as -> by lia. exists fs, X. cbn. split_and!; [done..|]. rewrite drop_ge by (unfold zlen; lia). apply Written_nil. }
  apply Forall_cons in Hd as [Hb Hd]. apply NoDup_cons in Hnd as [Hni Hnd]. rewrite zlen_cons in Hfit. destruct (block_size_ok _ (ds_wf _ _ (sh_dev _ _ H))) as [_ Hbs].
  pose proof (zlen_nonneg bl) as Hnl. cbn [write_rest]. rewrite (sh_super _ _ H). set (bpg := blocks_per_group (base (vol_sb X))) in *. set (bs := block_bytes (vol_sb X)) in *.
  rewrite sub_u_ok by lia. run. rewrite (add_u_ok 64 w) by lia. run. set (m := Z.min bpg (zlen buf - w)). rewrite (proj2 (Z.ltb_ge _ _)) by lia.
  assert (zlen (subslice buf w (w + m)) = m) as Hm by (rewrite zlen_subslice; lia).
  assert (Forall is_byte (subslice buf w (w + m))) as Hbs2 by (unfold subslice; by apply Forall_take, Forall_drop).
  destruct (Block_write_ok fs X b 0 (subslice buf w (w + m)) H Hb ltac:(fold bs; lia) Hbs2) as (fs1 & E & H1 & M1). fold bs in E, H1. rewrite Hm in E, H1. unfold Block_new. rewrite E. run.
  set (c := Z.min (bs - 0) m) in *. assert (c = Z.min bs (zlen buf - w)) as Ec by (unfold c, m; lia).
  assert (take (Z.to_nat c) (subslice buf w (w + m)) = take (Z.to_nat c) (drop (Z.to_nat w) buf)) as Et.
  { unfold subslice. rewrite take_take. f_equal. lia. }
  assert (zlen (drop (Z.to_nat w) buf) = zlen buf - w) as Hzd by (unfold zlen in *; rewrite length_drop; lia). rewrite Et in H1. cbn [fst].
  assert (∀ Y, Written (put X b 0 (take (Z.to_nat c) (drop (Z.to_nat w) buf))) Y bl 0 (drop (Z.to_nat c) (drop (Z.to_nat w) buf)) → Written X Y (b :: bl) 0 (drop (Z.to_nat w) buf)) as Hcons.
  { intros Y HW. apply Written_cons; [fold bs; lia|done|fold bs; lia|]. fold bs. rewrite Hzd. replace (Z.min (bs - 0) (zlen buf - w)) with c by lia. done. }
  destruct (Z.eqb_spec c 0) as [E0|E0].
  - exists fs1. eexists. split_and!; [do 2 f_equal; f_equal; lia|exact H1|done|]. apply Hcons. rewrite E0. change (Z.to_nat 0) with 0%nat. rewrite drop_0.
    rewrite (drop_ge buf) by (unfold zlen in *; lia). rewrite take_nil. apply Written_nil.
  - rewrite add_u_ok by lia. run. destruct (IH fs1 (put X b 0 (take (Z.to_nat c) (drop (Z.to_nat w) buf))) (w + c)) as (fs2 & Y & E2 & H2 & M2 & HW);
      [exact H1| |done|done|done|lia|done|cbn; fold bs; nia|].
    { rewrite (mo_size _ _ M1). eapply Forall_impl; [exact Hd|]. intros x. apply DataBlock_places, with_data_places. }
    exists fs2, Y. split_and!; [done|done|by etrans|]. apply Hcons. rewrite drop_drop. replace (Z.to_nat w + Z.to_nat c)%nat with (Z.to_nat (w + c)) by lia. done.
Qed.

(** All blocks from the one of the position on. *)
Lemma write_data_ok fs X bl o buf : Shows fs X → Forall (DataBlock (v_size (device fs)) X) bl → NoDup bl → Forall is_byte buf → 0 ≤ o → zlen buf < 2 ^ 63 →
  block_bytes (vol_sb X) ≤ blocks_per_group (base (vol_sb X)) → bl ≠ [] →
  let p := o mod block_bytes (vol_sb X) in zlen buf + p ≤ zlen bl * block_bytes (vol_sb X) →
  ∃ fs' Y, (let? (written_bytes, fs) := write_first fs o buf bl in write_rest fs (tail bl) buf written_bytes) = Ret (Ok (zlen buf), fs') ∧
    Shows fs' Y ∧ Mounted fs fs' ∧ Written X Y bl p buf.
Proof.
  intros H Hd Hnd Hby Ho Hl Hbpg Hne p Hfit. destruct bl as [|b bl]; [done|]. apply Forall_cons in Hd as [Hb Hd]. apply NoDup_cons in Hnd as [Hni Hnd].
  destruct (block_size_ok _ (ds_wf _ _ (sh_dev _ _ H))) as [Ebs Hbs]. pose proof (Z.mod_pos_bound o (block_bytes (vol_sb X)) ltac:(lia)) as Hp. fold p in Hp. rewrite zlen_cons in Hfit. pose proof (zlen_nonneg buf) as Hnb.
  unfold write_first. rewrite (sh_super _ _ H), Ebs. run. unfold rem_u. rewrite (proj2 (Z.eqb_neq (block_bytes (vol_sb X)) 0)) by lia. run. fold p. rewrite (Block_seek_ok fs X) by done. run. cbn [fst snd].
  destruct (Block_write_ok fs X b p buf H Hb ltac:(lia) Hby) as (fs1 & E & H1 & M1). rewrite E. run. cbn [fst tail].
  set (c := Z.min (block_bytes (vol_sb X) - p) (zlen buf)) in *.
  destruct (write_rest_ok buf bl fs1 (put X b p (take (Z.to_nat c) buf)) c) as (fs2 & Y & E2 & H2 & M2 & HW);
    [done| |done|done|done|lia|done|change (zlen buf - c ≤ zlen bl * block_bytes (vol_sb X)); pose proof (zlen_nonneg bl); assert (0 ≤ zlen bl * block_bytes (vol_sb X)) by nia; lia|].
  { rewrite (mo_size _ _ M1). eapply Forall_impl; [exact Hd|]. intros x. apply DataBlock_places, with_data_places. }
  exists fs2, Y. split_and!; [done|done|by etrans|]. apply Written_cons; [lia|done|lia|done].
Qed.
End Writing.

(** ** Growing a file *)

Section Grow.
Context {P : Profile} {BF : Bitflags} {S : Type} {ST : Storage S} {V : View S} {FS : FlatStorage S} {ES : EndSeek S}.
Implicit Types (fs : Ext2 S) (X Y : Vol).

Lemma located_places X Y blocks usage : Located X Y blocks usage → SamePlaces X Y ∧ base (vol_sb Y) = b_set_free_blocks (base (vol_sb X)) (free_blocks_count (base (vol_sb Y))) ∧
  inode_size (vol_sb Y) = inode_size (vol_sb X).
Proof.
  intros [E _ _ Hg _]. set (k := free_blocks_count _) in *.
  assert (∀ sb, groups (recount sb k (free_inodes_count (base sb))) = groups sb ∧ block_bytes (recount sb k (free_inodes_count (base sb))) = block_bytes sb ∧
    (∀ a, area_len (recount sb k (free_inodes_count (base sb))) a = area_len sb a) ∧ inode_size (recount sb k (free_inodes_count (base sb))) = inode_size sb ∧
    base (recount sb k (free_inodes_count (base sb))) = b_set_free_blocks (base sb) k) as Hr.
  { intros [[]|[] e]; split_and!; try done; intros []; done. }
  destruct (Hr (vol_sb X)) as (R1 & R2 & R3 & R4 & R5). rewrite E. split; [|done]. split; rewrite E, ?R5; try done.
  2:{ unfold bitmap_block. by rewrite R1, R5. }
  intros i [D1 D2]. split; rewrite R1; [done|].
  intros g a Hgr. rewrite R3. unfold area_start. rewrite R2, Hg. specialize (D2 g a Hgr). unfold area_start in D2. by destruct a.
Qed.

Lemma start_group_ok X bpi d : Super_wf (vol_sb X) = true → Small (direct bpi d) → Forall (bitmap_block (vol_sb X)) d →
  ∃ g, start_group (vol_sb X) (direct bpi d) = Ret g ∧ 0 ≤ g < groups (vol_sb X).
Proof.
  intros Hw HS Hv. destruct (Super_wf_spec _ Hw) as (Wbc & Wbpg & Wb8 & Wipg & Wi8 & Wlog & Wfdb & Wtot & Wic & Wic2 & Wgr & Wisz).
  unfold start_group, last_data_block_allocated. cbn [triply_indirected_blocks doubly_indirected_blocks singly_indirected_blocks direct_blocks direct snd last mbind option_bind].
  destruct (last d) as [b|] eqn:El; run; [|exists 0; split; [done|lia]].
  assert (bitmap_block (vol_sb X) b) as Hb by (apply last_Some in El as [l ->]; apply Forall_app in Hv as [_ Hv]; by apply Forall_cons in Hv as [? _]).
  unfold bitmap_block in Hb. unfold block_group. cbn [fmap option_fmap option_map]. rewrite sub_u_ok by lia. run. unfold div_u. rewrite (proj2 (Z.eqb_neq _ _)) by lia.
  eexists. split; [done|]. split; [apply Z.div_pos; lia|apply Z.div_lt_upper_bound; lia].
Qed.

(** What [grow] returns: the blocks of the size and as many free blocks as are missing. *)
Lemma grow_blocks_ok fs X self bpi d needed : Shows fs X → Counted X → HasFile (v_size (device fs)) X (f_inode self) (direct bpi d) → Forall (bitmap_block (vol_sb X)) d →
  zlen d ≤ 12 → 0 ≤ needed ≤ 12 → data_size (f_inode self) < 2 ^ 32 →
  let d0 := take (Z.to_nat (size_blocks (vol_sb X) (data_size (f_inode self)))) d in needed - zlen d0 ≤ zlen (free_list X) →
  ∃ fs' Y free, grow fs self needed (block_bytes (vol_sb X)) = Ret (Ok (direct bpi d0, free), fs') ∧ Shows fs' Y ∧ Counted Y ∧ Mounted fs fs' ∧
    Located X Y free true ∧ zlen free = Z.max (needed - zlen d0) 0 ∧ NoDup free ∧ ∀ b, b ∈ free → b ∈ free_list X.
Proof.
  intros H Hc HF Hv Hd Hn Hsz d0 Hfree. pose proof (sh_dev _ _ H) as Hdev. pose proof (ds_wf _ _ Hdev) as Hw. destruct (block_size_ok _ Hw) as [_ Hbs].
  pose proof (hf_blocks _ _ _ _ HF) as HB. pose proof (hf_size _ _ _ _ HF) as Hsz0. pose proof (hb_small _ _ _ _ HB) as HS.
  set (bs := block_bytes (vol_sb X)) in *. set (n0 := size_blocks (vol_sb X) (data_size (f_inode self))) in *.
  assert (0 ≤ Z.max (data_size (f_inode self) - 1) 0 / bs < 2 ^ 22) as Hq by (split; [apply Z.div_pos; lia|apply Z.div_lt_upper_bound; lia]).
  assert (n0 = 1 + Z.max (data_size (f_inode self) - 1) 0 / bs) as En0 by done.
  destruct (indirected_blocks_ok fs X (f_inode self) (direct bpi d)) as (fs1 & ib & E & (S1 & Eb & Ebo & Tp) & H1 & M1); [done|done|lia|fold n0; lia|].
  fold n0 in Ebo. rewrite (proj1 (blocks_of_direct bpi d)) in Ebo. cbn [direct blocks_per_indirection] in Eb.
  assert (zlen d0 ≤ zlen d ∧ 0 ≤ zlen d0) as [Hd0 Hd00] by (unfold d0, zlen; rewrite length_take; lia).
  assert (zlen d0 ≤ n0) as Hd0n by (unfold d0, zlen; rewrite length_take; lia).
  assert (ib = direct bpi d0) as ->. { rewrite (direct_of ib S1), Eb, Ebo; [done|]. rewrite Ebo. fold d0. lia. }
  unfold grow. rewrite E. run. unfold div_u. rewrite (proj2 (Z.eqb_neq bs 0)) by lia. run.
  assert (0 ≤ (Z.max (data_size (f_inode self)) MINIMAL_FILE_ALLOCATION - 1) / bs < 2 ^ 22) as Hq2 by (unfold MINIMAL_FILE_ALLOCATION; split; [apply Z.div_pos; lia|apply Z.div_lt_upper_bound; lia]).
  set (q2 := (Z.max (data_size (f_inode self)) MINIMAL_FILE_ALLOCATION - 1) / bs) in *.
  unfold unchecked_u, try_from_u. rewrite (proj2 (Z.leb_le 0 q2)), (proj2 (Z.ltb_lt q2 _)) by lia. cbn [andb unwrap]. run. rewrite add_u_ok by lia. run.
  assert (n0 ≤ 1 + q2) as Hn02. { rewrite En0. apply Z.add_le_mono_l, Z.div_le_mono; unfold MINIMAL_FILE_ALLOCATION; lia. }
  destruct (truncate_back_any (direct bpi d0) (1 + q2) S1 ltac:(lia)) as (ib2 & E2 & S2 & Eb2 & Ebo2 & _). rewrite E2. run.
  rewrite (proj1 (blocks_of_direct bpi d0)), take_ge in Ebo2 by (unfold zlen in *; lia).
  assert (ib2 = direct bpi d0) as ->. { rewrite (direct_of ib2 S2), Eb2, Ebo2; [done|]. rewrite Ebo2. lia. }
  rewrite blocks_to_request_direct by (done || lia). run. rewrite (sh_super _ _ H1).
  destruct (start_group_ok X bpi d0 Hw S1 ltac:(by apply Forall_take)) as (g & -> & Hg). run.
  destruct (Super_wf_spec _ Hw) as (Wbc & Wbpg & Wb8 & Wipg & Wi8 & Wlog & Wfdb & Wtot & Wic & Wic2 & Wgr & Wisz).
  assert (8 ≤ blocks_per_group (base (vol_sb X))) as H8 by (pose proof (Z.div_mod (blocks_per_group (base (vol_sb X))) 8 ltac:(lia)); lia).
  assert (g + groups (vol_sb X) < 2 ^ 32) as Hgg by nia.
  destruct (free_blocks_offset_ok fs1 X (Z.max (needed - zlen d0) 0) g) as (fs2 & E3 & H2 & M2 & Hp); [done|done|lia|lia|done|].
  set (all := concat (group_free X <$> rotated (vol_sb X) g)) in *. assert (zlen all = zlen (free_list X)) as Hal by (unfold zlen; by rewrite Hp).
  rewrite E3. unfold found_blocks. pose proof (zlen_nonneg (free_list X)). rewrite (proj2 (Z.leb_le _ (zlen all))) by lia. run. set (free := take _ all).
  assert (NoDup free ∧ ∀ b, b ∈ free → b ∈ free_list X) as [Hnd Hin].
  { split.
    - unfold free. eapply sublist_NoDup; [|apply sublist_take]. rewrite Hp. by eapply NoDup_free_list.
    - intros b Hb. rewrite <- Hp. unfold free in Hb. eapply elem_of_take in Hb as (j & Hj & _). by apply list_elem_of_lookup_2 in Hj. }
  destruct (locate_blocks_ok fs2 X free true) as (fs3 & Y & E4 & H4 & Hc4 & M4 & L4); [done|done|done| |].
  { apply Forall_forall. intros b Hb. by apply (elem_of_free_list _ X b Hdev), Hin. }
  unfold allocate_blocks. rewrite E4. run. exists fs3, Y, free. split_and!; [done|done|done|etrans; [exact M1|]; by etrans|done| |done|done].
  unfold free, zlen in *. rewrite length_take. lia.
Qed.
End Grow.

(** ** Writing *)

Lemma bpi_bound m : bpi_fits m → 0 < m ≤ 1625.
Proof. intros [H1 H2]. split; [done|]. destruct (decide (m ≤ 1625)); [done|]. assert (1626 * 1626 ≤ m * m) by nia. assert (1626 * 1626 * 1626 ≤ m * m * m) by nia. lia. Qed.

Lemma max_file_size_ok {P : Profile} sb : Super_wf sb = true → bpi_fits (block_bytes sb / 4) → ∃ m, max_file_size sb = Ret m ∧ 12 * block_bytes sb ≤ m.
Proof.
  intros Hw Hf. destruct (block_size_ok sb Hw) as [E Hbs]. apply bpi_bound in Hf. unfold max_file_size. rewrite E. run.
  pose proof (Z.div_mod (block_bytes sb) 4 ltac:(lia)). pose proof (Z.mod_pos_bound (block_bytes sb) 4 ltac:(lia)).
  set (m := block_bytes sb / 4) in *. set (bs := block_bytes sb) in *. assert (bs ≤ 6503) as Hb by lia.
  assert (0 ≤ bs * m ≤ 6503 * 1625) as H1 by nia. assert (0 ≤ bs * m * m ≤ 6503 * 1625 * 1625) as H2 by nia.
  assert (0 ≤ bs * m * m * m ≤ 6503 * 1625 * 1625 * 1625) as H3 by nia.
  rewrite (mul_u_ok 64 12) by lia. run. rewrite (mul_u_ok 64 bs m) by lia. run. rewrite (mul_u_ok 64 (bs * m) m) by lia. run.
  rewrite (mul_u_ok 64 (bs * m * m) m) by lia. run. rewrite add_u_ok by lia. run. rewrite add_u_ok by lia. run. rewrite add_u_ok by lia. eexists. split; [done|lia].
Qed.

(** The inode a write leaves. *)
Definition written_inode (i : Inode) (sb : Superblock) (d : list Z) (needed size : Z) : Inode :=
  set_content i size (needed * block_bytes sb / 512) (padded 12 d) 0 0 0 0.

Lemma written_inode_size {BF : Bitflags} i sb d needed size : data_size (written_inode i sb d needed size) = size.
Proof. unfold data_size, type_permissions. cbn. by destruct (fl_contains _ _); rewrite ?Z.add_0_r. Qed.

Lemma updated_inode_ok {P : Profile} {BF : Bitflags} i sb bpi d needed o len : zlen d ≤ 12 → 0 ≤ o → 0 ≤ len → 0 ≤ data_size i →
  Z.max (data_size i) (o + len) < 2 ^ 32 → 0 ≤ needed ≤ 12 → 0 ≤ block_bytes sb ≤ 2 ^ 26 →
  updated_inode i (block_bytes sb) needed o len (direct bpi d) = Ret (written_inode i sb d needed (Z.max (data_size i) (o + len))).
Proof.
  intros Hd Ho Hl Hs Hm Hn Hb. pose proof (zlen_nonneg d) as Hnd. unfold updated_inode. cbn [direct direct_blocks singly_indirected_blocks doubly_indirected_blocks triply_indirected_blocks fst].
  rewrite sub_u_ok by lia. run. unfold clone_from_slice. assert (take (Z.to_nat (12 - zlen d)) (replicate 12 0) = replicate (Z.to_nat 12 - length d) 0) as ->.
  { rewrite take_replicate. f_equal. unfold zlen in *. lia. }
  fold (padded 12 d). assert (zlen (padded 12 d) = 12) as -> by (unfold padded; rewrite zlen_app; unfold zlen in *; rewrite length_replicate; lia). rewrite Z.eqb_refl. run.
  rewrite add_u_ok by lia. run. rewrite mul_u_ok by nia. run. unfold written_inode. set (m := Z.max _ _) in *. f_equal. f_equal.
  - change (2 ^ 32 - 1) with (Z.ones 32). rewrite (Z.land_ones m 32) by lia. apply Z.mod_small. lia.
  - rewrite Z.shiftr_div_pow2, Z.div_small by lia. done.
Qed.

Lemma written_inode_fits i sb d needed size : Inode_fits i = true → zlen d ≤ 12 → Forall (λ b, 0 ≤ b < 2 ^ 32) d → 0 ≤ needed ≤ 12 → 0 ≤ block_bytes sb ≤ 2 ^ 26 →
  0 ≤ size < 2 ^ 32 → Inode_fits (written_inode i sb d needed size) = true.
Proof.
  intros Hf Hd Hb Hn Hbs Hs. unfold Inode_fits in *. cbn [written_inode set_content i_mode i_uid i_size i_atime i_ctime i_mtime i_dtime i_gid links_count i_blocks i_flags osd1 direct_block_pointers
    singly_indirect_block_pointer doubly_indirect_block_pointer triply_indirect_block_pointer generation file_acl dir_acl faddr osd2].
  assert (in_range 32 size = true) as R1 by (by apply in_range_true).
  assert (in_range 32 (needed * block_bytes sb / 512) = true) as R2 by (apply in_range_true; split; [apply Z.div_pos; nia|apply Z.div_lt_upper_bound; nia]).
  assert (array_wf 12 (padded 12 d) = true) as R3.
  { unfold array_wf, padded. apply andb_true_iff. split; [apply Z.eqb_eq; rewrite zlen_app; unfold zlen in *; rewrite length_replicate; lia|].
    apply Is_true_true, forallb_True, Forall_app. split; [eapply Forall_impl; [exact Hb|]; intros x Hx; apply Is_true_true; by apply in_range_true|].
    apply Forall_replicate. apply Is_true_true. by apply in_range_true. }
  repeat match type of Hf with (_ && _) = true => apply andb_true_iff in Hf as [Hf ?] end. and_split; assumption || reflexivity.
Qed.

(** An open file of the type [t] within the direct blocks [d] of a volume. *)
Record OpenFile {BF : Bitflags} (size : Z) (X : Vol) (t : FileType) (self : File) (bpi : Z) (d : list Z) : Prop := {
  of_number : 1 ≤ f_inode_number self ≤ inodes_count (base (vol_sb X));
  of_inode : f_inode self = inode_at X (f_inode_number self);
  of_fits : Inode_fits (f_inode self) = true;
  of_type : file_type (f_inode self) = Ok t;
  of_file : HasFile size X (f_inode self) (direct bpi d);
  of_distinct : NoDup d;
  of_used : Forall (λ b, bitmap_block (vol_sb X) b ∧ b ∉ free_list X) d;
  of_offset : 0 ≤ f_io_offset self ≤ data_size (f_inode self);
}.

(** The bytes from the position on that a write of [len] bytes wants blocks for: a regular file gets at least 8 KiB,
    whatever blocks it already has behind its size. *)
Definition asked_bytes (t : FileType) (len : Z) : Z := match t with TRegular => Z.max len MINIMAL_FILE_ALLOCATION | _ => len end.

(** The number of blocks that hold them, counted from the start of the file. *)
Definition asked_blocks (t : FileType) (sb : Superblock) (o len : Z) : Z := 1 + (asked_bytes t len + o - 1) / block_bytes sb.

Lemma asked_range t len : 0 ≤ len → t = TRegular ∨ 0 < len → 1 ≤ asked_bytes t len ∧ len ≤ asked_bytes t len ≤ Z.max len MINIMAL_FILE_ALLOCATION.
Proof. intros H1 H2. unfold asked_bytes, MINIMAL_FILE_ALLOCATION. destruct t; try (destruct H2 as [|H2]; [done|]); lia. Qed.

(** The blocks of a file up to its size: those behind it are not looked at. *)
Definition size_part {BF : Bitflags} (X : Vol) (i : Inode) (d : list Z) : list Z := take (Z.to_nat (size_blocks (vol_sb X) (data_size i))) d.

Section Write.
Context {P : Profile} {BF : Bitflags} {S : Type} {ST : Storage S} {V : View S} {FS : FlatStorage S} {ES : EndSeek S}.
Implicit Types (fs : Ext2 S) (X Y : Vol).

Lemma open_facts fs X t self bpi d : Shows fs X → OpenFile (v_size (device fs)) X t self bpi d →
  bpi = block_bytes (vol_sb X) / 4 ∧ bpi_fits bpi ∧ zlen d ≤ 12 ∧ Forall (λ b, b ≠ 0) d ∧ Forall (DataBlock (v_size (device fs)) X) d ∧
  data_size (f_inode self) ≤ zlen (size_part X (f_inode self) d) * block_bytes (vol_sb X) ∧ data_size (f_inode self) < 2 ^ 30.
Proof.
  intros H HO. pose proof (of_file _ _ _ _ _ _ HO) as HF. pose proof (hf_blocks _ _ _ _ HF) as HB. pose proof (hb_small _ _ _ _ HB) as HS. pose proof (hf_size _ _ _ _ HF) as Hsz.
  destruct (block_size_ok _ (ds_wf _ _ (sh_dev _ _ H))) as [_ Hbs]. destruct (blocks_of_direct bpi d) as [E1 E2].
  assert (zlen d ≤ 12) as Hd by apply (sm_tight _ HS).
  assert (data_size (f_inode self) ≤ zlen (size_part X (f_inode self) d) * block_bytes (vol_sb X) ∧ zlen (size_part X (f_inode self) d) ≤ 12) as [Hs Hp].
  { unfold size_part. destruct (decide (data_size (f_inode self) = 0)) as [E0|E0].
    - rewrite E0. unfold zlen in *. rewrite length_take. split; [nia|lia].
    - destruct (size_blocks_range (vol_sb X) (data_size (f_inode self))) as (N1 & N2 & N3); [apply H|lia|]. pose proof (hf_enough _ _ _ _ HF ltac:(lia)) as Hen. rewrite E1 in Hen.
      assert (zlen (take (Z.to_nat (size_blocks (vol_sb X) (data_size (f_inode self)))) d) = size_blocks (vol_sb X) (data_size (f_inode self))) as -> by (unfold zlen in *; rewrite length_take; lia). lia. }
  split_and!; [apply (hb_bpi _ _ _ _ HB)|apply (small_bpi _ HS)|apply (sm_tight _ HS)|pose proof (sm_nonzero _ HS) as Hz; by rewrite E2 in Hz| |done|nia].
  pose proof (hb_on_disk _ _ _ _ HB) as Hd2. by rewrite E2 in Hd2.
Qed.

(** The blocks a file has before and after: the old ones of its size and the new ones. *)
Lemma new_blocks X Y d0 new : NoDup d0 → NoDup new → Forall (λ b, bitmap_block (vol_sb X) b ∧ b ∉ free_list X) d0 → (∀ b, b ∈ new → b ∈ free_list X) → NoDup (d0 ++ new).
Proof.
  intros H1 H2 H3 H4. apply NoDup_app. split_and!; [done| |done]. intros b Hb Hn. rewrite Forall_forall in H3. by apply (H3 b Hb), H4.
Qed.

(** The data of the blocks [N] after a write from [o] on. *)
Lemma written_whole X Y N o buf : 0 ≤ o → let bs := block_bytes (vol_sb X) in 0 < bs → NoDup N → o / bs ≤ zlen N → o + zlen buf ≤ zlen N * bs →
  Written X Y (drop (Z.to_nat (o / bs)) N) (o mod bs) buf → bytes_of Y N = splice (bytes_of X N) o buf.
Proof.
  intros Ho bs Hbs Hnd Hq Hfit [_ HW Hother]. pose proof (Z.div_mod o bs ltac:(lia)) as Hdm. pose proof (Z.mod_pos_bound o bs ltac:(lia)) as Hm. pose proof (Z.div_pos o bs ltac:(lia) ltac:(lia)) as Hq0.
  set (q := o / bs) in *. set (p := o mod bs) in *. set (N1 := take (Z.to_nat q) N). set (N2 := drop (Z.to_nat q) N) in *. assert (N = N1 ++ N2) as EN by (symmetry; apply take_drop).
  assert (zlen N1 = q) as Hl1 by (unfold N1, zlen in *; rewrite length_take; lia). rewrite EN, !bytes_of_app, HW. rewrite EN in Hnd. apply NoDup_app in Hnd as (_ & Hdis & _).
  rewrite (bytes_of_ext X Y N1) by (intros b Hb; by apply Hother, Hdis).
  pose proof (zlen_bytes_of X N1 ltac:(fold bs; lia)) as Hz. rewrite Hl1 in Hz. fold bs in Hz. unfold splice. unfold zlen in Hz.
  assert (0 ≤ q * bs) as Hqb by nia. rewrite take_app_ge, drop_app_ge by lia. rewrite <- !app_assoc. repeat f_equal; lia.
Qed.

Lemma splice_take_max (B buf : list Z) s o : 0 ≤ o ≤ s → s ≤ zlen B → o + zlen buf ≤ zlen B →
  take (Z.to_nat (Z.max s (o + zlen buf))) (splice B o buf) = splice (take (Z.to_nat s) B) o buf.
Proof.
  intros Ho Hs Hb. pose proof (zlen_nonneg buf) as Hn. unfold splice, zlen in *. rewrite take_take, Nat.min_l by lia.
  rewrite take_app_ge by (rewrite length_take; lia). f_equal. rewrite length_take. rewrite take_app_ge by lia. f_equal.
  rewrite skipn_firstn_comm. f_equal. lia.
Qed.

(** What a write does: the volume [Y] and the file [self'] after it, with the blocks [new] allocated. *)
Record WroteFile (size : Z) (X Y : Vol) (t : FileType) (self self' : File) (bpi : Z) (d new buf : list Z) : Prop := {
  wf_open : OpenFile size Y t self' bpi (size_part X (f_inode self) d ++ new);
  wf_number : f_inode_number self' = f_inode_number self;
  wf_offset : f_io_offset self' = f_io_offset self + zlen buf;
  wf_size : data_size (f_inode self') = Z.max (data_size (f_inode self)) (f_io_offset self + zlen buf);
  wf_content : content Y (direct bpi (size_part X (f_inode self) d ++ new)) (data_size (f_inode self')) =
    splice (content X (direct bpi d) (data_size (f_inode self))) (f_io_offset self) buf;
  wf_free : free_list X ≡ₚ new ++ free_list Y;
  wf_free_inodes : free_inode_list Y = free_inode_list X;
  wf_enough : f_io_offset self + asked_bytes t (zlen buf) ≤ zlen (size_part X (f_inode self) d ++ new) * block_bytes (vol_sb X);
  wf_fewest : new ≠ [] → (zlen (size_part X (f_inode self) d ++ new) - 1) * block_bytes (vol_sb X) < f_io_offset self + asked_bytes t (zlen buf);
  wf_places : SamePlaces X Y;
  wf_blocks b : b ∉ size_part X (f_inode self) d ++ new → block_data Y b = block_data X b;
  wf_inodes n : 1 ≤ n ≤ inodes_count (base (vol_sb X)) → n ≠ f_inode_number self → inode_at Y n = inode_at X n;
}.

Lemma needed_range t sb o len : Super_wf sb = true → 0 ≤ o → 0 ≤ len → t = TRegular ∨ 0 < len → let n := asked_blocks t sb o len in
  1 ≤ n ∧ o / block_bytes sb < n ∧ o + len ≤ n * block_bytes sb ∧ 0 ≤ (asked_bytes t len + o - 1) / block_bytes sb.
Proof.
  intros Hw Ho Hl Ht n. destruct (block_size_ok _ Hw) as [_ Hbs]. pose proof (asked_range t len Hl Ht). unfold n, asked_blocks. set (a := asked_bytes t len + o - 1).
  pose proof (Z.div_mod a (block_bytes sb) ltac:(lia)). pose proof (Z.mod_pos_bound a (block_bytes sb) ltac:(lia)). pose proof (Z.div_pos a (block_bytes sb) ltac:(lia) ltac:(lia)).
  assert (o / block_bytes sb ≤ a / block_bytes sb) by (apply Z.div_le_mono; lia). split_and!; lia.
Qed.

(** [n] blocks are enough for what a write asks for. *)
Lemma asked_enough t sb o len n : Super_wf sb = true → asked_blocks t sb o len ≤ n ↔ o + asked_bytes t len ≤ n * block_bytes sb.
Proof.
  intros Hw. destruct (block_size_ok _ Hw) as [_ Hbs]. unfold asked_blocks. set (a := asked_bytes t len + o - 1).
  pose proof (Z.div_mod a (block_bytes sb) ltac:(lia)). pose proof (Z.mod_pos_bound a (block_bytes sb) ltac:(lia)). unfold a in *. split; nia.
Qed.

(** The file after the allocation, which gives [Y], the data, which gives [W], and the inode. *)
Lemma wrote_ok fs X Y W t self bpi d new buf : Shows fs X → OpenFile (v_size (device fs)) X t self bpi d → Forall (DataBlock (v_size (device fs)) X) (free_list X) →
  t = TRegular ∨ 0 < zlen buf → let o := f_io_offset self in let d0 := size_part X (f_inode self) d in let needed := asked_blocks t (vol_sb X) o (zlen buf) in let N := d0 ++ new in
  let size' := Z.max (data_size (f_inode self)) (o + zlen buf) in
  Located X Y new true → zlen new = Z.max (needed - zlen d0) 0 → NoDup new → (∀ b, b ∈ new → b ∈ free_list X) → zlen N ≤ 12 → Counted Y →
  Written Y W (drop (Z.to_nat (o / block_bytes (vol_sb X))) N) (o mod block_bytes (vol_sb X)) buf →
  Inode_fits (written_inode (f_inode self) (vol_sb X) N needed size') = true → (∃ s : S, DevShows s W) →
  WroteFile (v_size (device fs)) X (with_inode W (f_inode_number self) (written_inode (f_inode self) (vol_sb X) N needed size')) t self
    (mkFile (f_inode_number self) (written_inode (f_inode self) (vol_sb X) N needed size') (o + zlen buf)) bpi d new buf.
Proof.
  intros H HO Hfd Ht o d0 needed N size' HL Hnew Hnd Hin HN Hc HW Hfit [sW HsW].
  destruct (open_facts fs X t self bpi d H HO) as (Eb & Hbf & Hd12 & Hzd & Hdd & Hsz & Hsm). fold d0 in Hsz. pose proof (ds_wf _ _ (sh_dev _ _ H)) as Hw.
  destruct (block_size_ok _ Hw) as [_ Hbs]. pose proof (of_offset _ _ _ _ _ _ HO) as Ho. fold o in Ho. pose proof (zlen_nonneg buf) as Hnb.
  destruct (needed_range t (vol_sb X) o (zlen buf) Hw ltac:(lia) Hnb Ht) as (N1 & N2 & N3 & _). fold needed in N1, N2, N3.
  destruct (located_places X Y new true HL) as (HSP & EBase & EIS). pose proof (sp_block _ _ HSP) as PB. pose proof HW as HW0. destruct HW as [[f ->] HWb HWo]. set (W := with_data Y f) in *.
  set (i' := written_inode (f_inode self) (vol_sb X) N needed size') in *. set (R := with_inode W (f_inode_number self) i').
  assert (SamePlaces X R) as HSR by (destruct HSP; by split). assert (block_bytes (vol_sb R) = block_bytes (vol_sb X)) as EbR by exact PB.
  assert (Forall (λ b, bitmap_block (vol_sb X) b ∧ b ∉ free_list X) d0) as Hud0 by (apply Forall_take, HO). assert (NoDup d0) as Hnd0 by (eapply sublist_NoDup; [apply HO|apply sublist_take]).
  assert (NoDup N) as HndN by (by apply (new_blocks X Y)).
  assert (zlen N = zlen d0 + zlen new) as HzN by apply zlen_app. pose proof (zlen_nonneg d0) as Hz0.
  assert (o + zlen buf ≤ zlen N * block_bytes (vol_sb X) ∧ o / block_bytes (vol_sb X) ≤ zlen N ∧ data_size (f_inode self) ≤ zlen N * block_bytes (vol_sb X)) as (F1 & F2 & F3) by nia.
  assert (zlen N * block_bytes (vol_sb X) ≤ 12 * 2 ^ 26) as F4 by nia. assert (0 ≤ size' < 2 ^ 32 ∧ size' ≤ zlen N * block_bytes (vol_sb X)) as [F5 F6] by (unfold size'; lia).
  assert (bytes_of R N = splice (bytes_of X N) o buf) as Hbytes.
  { change (bytes_of R N) with (bytes_of W N). rewrite <- (bytes_of_ext X Y N) by (intros; apply block_data_places; [exact PB|apply HL]).
    apply (written_whole Y W); rewrite ?PB; try done; lia. }
  assert (Forall (DataBlock (v_size (device fs)) R) N) as HdN.
  { eapply Forall_impl with (P := DataBlock (v_size (device fs)) X); [|intros b; by apply DataBlock_places]. apply Forall_app. split; [by apply Forall_take|].
    apply Forall_forall. intros b Hb. rewrite Forall_forall in Hfd. by apply Hfd, Hin. }
  assert (Forall (λ b, b ≠ 0) N) as HzzN.
  { eapply Forall_impl; [exact HdN|]. intros b Hb ->. destruct (db_data _ _ _ Hb 0) as [Hx _]; [rewrite EbR; lia|].
    destruct (DevShows_bounds _ _ HsW) as [_ Hg1]. change (vol_sb R) with (vol_sb W) in Hx. lia. }
  assert (data_size i' = size') as Esz by apply written_inode_size.
  destruct (blocks_of_direct bpi N) as [Ebo Etr].
  destruct (Counted_inode W (f_inode_number self) i') as (_ & Efl & _); [destruct Hc; by split|]. change (free_list R = free_list Y) in Efl.
  assert (inodes_count (base (vol_sb Y)) = inodes_count (base (vol_sb X))) as Eic by (rewrite EBase; done).
  assert (∀ b, bitmap_block (vol_sb X) b → bitmap_block (vol_sb R) b) as Hval.
  { intros b. unfold bitmap_block. change (vol_sb R) with (vol_sb Y). unfold groups. rewrite EBase. done. }
  split; cbn [f_inode f_inode_number f_io_offset]; fold d0 o needed N size'; try done.
  - split; cbn [f_inode f_inode_number f_io_offset].
    + change (vol_sb R) with (vol_sb Y). rewrite Eic. apply HO.
    + unfold R. rewrite (inode_at_with sW), Z.eqb_refl; [done|done|..]; try done; change (vol_sb W) with (vol_sb Y); rewrite Eic; apply HO.
    + done.
    + apply HO.
    + split; [|rewrite Esz; lia|intros _; rewrite Esz, Ebo]. 
      * split; cbn [direct blocks_per_indirection singly_indirected_blocks doubly_indirected_blocks direct_blocks fst snd]; try done; [by apply direct_small|rewrite EbR; done|by rewrite Etr].
      * unfold size_blocks. rewrite EbR. assert (Z.max (size' - 1) 0 / block_bytes (vol_sb X) ≤ zlen N - 1); [|lia]. apply Z.lt_succ_r, Z.div_lt_upper_bound; [lia|].
        assert (0 < zlen N * block_bytes (vol_sb X)) by nia. unfold Z.succ. lia.
    + done.
    + apply Forall_app. split.
      * eapply Forall_impl; [exact Hud0|]. intros b [Hv Hf]. split; [by apply Hval|]. rewrite Efl. intros Hb. apply Hf. rewrite (lo_free _ _ _ _ HL), elem_of_app. by right.
      * apply Forall_forall. intros b Hb. specialize (Hin b Hb). split; [apply Hval; by apply (elem_of_free_list _ X b (sh_dev _ _ H))|]. rewrite Efl. intros Hb2.
        pose proof (NoDup_free_list _ X (sh_dev _ _ H)) as Hnf. rewrite (lo_free _ _ _ _ HL) in Hnf. apply NoDup_app in Hnf as (_ & Hdis & _). by apply (Hdis b).
    + rewrite Esz. lia.
  - rewrite Esz. unfold content. rewrite Ebo, (proj1 (blocks_of_direct bpi d)), Hbytes. pose proof (zlen_bytes_of X N ltac:(lia)) as HzB.
    unfold size'. rewrite splice_take_max by lia. f_equal. pose proof (zlen_bytes_of X d0 ltac:(lia)) as HzB0.
    unfold N. rewrite bytes_of_app, take_app_le by (unfold zlen in *; lia). unfold d0, size_part.
    rewrite <- (take_drop (Z.to_nat (size_blocks (vol_sb X) (data_size (f_inode self)))) d) at 2. rewrite bytes_of_app, take_app_le; [done|]. unfold d0, size_part, zlen in *. lia.
  - rewrite Efl. apply HL.
  - change (free_inode_list Y = free_inode_list X). unfold free_inode_list, group_free_inodes, groups. rewrite EBase. cbn [blocks_count blocks_per_group inodes_per_group b_set_free_blocks].
    f_equal. apply list_fmap_ext. intros k g _. by rewrite (lo_area _ _ _ _ HL).
  - apply (asked_enough _ _ _ _ _ Hw). fold needed. lia.
  - intros Hne. destruct new as [|x new']; [done|]. rewrite zlen_cons in Hnew. pose proof (zlen_nonneg new'). apply Z.nle_gt. intros Hle.
    apply (asked_enough _ _ _ _ _ Hw) in Hle. fold needed in Hle. rewrite HzN, zlen_cons in Hle. lia.
  - intros b Hb. change (block_data R b) with (block_data W b). rewrite HWo; [apply block_data_places; [exact PB|apply HL]|]. intros Hd. apply Hb. rewrite <- (take_drop (Z.to_nat (o / block_bytes (vol_sb X))) N), elem_of_app. by right.
  - intros n Hn Hne. unfold R. rewrite (inode_at_with sW); try done; [|change (vol_sb W) with (vol_sb Y); rewrite Eic; apply HO|change (vol_sb W) with (vol_sb Y); by rewrite Eic].
    rewrite (proj2 (Z.eqb_neq _ _)) by done. unfold inode_at, inode_offset, inode_group. change (vol_sb W) with (vol_sb Y). change (vol_area W) with (vol_area Y).
    rewrite EBase, EIS. cbn [inodes_per_group b_set_free_blocks]. by rewrite (lo_area _ _ _ _ HL).
Qed.

Lemma Counted_data X f : Counted X → Counted (with_data X f).
Proof. intros []. by split. Qed.

(** Writing the inode back and moving the position. *)
Lemma finish_write_ok fs X t self i o len : Shows fs X → 1 ≤ f_inode_number self ≤ inodes_count (base (vol_sb X)) → Inode_fits i = true → file_type i = Ok t →
  f_io_offset self = o → 0 ≤ o → 0 ≤ len → o + len ≤ data_size i < 2 ^ 63 →
  ∃ fs', (let? (_, st) := set_inode fs self i in
    n ← unwrap (if len <? 2 ^ 63 then Some len else None);
    let? (_, st) := on_file st.1 (File_seek st.2 (SeekCurrent n)) in
    Ret (Ok len, st)) = Ret (Ok len, (fs', mkFile (f_inode_number self) i (o + len))) ∧ Shows fs' (with_inode X (f_inode_number self) i) ∧ Mounted fs fs'.
Proof.
  intros H Hn Hf Ht Eo Ho Hl He. destruct (Inode_write_ok fs X (f_inode_number self) i H Hn Hf) as (fs1 & E1 & H1 & M1). unfold set_inode, on_volume. rewrite E1. run. cbn [fst snd].
  assert (inode_at (with_inode X (f_inode_number self) i) (f_inode_number self) = i) as Ei by (rewrite (inode_at_with (device fs)), Z.eqb_refl by (done || apply H); done).
  destruct (Inode_parse_ok fs1 _ (f_inode_number self) t H1 Hn) as (fs2 & E2 & H2 & M2); [by rewrite Ei|]. unfold update_inner_inode, on_volume. rewrite E2, Ei. run. cbn [fst snd].
  rewrite (proj2 (Z.ltb_lt len _)) by lia. cbn [unwrap]. run. unfold on_file, File_seek, unchecked_i64. cbn [f_inode f_io_offset f_inode_number]. rewrite (proj2 (Z.ltb_lt (data_size i) _)) by lia. cbn [unwrap]. run.
  rewrite Eo, (proj2 (Z.ltb_lt o _)) by lia. cbn [unwrap]. run. unfold add_i. rewrite (proj2 (Z.leb_le _ (o + len))), (proj2 (Z.ltb_lt (o + len) _)) by lia. cbn [andb]. run.
  unfold try_from_u. rewrite (proj2 (Z.leb_le 0 (o + len))), (proj2 (Z.ltb_lt (o + len) _)) by lia. cbn [andb]. run. rewrite (proj2 (Z.ltb_ge _ (o + len))) by lia. run.
  exists fs2. split_and!; [done|done|by etrans].
Qed.

Lemma file_write_ok fs X t self bpi d buf : Shows fs X → Counted X → OpenFile (v_size (device fs)) X t self bpi d → Forall (DataBlock (v_size (device fs)) X) (free_list X) →
  block_bytes (vol_sb X) ≤ blocks_per_group (base (vol_sb X)) → Forall is_byte buf → t = TRegular ∨ 0 < zlen buf →
  let needed := asked_blocks t (vol_sb X) (f_io_offset self) (zlen buf) in needed ≤ 12 → needed - zlen (size_part X (f_inode self) d) ≤ zlen (free_list X) →
  ∃ fs' self' Y new, File_write fs self buf = Ret (Ok (zlen buf), (fs', self')) ∧ Shows fs' Y ∧ Counted Y ∧ Mounted fs fs' ∧
    WroteFile (v_size (device fs)) X Y t self self' bpi d new buf.
Proof.
  intros H Hc HO Hfd Hbpg Hby Ht needed Hn12 Hroom. destruct (open_facts fs X t self bpi d H HO) as (Eb & Hbf & Hd12 & Hzd & Hdd & Hsz & Hsm).
  pose proof (ds_wf _ _ (sh_dev _ _ H)) as Hw. destruct (block_size_ok _ Hw) as [Ebs Hbs]. pose proof (of_offset _ _ _ _ _ _ HO) as Ho. pose proof (zlen_nonneg buf) as Hnb.
  set (o := f_io_offset self) in *. set (d0 := size_part X (f_inode self) d) in *. destruct (needed_range t (vol_sb X) o (zlen buf) Hw ltac:(lia) Hnb Ht) as (N1 & N2 & N3 & N4). fold needed in N1, N2, N3.
  set (bs := block_bytes (vol_sb X)) in *. assert (needed * bs ≤ 12 * 2 ^ 26) as N5 by nia. assert (needed * bs ≤ 12 * bs) as N6 by nia.
  unfold File_write. rewrite (sh_super _ _ H), Ebs. run. destruct (max_file_size_ok (vol_sb X) Hw) as (mx & -> & Hmx); [fold bs; by rewrite <- Eb|]. run. fold bs in Hmx.
  rewrite (proj2 (Z.ltb_ge mx _)) by lia. rewrite (of_type _ _ _ _ _ _ HO). fold o.
  assert (needed = 1 + (asked_bytes t (zlen buf) + o - 1) / bs) as Enn by done. set (q := (_ - 1) / bs) in Enn, N4.
  assert (o + zlen buf ≤ 12 * 2 ^ 26) as N7 by lia. fold (asked_bytes t (zlen buf)). pose proof (asked_range t (zlen buf) Hnb Ht) as Hask. unfold MINIMAL_FILE_ALLOCATION in *. rewrite (add_u_ok 64 _ o) by lia. run. rewrite (sub_u_ok 64 _ 1) by lia. run. unfold div_u. rewrite (proj2 (Z.eqb_neq bs 0)) by lia. run. fold q.
  unfold unchecked_u, try_from_u. rewrite (proj2 (Z.leb_le 0 q)), (proj2 (Z.ltb_lt q (2 ^ 32))) by lia. cbn [andb unwrap]. run. rewrite (add_u_ok 32 1 q) by lia. run. rewrite <- Enn.
  rewrite (mul_u_ok 64 needed bs) by lia. run. rewrite (proj2 (Z.leb_gt _ (needed * bs))), andb_false_r by lia.
  destruct (grow_blocks_ok fs X self bpi d needed) as (fs1 & Y & new & E1 & H1 & Hc1 & M1 & HL & Hnl & Hnd & Hin);
    [done|done|apply HO|eapply Forall_impl; [apply HO|by intros b [? _]]|done|lia|lia|exact Hroom|].
  fold bs d0 in E1, Hnl. unfold on_volume at 1. change (take _ d) with d0 in E1, Hnl. rewrite E1. run.
  destruct (located_places X Y new true HL) as (HSP & EBase & EIS). pose proof (sp_block _ _ HSP) as PB. fold bs in PB.
  assert (NoDup (d0 ++ new)) as HndN. { apply (new_blocks X Y); [eapply sublist_NoDup; [apply HO|apply sublist_take]|done|apply Forall_take, HO|done]. }
  pose proof (zlen_nonneg d0) as Hz0. assert (zlen d0 ≤ 12) as Hd0 by (unfold d0, size_part, zlen in *; rewrite length_take; lia).
  assert (zlen (d0 ++ new) = zlen d0 + zlen new) as HzN by apply zlen_app. pose proof (Z.div_pos o bs ltac:(lia) ltac:(lia)) as Hq0.
  rewrite (proj2 (Z.leb_le 0 (o / bs))), (proj2 (Z.ltb_lt (o / bs) (2 ^ 32))) by lia. cbn [andb unwrap]. run.
  destruct (append_difference_direct bpi d0 new (o / bs)) as (diff & E2 & E3 & E4); [by apply Forall_take|lia|lia|lia|]. rewrite E2. run.
  set (N := d0 ++ new) in *. assert (Forall (DataBlock (v_size (device fs1)) Y) N) as HdN.
  { rewrite (mo_size _ _ M1). eapply Forall_impl with (P := DataBlock (v_size (device fs)) X); [|intros b; by apply DataBlock_places]. apply Forall_app. split; [by apply Forall_take|].
    apply Forall_forall. intros b Hb. rewrite Forall_forall in Hfd. by apply Hfd, Hin. }
  pose proof (Z.div_mod o bs ltac:(lia)) as Hdm. pose proof (Z.mod_pos_bound o bs ltac:(lia)) as Hm.
  assert (zlen (drop (Z.to_nat (o / bs)) N) = zlen N - o / bs) as Hzd2 by (unfold zlen in *; rewrite length_drop; lia).
  destruct (write_data_ok fs1 Y (drop (Z.to_nat (o / bs)) N) o buf) as (fs2 & W & E5 & H2 & M2 & HW); rewrite ?PB; try done.
  { by apply Forall_drop. }
  { eapply sublist_NoDup; [exact HndN|apply sublist_drop]. }
  { lia. }
  { lia. }
  { rewrite EBase. done. }
  { intros E0. rewrite E0 in Hzd2. change (zlen []) with 0 in Hzd2. lia. }
  { rewrite Hzd2. nia. }
  unfold write_blocks. rewrite E3. run. cbn [write_indirections]. run. rewrite E4. cbn [fst snd]. rewrite E5. unfold on_volume at 1. run.
  rewrite (updated_inode_ok (f_inode self) (vol_sb X)) by (fold bs; lia). run. fold bs. fold o. rewrite PB in HW.
  set (i' := written_inode (f_inode self) (vol_sb X) N needed (Z.max (data_size (f_inode self)) (o + zlen buf))).
  assert (Inode_fits i' = true) as Hfit.
  { apply written_inode_fits; [apply HO|lia| |lia|fold bs; lia|lia]. destruct (Super_wf_spec _ Hw) as (Wbc & Wbpg & Wb8 & Wipg & Wi8 & Wlog & Wfdb & Wtot & Wic & Wic2 & Wgr & Wisz).
    apply Forall_forall. intros b Hb. assert (bitmap_block (vol_sb X) b) as Hv; [|unfold bitmap_block in Hv; lia]. unfold N in Hb. apply elem_of_app in Hb as [Hb|Hb].
    - pose proof (of_used _ _ _ _ _ _ HO) as Hu. rewrite Forall_forall in Hu. unfold d0, size_part in Hb. apply elem_of_take in Hb as (j & Hj & _). apply list_elem_of_lookup_2 in Hj. by apply Hu.
    - by apply (elem_of_free_list _ X b (sh_dev _ _ H)), Hin. }
  destruct (wr_is _ _ _ _ _ HW) as [f EW].
  assert (base (vol_sb W) = base (vol_sb Y)) as EsW by (by rewrite EW).
  destruct (finish_write_ok fs2 W t self i' o (zlen buf)) as (fs3 & E6 & H3 & M3);
    [done|rewrite EsW, EBase; apply HO|done|apply HO|done|lia|lia|unfold i'; rewrite written_inode_size; lia|].
  cbn [fst snd]. rewrite E6. eexists fs3, _, _, new. split; [done|]. split; [exact H3|]. split.
  { apply Counted_inode. rewrite EW. by apply Counted_data. }
  split; [etrans; [exact M1|]; by etrans|]. apply (wrote_ok fs X Y W t); try done; [fold d0 N; lia|by exists (device fs2); apply H2].
Qed.
End Write.

(** ** Theorems *)

Section Theorems.
Context {P : Profile} {BF : Bitflags} {S : Type} {ST : Storage S} {V : View S} {FS : FlatStorage S} {ES : EndSeek S}.


(** A position behind the end is refused, and the file is left there. *)
Theorem failed_seek_moves (self : File) (o : Z) (Hsize : 0 ≤ data_size (f_inode self) < 2 ^ 63) (Ho : data_size (f_inode self) < o) :
  File_seek self (SeekStart o) = Ret (Err (Fs (OutOfBounds o)), set_offset self o).
Proof. unfold File_seek, unchecked_i64. rewrite (proj2 (Z.ltb_lt _ _)) by lia. cbn [unwrap]. run. by rewrite (proj2 (Z.ltb_lt _ _)) by lia. Qed.

(** The blocks behind the first double indirection block of a triple one are lost when the size ends
    among the first of them: the count is raised before they are read, and the loop returns. *)
Theorem triple_blocks_lost (fs : Ext2 S) (X : Vol) (n bpi parsed p : Z) (l pointers : list Z) (acc : list DoubleIndirection) (Hshows : Shows fs X)
    (Hp : DataBlock (v_size (device fs)) X p) (Hl : points_to X p l) (Hnz : Forall (λ b, b ≠ 0) (p :: l)) (Hne : l ≠ [])
    (Hbpi : 0 ≤ bpi) (Hparsed : 0 ≤ parsed < n) (Hn : n ≤ parsed + bpi < 2 ^ 32) :
  ∃ fs', read_triple fs n bpi parsed (p :: pointers) acc = Ret (Ok acc, fs').
Proof.
  apply Forall_cons in Hnz as [Hp0 Hl0]. cbn [read_triple]. rewrite (proj2 (Z.eqb_neq p 0)), (proj2 (Z.leb_gt n parsed)) by lia. cbn [orb].
  destruct (read_indirect_block_ok fs X p l Hshows Hp Hl Hl0) as (fs1 & -> & _ & _). run. rewrite add_u_ok by lia. run.
  destruct l as [|b l]; [done|]. cbn [read_dib]. rewrite (proj2 (Z.leb_le n (parsed + bpi))), orb_true_r by lia. run. by exists fs1.
Qed.

(** A changed part of an indirection block that starts at entry [k] is written at byte [k] of the block. *)
Theorem indirections_misplaced (fs : Ext2 S) (X : Vol) (p k : Z) (l : list Z) (Hshows : Shows fs X) (Hp : DataBlock (v_size (device fs)) X p)
    (Hne : l ≠ []) (Hk : 0 < k) (Hfit : k + zlen (words_le l) ≤ block_bytes (vol_sb X)) :
  ∃ fs', write_indirections fs [(k, (p, l))] = Ret (Ok tt, fs') ∧ Shows fs' (put X p k (words_le l)).
Proof.
  destruct (block_size_ok _ (ds_wf _ _ (sh_dev _ _ Hshows))) as [_ Hbs]. pose proof (zlen_words_le l) as Hz. assert (0 < zlen l) as Hl by (destruct l; [done|rewrite zlen_cons; pose proof (zlen_nonneg l); lia]).
  cbn [write_indirections]. rewrite (proj2 (Z.eqb_neq k 0)) by lia. cbn [negb]. rewrite (Block_seek_ok fs X) by (done || lia). run. cbn [fst snd].
  destruct (Block_write_ok fs X p k (words_le l) Hshows Hp ltac:(lia) (words_le_bytes l)) as (fs1 & E & H1 & _). rewrite Z.min_r in E, H1 by lia.
  unfold Block_write_all. destruct (words_le l) as [|x w] eqn:Ew; [change (zlen []) with 0 in Hz; lia|]. cbn [length Block_write_all_loop]. rewrite E. run.
  rewrite (proj2 (Z.eqb_neq _ 0)) by lia. cbn [fst snd]. rewrite take_ge in H1 by (unfold zlen; lia). rewrite drop_ge by (unfold zlen; lia).
  exists fs1. split; [|done]. by destruct (length w).
Qed.
End Theorems.

(** ** Examples *)

Local Existing Instance Reference.bitflags.

Lemma forallb_Forall {A} (f : A → bool) l : forallb f l = true → Forall (λ x, f x = true) l.
Proof. induction l as [|x l IH]; [done|]. cbn. intros [H1 H2]%andb_true_iff. constructor; auto. Qed.

Lemma file_free_data : Forall (DataBlock 1049600 file_vol) (free_list file_vol).
Proof.
  apply (Forall_impl (λ b, (6 <=? b) && (b <=? 1024) = true)); [apply forallb_Forall; vm_compute; reflexivity|]. intros b Hb. apply file_data. lia.
Qed.

Lemma file_open o : 0 ≤ o ≤ 2500 → OpenFile 1049600 file_vol TRegular (sample_file o) 256 [13; 14; 20].
Proof.
  intros Ho. split.
  - vm_compute. split; discriminate.
  - vm_compute. reflexivity.
  - reflexivity.
  - reflexivity.
  - exact file_has.
  - apply (bool_decide_unpack _). vm_compute. exact I.
  - assert (Forall (λ b, bool_decide (b ∉ free_list file_vol) = true) [13; 14; 20]) as E by (apply forallb_Forall; vm_compute; reflexivity).
    apply Forall_forall. intros b Hb. split.
    + unfold bitmap_block. change (first_data_block (base (vol_sb file_vol))) with 1. change (groups (vol_sb file_vol) * blocks_per_group (base (vol_sb file_vol))) with 1024.
      repeat (apply elem_of_cons in Hb as [->|Hb]; [lia|]). by apply not_elem_of_nil in Hb.
    + rewrite Forall_forall in E. specialize (E b Hb). by apply bool_decide_eq_true in E.
  - change (data_size (f_inode (sample_file o))) with 2500. cbn. lia.
Qed.


(** Two short writes to the file: the first allocates five blocks, the second six, since those behind
    the size are not counted, and the first five are then neither free nor the file's. *)
Example writes_leak_blocks :
  match File_write (P := release) (file_fs false) (sample_file 0) [1; 2; 3] with
  | Ret (Ok _, (fs1, self1)) =>
      match File_write (P := release) fs1 self1 [4; 5; 6] with
      | Ret (Ok _, (fs2, self2)) =>
          free_blocks_count (base (superblock fs1)) = 1004 ∧ free_blocks_count (base (superblock fs2)) = 998 ∧
          filter (λ b, b ≠ 0) (direct_block_pointers (f_inode self1)) = [13; 14; 20; 15; 16; 17; 18; 19] ∧
          filter (λ b, b ≠ 0) (direct_block_pointers (f_inode self2)) = [13; 14; 20; 21; 22; 23; 24; 25; 26] ∧ data_size (f_inode self2) = 2500
      | _ => False
      end
  | _ => False
  end.
Proof. vm_compute. by split_and!. Qed.

(** A file of twenty blocks has one indirection block. A short write at its start needs none, and the
    difference of the counts overflows: a panic, or a request for more blocks than there are. *)
Example short_write_to_large_file : blocks_to_request (P := dev) (layout 256 (numbers 21)) 8 1024 = Panic ∧
  blocks_to_request (P := release) (layout 256 (numbers 21)) 8 1024 = Ret (2 ^ 32 - 1).
Proof. split; vm_compute; reflexivity. Qed.
