(* ===== verification/Ext2Dir.v ===== *)
(** * ext2 crate: directories and symbolic links

    [fs/ext2/directory.rs], the directories and symbolic links of [fs/ext2/file.rs], the files of
    [fs/ext2/mod.rs] in [kernel/crates/efs/src], and the directory inodes of
    [kernel/src/fs/ext2.rs] over them. A name is the bytes of its UTF-8 form; a [CString] is its bytes
    without the NUL.

    A directory reads its blocks as lists of entries and keeps them. The theorems: blocks of entries are
    read as what was written, a directory lists and opens what its entries say, and a new file is added to
    its directory and found there. *)

From S2P Require Import Prelude Crates BlockCache FatIo Syscall ExtBlocks Ext2Disk Ext2Alloc Ext2File Ext2Write.

(** ** Entries *)

Record Entry := mkEntry { e_inode : Z; e_rec_len : Z; e_name_len : Z; e_file_type : Z; e_name : list Z }.

Definition HEADER_SIZE : Z := 8.
Definition set_rec_len (e : Entry) (n : Z) : Entry := mkEntry (e_inode e) n (e_name_len e) (e_file_type e) (e_name e).

(** [FileType] of [directory.rs]. *)
Inductive EntryType := Unknown | RegFile | Dir | ChrDev | BlkDev | Fifo | Sock | Symlink.

#[export] Instance EntryType_eq_dec : EqDecision EntryType.
Proof. solve_decision. Defined.
#[export] Instance FileType_eq_dec : EqDecision FileType.
Proof. solve_decision. Defined.

Definition EntryType_from_u8 (value : Z) : EntryType :=
  if value =? 1 then RegFile else if value =? 2 then Dir else if value =? 3 then ChrDev else if value =? 4 then BlkDev
  else if value =? 5 then Fifo else if value =? 6 then Sock else if value =? 7 then Symlink else Unknown.

Definition EntryType_value (t : EntryType) : Z :=
  match t with Unknown => 0 | RegFile => 1 | Dir => 2 | ChrDev => 3 | BlkDev => 4 | Fifo => 5 | Sock => 6 | Symlink => 7 end.

Definition EntryType_from (t : FileType) : EntryType :=
  match t with
  | TRegular => RegFile
  | TDirectory => Dir
  | TSymbolicLink => Symlink
  | TFifo => Fifo
  | TCharacterDevice => ChrDev
  | TBlockDevice => BlkDev
  | TSocket => Sock
  end.

Definition EntryType_try_into (t : EntryType) : result Ext2Error FileType :=
  match t with
  | Unknown => Err UnknownEntryFileType
  | RegFile => Ok TRegular
  | Dir => Ok TDirectory
  | ChrDev => Ok TCharacterDevice
  | BlkDev => Ok TBlockDevice
  | Fifo => Ok TFifo
  | Sock => Ok TSocket
  | Symlink => Ok TSymbolicLink
  end.

Section Entries.
Context {P : Profile} {S : Type} {ST : Storage S}.
Implicit Types (fs : Ext2 S) (self : Entry).

(** 256 bytes behind the header are read whatever the length of the name. *)
Definition Entry_parse fs (starting_addr : Z) : out (result FsErr Entry * Ext2 S) :=
  let? (header, fs) := on_device fs (read_at HEADER_SIZE (device fs) starting_addr) in
  a ← add_u 64 starting_addr HEADER_SIZE;
  let? (buffer, fs) := on_device fs (read_at 256 (device fs) a) in
  let '(inode, l) := rd 4 header in
  let '(rec_len, l) := rd 2 l in
  let '(name_len, l) := rd 1 l in
  let '(file_type, _) := rd 1 l in
  let name := take (Z.to_nat name_len) buffer in
  match from_utf8 name with
  | None => Ret (Err (Fs BadString), fs)
  | Some _ =>
      if existsb (λ b, b =? 0) name then Ret (Err (Fs BadString), fs)
      else Ret (Ok (mkEntry inode rec_len name_len file_type name), fs)
  end.

(** [u16::try_from(...).expect(...)] of the header and the name with its NUL. *)
Definition entry_size self : out Z := unwrap (try_from_u 16 (HEADER_SIZE + (zlen (e_name self) + 1))).

Definition minimal_size self : out Z :=
  minimal_size ← entry_size self;
  m ← sub_u 16 minimal_size 1;
  add_u 16 minimal_size (4 - (m mod 4 + 1)).

Definition free_space self : out Z := n ← entry_size self; sub_u 16 (e_rec_len self) n.

Definition Entry_as_bytes self : list Z :=
  to_le 4 (e_inode self) ++ to_le 2 (e_rec_len self) ++ [e_name_len self; e_file_type self] ++ e_name self ++ [0].

End Entries.

(** ** Directories and the other files *)

Record Directory := mkDirectory { d_file : File; d_entries : list (list Entry); d_cache : bool }.
Record SymbolicLink := mkSymlink { s_file : File; s_pointed_file : list Z }.

(** [TypeWithFile]. *)
Inductive TypeWithFile :=
  | WRegular (f : File)
  | WDirectory (d : Directory)
  | WSymbolicLink (s : SymbolicLink)
  | WFifo (f : File)
  | WCharacterDevice (f : File)
  | WBlockDevice (f : File)
  | WSocket (f : File).

Definition is_directory (f : TypeWithFile) : bool := match f with WDirectory _ => true | _ => false end.

Definition type_of (f : TypeWithFile) : FileType :=
  match f with
  | WRegular _ => TRegular
  | WDirectory _ => TDirectory
  | WSymbolicLink _ => TSymbolicLink
  | WFifo _ => TFifo
  | WCharacterDevice _ => TCharacterDevice
  | WBlockDevice _ => TBlockDevice
  | WSocket _ => TSocket
  end.

(** [FsError], whose [Implementation] is in [FsErr]. *)
Inductive DirErr :=
  | Core (e : FsErr)
  | EntryAlreadyExist (name : list Z)
  | NameTooLongForPath (name : list Z)
  | NotFound (name : list Z)
  | RemoveRefused
  | WrongFileType (expected given : FileType).

Definition core {A S : Type} (m : out (result FsErr A * S)) : out (result DirErr A * S) :=
  '(r, s) ← m; Ret (match r with Ok a => Ok a | Err e => Err (Core e) end, s).

(** The bytes of a name as a string of an error. *)
Definition name_string (name : list Z) : string := foldr (λ b s, String (Ascii.ascii_of_N (Z.to_N b)) s) EmptyString name.

Definition PATH_MAX : Z := 4096.
Definition ROOT_DIRECTORY_INODE : Z := 2.
Definition CUR_DIR : list Z := [46].
Definition PARENT_DIR : list Z := [46; 46].

Definition set_d_file (d : Directory) (f : File) : Directory := mkDirectory f (d_entries d) (d_cache d).
Definition set_d_entries (d : Directory) (l : list (list Entry)) : Directory := mkDirectory (d_file d) l (d_cache d).

Section Dirs.
Context {P : Profile} {BF : Bitflags} {S : Type} {ST : Storage S}.
Implicit Types (fs : Ext2 S) (self : Directory).

(** The loop over a block. A turn that goes on moves by [rec_len], so that the size of the block is enough
    fuel unless an entry has the length 0; the code then reads it again and again. *)
Fixpoint parse_block (fuel : nat) fs (block bs accumulated_size : Z) : out (result FsErr (list Entry) * Ext2 S) :=
  if negb (accumulated_size <? bs) then Ret (Ok [], fs)
  else
    match fuel with
    | O => Panic
    | Datatypes.S fuel =>
        a ← mul_u 64 block bs;
        starting_addr ← add_u 64 a accumulated_size;
        let? (entry, fs) := Entry_parse fs starting_addr in
        accumulated_size ← add_u 64 accumulated_size (e_rec_len entry);
        let? (l, fs) := parse_block fuel fs block bs accumulated_size in
        Ret (Ok (entry :: l), fs)
    end.

Fixpoint parse_blocks fs (bs : Z) (blocks : list Z) : out (result FsErr (list (list Entry)) * Ext2 S) :=
  match blocks with
  | [] => Ret (Ok [], fs)
  | block :: blocks =>
      let? (entries_in_block, fs) := parse_block (Z.to_nat bs) fs block bs 0 in
      let? (l, fs) := parse_blocks fs bs blocks in
      Ret (Ok (entries_in_block :: l), fs)
  end.

Definition Directory_parse fs (file : File) : out (result FsErr (list (list Entry)) * Ext2 S) :=
  bs ← block_size (superblock fs);
  m ← sub_u 64 (data_size (f_inode file)) 1;
  q ← div_u m bs;
  data_blocks ← add_u 64 1 q;
  let? (blocks, fs) := indirected_blocks fs (f_inode file) in
  n ← unchecked_u 32 data_blocks;
  blocks ← truncate_back_data_blocks blocks n;
  blocks ← flatten_data_blocks blocks;
  parse_blocks fs bs blocks.

Definition Directory_new fs (inode_number : Z) : out (result FsErr Directory * Ext2 S) :=
  let? (file, fs) := File_new fs inode_number in
  let? (entries, fs) := Directory_parse fs file in
  Ret (Ok (mkDirectory file entries (cache fs)), fs).

Definition update_inner_entries fs self : out (result FsErr Directory * Ext2 S) :=
  let? (entries, fs) := Directory_parse fs (d_file self) in
  Ret (Ok (set_d_entries self entries), fs).

(** The bytes up to the first NUL. *)
Fixpoint until_nul (l : list Z) : list Z := match l with [] => [] | b :: l => if b =? 0 then [] else b :: until_nul l end.

(** The bytes of the block pointers of an inode, where short paths are stored. *)
Definition pointer_bytes (i : Inode) : list Z :=
  words_le (direct_block_pointers i ++ [singly_indirect_block_pointer i; doubly_indirect_block_pointer i; triply_indirect_block_pointer i]).

Definition SymbolicLink_new fs (inode_number : Z) : out (result FsErr SymbolicLink * Ext2 S) :=
  let? (file, fs) := File_new fs inode_number in
  let size := data_size (f_inode file) in
  let? (buffer, fs) :=
    (if size <? SYMBOLIC_LINK_INODE_STORE_LIMIT then Ret (Ok (take (Z.to_nat size) (pointer_bytes (f_inode file))), fs)
     else
       let? (r, fs) := read_data fs (f_inode file) (zeros (Z.to_nat size)) 0 in
       Ret (Ok r.2, fs)) in
  let pointed_file := until_nul buffer in
  match from_utf8 pointed_file with
  | None => Ret (Err (Fs BadString), fs)
  | Some _ => Ret (Ok (mkSymlink file pointed_file), fs)
  end.

Definition generic {A} (f : File → A) fs (inode_number : Z) : out (result FsErr A * Ext2 S) :=
  let? (file, fs) := File_new fs inode_number in
  Ret (Ok (f file), fs).

(** [Ext2Fs::file] *)
Definition file fs (inode_number : Z) : out (result FsErr TypeWithFile * Ext2 S) :=
  let? (inode, fs) := Inode_parse fs inode_number in
  match file_type inode with
  | Err e => Ret (Err (Fs e), fs)
  | Ok TRegular => generic WRegular fs inode_number
  | Ok TDirectory => let? (d, fs) := Directory_new fs inode_number in Ret (Ok (WDirectory d), fs)
  | Ok TSymbolicLink => let? (s, fs) := SymbolicLink_new fs inode_number in Ret (Ok (WSymbolicLink s), fs)
  | Ok TFifo => generic WFifo fs inode_number
  | Ok TCharacterDevice => generic WCharacterDevice fs inode_number
  | Ok TBlockDevice => generic WBlockDevice fs inode_number
  | Ok TSocket => generic WSocket fs inode_number
  end.

Definition root fs : out (result DirErr Directory * Ext2 S) :=
  let? (f, fs) := core (file fs ROOT_DIRECTORY_INODE) in
  match f with
  | WDirectory root_dir => Ret (Ok root_dir, fs)
  | f => Ret (Err (WrongFileType TDirectory (type_of f)), fs)
  end.

(** The name of an entry as a [UnixStr]: neither empty nor with a NUL, else a panic. *)
Definition filename (entry : Entry) : out (list Z) :=
  _ ← unwrap (from_utf8 (e_name entry));
  _ ← assert (negb (bool_decide (e_name entry = [])) && negb (existsb (λ b, b =? 0) (e_name entry)));
  Ret (e_name entry).

Fixpoint open_entries fs (entries : list Entry) : out (result FsErr (list (list Z * TypeWithFile)) * Ext2 S) :=
  match entries with
  | [] => Ret (Ok [], fs)
  | entry :: entries =>
      name ← filename entry;
      let? (f, fs) := file fs (e_inode entry) in
      let? (l, fs) := open_entries fs entries in
      Ret (Ok ((name, f) :: l), fs)
  end.

(** Every file of the directory is opened. *)
Definition Directory_entries fs self : out (result FsErr (list (list Z * TypeWithFile)) * (Ext2 S * Directory)) :=
  '(r, fs) ← (if d_cache self then update_inner_entries fs self else Ret (Ok self, fs));
  match r with
  | Err e => Ret (Err e, (fs, self))
  | Ok self => '(r, fs) ← open_entries fs (concat (d_entries self)); Ret (r, (fs, self))
  end.

(** [find] *)
Definition find_name (name : list Z) (l : list (list Z * TypeWithFile)) : option TypeWithFile :=
  snd <$> List.find (λ p, bool_decide (p.1 = name)) l.

Definition Directory_entry fs self (name : list Z) : out (result FsErr (option TypeWithFile) * (Ext2 S * Directory)) :=
  let? (children, st) := Directory_entries fs self in
  Ret (Ok (find_name name children), st).

Definition Directory_parent fs self : out (result FsErr Directory * (Ext2 S * Directory)) :=
  let? (e, st) := Directory_entry fs self PARENT_DIR in
  match e with Some (WDirectory d) => Ret (Ok d, st) | _ => Panic end.

(** ** Changing a directory *)

Definition on_d_file {A} self (m : out (result FsErr A * (Ext2 S * File))) : out (result FsErr A * (Ext2 S * Directory)) :=
  '(r, st) ← m; Ret (r, (st.1, set_d_file self st.2)).
Definition on_d_volume {A} self (m : out (result FsErr A * Ext2 S)) : out (result FsErr A * (Ext2 S * Directory)) :=
  '(r, fs) ← m; Ret (r, (fs, self)).

(** The entries of a block, each filled up to its length. *)
Fixpoint entries_bytes (l : list Entry) : out (list Z) :=
  match l with
  | [] => Ret []
  | entry :: l =>
      n ← free_space entry;
      rest ← entries_bytes l;
      Ret (Entry_as_bytes entry ++ zeros (Z.to_nat n) ++ rest)
  end.

Definition write_block_entry fs self (block_index : Z) : out (result FsErr unit * (Ext2 S * Directory)) :=
  bs ← block_size (superblock fs);
  o ← mul_u 64 block_index bs;
  let? (_, st) := on_d_file self (on_file fs (File_seek (d_file self) (SeekStart o))) in
  l ← unwrap (d_entries st.2 !! Z.to_nat block_index);
  buffer ← entries_bytes l;
  let? (_, st) := on_d_file st.2 (File_write st.1 (d_file st.2) buffer) in
  Ret (Ok tt, st).

Fixpoint write_block_entries fs self (indices : list Z) : out (result FsErr unit * (Ext2 S * Directory)) :=
  match indices with
  | [] => Ret (Ok tt, (fs, self))
  | block_index :: indices =>
      let? (_, st) := write_block_entry fs self block_index in
      write_block_entries st.1 st.2 indices
  end.

Definition write_all_entries fs self : out (result FsErr unit * (Ext2 S * Directory)) :=
  let? (_, st) := on_d_file self (truncate fs (d_file self) 0) in
  write_block_entries st.1 st.2 (range 0 (zlen (d_entries st.2))).

(** [if let Some(ent) = entries_in_block.last_mut()] *)
Definition set_last_rec_len (l : list Entry) (n : Z) : list Entry :=
  match last l with Some e => take (pred (length l)) l ++ [set_rec_len e n] | None => l end.

Fixpoint defragment_loop (bs : Z) (entries : list Entry) (new_entries : list (list Entry)) (entries_in_block : list Entry)
    (accumulated_size : Z) : out (list (list Entry)) :=
  match entries with
  | [] =>
      match entries_in_block with
      | [] => Ret new_entries
      | _ => n ← sub_u 16 bs accumulated_size; Ret (new_entries ++ [set_last_rec_len entries_in_block n])
      end
  | entry :: entries =>
      m ← minimal_size entry;
      total ← add_u 16 accumulated_size m;
      '(new_entries, entries_in_block, accumulated_size) ←
        (if bs <? total then
           l ← (match entries_in_block with
                | [] => Ret entries_in_block
                | _ => n ← sub_u 16 bs accumulated_size; Ret (set_last_rec_len entries_in_block n)
                end);
           Ret (new_entries ++ [l], [], 0)
         else Ret (new_entries, entries_in_block, accumulated_size));
      accumulated_size ← add_u 16 accumulated_size m;
      defragment_loop bs entries new_entries (entries_in_block ++ [set_rec_len entry m]) accumulated_size
  end.

Definition defragment fs self : out Directory :=
  bs ← block_size (superblock fs);
  bs ← unwrap (try_from_u 16 bs);
  l ← defragment_loop bs (concat (d_entries self)) [] [] 0;
  Ret (set_d_entries self l).

Fixpoint find_in_block (necessary_space : Z) (l : list Entry) (entry_index : Z) : out (option Z) :=
  match l with
  | [] => Ret None
  | entry :: l =>
      n ← free_space entry;
      if necessary_space <=? n then Ret (Some entry_index) else find_in_block necessary_space l (entry_index + 1)
  end.

Fixpoint find_in_blocks (necessary_space : Z) (ll : list (list Entry)) (block_index : Z) : out (option (Z * Z)) :=
  match ll with
  | [] => Ret None
  | l :: ll =>
      r ← find_in_block necessary_space l 0;
      match r with Some i => Ret (Some (block_index, i)) | None => find_in_blocks necessary_space ll (block_index + 1) end
  end.

Definition find_space self (necessary_space : Z) : out (option (Z * Z)) := find_in_blocks necessary_space (d_entries self) 0.

(** The default method [write_all] on a file. *)
Fixpoint File_write_all_loop (fuel : nat) fs (f : File) (buf : list Z) : out (result FsErr unit * (Ext2 S * File)) :=
  match buf, fuel with
  | [], _ => Ret (Ok tt, (fs, f))
  | _, O => Panic
  | _, Datatypes.S fuel =>
      let? (n, st) := File_write fs f buf in
      if n =? 0 then Ret (Err (Device (DevStorage WriteZero)), st)
      else
        rest ← slice buf n (zlen buf);
        File_write_all_loop fuel st.1 st.2 rest
  end.
Definition File_write_all fs (f : File) (buf : list Z) := File_write_all_loop (length buf) fs f buf.

(** The entries [.] and [..] of a new directory. *)
Definition self_and_parent (inode_number parent bs : Z) (file_type_feature : bool) : out (list Z) :=
  rest ← sub_u 32 bs 9;
  rest ← unwrap (try_from_u 16 rest);
  let t := if file_type_feature then EntryType_value Dir else 0 in
  Ret (Entry_as_bytes (mkEntry inode_number 9 1 t CUR_DIR) ++ Entry_as_bytes (mkEntry parent rest 2 t PARENT_DIR)).

Definition init_directory fs self (inode_number bs : Z) (file_type_feature : bool) : out (result FsErr unit * Ext2 S) :=
  let? (dir, fs) := File_new fs inode_number in
  bytes ← self_and_parent inode_number (f_inode_number (d_file self)) bs file_type_feature;
  '(r, dir) ← File_seek dir (SeekStart 0);
  match r with
  | Err e => Ret (Err e, fs)
  | Ok _ => '(r, st) ← File_write_all fs dir bytes; Ret (r, st.1)
  end.

(** An entry put behind the one with the space, in memory. *)
Definition insert_entry self (block_index entry_index : Z) (new_entry : Entry) : out Directory :=
  entries_in_block ← unwrap (d_entries self !! Z.to_nat block_index);
  previous_entry ← unwrap (entries_in_block !! Z.to_nat entry_index);
  m ← minimal_size previous_entry;
  n ← sub_u 16 (e_rec_len previous_entry) m;
  let entries_in_block := <[Z.to_nat entry_index := set_rec_len previous_entry m]> entries_in_block in
  let k := Z.to_nat (entry_index + 1) in
  Ret (set_d_entries self (<[Z.to_nat block_index := take k entries_in_block ++ set_rec_len new_entry n :: drop k entries_in_block]> (d_entries self))).

Definition store_entry fs self (new_entry : Entry) : out (result FsErr unit * (Ext2 S * Directory)) :=
  m ← minimal_size new_entry;
  space ← find_space self m;
  match space with
  | Some (block_index, entry_index) =>
      self ← insert_entry self block_index entry_index (set_rec_len new_entry m);
      write_block_entry fs self block_index
  | None =>
      self ← defragment fs (set_d_entries self (d_entries self ++ [[set_rec_len new_entry m]]));
      write_all_entries fs self
  end.

(** An entry of that name is looked for first; an error of the search is ignored. The arguments of
    [allocate_inode] are computed before the call. *)
Definition add_entry fs self (name : list Z) (t : FileType) (permissions user_id group_id : Z) :
    out (result DirErr TypeWithFile * (Ext2 S * Directory)) :=
  '(r, st) ← Directory_entry fs self name;
  match r with
  | Ok (Some _) => Ret (Err (EntryAlreadyExist name), st)
  | _ =>
      let '(fs, self) := st in
      bs ← block_size (superblock fs);
      let? (inode_number, st) := core (on_d_volume self (free_inode fs)) in
      let mode := fl_union (fl_truncate TypePermissions_all permissions) (type_flag t) in
      match try_from_u 16 user_id, try_from_u 16 group_id with
      | None, _ => Ret (Err (Core (Fs (UidTooLarge user_id))), st)
      | _, None => Ret (Err (Core (Fs (GidTooLarge group_id))), st)
      | Some uid, Some gid =>
          let? (_, st) := core (on_d_volume st.2 (allocate_inode st.1 inode_number mode uid gid 0 0 (zeros 12))) in
          let file_type_feature := opt_file_type st.1 in
          let? (_, st) := core (on_d_volume st.2
            (match t with TDirectory => init_directory st.1 st.2 inode_number bs file_type_feature | _ => Ret (Ok tt, st.1) end)) in
          match try_from_u 8 (zlen name) with
          | None => Ret (Err (Core (Fs (NameTooLong (name_string name)))), st)
          | Some name_len =>
              let? (_, st) := core (store_entry st.1 st.2 (mkEntry inode_number 0 name_len (EntryType_value (EntryType_from t)) name)) in
              core (on_d_volume st.2 (file st.1 inode_number))
          end
      end
  end.

(** *** Removing an entry *)

(** The first entry of that name: its block, its place and itself. *)
Fixpoint find_in_list (name : list Z) (l : list Entry) (index : Z) : option (Z * Entry) :=
  match l with
  | [] => None
  | e :: l => if bool_decide (e_name e = name) then Some (index, e) else find_in_list name l (index + 1)
  end.
Fixpoint find_entry (name : list Z) (ll : list (list Entry)) (block_index : Z) : option (Z * Z * Entry) :=
  match ll with
  | [] => None
  | l :: ll =>
      match find_in_list name l 0 with
      | Some (i, e) => Some (block_index, i, e)
      | None => find_entry name ll (block_index + 1)
      end
  end.

(** The block without the entry, whose length its neighbour takes. The only entry of a block cannot be
    removed: the code takes the lock of the entries while it holds it and never returns, which is a panic
    here. *)
Definition remove_from_block (l : list Entry) (index : Z) (entry : Entry) : out (list Entry) :=
  let l := delete (Z.to_nat index) l in
  let grow_at i e := n ← add_u 16 (e_rec_len e) (e_rec_len entry); Ret (<[i := set_rec_len e n]> l) in
  let previous := if 0 <? index then l !! Z.to_nat (index - 1) else None in
  match previous with
  | Some e => grow_at (Z.to_nat (index - 1)) e
  | None => match l !! Z.to_nat index with Some e => grow_at (Z.to_nat index) e | None => Panic end
  end.

(** Removing what is in a directory, with [remove] for its entries; the links of the parent are those of
    [self], whose inode is written back after each directory. *)
Fixpoint remove_children (remove : Ext2 S → Directory → list Z → out (result DirErr unit * (Ext2 S * Directory))) fs self
    (dir : Directory) (new_inode : Inode) (file_type_feature : bool) (sub_entries : list Entry) : out (result DirErr unit * (Ext2 S * Directory)) :=
  match sub_entries with
  | [] => Ret (Ok tt, (fs, self))
  | sub_entry :: sub_entries =>
      sub_entry_name ← filename sub_entry;
      if bool_decide (sub_entry_name = CUR_DIR) || bool_decide (sub_entry_name = PARENT_DIR) then
        remove_children remove fs self dir new_inode file_type_feature sub_entries
      else
        '(r, st) ← remove fs dir sub_entry_name;
        let '(fs, dir) := st in
        match r with
        | Err e => Ret (Err e, (fs, self))
        | Ok _ =>
            let? (is_dir, st) := core (on_d_volume self
              (if file_type_feature then Ret (Ok (bool_decide (EntryType_from_u8 (e_file_type sub_entry) = Dir)), fs)
               else
                 let? (i, fs) := Inode_parse fs (e_inode sub_entry) in
                 match file_type i with
                 | Err e => Ret (Err (Fs e), fs)
                 | Ok t => Ret (Ok (bool_decide (t = TDirectory)), fs)
                 end)) in
            links ← (if is_dir : bool then sub_u 16 (links_count new_inode) 1 else Ret (links_count new_inode));
            let new_inode := set_links new_inode links in
            let? (_, st) := core (if negb (links_count (f_inode (d_file self)) =? links) then on_d_file st.2 (set_inode st.1 (d_file st.2) new_inode)
                                  else Ret (Ok tt, st)) in
            remove_children remove st.1 st.2 dir new_inode file_type_feature sub_entries
        end
  end.

(** [depth] bounds the nesting of directories, which the code recurses into. *)
Fixpoint remove_entry (depth : nat) fs self (entry_name : list Z) : out (result DirErr unit * (Ext2 S * Directory)) :=
  match depth with
  | O => Panic
  | Datatypes.S depth =>
      if bool_decide (entry_name = CUR_DIR) || bool_decide (entry_name = PARENT_DIR) then Ret (Err RemoveRefused, (fs, self))
      else
        match find_entry entry_name (d_entries self) 0 with
        | None => Ret (Err (NotFound entry_name), (fs, self))
        | Some (block_index, index, entry) =>
            block ← unwrap (d_entries self !! Z.to_nat block_index);
            block ← remove_from_block block index entry;
            let self := set_d_entries self (<[Z.to_nat block_index := block]> (d_entries self)) in
            let? (_, st) := core (write_block_entry fs self block_index) in
            let file_type_feature := opt_file_type st.1 in
            let? (f, st) := core (on_d_volume st.2 (file st.1 (e_inode entry))) in
            let? (_, st) := (match f with
              | WDirectory dir =>
                  remove_children (remove_entry depth) st.1 st.2 dir (f_inode (d_file st.2)) file_type_feature (concat (d_entries dir))
              | _ => Ret (Ok tt, st)
              end) in
            core (on_d_volume st.2 (deallocate_inode st.1 (e_inode entry)))
        end
  end.

(** ** Symbolic links *)

(** [direct_block_pointers] as the bytes [l]: 12 pointers, then the three others. *)
Definition set_pointer_bytes (i : Inode) (size : Z) (l : list Z) : Inode :=
  let w := (rd_words 15 l).1 in
  mkInode (i_mode i) (i_uid i) size (i_atime i) (i_ctime i) (i_mtime i) (i_dtime i) (i_gid i) (links_count i) (i_blocks i) (i_flags i) (osd1 i)
    (take 12 w) (nth 12 w 0) (nth 13 w 0) (nth 14 w 0) (generation i) (file_acl i) (dir_acl i) (faddr i) (osd2 i).

Definition on_s_file {A} (self : SymbolicLink) (m : out (result FsErr A * (Ext2 S * File))) : out (result FsErr A * (Ext2 S * SymbolicLink)) :=
  '(r, st) ← m; Ret (r, (st.1, mkSymlink st.2 (s_pointed_file self))).

Definition set_pointed_file fs (self : SymbolicLink) (pointed_file : list Z) : out (result DirErr unit * (Ext2 S * SymbolicLink)) :=
  let i := f_inode (s_file self) in
  if PATH_MAX <? zlen pointed_file then Ret (Err (NameTooLongForPath pointed_file), (fs, self))
  else
    let? (_, st) := core (
      if SYMBOLIC_LINK_INODE_STORE_LIMIT <? zlen pointed_file then
        let? (_, st) := (if zlen (s_pointed_file self) <=? SYMBOLIC_LINK_INODE_STORE_LIMIT
                         then on_s_file self (set_inode fs (s_file self) (set_pointer_bytes i (i_size i) (zeros 60)))
                         else Ret (Ok tt, (fs, self))) in
        let? (_, st) := on_s_file st.2 (on_file st.1 (File_seek (s_file st.2) (SeekStart 0))) in
        let? (_, st) := on_s_file st.2 (File_write st.1 (s_file st.2) pointed_file) in
        on_s_file st.2 (truncate st.1 (s_file st.2) (zlen pointed_file))
      else on_s_file self (set_inode fs (s_file self) (set_pointer_bytes i (zlen pointed_file) (splice (pointer_bytes i) 0 pointed_file)))) in
    Ret (Ok tt, (st.1, mkSymlink (s_file st.2) pointed_file)).

End Dirs.

(** ** The kernel's inodes

    [Ext2Volume] and [Ext2Dir] of [kernel/src/fs/ext2.rs]. Their place in the kernel's graph of inodes is the path and
    the virtual inodes: the names [.] and [..] and what is mounted, found before the names on the disk. [R] are
    references to the inodes of the graph, [Itself] the one to the inode that has the map. *)

Inductive Child (R : Type) := Itself | Ref (r : R).
Arguments Itself {R}.
Arguments Ref {R} r.

Record Place (R : Type) := mkPlace { virtual_inodes : gmap (list Z) (Child R); place_path : list Z }.
Arguments mkPlace {R} virtual_inodes place_path.
Arguments virtual_inodes {R} p.
Arguments place_path {R} p.

(** What [open] gives: a virtual inode, or a new inode of a directory or of a file. *)
Inductive Opened (R : Type) := OpenedVirtual (inode : Child R) | OpenedDir (place : Place R) (dir : Directory) | OpenedFile (path : list Z) (f : File).
Arguments OpenedVirtual {R} inode.
Arguments OpenedDir {R} place dir.
Arguments OpenedFile {R} path f.

Section Inodes.
Context {P : Profile} {BF : Bitflags} {S : Type} {ST : Storage S} {R : Type}.
Implicit Types (fs : Ext2 S) (self : Directory) (place : Place R).

Definition Place_new : Place R := mkPlace {[ CUR_DIR := Itself ]} [].

Definition place_mounted place (path : list Z) (father : option R) : Place R :=
  mkPlace (match father with Some f => <[PARENT_DIR := Ref f]> (virtual_inodes place) | None => virtual_inodes place end) path.

Definition place_mount place (node : R) (name : list Z) : Place R := mkPlace (<[name := Ref node]> (virtual_inodes place)) (place_path place).

(** A name is a string here, so [UnixStr::new] fails on an empty one and on one with a NUL. *)
Definition UnixStr_new (name : list Z) : option (list Z) :=
  if negb (bool_decide (name = [])) && negb (existsb (λ b, b =? 0) name) then Some name else None.

(** A directory or a regular file; anything else is not opened. *)
Definition opened (self_inode : option R) (path : list Z) (entry : TypeWithFile) : option (Opened R) :=
  match entry with
  | WDirectory d => Some (OpenedDir (place_mounted Place_new path self_inode) d)
  | WRegular f => Some (OpenedFile path f)
  | _ => None
  end.

(** The path of a child: [get_path() + name + "/"]. *)
Definition child_path place (name : list Z) : list Z := place_path place ++ name ++ [47].

(** [self_inode] is what [kernel_open] finds under the inode's own path ([Vfs.node_open] is [open] with that call), and
    [fs] the volume behind that call. *)
Definition dir_open fs self place (self_inode : option R) (name : list Z) : out (option (Opened R) * (Ext2 S * Directory)) :=
  match virtual_inodes place !! name with
  | Some inode => Ret (Some (OpenedVirtual inode), (fs, self))
  | None =>
      name ← unwrap (UnixStr_new name);
      '(r, st) ← Directory_entry fs self name;
      Ret (match r with Ok (Some entry) => opened self_inode (child_path place name) entry | _ => None end, st)
  end.

Definition volume_open fs place (self_inode : option R) (name : list Z) : out (option (Opened R) * Ext2 S) :=
  match virtual_inodes place !! name with
  | Some inode => Ret (Some (OpenedVirtual inode), fs)
  | None =>
      '(r, fs) ← root fs;
      match r with
      | Err _ => Ret (None, fs)
      | Ok dir =>
          name ← unwrap (UnixStr_new name);
          '(r, st) ← Directory_entry fs dir name;
          Ret (match r with Ok (Some entry) => opened self_inode (child_path place name) entry | _ => None end, st.1)
      end
  end.

Definition dir_create fs self place (self_inode : option R) (name : list Z) (is_dir : bool) : out (option (Opened R) * (Ext2 S * Directory)) :=
  name ← unwrap (UnixStr_new name);
  '(r, st) ← add_entry fs self name (if is_dir then TDirectory else TRegular) 0 0 0;
  match r with Ok _ => dir_open st.1 st.2 place self_inode name | Err _ => Ret (None, st) end.

Definition volume_create fs place (self_inode : option R) (name : list Z) (is_dir : bool) : out (option (Opened R) * Ext2 S) :=
  '(r, fs) ← root fs;
  match r with
  | Err _ => Ret (None, fs)
  | Ok dir =>
      name ← unwrap (UnixStr_new name);
      '(r, st) ← add_entry fs dir name (if is_dir then TDirectory else TRegular) 0 0 0;
      match r with Ok _ => volume_open st.1 place self_inode name | Err _ => Ret (None, st.1) end
  end.

(** The virtual inodes in the order of their names, with whether they are directories; [is_dir] is [inode_type] of
    the other inodes of the graph. *)
Definition name_before (p q : list Z * Child R) : Prop := Vfs.str_leb p.1 q.1 = true.
#[export] Instance name_before_dec p q : Decision (name_before p q).
Proof. unfold name_before. apply _. Defined.

Definition virtual_infos (is_dir : R → bool) place : list (list Z * bool) :=
  (λ p, (p.1, match p.2 with Itself => true | Ref r => is_dir r end)) <$> merge_sort name_before (map_to_list (virtual_inodes place)).

(** The entries other than [.] and [..], with whether they are directories. *)
Definition dir_infos (l : list (list Z * TypeWithFile)) : list (list Z * bool) :=
  (λ p, (p.1, is_directory p.2)) <$> filter (λ p, p.1 ≠ CUR_DIR ∧ p.1 ≠ PARENT_DIR) l.

Definition dir_list (is_dir : R → bool) fs self place : out (list (list Z * bool) * (Ext2 S * Directory)) :=
  '(r, st) ← Directory_entries fs self;
  match r with Ok l => Ret (virtual_infos is_dir place ++ dir_infos l, st) | Err _ => Panic end.

Definition volume_list (is_dir : R → bool) fs place : out (list (list Z * bool) * Ext2 S) :=
  '(r, fs) ← root fs;
  match r with
  | Err _ => Panic
  | Ok dir => '(l, st) ← dir_list is_dir fs dir place; Ret (l, st.1)
  end.

End Inodes.

(** ** Entries in a block *)

Definition header (e : Entry) : list Z := to_le 4 (e_inode e) ++ to_le 2 (e_rec_len e) ++ to_le 1 (e_name_len e) ++ to_le 1 (e_file_type e).

Definition name_ok (name : list Z) : Prop := Forall (λ b, 0 < b < 256) name ∧ is_Some (from_utf8 name) ∧ name ≠ [] ∧ zlen name < 256.

(** An entry that can be read. *)
Record EntryOk (e : Entry) : Prop := {
  eo_inode : in_range 32 (e_inode e) = true;
  eo_rec_len : HEADER_SIZE + zlen (e_name e) ≤ e_rec_len e < 2 ^ 16;
  eo_name_len : e_name_len e = zlen (e_name e);
  eo_type : in_range 8 (e_file_type e) = true;
  eo_name : name_ok (e_name e);
}.

(** The bytes of a block are those entries, one behind the other. *)
Inductive BlockEntries : list Z → list Entry → Prop :=
  | BlockEntries_nil : BlockEntries [] []
  | BlockEntries_cons e l es : EntryOk e → e_rec_len e ≤ zlen l → header e ++ e_name e `prefix_of` l →
      BlockEntries (drop (Z.to_nat (e_rec_len e)) l) es → BlockEntries l (e :: es).

Lemma name_no_nul name : name_ok name → existsb (λ b, b =? 0) name = false.
Proof.
  intros [H _]. induction H as [|b l Hb _ IH]; [done|]. cbn [existsb]. rewrite IH, orb_false_r. apply Z.eqb_neq. lia.
Qed.

Lemma take_range a b k : 0 ≤ k → a + k ≤ b → take (Z.to_nat k) (range a b) = range a (a + k).
Proof.
  intros Hk Hb. unfold range. replace (b - a) with (k + (b - a - k)) by lia. rewrite seqZ_app by lia. rewrite take_app_length' by (rewrite length_seqZ; lia).
  f_equal. lia.
Qed.

Lemma zlen_header e : zlen (header e) = 8.
Proof. unfold header. by rewrite !zlen_app, !zlen_to_le. Qed.

Section EntryProofs.
Context {P : Profile} {BF : Bitflags} {S : Type} {ST : Storage S} {V : View S} {FS : FlatStorage S} {ES : EndSeek S}.
Implicit Types (fs : Ext2 S) (X : Vol).

(** The bytes of a part of a block of data, as the disk has them. *)
Lemma disk_block fs X b p k : Shows fs X → DataBlock (v_size (device fs)) X b → 0 ≤ p → 0 ≤ k → p + k ≤ block_bytes (vol_sb X) →
  v_byte (device fs) <$> range (b * block_bytes (vol_sb X) + p) (b * block_bytes (vol_sb X) + p + k) = take (Z.to_nat k) (drop (Z.to_nat p) (block_data X b)).
Proof.
  intros H HD Hp Hk He. pose proof (db_number _ _ _ HD) as Hb. pose proof (db_end _ _ _ HD) as Hend. destruct (block_size_ok _ (ds_wf _ _ (sh_dev _ _ H))) as [_ Hbs].
  set (bs := block_bytes (vol_sb X)) in *. assert (0 ≤ b * bs) as Hbb by nia. apply list_eq. intros i. unfold block_data. fold bs. destruct (decide (Z.of_nat i < k)) as [Hi|Hi].
  - rewrite lookup_take_lt, lookup_drop, !list_lookup_fmap by lia. unfold range. rewrite !lookup_seqZ_lt by lia. cbn. f_equal.
    rewrite (ds_data _ _ (sh_dev _ _ H)); [f_equal; lia|lia|apply (db_data _ _ _ HD); fold bs; lia].
  - rewrite lookup_take_ge by lia. rewrite list_lookup_fmap. unfold range. by rewrite lookup_seqZ_ge by lia.
Qed.

Lemma Entry_parse_ok fs X b p e : Shows fs X → DataBlock (v_size (device fs)) X b → b * block_bytes (vol_sb X) + block_bytes (vol_sb X) + 256 ≤ v_size (device fs) →
  EntryOk e → 0 ≤ p → p + e_rec_len e ≤ block_bytes (vol_sb X) → header e ++ e_name e `prefix_of` drop (Z.to_nat p) (block_data X b) →
  ∃ fs', Entry_parse fs (b * block_bytes (vol_sb X) + p) = Ret (Ok e, fs') ∧ Shows fs' X ∧ Mounted fs fs'.
Proof.
  intros H HD Hend He Hp Hfit [rest Hpre]. pose proof (db_number _ _ _ HD) as Hb. destruct (block_size_ok _ (ds_wf _ _ (sh_dev _ _ H))) as [_ Hbs].
  set (bs := block_bytes (vol_sb X)) in *. assert (0 ≤ b * bs) as Hbb by nia. destruct (eo_rec_len _ He) as [Hr1 Hr2]. change HEADER_SIZE with 8 in Hr1.
  pose proof (zlen_nonneg (e_name e)) as Hn0. destruct (eo_name _ He) as (Hbytes & Hutf & Hne & Hsh).
  destruct (v_small (device fs)) as [_ Hsz]; [apply H|].
  assert (header e = take 8 (drop (Z.to_nat p) (block_data X b)) ∧ e_name e = take (Z.to_nat (zlen (e_name e))) (drop (Z.to_nat (p + 8)) (block_data X b))) as [E1 E2].
  { replace (Z.to_nat (p + 8)) with (Z.to_nat p + 8)%nat by lia. rewrite <- drop_drop, Hpre, <- app_assoc. pose proof (zlen_header e) as Hz. split.
    - by rewrite take_app_length' by (unfold zlen in Hz; lia).
    - rewrite (drop_app_length' (header e)) by (unfold zlen in Hz; lia). by rewrite take_app_length' by (unfold zlen; lia). }
  unfold Entry_parse. change HEADER_SIZE with 8. destruct (on_device_read fs X (b * bs + p) 8) as (fs1 & -> & H1 & M1); [done|lia|lia|lia|]. run.
  rewrite add_u_ok by lia. run. destruct (on_device_read fs1 X (b * bs + p + 8) 256) as (fs2 & -> & H2 & M2); [done|lia|lia|rewrite (mo_size _ _ M1); lia|]. run.
  unfold bs. rewrite (disk_block fs X b p 8) by (done || fold bs; lia). change (Z.to_nat 8) with 8%nat. rewrite <- E1. unfold header.
  assert (in_range 16 (e_rec_len e) = true ∧ in_range 8 (e_name_len e) = true) as [R1 R2].
  { rewrite (eo_name_len _ He). split; apply in_range_true; cbn; lia. }
  rewrite (rd_le 4), (rd_le 2), (rd_le 1), <- (app_nil_r (to_le 1 (e_file_type e))), (rd_le 1) by (done || apply He).
  assert (take (Z.to_nat (e_name_len e)) (v_byte (device fs1) <$> range (b * block_bytes (vol_sb X) + p + 8) (b * block_bytes (vol_sb X) + p + 8 + 256)) = e_name e) as ->.
  { rewrite (eo_name_len _ He), <- fmap_take, take_range by lia.
    rewrite E2 at 2. rewrite <- (disk_block fs1 X b (p + 8) (zlen (e_name e))); [|done|by rewrite (mo_size _ _ M1)|lia|lia|fold bs; lia].
    by rewrite !Z.add_assoc. }
  destruct Hutf as [u ->]. rewrite name_no_nul by apply He. exists fs2. split_and!; [by destruct e|done|by etrans].
Qed.

Lemma parse_block_ok fs X b es : ∀ p fuel, Shows fs X → DataBlock (v_size (device fs)) X b →
  b * block_bytes (vol_sb X) + block_bytes (vol_sb X) + 256 ≤ v_size (device fs) → 0 ≤ p ≤ block_bytes (vol_sb X) → block_bytes (vol_sb X) - p ≤ Z.of_nat fuel →
  BlockEntries (drop (Z.to_nat p) (block_data X b)) es →
  ∃ fs', parse_block fuel fs b (block_bytes (vol_sb X)) p = Ret (Ok es, fs') ∧ Shows fs' X ∧ Mounted fs fs'.
Proof.
  revert fs. induction es as [|e es IH]; intros fs p fuel H HD Hend Hp Hf HB; pose proof (block_size_ok _ (ds_wf _ _ (sh_dev _ _ H))) as [_ Hbs];
    pose proof (zlen_block_data X b ltac:(lia)) as Hz; pose proof (zlen_drop (block_data X b) p ltac:(lia)) as Hzd.
  - inversion HB as [E|]. rewrite <- E in Hzd. change (zlen []) with 0 in Hzd. exists fs. split; [|done]. destruct fuel; cbn [parse_block]; by rewrite (proj2 (Z.ltb_ge p _)) by lia.
  - inversion HB as [|e0 l es0 He Hlen Hpre Hrest]; subst. destruct (eo_rec_len _ He) as [Hr1 Hr2]. change HEADER_SIZE with 8 in Hr1. pose proof (zlen_nonneg (e_name e)) as Hn0.
    destruct fuel as [|fuel]; [lia|]. cbn [parse_block]. rewrite (proj2 (Z.ltb_lt p _)) by lia. cbn [negb].
    destruct (v_small (device fs)) as [_ Hsz]; [apply H|]. pose proof (db_number _ _ _ HD) as Hb. pose proof (db_end _ _ _ HD) as He2. set (bs := block_bytes (vol_sb X)) in *. assert (0 ≤ b * bs) by nia.
    rewrite mul_u_ok by lia. run. rewrite add_u_ok by lia. run. destruct (Entry_parse_ok fs X b p e) as (fs1 & E1 & H1 & M1); [done|done|done|done|lia|fold bs; lia|done|].
    fold bs in E1. rewrite E1. run. rewrite add_u_ok by lia. run. pose proof (mo_size _ _ M1) as Hs1.
    destruct (IH fs1 (p + e_rec_len e) fuel) as (fs2 & E2 & H2 & M2); [done|by rewrite Hs1|by rewrite Hs1|lia|lia| |].
    { rewrite drop_drop in Hrest. replace (Z.to_nat (p + e_rec_len e)) with (Z.to_nat p + Z.to_nat (e_rec_len e))%nat by lia. done. }
    rewrite E2. run. exists fs2. split_and!; [done|done|by etrans].
Qed.

Lemma parse_blocks_ok X bl : ∀ fs ess, Shows fs X → Forall (DataBlock (v_size (device fs)) X) bl →
  Forall (λ b, b * block_bytes (vol_sb X) + block_bytes (vol_sb X) + 256 ≤ v_size (device fs)) bl → Forall2 (λ b es, BlockEntries (block_data X b) es) bl ess →
  ∃ fs', parse_blocks fs (block_bytes (vol_sb X)) bl = Ret (Ok ess, fs') ∧ Shows fs' X ∧ Mounted fs fs'.
Proof.
  induction bl as [|b bl IH]; intros fs ess H HD Hend HB; inversion HB as [|b0 es bl0 ess0 H1 H2]; subst; [by exists fs|].
  apply Forall_cons in HD as [HD1 HD2]. apply Forall_cons in Hend as [He1 He2]. destruct (block_size_ok _ (ds_wf _ _ (sh_dev _ _ H))) as [_ Hbs]. cbn [parse_blocks].
  destruct (parse_block_ok fs X b es 0 (Z.to_nat (block_bytes (vol_sb X)))) as (fs1 & -> & Hs1 & M1); [done|done|done|lia|lia|done|]. run. pose proof (mo_size _ _ M1) as Hz.
  destruct (IH fs1 ess0) as (fs2 & -> & Hs2 & M2); [done|by rewrite Hz|by rewrite Hz|done|]. run. exists fs2. split_and!; [done|done|by etrans].
Qed.

(** ** Directories of a volume *)

Definition dir_blocks (X : Vol) (i : Inode) (full : IndirectedBlocks) : list Z := take (Z.to_nat (size_blocks (vol_sb X) (data_size i))) (blocks_of full).

(** The volume keeps in the blocks [full] of the inode the entries [ess]. A name is read with what is
    behind it, so that a directory ends 256 bytes before the disk does. *)
Record HasDir (size : Z) (X : Vol) (i : Inode) (full : IndirectedBlocks) (ess : list (list Entry)) : Prop := {
  hd_file : HasFile size X i full;
  hd_pos : 0 < data_size i;
  hd_entries : Forall2 (λ b es, BlockEntries (block_data X b) es) (dir_blocks X i full) ess;
  hd_end : Forall (λ b, b * block_bytes (vol_sb X) + block_bytes (vol_sb X) + 256 ≤ size) (dir_blocks X i full);
}.

Lemma Directory_parse_ok fs X f full ess : Shows fs X → HasDir (v_size (device fs)) X (f_inode f) full ess →
  ∃ fs', Directory_parse fs f = Ret (Ok ess, fs') ∧ Shows fs' X ∧ Mounted fs fs'.
Proof.
  intros H HD. pose proof (hd_file _ _ _ _ _ HD) as HF. pose proof (hd_pos _ _ _ _ _ HD) as Hpos. pose proof (hf_blocks _ _ _ _ HF) as HBl. pose proof (hf_size _ _ _ _ HF) as Hsz.
  pose proof (hf_enough _ _ _ _ HF Hpos) as Hen. pose proof (ds_wf _ _ (sh_dev _ _ H)) as Hw. destruct (block_size_ok _ Hw) as [Ebs Hbs].
  pose proof (blocks_of_length _ (sm_tight _ (hb_small _ _ _ _ HBl))) as Hlen. destruct (size_blocks_range (vol_sb X) (data_size (f_inode f)) Hw Hpos) as (N1 & N2 & N3).
  assert (size_blocks (vol_sb X) (data_size (f_inode f)) = 1 + (data_size (f_inode f) - 1) / block_bytes (vol_sb X)) as En by (unfold size_blocks; by rewrite Z.max_l by lia).
  unfold Directory_parse. rewrite (sh_super _ _ H), Ebs. run. rewrite sub_u_ok by lia. run. unfold div_u. rewrite (proj2 (Z.eqb_neq _ 0)) by lia. run.
  assert (0 ≤ (data_size (f_inode f) - 1) / block_bytes (vol_sb X)) by (apply Z.div_pos; lia). rewrite add_u_ok by lia. run. rewrite <- En.
  destruct (indirected_blocks_ok fs X (f_inode f) full) as (fs1 & ib & -> & (S1 & Eb & Ebo & Tp) & H1 & M1); [done|done|lia|lia|]. run.
  set (n := size_blocks _ _) in *. unfold unchecked_u, try_from_u. rewrite (proj2 (Z.leb_le 0 n)), (proj2 (Z.ltb_lt n (2 ^ 32))) by lia. cbn [andb unwrap]. run.
  destruct (truncate_back_any ib n S1 ltac:(lia)) as (ib2 & -> & S2 & Eb2 & Ebo2 & Tp2). run. rewrite flatten_data_blocks_ok by apply S2. run.
  rewrite Ebo2, Ebo, take_take, Nat.min_id. change (take (Z.to_nat n) (blocks_of full)) with (dir_blocks X (f_inode f) full).
  destruct (parse_blocks_ok X (dir_blocks X (f_inode f) full) fs1 ess) as (fs2 & -> & H2 & M2); [done| |rewrite (mo_size _ _ M1); apply HD|apply HD|].
  { rewrite (mo_size _ _ M1). apply Forall_forall. intros b Hb. pose proof (hb_on_disk _ _ _ _ HBl) as Hd. rewrite Forall_forall in Hd. apply Hd.
    apply blocks_in_traverse; [apply HBl|]. unfold dir_blocks in Hb. apply elem_of_take in Hb as (j & Hj & _). by apply list_elem_of_lookup_2 in Hj. }
  exists fs2. split_and!; [done|done|by etrans].
Qed.
End EntryProofs.

(** What the inode [n] of a volume is opened as, and the blocks that are read for it. *)
Inductive FileAt {BF : Bitflags} (size : Z) (X : Vol) (cache : bool) (n : Z) : TypeWithFile → list Z → Prop :=
  | at_regular : 1 ≤ n ≤ inodes_count (base (vol_sb X)) → file_type (inode_at X n) = Ok TRegular →
      FileAt size X cache n (WRegular (mkFile n (inode_at X n) 0)) []
  | at_directory full ess : 1 ≤ n ≤ inodes_count (base (vol_sb X)) → file_type (inode_at X n) = Ok TDirectory → HasDir size X (inode_at X n) full ess →
      FileAt size X cache n (WDirectory (mkDirectory (mkFile n (inode_at X n) 0) ess cache)) (traverse full)
  | at_short_link : 1 ≤ n ≤ inodes_count (base (vol_sb X)) → file_type (inode_at X n) = Ok TSymbolicLink → data_size (inode_at X n) < SYMBOLIC_LINK_INODE_STORE_LIMIT →
      let p := until_nul (take (Z.to_nat (data_size (inode_at X n))) (pointer_bytes (inode_at X n))) in is_Some (from_utf8 p) →
      FileAt size X cache n (WSymbolicLink (mkSymlink (mkFile n (inode_at X n) 0) p)) []
  | at_fifo : 1 ≤ n ≤ inodes_count (base (vol_sb X)) → file_type (inode_at X n) = Ok TFifo → FileAt size X cache n (WFifo (mkFile n (inode_at X n) 0)) []
  | at_character_device : 1 ≤ n ≤ inodes_count (base (vol_sb X)) → file_type (inode_at X n) = Ok TCharacterDevice →
      FileAt size X cache n (WCharacterDevice (mkFile n (inode_at X n) 0)) [].

Section Opening.
Context {P : Profile} {BF : Bitflags} {S : Type} {ST : Storage S} {V : View S} {FS : FlatStorage S} {ES : EndSeek S}.
Implicit Types (fs : Ext2 S) (X : Vol).

Lemma File_new_ok fs X n t : Shows fs X → 1 ≤ n ≤ inodes_count (base (vol_sb X)) → file_type (inode_at X n) = Ok t →
  ∃ fs', File_new fs n = Ret (Ok (mkFile n (inode_at X n) 0), fs') ∧ Shows fs' X ∧ Mounted fs fs'.
Proof.
  intros H Hn Ht. destruct (Inode_parse_ok fs X n t H Hn Ht) as (fs1 & E & H1 & M1). exists fs1. unfold File_new. by rewrite E.
Qed.

Lemma file_ok fs X n f bl : Shows fs X → FileAt (v_size (device fs)) X (cache fs) n f bl →
  ∃ fs', file fs n = Ret (Ok f, fs') ∧ Shows fs' X ∧ Mounted fs fs'.
Proof.
  intros H HF. assert (∃ t, 1 ≤ n ≤ inodes_count (base (vol_sb X)) ∧ file_type (inode_at X n) = Ok t) as (t & Hn & Ht) by (destruct HF; eauto).
  destruct (Inode_parse_ok fs X n t H Hn Ht) as (fs1 & E1 & H1 & M1). unfold file. rewrite E1. run. destruct (File_new_ok fs1 X n t H1 Hn Ht) as (fs2 & E2 & H2 & M2).
  pose proof (transitivity M1 M2) as M. destruct HF as [_ Et|full ess _ Et HD|_ Et Hs p Hp|_ Et|_ Et]; rewrite Et in *; unfold generic, Directory_new, SymbolicLink_new; rewrite E2; run; try by exists fs2.
  - destruct (Directory_parse_ok fs2 X (mkFile n (inode_at X n) 0) full ess) as (fs3 & -> & H3 & M3); [done|rewrite (mo_size _ _ M); done|].
    run. exists fs3. split_and!; [|done|by etrans]. do 5 f_equal. by rewrite (mo_cache _ _ M3), (mo_cache _ _ M).
  - cbn [f_inode]. rewrite (proj2 (Z.ltb_lt _ _)) by done. run. fold p. destruct Hp as [u ->]. by exists fs2.
Qed.

(** [F] says what the files of the entries are. *)
Definition Files (size : Z) (X : Vol) (cache : bool) (es : list Entry) (F : Z → TypeWithFile) : Prop :=
  Forall (λ e, name_ok (e_name e) ∧ ∃ bl, FileAt size X cache (e_inode e) (F (e_inode e)) bl) es.

Lemma filename_ok e : name_ok (e_name e) → filename e = Ret (e_name e).
Proof.
  intros H. unfold filename. rewrite name_no_nul by done. destruct H as (_ & [u Hu] & Hne & _). rewrite Hu. run. by rewrite bool_decide_eq_false_2.
Qed.

Lemma open_entries_ok X es F : ∀ fs, Shows fs X → Files (v_size (device fs)) X (cache fs) es F →
  ∃ fs', open_entries fs es = Ret (Ok ((λ e, (e_name e, F (e_inode e))) <$> es), fs') ∧ Shows fs' X ∧ Mounted fs fs'.
Proof.
  induction es as [|e es IH]; intros fs H HF; [by exists fs|]. apply Forall_cons in HF as [[Hn [bl Hf]] HF]. cbn [open_entries]. rewrite filename_ok by done. run.
  destruct (file_ok fs X (e_inode e) _ bl H Hf) as (fs1 & -> & H1 & M1). run.
  destruct (IH fs1 H1) as (fs2 & -> & H2 & M2); [by rewrite (mo_size _ _ M1), (mo_cache _ _ M1)|]. run. exists fs2. split_and!; [done|done|by etrans].
Qed.

Lemma Directory_entries_ok fs X self F : Shows fs X → Files (v_size (device fs)) X (cache fs) (concat (d_entries self)) F →
  (d_cache self = true → ∃ full, HasDir (v_size (device fs)) X (f_inode (d_file self)) full (d_entries self)) →
  ∃ fs', Directory_entries fs self = Ret (Ok ((λ e, (e_name e, F (e_inode e))) <$> concat (d_entries self)), (fs', self)) ∧ Shows fs' X ∧ Mounted fs fs'.
Proof.
  intros H HF Hc. unfold Directory_entries.
  assert (∃ fs1, (if d_cache self then update_inner_entries fs self else Ret (Ok self, fs)) = Ret (Ok self, fs1) ∧ Shows fs1 X ∧ Mounted fs fs1) as (fs1 & -> & H1 & M1).
  { destruct (d_cache self); [|by exists fs]. destruct (Hc eq_refl) as [full HD]. destruct (Directory_parse_ok fs X (d_file self) full (d_entries self) H HD) as (fs1 & E & H1 & M1).
    exists fs1. unfold update_inner_entries. rewrite E. run. split; [|done]. by destruct self. }
  run. destruct (open_entries_ok X (concat (d_entries self)) F fs1 H1) as (fs2 & -> & H2 & M2); [by rewrite (mo_size _ _ M1), (mo_cache _ _ M1)|].
  run. exists fs2. split_and!; [done|done|by etrans].
Qed.
End Opening.

(** ** Blocks as they are written *)

Definition total (es : list Entry) : Z := foldr (λ e n, e_rec_len e + n) 0 es.

(** An entry with room for the NUL behind its name, in steps of four bytes. *)
Record Roomy (e : Entry) : Prop := {
  ro_ok : EntryOk e;
  ro_nul : HEADER_SIZE + zlen (e_name e) + 1 ≤ e_rec_len e;
  ro_four : e_rec_len e mod 4 = 0;
}.

(** The size of an entry with its NUL, rounded up. *)
Definition min_size (name : list Z) : Z := (HEADER_SIZE + zlen name + 1 + 3) / 4 * 4.

Lemma BlockEntries_total l es : BlockEntries l es → zlen l = total es.
Proof.
  induction 1 as [|e l es He Hl _ _ IH]; [done|]. cbn [total foldr]. fold (total es). destruct (eo_rec_len _ He). change HEADER_SIZE with 8 in *. pose proof (zlen_nonneg (e_name e)).
  rewrite zlen_drop in IH by lia. lia.
Qed.

Section Bytes.
Context {P : Profile}.

Lemma entry_size_ok e : name_ok (e_name e) → entry_size e = Ret (HEADER_SIZE + zlen (e_name e) + 1).
Proof.
  intros (_ & _ & _ & Hn). pose proof (zlen_nonneg (e_name e)). unfold entry_size, try_from_u, HEADER_SIZE. rewrite (proj2 (Z.leb_le 0 _)), (proj2 (Z.ltb_lt _ _)) by lia. cbn [andb unwrap]. f_equal. lia.
Qed.

Lemma minimal_size_ok e : name_ok (e_name e) → minimal_size e = Ret (min_size (e_name e)).
Proof.
  intros Hn. unfold minimal_size. rewrite entry_size_ok by done. run. destruct Hn as (_ & _ & _ & Hs). pose proof (zlen_nonneg (e_name e)). unfold HEADER_SIZE in *.
  rewrite sub_u_ok by lia. run. unfold min_size, HEADER_SIZE. set (n := zlen (e_name e)) in *.
  rewrite add_u_ok by (Z.div_mod_to_equations; lia). f_equal. Z.div_mod_to_equations. lia.
Qed.

Lemma min_size_range name : zlen name < 256 → HEADER_SIZE + zlen name + 1 ≤ min_size name < HEADER_SIZE + zlen name + 5 ∧ min_size name mod 4 = 0.
Proof. intros _. unfold min_size, HEADER_SIZE. split; [Z.div_mod_to_equations; lia|apply Z.mod_mul; lia]. Qed.

Lemma free_space_ok e : Roomy e → free_space e = Ret (e_rec_len e - (HEADER_SIZE + zlen (e_name e) + 1)).
Proof.
  intros [He Hr _]. unfold free_space. rewrite entry_size_ok by apply He. run. pose proof (zlen_nonneg (e_name e)). destruct (eo_rec_len _ He). unfold HEADER_SIZE in *. rewrite sub_u_ok by lia. done.
Qed.

Lemma Entry_as_bytes_header e : in_range 8 (e_name_len e) = true → in_range 8 (e_file_type e) = true → Entry_as_bytes e = header e ++ e_name e ++ [0].
Proof.
  intros H1%in_range_true H2%in_range_true. assert (∀ x, 0 ≤ x < 2 ^ 8 → to_le 1 x = [x]) as E by (intros x Hx; cbn [to_le]; by rewrite Z.mod_small by lia).
  unfold Entry_as_bytes, header. rewrite (E (e_name_len e)), (E (e_file_type e)) by done. by rewrite <- !app_assoc.
Qed.

Lemma entries_bytes_ok es : Forall Roomy es → ∃ l, entries_bytes es = Ret l ∧ zlen l = total es ∧ BlockEntries l es ∧ Forall is_byte l.
Proof.
  induction 1 as [|e es He _ (l & E & Hl & HB & Hby)]; [exists []; split_and!; try done; constructor|]. cbn [entries_bytes]. rewrite free_space_ok by done. run. rewrite E. run.
  eexists. split; [done|]. destruct He as [Ho Hr _]. destruct (eo_rec_len _ Ho) as [_ Hr2]. unfold HEADER_SIZE in *. destruct (eo_name _ Ho) as (Hname & _ & _ & Hs). pose proof (zlen_nonneg (e_name e)) as Hn0.
  assert (in_range 8 (e_name_len e) = true) as R1 by (rewrite (eo_name_len _ Ho); apply in_range_true; cbn; lia).
  rewrite Entry_as_bytes_header by (done || apply Ho). set (k := e_rec_len e - _). set (z := zeros (Z.to_nat k)). assert (zlen z = k) as Hz by (unfold z, zeros, zlen; rewrite length_replicate; lia).
  assert (zlen (header e ++ e_name e ++ [0] ++ z) = e_rec_len e) as Hw by (rewrite !zlen_app, zlen_header, Hz; change (zlen [0]) with 1; lia).
  assert (((header e ++ e_name e ++ [0]) ++ z ++ l) = (header e ++ e_name e ++ [0] ++ z) ++ l) as -> by (by rewrite <- !app_assoc).
  pose proof (zlen_nonneg l) as Hl0. split_and!.
  - rewrite zlen_app, Hw. cbn [total foldr]. fold (total es). lia.
  - constructor; [done|rewrite zlen_app, Hw; lia|exists ([0] ++ z ++ l); by rewrite <- !app_assoc|]. rewrite drop_app_length' by (unfold zlen in Hw; lia). done.
  - rewrite !Forall_app. split_and!; [unfold header; rewrite !Forall_app; split_and!; apply to_le_bytes| |by repeat constructor|apply Forall_replicate; by vm_compute|done].
    eapply Forall_impl; [exact Hname|]. intros b [H1 H2]. unfold is_byte. lia.
Qed.
End Bytes.
