(* ===== verification/Ext2Create.v ===== *)
(** * ext2 crate: adding files to directories

    The theorems on the directories of [Ext2Dir]: a directory lists and opens what its entries on the disk
    say; a new file is written into the free space of a block of its directory, its inode is taken from the
    bitmaps, and afterwards every name of the directory opens as before and the new one opens the new file.
    The theorems are stated for the kernel's inode of a volume ([kernel/src/fs/ext2.rs]). A short symbolic link
    is kept in its inode. Examples at the end show where the code departs from that. *)

From Stdlib Require Import FMapPositive.
From S2P Require Import Prelude Crates BlockCache FatIo Syscall ExtBlocks Ext2Disk Ext2Alloc Ext2File Ext2Write Ext2Dir.

(** ** Volumes that differ elsewhere *)

Section Transfer.
Context {BF : Bitflags}.
Implicit Types X Y : Vol.

Lemma points_to_same X Y b l : block_bytes (vol_sb Y) = block_bytes (vol_sb X) → block_data Y b = block_data X b → points_to X b l → points_to Y b l.
Proof. intros E1 E2. unfold points_to, block_words. by rewrite E1, E2. Qed.

Lemma HasFile_same size X Y i full : SamePlaces X Y → (∀ b, b ∈ traverse full → block_data Y b = block_data X b) → HasFile size X i full → HasFile size Y i full.
Proof.
  intros HP HD [HB Hs He]. pose proof (sp_block _ _ HP) as Eb. pose proof (hb_small _ _ _ _ HB) as Hsm. split; [|done|intros H; unfold size_blocks; rewrite Eb; by apply He].
  destruct HB as [B1 B2 B3 B4 B5 B6 B7 B8 B9 B10]. split; rewrite ?Eb; try done.
  - eapply Forall_impl; [exact B7|]. intros b. by apply DataBlock_places.
  - intros Hne. apply (points_to_same X); [done| |auto]. apply HD, traverse_simple; [done|]. apply elem_of_cons. by left.
  - intros Hne. apply (points_to_same X); [done| |auto]. by apply HD, traverse_head_double.
  - apply Forall_forall. intros s Hs'. rewrite Forall_forall in B10. apply (points_to_same X); [done| |auto]. apply HD. by apply traverse_double.
Qed.

Lemma HasDir_same size X Y i full ess : SamePlaces X Y → (∀ b, b ∈ traverse full → block_data Y b = block_data X b) → HasDir size X i full ess → HasDir size Y i full ess.
Proof.
  intros HP HD [HF Hp He Hen]. pose proof (sp_block _ _ HP) as Eb. assert (dir_blocks Y i full = dir_blocks X i full) as Ed by (unfold dir_blocks, size_blocks; by rewrite Eb).
  split; [by apply (HasFile_same size X)|done| |]; rewrite Ed; [|by rewrite Eb]. apply Forall2_lookup. intros k. rewrite Forall2_lookup in He. specialize (He k).
  destruct (dir_blocks X i full !! k) as [b|] eqn:Hk; inversion He as [b' es HB| ]; subst; constructor. rewrite HD; [done|].
  apply blocks_in_traverse; [apply HF|]. apply list_elem_of_lookup_2 in Hk. unfold dir_blocks in Hk. apply elem_of_take in Hk as (j & Hj & _). by apply list_elem_of_lookup_2 in Hj.
Qed.

Lemma FileAt_same size X Y c n f bl : SamePlaces X Y → inode_at Y n = inode_at X n → (∀ b, b ∈ bl → block_data Y b = block_data X b) →
  FileAt size X c n f bl → FileAt size Y c n f bl.
Proof.
  intros HP Hi HD HF. pose proof (sp_inodes _ _ HP) as Ei. inversion HF as [Hn Ht|full ess Hn Ht Hd|Hn Ht Hs p Hp|Hn Ht|Hn Ht]; subst; rewrite <- Ei in Hn; rewrite <- Hi in Ht |- *.
  - by apply at_regular.
  - apply at_directory; [done|done|]. rewrite Hi. by apply (HasDir_same size X).
  - rewrite <- Hi in Hs. unfold p in *. rewrite <- Hi in *. by apply at_short_link.
  - by apply at_fifo.
  - by apply at_character_device.
Qed.
End Transfer.

(** ** Space in a block *)

Definition spare (e : Entry) : Z := e_rec_len e - (HEADER_SIZE + zlen (e_name e) + 1).

Section Space.
Context {P : Profile}.

Lemma find_in_block_ok m es : ∀ k, Forall Roomy es → ∃ r, find_in_block m es k = Ret r ∧
  match r with Some i => ∃ e, k ≤ i ∧ es !! Z.to_nat (i - k) = Some e ∧ m ≤ spare e | None => Forall (λ e, spare e < m) es end.
Proof.
  induction es as [|e es IH]; intros k HR; [by exists None|]. apply Forall_cons in HR as [He HR]. cbn [find_in_block]. rewrite free_space_ok by done. run. fold (spare e).
  destruct (Z.leb_spec m (spare e)) as [Hle|Hgt]; [exists (Some k); split; [done|]; exists e; rewrite Z.sub_diag; by split_and!|].
  destruct (IH (k + 1) HR) as (r & E & Hr). exists r. split; [done|]. destruct r as [i|]; [|by constructor]. destruct Hr as (e' & Hk & Hi & Hm). exists e'. split_and!; [lia| |done].
  replace (Z.to_nat (i - k)) with (Datatypes.S (Z.to_nat (i - (k + 1)))) by lia. done.
Qed.

Lemma find_in_blocks_ok m ess : ∀ k, Forall (Forall Roomy) ess → ∃ r, find_in_blocks m ess k = Ret r ∧
  match r with
  | Some (j, i) => ∃ es e, k ≤ j ∧ 0 ≤ i ∧ ess !! Z.to_nat (j - k) = Some es ∧ es !! Z.to_nat i = Some e ∧ m ≤ spare e
  | None => Forall (λ e, spare e < m) (concat ess)
  end.
Proof.
  induction ess as [|es ess IH]; intros k HR; [by exists None|]. apply Forall_cons in HR as [He HR]. cbn [find_in_blocks].
  destruct (find_in_block_ok m es 0 He) as (r & -> & Hr). run. destruct r as [i|].
  { destruct Hr as (e & Hi & He' & Hm). exists (Some (k, i)). split; [done|]. exists es, e. rewrite Z.sub_diag. rewrite Z.sub_0_r in He'. by split_and!. }
  destruct (IH (k + 1) HR) as (r & -> & Hr'). exists r. split; [done|]. destruct r as [[j i]|]; [|by apply Forall_app].
  destruct Hr' as (es' & e & Hj & Hi & H1 & H2 & H3). exists es', e. split_and!; [lia|done| |done|done]. replace (Z.to_nat (j - k)) with (Datatypes.S (Z.to_nat (j - (k + 1)))) by lia. done.
Qed.

(** The entries of a block with a new one in the space of the one at [i]. *)
Definition with_entry (es : list Entry) (i : nat) (e new : Entry) : list Entry :=
  take i es ++ set_rec_len e (min_size (e_name e)) :: set_rec_len new (e_rec_len e - min_size (e_name e)) :: drop (Datatypes.S i) es.

Lemma total_app l1 l2 : total (l1 ++ l2) = total l1 + total l2.
Proof. induction l1 as [|e l1 IH]; [done|]. cbn [app total foldr] in *. fold (total l1) (total (l1 ++ l2)) in *. lia. Qed.

Lemma with_entry_ok es i e new : Forall Roomy es → es !! i = Some e → name_ok (e_name new) → in_range 32 (e_inode new) = true → e_name_len new = zlen (e_name new) →
  in_range 8 (e_file_type new) = true → min_size (e_name new) ≤ spare e →
  Forall Roomy (with_entry es i e new) ∧ total (with_entry es i e new) = total es ∧
  (λ x, (e_name x, e_inode x)) <$> with_entry es i e new ≡ₚ (e_name new, e_inode new) :: ((λ x, (e_name x, e_inode x)) <$> es).
Proof.
  intros HR Hi Hn H1 H2 H3 Hsp. pose proof HR as HR'. rewrite Forall_forall in HR'. pose proof (HR' e (list_elem_of_lookup_2 _ _ _ Hi)) as [Ho Hnul Hfour]. destruct (eo_rec_len _ Ho) as [_ Hr].
  destruct (eo_name _ Ho) as (_ & _ & _ & Hs). pose proof Hn as (_ & _ & _ & Hs2). destruct (min_size_range (e_name e) Hs) as [M1 M2]. destruct (min_size_range (e_name new) Hs2) as [M3 M4].
  unfold spare, HEADER_SIZE in *. pose proof (zlen_nonneg (e_name e)) as Z1. pose proof (zlen_nonneg (e_name new)) as Z2.
  set (m := min_size (e_name e)) in *. set (mn := min_size (e_name new)) in *.
  assert (mn ≤ e_rec_len e - m ∧ (e_rec_len e - m) mod 4 = 0) as [F1 F2] by (Z.div_mod_to_equations; lia).
  pose proof (take_drop_middle es i e Hi) as Ees. unfold with_entry. fold m. split_and!.
  - apply Forall_app. split; [by apply Forall_take|]. constructor; [|constructor; [|by apply Forall_drop]].
    + split; cbn; [destruct Ho; split; cbn; [done|unfold HEADER_SIZE in *; lia|done|done|done]|unfold HEADER_SIZE; lia|done].
    + split; cbn; [split; cbn; [done|unfold HEADER_SIZE; lia|done|done|done]|unfold HEADER_SIZE; lia|done].
  - rewrite <- Ees at 3. rewrite !total_app. cbn [total foldr set_rec_len e_rec_len]. lia.
  - rewrite <- Ees at 3. rewrite !fmap_app, !fmap_cons. cbn [set_rec_len e_name e_inode]. rewrite (perm_swap (e_name new, e_inode new)). by rewrite <- Permutation_middle.
Qed.

Lemma insert_entry_ok self j i es e new : d_entries self !! Z.to_nat j = Some es → es !! Z.to_nat i = Some e → 0 ≤ i → Roomy e → min_size (e_name e) ≤ e_rec_len e →
  insert_entry self j i new = Ret (set_d_entries self (<[Z.to_nat j := with_entry es (Z.to_nat i) e new]> (d_entries self))).
Proof.
  intros Hj Hi Hi0 HR Hle. unfold insert_entry. rewrite Hj. cbn [unwrap]. run. rewrite Hi. cbn [unwrap]. run. rewrite minimal_size_ok by apply HR. run.
  destruct (eo_rec_len _ (ro_ok _ HR)) as [_ Hr]. assert (0 ≤ min_size (e_name e)) by (unfold min_size, HEADER_SIZE; pose proof (zlen_nonneg (e_name e)); Z.div_mod_to_equations; lia).
  rewrite sub_u_ok by lia. run. do 3 f_equal. unfold with_entry. replace (Z.to_nat (i + 1)) with (Datatypes.S (Z.to_nat i)) by lia. pose proof (lookup_lt_Some _ _ _ Hi) as Hlt.
  rewrite (take_S_r _ _ (set_rec_len e (min_size (e_name e)))) by (rewrite list_lookup_insert_eq; done). rewrite take_insert_ge, drop_insert_lt by lia. by rewrite <- app_assoc.
Qed.
End Space.

(** ** Writing a block of a directory *)

(** An open directory within the direct blocks [d], all of it in use, whose entries can be written back. *)
Record OpenDir {BF : Bitflags} (size : Z) (X : Vol) (self : Directory) (bpi : Z) (d : list Z) : Prop := {
  od_open : OpenFile size X TDirectory (d_file self) bpi d;
  od_size : data_size (f_inode (d_file self)) = zlen d * block_bytes (vol_sb X);
  od_some : d ≠ [];
  od_entries : Forall2 (λ b es, BlockEntries (block_data X b) es) d (d_entries self);
  od_roomy : Forall (Forall Roomy) (d_entries self);
  od_end : Forall (λ b, b * block_bytes (vol_sb X) + block_bytes (vol_sb X) + 256 ≤ size) d;
}.

Lemma size_blocks_exact sb n : 0 < block_bytes sb → 0 < n → size_blocks sb (n * block_bytes sb) = n.
Proof.
  intros Hb Hn. unfold size_blocks. rewrite Z.max_l by nia. replace (n * block_bytes sb - 1) with ((block_bytes sb - 1) + (n - 1) * block_bytes sb) by lia.
  rewrite Z.div_add, Z.div_small by lia. lia.
Qed.

Section WriteBlock.
Context {P : Profile} {BF : Bitflags} {S : Type} {ST : Storage S} {V : View S} {FS : FlatStorage S} {ES : EndSeek S}.
Implicit Types (fs : Ext2 S) (X Y : Vol).

Lemma OpenDir_parts fs X self bpi d : Shows fs X → OpenDir (v_size (device fs)) X self bpi d →
  0 < zlen d ∧ size_part X (f_inode (d_file self)) d = d ∧ dir_blocks X (f_inode (d_file self)) (direct bpi d) = d ∧
  HasDir (v_size (device fs)) X (f_inode (d_file self)) (direct bpi d) (d_entries self).
Proof.
  intros H [HO Hs Hne He Hr Hend]. destruct (block_size_ok _ (ds_wf _ _ (sh_dev _ _ H))) as [_ Hbs].
  assert (0 < zlen d) as Hd by (destruct d; [done|rewrite zlen_cons; pose proof (zlen_nonneg d); lia]).
  assert (take (Z.to_nat (size_blocks (vol_sb X) (data_size (f_inode (d_file self))))) d = d) as Et by (rewrite Hs, size_blocks_exact by lia; apply take_ge; unfold zlen; lia).
  assert (dir_blocks X (f_inode (d_file self)) (direct bpi d) = d) as Ed by (unfold dir_blocks; by rewrite (proj1 (blocks_of_direct bpi d))).
  split_and!; [done|done|done|]. split; [apply HO|rewrite Hs; nia|by rewrite Ed|by rewrite Ed].
Qed.

(** The blocks of two volumes with the same bytes are the same. *)
Lemma bytes_of_inj X Y bl : 0 < block_bytes (vol_sb X) → block_bytes (vol_sb Y) = block_bytes (vol_sb X) → bytes_of Y bl = bytes_of X bl → ∀ b, b ∈ bl → block_data Y b = block_data X b.
Proof.
  intros Hbs Hb. induction bl as [|b bl IH]; intros E x Hx; [by apply not_elem_of_nil in Hx|]. unfold bytes_of in E. rewrite !bind_cons in E.
  pose proof (zlen_block_data X b ltac:(lia)) as Z1. pose proof (zlen_block_data Y b ltac:(lia)) as Z2. apply app_inj_1 in E as [E1 E2]; [|unfold zlen in *; lia].
  apply elem_of_cons in Hx as [->|Hx]; [done|by apply IH].
Qed.

(** Blocks of which the one at [k] is replaced. *)
Lemma block_replaced X Y d k buf b : 0 < block_bytes (vol_sb X) → block_bytes (vol_sb Y) = block_bytes (vol_sb X) → zlen buf = block_bytes (vol_sb X) → d !! k = Some b →
  bytes_of Y d = splice (bytes_of X d) (Z.of_nat k * block_bytes (vol_sb X)) buf →
  ∀ j c, d !! j = Some c → block_data Y c = if decide (j = k) then buf else block_data X c.
Proof.
  intros Hbs Hb Hbuf Hk E. set (bs := block_bytes (vol_sb X)) in *. pose proof (take_drop_middle d k b Hk) as Ed. set (d1 := take k d) in *. set (d2 := drop (Datatypes.S k) d) in *.
  pose proof (lookup_lt_Some _ _ _ Hk) as Hlt. assert (length d1 = k) as Hl1 by (unfold d1; rewrite length_take; lia).
  pose proof (zlen_bytes_of X d1 ltac:(fold bs; lia)) as Z1. pose proof (zlen_bytes_of Y d1 ltac:(rewrite Hb; lia)) as Z2. rewrite Hb in Z2. fold bs in Z1, Z2. unfold zlen in Z1 at 2, Z2 at 2. rewrite Hl1 in Z1, Z2.
  pose proof (zlen_block_data X b ltac:(fold bs; lia)) as Z3. pose proof (zlen_block_data Y b ltac:(rewrite Hb; lia)) as Z4. rewrite Hb in Z4. fold bs in Z3, Z4.
  assert (bytes_of Y d1 ++ block_data Y b ++ bytes_of Y d2 = bytes_of X d1 ++ buf ++ bytes_of X d2) as E'.
  { rewrite <- Ed, !bytes_of_app in E. unfold bytes_of in E. rewrite !bind_cons in E. fold (bytes_of X d1) (bytes_of X d2) (bytes_of Y d1) (bytes_of Y d2) in E. rewrite E.
    unfold splice, zlen in *. rewrite take_app_length' by lia. f_equal. f_equal. rewrite app_assoc, drop_app_length' by (rewrite length_app; lia). done. }
  apply app_inj_1 in E' as [E1 E']; [|unfold zlen in *; lia]. apply app_inj_1 in E' as [E2 E3]; [|unfold zlen in *; lia].
  intros j c Hc. case_decide as Hj; [subst j; by assert (c = b) as -> by congruence|].
  destruct (decide (j < k)%nat).
  - apply (bytes_of_inj X Y d1); [done..|]. apply (list_elem_of_lookup_2 _ j). unfold d1. by rewrite lookup_take_lt.
  - apply (bytes_of_inj X Y d2); [done..|]. apply (list_elem_of_lookup_2 _ (j - Datatypes.S k)). unfold d2. rewrite lookup_drop. rewrite <- Hc. f_equal. lia.
Qed.

(** What writing a block of a directory leaves: the volume [Y] and the directory [self']. *)
Record WroteDir (size : Z) (X Y : Vol) (self self' : Directory) (bpi : Z) (d : list Z) : Prop := {
  wd_open : OpenDir size Y self' bpi d;
  wd_entries : d_entries self' = d_entries self;
  wd_number : f_inode_number (d_file self') = f_inode_number (d_file self);
  wd_cache : d_cache self' = d_cache self;
  wd_free : free_list X ≡ₚ free_list Y;
  wd_free_inodes : free_inode_list Y = free_inode_list X;
  wd_places : SamePlaces X Y;
  wd_blocks b : b ∉ d → block_data Y b = block_data X b;
  wd_inodes n : 1 ≤ n ≤ inodes_count (base (vol_sb X)) → n ≠ f_inode_number (d_file self) → inode_at Y n = inode_at X n;
}.

Lemma write_block_entry_ok fs X self bpi d j es : Shows fs X → Counted X → OpenDir (v_size (device fs)) X self bpi d → Forall (DataBlock (v_size (device fs)) X) (free_list X) →
  block_bytes (vol_sb X) ≤ blocks_per_group (base (vol_sb X)) → 0 ≤ j < zlen d → Forall Roomy es → total es = block_bytes (vol_sb X) →
  let self1 := set_d_entries self (<[Z.to_nat j := es]> (d_entries self)) in
  ∃ fs' self' Y, write_block_entry fs self1 j = Ret (Ok tt, (fs', self')) ∧ Shows fs' Y ∧ Counted Y ∧ Mounted fs fs' ∧ WroteDir (v_size (device fs)) X Y self1 self' bpi d.
Proof.
  intros H Hc HOD Hfd Hbpg Hj HR Ht self1. destruct (OpenDir_parts fs X self bpi d H HOD) as (Hd & Esp & _ & _). pose proof HOD as [HO Hs Hne He Hr Hend].
  pose proof (ds_wf _ _ (sh_dev _ _ H)) as Hw. destruct (block_size_ok _ Hw) as [Ebs Hbs]. set (bs := block_bytes (vol_sb X)) in *. pose proof (Forall2_length _ _ _ He) as Hlen.
  destruct (entries_bytes_ok es HR) as (buf & Eb & Hzb & HB & Hby). rewrite Ht in Hzb. destruct (open_facts fs X TDirectory (d_file self) bpi d H HO) as (_ & _ & Hd12 & _).
  unfold write_block_entry. rewrite (sh_super _ _ H), Ebs. run. fold bs. assert (j * bs + bs ≤ zlen d * bs ∧ zlen d * bs ≤ 12 * 2 ^ 26) as [G1 G2] by nia. assert (0 ≤ j * bs) as G3 by nia.
  rewrite mul_u_ok by lia. run. change (d_file self1) with (d_file self). unfold on_file. rewrite File_seek_start by (rewrite ?Hs; lia). run. unfold on_d_file at 1. run. cbn [fst snd set_d_file d_entries].
  change (d_entries self1) with (<[Z.to_nat j := es]> (d_entries self)). rewrite list_lookup_insert_eq by (unfold zlen in Hj; lia). cbn [unwrap]. run. rewrite Eb. run. cbn [d_file].
  assert (asked_blocks TDirectory (vol_sb X) (j * bs) (zlen buf) = j + 1) as En.
  { unfold asked_blocks, asked_bytes. fold bs. rewrite Hzb. replace (bs + j * bs - 1) with (bs - 1 + j * bs) by lia. rewrite Z.div_add, Z.div_small by lia. lia. }
  destruct (file_write_ok fs X TDirectory (set_offset (d_file self) (j * bs)) bpi d buf) as (fs1 & f' & Y & new & E1 & H1 & Hc1 & M1 & HW);
    [done|done| |done|done|done|right; lia|cbn [set_offset f_io_offset]; rewrite En; lia|cbn [set_offset f_io_offset f_inode]; rewrite En, Esp; pose proof (zlen_nonneg (free_list X)); lia|].
  { destruct HO. split; try done. cbn. lia. }
  cbn [set_d_file d_file]. rewrite E1. unfold on_d_file. run. cbn [fst snd]. eexists fs1, _, Y. split; [done|]. split_and!; [done|done|done|].
  destruct HW as [W1 W2 W3 W4 W5 W6 W6b _ W7 W8 W9 W10]. cbn [set_offset f_io_offset f_inode f_inode_number] in *. rewrite Esp in *. assert (new = []) as ->.
  { destruct new as [|x new]; [done|]. specialize (W7 ltac:(done)). unfold asked_bytes in W7. rewrite zlen_app, zlen_cons, Hzb in W7. fold bs in W7. pose proof (zlen_nonneg new). nia. }
  rewrite app_nil_r in *. pose proof (sp_block _ _ W8) as PB. fold bs in PB. assert (data_size (f_inode f') = zlen d * bs) as Es' by (rewrite W4, Hs, Hzb; lia).
  assert (bytes_of Y d = splice (bytes_of X d) (j * bs) buf) as EB.
  { unfold content in W5. rewrite !(proj1 (blocks_of_direct bpi d)), Es', Hs in W5. pose proof (zlen_bytes_of X d ltac:(fold bs; lia)) as Z1. pose proof (zlen_bytes_of Y d ltac:(rewrite PB; lia)) as Z2.
    rewrite PB in Z2. fold bs in Z1. rewrite !take_ge in W5 by (unfold zlen in *; lia). done. }
  destruct (lookup_lt_is_Some_2 d (Z.to_nat j)) as [b Hbj]; [unfold zlen in *; lia|].
  assert (∀ k c, d !! k = Some c → block_data Y c = if decide (k = Z.to_nat j) then buf else block_data X c) as Hrep.
  { apply (block_replaced X Y d (Z.to_nat j) buf b); try done; [fold bs; lia|]. fold bs. by rewrite Z2Nat.id by lia. }
  split; try done; cbn [set_d_file d_file d_entries d_cache].
  - split; cbn [set_d_file d_file d_entries]; [done|by rewrite PB|done| |by apply Forall_insert|by rewrite PB].
    apply Forall2_lookup. intros k. rewrite Forall2_lookup in He. specialize (He k). destruct (d !! k) as [c|] eqn:Hk; inversion He as [c' es' HBk Ec Ek|Ek]; subst.
    + unfold self1. cbn [set_d_entries d_entries]. destruct (decide (k = Z.to_nat j)) as [->|Hne'].
      * rewrite list_lookup_insert_eq by (unfold zlen in Hj; lia). constructor. rewrite (Hrep _ _ Hk), decide_True by done. done.
      * rewrite list_lookup_insert_ne, <- Ek by done. constructor. rewrite (Hrep _ _ Hk), decide_False by done. done.
    + unfold self1. cbn [set_d_entries d_entries]. apply lookup_ge_None in Hk. rewrite list_lookup_insert_ne by (unfold zlen in Hj; lia). rewrite (lookup_ge_None_2 (d_entries self)) by lia. constructor.
Qed.
End WriteBlock.

(** ** Adding a file *)

Lemma find_name_map name es F : find_name name ((λ e, (e_name e, F (e_inode e))) <$> es) = (λ e, F (e_inode e)) <$> List.find (λ e, bool_decide (e_name e = name)) es.
Proof.
  unfold find_name. induction es as [|e es IH]; [done|]. rewrite fmap_cons. cbn [List.find fst]. destruct (bool_decide (e_name e = name)); [done|apply IH].
Qed.

Lemma find_none name es : name ∉ e_name <$> es → List.find (λ e, bool_decide (e_name e = name)) es = None.
Proof.
  induction es as [|e es IH]; [done|]. rewrite fmap_cons, not_elem_of_cons. intros [H1 H2]. cbn [List.find]. rewrite bool_decide_eq_false_2 by done. auto.
Qed.

(** With different names, the first entry of a name is the one. *)
Lemma find_some name es e : e ∈ es → NoDup (e_name <$> es) → e_name e = name → List.find (λ e, bool_decide (e_name e = name)) es = Some e.
Proof.
  induction es as [|x es IH]; intros He Hnd Hn; [by apply not_elem_of_nil in He|]. rewrite fmap_cons in Hnd. apply NoDup_cons in Hnd as [Hx Hnd]. cbn [List.find].
  apply elem_of_cons in He as [->|He]; [by rewrite bool_decide_eq_true_2|]. rewrite bool_decide_eq_false_2; [auto|]. intros E. apply Hx. rewrite E, <- Hn. by apply list_elem_of_fmap_2.
Qed.

Section AddEntry.
Context {P : Profile} {BF : Bitflags} {S : Type} {ST : Storage S} {V : View S} {FS : FlatStorage S} {ES : EndSeek S}.
Implicit Types (fs : Ext2 S) (X Y : Vol).

Lemma OpenDir_same size X Y self bpi d : SamePlaces X Y → vol_data Y = vol_data X → free_list Y = free_list X →
  inode_at Y (f_inode_number (d_file self)) = inode_at X (f_inode_number (d_file self)) → OpenDir size X self bpi d → OpenDir size Y self bpi d.
Proof.
  intros HP Hd Hf Hi [HO Hs Hne He Hr Hend]. pose proof (sp_block _ _ HP) as Eb. assert (∀ b, block_data Y b = block_data X b) as Hbd by (intros b; by apply block_data_places).
  split; try done; rewrite ?Eb; try done.
  - destruct HO as [O1 O2 O3 O4 O5 O6 O7 O8]. split; try done; [by rewrite (sp_inodes _ _ HP)|by rewrite Hi|by apply (HasFile_same size X)|].
    rewrite Hf. eapply Forall_impl; [exact O7|]. intros b [Hv Hb]. split; [by apply (sp_valid _ _ HP)|done].
  - eapply Forall2_impl; [exact He|]. intros b es. by rewrite Hbd.
Qed.

(** The inode of a new file. *)
Definition new_inode (sb : Superblock) (permissions uid gid : Z) : Inode := Inode_create sb (fl_union (fl_truncate TypePermissions_all permissions) REGULAR_FILE) uid gid 0 0 (zeros 12).

Lemma new_inode_type sb permissions uid gid : 0 ≤ permissions < 2 ^ 12 →
  file_type (new_inode sb permissions uid gid) = Ok TRegular ∧ in_range 16 (fl_union (fl_truncate TypePermissions_all permissions) REGULAR_FILE) = true.
Proof.
  intros Hp. assert (fl_union (fl_truncate TypePermissions_all permissions) REGULAR_FILE = Z.lor (type_flag TRegular) permissions) as E.
  { rewrite fl_union_spec, fl_truncate_spec, Z.lor_comm, Z.land_comm. change TypePermissions_all with (Z.ones 16). by rewrite Z.land_ones, Z.mod_small by lia. }
  split; [apply (file_type_of_mode _ TRegular permissions); [done|exact E]|]. rewrite E. apply in_range_true. apply lor_range; [done|by vm_compute|cbn in *; lia].
Qed.

(** What a new file [n] named [name] leaves of the volume and the directory. *)
Record Added (size : Z) (X Y : Vol) (self self' : Directory) (bpi : Z) (d : list Z) (name : list Z) (n : Z) (i : Inode) : Prop := {
  ad_open : OpenDir size Y self' bpi d;
  ad_number : f_inode_number (d_file self') = f_inode_number (d_file self);
  ad_cache : d_cache self' = d_cache self;
  ad_entries : (λ e, (e_name e, e_inode e)) <$> concat (d_entries self') ≡ₚ (name, n) :: ((λ e, (e_name e, e_inode e)) <$> concat (d_entries self));
  ad_inode : inode_at Y n = i;
  ad_free : free_list X ≡ₚ free_list Y;
  ad_free_inodes : free_inode_list X ≡ₚ n :: free_inode_list Y;
  ad_places : SamePlaces X Y;
  ad_blocks b : b ∉ d → block_data Y b = block_data X b;
  ad_inodes m : 1 ≤ m ≤ inodes_count (base (vol_sb X)) → m ≠ n → m ≠ f_inode_number (d_file self) → inode_at Y m = inode_at X m;
}.

(** The entry is stored in the first space that is large enough. *)
Lemma store_entry_ok fs X self bpi d name n : Shows fs X → Counted X → OpenDir (v_size (device fs)) X self bpi d → Forall (DataBlock (v_size (device fs)) X) (free_list X) →
  block_bytes (vol_sb X) ≤ blocks_per_group (base (vol_sb X)) → name_ok name → in_range 32 n = true → (∃ e, e ∈ concat (d_entries self) ∧ min_size name ≤ spare e) →
  ∃ fs' self' self1 Y, store_entry fs self (mkEntry n 0 (zlen name) (EntryType_value RegFile) name) = Ret (Ok tt, (fs', self')) ∧ Shows fs' Y ∧ Counted Y ∧ Mounted fs fs' ∧
    WroteDir (v_size (device fs)) X Y self1 self' bpi d ∧ d_file self1 = d_file self ∧ d_cache self1 = d_cache self ∧
    (λ e, (e_name e, e_inode e)) <$> concat (d_entries self1) ≡ₚ (name, n) :: ((λ e, (e_name e, e_inode e)) <$> concat (d_entries self)).
Proof.
  intros H Hc HOD Hfd Hbpg Hn Hin (e0 & He0 & Hsp0). pose proof HOD as [HO Hs Hne He Hr Hend]. set (new := mkEntry n 0 (zlen name) (EntryType_value RegFile) name).
  unfold store_entry. rewrite minimal_size_ok by done. run. cbn [new e_name]. unfold find_space.
  destruct (find_in_blocks_ok (min_size name) (d_entries self) 0 Hr) as (r & -> & Hfound). run. destruct r as [[j i]|]; [|rewrite Forall_forall in Hfound; specialize (Hfound e0 He0); lia].
  destruct Hfound as (es & e & Hj & Hi & H1 & H2 & H3). rewrite Z.sub_0_r in H1. pose proof (Forall_lookup_1 _ _ _ _ Hr H1) as Hres. pose proof (Forall_lookup_1 _ _ _ _ Hres H2) as Hre.
  set (new' := set_rec_len new (min_size name)).
  destruct (with_entry_ok es (Z.to_nat i) e new' Hres H2) as (R1 & R2 & R3); [done|done|done|done|done|].
  destruct (min_size_range (e_name e)) as [M1 _]; [apply Hre|]. destruct (min_size_range name) as [M2 _]; [apply Hn|]. pose proof (zlen_nonneg name). unfold spare, HEADER_SIZE in *.
  rewrite (insert_entry_ok self j i es e new') by (done || lia). run.
  destruct (Forall2_lookup_r _ _ _ _ _ He H1) as (b & Hb & HB). pose proof (lookup_lt_Some _ _ _ Hb) as Hlt. destruct (block_size_ok _ (ds_wf _ _ (sh_dev _ _ H))) as [_ Hbs].
  pose proof (BlockEntries_total _ _ HB) as Htot. rewrite zlen_block_data in Htot by lia.
  destruct (write_block_entry_ok fs X self bpi d j (with_entry es (Z.to_nat i) e new')) as (fs1 & self' & Y & E & Hs1 & Hc1 & Hm1 & HW); [done..|unfold zlen; lia|done|lia|].
  rewrite E. eexists fs1, self', _, Y. split_and!; [done|done|done|done|exact HW|done|done|]. cbn [set_d_entries d_entries].
  rewrite <- (take_drop_middle (d_entries self) (Z.to_nat j) es H1) at 2. rewrite insert_take_drop by (by eapply lookup_lt_Some).
  rewrite !concat_app, !concat_cons, !fmap_app. rewrite R3. cbn [app]. by rewrite <- Permutation_middle.
Qed.

Lemma Directory_entry_has fs X self F name : Shows fs X → Files (v_size (device fs)) X (cache fs) (concat (d_entries self)) F →
  (d_cache self = true → ∃ full, HasDir (v_size (device fs)) X (f_inode (d_file self)) full (d_entries self)) →
  ∃ fs', Directory_entry fs self name = Ret (Ok ((λ e, F (e_inode e)) <$> List.find (λ e, bool_decide (e_name e = name)) (concat (d_entries self))), (fs', self)) ∧
    Shows fs' X ∧ Mounted fs fs'.
Proof.
  intros H HF HD. destruct (Directory_entries_ok fs X self F H HF HD) as (fs1 & E & H1 & M1).
  exists fs1. unfold Directory_entry. rewrite E. run. by rewrite find_name_map.
Qed.

Lemma Directory_entry_ok fs X self bpi d F name : Shows fs X → OpenDir (v_size (device fs)) X self bpi d → Files (v_size (device fs)) X (cache fs) (concat (d_entries self)) F →
  ∃ fs', Directory_entry fs self name = Ret (Ok ((λ e, F (e_inode e)) <$> List.find (λ e, bool_decide (e_name e = name)) (concat (d_entries self))), (fs', self)) ∧
    Shows fs' X ∧ Mounted fs fs'.
Proof.
  intros H HOD HF. destruct (OpenDir_parts fs X self bpi d H HOD) as (_ & _ & _ & HD). apply Directory_entry_has; [done|done|]. intros _. by eexists.
Qed.

Lemma add_entry_ok fs X self bpi d F name n l permissions uid gid : Shows fs X → Counted X → OpenDir (v_size (device fs)) X self bpi d →
  Files (v_size (device fs)) X (cache fs) (concat (d_entries self)) F → Forall (DataBlock (v_size (device fs)) X) (free_list X) →
  block_bytes (vol_sb X) ≤ blocks_per_group (base (vol_sb X)) → name_ok name → name ∉ e_name <$> concat (d_entries self) →
  (∃ e, e ∈ concat (d_entries self) ∧ min_size name ≤ spare e) → free_inode_list X = n :: l → f_inode_number (d_file self) ∉ free_inode_list X →
  0 ≤ permissions < 2 ^ 12 → in_range 16 uid = true → in_range 16 gid = true →
  let i := new_inode (vol_sb X) permissions uid gid in
  ∃ fs' self' Y, add_entry fs self name TRegular permissions uid gid = Ret (Ok (WRegular (mkFile n i 0)), (fs', self')) ∧ Shows fs' Y ∧ Counted Y ∧ Mounted fs fs' ∧
    Added (v_size (device fs)) X Y self self' bpi d name n i.
Proof.
  intros H Hc HOD HF Hfd Hbpg Hn Hnew Hsp Hfree Hused Hperm Hu Hg i. destruct (new_inode_type (vol_sb X) permissions uid gid Hperm) as [Ht Hm]. fold i in Ht.
  destruct (Directory_entry_ok fs X self bpi d F name H HOD HF) as (fs1 & E1 & H1 & M1). rewrite find_none in E1 by done. unfold add_entry. rewrite E1. run. cbn [fmap option_fmap option_map].
  destruct (block_size_ok _ (ds_wf _ _ (sh_dev _ _ H1))) as [Ebs Hbs]. rewrite (sh_super _ _ H1), Ebs. run.
  destruct (free_inode_ok fs1 X H1) as (fs2 & E2 & H2 & M2). rewrite Hfree in E2. cbn [first_inode] in E2. rewrite E2. unfold on_d_volume at 1, core at 1. run.
  unfold try_from_u. pose proof Hu as [U1 U2]%in_range_true. pose proof Hg as [G1 G2]%in_range_true. rewrite (proj2 (Z.leb_le 0 uid)), (proj2 (Z.ltb_lt uid _)), (proj2 (Z.leb_le 0 gid)), (proj2 (Z.ltb_lt gid _)) by done. cbn [andb fst snd].
  assert (n ∈ free_inode_list X) as Hnf by (rewrite Hfree; apply elem_of_cons; by left). pose proof Hnf as Hnf2. apply (elem_of_free_inode_list _ X n (sh_dev _ _ H)) in Hnf2 as [Hnr _].
  destruct (allocate_inode_ok fs2 X n (fl_union (fl_truncate TypePermissions_all permissions) REGULAR_FILE) uid gid 0 0 (zeros 12) H2 Hc Hnf) as (fs3 & X1 & E3 & H3 & Hc3 & M3 & Ec & Hp & Hfl & Hdat & HP & Ha); [done..|].
  cbn [type_flag]. rewrite E3. unfold on_d_volume at 1, core at 1. run. cbn [fst snd]. unfold on_d_volume at 1, core at 1. run. cbn [fst snd].
  assert (n ≠ f_inode_number (d_file self)) as Hne by (intros ->; by apply Hused).
  assert (Mounted fs fs3) as M03 by (etrans; [exact M1|]; by etrans). pose proof (mo_size _ _ M03) as Hsz.
  assert (OpenDir (v_size (device fs3)) X1 self bpi d) as HOD1.
  { rewrite Hsz. apply (OpenDir_same _ X); [done..| |done]. rewrite Ha by apply HOD. by rewrite (proj2 (Z.eqb_neq _ _)) by done. }
  destruct (store_entry_ok fs3 X1 self bpi d name n) as (fs4 & self' & self1 & Y & E4 & H4 & Hc4 & M4 & HW & Ef & Ecc & HE);
    [done|done|done|rewrite Hfl, Hsz; eapply Forall_impl; [exact Hfd|intros b; by apply DataBlock_places]|by rewrite (sp_block _ _ HP), (sp_bpg _ _ HP)|done| |done|].
  { destruct (Super_wf_spec _ (ds_wf _ _ (sh_dev _ _ H))) as (Wbc & Wbpg & Wb8 & Wipg & Wi8 & Wlog & Wfdb & Wtot & Wic & Wic2 & Wgr & Wisz). apply in_range_true. lia. }
  pose proof Hn as (_ & _ & _ & Hshort). pose proof (zlen_nonneg name) as Hl0. rewrite (proj2 (Z.leb_le 0 (zlen name))), (proj2 (Z.ltb_lt (zlen name) _)) by lia. cbn [andb EntryType_from].
  rewrite E4. unfold core at 1. run. cbn [fst snd]. destruct HW as [W1 W2 W3 W4 W5 W6 W7 W8 W9]. rewrite Ef in *.
  assert (inode_at Y n = i) as Ei by (rewrite W9 by (rewrite ?Ec; done); rewrite Ha by done; by rewrite Z.eqb_refl).
  assert (SamePlaces X Y) as HPY by (etrans; [exact HP|exact W7]).
  destruct (file_ok fs4 Y n (WRegular (mkFile n (inode_at Y n) 0)) []) as (fs5 & E5 & H5 & M5); [done|apply at_regular; [by rewrite (sp_inodes _ _ HPY)|by rewrite Ei]|].
  rewrite E5, Ei. unfold on_d_volume, core. run. eexists fs5, self', Y. split_and!; [done|done|done|etrans; [exact M03|]; by etrans|].
  split; try done; [by rewrite <- Hsz|congruence|by rewrite W2|by rewrite <- Hfl|by rewrite W6| |].
  - intros b Hb. rewrite W8 by done. by apply block_data_places; [apply HP|].
  - intros m Hm' Hmn Hmd. rewrite W9 by (rewrite ?Ec; done). rewrite Ha by done. by rewrite (proj2 (Z.eqb_neq _ _)) by done.
Qed.
End AddEntry.

(** ** The root directory of a volume *)

Definition root_dir (X : Vol) (ess : list (list Entry)) (cache : bool) : Directory :=
  mkDirectory (mkFile ROOT_DIRECTORY_INODE (inode_at X ROOT_DIRECTORY_INODE) 0) ess cache.

(** The root directory has the entries [ess] in its blocks [d], under different names; [F] says what their
    inodes are, which are in use and lie elsewhere. *)
Record Tree {BF : Bitflags} (size : Z) (X : Vol) (cache : bool) (bpi : Z) (d : list Z) (ess : list (list Entry)) (F : Z → TypeWithFile) : Prop := {
  tr_open : OpenDir size X (root_dir X ess cache) bpi d;
  tr_root : F ROOT_DIRECTORY_INODE = WDirectory (root_dir X ess cache);
  tr_used : ROOT_DIRECTORY_INODE ∉ free_inode_list X;
  tr_names : NoDup (e_name <$> concat ess);
  tr_files : Forall (λ e, e_inode e = ROOT_DIRECTORY_INODE ∨
    (e_inode e ∉ free_inode_list X) ∧ ∃ bl, FileAt size X cache (e_inode e) (F (e_inode e)) bl ∧ (∀ b, b ∈ bl → b ∉ d)) (concat ess);
  tr_free : Forall (DataBlock size X) (free_list X);
  tr_group : block_bytes (vol_sb X) ≤ blocks_per_group (base (vol_sb X));
}.

(** What reading the root directory needs: the entries [ess] are in its blocks [full], have different names, and [F] says
    what their inodes are. *)
Record Listing {BF : Bitflags} (size : Z) (X : Vol) (cache : bool) (full : IndirectedBlocks) (ess : list (list Entry)) (F : Z → TypeWithFile) : Prop := {
  ls_root : 1 ≤ ROOT_DIRECTORY_INODE ≤ inodes_count (base (vol_sb X));
  ls_type : file_type (inode_at X ROOT_DIRECTORY_INODE) = Ok TDirectory;
  ls_dir : HasDir size X (inode_at X ROOT_DIRECTORY_INODE) full ess;
  ls_names : NoDup (e_name <$> concat ess);
  ls_files : Files size X cache (concat ess) F;
}.

Definition pairs (ess : list (list Entry)) : list (list Z * Z) := (λ e, (e_name e, e_inode e)) <$> concat ess.

Section Trees.
Context {P : Profile} {BF : Bitflags} {S : Type} {ST : Storage S} {V : View S} {FS : FlatStorage S} {ES : EndSeek S}.
Implicit Types (fs : Ext2 S) (X Y : Vol).

Lemma Tree_parts fs X bpi d ess F : Shows fs X → Tree (v_size (device fs)) X (cache fs) bpi d ess F →
  FileAt (v_size (device fs)) X (cache fs) ROOT_DIRECTORY_INODE (WDirectory (root_dir X ess (cache fs))) d ∧ Files (v_size (device fs)) X (cache fs) (concat ess) F.
Proof.
  intros H HT. pose proof (tr_open _ _ _ _ _ _ _ HT) as HOD. destruct (OpenDir_parts fs X _ bpi d H HOD) as (_ & _ & _ & HD). cbn [root_dir d_file d_entries f_inode] in HD.
  assert (FileAt (v_size (device fs)) X (cache fs) ROOT_DIRECTORY_INODE (WDirectory (root_dir X ess (cache fs))) d) as Hroot.
  { rewrite <- (proj2 (blocks_of_direct bpi d)) at 1. apply at_directory; [apply (od_open _ _ _ _ _ HOD)|apply (od_open _ _ _ _ _ HOD)|done]. }
  split; [done|]. apply Forall_forall. intros e He. pose proof (tr_files _ _ _ _ _ _ _ HT) as HF. rewrite Forall_forall in HF. split.
  - pose proof (od_roomy _ _ _ _ _ HOD) as Hr. cbn [root_dir d_entries] in Hr. apply Forall_concat in Hr. rewrite Forall_forall in Hr. by apply Hr.
  - destruct (HF e He) as [->|(_ & bl & Hbl & _)]; [rewrite (tr_root _ _ _ _ _ _ _ HT)|]; eauto.
Qed.

Lemma Tree_listing fs X bpi d ess F : Shows fs X → Tree (v_size (device fs)) X (cache fs) bpi d ess F →
  Listing (v_size (device fs)) X (cache fs) (direct bpi d) ess F.
Proof.
  intros H HT. pose proof (tr_open _ _ _ _ _ _ _ HT) as HOD. destruct (OpenDir_parts fs X _ bpi d H HOD) as (_ & _ & _ & HD). destruct (Tree_parts fs X bpi d ess F H HT) as [_ HF].
  split; [apply (od_open _ _ _ _ _ HOD)|apply (od_open _ _ _ _ _ HOD)|exact HD|apply HT|done].
Qed.

Lemma listed_root_ok fs X full ess F : Shows fs X → Listing (v_size (device fs)) X (cache fs) full ess F →
  ∃ fs', root fs = Ret (Ok (root_dir X ess (cache fs)), fs') ∧ Shows fs' X ∧ Mounted fs fs'.
Proof.
  intros H [Hn Ht HD _ _]. destruct (file_ok fs X ROOT_DIRECTORY_INODE (WDirectory (root_dir X ess (cache fs))) (traverse full) H) as (fs1 & E & H1 & M1); [by apply at_directory|].
  exists fs1. unfold root. rewrite E. unfold core. run. done.
Qed.

Lemma root_ok fs X bpi d ess F : Shows fs X → Tree (v_size (device fs)) X (cache fs) bpi d ess F →
  ∃ fs', root fs = Ret (Ok (root_dir X ess (cache fs)), fs') ∧ Shows fs' X ∧ Mounted fs fs'.
Proof. intros H HT. eapply listed_root_ok; [done|by apply Tree_listing]. Qed.

Lemma UnixStr_ok name : name_ok name → UnixStr_new name = Some name.
Proof. intros H. unfold UnixStr_new. rewrite name_no_nul by done. destruct H as (_ & _ & Hne & _). by rewrite bool_decide_eq_false_2. Qed.

Lemma Tree_mounted fs fs' X bpi d ess F : Mounted fs fs' → Tree (v_size (device fs)) X (cache fs) bpi d ess F → Tree (v_size (device fs')) X (cache fs') bpi d ess F.
Proof. intros M. by rewrite (mo_size _ _ M), (mo_cache _ _ M). Qed.

Lemma volume_open_ok {R} (place : Place R) inode fs X full ess F name : Shows fs X → Listing (v_size (device fs)) X (cache fs) full ess F → name_ok name →
  virtual_inodes place !! name = None →
  ∃ fs', volume_open fs place inode name =
      Ret (List.find (λ e, bool_decide (e_name e = name)) (concat ess) ≫= λ e, opened inode (child_path place name) (F (e_inode e)), fs') ∧ Shows fs' X ∧ Mounted fs fs'.
Proof.
  intros H HT Hn Hv. destruct (listed_root_ok fs X full ess F H HT) as (fs1 & E & H1 & M1). destruct HT as [_ _ HD _ HF]. rewrite <- (mo_size _ _ M1) in HD, HF. rewrite <- (mo_cache _ _ M1) in HF.
  unfold volume_open. rewrite Hv, E. run. rewrite UnixStr_ok by done. cbn [unwrap]. run.
  destruct (Directory_entry_has fs1 X (root_dir X ess (cache fs)) F name H1 HF) as (fs2 & E2 & H2 & M2); [intros _; by exists full|].
  rewrite E2. run. exists fs2. split_and!; [|done|by etrans]. cbn [fst root_dir d_entries]. by destruct (List.find _ _).
Qed.

(** The virtual inodes are listed once each, in the order of their names. *)
Lemma virtual_infos_ok {R} is_dir (place : Place R) : let info (p : list Z * Child R) := (p.1, match p.2 with Itself => true | Ref r => is_dir r end) in
  (virtual_infos is_dir place ≡ₚ info <$> map_to_list (virtual_inodes place)) ∧ Sorted (λ a b, Vfs.str_leb a b = true) (virtual_infos is_dir place).*1.
Proof.
  intros info. split; [unfold virtual_infos; by rewrite merge_sort_Permutation|]. unfold virtual_infos. rewrite <- list_fmap_compose.
  assert (Sorted name_before (merge_sort name_before (map_to_list (virtual_inodes place)))) as HS.
  { apply Sorted_merge_sort. intros [a x] [b y]. unfold name_before. cbn. clear. revert b.
    induction a as [|u a IH]; intros [|v b]; cbn; auto. destruct (Z.lt_trichotomy u v) as [?|[->|?]]; [left; lia| |right; lia].
    rewrite Z.ltb_irrefl, Z.eqb_refl. cbn. apply IH. }
  induction HS as [|p l HS IH Hp]; [constructor|]. constructor; [done|]. destruct Hp; constructor. done.
Qed.

Lemma volume_list_ok {R} is_dir (place : Place R) fs X full ess F : Shows fs X → Listing (v_size (device fs)) X (cache fs) full ess F →
  ∃ fs', volume_list is_dir fs place = Ret (virtual_infos is_dir place ++ ((λ e, (e_name e, is_directory (F (e_inode e)))) <$> filter (λ e, e_name e ≠ CUR_DIR ∧ e_name e ≠ PARENT_DIR) (concat ess)), fs') ∧ Shows fs' X ∧ Mounted fs fs'.
Proof.
  intros H HT. destruct (listed_root_ok fs X full ess F H HT) as (fs1 & E & H1 & M1). destruct HT as [_ _ HD _ HF]. rewrite <- (mo_size _ _ M1) in HD, HF. rewrite <- (mo_cache _ _ M1) in HF.
  unfold volume_list. rewrite E. run. unfold dir_list. destruct (Directory_entries_ok fs1 X (root_dir X ess (cache fs)) F H1 HF) as (fs2 & -> & H2 & M2);
    [intros _; by exists full|]. run. exists fs2. split_and!; [|done|by etrans]. do 3 f_equal. cbn [root_dir d_entries fst]. unfold dir_infos. clear HF.
  induction (concat ess) as [|e es IH]; [done|]. rewrite fmap_cons, !filter_cons. cbn [fst]. destruct (decide _); [|exact IH]. rewrite !fmap_cons, IH. done.
Qed.

(** A new file in the root directory keeps all of this. *)
Lemma Tree_added fs X Y bpi d ess F name n i self' : Shows fs X → Tree (v_size (device fs)) X (cache fs) bpi d ess F → n ≠ ROOT_DIRECTORY_INODE →
  1 ≤ n ≤ inodes_count (base (vol_sb X)) → NoDup (free_inode_list X) → name ∉ e_name <$> concat ess → file_type i = Ok TRegular →
  Added (v_size (device fs)) X Y (root_dir X ess (cache fs)) self' bpi d name n i →
  let ess' := d_entries self' in
  let F' m := if m =? ROOT_DIRECTORY_INODE then WDirectory (root_dir Y ess' (cache fs)) else if m =? n then WRegular (mkFile n i 0) else F m in
  Tree (v_size (device fs)) Y (cache fs) bpi d ess' F' ∧ pairs ess' ≡ₚ (name, n) :: pairs ess.
Proof.
  intros H HT Hn Hnr Hndf Hnew Hi HA ess' F'. pose proof HA as [A1 A2 A3 A4 A5 A6 A7 A8 A9 A10]. cbn [root_dir d_file d_entries d_cache f_inode_number] in *. fold ess' in A4.
  assert (n ∈ free_inode_list X) as Hnf by (rewrite A7; apply elem_of_cons; by left). rewrite A7 in Hndf. apply NoDup_cons in Hndf as [HnY _].
  assert (∀ m, m ∉ free_inode_list X → m ∉ free_inode_list Y) as Hkeep by (intros m Hm Hin; apply Hm; rewrite A7; apply elem_of_cons; by right).
  assert (f_inode (d_file self') = inode_at Y ROOT_DIRECTORY_INODE) as EiY by (rewrite (of_inode _ _ _ _ _ _ (od_open _ _ _ _ _ A1)), A2; done).
  split; [|exact A4]. split.
  - destruct A1 as [[O1 O2 O3 O4 O5 O6 O7 O8] B2 B3 B4 B5 B6]. unfold root_dir. split; cbn [d_file d_entries f_inode]; try done; [|by rewrite <- EiY].
    split; cbn [f_inode f_inode_number f_io_offset]; rewrite <- ?EiY; try done; [by rewrite <- A2|]. split; [done|apply O5].
  - unfold F'. by rewrite Z.eqb_refl.
  - apply Hkeep, HT.
  - assert (e_name <$> concat ess' ≡ₚ name :: (e_name <$> concat ess)) as ->.
    { assert (∀ l : list (list Entry), e_name <$> concat l = fst <$> pairs l) as En by (intros l; unfold pairs; by rewrite <- list_fmap_compose). rewrite !En. unfold pairs. rewrite A4. done. }
    constructor; [done|apply HT].
  - apply Forall_forall. intros e He. assert ((e_name e, e_inode e) ∈ (name, n) :: pairs ess) as Hin by (unfold pairs; rewrite <- A4; by apply (list_elem_of_fmap_2 (λ e, (e_name e, e_inode e)))).
    destruct (decide (e_inode e = ROOT_DIRECTORY_INODE)) as [|Hr]; [by left|right]. unfold F'. rewrite (proj2 (Z.eqb_neq _ _)) by done. apply elem_of_cons in Hin as [[= _ ->]|Hin].
    + split; [done|]. rewrite Z.eqb_refl, <- A5. exists []. split; [|by intros b Hb%not_elem_of_nil]. apply at_regular; [by rewrite (sp_inodes _ _ A8)|by rewrite A5].
    + apply list_elem_of_fmap in Hin as (e0 & [= E1 E2] & He0). pose proof (tr_files _ _ _ _ _ _ _ HT) as HF. rewrite Forall_forall in HF. rewrite E2 in *.
      destruct (HF e0 He0) as [?|(Hu & bl & Hbl & Hd)]; [done|]. assert (e_inode e0 ≠ n) as Hne by (intros E; apply Hu; by rewrite E). rewrite (proj2 (Z.eqb_neq _ _)) by done.
      split; [by apply Hkeep|]. exists bl. split; [|done]. apply (FileAt_same _ X); [done| |intros b Hb; by apply A9, Hd|done]. apply A10; [|done|done]. by destruct Hbl.
  - rewrite <- A6. eapply Forall_impl; [apply HT|]. intros b. by apply DataBlock_places.
  - rewrite (sp_block _ _ A8), (sp_bpg _ _ A8). apply HT.
Qed.
End Trees.

(** ** Theorems *)

Section Theorems.
Context {P : Profile} {BF : Bitflags} {S : Type} {ST : Storage S} {V : View S} {FS : FlatStorage S} {ES : EndSeek S}.

(** [C25] The root directory of a volume whose entries are in its blocks, within the double indirection, have
    different names and inodes that can be opened, and whose virtual inodes are those of [place], lists these, each once and in the
    order of their names, and then the entries that its blocks on the disk hold, but for [.] and [..]; it opens a
    virtual name as that inode, any other name that is on the disk as the file of its inode, with the path of the name and,
    for a directory, the volume's inode as [..], and a name that is neither is not opened. Nothing is changed. *)
Theorem open_name_spec {R : Type} (place : Place R) (self_inode : option R) (is_dir : R → bool) (fs : Ext2 S) (X : Vol) (full : IndirectedBlocks) (ess : list (list Entry))
    (F : Z → TypeWithFile) (Hshows : Shows fs X) (Hlisting : Listing (v_size (device fs)) X (cache fs) full ess F) :
  (∃ fs' names, volume_list is_dir fs place = Ret (names ++ ((λ e, (e_name e, is_directory (F (e_inode e)))) <$>
      filter (λ e, e_name e ≠ CUR_DIR ∧ e_name e ≠ PARENT_DIR) (concat ess)), fs') ∧ Shows fs' X ∧
    (names ≡ₚ (λ p, (p.1, match p.2 with Itself => true | Ref r => is_dir r end)) <$> map_to_list (virtual_inodes place)) ∧
    Sorted (λ a b, Vfs.str_leb a b = true) names.*1) ∧
  (∀ name inode, virtual_inodes place !! name = Some inode → volume_open fs place self_inode name = Ret (Some (OpenedVirtual inode), fs)) ∧
  (∀ e, e ∈ concat ess → virtual_inodes place !! e_name e = None → ∃ fs',
    volume_open fs place self_inode (e_name e) = Ret (opened self_inode (place_path place ++ e_name e ++ [47]) (F (e_inode e)), fs') ∧ Shows fs' X) ∧
  (∀ name, name_ok name → virtual_inodes place !! name = None → name ∉ e_name <$> concat ess → ∃ fs', volume_open fs place self_inode name = Ret (None, fs') ∧ Shows fs' X).
Proof.
  destruct (volume_list_ok is_dir place fs X full ess F Hshows Hlisting) as (fs1 & E1 & H1 & _). destruct (virtual_infos_ok is_dir place) as [HP HO].
  split_and!; [by exists fs1, (virtual_infos is_dir place)|intros name inode Hv; unfold volume_open; by rewrite Hv|..].
  - intros e He Hv. pose proof (ls_files _ _ _ _ _ _ Hlisting) as HF. unfold Files in HF. rewrite Forall_forall in HF. destruct (HF e He) as [Hn _].
    destruct (volume_open_ok place self_inode fs X full ess F (e_name e) Hshows Hlisting Hn Hv) as (fs2 & E2 & H2 & _). exists fs2. split; [|done]. rewrite E2, (find_some _ _ e) by (done || apply Hlisting). done.
  - intros name Hn Hv Hnew. destruct (volume_open_ok place self_inode fs X full ess F name Hshows Hlisting Hn Hv) as (fs2 & E2 & H2 & _). exists fs2. split; [|done]. by rewrite E2, find_none.
Qed.

(** [C17] Creating a file in the root directory of a volume, in direct blocks, all of whose entries have room for a NUL
    behind their name and can be opened, where an inode is free and one entry has enough spare space for the new one behind it: the file gets the first free inode and an entry, both on
    the disk, and is opened under its name as an empty regular file (or the virtual inode of that name is); the other
    names open what they opened before, the counts stay exact, no block is taken, and all data outside the directory
    is as it was. A name that exists is refused, and nothing changes. (Without the spare space [defragment] writes a
    short block, and an entry without room makes [free_space] underflow: [defragment_short], [full_entry_space].) *)
Theorem create_file_spec {R : Type} (place : Place R) (self_inode : option R) (fs : Ext2 S) (X : Vol) (bpi : Z) (d : list Z) (ess : list (list Entry))
    (F : Z → TypeWithFile) (name : list Z) (n : Z) (l : list Z)
    (Hshows : Shows fs X) (Hcounted : Counted X) (Htree : Tree (v_size (device fs)) X (cache fs) bpi d ess F) (Hname : name_ok name)
    (Hnew : name ∉ e_name <$> concat ess) (Hspace : ∃ e, e ∈ concat ess ∧ min_size name ≤ spare e) (Hinode : free_inode_list X = n :: l) :
  let i := new_inode (vol_sb X) 0 0 0 in
  let file := OpenedFile (place_path place ++ name ++ [47]) (mkFile n i 0) in
  (∃ fs1 Y ess' F', volume_create fs place self_inode name false = Ret (Some (default file (OpenedVirtual <$> virtual_inodes place !! name)), fs1) ∧
    Shows fs1 Y ∧ Counted Y ∧ Tree (v_size (device fs1)) Y (cache fs1) bpi d ess' F' ∧
    pairs ess' ≡ₚ (name, n) :: pairs ess ∧ F' n = WRegular (mkFile n i 0) ∧ (∀ m, m ≠ n → m ≠ ROOT_DIRECTORY_INODE → F' m = F m) ∧
    free_list X ≡ₚ free_list Y ∧ free_inode_list X ≡ₚ n :: free_inode_list Y ∧ (∀ b, b ∉ d → block_data Y b = block_data X b)) ∧
  (∀ e is_dir, e ∈ concat ess → ∃ fs', volume_create fs place self_inode (e_name e) is_dir = Ret (None, fs') ∧ Shows fs' X).
Proof.
  intros i file. destruct (root_ok fs X bpi d ess F Hshows Htree) as (fs1 & E1 & H1 & M1). pose proof (Tree_mounted _ _ _ _ _ _ _ M1 Htree) as HT1.
  destruct (Tree_parts fs1 X bpi d ess F H1 HT1) as [_ HF]. pose proof (mo_size _ _ M1) as Hsz. pose proof (tr_open _ _ _ _ _ _ _ Htree) as HOD. rewrite <- Hsz in HOD. split.
  - unfold volume_create. rewrite E1. run. rewrite UnixStr_ok by done. cbn [unwrap]. run.
    destruct (add_entry_ok fs1 X (root_dir X ess (cache fs)) bpi d F name n l 0 0 0 H1 Hcounted HOD HF) as (fs2 & self' & Y & E2 & H2 & Hc2 & M2 & HA);
      [rewrite Hsz; apply Htree|apply Htree|done|done|done|done|apply Htree|done|done|done|].
    rewrite E2. run. cbn [fst snd]. fold i in HA. assert (n ∈ free_inode_list X) as Hnf by (rewrite Hinode; apply elem_of_cons; by left).
    destruct (Tree_added fs X Y bpi d ess F name n i self') as [HT' HP]; [done|done| | |by apply (NoDup_free_inode_list (device fs)), Hshows|done|by apply new_inode_type|by rewrite <- Hsz|].
    { intros ->. by apply (tr_used _ _ _ _ _ _ _ Htree). }
    { by apply (elem_of_free_inode_list _ X n (sh_dev _ _ Hshows)). }
    pose proof (transitivity M1 M2) as M. pose proof (Tree_mounted _ _ _ _ _ _ _ M HT') as HT2. set (F' := λ m, _) in HT'.
    assert (n ≠ ROOT_DIRECTORY_INODE) as Hn2 by (intros ->; by apply (tr_used _ _ _ _ _ _ _ Htree)).
    assert (F' n = WRegular (mkFile n i 0)) as EFn by (unfold F'; by rewrite (proj2 (Z.eqb_neq _ _)), Z.eqb_refl).
    assert (∃ fs3, volume_open fs2 place self_inode name = Ret (Some (default file (OpenedVirtual <$> virtual_inodes place !! name)), fs3) ∧ Shows fs3 Y ∧ Mounted fs2 fs3)
      as (fs3 & E3 & H3 & M3).
    { destruct (virtual_inodes place !! name) as [c|] eqn:Hv; [exists fs2; unfold volume_open; by rewrite Hv|].
      destruct (volume_open_ok place self_inode fs2 Y _ (d_entries self') F' name H2 (Tree_listing _ _ _ _ _ _ H2 HT2) Hname Hv) as (fs3 & E3 & ? & ?). exists fs3. rewrite E3. split; [|done].
      assert ((name, n) ∈ pairs (d_entries self')) as Hin by (rewrite HP; apply elem_of_cons; by left). apply list_elem_of_fmap in Hin as (e & [= Ee1 Ee2] & He).
      rewrite (find_some name _ e) by (done || apply HT'). cbn. rewrite <- Ee2, EFn. done. }
    rewrite E3. exists fs3, Y, (d_entries self'), F'. split_and!; [done|done|done|by apply (Tree_mounted _ _ _ _ _ _ _ M3)|done|done| |apply HA|apply HA|apply HA].
    intros m Hm1 Hm2. unfold F'. by rewrite !(proj2 (Z.eqb_neq _ _)) by done.
  - intros e is_dir He. unfold Files in HF. rewrite Forall_forall in HF. destruct (HF e He) as [Hn _]. rewrite <- Forall_forall in HF.
    unfold volume_create. rewrite E1. run. rewrite UnixStr_ok by done. cbn [unwrap]. run. unfold add_entry.
    destruct (Directory_entry_ok fs1 X (root_dir X ess (cache fs)) bpi d F (e_name e) H1 HOD HF) as (fs2 & -> & H2 & M2). run. cbn [root_dir d_entries].
    rewrite (find_some _ _ e) by (done || apply Htree). cbn. by exists fs2.
Qed.
End Theorems.

(** ** Symbolic links *)

Section Links.
Context {P : Profile} {BF : Bitflags} {S : Type} {ST : Storage S} {V : View S} {FS : FlatStorage S} {ES : EndSeek S}.
Implicit Types (fs : Ext2 S) (X : Vol).

Lemma rd_words_ok k : ∀ l, Forall is_byte l → length l = (4 * k)%nat → let w := (rd_words k l).1 in
  words_le w = l ∧ length w = k ∧ forallb (in_range 32) w = true.
Proof.
  induction k as [|k IH]; intros l Hl Hn; [by destruct l|]. cbn [rd_words]. unfold rd. cbv iota beta.
  assert (length (take 4 l) = 4%nat) as H4 by (rewrite length_take; lia).
  pose proof (to_from_le (take 4 l) (Forall_take _ _ _ Hl)) as E. rewrite H4 in E.
  pose proof (from_le_range (take 4 l) (Forall_take _ _ _ Hl)) as Hr.
  destruct (IH (drop 4 l)) as (I1 & I2 & I3); [by apply Forall_drop|rewrite length_drop, Hn; lia|].
  destruct (rd_words k (drop 4 l)) as [w r]. cbn [fst] in *. split_and!; [|cbn; lia|].
  - unfold words_le in *. cbn [flat_map]. by rewrite E, I1, take_drop.
  - cbn [forallb]. rewrite I3, andb_true_r. apply in_range_true. unfold zlen in Hr. by rewrite H4 in Hr.
Qed.

Lemma pointer_bytes_set i size l : Forall is_byte l → zlen l = 60 → pointer_bytes (set_pointer_bytes i size l) = l.
Proof.
  intros Hl Hn. unfold zlen in Hn. destruct (rd_words_ok 15 l Hl) as (E & _ & _); [lia|]. unfold pointer_bytes, set_pointer_bytes.
  cbn [direct_block_pointers singly_indirect_block_pointer doubly_indirect_block_pointer triply_indirect_block_pointer].
  exact E.
Qed.

Lemma set_pointer_bytes_fits i size l : Inode_fits i = true → in_range 32 size = true → Forall is_byte l → zlen l = 60 → Inode_fits (set_pointer_bytes i size l) = true.
Proof.
  intros Hi Hs Hl Hn. unfold zlen in Hn. destruct (rd_words_ok 15 l Hl) as (_ & Hw & Hr); [lia|].
  unfold Inode_fits in *. unfold set_pointer_bytes. cbn [i_mode i_uid i_size i_atime i_ctime i_mtime i_dtime i_gid links_count i_blocks i_flags osd1
    direct_block_pointers singly_indirect_block_pointer doubly_indirect_block_pointer triply_indirect_block_pointer generation file_acl dir_acl faddr osd2].
  generalize dependent (rd_words 15 l).1. intros w Hw Hr.
  destruct w as [|a0 [|a1 [|a2 [|a3 [|a4 [|a5 [|a6 [|a7 [|a8 [|a9 [|a10 [|a11 [|a12 [|a13 [|a14 [|? ?]]]]]]]]]]]]]]]]; try discriminate Hw.
  cbn [forallb take nth] in *. unfold array_wf in *. cbn [forallb]. rewrite !andb_true_iff in *. intuition.
Qed.

Lemma until_nul_ok l : existsb (λ b, b =? 0) l = false → until_nul l = l.
Proof. induction l as [|b l IH]; [done|]. cbn. destruct (b =? 0); [done|]. cbn. intros H. by rewrite IH. Qed.

Lemma set_inode_ok fs X t self i : Shows fs X → 1 ≤ f_inode_number self ≤ inodes_count (base (vol_sb X)) → Inode_fits i = true → file_type i = Ok t →
  ∃ fs', set_inode fs self i = Ret (Ok tt, (fs', mkFile (f_inode_number self) i (f_io_offset self))) ∧ Shows fs' (with_inode X (f_inode_number self) i) ∧ Mounted fs fs'.
Proof.
  intros H Hn Hf Ht. destruct (Inode_write_ok fs X (f_inode_number self) i H Hn Hf) as (fs1 & E1 & H1 & M1). unfold set_inode, on_volume. rewrite E1. run. cbn [fst snd].
  assert (inode_at (with_inode X (f_inode_number self) i) (f_inode_number self) = i) as Ei by (rewrite (inode_at_with (device fs)), Z.eqb_refl by (done || apply H); done).
  destruct (Inode_parse_ok fs1 _ (f_inode_number self) t H1 Hn) as (fs2 & E2 & H2 & M2); [by rewrite Ei|]. unfold update_inner_inode, on_volume. rewrite E2, Ei. run. cbn [fst snd].
  exists fs2. split_and!; [done|done|by etrans].
Qed.

(** [C31] A symbolic link set to a path of less than 60 bytes without a NUL keeps it in its inode: the call succeeds, and opening the link again gives
    that path, whatever the link was before. No block of the volume and no other inode is touched. *)
Theorem short_link_roundtrip fs X (self : SymbolicLink) (path : list Z) (Hshows : Shows fs X)
    (Hinode : 1 ≤ f_inode_number (s_file self) ≤ inodes_count (base (vol_sb X))) (Hfits : Inode_fits (f_inode (s_file self)) = true)
    (Htype : file_type (f_inode (s_file self)) = Ok TSymbolicLink) (Hsize : dir_acl (f_inode (s_file self)) = 0)
    (Hpath : Forall is_byte path) (Hshort : zlen path < SYMBOLIC_LINK_INODE_STORE_LIMIT) (Hutf8 : is_Some (from_utf8 path))
    (Hnul : existsb (λ b, b =? 0) path = false) :
  let n := f_inode_number (s_file self) in
  ∃ fs1 link i, set_pointed_file fs self path = Ret (Ok tt, (fs1, link)) ∧ Shows fs1 (with_inode X n i) ∧ Mounted fs fs1 ∧ s_pointed_file link = path ∧
    ∃ fs2, SymbolicLink_new fs1 n = Ret (Ok (mkSymlink (mkFile n i 0) path), fs2) ∧ Shows fs2 (with_inode X n i).
Proof.
  intros n. unfold SYMBOLIC_LINK_INODE_STORE_LIMIT in Hshort. pose proof (zlen_nonneg path) as Hp. set (i := f_inode (s_file self)) in *.
  assert (zlen (pointer_bytes i) = 60) as H60. { unfold pointer_bytes. rewrite zlen_words_le, zlen_app. unfold Inode_fits, array_wf in Hfits. rewrite !andb_true_iff, Z.eqb_eq in Hfits. destruct_and! Hfits. rewrite !zlen_cons. change (zlen (@nil Z)) with 0. lia. }
  set (l := splice (pointer_bytes i) 0 path). assert (zlen l = 60) as Hl by (unfold l; rewrite zlen_splice by lia; done).
  assert (Forall is_byte l) as Hb by (unfold l, splice; apply Forall_app_2; [apply Forall_take, words_le_bytes|apply Forall_app_2; [done|apply Forall_drop, words_le_bytes]]).
  set (i' := set_pointer_bytes i (zlen path) l). assert (Inode_fits i' = true) as Hf' by (apply set_pointer_bytes_fits; [done|apply in_range_true; lia|done|done]).
  destruct (set_inode_ok fs X TSymbolicLink (s_file self) i' Hshows Hinode Hf' Htype) as (fs1 & E1 & H1 & M1).
  unfold set_pointed_file, PATH_MAX, SYMBOLIC_LINK_INODE_STORE_LIMIT. rewrite (proj2 (Z.ltb_ge 4096 _)), (proj2 (Z.ltb_ge 60 _)) by lia. fold i l i'. unfold on_s_file, core. rewrite E1. run. cbn [fst snd s_file].
  exists fs1, (mkSymlink (mkFile n i' (f_io_offset (s_file self))) path), i'. split_and!; [done|done|done|done|].
  assert (inode_at (with_inode X n i') n = i') as Ei by (rewrite (inode_at_with (device fs)), Z.eqb_refl by (done || apply Hshows); done).
  change (f_inode_number (s_file self)) with n in H1, Hinode. destruct (File_new_ok fs1 _ n TSymbolicLink H1 Hinode) as (fs2 & E2 & H2 & _); [by rewrite Ei|]. exists fs2. split; [|done].
  unfold SymbolicLink_new. rewrite E2. run. cbn [f_inode]. rewrite Ei. cbn [f_inode].
  assert (data_size i' = zlen path) as Ed. { unfold data_size, i', set_pointer_bytes. cbn [i_size dir_acl type_permissions i_mode]. rewrite Hsize. destruct (fl_contains _ _); [done|]. rewrite Z.shiftl_0_l. apply Z.add_0_r. }
  rewrite Ed. unfold SYMBOLIC_LINK_INODE_STORE_LIMIT. rewrite (proj2 (Z.ltb_lt _ 60)) by lia. run.
  assert (take (Z.to_nat (zlen path)) (pointer_bytes i') = path) as ->.
  { unfold i'. rewrite pointer_bytes_set by done. unfold l, splice. cbn [Z.to_nat take]. rewrite app_nil_l. apply take_app_length'. unfold zlen. lia. }
  rewrite until_nul_ok by done. destruct Hutf8 as [u ->]. done.
Qed.
End Links.

(** ** A volume with a directory

    The root directory in block 13, with a file [notes] of three bytes in block 14. *)

Local Existing Instance Reference.bitflags.

Definition root_inode : Inode := mkInode 0x41ED 0 1024 0 0 0 0 0 2 2 0 0 [13; 0; 0; 0; 0; 0; 0; 0; 0; 0; 0; 0] 0 0 0 0 0 0 0 (zeros 12).
Definition notes_inode : Inode := mkInode 0x81A4 1 3 0 0 0 0 2 1 2 0 0 [14; 0; 0; 0; 0; 0; 0; 0; 0; 0; 0; 0] 0 0 0 0 0 0 0 (zeros 12).
Definition notes : list Z := [110; 111; 116; 101; 115].
Definition root_entries : list Entry := [mkEntry 2 12 1 2 CUR_DIR; mkEntry 2 12 2 2 PARENT_DIR; mkEntry 5 1000 5 1 notes].

Definition dir_disk : SparseIO :=
  let m := sp_put (PositiveMap.empty Z) 1024 (Base_enc file_base) in
  let m := sp_put m 2048 (Group_enc file_group) in
  let m := sp_put m 3072 [0xFF; 0x3F; 0x08] in
  let m := sp_put m 4096 [0x1F] in
  let m := sp_put m 5248 (Inode_enc root_inode) in
  let m := sp_put m 5632 (Inode_enc notes_inode) in
  let m := sp_put m (13 * 1024) (Entry_as_bytes (mkEntry 2 12 1 2 CUR_DIR) ++ [0; 0] ++ Entry_as_bytes (mkEntry 2 12 2 2 PARENT_DIR) ++ [0] ++
    Entry_as_bytes (mkEntry 5 1000 5 1 notes)) in
  mkSparse (sp_put m (14 * 1024) [31; 32; 33]) 1049600 0.

Definition dir_vol : Vol := mkVol (Basic file_base) (λ _, file_group)
  (λ a _, match a with
    | ABlocks => [0xFF; 0x3F; 0x08] ++ zeros 125
    | AInodes => [0x1F]
    | ATable => zeros 128 ++ Inode_enc root_inode ++ zeros 256 ++ Inode_enc notes_inode ++ zeros 384
    end) (v_byte dir_disk).

Definition dir_fs (cache : bool) : Ext2 SparseIO := mkExt2 0 dir_disk (Basic file_base) false false cache ∅ ∅.

Lemma dir_shows cache : Shows (dir_fs cache) dir_vol.
Proof.
  split; [|done|intros n d _; cbn; by rewrite lookup_empty|intros n i _; cbn; by rewrite lookup_empty]. split.
  - apply sparse_ok. vm_compute. reflexivity.
  - reflexivity.
  - apply (ds_layout _ _ (sh_dev _ _ (file_shows cache))).
  - vm_compute. reflexivity.
  - done.
  - intros g ->%file_one; split; vm_compute; reflexivity.
  - intros g a ->%file_one; destruct a; vm_compute; reflexivity.
  - done.
Qed.

Lemma dir_counted : Counted dir_vol.
Proof. split; [| |vm_compute; reflexivity..]; intros g ->%file_one; vm_compute; reflexivity. Qed.

Lemma dir_places : SamePlaces file_vol dir_vol.
Proof. by split. Qed.

(** A name is checked by computing. *)
Lemma name_check name : forallb (λ b, (0 <? b) && (b <? 256)) name && bool_decide (is_Some (from_utf8 name)) && negb (bool_decide (name = [])) && (zlen name <? 256) = true → name_ok name.
Proof.
  rewrite !andb_true_iff, negb_true_iff. intros [[[H1 H2] H3] H4]. split_and!; [|by apply bool_decide_eq_true in H2|by apply bool_decide_eq_false in H3|lia].
  apply forallb_Forall in H1. eapply Forall_impl; [exact H1|]. intros b Hb. cbv beta in Hb. lia.
Qed.

Lemma root_roomy : Forall Roomy root_entries.
Proof.
  repeat constructor; try reflexivity; try (vm_compute; discriminate); cbn [e_name]; try (eexists; reflexivity); try discriminate.
Qed.

Definition dir_files (cache : bool) (m : Z) : TypeWithFile :=
  if m =? ROOT_DIRECTORY_INODE then WDirectory (root_dir dir_vol [root_entries] cache) else WRegular (mkFile 5 notes_inode 0).

Lemma dir_open_dir cache : OpenDir 1049600 dir_vol (root_dir dir_vol [root_entries] cache) 256 [13].
Proof.
  assert (inode_at dir_vol ROOT_DIRECTORY_INODE = root_inode) as Ei by (vm_compute; reflexivity). unfold root_dir. rewrite Ei.
  assert (Small (direct 256 [13]) ∧ traverse (direct 256 [13]) = [13]) as [HS HT].
  { split; [|apply blocks_of_direct]. apply direct_small; [split; vm_compute; reflexivity|vm_compute; discriminate|by repeat constructor]. }
  assert (Forall (DataBlock 1049600 dir_vol) [13]) as HD by (apply Forall_singleton, (DataBlock_places _ file_vol); [apply dir_places|apply file_data; lia]).
  split; cbn [d_file d_entries f_inode].
  - split; cbn [f_inode f_inode_number f_io_offset]; [vm_compute; split; discriminate|by rewrite Ei|reflexivity|reflexivity| |by apply NoDup_singleton| |vm_compute; split; discriminate].
    + split; [|by vm_compute|by vm_compute]. by split.
    + apply Forall_singleton. split; [vm_compute; split; [discriminate|reflexivity]|]. apply (bool_decide_unpack _). vm_compute. exact I.
  - reflexivity.
  - done.
  - constructor; [|constructor]. destruct (entries_bytes_ok (P := release) root_entries root_roomy) as (l & E & _ & HB & _).
    assert (entries_bytes (P := release) root_entries = Ret (block_data dir_vol 13)) as E' by (vm_compute; reflexivity). rewrite E' in E. by injection E as <-.
  - apply Forall_singleton, root_roomy.
  - apply Forall_singleton. vm_compute. discriminate.
Qed.

Lemma dir_tree cache : Tree 1049600 dir_vol cache 256 [13] [root_entries] (dir_files cache).
Proof.
  split.
  - apply dir_open_dir.
  - reflexivity.
  - apply (bool_decide_unpack _). vm_compute. exact I.
  - apply (bool_decide_unpack _). vm_compute. exact I.
  - constructor; [by left|]. constructor; [by left|]. apply Forall_singleton. right. split; [apply (bool_decide_unpack _); vm_compute; exact I|]. exists []. split; [|by intros b Hb%not_elem_of_nil].
    assert (inode_at dir_vol 5 = notes_inode) as Ei by (vm_compute; reflexivity). cbn [e_inode]. change (dir_files cache 5) with (WRegular (mkFile 5 notes_inode 0)). rewrite <- Ei.
    apply at_regular; [vm_compute; split; discriminate|by rewrite Ei].
  - change (free_list dir_vol) with (free_list file_vol). eapply Forall_impl; [exact file_free_data|]. intros b. apply DataBlock_places, dir_places.
  - vm_compute. discriminate.
Qed.

Lemma in_notes : mkEntry 5 1000 5 1 notes ∈ concat [root_entries].
Proof. cbn. set_solver. Qed.

(** The volume is mounted at [/m/], and inode 7 under the name [w] in it. *)
Definition mount_path : list Z := [47; 109; 47].
Definition sample_place : Place Z := place_mount (place_mounted Place_new mount_path (Some 1)) 7 [119].

Lemma open_name_spec_witness : Shows (dir_fs true) dir_vol ∧ Listing 1049600 dir_vol true (direct 256 [13]) [root_entries] (dir_files true) ∧
  volume_open (P := release) (dir_fs true) sample_place (Some 4) [119] = Ret (Some (OpenedVirtual (Ref 7)), dir_fs true) ∧
  ∃ fs', volume_open (P := release) (dir_fs true) sample_place (Some 4) notes = Ret (Some (OpenedFile (mount_path ++ notes ++ [47]) (mkFile 5 notes_inode 0)), fs') ∧ Shows fs' dir_vol.
Proof.
  split_and!; [apply dir_shows|exact (Tree_listing (P := release) _ _ _ _ _ _ (dir_shows true) (dir_tree true))|..];
    destruct (open_name_spec (P := release) sample_place (Some 4) (λ _, true) (dir_fs true) dir_vol (direct 256 [13]) [root_entries] (dir_files true) (dir_shows true)
      (Tree_listing (P := release) _ _ _ _ _ _ (dir_shows true) (dir_tree true))) as (_ & Hv & H & _).
  - apply Hv. reflexivity.
  - apply (H (mkEntry 5 1000 5 1 notes)); [apply in_notes|reflexivity].
Defined.

Example sample_listing : match volume_list (P := release) (λ _, false) (dir_fs true) sample_place with Ret (l, _) => l | Panic => [] end =
  [([46], true); ([46; 46], false); ([119], false); (notes, false)].
Proof. vm_compute. reflexivity. Qed.

Definition draft_name : list Z := [97; 98; 99].

Lemma create_file_spec_witness : Shows (dir_fs false) dir_vol ∧ Counted dir_vol ∧ Tree 1049600 dir_vol false 256 [13] [root_entries] (dir_files false) ∧ name_ok draft_name ∧
  (draft_name ∉ (e_name <$> concat [root_entries])) ∧ (∃ e, e ∈ concat [root_entries] ∧ min_size draft_name ≤ spare e) ∧ free_inode_list dir_vol = [6; 7; 8] ∧
  ∃ fs1, volume_create (P := release) (dir_fs false) sample_place (Some 4) draft_name false =
    Ret (Some (OpenedFile (mount_path ++ draft_name ++ [47]) (mkFile 6 (new_inode (vol_sb dir_vol) 0 0 0) 0)), fs1).
Proof.
  assert (name_ok draft_name) as Hn by (apply name_check; vm_compute; reflexivity).
  assert (draft_name ∉ e_name <$> concat [root_entries]) as Hd by (apply (bool_decide_unpack _); vm_compute; exact I).
  assert (∃ e, e ∈ concat [root_entries] ∧ min_size draft_name ≤ spare e) as He.
  { exists (mkEntry 5 1000 5 1 notes). split; [apply in_notes|vm_compute; discriminate]. }
  assert (free_inode_list dir_vol = [6; 7; 8]) as Hf by (vm_compute; reflexivity).
  split_and!; [apply dir_shows|apply dir_counted|apply dir_tree|done|done|done|done|].
  destruct (create_file_spec (P := release) sample_place (Some 4) (dir_fs false) dir_vol 256 [13] [root_entries] (dir_files false) draft_name 6 [7; 8]
    (dir_shows false) dir_counted (dir_tree false) Hn Hd He Hf) as [(fs1 & Y & ess & F & E1 & _) _].
  exists fs1. exact E1.
Defined.

Definition link_inode : Inode := mkInode 0xA1FF 0 0 0 0 0 0 0 1 0 0 0 (zeros 12) 0 0 0 0 0 0 0 (zeros 12).

Lemma short_link_roundtrip_witness : Shows (dir_fs false) dir_vol ∧ file_type link_inode = Ok TSymbolicLink ∧
  ∃ fs1 link i fs2, set_pointed_file (P := release) (dir_fs false) (mkSymlink (mkFile 6 link_inode 0) []) draft_name = Ret (Ok tt, (fs1, link)) ∧
    SymbolicLink_new (P := release) fs1 6 = Ret (Ok (mkSymlink (mkFile 6 i 0) draft_name), fs2).
Proof.
  split; [apply dir_shows|]. split; [reflexivity|].
  destruct (short_link_roundtrip (P := release) (dir_fs false) dir_vol (mkSymlink (mkFile 6 link_inode 0) []) draft_name (dir_shows false))
    as (fs1 & link & i & E1 & _ & _ & _ & fs2 & E2 & _); [vm_compute; split; discriminate|reflexivity..|by repeat constructor|reflexivity|by eexists|reflexivity|].
  exists fs1, link, i, fs2. split; [exact E1|exact E2].
Defined.

(** ** What goes wrong *)

(** The answer of an operation, without the volume. *)
Definition answer {A B : Type} (m : out (A * B)) : out A := '(a, _) ← m; Ret a.

(** A directory made in the root directory: the entry [.] of the new directory has the length 9 and takes ten bytes, so that
    [..] is read one byte early. Opening any name of the root opens the new directory too, and fails. *)
Example create_directory_breaks :
  ('(r, fs) ← volume_create (P := release) (dir_fs false) sample_place (Some 4) draft_name true;
   r' ← answer (volume_open (P := release) fs sample_place (Some 4) notes); Ret (r, r')) = Ret (None, None) ∧
  answer (volume_open (P := release) (dir_fs false) sample_place (Some 4) notes) = Ret (Some (OpenedFile (mount_path ++ notes ++ [47]) (mkFile 5 notes_inode 0))).
Proof. split; vm_compute; reflexivity. Qed.

(** An entry whose name fills its record, without a NUL: the free space is below zero. *)
Example full_entry_space : let e := mkEntry 5 12 4 1 [116; 101; 115; 116] in
  free_space (P := dev) e = Panic ∧ find_in_block (P := release) 12 [e] 0 = Ret (Some 0).
Proof. split; reflexivity. Qed.

(** Entries moved together: the last one of a block gets the length that is left behind it, not the one up to the
    end of the block. *)
Example defragment_short : ∃ l, defragment_loop (P := release) 1024 root_entries [] [] 0 = Ret [l] ∧ total l = 1008.
Proof. eexists. split; [vm_compute; reflexivity|]. vm_compute. reflexivity. Qed.

(** A symbolic link made in the root directory, set to a path and opened again. *)
Definition link_again (path : list Z) : out (option (result DirErr (list Z))) :=
  '(r, fs) ← root (P := release) (dir_fs false);
  match r with
  | Err _ => Ret None
  | Ok d =>
      '(r, st) ← add_entry (P := release) fs d draft_name TSymbolicLink 0 0 0;
      match r with
      | Ok (WSymbolicLink s) =>
          '(r, st) ← set_pointed_file (P := release) st.1 s path;
          match r with
          | Err _ => Ret None
          | Ok _ => r ← answer (core (SymbolicLink_new (P := release) st.1 (f_inode_number (s_file s))));
              Ret (Some (match r with Ok s => Ok (s_pointed_file s) | Err e => Err e end))
          end
      | _ => Ret None
      end
  end.

(** A path of 60 bytes is stored in the inode and read as block pointers. *)
Example link_limit : link_again (replicate 59 97) = Ret (Some (Ok (replicate 59 97))) ∧ link_again (replicate 61 97) = Ret (Some (Ok (replicate 61 97))) ∧
  link_again (replicate 60 97) ≠ Ret (Some (Ok (replicate 60 97))).
Proof. split_and!; [vm_compute; reflexivity..|vm_compute; discriminate]. Qed.
